(* ===== verification/_CoqProject ===== *)
-Q . S2P
Prelude.v
GoStrings.v
Sha256.v
Json.v
JsonDecode.v
Fingerprint.v
OciReference.v
PlanSeal.v
TargetLock.v
TargetLockSafety.v
MutationLifecycle.v
DispatchDriver.v
DispatchSafety.v
KubeMeta.v
PlanStore.v
PlanStoreProofs.v
PlanPublish.v
ResultStore.v
ResultStoreProofs.v
ResultEnvelope.v
ResultPublish.v
ResultRetention.v
ResultCleanup.v
ResultCleanupProofs.v
LifecycleJournal.v
LifecycleJournalProofs.v
MigrationStatus.v
MigrationPlan.v
SourceContent.v
SourceContentProofs.v
SourceSnapshot.v
SourceBinding.v
SourcePolicy.v
ApprovalAdmission.v
ApprovalProofs.v
SpecWriter.v
Cadence.v
RealmCensus.v
Effects.v
KubePod.v
JobConfig.v
JobConfigProofs.v
PodIntent.v
PodIntentProofs.v
PodResolve.v
JobClaim.v
JobClaimProofs.v
PodWebhook.v
PodSample.v
PodGuard.v
ResultAuthority.v
AuthoritySafety.v
AuthoritySample.v
MigrationTypes.v
MigrationClaims.v
MigrationApply.v
MigrationRuns.v
JobRetention.v
WriteRequest.v
WriteObjects.v
PlanGuard.v
JobGuard.v
PlanGuardProofs.v
JobGuardProofs.v
ResultPins.v
RecordGuard.v
WriteGuard.v
WriteSample.v
MigrationResults.v
MigrationDispatch.v
MigrationReconcile.v
MigrationWorld.v
MigrationProofs.v
MigrationRealm.v
MigrationSafety.v
MigrationPass.v
MigrationLifetime.v
MigrationSample.v
MigrationTheorems.v
