(* ===== verification/Prelude.v ===== *)
(** * A verification library of the Ptah operator

    The Ptah operator is a Kubernetes controller that plans and applies
    database schemas and migrations. Its dangerous act is one: it creates a
    Job that changes a database. Everything modelled here exists to make that
    act happen at most once, under a lock, for a plan somebody approved, from
    the bytes that were approved, and to keep an account of it that survives a
    crash at any moment.

    ** The parts, and where they are modelled

    What the others stand on:
    - [GoStrings], [Sha256], [Json], [JsonDecode]: the routines of Go's
      standard library the code calls ([strings], [strconv], [encoding/hex],
      [encoding/base32], [encoding/base64], [regexp], [slices],
      [crypto/sha256], [encoding/json] both ways), executable. A [string] is a
      byte sequence; SHA-256 is the real function. [KubeMeta] is the object
      metadata of the Kubernetes API.
    - [Fingerprint]: [internal/fingerprint], [internal/coordination]. The
      canonical digests: the realm of a target, the identity of a schema plan,
      of an operation and of a migration sequence.
    - [OciReference]: [internal/ocireference]. References, registry
      authorities and the binding of a resolution to its request.

    One Job, one holder:
    - [TargetLock]: [internal/targetlock]. [Acquire] and [Release] of the
      Lease that serializes the operations of one realm, as programs of calls
      to the API server, the clock, the random source and the observation map.
      [TargetLockSafety] composes any number of them into a transition system.
    - [MutationLifecycle]: [internal/mutationlifecycle] but its driver. What
      an operation may do, what to do about a Job that is found or missing,
      what a failure leaves owing, who holds a realm and how it is handed back.
    - [DispatchDriver]: [internal/mutationlifecycle/driver.go]. The nine steps
      from a claim to its one Job, over the [Family] interface, whose methods
      are events. [DispatchSafety] states the interface as the class
      [FamilyLaws] and proves the driver against it.

    What is planned and carried out:
    - [PlanStore]: [internal/planstore], with [internal/plancontract] and
      [internal/controllerstate]. [Prepare], [Publish], [Load], [Project]: a
      plan cut into chunks, committed, read back and projected into a Pod.
      [PlanStoreProofs] and [PlanPublish] hold the theorems.
    - [MigrationStatus]: [internal/dataplane/migration.go]. The documents Ptah
      prints about a migration history and a run, and their validation.
    - [MigrationPlan]: [internal/migrationplan] and the sequence encoding of
      [internal/workload/migration_builder.go]. The identity of a migration
      plan, the selection of its sequence, and the published object.
    - [SourceContent] (theorems in [SourceContentProofs]), [SourceSnapshot],
      [SourceBinding], [SourcePolicy]: [internal/sourcecontent],
      [internal/sourcesnapshot], [internal/sourcebinding],
      [internal/sourcepolicy] and [internal/policy]. Manifests and content
      digests, the immutable copy of a ConfigMap source, what a plan and a Job
      bind of their source, and the policies it was read under.

    What is kept of it:
    - [ResultStore] (with [ResultStoreProofs], [ResultEnvelope],
      [ResultPublish]): [internal/resultstore]. The immutable records a
      runner's result is published and loaded through.
    - [ResultRetention], [ResultCleanup] (with [ResultCleanupProofs]):
      [internal/resultretention], [internal/resultcleanup]. How long evidence
      is kept, what pins it, which deletion is authorized, and the collector.
    - [LifecycleJournal] (with [LifecycleJournalProofs]):
      [internal/lifecyclejournal]. The bounded journal of status writes.

    Who decides:
    - [ApprovalAdmission] (with [ApprovalProofs]), [SpecWriter]:
      [internal/admission], [internal/desiredspec]. The
      webhooks that admit approvals and acknowledgments, and those that record
      who last changed the desired state.

    What may run, and what a runner may say:
    - [KubePod]: the Pod, Job and admission types of the Kubernetes API. What
      apimachinery does with them (defaulting, quantities, qualified names,
      the JSON document of a Pod template) is the class [Apimachinery], with
      the laws relied on in [ApimachineryLaws].
    - [PodIntent] (theorems in [PodIntentProofs], [PodResolve]), [PodWebhook]
      (theorem in [PodGuard]): [internal/podintent] and
      [internal/resultcredentials/binding]. The snapshot of what admission may
      do to a Pod, its resolution and its checks; the webhook that lets in the
      Pods of a claimed operation only.
    - [JobConfig] (theorems in [JobConfigProofs]):
      [internal/resultdelivery/jobconfig]. What a Pod template says of the
      delivery of its result, written into it ([Attach], [AttachPodToken]) and
      read back out of it ([Read]).
    - [JobClaim] (theorems in [JobClaimProofs]), [JobRetention]:
      [internal/jobclaim]. Whether a Job is the one a claim built, and how
      long the Job of a finished run is kept.
    - [ResultAuthority] (theorems in [AuthoritySafety]):
      [internal/resultauthority], with the identities and tokens of
      [internal/resultdelivery]. Whether a runner may still deliver a result.
    - [ResultPins]:
      [internal/resultcredentials] but its X.509 issuer. The record that pins
      the first Pod of an attempt, and what may be done to a credential.
    - [PlanSeal]: [internal/planseal]. The key a Plan Job's runner seals its
      plan to, and the envelope that binds a sealed plan to its attempt.
    - [PodSample] and [AuthoritySample]: an instance of [Apimachinery], and the
      objects of one operation, on which the theorems are run.

    What the manager's own credentials can do ([internal/controllerwrite]):
    - [WriteRequest]: validator.go and job_fields.go. A request, its refusals,
      the decoding of a candidate and the fields of a Job nobody reviewed.
    - [WriteObjects]: the resources the guard reads, its reads as events, and
      from [internal/workload] the names of Jobs (builder.go,
      migration_builder.go) and the two values a rebuilt Job takes from the
      live one (manager_identity.go).
    - [PlanGuard] (theorems in [PlanGuardProofs]): validator.go,
      plan_chunk.go, source_snapshot.go, migration_plan.go. Plans, chunks,
      projections and source snapshots.
    - [JobGuard] (theorems in [JobGuardProofs]): validator.go, migration.go,
      job_retention.go, pod_metadata.go. The creation of Jobs and their
      cleanup time, and the creation of a schema plan.
    - [RecordGuard]: result_records.go, result_credentials.go, and the
      delegates of [internal/resultservice/trust.go]. Result records and the
      Secrets of credentials.
    - [WriteGuard]: which of them judges a
      request ([Validate], [Handle]). It runs [ResultStore], [ResultRetention],
      [ResultCleanup] and [ResultPins] as the code does.
    - [WriteSample]: a cluster in the middle of an Apply, and the requests its
      guard lets in.

    The controllers ([internal/controller]):
    - [Cadence], [RealmCensus]: cadence.go and realm.go. When a resource is
      read again, and whether it may claim its realm beside the others.
    - [MigrationTypes], [MigrationClaims], [MigrationApply], [MigrationRuns],
      [MigrationResults], [MigrationDispatch], [MigrationReconcile]: the
      PtahMigration reconciler, whole. The resource; claims, their retirement
      and the copy of a run nobody accounted for; the plan, the approval and
      the lock of an Apply; what is recorded of a run; what a reading leads
      to; the [Family] given to the dispatch driver; and the pass,
      [MigrationReconcile.reconcile]. A pass threads the resource in memory
      through a program of calls; it runs [DispatchDriver], [TargetLock],
      [RealmCensus], [Cadence], [SourcePolicy] and the owed releases of
      [MutationLifecycle] as the code does ([Effects.hoist] and
      [Effects.interp] put a component's program into its client's).
    - [MigrationWorld]: the API server around it, what a status write may do,
      what each call requires, and the invariant [sound]. [MigrationProofs]
      (the calculus), [MigrationRealm] (the Lease), [MigrationSafety] (the
      kinds of writes), [MigrationPass] and [MigrationLifetime] show that every
      call of a pass meets its requirement from every sound world.
      [MigrationSample] is a cluster the pass runs against, and
      [MigrationTheorems] the theorems over the life of a resource.

    This file holds what they share: the [result] of a fallible function, the
    programs of events [prog] with their readings (a deterministic run, an
    execution against any environment a relation allows, one stopped after
    any number of calls, and one that logs what it was answered), weakest
    preconditions over event specifications, wrap-around integers, and the
    automation. [Effects] adds programs within programs, the calls a program
    makes, and the assignment of one field of a record.

    ** How the code is modelled

    A Go function returning [(T, error)] returns [result E T], with one error
    constructor per refusal of the code; a nil pointer is [None]; a struct is
    a record and a closed set of constants an inductive type, or a string
    where the code accepts any. A method that talks to the API server, a
    clock, or an interface of another component is a [prog]: the answer to a
    call is arbitrary, so a theorem about all executions covers every error,
    lost answer and interleaving the environment can produce. Integers are
    [Z]; where the code converts or adds at a width that can wrap ([int32]
    indices, attempts and transition counts, [int64] durations and sums of
    sizes), the wrap is written out. Log lines, Kubernetes events, metrics and
    the text of conditions are left out.

    The world of the migration controller: one PtahMigration whose spec and
    metadata others change between any two calls; its status is written by the
    manager that leads, and the copy of an unresolved run by nobody else, as
    the chart's admission policy has it. A write names the version it was
    computed from and lands only over it; it may land although its answer is
    an error, and so may the create of a Job unless the answer is a refusal.

    ** What the theorems show

    - The life of a migration ([MigrationTheorems]): through any number of
      passes, each stopped after any call, every Apply a Job may exist for is
      claimed and marked or accounted for ([dispatched_apply_accounted]); a
      Job is created only for the stored, marked claim, after the pass itself
      renewed the realm's Lease under the claim's epoch and spent the approval
      ([apply_jobs_guarded]); no status write loses a dispatched run or a run
      nobody accounted for ([status_writes_keep_runs]); and an Apply is
      claimed only for the current plan, under the policy or an approval of
      exactly it ([applies_authorized]).
    - One Job ([DispatchSafety.one_job_per_claim], with
      [mark_before_create_needed], [DispatchDriver.dispatch_completes] and the
      decisions of [MutationLifecycle]): across any number of dispatch passes,
      each stopped anywhere, at most one Job is stored for a mutating claim,
      and the mark and the account of the authorization cover it; the order of
      the steps is needed for this; a pass that meets no obstacle completes;
      no fault at the boundary makes a mutating claim run again.
    - One holder ([TargetLockSafety.no_early_takeover_reachable] and the
      theorems of [TargetLock], [RealmCensus.realm_owned_or_shared]): no Lease
      is taken from a live holder before its duration has passed, whatever the
      wall clocks say; what [Acquire] reports is what it wrote; [Release]
      clears only its own record; both return after a bounded number of calls
      whatever the server answers ([lock_always_returns]);
      an owed release is forgotten only when it is done; of two resources that must not share a realm neither claims it.
    - The approved bytes ([PlanPublish.publish_resumes],
      [PlanStoreProofs.load_sound], [project_carries_plan],
      [SourceContentProofs.materialize_sound], [snapshot_roundtrip],
      [snapshot_contract], [access_binds_content]): a publication interrupted
      anywhere can be resumed; what is loaded, projected or materialized is
      what was approved.
    - The evidence ([ResultStoreProofs.result_load_sound],
      [one_result_per_attempt], [result_publish_resumes],
      [authority_precedes_writes], [publication_fits],
      [delete_only_when_due], [step_bounded], [retirement_roundtrip]): one
      result per attempt while its records are kept, written under authority,
      loaded as written, deleted only when its window passed and nothing pins
      it, in bounded steps.
    - What runs ([PodGuard.admitted_pod_guarded],
      [PodIntentProofs.pod_spec_envelope], [PodResolve.resolved_snapshot_valid],
      [resolve_again], [merge_keeps_coverage],
      [JobClaimProofs.matched_job_pinned], [claimed_job_recognized]): a Pod is
      let in only for the active claim, whose snapshot still resolves, and its
      spec is the template after exactly the admission that was recorded; a
      Job that matches a claim runs the template the claim recorded, and the
      Job a claim built is recognized however the API server stores it.
    - What the manager can write ([WriteGuard.writes_guarded],
      [JobGuardProofs.job_create_guarded], [job_update_guarded],
      [PlanGuardProofs.apply_mounts_plan], [guard_admits_store],
      [prepared_plan_admitted], [plan_pieces_guarded],
      [WriteRequest.unreviewed_fields_named]): every admitted write was checked
      as what it is; a Job enters only for a claim that has none, as the claim
      builds it, a schema's Apply only over ConfigMaps that hold its plan; of a Job
      that exists only the cleanup time is written, once; the guard of plans
      and the plan store are one contract.
    - The first Pod ([ResultPins.first_pod_pinned]): the record of the
      first Pod of an attempt, while it is kept, decides every later enrollment
      and publication, through every update the guard admits and whatever
      happens to other records; and a sealed plan is opened by
      the manager that asked for it, for its own attempt only
      ([PlanSeal.sealed_plan_opens]).
    - How a result travels ([JobConfigProofs.accepted_delivery_pinned],
      [attached_delivery_reads]): a template whose delivery is read mounts one
      token of one audience, read-only, in the one container, and names one
      attempt of one operation; the delivery written into a template is the
      one read out of it.
    - Who may report ([AuthoritySafety.delivery_authority_current],
      [retired_attempt_refused], [verified_token_bound]): delivery is granted
      to the one Pod of the one Job of the active claim, or of the Apply of a
      replaced binding a schema still records as of unknown outcome; never once
      the attempt has a retirement record; and a token stands for the Pod it
      names.
    - The people ([stored_decisions_hold], [four_eyes]): a stored decision
      carries who made it, and the request that created it was decided on reads
      of what it names; nobody approves their own change.
    - Identities ([plan_fingerprint_binds], [migration_plan_binds],
      [coordination_digest_refines], [content_digest_binds] and others): two
      inputs with one digest are the same input, or a SHA-256 collision is
      exhibited on two named documents. No hardness of SHA-256 is assumed.
    - Boundaries ([run_document_accepts], [status_document_reads],
      [sequence_recounts_states], [manifest_admits], [resolution_binds],
      [authority_canonical]): exactly which inputs are accepted, and what is
      read out of them.
    - The journal ([journal_keeps_outstanding], [journal_bounded] and others)
      and the cadence ([refreshes_spread]): bounds, coverage, that the bounds
      never lose the outstanding plan, and that refreshes reach their slots,
      which divide the interval by the number of resources that share it.

    ** Bounds and fuel

    [Acquire] and [Release] retry as often as the code does; a cleanup reads at
    most its sixteen member pages and deletes at most ten records, as the code
    bounds them. [split] is given the length of the content as fuel, which it
    never exhausts because every chunk takes at least one byte
    ([split_partitions] shows it total); the JSON parser is given the length
    of its input, because every value takes at least one byte
    ([JsonDecode.parse_whole] reads back whatever is written). The trimming
    and number routines recurse on the length of their input, and the IPv6
    parser is given eight rounds because each fills two of sixteen bytes. A
    program is a finite tree, so every pass ends. The sample runs allow two
    hundred calls to a pass, which none reaches.

    ** Parameters

    Code outside the repository is a parameter: [IsDNS1123Label], the status
    conditions and the error classification of [k8s.io/apimachinery], the
    reference grammar of [oras-go], [url.Parse] and the certificates of a PEM
    bundle ([DeliveryLibraries]), the YAML decoder, the identity read from an
    X.509 certificate, the strict decoding of an admission request
    ([GuardLibraries], [RecordLibraries]), the sealed boxes of
    [golang.org/x/crypto] ([SealedBox], with the laws [SealedBoxLaws]),
    Kubernetes object types the driver only passes along. The builder of Jobs
    is the interface the code gives the write guard ([JobBuilder]), and the
    decoders of a runner's summary and result, which belong to
    [internal/runner], are arguments of the guard. The API server of [TargetLockSafety] is any instance of
    [LeaseServerLaws] (optimistic concurrency), a family of [DispatchSafety]
    any instance of [FamilyLaws], and the manager of [MigrationTheorems] any
    whose JSON decoder reads a valid copy back under its own operation
    ([DecodesCopies]); each file builds an instance and runs the theorem on
    it. The decoders of [MigrationStatus] take what [encoding/json] decoded,
    and [SourceContent] what the file system returned. In the migration
    controller the parts of the operator without a model of their own (the Job
    builder and its fingerprint of the inputs, the comparison of a Job with
    the one that was built, the reading of a terminal Pod, Pod admission
    snapshots, delivery credentials, Git and ConfigMap resolution) are events,
    answered in any way.

    ** What is not modelled

    The PtahSchema reconciler ([schema_controller.go]), the second reconciler
    over the same claims, driver, lock and census as the PtahMigration one;
    the construction of Job objects ([Build] and [BuildMigration] of
    [internal/workload]), mostly literal data, which the guards compare with
    and take as an interface; and the runner with its protocol
    ([internal/runner], [cmd/ptah-runner]), so that the decoders of its result
    and of its summary are arguments where they are used. Also left out are
    process and network wiring ([cmd/], the server of [internal/resultservice],
    [internal/resultconsumer], [internal/telemetry]), X.509 handling
    ([internal/certrotation], the issuer of [internal/resultcredentials]), CRD
    installation ([internal/crdupgrade]), the validator of exclude selectors
    ([internal/schemaselector]), rendering ([internal/schemaview] and the
    other views) and generated code. *)
From stdpp Require Import base list gmap strings.
From Stdlib Require Import ZArith Lia.

#[global] Open Scope Z_scope.

(** ** Results

    A Go function returning [(T, error)] returns [result E T]: the value when
    the error is nil, the error otherwise. *)

Inductive result (E A : Type) : Type :=
| Ok (a : A)
| Err (e : E).
Arguments Ok {E A} a.
Arguments Err {E A} e.

Definition rbind {E A B : Type} (r : result E A) (f : A -> result E B) : result E B :=
  match r with
  | Ok a => f a
  | Err e => Err e
  end.

Definition is_ok {E A : Type} (r : result E A) : bool :=
  match r with Ok _ => true | Err _ => false end.

Declare Scope go_scope.
Delimit Scope go_scope with go.

Notation "x <-! r ; k" := (rbind r (fun x => k))
  (at level 100, r at next level, right associativity) : go_scope.
(** [if c { return e }], the early return of a guard. *)
Notation "'guard' c 'else' e ; k" := (if (c : bool) then k else Err e)
  (at level 100, c at next level, e at next level, right associativity) : go_scope.

(** ** Programs of events

    Code that calls the API server, a clock or another component's interface
    is a [prog E A]: a tree of calls [E], each followed by the continuation
    that receives the answer. Every loop of the modelled code is bounded, so
    the tree is well founded. *)

Inductive prog (E : Type -> Type) (A : Type) : Type :=
| Ret (a : A)
| Vis (X : Type) (e : E X) (k : X -> prog E A).
Arguments Ret {E A} a.
Arguments Vis {E A X} e k.

Fixpoint pbind {E A B} (p : prog E A) (f : A -> prog E B) : prog E B :=
  match p with
  | Ret a => f a
  | Vis e k => Vis e (fun x => pbind (k x) f)
  end.

Definition call {E X} (e : E X) : prog E X := Vis e Ret.

Notation "x <-- p ; q" := (pbind p (fun x => q))
  (at level 100, p at next level, right associativity) : go_scope.
Notation "p ;;; q" := (pbind p (fun _ => q))
  (at level 100, right associativity) : go_scope.

(** [if c { return e }] in a program. *)
Notation "'require' c 'else' e ; k" := (if (c : bool) then k else Ret (Err e))
  (at level 100, c at next level, e at next level, right associativity) : go_scope.

(** Running a program against a deterministic handler. *)
Fixpoint run {E : Type -> Type} {S A} (h : forall X, E X -> S -> X * S) (p : prog E A) (s : S) : A * S :=
  match p with
  | Ret a => (a, s)
  | Vis e k => let '(x, s') := h _ e s in run h (k x) s'
  end.

(** Running a program for at most [n] calls: the process stops there, and only
    the state its calls left behind is kept. *)
Fixpoint run_crash {E : Type -> Type} {S A} (h : forall X, E X -> S -> X * S)
    (n : nat) (p : prog E A) (s : S) : S :=
  match n, p with
  | S n', Vis e k => let '(x, s') := h _ e s in run_crash h n' (k x) s'
  | _, _ => s
  end.

(** Running a program against a relational environment, which may answer a
    call in any way [h] allows. *)
Fixpoint exec {E : Type -> Type} {S A : Type} (h : forall X, E X -> S -> X -> S -> Prop)
    (p : prog E A) (s : S) (a : A) (s' : S) : Prop :=
  match p with
  | Ret a0 => a = a0 /\ s' = s
  | Vis e k => exists x s1, h _ e s x s1 /\ exec h (k x) s1 a s'
  end.

(** A program stopped after any number of its calls. *)
Fixpoint exec_prefix {E : Type -> Type} {S A : Type} (h : forall X, E X -> S -> X -> S -> Prop)
    (p : prog E A) (s s' : S) : Prop :=
  s' = s \/
  match p with
  | Ret _ => False
  | Vis e k => exists x s1, h _ e s x s1 /\ exec_prefix h (k x) s1 s'
  end.

(** ** Weakest preconditions

    An event specification says what a call requires of the state it is made
    in and what the state and the answer satisfy afterwards. *)

Record espec (E : Type -> Type) (G : Type) : Type := {
  pre : forall X, E X -> G -> Prop;
  post : forall X, E X -> G -> X -> G -> Prop;
}.
Arguments pre {E G} _ {X} _ _.
Arguments post {E G} _ {X} _ _ _ _.

Fixpoint wp {E G A} (sp : espec E G) (p : prog E A) (Q : A -> G -> Prop) (g : G) : Prop :=
  match p with
  | Ret a => Q a g
  | Vis e k => pre sp e g /\ forall x g', post sp e g x g' -> wp sp (k x) Q g'
  end.

Lemma wp_mono {E G A} (sp : espec E G) (p : prog E A) (Q R : A -> G -> Prop) g :
  (forall a g', Q a g' -> R a g') -> wp sp p Q g -> wp sp p R g.
Proof.
  intros HQR; revert g; induction p as [a|X e k IH]; simpl; [auto|].
  intros g [Hpre Hk]; split; [done|]. intros x g' Hpost. apply IH; auto.
Qed.

Lemma wp_bind {E G A B} (sp : espec E G) (p : prog E A) (f : A -> prog E B) Q g :
  wp sp p (fun a g' => wp sp (f a) Q g') g -> wp sp (pbind p f) Q g.
Proof.
  revert g; induction p as [a|X e k IH]; simpl; [auto|].
  intros g [Hpre Hk]; split; [done|]. intros x g' Hpost. apply IH; auto.
Qed.

Lemma wp_call {E G X} (sp : espec E G) (e : E X) (Q : X -> G -> Prop) g :
  pre sp e g -> (forall x g', post sp e g x g' -> Q x g') -> wp sp (call e) Q g.
Proof. intros; split; auto. Qed.

(** What holds before a program and is kept by every answer holds after it. *)
Lemma wp_keep {E G A} (sp : espec E G) (p : prog E A) (Q : A -> G -> Prop) (P : G -> Prop) g :
  (forall X (e : E X) g x g', post sp e g x g' -> P g -> P g') -> P g ->
  wp sp p Q g -> wp sp p (fun a g' => Q a g' /\ P g') g.
Proof.
  intros HP. revert g. induction p as [a|X e k IH]; simpl; intros g Hg Hwp; [done|].
  destruct Hwp as [Hpre Hk]. split; [done|]. intros x g' Hpost. apply IH; [by eapply HP|by apply Hk].
Qed.

Lemma wp_true {E G A} (sp : espec E G) (p : prog E A) g : (forall X (e : E X) g, pre sp e g) -> wp sp p (fun _ _ => True) g.
Proof. intros Hpre. revert g. induction p as [a|X e k IH]; simpl; intros g; [done|]. split; [apply Hpre|auto]. Qed.

(** Soundness: an environment that answers within the specification. *)
Lemma wp_exec {E S A} (sp : espec E S) (h : forall X, E X -> S -> X -> S -> Prop) :
  (forall X (e : E X) s x s', pre sp e s -> h X e s x s' -> post sp e s x s') ->
  forall (p : prog E A) Q s a s', exec h p s a s' -> wp sp p Q s -> Q a s'.
Proof.
  intros Hh p Q. induction p as [a0|X e k IH]; simpl; intros s a s'.
  - by intros [-> ->].
  - intros (x & s1 & Hx & Hex) [Hpre Hk]. eapply IH; eauto.
Qed.

(** A program stopped anywhere keeps an invariant every call keeps. *)
Lemma wp_exec_prefix {E S A} (sp : espec E S) (h : forall X, E X -> S -> X -> S -> Prop) (I : S -> Prop) :
  (forall X (e : E X) s x s', I s -> pre sp e s -> h X e s x s' -> I s' /\ post sp e s x s') ->
  forall (p : prog E A) Q s s', exec_prefix h p s s' -> I s -> wp sp p Q s -> I s'.
Proof.
  intros Hh p Q. induction p as [a0|X e k IH]; simpl; intros s s'.
  - by intros [->|[]].
  - intros [->|(x & s1 & Hx & Hex)]; [done|]. intros HI [Hpre Hk].
    destruct (Hh _ _ _ _ _ HI Hpre Hx). eauto.
Qed.

Lemma exec_bind {E : Type -> Type} {S A B} (h : forall X, E X -> S -> X -> S -> Prop)
    (p : prog E A) (f : A -> prog E B) s b s' :
  exec h (pbind p f) s b s' <-> exists a s1, exec h p s a s1 /\ exec h (f a) s1 b s'.
Proof.
  revert s; induction p as [a|X e k IH]; simpl; intros s.
  - split; [eauto|]. by intros (? & ? & [-> ->] & ?).
  - setoid_rewrite IH. split.
    + intros (x & s1 & Hx & a & s2 & H1 & H2). eauto 10.
    + intros (a & s1 & (x & s2 & Hx & H1) & H2). eauto 10.
Qed.

Lemma run_bind {E : Type -> Type} {S A B} (h : forall X, E X -> S -> X * S)
    (p : prog E A) (f : A -> prog E B) s :
  run h (pbind p f) s = let '(a, s1) := run h p s in run h (f a) s1.
Proof.
  revert s; induction p as [a|X e k IH]; simpl; intros s; [done|].
  destruct (h X e s) as [x s1]. apply IH.
Qed.

(** A deterministic run is an execution, and a crash of it a prefix. *)
Definition deterministic {E : Type -> Type} {S} (h : forall X, E X -> S -> X * S) :
    forall X, E X -> S -> X -> S -> Prop :=
  fun X e s x s' => h X e s = (x, s').

Lemma run_exec {E : Type -> Type} {S A} (h : forall X, E X -> S -> X * S) (p : prog E A) :
  forall s, exec (deterministic h) p s (run h p s).1 (run h p s).2.
Proof.
  induction p as [a|X e k IH]; intros s; simpl; [done|].
  destruct (h X e s) as [x s'] eqn:E1. exists x, s'. split; [exact E1|apply IH].
Qed.

Lemma exec_mono {E : Type -> Type} {S A} (h h' : forall X, E X -> S -> X -> S -> Prop) (p : prog E A) :
  (forall X (e : E X) s x s', h X e s x s' -> h' X e s x s') ->
  forall s a s', exec h p s a s' -> exec h' p s a s'.
Proof.
  intros Hh. induction p as [a0|X e k IH]; intros s a s'; simpl; [done|].
  intros (x & s1 & Hx & Hex). exists x, s1. eauto.
Qed.

Lemma run_crash_prefix {E : Type -> Type} {S A} (h : forall X, E X -> S -> X * S) (n : nat) :
  forall (p : prog E A) s, exec_prefix (deterministic h) p s (run_crash h n p s).
Proof.
  induction n as [|n IH]; intros [a|X e k] s; simpl; auto.
  destruct (h X e s) as [x s'] eqn:E1. right. exists x, s'. split; [exact E1|apply IH].
Qed.

(** ** The log of a program

    The environment that answers every call in any way it likes and writes
    down what it answered: what a program concluded is then a statement about
    the answers it was given. *)

Definition entry (E : Type -> Type) : Type := { X : Type & (E X * X)%type }.
Definition answered {E : Type -> Type} {X} (e : E X) (x : X) : entry E := existT X (e, x).
Definition seen {E : Type -> Type} {X} (e : E X) (x : X) (log : list (entry E)) : Prop := In (answered e x) log.
Definition any_answer {E : Type -> Type} (X : Type) (e : E X) (log : list (entry E)) (x : X) (log' : list (entry E)) : Prop :=
  log' = log ++ [answered e x].
Definition logging {E : Type -> Type} : espec E (list (entry E)) :=
  {| pre := fun _ _ _ => True; post := fun X e log x log' => any_answer X e log x log' |}.

(** What a program that ended in a value saw before it did. *)
Definition sees {E : Type -> Type} {R A} (p : prog E (result R A)) (P : A -> list (entry E) -> Prop) : Prop :=
  forall log, wp logging p (fun r log' => forall a, r = Ok a -> P a log') log.
Definition grows {E : Type -> Type} (P : list (entry E) -> Prop) : Prop := forall log more, P log -> P (log ++ more).

Lemma seen_grows {E : Type -> Type} {X} (e : E X) (x : X) : grows (seen e x).
Proof. intros log more H. apply in_or_app. by left. Qed.

Lemma sees_ret {E : Type -> Type} {R A} (r : result R A) (P : A -> list (entry E) -> Prop) :
  (forall a log, r = Ok a -> P a log) -> sees (Ret r) P.
Proof. intros H log a Ha. by apply H. Qed.

Lemma sees_mono {E : Type -> Type} {R A} (p : prog E (result R A)) (P Q : A -> list (entry E) -> Prop) :
  (forall a log, P a log -> Q a log) -> sees p P -> sees p Q.
Proof. intros HPQ H log. eapply wp_mono; [|apply H]. intros r log' Hr a Ha. by apply HPQ, Hr. Qed.

(** A fact that grows with the log holds to the end. *)
Lemma sees_keep {E : Type -> Type} {R A} (p : prog E (result R A)) (P : A -> list (entry E) -> Prop) (K : list (entry E) -> Prop) log :
  grows K -> K log -> sees p P -> wp logging p (fun r log' => forall a, r = Ok a -> P a log' /\ K log') log.
Proof.
  intros HK Hlog Hp. eapply wp_mono; [|apply wp_keep; [|exact Hlog|apply Hp]].
  - intros r log' [Hr Hk] a Ha. split; [by apply Hr|done].
  - intros X e g x g' ->. apply HK.
Qed.

Lemma sees_call {E : Type -> Type} {R A X} (e : E X) (k : X -> prog E (result R A)) (P : A -> list (entry E) -> Prop) :
  (forall x, sees (k x) (fun a log => seen e x log -> P a log)) -> sees (pbind (call e) k) P.
Proof.
  intros H log. split; [done|]. intros x log' ->. cbn [pbind].
  eapply wp_mono; [|apply (sees_keep (k x) (fun a log => seen e x log -> P a log) (seen e x)); [apply seen_grows| |apply H]].
  - intros r log' Hr a Ha. destruct (Hr a Ha) as [HP Hs]. by apply HP.
  - apply in_or_app. right. by left.
Qed.

Lemma sees_exec {E : Type -> Type} {R A} (p : prog E (result R A)) (P : A -> list (entry E) -> Prop) a log0 log :
  sees p P -> exec any_answer p log0 (Ok a) log -> P a log.
Proof. intros H Hex. exact (wp_exec logging any_answer (fun _ _ _ _ _ _ h => h) p _ log0 (Ok a) log Hex (H log0) a eq_refl). Qed.

(** The environment that answers a call with [answer] and writes it down. *)
Definition recording {E : Type -> Type} (answer : forall X, E X -> X) (X : Type) (e : E X) (log : list (entry E)) : X * list (entry E) :=
  (answer X e, log ++ [answered e (answer X e)]).

Lemma run_recording {E : Type -> Type} {A} (answer : forall X, E X -> X) (p : prog E A) log :
  exec any_answer p log (run (recording answer) p log).1 (run (recording answer) p log).2.
Proof. apply (exec_mono (deterministic (recording answer))); [|apply run_exec]. by intros X e s x s' [= <- <-]. Qed.

(** ** Go integers

    [int32] values are kept as [Z] in [[-2^31, 2^31)]; a conversion to
    [int32] wraps. *)

Definition int32_wrap (z : Z) : Z := (z + 2^31) mod 2^32 - 2^31.
Definition max_int32 : Z := 2147483647.
Definition in_int32 (z : Z) : bool := (- 2^31 <=? z) && (z <? 2^31).

Lemma int32_wrap_small z : in_int32 z = true -> int32_wrap z = z.
Proof.
  unfold in_int32, int32_wrap. rewrite andb_true_iff, Z.leb_le, Z.ltb_lt.
  intros. rewrite Z.mod_small; lia.
Qed.

(** ** Pointers

    A Go pointer to a value is an [option]; dereferencing a nil [*string] or
    reading a nil map gives the zero value where the code guards it. *)

Definition str_or_empty (o : option string) : string := default EmptyString o.

(** ** Maps *)

Lemma singleton_of_size {A} (m : gmap string A) k x : size m = 1%nat -> m !! k = Some x -> m = {[k := x]}.
Proof.
  intros Hs Hk. rewrite <- (insert_delete_id m k x Hk). rewrite <- insert_empty. f_equal.
  apply map_size_empty_inv. rewrite map_size_delete, Hk, Hs. done.
Qed.

(** ** Automation *)

Create HintDb ptah.

#[export] Hint Resolve int32_wrap_small : ptah.

(** Split boolean conjunctions and disjunctions and turn the boolean tests of
    the code into propositions. *)
Ltac bool_prop :=
  repeat match goal with
  | H : (_ && _)%bool = true |- _ => apply andb_true_iff in H; destruct H
  | H : (_ || _)%bool = false |- _ => apply orb_false_iff in H; destruct H
  | H : negb _ = true |- _ => apply negb_true_iff in H
  | H : negb _ = false |- _ => apply negb_false_iff in H
  | H : bool_decide _ = true |- _ => apply bool_decide_eq_true in H
  | H : bool_decide _ = false |- _ => apply bool_decide_eq_false in H
  | H : (_ =? _)%Z = true |- _ => apply Z.eqb_eq in H
  | H : (_ =? _)%Z = false |- _ => apply Z.eqb_neq in H
  | H : (_ <=? _)%Z = true |- _ => apply Z.leb_le in H
  | H : (_ <=? _)%Z = false |- _ => apply Z.leb_gt in H
  | H : (_ <? _)%Z = true |- _ => apply Z.ltb_lt in H
  | H : (_ <? _)%Z = false |- _ => apply Z.ltb_ge in H
  end.

(** Case on the first [if] or [match] of the goal or of a hypothesis. *)
Ltac case_goal :=
  match goal with
  | |- context [if ?b then _ else _] => destruct b eqn:?
  | |- context [match ?x with _ => _ end] => destruct x eqn:?
  end.
Ltac case_hyp H :=
  match type of H with
  | context [if ?b then _ else _] => destruct b eqn:?
  | context [match ?x with _ => _ end] => destruct x eqn:?
  end.
(** Follow every branch of a guarded computation that ended in a value. *)
Ltac follow H := repeat (case_hyp H; try discriminate H).

Lemma bind_ok_unit {E A} (r : result E unit) (k : result E A) a :
  (rbind r (fun _ => k) = Ok a) <-> r = Ok tt /\ k = Ok a.
Proof. destruct r as [[]|]; simpl; naive_solver. Qed.

Lemma guard_ok {E A} (c : bool) (e : E) (k : result E A) a :
  ((if c then k else Err e) = Ok a) <-> c = true /\ k = Ok a.
Proof. destruct c; naive_solver. Qed.

(** Turn an accepted chain of guards into the list of its conditions. *)
Ltac guards := repeat (rewrite ?guard_ok, ?bind_ok_unit).
Ltac flags := rewrite ?negb_true_iff, ?orb_false_iff, ?andb_false_iff, ?andb_true_iff,
  ?Z.ltb_lt, ?Z.ltb_ge, ?Z.leb_le, ?Z.leb_gt, ?Z.eqb_eq, ?bool_decide_eq_true, ?bool_decide_eq_false.
