(* ===== verification/GoStrings.v ===== *)
(** * Go strings and the standard-library routines the operator uses

    A Go [string] and a [[]byte] are byte sequences; both are modelled by
    [string], whose characters are bytes. This file holds the routines of the
    packages [strings], [strconv], [encoding/hex], [encoding/base32], [slices]
    and [regexp] that the modelled code calls, each executable, with the
    lemmas the components share: the round trips of the two encodings and the
    order laws of sorting. *)
From stdpp Require Import base list gmap strings pretty.
From Stdlib Require Import ZArith Lia Ascii.
From Stdlib Require Import Sorted Permutation.
From S2P Require Import Prelude.

(** ** Bytes *)

Definition byte_of (a : ascii) : Z := Z.of_N (N_of_ascii a).
Definition of_byte (z : Z) : ascii := ascii_of_N (Z.to_N z).
Definition is_byte (z : Z) : Prop := 0 <= z < 256.

Definition bytes (s : string) : list Z := byte_of <$> String.list_ascii_of_string s.
Definition of_bytes (l : list Z) : string   := String.string_of_list_ascii (of_byte <$> l).
#[global] Arguments bytes : simpl never.
(** [len(s)]. *)
Definition len (s : string) : Z := Z.of_nat (String.length s).

(** [strings.HasPrefix] and [strings.CutPrefix]. *)
Fixpoint cut_prefix (p s : string) : option string :=
  match p, s with
  | EmptyString, _ => Some s
  | String a p', String b s' => if bool_decide (a = b) then cut_prefix p' s' else None
  | _, _ => None
  end.
Definition has_prefix (p s : string) : bool := bool_decide (is_Some (cut_prefix p s)).

(** Every character of [s] satisfies [f]. *)
Fixpoint str_all (f : ascii -> bool) (s : string) : bool :=
  match s with
  | EmptyString => true
  | String a s' => f a && str_all f s'
  end.
Definition str_any (f : ascii -> bool) (s : string) : bool := negb (str_all (fun a => negb (f a)) s).
(** Whether the character [c] occurs in [s]. *)
Definition occurs (c : ascii) (s : string) : bool := str_any (fun a => bool_decide (a = c)) s.
(** [strings.ContainsAny] for a set of ASCII characters. *)
Definition contains_any (chars s : string) : bool := str_any (fun a => occurs a chars) s.

(** [strings.IndexByte]. *)
Fixpoint index_byte (c : ascii) (s : string) : option nat :=
  match s with
  | EmptyString => None
  | String a s' => if bool_decide (a = c) then Some O else S <$> index_byte c s'
  end.
(** [strings.Cut] at the first occurrence of the character [c]. *)
Fixpoint cut (c : ascii) (s : string) : option (string * string) :=
  match s with
  | EmptyString => None
  | String a s' =>
      if bool_decide (a = c) then Some (EmptyString, s')
      else '(h, t) ← cut c s'; Some (String a h, t)
  end.
(** [strings.Contains]. *)
Fixpoint contains (sub s : string) : bool :=
  has_prefix sub s ||
  match s with
  | EmptyString => false
  | String _ s' => contains sub s'
  end.
(** [strings.Count] of a single character. *)
Fixpoint count_byte (c : ascii) (s : string) : nat :=
  match s with
  | EmptyString => O
  | String a s' => (if bool_decide (a = c) then 1 else 0) + count_byte c s'
  end.
(** [s[from:]] and [s[:to]] within bounds. *)
Fixpoint str_drop (n : nat) (s : string) : string :=
  match n, s with
  | S n', String _ s' => str_drop n' s'
  | _, _ => s
  end.
Fixpoint str_take (n : nat) (s : string) : string :=
  match n, s with
  | S n', String a s' => String a (str_take n' s')
  | _, _ => EmptyString
  end.

(** ** Character classes *)

Definition in_range (lo hi : Z) (a : ascii) : bool := (lo <=? byte_of a) && (byte_of a <=? hi).
Definition is_digit : ascii -> bool := in_range 48 57.
Definition is_lower : ascii -> bool := in_range 97 122.
Definition is_upper : ascii -> bool := in_range 65 90.
Definition is_alnum_lower (a : ascii) : bool := is_digit a || is_lower a.
Definition is_lower_hex (a : ascii) : bool := is_digit a || in_range 97 102 a.
Definition is_hex (a : ascii) : bool := is_lower_hex a || in_range 65 70 a.
(** The class [[:space:]] of [regexp] and the ASCII part of [unicode.IsSpace]. *)
Definition is_ascii_space (a : ascii) : bool := in_range 9 13 a || bool_decide (byte_of a = 32).

(** ** [strings.TrimSpace]

    The White_Space code points of Unicode in their UTF-8 encodings; a byte
    sequence that decodes to none of them is not trimmed. *)

Definition ascii_space_byte (b : Z) : bool := ((9 <=? b) && (b <=? 13)) || (b =? 32).
Definition space2 (b0 b1 : Z) : bool := (b0 =? 194) && ((b1 =? 133) || (b1 =? 160)).
Definition space3 (b0 b1 b2 : Z) : bool :=
  ((b0 =? 225) && (b1 =? 154) && (b2 =? 128)) ||
  ((b0 =? 226) && (b1 =? 128) &&
    (((128 <=? b2) && (b2 <=? 138)) || (b2 =? 168) || (b2 =? 169) || (b2 =? 175))) ||
  ((b0 =? 226) && (b1 =? 129) && (b2 =? 159)) ||
  ((b0 =? 227) && (b1 =? 128) && (b2 =? 128)).

(** The bytes after a leading white-space code point. *)
Definition space_head (l : list Z) : option (list Z) :=
  match l with
  | b0 :: r =>
      if ascii_space_byte b0 then Some r else
      match r with
      | b1 :: r1 =>
          if space2 b0 b1 then Some r1 else
          match r1 with
          | b2 :: r2 => if space3 b0 b1 b2 then Some r2 else None
          | [] => None
          end
      | [] => None
      end
  | [] => None
  end.
(** The same for the last code point, on the reversed bytes. *)
Definition space_last (l : list Z) : option (list Z) :=
  match l with
  | b0 :: r =>
      if ascii_space_byte b0 then Some r else
      match r with
      | b1 :: r1 =>
          if space2 b1 b0 then Some r1 else
          match r1 with
          | b2 :: r2 => if space3 b2 b1 b0 then Some r2 else None
          | [] => None
          end
      | [] => None
      end
  | [] => None
  end.
Fixpoint drop_while_some (n : nat) (f : list Z -> option (list Z)) (l : list Z) : list Z :=
  match n with
  | O => l
  | S n' => match f l with Some r => drop_while_some n' f r | None => l end
  end.
Definition trim_bytes (l : list Z) : list Z :=
  let l1 := drop_while_some (length l) space_head l in
  reverse (drop_while_some (length l1) space_last (reverse l1)).
Definition trim_space (s : string) : string := of_bytes (trim_bytes (bytes s)).

(** [strings.ToLower]: ASCII letters, and the two non-ASCII code points whose
    lower case is an ASCII letter (U+0130 and U+212A). Any other non-ASCII
    code point keeps its bytes here, and lowers to a non-ASCII one in Go. *)
Definition lower_byte (b : Z) : Z := if (65 <=? b) && (b <=? 90) then b + 32 else b.
Fixpoint lower_bytes (l : list Z) : list Z :=
  match l with
  | [] => []
  | b0 :: r =>
      match r with
      | b1 :: r1 =>
          if (b0 =? 196) && (b1 =? 176) then 105 :: lower_bytes r1 else
          match r1 with
          | b2 :: r2 =>
              if (b0 =? 226) && (b1 =? 132) && (b2 =? 170) then 107 :: lower_bytes r2
              else lower_byte b0 :: lower_bytes r
          | [] => lower_byte b0 :: lower_bytes r
          end
      | [] => [lower_byte b0]
      end
  end.
Definition to_lower (s : string) : string := of_bytes (lower_bytes (bytes s)).

(** ** [encoding/hex] *)

Definition hex_digit (v : Z) : ascii := of_byte (if v <? 10 then 48 + v else 87 + v).
Definition hex_val (a : ascii) : option Z :=
  let b := byte_of a in
  if (48 <=? b) && (b <=? 57) then Some (b - 48)
  else if (97 <=? b) && (b <=? 102) then Some (b - 87)
  else if (65 <=? b) && (b <=? 70) then Some (b - 55)
  else None.
Fixpoint hex_encode (l : list Z) : string :=
  match l with
  | [] => EmptyString
  | b :: r => String (hex_digit (b / 16)) (String (hex_digit (b mod 16)) (hex_encode r))
  end.
(** [hex.DecodeString]: either case, an even number of digits. *)
Fixpoint hex_decode (s : string) : option (list Z) :=
  match s with
  | EmptyString => Some []
  | String a (String b r) =>
      x ← hex_val a; y ← hex_val b; t ← hex_decode r; Some (16 * x + y :: t)
  | String _ EmptyString => None
  end.

(** ** [encoding/base32], standard alphabet, no padding, in lower case *)

Definition byte_bits (b : Z) : list bool :=
  [Z.testbit b 7; Z.testbit b 6; Z.testbit b 5; Z.testbit b 4;
   Z.testbit b 3; Z.testbit b 2; Z.testbit b 1; Z.testbit b 0].
Definition bits (l : list Z) : list bool := l ≫= byte_bits.
Definition bit_val (b : bool) : Z := if b then 1 else 0.
Definition bits5_val (a b c d e : bool) : Z :=
  16 * bit_val a + 8 * bit_val b + 4 * bit_val c + 2 * bit_val d + bit_val e.
(** The alphabet [a..z2..7]. *)
Definition base32_char (v : Z) : ascii := of_byte (if v <? 26 then 97 + v else 24 + v).
(** Five bits per character; the last group is filled with zero bits. *)
Fixpoint base32_bits (l : list bool) : string :=
  match l with
  | [] => EmptyString
  | a :: l1 =>
  match l1 with
  | [] => String (base32_char (bits5_val a false false false false)) EmptyString
  | b :: l2 =>
  match l2 with
  | [] => String (base32_char (bits5_val a b false false false)) EmptyString
  | c :: l3 =>
  match l3 with
  | [] => String (base32_char (bits5_val a b c false false)) EmptyString
  | d :: l4 =>
  match l4 with
  | [] => String (base32_char (bits5_val a b c d false)) EmptyString
  | e :: l5 => String (base32_char (bits5_val a b c d e)) (base32_bits l5)
  end end end end end.
Definition base32_lower (l : list Z) : string := base32_bits (bits l).

(** ** [strconv] and [fmt] *)

(** [strconv.FormatInt(z, 10)] and [%d]. *)
Definition format_int (z : Z) : string := pretty z.
(** [%03d] of an index in [0, 1000). *)
Definition format_03d (n : Z) : string :=
  let d := format_int n in
  if n <? 10 then "00" +:+ d else if n <? 100 then "0" +:+ d else d.

(** [strconv.ParseInt(s, 10, 64)]. *)
Fixpoint parse_digits (acc : Z) (s : string) : option Z :=
  match s with
  | EmptyString => Some acc
  | String a s' => if is_digit a then parse_digits (10 * acc + (byte_of a - 48)) s' else None
  end.
Definition parse_unsigned (s : string) : option Z := if bool_decide (s = EmptyString) then None else parse_digits 0 s.
Definition in_int64 (z : Z) : bool := (- 2^63 <=? z) && (z <? 2^63).
Definition int64_wrap (z : Z) : Z := (z + 2^63) mod 2^64 - 2^63.
Definition parse_int (s : string) : option Z :=
  z ← match s with
      | String a s' =>
          if bool_decide (a = "-"%char) then Z.opp <$> parse_unsigned s'
          else if bool_decide (a = "+"%char) then parse_unsigned s'
          else parse_unsigned s
      | EmptyString => None
      end;
  if in_int64 z then Some z else None.

(** ** [regexp] patterns *)

(** [^sha256:[0-9a-f]{64}$] *)
Definition is_sha256_digest (s : string) : bool :=
  match cut_prefix "sha256:" s with
  | Some h => (String.length h =? 64)%nat && str_all is_lower_hex h
  | None => false
  end.
(** [^v1-[0-9a-f]{32}$] *)
Definition is_epoch_id (s : string) : bool :=
  match cut_prefix "v1-" s with
  | Some h => (String.length h =? 32)%nat && str_all is_lower_hex h
  | None => false
  end.
(** [^[^[:space:]@]+@sha256:[0-9a-f]{64}$] *)
Definition is_pinned_image (s : string) : bool :=
  match cut "@"%char s with
  | Some (h, t) =>
      negb (bool_decide (h = EmptyString)) && str_all (fun a => negb (is_ascii_space a)) h && is_sha256_digest t
  | None => false
  end.
(** [^x(?:m{0,n}x)?$]: an end character, then at most [n] middle ones and an
    end character. *)
Fixpoint last_char (s : string) : option ascii :=
  match s with
  | EmptyString => None
  | String a EmptyString => Some a
  | String _ s' => last_char s'
  end.
Definition ends_middle (edge middle : ascii -> bool) (maxlen : Z) (s : string) : bool :=
  match s with
  | EmptyString => false
  | String a _ =>
      edge a && match last_char s with Some z => edge z | None => false end
      && str_all (fun c => middle c || edge c) s && (len s <=? maxlen)
  end.
Definition is_dash (a : ascii) : bool := bool_decide (a = "-"%char).
(** A DNS-1123 label: [validation.IsDNS1123Label] and
    [^[a-z0-9](?:[-a-z0-9]{0,61}[a-z0-9])?$]. *)
Definition is_dns1123_label (s : string) : bool := ends_middle is_alnum_lower is_dash 63 s.
(** A dot-separated sequence of labels of any length:
    [^[a-z0-9]([-a-z0-9]*[a-z0-9])?(\.[a-z0-9]([-a-z0-9]*[a-z0-9])?)*$]. *)
Fixpoint split_dots (s : string) : list string :=
  match s with
  | EmptyString => [EmptyString]
  | String a s' =>
      match split_dots s' with
      | h :: t => if bool_decide (a = "."%char) then EmptyString :: h :: t else String a h :: t
      | [] => []
      end
  end.
Definition is_subdomain_shape (s : string) : bool :=
  forallb (fun p => ends_middle is_alnum_lower is_dash (len p) p) (split_dots s).
(** [validation.IsDNS1123Subdomain]. *)
Definition is_dns1123_subdomain (s : string) : bool := (len s <=? 253) && is_subdomain_shape s.

(** ** [slices.Sort] on strings: byte-lexicographic order *)

Fixpoint insert_str (x : string) (l : list string) : list string :=
  match l with
  | [] => [x]
  | y :: r => if (x <=? y)%string then x :: l else y :: insert_str x r
  end.
Definition sort_strings (l : list string) : list string := foldr insert_str [] l.

(** * Lemmas *)

(** ** Bytes *)

Lemma byte_of_range a : is_byte (byte_of a).
Proof.
  unfold is_byte, byte_of. split; [lia|].
  assert (H := N_ascii_bounded a). lia.
Qed.

Lemma of_byte_of a : of_byte (byte_of a) = a.
Proof. unfold of_byte, byte_of. rewrite N2Z.id. apply ascii_N_embedding. Qed.

Lemma byte_of_of b : is_byte b -> byte_of (of_byte b) = b.
Proof.
  unfold is_byte, byte_of, of_byte. intros.
  rewrite N_ascii_embedding; [apply Z2N.id; lia|].
  assert (Z.to_N 256 = 256%N) as <- by done. apply Z2N.inj_lt; lia.
Qed.

Lemma of_byte_inj b c : is_byte b -> is_byte c -> of_byte b = of_byte c -> b = c.
Proof. intros Hb Hc H. rewrite <- (byte_of_of b), <- (byte_of_of c), H; done. Qed.

Lemma bytes_range s : Forall is_byte (bytes s).
Proof. apply Forall_fmap, Forall_true. intros a. apply byte_of_range. Qed.

Lemma of_bytes_bytes s : of_bytes (bytes s) = s.
Proof.
  unfold of_bytes, bytes. rewrite <- list_fmap_compose.
  rewrite (list_fmap_ext (of_byte ∘ byte_of) id) by (intros; apply of_byte_of).
  rewrite list_fmap_id. apply String.string_of_list_ascii_of_string.
Qed.

Lemma bytes_of_bytes l : Forall is_byte l -> bytes (of_bytes l) = l.
Proof.
  intros H. unfold of_bytes, bytes. rewrite String.list_ascii_of_string_of_list_ascii.
  induction H as [|b l Hb _ IH]; [done|]. csimpl. by rewrite byte_of_of, IH.
Qed.

Lemma bytes_inj s t : bytes s = bytes t -> s = t.
Proof. intros H. by rewrite <- (of_bytes_bytes s), H, of_bytes_bytes. Qed.

Lemma bytes_cons a s : bytes (String a s) = byte_of a :: bytes s.
Proof. done. Qed.

Lemma bytes_app s t : bytes (s +:+ t) = bytes s ++ bytes t.
Proof.
  induction s as [|a s IH]; [done|].
  change (String a s +:+ t) with (String a (s +:+ t)). by rewrite !bytes_cons, IH.
Qed.

Lemma length_bytes s : length (bytes s) = String.length s.
Proof. induction s as [|a s IH]; [done|]. rewrite bytes_cons. simpl. by rewrite IH. Qed.

Lemma str_app_length s t : String.length (s +:+ t) = (String.length s + String.length t)%nat.
Proof. rewrite <- !length_bytes, bytes_app. apply length_app. Qed.

Lemma str_app_inv s t u v :
  String.length s = String.length t -> s +:+ u = t +:+ v -> s = t /\ u = v.
Proof.
  intros Hlen H. apply (f_equal bytes) in H. rewrite !bytes_app in H.
  apply app_inj_1 in H as [H1 H2]; [|by rewrite !length_bytes].
  split; by apply bytes_inj.
Qed.

Lemma str_all_app f s t : str_all f (s +:+ t) = str_all f s && str_all f t.
Proof. induction s as [|a s IH]; simpl; [done|]. by rewrite IH, andb_assoc. Qed.

Lemma str_all_mono (f g : ascii -> bool) s :
  (forall a, f a = true -> g a = true) -> str_all f s = true -> str_all g s = true.
Proof.
  intros Hfg. induction s as [|a s IH]; simpl; [done|].
  rewrite !andb_true_iff. intros []; auto.
Qed.

Lemma cut_prefix_app p s : cut_prefix p (p +:+ s) = Some s.
Proof. induction p as [|a p IH]; simpl; [done|]. by rewrite bool_decide_eq_true_2. Qed.

Lemma cut_prefix_Some p s r : cut_prefix p s = Some r -> s = p +:+ r.
Proof.
  revert s. induction p as [|a p IH]; intros [|b s] H; simpl in *; simplify_eq; try done.
  case_bool_decide; [subst|done]. by rewrite (IH _ H).
Qed.

(** ** Hex *)

Lemma hex_digit_val v : 0 <= v < 16 -> hex_val (hex_digit v) = Some v.
Proof.
  intros Hv. unfold hex_val, hex_digit.
  rewrite byte_of_of by (unfold is_byte; case_match; lia).
  destruct (v <? 10) eqn:E; repeat (case_match; try (f_equal; lia)); lia.
Qed.

Lemma hex_decode_encode l : Forall is_byte l -> hex_decode (hex_encode l) = Some l.
Proof.
  induction 1 as [|b l Hb _ IH]; [done|]. simpl. unfold is_byte in Hb.
  rewrite (hex_digit_val (b / 16)) by (split; [apply Z.div_pos|apply Z.div_lt_upper_bound]; lia).
  rewrite (hex_digit_val (b mod 16)) by (apply Z.mod_pos_bound; lia).
  simpl. rewrite IH. simpl. f_equal. f_equal. rewrite (Z.div_mod b 16) at 3; lia.
Qed.

Lemma hex_encode_inj l l' :
  Forall is_byte l -> Forall is_byte l' -> hex_encode l = hex_encode l' -> l = l'.
Proof.
  intros Hl Hl' H. apply (f_equal hex_decode) in H.
  rewrite !hex_decode_encode in H by done. congruence.
Qed.

Lemma hex_encode_length l : String.length (hex_encode l) = (2 * length l)%nat.
Proof. induction l as [|b l IH]; simpl; [done|]. rewrite IH. lia. Qed.

Lemma hex_digit_lower v : 0 <= v < 16 -> is_lower_hex (hex_digit v) = true.
Proof.
  intros Hv. unfold is_lower_hex, is_digit, in_range, hex_digit.
  rewrite byte_of_of by (unfold is_byte; case_match; lia).
  destruct (v <? 10) eqn:E; bool_prop.
  - apply orb_true_iff; left. apply andb_true_iff; split; apply Z.leb_le; lia.
  - apply orb_true_iff; right. apply andb_true_iff; split; apply Z.leb_le; lia.
Qed.

Lemma hex_encode_lower l : Forall is_byte l -> str_all is_lower_hex (hex_encode l) = true.
Proof.
  induction 1 as [|b l Hb _ IH]; [done|]. simpl. unfold is_byte in Hb.
  rewrite IH, !hex_digit_lower; [done|apply Z.mod_pos_bound; lia|].
  split; [apply Z.div_pos|apply Z.div_lt_upper_bound]; lia.
Qed.

Lemma hex_val_range a v : hex_val a = Some v -> 0 <= v < 16.
Proof.
  unfold hex_val. intros H. repeat (case_match; simplify_eq; try lia).
Qed.

Lemma hex_decode_bytes n : forall s l,
  (String.length s <= n)%nat -> hex_decode s = Some l ->
  Forall is_byte l /\ String.length s = (2 * length l)%nat.
Proof.
  induction n as [|n IH]; intros s l Hn H; destruct s as [|a [|b s]]; simpl in *; simplify_eq;
    try (split; [constructor|done]); try lia.
  destruct (hex_val a) as [x|] eqn:Ex; simpl in H; [|done].
  destruct (hex_val b) as [y|] eqn:Ey; simpl in H; [|done].
  destruct (hex_decode s) as [t|] eqn:Et; simpl in H; simplify_eq.
  apply hex_val_range in Ex. apply hex_val_range in Ey.
  destruct (IH s t) as [H1 H2]; [lia|done|]. simpl. split; [|lia].
  constructor; [unfold is_byte; lia|done].
Qed.

Lemma hex_decode_range s l : hex_decode s = Some l -> Forall is_byte l.
Proof. intros H. by eapply (hex_decode_bytes (String.length s)). Qed.

Lemma hex_decode_length s l : hex_decode s = Some l -> String.length s = (2 * length l)%nat.
Proof. intros H. by eapply (hex_decode_bytes (String.length s)). Qed.

Lemma sha256_digest_shape l :
  Forall is_byte l -> length l = 32%nat -> is_sha256_digest ("sha256:" +:+ hex_encode l) = true.
Proof.
  intros Hl Hlen. unfold is_sha256_digest. rewrite cut_prefix_app.
  rewrite hex_encode_length, Hlen, hex_encode_lower by done. done.
Qed.

(** ** Base 32 *)

Lemma base32_char_inj v w :
  0 <= v < 32 -> 0 <= w < 32 -> base32_char v = base32_char w -> v = w.
Proof.
  intros Hv Hw H. apply of_byte_inj in H; [|unfold is_byte; case_match; lia..].
  destruct (v <? 26) eqn:?, (w <? 26) eqn:?; lia.
Qed.

Lemma bits5_range a b c d e : 0 <= bits5_val a b c d e < 32.
Proof. destruct a, b, c, d, e; vm_compute; split; congruence. Qed.

Lemma bits5_inj a b c d e a' b' c' d' e' :
  bits5_val a b c d e = bits5_val a' b' c' d' e' ->
  a = a' /\ b = b' /\ c = c' /\ d = d' /\ e = e'.
Proof. destruct a, b, c, d, e, a', b', c', d', e'; vm_compute; intros; simplify_eq; auto. Qed.

Lemma base32_char5_inj a b c d e a' b' c' d' e' :
  base32_char (bits5_val a b c d e) = base32_char (bits5_val a' b' c' d' e') ->
  a = a' /\ b = b' /\ c = c' /\ d = d' /\ e = e'.
Proof. intros H. apply bits5_inj, base32_char_inj; auto using bits5_range. Qed.

Lemma base32_bits_inj n : forall l l',
  (length l <= n)%nat -> length l = length l' -> base32_bits l = base32_bits l' -> l = l'.
Proof.
  induction n as [|n IH]; intros l l' Hn Hlen H.
  { destruct l, l'; simpl in *; try lia; done. }
  destruct l as [|a [|b [|c [|d [|e l]]]]], l' as [|a' [|b' [|c' [|d' [|e' l']]]]];
    simpl in Hlen; try lia; [done|..];
    injection H as H; try (apply base32_char5_inj in H; destruct_and! H; subst; done).
  apply base32_char5_inj in H. destruct H as (-> & -> & -> & -> & ->). do 5 f_equal.
  apply IH; [simpl in Hn; lia|lia|done].
Qed.

Lemma byte_bits_inj b c : is_byte b -> is_byte c -> byte_bits b = byte_bits c -> b = c.
Proof.
  intros Hb Hc H. unfold byte_bits in H. injection H as H7 H6 H5 H4 H3 H2 H1 H0.
  apply Z.bits_inj'. intros n Hn.
  destruct (decide (n < 8)) as [Hlt|Hge].
  - assert (n = 0 \/ n = 1 \/ n = 2 \/ n = 3 \/ n = 4 \/ n = 5 \/ n = 6 \/ n = 7) as Hcase by lia.
    repeat destruct Hcase as [->|Hcase]; try done. by subst.
  - assert (forall x, is_byte x -> Z.testbit x n = false) as Hhigh; [|by rewrite !Hhigh].
    intros x [Hx1 Hx2]. destruct (decide (x = 0)) as [->|]; [apply Z.bits_0|].
    apply Z.bits_above_log2; [lia|]. apply Z.lt_le_trans with 8; [|lia].
    apply Z.log2_lt_pow2; lia.
Qed.

Lemma bits_length l : length (bits l) = (8 * length l)%nat.
Proof. induction l as [|b l IH]; [done|]. unfold bits in *. csimpl. rewrite IH. lia. Qed.

Lemma bits_inj l l' :
  Forall is_byte l -> Forall is_byte l' -> length l = length l' -> bits l = bits l' -> l = l'.
Proof.
  intros Hl. revert l'. induction Hl as [|b l Hb _ IH]; intros [|b' l'] Hl' Hlen H;
    simpl in Hlen; try lia; [done|].
  inversion Hl'; subst. unfold bits in H. rewrite !bind_cons in H.
  apply app_inj_1 in H as [Hhd Htl]; [|done]. f_equal; [by apply byte_bits_inj|]. apply IH; auto; lia.
Qed.

Lemma base32_lower_inj l l' :
  Forall is_byte l -> Forall is_byte l' -> length l = length l' ->
  base32_lower l = base32_lower l' -> l = l'.
Proof.
  intros Hl Hl' Hlen H. apply bits_inj; auto.
  eapply base32_bits_inj; [reflexivity|by rewrite !bits_length, Hlen|done].
Qed.

Definition is_base32_char (a : ascii) : bool := is_lower a || in_range 50 55 a.

Lemma base32_char_class v : 0 <= v < 32 -> is_base32_char (base32_char v) = true.
Proof.
  intros Hv. unfold is_base32_char, is_lower, in_range, base32_char.
  rewrite byte_of_of by (unfold is_byte; case_match; lia). case_match; lia.
Qed.

Lemma base32_bits_class n : forall l, (length l <= n)%nat -> str_all is_base32_char (base32_bits l) = true.
Proof.
  induction n as [|n IH]; intros l Hn; [by destruct l; simpl in *; [|lia]|].
  destruct l as [|a [|b [|c [|d [|e l]]]]]; simpl in *; rewrite ?base32_char_class; auto using bits5_range.
  apply IH. lia.
Qed.

Lemma base32_bits_length n : forall l,
  (length l <= n)%nat -> String.length (base32_bits l) = ((length l + 4) / 5)%nat.
Proof.
  induction n as [|n IH]; intros l Hn; [by destruct l; simpl in *; [|lia]|].
  destruct l as [|a [|b [|c [|d [|e l]]]]]; try done.
  change (String.length (base32_bits (a :: b :: c :: d :: e :: l)))
    with (S (String.length (base32_bits l))).
  rewrite IH by (simpl in Hn; lia). simpl length.
  replace (S (S (S (S (S (length l))))) + 4)%nat with (length l + 4 + 1 * 5)%nat by lia.
  rewrite Nat.div_add by lia. lia.
Qed.

(** ** Sorting *)

Lemma str_compare_trans c x y z : c <> Eq ->
  String.compare x y = c -> String.compare y z = c -> String.compare x z = c.
Proof.
  intros Hc. revert y z. induction x as [|a x IH]; intros [|b y] [|d z]; simpl; try congruence.
  unfold Ascii.compare. intros H1 H2.
  destruct (N.compare_spec (N_of_ascii a) (N_of_ascii b)) as [E|E|E];
  destruct (N.compare_spec (N_of_ascii b) (N_of_ascii d)) as [F|F|F];
  destruct (N.compare_spec (N_of_ascii a) (N_of_ascii d)) as [G|G|G]; try congruence; try lia; eauto.
Qed.

Lemma str_leb_trans x y z : (x <=? y)%string = true -> (y <=? z)%string = true -> (x <=? z)%string = true.
Proof.
  unfold String.leb. intros H1 H2.
  destruct (String.compare x y) eqn:E1; [apply String.compare_eq_iff in E1; by subst| |done].
  destruct (String.compare y z) eqn:E2; [apply String.compare_eq_iff in E2; subst; by rewrite E1| |done].
  by rewrite (str_compare_trans Lt x y z).
Qed.

Lemma insert_str_perm x l : Permutation (x :: l) (insert_str x l).
Proof.
  induction l as [|y l IH]; simpl; [done|]. case_match; [done|].
  rewrite perm_swap. by constructor.
Qed.

Lemma sort_strings_perm l : Permutation l (sort_strings l).
Proof. induction l as [|x l IH]; simpl; [done|]. rewrite <- insert_str_perm. by constructor. Qed.

Definition str_le (x y : string) : Prop := (x <=? y)%string = true.

Lemma insert_str_sorted x l : StronglySorted str_le l -> StronglySorted str_le (insert_str x l).
Proof.
  induction 1 as [|y l Hs IH Hall]; simpl; [by repeat constructor|].
  case_match eqn:E.
  - constructor; [by constructor|]. constructor; [done|].
    eapply Forall_impl; [done|]. intros z Hz. by eapply str_leb_trans.
  - constructor; [done|]. rewrite Forall_forall. intros z Hz.
    apply list_elem_of_In in Hz. eapply Permutation_in in Hz; [|symmetry; apply insert_str_perm].
    destruct Hz as [<-|Hz].
    + destruct (String.leb_total x y); [congruence|done].
    + rewrite Forall_forall in Hall. apply Hall. by apply list_elem_of_In.
Qed.

Lemma sort_strings_sorted l : StronglySorted str_le (sort_strings l).
Proof. induction l; simpl; [constructor|by apply insert_str_sorted]. Qed.

(** A sorted list is determined by its elements. *)
Lemma sorted_perm_eq l l' :
  StronglySorted str_le l -> StronglySorted str_le l' -> Permutation l l' -> l = l'.
Proof.
  intros H. revert l'. induction H as [|x l Hs IH Hx]; intros l' H' Hp.
  { by apply Permutation_nil in Hp. }
  destruct H' as [|y l' Hs' Hy]; [by apply Permutation_sym, Permutation_nil in Hp|].
  assert (x = y) as ->.
  { assert (In x (y :: l')) as [->|Hin] by (eapply Permutation_in; [done|by left]); [done|].
    assert (In y (x :: l)) as [->|Hin'] by (eapply Permutation_in; [by symmetry|by left]); [done|].
    rewrite Forall_forall in Hx, Hy. apply String.leb_antisym.
    - apply Hx. by apply list_elem_of_In.
    - apply Hy. by apply list_elem_of_In. }
  f_equal. apply IH; [done|]. by apply Permutation_cons_inv in Hp.
Qed.

(** ** Trimming *)

Lemma space_head_shorter l r : space_head l = Some r -> exists p, l = p ++ r /\ p <> [].
Proof.
  destruct l as [|b0 [|b1 [|b2 l]]]; simpl; intros H; repeat (case_match; simplify_eq);
    first [done|by exists [b0]; split|by exists [b0; b1]; split|by exists [b0; b1; b2]; split].
Qed.

Lemma space_last_shorter l r : space_last l = Some r -> exists p, l = p ++ r /\ p <> [].
Proof.
  destruct l as [|b0 [|b1 [|b2 l]]]; simpl; intros H; repeat (case_match; simplify_eq);
    first [done|by exists [b0]; split|by exists [b0; b1]; split|by exists [b0; b1; b2]; split].
Qed.

Section drop_while.
Context (f : list Z -> option (list Z)).
Hypothesis f_shorter : forall l r, f l = Some r -> exists p, l = p ++ r /\ p <> [].

Lemma drop_while_suffix n l : exists p, l = p ++ drop_while_some n f l.
Proof using f_shorter.
  revert l. induction n as [|n IH]; intros l; simpl; [by exists []|].
  destruct (f l) as [r|] eqn:E; [|by exists []].
  destruct (f_shorter _ _ E) as (p & -> & _), (IH r) as [q Hq].
  exists (p ++ q). rewrite <- app_assoc. by rewrite <- Hq.
Qed.

Lemma drop_while_stop n l : (length l <= n)%nat -> f [] = None -> f (drop_while_some n f l) = None.
Proof using f_shorter.
  intros Hn Hnil. revert l Hn. induction n as [|n IH]; intros l Hn; simpl.
  { by destruct l; simpl in *; [|lia]. }
  destruct (f l) as [r|] eqn:E; [|done]. apply IH.
  destruct (f_shorter _ _ E) as (p & -> & Hp). rewrite length_app in Hn.
  destruct p; simpl in *; [done|lia].
Qed.

Lemma drop_while_id n l : f l = None -> drop_while_some n f l = l.
Proof. intros H. destruct n; simpl; [done|by rewrite H]. Qed.
End drop_while.

Lemma space_head_prefix l k r : space_head l = Some r -> is_Some (space_head (l ++ k)).
Proof.
  destruct l as [|b0 [|b1 [|b2 l]]]; simpl; intros H; repeat (case_match; simplify_eq); eauto; done.
Qed.

Lemma trim_bytes_id l : space_head l = None -> space_last (reverse l) = None -> trim_bytes l = l.
Proof.
  intros Hh Hl. unfold trim_bytes.
  by rewrite (drop_while_id space_head), (drop_while_id space_last), reverse_involutive.
Qed.

Lemma trim_bytes_ends l : space_head (trim_bytes l) = None /\ space_last (reverse (trim_bytes l)) = None.
Proof.
  unfold trim_bytes. set (l1 := drop_while_some (length l) space_head l).
  assert (space_head l1 = None) as H1 by (apply drop_while_stop; auto using space_head_shorter).
  set (l2 := drop_while_some (length l1) space_last (reverse l1)).
  assert (space_last l2 = None) as H2.
  { apply drop_while_stop; auto using space_last_shorter. by rewrite length_reverse. }
  rewrite reverse_involutive. split; [|done].
  destruct (drop_while_suffix space_last space_last_shorter (length l1) (reverse l1)) as [p Hp].
  fold l2 in Hp. apply (f_equal reverse) in Hp. rewrite reverse_involutive, reverse_app in Hp.
  destruct (space_head (reverse l2)) as [r|] eqn:E; [|done].
  apply (space_head_prefix _ (reverse p)) in E. rewrite <- Hp, H1 in E. by destruct E.
Qed.

Lemma trim_bytes_range l : Forall is_byte l -> Forall is_byte (trim_bytes l).
Proof.
  intros H. unfold trim_bytes. apply Forall_reverse.
  set (l1 := drop_while_some (length l) space_head l).
  assert (Forall is_byte l1) as H1.
  { destruct (drop_while_suffix space_head space_head_shorter (length l) l) as [p Hp].
    fold l1 in Hp. rewrite Hp in H. by apply Forall_app in H as []. }
  destruct (drop_while_suffix space_last space_last_shorter (length l1) (reverse l1)) as [p Hp].
  apply Forall_reverse in H1. rewrite Hp in H1. by apply Forall_app in H1 as [].
Qed.

Lemma trim_space_idem s : trim_space (trim_space s) = trim_space s.
Proof.
  unfold trim_space at 1 2. rewrite bytes_of_bytes by (apply trim_bytes_range, bytes_range).
  destruct (trim_bytes_ends (bytes s)). unfold trim_space. by rewrite trim_bytes_id.
Qed.

#[export] Hint Resolve bytes_range byte_of_range hex_decode_range : ptah.

(** ** Three digits *)

Lemma format_03d_spec n : 0 <= n < 1000 ->
  parse_unsigned (format_03d n) = Some n /\ String.length (format_03d n) = 3%nat.
Proof.
  intros Hn. assert (Hall : forallb (fun n => bool_decide (parse_unsigned (format_03d n) = Some n) &&
    bool_decide (String.length (format_03d n) = 3%nat)) (seqZ 0 1000) = true) by (vm_compute; reflexivity).
  rewrite forallb_forall in Hall. specialize (Hall n). rewrite <- list_elem_of_In, elem_of_seqZ in Hall.
  specialize (Hall ltac:(lia)). cbv beta in Hall. bool_prop. done.
Qed.
Lemma format_03d_inj i j : 0 <= i < 1000 -> 0 <= j < 1000 -> format_03d i = format_03d j -> i = j.
Proof.
  intros Hi Hj E. destruct (format_03d_spec i Hi) as [Ei _], (format_03d_spec j Hj) as [Ej _]. congruence.
Qed.
