(* ===== verification/Sha256.v ===== *)
(** * SHA-256 (Go package [crypto/sha256])

    The digest function of FIPS 180-4 over byte sequences, executable, with
    the words kept as [N] modulo [2^32]. What the components use of it is that
    it is a function into 32 bytes; no theorem assumes it to be injective, and
    a theorem that needs two inputs to differ concludes with the collision
    instead. *)
From stdpp Require Import base list strings.
From Stdlib Require Import NArith ZArith Lia.
From S2P Require Import Prelude GoStrings.

Definition word_mask : N := 4294967295.
Definition w32 (x : N) : N := N.land x word_mask.
Definition wadd (x y : N) : N := w32 (x + y).
Definition rotr (n : N) (x : N) : N := w32 (N.lor (N.shiftr x n) (N.shiftl x (32 - n))).

Definition ch (x y z : N) : N := N.lxor (N.land x y) (N.land (N.lxor x word_mask) z).
Definition maj (x y z : N) : N := N.lxor (N.lxor (N.land x y) (N.land x z)) (N.land y z).
Definition bsig0 (x : N) : N := N.lxor (N.lxor (rotr 2 x) (rotr 13 x)) (rotr 22 x).
Definition bsig1 (x : N) : N := N.lxor (N.lxor (rotr 6 x) (rotr 11 x)) (rotr 25 x).
Definition ssig0 (x : N) : N := N.lxor (N.lxor (rotr 7 x) (rotr 18 x)) (N.shiftr x 3).
Definition ssig1 (x : N) : N := N.lxor (N.lxor (rotr 17 x) (rotr 19 x)) (N.shiftr x 10).

(** The round constants, in decimal. *)
Definition round_constants : list N :=
  [ 1116352408; 1899447441; 3049323471; 3921009573; 961987163; 1508970993;
    2453635748; 2870763221; 3624381080; 310598401; 607225278; 1426881987;
    1925078388; 2162078206; 2614888103; 3248222580; 3835390401; 4022224774;
    264347078; 604807628; 770255983; 1249150122; 1555081692; 1996064986;
    2554220882; 2821834349; 2952996808; 3210313671; 3336571891; 3584528711;
    113926993; 338241895; 666307205; 773529912; 1294757372; 1396182291;
    1695183700; 1986661051; 2177026350; 2456956037; 2730485921; 2820302411;
    3259730800; 3345764771; 3516065817; 3600352804; 4094571909; 275423344;
    430227734; 506948616; 659060556; 883997877; 958139571; 1322822218;
    1537002063; 1747873779; 1955562222; 2024104815; 2227730452; 2361852424;
    2428436474; 2756734187; 3204031479; 3329325298 ]%N.

(** The chaining value: eight words. *)
Record hash8 : Type := Hash8 { ha : N; hb : N; hc : N; hd : N; he : N; hf : N; hg : N; hh : N }.

Definition initial_hash : hash8 :=
  Hash8 1779033703 3144134277 1013904242 2773480762 1359893119 2600822924 528734635 1541459225.

Definition compress (h : hash8) (kw : N * N) : hash8 :=
  let '(k, w) := kw in
  let t1 := wadd (wadd (wadd (wadd (hh h) (bsig1 (he h))) (ch (he h) (hf h) (hg h))) k) w in
  let t2 := wadd (bsig0 (ha h)) (maj (ha h) (hb h) (hc h)) in
  Hash8 (wadd t1 t2) (ha h) (hb h) (hc h) (wadd (hd h) t1) (he h) (hf h) (hg h).

Definition add8 (x y : hash8) : hash8 :=
  Hash8 (wadd (ha x) (ha y)) (wadd (hb x) (hb y)) (wadd (hc x) (hc y)) (wadd (hd x) (hd y))
        (wadd (he x) (he y)) (wadd (hf x) (hf y)) (wadd (hg x) (hg y)) (wadd (hh x) (hh y)).

(** The message schedule, newest word first: each step looks back 2, 7, 15 and
    16 words. *)
Fixpoint schedule (n : nat) (rev_w : list N) : list N :=
  match n with
  | O => rev_w
  | S n' =>
      let at_ i := nth i rev_w 0%N in
      let w := wadd (wadd (ssig1 (at_ 1%nat)) (at_ 6%nat)) (wadd (ssig0 (at_ 14%nat)) (at_ 15%nat)) in
      schedule n' (w :: rev_w)
  end.

Definition block (h : hash8) (words : list N) : hash8 :=
  let w := reverse (schedule 48 (reverse words)) in
  add8 h (fold_left compress (zip round_constants w) h).

(** Big-endian words of a byte sequence. *)
Fixpoint words (l : list Z) : list N :=
  match l with
  | a :: b :: c :: d :: r =>
      Z.to_N (((a * 256 + b) * 256 + c) * 256 + d) :: words r
  | _ => []
  end.

Fixpoint blocks (n : nat) (h : hash8) (ws : list N) : hash8 :=
  match n with
  | O => h
  | S n' => blocks n' (block h (firstn 16 ws)) (skipn 16 ws)
  end.

(** Big-endian bytes of a number. *)
Definition be_bytes (n : nat) (x : N) : list Z :=
  (fun i => Z.of_N (N.land (N.shiftr x (8 * N.of_nat i)) 255)) <$> reverse (seq 0 n).

(** The message, the bit [1], zero bits to 448 modulo 512, and the length in
    bits as 64 bits. *)
Definition pad (l : list Z) : list Z :=
  let n := Z.of_nat (length l) in
  l ++ [128] ++ replicate (Z.to_nat ((55 - n) mod 64)) 0 ++ be_bytes 8 (Z.to_N (8 * n)).

Definition sha256 (l : list Z) : list Z :=
  let ws := words (pad l) in
  let h := blocks (length ws / 16) initial_hash ws in
  [ha h; hb h; hc h; hd h; he h; hf h; hg h; hh h] ≫= be_bytes 4.

Lemma be_bytes_range n x : Forall is_byte (be_bytes n x).
Proof.
  apply Forall_fmap, Forall_true. intros i. unfold compose, is_byte. split; [lia|].
  change 255%N with (N.ones 8). rewrite N.land_ones.
  assert (2 ^ 8 <> 0)%N as H by done. apply (N.mod_lt (N.shiftr x (8 * N.of_nat i))) in H.
  change (2 ^ 8)%N with 256%N in *. lia.
Qed.

Lemma sha256_length l : length (sha256 l) = 32%nat.
Proof. done. Qed.

Lemma sha256_range l : Forall is_byte (sha256 l).
Proof.
  unfold sha256. apply Forall_bind, Forall_true. intros x. apply be_bytes_range.
Qed.

(** The FIPS 180-4 test vectors for the empty message, [abc] and a message of
    two blocks. *)
Example sha256_empty :
  hex_encode (sha256 []) = "e3b0c44298fc1c149afbf4c8996fb92427ae41e4649b934ca495991b7852b855".
Proof. vm_compute. reflexivity. Qed.
Example sha256_abc :
  hex_encode (sha256 (bytes "abc")) = "ba7816bf8f01cfea414140de5dae2223b00361a396177a9cb410ff61f20015ad".
Proof. vm_compute. reflexivity. Qed.
Example sha256_two_blocks :
  hex_encode (sha256 (bytes "abcdbcdecdefdefgefghfghighijhijkijkljklmklmnlmnomnopnopq"))
  = "248d6a61d20638b8e5c026930c3e6039a33ce45964ff2167f6ecedd419db06c1".
Proof. vm_compute. reflexivity. Qed.

#[export] Hint Resolve sha256_range sha256_length : ptah.
