(* ===== verification/Json.v ===== *)
(** * Canonical JSON (Go package [encoding/json])

    [json.Marshal] as the fingerprints use it: structs as objects in field
    order, maps as objects with their keys sorted, strings with Go's escaping
    (HTML characters, control characters, U+2028 and U+2029, and [\ufffd] for
    bytes that are not UTF-8), integers in decimal; an [Encoder] may leave the
    HTML characters as they are. The result is a byte
    sequence. The theorem the components use is [marshal_inj]: over valid
    UTF-8, two documents with the same bytes are the same document, so a
    digest of the bytes binds every field. *)
From stdpp Require Import base list gmap strings pretty.
From Stdlib Require Import ZArith Lia Ascii.
From S2P Require Import Prelude GoStrings.

Unset Elimination Schemes.
Inductive json : Type :=
| JStr (s : string)
| JInt (z : Z)
| JBool (b : bool)
| JNull
| JArr (l : list json)
| JObj (fields : list (string * json)).
Set Elimination Schemes.

(** ** Strings *)

(** UTF-8: the encodings [utf8.DecodeRune] accepts, by length. *)
Definition cont (b : Z) : bool := (128 <=? b) && (b <=? 191).
Definition rune2 (b0 b1 : Z) : bool := (194 <=? b0) && (b0 <=? 223) && cont b1.
Definition rune3 (b0 b1 b2 : Z) : bool :=
  cont b2 &&
  (((b0 =? 224) && (160 <=? b1) && (b1 <=? 191)) ||
   ((225 <=? b0) && (b0 <=? 236) && cont b1) ||
   ((b0 =? 237) && (128 <=? b1) && (b1 <=? 159)) ||
   ((238 <=? b0) && (b0 <=? 239) && cont b1)).
Definition rune4 (b0 b1 b2 b3 : Z) : bool :=
  cont b2 && cont b3 &&
  (((b0 =? 240) && (144 <=? b1) && (b1 <=? 191)) ||
   ((241 <=? b0) && (b0 <=? 243) && cont b1) ||
   ((b0 =? 244) && (128 <=? b1) && (b1 <=? 143))).

Definition hex_byte (v : Z) : Z := byte_of (hex_digit v).

Section Encoder.
(** Whether the HTML characters are escaped, [Encoder.SetEscapeHTML]. *)
Context (html : bool).

(** One ASCII byte: copied when it is in [htmlSafeSet] or, without HTML
    escaping, in [safeSet]; escaped otherwise. *)
Definition safe_byte (b : Z) : bool :=
  (32 <=? b) && negb (b =? 34) && negb (b =? 92) &&
  (negb html || (negb (b =? 60) && negb (b =? 62) && negb (b =? 38))).
Definition esc_ascii (b : Z) : list Z :=
  if safe_byte b then [b]
  else if (b =? 92) || (b =? 34) then [92; b]
  else if b =? 8 then [92; 98]
  else if b =? 12 then [92; 102]
  else if b =? 10 then [92; 110]
  else if b =? 13 then [92; 114]
  else if b =? 9 then [92; 116]
  else [92; 117; 48; 48; hex_byte (b / 16); hex_byte (b mod 16)].

(** [\ufffd], [\u2028] and [\u2029]. *)
Definition esc_invalid : list Z := [92; 117; 102; 102; 102; 100].
Definition esc_rune3 (b0 b1 b2 : Z) : list Z :=
  if (b0 =? 226) && (b1 =? 128) && ((b2 =? 168) || (b2 =? 169))
  then [92; 117; 50; 48; 50; b2 - 112]
  else [b0; b1; b2].

Fixpoint esc (l : list Z) : list Z :=
  match l with
  | [] => []
  | b0 :: l1 =>
      if b0 <? 128 then esc_ascii b0 ++ esc l1 else
      match l1 with
      | b1 :: l2 =>
          if rune2 b0 b1 then b0 :: b1 :: esc l2 else
          match l2 with
          | b2 :: l3 =>
              if rune3 b0 b1 b2 then esc_rune3 b0 b1 b2 ++ esc l3 else
              match l3 with
              | b3 :: l4 =>
                  if rune4 b0 b1 b2 b3 then b0 :: b1 :: b2 :: b3 :: esc l4
                  else esc_invalid ++ esc l1
              | [] => esc_invalid ++ esc l1
              end
          | [] => esc_invalid ++ esc l1
          end
      | [] => esc_invalid ++ esc l1
      end
  end.

(** The byte sequences that decode without an error. *)
Fixpoint utf8_valid (l : list Z) : bool :=
  match l with
  | [] => true
  | b0 :: l1 =>
      if b0 <? 128 then utf8_valid l1 else
      match l1 with
      | b1 :: l2 =>
          if rune2 b0 b1 then utf8_valid l2 else
          match l2 with
          | b2 :: l3 =>
              if rune3 b0 b1 b2 then utf8_valid l3 else
              match l3 with
              | b3 :: l4 => rune4 b0 b1 b2 b3 && utf8_valid l4
              | [] => false
              end
          | [] => false
          end
      | [] => false
      end
  end.

Definition quote (s : string) : list Z := 34 :: esc (bytes s) ++ [34].

#[global] Arguments quote : simpl never.

(** ** Documents *)

Fixpoint encode (v : json) : list Z :=
  match v with
  | JStr s => quote s
  | JInt z => bytes (format_int z)
  | JBool true => bytes "true"
  | JBool false => bytes "false"
  | JNull => bytes "null"
  | JArr l =>
      91 :: match l with
      | [] => [93]
      | x :: xs =>
          encode x ++
          (fix tail xs := match xs with
                          | [] => [93]
                          | y :: ys => 44 :: encode y ++ tail ys
                          end) xs
      end
  | JObj fs =>
      123 :: match fs with
      | [] => [125]
      | (k, x) :: xs =>
          quote k ++ 58 :: encode x ++
          (fix tail xs := match xs with
                          | [] => [125]
                          | (k', y) :: ys => 44 :: quote k' ++ 58 :: encode y ++ tail ys
                          end) xs
      end
  end.

(** A Go map as an object: [encoding/json] sorts the keys. *)
Fixpoint insert_field (f : string * json) (l : list (string * json)) : list (string * json) :=
  match l with
  | [] => [f]
  | g :: r => if (f.1 <=? g.1)%string then f :: l else g :: insert_field f r
  end.
Definition JMap (fields : list (string * json)) : json := JObj (foldr insert_field [] fields).

(** Every string of the document is valid UTF-8. *)
Definition utf8_str (s : string) : bool := utf8_valid (bytes s).
Fixpoint json_utf8 (v : json) : bool :=
  match v with
  | JStr s => utf8_str s
  | JInt _ | JBool _ | JNull => true
  | JArr l => forallb json_utf8 l
  | JObj fs => forallb (fun f => utf8_str f.1 && json_utf8 f.2) fs
  end.

(** ** Decoding a quoted string, to show that quoting loses nothing *)

Definition unhex (c : Z) : Z := if c <? 58 then c - 48 else c - 87.
Fixpoint unesc (n : nat) (l : list Z) : option (list Z * list Z) :=
  match n with
  | O => None
  | S n' =>
      match l with
      | [] => None
      | b :: r =>
          if b =? 34 then Some ([], r)
          else if b =? 92 then
            match r with
            | c :: r1 =>
                if c =? 117 then
                  match r1 with
                  | h1 :: h2 :: h3 :: h4 :: r2 =>
                      '(d, t) ← unesc n' r2;
                      Some ((if h1 =? 50 then [226; 128; h4 + 112] else [16 * unhex h3 + unhex h4]) ++ d, t)
                  | _ => None
                  end
                else
                  '(d, t) ← unesc n' r1;
                  Some ((if c =? 98 then 8 else if c =? 102 then 12 else if c =? 110 then 10
                         else if c =? 114 then 13 else if c =? 116 then 9 else c) :: d, t)
            | [] => None
            end
          else '(d, t) ← unesc n' r; Some (b :: d, t)
      end
  end.

(** * Lemmas *)

Lemma json_ind' (P : json -> Prop) :
  (forall s, P (JStr s)) -> (forall z, P (JInt z)) -> (forall b, P (JBool b)) -> P JNull ->
  (forall l, Forall P l -> P (JArr l)) ->
  (forall fs, Forall (fun f => P f.2) fs -> P (JObj fs)) ->
  forall v, P v.
Proof.
  intros Hs Hi Hb Hn Ha Ho. fix IH 1. intros [s|z|b| |l|fs].
  - apply Hs.
  - apply Hi.
  - apply Hb.
  - apply Hn.
  - apply Ha. induction l as [|x l IHl]; constructor; [apply IH|apply IHl].
  - apply Ho. induction fs as [|[k x] fs IHfs]; constructor; [apply IH|apply IHfs].
Qed.

Lemma unhex_hex_byte v : 0 <= v < 16 -> unhex (hex_byte v) = v.
Proof.
  intros Hv. unfold unhex, hex_byte, hex_digit.
  rewrite byte_of_of by (unfold is_byte; case_match; lia).
  destruct (v <? 10) eqn:?; case_match; lia.
Qed.

(** More fuel does not change a result. *)
Lemma unesc_more n m l x : unesc n l = Some x -> (n <= m)%nat -> unesc m l = Some x.
Proof.
  revert m l x. induction n as [|n IH]; intros m l x H Hm; [done|].
  destruct m as [|m]; [lia|]. assert (n <= m)%nat as Hnm by lia.
  assert (forall r y, unesc n r = Some y -> unesc m r = Some y) as IH' by eauto.
  destruct l as [|b r]; simpl in *; [done|].
  repeat (case_match; try done);
    match goal with
    | H : (unesc n ?r ≫= _) = Some _ |- _ =>
        destruct (unesc n r) as [[d t]|] eqn:E; [apply IH' in E; by rewrite E|done]
    end.
Qed.

Lemma esc_ascii_spec b rest l r n :
  0 <= b < 128 -> unesc n rest = Some (l, r) ->
  unesc (S n) (esc_ascii b ++ rest) = Some (b :: l, r).
Proof.
  intros Hb Hrest. unfold esc_ascii.
  destruct (safe_byte b) eqn:Es.
  { unfold safe_byte in Es. bool_prop. simpl.
    rewrite (proj2 (Z.eqb_neq b 34)), (proj2 (Z.eqb_neq b 92)), Hrest by done. done. }
  destruct ((b =? 92) || (b =? 34)) eqn:E; [assert (b = 92 \/ b = 34) as [-> | ->] by lia; simpl; by rewrite Hrest|].
  destruct (b =? 8) eqn:E8; [apply Z.eqb_eq in E8 as ->; simpl; by rewrite Hrest|].
  destruct (b =? 12) eqn:E12; [apply Z.eqb_eq in E12 as ->; simpl; by rewrite Hrest|].
  destruct (b =? 10) eqn:E10; [apply Z.eqb_eq in E10 as ->; simpl; by rewrite Hrest|].
  destruct (b =? 13) eqn:E13; [apply Z.eqb_eq in E13 as ->; simpl; by rewrite Hrest|].
  destruct (b =? 9) eqn:E9; [apply Z.eqb_eq in E9 as ->; simpl; by rewrite Hrest|].
  cbn -[unhex hex_byte Z.mul Z.div Z.modulo]. rewrite Hrest. simpl.
  assert (0 <= b / 16 < 16) by (split; [apply Z.div_pos|apply Z.div_lt_upper_bound]; lia).
  rewrite !unhex_hex_byte by (try done; apply Z.mod_pos_bound; lia).
  do 3 f_equal. rewrite (Z.div_mod b 16) at 3; lia.
Qed.

Lemma unesc_copy b rest l r n :
  128 <= b -> unesc n rest = Some (l, r) -> unesc (S n) (b :: rest) = Some (b :: l, r).
Proof.
  intros Hb Hrest. simpl. rewrite (proj2 (Z.eqb_neq b 34)), (proj2 (Z.eqb_neq b 92)) by lia.
  by rewrite Hrest.
Qed.

Lemma unesc_rune3 b0 b1 b2 rest l r n :
  128 <= b0 -> 128 <= b1 -> 128 <= b2 -> unesc n rest = Some (l, r) ->
  unesc (S (S (S n))) (esc_rune3 b0 b1 b2 ++ rest) = Some (b0 :: b1 :: b2 :: l, r).
Proof.
  intros H0 H1 H2 Hrest. unfold esc_rune3. case_match eqn:E.
  - change (unesc (S (S (S n))) ([92; 117; 50; 48; 50; b2 - 112] ++ rest))
      with ('(d, t) ← unesc (S (S n)) rest; Some ([226; 128; b2 - 112 + 112] ++ d, t)).
    rewrite (unesc_more n _ _ _ Hrest) by lia. simpl. do 2 f_equal.
    assert (b0 = 226 /\ b1 = 128) as [-> ->] by lia. repeat f_equal; lia.
  - simpl ((_ :: _) ++ _). by repeat apply unesc_copy.
Qed.

Lemma esc_unesc k : forall l r,
  (length l <= k)%nat -> Forall is_byte l -> utf8_valid l = true ->
  unesc (S (length l)) (esc l ++ 34 :: r) = Some (l, r).
Proof.
  induction k as [|k IH]; intros l r Hk Hl Hv.
  { destruct l; simpl in *; [done|lia]. }
  destruct l as [|b0 l1]; [done|]. inversion_clear Hl as [|? ? Hb0 Hl1].
  simpl in Hv. simpl length in *. unfold is_byte in Hb0.
  destruct (b0 <? 128) eqn:E0.
  { simpl esc. rewrite E0, <- app_assoc. apply esc_ascii_spec; [lia|]. apply IH; auto; lia. }
  destruct l1 as [|b1 l2]; [done|]. inversion_clear Hl1 as [|? ? _ Hl2].
  destruct (rune2 b0 b1) eqn:E2.
  { simpl esc. rewrite E0, E2. unfold rune2, cont in E2. simpl app.
    apply unesc_copy; [lia|]. apply unesc_copy; [lia|]. apply IH; auto; simpl in *; lia. }
  destruct l2 as [|b2 l3]; [done|]. inversion_clear Hl2 as [|? ? _ Hl3].
  destruct (rune3 b0 b1 b2) eqn:E3.
  { simpl esc. rewrite E0, E2, E3, <- app_assoc. unfold rune3, cont in E3.
    apply unesc_rune3; [lia..|]. apply IH; auto; simpl in *; lia. }
  destruct l3 as [|b3 l4]; [done|]. inversion_clear Hl3 as [|? ? _ Hl4].
  apply andb_true_iff in Hv as [E4 Hv].
  simpl esc. rewrite E0, E2, E3, E4. unfold rune4, cont in E4. simpl app.
  do 4 (apply unesc_copy; [lia|]). apply IH; auto; simpl in *; lia.
Qed.

Lemma quote_inj s t r r' :
  utf8_str s = true -> utf8_str t = true -> quote s ++ r = quote t ++ r' -> s = t /\ r = r'.
Proof.
  unfold quote, utf8_str. intros Hs Ht H. simpl in H. injection H as H.
  rewrite <- !app_assoc in H. simpl in H.
  pose proof (esc_unesc _ _ r (Nat.le_refl _) (bytes_range s) Hs) as Es.
  pose proof (esc_unesc _ _ r' (Nat.le_refl _) (bytes_range t) Ht) as Et.
  apply (unesc_more _ (S (length (bytes s)) + S (length (bytes t)))) in Es; [|lia].
  apply (unesc_more _ (S (length (bytes s)) + S (length (bytes t)))) in Et; [|lia].
  rewrite H, Et in Es. simplify_eq. split; [by apply bytes_inj|done].
Qed.

(** ** Numbers *)

Definition num_byte (b : Z) : bool := (b =? 45) || ((48 <=? b) && (b <=? 57)).

Lemma pretty_N_go_num x : forall s,
  Forall (fun b => num_byte b = true) (bytes s) -> Forall (fun b => num_byte b = true) (bytes (pretty_N_go x s)).
Proof.
  induction (N.lt_wf_0 x) as [x _ IH]; intros s Hs.
  assert (x = 0 ∨ 0 < x)%N as [->|?] by lia; [done|].
  rewrite pretty_N_go_step by done. apply IH; [by apply N.div_lt|].
  rewrite bytes_cons. constructor; [|done]. unfold pretty_N_char. by repeat case_match.
Qed.

Lemma pretty_N_go_nonempty x : forall s, s <> EmptyString -> pretty_N_go x s <> EmptyString.
Proof.
  induction (N.lt_wf_0 x) as [x _ IH]; intros s Hs.
  assert (x = 0 ∨ 0 < x)%N as [->|?] by lia; [done|].
  rewrite pretty_N_go_step by done. apply IH; [by apply N.div_lt|done].
Qed.

Lemma pretty_positive_num p :
  Forall (fun b => num_byte b = true) (bytes (pretty (N.pos p))) /\ pretty (N.pos p) <> EmptyString.
Proof.
  unfold pretty, pretty_N. case_decide; [done|]. split; [by apply pretty_N_go_num|].
  rewrite pretty_N_go_step by lia. by apply pretty_N_go_nonempty.
Qed.

Lemma format_int_num z :
  Forall (fun b => num_byte b = true) (bytes (format_int z)) /\ bytes (format_int z) <> [].
Proof.
  assert (forall s, s <> EmptyString -> bytes s <> []) as Hne by (by intros [|]).
  unfold format_int. destruct z as [|p|p].
  - split; [by repeat constructor|done].
  - destruct (pretty_positive_num p). split; [done|]. by apply Hne.
  - destruct (pretty_positive_num p). split; [|done].
    change (pretty (Z.neg p)) with (String "-" (pretty (N.pos p))). rewrite bytes_cons.
    by constructor.
Qed.

Lemma num_run_inj (l l' r r' : list Z) :
  Forall (fun b => num_byte b = true) l -> Forall (fun b => num_byte b = true) l' ->
  match r with b :: _ => num_byte b = false | [] => True end ->
  match r' with b :: _ => num_byte b = false | [] => True end ->
  l ++ r = l' ++ r' -> l = l' /\ r = r'.
Proof.
  intros Hl. revert l'. induction Hl as [|b l Hb Hl IH]; intros l' Hl' Hr Hr' H;
    destruct Hl' as [|b' l' Hb' Hl']; simpl in *; simplify_eq.
  - done.
  - congruence.
  - congruence.
  - destruct (IH l') as [-> ->]; auto.
Qed.

(** ** Documents *)

(** What follows a value inside a document: nothing, a separator or a closing
    bracket. *)
Definition ends_value (r : list Z) : Prop :=
  match r with b :: _ => b = 44 \/ b = 93 \/ b = 125 | [] => True end.

Lemma ends_value_num r :
  ends_value r -> match r with b :: _ => num_byte b = false | [] => True end.
Proof. destruct r; simpl; [done|]. by intros [->|[->| ->]]. Qed.

(** The first byte of a value tells its kind. *)
Definition first_kind (v : json) (b : Z) : bool :=
  match v with
  | JStr _ => b =? 34
  | JInt _ => num_byte b
  | JBool true => b =? 116
  | JBool false => b =? 102
  | JNull => b =? 110
  | JArr _ => b =? 91
  | JObj _ => b =? 123
  end.

Lemma marshal_first v : exists b t, encode v = b :: t /\ first_kind v b = true.
Proof.
  destruct v as [s|z|[]| |l|fs]; try (by eexists _, _; split; [reflexivity|]).
  simpl. destruct (format_int_num z) as [Hall Hne].
  destruct (bytes (format_int z)) as [|b t]; [done|]. inversion Hall; subst. eauto.
Qed.

Lemma first_kind_close v b : first_kind v b = true -> b <> 93.
Proof. destruct v as [| |[]| | |]; simpl; unfold num_byte; lia. Qed.

Lemma quote_cons s : exists t, quote s = 34 :: t.
Proof. by eexists. Qed.
Lemma cons_tail (a b : Z) l m : a :: l = b :: m -> l = m.
Proof. congruence. Qed.
#[local] Opaque quote.

Definition tail_arr : list json -> list Z :=
  fix tail xs := match xs with [] => [93] | y :: ys => 44 :: encode y ++ tail ys end.
Definition tail_obj : list (string * json) -> list Z :=
  fix tail xs := match xs with
                 | [] => [125]
                 | (k', y) :: ys => 44 :: quote k' ++ 58 :: encode y ++ tail ys
                 end.

Lemma marshal_arr_cons x xs : encode (JArr (x :: xs)) = 91 :: encode x ++ tail_arr xs.
Proof. done. Qed.
Lemma marshal_obj_cons k x xs :
  encode (JObj ((k, x) :: xs)) = 123 :: quote k ++ 58 :: encode x ++ tail_obj xs.
Proof. done. Qed.

Lemma tail_arr_ends xs r : ends_value (tail_arr xs ++ r).
Proof. destruct xs; simpl; auto. Qed.
Lemma tail_obj_ends xs r : ends_value (tail_obj xs ++ r).
Proof. destruct xs as [|[]]; simpl; auto. Qed.

Definition inj_at (v : json) : Prop :=
  forall v' r r', json_utf8 v = true -> json_utf8 v' = true -> ends_value r -> ends_value r' ->
    encode v ++ r = encode v' ++ r' -> v = v' /\ r = r'.

Lemma tail_arr_inj xs : Forall inj_at xs -> forall ys r r',
  forallb json_utf8 xs = true -> forallb json_utf8 ys = true ->
  tail_arr xs ++ r = tail_arr ys ++ r' -> xs = ys /\ r = r'.
Proof.
  induction 1 as [|x xs Hx _ IH]; intros [|y ys] r r' Hxs Hys H; simpl in *; simplify_eq; [done|].
  apply andb_true_iff in Hxs as [? ?], Hys as [? ?].
  rewrite <- !app_assoc in H. apply Hx in H as [-> H]; auto using tail_arr_ends.
  apply IH in H as [-> ->]; auto.
Qed.

Lemma tail_obj_inj xs : Forall (fun f => inj_at f.2) xs -> forall ys r r',
  forallb (fun f => utf8_str f.1 && json_utf8 f.2) xs = true ->
  forallb (fun f => utf8_str f.1 && json_utf8 f.2) ys = true ->
  tail_obj xs ++ r = tail_obj ys ++ r' -> xs = ys /\ r = r'.
Proof.
  induction 1 as [|[k x] xs Hx _ IH]; intros [|[k' y] ys] r r' Hxs Hys H; simpl in *;
    [by apply cons_tail in H|discriminate H|discriminate H|].
  apply cons_tail in H. bool_prop. rewrite <- !app_assoc in H. apply quote_inj in H as [-> H]; [|done..].
  simpl in H. apply cons_tail in H. rewrite <- !app_assoc in H.
  apply Hx in H as [-> H]; auto using tail_obj_ends. apply IH in H as [-> ->]; auto.
Qed.

Lemma marshal_inj_at v : inj_at v.
Proof.
  induction v as [s|z|b| |l IH|fs IH] using json_ind'; intros v' r r' Hv Hv' Hr Hr' H.
  all: destruct (marshal_first v') as (b' & t' & Ev' & Hk').
  - destruct (quote_cons s) as [t E].
    destruct v' as [s'|z'|[]| |l'|fs']; [by apply quote_inj in H as [-> ->]|..];
      rewrite Ev' in H; simpl in H; rewrite E in H; injection H as <- _; by vm_compute in Hk'.
  - destruct (format_int_num z) as [Hz Hne]. simpl in H.
    destruct v' as [s'|z'|[]| |l'|fs'].
    2: { simpl in H. destruct (format_int_num z') as [Hz' _].
         apply num_run_inj in H as [H ->]; [|done|done|by apply ends_value_num..].
         apply bytes_inj in H. unfold format_int in H. by apply (inj pretty) in H as ->. }
    all: destruct (bytes (format_int z)) as [|b t]; [done|]; inversion Hz as [|? ? Hb _]; subst;
      rewrite Ev' in H; simpl in H; injection H as -> _; simpl in Hk'; apply Z.eqb_eq in Hk'; subst;
      by vm_compute in Hb.
  - destruct b, v' as [s'|z'|[]| |l'|fs']; try (rewrite Ev' in H; simpl in H; injection H as <- _; by vm_compute in Hk');
      simpl in H; simplify_eq; by split.
  - destruct v' as [s'|z'|[]| |l'|fs']; try (rewrite Ev' in H; simpl in H; injection H as <- _; by vm_compute in Hk').
    simpl in H; simplify_eq; by split.
  - destruct v' as [s'|z'|[]| |l'|fs']; try (rewrite Ev' in H; simpl in H; destruct l; injection H as <- _; by vm_compute in Hk').
    destruct l as [|x xs], l' as [|y ys]; [simpl in H; simplify_eq; by split|..].
    + exfalso. rewrite marshal_arr_cons in H. simpl in H.
      destruct (marshal_first y) as (b & t & E & Hk). rewrite E in H. simpl in H.
      apply cons_tail in H. apply first_kind_close in Hk. congruence.
    + exfalso. rewrite marshal_arr_cons in H. simpl in H.
      destruct (marshal_first x) as (b & t & E & Hk). rewrite E in H. simpl in H.
      apply cons_tail in H. apply first_kind_close in Hk. congruence.
    + rewrite !marshal_arr_cons in H. simpl in H. apply cons_tail in H. rewrite <- !app_assoc in H.
      inversion IH as [|? ? Hx Hxs]; subst. simpl in Hv, Hv'. bool_prop.
      apply Hx in H as [-> H]; auto using tail_arr_ends.
      apply tail_arr_inj in H as [-> ->]; auto.
  - destruct v' as [s'|z'|[]| |l'|fs']; try (rewrite Ev' in H; simpl in H; destruct fs as [|[]]; injection H as <- _; by vm_compute in Hk').
    destruct fs as [|[k x] xs], fs' as [|[k' y] ys];
      [simpl in H; simplify_eq; by split|..].
    { exfalso. destruct (quote_cons k') as [t E]. simpl in H. by rewrite E in H. }
    { exfalso. destruct (quote_cons k) as [t E]. simpl in H. by rewrite E in H. }
    rewrite !marshal_obj_cons in H. simpl in H. apply cons_tail in H. rewrite <- !app_assoc in H.
    inversion IH as [|? ? Hx Hxs]; subst. simpl in Hv, Hv', Hx. bool_prop.
    apply quote_inj in H as [-> H]; [|done..]. simpl in H. apply cons_tail in H. rewrite <- !app_assoc in H.
    apply Hx in H as [-> H]; auto using tail_obj_ends. apply tail_obj_inj in H as [-> ->]; auto.
Qed.

(** Two documents with the same bytes are the same document. *)
Lemma marshal_inj v v' :
  json_utf8 v = true -> json_utf8 v' = true -> encode v = encode v' -> v = v'.
Proof.
  intros Hv Hv' H. apply (marshal_inj_at v v' [] []); auto; [done..|by rewrite !app_nil_r].
Qed.
End Encoder.

(** [json.Marshal] escapes HTML; an encoder told not to does not. *)
Abbreviation marshal := (encode true).
Abbreviation encode_plain := (encode false).
