(* ===== verification/JsonDecode.v ===== *)
(** * Reading canonical JSON back (Go package [encoding/json], [json.Unmarshal])

    The stores keep documents as the bytes [json.Marshal] gives and accept one
    only when decoding and encoding it again returns the same bytes. [parse]
    reads the documents [Json.encode] writes; every other spelling a general
    decoder would accept (white space, other escapes, unknown or reordered
    fields) fails the comparison that follows, so [canonicalRecord] accepts
    exactly what the code does. [JsonCodec] is what a type promises: its
    document and how to read it back. Byte slices are base64 strings. *)
From stdpp Require Import base list gmap strings pretty.
From Stdlib Require Import ZArith Lia Ascii.
From S2P Require Import Prelude GoStrings Json.
Local Open Scope Z_scope.

(** ** [encoding/base64] *)

(** The 64 characters: [+/] in the standard alphabet, [-_] in the URL one. *)
Definition base64_char (url : bool) (v : Z) : ascii :=
  of_byte (if v <? 26 then 65 + v else if v <? 52 then 71 + v else if v <? 62 then v - 4
           else if v =? 62 then (if url then 45 else 43) else (if url then 95 else 47)).
Definition base64_val (url : bool) (a : ascii) : option Z :=
  let b := byte_of a in
  if (65 <=? b) && (b <=? 90) then Some (b - 65)
  else if (97 <=? b) && (b <=? 122) then Some (b - 71)
  else if (48 <=? b) && (b <=? 57) then Some (b + 4)
  else if b =? (if url then 45 else 43) then Some 62
  else if b =? (if url then 95 else 47) then Some 63
  else None.

(** [StdEncoding] pads, [RawURLEncoding] does not. *)
Fixpoint base64 (url : bool) (l : list Z) : string :=
  let ch := base64_char url in
  let fill s := if url then EmptyString else s in
  match l with
  | [] => EmptyString
  | [a] => String (ch (a / 4)) (String (ch (a mod 4 * 16)) (fill "=="))
  | [a; b] => String (ch (a / 4)) (String (ch (a mod 4 * 16 + b / 16)) (String (ch (b mod 16 * 4)) (fill "=")))
  | a :: b :: c :: r =>
      String (ch (a / 4)) (String (ch (a mod 4 * 16 + b / 16))
        (String (ch (b mod 16 * 4 + c / 64)) (String (ch (c mod 64)) (base64 url r))))
  end.

Definition is_pad (a : ascii) : bool := bool_decide (a = "="%char).
(** [StdEncoding.Decode] of padded groups of four. *)
Fixpoint base64_decode (s : string) : option (list Z) :=
  match s with
  | EmptyString => Some []
  | String a (String b (String c (String d r))) =>
      va ← base64_val false a; vb ← base64_val false b;
      if is_pad c then
        if is_pad d && bool_decide (r = EmptyString) then Some [va * 4 + vb / 16] else None
      else
        vc ← base64_val false c;
        if is_pad d then
          if bool_decide (r = EmptyString) then Some [va * 4 + vb / 16; vb mod 16 * 16 + vc / 4] else None
        else
          vd ← base64_val false d; rest ← base64_decode r;
          Some (va * 4 + vb / 16 :: vb mod 16 * 16 + vc / 4 :: vc mod 4 * 64 + vd :: rest)
  | _ => None
  end.

(** ** Documents *)

(** The longest run of bytes of a number, and the number it spells. *)
Fixpoint num_span (l : list Z) : list Z * list Z :=
  match l with
  | b :: r => if num_byte b then let '(n, t) := num_span r in (b :: n, t) else ([], l)
  | [] => ([], [])
  end.
Definition read_int (s : string) : option Z :=
  match s with
  | String a s' => if bool_decide (a = "-"%char) then Z.opp <$> parse_unsigned s' else parse_unsigned s
  | EmptyString => None
  end.

Fixpoint drop_word (w l : list Z) : option (list Z) :=
  match w, l with
  | [], _ => Some l
  | a :: w', b :: l' => if a =? b then drop_word w' l' else None
  | _ :: _, [] => None
  end.

(** A quoted string, after its opening quote. *)
Definition parse_string (l : list Z) : option (string * list Z) :=
  '(d, t) ← unesc (S (length l)) l;
  let s := of_bytes d in
  if utf8_str s then Some (s, t) else None.

Definition parse_key (l : list Z) : option (string * list Z) :=
  match l with
  | b :: r => if b =? 34 then '(k, t) ← parse_string r; t' ← drop_word [58] t; Some (k, t') else None
  | [] => None
  end.

(** A value; the rest of an array or of an object after one of its members. *)
Fixpoint parse_value (n : nat) (l : list Z) : option (json * list Z) :=
  match n, l with
  | S n', b :: r =>
      if b =? 34 then '(s, t) ← parse_string r; Some (JStr s, t)
      else if b =? 91 then
        match drop_word [93] r with
        | Some t => Some (JArr [], t)
        | None => '(x, t) ← parse_value n' r; '(xs, t') ← parse_items n' t; Some (JArr (x :: xs), t')
        end
      else if b =? 123 then
        match drop_word [125] r with
        | Some t => Some (JObj [], t)
        | None =>
            '(k, t) ← parse_key r; '(x, t1) ← parse_value n' t; '(fs, t2) ← parse_fields n' t1;
            Some (JObj ((k, x) :: fs), t2)
        end
      else if b =? 116 then t ← drop_word (bytes "rue") r; Some (JBool true, t)
      else if b =? 102 then t ← drop_word (bytes "alse") r; Some (JBool false, t)
      else if b =? 110 then t ← drop_word (bytes "ull") r; Some (JNull, t)
      else let '(ds, t) := num_span l in z ← read_int (of_bytes ds); Some (JInt z, t)
  | _, _ => None
  end
with parse_items (n : nat) (l : list Z) : option (list json * list Z) :=
  match n, l with
  | S n', b :: r =>
      if b =? 93 then Some ([], r)
      else if b =? 44 then '(x, t) ← parse_value n' r; '(xs, t') ← parse_items n' t; Some (x :: xs, t')
      else None
  | _, _ => None
  end
with parse_fields (n : nat) (l : list Z) : option (list (string * json) * list Z) :=
  match n, l with
  | S n', b :: r =>
      if b =? 125 then Some ([], r)
      else if b =? 44 then
        '(k, t) ← parse_key r; '(x, t1) ← parse_value n' t; '(fs, t2) ← parse_fields n' t1;
        Some ((k, x) :: fs, t2)
      else None
  | _, _ => None
  end.

(** A whole document. *)
Definition parse (l : list Z) : option json :=
  '(v, t) ← parse_value (S (length l)) l;
  if bool_decide (t = []) then Some v else None.

(** ** Types with a document *)

Class JsonCodec (A : Type) : Type := {
  to_json : A -> json;
  of_json : json -> option A;
  (** The values the type's fields can hold: integers of their width, byte
      slices of bytes. *)
  json_valid : A -> bool;
  of_to_json a : json_valid a = true -> of_json (to_json a) = Some a;
}.

(** The members of an object with the given keys, in order. *)
Definition obj_values (keys : list string) (v : json) : option (list json) :=
  match v with
  | JObj fields => if bool_decide (fields.*1 = keys) then Some (fields.*2) else None
  | _ => None
  end.

(** The members of an object one after the other: one that is required, and
    one that [omitempty] may leave out. *)
Definition field (key : string) (fields : list (string * json)) : option (json * list (string * json)) :=
  match fields with
  | (k, v) :: rest => if bool_decide (k = key) then Some (v, rest) else None
  | [] => None
  end.
Definition opt_field (key : string) (fields : list (string * json)) : option json * list (string * json) :=
  match field key fields with
  | Some (v, rest) => (Some v, rest)
  | None => (None, fields)
  end.
(** [string] with [omitempty]. *)
Definition omit_empty (key s : string) : list (string * json) :=
  if bool_decide (s = EmptyString) then [] else [(key, JStr s)].
Definition opt_string (key : string) (fields : list (string * json)) : option (string * list (string * json)) :=
  match opt_field key fields with
  | (None, rest) => Some (EmptyString, rest)
  | (Some (JStr s), rest) => Some (s, rest)
  | (Some _, _) => None
  end.

(** [json.Unmarshal(data, &value)] followed by the comparison of
    [json.Marshal(value)] with [data]. *)
Definition canonicalRecord {A} `{JsonCodec A} (data : list Z) : option A :=
  v ← parse data; a ← of_json v;
  if bool_decide (marshal (to_json a) = data) then Some a else None.

(** * Lemmas *)

(** ** Numbers *)

Lemma digit_char d : (d < 10)%N ->
  is_digit (pretty_N_char d) = true /\ byte_of (pretty_N_char d) = 48 + Z.of_N d.
Proof.
  intros Hd. assert (d = 0 \/ d = 1 \/ d = 2 \/ d = 3 \/ d = 4 \/ d = 5 \/ d = 6 \/ d = 7 \/ d = 8 \/ d = 9)%N as H by lia.
  destruct_or! H; subst; by vm_compute.
Qed.

Lemma parse_pretty_go x : forall s, parse_digits 0 (pretty_N_go x s) = parse_digits (Z.of_N x) s.
Proof.
  induction (N.lt_wf_0 x) as [x _ IH]; intros s.
  assert (x = 0 ∨ 0 < x)%N as [->|?] by lia; [done|].
  rewrite pretty_N_go_step by done. rewrite IH by (by apply N.div_lt). simpl.
  destruct (digit_char (x mod 10)) as [-> ->]; [by apply N.mod_lt|]. f_equal.
  pose proof (N.div_mod x 10). lia.
Qed.

Lemma parse_pretty p : parse_unsigned (pretty (N.pos p)) = Some (Z.pos p).
Proof.
  unfold parse_unsigned. rewrite bool_decide_eq_false_2 by apply pretty_positive_num.
  unfold pretty, pretty_N. case_decide; [done|]. rewrite parse_pretty_go. done.
Qed.

Lemma pretty_pos_head p : exists a s, pretty (N.pos p) = String a s /\ is_digit a = true.
Proof.
  pose proof (parse_pretty p) as H. unfold parse_unsigned in H. case_match; [done|].
  destruct (pretty (N.pos p)) as [|a s]; [done|]. exists a, s. split; [done|]. simpl in H.
  by destruct (is_digit a).
Qed.

Lemma parse_format_int z : 0 <= z < 2 ^ 63 -> parse_int (format_int z) = Some z.
Proof.
  intros Hz. destruct z as [|p|p]; [done| |lia]. unfold parse_int, format_int.
  change (pretty (Z.pos p)) with (pretty (N.pos p)).
  destruct (pretty_pos_head p) as (a & s & E & Ha). pose proof (parse_pretty p) as Hp.
  rewrite E in *. assert (a <> "-"%char /\ a <> "+"%char) as [H1 H2] by (split; intros ->; done).
  rewrite (bool_decide_eq_false_2 (a = "-"%char)), (bool_decide_eq_false_2 (a = "+"%char)), Hp by done.
  simpl. unfold in_int64. by rewrite (proj2 (Z.ltb_lt _ _)) by lia.
Qed.

Lemma read_format_int z : read_int (format_int z) = Some z.
Proof.
  destruct z as [|p|p]; [done| |].
  - unfold format_int. change (pretty (Z.pos p)) with (pretty (N.pos p)). unfold read_int.
    destruct (pretty_pos_head p) as (a & s & E & Ha). pose proof (parse_pretty p) as Hp. rewrite E in *.
    by rewrite (bool_decide_eq_false_2 (a = "-"%char)) by (intros ->; done).
  - change (format_int (Z.neg p)) with (String "-" (pretty (N.pos p))). unfold read_int.
    rewrite bool_decide_eq_true_2 by done. by rewrite parse_pretty.
Qed.

Lemma num_span_run l r :
  Forall (fun b => num_byte b = true) l -> match r with b :: _ => num_byte b = false | [] => True end ->
  num_span (l ++ r) = (l, r).
Proof.
  intros Hl Hr. induction Hl as [|b l Hb Hl IH]; simpl.
  - destruct r as [|b r]; [done|]. simpl. by rewrite Hr.
  - by rewrite Hb, IH.
Qed.

(** ** Base64 *)

Lemma base64_val_char url v : 0 <= v < 64 -> base64_val url (base64_char url v) = Some v.
Proof.
  intros Hv. unfold base64_val, base64_char.
  rewrite byte_of_of by (unfold is_byte; repeat case_match; lia).
  destruct (v <? 26) eqn:?; [by repeat (case_match; try lia); f_equal; lia|].
  destruct (v <? 52) eqn:?; [by repeat (case_match; try lia); f_equal; lia|].
  destruct (v <? 62) eqn:?; [by repeat (case_match; try lia); f_equal; lia|].
  destruct (v =? 62) eqn:?, url; repeat (case_match; try lia); f_equal; lia.
Qed.

Lemma base64_char_pad v : 0 <= v < 64 -> is_pad (base64_char false v) = false.
Proof.
  intros Hv. apply bool_decide_eq_false. intros E. pose proof (base64_val_char false v Hv) as H.
  by rewrite E in H.
Qed.

(** The sextets of three bytes lose nothing. *)
Lemma sextets a b c : is_byte a -> is_byte b -> is_byte c ->
  (0 <= a / 4 < 64 /\ 0 <= a mod 4 * 16 + b / 16 < 64 /\ 0 <= b mod 16 * 4 + c / 64 < 64 /\ 0 <= c mod 64 < 64) /\
  a / 4 * 4 + (a mod 4 * 16 + b / 16) / 16 = a /\
  (a mod 4 * 16 + b / 16) mod 16 * 16 + (b mod 16 * 4 + c / 64) / 4 = b /\
  (b mod 16 * 4 + c / 64) mod 4 * 64 + c mod 64 = c.
Proof. unfold is_byte. intros. repeat split; Z.to_euclidean_division_equations; lia. Qed.

Lemma is_byte_0 : is_byte 0. Proof. done. Qed.

Lemma base64_decode_base64 n : forall l,
  (length l <= n)%nat -> Forall is_byte l -> base64_decode (base64 false l) = Some l.
Proof.
  induction n as [|n IH]; intros l Hn Hl; [by destruct l; simpl in *; [|lia]|].
  destruct l as [|a [|b [|c r]]]; [done| | |]; 
    repeat (apply Forall_cons in Hl as [? Hl]).
  - destruct (sextets a 0 0) as [(R1 & R2 & _) (E1 & _)]; [done..|].
    change (0 / 16) with 0 in *. rewrite Z.add_0_r in *. cbn -[base64_char base64_val Z.div Z.modulo].
    rewrite !base64_val_char by done. cbn -[Z.div Z.modulo]. by rewrite E1.
  - destruct (sextets a b 0) as [(R1 & R2 & R3 & _) (E1 & E2 & _)]; [done..|].
    change (0 / 64) with 0 in *. rewrite (Z.add_0_r (b mod 16 * 4)) in *. cbn -[base64_char base64_val Z.div Z.modulo is_pad].
    rewrite !base64_val_char by done. cbn -[Z.div Z.modulo base64_char base64_val is_pad].
    rewrite base64_char_pad, ?base64_val_char by done. cbn -[Z.div Z.modulo]. by rewrite E1, E2.
  - destruct (sextets a b c) as [(R1 & R2 & R3 & R4) (E1 & E2 & E3)]; [done..|].
    cbn -[base64_char base64_val Z.div Z.modulo is_pad].
    rewrite !base64_val_char by done. cbn -[Z.div Z.modulo base64_char base64_val is_pad].
    rewrite !base64_char_pad, ?base64_val_char by done. cbn -[Z.div Z.modulo].
    rewrite IH by (simpl in *; lia || done). cbn -[Z.div Z.modulo]. by rewrite E1, E2, E3.
Qed.

Lemma base64_char_inj url v w : 0 <= v < 64 -> 0 <= w < 64 -> base64_char url v = base64_char url w -> v = w.
Proof.
  intros Hv Hw E. pose proof (base64_val_char url v Hv) as H. rewrite E, base64_val_char in H by done. by injection H.
Qed.

Lemma base64_cons url a b c r :
  base64 url (a :: b :: c :: r) =
    String (base64_char url (a / 4)) (String (base64_char url (a mod 4 * 16 + b / 16))
      (String (base64_char url (b mod 16 * 4 + c / 64)) (String (base64_char url (c mod 64)) (base64 url r)))).
Proof. done. Qed.

Lemma string_cons_inv a s b t : String a s = String b t -> a = b /\ s = t.
Proof. by intros [=]. Qed.

Lemma base64_inj url n : forall l l', (length l <= n)%nat -> length l = length l' ->
  Forall is_byte l -> Forall is_byte l' -> base64 url l = base64 url l' -> l = l'.
Proof.
  induction n as [|n IH]; intros l l' Hn Hlen Hl Hl' E; [by destruct l, l'; simpl in *; [|lia..]|].
  assert (Hpair : forall a b c a' b' c', is_byte a -> is_byte b -> is_byte c -> is_byte a' -> is_byte b' -> is_byte c' ->
    a / 4 = a' / 4 -> a mod 4 * 16 + b / 16 = a' mod 4 * 16 + b' / 16 -> b mod 16 * 4 + c / 64 = b' mod 16 * 4 + c' / 64 ->
    c mod 64 = c' mod 64 -> a = a' /\ b = b' /\ c = c').
  { intros a b c a' b' c' Ha Hb Hc Ha' Hb' Hc' H1 H2 H3 H4. destruct (sextets a b c) as [_ (E1 & E2 & E3)]; [done..|].
    destruct (sextets a' b' c') as [_ (E1' & E2' & E3')]; [done..|].
    rewrite H1, H2 in E1. rewrite H2, H3 in E2. rewrite H3, H4 in E3. repeat split; congruence. }
  destruct l as [|a [|b [|c r]]], l' as [|a' [|b' [|c' r']]]; try discriminate; [done| | |];
    repeat (apply Forall_cons in Hl as [? Hl]); repeat (apply Forall_cons in Hl' as [? Hl']).
  - destruct (sextets a 0 0) as [(R1 & R2 & _) _]; [done..|]. destruct (sextets a' 0 0) as [(R1' & R2' & _) _]; [done..|].
    change (0 / 16) with 0 in *. rewrite Z.add_0_r in *. cbn [base64] in E.
    apply string_cons_inv in E as [F1 E]. apply string_cons_inv in E as [F2 _]. apply base64_char_inj in F1, F2; [|done..].
    destruct (Hpair a 0 0 a' 0 0) as [-> _]; try done. change (0 / 16) with 0. lia.
  - destruct (sextets a b 0) as [(R1 & R2 & R3 & _) _]; [done..|]. destruct (sextets a' b' 0) as [(R1' & R2' & R3' & _) _]; [done..|].
    change (0 / 64) with 0 in *. rewrite !(Z.add_0_r (_ mod 16 * 4)) in *. cbn [base64] in E.
    apply string_cons_inv in E as [F1 E]. apply string_cons_inv in E as [F2 E]. apply string_cons_inv in E as [F3 _].
    apply base64_char_inj in F1, F2, F3; [|done..].
    destruct (Hpair a b 0 a' b' 0) as (-> & -> & _); try done. change (0 / 64) with 0. lia.
  - destruct (sextets a b c) as [(R1 & R2 & R3 & R4) _]; [done..|]. destruct (sextets a' b' c') as [(R1' & R2' & R3' & R4') _]; [done..|].
    rewrite !base64_cons in E. apply string_cons_inv in E as [F1 E]. apply string_cons_inv in E as [F2 E].
    apply string_cons_inv in E as [F3 E]. apply string_cons_inv in E as [F4 E]. apply base64_char_inj in F1, F2, F3, F4; [|done..].
    destruct (Hpair a b c a' b' c') as (-> & -> & ->); [done..|]. do 3 f_equal.
    apply IH; [simpl in *; lia..|done|done|done].
Qed.

(** ** Documents *)

Lemma esc_length html n : forall l, (length l <= n)%nat -> (length l <= length (esc html l))%nat.
Proof.
  induction n as [|n IH]; intros l Hl; [destruct l; simpl in *; lia|].
  assert (Hone : forall b, (1 <= length (esc_ascii html b))%nat) by (intros; unfold esc_ascii; repeat case_match; simpl; lia).
  assert (Hthree : forall a b c, (3 <= length (esc_rune3 a b c))%nat) by (intros; unfold esc_rune3; case_match; simpl; lia).
  destruct l as [|b0 l1]; [done|]. simpl in Hl. simpl esc.
  assert (IH1 := IH l1 ltac:(lia)).
  destruct (b0 <? 128); [rewrite length_app; specialize (Hone b0); simpl; lia|].
  destruct l1 as [|b1 l2]; [simpl; lia|]. simpl in Hl. assert (IH2 := IH l2 ltac:(lia)).
  destruct (rune2 b0 b1); [simpl; lia|].
  destruct l2 as [|b2 l3]; [rewrite ?length_app; simpl in *; lia|]. simpl in Hl. assert (IH3 := IH l3 ltac:(lia)).
  destruct (rune3 b0 b1 b2); [rewrite length_app; specialize (Hthree b0 b1 b2); simpl; lia|].
  destruct l3 as [|b3 l4]; [rewrite ?length_app; simpl in *; lia|]. simpl in Hl. assert (IH4 := IH l4 ltac:(lia)).
  destruct (rune4 b0 b1 b2 b3); [simpl; lia|]. rewrite ?length_app. simpl in *. lia.
Qed.

Lemma parse_string_quote html s r :
  utf8_str s = true -> parse_string (esc html (bytes s) ++ 34 :: r) = Some (s, r).
Proof.
  intros Hs. unfold parse_string.
  rewrite (unesc_more _ _ _ _ (esc_unesc html _ (bytes s) r (Nat.le_refl _) (bytes_range s) Hs)).
  - cbn [mbind option_bind]. by rewrite of_bytes_bytes, Hs.
  - rewrite length_app. pose proof (esc_length html _ (bytes s) (Nat.le_refl _)). simpl. lia.
Qed.

Section RoundTrip.
Context (html : bool).
Abbreviation enc := (encode html).

Lemma parse_key_quote k r : utf8_str k = true -> parse_key (quote html k ++ 58 :: r) = Some (k, r).
Proof.
  intros Hk. unfold quote, parse_key. rewrite <- app_comm_cons, <- app_assoc. cbn [app Z.eqb Pos.eqb].
  by rewrite parse_string_quote.
Qed.

Definition reads (v : json) : Prop :=
  json_utf8 v = true -> forall n r, (length (enc v) < n)%nat -> ends_value r -> parse_value n (enc v ++ r) = Some (v, r).

Lemma parse_items_tail xs : Forall reads xs -> forallb json_utf8 xs = true -> forall n r,
  (length (tail_arr html xs) <= n)%nat -> parse_items n (tail_arr html xs ++ r) = Some (xs, r).
Proof.
  induction 1 as [|x xs Hx _ IH]; intros Hu n r Hn.
  - destruct n; [simpl in Hn; lia|]. done.
  - destruct n as [|n]; [simpl in Hn; lia|]. simpl in Hu. apply andb_true_iff in Hu as [Hu Hus].
    simpl in Hn. rewrite length_app in Hn. fold (tail_arr html xs) in Hn.
    assert (Hpos : (1 <= length (tail_arr html xs))%nat) by (destruct xs; simpl; lia).
    simpl. rewrite <- app_assoc. fold (tail_arr html xs). rewrite Hx; [|done|lia|apply tail_arr_ends].
    simpl. by rewrite IH by (done || lia).
Qed.

Lemma parse_fields_tail fs : Forall (fun f => reads f.2) fs ->
  forallb (fun f => utf8_str f.1 && json_utf8 f.2) fs = true -> forall n r,
  (length (tail_obj html fs) <= n)%nat -> parse_fields n (tail_obj html fs ++ r) = Some (fs, r).
Proof.
  induction 1 as [|[k x] fs Hx _ IH]; intros Hu n r Hn.
  - destruct n; [simpl in Hn; lia|]. done.
  - destruct n as [|n]; [simpl in Hn; lia|]. cbn [forallb fst snd] in Hu. bool_prop. cbn [snd] in Hx.
    change (tail_obj html ((k, x) :: fs)) with (44 :: quote html k ++ 58 :: enc x ++ tail_obj html fs) in *.
    cbn [length] in Hn. rewrite length_app in Hn. cbn [length] in Hn. rewrite length_app in Hn.
    assert (Hpos : (1 <= length (tail_obj html fs))%nat) by (destruct fs as [|[]]; simpl; lia).
    rewrite <- app_comm_cons, <- app_assoc, <- app_comm_cons, <- app_assoc.
    cbn [parse_fields Z.eqb Pos.eqb]. rewrite parse_key_quote by done. cbn [mbind option_bind].
    rewrite Hx; [|done|lia|apply tail_obj_ends]. cbn [mbind option_bind]. by rewrite IH by (done || lia).
Qed.

Lemma parse_value_num n b r : num_byte b = true ->
  parse_value (S n) (b :: r) = (let '(ds, t) := num_span (b :: r) in z ← read_int (of_bytes ds); Some (JInt z, t)).
Proof.
  intros Hb. cbn [parse_value]. unfold num_byte in Hb.
  by rewrite !(proj2 (Z.eqb_neq _ _)) by lia.
Qed.

Lemma first_kind_open v b t : enc v = b :: t -> drop_word [93] (enc v) = None.
Proof.
  destruct (marshal_first html v) as (b' & t' & E & Hk). rewrite E. intros _. cbn [drop_word].
  apply first_kind_close in Hk. by rewrite (proj2 (Z.eqb_neq 93 b')) by congruence.
Qed.

Lemma parse_encode v : reads v.
Proof.
  induction v as [s|z|b| |l IH|fs IH] using json_ind'; intros Hu [|n] r Hn Hr; try (simpl in Hn; lia).
  - change (enc (JStr s)) with (quote html s). unfold quote. rewrite <- app_comm_cons, <- app_assoc.
    cbn [parse_value Z.eqb Pos.eqb app]. by rewrite parse_string_quote.
  - change (enc (JInt z)) with (bytes (format_int z)). destruct (format_int_num z) as [Hz Hne].
    destruct (bytes (format_int z)) as [|b t] eqn:E; [done|]. inversion Hz; subst.
    rewrite <- app_comm_cons, parse_value_num by done. rewrite app_comm_cons, num_span_run; [|done|by apply ends_value_num].
    rewrite <- E, of_bytes_bytes, read_format_int. done.
  - by destruct b.
  - done.
  - destruct l as [|x xs]; [done|]. rewrite marshal_arr_cons in *. rewrite <- app_comm_cons.
    inversion IH as [|? ? Hx Hxs]; subst. cbn [json_utf8 forallb] in Hu. apply andb_true_iff in Hu as [Hu Hus].
    cbn [length] in Hn. rewrite length_app in Hn.
    assert (Hpos : (1 <= length (tail_arr html xs))%nat) by (destruct xs; simpl; lia).
    cbn [parse_value Z.eqb Pos.eqb]. rewrite <- app_assoc.
    assert (Hd : drop_word [93] (enc x ++ tail_arr html xs ++ r) = None).
    { destruct (marshal_first html x) as (b & t & E & _). pose proof (first_kind_open x b t E) as H.
      rewrite E in H |- *. cbn [drop_word app] in *. by case_match. }
    rewrite Hd. rewrite Hx; [|done|lia|apply tail_arr_ends]. cbn [mbind option_bind].
    by rewrite parse_items_tail by (done || lia).
  - destruct fs as [|[k x] fs]; [done|]. rewrite marshal_obj_cons in *. rewrite <- app_comm_cons.
    inversion IH as [|? ? Hx Hxs]; subst. cbn [json_utf8 forallb fst snd] in Hu. bool_prop. cbn [snd] in Hx.
    cbn [length] in Hn. rewrite length_app in Hn. cbn [length] in Hn. rewrite length_app in Hn.
    assert (Hpos : (1 <= length (tail_obj html fs))%nat) by (destruct fs as [|[]]; simpl; lia).
    cbn [parse_value Z.eqb Pos.eqb]. rewrite <- app_assoc, <- app_comm_cons, <- app_assoc.
    assert (Hd : drop_word [125] (quote html k ++ 58 :: enc x ++ tail_obj html fs ++ r) = None) by done.
    rewrite Hd, parse_key_quote by done. cbn [mbind option_bind].
    rewrite Hx; [|done|lia|apply tail_obj_ends]. cbn [mbind option_bind].
    by rewrite parse_fields_tail by (done || lia).
Qed.

(** Reading back what was written. *)
Lemma parse_whole v : json_utf8 v = true -> parse (enc v) = Some v.
Proof.
  intros Hu. unfold parse. pose proof (parse_encode v Hu (S (length (enc v))) [] ltac:(lia) I) as H.
  rewrite app_nil_r in H. rewrite H. done.
Qed.
End RoundTrip.

Lemma obj_values_keys keys fields : fields.*1 = keys -> obj_values keys (JObj fields) = Some fields.*2.
Proof. intros H. unfold obj_values. by rewrite bool_decide_eq_true_2. Qed.
Lemma obj_values_other keys fields : fields.*1 <> keys -> obj_values keys (JObj fields) = None.
Proof. intros H. unfold obj_values. by rewrite bool_decide_eq_false_2. Qed.

Section Canonical.
Context {A : Type} `{JsonCodec A}.

Lemma canonicalRecord_marshal (data : list Z) (a : A) : canonicalRecord data = Some a -> marshal (to_json a) = data.
Proof.
  unfold canonicalRecord. destruct (parse data) as [v|]; [|done]. cbn [mbind option_bind].
  destruct (of_json v) as [b|]; [|done]. cbn [mbind option_bind]. case_bool_decide; [|done]. by intros [= <-].
Qed.

Lemma canonical_marshal (a : A) :
  json_valid a = true -> json_utf8 (to_json a) = true -> canonicalRecord (marshal (to_json a)) = Some a.
Proof.
  intros Hv Hu. unfold canonicalRecord. rewrite parse_whole by done. cbn [mbind option_bind].
  rewrite of_to_json by done. cbn [mbind option_bind]. by rewrite bool_decide_eq_true_2.
Qed.
End Canonical.
