(* ===== verification/Fingerprint.v ===== *)
(** * Content identities (packages [internal/fingerprint] and
      [internal/coordination])

    The canonical digests every decision of the operator is bound to: the
    realm a target claims, the identity of a plan, the identity of an
    operation and the identity of a migration sequence. Each is SHA-256 over
    canonical JSON. The theorems show what a digest binds: two inputs with one
    digest are the same input, unless their two documents, which the theorem
    names, collide under SHA-256. *)
From Stdlib Require Import ZArith Lia Ascii Sorted Permutation.
From stdpp Require Import base list gmap strings.
From S2P Require Import Prelude GoStrings Sha256 Json.
Local Open Scope go_scope.
Local Open Scope Z_scope.

(** ** Digests *)

Definition prefix : string := "sha256:".
Definition DigestBytes (data : list Z) : string := prefix +:+ hex_encode (sha256 data).
Definition DigestCanonicalJSON (value : json) : string := DigestBytes (marshal value).

(** ** Plan contracts *)

Definition coordinationContractVersion : Z := 1.
Definition CurrentPlanContractVersion : Z := 1.
Definition SourcePlanContractVersion : Z := 2.

Record PlanSource : Type := {
  Kind : string;
  Revision : string;
  ContentDigest : string;
  PolicyUID : string;
  PolicyDigest : string;
}.

Definition PlanContractVersionFor (source : option PlanSource) : Z :=
  match source with
  | Some _ => SourcePlanContractVersion
  | None => CurrentPlanContractVersion
  end.

(** Why a fingerprint is refused. The loops over required fields range over a
    Go map, so which of several missing fields is named is unspecified. *)
Inductive fp_error : Type :=
| UnsupportedVersion (version : Z)
| FieldRequired
| BindsNoSource
| IncompleteSource
| IncompleteSourcePolicy
| BindsNoArtifact
| InvalidExecutionBinding
| NonPositiveStateVersion
| NonPositiveProtocolVersion
| NonPositiveStatementCount
| UnsupportedEngine
| InvalidNamespace
| InvalidCoordinationKey
| InvalidRealmName
| BothKeyAndRealm
| NonPositiveContractVersion
| EmptySequence.

Definition ValidatePlanContractVersion (version : Z) : result fp_error unit :=
  if negb (version =? CurrentPlanContractVersion) && negb (version =? SourcePlanContractVersion)
  then Err (UnsupportedVersion version) else Ok tt.

(** [strings.TrimSpace] leaves nothing. *)
Definition blank (s : string) : bool := bool_decide (trim_space s = EmptyString).
Definition empty (s : string) : bool := bool_decide (s = EmptyString).

Definition validatePlanSource (version : Z) (artifactDigest policyUID policyDigest : string)
    (source : option PlanSource) : result fp_error unit :=
  if version =? CurrentPlanContractVersion then
    if blank artifactDigest || blank policyUID || blank policyDigest then Err FieldRequired else
    match source with
    | Some _ => Err BindsNoSource
    | None => Ok tt
    end
  else if version =? SourcePlanContractVersion then
    match source with
    | None => Err IncompleteSource
    | Some s =>
        if empty (Kind s) || empty (Revision s) || negb (has_prefix prefix (ContentDigest s))
        then Err IncompleteSource else
        if negb (Bool.eqb (empty (PolicyUID s)) (empty (PolicyDigest s))) ||
           (negb (empty (PolicyDigest s)) && negb (has_prefix prefix (PolicyDigest s)))
        then Err IncompleteSourcePolicy else
        if negb (empty artifactDigest) || negb (empty policyUID) || negb (empty policyDigest)
        then Err BindsNoArtifact else Ok tt
    end
  else Ok tt.

Definition ValidatePlanSource (version : Z) (artifactDigest policyUID policyDigest : string)
    (source : option PlanSource) : result fp_error unit :=
  _ <-! ValidatePlanContractVersion version;
  validatePlanSource version artifactDigest policyUID policyDigest source.

(** ** Sets *)

Fixpoint normalize_go (values : list string) (seen : gset string) : list string :=
  match values with
  | [] => []
  | value :: rest =>
      let value := trim_space value in
      if empty value then normalize_go rest seen
      else if bool_decide (value ∈ seen) then normalize_go rest seen
      else value :: normalize_go rest ({[value]} ∪ seen)
  end.
Definition NormalizeSet (values : list string) : list string := sort_strings (normalize_go values ∅).

(** ** The realm a target claims *)

Definition canonicalDatabaseEngine (engine : string) : result fp_error string :=
  let e := to_lower (trim_space engine) in
  if bool_decide (e ∈ ["postgres"; "postgresql"; "pgx"]) then Ok "postgresql"
  else if bool_decide (e ∈ ["mariadb"; "mysql"]) then Ok "mysql"
  else Err UnsupportedEngine.

(** [^[a-z0-9](?:[a-z0-9._:/-]{0,251}[a-z0-9])?$] *)
Definition key_middle (a : ascii) : bool := occurs a "._:/-".
Definition is_coordination_key (s : string) : bool := ends_middle is_alnum_lower key_middle 253 s.

Definition coordination_doc (engine namespace coordinationKey : string) : json :=
  JObj [("contract_version", JInt coordinationContractVersion); ("engine", JStr engine);
        ("namespace", JStr namespace); ("coordination_key", JStr coordinationKey)].
Definition DatabaseCoordinationDigest (engine namespace coordinationKey : string) : result fp_error string :=
  canonicalEngine <-! canonicalDatabaseEngine engine;
  guard (is_dns1123_label namespace) else InvalidNamespace;
  guard (is_coordination_key coordinationKey) else InvalidCoordinationKey;
  Ok (DigestCanonicalJSON (coordination_doc canonicalEngine namespace coordinationKey)).

Definition realm_doc (engine realm : string) : json :=
  JObj [("contract_version", JInt coordinationContractVersion); ("engine", JStr engine); ("realm", JStr realm)].
Definition DatabaseRealmDigest (engine realm : string) : result fp_error string :=
  canonicalEngine <-! canonicalDatabaseEngine engine;
  guard (negb ((253 <? len realm) || negb (is_subdomain_shape realm))) else InvalidRealmName;
  Ok (DigestCanonicalJSON (realm_doc canonicalEngine realm)).

(** The fields of [DatabaseTargetSpec] a realm is derived from. *)
Record DatabaseTargetSpec : Type := {
  Engine : string;
  CoordinationKey : string;
  RealmRef : option string;
}.

Definition Digest (namespace : string) (target : DatabaseTargetSpec) : result fp_error string :=
  match RealmRef target with
  | Some realm =>
      if negb (empty (CoordinationKey target)) then Err BothKeyAndRealm
      else DatabaseRealmDigest (Engine target) realm
  | None => DatabaseCoordinationDigest (Engine target) namespace (CoordinationKey target)
  end.

Definition RealmName (target : DatabaseTargetSpec) : string := str_or_empty (RealmRef target).

(** ** The identity of a plan *)

Record PlanBinding : Type := {
  ContractVersion : Z;
  SchemaUID : string;
  PlanContentDigest : string;
  ArtifactDigest : string;
  Source : option PlanSource;
  CoordinationDigest : string;
  TargetIdentityDigest : string;
  ActualStateFingerprint : string;
  DesiredStateFingerprint : string;
  PolicyFingerprint : string;
  VerificationPolicyUID : string;
  VerificationPolicyDigest : string;
  ExecutionBindingID : string;
  ControllerStateVersion : Z;
  PtahVersion : string;
  ExecutorImage : string;
  RunnerProtocolVersion : Z;
  Destructive : bool;
  PrivilegeChanges : list string;
  StatementCount : Z;
}.

(** A field tagged [omitempty] is absent when it is empty. *)
Definition omitempty (key value : string) : list (string * json) :=
  if empty value then [] else [(key, JStr value)].

Definition source_doc (s : PlanSource) : json :=
  JObj ([("kind", JStr (Kind s)); ("revision", JStr (Revision s)); ("content_digest", JStr (ContentDigest s))]
        ++ omitempty "policy_uid" (PolicyUID s) ++ omitempty "policy_digest" (PolicyDigest s)).

Definition binding_doc (b : PlanBinding) : json :=
  JObj ([("contract_version", JInt (ContractVersion b)); ("schema_uid", JStr (SchemaUID b));
         ("plan_content_digest", JStr (PlanContentDigest b)); ("artifact_digest", JStr (ArtifactDigest b))]
        ++ match Source b with Some s => [("source", source_doc s)] | None => [] end ++
        [("coordination_digest", JStr (CoordinationDigest b));
         ("target_identity_digest", JStr (TargetIdentityDigest b));
         ("actual_state_fingerprint", JStr (ActualStateFingerprint b));
         ("desired_state_fingerprint", JStr (DesiredStateFingerprint b));
         ("policy_fingerprint", JStr (PolicyFingerprint b));
         ("verification_policy_uid", JStr (VerificationPolicyUID b));
         ("verification_policy_digest", JStr (VerificationPolicyDigest b));
         ("execution_binding_id", JStr (ExecutionBindingID b));
         ("controller_state_version", JInt (ControllerStateVersion b));
         ("ptah_version", JStr (PtahVersion b)); ("executor_image", JStr (ExecutorImage b));
         ("runner_protocol_version", JInt (RunnerProtocolVersion b));
         ("destructive", JBool (Destructive b));
         ("privilege_changes", JArr (JStr <$> PrivilegeChanges b));
         ("statement_count", JInt (StatementCount b))]).

Definition with_normalized_privileges (b : PlanBinding) : PlanBinding :=
  {| ContractVersion := ContractVersion b; SchemaUID := SchemaUID b;
     PlanContentDigest := PlanContentDigest b; ArtifactDigest := ArtifactDigest b; Source := Source b;
     CoordinationDigest := CoordinationDigest b; TargetIdentityDigest := TargetIdentityDigest b;
     ActualStateFingerprint := ActualStateFingerprint b; DesiredStateFingerprint := DesiredStateFingerprint b;
     PolicyFingerprint := PolicyFingerprint b; VerificationPolicyUID := VerificationPolicyUID b;
     VerificationPolicyDigest := VerificationPolicyDigest b; ExecutionBindingID := ExecutionBindingID b;
     ControllerStateVersion := ControllerStateVersion b; PtahVersion := PtahVersion b;
     ExecutorImage := ExecutorImage b; RunnerProtocolVersion := RunnerProtocolVersion b;
     Destructive := Destructive b; PrivilegeChanges := NormalizeSet (PrivilegeChanges b);
     StatementCount := StatementCount b |}.

Definition required_fields (b : PlanBinding) : list string :=
  [SchemaUID b; PlanContentDigest b; CoordinationDigest b; TargetIdentityDigest b;
   ActualStateFingerprint b; DesiredStateFingerprint b; PolicyFingerprint b; PtahVersion b; ExecutorImage b].

Definition Fingerprint (b : PlanBinding) : result fp_error string :=
  _ <-! ValidatePlanContractVersion (ContractVersion b);
  guard (negb (existsb blank (required_fields b))) else FieldRequired;
  _ <-! validatePlanSource (ContractVersion b) (ArtifactDigest b) (VerificationPolicyUID b)
          (VerificationPolicyDigest b) (Source b);
  guard (is_epoch_id (ExecutionBindingID b)) else InvalidExecutionBinding;
  guard (negb (ControllerStateVersion b <? 1)) else NonPositiveStateVersion;
  guard (negb (RunnerProtocolVersion b <? 1)) else NonPositiveProtocolVersion;
  guard (negb (StatementCount b <? 1)) else NonPositiveStatementCount;
  Ok (DigestCanonicalJSON (binding_doc (with_normalized_privileges b))).

(** ** The identity of an operation *)

(** [Inputs] is a Go map of JSON-compatible values; nil and empty encode
    alike after [ID] replaces nil. *)
Record OperationInput : Type := {
  OpContractVersion : Z;
  OpSchemaUID : string;
  Operation : string;
  Inputs : list (string * json);
}.

Definition operation_doc (i : OperationInput) : json :=
  JObj [("contract_version", JInt (OpContractVersion i)); ("schema_uid", JStr (OpSchemaUID i));
        ("operation", JStr (Operation i)); ("inputs", JMap (Inputs i))].

Definition ID (i : OperationInput) : result fp_error string :=
  guard (negb (OpContractVersion i <? 1)) else NonPositiveContractVersion;
  guard (negb (blank (OpSchemaUID i))) else FieldRequired;
  guard (negb (blank (Operation i))) else FieldRequired;
  Ok (DigestCanonicalJSON (operation_doc i)).

(** ** The identity of a migration sequence *)

Record SequenceEntry : Type := {
  Version : Z;
  VersionKey : string;
  Checksum : string;
  Checkpoint : bool;
  TransactionMode : string;
}.

Definition entry_doc (e : SequenceEntry) : json :=
  JMap [("version", JInt (Version e)); ("version_key", JStr (VersionKey e));
        ("checksum", JStr (Checksum e)); ("checkpoint", JBool (Checkpoint e));
        ("transaction_mode", JStr (TransactionMode e))].

Definition sequence_doc (entries : list SequenceEntry) : json := JArr (entry_doc <$> entries).

Definition MigrationSequenceDigest (entries : list SequenceEntry) : result fp_error string :=
  match entries with
  | [] => Err EmptySequence
  | _ => Ok (DigestCanonicalJSON (sequence_doc entries))
  end.

(** * Lemmas *)

(** Two different byte sequences with one SHA-256 digest. *)
Definition collision (x y : list Z) : Prop := x <> y /\ sha256 x = sha256 y.

Lemma DigestBytes_inj x y : DigestBytes x = DigestBytes y -> x = y \/ collision x y.
Proof.
  unfold DigestBytes, collision. intros H. apply str_app_inv in H as [_ H]; [|done].
  apply hex_encode_inj in H; auto with ptah.
  destruct (decide (x = y)); auto.
Qed.

Lemma DigestBytes_shape x : is_sha256_digest (DigestBytes x) = true.
Proof. apply sha256_digest_shape; auto with ptah. Qed.

(** Equal digests of two valid documents: one document, or a named collision. *)
Lemma digest_json_inj u v :
  json_utf8 u = true -> json_utf8 v = true -> DigestCanonicalJSON u = DigestCanonicalJSON v ->
  u = v \/ collision (marshal u) (marshal v).
Proof. intros Hu Hv [H|H]%DigestBytes_inj; [left; by apply (marshal_inj true)|by right]. Qed.

(** ASCII text is valid UTF-8. *)
Lemma ascii_utf8 s : str_all (fun a => byte_of a <? 128) s = true -> utf8_str s = true.
Proof.
  unfold utf8_str. induction s as [|a s IH]; [done|]. rewrite bytes_cons. simpl.
  rewrite andb_true_iff. intros [-> ?]. auto.
Qed.

Lemma ends_middle_utf8 edge middle n s :
  (forall a, middle a || edge a = true -> (byte_of a <? 128) = true) ->
  ends_middle edge middle n s = true -> utf8_str s = true.
Proof.
  intros Hc H. destruct s as [|a s]; [done|]. unfold ends_middle in H. bool_prop.
  apply ascii_utf8. eapply str_all_mono; [exact Hc|done].
Qed.

Lemma label_class_ascii a : is_dash a || is_alnum_lower a = true -> (byte_of a <? 128) = true.
Proof.
  unfold is_dash, is_alnum_lower, is_digit, is_lower, in_range.
  rewrite orb_true_iff. intros [H|H]; [|lia]. by bool_prop; subst.
Qed.

Lemma key_class_ascii a : key_middle a || is_alnum_lower a = true -> (byte_of a <? 128) = true.
Proof.
  rewrite orb_true_iff. intros [H|H]; [|unfold is_alnum_lower, is_digit, is_lower, in_range in H; lia].
  unfold key_middle, occurs, str_any in H. simpl in H.
  repeat (case_bool_decide; [by subst|]). done.
Qed.

Lemma canonicalDatabaseEngine_range e c :
  canonicalDatabaseEngine e = Ok c -> c = "postgresql" \/ c = "mysql".
Proof. unfold canonicalDatabaseEngine. intros. repeat case_bool_decide; simplify_eq; auto. Qed.

Lemma engine_utf8 e c : canonicalDatabaseEngine e = Ok c -> utf8_str c = true.
Proof. by intros [->| ->]%canonicalDatabaseEngine_range. Qed.

Lemma subdomain_utf8 s : is_subdomain_shape s = true -> utf8_str s = true.
Proof.
  intros H. apply ascii_utf8. unfold is_subdomain_shape in H.
  assert (forallb (str_all (fun a => byte_of a <? 128)) (split_dots s) = true) as H'.
  { rewrite forallb_forall in H |- *. intros p Hp%H. destruct p as [|a p]; [done|].
    unfold ends_middle in Hp. bool_prop. eapply str_all_mono; [|done]. intros b Hb.
    by apply label_class_ascii. }
  clear H. induction s as [|a s IH]; [done|]. simpl in *.
  destruct (split_dots s) as [|h t] eqn:E.
  { exfalso. clear IH H'. revert E. induction s as [|b s IHs]; simpl; [done|].
    destruct (split_dots s); [by destruct IHs|]. by case_bool_decide. }
  case_bool_decide; simpl in *; bool_prop; [subst; apply IH; simpl; by apply andb_true_iff|].
  apply andb_true_iff; split; [lia|]. apply IH. simpl. by apply andb_true_iff.
Qed.

(** ** The set normal form *)

(** The members a set of strings stands for: trimmed, without the blank ones. *)
Definition set_members (values : list string) : gset string :=
  list_to_set (filter (fun v => v <> EmptyString) (trim_space <$> values)).

Lemma set_members_cons v values :
  set_members (v :: values) =
  if bool_decide (trim_space v = EmptyString) then set_members values
  else {[trim_space v]} ∪ set_members values.
Proof.
  unfold set_members. rewrite fmap_cons, filter_cons.
  case_bool_decide; [by rewrite decide_False by tauto|by rewrite decide_True].
Qed.

Lemma normalize_go_spec values : forall seen,
  NoDup (normalize_go values seen) /\
  forall x, x ∈ normalize_go values seen <-> x ∈ set_members values /\ x ∉ seen.
Proof.
  induction values as [|v values IH]; intros seen; simpl.
  { split; [constructor|]. intros x. unfold set_members. simpl.
    rewrite elem_of_nil. set_solver. }
  rewrite set_members_cons. unfold empty. case_bool_decide as Hv; [apply IH|].
  case_bool_decide as Hseen.
  { destruct (IH seen) as [H1 H2]. split; [done|]. intros x. rewrite H2.
    rewrite elem_of_union, elem_of_singleton. split; [tauto|]. intros [[->|]]; tauto. }
  destruct (IH ({[trim_space v]} ∪ seen)) as [H1 H2]. split.
  - constructor; [|done]. rewrite H2, elem_of_union, elem_of_singleton. tauto.
  - intros x. rewrite elem_of_cons, H2, !elem_of_union, elem_of_singleton.
    destruct (decide (x = trim_space v)) as [->|]; tauto.
Qed.

Lemma NormalizeSet_members values x : x ∈ NormalizeSet values <-> x ∈ set_members values.
Proof.
  unfold NormalizeSet. rewrite <- sort_strings_perm.
  destruct (normalize_go_spec values ∅) as [_ H]. rewrite H. set_solver.
Qed.

Lemma NormalizeSet_nodup values : NoDup (NormalizeSet values).
Proof. unfold NormalizeSet. rewrite <- sort_strings_perm. apply normalize_go_spec. Qed.

(** ** Document injectivity *)

Lemma source_doc_inj s s' : source_doc s = source_doc s' -> s = s'.
Proof.
  destruct s as [k r c u d], s' as [k' r' c' u' d']. unfold source_doc, omitempty, empty. simpl.
  repeat case_bool_decide; simpl; intros; simplify_eq; done.
Qed.

Lemma fmap_JStr_inj (l l' : list string) : JStr <$> l = JStr <$> l' -> l = l'.
Proof. revert l'. induction l as [|x l IH]; intros [|y l'] H; simplify_eq/=; [done|]. f_equal; auto. Qed.

(** The fields of an object. *)
Definition doc_fields (j : json) : list (string * json) :=
  match j with JObj fs => fs | _ => [] end.

Lemma binding_doc_source b b' : binding_doc b = binding_doc b' -> Source b = Source b'.
Proof.
  intros H. apply (f_equal (fun j => doc_fields j !! 4%nat)) in H.
  unfold binding_doc in H. destruct (Source b) as [s|], (Source b') as [s'|]; cbn -[source_doc] in H.
  - assert (source_doc s = source_doc s') as Hs by congruence. by apply source_doc_inj in Hs as ->.
  - exfalso. congruence.
  - exfalso. congruence.
  - done.
Qed.

Lemma binding_doc_inj b b' : binding_doc b = binding_doc b' -> b = b'.
Proof.
  intros H. pose proof (binding_doc_source _ _ H) as Hs. revert H.
  destruct b as [? ? ? ? o], b' as [? ? ? ? o']. simpl in Hs. subst o'.
  unfold binding_doc. simpl. destruct o; simpl; intros H; simplify_eq;
    match goal with Hp : _ <$> _ = _ <$> _ |- _ => by apply fmap_JStr_inj in Hp; subst end.
Qed.

Lemma insert_field_perm f l : Permutation (f :: l) (insert_field f l).
Proof.
  induction l as [|g l IH]; simpl; [done|]. case_match; [done|]. rewrite perm_swap. by constructor.
Qed.

Lemma sorted_fields_perm l : Permutation l (foldr insert_field [] l).
Proof. induction l as [|f l IH]; simpl; [done|]. rewrite <- insert_field_perm. by constructor. Qed.

Lemma entry_doc_inj e e' : entry_doc e = entry_doc e' -> e = e'.
Proof.
  destruct e as [v k c p m], e' as [v' k' c' p' m']. unfold entry_doc, JMap. vm_compute.
  intros H. injection H as -> -> -> -> ->. done.
Qed.

Lemma sequence_digest_inj l l' d :
  MigrationSequenceDigest l = Ok d -> MigrationSequenceDigest l' = Ok d ->
  json_utf8 (sequence_doc l) = true -> json_utf8 (sequence_doc l') = true ->
  l = l' \/ collision (marshal (sequence_doc l)) (marshal (sequence_doc l')).
Proof.
  intros H H' Hu Hu'.
  assert (forall k, MigrationSequenceDigest k = Ok d -> d = DigestCanonicalJSON (sequence_doc k)) as Hok.
  { intros [|e k] Hk; [done|]. simpl in Hk. by simplify_eq. }
  apply Hok in H, H'. rewrite H in H'.
  apply digest_json_inj in H' as [Heq|]; [left|by right|done..].
  unfold sequence_doc in Heq. assert (entry_doc <$> l = entry_doc <$> l') as Hf by congruence.
  revert Hf. clear. revert l'. induction l as [|e l IH]; intros [|e' l'] H; csimpl in *; try done.
  assert (entry_doc e = entry_doc e' /\ entry_doc <$> l = entry_doc <$> l') as [E1 E2]
    by (split; congruence).
  apply entry_doc_inj in E1 as ->. f_equal. by apply IH.
Qed.

(** ** The realm a target names, abstractly *)

Inductive realm : Type :=
| KeyRealm (engine namespace key : string)
| NamedRealm (engine name : string).

Definition realm_json (r : realm) : json :=
  match r with
  | KeyRealm e n k => coordination_doc e n k
  | NamedRealm e n => realm_doc e n
  end.

(** The realm of a target whose fields the API admits: exactly one of a key,
    scoped to the namespace, and a realm name. *)
Definition claimed_realm (namespace : string) (t : DatabaseTargetSpec) : option realm :=
  match canonicalDatabaseEngine (Engine t), RealmRef t with
  | Err _, _ => None
  | Ok e, Some name =>
      if empty (CoordinationKey t) && (len name <=? 253) && is_subdomain_shape name
      then Some (NamedRealm e name) else None
  | Ok e, None =>
      if is_dns1123_label namespace && is_coordination_key (CoordinationKey t)
      then Some (KeyRealm e namespace (CoordinationKey t)) else None
  end.

Lemma Digest_claimed namespace t d :
  Digest namespace t = Ok d <->
  exists r, claimed_realm namespace t = Some r /\ d = DigestCanonicalJSON (realm_json r).
Proof.
  unfold Digest, claimed_realm, DatabaseRealmDigest, DatabaseCoordinationDigest.
  destruct (RealmRef t) as [name|].
  - destruct (empty (CoordinationKey t)); simpl.
    2: { split; [done|]. intros (r & H & _). by destruct (canonicalDatabaseEngine _). }
    destruct (canonicalDatabaseEngine (Engine t)) as [e|]; simpl; [|naive_solver].
    rewrite negb_orb, negb_involutive, Z.leb_antisym.
    destruct (253 <? len name), (is_subdomain_shape name); simpl; naive_solver.
  - destruct (canonicalDatabaseEngine (Engine t)) as [e|]; simpl; [|naive_solver].
    destruct (is_dns1123_label namespace), (is_coordination_key (CoordinationKey t)); simpl; naive_solver.
Qed.

Lemma claimed_realm_utf8 namespace t r :
  claimed_realm namespace t = Some r -> json_utf8 (realm_json r) = true.
Proof.
  unfold claimed_realm. intros H.
  destruct (canonicalDatabaseEngine (Engine t)) as [e|] eqn:He; [|done]. apply engine_utf8 in He.
  destruct (RealmRef t) as [name|]; case_match eqn:E; simplify_eq; bool_prop; simpl.
  - by rewrite He, subdomain_utf8.
  - rewrite He, (ends_middle_utf8 _ _ 63 namespace label_class_ascii) by done.
    by rewrite (ends_middle_utf8 _ _ 253 (CoordinationKey t) key_class_ascii).
Qed.

Lemma realm_json_inj r r' : realm_json r = realm_json r' -> r = r'.
Proof. destruct r, r'; simpl; unfold coordination_doc, realm_doc; intros; simplify_eq; done. Qed.

Lemma Digest_inj namespace namespace' t t' d r r' :
  Digest namespace t = Ok d -> Digest namespace' t' = Ok d ->
  claimed_realm namespace t = Some r -> claimed_realm namespace' t' = Some r' ->
  r = r' \/ collision (marshal (realm_json r)) (marshal (realm_json r')).
Proof.
  intros H H' Hr Hr'.
  apply Digest_claimed in H as (q & Hq & ->). apply Digest_claimed in H' as (q' & Hq' & E).
  rewrite Hq in Hr. injection Hr as ->. rewrite Hq' in Hr'. injection Hr' as ->.
  apply digest_json_inj in E as [E|E]; [|by right|by eapply claimed_realm_utf8..].
  left. by apply realm_json_inj.
Qed.

(** * Properties *)

(** [NormalizeSet] is a canonical form of a set of strings. Its result is
    sorted and free of duplicates, normalizing twice changes nothing, and two
    lists normalize alike exactly when they hold the same trimmed, non-empty
    strings, whatever their order and repetition. *)
Theorem NormalizeSet_canonical (l l' : list string) :
  StronglySorted str_le (NormalizeSet l) /\ NoDup (NormalizeSet l) /\
  NormalizeSet (NormalizeSet l) = NormalizeSet l /\
  (NormalizeSet l = NormalizeSet l' <-> set_members l = set_members l').
Proof.
  assert (forall x y, (NormalizeSet x = NormalizeSet y <-> set_members x = set_members y)) as Hiff.
  { intros x y. split.
    - intros H. apply set_eq. intros z. by rewrite <- !NormalizeSet_members, H.
    - intros H. apply sorted_perm_eq; [apply sort_strings_sorted..|].
      apply NoDup_Permutation; [apply NormalizeSet_nodup..|].
      intros z. by rewrite !NormalizeSet_members, H. }
  split; [apply sort_strings_sorted|]. split; [apply NormalizeSet_nodup|]. split; [|done].
  apply Hiff. apply set_eq. intros z. rewrite <- (NormalizeSet_members l).
  unfold set_members. rewrite elem_of_list_to_set, list_elem_of_filter, list_elem_of_fmap. split.
  - intros [Hz (y & -> & Hy)]. apply NormalizeSet_members in Hy as Hy'.
    unfold set_members in Hy'. rewrite elem_of_list_to_set, list_elem_of_filter, list_elem_of_fmap in Hy'.
    destruct Hy' as [_ (w & -> & _)]. by rewrite trim_space_idem.
  - intros Hz. apply NormalizeSet_members in Hz as Hz'.
    unfold set_members in Hz'. rewrite elem_of_list_to_set, list_elem_of_filter, list_elem_of_fmap in Hz'.
    destruct Hz' as [Hne (w & -> & _)]. split; [done|]. exists (trim_space w).
    by rewrite trim_space_idem.
Qed.

(** C39: A plan fingerprint is the complete approval identity of the plan. If
    two bindings whose strings are valid UTF-8 have one fingerprint then they
    agree on the contract version, the schema, the content digest, the artifact
    or source, the coordination and target identities, both state fingerprints,
    the policies, the execution binding, the versions and images, and on what
    was read out of the plan bytes (destructive, statement count, and the
    privilege changes as the set [NormalizeSet] makes of them: trimmed, blank
    ones dropped, sorted, without repetition) -- or the two documents, which
    are named, collide under SHA-256. *)
Theorem plan_fingerprint_binds (b b' : PlanBinding) (f : string) :
  json_utf8 (binding_doc (with_normalized_privileges b)) = true ->
  json_utf8 (binding_doc (with_normalized_privileges b')) = true ->
  Fingerprint b = Ok f -> Fingerprint b' = Ok f ->
  (with_normalized_privileges b = with_normalized_privileges b' /\
   set_members (PrivilegeChanges b) = set_members (PrivilegeChanges b')) \/
  collision (marshal (binding_doc (with_normalized_privileges b)))
            (marshal (binding_doc (with_normalized_privileges b'))).
Proof.
  intros Hu Hu' H H'.
  assert (forall c, Fingerprint c = Ok f ->
    f = DigestCanonicalJSON (binding_doc (with_normalized_privileges c))) as Hok.
  { intros c Hc. unfold Fingerprint, rbind in Hc. follow Hc. by simplify_eq. }
  apply Hok in H, H'. rewrite H in H'. apply digest_json_inj in H' as [Heq|]; [left|by right|done..].
  apply binding_doc_inj in Heq. split; [done|].
  apply (f_equal PrivilegeChanges) in Heq. simpl in Heq.
  apply set_eq. intros z. by rewrite <- !NormalizeSet_members, Heq.
Qed.

(** The realm digest of a target is exactly the digest of the realm the
    target claims, and it is refused exactly when the target claims none (an
    engine the operator does not know, a malformed key, namespace or realm
    name, or both a key and a realm). Two targets share a digest only if they
    claim the same realm: a key in one namespace never names the realm of the
    same key in another namespace, nor the one a [PtahRealm] names, unless the
    two named documents collide under SHA-256. *)
Theorem coordination_digest_refines (namespace namespace' : string) (t t' : DatabaseTargetSpec) :
  (forall d, Digest namespace t = Ok d <->
     exists r, claimed_realm namespace t = Some r /\ d = DigestCanonicalJSON (realm_json r)) /\
  (forall d r r', Digest namespace t = Ok d -> Digest namespace' t' = Ok d ->
     claimed_realm namespace t = Some r -> claimed_realm namespace' t' = Some r' ->
     r = r' \/ collision (marshal (realm_json r)) (marshal (realm_json r'))).
Proof.
  split; [apply Digest_claimed|]. intros d r r'. apply Digest_inj.
Qed.

(** A sequence digest binds the exact sequence in its order: two non-empty
    sequences with one digest are equal entry by entry, unless their two
    documents collide under SHA-256; the empty sequence has no digest. *)
Theorem migration_sequence_digest_binds (l l' : list SequenceEntry) (d : string) :
  json_utf8 (sequence_doc l) = true -> json_utf8 (sequence_doc l') = true ->
  MigrationSequenceDigest l = Ok d -> MigrationSequenceDigest l' = Ok d ->
  l <> [] /\ (l = l' \/ collision (marshal (sequence_doc l)) (marshal (sequence_doc l'))).
Proof.
  intros Hu Hu' H H'. split; [by destruct l|]. by eapply sequence_digest_inj.
Qed.

(** ** Witnesses *)

Definition zeros64 : string := "0000000000000000000000000000000000000000000000000000000000000000".
Definition sample_digest : string := "sha256:" +:+ zeros64.
Definition sample_binding (privileges : list string) : PlanBinding :=
  {| ContractVersion := 1; SchemaUID := "schema-uid"; PlanContentDigest := sample_digest;
     ArtifactDigest := sample_digest; Source := None; CoordinationDigest := sample_digest;
     TargetIdentityDigest := sample_digest; ActualStateFingerprint := sample_digest;
     DesiredStateFingerprint := sample_digest; PolicyFingerprint := sample_digest;
     VerificationPolicyUID := "policy-uid"; VerificationPolicyDigest := sample_digest;
     ExecutionBindingID := "v1-00000000000000000000000000000000"; ControllerStateVersion := 1;
     PtahVersion := "v1.2.3"; ExecutorImage := "registry/ptah@" +:+ sample_digest;
     RunnerProtocolVersion := 3; Destructive := true; PrivilegeChanges := privileges;
     StatementCount := 2 |}.
Definition ok_or_empty (r : result fp_error string) : string :=
  match r with Ok s => s | Err _ => EmptyString end.

Lemma plan_fingerprint_binds_witness :
  let b := sample_binding ["Grant"; "Owner"; "Grant"] in
  let b' := sample_binding [" Owner"; "Grant"] in
  (with_normalized_privileges b = with_normalized_privileges b' /\
   set_members (PrivilegeChanges b) = set_members (PrivilegeChanges b')) \/
  collision (marshal (binding_doc (with_normalized_privileges b)))
            (marshal (binding_doc (with_normalized_privileges b'))).
Proof.
  apply (plan_fingerprint_binds (sample_binding ["Grant"; "Owner"; "Grant"]) (sample_binding [" Owner"; "Grant"])
    (ok_or_empty (Fingerprint (sample_binding ["Grant"; "Owner"])))); vm_compute; reflexivity.
Defined.

Definition sample_sequence : list SequenceEntry :=
  [ {| Version := 1; VersionKey := "0001"; Checksum := "h1:a"; Checkpoint := false; TransactionMode := "file" |};
    {| Version := 2; VersionKey := "0002"; Checksum := "h1:b"; Checkpoint := true; TransactionMode := EmptyString |} ].

Lemma migration_sequence_digest_binds_witness :
  sample_sequence <> [] /\
  (sample_sequence = sample_sequence \/
   collision (marshal (sequence_doc sample_sequence)) (marshal (sequence_doc sample_sequence))).
Proof.
  apply (migration_sequence_digest_binds sample_sequence sample_sequence
    (ok_or_empty (MigrationSequenceDigest sample_sequence))); vm_compute; reflexivity.
Defined.

(** The digest of a version 1 realm key, computed. *)
Example coordination_digest_sample :
  is_sha256_digest (ok_or_empty (Digest "shop"
    {| Engine := " PostgreSQL"; CoordinationKey := "storefront/main"; RealmRef := None |})) = true /\
  Digest "shop" {| Engine := "pgx"; CoordinationKey := "k"; RealmRef := Some "r" |} = Err BothKeyAndRealm.
Proof. vm_compute. split; reflexivity. Qed.
