(* ===== verification/OciReference.v ===== *)
(** * OCI references (package [internal/ocireference])

    The references and registry authorities that cross the trust boundary
    between the controller and the data plane: parsing, the authority a
    credential is granted for, and the binding of a resolution to the request
    it answers. The reference grammar and the request host are those of
    [oras.land/oras-go]: [ParseReference], [ReferenceOrDefault] and [Host] of
    its package [registry] are parameters. *)
From stdpp Require Import base list gmap strings.
From Stdlib Require Import ZArith Lia Ascii.
From S2P Require Import Prelude GoStrings.
Local Open Scope go_scope.
Local Open Scope Z_scope.

Definition scheme : string := "oci://".

(** [registry.Reference] of oras. *)
Record parsed_reference : Type := {
  parsed_registry : string;
  parsed_repository : string;
  parsed_selector : string;
}.

Record Reference : Type := {
  RefRegistry : string;
  RefRepository : string;
  Selector : string;
  IsDigest : bool;
}.

Inductive oci_error : Type :=
| EmptyOrWhitespace
| NotOCIScheme
| UnsupportedData
| EscapedSeparator
| EmbeddedCredentials
| Unparsable
| NotPrintableASCII
| NotHostPort
| BadIPv6Host
| TextAfterIPv6
| UnmatchedBrackets
| EmptyHost
| BareIPv6
| EmptyPort
| PortNotDecimal
| PortOutOfRange
| NotAuthorityOnly
| AuthorityMismatch
| RequestMismatch
| OtherRepository
| DigestNotPreserved
| NotPinned.

(** ** Text of a reference *)

Definition hasUserInfo (value : string) : bool :=
  match index_byte "@"%char value, index_byte "/"%char value with
  | None, _ => false
  | Some _, None => true
  | Some at_, Some slash => (at_ <? slash)%nat
  end.

Definition nul : string := String "000"%char EmptyString.
Definition validateText (value : string) : result oci_error unit :=
  let lower := to_lower value in
  if contains_any ("?#\" +:+ nul) value then Err UnsupportedData
  else if contains "%2f" lower || contains "%5c" lower then Err EscapedSeparator
  else if hasUserInfo value then Err EmbeddedCredentials
  else Ok tt.

(** [ \t\r\n] *)
Definition blanks : string :=
  String " "%char (String "009"%char (String "013"%char (String "010"%char EmptyString))).

(** ** [net.ParseIP] of a string that contains a colon

    [netip.ParseAddr] looks at hexadecimal digits of either case, colons and
    dots; each byte is one such token. *)

Inductive tok : Type := THex (v : Z) | TColon | TDot | TOther.
Definition token (a : ascii) : tok :=
  let b := byte_of a in
  if (48 <=? b) && (b <=? 57) then THex (b - 48)
  else if (97 <=? b) && (b <=? 102) then THex (b - 87)
  else if (65 <=? b) && (b <=? 70) then THex (b - 55)
  else if b =? 58 then TColon else if b =? 46 then TDot else TOther.
Definition tokens (s : string) : list tok := token <$> String.list_ascii_of_string s.

(** The digits at the head, their value, how many they are, and what follows. *)
Fixpoint hex_run (l : list tok) (acc : Z) (n : nat) : Z * nat * list tok :=
  match l with
  | THex v :: r => hex_run r (16 * acc + v) (S n)
  | _ => (acc, n, l)
  end.
Fixpoint dec_run (l : list tok) (acc : Z) (n : nat) : Z * nat * list tok :=
  match l with
  | THex v :: r => if v <? 10 then dec_run r (10 * acc + v) (S n) else (acc, n, l)
  | _ => (acc, n, l)
  end.

(** [parseIPv4Fields]: [k] more octets, without leading zeros. *)
Fixpoint ipv4_fields (k : nat) (l : list tok) : bool :=
  match k with
  | O => false
  | S k' =>
      let '(v, n, r) := dec_run l 0 0 in
      negb (n =? 0)%nat && (v <=? 255)
      && negb (match l with THex 0 :: _ => (1 <? n)%nat | _ => false end)
      && match r, k' with
         | [], O => true
         | TDot :: r', S _ => ipv4_fields k' r'
         | _, _ => false
         end
  end.

(** [parseIPv6]: [i] bytes are filled, [ellipsis] tells whether [::] was met;
    each round fills two bytes, so eight rounds fill the address. *)
Fixpoint ipv6_groups (fuel : nat) (l : list tok) (i : Z) (ellipsis : bool) : bool :=
  let finish i := if i <? 16 then ellipsis else negb ellipsis in
  match fuel with
  | O => match l with [] => finish i | _ => false end
  | S fuel' =>
      let '(v, n, r) := hex_run l 0 0 in
      if (n =? 0)%nat || (4 <? n)%nat then false else
      match r with
      | TDot :: _ =>
          (ellipsis || (i =? 12)) && (i + 4 <=? 16) && ipv4_fields 4 l && finish (i + 4)
      | [] => finish (i + 2)
      | TColon :: [] => false
      | TColon :: TColon :: r' =>
          if ellipsis then false
          else match r' with
               | [] => i + 2 <? 16
               | _ => ipv6_groups fuel' r' (i + 2) true
               end
      | TColon :: r' => ipv6_groups fuel' r' (i + 2) ellipsis
      | _ => false
      end
  end.
Definition parse_ip6 (s : string) : bool :=
  match tokens s with
  | TColon :: TColon :: [] => true
  | TColon :: TColon :: r => ipv6_groups 8 r 0 true
  | l => ipv6_groups 8 l 0 false
  end.

(** ** Authorities *)

Definition validateAuthorityPort (port : string) : result oci_error unit :=
  if bool_decide (port = EmptyString) then Err EmptyPort
  else if negb (str_all is_digit port) then Err PortNotDecimal
  else match parse_unsigned port with
       | Some number => if (number =? 0) || (65535 <? number) then Err PortOutOfRange else Ok tt
       | None => Err PortOutOfRange
       end.

Definition validateAuthorityHostPort (authority : string) : result oci_error unit :=
  match authority with
  | String "["%char rest =>
      match cut "]"%char rest with
      | None => Err BadIPv6Host
      | Some (host, remainder) =>
          if bool_decide (host = EmptyString) || negb (occurs ":"%char host) || negb (parse_ip6 host)
          then Err BadIPv6Host else
          match remainder with
          | EmptyString => Ok tt
          | String ":"%char port =>
              if contains_any "[]:" port then Err TextAfterIPv6 else validateAuthorityPort port
          | _ => Err TextAfterIPv6
          end
      end
  | _ =>
      if contains_any "[]" authority then Err UnmatchedBrackets else
      match count_byte ":"%char authority with
      | O => Ok tt
      | S O =>
          match cut ":"%char authority with
          | Some (host, port) =>
              if bool_decide (host = EmptyString) then Err EmptyHost else validateAuthorityPort port
          | None => Ok tt
          end
      | _ => Err BareIPv6
      end
  end.

(** A byte from 0x80 on is part of a code point above [unicode.MaxASCII], or of
    no code point; below, [unicode.IsSpace] and [unicode.IsControl]. *)
Definition printable (a : ascii) : bool := (32 <? byte_of a) && (byte_of a <? 127).

Definition sentinelRepository : string := "ptah-authority-validation".

Section registry.
Context (ParseReference : string -> option parsed_reference)
  (ReferenceOrDefault : parsed_reference -> string)
  (Host : string -> string).

Definition Parse (raw : string) : result oci_error Reference :=
  if bool_decide (raw = EmptyString) || negb (bool_decide (trim_space raw = raw)) || contains_any blanks raw
  then Err EmptyOrWhitespace else
  match cut_prefix scheme raw with
  | None => Err NotOCIScheme
  | Some value =>
      _ <-! validateText value;
      match ParseReference value with
      | None => Err Unparsable
      | Some parsed =>
          let selector := ReferenceOrDefault parsed in
          Ok {| RefRegistry := parsed_registry parsed; RefRepository := parsed_repository parsed;
                Selector := selector; IsDigest := contains ":" selector |}
      end
  end.

Definition CanonicalAuthority (raw : string) : result oci_error string :=
  if bool_decide (raw = EmptyString) || negb (bool_decide (trim_space raw = raw)) then Err EmptyOrWhitespace else
  guard (str_all printable raw) else NotPrintableASCII;
  if contains_any ("/@?#\%" +:+ nul) raw then Err NotHostPort else
  _ <-! validateAuthorityHostPort raw;
  let canonical := to_lower raw in
  match ParseReference (canonical +:+ "/" +:+ sentinelRepository) with
  | None => Err Unparsable
  | Some parsed =>
      if negb (bool_decide (parsed_registry parsed = canonical)) ||
         negb (bool_decide (parsed_repository parsed = sentinelRepository)) ||
         negb (bool_decide (parsed_selector parsed = EmptyString))
      then Err NotAuthorityOnly else Ok canonical
  end.

Definition Authority (rawReference : string) : result oci_error string :=
  reference <-! Parse rawReference;
  CanonicalAuthority (Host (RefRegistry reference)).

Definition MatchAuthority (rawReference rawGrant : string) : result oci_error unit :=
  want <-! Authority rawReference;
  got <-! CanonicalAuthority rawGrant;
  guard (bool_decide (want = got)) else AuthorityMismatch;
  Ok tt.

Definition MatchRequested (requested reported : string) : result oci_error unit :=
  want <-! Parse requested;
  got <-! Parse reported;
  guard (bool_decide (RefRegistry want = RefRegistry got) && bool_decide (RefRepository want = RefRepository got)
         && bool_decide (Selector want = Selector got)) else RequestMismatch;
  Ok tt.

Definition validatePin (pin : Reference) (digest : string) : result oci_error unit :=
  if negb (is_sha256_digest digest) || negb (IsDigest pin) || negb (bool_decide (Selector pin = digest))
  then Err NotPinned else Ok tt.

Definition ValidateResolution (requested pinned digest : string) : result oci_error unit :=
  request <-! Parse requested;
  pin <-! Parse pinned;
  guard (bool_decide (RefRegistry request = RefRegistry pin)
         && bool_decide (RefRepository request = RefRepository pin)) else OtherRepository;
  guard (negb (IsDigest request && negb (bool_decide (Selector request = digest)))) else DigestNotPreserved;
  validatePin pin digest.

Definition ValidatePinned (pinned digest : string) : result oci_error unit :=
  pin <-! Parse pinned;
  validatePin pin digest.

End registry.

(** * Lemmas *)

(** ** Lower case on ASCII *)

Definition lower_ascii (a : ascii) : ascii := of_byte (lower_byte (byte_of a)).
Fixpoint str_map (f : ascii -> ascii) (s : string) : string :=
  match s with
  | EmptyString => EmptyString
  | String a s' => String (f a) (str_map f s')
  end.
Definition is_ascii (a : ascii) : bool := byte_of a <? 128.
(** Not a letter: the two cases differ in no such character. *)
Definition caseless (c : ascii) : bool := negb (is_upper c) && negb (is_lower c).

Lemma lower_byte_range b : is_byte b -> is_byte (lower_byte b).
Proof. unfold is_byte, lower_byte. case_match; bool_prop; lia. Qed.

Lemma byte_of_lower a : byte_of (lower_ascii a) = lower_byte (byte_of a).
Proof. apply byte_of_of, lower_byte_range, byte_of_range. Qed.

Lemma lower_ascii_idem a : lower_ascii (lower_ascii a) = lower_ascii a.
Proof.
  unfold lower_ascii at 1. rewrite byte_of_lower. unfold lower_ascii. f_equal.
  unfold lower_byte. repeat case_match; bool_prop; lia.
Qed.

Lemma lower_ascii_caseless a c : caseless c = true -> bool_decide (lower_ascii a = c) = bool_decide (a = c).
Proof.
  unfold caseless, is_upper, is_lower, in_range. intros Hc. bool_prop. apply bool_decide_ext. split; intros E.
  - assert (lower_byte (byte_of a) = byte_of c) as Hb by (by rewrite <- byte_of_lower, E).
    assert (byte_of a = byte_of c) as Ha; [|by rewrite <- (of_byte_of a), Ha, of_byte_of].
    revert Hb. unfold lower_byte. case_match; bool_prop; [|done]. intros Hb. exfalso.
    destruct (97 <=? byte_of c) eqn:?, (byte_of c <=? 122) eqn:?; bool_prop; try done; lia.
  - subst a. rewrite <- (of_byte_of c) at 2. unfold lower_ascii. f_equal. unfold lower_byte.
    case_match; [|done]. bool_prop. destruct (65 <=? byte_of c) eqn:?, (byte_of c <=? 90) eqn:?; bool_prop; try done; lia.
Qed.

Lemma to_lower_ascii s : str_all is_ascii s = true -> to_lower s = str_map lower_ascii s.
Proof.
  intros Hs. apply bytes_inj. unfold to_lower.
  assert (lower_bytes (bytes s) = lower_byte <$> bytes s) as ->.
  { revert Hs. induction s as [|a s IH]; [done|]. intros [Ha Hs]%andb_true_iff. rewrite bytes_cons, fmap_cons, <- IH by done.
    unfold is_ascii in Ha. bool_prop. simpl.
    rewrite (proj2 (Z.eqb_neq (byte_of a) 196)), (proj2 (Z.eqb_neq (byte_of a) 226)) by lia. simpl.
    by destruct (bytes s) as [|b1 [|b2 l]]. }
  rewrite bytes_of_bytes.
  - clear Hs. induction s as [|a s IH]; [done|]. simpl str_map. by rewrite !bytes_cons, fmap_cons, IH, byte_of_lower.
  - apply Forall_fmap. eapply Forall_impl; [apply bytes_range|]. intros b. apply lower_byte_range.
Qed.

Lemma str_map_idem s : str_map lower_ascii (str_map lower_ascii s) = str_map lower_ascii s.
Proof. induction s as [|a s IH]; simpl; [done|]. by rewrite lower_ascii_idem, IH. Qed.

Lemma str_all_map f s : (forall a, f (lower_ascii a) = f a) -> str_all f (str_map lower_ascii s) = str_all f s.
Proof. intros Hf. induction s as [|a s IH]; simpl; [done|]. by rewrite Hf, IH. Qed.

Lemma occurs_map c s : caseless c = true -> occurs c (str_map lower_ascii s) = occurs c s.
Proof.
  intros Hc. unfold occurs, str_any. f_equal. apply str_all_map. intros a. by rewrite lower_ascii_caseless.
Qed.

Lemma occurs_lower a chars : str_all caseless chars = true -> occurs (lower_ascii a) chars = occurs a chars.
Proof.
  unfold occurs, str_any. intros H. f_equal. induction chars as [|c chars IH]; simpl in *; [done|]. bool_prop.
  rewrite IH by done. f_equal. f_equal.
  rewrite (bool_decide_ext (c = lower_ascii a) (lower_ascii a = c)), (bool_decide_ext (c = a) (a = c)) by done.
  by apply lower_ascii_caseless.
Qed.

Lemma contains_any_map chars s :
  str_all caseless chars = true -> contains_any chars (str_map lower_ascii s) = contains_any chars s.
Proof.
  intros H. unfold contains_any, str_any. f_equal. apply str_all_map. intros a. by rewrite occurs_lower.
Qed.

Lemma cut_map c s : caseless c = true ->
  cut c (str_map lower_ascii s) = (fun p => (str_map lower_ascii p.1, str_map lower_ascii p.2)) <$> cut c s.
Proof.
  intros Hc. induction s as [|a s IH]; [done|]. cbn [cut str_map]. rewrite lower_ascii_caseless by done.
  case_bool_decide; [done|]. rewrite IH. by destruct (cut c s) as [[h t]|].
Qed.

Lemma count_byte_map c s : caseless c = true -> count_byte c (str_map lower_ascii s) = count_byte c s.
Proof. intros Hc. induction s as [|a s IH]; simpl; [done|]. by rewrite lower_ascii_caseless, IH. Qed.

Lemma tokens_map s : tokens (str_map lower_ascii s) = tokens s.
Proof.
  unfold tokens. induction s as [|a s IH]; [done|]. cbn [str_map String.list_ascii_of_string]. rewrite !fmap_cons, IH.
  f_equal. unfold token. rewrite byte_of_lower. unfold lower_byte.
  repeat case_match; bool_prop; try lia; try done; f_equal; lia.
Qed.

(** ** Validation does not depend on case *)

Lemma digit_lower a : is_digit (lower_ascii a) = is_digit a.
Proof.
  unfold is_digit, in_range. rewrite byte_of_lower. unfold lower_byte. case_match; bool_prop; [|done].
  apply eq_true_iff_eq. rewrite !andb_true_iff, !Z.leb_le. lia.
Qed.

Lemma digits_map s : str_all is_digit s = true -> str_map lower_ascii s = s.
Proof.
  induction s as [|a s IH]; simpl; [done|]. intros [Ha Hs]%andb_true_iff. rewrite IH by done. f_equal.
  unfold is_digit, in_range in Ha. bool_prop. rewrite <- (of_byte_of a) at 2. unfold lower_ascii. f_equal.
  unfold lower_byte. case_match; bool_prop; [lia|done].
Qed.

Lemma empty_map s : bool_decide (str_map lower_ascii s = EmptyString) = bool_decide (s = EmptyString).
Proof. apply bool_decide_ext. by destruct s. Qed.

Lemma port_map port : validateAuthorityPort (str_map lower_ascii port) = validateAuthorityPort port.
Proof.
  unfold validateAuthorityPort. rewrite str_all_map by apply digit_lower.
  destruct (str_all is_digit port) eqn:E; [by rewrite digits_map|].
  by rewrite empty_map.
Qed.

(** The first character decides between a bracketed and a plain host. *)
Definition host_port_plain (authority : string) : result oci_error unit :=
  if contains_any "[]" authority then Err UnmatchedBrackets else
  match count_byte ":"%char authority with
  | O => Ok tt
  | S O =>
      match cut ":"%char authority with
      | Some (host, port) =>
          if bool_decide (host = EmptyString) then Err EmptyHost else validateAuthorityPort port
      | None => Ok tt
      end
  | _ => Err BareIPv6
  end.
Definition after_host (remainder : string) : result oci_error unit :=
  match remainder with
  | EmptyString => Ok tt
  | String c port =>
      if bool_decide (c = ":"%char)
      then if contains_any "[]:" port then Err TextAfterIPv6 else validateAuthorityPort port
      else Err TextAfterIPv6
  end.
Definition host_port_bracketed (rest : string) : result oci_error unit :=
  match cut "]"%char rest with
  | None => Err BadIPv6Host
  | Some (host, remainder) =>
      if bool_decide (host = EmptyString) || negb (occurs ":"%char host) || negb (parse_ip6 host)
      then Err BadIPv6Host else after_host remainder
  end.

Lemma match_char {A} (c : ascii) (x : A) (k : A) :
  (if bool_decide (c = ":"%char) then x else k) =
  match c with ":"%char => x | _ => k end.
Proof. destruct c as [[] [] [] [] [] [] [] []]; reflexivity. Qed.

Lemma validateAuthorityHostPort_eq authority :
  validateAuthorityHostPort authority =
  match authority with
  | String a rest => if bool_decide (a = "["%char) then host_port_bracketed rest else host_port_plain authority
  | EmptyString => host_port_plain authority
  end.
Proof.
  assert (forall r, after_host r = match r with
    | EmptyString => Ok tt
    | String ":"%char port => if contains_any "[]:" port then Err TextAfterIPv6 else validateAuthorityPort port
    | _ => Err TextAfterIPv6 end) as Ha.
  { intros [|c port]; [done|]. cbn [after_host]. destruct c as [[] [] [] [] [] [] [] []]; reflexivity. }
  destruct authority as [|a rest]; [done|].
  destruct (decide (a = "["%char)) as [->|Hne].
  - rewrite bool_decide_eq_true_2 by done. unfold validateAuthorityHostPort, host_port_bracketed.
    destruct (cut "]" rest) as [[host remainder]|]; [|done]. by rewrite Ha.
  - rewrite bool_decide_eq_false_2 by done. unfold validateAuthorityHostPort, host_port_plain.
    destruct a as [[] [] [] [] [] [] [] []]; try reflexivity. by destruct Hne.
Qed.

Lemma plain_map s : host_port_plain (str_map lower_ascii s) = host_port_plain s.
Proof.
  unfold host_port_plain. rewrite contains_any_map, count_byte_map, cut_map by done.
  destruct (contains_any "[]" s); [done|]. destruct (count_byte ":" s) as [|[|n]]; [done| |done].
  destruct (cut ":" s) as [[host port]|]; simpl; [|done]. by rewrite empty_map, port_map.
Qed.

Lemma bracketed_map s : host_port_bracketed (str_map lower_ascii s) = host_port_bracketed s.
Proof.
  unfold host_port_bracketed. rewrite cut_map by done. destruct (cut "]" s) as [[host remainder]|]; simpl; [|done].
  rewrite empty_map, occurs_map by done. unfold parse_ip6. rewrite tokens_map. fold (parse_ip6 host).
  case_match; [done|]. destruct remainder as [|c port]; [done|]. cbn [after_host str_map].
  rewrite lower_ascii_caseless, contains_any_map, port_map by done. reflexivity.
Qed.

Lemma host_port_map s : validateAuthorityHostPort (str_map lower_ascii s) = validateAuthorityHostPort s.
Proof.
  rewrite !validateAuthorityHostPort_eq. destruct s as [|a s]; [done|]. cbn [str_map].
  rewrite lower_ascii_caseless by done. case_bool_decide; [apply bracketed_map|apply (plain_map (String a s))].
Qed.

Lemma printable_lower a : printable (lower_ascii a) = printable a.
Proof.
  unfold printable. rewrite byte_of_lower. unfold lower_byte. case_match; bool_prop; [|done].
  apply eq_true_iff_eq. rewrite !andb_true_iff, !Z.ltb_lt. lia.
Qed.

Lemma printable_bytes s : str_all printable s = true -> Forall (fun b => 33 <= b <= 126) (bytes s).
Proof.
  induction s as [|a s IH]; [constructor|]. intros [Ha Hs]%andb_true_iff. rewrite bytes_cons.
  unfold printable in Ha. bool_prop. constructor; [lia|auto].
Qed.

Lemma printable_no_space l :
  Forall (fun b => 33 <= b <= 126) l -> space_head l = None /\ space_last l = None.
Proof.
  assert (forall b, 33 <= b <= 126 -> ascii_space_byte b = false) as H1.
  { intros b Hb. unfold ascii_space_byte. apply not_true_iff_false.
    rewrite orb_true_iff, andb_true_iff, !Z.leb_le, Z.eqb_eq. lia. }
  assert (forall b c, 33 <= b <= 126 -> 33 <= c <= 126 -> space2 b c = false) as H2.
  { intros b c Hb Hc. unfold space2. by rewrite (proj2 (Z.eqb_neq b 194)) by lia. }
  assert (forall b c d, 33 <= b <= 126 -> space3 b c d = false) as H3.
  { intros b c d Hb. unfold space3.
    by rewrite (proj2 (Z.eqb_neq b 225)), (proj2 (Z.eqb_neq b 226)), (proj2 (Z.eqb_neq b 227)) by lia. }
  intros [|b l' Hb [|c l'' Hc [|d l3 Hd _]]]; simpl; rewrite ?H1, ?H2, ?H3 by done; done.
Qed.

Lemma trim_printable s : str_all printable s = true -> trim_space s = s.
Proof.
  intros Hs%printable_bytes. unfold trim_space. rewrite trim_bytes_id, of_bytes_bytes; [done| |].
  - by apply printable_no_space.
  - apply printable_no_space. by rewrite reverse_Permutation.
Qed.

Lemma printable_ascii s : str_all printable s = true -> str_all is_ascii s = true.
Proof. apply str_all_mono. unfold printable, is_ascii. intros a. rewrite andb_true_iff, !Z.ltb_lt. lia. Qed.

Section properties.
Context (ParseReference : string -> option parsed_reference)
  (ReferenceOrDefault : parsed_reference -> string)
  (Host : string -> string).

Abbreviation Parse := (Parse ParseReference ReferenceOrDefault).
Abbreviation CanonicalAuthority := (CanonicalAuthority ParseReference).
Abbreviation Authority := (Authority ParseReference ReferenceOrDefault Host).
Abbreviation MatchAuthority := (MatchAuthority ParseReference ReferenceOrDefault Host).
Abbreviation ValidateResolution := (ValidateResolution ParseReference ReferenceOrDefault).
Abbreviation ValidatePinned := (ValidatePinned ParseReference ReferenceOrDefault).
Abbreviation MatchRequested := (MatchRequested ParseReference ReferenceOrDefault).

Lemma canonical_shape raw c :
  CanonicalAuthority raw = Ok c ->
  c = str_map lower_ascii raw /\ c = to_lower raw /\ raw <> EmptyString /\ str_all printable raw = true /\
  contains_any ("/@?#\%" +:+ nul) raw = false /\ validateAuthorityHostPort raw = Ok tt /\
  exists p, ParseReference (c +:+ "/" +:+ sentinelRepository) = Some p /\ parsed_registry p = c /\
    parsed_repository p = sentinelRepository /\ parsed_selector p = EmptyString.
Proof.
  unfold OciReference.CanonicalAuthority. intros H. case_match eqn:E0; [done|]. apply orb_false_iff in E0 as [E0 _].
  destruct (str_all printable raw) eqn:Ep; [|done]. case_match eqn:Ec; [done|].
  apply bind_ok_unit in H as [Hv H]. destruct (ParseReference _) as [p|] eqn:Er; [|done].
  case_match eqn:Ei; [done|]. injection H as <-. bool_prop.
  split; [by apply to_lower_ascii, printable_ascii|]. split_and!; try done. by exists p.
Qed.

(** A registry authority has one canonical form. A form that is accepted is
    printable ASCII with no scheme, credential, path or escape, is the lower
    case of what was given and is its own canonical form, whatever the case of
    the host (bracketed IPv6 hosts included). A credential grant therefore
    matches a reference exactly when it spells the one authority the client
    contacts for the reference, up to case: two grants for one reference differ
    only in case. *)
Theorem authority_canonical (raw c reference grant grant' : string) :
  (CanonicalAuthority raw = Ok c ->
   c = to_lower raw /\ CanonicalAuthority c = Ok c /\ str_all printable c = true /\
   contains_any ("/@?#\%" +:+ nul) c = false) /\
  (MatchAuthority reference grant = Ok tt <->
   exists a, Authority reference = Ok a /\ CanonicalAuthority grant = Ok a) /\
  (MatchAuthority reference grant = Ok tt -> MatchAuthority reference grant' = Ok tt ->
   to_lower grant = to_lower grant').
Proof.
  assert (forall g, MatchAuthority reference g = Ok tt <->
    exists a, Authority reference = Ok a /\ CanonicalAuthority g = Ok a) as Hm.
  { intros g. unfold OciReference.MatchAuthority. destruct (Authority reference) as [w|]; simpl; [|naive_solver].
    destruct (CanonicalAuthority g) as [a|]; simpl; [|naive_solver]. case_bool_decide; naive_solver. }
  split; [|split; [apply Hm|]].
  - intros H. pose proof (canonical_shape _ _ H) as (Em & El & Hne & Hp & Hc & Hv & p & Hpr & E1 & E2 & E3).
    assert (str_all printable c = true) as Hpc by (rewrite Em; by rewrite str_all_map by apply printable_lower).
    assert (contains_any ("/@?#\%" +:+ nul) c = false) as Hcc by (rewrite Em; by rewrite contains_any_map).
    split_and!; [done| |done|done]. unfold OciReference.CanonicalAuthority.
    rewrite (bool_decide_eq_false_2 (c = EmptyString)) by (intros E; rewrite E in Em; by destruct raw).
    rewrite trim_printable, (bool_decide_eq_true_2 (c = c)), Hpc, Hcc by done. cbn [orb negb].
    assert (validateAuthorityHostPort c = Ok tt) as -> by (rewrite Em, host_port_map; exact Hv).
    assert (to_lower c = c) as ->.
    { rewrite to_lower_ascii by (by apply printable_ascii). by rewrite Em, str_map_idem. }
    cbn [rbind]. cbv zeta. rewrite Hpr, E1, E2, E3.
    by rewrite !bool_decide_eq_true_2 by done.
  - intros (a & Ha & Hg)%Hm (a' & Ha' & Hg')%Hm. apply canonical_shape in Hg as (_ & -> & _), Hg' as (_ & -> & _).
    congruence.
Qed.

(** The pinned reference answers the request with the digest. *)
Definition answers (requested pinned digest : string) : Prop :=
  exists r p, Parse requested = Ok r /\ Parse pinned = Ok p /\
    RefRegistry r = RefRegistry p /\ RefRepository r = RefRepository p /\
    is_sha256_digest digest = true /\ IsDigest p = true /\ Selector p = digest /\
    (IsDigest r = true -> Selector r = digest).

Lemma validatePin_spec p digest :
  validatePin p digest = Ok tt <-> is_sha256_digest digest = true /\ IsDigest p = true /\ Selector p = digest.
Proof.
  unfold validatePin. destruct (is_sha256_digest digest), (IsDigest p); simpl; try naive_solver.
  case_bool_decide; naive_solver.
Qed.

Lemma resolution_spec requested pinned digest :
  ValidateResolution requested pinned digest = Ok tt <-> answers requested pinned digest.
Proof.
  unfold OciReference.ValidateResolution, answers. destruct (Parse requested) as [r|]; simpl; [|naive_solver].
  destruct (Parse pinned) as [p|]; simpl; [|naive_solver].
  transitivity ((RefRegistry r = RefRegistry p /\ RefRepository r = RefRepository p) /\
      (IsDigest r = true -> Selector r = digest) /\ validatePin p digest = Ok tt).
  - guards. rewrite andb_true_iff, !bool_decide_eq_true.
    destruct (IsDigest r); simpl; [|naive_solver]. case_bool_decide; simpl; naive_solver.
  - rewrite validatePin_spec. naive_solver.
Qed.

(** A resolution is accepted exactly when it answers the request: both
    references parse, name the same registry and repository, the pinned one
    selects the reported digest, which is a SHA-256 digest, and a request that
    named a digest named this one. An accepted pin stays valid on its own, and
    a pin accepted for a request by digest also matches it as a report. *)
Theorem resolution_binds (requested pinned digest : string) :
  (ValidateResolution requested pinned digest = Ok tt <-> answers requested pinned digest) /\
  (ValidateResolution requested pinned digest = Ok tt ->
   ValidatePinned pinned digest = Ok tt /\
   forall r, Parse requested = Ok r -> IsDigest r = true -> MatchRequested requested pinned = Ok tt).
Proof.
  split; [apply resolution_spec|]. intros (r & p & Hr & Hp & E1 & E2 & Hd & Hi & Hs & Himp)%resolution_spec.
  unfold OciReference.ValidatePinned, OciReference.MatchRequested. rewrite Hr, Hp. cbn [rbind].
  split; [by apply validatePin_spec|]. intros r' [= <-] Hdig. rewrite E1, E2, Hs, (Himp Hdig).
  by rewrite !bool_decide_eq_true_2 by done.
Qed.
End properties.

(** ** Samples, with a small reference parser *)

Definition sample_parser (s : string) : option parsed_reference :=
  '(registry, path) ← cut "/"%char s;
  match cut "@"%char path with
  | Some (repository, digest) => Some {| parsed_registry := registry; parsed_repository := repository; parsed_selector := digest |}
  | None =>
      match cut ":"%char path with
      | Some (repository, tag) => Some {| parsed_registry := registry; parsed_repository := repository; parsed_selector := tag |}
      | None => Some {| parsed_registry := registry; parsed_repository := path; parsed_selector := EmptyString |}
      end
  end.
Definition sample_default (p : parsed_reference) : string :=
  if bool_decide (parsed_selector p = EmptyString) then "latest" else parsed_selector p.
Definition sample_sha : string := "sha256:0000000000000000000000000000000000000000000000000000000000000000".

Example authority_sample :
  CanonicalAuthority sample_parser "[FE80::1]:5000" = Ok "[fe80::1]:5000" /\
  MatchAuthority sample_parser sample_default (fun h => h) "oci://Registry.Example:5000/app:v1" "registry.example:5000" = Ok tt /\
  CanonicalAuthority sample_parser "user@host" = Err NotHostPort.
Proof. vm_compute. done. Qed.

Example resolution_sample :
  ValidateResolution sample_parser sample_default "oci://r/app:v1" ("oci://r/app@" +:+ sample_sha) sample_sha = Ok tt /\
  ValidateResolution sample_parser sample_default "oci://r/app:v1" ("oci://r/other@" +:+ sample_sha) sample_sha
    = Err OtherRepository.
Proof. vm_compute. done. Qed.
