(* ===== verification/PlanSeal.v ===== *)
(** * Sealed plans (package [internal/planseal])

    A Plan runner seals the plan it computed to the public key of the manager
    process that asked for it, with an envelope inside that names the
    operation and the Job. The sealed box of [golang.org/x/crypto/nacl/box] is
    the class [SealedBox], and [json.Unmarshal] into an [Envelope] a
    parameter. A key is its bytes, and the random source an argument of what
    draws from it. *)
From Stdlib Require Import ZArith Lia Ascii.
From stdpp Require Import base list strings.
From S2P Require Import Prelude GoStrings Json JsonDecode.
Local Open Scope go_scope.
Local Open Scope Z_scope.

Definition PublicKeySize : Z := 32.

(** ** Keys *)

Inductive seal_error : Type :=
| EmptyKey | KeyEncoding | KeyLength
| NoKeyPair | NotSealed | PayloadEncoding | NotOpened
| NoEnvelope | EnvelopeUnreadable | OtherEnvelope.

(** [base64.StdEncoding.DecodeString] passes over line breaks. *)
Definition line_break (a : ascii) : bool := (byte_of a =? 10) || (byte_of a =? 13).
Fixpoint without_breaks (s : string) : string :=
  match s with
  | EmptyString => EmptyString
  | String a s' => if line_break a then without_breaks s' else String a (without_breaks s')
  end.
Definition DecodeString (s : string) : option (list Z) := base64_decode (without_breaks s).

Definition Encode (key : list Z) : string := base64 false key.
Definition DecodePublicKey (encoded : string) : result seal_error (list Z) :=
  guard negb (bool_decide (encoded = EmptyString)) else EmptyKey;
  match DecodeString encoded with
  | None => Err KeyEncoding
  | Some raw =>
      guard Z.of_nat (length raw) =? PublicKeySize else KeyLength;
      Ok raw
  end.

Record KeyPair : Type := { public : list Z; private : list Z }.

(** ** The envelope *)

Record Envelope : Type := { OperationID : string; JobName : string }.
#[export] Instance Envelope_eq_dec : EqDecision Envelope.
Proof. solve_decision. Defined.
Definition envelope_json (e : Envelope) : json :=
  JObj [("operationID", JStr (OperationID e)); ("jobName", JStr (JobName e))].

(** What precedes the first line feed, and what follows it. *)
Fixpoint cut_line (l : list Z) : option (list Z * list Z) :=
  match l with
  | [] => None
  | b :: r => if b =? 10 then Some ([], r) else '(line, rest) ← cut_line r; Some (b :: line, rest)
  end.

(** [box.GenerateKey], [box.SealAnonymous] and [box.OpenAnonymous]. *)
Class SealedBox (Random : Type) : Type := {
  GenerateKey : Random -> option (list Z * list Z);
  SealAnonymous : list Z -> list Z -> Random -> option (list Z);
  OpenAnonymous : list Z -> list Z -> list Z -> option (list Z);
}.
(** A generated pair opens what is sealed to its public half; a box is bytes,
    and so is a key, of its length. *)
Class SealedBoxLaws (Random : Type) `{SealedBox Random} : Prop := {
  box_opens r r' message sealed pub priv :
    GenerateKey r = Some (pub, priv) -> SealAnonymous message pub r' = Some sealed -> OpenAnonymous sealed pub priv = Some message;
  box_bytes message pub r sealed : SealAnonymous message pub r = Some sealed -> Forall is_byte sealed;
  key_bytes r pub priv : GenerateKey r = Some (pub, priv) -> Forall is_byte pub /\ Z.of_nat (length pub) = PublicKeySize;
}.

Section Seal.
Context {Random : Type} `{SealedBox Random} (unmarshal_envelope : list Z -> option Envelope).

Definition Generate (random : Random) : result seal_error KeyPair :=
  match GenerateKey random with
  | Some (pub, priv) => Ok {| public := pub; private := priv |}
  | None => Err NoKeyPair
  end.

Definition Seal (message recipient : list Z) (random : Random) : result seal_error string :=
  match SealAnonymous message recipient random with
  | Some sealed => Ok (base64 false sealed)
  | None => Err NotSealed
  end.

Definition Open (k : KeyPair) (sealed : string) : result seal_error (list Z) :=
  match DecodeString sealed with
  | None => Err PayloadEncoding
  | Some raw =>
      match OpenAnonymous raw (public k) (private k) with
      | Some message => Ok message
      | None => Err NotOpened
      end
  end.

Definition SealPlan (plan : list Z) (envelope : Envelope) (recipient : list Z) (random : Random) : result seal_error string :=
  Seal (encode true (envelope_json envelope) ++ [10] ++ plan) recipient random.

Definition OpenPlan (k : KeyPair) (sealed : string) (want : Envelope) : result seal_error (list Z) :=
  message <-! Open k sealed;
  match cut_line message with
  | None => Err NoEnvelope
  | Some (header, plan) =>
      match unmarshal_envelope header with
      | None => Err EnvelopeUnreadable
      | Some got =>
          guard bool_decide (got = want) else OtherEnvelope;
          Ok plan
      end
  end.
End Seal.

(** * Theorems *)

(** ** Text without line breaks *)

Lemma without_breaks_none s : str_all (fun a => negb (line_break a)) s = true -> without_breaks s = s.
Proof. induction s as [|a s IH]; [done|]. simpl. destruct (line_break a); [done|]. intros Hs. by rewrite IH. Qed.

Lemma base64_char_no_break url v : 0 <= v < 64 -> line_break (base64_char url v) = false.
Proof.
  intros Hv. pose proof (base64_val_char url v Hv) as Hc. unfold base64_val, line_break in *.
  destruct (Z.eqb_spec (byte_of (base64_char url v)) 10) as [E|_]; [by rewrite E in Hc; destruct url|].
  destruct (Z.eqb_spec (byte_of (base64_char url v)) 13) as [E|_]; [by rewrite E in Hc; destruct url|done].
Qed.

Lemma sextet_bounds a b : is_byte a -> is_byte b ->
  0 <= a / 4 < 64 /\ 0 <= a mod 4 * 16 + b / 16 < 64 /\ 0 <= a mod 16 * 4 + b / 64 < 64 /\ 0 <= a mod 64 < 64.
Proof. unfold is_byte. intros. repeat split; Z.to_euclidean_division_equations; lia. Qed.

Lemma base64_no_break n : forall l, (length l <= n)%nat -> Forall is_byte l ->
  str_all (fun a => negb (line_break a)) (base64 false l) = true.
Proof.
  induction n as [|n IH]; intros [|a [|b [|c l]]] Hn Hl; try done; try (simpl in Hn; lia).
  - apply Forall_cons in Hl as [Ha _]. destruct (sextet_bounds a 0 Ha is_byte_0) as (B1 & B2 & _).
    change (0 / 16) with 0 in *. rewrite Z.add_0_r in *. cbn -[base64_char Z.div Z.modulo].
    by rewrite !base64_char_no_break.
  - apply Forall_cons in Hl as [Ha Hl]. apply Forall_cons in Hl as [Hb _].
    destruct (sextet_bounds a b Ha Hb) as (B1 & B2 & _). destruct (sextet_bounds b 0 Hb is_byte_0) as (_ & _ & B3 & _).
    change (0 / 64) with 0 in *. rewrite Z.add_0_r in *. cbn -[base64_char Z.div Z.modulo].
    by rewrite !base64_char_no_break.
  - apply Forall_cons in Hl as [Ha Hl]. apply Forall_cons in Hl as [Hb Hl]. apply Forall_cons in Hl as [Hc Hl].
    destruct (sextet_bounds a b Ha Hb) as (B1 & B2 & _). destruct (sextet_bounds b c Hb Hc) as (_ & _ & B3 & _).
    destruct (sextet_bounds c 0 Hc is_byte_0) as (_ & _ & _ & B4).
    rewrite base64_cons. cbn -[base64_char base64 Z.div Z.modulo]. rewrite !base64_char_no_break by done.
    apply IH; [simpl in Hn; lia|done].
Qed.

Lemma DecodeString_base64 l : Forall is_byte l -> DecodeString (base64 false l) = Some l.
Proof.
  intros Hl. unfold DecodeString. rewrite without_breaks_none by (by eapply base64_no_break).
  by eapply base64_decode_base64.
Qed.

(** A document has no line feed: its strings escape theirs. *)
Definition no_feed (l : list Z) : Prop := Forall (fun b => b <> 10) l.

Lemma hex_byte_no_feed v : 0 <= v < 16 -> hex_byte v <> 10.
Proof.
  intros Hv. unfold hex_byte, hex_digit, byte_of, of_byte. case_match; bool_prop; rewrite N_ascii_embedding by lia; lia.
Qed.

Lemma esc_no_feed html n : forall l, (length l <= n)%nat -> Forall is_byte l -> no_feed (esc html l).
Proof.
  unfold no_feed. induction n as [|n IH]; intros l Hn Hl; [destruct l; [constructor|simpl in Hn; lia]|].
  assert (Hone : forall b, is_byte b -> Forall (fun b => b <> 10) (esc_ascii html b)).
  { intros b Hb. unfold is_byte in Hb. unfold esc_ascii, safe_byte. repeat case_match; bool_prop; repeat constructor; try lia.
    all: apply hex_byte_no_feed; Z.to_euclidean_division_equations; lia. }
  destruct l as [|b0 l1]; [constructor|]. simpl in Hn. apply Forall_cons in Hl as [H0 Hl]. simpl esc.
  assert (IH1 := IH l1 ltac:(lia) Hl).
  destruct (b0 <? 128); [apply Forall_app; auto|].
  assert (Hbad : Forall (fun b => b <> 10) (esc_invalid ++ esc html l1)) by (apply Forall_app; split; [repeat constructor; lia|done]).
  destruct l1 as [|b1 l2]; [done|]. simpl in Hn. apply Forall_cons in Hl as [H1 Hl]. assert (IH2 := IH l2 ltac:(lia) Hl).
  destruct (rune2 b0 b1) eqn:E2.
  { unfold rune2, cont in E2. bool_prop. repeat constructor; try lia. done. }
  destruct l2 as [|b2 l3]; [done|]. simpl in Hn. apply Forall_cons in Hl as [H2 Hl]. assert (IH3 := IH l3 ltac:(lia) Hl).
  destruct (rune3 b0 b1 b2) eqn:E3.
  { apply Forall_app; split; [|done]. unfold rune3, cont in E3. unfold esc_rune3. case_match; bool_prop; repeat constructor; lia. }
  destruct l3 as [|b3 l4]; [done|]. simpl in Hn. apply Forall_cons in Hl as [H3 Hl]. assert (IH4 := IH l4 ltac:(lia) Hl).
  destruct (rune4 b0 b1 b2 b3) eqn:E4; [|done].
  unfold rune4, cont in E4. bool_prop. repeat constructor; try lia. done.
Qed.

Lemma quote_no_feed s : no_feed (quote true s).
Proof.
  unfold no_feed, quote. constructor; [lia|]. apply Forall_app. split; [|repeat constructor; lia].
  eapply esc_no_feed; [reflexivity|apply bytes_range].
Qed.
Lemma object_no_feed (fields : list (string * string)) : no_feed (encode true (JObj ((fun '(k, v) => (k, JStr v)) <$> fields))).
Proof.
  unfold no_feed. destruct fields as [|[k v] fields]; [repeat constructor; lia|]. cbn [fmap list_fmap encode].
  constructor; [lia|]. apply Forall_app. split; [apply quote_no_feed|]. constructor; [lia|]. apply Forall_app. split; [apply quote_no_feed|].
  induction fields as [|[k' v'] fields IH]; [repeat constructor; lia|]. cbn [fmap list_fmap].
  constructor; [lia|]. apply Forall_app. split; [apply quote_no_feed|]. constructor; [lia|]. apply Forall_app. by split; [apply quote_no_feed|].
Qed.
Lemma envelope_no_feed e : no_feed (encode true (envelope_json e)).
Proof. apply (object_no_feed [("operationID", OperationID e); ("jobName", JobName e)]). Qed.

Lemma cut_line_at header rest : no_feed header -> cut_line (header ++ 10 :: rest) = Some (header, rest).
Proof.
  induction 1 as [|b l Hb _ IH]; [done|]. simpl. destruct (Z.eqb_spec b 10); [done|]. by rewrite IH.
Qed.

(** ** Sealing *)

Section Theorems.
Context {Random : Type} `{SealedBoxLaws Random} (unmarshal_envelope : list Z -> option Envelope).
(** What [json.Marshal] writes is read back, when its strings are UTF-8. *)
Context (marshal_reads : forall e, utf8_str (OperationID e) = true -> utf8_str (JobName e) = true ->
  unmarshal_envelope (encode true (envelope_json e)) = Some e).

(** The key the manager puts in a Job's environment is the one the runner
    seals to. *)
Lemma public_key_decodes r k : Generate r = Ok k -> DecodePublicKey (Encode (public k)) = Ok (public k).
Proof.
  unfold Generate. destruct (GenerateKey r) as [[pub priv]|] eqn:E; [|done]. intros [= <-]. simpl.
  destruct (key_bytes r pub priv E) as [Hb Hl]. unfold DecodePublicKey, Encode. rewrite DecodeString_base64, Hl by done. simpl.
  destruct (bool_decide_reflect (base64 false pub = EmptyString)) as [Hn|]; [|done].
  apply DecodeString_base64 in Hb. rewrite Hn in Hb. injection Hb as <-. done.
Qed.

(** What is sealed for one attempt is opened by the manager that asked for
    it, as that attempt's alone: the plan comes back byte for byte, whatever
    line feeds it has, and under any other operation or Job name it is
    refused, however validly it opens. *)
Theorem sealed_plan_opens r r' k plan envelope sealed want :
  Generate r = Ok k -> utf8_str (OperationID envelope) = true -> utf8_str (JobName envelope) = true ->
  SealPlan plan envelope (public k) r' = Ok sealed ->
  OpenPlan unmarshal_envelope k sealed want = if bool_decide (envelope = want) then Ok plan else Err OtherEnvelope.
Proof.
  unfold Generate, SealPlan, Seal. intros Eg Ho Hj. pose proof (envelope_no_feed envelope) as Hf.
  pose proof (marshal_reads envelope Ho Hj) as Hm. revert Hf Hm. generalize (encode true (envelope_json envelope)) as header.
  intros header Hf Hm. destruct (GenerateKey r) as [[pub priv]|] eqn:Ek; [|done]. injection Eg as <-. simpl.
  destruct (SealAnonymous _ pub r') as [box|] eqn:Es; [|done]. intros [= <-].
  unfold OpenPlan, Open. rewrite DecodeString_base64 by (by eapply box_bytes).
  cbn [public private]. rewrite (box_opens _ _ _ _ _ _ Ek Es). simpl.
  rewrite cut_line_at, Hm by done. by case_bool_decide.
Qed.
End Theorems.

(** ** A box *)

(** A box that hides nothing, as an instance of what is relied on. *)
#[local] Instance open_box : SealedBox (list Z) := {|
  GenerateKey r := if (length r =? 32)%nat && bool_decide (Forall is_byte r) then Some (r, r) else None;
  SealAnonymous m _ _ := if bool_decide (Forall is_byte m) then Some m else None;
  OpenAnonymous m _ _ := Some m |}.
#[local] Instance open_box_laws : SealedBoxLaws (list Z).
Proof.
  split; simpl; intros.
  - by repeat case_match; simplify_eq.
  - by case_bool_decide; simplify_eq.
  - destruct (length r =? 32)%nat eqn:El; [|done]. case_bool_decide; [|done]. simplify_eq/=. split; [done|].
    apply Nat.eqb_eq in El. by rewrite El.
Qed.
#[local] Definition read_envelope (l : list Z) : option Envelope :=
  match parse l with
  | Some v =>
      match obj_values ["operationID"; "jobName"] v with
      | Some [JStr o; JStr j] => Some {| OperationID := o; JobName := j |}
      | _ => None
      end
  | None => None
  end.
#[local] Lemma read_envelope_marshal e : utf8_str (OperationID e) = true -> utf8_str (JobName e) = true ->
  read_envelope (encode true (envelope_json e)) = Some e.
Proof.
  intros Ho Hj. unfold read_envelope. rewrite parse_whole by (simpl; by rewrite Ho, Hj). by destruct e.
Qed.

#[local] Definition sample_envelope : Envelope := {| OperationID := "op-1"; JobName := "ptah-plan-orders-1" |}.
#[local] Definition sample_key : list Z := repeat 7 32.
Lemma sealed_plan_opens_witness :
  OpenPlan read_envelope {| public := sample_key; private := sample_key |}
    (base64 false (encode true (envelope_json sample_envelope) ++ [10; 123; 10; 125])) sample_envelope = Ok [123; 10; 125].
Proof.
  rewrite (sealed_plan_opens read_envelope read_envelope_marshal sample_key [] {| public := sample_key; private := sample_key |}
    [123; 10; 125] sample_envelope); [done| |done|done|vm_compute; done].
  vm_compute. done.
Defined.
