(* ===== verification/TargetLock.v ===== *)
(** * The database realm Lease (package [internal/targetlock])

    A [Locker] serializes the operations of one coordination realm through a
    [coordination.k8s.io] Lease. [Acquire] and [Release] are programs of calls
    to the API server, the clock, the random source and the Locker's own
    observation map; each call may be answered in any way, other clients may
    act between two calls, and the critical sections of the observation map
    are single calls because the code holds a mutex over them.

    [validation.IsDNS1123Label] of [k8s.io/apimachinery] is the parameter
    [isDNS1123Label]. *)
From stdpp Require Import base list gmap strings.
From Stdlib Require Import ZArith Lia Ascii.
From S2P Require Import Prelude GoStrings Sha256.
Local Open Scope go_scope.
Local Open Scope Z_scope.
(** ** Constants and data *)

(** Durations and instants are nanoseconds. *)
Definition Second : Z := 1000000000.
Definition Microsecond : Z := 1000.
Definition MinLeaseDuration : Z := 5 * Second.
Definition MaxLeaseDuration : Z := 24 * 3600 * Second + 60 * Second.

Definition leaseNamePrefix : string := "ptah-t-".
Definition maxAttempts : nat := 5.
Definition managedByLabel : string := "app.kubernetes.io/managed-by".
Definition coordinationLabel : string := "operator.ptah.run/coordination".
Definition epochAnnotation : string := "operator.ptah.run/lease-epoch".

(** The zero [time.Time], 1 January of year 1, in nanoseconds since the epoch. *)
Definition zeroTime : Z := -62135596800 * Second.

Record Holder : Type := { SchemaUID : string; OperationID : string }.

Record Request : Type := {
  CoordinationNamespace : string;
  CoordinationDigest : string;
  RequestHolder : Holder;
  Duration : Z;
  ExpectedEpoch : string;
}.

(** [Contention] is its one field, [RequeueAfter]. *)
Record AcquireResult : Type := {
  Acquired : bool;
  Contention : option Z;
  Epoch : string;
  ContinuityLost : bool;
}.

(** A Lease as the API server returns it: the metadata and spec the package
    reads or writes. A nil map reads as the empty one. *)
Record Lease : Type := {
  LeaseNamespace : string;
  LeaseNameOf : string;
  ResourceVersion : string;
  LeaseUID : string;
  Labels : gmap string string;
  Annotations : gmap string string;
  HolderIdentity : option string;
  LeaseDurationSeconds : option Z;
  AcquireTime : option Z;
  RenewTime : option Z;
  LeaseTransitions : option Z;
}.

Inductive api_error : Type := NotFound | AlreadyExists | Conflict | OtherError.

Inductive lock_error : Type :=
| ErrInvalidRequest
| ErrConcurrentUpdate
| ErrMalformedLease
| ErrEntropy
| ErrRead (e : api_error)
| ErrCreate (e : api_error)
| ErrUpdate (e : api_error).

Record validatedRequest : Type := {
  leaseName : string;
  holderIdentity : string;
  durationSeconds : Z;
  expectedEpoch : string;
}.

Record leaseRecord : Type := {
  recResourceVersion : string;
  recUID : string;
  recHolder : string;
  recDuration : Z;
  recAcquired : Z;
  recRenewed : Z;
  recTransitions : Z;
}.
#[export] Instance leaseRecord_eq_dec : EqDecision leaseRecord.
Proof. solve_decision. Defined.

(** [firstSeen] keeps the monotonic reading of the process clock. *)
Record leaseObservation : Type := { record : leaseRecord; firstSeen : Z }.

Definition namespacedName : Type := string * string.
Abbreviation observations := (gmap (string * string) leaseObservation).

(** A reading of the clock: the wall time and the monotonic component. *)
Record instant : Type := { wall : Z; monotonic : Z }.

Inductive lockE : Type -> Type :=
| GetLease (key : string * string) : lockE (result api_error Lease)
| CreateLease (l : Lease) : lockE (result api_error Lease)
| UpdateLease (l : Lease) : lockE (result api_error Lease)
| ClockNow : lockE instant
| RandRead : lockE (option (list Z))
| WithObservations (A : Type) (section : observations -> A * observations) : lockE A.
Arguments WithObservations {A} section.

(** ** Identities *)

Definition decodeSHA256 (value : string) : result lock_error (list Z) :=
  match cut ":"%char value with
  | None => Err ErrInvalidRequest
  | Some (algorithm, encoded) =>
      if negb (bool_decide (algorithm = "sha256")) || negb (len encoded =? 64) then Err ErrInvalidRequest else
      match hex_decode encoded with
      | Some digest => if (length digest =? 32)%nat then Ok digest else Err ErrInvalidRequest
      | None => Err ErrInvalidRequest
      end
  end.

Definition LeaseName (coordinationDigest : string) : result lock_error string :=
  digest <-! decodeSHA256 coordinationDigest;
  Ok (leaseNamePrefix +:+ base32_lower digest).

Definition identity (h : Holder) : result lock_error string :=
  if (len (SchemaUID h) =? 0) || (128 <? len (SchemaUID h)) ||
     (len (OperationID h) =? 0) || (256 <? len (OperationID h))
  then Err ErrInvalidRequest
  else Ok ("ptah-h-" +:+ base32_lower (sha256 (bytes (SchemaUID h) ++ [0] ++ bytes (OperationID h)))).

Definition validEpoch (value : string) : bool :=
  (len value =? 3 + 32) && has_prefix "v1-" value &&
  match hex_decode (str_drop 3 value) with Some _ => true | None => false end.

Section locker.
Context (isDNS1123Label : string -> bool).

(** [initialized] says the Locker, its reader, writer and clock are not nil. *)
Definition validate (initialized : bool) (request : Request) : result lock_error validatedRequest :=
  guard initialized else ErrInvalidRequest;
  guard (isDNS1123Label (CoordinationNamespace request)) else ErrInvalidRequest;
  name <-! LeaseName (CoordinationDigest request);
  holder <-! identity (RequestHolder request);
  guard (negb ((Duration request <? MinLeaseDuration) || (MaxLeaseDuration <? Duration request) ||
               negb (Z.rem (Duration request) Second =? 0))) else ErrInvalidRequest;
  guard (negb (negb (bool_decide (ExpectedEpoch request = EmptyString)) &&
               negb (validEpoch (ExpectedEpoch request)))) else ErrInvalidRequest;
  Ok {| leaseName := name; holderIdentity := holder;
        durationSeconds := int32_wrap (Duration request / Second);
        expectedEpoch := ExpectedEpoch request |}.
End locker.

(** ** Lease contents *)

Definition dereference (value : option string) : string := str_or_empty value.
Definition epoch_of (lease : Lease) : string := str_or_empty (Annotations lease !! epochAnnotation).

(** [l.clock.Now().UTC().Truncate(time.Microsecond)]. *)
Definition truncate_us (t : Z) : Z := t - t mod Microsecond.
Definition now_ : prog lockE Z := t <-- call ClockNow; Ret (truncate_us (wall t)).
Definition localNow : prog lockE Z := t <-- call ClockNow; Ret (monotonic t).

Definition newEpoch : prog lockE (result lock_error string) :=
  entropy <-- call RandRead;
  Ret match entropy with
      | Some b => Ok ("v1-" +:+ hex_encode b)
      | None => Err ErrEntropy
      end.

Definition newLease (namespace : string) (request : validatedRequest) (now : Z) : prog lockE (result lock_error Lease) :=
  epoch <-- newEpoch;
  Ret (epoch <-! epoch;
       Ok {| LeaseNamespace := namespace; LeaseNameOf := leaseName request;
             ResourceVersion := EmptyString; LeaseUID := EmptyString;
             Labels := {[managedByLabel := "ptah-operator"; coordinationLabel := "database-target"]};
             Annotations := {[epochAnnotation := epoch]};
             HolderIdentity := Some (holderIdentity request);
             LeaseDurationSeconds := Some (durationSeconds request);
             AcquireTime := Some now; RenewTime := Some now; LeaseTransitions := Some 0 |}).

Definition monotonicLeaseTime (now : Z) (lease : Lease) : Z :=
  match RenewTime lease with
  | Some t => if now <? t then t else
      match AcquireTime lease with
      | Some a => if now <? a then a else now
      | None => now
      end
  | None =>
      match AcquireTime lease with
      | Some a => if now <? a then a else now
      | None => now
      end
  end.

Definition with_spec (lease : Lease) (annotations : gmap string string) (holder : option string)
    (duration : option Z) (acquire renew : option Z) (transitions : option Z) : Lease :=
  {| LeaseNamespace := LeaseNamespace lease; LeaseNameOf := LeaseNameOf lease;
     ResourceVersion := ResourceVersion lease; LeaseUID := LeaseUID lease; Labels := Labels lease;
     Annotations := annotations; HolderIdentity := holder; LeaseDurationSeconds := duration;
     AcquireTime := acquire; RenewTime := renew; LeaseTransitions := transitions |}.

(** The count of transitions after an acquisition, in [int32]. *)
Definition nextTransitions (transitions : option Z) : Z :=
  match transitions with
  | Some t => if t <? max_int32 then t + 1 else 1
  | None => 1
  end.

Definition updateLease (lease : Lease) (request : validatedRequest) (now : Z) (preserveEpoch : bool) :
    prog lockE (result lock_error Lease) :=
  let now := monotonicLeaseTime now lease in
  let holder := Some (holderIdentity request) in
  let duration := Some (durationSeconds request) in
  if preserveEpoch then
    Ret (Ok (with_spec lease (Annotations lease) holder duration
               (Some (default now (AcquireTime lease))) (Some now)
               (Some (default 0 (LeaseTransitions lease)))))
  else
    epoch <-- newEpoch;
    Ret (epoch <-! epoch;
         Ok (with_spec lease (<[epochAnnotation := epoch]> (Annotations lease)) holder duration
               (Some now) (Some now) (Some (nextTransitions (LeaseTransitions lease))))).

Definition validForeignLeaseDuration (lease : Lease) : option Z :=
  seconds ← LeaseDurationSeconds lease;
  let duration := seconds * Second in
  if (duration <? MinLeaseDuration) || (MaxLeaseDuration <? duration) then None else Some duration.

Definition is_set (t : option Z) : bool :=
  match t with Some v => negb (v =? zeroTime) | None => false end.
Definition hasLeaseTimestamp (lease : Lease) : bool := is_set (RenewTime lease) || is_set (AcquireTime lease).

(** ** Observations of a foreign holder *)

Definition unix_micro (t : Z) : Z := t / Microsecond.

Definition observedLeaseRecord (lease : Lease) : leaseRecord :=
  {| recResourceVersion := ResourceVersion lease; recUID := LeaseUID lease;
     recHolder := dereference (HolderIdentity lease);
     recDuration := default 0 (LeaseDurationSeconds lease);
     recAcquired := default 0 (unix_micro <$> AcquireTime lease);
     recRenewed := default 0 (unix_micro <$> RenewTime lease);
     recTransitions := default 0 (LeaseTransitions lease) |}.

(** The critical section of [observeForeignLease]: the remaining wait, and the
    map after it. *)
Definition observe_section (key : string * string) (rec : leaseRecord) (duration now : Z)
    (obs : observations) : Z * observations :=
  match obs !! key with
  | None => (duration, <[key := {| record := rec; firstSeen := now |}]> obs)
  | Some o =>
      if negb (bool_decide (record o = rec)) || (now <? firstSeen o)
      then (duration, <[key := {| record := rec; firstSeen := now |}]> obs)
      else
        let elapsed := now - firstSeen o in
        if elapsed <? duration then (duration - elapsed, obs) else (0, delete key obs)
  end.

Definition observeForeignLease (key : string * string) (lease : Lease) (duration now : Z) : prog lockE Z :=
  call (WithObservations (observe_section key (observedLeaseRecord lease) duration now)).

Definition forgetObservation (key : string * string) : prog lockE unit :=
  call (WithObservations (fun obs => (tt, delete key obs))).

(** ** Acquire *)

Definition acquired (epoch : string) (continuityLost : bool) : AcquireResult :=
  {| Acquired := true; Contention := None; Epoch := epoch; ContinuityLost := continuityLost |}.
Definition contended (remaining : Z) : AcquireResult :=
  {| Acquired := false; Contention := Some remaining; Epoch := EmptyString; ContinuityLost := false |}.

Definition acquire_answer : Type := result lock_error AcquireResult.

(** The last part of an attempt: the compare-and-swap that takes or renews a
    Lease the checks admitted. [again] is the next attempt. *)
Definition take_lease (key : string * string) (v : validatedRequest) (lease : Lease)
    (again : prog lockE acquire_answer) : prog lockE acquire_answer :=
  let currentHolder := dereference (HolderIdentity lease) in
  let currentEpoch := epoch_of lease in
  let sameHolder := bool_decide (currentHolder = holderIdentity v) in
  let expected := expectedEpoch v in
  let continuous := sameHolder && validEpoch currentEpoch &&
    (bool_decide (expected = EmptyString) || bool_decide (currentEpoch = expected)) in
  let continuityLost := negb (bool_decide (expected = EmptyString)) && negb continuous in
  now <-- now_;
  updated <-- updateLease lease v now (sameHolder && validEpoch currentEpoch);
  match updated with
  | Err e => Ret (Err e)
  | Ok lease' =>
      answer <-- call (UpdateLease lease');
      match answer with
      | Ok stored =>
          forgetObservation key;;;
          Ret (Ok (acquired (epoch_of stored) continuityLost))
      | Err Conflict | Err NotFound => again
      | Err e => Ret (Err (ErrUpdate e))
      end
  end.

(** Whether the current holder is somebody else. *)
Definition foreign_held (v : validatedRequest) (lease : Lease) : bool :=
  let currentHolder := dereference (HolderIdentity lease) in
  negb (bool_decide (currentHolder = EmptyString)) && negb (bool_decide (currentHolder = holderIdentity v)).

Fixpoint acquire_loop (attempts : nat) (key : string * string) (v : validatedRequest) :
    prog lockE acquire_answer :=
  match attempts with
  | O => Ret (Err ErrConcurrentUpdate)
  | S attempts' =>
      let again := acquire_loop attempts' key v in
      got <-- call (GetLease key);
      match got with
      | Err NotFound =>
          forgetObservation key;;;
          now <-- now_;
          made <-- newLease key.1 v now;
          match made with
          | Err e => Ret (Err e)
          | Ok lease =>
              answer <-- call (CreateLease lease);
              match answer with
              | Ok stored =>
                  Ret (Ok (acquired (epoch_of stored) (negb (bool_decide (expectedEpoch v = EmptyString)))))
              | Err AlreadyExists | Err Conflict => again
              | Err e => Ret (Err (ErrCreate e))
              end
          end
      | Err e => Ret (Err (ErrRead e))
      | Ok lease =>
          if foreign_held v lease then
            match validForeignLeaseDuration lease with
            | None => Ret (Err ErrMalformedLease)
            | Some duration =>
                if negb (hasLeaseTimestamp lease) then Ret (Err ErrMalformedLease) else
                local <-- localNow;
                remaining <-- observeForeignLease key lease duration local;
                if 0 <? remaining then Ret (Ok (contended remaining))
                else take_lease key v lease again
            end
          else forgetObservation key;;; take_lease key v lease again
      end
  end.

Definition Acquire (isDNS1123Label : string -> bool) (initialized : bool) (request : Request) :
    prog lockE acquire_answer :=
  match validate isDNS1123Label initialized request with
  | Err e => Ret (Err e)
  | Ok v => acquire_loop maxAttempts (CoordinationNamespace request, leaseName v) v
  end.

(** ** Release *)

Fixpoint release_loop (attempts : nat) (key : string * string) (v : validatedRequest) :
    prog lockE (result lock_error unit) :=
  match attempts with
  | O => Ret (Err ErrConcurrentUpdate)
  | S attempts' =>
      got <-- call (GetLease key);
      match got with
      | Err NotFound => forgetObservation key;;; Ret (Ok tt)
      | Err e => Ret (Err (ErrRead e))
      | Ok lease =>
          if negb (bool_decide (dereference (HolderIdentity lease) = holderIdentity v)) ||
             negb (bool_decide (epoch_of lease = expectedEpoch v))
          then Ret (Ok tt)
          else
            now <-- now_;
            let now := monotonicLeaseTime now lease in
            answer <-- call (UpdateLease
              (with_spec lease (Annotations lease) (Some EmptyString) (LeaseDurationSeconds lease)
                 (AcquireTime lease) (Some now) (LeaseTransitions lease)));
            match answer with
            | Ok _ => forgetObservation key;;; Ret (Ok tt)
            | Err Conflict | Err NotFound => release_loop attempts' key v
            | Err e => Ret (Err (ErrUpdate e))
            end
      end
  end.

Definition Release (isDNS1123Label : string -> bool) (initialized : bool) (request : Request) :
    prog lockE (result lock_error unit) :=
  match validate isDNS1123Label initialized request with
  | Err e => Ret (Err e)
  | Ok v =>
      if bool_decide (expectedEpoch v = EmptyString) then Ret (Err ErrInvalidRequest)
      else release_loop maxAttempts (CoordinationNamespace request, leaseName v) v
  end.

(** * Lemmas and properties *)

Lemma decodeSHA256_spec d l : decodeSHA256 d = Ok l -> Forall is_byte l /\ length l = 32%nat.
Proof.
  unfold decodeSHA256. intros H. follow H. simplify_eq.
  split; [by eapply hex_decode_range|by apply Nat.eqb_eq].
Qed.

(** Lease names identify coordination realms: a name is the prefix and 52
    characters of [a-z2-7], so it is a DNS label of 59 characters, and two
    digests have one name exactly when they decode to the same 32 bytes. *)
Theorem LeaseName_identifies (d d' n n' : string) (l l' : list Z) :
  decodeSHA256 d = Ok l -> decodeSHA256 d' = Ok l' -> LeaseName d = Ok n -> LeaseName d' = Ok n' ->
  (n = n' <-> l = l') /\ len n = 59 /\
  exists suffix, n = leaseNamePrefix +:+ suffix /\ str_all is_base32_char suffix = true.
Proof.
  intros Hl Hl' Hn Hn'. unfold LeaseName in *. rewrite Hl in Hn. rewrite Hl' in Hn'. simpl in Hn, Hn'.
  apply decodeSHA256_spec in Hl as [Hb Hlen], Hl' as [Hb' Hlen'].
  injection Hn as <-. injection Hn' as <-. split; [split|split].
  - intros [_ H]%str_app_inv; [|done]. apply base32_lower_inj; auto; congruence.
  - by intros ->.
  - unfold len. rewrite str_app_length. unfold base32_lower.
    rewrite (base32_bits_length _ _ (Nat.le_refl _)), bits_length, Hlen. done.
  - eexists. split; [done|]. apply (base32_bits_class _ _ (Nat.le_refl _)).
Qed.

(** Upper and lower case hexadecimal digits name one realm. *)
Definition sample_digest : string := "sha256:00000000000000000000000000000000000000000000000000000000000000ff".
Definition sample_digest' : string := "sha256:00000000000000000000000000000000000000000000000000000000000000FF".
Definition sample_name : string := Eval vm_compute in leaseNamePrefix +:+ base32_lower (replicate 31 0 ++ [255]).

Lemma LeaseName_identifies_witness :
  LeaseName sample_digest = Ok sample_name /\ LeaseName sample_digest' = Ok sample_name /\
  sample_digest <> sample_digest' /\ len sample_name = 59.
Proof.
  split; [vm_compute; reflexivity|]. split; [vm_compute; reflexivity|]. split; [by intros [=]|].
  apply (LeaseName_identifies sample_digest sample_digest' sample_name sample_name
    (replicate 31 0 ++ [255]) (replicate 31 0 ++ [255])); vm_compute; reflexivity.
Defined.

(** ** The log of a call

    The reads and the writes of one call, newest first, whatever the server
    answers. *)
Inductive lock_log : Type :=
| LogRead (l : Lease)
| LogAbsent
| LogCreated (l stored : Lease)
| LogUpdated (l stored : Lease)
| LogRefused (l : Lease)
| LogReadFailed.

Definition log_of {X} (e : lockE X) : X -> list lock_log :=
  match e in lockE X return X -> list lock_log with
  | GetLease _ => fun a => match a with Ok l => [LogRead l] | Err NotFound => [LogAbsent] | Err _ => [LogReadFailed] end
  | CreateLease l => fun a => match a with Ok st => [LogCreated l st] | Err _ => [LogRefused l] end
  | UpdateLease l => fun a => match a with Ok st => [LogUpdated l st] | Err _ => [LogRefused l] end
  | _ => fun _ => []
  end.

(** Any answer to any call, and the call logged. *)
Definition any_answer (X : Type) (e : lockE X) (g : list lock_log) (x : X) (g' : list lock_log) : Prop :=
  g' = log_of e x ++ g.
Definition log_spec : espec lockE (list lock_log) :=
  {| pre := fun _ _ _ => True; post := any_answer |}.

(** What an acquisition that succeeded did last: it created the Lease, or it
    replaced the record it had just read. *)
Definition acquired_by (v : validatedRequest) (r : AcquireResult) (log : list lock_log) : Prop :=
  match log with
  | LogCreated l stored :: LogAbsent :: _ =>
      HolderIdentity l = Some (holderIdentity v) /\ Epoch r = epoch_of stored /\
      (ContinuityLost r = true <-> expectedEpoch v <> EmptyString)
  | LogUpdated l stored :: LogRead read :: _ =>
      HolderIdentity l = Some (holderIdentity v) /\ Epoch r = epoch_of stored /\
      ResourceVersion l = ResourceVersion read /\
      (expectedEpoch v <> EmptyString -> ContinuityLost r = false ->
         dereference (HolderIdentity read) = holderIdentity v /\
         epoch_of read = expectedEpoch v /\ epoch_of l = expectedEpoch v) /\
      (dereference (HolderIdentity read) <> holderIdentity v ->
         exists b, epoch_of l = "v1-" +:+ hex_encode b)
  | _ => False
  end.
(** What a contended answer saw last: a live record of somebody else. *)
Definition contended_by (v : validatedRequest) (r : AcquireResult) (log : list lock_log) : Prop :=
  match log with
  | LogRead read :: _ =>
      foreign_held v read = true /\ exists remaining, Contention r = Some remaining /\ 0 < remaining
  | _ => False
  end.
Definition acquire_post (v : validatedRequest) (a : acquire_answer) (log : list lock_log) : Prop :=
  match a with
  | Ok r => if Acquired r then acquired_by v r log else contended_by v r log
  | Err _ => True
  end.

Lemma wp_take_lease_log key v read again g :
  (forall g', wp log_spec again (acquire_post v) g') ->
  wp log_spec (take_lease key v read again) (acquire_post v) (LogRead read :: g).
Proof.
  intros Hagain. unfold take_lease. cbn [pbind now_ call].
  split; [done|]. intros t g1 ->. cbn [app log_of]. apply wp_bind.
  set (keep := bool_decide _ && validEpoch _).
  apply (wp_mono _ _ (fun r g' => g' = LogRead read :: g /\
    match r with
    | Ok l => HolderIdentity l = Some (holderIdentity v) /\ ResourceVersion l = ResourceVersion read /\
              if keep then epoch_of l = epoch_of read else exists b, epoch_of l = "v1-" +:+ hex_encode b
    | Err _ => True
    end)).
  2: { unfold updateLease. destruct keep; cbn; [done|]. split; [done|].
       intros [b|] g2 ->; cbn; [|done]. split; [done|]. repeat split. exists b.
       unfold epoch_of. cbn. by rewrite lookup_insert_eq. }
  intros [l|e] g2 [-> Hl]; [|done]. destruct Hl as (Hh & Hrv & Hep).
  cbn [pbind call]. split; [done|]. intros a g3 ->.
  destruct a as [stored|[| | |]]; cbn [log_of app]; [|by apply Hagain|done|by apply Hagain|done].
  cbn. split; [done|]. intros [] g4 ->. cbn. split; [done|]. split; [done|]. split; [done|].
  unfold keep in *. clear keep. split.
  - intros Hne. rewrite bool_decide_eq_false_2 by done. cbn. intros Hc.
    apply negb_false_iff, andb_true_iff in Hc as [Hsame Hexp]. rewrite Hsame in Hep.
    bool_prop.
    split; [done|]. split; [done|]. congruence.
  - intros Hne. by rewrite bool_decide_eq_false_2 in Hep.
Qed.

Lemma wp_acquire_log n key v : forall g, wp log_spec (acquire_loop n key v) (acquire_post v) g.
Proof.
  induction n as [|n IH]; intros g; [done|]. cbn [acquire_loop]. split; [done|].
  intros a g1 ->. cbn [pbind]. destruct a as [read|[| | |]]; cbn [log_of app]; try done.
  - destruct (foreign_held v read) eqn:Hf.
    + destruct (validForeignLeaseDuration read) as [d|]; [|done].
      destruct (negb (hasLeaseTimestamp read)); [done|].
      cbn. split; [done|]. intros i g2 ->. cbn. split; [done|]. intros rem g3 ->. cbn.
      destruct (0 <? rem) eqn:Hrem; [|by apply wp_take_lease_log].
      cbn. bool_prop. eauto.
    + cbn. split; [done|]. intros [] g2 ->. by apply wp_take_lease_log.
  - cbn. split; [done|]. intros [] g2 ->. cbn. split; [done|]. intros t g3 ->. cbn. split; [done|].
    intros [b|] g4 ->; cbn; [|done]. split; [done|]. intros ans g5 ->.
    destruct ans as [stored|[| | |]]; cbn; [|done|apply IH|apply IH|done].
    split; [done|]. split; [done|]. case_bool_decide; simpl; split; [done|done|done|done].
Qed.

(** What [Acquire] reports is what it did. When it reports the Lease
    acquired, its last write installed the caller as holder: either it created
    the Lease after reading that none exists, or it replaced exactly the record
    it had just read (by its resourceVersion). If the caller expected an epoch
    and no loss of continuity is reported, then that record was the caller's
    own, under that epoch, and the write kept the epoch; a record of another
    holder is only ever replaced under a newly drawn epoch. When it reports
    contention, it had just read a record of another holder, and asks for a
    positive wait. This holds for every way the API server, the clock and the
    random source may answer. *)
Theorem acquire_reports (isDNS1123Label : string -> bool) (initialized : bool) (request : Request)
    (v : validatedRequest) (a : acquire_answer) (log : list lock_log) :
  validate isDNS1123Label initialized request = Ok v ->
  exec any_answer (Acquire isDNS1123Label initialized request) [] a log ->
  acquire_post v a log.
Proof.
  intros Hv Hex. unfold Acquire in Hex. rewrite Hv in Hex.
  eapply (wp_exec log_spec); [|exact Hex|apply wp_acquire_log]. done.
Qed.

(** An acquisition that finds no Lease and creates it. *)
Definition sample_lock_request : Request :=
  {| CoordinationNamespace := "ptah-system"; CoordinationDigest := sample_digest;
     RequestHolder := {| SchemaUID := "uid-1"; OperationID := "op-a" |};
     Duration := 30 * Second; ExpectedEpoch := EmptyString |}.
Definition sample_holder : string := Eval vm_compute in
  match identity (RequestHolder sample_lock_request) with Ok h => h | Err _ => EmptyString end.
Definition sample_validated : validatedRequest :=
  {| leaseName := sample_name; holderIdentity := sample_holder; durationSeconds := 30;
     expectedEpoch := EmptyString |}.
(** The Lease a first acquisition at time zero creates, all entropy zero. *)
Definition sample_lease : Lease :=
  {| LeaseNamespace := "ptah-system"; LeaseNameOf := sample_name;
     ResourceVersion := EmptyString; LeaseUID := EmptyString;
     Labels := {[managedByLabel := "ptah-operator"; coordinationLabel := "database-target"]};
     Annotations := {[epochAnnotation := "v1-00000000000000000000000000000000"]};
     HolderIdentity := Some sample_holder; LeaseDurationSeconds := Some 30;
     AcquireTime := Some 0; RenewTime := Some 0; LeaseTransitions := Some 0 |}.

Lemma acquire_reports_witness :
  acquire_post sample_validated (Ok (acquired (epoch_of sample_lease) false))
    [LogCreated sample_lease sample_lease; LogAbsent].
Proof.
  apply (acquire_reports (fun _ => true) true sample_lock_request); [vm_compute; reflexivity|].
  exists (Err NotFound), [LogAbsent]. split; [done|].
  exists tt, [LogAbsent]. split; [done|].
  exists {| wall := 0; monotonic := 0 |}, [LogAbsent]. split; [done|].
  exists (Some (replicate 16 0)), [LogAbsent]. split; [done|].
  exists (Ok sample_lease), [LogCreated sample_lease sample_lease; LogAbsent].
  split; [|split; reflexivity]. vm_compute. reflexivity.
Defined.

(** ** Updates of a record *)

Lemma monotonicLeaseTime_ge now lease :
  now <= monotonicLeaseTime now lease /\
  (forall t, RenewTime lease = Some t -> t <= monotonicLeaseTime now lease).
Proof.
  unfold monotonicLeaseTime. destruct (RenewTime lease) as [r|], (AcquireTime lease) as [a|];
    repeat case_goal; bool_prop; split; try lia; intros t [= <-]; lia.
Qed.

(** A record's transition count is an [int32] that is not negative. *)
Definition transitions_ok (lease : Lease) : Prop :=
  forall t, LeaseTransitions lease = Some t -> 0 <= t <= max_int32.

(** What [updateLease] writes, for every clock and every entropy: the
    caller as holder with its duration; a renew time that is never before the
    clock's nor the previous renew time; a transition count that stays within
    [int32], is kept by a renewal and changed by every other acquisition; and
    an epoch that is kept by a renewal and replaced otherwise. Name,
    resourceVersion, labels and the other annotations are those read. *)
Theorem updateLease_bounds (lease lease' : Lease) (v : validatedRequest) (now : Z) (preserve : bool)
    (log : list lock_log) :
  transitions_ok lease ->
  exec any_answer (updateLease lease v now preserve) [] (Ok lease') log ->
  transitions_ok lease' /\ HolderIdentity lease' = Some (holderIdentity v) /\
  LeaseDurationSeconds lease' = Some (durationSeconds v) /\
  (exists t, RenewTime lease' = Some t /\ now <= t /\ forall r, RenewTime lease = Some r -> r <= t) /\
  (LeaseNamespace lease', LeaseNameOf lease', ResourceVersion lease', LeaseUID lease', Labels lease') =
  (LeaseNamespace lease, LeaseNameOf lease, ResourceVersion lease, LeaseUID lease, Labels lease) /\
  delete epochAnnotation (Annotations lease') = delete epochAnnotation (Annotations lease) /\
  if preserve
  then epoch_of lease' = epoch_of lease /\
       default 0 (LeaseTransitions lease') = default 0 (LeaseTransitions lease)
  else (exists b, epoch_of lease' = "v1-" +:+ hex_encode b) /\
       LeaseTransitions lease' <> LeaseTransitions lease.
Proof.
  intros Htr. unfold updateLease. destruct (monotonicLeaseTime_ge now lease) as [Hnow Hrenew].
  destruct preserve; cbn.
  - intros [[= ->] _]. split; [|cbn; repeat split; eauto].
    intros t [= <-]. destruct (LeaseTransitions lease) as [t|] eqn:E; [by apply Htr|cbn; unfold max_int32; lia].
  - intros (entropy & g & _ & Hr). destruct entropy as [b|]; cbn in Hr; [|by destruct Hr].
    destruct Hr as [[= ->] _]. split; [|cbn; repeat split; eauto].
    + intros t [= <-]. unfold nextTransitions. destruct (LeaseTransitions lease) as [t|] eqn:E;
        [specialize (Htr t E); case_goal; bool_prop|]; unfold max_int32 in *; lia.
    + by rewrite delete_insert_eq.
    + exists b. unfold epoch_of. cbn. by rewrite lookup_insert_eq.
    + unfold nextTransitions. destruct (LeaseTransitions lease) as [t|] eqn:E; [|done].
      intros [= Ht]. specialize (Htr t E). case_hyp Ht; bool_prop; unfold max_int32 in *; lia.
Qed.

(** At the largest count the next acquisition starts again at one. *)
Definition worn_lease : Lease :=
  with_spec sample_lease (Annotations sample_lease) (Some "other") (Some 30) (Some 5) (Some 7) (Some max_int32).
Definition worn_after : Lease :=
  with_spec worn_lease (Annotations sample_lease) (Some sample_holder) (Some 30) (Some 7) (Some 7) (Some 1).

Lemma updateLease_bounds_witness :
  transitions_ok worn_after /\ LeaseTransitions worn_after <> LeaseTransitions worn_lease.
Proof.
  assert (H : transitions_ok worn_lease) by (intros t [= <-]; unfold max_int32; lia).
  destruct (updateLease_bounds worn_lease worn_after sample_validated 0 false [] H) as (H1 & H2).
  - exists (Some (replicate 16 0)), []. split; [done|]. split; [|done]. vm_compute. reflexivity.
  - split; [exact H1|]. apply H2.
Defined.

(** ** Release *)

Definition owned (v : validatedRequest) (lease : Lease) : Prop :=
  dereference (HolderIdentity lease) = holderIdentity v /\ epoch_of lease = expectedEpoch v.

(** [l] is [read] with its holder cleared and a later renew time. *)
Definition releases (v : validatedRequest) (read l : Lease) : Prop :=
  exists t, l = with_spec read (Annotations read) (Some EmptyString) (LeaseDurationSeconds read)
                  (AcquireTime read) (Some t) (LeaseTransitions read) /\
  forall r, RenewTime read = Some r -> r <= t.

Definition write_of (entry : lock_log) : option Lease :=
  match entry with
  | LogCreated l _ | LogUpdated l _ | LogRefused l => Some l
  | _ => None
  end.

(** Every write of the log replaces an own record, read just before it. *)
Fixpoint releases_only (v : validatedRequest) (log : list lock_log) : Prop :=
  match log with
  | [] => True
  | entry :: rest =>
      releases_only v rest /\
      forall l, write_of entry = Some l ->
        exists read before, rest = LogRead read :: before /\ owned v read /\ releases v read l
  end.

Definition released (v : validatedRequest) (log : list lock_log) : Prop :=
  match log with
  | LogAbsent :: _ => True
  | LogRead read :: _ => ~ owned v read
  | LogUpdated _ _ :: _ => True
  | _ => False
  end.

Definition release_post (v : validatedRequest) (a : result lock_error unit) (log : list lock_log) : Prop :=
  releases_only v log /\ (a = Ok tt -> released v log).

Lemma wp_release_log n key v : forall g,
  releases_only v g -> wp log_spec (release_loop n key v) (release_post v) g.
Proof.
  induction n as [|n IH]; intros g Hg; [by split|]. cbn [release_loop]. split; [done|].
  intros a g1 ->. cbn [pbind]. destruct a as [read|[| | |]]; cbn [log_of app].
  2: { cbn. split; [done|]. intros [] g2 ->. by repeat split. }
  2-4: by repeat split.
  destruct (_ || _) eqn:Hown.
  - cbn. split; [by repeat split|]. intros _ [H1 H2]. apply orb_true_iff in Hown as [H|H]; bool_prop; auto.
  - cbn [pbind now_ call]. split; [done|]. intros t g2 ->. cbn [log_of app pbind]. split; [done|].
    intros ans g3 ->. bool_prop.
    assert (Hrel : forall l, releases v read l ->
      exists read0 before, LogRead read :: g = LogRead read0 :: before /\ owned v read0 /\ releases v read0 l)
      by (intros l Hl; by exists read, g).
    set (l := with_spec _ _ _ _ _ _ _). assert (Hl : releases v read l)
      by (eexists; split; [done|]; apply monotonicLeaseTime_ge).
    destruct ans as [stored|[| | |]]; cbn [log_of app].
    + cbn. split; [done|]. intros [] g4 ->. split; [|done]. repeat split; [done|done|]. intros ? [= <-]. auto.
    + apply IH. repeat split; [done|done|]. intros ? [= <-]. auto.
    + repeat split; [done|done| |done]. intros ? [= <-]. auto.
    + apply IH. repeat split; [done|done|]. intros ? [= <-]. auto.
    + repeat split; [done|done| |done]. intros ? [= <-]. auto.
Qed.

(** [Release] never touches a Lease that is not the caller's. Whatever the
    API server answers, every write it sends replaces (by resourceVersion) the
    record it read immediately before, that record names the caller's holder
    and the caller's epoch, and the write only clears the holder and moves the
    renew time forward. When it reports success, the Lease was gone, was read
    under another holder or epoch, or was cleared. *)
Theorem release_only_own (isDNS1123Label : string -> bool) (initialized : bool) (request : Request)
    (v : validatedRequest) (a : result lock_error unit) (log : list lock_log) :
  validate isDNS1123Label initialized request = Ok v ->
  exec any_answer (Release isDNS1123Label initialized request) [] a log ->
  releases_only v log /\ (a = Ok tt -> released v log).
Proof.
  intros Hv Hex. unfold Release in Hex. rewrite Hv in Hex.
  destruct (bool_decide _); [destruct Hex as [-> ->]; by split|].
  change (release_post v a log). eapply (wp_exec log_spec); [|exact Hex|by apply wp_release_log]. done.
Qed.

Definition sample_release : Request :=
  {| CoordinationNamespace := "ptah-system"; CoordinationDigest := sample_digest;
     RequestHolder := RequestHolder sample_lock_request; Duration := 30 * Second;
     ExpectedEpoch := "v1-00000000000000000000000000000000" |}.
Definition sample_cleared : Lease :=
  with_spec sample_lease (Annotations sample_lease) (Some EmptyString) (Some 30) (Some 0) (Some 9000) (Some 0).

Definition sample_release_validated : validatedRequest :=
  {| leaseName := sample_name; holderIdentity := sample_holder; durationSeconds := 30;
     expectedEpoch := "v1-00000000000000000000000000000000" |}.

Lemma release_only_own_witness :
  releases_only sample_release_validated [LogUpdated sample_cleared sample_cleared; LogRead sample_lease].
Proof.
  refine (proj1 (release_only_own (fun _ => true) true sample_release sample_release_validated (Ok tt) _ _ _));
    [vm_compute; reflexivity|].
  assert (Hv : validate (fun _ => true) true sample_release = Ok sample_release_validated) by (vm_compute; reflexivity).
  unfold Release. rewrite Hv.
  exists (Ok sample_lease), [LogRead sample_lease]. split; [done|].
  exists {| wall := 9500; monotonic := 0 |}, [LogRead sample_lease]. split; [done|].
  exists (Ok sample_cleared), [LogUpdated sample_cleared sample_cleared; LogRead sample_lease].
  split; [vm_compute; reflexivity|].
  exists tt, [LogUpdated sample_cleared sample_cleared; LogRead sample_lease]. split; [done|by split].
Defined.

(** ** The realm Lease is never waited for (package [internal/targetlock])

    [Acquire] and [Release] run their loops a bounded number of times: however
    the API server, the clocks and the source of randomness answer, and
    however often a write loses its race, each returns, and after a number of
    calls that is known beforehand. *)

(** Calls counted while a program runs, all of them and the writes. *)
Definition is_write (X : Type) (e : lockE X) : bool :=
  match e with CreateLease _ => true | UpdateLease _ => true | _ => false end.
Definition counting {S : Type} (server : forall X, lockE X -> S -> X * S) (X : Type) (e : lockE X) (s : S * (nat * nat)) : X * (S * (nat * nat)) :=
  let '(s, (calls, writes)) := s in
  let '(x, s') := server X e s in
  (x, (s', (Datatypes.S calls, (writes + if is_write X e then 1 else 0)%nat))).

(** At most so many calls and writes, whatever they are answered with. *)
Fixpoint within {A} (calls writes : nat) (p : prog lockE A) {struct p} : Prop :=
  match p with
  | Ret _ => True
  | Vis e k =>
      match calls with
      | O => False
      | S calls' =>
          if is_write _ e then match writes with O => False | S writes' => forall x, within calls' writes' (k x) end
          else forall x, within calls' writes (k x)
      end
  end.

Lemma within_more {A} (p : prog lockE A) : forall c w c' w', within c w p -> (c <= c')%nat -> (w <= w')%nat -> within c' w' p.
Proof.
  induction p as [a|X e k IH]; intros c w c' w' H Hc Hw; [done|]. destruct c as [|c]; [done|]. destruct c' as [|c']; [lia|].
  cbn [within] in *. destruct (is_write X e).
  - destruct w as [|w]; [contradiction|]. destruct w' as [|w']; [lia|]. intros x. eapply IH; [apply H|lia|lia].
  - intros x. eapply IH; [apply H|lia|lia].
Qed.
Lemma within_run {A S} (server : forall X, lockE X -> S -> X * S) (p : prog lockE A) : forall c w s n m,
  within c w p ->
  let counts := (run (counting server) p (s, (n, m))).2.2 in (counts.1 <= n + c)%nat /\ (counts.2 <= m + w)%nat.
Proof.
  induction p as [a|X e k IH]; intros c w s n m H; [cbn; lia|]. destruct c as [|c]; [done|]. cbn [within] in H.
  cbn [run counting]. destruct (server X e s) as [x s'].
  destruct (is_write X e).
  - destruct w as [|w]; [contradiction|]. destruct (IH x _ _ s' (Datatypes.S n) (m + 1)%nat (H x)) as [H1 H2]. cbn in *. lia.
  - destruct (IH x _ _ s' (Datatypes.S n) (m + 0)%nat (H x)) as [H1 H2]. cbn in *. lia.
Qed.

(** An attempt's last part: the clock, an epoch, the write, and the forgotten
    observation, which is only of a last attempt. *)
Lemma within_take key v lease again c w :
  within c w again -> (1 <= c)%nat -> within (3 + c) (1 + w) (take_lease key v lease again).
Proof.
  intros Ha Hc. destruct c as [|c]; [lia|]. unfold take_lease. intros now. unfold updateLease.
  assert (Hwrite : forall l k, within (S (S c)) (1 + w) (pbind (call (UpdateLease l)) (fun answer =>
    match answer with
    | Ok stored => pbind (forgetObservation key) (fun _ => Ret (Ok (acquired (epoch_of stored) k)))
    | Err Conflict | Err NotFound => again
    | Err e => Ret (Err (ErrUpdate e))
    end))).
  { intros l k answer. destruct answer as [stored|[| | |]]; cbn; [done|by eapply within_more|done|by eapply within_more|done]. }
  destruct (_ && _); [eapply within_more; [apply Hwrite|lia|lia]|]. intros [entropy|]; [apply Hwrite|done].
Qed.

Lemma within_acquire n key v : within (S (6 * n)) n (acquire_loop n key v).
Proof.
  induction n as [|n IH]; [done|]. replace (6 * S n)%nat with (6 + 6 * n)%nat by lia. cbn [acquire_loop].
  intros got. cbn [pbind]. destruct got as [lease|[| | |]]; [|intros u now; cbn [pbind]|done..].
  - destruct (foreign_held v lease); [destruct (validForeignLeaseDuration lease); [|done]; destruct (negb _); [done|]|].
    + intros local. cbn [pbind]. intros remaining. cbn [pbind]. destruct (0 <? remaining); [done|]. apply within_take; [done|lia].
    + intros u. cbn [pbind]. eapply within_more; [apply within_take; [exact IH|lia]|lia|lia].
  - intros [entropy|]; [|done]. intros answer. cbn [pbind]. destruct answer as [stored|[| | |]]; cbn; try done; eapply within_more; try exact IH; lia.
Qed.
Lemma within_release n key v : within (S (3 * n)) n (release_loop n key v).
Proof.
  induction n as [|n IH]; [done|]. replace (3 * S n)%nat with (3 + 3 * n)%nat by lia. cbn [release_loop].
  intros got. cbn [pbind]. destruct got as [lease|[| | |]]; [|done..]. destruct (_ || _); [done|].
  intros now. cbn [pbind]. intros answer. cbn [pbind]. destruct answer as [stored|[| | |]]; cbn; try done; eapply within_more; try exact IH; lia.
Qed.

(** C35: [Acquire] and [Release] always return, and soon: against any server
    and any clock, [Acquire] is done after at most five writes and thirty-one
    calls of any kind, [Release] after at most five writes and sixteen. A
    contended or racing Lease never holds up a reconcile, and a request that
    is not valid calls nothing. *)
Theorem lock_always_returns {S : Type} (server : forall X, lockE X -> S -> X * S) (s : S)
    (isDNS1123Label : string -> bool) (initialized : bool) (request : Request) :
  let '(_, (_, (calls, writes))) := run (counting server) (Acquire isDNS1123Label initialized request) (s, (0, 0)%nat) in
  let '(_, (_, (calls', writes'))) := run (counting server) (Release isDNS1123Label initialized request) (s, (0, 0)%nat) in
  ((calls <= 31 /\ writes <= 5 /\ calls' <= 16 /\ writes' <= 5)%nat) /\
  (is_ok (validate isDNS1123Label initialized request) = true \/ (calls = 0 /\ calls' = 0)%nat).
Proof.
  assert (Ha : within 31 5 (Acquire isDNS1123Label initialized request)).
  { unfold Acquire. destruct (validate _ _ _); [apply (within_acquire 5)|done]. }
  assert (Hr : within 16 5 (Release isDNS1123Label initialized request)).
  { unfold Release. destruct (validate _ _ _); [|done]. case_bool_decide; [done|apply (within_release 5)]. }
  apply (within_run server _ _ _ s 0 0) in Ha, Hr. cbv zeta in Ha, Hr.
  assert (Hinvalid : is_ok (validate isDNS1123Label initialized request) = true \/
    ((run (counting server) (Acquire isDNS1123Label initialized request) (s, (0, 0)%nat)).2.2.1 = 0%nat /\
    (run (counting server) (Release isDNS1123Label initialized request) (s, (0, 0)%nat)).2.2.1 = 0%nat)).
  { unfold Acquire, Release. destruct (validate _ _ _); [by left|by right]. }
  destruct (run _ (Acquire _ _ _) _) as [a [s1 [calls writes]]]. destruct (run _ (Release _ _ _) _) as [b [s2 [calls' writes']]].
  cbn in *. split; [lia|exact Hinvalid].
Qed.
