(* ===== verification/TargetLockSafety.v ===== *)
(** * Mutual exclusion of the realm Lease

    Any number of Lockers, each in its own process, run any number of
    [Acquire] and [Release] calls against one API server. The calls interleave
    at every API request, a process may stop and start again at any point, a
    write may take effect while its answer is lost, and wall clocks may read
    anything. The theorem is that nobody takes a Lease from a live holder
    early: a write that changes a non-empty holder into another one is made at
    least the recorded lease duration after the record it replaces was
    written.

    The API server is the parameter [server] with the documented laws of
    optimistic concurrency ([LeaseServer]): a create succeeds only where
    nothing stands, an update only against the resourceVersion it carries, and
    a resourceVersion is never used twice. *)
From stdpp Require Import base list gmap strings pretty.
From Stdlib Require Import ZArith Lia.
From S2P Require Import Prelude GoStrings Sha256 TargetLock.
Local Open Scope Z_scope.

Definition lease_key (l : Lease) : string * string := (LeaseNamespace l, LeaseNameOf l).

(** What the server keeps of an object it is asked to write: everything but
    the resourceVersion and the UID it assigns. *)
Definition same_content (l stored : Lease) : Prop :=
  lease_key stored = lease_key l /\ Annotations stored = Annotations l /\
  HolderIdentity stored = HolderIdentity l /\ LeaseDurationSeconds stored = LeaseDurationSeconds l /\
  LeaseTransitions stored = LeaseTransitions l.

(** ** The API server *)

(** [view s] is what the server stores, [used s] the resourceVersions it has
    given out, and [step] answers one request. *)
Class LeaseServer (S : Type) : Type := {
  view : S -> gmap (string * string) Lease;
  used : S -> gset string;
  step : forall X : Type, lockE X -> S -> X -> (S -> Prop);
}.

(** A write that takes effect. *)
Definition stores {S} `{LeaseServer S} (s : S) (l stored : Lease) (s' : S) : Prop :=
  same_content l stored /\ (ResourceVersion stored ∉ used s) /\
  view s' = <[lease_key l := stored]> (view s) /\ used s' = {[ResourceVersion stored]} ∪ used s.

Class LeaseServerLaws (S : Type) `{LeaseServer S} : Prop := {
  get_law s key a s' : step _ (GetLease key) s a s' ->
    s' = s /\ match a with
              | Ok l => view s !! key = Some l /\ lease_key l = key
              | Err NotFound => view s !! key = None
              | Err _ => True
              end;
  create_law s l a s' : step _ (CreateLease l) s a s' ->
    match a with
    | Ok stored => view s !! lease_key l = None /\ stores s l stored s'
    | Err OtherError => s' = s \/ (view s !! lease_key l = None /\ exists stored, stores s l stored s')
    | Err _ => s' = s
    end;
  update_law s l a s' : step _ (UpdateLease l) s a s' ->
    let stored_over stored :=
      (exists cur, view s !! lease_key l = Some cur /\ ResourceVersion cur = ResourceVersion l) /\
      stores s l stored s' in
    match a with
    | Ok stored => stored_over stored
    | Err OtherError => s' = s \/ exists stored, stored_over stored
    | Err _ => s' = s
    end;
}.

(** ** The system *)

(** One accepted write: the key, what was stored, and when. *)
Record write : Type := Write { w_key : string * string; w_lease : Lease; w_at : Z }.

Inductive lock_answer : Type :=
| AcquireAnswer (a : acquire_answer)
| ReleaseAnswer (a : result lock_error unit).

(** A call running in the process [t_locker]. *)
Record thread : Type := Thread { t_locker : nat; t_prog : prog lockE lock_answer }.

Record system (S : Type) : Type := System {
  server : S;
  clock : Z;
  (** The observation map of each process. *)
  observed : nat -> observations;
  (** The monotonic clock of a process reads the time since its own start. *)
  offset : nat -> Z;
  threads : gmap nat thread;
  (** The accepted writes, newest first. *)
  history : list write;
}.
Arguments System {S}. Arguments server {S}. Arguments clock {S}. Arguments observed {S}.
Arguments offset {S}. Arguments threads {S}. Arguments history {S}.

Definition set_nat {A} (f : nat -> A) (i : nat) (a : A) : nat -> A :=
  fun j => if bool_decide (j = i) then a else f j.

Inductive lock_call (isDNS1123Label : string -> bool) : prog lockE lock_answer -> Prop :=
| call_acquire initialized request :
    lock_call isDNS1123Label (pbind (Acquire isDNS1123Label initialized request) (fun a => Ret (AcquireAnswer a)))
| call_release initialized request :
    lock_call isDNS1123Label (pbind (Release isDNS1123Label initialized request) (fun a => Ret (ReleaseAnswer a))).

Section system.
Context {S : Type} `{LeaseServer S} (isDNS1123Label : string -> bool).

(** The history after a server step: a write is recorded when it took effect. *)
Definition recorded {X} (e : lockE X) (s s' : S) (at_ : Z) (h h' : list write) : Prop :=
  match e with
  | CreateLease l | UpdateLease l =>
      (s' = s /\ h' = h) \/ exists stored, stores s l stored s' /\ h' = Write (lease_key l) stored at_ :: h
  | _ => s' = s /\ h' = h
  end.

Inductive sys_step : system S -> system S -> Prop :=
| step_tick y d : 0 <= d ->
    sys_step y (System (server y) (clock y + d) (observed y) (offset y) (threads y) (history y))
| step_spawn y tid i p : threads y !! tid = None -> lock_call isDNS1123Label p ->
    sys_step y (System (server y) (clock y) (observed y) (offset y)
                  (<[tid := Thread i p]> (threads y)) (history y))
(** A process stops: its calls are gone, and the process that takes its place
    has observed nothing and has a monotonic clock of its own. *)
| step_restart y i off :
    sys_step y (System (server y) (clock y) (set_nat (observed y) i ∅) (set_nat (offset y) i off)
                  (filter (fun kt => t_locker kt.2 <> i) (threads y)) (history y))
| step_done y tid i a : threads y !! tid = Some (Thread i (Ret a)) ->
    sys_step y (System (server y) (clock y) (observed y) (offset y) (delete tid (threads y)) (history y))
| step_server y tid i X (e : lockE X) k x s' h' :
    threads y !! tid = Some (Thread i (Vis e k)) ->
    match e with GetLease _ | CreateLease _ | UpdateLease _ => True | _ => False end ->
    step X e (server y) x s' -> recorded e (server y) s' (clock y) (history y) h' ->
    sys_step y (System s' (clock y) (observed y) (offset y) (<[tid := Thread i (k x)]> (threads y)) h')
| step_clock y tid i k w :
    threads y !! tid = Some (Thread i (Vis ClockNow k)) ->
    sys_step y (System (server y) (clock y) (observed y) (offset y)
                  (<[tid := Thread i (k {| wall := w; monotonic := clock y + offset y i |})]> (threads y)) (history y))
| step_rand y tid i k r :
    threads y !! tid = Some (Thread i (Vis RandRead k)) ->
    sys_step y (System (server y) (clock y) (observed y) (offset y) (<[tid := Thread i (k r)]> (threads y)) (history y))
| step_observations y tid i A (f : observations -> A * observations) k :
    threads y !! tid = Some (Thread i (Vis (WithObservations f) k)) ->
    sys_step y (System (server y) (clock y) (set_nat (observed y) i (f (observed y i)).2) (offset y)
                  (<[tid := Thread i (k (f (observed y i)).1)]> (threads y)) (history y)).

(** A cluster with no Leases and no running calls. *)
Definition initial (y : system S) : Prop :=
  view (server y) = ∅ /\ history y = [] /\ threads y = ∅ /\ forall i, observed y i = ∅.

Inductive reachable : system S -> Prop :=
| reach_init y : initial y -> reachable y
| reach_step y y' : reachable y -> sys_step y y' -> reachable y'.
End system.

(** The write [w] replaced a live record of another holder. *)
Definition takes_over (prev w : write) : Prop :=
  dereference (HolderIdentity (w_lease prev)) <> EmptyString /\
  dereference (HolderIdentity (w_lease w)) <> EmptyString /\
  dereference (HolderIdentity (w_lease w)) <> dereference (HolderIdentity (w_lease prev)).

Definition lease_seconds (l : Lease) : Z := default 0 (LeaseDurationSeconds l).

(** The newest write of a key. *)
Fixpoint last_write (key : string * string) (h : list write) : option write :=
  match h with
  | [] => None
  | w :: r => if bool_decide (w_key w = key) then Some w else last_write key r
  end.

(** Every takeover in a history came after the duration of the record it
    replaced had passed since that record was written. *)
Fixpoint no_early_takeover (h : list write) : Prop :=
  match h with
  | [] => True
  | w :: r =>
      match last_write (w_key w) r with
      | Some prev => takes_over prev w -> w_at prev + lease_seconds (w_lease prev) * Second <= w_at w
      | None => True
      end /\ no_early_takeover r
  end.

(** * The proof *)

(** ** What a call relies on and guarantees

    A call knows a part of the history and a lower bound of the time. *)
Record ghost : Type := Ghost { g_hist : list write; g_now : Z }.

Definition extends (g g' : ghost) : Prop :=
  (forall w, w ∈ g_hist g -> w ∈ g_hist g') /\ g_now g <= g_now g'.

Lemma extends_refl g : extends g g.
Proof. by split. Qed.
Lemma extends_trans g1 g2 g3 : extends g1 g2 -> extends g2 g3 -> extends g1 g3.
Proof. intros [H1 H2] [H3 H4]. split; [auto|lia]. Qed.

(** Every observation was made after the record it holds was written. *)
Definition obs_ok (off : Z) (g : ghost) (obs : observations) : Prop :=
  forall key o, obs !! key = Some o ->
    exists l t, Write key l t ∈ g_hist g /\ observedLeaseRecord l = record o /\ t + off <= firstSeen o.

Lemma obs_ok_mono off g g' obs : extends g g' -> obs_ok off g obs -> obs_ok off g' obs.
Proof. intros [H _] Hok key o Ho. destruct (Hok key o Ho) as (l & t & ? & ? & ?). eauto 10. Qed.

(** The update of [l] replaces a record that is not a live foreign one. *)
Definition update_ok (g : ghost) (l : Lease) : Prop :=
  exists cur t, Write (lease_key l) cur t ∈ g_hist g /\ ResourceVersion cur = ResourceVersion l /\
    (takes_over (Write (lease_key l) cur t) (Write (lease_key l) l t) ->
     t + lease_seconds cur * Second <= g_now g).

Definition lock_pre (off : Z) {X} (e : lockE X) (g : ghost) : Prop :=
  match e with
  | UpdateLease l => update_ok g l
  | WithObservations f => forall g' obs, extends g g' -> obs_ok off g' obs -> obs_ok off g' (f obs).2
  | _ => True
  end.

Definition lock_post (off : Z) {X} (e : lockE X) (g : ghost) (x : X) (g' : ghost) : Prop :=
  extends g g' /\
  match e in lockE X return X -> Prop with
  | GetLease key => fun a =>
      match a with
      | Ok l => lease_key l = key /\ exists t, Write key l t ∈ g_hist g' /\ t <= g_now g'
      | Err _ => True
      end
  | ClockNow => fun i => g_now g <= monotonic i - off <= g_now g'
  | WithObservations f => fun a => exists obs, obs_ok off g' obs /\ a = (f obs).1
  | _ => fun _ => True
  end x.

Definition lock_spec (off : Z) : espec lockE ghost :=
  {| pre := @lock_pre off; post := @lock_post off |}.

Lemma lock_pre_mono off X (e : lockE X) g g' : extends g g' -> lock_pre off e g -> lock_pre off e g'.
Proof.
  intros Hext. destruct e; simpl; try done.
  - intros (cur & t & Hin & Hrv & Ht). destruct Hext. exists cur, t. split; [auto|]. split; [done|].
    intros Hto. specialize (Ht Hto). lia.
  - intros Hf g'' obs Hext'. apply Hf. by eapply extends_trans.
Qed.

Lemma lock_post_mono off X (e : lockE X) g g' x g'' :
  extends g g' -> lock_post off e g' x g'' -> lock_post off e g x g''.
Proof.
  intros Hext [Hext' Hx]. split; [by eapply extends_trans|].
  destruct e; auto. destruct Hext. simpl in *. lia.
Qed.

(** What a call may do does not depend on how much of the history it knows. *)
Lemma wp_extends off {A} (p : prog lockE A) g g' :
  extends g g' -> wp (lock_spec off) p (fun _ _ => True) g -> wp (lock_spec off) p (fun _ _ => True) g'.
Proof.
  revert g g'. induction p as [a|X e k IH]; intros g g' Hext; simpl; [done|].
  intros [Hpre Hk]. split; [by eapply lock_pre_mono|].
  intros x g'' Hpost. eapply IH; [apply extends_refl|]. apply Hk. by eapply lock_post_mono.
Qed.

(** ** The programs of the Locker meet the specification *)

Section programs.
Context (off : Z).
Abbreviation spec := (lock_spec off).
Abbreviation anything := (fun _ _ => True).

Lemma wp_forget {A} key (k : unit -> prog lockE A) g :
  (forall g', extends g g' -> wp spec (k tt) anything g') -> wp spec (pbind (forgetObservation key) k) anything g.
Proof.
  intros Hk. simpl. split.
  - intros g' obs _ Hok key' o Ho. apply lookup_delete_Some in Ho as [_ Ho]. eauto.
  - intros [] g' [Hext _]. by apply Hk.
Qed.

Lemma wp_now {A} (k : Z -> prog lockE A) g :
  (forall t g', extends g g' -> wp spec (k t) anything g') -> wp spec (pbind now_ k) anything g.
Proof. intros Hk. simpl. split; [done|]. intros x g' [Hext _]. by apply Hk. Qed.

Lemma wp_epoch {A} (k : result lock_error string -> prog lockE A) g :
  (forall r g', extends g g' -> wp spec (k r) anything g') -> wp spec (pbind newEpoch k) anything g.
Proof. intros Hk. simpl. split; [done|]. intros x g' [Hext _]. by apply Hk. Qed.

(** What [updateLease] can produce. *)
Lemma wp_updateLease {A} lease v now preserve (k : result lock_error Lease -> prog lockE A) g :
  (forall r g', extends g g' ->
     (forall l, r = Ok l -> lease_key l = lease_key lease /\ ResourceVersion l = ResourceVersion lease /\
                            HolderIdentity l = Some (holderIdentity v)) ->
     wp spec (k r) anything g') ->
  wp spec (pbind (updateLease lease v now preserve) k) anything g.
Proof.
  intros Hk. unfold updateLease. destruct preserve; simpl.
  - apply Hk; [apply extends_refl|]. by intros l [= <-].
  - split; [done|]. intros x g' [Hext _]. apply Hk; [done|].
    intros l Hl. destruct x; simpl in Hl; simplify_eq. done.
Qed.

Lemma wp_take_lease key v lease again g cur t :
  Write (lease_key lease) cur t ∈ g_hist g -> ResourceVersion cur = ResourceVersion lease ->
  (foreign_held v cur = true -> t + lease_seconds cur * Second <= g_now g) ->
  (forall g', extends g g' -> wp spec again anything g') ->
  wp spec (take_lease key v lease again) anything g.
Proof.
  intros Hin Hrv Hlive Hagain. unfold take_lease.
  apply wp_now. intros now g1 E1. apply wp_updateLease. intros r g2 E2 Hr.
  destruct r as [l|e]; [|done]. destruct (Hr l eq_refl) as (Hkey & Hrvl & Hhold).
  pose proof (extends_trans _ _ _ E1 E2) as E12. split.
  - exists cur, t. rewrite Hkey, Hrvl. destruct E12 as [Hsub Hnow]. split; [auto|]. split; [done|].
    intros (H1 & H2 & H3). simpl in H1, H2, H3. rewrite Hhold in H3. simpl in H3.
    enough (t + lease_seconds cur * Second <= g_now g) by lia. apply Hlive.
    unfold foreign_held. rewrite !bool_decide_eq_false_2; auto.
  - intros a g3 [E3 _]. pose proof (extends_trans _ _ _ E12 E3) as E13.
    destruct a as [stored|[| | |]]; [by apply wp_forget|by apply Hagain|done|by apply Hagain|done].
Qed.

(** An observation made of a lease just read is sound, and a foreign Lease is
    let go only after the whole duration has been observed. *)
Lemma observe_section_ok key lease duration t local g :
  Write key lease t ∈ g_hist g -> t + off <= local ->
  forall g' obs, extends g g' -> obs_ok off g' obs ->
  obs_ok off g' (observe_section key (observedLeaseRecord lease) duration local obs).2.
Proof.
  intros Hin Ht g' obs [Hsub _] Hok. unfold observe_section.
  set (o1 := {| record := observedLeaseRecord lease; firstSeen := local |}).
  assert (obs_ok off g' (<[key := o1]> obs)) as Hnew.
  { intros key' o [[<- <-]|[_ Ho]]%lookup_insert_Some; [|eauto]. exists lease, t. auto. }
  destruct (obs !! key) as [o'|] eqn:E; [|done].
  case_match; [done|]. case_match; [done|].
  intros key' o Ho. simpl in Ho. apply lookup_delete_Some in Ho as [_ Ho]. eauto.
Qed.

Lemma observe_section_released key lease duration local g obs :
  0 < duration -> obs_ok off g obs ->
  (observe_section key (observedLeaseRecord lease) duration local obs).1 <= 0 ->
  exists l t, Write key l t ∈ g_hist g /\ observedLeaseRecord l = observedLeaseRecord lease /\
    t + duration <= local - off.
Proof.
  intros Hd Hok Hrem. unfold observe_section in Hrem.
  destruct (obs !! key) as [o|] eqn:E; [|simpl in Hrem; lia].
  destruct (negb _ || _) eqn:E1; simpl in Hrem; [lia|]. bool_prop.
  destruct (local - firstSeen o <? duration) eqn:E2; simpl in Hrem; bool_prop; [lia|].
  destruct (Hok _ _ E) as (l & t & Hin & Hrec & Ht). exists l, t. split; [done|]. split; [congruence|lia].
Qed.

Lemma wp_acquire_loop n key v : forall g, wp spec (acquire_loop n key v) anything g.
Proof.
  induction n as [|n IH]; intros g; [done|]. cbn [acquire_loop]. split; [done|].
  intros a g1 [E1 Ha]. cbn [pbind]. destruct a as [lease|[| | |]]; try done.
  - destruct Ha as [Hkey (t & Hin & Ht)].
    destruct (foreign_held v lease) eqn:Hforeign.
    + destruct (validForeignLeaseDuration lease) as [duration|] eqn:Hd; [|done].
      destruct (negb (hasLeaseTimestamp lease)); [done|].
      assert (0 < duration /\ duration = lease_seconds lease * Second) as [Hpos Hdur].
      { unfold validForeignLeaseDuration, lease_seconds in *.
        destruct (LeaseDurationSeconds lease); simpl in *; [|done]. case_match; simplify_eq.
        bool_prop. unfold MinLeaseDuration, Second in *. lia. }
      split; [done|]. intros i g2 [E2 Hi]. simpl in Hi. cbn. split.
      { apply (observe_section_ok _ _ _ t); [by apply E2|]. lia. }
      intros rem g3 [E3 (obs & Hobs & ->)].
      destruct (0 <? _) eqn:Hrem; [done|]. bool_prop.
      destruct (observe_section_released _ _ _ _ _ _ Hpos Hobs Hrem) as (l & t' & Hin' & Hrec & Ht').
      assert (lease_seconds l = lease_seconds lease /\ ResourceVersion l = ResourceVersion lease) as [Hs Hrv].
      { unfold observedLeaseRecord in Hrec. injection Hrec as ? ? ? ? ? ? ?. done. }
      eapply (wp_take_lease _ _ _ _ _ l t'); [by rewrite Hkey|done|..]; [|auto].
      intros _. rewrite Hs, <- Hdur. destruct E3. lia.
    + apply wp_forget. intros g2 E2.
      eapply (wp_take_lease _ _ _ _ _ lease t); [rewrite Hkey; by apply E2|done|congruence|auto].
  - apply wp_forget. intros g2 E2. apply wp_now. intros now g3 E3. unfold newLease.
    cbn. split; [done|]. intros ent g4 E4. destruct ent as [b|]; simpl; [|done].
    split; [done|]. intros ans g5 _. destruct ans as [stored|[| | |]]; [done|done|apply IH|apply IH|done].
Qed.

Lemma wp_release_loop n key v : forall g, wp spec (release_loop n key v) anything g.
Proof.
  induction n as [|n IH]; intros g; [done|]. cbn [release_loop]. split; [done|].
  intros a g1 [E1 Ha]. cbn [pbind]. destruct a as [lease|[| | |]]; try done; [|by apply wp_forget].
  destruct Ha as [Hkey (t & Hin & Ht)]. case_match; [done|].
  apply wp_now. intros now g2 E2. split.
  - exists lease, t. destruct E2. rewrite <- Hkey in Hin. split; [auto|]. split; [done|].
    by intros (_ & Hne & _).
  - intros ans g3 _. destruct ans as [stored|[| | |]]; [by apply wp_forget|apply IH|done|apply IH|done].
Qed.

Lemma wp_lock_call isDNS1123Label p g : lock_call isDNS1123Label p -> wp spec p anything g.
Proof.
  intros [initialized request|initialized request]; apply wp_bind.
  - apply (wp_mono _ _ anything); [done|]. unfold Acquire. case_match; [apply wp_acquire_loop|done].
  - apply (wp_mono _ _ anything); [done|]. unfold Release. case_match; [|done].
    case_match; [done|apply wp_release_loop].
Qed.
End programs.

(** ** The invariant of the system *)

Lemma last_write_in key h w : last_write key h = Some w -> w ∈ h /\ w_key w = key.
Proof.
  induction h as [|v h IH]; simpl; [done|]. case_bool_decide.
  - intros [= ->]. split; [by left|done].
  - intros []%IH. split; [by right|done].
Qed.

Section invariant.
Context {S : Type} `{LeaseServerLaws S} (isDNS1123Label : string -> bool).

Definition ghost_of (y : system S) : ghost := Ghost (history y) (clock y).

(** The part of the invariant that is about the server and its history: the
    store is what was written last, times are in the past, resourceVersions
    are unique, and no takeover was early. *)
Definition server_inv (s : S) (now : Z) (h : list write) : Prop :=
  (forall key, view s !! key = w_lease <$> last_write key h) /\
  (forall w, w ∈ h -> w_at w <= now) /\
  (forall w, w ∈ h -> ResourceVersion (w_lease w) ∈ used s) /\
  (forall w w', w ∈ h -> w' ∈ h -> ResourceVersion (w_lease w) = ResourceVersion (w_lease w') -> w = w') /\
  no_early_takeover h.

Record inv (y : system S) : Prop := {
  inv_server : server_inv (server y) (clock y) (history y);
  inv_obs i : obs_ok (offset y i) (ghost_of y) (observed y i);
  inv_threads tid th : threads y !! tid = Some th ->
    wp (lock_spec (offset y (t_locker th))) (t_prog th) (fun _ _ => True) (ghost_of y);
}.

(** A write that took effect keeps it, if it takes nothing over early. *)
Lemma stores_server_inv s now h l stored s' :
  server_inv s now h -> stores s l stored s' ->
  (forall prev, last_write (lease_key l) h = Some prev ->
     takes_over prev (Write (lease_key l) stored now) ->
     w_at prev + lease_seconds (w_lease prev) * Second <= now) ->
  server_inv s' now (Write (lease_key l) stored now :: h).
Proof.
  intros (Hview & Hpast & Hused & Huniq & Hto) (_ & Hfresh & Hv' & Hu') Hnew.
  split; [|split; [|split; [|split]]].
  - intros key. rewrite Hv'. simpl. case_bool_decide; subst.
    + by rewrite lookup_insert_eq.
    + rewrite lookup_insert_ne by done. apply Hview.
  - intros w [->|Hw]%elem_of_cons; [done|auto].
  - intros w [->|Hw]%elem_of_cons; rewrite Hu'; [simpl; set_solver|apply elem_of_union_r; auto].
  - intros w w' [->|Hw]%elem_of_cons [->|Hw']%elem_of_cons Heq; auto; simpl in Heq.
    + apply Hused in Hw'. congruence.
    + apply Hused in Hw. congruence.
  - simpl. split; [|done]. destruct (last_write _ h) as [prev|] eqn:E; [|done]. by apply Hnew.
Qed.

(** A server step of a call that meets its specification. *)
Lemma server_step_inv off X (e : lockE X) s x s' now h h' :
  server_inv s now h -> lock_pre off e (Ghost h now) -> step X e s x s' ->
  match e with GetLease _ | CreateLease _ | UpdateLease _ => True | _ => False end ->
  recorded e s s' now h h' ->
  server_inv s' now h' /\ lock_post off e (Ghost h now) x (Ghost h' now).
Proof.
  intros Hinv Hpre Hstep He Hrec.
  assert (forall l stored, stores s l stored s' -> s' <> s) as Hchange.
  { intros l stored (_ & Hfresh & _ & Hu) ->. set_solver. }
  assert (extends (Ghost h now) (Ghost (h') now)) as Hext.
  { split; [|simpl; lia]. simpl. destruct e; simpl in Hrec; try done; try (by destruct Hrec as [_ ->]);
      (destruct Hrec as [[_ ->]|(st & _ & ->)]; [done|intros w Hw; by right]). }
  destruct e as [key|l|l| | |]; simpl in Hrec; try done.
  - destruct Hrec as [-> ->]. split; [done|]. split; [done|].
    destruct (get_law _ _ _ _ Hstep) as [_ Ha]. destruct x as [l|]; [|done].
    destruct Ha as [Hl Hkey]. split; [done|].
    destruct Hinv as (Hview & Hpast & _). rewrite Hview in Hl.
    destruct (last_write key h) as [w|] eqn:Ew; [|done]. simpl in Hl. simplify_eq.
    destruct (last_write_in _ _ _ Ew) as [Hin Hk]. exists (w_at w). split; [|by apply Hpast].
    by destruct w; simpl in *; subst.
  - split; [|done]. destruct Hrec as [[-> ->]|(stored & Hst & ->)]; [done|].
    apply stores_server_inv with s; [done..|]. intros prev Hprev.
    assert (view s !! lease_key l = None) as Hnone.
    { pose proof (create_law _ _ _ _ Hstep) as Ha.
      apply Hchange in Hst. destruct x as [st|[]]; try done; [by destruct Ha|by destruct Ha as [|[]]]. }
    destruct Hinv as (Hview & _). rewrite Hview, Hprev in Hnone. done.
  - split; [|done]. destruct Hrec as [[-> ->]|(stored & Hst & ->)]; [done|].
    apply stores_server_inv with s; [done..|]. intros prev Hprev Hto.
    assert (exists cur, view s !! lease_key l = Some cur /\ ResourceVersion cur = ResourceVersion l) as (cur & Hcur & Hrv).
    { pose proof (update_law _ _ _ _ Hstep) as Ha. simpl in Ha.
      apply Hchange in Hst. destruct x as [st|[]]; try done; [by destruct Ha|].
      by destruct Ha as [|(st & Ha & _)]. }
    destruct Hinv as (Hview & _ & _ & Huniq & _). rewrite Hview, Hprev in Hcur. simpl in Hcur. simplify_eq.
    destruct Hpre as (cur & t & Hin & Hrv' & Hlive). simpl in Hin.
    destruct (last_write_in _ _ _ Hprev) as [Hin' _].
    assert (prev = Write (lease_key l) cur t) as -> by (apply Huniq; auto; simpl; congruence).
    simpl. apply Hlive. destruct Hto as (H1 & H2 & H3), Hst as ((_ & _ & Hh & _) & _).
    simpl in *. rewrite Hh in H2, H3. done.
Qed.

Lemma server_inv_later s now now' h : now <= now' -> server_inv s now h -> server_inv s now' h.
Proof.
  intros Hle (H1 & H2 & H3 & H4 & H5). repeat split; auto. intros w Hw. specialize (H2 w Hw). lia.
Qed.

Lemma sys_step_inv y y' : inv y -> sys_step isDNS1123Label y y' -> inv y'.
Proof.
  intros [Hs Ho Ht] Hstep. destruct Hstep as
    [y d Hd|y tid i p Hfree Hp|y i off|y tid i a Hth|y tid i X e k x s' h' Hth He Hst Hrec
    |y tid i k w Hth|y tid i k r Hth|y tid i A f k Hth]; simpl.
  - assert (extends (ghost_of y) (Ghost (history y) (clock y + d))) as Hext by (split; simpl; [done|lia]).
    split; simpl; [by eapply server_inv_later, Hs; lia|..].
    + intros i. eapply obs_ok_mono; [apply Hext|apply Ho].
    + intros tid th Hth. eapply wp_extends; [apply Hext|]. by apply (Ht tid).
  - split; simpl; auto. intros tid' th [[<- <-]|[_ Hth]]%lookup_insert_Some; [|by apply (Ht tid')].
    by eapply wp_lock_call.
  - split; simpl; [done|..].
    + intros j. unfold set_nat. case_bool_decide; [|apply Ho]. by intros key o Hk%lookup_empty_Some.
    + intros tid th [Hth Hne]%map_lookup_filter_Some. simpl in Hne. unfold set_nat.
      rewrite bool_decide_eq_false_2 by done. by apply (Ht tid).
  - split; simpl; auto. intros tid' th [_ Hth']%lookup_delete_Some. by apply (Ht tid').
  - destruct (Ht tid _ Hth) as [Hpre Hk]. simpl in Hpre, Hk.
    destruct (server_step_inv (offset y i) X e _ x s' _ _ h' Hs Hpre Hst He Hrec) as [Hs' Hpost].
    assert (extends (ghost_of y) (Ghost h' (clock y))) as Hext by apply Hpost.
    split; simpl; [done|..].
    + intros j. eapply obs_ok_mono; [apply Hext|apply Ho].
    + intros tid' th [[<- <-]|[_ Hth']]%lookup_insert_Some; simpl; [by apply Hk|].
      eapply wp_extends; [apply Hext|]. by apply (Ht tid').
  - destruct (Ht tid _ Hth) as [_ Hk]. split; simpl; auto.
    intros tid' th [[<- <-]|[_ Hth']]%lookup_insert_Some; [|by apply (Ht tid')].
    simpl. apply Hk. split; [apply extends_refl|]. simpl. lia.
  - destruct (Ht tid _ Hth) as [_ Hk]. split; simpl; auto.
    intros tid' th [[<- <-]|[_ Hth']]%lookup_insert_Some; [|by apply (Ht tid')].
    simpl. apply Hk. split; [apply extends_refl|done].
  - destruct (Ht tid _ Hth) as [Hpre Hk]. simpl in Hpre, Hk. split; simpl; [done|..].
    + intros j. unfold set_nat. case_bool_decide; [subst|apply Ho].
      apply Hpre; [apply extends_refl|apply Ho].
    + intros tid' th [[<- <-]|[_ Hth']]%lookup_insert_Some; [|by apply (Ht tid')].
      simpl. apply Hk. split; [apply extends_refl|]. exists (observed y i). split; [apply Ho|done].
Qed.

Lemma reachable_inv y : reachable isDNS1123Label y -> inv y.
Proof.
  induction 1 as [y (Hv & Hh & Ht & Ho)|]; [|by eapply sys_step_inv].
  split.
  - unfold server_inv. rewrite Hv, Hh. repeat split; try (by intros ? ?%elem_of_nil); try done;
      by intros ? ? ?%elem_of_nil.
  - intros i key o. by rewrite Ho, lookup_empty.
  - intros tid th. by rewrite Ht, lookup_empty.
Qed.
End invariant.

(** * An in-memory API server

    The laws are met by a server that keeps the objects in a map and numbers
    its writes; any write may also fail before or after it took effect. *)

Record memory : Type := Memory { objects : gmap (string * string) Lease; revision : nat }.

Definition assigned (l : Lease) (r : nat) : Lease :=
  {| LeaseNamespace := LeaseNamespace l; LeaseNameOf := LeaseNameOf l;
     ResourceVersion := pretty r; LeaseUID := LeaseUID l; Labels := Labels l;
     Annotations := Annotations l; HolderIdentity := HolderIdentity l;
     LeaseDurationSeconds := LeaseDurationSeconds l; AcquireTime := AcquireTime l;
     RenewTime := RenewTime l; LeaseTransitions := LeaseTransitions l |}.

Definition store (m : memory) (l : Lease) : Lease * memory :=
  let stored := assigned l (revision m) in
  (stored, Memory (<[lease_key l := stored]> (objects m)) (S (revision m))).

Definition mem_get (key : string * string) (m : memory) : result api_error Lease :=
  match objects m !! key with
  | Some l => if bool_decide (lease_key l = key) then Ok l else Err OtherError
  | None => Err NotFound
  end.
Definition mem_create (l : Lease) (m : memory) : result api_error Lease * memory :=
  match objects m !! lease_key l with
  | Some _ => (Err AlreadyExists, m)
  | None => (Ok (store m l).1, (store m l).2)
  end.
Definition mem_update (l : Lease) (m : memory) : result api_error Lease * memory :=
  match objects m !! lease_key l with
  | Some cur =>
      if bool_decide (ResourceVersion cur = ResourceVersion l) then (Ok (store m l).1, (store m l).2)
      else (Err Conflict, m)
  | None => (Err NotFound, m)
  end.

Definition mem_step (X : Type) (e : lockE X) (m : memory) (x : X) (m' : memory) : Prop :=
  match e in lockE X return X -> Prop with
  | GetLease key => fun a => m' = m /\ (a = mem_get key m \/ a = Err OtherError)
  | CreateLease l => fun a =>
      (a, m') = mem_create l m \/ (a = Err OtherError /\ (m' = m \/ m' = (mem_create l m).2))
  | UpdateLease l => fun a =>
      (a, m') = mem_update l m \/ (a = Err OtherError /\ (m' = m \/ m' = (mem_update l m).2))
  | _ => fun _ => False
  end x.

#[export] Instance memory_server : LeaseServer memory := {
  view := objects;
  used m := list_to_set (pretty <$> seq 0 (revision m));
  step := mem_step;
}.

Lemma store_stores m l : stores m l (store m l).1 (store m l).2.
Proof.
  split; [done|]. split; [|split; [done|]].
  - cbn. rewrite elem_of_list_to_set, list_elem_of_fmap. intros (r & E & Hr).
    apply (inj pretty) in E. apply elem_of_seq in Hr. lia.
  - cbn [used memory_server]. unfold store. cbn [fst snd revision ResourceVersion assigned].
    rewrite seq_S, fmap_app, list_to_set_app_L. cbn. set_solver.
Qed.

#[export] Instance memory_laws : LeaseServerLaws memory.
Proof.
  split.
  - intros s key a s' [-> Ha]. split; [done|]. destruct Ha as [->| ->]; [|done].
    unfold mem_get. cbn. destruct (objects s !! key) eqn:E; [|done]. by case_bool_decide.
  - intros s l a s' Ha. cbn in Ha. unfold mem_create in Ha.
    destruct (objects s !! lease_key l) eqn:E.
    + destruct Ha as [[= -> ->]|[-> [->| ->]]]; auto.
    + pose proof (store_stores s l) as Hst.
      destruct Ha as [[= -> ->]|[-> [->| ->]]]; [by split|by left|right; eauto].
  - intros s l a s' Ha. cbn in Ha. unfold mem_update in Ha.
    pose proof (store_stores s l) as Hst.
    destruct (objects s !! lease_key l) as [cur|] eqn:E; [case_bool_decide|].
    + assert (exists c, view s !! lease_key l = Some c /\ ResourceVersion c = ResourceVersion l) as Hc by eauto.
      destruct Ha as [[= -> ->]|[-> [->| ->]]]; [by split|by left|right]. by exists (store s l).1.
    + destruct Ha as [[= -> ->]|[-> [->| ->]]]; auto.
    + destruct Ha as [[= -> ->]|[-> [->| ->]]]; auto.
Qed.

(** ** Running a schedule

    The next call of a thread, answered by the in-memory server without
    failures. *)
Definition reply (m : memory) (now : Z) (off : Z) (obs : observations) {X} (e : lockE X) :
    (X * memory * option observations * list write)%type :=
  match e in lockE X return (X * memory * option observations * list write)%type with
  | GetLease key => (mem_get key m, m, None, [])
  | CreateLease l =>
      ((mem_create l m).1, (mem_create l m).2, None,
       match (mem_create l m).1 with Ok st => [Write (lease_key l) st now] | Err _ => [] end)
  | UpdateLease l =>
      ((mem_update l m).1, (mem_update l m).2, None,
       match (mem_update l m).1 with Ok st => [Write (lease_key l) st now] | Err _ => [] end)
  | ClockNow => ({| wall := now; monotonic := now + off |}, m, None, [])
  | RandRead => (Some (replicate 16 (now mod 256)), m, None, [])
  | WithObservations f => ((f obs).1, m, Some (f obs).2, [])
  end.

Definition fire (y : system memory) (tid : nat) : system memory :=
  match threads y !! tid with
  | Some (Thread i (Vis e k)) =>
      let '(x, m, obs, ws) := reply (server y) (clock y) (offset y i) (observed y i) e in
      System m (clock y)
        match obs with Some o => set_nat (observed y) i o | None => observed y end (offset y) (<[tid := Thread i (k x)]> (threads y))
        (ws ++ history y)
  | _ => y
  end.

Lemma fire_step isDNS1123Label y tid i X (e : lockE X) k :
  threads y !! tid = Some (Thread i (Vis e k)) -> sys_step isDNS1123Label y (fire y tid).
Proof.
  intros Hth. unfold fire. rewrite Hth. destruct e as [key|l|l| | |A f]; simpl.
  - apply (step_server _ y tid i _ (GetLease key) k); [done|done|by split; [|left]|done].
  - apply (step_server _ y tid i _ (CreateLease l) k); [done|done|left; by destruct (mem_create _ _)|].
    simpl. unfold mem_create. destruct (objects _ !! _); simpl; [by left|].
    right. eexists. split; [apply store_stores|done].
  - apply (step_server _ y tid i _ (UpdateLease l) k); [done|done|left; by destruct (mem_update _ _)|].
    simpl. unfold mem_update. destruct (objects _ !! _); [case_bool_decide|]; simpl; [|by left..].
    right. eexists. split; [apply store_stores|done].
  - by apply (step_clock _ y tid i).
  - by apply (step_rand _ y tid i).
  - by apply (step_observations _ y tid i _ f).
Qed.

(** A schedule: let time pass, start a call, or run [n] calls of a thread. *)
Inductive move : Type :=
| Tick (d : Z)
| Spawn (tid i : nat) (request : Request)
| Fire (tid n : nat).

Definition any_label (s : string) : bool := true.

Fixpoint fire_n (n : nat) (y : system memory) (tid : nat) : system memory :=
  match n with O => y | S n' => fire_n n' (fire y tid) tid end.

Definition make (y : system memory) (m : move) : system memory :=
  match m with
  | Tick d => if 0 <=? d then System (server y) (clock y + d) (observed y) (offset y) (threads y) (history y) else y
  | Spawn tid i request =>
      match threads y !! tid with
      | None => System (server y) (clock y) (observed y) (offset y)
                  (<[tid := Thread i (pbind (Acquire any_label true request) (fun a => Ret (AcquireAnswer a)))]> (threads y))
                  (history y)
      | Some _ => y
      end
  | Fire tid n => fire_n n y tid
  end.

Lemma fire_reachable y tid : reachable any_label y -> reachable any_label (fire y tid).
Proof.
  intros Hy. destruct (threads y !! tid) as [[i [a|X e k]]|] eqn:E.
  - unfold fire. by rewrite E.
  - eapply reach_step; [done|]. by eapply fire_step.
  - unfold fire. by rewrite E.
Qed.

Lemma make_reachable y m : reachable any_label y -> reachable any_label (make y m).
Proof.
  intros Hy. destruct m as [d|tid i request|tid n]; simpl.
  - case_match; [|done]. eapply reach_step; [done|]. apply step_tick. lia.
  - destruct (threads y !! tid) eqn:E; [done|]. eapply reach_step; [done|].
    apply step_spawn; [done|]. constructor.
  - revert y Hy. induction n as [|n IH]; intros y Hy; simpl; [done|]. by apply IH, fire_reachable.
Qed.

Lemma schedule_reachable l : forall y, reachable any_label y -> reachable any_label (fold_left make l y).
Proof. induction l as [|m l IH]; intros y Hy; simpl; [done|]. by apply IH, make_reachable. Qed.

Definition empty_cluster : system memory :=
  System (Memory ∅ 0) 1000000000000 (fun _ => ∅) (fun i => 7 * Z.of_nat i) ∅ [].

Lemma empty_cluster_reachable : reachable any_label empty_cluster.
Proof. apply reach_init. done. Qed.

Definition sample_request (operation : string) : Request :=
  {| CoordinationNamespace := "ptah-system";
     CoordinationDigest := "sha256:00000000000000000000000000000000000000000000000000000000000000ff";
     RequestHolder := {| SchemaUID := "uid-1"; OperationID := operation |};
     Duration := 30 * Second; ExpectedEpoch := EmptyString |}.

(** The first process takes the Lease; the second meets it live, comes back
    after its duration and takes it over. *)
Definition takeover_schedule : list move :=
  [Spawn 0 0 (sample_request "op-a"); Fire 0 10; Tick Second;
   Spawn 1 1 (sample_request "op-b"); Fire 1 10; Tick (30 * Second);
   Spawn 2 1 (sample_request "op-b"); Fire 2 10].
Definition after_takeover : system memory := fold_left make takeover_schedule empty_cluster.

(** * Properties *)

(** C16: Mutual exclusion. In every reachable state of any number of Lockers
    running [Acquire] and [Release] against one API server, with crashes,
    restarts, lost answers, failing requests and arbitrary wall clocks, every
    write that took the Lease from a non-empty holder and gave it to another
    was made no earlier than the recorded lease duration after the replaced
    record was written. *)
Theorem no_early_takeover_reachable {S : Type} `{LeaseServerLaws S}
    (isDNS1123Label : string -> bool) (y : system S) :
  reachable isDNS1123Label y -> no_early_takeover (history y).
Proof. intros Hy. by destruct (inv_server _ (reachable_inv _ _ Hy)) as (_ & _ & _ & _ & Hto). Qed.

(** In the witness a takeover does happen, 31 seconds after the first write. *)
Lemma no_early_takeover_reachable_witness :
  no_early_takeover (history after_takeover) /\
  (exists prev w, history after_takeover = [w; prev] /\ takes_over prev w /\ w_at w = w_at prev + 31 * Second).
Proof.
  split.
  - apply (no_early_takeover_reachable any_label). apply schedule_reachable, empty_cluster_reachable.
  - eexists _, _. split; [vm_compute; reflexivity|].
    split; [|vm_compute; reflexivity]. split; [|split]; vm_compute; discriminate.
Defined.
