(* ===== verification/MutationLifecycle.v ===== *)
(** * The obligations of a mutating claim (package [internal/mutationlifecycle])

    The decisions both controllers take about a claim, as the values the
    package computes: what an operation type may do ([operation.go]), whether
    a Job may exist ([dispatch.go]), what to do about the Job found under the
    reserved name ([jobverdict.go]), what a failure leaves the claim owing
    ([dispatchfailure.go]), who holds the database realm ([realm.go]), what a
    retirement hands back ([retire.go]) and how an owed Lease is handed back
    ([lockrelease.go], over [TargetLock.Release]).

    The Go string types of the package are inductive types with the package's
    constants as constructors. An error of the Kubernetes client is of the
    parameter type [error]: [IsAlreadyExists] and [asAPIStatus] stand for
    [apierrors.IsAlreadyExists] and [errors.As] to an [APIStatus]. *)
From stdpp Require Import base list gmap strings.
From Stdlib Require Import ZArith Lia.
From S2P Require Import Prelude GoStrings TargetLock.
Local Open Scope go_scope.
Local Open Scope Z_scope.

(** ** Operation types *)

Inductive Lock : Type := LockNever | LockAlways | LockWhileProving.

Record Operation : Type := {
  Known : bool;
  Mutating : bool;
  OpLock : Lock;
  ServesProof : bool;
  Phase : string;
  Runner : string;
}.

Definition zeroOperation : Operation :=
  {| Known := false; Mutating := false; OpLock := LockNever; ServesProof := false;
     Phase := EmptyString; Runner := EmptyString |}.

Definition ReadOnly (o : Operation) : bool := Known o && negb (Mutating o).

Definition HoldsLock (o : Operation) (proofOutstanding : bool) : bool :=
  match OpLock o with
  | LockAlways => true
  | LockWhileProving => proofOutstanding
  | LockNever => false
  end.

Definition operation (mutating : bool) (lock : Lock) (servesProof : bool) (phase runner : string) : Operation :=
  {| Known := true; Mutating := mutating; OpLock := lock; ServesProof := servesProof;
     Phase := phase; Runner := runner |}.

Definition schemaOperations : gmap string Operation := {[
  "Resolve" := operation false LockNever false "Resolving" "resolve";
  "Verify" := operation false LockNever false "Verifying" "verify";
  "Observe" := operation false LockWhileProving true "Observing" "observe";
  "Plan" := operation false LockAlways true "Planning" "plan";
  "Apply" := operation true LockAlways false "Applying" "apply" ]}.

Definition migrationOperations : gmap string Operation := {[
  "Resolve" := operation false LockNever false "Resolving" "resolve";
  "Verify" := operation false LockNever false "Verifying" "verify";
  "History" := operation false LockNever false "Reading" "migration-history";
  "Apply" := operation true LockAlways false "Applying" "migration-apply" ]}.

Definition SchemaOperation (operationType : string) : Operation :=
  default zeroOperation (schemaOperations !! operationType).
Definition MigrationOperation (operationType : string) : Operation :=
  default zeroOperation (migrationOperations !! operationType).

(** ** Whether a Job may exist *)

Record DispatchState : Type := { DispatchStarted : bool; JobUID : string }.

Definition MayHaveDispatched (state : DispatchState) : bool :=
  DispatchStarted state || negb (bool_decide (JobUID state = EmptyString)).

(** ** The Job under the reserved name *)

Record JobClaim : Type := {
  JCMutating : bool;
  JCDispatchStarted : bool;
  RecordedJobUID : string;
  Found : bool;
  FoundJobUID : string;
  OwnedExactly : bool;
}.

Inductive JobCause : Type := CauseNone | CauseMissing | CauseReplaced | CauseDisowned.
Inductive JobVerdict : Type :=
  VerdictDispatch | VerdictUnaccounted | VerdictRetry | VerdictAdopt | VerdictSupervise.

Definition lostJob (claim : JobClaim) : JobVerdict :=
  if JCMutating claim then VerdictUnaccounted else VerdictRetry.

Definition VerdictFor (claim : JobClaim) : JobVerdict * JobCause :=
  if negb (Found claim) then
    if JCMutating claim && MayHaveDispatched
         {| DispatchStarted := JCDispatchStarted claim; JobUID := RecordedJobUID claim |}
    then (VerdictUnaccounted, CauseMissing)
    else (VerdictDispatch, CauseMissing)
  else if negb (bool_decide (RecordedJobUID claim = EmptyString)) &&
          negb (bool_decide (RecordedJobUID claim = FoundJobUID claim))
  then (lostJob claim, CauseReplaced)
  else if negb (OwnedExactly claim) then (lostJob claim, CauseDisowned)
  else if bool_decide (RecordedJobUID claim = EmptyString) then (VerdictAdopt, CauseNone)
  else (VerdictSupervise, CauseNone).

(** ** Failures at the dispatch boundary and at the harvest *)

Inductive DispatchStage : Type := StageCreate | StageConfirm | StageIntent.

Inductive Disposition : Type :=
| DispositionAccounted | DispositionUnaccounted | DispositionRetry
| DispositionRequeue | DispositionDiscard | DispositionWithdraw.
#[export] Instance Disposition_eq_dec : EqDecision Disposition.
Proof. solve_decision. Defined.

Inductive CreateAnswer : Type := AnswerUnknown | AnswerNameTaken | AnswerRefused.
#[export] Instance CreateAnswer_eq_dec : EqDecision CreateAnswer.
Proof. solve_decision. Defined.

(** The fields of [metav1.Status] the package reads; a cause is its message. *)
Record Status : Type := { Code : Z; Reason : string; Details : option (list string) }.

(** The prefix ends in the quote that opens the webhook's name. *)
Definition webhookPrefix : string := "failed calling webhook " +:+ String (Ascii.ascii_of_nat 34) EmptyString.

Definition webhookCallFailed (details : option (list string)) : bool :=
  match details with
  | Some [message] => has_prefix webhookPrefix message
  | _ => false
  end.

(** The status codes the API server answers before it writes to storage. *)
Definition refused_codes : list Z := [400; 401; 403; 404; 405; 406; 413; 415; 422; 429].

Section errors.
Context {error : Type} (IsAlreadyExists : error -> bool) (asAPIStatus : error -> option Status).

Definition ClassifyCreate (err : error) : CreateAnswer :=
  if IsAlreadyExists err then AnswerNameTaken else
  match asAPIStatus err with
  | None => AnswerUnknown
  | Some s =>
      if bool_decide (Code s ∈ refused_codes) then AnswerRefused
      else if (Code s =? 500) && bool_decide (Reason s = "InternalError") && webhookCallFailed (Details s)
      then AnswerRefused
      else AnswerUnknown
  end.
End errors.

Definition DispatchFailure (stage : DispatchStage) (mutating : bool) (answer : CreateAnswer) : Disposition :=
  if mutating then
    match stage with
    | StageCreate => if bool_decide (answer = AnswerRefused) then DispositionWithdraw else DispositionUnaccounted
    | StageIntent => DispositionUnaccounted
    | StageConfirm => DispositionRequeue
    end
  else
    match stage with
    | StageCreate => if bool_decide (answer = AnswerNameTaken) then DispositionRetry else DispositionRequeue
    | StageIntent => DispositionRetry
    | StageConfirm => DispositionRequeue
    end.

Inductive HarvestFault : Type := FaultInputsChanged | FaultPodMultiplicity | FaultUnreadableResult.

Definition HarvestFailure (fault : HarvestFault) (mutating : bool) : Disposition :=
  if mutating then DispositionUnaccounted else
  match fault with
  | FaultInputsChanged => DispositionDiscard
  | _ => DispositionRetry
  end.

(** ** Who holds the database realm *)

Inductive RealmOwner : Type := OwnerNone | OwnerClaim | OwnerProof.

Record RealmClaim : Type := {
  RCMutating : bool;
  RCServesProof : bool;
  Locked : bool;
  ProofOutstanding : bool;
}.

Definition RealmHeldBy (claim : RealmClaim) : RealmOwner :=
  if ProofOutstanding claim && RCServesProof claim then OwnerProof
  else if Locked claim && (RCMutating claim || RCServesProof claim) then OwnerClaim
  else OwnerNone.

Record Retirement : Type := {
  Claim : RealmClaim;
  RetireDisposition : Disposition;
  RecordHoldsRealm : bool;
  MayStillWrite : bool;
  EndsProof : bool;
}.

Definition Releases (r : Retirement) : RealmOwner :=
  match RealmHeldBy (Claim r) with
  | OwnerProof => if EndsProof r then OwnerProof else OwnerNone
  | OwnerClaim =>
      let ran := RCMutating (Claim r) && negb (bool_decide (RetireDisposition r = DispositionDiscard)) in
      if ran && (RecordHoldsRealm r || MayStillWrite r) then OwnerNone else OwnerClaim
  | OwnerNone => OwnerNone
  end.

(** ** Handing an owed Lease back *)

Record LockBinding : Type := {
  LBCoordinationDigest : string;
  LBOperationID : string;
  LBLeaseEpoch : string;
  LBLeaseDurationSeconds : Z;
}.

Record TargetLockReleaseStatus : Type := {
  CoordinationDigest : string;
  OperationID : string;
  LeaseDurationSeconds : Z;
  LeaseEpoch : string;
}.

Inductive release_error : Type :=
| ErrIncompleteBinding
| ErrNoLocker
| ErrRelease (e : lock_error)
| ErrPersist.

Definition incomplete (digest operationID epoch : string) (seconds : Z) : bool :=
  bool_decide (digest = EmptyString) || bool_decide (operationID = EmptyString) ||
  bool_decide (epoch = EmptyString) || (seconds =? 0).

Definition OwedRelease (binding : LockBinding) : result release_error TargetLockReleaseStatus :=
  guard (negb (incomplete (LBCoordinationDigest binding) (LBOperationID binding)
                 (LBLeaseEpoch binding) (LBLeaseDurationSeconds binding))) else ErrIncompleteBinding;
  Ok {| CoordinationDigest := LBCoordinationDigest binding; OperationID := LBOperationID binding;
        LeaseDurationSeconds := LBLeaseDurationSeconds binding; LeaseEpoch := LBLeaseEpoch binding |}.

(** The calls of a release: those of the locker, and the status patch that
    writes the owner's record, [true] when it landed. *)
Inductive relE : Type -> Type :=
| OnLock (X : Type) (e : lockE X) : relE X
| Persist (owed : option TargetLockReleaseStatus) : relE bool.
Arguments OnLock {X} e.

Fixpoint locking {A} (p : prog lockE A) : prog relE A :=
  match p with
  | Ret a => Ret a
  | Vis e k => Vis (OnLock e) (fun x => locking (k x))
  end.

Definition release_request (coordinationNamespace uid : string) (release : TargetLockReleaseStatus) : Request :=
  {| CoordinationNamespace := coordinationNamespace;
     TargetLock.CoordinationDigest := CoordinationDigest release;
     RequestHolder := {| SchemaUID := uid; TargetLock.OperationID := OperationID release |};
     Duration := LeaseDurationSeconds release * Second;
     ExpectedEpoch := LeaseEpoch release |}.

(** The owner is its UID and the release it owes; the answer is what the owner
    owes afterwards, in memory, and the error. *)
Definition CompleteRelease (isDNS1123Label : string -> bool) (locks initialized : bool)
    (coordinationNamespace uid : string) (owed : option TargetLockReleaseStatus) :
    prog relE (option TargetLockReleaseStatus * option release_error) :=
  match owed with
  | None => Ret (owed, None)
  | Some release =>
      if negb locks then Ret (owed, Some ErrNoLocker) else
      if incomplete (CoordinationDigest release) (OperationID release)
           (LeaseEpoch release) (LeaseDurationSeconds release)
      then Ret (owed, Some ErrIncompleteBinding) else
      released <-- locking (Release isDNS1123Label initialized
                              (release_request coordinationNamespace uid release));
      match released with
      | Err e => Ret (owed, Some (ErrRelease e))
      | Ok _ =>
          landed <-- call (Persist None);
          Ret (None, if (landed : bool) then None else Some ErrPersist)
      end
  end.

(** * Lemmas and properties *)

Lemma table_lookup (m : gmap string Operation) (P : Operation -> Prop) t :
  P zeroOperation -> map_Forall (fun _ o => P o) m -> P (default zeroOperation (m !! t)).
Proof. intros H0 H. destruct (m !! t) as [o|] eqn:E; [|done]. by apply (H t). Qed.

(** What the lifecycle relies on of a table entry. *)
Definition operation_ok (o : Operation) : bool :=
  (negb (Mutating o) || (Known o && match OpLock o with LockAlways => true | _ => false end && negb (ServesProof o))) &&
  (Known o || match OpLock o with LockNever => true | _ => false end).

Lemma operation_tables_ok t : operation_ok (SchemaOperation t) = true /\ operation_ok (MigrationOperation t) = true.
Proof.
  split; apply (table_lookup _ (fun o => operation_ok o = true)); try done;
    refine (bool_decide_unpack _ _); vm_compute; exact I.
Qed.

(** The tables of both families agree on what a mutating claim is. A type
    that may change the database is known, holds the realm whether or not a
    proof is outstanding, and never serves a proof; a type this binary does
    not define holds nothing and is neither mutating nor read-only. *)
Theorem operation_tables (t : string) (proof : bool) :
  forall o, o = SchemaOperation t \/ o = MigrationOperation t ->
  (Mutating o = true -> Known o = true /\ HoldsLock o proof = true /\ ServesProof o = false /\ ReadOnly o = false) /\
  (Known o = false -> HoldsLock o proof = false /\ Mutating o = false /\ ReadOnly o = false).
Proof.
  intros o Ho. assert (Hok : operation_ok o = true).
  { destruct (operation_tables_ok t). by destruct Ho as [-> | ->]. }
  unfold operation_ok in Hok. unfold HoldsLock, ReadOnly.
  by destruct o as [[] [] [] [] ? ?].
Qed.

Lemma operation_tables_witness :
  HoldsLock (SchemaOperation "Apply") false = true /\ ReadOnly (MigrationOperation "Rollback") = false.
Proof.
  split.
  - refine (proj1 (proj2 (proj1 (operation_tables "Apply" false (SchemaOperation "Apply") _) _)));
      [by left|vm_compute; reflexivity].
  - refine (proj2 (proj2 (proj2 (operation_tables "Rollback" false (MigrationOperation "Rollback") _) _)));
      [by right|vm_compute; reflexivity].
Defined.

Definition jc_dispatch (claim : JobClaim) : DispatchState :=
  {| DispatchStarted := JCDispatchStarted claim; JobUID := RecordedJobUID claim |}.

(** The Job in hand is the one the claim dispatched, as far as it recorded. *)
Definition jobMatches (claim : JobClaim) : Prop :=
  Found claim = true /\ OwnedExactly claim = true /\
  (RecordedJobUID claim = EmptyString \/ RecordedJobUID claim = FoundJobUID claim).

Lemma VerdictFor_cases claim :
  match (VerdictFor claim).1 with
  | VerdictDispatch => Found claim = false /\ (JCMutating claim = true -> MayHaveDispatched (jc_dispatch claim) = false)
  | VerdictUnaccounted => JCMutating claim = true /\ ~ jobMatches claim
  | VerdictRetry => JCMutating claim = false /\ Found claim = true /\ ~ jobMatches claim
  | VerdictAdopt => jobMatches claim /\ RecordedJobUID claim = EmptyString
  | VerdictSupervise => jobMatches claim /\ RecordedJobUID claim <> EmptyString
  end.
Proof.
  unfold VerdictFor, jobMatches, lostJob, jc_dispatch.
  destruct (Found claim), (JCMutating claim), (OwnedExactly claim); cbn; repeat case_bool_decide; cbn;
    repeat (case_goal; cbn); naive_solver.
Qed.

(** C38: What a pass does about the Job under the reserved name. A Job is
    adopted or supervised only when it is there, is owned by exactly this
    resource and is the recorded one; a mutating claim is dispatched only when
    no Job is there and none may ever have been created, and is never retried;
    a lost Job of a read-only claim is retried, of a mutating one is
    unaccounted for. *)
Theorem verdict_safe (claim : JobClaim) :
  ((VerdictFor claim).1 = VerdictAdopt \/ (VerdictFor claim).1 = VerdictSupervise <-> jobMatches claim) /\
  (JCMutating claim = true ->
     (VerdictFor claim).1 <> VerdictRetry /\
     ((VerdictFor claim).1 = VerdictDispatch <->
        Found claim = false /\ MayHaveDispatched (jc_dispatch claim) = false)) /\
  (JCMutating claim = false ->
     (VerdictFor claim).1 <> VerdictUnaccounted /\
     ((VerdictFor claim).1 = VerdictDispatch <-> Found claim = false)).
Proof.
  pose proof (VerdictFor_cases claim) as Hc. unfold jobMatches in *.
  destruct (VerdictFor claim) as [[] cause] eqn:E; cbn in *;
    try (clear E; naive_solver congruence).
  - assert (Found claim = false \/ Found claim = true) as [Hf|Hf] by (destruct (Found claim); auto).
    + assert (MayHaveDispatched (jc_dispatch claim) = true); [|naive_solver congruence].
      unfold VerdictFor in E. rewrite Hf in E. cbn in E. fold (jc_dispatch claim) in E.
      destruct Hc as [Hm _]. rewrite Hm in E. cbn in E. by case_hyp E.
    + naive_solver congruence.
Qed.

Lemma verdict_safe_witness :
  (VerdictFor {| JCMutating := true; JCDispatchStarted := true; RecordedJobUID := EmptyString;
                 Found := false; FoundJobUID := EmptyString; OwnedExactly := false |}).1 <> VerdictDispatch.
Proof.
  intros H. set (claim := Build_JobClaim _ _ _ _ _ _) in H.
  apply (proj2 (proj1 (proj2 (verdict_safe claim)) eq_refl)) in H as [_ H]. discriminate H.
Defined.

(** A mutating claim is never run again on a failure. Neither a fault at
    the dispatch boundary nor one at the harvest makes it retry or be dropped;
    its mark is withdrawn only when the API server refused its create before
    storing it; and a read-only claim is never left unaccounted for. *)
Theorem mutating_never_rerun (stage : DispatchStage) (fault : HarvestFault) (answer : CreateAnswer) :
  (forall d, d = DispatchFailure stage true answer \/ d = HarvestFailure fault true ->
     d <> DispositionRetry /\ d <> DispositionDiscard) /\
  (DispatchFailure stage true answer = DispositionWithdraw <-> stage = StageCreate /\ answer = AnswerRefused) /\
  HarvestFailure fault true = DispositionUnaccounted /\
  DispatchFailure stage false answer <> DispositionUnaccounted /\
  HarvestFailure fault false <> DispositionUnaccounted.
Proof. destruct stage, fault, answer; cbn; naive_solver. Qed.

(** A retirement hands back exactly the realm that nothing outlives. A
    proof's realm goes back only with the write that ends the proof; a
    mutating run that may have happened keeps its realm while the record the
    family keeps it for stands or an executor may still write; everything else
    that holds the realm in its own right hands it back; what is not held is
    not handed back. *)
Theorem retirement_releases (r : Retirement) :
  (Releases r = OwnerProof <-> RealmHeldBy (Claim r) = OwnerProof /\ EndsProof r = true) /\
  (Releases r = OwnerClaim <->
     RealmHeldBy (Claim r) = OwnerClaim /\
     (RCMutating (Claim r) = true -> RetireDisposition r <> DispositionDiscard ->
        RecordHoldsRealm r = false /\ MayStillWrite r = false)) /\
  (Releases r = OwnerProof -> RCServesProof (Claim r) = true /\ ProofOutstanding (Claim r) = true) /\
  (Releases r = OwnerClaim -> Locked (Claim r) = true).
Proof.
  unfold Releases, RealmHeldBy.
  destruct (ProofOutstanding (Claim r)), (RCServesProof (Claim r)), (Locked (Claim r)), (RCMutating (Claim r)),
    (EndsProof r), (RecordHoldsRealm r), (MayStillWrite r); cbn; try case_bool_decide; cbn; naive_solver.
Qed.

(** ** Releases *)

(** The log of a release: the locker's, and the patches that landed. *)
Inductive rel_log : Type := RelLock (entry : lock_log) | RelPersisted (owed : option TargetLockReleaseStatus).

Definition rel_log_of {X} (e : relE X) : X -> list rel_log :=
  match e in relE X return X -> list rel_log with
  | OnLock e => fun x => RelLock <$> log_of e x
  | Persist owed => fun landed => if (landed : bool) then [RelPersisted owed] else []
  end.
(** Any answer to any call; a patch that reports an error may have landed. *)
Definition rel_any (X : Type) (e : relE X) (g : list rel_log) (x : X) (g' : list rel_log) : Prop :=
  g' = rel_log_of e x ++ g \/ exists owed, g' = RelPersisted owed :: g /\ match e with Persist o => o = owed | _ => False end.

Lemma exec_locking {A} (p : prog lockE A) : forall g lg a g',
  g = RelLock <$> lg -> exec rel_any (locking p) g a g' ->
  exists lg', g' = RelLock <$> lg' /\ exec any_answer p lg a lg'.
Proof.
  induction p as [a0|X e k IH]; intros g lg a g' ->; cbn.
  - intros [-> ->]. eauto.
  - intros (x & s1 & [-> | (owed & _ & [])] & Hex). cbn [rel_log_of] in Hex.
    rewrite <- fmap_app in Hex. eapply IH in Hex as (lg' & -> & Hex'); [|done].
    exists lg'. split; [done|]. exists x, (log_of e x ++ lg). done.
Qed.

(** An owed release is never lost. Whatever the API server answers,
    [CompleteRelease] forgets the release (in memory or in the stored status)
    only after the locker reported it done, which means the Lease was gone,
    had another holder or epoch, or was cleared by this call; and on every
    error of the locker the record stands unchanged. *)
Theorem release_obligation_kept (isDNS1123Label : string -> bool) (initialized : bool)
    (ns uid : string) (r : TargetLockReleaseStatus) (v : validatedRequest)
    (owed : option TargetLockReleaseStatus) (err : option release_error) (log : list rel_log) :
  validate isDNS1123Label initialized (release_request ns uid r) = Ok v ->
  exec rel_any (CompleteRelease isDNS1123Label true initialized ns uid (Some r)) [] (owed, err) log ->
  (owed = Some r /\ err <> None /\ exists locked, log = RelLock <$> locked /\ releases_only v locked) \/
  (owed = None /\ exists persisted locked, log = persisted ++ (RelLock <$> locked) /\
     releases_only v locked /\ released v locked /\ (err = None -> persisted = [RelPersisted None])).
Proof.
  intros Hv. unfold CompleteRelease. cbn [negb]. destruct (incomplete _ _ _ _).
  { intros [[= -> ->] ->]. left. split; [done|]. split; [done|]. by exists []. }
  intros (a & s1 & Hrel & Hrest)%exec_bind.
  eapply (exec_locking _ _ []) in Hrel as (lg & -> & Hrel); [|done].
  assert (Hpost : release_post v a lg).
  { unfold Release in Hrel. rewrite Hv in Hrel. destruct (bool_decide _).
    - destruct Hrel as [-> ->]. by split.
    - eapply (wp_exec log_spec); [|exact Hrel|by apply wp_release_log]. done. }
  destruct Hpost as [Honly Hdone]. destruct a as [[]|e]; cbn in Hrest.
  - right. destruct Hrest as (landed & s2 & Hstep & [= -> ->] & ->). split; [done|].
    destruct Hstep as [-> | (o & -> & <-)]; cbn [rel_log_of].
    + exists (if landed then [RelPersisted None] else []), lg. split; [done|]. split; [done|]. split; [auto|].
      by destruct landed.
    + exists [RelPersisted None], lg. auto.
  - left. destruct Hrest as [[= -> ->] ->]. split; [done|]. split; [done|]. by exists lg.
Qed.

Definition sample_owed : TargetLockReleaseStatus :=
  {| CoordinationDigest := sample_digest; OperationID := "op-a"; LeaseDurationSeconds := 30;
     LeaseEpoch := "v1-00000000000000000000000000000000" |}.

(** A release that finds the Lease gone. *)
Lemma release_obligation_kept_witness :
  exists persisted locked, [RelPersisted None; RelLock LogAbsent] = persisted ++ (RelLock <$> locked) /\
  released sample_release_validated locked.
Proof.
  destruct (release_obligation_kept (fun _ => true) true "ptah-system" "uid-1" sample_owed
    sample_release_validated None None [RelPersisted None; RelLock LogAbsent]) as [(H & _)|(_ & p & l & H & _ & H' & _)].
  - vm_compute. reflexivity.
  - assert (Hv : validate (fun _ => true) true (release_request "ptah-system" "uid-1" sample_owed)
                 = Ok sample_release_validated) by (vm_compute; reflexivity).
    unfold CompleteRelease, Release. rewrite Hv.
    exists (Err NotFound), [RelLock LogAbsent]. split; [by left|].
    exists tt, [RelLock LogAbsent]. split; [by left|].
    exists true, [RelPersisted None; RelLock LogAbsent]. split; [by left|by split].
  - discriminate H.
  - eauto.
Defined.

(** The durable record reproduces the acquisition. A binding is recorded
    exactly when it is complete, and if it was taken from a request the locker
    validated, the request [CompleteRelease] builds from the record validates
    to the same Lease name, holder, duration and epoch. *)
Theorem owed_release_roundtrip (isDNS1123Label : string -> bool) (initialized : bool) (request : Request)
    (v : validatedRequest) (epoch : string) :
  validate isDNS1123Label initialized request = Ok v -> validEpoch epoch = true ->
  exists r, OwedRelease {| LBCoordinationDigest := TargetLock.CoordinationDigest request;
                           LBOperationID := TargetLock.OperationID (RequestHolder request);
                           LBLeaseEpoch := epoch; LBLeaseDurationSeconds := durationSeconds v |} = Ok r /\
  validate isDNS1123Label initialized
    (release_request (CoordinationNamespace request) (SchemaUID (RequestHolder request)) r) =
  Ok {| leaseName := leaseName v; holderIdentity := holderIdentity v;
        durationSeconds := durationSeconds v; expectedEpoch := epoch |}.
Proof.
  intros Hv Hepoch. unfold validate in Hv. destruct initialized; [|done]. destruct (isDNS1123Label _) eqn:Hdns; [|done].
  destruct (LeaseName _) as [name|] eqn:Hname; [|done]. destruct (identity _) as [holder|] eqn:Hid; [|done].
  cbn [rbind] in Hv. destruct (negb _) eqn:Hdur in Hv; [|done]. destruct (negb (_ && _)) eqn:Hep in Hv; [|done].
  injection Hv as <-. cbn [durationSeconds leaseName holderIdentity]. pose proof (eq_sym Hdur) as Hd. bool_prop.
  assert (Hsec : Duration request = Duration request / Second * Second).
  { unfold Second in *. match goal with H : Z.rem _ _ = 0 |- _ => rename H into Hr end.
    rewrite Z.rem_mod_nonneg in Hr by (unfold MinLeaseDuration, Second in *; lia).
    rewrite Z.mul_comm. apply Z.div_exact; [lia|done]. }
  assert (Hwrap : int32_wrap (Duration request / Second) = Duration request / Second).
  { apply int32_wrap_small. unfold in_int32, MinLeaseDuration, MaxLeaseDuration, Second in *.
    apply andb_true_iff. rewrite Z.leb_le, Z.ltb_lt. lia. }
  rewrite Hwrap. assert (Hne : forall s, LeaseName s = Ok name -> s <> EmptyString) by (by intros s Hs ->).
  assert (Hop : TargetLock.OperationID (RequestHolder request) <> EmptyString).
  { unfold identity in Hid. intros E. rewrite E in Hid. cbn in Hid. by rewrite orb_true_r in Hid. }
  assert (Hpos : Duration request / Second <> 0) by (unfold MinLeaseDuration, Second in *; lia).
  unfold OwedRelease, incomplete. cbn [LBCoordinationDigest LBOperationID LBLeaseEpoch LBLeaseDurationSeconds].
  rewrite (bool_decide_eq_false_2 (TargetLock.CoordinationDigest request = _)) by eauto.
  rewrite (bool_decide_eq_false_2 (TargetLock.OperationID _ = _)) by done.
  rewrite (bool_decide_eq_false_2 (epoch = _)) by (by intros ->).
  rewrite (proj2 (Z.eqb_neq _ _) Hpos). cbn. eexists. split; [done|].
  assert (Hholder : Build_Holder (SchemaUID (RequestHolder request)) (TargetLock.OperationID (RequestHolder request))
                    = RequestHolder request) by (by destruct (RequestHolder request)).
  unfold validate, release_request.
  cbn [CoordinationNamespace TargetLock.CoordinationDigest CoordinationDigest OperationID RequestHolder
       Duration LeaseDurationSeconds ExpectedEpoch LeaseEpoch].
  rewrite Hholder, Hdns, Hname, Hid. cbn [rbind]. rewrite <- Hsec.
  by rewrite <- Hd, Hepoch, andb_false_r, Hwrap.
Qed.

Lemma owed_release_roundtrip_witness :
  exists r, OwedRelease {| LBCoordinationDigest := sample_digest; LBOperationID := "op-a";
    LBLeaseEpoch := "v1-00000000000000000000000000000000"; LBLeaseDurationSeconds := 30 |} = Ok r /\
  validate (fun _ => true) true (release_request "ptah-system" "uid-1" r) = Ok sample_release_validated.
Proof.
  apply (owed_release_roundtrip (fun _ => true) true sample_lock_request sample_validated
           "v1-00000000000000000000000000000000"); vm_compute; reflexivity.
Defined.
