(* ===== verification/DispatchDriver.v ===== *)
(** * The dispatch sequence (package [internal/mutationlifecycle], [driver.go])

    A [Driver] takes a claim whose Job does not exist toward its one permitted
    create, through a fixed sequence of steps. The [Family] interface is the
    event type [famE]: one event per method, with the context it is called
    under, answered by the family in any way. [Job], [Template], [Snapshot]
    and [error] are the Kubernetes types the driver only passes along. *)
From stdpp Require Import base list gmap strings.
From Stdlib Require Import ZArith Lia.
From S2P Require Import Prelude GoStrings MutationLifecycle.
Local Open Scope go_scope.
Local Open Scope Z_scope.

(** ** Steps *)

Inductive Step : Type :=
| StepAuthorize | StepLease | StepStage | StepSnapshot | StepConsume
| StepMark | StepCreate | StepConfirm | StepRecord
| StepOther (n : Z).
#[export] Instance Step_eq_dec : EqDecision Step.
Proof. solve_decision. Defined.

Definition step_string (s : Step) : string :=
  match s with
  | StepAuthorize => "authorize"
  | StepLease => "lease"
  | StepStage => "stage"
  | StepSnapshot => "snapshot"
  | StepConsume => "consume"
  | StepMark => "mark"
  | StepCreate => "create"
  | StepConfirm => "confirm"
  | StepRecord => "record"
  | StepOther n => "step(" +:+ format_int n +:+ ")"
  end.

Definition order : list Step :=
  [StepAuthorize; StepLease; StepStage; StepSnapshot; StepConsume; StepMark; StepCreate; StepConfirm; StepRecord].

(** A [Driver] is its [steps]; its zero value runs [order]. *)
Definition Driver : Type := list Step.

Definition sequence (d : Driver) : list Step :=
  match d with [] => order | _ => d end.

(** [slices.Index]: [None] for -1. *)
Fixpoint step_index (steps : list Step) (s : Step) : option nat :=
  match steps with
  | [] => None
  | s' :: rest => if bool_decide (s' = s) then Some O else S <$> step_index rest s
  end.

Definition Swapped (d : Driver) (a b : Step) : Driver :=
  let steps := sequence d in
  match step_index steps a, step_index steps b with
  | Some i, Some j => <[j := default a (steps !! i)]> (<[i := default b (steps !! j)]> steps)
  | _, _ => steps
  end.

Inductive Refusal : Type :=
| RefusalSnapshotInvalid | RefusalTemplateUnreadable | RefusalTemplateMoved | RefusalSnapshotUnresolvable.

(** [reconcile.Result]. *)
Record Result : Type := { Requeue : bool; RequeueAfter : Z }.
Definition noResult : Result := {| Requeue := false; RequeueAfter := 0 |}.

(** The context a call is made under: the reconcile's own, or the one of the
    critical section, which the manager's shutdown does not cancel. *)
Inductive context : Type := Reconcile | Critical.

Section driver.
Context {Job Template Snapshot error : Type}.

Record Outcome : Type := { stop : bool; out_result : Result; out_err : option error }.
Definition family_answer : Type := Result * option error.

Record Claim : Type := {
  ClaimType : string;
  Mutating : bool;
  HoldsLock : bool;
  Dispatch_ : DispatchState;
  ClaimSnapshot : option Snapshot;
  SnapshotRefreshed : bool;
}.

(** The failures the driver hands to the family, and the errors it returns. *)
Inductive failure : Type :=
| SnapshotInvalid (e : error) | SnapshotUnresolvable (e : error) | TemplateUnreadable (e : error) | TemplateMoved
| CreateUncertain (claimType : string) (e : error) | NameOccupied
| CannotConfirm (claimType : string) (e : error) | IntentFailed (claimType : string) (e : error).

Inductive dispatch_error : Type :=
| FamilyError (e : error)
| ErrMayHaveDispatched
| ContextDone (e : error)
| NoSuchStep (s : Step)
| WithdrawFailed (claimType : string) (withdrawErr e : error)
| CreateRefused (claimType : string) (e : error)
| CreateFailed (claimType : string) (e : error)
| NothingToConfirm (claimType : string)
| ReadFailed (claimType : string) (e : error)
| NothingToRecord.

(** [Create] fills in the Job it is given, so it answers the Job after the
    call and the error; [Build] answers the Job and the outcome. *)
Inductive famE : Type -> Type :=
| FClaim : famE Claim
| FCtxErr : famE (option error)
| FAuthorize (ctx : context) : famE Outcome
| FAcquireLease (ctx : context) : famE Outcome
| FStage (ctx : context) : famE Outcome
| FBuild (ctx : context) : famE (Job * Outcome)
| FResolve (ctx : context) (t : Template) : famE (result error Snapshot)
| FValidate (s : Snapshot) : famE (option error)
| FDigest (t : Template) : famE (result error string)
| FSaveSnapshot (ctx : context) (s : Snapshot) : famE family_answer
| FRefreshSnapshot (ctx : context) : famE family_answer
| FRefuse (ctx : context) (refusal : Refusal) (why : failure) : famE family_answer
| FConsume (ctx : context) : famE Outcome
| FMark (ctx : context) : famE (option error)
| FWithdraw (ctx : context) : famE (option error)
| FCreate (ctx : context) (job : Job) : famE (Job * option error)
| FConfirm (ctx : context) (job : Job) : famE (result error Job)
| FIntent (actual expected : Job) : famE (option error)
| FRecord (ctx : context) (job : Job) : famE family_answer
| FUnaccounted (ctx : context) (job : option Job) (why : failure) : famE family_answer
| FRetry (ctx : context) (why : failure) : famE family_answer.

Context (jobTemplate : Job -> Template) (TemplateDigest : Snapshot -> string)
        (IsAlreadyExists : error -> bool) (asAPIStatus : error -> option Status).

(** What a step says about the rest of the pass, in the driver's errors. *)
Inductive step_outcome : Type :=
| Proceed
| Stop (res : Result) (err : option dispatch_error).

Definition of_outcome (o : Outcome) : step_outcome :=
  if stop o then Stop (out_result o) (FamilyError <$> out_err o) else Proceed.
Definition stop_with (answer : family_answer) : step_outcome := Stop answer.1 (FamilyError <$> answer.2).

Record dispatchPass : Type := {
  expected : option Job;
  created : option Job;
  pass_result : Result;
}.
Definition newPass : dispatchPass := {| expected := None; created := None; pass_result := noResult |}.
Definition with_expected (p : dispatchPass) (job : Job) : dispatchPass :=
  {| expected := Some job; created := created p; pass_result := pass_result p |}.
Definition with_created (p : dispatchPass) (job : Job) : dispatchPass :=
  {| expected := expected p; created := Some job; pass_result := pass_result p |}.
Definition with_result (p : dispatchPass) (r : Result) : dispatchPass :=
  {| expected := expected p; created := created p; pass_result := r |}.

(** ** The steps of a pass *)

Definition build (ctx : context) (p : dispatchPass) : prog famE ((Job + step_outcome) * dispatchPass) :=
  match expected p with
  | Some job => Ret (inl job, p)
  | None =>
      built <-- call (FBuild ctx);
      let '(job, outcome) := built in
      if stop outcome then Ret (inr (of_outcome outcome), p)
      else Ret (inl job, with_expected p job)
  end.

Definition validate_snapshot (ctx : context) (claim : Claim) : prog famE step_outcome :=
  match ClaimSnapshot claim with
  | None => Ret Proceed
  | Some snapshot =>
      invalid <-- call (FValidate snapshot);
      match invalid with
      | Some e => answer <-- call (FRefuse ctx RefusalSnapshotInvalid (SnapshotInvalid e)); Ret (stop_with answer)
      | None => Ret Proceed
      end
  end.

Definition judge_template (ctx : context) (claim : Claim) (job : Job) : prog famE step_outcome :=
  match ClaimSnapshot claim with
  | None =>
      resolved <-- call (FResolve ctx (jobTemplate job));
      match resolved with
      | Err e => answer <-- call (FRefuse ctx RefusalSnapshotUnresolvable (SnapshotUnresolvable e)); Ret (stop_with answer)
      | Ok snapshot => answer <-- call (FSaveSnapshot ctx snapshot); Ret (stop_with answer)
      end
  | Some snapshot =>
      digest <-- call (FDigest (jobTemplate job));
      match digest with
      | Err e => answer <-- call (FRefuse ctx RefusalTemplateUnreadable (TemplateUnreadable e)); Ret (stop_with answer)
      | Ok digest =>
          if bool_decide (digest = TemplateDigest snapshot) then Ret Proceed
          else if SnapshotRefreshed claim
          then answer <-- call (FRefuse ctx RefusalTemplateMoved TemplateMoved); Ret (stop_with answer)
          else answer <-- call (FRefreshSnapshot ctx); Ret (stop_with answer)
      end
  end.

Definition snapshot (ctx : context) (claim : Claim) (p : dispatchPass) : prog famE (step_outcome * dispatchPass) :=
  checked <-- validate_snapshot ctx claim;
  match checked with
  | Stop _ _ => Ret (checked, p)
  | Proceed =>
      built <-- build ctx p;
      match built with
      | (inr outcome, p) => Ret (outcome, p)
      | (inl job, p) => judged <-- judge_template ctx claim job; Ret (judged, p)
      end
  end.

Definition create (ctx : context) (claim : Claim) (p : dispatchPass) : prog famE (step_outcome * dispatchPass) :=
  built <-- build ctx p;
  match built with
  | (inr outcome, p) => Ret (outcome, p)
  | (inl job, p) =>
      answer <-- call (FCreate ctx job);
      match answer with
      | (job, None) => Ret (Proceed, with_created p job)
      | (_, Some e) =>
          match DispatchFailure StageCreate (Mutating claim) (ClassifyCreate IsAlreadyExists asAPIStatus e) with
          | DispositionUnaccounted =>
              answer <-- call (FUnaccounted ctx None (CreateUncertain (ClaimType claim) e));
              Ret (stop_with answer, p)
          | DispositionWithdraw =>
              failed <-- call (FWithdraw ctx);
              Ret (Stop noResult (Some match failed with
                                       | Some withdrawErr => WithdrawFailed (ClaimType claim) withdrawErr e
                                       | None => CreateRefused (ClaimType claim) e
                                       end), p)
          | DispositionRetry =>
              answer <-- call (FRetry ctx NameOccupied); Ret (stop_with answer, p)
          | _ => Ret (Stop noResult (Some (CreateFailed (ClaimType claim) e)), p)
          end
      end
  end.

Definition confirm (ctx : context) (claim : Claim) (p : dispatchPass) : prog famE (step_outcome * dispatchPass) :=
  match created p with
  | None => Ret (Stop noResult (Some (NothingToConfirm (ClaimType claim))), p)
  | Some job =>
      read <-- call (FConfirm ctx job);
      match read with
      | Err e =>
          if bool_decide (DispatchFailure StageConfirm (Mutating claim) AnswerUnknown = DispositionUnaccounted)
          then answer <-- call (FUnaccounted ctx None (CannotConfirm (ClaimType claim) e)); Ret (stop_with answer, p)
          else Ret (Stop noResult (Some (ReadFailed (ClaimType claim) e)), p)
      | Ok read =>
          (* [expected] was set by the step that created the Job *)
          wrong <-- call (FIntent read (default read (expected p)));
          match wrong with
          | Some e =>
              let why := IntentFailed (ClaimType claim) e in
              if bool_decide (DispatchFailure StageIntent (Mutating claim) AnswerUnknown = DispositionUnaccounted)
              then answer <-- call (FUnaccounted ctx (Some read) why); Ret (stop_with answer, p)
              else answer <-- call (FRetry ctx why); Ret (stop_with answer, p)
          | None => Ret (Proceed, with_created p read)
          end
      end
  end.

Definition record (ctx : context) (p : dispatchPass) : prog famE (step_outcome * dispatchPass) :=
  match created p with
  | None => Ret (Stop noResult (Some NothingToRecord), p)
  | Some job =>
      answer <-- call (FRecord ctx job);
      match answer.2 with
      | Some e => Ret (Stop noResult (Some (FamilyError e)), with_result p answer.1)
      | None => Ret (Proceed, with_result p answer.1)
      end
  end.

(** A step whose family method returns an outcome and leaves the pass alone. *)
Definition family_step (e : famE Outcome) (p : dispatchPass) : prog famE (step_outcome * dispatchPass) :=
  outcome <-- call e; Ret (of_outcome outcome, p).

Definition run_step (ctx : context) (step : Step) (p : dispatchPass) : prog famE (step_outcome * dispatchPass) :=
  claim <-- call FClaim;
  match step with
  | StepAuthorize => family_step (FAuthorize ctx) p
  | StepLease => if negb (HoldsLock claim) then Ret (Proceed, p) else family_step (FAcquireLease ctx) p
  | StepStage => family_step (FStage ctx) p
  | StepSnapshot => snapshot ctx claim p
  | StepConsume => if negb (Mutating claim) then Ret (Proceed, p) else family_step (FConsume ctx) p
  | StepMark =>
      if negb (HoldsLock claim) then Ret (Proceed, p) else
      failed <-- call (FMark ctx);
      match failed with
      | Some e => Ret (Stop noResult (Some (FamilyError e)), p)
      | None => Ret (Proceed, p)
      end
  | StepCreate => create ctx claim p
  | StepConfirm => confirm ctx claim p
  | StepRecord => record ctx p
  | StepOther _ => Ret (Stop noResult (Some (NoSuchStep step)), p)
  end.

(** ** A pass *)

Definition dispatch_answer : Type := Result * option dispatch_error.

Fixpoint dispatch_loop (ctx : context) (steps : list Step) (p : dispatchPass) : prog famE dispatch_answer :=
  match steps with
  | [] => Ret (pass_result p, None)
  | step :: rest =>
      let go ctx :=
        outcome <-- run_step ctx step p;
        match outcome with
        | (Stop res err, _) => Ret (res, err)
        | (Proceed, p) => dispatch_loop ctx rest p
        end in
      if bool_decide (step = StepMark) then
        claim <-- call FClaim;
        if HoldsLock claim then
          stopping <-- call FCtxErr;
          match stopping with
          | Some e => Ret (noResult, Some (ContextDone e))
          | None => go Critical
          end
        else go ctx
      else go ctx
  end.

Definition Dispatch (d : Driver) : prog famE dispatch_answer :=
  claim <-- call FClaim;
  if Mutating claim && MayHaveDispatched (Dispatch_ claim) then Ret (noResult, Some ErrMayHaveDispatched)
  else dispatch_loop Reconcile (sequence d) newPass.
End driver.

(** * Properties *)

(** Step over the next call of a program under a specification. *)
Ltac answer x H := split; [done|]; intros x ? [-> H]; cbn [pbind call].

Section completes.
Context {Job Template Snapshot error : Type}.
Context (jobTemplate : Job -> Template) (TemplateDigest : Snapshot -> string)
        (IsAlreadyExists : error -> bool) (asAPIStatus : error -> option Status).
Abbreviation event := (@famE Job Template Snapshot error).
Abbreviation dispatch := (Dispatch jobTemplate TemplateDigest IsAlreadyExists asAPIStatus).

(** The boundaries a pass crossed, and the context it crossed each under,
    newest first. *)
Definition crossed {X} (e : event X) : list (Step * context) :=
  match e with
  | FAuthorize ctx => [(StepAuthorize, ctx)]
  | FAcquireLease ctx => [(StepLease, ctx)]
  | FStage ctx => [(StepStage, ctx)]
  | FValidate _ => [(StepSnapshot, Reconcile)]
  | FConsume ctx => [(StepConsume, ctx)]
  | FMark ctx => [(StepMark, ctx)]
  | FCreate ctx _ => [(StepCreate, ctx)]
  | FConfirm ctx _ => [(StepConfirm, ctx)]
  | FRecord ctx _ => [(StepRecord, ctx)]
  | _ => []
  end.

(** Answers that let a pass go on, for a claim [c] that keeps its snapshot. *)
Definition favourable (c : Claim) (X : Type) (e : event X) (g : list (Step * context)) (x : X)
    (g' : list (Step * context)) : Prop :=
  g' = crossed e ++ g /\
  match e in famE X return X -> Prop with
  | FClaim => fun x => x = c
  | FCtxErr | FValidate _ | FMark _ | FIntent _ _ => fun x => x = None
  | FAuthorize _ | FAcquireLease _ | FStage _ | FConsume _ => fun o => stop o = false
  | FBuild _ => fun x => stop x.2 = false
  | FDigest _ => fun x => forall s, ClaimSnapshot c = Some s -> x = Ok (TemplateDigest s)
  | FCreate _ _ => fun x => x.2 = None
  | FConfirm _ _ => fun x => exists read, x = Ok read
  | FRecord _ _ => fun x => x.2 = None
  | _ => fun _ => True
  end x.

Definition favourable_spec (c : Claim) : espec event (list (Step * context)) :=
  {| pre := fun _ _ _ => True; post := favourable c |}.

(** The crossings of a claim of each kind, oldest first: only a claim that
    holds the realm takes the Lease and marks, only a mutating one spends an
    approval, and from the mark on the critical context is used. *)
Definition crossings (mutating holdsLock : bool) : list (Step * context) :=
  [(StepAuthorize, Reconcile)] ++ (if holdsLock then [(StepLease, Reconcile)] else []) ++
  [(StepStage, Reconcile); (StepSnapshot, Reconcile)] ++
  (if mutating then [(StepConsume, Reconcile)] else []) ++
  (if holdsLock then [(StepMark, Critical)] else []) ++
  let ctx := if holdsLock then Critical else Reconcile in
  [(StepCreate, ctx); (StepConfirm, ctx); (StepRecord, ctx)].

(** What one step crosses for claim [c]. *)
Definition crossing (c : Claim) (ctx : context) (step : Step) : list (Step * context) :=
  let skipped := match step with
    | StepLease | StepMark => negb (@HoldsLock Snapshot c)
    | StepConsume => negb (Mutating c)
    | _ => false
    end in
  if skipped then [] else [(step, ctx)].

Abbreviation run_step_ := (run_step jobTemplate TemplateDigest IsAlreadyExists asAPIStatus).

(** The step went on, crossed its boundary, and a Job once created stays. *)
Definition went_on (c : Claim) (ctx : context) (step : Step) (p : @dispatchPass Job) g
    (o : @step_outcome error * @dispatchPass Job) (g' : list (Step * context)) : Prop :=
  o.1 = Proceed /\ g' = crossing c ctx step ++ g /\
  (step = StepCreate \/ is_Some (created p) -> is_Some (created o.2)).

Lemma wp_build_fav c ctx p g :
  wp (favourable_spec c) (build ctx p)
    (fun r g' => g' = g /\ created r.2 = created p /\ exists job, r.1 = inl job) g.
Proof.
  unfold build. destruct (expected p) as [job|]; [cbn; eauto|].
  answer x Hx. destruct x as [job o]. cbn in Hx |- *. rewrite Hx. cbn. eauto.
Qed.

Lemma wp_family_fav c (e : event Outcome) ctx step p g :
  crossed e = [(step, ctx)] -> crossing c ctx step = [(step, ctx)] ->
  (forall o g', favourable c _ e g o g' -> stop o = false) -> step <> StepCreate ->
  wp (favourable_spec c) (family_step e p) (went_on c ctx step p g) g.
Proof.
  intros He Hc Hfav Hne. split; [done|]. intros o g' Ho. specialize (Hfav _ _ Ho). destruct Ho as [-> _].
  cbn. unfold of_outcome. rewrite Hfav, He. split; [done|]. rewrite Hc. split; [done|]. by intros [?|?].
Qed.

Lemma wp_step_fav c ctx step p g :
  is_Some (ClaimSnapshot c) -> step ∈ order ->
  (step = StepSnapshot -> ctx = Reconcile) -> (step = StepConfirm \/ step = StepRecord -> is_Some (created p)) ->
  wp (favourable_spec c) (run_step_ ctx step p) (went_on c ctx step p g) g.
Proof.
  intros [snap Hs] Hin Hctx Hcr. unfold run_step. answer x Hx. subst x. cbn [crossed app].
  destruct step; cbn [negb]; try (by apply wp_family_fav; [..|intros o g' [_ Ho]|]).
  - destruct (HoldsLock c) eqn:Hl; cbn [negb]; [|unfold went_on, crossing; rewrite Hl; cbn; naive_solver].
    apply wp_family_fav; [done|unfold crossing; by rewrite Hl|by intros o g' [_ Ho]|done].
  - rewrite Hctx by done. unfold snapshot, validate_snapshot. rewrite Hs. answer x Hx. cbn in Hx. subst x. cbn [pbind crossed app].
    apply wp_bind. eapply wp_mono; [|apply wp_build_fav]. intros [r p'] g' (-> & Hp & job & Hr). cbn in Hp, Hr. subst r.
    unfold judge_template. rewrite Hs. answer x Hx. cbn in Hx |- *. rewrite (Hx _ Hs). cbn.
    rewrite bool_decide_eq_true_2 by done. cbn. split; [done|]. split; [done|]. intros [?|?]; [done|]. cbn. by rewrite Hp.
  - destruct (Mutating c) eqn:Hl; cbn [negb]; [|unfold went_on, crossing; rewrite Hl; cbn; naive_solver].
    apply wp_family_fav; [done|unfold crossing; by rewrite Hl|by intros o g' [_ Ho]|done].
  - destruct (HoldsLock c) eqn:Hl; cbn [negb]; [|unfold went_on, crossing; rewrite Hl; cbn; naive_solver].
    answer x Hx. cbn in Hx |- *. subst x. cbn. split; [done|]. unfold crossing. rewrite Hl. cbn. naive_solver.
  - unfold create. apply wp_bind. eapply wp_mono; [|apply wp_build_fav].
    intros [r p'] g' (-> & Hp & job & Hr). cbn in Hp, Hr. subst r.
    answer x Hx. destruct x as [job' e]. cbn in Hx |- *. subst e. cbn. split; [done|]. split; [done|]. cbn. eauto.
  - destruct (Hcr (or_introl eq_refl)) as [job Hj]. unfold confirm. rewrite Hj. answer x Hx.
    destruct Hx as [read ->]. cbn. answer x Hx. cbn in Hx |- *. subst x. cbn. split; [done|]. split; [done|]. cbn. eauto.
  - destruct (Hcr (or_intror eq_refl)) as [job Hj]. unfold record. rewrite Hj. answer x Hx. destruct x as [r e].
    cbn in Hx |- *. subst e. cbn. split; [done|]. split; [done|]. cbn. by rewrite Hj.
  - exfalso. revert Hin. unfold order. rewrite !elem_of_cons, elem_of_nil. naive_solver.
Qed.

Abbreviation loop := (dispatch_loop jobTemplate TemplateDigest IsAlreadyExists asAPIStatus).

Lemma wp_loop_fav c ctx step rest p g Q :
  is_Some (ClaimSnapshot c) -> step ∈ order ->
  (step = StepSnapshot -> ctx = Reconcile) -> (step = StepConfirm \/ step = StepRecord -> is_Some (created p)) ->
  let ctx' := if bool_decide (step = StepMark) && HoldsLock c then Critical else ctx in
  (forall p', (step = StepCreate \/ is_Some (created p) -> is_Some (created p')) ->
     wp (favourable_spec c) (loop ctx' rest p') Q (crossing c ctx' step ++ g)) ->
  wp (favourable_spec c) (loop ctx (step :: rest) p) Q g.
Proof.
  intros Hs Hin Hctx Hcr ctx' Hrest. cbn [dispatch_loop].
  assert (Hgo : wp (favourable_spec c) (outcome <-- run_step_ ctx' step p;
    match outcome with (Stop res err, _) => Ret (res, err) | (Proceed, p) => loop ctx' rest p end) Q g).
  { apply wp_bind. eapply wp_mono; [|apply wp_step_fav; [done..| |done]].
    - intros [r p'] g' (Hr & -> & Hp). cbn in Hr, Hp. subst r. by apply Hrest.
    - unfold ctx'. case_bool_decide; [by subst step|done]. }
  unfold ctx' in *. case_bool_decide; cbn [andb] in *; [|done]. answer x Hx. subst x. cbn [crossed app].
  destruct (HoldsLock c); [|done]. answer x Hx. cbn in Hx. subst x. done.
Qed.

(** A pass that meets no obstacle makes its Job. A claim with an admission
    snapshot whose family answers every call favourably goes through the
    boundaries in the one order, each exactly once, records the Job and
    returns no error; and from the mark on it runs on a context the manager's
    shutdown does not cancel. *)
Theorem dispatch_completes (c : Claim) (res : Result) (err : option dispatch_error) (log : list (Step * context)) :
  is_Some (ClaimSnapshot c) -> Mutating c && MayHaveDispatched (Dispatch_ c) = false ->
  exec (favourable c) (dispatch []) [] (res, err) log ->
  err = None /\ rev log = crossings (Mutating c) (HoldsLock c).
Proof.
  intros [snap Hsnap] Hmay Hex.
  assert (Hwp : wp (favourable_spec c) (dispatch [])
    (fun r g => r.2 = None /\ rev g = crossings (Mutating c) (HoldsLock c)) []).
  2: { exact (wp_exec (favourable_spec c) (favourable c) (fun _ _ _ _ _ _ H => H) _ _ _ _ _ Hex Hwp). }
  unfold Dispatch. answer x Hx. subst x. rewrite Hmay. cbn [sequence crossed app].
  unfold order. repeat (apply wp_loop_fav; [eauto|unfold order; set_solver|done|naive_solver|]; intros ? ?).
  cbn. split; [done|]. unfold crossing. by destruct (HoldsLock c), (Mutating c).
Qed.
End completes.

(** A family that answers everything favourably. *)
Definition sample_claim : @Claim string :=
  {| ClaimType := "Apply"; Mutating := true; HoldsLock := true;
     Dispatch_ := {| DispatchStarted := false; JobUID := EmptyString |};
     ClaimSnapshot := Some "template"; SnapshotRefreshed := false |}.

Definition all_fine (X : Type) (e : @famE string unit string unit X) (g : list (Step * context)) :
    X * list (Step * context) :=
  let go := {| stop := false; out_result := noResult; out_err := None |} in
  (match e in famE X return X with
   | FClaim => sample_claim
   | FCtxErr | FValidate _ | FMark _ | FWithdraw _ | FIntent _ _ => None
   | FAuthorize _ | FAcquireLease _ | FStage _ | FConsume _ => go
   | FBuild _ => ("job", go)
   | FResolve _ _ => Ok "template"
   | FDigest _ => Ok "template"
   | FSaveSnapshot _ _ | FRefreshSnapshot _ | FRefuse _ _ _ | FRecord _ _ | FUnaccounted _ _ _ | FRetry _ _ => (noResult, None)
   | FCreate _ _ => ("uid-1", None)
   | FConfirm _ job => Ok job
   end, crossed e ++ g).

Lemma dispatch_completes_witness :
  exists log, rev log = crossings true true /\ length log = 9%nat.
Proof.
  set (d := Dispatch (fun _ : string => tt) (fun s : string => s) (fun _ : unit => false) (fun _ => None) []).
  exists (run all_fine d []).2. split; [|vm_compute; reflexivity].
  refine (proj2 (dispatch_completes (fun _ : string => tt) (fun s : string => s) (fun _ : unit => false) (fun _ => None)
    sample_claim (run all_fine d []).1.1 (run all_fine d []).1.2 _ _ _ _)).
  - by exists "template".
  - reflexivity.
  - eapply exec_mono; [|rewrite <- surjective_pairing; exact (run_exec all_fine d [])].
    intros X e s x s' H. injection H as <- <-. split; [done|]. destruct e; try done; cbn; eauto.
    by intros s0 [= <-].
Defined.
