(* ===== verification/DispatchSafety.v ===== *)
(** * One Job per mutating claim

    What a resource family promises the driver of [DispatchDriver], as the
    class [FamilyLaws] over an abstract world [W] of durable state, and what
    the driver then guarantees across any number of passes, each of which may
    stop after any of its calls. [memory_family] is a family that meets the
    laws, with a scripted API server. *)
From stdpp Require Import base list gmap strings.
From Stdlib Require Import ZArith Lia.
From S2P Require Import Prelude GoStrings MutationLifecycle DispatchDriver.
Local Open Scope go_scope.
Local Open Scope nat_scope.

(** ** What a family promises *)

Section interface.
Context {Job Template Snapshot error : Type}.
Abbreviation event := (@famE Job Template Snapshot error).
Abbreviation claim := (@Claim Snapshot).

(** Answers after which the pass ends, so that the claim may be gone. *)
Definition may_retire {X} (e : event X) : X -> bool :=
  match e in famE X return X -> bool with
  | FAuthorize _ | FAcquireLease _ | FStage _ | FConsume _ => fun o => stop o
  | FBuild _ => fun a => stop a.2
  | FSaveSnapshot _ _ | FRefreshSnapshot _ | FRefuse _ _ _ | FUnaccounted _ _ _ | FRetry _ _ => fun _ => true
  | FRecord _ _ => fun a => match a.2 with Some _ => true | None => false end
  | _ => fun _ => false
  end.

(** The step whose durable effect an answer reports. *)
Definition reports {X} (e : event X) : X -> option Step :=
  match e in famE X return X -> option Step with
  | FAuthorize _ => fun o => if stop o then None else Some StepAuthorize
  | FAcquireLease _ => fun o => if stop o then None else Some StepLease
  | FStage _ => fun o => if stop o then None else Some StepStage
  | FConsume _ => fun o => if stop o then None else Some StepConsume
  | _ => fun _ => None
  end.

Definition is_create {X} (e : event X) : bool := match e with FCreate _ _ => true | _ => false end.
Definition is_withdraw {X} (e : event X) : bool := match e with FWithdraw _ => true | _ => false end.
Definition is_refresh {X} (e : event X) : bool := match e with FRefreshSnapshot _ => true | _ => false end.
Definition may_mark {X} (e : event X) : bool := match e with FMark _ | FRecord _ _ => true | _ => false end.

(** A world: the claim as it stands, whether it was retired, how many Jobs the
    API server ever stored for it, which steps have durably taken effect for
    it, and how a family answers a call. *)
Class Family (W : Type) : Type := {
  claim_of : W -> claim;
  retired : W -> bool;
  stored : W -> nat;
  effected : Step -> W -> bool;
  fstep : forall X, event X -> W -> X -> W -> Prop;
}.

Definition marked {W} `{Family W} (w : W) : bool := MayHaveDispatched (Dispatch_ (claim_of w)).
Definition has_snapshot {W} `{Family W} (w : W) : Prop := is_Some (ClaimSnapshot (claim_of w)).

Context (IsAlreadyExists : error -> bool) (asAPIStatus : error -> option Status).

(** The promises: [Claim] reads the claim; only [Create] stores a Job, at most
    one per call, and none when the answer is a refusal; only [Withdraw] clears
    the mark of a claim that is kept, and only [Mark] and [Record] set it; an
    outcome that proceeds has taken effect, and no effect is undone. *)
Class FamilyLaws (W : Type) `{Family W} : Prop := {
  claim_reads : forall w x w', fstep _ FClaim w x w' -> x = claim_of w /\ w' = w;
  only_create_stores : forall X (e : event X) w x w',
    fstep X e w x w' -> is_create e = false -> stored w' = stored w;
  create_stores_one : forall ctx job w x w',
    fstep _ (FCreate ctx job) w x w' -> stored w <= stored w' <= S (stored w);
  refused_stores_none : forall ctx job w job' err w',
    fstep _ (FCreate ctx job) w (job', Some err) w' ->
    ClassifyCreate IsAlreadyExists asAPIStatus err = AnswerRefused -> stored w' = stored w;
  kept_unless_stopped : forall X (e : event X) w x w',
    fstep X e w x w' -> may_retire e x = false -> retired w' = retired w;
  kind_is_fixed : forall X (e : event X) w x w',
    fstep X e w x w' -> retired w' = false ->
    Mutating (claim_of w') = Mutating (claim_of w) /\ HoldsLock (claim_of w') = HoldsLock (claim_of w);
  mark_kept : forall X (e : event X) w x w',
    fstep X e w x w' -> retired w' = false -> is_withdraw e = false -> marked w = true -> marked w' = true;
  mark_only_by_mark : forall X (e : event X) w x w',
    fstep X e w x w' -> retired w' = false -> may_mark e = false -> marked w' = true -> marked w = true;
  mark_marks : forall ctx w w', fstep _ (FMark ctx) w None w' -> marked w' = true;
  retirement_final : forall X (e : event X) w x w', fstep X e w x w' -> retired w = true -> retired w' = true;
  effect_kept : forall X (e : event X) w x w' s,
    fstep X e w x w' -> retired w' = false -> effected s w = true -> effected s w' = true;
  effect_reported : forall X (e : event X) w x w' s,
    fstep X e w x w' -> reports e x = Some s -> effected s w' = true;
  snapshot_kept : forall X (e : event X) w x w',
    fstep X e w x w' -> retired w' = false -> is_refresh e = false -> has_snapshot w -> has_snapshot w';
}.

(** ** Lifetimes *)

(** What other passes and other actors may do to the claim between two
    dispatch passes: supervise, adopt, harvest or retire it. *)
Definition between {W} `{Family W} (w w' : W) : Prop :=
  stored w' = stored w /\
  (retired w' = true \/
   retired w = false /\ retired w' = false /\ marked w' = marked w /\
   Mutating (claim_of w') = Mutating (claim_of w) /\ HoldsLock (claim_of w') = HoldsLock (claim_of w) /\
   ClaimSnapshot (claim_of w') = ClaimSnapshot (claim_of w) /\
   forall s, effected s w = true -> effected s w' = true).

Context (jobTemplate : Job -> Template) (TemplateDigest : Snapshot -> string).
Abbreviation dispatch := (Dispatch jobTemplate TemplateDigest IsAlreadyExists asAPIStatus).

(** The worlds a mutating claim goes through under driver [d]. A pass stops
    after any number of its calls: a crash, or its end. *)
Inductive lifetime {W} `{Family W} (d : Driver) : W -> Prop :=
| life_start w :
    retired w = false -> marked w = false -> stored w = 0 ->
    Mutating (claim_of w) = true -> HoldsLock (claim_of w) = true -> lifetime d w
| life_pass w w' :
    lifetime d w -> retired w = false -> exec_prefix fstep (dispatch d) w w' -> lifetime d w'
| life_between w w' : lifetime d w -> between w w' -> lifetime d w'.

(** The steps whose effects a Job depends on. *)
Definition account : list Step := [StepAuthorize; StepLease; StepStage; StepConsume].

(** What holds of a mutating claim at every moment: at most one Job was ever
    stored for it, and while the claim stands a stored Job is covered by the
    mark, and the mark by the whole account of what authorized it. *)
Definition one_job {W} `{Family W} (w : W) : Prop :=
  stored w <= 1 /\
  (retired w = false ->
     Mutating (claim_of w) = true /\ HoldsLock (claim_of w) = true /\
     (0 < stored w -> marked w = true) /\
     (marked w = true -> has_snapshot w /\ forall s, s ∈ account -> effected s w = true)).
End interface.
Arguments claim_reads {Job Template Snapshot error IsAlreadyExists asAPIStatus W H FamilyLaws} {w x w'}.
Arguments only_create_stores {Job Template Snapshot error IsAlreadyExists asAPIStatus W H FamilyLaws} {X e w x w'}.
Arguments create_stores_one {Job Template Snapshot error IsAlreadyExists asAPIStatus W H FamilyLaws} {ctx job w x w'}.
Arguments refused_stores_none {Job Template Snapshot error IsAlreadyExists asAPIStatus W H FamilyLaws} {ctx job w job' err w'}.
Arguments kept_unless_stopped {Job Template Snapshot error IsAlreadyExists asAPIStatus W H FamilyLaws} {X e w x w'}.
Arguments kind_is_fixed {Job Template Snapshot error IsAlreadyExists asAPIStatus W H FamilyLaws} {X e w x w'}.
Arguments mark_kept {Job Template Snapshot error IsAlreadyExists asAPIStatus W H FamilyLaws} {X e w x w'}.
Arguments mark_only_by_mark {Job Template Snapshot error IsAlreadyExists asAPIStatus W H FamilyLaws} {X e w x w'}.
Arguments mark_marks {Job Template Snapshot error IsAlreadyExists asAPIStatus W H FamilyLaws} {ctx w w'}.
Arguments retirement_final {Job Template Snapshot error IsAlreadyExists asAPIStatus W H FamilyLaws} {X e w x w'}.
Arguments effect_kept {Job Template Snapshot error IsAlreadyExists asAPIStatus W H FamilyLaws} {X e w x w' s}.
Arguments effect_reported {Job Template Snapshot error IsAlreadyExists asAPIStatus W H FamilyLaws} {X e w x w' s}.
Arguments snapshot_kept {Job Template Snapshot error IsAlreadyExists asAPIStatus W H FamilyLaws} {X e w x w'}.

(** ** The driver keeps it *)

Section safety.
Context {Job Template Snapshot error : Type}.
Context (IsAlreadyExists : error -> bool) (asAPIStatus : error -> option Status).
Context (jobTemplate : Job -> Template) (TemplateDigest : Snapshot -> string).
Context {W : Type} {F : @Family Job Template Snapshot error W}
        {L : @FamilyLaws Job Template Snapshot error IsAlreadyExists asAPIStatus W F}.
Abbreviation event := (@famE Job Template Snapshot error).

(** What a call requires of the world it is made in. *)
Definition requires (X : Type) (e : event X) (w : W) : Prop :=
  match e with
  | FMark _ => has_snapshot w /\ forall s, s ∈ account -> effected s w = true
  | FCreate _ _ => stored w = 0 /\ marked w = true
  | FWithdraw _ => stored w = 0
  | FRecord _ _ => marked w = true
  | FRefreshSnapshot _ => marked w = false
  | _ => True
  end.
Definition driver_spec : espec event W := {| pre := requires; post := fstep |}.

(** A call that meets its requirement keeps the invariant. *)
Lemma call_keeps X (e : event X) w x w' : one_job w -> requires X e w -> fstep X e w x w' -> one_job w'.
Proof.
  intros [Hle Hlive] Hreq Hstep. split.
  - destruct (is_create e) eqn:Hc.
    + destruct e; try discriminate Hc. pose proof (create_stores_one Hstep). destruct Hreq. lia.
    + by rewrite (only_create_stores Hstep Hc).
  - intros Hr'. destruct (retired w) eqn:Hr; [by rewrite (retirement_final Hstep Hr) in Hr'|].
    destruct (Hlive eq_refl) as (Hm & Hl & Hcov & Hacc).
    destruct (kind_is_fixed Hstep Hr') as [-> ->]. split; [done|]. split; [done|]. split.
    + intros Hpos. destruct (is_withdraw e) eqn:Hw.
      { destruct e; try discriminate Hw. rewrite (only_create_stores Hstep eq_refl) in Hpos.
        cbn in Hreq. lia. }
      refine (mark_kept Hstep Hr' Hw _). destruct (is_create e) eqn:Hc.
      * destruct e; try discriminate Hc. by destruct Hreq.
      * apply Hcov. by rewrite <- (only_create_stores Hstep Hc).
    + intros Hmk'. assert (Hacc' : has_snapshot w /\ forall s, s ∈ account -> effected s w = true).
      { destruct (may_mark e) eqn:Hmm; [destruct e; try discriminate Hmm; [done|by apply Hacc]|].
        apply Hacc, (mark_only_by_mark Hstep Hr' Hmm Hmk'). }
      destruct Hacc' as [Hs He]. split.
      * refine (snapshot_kept Hstep Hr' _ Hs). destruct (is_refresh e) eqn:Href; [|done].
        destruct e; try discriminate Href. cbn in Hreq.
        by rewrite (mark_only_by_mark Hstep Hr' eq_refl Hmk') in Hreq.
      * intros s Hin. refine (effect_kept Hstep Hr' _). by apply He.
Qed.

(** ** Phases of a pass *)

Definition live (w : W) : Prop :=
  retired w = false /\ Mutating (claim_of w) = true /\ HoldsLock (claim_of w) = true.
(** Before the mark: nothing stored, and the steps of [done] in effect. *)
Definition before (done : list Step) (w : W) : Prop :=
  live w /\ marked w = false /\ stored w = 0 /\ forall s, s ∈ done -> effected s w = true.
Definition ready (w : W) : Prop := before account w /\ has_snapshot w.
Definition marked_only (w : W) : Prop := live w /\ marked w = true /\ stored w = 0.
Definition after_create (w : W) : Prop := live w /\ marked w = true.

Lemma live_step X (e : event X) w x w' : live w -> fstep X e w x w' -> may_retire e x = false -> live w'.
Proof.
  intros (Hr & Hm & Hl) Hstep Hmay. assert (Hr' : retired w' = false)
    by (by rewrite (kept_unless_stopped Hstep Hmay)).
  destruct (kind_is_fixed Hstep Hr') as [E1 E2]. unfold live. by rewrite E1, E2.
Qed.

(** A call before the mark that lets the pass go on. *)
Lemma before_step X (e : event X) w x w' done :
  before done w -> fstep X e w x w' -> may_retire e x = false -> is_create e = false -> may_mark e = false ->
  before (match reports e x with Some s => s :: done | None => done end) w'.
Proof.
  intros (Hlive & Hun & Hst & Hdone) Hstep Hmay Hc Hmm.
  pose proof (live_step _ _ _ _ _ Hlive Hstep Hmay) as Hlive'. destruct (Hlive') as (Hr' & _).
  split; [done|]. split; [|split].
  - destruct (marked w') eqn:E; [|done]. by rewrite (mark_only_by_mark Hstep Hr' Hmm E) in Hun.
  - by rewrite (only_create_stores Hstep Hc).
  - assert (Hkeep : forall s, s ∈ done -> effected s w' = true) by (intros s Hs; exact (effect_kept Hstep Hr' (Hdone s Hs))).
    destruct (reports e x) as [s|] eqn:E; [|done]. intros s' [-> | Hin]%elem_of_cons; [|auto].
    exact (effect_reported Hstep E).
Qed.

Lemma snapshot_step X (e : event X) w x w' :
  live w -> has_snapshot w -> fstep X e w x w' -> may_retire e x = false -> has_snapshot w'.
Proof.
  intros Hl Hs Hstep Hmay. destruct (live_step _ _ _ _ _ Hl Hstep Hmay) as (Hr & _).
  refine (snapshot_kept Hstep Hr _ Hs). by destruct e.
Qed.

(** ** The steps *)

Abbreviation spec := driver_spec.
(** A step that lets the pass go on leaves the world in phase [P]. *)
Definition leaves (P : W -> Prop) (o : @step_outcome error * @dispatchPass Job) (w : W) : Prop :=
  match o.1 with Proceed => P w | Stop _ _ => True end.

Lemma wp_claim {A} (k : Claim -> prog event A) Q w :
  wp spec (k (claim_of w)) Q w -> wp spec (pbind (call FClaim) k) Q w.
Proof. intros Hk. split; [done|]. intros x w' Hstep. by destruct (claim_reads Hstep) as [-> ->]. Qed.

(** A call that ends the pass. *)
Lemma wp_last {X A} (e : event X) (k : X -> A) (Q : A -> W -> Prop) w :
  requires X e w -> (forall x w', Q (k x) w') -> wp spec (x <-- call e; Ret (k x)) Q w.
Proof. intros Hreq HQ. split; [done|]. intros x w' _. apply HQ. Qed.

Lemma wp_family_step (e : event Outcome) s p done w :
  before done w -> requires _ e w -> is_create e = false -> may_mark e = false ->
  (forall o, may_retire e o = stop o) -> (forall o, stop o = false -> reports e o = Some s) ->
  wp spec (family_step e p) (leaves (fun w' => before (s :: done) w' /\ (has_snapshot w -> has_snapshot w'))) w.
Proof.
  intros Hb Hreq Hc Hmm Hmay Hrep. split; [done|]. intros o w' Hstep. cbn. unfold leaves, of_outcome.
  destruct (stop o) eqn:Ho; cbn; [done|].
  pose proof (before_step _ _ _ _ _ _ Hb Hstep) as H. rewrite (Hrep _ Ho), Hmay in H. split; [auto|].
  intros Hs. refine (snapshot_step _ _ _ _ _ (proj1 Hb) Hs Hstep _). by rewrite Hmay.
Qed.

(** [build] keeps a phase that [Build] keeps. *)
Lemma wp_build ctx p (P : W -> Prop) w :
  P w -> (forall x w', fstep _ (FBuild ctx) w x w' -> stop x.2 = false -> P w') ->
  wp spec (build ctx p)
    (fun r w' => match r.1 with inl _ => P w' | inr Proceed => False | inr (Stop _ _) => True end) w.
Proof.
  intros HP Hkeep. unfold build. destruct (expected p); [done|]. split; [done|].
  intros [job o] w' Hstep. cbn. destruct (stop o) eqn:Ho; cbn.
  - unfold of_outcome. by rewrite Ho.
  - by eapply Hkeep.
Qed.

Lemma wp_validate_snapshot ctx done w :
  before done w ->
  wp spec (validate_snapshot ctx (claim_of w))
    (fun o w' => match o with Proceed => before done w' /\ (has_snapshot w -> has_snapshot w') | Stop _ _ => True end) w.
Proof.
  intros Hb. unfold validate_snapshot. destruct (ClaimSnapshot _) as [snap|] eqn:Hs; [|done].
  split; [done|]. intros x w' Hstep. cbn. destruct x as [e|]; [by apply wp_last|].
  split; [exact (before_step _ _ _ _ _ _ Hb Hstep eq_refl eq_refl eq_refl)|].
  intros Hsn. exact (snapshot_step _ _ _ _ _ (proj1 Hb) Hsn Hstep eq_refl).
Qed.

Lemma wp_judge_template ctx claim job done w :
  before done w -> (is_Some (ClaimSnapshot claim) -> has_snapshot w) ->
  wp spec (judge_template jobTemplate TemplateDigest ctx claim job)
    (fun o w' => match o with Proceed => before done w' /\ has_snapshot w' | Stop _ _ => True end) w.
Proof.
  intros Hb Hsn. unfold judge_template. destruct (ClaimSnapshot claim) as [snap|].
  - split; [done|]. intros [digest|e] w' Hstep; cbn [pbind]; [|by apply wp_last].
    pose proof (before_step _ _ _ _ _ _ Hb Hstep eq_refl eq_refl eq_refl) as Hb'. cbn in Hb'.
    case_bool_decide; [|destruct (SnapshotRefreshed claim); (apply wp_last; [|done]); [done|apply Hb']].
    split; [done|]. refine (snapshot_step _ _ _ _ _ (proj1 Hb) _ Hstep eq_refl). eauto.
  - split; [done|]. intros [snap|e] w' Hstep; cbn [pbind]; by apply wp_last.
Qed.

Lemma wp_snapshot ctx p done w :
  before done w ->
  wp spec (snapshot jobTemplate TemplateDigest ctx (claim_of w) p)
    (leaves (fun w' => before done w' /\ has_snapshot w')) w.
Proof.
  intros Hb. unfold snapshot. apply wp_bind. eapply wp_mono; [|by apply wp_validate_snapshot].
  intros [|res err] w1; [|done]. intros [Hb1 Hs1]. apply wp_bind.
  eapply wp_mono; [|apply (wp_build ctx p (fun w' => before done w' /\ (has_snapshot w -> has_snapshot w')) w1);
    [done|]].
  - intros [[job|[|]] p'] w2; cbn [fst]; [|done|done]. intros [Hb2 Hs2]. apply wp_bind.
    eapply wp_mono; [|by apply wp_judge_template]. by intros [|].
  - intros x w2 Hstep Hx. split.
    + exact (before_step _ _ _ _ _ _ Hb1 Hstep Hx eq_refl eq_refl).
    + intros H. exact (snapshot_step _ _ _ _ _ (proj1 Hb1) (Hs1 H) Hstep Hx).
Qed.

Lemma wp_mark ctx p w : ready w -> wp spec (run_step jobTemplate TemplateDigest IsAlreadyExists asAPIStatus ctx StepMark p) (leaves marked_only) w.
Proof.
  intros [(Hlive & Hun & Hst & Hacc) Hsn]. cbn [run_step]. apply wp_claim.
  destruct Hlive as (Hr & Hm & Hl). rewrite Hl. cbn [negb]. split; [done|].
  intros [e|] w' Hstep; [done|]. cbn. split; [|split].
  - by apply (live_step _ _ _ _ _ (conj Hr (conj Hm Hl)) Hstep).
  - exact (mark_marks Hstep).
  - by rewrite (only_create_stores Hstep eq_refl).
Qed.

Lemma wp_create ctx p w :
  marked_only w ->
  wp spec (create IsAlreadyExists asAPIStatus ctx (claim_of w) p) (leaves after_create) w.
Proof.
  intros Hmo. pose proof Hmo as ((_ & Hmut & _) & _). unfold create. rewrite Hmut. apply wp_bind.
  eapply wp_mono; [|apply (wp_build ctx p marked_only w Hmo)].
  - intros [[job|[|]] p'] w2; cbn [fst]; [|done|done]. intros (Hl & Hm & Hst).
    split; [done|]. intros [job' [e|]] w3 Hstep; cbn [pbind].
    + destruct (ClassifyCreate _ _ e) eqn:Hcl; cbn; [by apply wp_last..|].
      apply wp_last; [|done]. cbn. by rewrite (refused_stores_none Hstep Hcl).
    + split; [exact (live_step _ _ _ _ _ Hl Hstep eq_refl)|].
      destruct (live_step _ _ _ _ _ Hl Hstep eq_refl) as (Hr & _).
      exact (mark_kept Hstep Hr eq_refl Hm).
  - intros x w2 Hstep Hx. destruct Hmo as (Hl & Hm & Hst).
    pose proof (live_step _ _ _ _ _ Hl Hstep Hx) as Hl2. split; [done|]. split.
    + exact (mark_kept Hstep (proj1 Hl2) eq_refl Hm).
    + by rewrite (only_create_stores Hstep eq_refl).
Qed.

Lemma after_create_step X (e : event X) w x w' :
  after_create w -> fstep X e w x w' -> may_retire e x = false -> is_withdraw e = false -> after_create w'.
Proof.
  intros [Hl Hm] Hstep Hmay Hw. pose proof (live_step _ _ _ _ _ Hl Hstep Hmay) as Hl'. split; [done|].
  exact (mark_kept Hstep (proj1 Hl') Hw Hm).
Qed.

Lemma wp_confirm ctx claim p w : after_create w -> wp spec (confirm ctx claim p) (leaves after_create) w.
Proof.
  intros Ha. unfold confirm. destruct (created p) as [job|]; [|done].
  split; [done|]. intros [read|e] w1 Hstep; cbn [pbind].
  - pose proof (after_create_step _ _ _ _ _ Ha Hstep eq_refl eq_refl) as Ha1.
    split; [done|]. intros [e|] w2 Hstep2; cbn [pbind].
    + destruct (Mutating claim); cbn; by apply wp_last.
    + exact (after_create_step _ _ _ _ _ Ha1 Hstep2 eq_refl eq_refl).
  - destruct (Mutating claim); cbn; done.
Qed.

Lemma wp_record ctx p w : after_create w -> wp spec (record ctx p) (leaves after_create) w.
Proof.
  intros Ha. unfold record. destruct (created p) as [job|]; [|done].
  split; [apply Ha|]. intros [res [e|]] w1 Hstep; [done|].
  exact (after_create_step _ _ _ _ _ Ha Hstep eq_refl eq_refl).
Qed.

(** ** A pass *)

Abbreviation run_step_ := (run_step jobTemplate TemplateDigest IsAlreadyExists asAPIStatus).
Abbreviation loop := (dispatch_loop jobTemplate TemplateDigest IsAlreadyExists asAPIStatus).
Abbreviation dispatch := (Dispatch jobTemplate TemplateDigest IsAlreadyExists asAPIStatus).
Abbreviation anything := (fun _ _ => True).

Lemma wp_loop_step ctx step rest p (P : W -> Prop) w :
  step <> StepMark -> wp spec (run_step_ ctx step p) (leaves P) w ->
  (forall p' w', P w' -> wp spec (loop ctx rest p') anything w') ->
  wp spec (loop ctx (step :: rest) p) anything w.
Proof.
  intros Hne Hstep Hrest. cbn [dispatch_loop]. rewrite bool_decide_eq_false_2 by done.
  apply wp_bind. eapply wp_mono; [|exact Hstep]. intros [[|] p'] w'; [apply Hrest|done].
Qed.

Lemma wp_loop_mark ctx rest p w :
  ready w -> (forall p' w', marked_only w' -> wp spec (loop Critical rest p') anything w') ->
  wp spec (loop ctx (StepMark :: rest) p) anything w.
Proof.
  intros Hready Hrest. cbn [dispatch_loop]. rewrite bool_decide_eq_true_2 by done.
  apply wp_claim. pose proof Hready as ((Hlive & _) & _). destruct (Hlive) as (_ & _ & ->).
  split; [done|]. intros [e|] w1 Hstep; [done|]. cbn [pbind].
  apply wp_bind. eapply wp_mono; [|apply wp_mark].
  - intros [[|] p'] w'; [apply Hrest|done].
  - destruct Hready as [Hb Hs]. split.
    + exact (before_step _ _ _ _ _ _ Hb Hstep eq_refl eq_refl eq_refl).
    + exact (snapshot_step _ _ _ _ _ Hlive Hs Hstep eq_refl).
Qed.

(** The steps before the mark that a family method answers for. *)
Lemma wp_early step ctx p done w :
  step ∈ account -> before done w -> 
  wp spec (run_step_ ctx step p) (leaves (fun w' => before (step :: done) w' /\ (has_snapshot w -> has_snapshot w'))) w.
Proof.
  intros Hin Hb. pose proof Hb as ((_ & Hm & Hl) & _).
  unfold account in Hin. rewrite !elem_of_cons in Hin.
  destruct Hin as [-> | [-> | [-> | [-> | Hin]]]]; [..|by apply elem_of_nil in Hin];
    cbn [run_step]; apply wp_claim; rewrite ?Hm, ?Hl; cbn [negb];
    (apply wp_family_step; [done..|]; intros o Ho; cbn; by rewrite Ho).
Qed.

Lemma before_weaken d1 d2 w : d2 ⊆ d1 -> before d1 w -> before d2 w.
Proof. intros Hsub (? & ? & ? & Hd). do 3 (split; [done|]). auto. Qed.

Lemma wp_after_mark p w : marked_only w -> wp spec (loop Critical [StepCreate; StepConfirm; StepRecord] p) anything w.
Proof.
  intros Hm. eapply wp_loop_step; [done|cbn [run_step]; by apply wp_claim, wp_create|].
  intros p1 w1 Ha1. eapply wp_loop_step; [done|cbn [run_step]; by apply wp_claim, wp_confirm|].
  intros p2 w2 Ha2. eapply wp_loop_step; [done|cbn [run_step]; by apply wp_claim, wp_record|].
  done.
Qed.

Lemma wp_dispatch w : one_job w -> retired w = false -> wp spec (dispatch []) anything w.
Proof.
  intros [Hle Hlive] Hr. destruct (Hlive Hr) as (Hm & Hl & Hcov & _). unfold Dispatch. apply wp_claim. rewrite Hm. cbn [andb].
  fold (marked w). destruct (marked w) eqn:Hmk; [done|].
  assert (Hb : before [] w).
  { split; [done|]. split; [done|]. split; [|by intros s ?%elem_of_nil].
    destruct (stored w) eqn:E; [done|]. exfalso. by assert (false = true) by (apply Hcov; lia). }
  cbn [sequence]. unfold order.
  eapply wp_loop_step; [done|apply (wp_early StepAuthorize _ _ []); [set_solver|done]|]. intros p1 w1 [H1 _].
  eapply wp_loop_step; [done|apply (wp_early StepLease _ _ [StepAuthorize]); [set_solver|done]|]. intros p2 w2 [H2 _].
  eapply wp_loop_step; [done|apply (wp_early StepStage _ _ [StepLease; StepAuthorize]); [set_solver|done]|]. intros p3 w3 [H3 _].
  eapply wp_loop_step; [done|cbn [run_step]; apply wp_claim, wp_snapshot, H3|]. intros p4 w4 [H4 Hs].
  eapply wp_loop_step; [done|apply (wp_early StepConsume); [set_solver|exact H4]|]. intros p5 w5 [H5 Hs5].
  apply wp_loop_mark; [|apply wp_after_mark].
  split; [|auto]. eapply before_weaken; [|exact H5]. set_solver.
Qed.

Lemma pass_keeps w w' : one_job w -> retired w = false -> exec_prefix fstep (dispatch []) w w' -> one_job w'.
Proof.
  intros Hw Hr Hex. eapply (wp_exec_prefix spec fstep one_job); [|exact Hex|exact Hw|by apply wp_dispatch].
  intros X e s x s' Hs Hpre Hstep. split; [|exact Hstep]. by eapply call_keeps.
Qed.

Lemma between_keeps w w' : one_job w -> between w w' -> one_job w'.
Proof.
  intros [Hle Hlive] [Hst Hb]. split; [by rewrite Hst|]. intros Hr'.
  destruct Hb as [E|(Hr & _ & Hmk & E1 & E2 & E3 & Heff)]; [by rewrite E in Hr'|].
  destruct (Hlive Hr) as (Hm & Hl & Hcov & Hacc). unfold has_snapshot in *. rewrite Hmk, E1, E2, E3, Hst.
  do 3 (split; [done|]). intros Hmk'. destruct (Hacc Hmk'). split; [done|]. auto.
Qed.

Lemma lifetime_one_job w :
  lifetime IsAlreadyExists asAPIStatus jobTemplate TemplateDigest [] w -> one_job w.
Proof.
  induction 1 as [w Hr Hun Hst Hm Hl|w w' _ IH Hr Hex|w w' _ IH Hb].
  - split; [lia|]. intros _. split; [done|]. split; [done|]. rewrite Hst, Hun. split; [lia|done].
  - by eapply pass_keeps.
  - by eapply between_keeps.
Qed.
End safety.

(** ** A family in memory *)

Inductive mem_error : Type := MemNameTaken | MemRefused | MemLost.
Definition mem_already_exists (e : mem_error) : bool := match e with MemNameTaken => true | _ => false end.
Definition mem_status (e : mem_error) : option Status :=
  match e with
  | MemNameTaken => Some {| Code := 409; Reason := "AlreadyExists"; Details := None |}
  | MemRefused => Some {| Code := 403; Reason := "Forbidden"; Details := None |}
  | MemLost => None
  end.

(** What the API server does with the next create of a free name. *)
Inductive create_script : Type := StoresIt | StoresButLost | RefusesIt.

Record memory : Type := Memory {
  m_claim : @Claim string;
  m_retired : bool;
  m_stored : nat;
  m_present : bool;
  m_effected : list Step;
  m_script : list create_script;
}.

Definition goOn : @Outcome mem_error := {| stop := false; out_result := noResult; out_err := None |}.
Definition fine : @family_answer mem_error := (noResult, None).

Definition m_with_claim (w : memory) (started : bool) (uid : string) (snap : option string) (refreshed : bool) : memory :=
  let c := m_claim w in
  Memory {| ClaimType := ClaimType c; Mutating := Mutating c; HoldsLock := HoldsLock c;
            Dispatch_ := {| DispatchStarted := started; JobUID := uid |};
            ClaimSnapshot := snap; SnapshotRefreshed := refreshed |}
    (m_retired w) (m_stored w) (m_present w) (m_effected w) (m_script w).
Definition m_effect (s : Step) (w : memory) : memory :=
  Memory (m_claim w) (m_retired w) (m_stored w) (m_present w) (s :: m_effected w) (m_script w).
Definition m_retire (w : memory) : memory :=
  Memory (m_claim w) true (m_stored w) (m_present w) (m_effected w) (m_script w).
Definition m_store (n : nat) (present : bool) (w : memory) : memory :=
  Memory (m_claim w) (m_retired w) (n + m_stored w) present (m_effected w) (tail (m_script w)).

Definition m_create (job : string) (w : memory) : (string * option mem_error) * memory :=
  if m_present w then ((job, Some MemNameTaken), w) else
  match m_script w with
  | RefusesIt :: _ => ((job, Some MemRefused), m_store 0 false w)
  | StoresButLost :: _ => ((job, Some MemLost), m_store 1 true w)
  | _ => (("uid-1", None), m_store 1 true w)
  end.

Definition m_handle (X : Type) (e : @famE string unit string mem_error X) (w : memory) : X * memory :=
  let c := m_claim w in
  let d := Dispatch_ c in
  match e in famE X return X * memory with
  | FClaim => (c, w)
  | FCtxErr => (None, w)
  | FAuthorize _ => (goOn, m_effect StepAuthorize w)
  | FAcquireLease _ => (goOn, m_effect StepLease w)
  | FStage _ => (goOn, m_effect StepStage w)
  | FBuild _ => (("job", goOn), w)
  | FResolve _ _ => (Ok "template", w)
  | FValidate _ => (None, w)
  | FDigest _ => (Ok "template", w)
  | FSaveSnapshot _ s => (fine, m_with_claim w (DispatchStarted d) (JobUID d) (Some s) (SnapshotRefreshed c))
  | FRefreshSnapshot _ => (fine, m_with_claim w (DispatchStarted d) (JobUID d) None true)
  | FRefuse _ _ _ => (fine, m_retire w)
  | FConsume _ => (goOn, m_effect StepConsume w)
  | FMark _ => (None, m_with_claim w true (JobUID d) (ClaimSnapshot c) (SnapshotRefreshed c))
  | FWithdraw _ => (None, m_with_claim w false (JobUID d) (ClaimSnapshot c) (SnapshotRefreshed c))
  | FCreate _ job => m_create job w
  | FConfirm _ job => (if m_present w then Ok job else Err MemLost, w)
  | FIntent _ _ => (None, w)
  | FRecord _ job => (fine, m_with_claim w true job (ClaimSnapshot c) (SnapshotRefreshed c))
  | FUnaccounted _ _ _ => (fine, m_retire w)
  | FRetry _ _ => (fine, m_retire w)
  end.

#[export] Instance memory_family : @Family string unit string mem_error memory := {
  claim_of := m_claim;
  retired := m_retired;
  stored := m_stored;
  effected := fun s w => bool_decide (s ∈ m_effected w);
  fstep := deterministic m_handle;
}.

(** Every answer of the memory family, by cases on the call. *)
Ltac memory_cases e H :=
  destruct e; unfold deterministic, m_handle, m_create in H; cbn in H;
  repeat case_hyp H; injection H as <- <-.

#[export] Instance memory_family_laws : FamilyLaws mem_already_exists mem_status memory.
Proof.
  split.
  - intros w x w' H. by injection H as <- <-.
  - intros X e w x w' H Hc. cbn in *. memory_cases e H; done.
  - intros ctx job w x w' H. cbn in *. unfold deterministic, m_handle, m_create in H. cbn in H.
    repeat case_hyp H; injection H as <- <-; cbn; lia.
  - intros ctx job w job' err w' H Hcl. cbn in *. unfold deterministic, m_handle, m_create in H. cbn in H.
    repeat case_hyp H; simplify_eq; done.
  - intros X e w x w' H Hmay. cbn in *. memory_cases e H; done.
  - intros X e w x w' H Hr. cbn in *. memory_cases e H; done.
  - intros X e w x w' H Hr Hw Hm. unfold marked, MayHaveDispatched in *. cbn in *.
    memory_cases e H; cbn in *; done.
  - intros X e w x w' H Hr Hmm Hm. unfold marked, MayHaveDispatched in *. cbn in *.
    memory_cases e H; cbn in *; try done. by rewrite Hm, orb_true_r.
  - intros ctx w w' H. by injection H as <-.
  - intros X e w x w' H Hr. cbn in *. memory_cases e H; done.
  - intros X e w x w' s H Hr He. cbn in *. apply bool_decide_eq_true in He. apply bool_decide_eq_true.
    memory_cases e H; cbn; rewrite ?elem_of_cons; auto.
  - intros X e w x w' s H He. cbn in *. apply bool_decide_eq_true.
    memory_cases e H; cbn in *; try discriminate He; injection He as <-; apply elem_of_cons; auto.
  - intros X e w x w' H Hr Href Hs. unfold has_snapshot in *. cbn in *. memory_cases e H; done.
Qed.

(** A schedule: passes stopped after a number of calls, passes run to their
    end, and the deletion of the Job under the reserved name. *)
Inductive event_of_day : Type := CrashAfter (n : nat) | FullPass | JobDeleted.

Abbreviation mem_dispatch := (Dispatch (fun _ : string => tt) (fun s : string => s) mem_already_exists mem_status).

Definition day (d : Driver) (w : memory) (e : event_of_day) : memory :=
  match e with
  | CrashAfter n => if m_retired w then w else run_crash m_handle n (mem_dispatch d) w
  | FullPass => if m_retired w then w else run_crash m_handle 100 (mem_dispatch d) w
  | JobDeleted => m_store 0 false w
  end.

Abbreviation mem_lifetime := (lifetime mem_already_exists mem_status (fun _ : string => tt) (fun s : string => s)).

Lemma days_lifetime d l : forall w, mem_lifetime d w -> mem_lifetime d (fold_left (day d) l w).
Proof.
  induction l as [|e l IH]; intros w Hw; [done|]. apply IH.
  destruct e as [n| |]; unfold day.
  1-2: (destruct (m_retired w) eqn:Hr; [done|]; eapply life_pass; [exact Hw|exact Hr|apply (run_crash_prefix m_handle)]).
  eapply life_between; [exact Hw|]. split; [done|]. destruct (m_retired w) eqn:Hr; [left; exact Hr|].
  right. repeat split; try done; exact Hr.
Qed.

Definition apply_claim : @Claim string :=
  {| ClaimType := "Apply"; Mutating := true; HoldsLock := true;
     Dispatch_ := {| DispatchStarted := false; JobUID := EmptyString |};
     ClaimSnapshot := None; SnapshotRefreshed := false |}.
Definition new_claim (script : list create_script) : memory := Memory apply_claim false 0 false [] script.

Lemma new_claim_lifetime d script : mem_lifetime d (new_claim script).
Proof. by apply life_start. Qed.

(** The first pass saves the snapshot; the second creates the Job and dies
    before anything else; the Job is deleted; two more passes run. *)
Definition bad_day : list event_of_day := [FullPass; CrashAfter 16; JobDeleted; FullPass; FullPass].

(** * Properties *)

(** C5: A mutating claim never starts two executors. For every family that
    keeps the promises of [FamilyLaws], across any number of dispatch passes
    each stopped after any of its calls (a crash) and anything between them
    that leaves the claim's marks alone: at most one Job is ever stored for
    the claim, and while the claim stands a stored Job is covered by the
    dispatch mark, and the mark by an authorized claim, the realm Lease, the
    staged inputs, the admission snapshot and the spent approval. *)
Theorem one_job_per_claim {Job Template Snapshot error W : Type}
    (IsAlreadyExists : error -> bool) (asAPIStatus : error -> option Status)
    (jobTemplate : Job -> Template) (TemplateDigest : Snapshot -> string)
    {F : Family W} {L : FamilyLaws IsAlreadyExists asAPIStatus W} (w : W) :
  lifetime IsAlreadyExists asAPIStatus jobTemplate TemplateDigest [] w ->
  stored w <= 1 /\
  (retired w = false ->
     (0 < stored w -> marked w = true) /\
     (marked w = true -> has_snapshot w /\ forall s, s ∈ account -> effected s w = true)).
Proof. intros Hw. destruct (lifetime_one_job _ _ _ _ w Hw) as [Hle Hlive]. split; [done|]. intros Hr. apply (Hlive Hr). Qed.

Lemma one_job_per_claim_witness :
  let w := fold_left (day []) bad_day (new_claim [StoresButLost]) in m_stored w = 1 /\ stored w <= 1.
Proof.
  split; [vm_compute; reflexivity|].
  apply (one_job_per_claim mem_already_exists mem_status (fun _ : string => tt) (fun s : string => s)).
  apply days_lifetime, new_claim_lifetime.
Defined.

(** The order matters: the same family, under the driver that creates
    before it marks, stores two Jobs for one mutating claim on a schedule on
    which the driver's own order stores one. *)
Theorem mark_before_create_needed :
  exists w, mem_lifetime (Swapped [] StepMark StepCreate) w /\ stored w = 2.
Proof.
  exists (fold_left (day (Swapped [] StepMark StepCreate)) bad_day (new_claim [])). split.
  - apply days_lifetime, new_claim_lifetime.
  - vm_compute. reflexivity.
Qed.
