(* ===== verification/KubeMeta.v ===== *)
(** * Object metadata of the Kubernetes API

    The fields of [metav1.ObjectMeta] and [metav1.OwnerReference] the code
    reads or writes. A map or list an object does not have is empty: the API
    server's decoder leaves it nil. A time is in nanoseconds, [None] the zero
    time. *)
From stdpp Require Import base list gmap strings.
From Stdlib Require Import ZArith.
Local Open Scope Z_scope.

Record OwnerReference : Type := {
  OwnerAPIVersion : string;
  OwnerKind : string;
  OwnerName : string;
  OwnerUID : string;
  Controller : option bool;
  BlockOwnerDeletion : option bool;
}.
#[export] Instance OwnerReference_eq_dec : EqDecision OwnerReference.
Proof. solve_decision. Defined.

Record ObjectMeta : Type := {
  MetaName : string;
  GenerateName : string;
  MetaNamespace : string;
  SelfLink : string;
  MetaUID : string;
  ResourceVersion : string;
  MetaGeneration : Z;
  CreationTimestamp : option Z;
  DeletionTimestamp : option Z;
  DeletionGracePeriodSeconds : option Z;
  Labels : gmap string string;
  Annotations : gmap string string;
  OwnerReferences : list OwnerReference;
  Finalizers : list string;
  (** Each manager's entry as its text: it is only erased. *)
  ManagedFields : list string;
}.
#[export] Instance ObjectMeta_eq_dec : EqDecision ObjectMeta.
Proof. solve_decision. Defined.

(** An [ObjectMeta] literal: the fields it leaves out are zero. *)
Definition new_meta (namespace name : string) (labels : gmap string string) (owners : list OwnerReference) : ObjectMeta :=
  {| MetaName := name; GenerateName := EmptyString; MetaNamespace := namespace; SelfLink := EmptyString;
     MetaUID := EmptyString; ResourceVersion := EmptyString; MetaGeneration := 0; CreationTimestamp := None;
     DeletionTimestamp := None; DeletionGracePeriodSeconds := None; Labels := labels; Annotations := ∅;
     OwnerReferences := owners; Finalizers := []; ManagedFields := [] |}.
