(* ===== verification/PlanStore.v ===== *)
(** * Immutable plans in chunks (package [internal/planstore])

    [Prepare] cuts the bytes of a plan into chunks and writes the manifest,
    [Publish] commits plan, chunks and status through the API server, [Load]
    reads a committed plan back and [Project] copies it into the ConfigMaps an
    Apply mounts. Each is a program of API calls, which the server may answer
    in any way. [DeepEqual] on the compared types is equality: the one slice
    that may be nil, [PrivilegeChanges], is an [option].

    The conditions of a plan's status are kept by [k8s.io/apimachinery]: their
    type, [meta.IsStatusConditionTrue] of the Ready condition and
    [meta.SetStatusCondition] of it are parameters. *)
From stdpp Require Import base list gmap strings.
From Stdlib Require Import ZArith Lia Ascii.
From S2P Require Import Prelude GoStrings Sha256 Json Fingerprint TargetLock KubeMeta.
Local Open Scope go_scope.
Local Open Scope Z_scope.

(** ** Limits ([internal/plancontract]) *)

Definition MaxExecutableBytes : Z := Z.shiftl 8 20.
Definition ChunkBytes : Z := Z.shiftl 512 10.
Definition MaxChunks : Z := (MaxExecutableBytes + ChunkBytes - 1) / ChunkBytes.
Definition MaxPlanBytes : Z := MaxExecutableBytes.

(** ** Manager provenance ([internal/controllerstate]) *)

Definition MaxRevisionBytes : Z := 128.

(** A rune of [unicode.IsControl], in a valid UTF-8 string. *)
Fixpoint has_control (l : list Z) : bool :=
  match l with
  | [] => false
  | b :: rest =>
      (b <? 32) || (b =? 127) ||
      match rest with
      | c :: _ => (b =? 194) && (128 <=? c) && (c <=? 159)
      | [] => false
      end || has_control rest
  end.

Definition ValidateRevision (revision : string) : bool :=
  negb (bool_decide (revision = EmptyString)) && negb (MaxRevisionBytes <? len revision) &&
  utf8_str revision && bool_decide (trim_space revision = revision) && negb (has_control (bytes revision)).

(** ** Objects *)

Definition APIVersion : string := "operator.ptah.run/v1alpha1".

Record ObjectMeta : Type := {
  Namespace : string;
  Name_ : string;
  UID : string;
  Generation : Z;
  DeletionTimestamp : option Z;
  MetaLabels : gmap string string;
  OwnerReferences : list OwnerReference;
}.

Record PlanChunkReference : Type := {
  ChunkName : string;
  ChunkIndex : Z;
  ChunkDigest : string;
  ChunkSize : Z;
}.
#[export] Instance PlanChunkReference_eq_dec : EqDecision PlanChunkReference.
Proof. solve_decision. Defined.

Record PlanSourceBinding : Type := {
  SourceKind : string;
  SourceRevision : string;
  SourceContentDigest : string;
  SourcePolicy : option (string * string);
}.
#[export] Instance PlanSourceBinding_eq_dec : EqDecision PlanSourceBinding.
Proof. solve_decision. Defined.

Record PtahSchemaPlanSpec : Type := {
  ContractVersion : Z;
  SchemaRef : string * string;
  SpecFingerprint : string;
  ContentDigest : string;
  Size : Z;
  ArtifactDigest : string;
  Source : option PlanSourceBinding;
  CoordinationDigest : string;
  TargetIdentityDigest : string;
  ActualStateFingerprint : string;
  DesiredStateFingerprint : string;
  PolicyFingerprint : string;
  VerificationPolicyUID : string;
  VerificationPolicyDigest : string;
  ExecutionBindingID : string;
  ControllerImage : string;
  ControllerRevision : string;
  ControllerStateVersion : Z;
  PtahVersion : string;
  ExecutorImage : string;
  RunnerImage : string;
  RunnerProtocolVersion : Z;
  Dialect : string;
  Destructive : bool;
  PrivilegeChanges : option (list string);
  StatementCount : Z;
  Chunks : list PlanChunkReference;
}.
#[export] Instance PtahSchemaPlanSpec_eq_dec : EqDecision PtahSchemaPlanSpec.
Proof. solve_decision. Defined.

Record PublishedPlanChunkStatus : Type := {
  PublishedName : string;
  PublishedUID : string;
  PublishedIndex : Z;
}.

Record PtahSchemaPlanChunk : Type := { ChunkMeta : ObjectMeta; ChunkData : list Z }.

(** [BinaryData] and [Data]; a nil map reads as the empty one. *)
Record ConfigMap : Type := {
  ConfigMeta : ObjectMeta;
  Immutable : option bool;
  BinaryData : gmap string (list Z);
  Data : gmap string string;
}.

(** The owner of a plan: a [PtahSchema]'s namespace, name and UID. *)
Record SchemaOwner : Type := { SchemaNamespace : string; SchemaName : string; SchemaOwnerUID : string }.

Inductive store_error : Type :=
| SchemaRequired | EmptyContent | PlanTooLarge | WrongContentDigest | BadFingerprint
| BadContract (e : fp_error) | BadExecutionBinding | BadControllerImage | BadRevision | BadStateVersion
| WrongOwner | TooManyChunks | ChunksDoNotMatch
| API (e : api_error)
| BeingDeleted | DifferentContent
| ChunkMismatch (index : Z) | WrongChunkName (index : Z) | WrongChunkLabels (index : Z) | WrongChunkOwner (index : Z)
| PlanRequired | NotCommitted | ManifestStatusMismatch | BadCommitBinding (index : Z) | ChunkReplaced (index : Z)
| ReconstructedTooLarge | WrongContent | NotImmutable (index : Z) | BadProjection
| ErrVerification (e : store_error)
| ErrProjectionConflict (e : store_error)
| IndexOutOfRange.

(** ** Names and identities *)

Definition namePrefix : string := "ptah-plan-".
Definition LabelPlan : string := "operator.ptah.run/plan".
Definition LabelSchema : string := "operator.ptah.run/schema".
Definition ProjectionDataKey : string := "chunk".

Definition Name (planFingerprint : string) : result store_error string :=
  guard (is_sha256_digest planFingerprint) else BadFingerprint;
  Ok (namePrefix +:+ str_take 24 (str_drop 7 planFingerprint)).

(** [sourcebinding.Fingerprint]. *)
Definition source_fingerprint (source : option PlanSourceBinding) : option PlanSource :=
  match source with
  | None => None
  | Some s =>
      let '(uid, digest) := default (EmptyString, EmptyString) (SourcePolicy s) in
      Some {| Fingerprint.Kind := SourceKind s; Fingerprint.Revision := SourceRevision s;
              Fingerprint.ContentDigest := SourceContentDigest s;
              Fingerprint.PolicyUID := uid; Fingerprint.PolicyDigest := digest |}
  end.

Definition Binding (schemaUID : string) (spec : PtahSchemaPlanSpec) : PlanBinding :=
  {| Fingerprint.ContractVersion := ContractVersion spec;
     Fingerprint.SchemaUID := schemaUID;
     Fingerprint.PlanContentDigest := ContentDigest spec;
     Fingerprint.ArtifactDigest := ArtifactDigest spec;
     Fingerprint.Source := source_fingerprint (Source spec);
     Fingerprint.CoordinationDigest := CoordinationDigest spec;
     Fingerprint.TargetIdentityDigest := TargetIdentityDigest spec;
     Fingerprint.ActualStateFingerprint := ActualStateFingerprint spec;
     Fingerprint.DesiredStateFingerprint := DesiredStateFingerprint spec;
     Fingerprint.PolicyFingerprint := PolicyFingerprint spec;
     Fingerprint.VerificationPolicyUID := VerificationPolicyUID spec;
     Fingerprint.VerificationPolicyDigest := VerificationPolicyDigest spec;
     Fingerprint.ExecutionBindingID := ExecutionBindingID spec;
     Fingerprint.ControllerStateVersion := ControllerStateVersion spec;
     Fingerprint.PtahVersion := PtahVersion spec;
     Fingerprint.ExecutorImage := ExecutorImage spec;
     Fingerprint.RunnerProtocolVersion := RunnerProtocolVersion spec;
     Fingerprint.Destructive := Destructive spec;
     Fingerprint.PrivilegeChanges := default [] (PrivilegeChanges spec);
     Fingerprint.StatementCount := StatementCount spec |}.

Definition validatePlanContract (spec : PtahSchemaPlanSpec) : result store_error unit :=
  match ValidatePlanContractVersion (ContractVersion spec) with
  | Err e => Err (BadContract e)
  | Ok _ =>
      guard (is_epoch_id (ExecutionBindingID spec)) else BadExecutionBinding;
      guard (is_pinned_image (ControllerImage spec)) else BadControllerImage;
      guard (ValidateRevision (ControllerRevision spec)) else BadRevision;
      guard (negb (ControllerStateVersion spec <? 1)) else BadStateVersion;
      Ok tt
  end.

(** ** Chunks *)

Definition zlen {A} (l : list A) : Z := Z.of_nat (length l).

(** [split], by the number of bytes left; [size] is positive. *)
Fixpoint split_loop (fuel : nat) (content : list Z) (size : nat) : list (list Z) :=
  match fuel, content with
  | O, _ | _, [] => []
  | S fuel', _ => take size content :: split_loop fuel' (drop size content) size
  end.
Definition split (content : list Z) (size : Z) : list (list Z) :=
  split_loop (length content) content (Z.to_nat size).

Definition chunk_name (name : string) (index : Z) : string := name +:+ "-" +:+ format_03d index.
Definition chunk_reference (name : string) (index : nat) (chunk : list Z) : PlanChunkReference :=
  {| ChunkName := chunk_name name (Z.of_nat index); ChunkIndex := int32_wrap (Z.of_nat index);
     ChunkDigest := DigestBytes chunk; ChunkSize := int32_wrap (zlen chunk) |}.

Definition with_content (spec : PtahSchemaPlanSpec) (digest : string) (size : Z) (chunks : list PlanChunkReference) :
    PtahSchemaPlanSpec :=
  {| ContractVersion := ContractVersion spec; SchemaRef := SchemaRef spec; SpecFingerprint := SpecFingerprint spec;
     ContentDigest := digest; Size := size; ArtifactDigest := ArtifactDigest spec; Source := Source spec;
     CoordinationDigest := CoordinationDigest spec; TargetIdentityDigest := TargetIdentityDigest spec;
     ActualStateFingerprint := ActualStateFingerprint spec; DesiredStateFingerprint := DesiredStateFingerprint spec;
     PolicyFingerprint := PolicyFingerprint spec; VerificationPolicyUID := VerificationPolicyUID spec;
     VerificationPolicyDigest := VerificationPolicyDigest spec; ExecutionBindingID := ExecutionBindingID spec;
     ControllerImage := ControllerImage spec; ControllerRevision := ControllerRevision spec;
     ControllerStateVersion := ControllerStateVersion spec; PtahVersion := PtahVersion spec;
     ExecutorImage := ExecutorImage spec; RunnerImage := RunnerImage spec;
     RunnerProtocolVersion := RunnerProtocolVersion spec; Dialect := Dialect spec; Destructive := Destructive spec;
     PrivilegeChanges := PrivilegeChanges spec; StatementCount := StatementCount spec; Chunks := chunks |}.

(** [published.ControllerImage = ...] and its neighbours in [sameManifest]. *)
Definition with_publisher (spec : PtahSchemaPlanSpec) (image revision runner : string) : PtahSchemaPlanSpec :=
  {| ContractVersion := ContractVersion spec; SchemaRef := SchemaRef spec; SpecFingerprint := SpecFingerprint spec;
     ContentDigest := ContentDigest spec; Size := Size spec; ArtifactDigest := ArtifactDigest spec; Source := Source spec;
     CoordinationDigest := CoordinationDigest spec; TargetIdentityDigest := TargetIdentityDigest spec;
     ActualStateFingerprint := ActualStateFingerprint spec; DesiredStateFingerprint := DesiredStateFingerprint spec;
     PolicyFingerprint := PolicyFingerprint spec; VerificationPolicyUID := VerificationPolicyUID spec;
     VerificationPolicyDigest := VerificationPolicyDigest spec; ExecutionBindingID := ExecutionBindingID spec;
     ControllerImage := image; ControllerRevision := revision;
     ControllerStateVersion := ControllerStateVersion spec; PtahVersion := PtahVersion spec;
     ExecutorImage := ExecutorImage spec; RunnerImage := runner;
     RunnerProtocolVersion := RunnerProtocolVersion spec; Dialect := Dialect spec; Destructive := Destructive spec;
     PrivilegeChanges := PrivilegeChanges spec; StatementCount := StatementCount spec; Chunks := Chunks spec |}.

Definition owner_reference (kind name uid : string) : OwnerReference :=
  {| OwnerAPIVersion := APIVersion; OwnerKind := kind; OwnerName := name; OwnerUID := uid;
     Controller := Some true; BlockOwnerDeletion := Some true |}.

Section store.
Context {Conditions : Type} (noConditions : Conditions)
        (StorageReady : Conditions -> bool) (SetStorageReady : Conditions -> Z -> Z -> Conditions).

Record PtahSchemaPlan : Type := {
  PlanMeta : ObjectMeta;
  Spec : PtahSchemaPlanSpec;
  ObservedGeneration : Z;
  PublishedChunks : list PublishedPlanChunkStatus;
  PlanConditions : Conditions;
}.

Inductive storeE : Type -> Type :=
| CreatePlan (p : PtahSchemaPlan) : storeE (result api_error PtahSchemaPlan)
| GetPlan (key : string * string) : storeE (result api_error PtahSchemaPlan)
| CreateChunk (c : PtahSchemaPlanChunk) : storeE (result api_error PtahSchemaPlanChunk)
| GetChunk (key : string * string) : storeE (result api_error PtahSchemaPlanChunk)
| CreateConfigMap (c : ConfigMap) : storeE (result api_error ConfigMap)
| GetConfigMap (key : string * string) : storeE (result api_error ConfigMap)
| UpdatePlanStatus (p : PtahSchemaPlan) : storeE (result api_error PtahSchemaPlan).

(** ** Prepare *)

(** [schema] is nil or has no UID: [None]. *)
Definition Prepare (schema : option SchemaOwner) (spec : PtahSchemaPlanSpec) (content : list Z) :
    result store_error (PtahSchemaPlan * list (list Z)) :=
  match schema with
  | None => Err SchemaRequired
  | Some schema =>
      guard (negb (bool_decide (SchemaOwnerUID schema = EmptyString))) else SchemaRequired;
      guard (negb (zlen content =? 0)) else EmptyContent;
      guard (negb (MaxPlanBytes <? zlen content)) else PlanTooLarge;
      let contentDigest := DigestBytes content in
      guard (negb (negb (bool_decide (ContentDigest spec = EmptyString)) &&
                   negb (bool_decide (ContentDigest spec = contentDigest)))) else WrongContentDigest;
      guard (is_sha256_digest (SpecFingerprint spec)) else BadFingerprint;
      _ <-! validatePlanContract spec;
      guard (bool_decide (SchemaRef spec = (SchemaName schema, SchemaOwnerUID schema))) else WrongOwner;
      name <-! Name (SpecFingerprint spec);
      let chunks := split content ChunkBytes in
      guard (negb (MaxChunks <? zlen chunks)) else TooManyChunks;
      Ok ({| PlanMeta := {| Namespace := SchemaNamespace schema; Name_ := name; UID := EmptyString;
                            Generation := 0; DeletionTimestamp := None;
                            MetaLabels := {[LabelSchema := SchemaName schema]};
                            OwnerReferences := [owner_reference "PtahSchema" (SchemaName schema) (SchemaOwnerUID schema)] |};
             Spec := with_content spec contentDigest (zlen content) (imap (chunk_reference name) chunks);
             ObservedGeneration := 0; PublishedChunks := []; PlanConditions := noConditions |}, chunks)
  end.

(** ** The objects the store writes, and how it verifies them *)

Definition blockingPlanOwnerReference (plan : PtahSchemaPlan) : OwnerReference :=
  owner_reference "PtahSchemaPlan" (Name_ (PlanMeta plan)) (UID (PlanMeta plan)).

Definition chunkMetadata (plan : PtahSchemaPlan) (ref : PlanChunkReference) : ObjectMeta :=
  {| Namespace := Namespace (PlanMeta plan); Name_ := ChunkName ref; UID := EmptyString; Generation := 0;
     DeletionTimestamp := None;
     MetaLabels := {[LabelPlan := Name_ (PlanMeta plan); LabelSchema := (SchemaRef (Spec plan)).1]};
     OwnerReferences := [blockingPlanOwnerReference plan] |}.

Definition DesiredChunk (plan : PtahSchemaPlan) (ref : PlanChunkReference) (content : list Z) : PtahSchemaPlanChunk :=
  {| ChunkMeta := chunkMetadata plan ref; ChunkData := content |}.

Definition DesiredProjection (plan : PtahSchemaPlan) (ref : PlanChunkReference) (content : list Z) : ConfigMap :=
  {| ConfigMeta := chunkMetadata plan ref; Immutable := Some true;
     BinaryData := {[ProjectionDataKey := content]}; Data := ∅ |}.

Definition sameManifest (desired actual : PtahSchemaPlan) : result store_error unit :=
  guard (negb (bool_decide (is_Some (DeletionTimestamp (PlanMeta actual))))) else BeingDeleted;
  let published := with_publisher (Spec actual) (ControllerImage (Spec desired))
                     (ControllerRevision (Spec desired)) (RunnerImage (Spec desired)) in
  guard (bool_decide (Spec desired = published) &&
         bool_decide (OwnerReferences (PlanMeta desired) = OwnerReferences (PlanMeta actual))) else DifferentContent;
  Ok tt.

Definition verifyChunkMetadata (plan : PtahSchemaPlan) (ref : PlanChunkReference) (object : ObjectMeta) :
    result store_error unit :=
  guard (bool_decide (Name_ object = ChunkName ref)) else WrongChunkName (ChunkIndex ref);
  guard (bool_decide (str_or_empty (MetaLabels object !! LabelPlan) = Name_ (PlanMeta plan)) &&
         bool_decide (str_or_empty (MetaLabels object !! LabelSchema) = (SchemaRef (Spec plan)).1))
    else WrongChunkLabels (ChunkIndex ref);
  guard (bool_decide (OwnerReferences object = [blockingPlanOwnerReference plan])) else WrongChunkOwner (ChunkIndex ref);
  Ok tt.

Definition verifyChunk (plan : PtahSchemaPlan) (ref : PlanChunkReference) (expected : list Z)
    (chunk : PtahSchemaPlanChunk) : result store_error unit :=
  _ <-! verifyChunkMetadata plan ref (ChunkMeta chunk);
  let actual := ChunkData chunk in
  guard ((int32_wrap (zlen actual) =? ChunkSize ref) && bool_decide (ChunkDigest ref = DigestBytes actual) &&
         bool_decide (actual = expected)) else ChunkMismatch (ChunkIndex ref);
  Ok tt.

Definition VerifyProjection (plan : PtahSchemaPlan) (ref : PlanChunkReference) (configMap : ConfigMap) :
    result store_error unit :=
  guard (bool_decide (Immutable configMap = Some true)) else NotImmutable (ChunkIndex ref);
  _ <-! verifyChunkMetadata plan ref (ConfigMeta configMap);
  match BinaryData configMap !! ProjectionDataKey with
  | None => Err (ChunkMismatch (ChunkIndex ref))
  | Some actual =>
      guard (bool_decide (size (BinaryData configMap) = 1%nat) && bool_decide (size (Data configMap) = 0%nat) &&
             (int32_wrap (zlen actual) =? ChunkSize ref) && bool_decide (ChunkDigest ref = DigestBytes actual))
        else ChunkMismatch (ChunkIndex ref);
      Ok tt
  end.

Abbreviation program A := (prog storeE (result store_error A)).

Definition plan_key (plan : PtahSchemaPlan) : string * string := (Namespace (PlanMeta plan), Name_ (PlanMeta plan)).

(** ** Publish *)

(** Create the plan, or accept the one under its name. *)
Definition publish_plan (desired : PtahSchemaPlan) : program PtahSchemaPlan :=
  answer <-- call (CreatePlan desired);
  match answer with
  | Ok plan => Ret (Ok plan)
  | Err AlreadyExists =>
      got <-- call (GetPlan (plan_key desired));
      match got with
      | Err e => Ret (Err (API e))
      | Ok plan => Ret (_ <-! sameManifest desired plan; Ok plan)
      end
  | Err e => Ret (Err (API e))
  end.

(** Create chunk [index], or read the one under its name, and verify it. *)
Definition publish_chunk (plan : PtahSchemaPlan) (index : Z) (content : list Z) : program PublishedPlanChunkStatus :=
  match Chunks (Spec plan) !! Z.to_nat index with
  | None => Ret (Err IndexOutOfRange)
  | Some ref =>
      if negb (ChunkSize ref =? zlen content) || negb (bool_decide (ChunkDigest ref = DigestBytes content))
      then Ret (Err (ChunkMismatch index)) else
      answer <-- call (CreateChunk (DesiredChunk plan ref content));
      let finish chunk :=
        Ret (_ <-! verifyChunk plan ref content chunk;
             Ok {| PublishedName := Name_ (ChunkMeta chunk); PublishedUID := UID (ChunkMeta chunk);
                   PublishedIndex := int32_wrap index |}) in
      match answer with
      | Ok chunk => finish chunk
      | Err AlreadyExists =>
          got <-- call (GetChunk (Namespace (PlanMeta plan), ChunkName ref));
          match got with
          | Err e => Ret (Err (API e))
          | Ok chunk => finish chunk
          end
      | Err e => Ret (Err (API e))
      end
  end.

Fixpoint publish_chunks (plan : PtahSchemaPlan) (index : Z) (chunks : list (list Z)) :
    program (list PublishedPlanChunkStatus) :=
  match chunks with
  | [] => Ret (Ok [])
  | content :: rest =>
      first <-- publish_chunk plan index content;
      match first with
      | Err e => Ret (Err e)
      | Ok status =>
          others <-- publish_chunks plan (index + 1) rest;
          Ret (others <-! others; Ok (status :: others))
      end
  end.

(** Commit the status of the plan as it stands. *)
Definition commit_status (plan : PtahSchemaPlan) (published : list PublishedPlanChunkStatus) : program PtahSchemaPlan :=
  got <-- call (GetPlan (plan_key plan));
  match got with
  | Err e => Ret (Err (API e))
  | Ok latest =>
      answer <-- call (UpdatePlanStatus
        {| PlanMeta := PlanMeta latest; Spec := Spec latest; ObservedGeneration := Generation (PlanMeta latest);
           PublishedChunks := published;
           PlanConditions := SetStorageReady (PlanConditions latest) (Generation (PlanMeta latest)) (zlen published) |});
      Ret match answer with Ok latest => Ok latest | Err e => Err (API e) end
  end.

(** [desired] is nil: [None]. The client is configured. *)
Definition Publish (desired : option PtahSchemaPlan) (chunks : list (list Z)) : program PtahSchemaPlan :=
  match desired with
  | None => Ret (Err ChunksDoNotMatch)
  | Some desired =>
      if negb (zlen chunks =? zlen (Chunks (Spec desired))) then Ret (Err ChunksDoNotMatch) else
      match validatePlanContract (Spec desired) with
      | Err e => Ret (Err e)
      | Ok _ =>
          created <-- publish_plan desired;
          match created with
          | Err e => Ret (Err e)
          | Ok plan =>
              published <-- publish_chunks plan 0 chunks;
              match published with
              | Err e => Ret (Err e)
              | Ok published => commit_status plan published
              end
          end
      end
  end.

(** ** Load *)

(** [sort.Slice] by index. Entries with one index are left in the order the
    sort finds them, which no successful load depends on: it requires every
    index once. *)
Fixpoint insert_published (x : PublishedPlanChunkStatus) (l : list PublishedPlanChunkStatus) :=
  match l with
  | [] => [x]
  | y :: l' => if PublishedIndex x <=? PublishedIndex y then x :: l else y :: insert_published x l'
  end.
Definition sort_published (l : list PublishedPlanChunkStatus) : list PublishedPlanChunkStatus :=
  foldr insert_published [] l.

Definition refused {A} (e : store_error) : result store_error A := Err (ErrVerification e).

Definition load_chunk (plan : PtahSchemaPlan) (index : Z) (ref : PlanChunkReference)
    (committed : PublishedPlanChunkStatus) : program (list Z) :=
  if negb (ChunkIndex ref =? int32_wrap index) || negb (PublishedIndex committed =? int32_wrap index) ||
     negb (bool_decide (PublishedName committed = ChunkName ref)) ||
     bool_decide (PublishedUID committed = EmptyString)
  then Ret (refused (BadCommitBinding index)) else
  got <-- call (GetChunk (Namespace (PlanMeta plan), ChunkName ref));
  Ret match got with
      | Err NotFound => refused (API NotFound)
      | Err e => Err (API e)
      | Ok chunk =>
          if negb (bool_decide (UID (ChunkMeta chunk) = PublishedUID committed))
          then refused (ChunkReplaced index) else
          match verifyChunk plan ref (ChunkData chunk) chunk with
          | Err e => refused e
          | Ok _ => Ok (ChunkData chunk)
          end
      end.

Fixpoint load_chunks (plan : PtahSchemaPlan) (index : Z) (refs : list PlanChunkReference)
    (published : list PublishedPlanChunkStatus) (content : list Z) : program (list Z) :=
  match refs, published with
  | [], _ => Ret (Ok content)
  | _ :: _, [] => Ret (Err IndexOutOfRange)
  | ref :: refs, committed :: published =>
      data <-- load_chunk plan index ref committed;
      match data with
      | Err e => Ret (Err e)
      | Ok data =>
          if MaxPlanBytes <? zlen content + zlen data then Ret (refused ReconstructedTooLarge)
          else load_chunks plan (index + 1) refs published (content ++ data)
      end
  end.

(** [plan] is nil: [None]. The reader is configured. *)
Definition Load (plan : option PtahSchemaPlan) : program (list Z) :=
  match plan with
  | None => Ret (Err PlanRequired)
  | Some plan =>
      if bool_decide (UID (PlanMeta plan) = EmptyString) then Ret (Err PlanRequired) else
      match validatePlanContract (Spec plan) with
      | Err e => Ret (refused e)
      | Ok _ =>
          if negb (ObservedGeneration plan =? Generation (PlanMeta plan)) || negb (StorageReady (PlanConditions plan))
          then Ret (refused NotCommitted) else
          if (zlen (Chunks (Spec plan)) =? 0) || negb (zlen (Chunks (Spec plan)) =? zlen (PublishedChunks plan))
          then Ret (refused ManifestStatusMismatch) else
          loaded <-- load_chunks plan 0 (Chunks (Spec plan)) (sort_published (PublishedChunks plan)) [];
          Ret match loaded with
              | Err e => Err e
              | Ok content =>
                  if negb (zlen content =? Size (Spec plan)) ||
                     negb (bool_decide (DigestBytes content = ContentDigest (Spec plan)))
                  then refused WrongContent else Ok content
              end
      end
  end.

(** ** Project *)

Definition project_chunk (plan : PtahSchemaPlan) (index : Z) (data : list Z) : program unit :=
  match Chunks (Spec plan) !! Z.to_nat index with
  | None => Ret (Err IndexOutOfRange)
  | Some ref =>
      if negb (ChunkIndex ref =? int32_wrap index) || negb (ChunkSize ref =? zlen data) ||
         negb (bool_decide (ChunkDigest ref = DigestBytes data))
      then Ret (Err (ChunkMismatch index)) else
      let finish configMap :=
        Ret match VerifyProjection plan ref configMap with
            | Err e => Err (ErrProjectionConflict e)
            | Ok _ => Ok tt
            end in
      answer <-- call (CreateConfigMap (DesiredProjection plan ref data));
      match answer with
      | Ok configMap => finish configMap
      | Err AlreadyExists =>
          got <-- call (GetConfigMap (Namespace (PlanMeta plan), ChunkName ref));
          match got with
          | Err e => Ret (Err (API e))
          | Ok configMap => finish configMap
          end
      | Err e => Ret (Err (API e))
      end
  end.

Fixpoint project_chunks (plan : PtahSchemaPlan) (index : Z) (chunks : list (list Z)) : program unit :=
  match chunks with
  | [] => Ret (Ok tt)
  | data :: rest =>
      first <-- project_chunk plan index data;
      match first with
      | Err e => Ret (Err e)
      | Ok _ => project_chunks plan (index + 1) rest
      end
  end.

Definition Project (plan : option PtahSchemaPlan) (content : list Z) : program unit :=
  match plan with
  | None => Ret (Err PlanRequired)
  | Some plan =>
      if bool_decide (UID (PlanMeta plan) = EmptyString) then Ret (Err PlanRequired) else
      match validatePlanContract (Spec plan) with
      | Err e => Ret (Err e)
      | Ok _ =>
          if negb (zlen content =? Size (Spec plan)) ||
             negb (bool_decide (DigestBytes content = ContentDigest (Spec plan)))
          then Ret (Err WrongContent) else
          let chunks := split content ChunkBytes in
          if negb (zlen chunks =? zlen (Chunks (Spec plan))) then Ret (Err ChunksDoNotMatch)
          else project_chunks plan 0 chunks
      end
  end.

(** ** Volumes *)

(** A projection: the ConfigMap, its key, the path and the file mode. *)
Record VolumeProjection : Type := { VolumeConfigMap : string; VolumeKey : string; VolumePath : string; VolumeMode : Z }.

Fixpoint volume_sources (index : Z) (refs : list PlanChunkReference) : result store_error (list VolumeProjection) :=
  match refs with
  | [] => Ok []
  | ref :: rest =>
      guard (negb (negb (ChunkIndex ref =? int32_wrap index) || bool_decide (ChunkName ref = EmptyString))) else BadProjection;
      others <-! volume_sources (index + 1) rest;
      Ok ({| VolumeConfigMap := ChunkName ref; VolumeKey := ProjectionDataKey;
             VolumePath := format_03d index +:+ ".plan"; VolumeMode := 288 |} :: others)
  end.

Definition VolumeSources (plan : option PtahSchemaPlan) : result store_error (list VolumeProjection) :=
  match plan with
  | None => Err BadProjection
  | Some plan =>
      let refs := Chunks (Spec plan) in
      guard (negb ((zlen refs =? 0) || (MaxChunks <? zlen refs))) else BadProjection;
      _ <-! validatePlanContract (Spec plan);
      volume_sources 0 refs
  end.
End store.
