(* ===== verification/PlanStoreProofs.v ===== *)
(** * What the plan store guarantees

    The chunks of a plan, what a successful [Load] proves about the bytes it
    returns, and what a successful [Project] carries into the Pod. *)
From stdpp Require Import base list gmap strings.
From Stdlib Require Import ZArith Lia Ascii.
From S2P Require Import Prelude GoStrings Sha256 Json Fingerprint TargetLock KubeMeta PlanStore.
Local Open Scope go_scope.
Local Open Scope Z_scope.

(** ** Splitting *)

Lemma split_loop_concat size : (0 < size)%nat -> forall fuel content,
  (length content <= fuel)%nat -> concat (split_loop fuel content size) = content.
Proof.
  intros Hs. induction fuel as [|fuel IH]; intros [|b content] Hl; try done; [cbn in Hl; lia|].
  cbn [split_loop concat]. rewrite IH by (rewrite length_drop; cbn [length] in *; lia).
  apply take_drop.
Qed.

Lemma split_loop_sizes size : (0 < size)%nat -> forall fuel content,
  Forall (fun c => 0 < length c <= size)%nat (split_loop fuel content size).
Proof.
  intros Hs. induction fuel as [|fuel IH]; intros [|b content]; constructor; [|apply IH].
  rewrite length_take. cbn [length]. lia.
Qed.

(** Every chunk but the last is full. *)
Lemma split_loop_full size : (0 < size)%nat -> forall fuel content c rest,
  split_loop fuel content size = c :: rest -> rest <> [] -> length c = size.
Proof.
  intros Hs [|fuel] [|b content] c rest; cbn [split_loop]; try done. intros [= <- <-] Hne.
  rewrite length_take. destruct (decide (size <= length (b :: content))%nat); [lia|].
  exfalso. apply Hne. rewrite drop_ge by lia. by destruct fuel.
Qed.

Lemma split_loop_count size : (0 < size)%nat -> forall fuel content,
  (length content <= fuel)%nat ->
  zlen (split_loop fuel content size) = (zlen content + Z.of_nat size - 1) / Z.of_nat size.
Proof.
  intros Hs. unfold zlen. induction fuel as [|fuel IH]; intros content Hl.
  - destruct content; [|cbn in Hl; lia]. symmetry. cbn. apply Z.div_small. lia.
  - destruct content as [|b content]; [symmetry; apply Z.div_small; cbn; lia|].
    cbn [split_loop length]. rewrite Nat2Z.inj_succ, IH by (rewrite length_drop; cbn [length] in *; lia).
    rewrite length_drop. cbn [length]. destruct (decide (size <= S (length content))%nat).
    + rewrite Nat2Z.inj_sub by lia.
      replace (Z.of_nat (S (length content)) + Z.of_nat size - 1)
        with (Z.of_nat (S (length content)) - Z.of_nat size + Z.of_nat size - 1 + 1 * Z.of_nat size) by lia.
      rewrite Z.div_add by lia. lia.
    + replace (S (length content) - size)%nat with O by lia. cbn [Z.of_nat].
      rewrite (Z.div_small (0 + _ - 1)) by lia. apply (Z.div_unique _ _ _ (Z.of_nat (S (length content)) - 1)); lia.
Qed.

Lemma ChunkBytes_pos : 0 < ChunkBytes.
Proof. done. Qed.

Lemma split_concat content size : 0 < size -> concat (split content size) = content.
Proof. intros Hs. apply split_loop_concat; lia. Qed.

Lemma split_sizes content size : 0 < size -> Forall (fun c => 0 < zlen c <= size) (split content size).
Proof.
  intros Hs. eapply Forall_impl; [apply split_loop_sizes; lia|]. intros c Hc. cbn in Hc. unfold zlen. lia.
Qed.

(** Cutting a plan loses and invents nothing. For every positive size the
    chunks concatenate to the content, every chunk holds between one and
    [size] bytes, there are as many as the size requires, and so a plan within
    the byte limit never needs more than [MaxChunks] chunks: the chunk-count
    refusal of [Prepare] cannot happen. *)
Theorem split_partitions (content : list Z) (size : Z) :
  0 < size ->
  concat (split content size) = content /\
  Forall (fun c => 0 < zlen c <= size) (split content size) /\
  zlen (split content size) = (zlen content + size - 1) / size /\
  (size = ChunkBytes -> zlen content <= MaxPlanBytes -> zlen (split content size) <= MaxChunks).
Proof.
  intros Hs. assert (Hcount : zlen (split content size) = (zlen content + size - 1) / size).
  { unfold split. rewrite split_loop_count by lia. by rewrite Z2Nat.id by lia. }
  split; [by apply split_concat|]. split; [by apply split_sizes|]. split; [done|].
  intros -> Hlen. rewrite Hcount. unfold MaxChunks, MaxPlanBytes in *. apply Z.div_le_mono; [done|].
  lia.
Qed.

Lemma split_partitions_witness :
  concat (split [1; 2; 3; 4; 5] 2) = [1; 2; 3; 4; 5] /\ split [1; 2; 3; 4; 5] 2 = [[1; 2]; [3; 4]; [5]].
Proof. split; [apply (split_partitions [1; 2; 3; 4; 5] 2); lia|reflexivity]. Defined.

(** ** Loading *)

Section load.
Context {Conditions : Type} (StorageReady : Conditions -> bool).
Abbreviation Plan := (@PtahSchemaPlan Conditions).

(** Any answers; the chunks that were read, in order. *)
Definition any_chunk (X : Type) (e : @storeE Conditions X) (g : list PtahSchemaPlanChunk) (x : X)
    (g' : list PtahSchemaPlanChunk) : Prop :=
  match e in storeE X return X -> Prop with
  | GetChunk _ => fun x => match x with Ok c => g' = g ++ [c] | Err _ => g' = g end
  | _ => fun _ => g' = g
  end x.
Definition load_spec : espec (@storeE Conditions) (list PtahSchemaPlanChunk) :=
  {| pre := fun _ _ _ => True; post := any_chunk |}.

(** [chunk] is the committed, verified object for [ref]. *)
Definition genuine (plan : Plan) (refcommit : PlanChunkReference * PublishedPlanChunkStatus)
    (chunk : PtahSchemaPlanChunk) : Prop :=
  let '(ref, committed) := refcommit in
  UID (ChunkMeta chunk) = PublishedUID committed /\ PublishedUID committed <> EmptyString /\
  PublishedName committed = ChunkName ref /\ PublishedIndex committed = ChunkIndex ref /\
  DigestBytes (ChunkData chunk) = ChunkDigest ref /\
  OwnerReferences (ChunkMeta chunk) = [blockingPlanOwnerReference plan].

Lemma verifyChunk_ok (plan : Plan) ref expected chunk :
  verifyChunk plan ref expected chunk = Ok tt ->
  DigestBytes (ChunkData chunk) = ChunkDigest ref /\ ChunkData chunk = expected /\
  OwnerReferences (ChunkMeta chunk) = [blockingPlanOwnerReference plan].
Proof.
  unfold verifyChunk, verifyChunkMetadata. intros H.
  destruct (bool_decide (Name_ _ = _)); [|done]. destruct (_ && _) in H; [|done].
  destruct (bool_decide (OwnerReferences _ = _)) eqn:Ho; [|done]. cbn [rbind] in H.
  destruct (_ && _) eqn:E in H; [|done]. bool_prop. done.
Qed.

Lemma wp_load_chunk (plan : Plan) index ref committed g :
  wp load_spec (load_chunk plan index ref committed)
    (fun r g' => match r with
                 | Ok data => exists c, g' = g ++ [c] /\ data = ChunkData c /\ genuine plan (ref, committed) c
                 | Err _ => True
                 end) g.
Proof.
  unfold load_chunk. destruct (_ || _) eqn:E; [done|]. split; [done|]. intros x g' Hx.
  destruct x as [c|[| | |]]; cbn; [|done..]. cbn in Hx. subst g'.
  destruct (negb (bool_decide (UID _ = _))) eqn:Hu; [done|].
  destruct (verifyChunk plan ref (ChunkData c) c) as [[]|e] eqn:Hv; [|done].
  apply verifyChunk_ok in Hv as (Hd & _ & Ho). bool_prop. exists c. repeat split; try done. congruence.
Qed.

Lemma wp_load_chunks (plan : Plan) refs : forall index published content g,
  wp load_spec (load_chunks plan index refs published content)
    (fun r g' => match r with
                 | Ok out => exists cs, g' = g ++ cs /\ out = content ++ concat (ChunkData <$> cs) /\
                     (zlen content <= MaxPlanBytes -> zlen out <= MaxPlanBytes) /\
                     Forall2 (genuine plan) (zip refs published) cs /\ length cs = length refs
                 | Err _ => True
                 end) g.
Proof.
  induction refs as [|ref refs IH]; intros index published content g.
  { cbn. exists []. rewrite !app_nil_r. by repeat split. }
  destruct published as [|committed published]; [done|]. cbn [load_chunks]. apply wp_bind.
  eapply wp_mono; [|apply wp_load_chunk]. intros [data|e] g1; [|done]. intros (c & -> & -> & Hc).
  destruct (MaxPlanBytes <? _) eqn:Hlen; [done|]. eapply wp_mono; [|apply IH].
  intros [out|e] g2; [|done]. intros (cs & -> & -> & Hout & Hcs & Hl). bool_prop.
  rewrite <- !app_assoc in Hout. exists (c :: cs). rewrite <- !app_assoc. cbn.
  split; [done|]. split; [done|]. split; [|split].
  - intros _. apply Hout. unfold zlen in *. rewrite length_app. lia.
  - by constructor.
  - by rewrite Hl.
Qed.

(** C18: A load returns the bytes that were approved, or refuses. Whatever the
    API server answers, when [Load] returns bytes they are the concatenation,
    in manifest order, of chunks it read, each of which is the committed
    object (by UID), is owned by the plan and has the digest its manifest
    entry records; the whole has the plan's size and content digest and is
    within the size limit. So it equals the content the digest was computed
    from, unless SHA-256 collides on the two. *)
Theorem load_sound (plan : Plan) (content : list Z) (read : list PtahSchemaPlanChunk) :
  exec any_chunk (Load StorageReady (Some plan)) [] (Ok content) read ->
  content = concat (ChunkData <$> read) /\
  Forall2 (genuine plan) (zip (Chunks (Spec plan)) (sort_published (PublishedChunks plan))) read /\
  length read = length (Chunks (Spec plan)) /\
  zlen content = Size (Spec plan) /\ zlen content <= MaxPlanBytes /\
  DigestBytes content = ContentDigest (Spec plan) /\
  forall approved, DigestBytes approved = ContentDigest (Spec plan) -> content = approved \/ collision content approved.
Proof.
  intros Hex. cbn [Load] in Hex.
  destruct (bool_decide _); [by destruct Hex|]. destruct (validatePlanContract _); [|by destruct Hex].
  destruct (_ || _); [by destruct Hex|]. destruct (_ || _) in Hex; [by destruct Hex|].
  apply exec_bind in Hex as (r & g1 & Hload & Hrest). destruct Hrest as [Hr ->].
  eapply (wp_exec load_spec any_chunk) in Hload; [|done|apply wp_load_chunks].
  destruct r as [out|e]; [|done]. destruct Hload as (cs & -> & -> & Hle & Hcs & Hlen). cbn [app] in *.
  destruct (_ || _) eqn:E; [done|]. injection Hr as ->. bool_prop.
  repeat split; try done; [by apply Hle|]. intros approved Ha. apply DigestBytes_inj. congruence.
Qed.
End load.

(** ** Projecting *)

Section project.
Context {Conditions : Type}.
Abbreviation Plan := (@PtahSchemaPlan Conditions).

(** Any answers; the ConfigMaps that were created or read, in order. *)
Definition any_config (X : Type) (e : @storeE Conditions X) (g : list ConfigMap) (x : X) (g' : list ConfigMap) : Prop :=
  match e in storeE X return X -> Prop with
  | CreateConfigMap _ | GetConfigMap _ => fun x => match x with Ok c => g' = g ++ [c] | Err _ => g' = g end
  | _ => fun _ => g' = g
  end x.
Definition project_spec : espec (@storeE Conditions) (list ConfigMap) :=
  {| pre := fun _ _ _ => True; post := any_config |}.

(** The one file a projection mounts, and its digest. *)
Definition carries (plan : Plan) (ref : PlanChunkReference) (c : ConfigMap) : Prop :=
  Name_ (ConfigMeta c) = ChunkName ref /\ Immutable c = Some true /\
  OwnerReferences (ConfigMeta c) = [blockingPlanOwnerReference plan] /\
  exists data, BinaryData c = {[ProjectionDataKey := data]} /\ Data c = ∅ /\ DigestBytes data = ChunkDigest ref.

Lemma VerifyProjection_ok (plan : Plan) ref c : VerifyProjection plan ref c = Ok tt -> carries plan ref c.
Proof.
  unfold VerifyProjection, verifyChunkMetadata. intros H.
  destruct (bool_decide (Immutable _ = _)) eqn:Hi; [|done].
  destruct (bool_decide (Name_ _ = _)) eqn:Hn; [|done]. destruct (_ && _) in H; [|done].
  destruct (bool_decide (OwnerReferences _ = _)) eqn:Ho; [|done]. cbn [rbind] in H.
  destruct (BinaryData c !! _) as [data|] eqn:Hd; [|done]. destruct (_ && _) eqn:E in H; [|done]. bool_prop.
  do 3 (split; [done|]). exists data. split; [|split; [|done]].
  - by apply singleton_of_size.
  - by apply map_size_empty_iff.
Qed.

Lemma wp_project_chunk (plan : Plan) index data g :
  wp project_spec (project_chunk plan index data)
    (fun r g' => r = Ok tt -> exists ref c, Chunks (Spec plan) !! Z.to_nat index = Some ref /\ g' = g ++ [c] /\
                   ChunkDigest ref = DigestBytes data /\ carries plan ref c) g.
Proof.
  unfold project_chunk. destruct (Chunks _ !! _) as [ref|] eqn:Href; [|done].
  destruct (_ || _) eqn:E; [done|]. bool_prop.
  assert (Hfinish : forall c, wp project_spec
    (Ret match VerifyProjection plan ref c with Err e => Err (ErrProjectionConflict e) | Ok _ => Ok tt end)
    (fun r g' => r = Ok tt -> exists ref0 c0, Some ref = Some ref0 /\ g' = g ++ [c0] /\
                   ChunkDigest ref0 = DigestBytes data /\ carries plan ref0 c0) (g ++ [c])).
  { intros c. cbn. destruct (VerifyProjection plan ref c) as [[]|] eqn:Hv; [|done]. intros _.
    apply VerifyProjection_ok in Hv. by exists ref, c. }
  split; [done|]. intros x g' Hx. destruct x as [c|e]; cbn in Hx; subst g'; cbn [pbind]; [apply Hfinish|].
  destruct e; try done. split; [done|]. intros y g'' Hy. destruct y as [c|e]; cbn in Hy; subst g''; [apply Hfinish|done].
Qed.

Lemma wp_project_chunks (plan : Plan) chunks : forall index g, 0 <= index ->
  wp project_spec (project_chunks plan index chunks)
    (fun r g' => r = Ok tt -> exists cs, g' = g ++ cs /\
       Forall2 (fun data c => exists ref, ChunkDigest ref = DigestBytes data /\ carries plan ref c) chunks cs /\
       forall i c, cs !! i = Some c -> exists ref, Chunks (Spec plan) !! (Z.to_nat index + i)%nat = Some ref /\ carries plan ref c) g.
Proof.
  induction chunks as [|data chunks IH]; intros index g Hi.
  { cbn. intros _. exists []. rewrite app_nil_r. repeat split; [constructor|]. by intros i c. }
  cbn [project_chunks]. apply wp_bind. eapply wp_mono; [|apply wp_project_chunk].
  intros [[]|e] g1 H1; [|done]. destruct (H1 eq_refl) as (ref & c & Href & -> & Hdig & Hc).
  eapply wp_mono; [|apply IH; lia]. intros r g2 H2 Hr. destruct (H2 Hr) as (cs & -> & Hcs & Hall).
  exists (c :: cs). rewrite <- app_assoc. split; [done|]. split; [constructor; eauto|].
  intros [|i] c' Hc'; cbn in Hc'.
  - injection Hc' as <-. exists ref. by rewrite Nat.add_0_r.
  - destruct (Hall i c' Hc') as (ref' & Hr' & Hc''). exists ref'. split; [|done].
    rewrite <- Hr'. f_equal. lia.
Qed.

(** The file a projection ConfigMap holds. *)
Definition projected (c : ConfigMap) : list Z := default [] (BinaryData c !! ProjectionDataKey).

Lemma carries_file (plan : Plan) ref c data :
  ChunkDigest ref = DigestBytes data -> carries plan ref c -> projected c = data \/ collision (projected c) data.
Proof.
  intros Hd (_ & _ & _ & d & Hb & _ & Hdig). unfold projected. rewrite Hb, lookup_singleton_eq. cbn.
  apply DigestBytes_inj. congruence.
Qed.

(** What an Apply mounts is the plan. Whatever the API server answers, when
    [Project] succeeds it created or read, in manifest order, one immutable
    ConfigMap per chunk, named after the chunk and owned by the plan, holding
    one file; and the files concatenate to the content that was projected,
    whose digest is the plan's, unless SHA-256 collides on a chunk. *)
Theorem project_carries_plan (plan : Plan) (content : list Z) (configs : list ConfigMap) :
  exec any_config (Project (Some plan) content) [] (Ok tt) configs ->
  DigestBytes content = ContentDigest (Spec plan) /\
  (forall i c, configs !! i = Some c -> exists ref, Chunks (Spec plan) !! i = Some ref /\ carries plan ref c) /\
  (concat (projected <$> configs) = content \/ exists x y, collision x y).
Proof.
  intros Hex. cbn [Project] in Hex.
  destruct (bool_decide _); [by destruct Hex|]. destruct (validatePlanContract _); [|by destruct Hex].
  destruct (_ || _) eqn:E; [by destruct Hex|]. destruct (negb _) in Hex; [by destruct Hex|]. bool_prop.
  eapply (wp_exec project_spec any_config) in Hex; [|done|by apply wp_project_chunks].
  destruct (Hex eq_refl) as (cs & -> & Hcs & Hall). cbn [app] in *. split; [done|]. split; [exact Hall|].
  clear Hex Hall. rewrite <- (split_concat content ChunkBytes) at 1 by done.
  induction Hcs as [|data c datas cs (ref & Hd & Hc) _ IH]; [by left|]. cbn.
  destruct IH as [-> | ?]; [|by right]. destruct (carries_file _ _ _ _ Hd Hc) as [-> | ?]; eauto.
Qed.
End project.
