(* ===== verification/PlanPublish.v ===== *)
(** * A publication that can be resumed

    [Publish] is three kinds of writes (the plan, its chunks, its status) with
    no transaction around them. [cluster] is an API server that creates an
    object under a free name, giving it a UID, and replaces a status. The
    section shows that any number of publications of one plan, each stopped
    after any call, leave the server where one more publication succeeds, and
    that the plan it commits loads back to the content it was prepared from. *)
From stdpp Require Import base list gmap strings pretty.
From Stdlib Require Import ZArith Lia Ascii.
From S2P Require Import Prelude GoStrings Sha256 Json Fingerprint TargetLock KubeMeta PlanStore PlanStoreProofs.
Local Open Scope go_scope.
Local Open Scope Z_scope.

(** ** An API server *)

Section server.
Context {Conditions : Type}.
Abbreviation Plan := (@PtahSchemaPlan Conditions).

Record cluster : Type := Cluster {
  plans : gmap (string * string) Plan;
  chunk_objects : gmap (string * string) PtahSchemaPlanChunk;
  config_maps : gmap (string * string) ConfigMap;
  next_uid : nat;
}.

Definition fresh_uid (s : cluster) : string := "uid-" +:+ pretty (next_uid s).

Definition with_identity (m : ObjectMeta) (uid : string) (generation : Z) : ObjectMeta :=
  {| Namespace := Namespace m; Name_ := Name_ m; UID := uid; Generation := generation;
     DeletionTimestamp := DeletionTimestamp m; MetaLabels := MetaLabels m; OwnerReferences := OwnerReferences m |}.

Definition meta_key (m : ObjectMeta) : string * string := (Namespace m, Name_ m).

Definition created_plan (p : Plan) (uid : string) : Plan :=
  {| PlanMeta := with_identity (PlanMeta p) uid 1; Spec := Spec p; ObservedGeneration := ObservedGeneration p;
     PublishedChunks := PublishedChunks p; PlanConditions := PlanConditions p |}.
Definition created_chunk (c : PtahSchemaPlanChunk) (uid : string) : PtahSchemaPlanChunk :=
  {| ChunkMeta := with_identity (ChunkMeta c) uid 1; ChunkData := ChunkData c |}.
Definition created_config (c : ConfigMap) (uid : string) : ConfigMap :=
  {| ConfigMeta := with_identity (ConfigMeta c) uid 1; Immutable := Immutable c;
     BinaryData := BinaryData c; Data := Data c |}.

Definition get {A} (o : option A) : result api_error A := match o with Some a => Ok a | None => Err NotFound end.

Definition serve (X : Type) (e : @storeE Conditions X) (s : cluster) : X * cluster :=
  match e in storeE X return X * cluster with
  | CreatePlan p =>
      match plans s !! meta_key (PlanMeta p) with
      | Some _ => (Err AlreadyExists, s)
      | None =>
          let p := created_plan p (fresh_uid s) in
          (Ok p, Cluster (<[meta_key (PlanMeta p) := p]> (plans s)) (chunk_objects s) (config_maps s) (S (next_uid s)))
      end
  | GetPlan key => (get (plans s !! key), s)
  | CreateChunk c =>
      match chunk_objects s !! meta_key (ChunkMeta c) with
      | Some _ => (Err AlreadyExists, s)
      | None =>
          let c := created_chunk c (fresh_uid s) in
          (Ok c, Cluster (plans s) (<[meta_key (ChunkMeta c) := c]> (chunk_objects s)) (config_maps s) (S (next_uid s)))
      end
  | GetChunk key => (get (chunk_objects s !! key), s)
  | CreateConfigMap c =>
      match config_maps s !! meta_key (ConfigMeta c) with
      | Some _ => (Err AlreadyExists, s)
      | None =>
          let c := created_config c (fresh_uid s) in
          (Ok c, Cluster (plans s) (chunk_objects s) (<[meta_key (ConfigMeta c) := c]> (config_maps s)) (S (next_uid s)))
      end
  | GetConfigMap key => (get (config_maps s !! key), s)
  | UpdatePlanStatus p =>
      match plans s !! meta_key (PlanMeta p) with
      | None => (Err NotFound, s)
      | Some old =>
          let p := {| PlanMeta := PlanMeta old; Spec := Spec old; ObservedGeneration := ObservedGeneration p;
                      PublishedChunks := PublishedChunks p; PlanConditions := PlanConditions p |} in
          (Ok p, Cluster (<[meta_key (PlanMeta old) := p]> (plans s)) (chunk_objects s) (config_maps s) (next_uid s))
      end
  end.
End server.

(** ** Prepared plans *)

(** What [Prepare] guarantees of its manifest. *)
Record prepared {Conditions} (desired : @PtahSchemaPlan Conditions) (chunks : list (list Z)) (content : list Z) : Prop := {
  prep_name : exists name, Chunks (Spec desired) = imap (chunk_reference name) chunks;
  prep_concat : concat chunks = content;
  prep_sizes : Forall (fun c => 0 < zlen c <= ChunkBytes) chunks;
  prep_count : 0 < zlen chunks <= MaxChunks;
  prep_contract : validatePlanContract (Spec desired) = Ok tt;
  prep_digest : ContentDigest (Spec desired) = DigestBytes content;
  prep_size : Size (Spec desired) = zlen content;
  prep_limit : zlen content <= MaxPlanBytes;
  prep_live : DeletionTimestamp (PlanMeta desired) = None;
}.

Lemma Prepare_ok {Conditions} (noConditions : Conditions) schema spec content desired chunks :
  Prepare noConditions schema spec content = Ok (desired, chunks) -> prepared desired chunks content.
Proof.
  unfold Prepare. destruct schema as [schema|]; [|done]. intros H.
  destruct (negb _) in H; [|done]. destruct (negb _) eqn:Hne in H; [|done]. destruct (negb _) eqn:Hmax in H; [|done].
  destruct (negb _) in H; [|done]. destruct (is_sha256_digest _) in H; [|done].
  destruct (validatePlanContract spec) as [[]|] eqn:Hc; [|done]. cbn [rbind] in H.
  destruct (bool_decide _) in H; [|done]. destruct (Name _) as [name|] in H; [|done]. cbn [rbind] in H.
  destruct (negb _) eqn:Hcnt in H; [|done]. injection H as <- <-. bool_prop.
  pose proof (split_concat content ChunkBytes eq_refl) as Hcat.
  split; cbn; try done; [by exists name|by apply split_sizes|].
  split; [|done]. destruct (split content ChunkBytes) eqn:E; [|unfold zlen; cbn; lia].
  exfalso. apply Hne. by rewrite <- Hcat.
Qed.

(** ** Resuming *)

Section resume.
Context {Conditions : Type} (StorageReady : Conditions -> bool) (SetStorageReady : Conditions -> Z -> Z -> Conditions).
Context (Hready : forall c g n, StorageReady (SetStorageReady c g n) = true).
Abbreviation Plan := (@PtahSchemaPlan Conditions).
Abbreviation state := (@cluster Conditions).
Context (desired : Plan) (chunks : list (list Z)) (content : list Z) (Hprep : prepared desired chunks content).

Abbreviation refs := (Chunks (Spec desired)).
Definition ns : string := Namespace (PlanMeta desired).
Definition key_of (ref : PlanChunkReference) : string * string := (ns, ChunkName ref).

(** The plan as the server created it. *)
Definition stands (plan : Plan) : Prop :=
  Spec plan = Spec desired /\ exists uid, uid <> EmptyString /\ PlanMeta plan = with_identity (PlanMeta desired) uid 1.

(** Each chunk name is free or holds the chunk this plan writes. *)
Definition chunks_stand (plan : Plan) (s : state) : Prop :=
  forall i ref data, refs !! i = Some ref -> chunks !! i = Some data ->
  forall c, chunk_objects s !! key_of ref = Some c ->
  exists uid, uid <> EmptyString /\ c = created_chunk (DesiredChunk plan ref data) uid.

(** Nothing was published, or the plan stands with some of its chunks. *)
Definition resumable (s : state) : Prop :=
  (plans s !! plan_key desired = None /\ forall ref, ref ∈ refs -> chunk_objects s !! key_of ref = None) \/
  (exists plan, plans s !! plan_key desired = Some plan /\ stands plan /\ chunks_stand plan s).

(** What a publication may write. *)
Definition allowed (X : Type) (e : @storeE Conditions X) (s : state) : Prop :=
  match e with
  | CreatePlan p => p = desired
  | CreateChunk c =>
      exists plan i ref data, plans s !! plan_key desired = Some plan /\
        refs !! i = Some ref /\ chunks !! i = Some data /\ c = DesiredChunk plan ref data
  | UpdatePlanStatus p =>
      exists plan, plans s !! plan_key desired = Some plan /\ PlanMeta p = PlanMeta plan /\ Spec p = Spec plan
  | CreateConfigMap _ => False
  | _ => True
  end.
Definition publish_spec : espec (@storeE Conditions) state :=
  {| pre := allowed; post := deterministic serve |}.

(** Whether a plan stands does not depend on its status, nor do its chunks. *)
Lemma stands_meta plan plan' : PlanMeta plan' = PlanMeta plan -> Spec plan' = Spec plan -> stands plan -> stands plan'.
Proof. intros E1 E2. unfold stands. by rewrite E1, E2. Qed.
Lemma desired_chunk_meta (plan plan' : Plan) ref data :
  PlanMeta plan' = PlanMeta plan -> Spec plan' = Spec plan -> DesiredChunk plan' ref data = DesiredChunk plan ref data.
Proof. intros E1 E2. unfold DesiredChunk, chunkMetadata, blockingPlanOwnerReference. by rewrite E1, E2. Qed.

Lemma stands_key plan : stands plan -> meta_key (PlanMeta plan) = plan_key desired.
Proof. by intros [_ (uid & _ & ->)]. Qed.

Lemma int32_index i : (i < length chunks)%nat -> int32_wrap (Z.of_nat i) = Z.of_nat i.
Proof.
  intros Hi. apply int32_wrap_small. destruct (prep_count _ _ _ Hprep) as [_ H]. unfold zlen in H.
  unfold in_int32. apply andb_true_iff. rewrite Z.leb_le, Z.ltb_lt.
  assert (MaxChunks = 16) by reflexivity. lia.
Qed.

Lemma int32_size data : data ∈ chunks -> int32_wrap (zlen data) = zlen data.
Proof.
  intros Hin. apply int32_wrap_small. pose proof (prep_sizes _ _ _ Hprep) as H. rewrite Forall_forall in H.
  specialize (H _ Hin). cbn in H. assert (ChunkBytes = 524288) by reflexivity.
  unfold in_int32. apply andb_true_iff. rewrite Z.leb_le, Z.ltb_lt. lia.
Qed.

Lemma ref_at i ref data : refs !! i = Some ref -> chunks !! i = Some data ->
  exists name, ref = {| ChunkName := chunk_name name (Z.of_nat i); ChunkIndex := Z.of_nat i;
                        ChunkDigest := DigestBytes data; ChunkSize := zlen data |} /\
  refs = imap (chunk_reference name) chunks.
Proof.
  destruct (prep_name _ _ _ Hprep) as [name Hn]. rewrite Hn at 1. rewrite list_lookup_imap. intros H Hd.
  rewrite Hd in H. cbn in H. injection H as <-. exists name. split; [|done]. unfold chunk_reference.
  rewrite int32_index by (by eapply lookup_lt_Some). rewrite int32_size by (by eapply list_elem_of_lookup_2). done.
Qed.

Lemma refs_length : length refs = length chunks.
Proof. destruct (prep_name _ _ _ Hprep) as [name ->]. apply length_imap. Qed.

(** Chunk names are distinct. *)
Lemma key_inj i j ref ref' : refs !! i = Some ref -> refs !! j = Some ref' -> key_of ref = key_of ref' -> i = j.
Proof.
  intros Hi Hj E. assert (Hci : is_Some (chunks !! i)) by (apply lookup_lt_is_Some; rewrite <- refs_length; by eapply lookup_lt_Some).
  assert (Hcj : is_Some (chunks !! j)) by (apply lookup_lt_is_Some; rewrite <- refs_length; by eapply lookup_lt_Some).
  destruct Hci as [d Hd], Hcj as [d' Hd']. destruct (prep_name _ _ _ Hprep) as [name Hn].
  rewrite Hn, list_lookup_imap, Hd in Hi. rewrite Hn, list_lookup_imap, Hd' in Hj. cbn in Hi, Hj.
  injection Hi as <-. injection Hj as <-. injection E as E. unfold chunk_name in E. cbn in E.
  apply str_app_inv in E as [_ E]; [|done]. apply str_app_inv in E as [_ E]; [|done].
  apply format_03d_inj in E; [lia|..];
    destruct (prep_count _ _ _ Hprep) as [_ H]; assert (MaxChunks = 16) by reflexivity; unfold zlen in H;
    [apply lookup_lt_Some in Hd|apply lookup_lt_Some in Hd']; lia.
Qed.

Lemma fresh_uid_nonempty (s : state) : fresh_uid s <> EmptyString.
Proof. done. Qed.

(** Every write a publication may make keeps the server resumable. *)
Lemma allowed_keeps X (e : @storeE Conditions X) s x s' :
  resumable s -> allowed X e s -> deterministic serve X e s x s' -> resumable s'.
Proof.
  unfold deterministic. intros Hs Ha H. destruct e as [p|key|c|key|c|key|p]; cbn in H.
  2, 4, 6: (injection H as <- <-; exact Hs).
  - cbn in Ha. subst p. change (meta_key (with_identity _ _ _)) with (plan_key desired) in H.
    change (meta_key (PlanMeta desired)) with (plan_key desired) in H. destruct (plans s !! _) eqn:E; injection H as <- <-; [done|].
    destruct Hs as [[_ Hfree]|(plan & Hp & _)]; [|by rewrite Hp in E].
    right. exists (created_plan desired (fresh_uid s)). split; [apply lookup_insert_eq|].
    split; [split; [done|]; eauto using fresh_uid_nonempty|].
    intros i ref data Hr _ c Hc. cbn in Hc. rewrite Hfree in Hc; [done|]. by eapply list_elem_of_lookup_2.
  - destruct Ha as (plan & i & ref & data & Hp & Hr & Hd & ->).
    destruct Hs as [[Hnone _]|(plan' & Hp' & Hst & Hch)]; [by rewrite Hnone in Hp|].
    assert (plan' = plan) as -> by congruence. right. exists plan.
    destruct (chunk_objects s !! _) eqn:E; injection H as <- <-; [done|]. split; [done|]. split; [done|].
    intros j ref' data' Hr' Hd' c Hc. cbn in Hc.
    assert (Hkey : meta_key (ChunkMeta (DesiredChunk plan ref data)) = key_of ref).
    { destruct Hst as [_ (uid & _ & Hm)]. unfold meta_key, key_of, ns. cbn. by rewrite Hm. }
    unfold meta_key in Hkey. cbn in Hkey. cbn in Hc. unfold meta_key in Hc. cbn in Hc. rewrite Hkey in Hc.
    destruct (decide (key_of ref' = key_of ref)) as [Ek|Hne].
    + pose proof (key_inj _ _ _ _ Hr' Hr Ek) as ->. rewrite Ek, lookup_insert_eq in Hc. injection Hc as <-.
      exists (fresh_uid s). split; [done|]. congruence.
    + rewrite lookup_insert_ne in Hc by done. by eapply Hch.
  - done.
  - destruct Ha as (plan & Hp & Em & Es).
    destruct Hs as [[Hnone _]|(plan' & Hp' & Hst & Hch)]; [by rewrite Hnone in Hp|].
    assert (plan' = plan) as -> by congruence.
    rewrite Em, (stands_key _ Hst), Hp in H. cbn in H. injection H as <- <-. rewrite (stands_key _ Hst). right.
    eexists. split; [apply lookup_insert_eq|]. split; [exact (stands_meta plan _ eq_refl eq_refl Hst)|].
    intros i ref data Hr Hd c Hc. destruct (Hch i ref data Hr Hd c Hc) as (uid & Hu & ->).
    by exists uid.
Qed.

(** ** One publication, from a resumable server *)

Abbreviation spec := publish_spec.
(** The server's answer to a call. *)
Ltac answered H := lazymatch type of H with post _ ?e ?s ?x ?s' => change (serve _ e s = (x, s')) in H end.
(** The server holds [plan] and some of its chunks. *)
Definition holds (plan : Plan) (s : state) : Prop :=
  plans s !! plan_key desired = Some plan /\ stands plan /\ chunks_stand plan s.

Lemma wp_publish_plan s :
  resumable s -> wp spec (publish_plan desired) (fun r s' => exists plan, r = Ok plan /\ holds plan s') s.
Proof.
  intros Hs. split; [done|]. intros x s1 Hx. pose proof (allowed_keeps _ (CreatePlan desired) _ _ _ Hs eq_refl Hx) as Hs1.
  answered Hx. cbn in Hx. change (meta_key (with_identity _ _ _)) with (plan_key desired) in Hx.
  change (meta_key (PlanMeta desired)) with (plan_key desired) in Hx.
  destruct (plans s !! plan_key desired) as [plan|] eqn:E; injection Hx as <- <-; cbn [pbind].
  - destruct Hs as [[Hn _]|(plan' & Hp & Hst & Hch)]; [by rewrite Hn in E|].
    assert (plan' = plan) as -> by congruence. split; [done|]. intros x s2 Hx. answered Hx. cbn in Hx.
    rewrite E in Hx. injection Hx as <- <-. cbn. exists plan. split; [|done].
    destruct Hst as [Es (uid & _ & Em)]. unfold sameManifest. rewrite Es, Em. cbn.
    rewrite (prep_live _ _ _ Hprep), bool_decide_eq_false_2 by (by intros [? ?]). cbn.
    rewrite (bool_decide_eq_true_2 (Spec desired = _)) by (by destruct (Spec desired)).
    by rewrite bool_decide_eq_true_2.
  - destruct Hs1 as [[Hn _]|(plan' & Hp & Hst & Hch)]; cbn in *; rewrite lookup_insert_eq in *; [done|].
    injection Hp as <-. eexists. split; [done|]. split; [|done]. apply lookup_insert_eq.
Qed.

(** A chunk this plan wrote verifies, for any status of the plan. *)
Lemma chunk_verifies plan i ref data uid :
  refs !! i = Some ref -> chunks !! i = Some data -> stands plan ->
  verifyChunk plan ref data (created_chunk (DesiredChunk plan ref data) uid) = Ok tt.
Proof.
  intros Hr Hd _. destruct (ref_at _ _ _ Hr Hd) as (name & -> & _). unfold verifyChunk, verifyChunkMetadata. cbn.
  rewrite (bool_decide_eq_true_2 (chunk_name _ _ = _)) by done.
  rewrite lookup_insert_eq. cbn. rewrite lookup_insert_ne by done. rewrite lookup_insert_eq. cbn.
  rewrite !bool_decide_eq_true_2 by done. cbn. rewrite int32_size by (by eapply list_elem_of_lookup_2).
  by rewrite Z.eqb_refl.
Qed.

(** Objects are never removed or replaced. *)
Definition grows (s s' : state) : Prop :=
  forall key c, chunk_objects s !! key = Some c -> chunk_objects s' !! key = Some c.

(** The entry of chunk [i] in the committed status, and the object it names. *)
Definition committed (plan : Plan) (s : state) (i : nat) (st : PublishedPlanChunkStatus) : Prop :=
  exists ref data uid, refs !! i = Some ref /\ chunks !! i = Some data /\ uid <> EmptyString /\
    st = {| PublishedName := ChunkName ref; PublishedUID := uid; PublishedIndex := Z.of_nat i |} /\
    chunk_objects s !! key_of ref = Some (created_chunk (DesiredChunk plan ref data) uid).

Lemma committed_grows plan s s' i st : grows s s' -> committed plan s i st -> committed plan s' i st.
Proof. intros Hg (ref & data & uid & H1 & H2 & H3 & H4 & H5). exists ref, data, uid. auto 10. Qed.

Lemma wp_publish_chunk plan s i data :
  holds plan s -> chunks !! i = Some data ->
  wp spec (publish_chunk plan (Z.of_nat i) data)
    (fun r s' => exists st, r = Ok st /\ holds plan s' /\ grows s s' /\ committed plan s' i st) s.
Proof.
  intros (Hp & Hst & Hch) Hd. pose proof Hst as (Es & uid0 & Hu0 & Em). unfold publish_chunk.
  assert (Hi : (i < length chunks)%nat) by (by eapply lookup_lt_Some).
  destruct (refs !! i) as [ref|] eqn:Hr; [|apply lookup_ge_None in Hr; rewrite refs_length in Hr; lia].
  rewrite Nat2Z.id, Es, Hr. destruct (ref_at _ _ _ Hr Hd) as (name & Eref & _).
  assert (Hkey : meta_key (ChunkMeta (DesiredChunk plan ref data)) = key_of ref)
    by (unfold meta_key, key_of, ns; cbn; by rewrite Em).
  replace (negb (ChunkSize ref =? zlen data) || _) with false
    by (rewrite Eref; cbn; by rewrite Z.eqb_refl, bool_decide_eq_true_2).
  assert (Hpre : allowed _ (CreateChunk (DesiredChunk plan ref data)) s) by (by exists plan, i, ref, data).
  split; [exact Hpre|]. intros x s1 Hx.
  pose proof (allowed_keeps _ _ _ _ _ (or_intror (ex_intro _ plan (conj Hp (conj Hst Hch)))) Hpre Hx) as Hs1.
  answered Hx. cbn [serve] in Hx. rewrite Hkey in Hx.
  destruct (chunk_objects s !! key_of ref) as [c|] eqn:E.
  - injection Hx as <- <-. cbn [pbind]. split; [done|]. intros x s2 Hx. answered Hx. cbn in Hx.
    assert (Hns : Namespace (PlanMeta plan) = ns) by (by rewrite Em). rewrite Hns in Hx.
    change (ns, ChunkName ref) with (key_of ref) in Hx. rewrite E in Hx. injection Hx as <- <-.
    destruct (Hch _ _ _ Hr Hd _ E) as (uid & Hu & ->). cbn [wp pbind get].
    rewrite (chunk_verifies _ _ _ _ _ Hr Hd Hst). cbn [rbind]. eexists. split; [done|]. split; [done|]. split; [by intros ?|].
    exists ref, data, uid. cbn. rewrite int32_index by done. done.
  - change (meta_key (ChunkMeta (created_chunk ?c ?u))) with (meta_key (ChunkMeta c)) in Hx. rewrite Hkey in Hx.
    injection Hx as <- <-. cbn [pbind wp]. rewrite (chunk_verifies _ _ _ _ _ Hr Hd Hst). cbn [rbind].
    eexists. split; [done|]. split; [|split].
    + destruct Hs1 as [[Hn _]|(plan' & Hp' & Hst' & Hch')]; cbn in *; [by rewrite Hn in Hp|].
      assert (plan' = plan) as -> by congruence. done.
    + intros k c Hc. cbn. rewrite lookup_insert_ne; [done|]. intros <-. by rewrite Hc in E.
    + exists ref, data, (fresh_uid s). rewrite int32_index by done. cbn. rewrite lookup_insert_eq. done.
Qed.

Lemma grows_trans s1 s2 s3 : grows s1 s2 -> grows s2 s3 -> grows s1 s3.
Proof. unfold grows. auto. Qed.

Lemma wp_publish_chunks plan rest : forall k s,
  (forall j d, rest !! j = Some d -> chunks !! (k + j)%nat = Some d) -> holds plan s ->
  wp spec (publish_chunks plan (Z.of_nat k) rest)
    (fun r s' => exists sts, r = Ok sts /\ holds plan s' /\ grows s s' /\ length sts = length rest /\
       forall j st, sts !! j = Some st -> committed plan s' (k + j) st) s.
Proof.
  induction rest as [|data rest IH]; intros k s Hrest Hs.
  { exists []. split; [done|]. split; [done|]. split; [by intros ?|]. by split. }
  cbn [publish_chunks]. apply wp_bind. eapply wp_mono; [|apply wp_publish_chunk; [exact Hs|]].
  2: { specialize (Hrest O data eq_refl). by rewrite Nat.add_0_r in Hrest. }
  intros r s1 (st & -> & Hs1 & Hg1 & Hst). apply wp_bind.
  replace (Z.of_nat k + 1) with (Z.of_nat (S k)) by lia.
  eapply wp_mono; [|apply IH; [|exact Hs1]].
  - intros r s2 (sts & -> & Hs2 & Hg2 & Hlen & Hall). exists (st :: sts). split; [done|]. split; [done|].
    split; [by eapply grows_trans|]. split; [cbn; by rewrite Hlen|]. intros [|j] st' Hj; cbn in Hj.
    + injection Hj as <-. rewrite Nat.add_0_r. by eapply committed_grows.
    + replace (k + S j)%nat with (S k + j)%nat by lia. auto.
  - intros j d Hj. replace (S k + j)%nat with (k + S j)%nat by lia. by apply Hrest.
Qed.

(** A plan whose status is committed, with every chunk it names. *)
Definition published (latest : Plan) (s : state) : Prop :=
  stands latest /\ ObservedGeneration latest = Generation (PlanMeta latest) /\
  StorageReady (PlanConditions latest) = true /\ length (PublishedChunks latest) = length chunks /\
  forall j st, PublishedChunks latest !! j = Some st -> committed latest s j st.

Lemma committed_meta plan plan' s i st :
  PlanMeta plan' = PlanMeta plan -> Spec plan' = Spec plan -> committed plan s i st -> committed plan' s i st.
Proof.
  intros E1 E2 (ref & data & uid & H1 & H2 & H3 & H4 & H5). exists ref, data, uid.
  rewrite (desired_chunk_meta plan plan') by done. done.
Qed.

Lemma wp_commit_status plan s sts :
  holds plan s -> length sts = length chunks -> (forall j st, sts !! j = Some st -> committed plan s j st) ->
  wp spec (commit_status SetStorageReady plan sts) (fun r s' => exists latest, r = Ok latest /\ published latest s') s.
Proof.
  intros (Hp & Hst & Hch) Hlen Hall. split; [done|]. intros x s1 Hx. answered Hx. cbn in Hx.
  change (plan_key plan) with (meta_key (PlanMeta plan)) in Hx. rewrite (stands_key _ Hst), Hp in Hx.
  injection Hx as <- <-. cbn [pbind get]. split; [by exists plan|]. intros x s2 Hx. answered Hx. cbn in Hx.
  rewrite (stands_key _ Hst), Hp in Hx. injection Hx as <- <-. cbn [wp pbind]. eexists. split; [done|].
  split; [exact (stands_meta plan _ eq_refl eq_refl Hst)|]. split; [done|]. split; [apply Hready|]. split; [done|].
  intros j st Hj. apply (committed_meta plan); [done..|]. exact (Hall j st Hj).
Qed.

Lemma wp_publish s :
  resumable s ->
  wp spec (Publish SetStorageReady (Some desired) chunks) (fun r s' => exists latest, r = Ok latest /\ published latest s') s.
Proof.
  intros Hs. cbn [Publish]. unfold zlen. rewrite refs_length, Z.eqb_refl. cbn [negb].
  rewrite (prep_contract _ _ _ Hprep). apply wp_bind. eapply wp_mono; [|by apply wp_publish_plan].
  intros r s1 (plan & -> & Hh). apply wp_bind. eapply wp_mono; [|apply (wp_publish_chunks plan chunks 0); [done|exact Hh]].
  intros r s2 (sts & -> & Hh2 & _ & Hlen & Hall). by apply wp_commit_status.
Qed.

(** ** Loading what was published *)

Lemma sort_published_id l : forall k,
  (forall j st, l !! j = Some st -> PublishedIndex st = Z.of_nat (k + j)) -> sort_published l = l.
Proof.
  induction l as [|st l IH]; intros k Hl; [done|]. cbn.
  fold (sort_published l). rewrite (IH (S k)).
  2: { intros j st' Hj. rewrite (Hl (S j) st' Hj). f_equal. lia. }
  destruct l as [|st' l]; [done|]. cbn. rewrite (Hl O st eq_refl), (Hl 1%nat st' eq_refl).
  by rewrite (proj2 (Z.leb_le _ _)) by lia.
Qed.

Lemma wp_load_published latest s rest : forall k acc refs' published',
  stands latest ->
  (forall j d, rest !! j = Some d -> chunks !! (k + j)%nat = Some d) ->
  (forall j r, refs' !! j = Some r -> refs !! (k + j)%nat = Some r) ->
  (forall j st, published' !! j = Some st -> committed latest s (k + j) st) ->
  length refs' = length rest -> length published' = length rest ->
  zlen (acc ++ concat rest) <= MaxPlanBytes ->
  wp spec (load_chunks latest (Z.of_nat k) refs' published' acc)
    (fun r s' => r = Ok (acc ++ concat rest) /\ s' = s) s.
Proof.
  intros k acc refs' published' Hst. revert k acc refs' published'.
  induction rest as [|data rest IH]; intros k acc [|ref refs'] [|st published'] Hc Hr Hp Hl1 Hl2 Hmax; try discriminate.
  { cbn. by rewrite app_nil_r. }
  cbn [load_chunks]. apply wp_bind.
  pose proof (Hp O st eq_refl) as (ref' & data' & uid & Hr' & Hd' & Hu & Est & Hobj). rewrite Nat.add_0_r in Hr', Hd', Est.
  assert (Hd : chunks !! k = Some data) by (rewrite <- (Nat.add_0_r k); by apply Hc).
  assert (Href : refs !! k = Some ref) by (rewrite <- (Nat.add_0_r k); by apply Hr).
  assert (ref' = ref) as -> by congruence. assert (data' = data) as -> by congruence.
  destruct (ref_at _ _ _ Href Hd) as (name & Eref & _).
  pose proof (lookup_lt_Some _ _ _ Hd) as Hk.
  apply (wp_mono _ _ (fun r s' => r = Ok data /\ s' = s)).
  2: { unfold load_chunk. rewrite Est. cbn [PublishedIndex PublishedName PublishedUID].
       rewrite (int32_index k) by done. replace (ChunkIndex ref) with (Z.of_nat k) by (by rewrite Eref).
       rewrite Z.eqb_refl, bool_decide_eq_true_2, bool_decide_eq_false_2 by done. cbn [negb orb].
       split; [done|]. intros x s1 Hx. answered Hx. cbn in Hx.
       assert (Hns : Namespace (PlanMeta latest) = ns) by (by destruct Hst as [_ (? & _ & ->)]).
       rewrite Hns in Hx. change (ns, ChunkName ref) with (key_of ref) in Hx. rewrite Hobj in Hx.
       injection Hx as <- <-. cbn [wp pbind get]. cbn [ChunkMeta created_chunk with_identity UID].
       rewrite bool_decide_eq_true_2 by done. cbn [negb]. cbn [ChunkData created_chunk DesiredChunk].
       by rewrite (chunk_verifies _ _ _ _ _ Href Hd Hst). }
  intros r s1 [-> ->]. replace (MaxPlanBytes <? _) with false.
  2: { symmetry. apply Z.ltb_ge. etrans; [|exact Hmax]. unfold zlen. cbn. rewrite !length_app. lia. }
  replace (Z.of_nat k + 1) with (Z.of_nat (S k)) by lia.
  eapply wp_mono; [|apply IH].
  - cbn. intros r s2 [-> ->]. by rewrite <- app_assoc.
  - intros j d Hj. replace (S k + j)%nat with (k + S j)%nat by lia. by apply Hc.
  - intros j d Hj. replace (S k + j)%nat with (k + S j)%nat by lia. by apply Hr.
  - intros j d Hj. replace (S k + j)%nat with (k + S j)%nat by lia. by apply Hp.
  - by injection Hl1.
  - by injection Hl2.
  - by rewrite <- app_assoc.
Qed.

Lemma wp_load latest s :
  published latest s -> wp spec (Load StorageReady (Some latest)) (fun r s' => r = Ok content /\ s' = s) s.
Proof.
  intros (Hst & Hgen & Hr & Hlen & Hall). pose proof Hst as (Es & uid & Hu & Em). cbn [Load].
  replace (bool_decide (UID _ = _)) with false by (rewrite Em; cbn; by rewrite bool_decide_eq_false_2).
  rewrite Es, (prep_contract _ _ _ Hprep), Hgen, Z.eqb_refl, Hr. cbn [negb orb].
  replace ((zlen refs =? 0) || _) with false.
  2: { destruct (prep_count _ _ _ Hprep) as [Hpos _]. unfold zlen in *. rewrite refs_length, Hlen, Z.eqb_refl.
       symmetry. apply orb_false_iff. split; [|done]. apply Z.eqb_neq. lia. }
  rewrite (sort_published_id _ 0).
  2: { intros j st Hj. by destruct (Hall j st Hj) as (? & ? & ? & _ & _ & _ & -> & _). }
  apply wp_bind. eapply wp_mono; [|apply (wp_load_published latest s chunks 0 []); try done].
  - intros r s' [-> ->]. cbn [wp app]. rewrite (prep_concat _ _ _ Hprep), (prep_size _ _ _ Hprep), (prep_digest _ _ _ Hprep).
    by rewrite Z.eqb_refl, bool_decide_eq_true_2.
  - by rewrite refs_length.
  - cbn. rewrite (prep_concat _ _ _ Hprep). apply (prep_limit _ _ _ Hprep).
Qed.

(** Publications stopped anywhere leave the server resumable. *)
Lemma crashes_resumable stops : forall s, resumable s ->
  resumable (fold_left (fun s n => run_crash serve n (Publish SetStorageReady (Some desired) chunks) s) stops s).
Proof.
  induction stops as [|n stops IH]; intros s Hs; [done|]. apply IH.
  eapply (wp_exec_prefix spec (deterministic serve) resumable); [|apply run_crash_prefix|exact Hs|by apply wp_publish].
  intros X e s1 x s2 H1 H2 H3. split; [by eapply allowed_keeps|done].
Qed.
End resume.

(** * Properties *)

(** C17: Publishing a plan can be stopped anywhere and taken up again. After any
    number of publications of a prepared plan, each stopped after any number
    of its API calls, one more publication succeeds and commits the plan as
    prepared, and loading it returns exactly the content [Prepare] was given. *)
Theorem publish_resumes {Conditions : Type} (noConditions : Conditions)
    (StorageReady : Conditions -> bool) (SetStorageReady : Conditions -> Z -> Z -> Conditions)
    (schema : option SchemaOwner) (spec : PtahSchemaPlanSpec) (content : list Z)
    (desired : PtahSchemaPlan) (chunks : list (list Z)) (s0 : cluster) (stops : list nat) :
  (forall c g n, StorageReady (SetStorageReady c g n) = true) ->
  Prepare noConditions schema spec content = Ok (desired, chunks) ->
  plans s0 !! plan_key desired = None ->
  (forall ref, ref ∈ Chunks (Spec desired) -> chunk_objects s0 !! (Namespace (PlanMeta desired), ChunkName ref) = None) ->
  let publish := Publish SetStorageReady (Some desired) chunks in
  let s := fold_left (fun s n => run_crash serve n publish s) stops s0 in
  exists latest s', run serve publish s = (Ok latest, s') /\ Spec latest = Spec desired /\
    run serve (Load StorageReady (Some latest)) s' = (Ok content, s').
Proof.
  intros Hready Hprep Hnone Hfree publish s. apply Prepare_ok in Hprep.
  assert (Hs : resumable desired chunks s) by (eapply crashes_resumable; [done..|]; by left).
  pose proof (run_exec serve publish s) as Hrun.
  eapply (wp_exec (publish_spec desired chunks)) in Hrun; [|done|by eapply wp_publish].
  destruct Hrun as (latest & Hl & Hpub). exists latest, (run serve publish s).2.
  split; [by rewrite <- Hl; apply surjective_pairing|]. split; [apply Hpub|].
  pose proof (run_exec serve (Load StorageReady (Some latest)) (run serve publish s).2) as Hload.
  eapply (wp_exec (publish_spec desired chunks)) in Hload; [|done|by eapply wp_load].
  destruct Hload as [H1 H2]. rewrite <- H2 at 2. rewrite <- H1. apply surjective_pairing.
Qed.

(** A plan of three bytes, stopped after its first and then its third call. *)
Definition sample_schema : SchemaOwner :=
  {| SchemaNamespace := "shop"; SchemaName := "orders"; SchemaOwnerUID := "uid-schema" |}.
Definition sample_spec : PtahSchemaPlanSpec :=
  {| ContractVersion := 1; SchemaRef := ("orders", "uid-schema"); SpecFingerprint := Fingerprint.sample_digest;
     ContentDigest := EmptyString; Size := 0; ArtifactDigest := Fingerprint.sample_digest; Source := None;
     CoordinationDigest := Fingerprint.sample_digest; TargetIdentityDigest := Fingerprint.sample_digest;
     ActualStateFingerprint := "a"; DesiredStateFingerprint := "d"; PolicyFingerprint := "p";
     VerificationPolicyUID := "u"; VerificationPolicyDigest := "v";
     ExecutionBindingID := "v1-00000000000000000000000000000000";
     ControllerImage := "registry/ptah@" +:+ Fingerprint.sample_digest; ControllerRevision := "abc";
     ControllerStateVersion := 1; PtahVersion := "1"; ExecutorImage := "e"; RunnerImage := "r";
     RunnerProtocolVersion := 1; Dialect := "postgres"; Destructive := false; PrivilegeChanges := None;
     StatementCount := 1; Chunks := [] |}.
Definition sample_content : list Z := [59; 10; 59].
Definition sample_prepared : @PtahSchemaPlan bool * list (list Z) := Eval vm_compute in
  match Prepare false (Some sample_schema) sample_spec sample_content with
  | Ok r => r
  | Err _ => ({| PlanMeta := Build_ObjectMeta "none" "none" "none" 0 None ∅ []; Spec := sample_spec;
                 ObservedGeneration := 0; PublishedChunks := []; PlanConditions := false |}, [])
  end.

Lemma publish_resumes_witness :
  let publish := Publish (fun _ _ _ => true) (Some sample_prepared.1) sample_prepared.2 in
  let s := fold_left (fun s n => run_crash serve n publish s) [1; 3]%nat (Cluster ∅ ∅ ∅ 0) in
  exists latest s', run serve publish s = (Ok latest, s') /\ Spec latest = Spec sample_prepared.1 /\
    run serve (Load (fun b => b) (Some latest)) s' = (Ok sample_content, s').
Proof.
  apply (publish_resumes false (fun b => b) (fun _ _ _ => true) (Some sample_schema) sample_spec); [done| |done|done].
  vm_compute. reflexivity.
Defined.

(** ** Concrete loads and projections *)

(** The server after one publication, and the plan it committed. *)
Definition sample_published : result store_error PtahSchemaPlan * cluster :=
  run serve (Publish (fun _ _ _ => true) (Some sample_prepared.1) sample_prepared.2) (Cluster ∅ ∅ ∅ 0).
Definition sample_plan : @PtahSchemaPlan bool := Eval vm_compute in
  match sample_published.1 with Ok p => p | Err _ => sample_prepared.1 end.

(** Answers of a fixed server, with the chunks or ConfigMaps logged. *)
Definition serve_chunks (st : cluster) (X : Type) (e : @storeE bool X) (g : list PtahSchemaPlanChunk) : X * list PtahSchemaPlanChunk :=
  let x := (serve X e st).1 in
  (x, match e in storeE X return X -> list PtahSchemaPlanChunk with
      | GetChunk _ => fun x => match x with Ok c => g ++ [c] | Err _ => g end
      | _ => fun _ => g
      end x).
Definition serve_configs (st : cluster) (X : Type) (e : @storeE bool X) (g : list ConfigMap) : X * list ConfigMap :=
  let x := (serve X e st).1 in
  (x, match e in storeE X return X -> list ConfigMap with
      | CreateConfigMap _ | GetConfigMap _ => fun x => match x with Ok c => g ++ [c] | Err _ => g end
      | _ => fun _ => g
      end x).

Lemma serve_chunks_any st X e s x s' : deterministic (serve_chunks st) X e s x s' -> any_chunk X e s x s'.
Proof. intros H. injection H as <- <-. destruct e; cbn; try done; case_goal; done. Qed.
Lemma serve_configs_any st X e s x s' : deterministic (serve_configs st) X e s x s' -> any_config X e s x s'.
Proof. intros H. injection H as <- <-. destruct e; cbn; try done; case_goal; done. Qed.

Lemma load_sound_witness :
  DigestBytes sample_content = ContentDigest (Spec sample_plan) /\ zlen sample_content = Size (Spec sample_plan).
Proof.
  destruct (load_sound (fun b : bool => b) sample_plan sample_content
    (run (serve_chunks sample_published.2) (Load (fun b => b) (Some sample_plan)) []).2) as (_ & _ & _ & H1 & _ & H2 & _); [|exact (conj H2 H1)].
  assert (E : (run (serve_chunks sample_published.2) (Load (fun b => b) (Some sample_plan)) []).1 = Ok sample_content) by (vm_compute; reflexivity).
  rewrite <- E. apply (exec_mono (deterministic (serve_chunks sample_published.2))); [apply serve_chunks_any|apply run_exec].
Defined.

Lemma project_carries_plan_witness :
  let configs := (run (serve_configs sample_published.2) (Project (Some sample_plan) sample_content) []).2 in
  length configs = 1%nat /\ (concat (projected <$> configs) = sample_content \/ exists x y, collision x y).
Proof.
  split; [vm_compute; reflexivity|].
  apply (project_carries_plan sample_plan).
  assert (E : (run (serve_configs sample_published.2) (Project (Some sample_plan) sample_content) []).1 = Ok tt) by (vm_compute; reflexivity).
  rewrite <- E. apply (exec_mono (deterministic (serve_configs sample_published.2))); [apply serve_configs_any|apply run_exec].
Defined.
