(* ===== verification/ResultStore.v ===== *)
(** * Runner results as immutable records (package [internal/resultstore])

    A runner's result is published under a name its attempt reserves: an
    intent that holds the whole payload when it is small, or an intent, chunks
    and a completion written last. [publish] and [Load] are programs of API
    calls and of the caller's authority check, which may be answered in any
    way; [ValidateRecordCreate] and [ValidateRecordUpdate] are what admission
    asks before a record is stored or changed.

    The client and the reader are configured. Maps and lists an object does
    not have are empty: the API server's decoder leaves them nil. A time is in
    nanoseconds, [None] the zero time. *)
From stdpp Require Import base list gmap strings.
From Stdlib Require Import ZArith Lia Ascii.
From S2P Require Import Prelude GoStrings Sha256 Json JsonDecode Fingerprint TargetLock PlanStore KubeMeta.
Local Open Scope go_scope.
Local Open Scope Z_scope.

(** ** Limits ([internal/plancontract]) *)

Definition maxJSONByteExpansion : Z := 6.
Definition resultEnvelopeBytes : Z := Z.shiftl 64 10.
Definition MaxResultPayloadBytes : Z := MaxExecutableBytes * maxJSONByteExpansion + resultEnvelopeBytes.
Definition MaxPayloadBytes : Z := MaxResultPayloadBytes.
Definition InlinePayloadBytes : Z := ChunkBytes / 2.
Definition maxChunks : Z := (MaxPayloadBytes + ChunkBytes - 1) / ChunkBytes.

Definition apiVersion : string := "operator.ptah.run/v1alpha1".
Definition LabelRecord : string := "operator.ptah.run/result-record".
Definition LabelAttempt : string := "operator.ptah.run/result-attempt".
Definition FinalizerDeleteDependents : string := "foregroundDeletion".

#[export] Instance api_error_eq_dec : EqDecision api_error.
Proof. solve_decision. Defined.

Inductive rs_error : Type := ErrIncomplete | ErrConflict | ErrInvalid | ApiErr (e : api_error) | CheckErr (e : string).
#[export] Instance rs_error_eq_dec : EqDecision rs_error.
Proof. solve_decision. Defined.

(** ** Objects *)

Record PtahResultRecord : Type := { TypeMeta : string * string; Meta : ObjectMeta; Type_ : string; Data : list Z }.
#[export] Instance PtahResultRecord_eq_dec : EqDecision PtahResultRecord.
Proof. solve_decision. Defined.

Definition record_key (r : PtahResultRecord) : string * string := (MetaNamespace (Meta r), MetaName (Meta r)).

(** ** Bindings *)

Record Binding : Type := {
  Namespace : string;
  Kind : string;
  Name_ : string;
  UID : string;
  Generation : Z;
  ExecutionBindingID : string;
  InputFingerprint : string;
  Operation : string;
  OperationID : string;
  JobName : string;
  JobUID : string;
  PodName : string;
  PodUID : string;
}.
#[export] Instance Binding_eq_dec : EqDecision Binding.
Proof. solve_decision. Defined.

(** [value == "" || len(value) > 256 || strings.ContainsAny(value, " \t\r\n\x00")] *)
Definition bad_token (value : string) : bool :=
  bool_decide (value = EmptyString) || (256 <? len value) || contains_any (of_bytes [32; 9; 13; 10; 0]) value.

Definition schema_operations : list string := ["resolve"; "verify"; "observe"; "plan"; "apply"].
Definition migration_operations : list string := ["resolve"; "verify"; "migration-history"; "migration-apply"].

Definition validate (b : Binding) : result rs_error unit :=
  if negb (is_dns1123_label (Namespace b)) || negb (is_dns1123_subdomain (Name_ b)) ||
     negb (is_dns1123_subdomain (JobName b)) || negb (is_dns1123_subdomain (PodName b)) || (Generation b <? 1) ||
     negb (is_epoch_id (ExecutionBindingID b)) || negb (is_sha256_digest (InputFingerprint b))
  then Err ErrInvalid else
  if existsb bad_token [UID b; JobUID b; PodUID b; OperationID b] then Err ErrInvalid else
  if bool_decide (Kind b = "PtahSchema") && bool_decide (Operation b ∈ schema_operations) then Ok tt else
  if bool_decide (Kind b = "PtahMigration") && bool_decide (Operation b ∈ migration_operations) then Ok tt else
  Err ErrInvalid.

Definition attempt_key (namespace uid operationID jobName : string) : list Z :=
  marshal (JArr [JStr namespace; JStr uid; JStr operationID; JStr jobName]).

Definition AttemptName (namespace uid operationID jobName : string) : result rs_error string :=
  if negb (is_dns1123_label namespace) || negb (is_dns1123_subdomain jobName) then Err ErrInvalid else
  if existsb bad_token [uid; operationID] then Err ErrInvalid else
  Ok ("ptah-result-" +:+ str_drop 7 (DigestBytes (attempt_key namespace uid operationID jobName))).

Definition Name (b : Binding) : result rs_error string :=
  _ <-! validate b;
  AttemptName (Namespace b) (UID b) (OperationID b) (JobName b).

(** ** Documents *)

Record chunk : Type := { RefDigest : string; RefSize : Z }.
#[export] Instance chunk_eq_dec : EqDecision chunk.
Proof. solve_decision. Defined.

(** [Chunks] and [Inline] are nil: [None]. *)
Record manifest : Type := {
  Version : Z;
  Binding_ : Binding;
  Digest : string;
  Size : Z;
  Chunks : option (list chunk);
  Inline : option (list Z);
}.

Record completion : Type := { ManifestUID : string; ManifestDigest : string; ChunkUIDs : option (list string) }.

Definition binding_json (b : Binding) : json :=
  JObj [("namespace", JStr (Namespace b)); ("kind", JStr (Kind b)); ("name", JStr (Name_ b)); ("uid", JStr (UID b));
        ("generation", JInt (Generation b)); ("executionBindingID", JStr (ExecutionBindingID b));
        ("inputFingerprint", JStr (InputFingerprint b)); ("operation", JStr (Operation b));
        ("operationID", JStr (OperationID b)); ("jobName", JStr (JobName b)); ("jobUID", JStr (JobUID b));
        ("podName", JStr (PodName b)); ("podUID", JStr (PodUID b))].
Definition binding_keys : list string :=
  ["namespace"; "kind"; "name"; "uid"; "generation"; "executionBindingID"; "inputFingerprint"; "operation";
   "operationID"; "jobName"; "jobUID"; "podName"; "podUID"].
Definition binding_of_json (v : json) : option Binding :=
  values ← obj_values binding_keys v;
  match values with
  | [JStr ns; JStr kind; JStr name; JStr uid; JInt generation; JStr epoch; JStr input; JStr operation;
     JStr operationID; JStr jobName; JStr jobUID; JStr podName; JStr podUID] =>
      if in_int64 generation then
        Some {| Namespace := ns; Kind := kind; Name_ := name; UID := uid; Generation := generation;
                ExecutionBindingID := epoch; InputFingerprint := input; Operation := operation;
                OperationID := operationID; JobName := jobName; JobUID := jobUID; PodName := podName; PodUID := podUID |}
      else None
  | _ => None
  end.

Definition chunk_json (c : chunk) : json := JObj [("digest", JStr (RefDigest c)); ("size", JInt (RefSize c))].
Definition chunk_of_json (v : json) : option chunk :=
  values ← obj_values ["digest"; "size"] v;
  match values with
  | [JStr digest; JInt size] => if in_int64 size then Some {| RefDigest := digest; RefSize := size |} else None
  | _ => None
  end.

(** A slice: nil is [null]. *)
Definition slice_json {A} (f : A -> json) (l : option (list A)) : json :=
  match l with Some l => JArr (f <$> l) | None => JNull end.
Definition slice_of_json {A} (f : json -> option A) (v : json) : option (option (list A)) :=
  match v with
  | JNull => Some None
  | JArr l => Some <$> mapM f l
  | _ => None
  end.
Definition str_of_json (v : json) : option string := match v with JStr s => Some s | _ => None end.

(** [inline] is omitted when it is empty. *)
Definition manifest_json (m : manifest) : json :=
  JObj ([("version", JInt (Version m)); ("binding", binding_json (Binding_ m)); ("digest", JStr (Digest m));
         ("size", JInt (Size m)); ("chunks", slice_json chunk_json (Chunks m))] ++
        match Inline m with
        | Some (b :: r) => [("inline", JStr (base64 false (b :: r)))]
        | _ => []
        end).
Definition manifest_keys : list string := ["version"; "binding"; "digest"; "size"; "chunks"].
Definition manifest_head (values : list json) (inline : option (list Z)) : option manifest :=
  match values with
  | [JInt version; binding; JStr digest; JInt size; chunks] =>
      b ← binding_of_json binding; cs ← slice_of_json chunk_of_json chunks;
      if in_int64 version && in_int64 size then
        Some {| Version := version; Binding_ := b; Digest := digest; Size := size; Chunks := cs; Inline := inline |}
      else None
  | _ => None
  end.
Definition manifest_of_json (v : json) : option manifest :=
  match obj_values manifest_keys v with
  | Some values => manifest_head values None
  | None =>
      values ← obj_values (manifest_keys ++ ["inline"]) v;
      s ← last values ≫= str_of_json; inline ← base64_decode s;
      manifest_head (take 5 values) (Some inline)
  end.

Definition completion_json (c : completion) : json :=
  JObj [("manifestUID", JStr (ManifestUID c)); ("manifestDigest", JStr (ManifestDigest c));
        ("chunkUIDs", slice_json JStr (ChunkUIDs c))].
Definition completion_of_json (v : json) : option completion :=
  values ← obj_values ["manifestUID"; "manifestDigest"; "chunkUIDs"] v;
  match values with
  | [JStr uid; JStr digest; uids] =>
      us ← slice_of_json str_of_json uids;
      Some {| ManifestUID := uid; ManifestDigest := digest; ChunkUIDs := us |}
  | _ => None
  end.

(** The values of each type that are read back as they are. *)
Definition manifest_valid (m : manifest) : bool :=
  in_int64 (Version m) && in_int64 (Size m) && in_int64 (Generation (Binding_ m)) &&
  forallb (fun c => in_int64 (RefSize c)) (default [] (Chunks m)) &&
  match Inline m with
  | None => true
  | Some l => negb (bool_decide (l = [])) && forallb (fun b => (0 <=? b) && (b <? 256)) l
  end.

Lemma mapM_fmap {A} (f : A -> json) (g : json -> option A) l :
  Forall (fun a => g (f a) = Some a) l -> mapM g (f <$> l) = Some l.
Proof. intros H. apply mapM_Some, Forall2_fmap_l. by induction H; constructor. Qed.

Lemma slice_of_slice {A} (f : A -> json) (g : json -> option A) l :
  Forall (fun a => g (f a) = Some a) (default [] l) -> slice_of_json g (slice_json f l) = Some l.
Proof. destruct l as [l|]; [|done]. cbn. intros H. by rewrite mapM_fmap. Qed.

Lemma binding_of_binding b : in_int64 (Generation b) = true -> binding_of_json (binding_json b) = Some b.
Proof.
  unfold binding_of_json, binding_json. rewrite obj_values_keys by done. cbn [mbind option_bind fmap list_fmap snd].
  intros ->. by destruct b.
Qed.

Lemma chunk_of_chunk c : in_int64 (RefSize c) = true -> chunk_of_json (chunk_json c) = Some c.
Proof.
  unfold chunk_of_json, chunk_json. rewrite obj_values_keys by done. cbn [mbind option_bind fmap list_fmap snd].
  intros ->. by destruct c.
Qed.

Lemma forallb_bytes l : forallb (fun b => (0 <=? b) && (b <? 256)) l = true <-> Forall is_byte l.
Proof.
  rewrite forallb_forall, Forall_forall. setoid_rewrite list_elem_of_In.
  split; intros H x Hx; specialize (H x Hx); unfold is_byte in *; [bool_prop; lia|].
  apply andb_true_iff. lia.
Qed.

Lemma manifest_of_manifest m : manifest_valid m = true -> manifest_of_json (manifest_json m) = Some m.
Proof.
  unfold manifest_valid. rewrite !andb_true_iff, forallb_forall. intros [[[[Hv Hs] Hg] Hc] Hi].
  assert (Hhead : forall inline, manifest_head [JInt (Version m); binding_json (Binding_ m); JStr (Digest m); JInt (Size m);
    slice_json chunk_json (Chunks m)] inline =
    Some {| Version := Version m; Binding_ := Binding_ m; Digest := Digest m; Size := Size m; Chunks := Chunks m; Inline := inline |}).
  { intros inline. unfold manifest_head. rewrite binding_of_binding by done. cbn [mbind option_bind]. rewrite slice_of_slice.
    - cbn [mbind option_bind]. by rewrite Hv, Hs.
    - apply Forall_forall. intros c Hin. apply chunk_of_chunk, Hc. by apply list_elem_of_In. }
  unfold manifest_of_json, manifest_json. destruct (Inline m) as [[|x l]|] eqn:Ei.
  - done.
  - apply andb_true_iff in Hi as [_ Hb]. apply forallb_bytes in Hb.
    rewrite obj_values_other, obj_values_keys by done. cbn [mbind option_bind fmap list_fmap snd app last str_of_json take].
    rewrite base64_decode_base64 with (n := length (x :: l)) by done. cbn [mbind option_bind].
    rewrite Hhead, <- Ei. by destruct m.
  - rewrite obj_values_keys by done. cbn [fmap list_fmap snd app]. rewrite Hhead, <- Ei. by destruct m.
Qed.

Lemma completion_of_completion c : completion_of_json (completion_json c) = Some c.
Proof.
  unfold completion_of_json, completion_json. rewrite obj_values_keys by done. cbn [mbind option_bind fmap list_fmap snd].
  rewrite slice_of_slice by (by apply Forall_true). by destruct c.
Qed.

#[export] Instance manifest_codec : JsonCodec manifest :=
  {| to_json := manifest_json; of_json := manifest_of_json; json_valid := manifest_valid;
     of_to_json := manifest_of_manifest |}.
#[export] Instance completion_codec : JsonCodec completion :=
  {| to_json := completion_json; of_json := completion_of_json; json_valid := fun _ => true;
     of_to_json := fun c _ => completion_of_completion c |}.

(** ** Records *)

Definition AttemptLabel (name : string) : string := "r" +:+ base64 true (sha256 (bytes name)) +:+ "r".

Definition owner (version kind name uid : string) : OwnerReference :=
  {| OwnerAPIVersion := version; OwnerKind := kind; OwnerName := name; OwnerUID := uid;
     Controller := Some true; BlockOwnerDeletion := None |}.

Definition chunkName (name : string) (index : Z) : string := name +:+ "-" +:+ format_03d index.

Definition record (namespace name role : string) (ref : OwnerReference) (data : list Z) : PtahResultRecord :=
  let attempt := if bool_decide (OwnerKind ref = "PtahResultRecord") then OwnerName ref else name in
  {| TypeMeta := (EmptyString, EmptyString);
     Meta := new_meta namespace name {[LabelRecord := role; LabelAttempt := AttemptLabel attempt]} [ref];
     Type_ := role; Data := data |}.

(** The records a publication of [b] under [name] consists of. *)
Definition intent_record (b : Binding) (name : string) (data : list Z) : PtahResultRecord :=
  record (Namespace b) name "intent" (owner apiVersion (Kind b) (Name_ b) (UID b)) data.
Definition child_owner (intent : PtahResultRecord) : OwnerReference :=
  owner apiVersion "PtahResultRecord" (MetaName (Meta intent)) (MetaUID (Meta intent)).
Definition completeName (name : string) : string := name +:+ "-complete".

(** [DeletionTimestamp.IsZero()], a missing or empty label. *)
Definition is_zero (t : option Z) : bool := bool_decide (t = None).
Definition label (m : ObjectMeta) (key : string) : string := str_or_empty (Labels m !! key).

Definition recordShape (got want : PtahResultRecord) : bool :=
  let g := Meta got in let w := Meta want in
  let labels := if negb (bool_decide (MetaUID g = EmptyString)) && bool_decide (label g LabelAttempt = EmptyString)
                then delete LabelAttempt (Labels w) else Labels w in
  bool_decide (MetaNamespace g = MetaNamespace w) && bool_decide (MetaName g = MetaName w) &&
  bool_decide (GenerateName g = EmptyString) && bool_decide (Annotations g = ∅) && bool_decide (Finalizers g = []) &&
  bool_decide (Labels g = labels) && bool_decide (OwnerReferences g = OwnerReferences w) &&
  bool_decide (Type_ got = Type_ want).

(** [len(data) == 0 || len(data) > ChunkBytes] *)
Definition bad_size (data : list Z) : bool := (zlen data =? 0) || (ChunkBytes <? zlen data).

(** The chunk references of a manifest whose payload has [size] bytes. *)
Fixpoint refs_fit (size n : Z) (refs : list chunk) : bool :=
  match refs with
  | [] => true
  | ref :: rest =>
      (RefSize ref =? Z.min (size - n * ChunkBytes) ChunkBytes) && is_sha256_digest (RefDigest ref) &&
      refs_fit size (n + 1) rest
  end.

Definition admissionManifest (intent : option PtahResultRecord) : result rs_error (manifest * string) :=
  match intent with
  | None => Err ErrInvalid
  | Some intent =>
      if bad_size (Data intent) || negb (is_zero (DeletionTimestamp (Meta intent))) then Err ErrInvalid else
      match canonicalRecord (Data intent) with
      | None => Err ErrInvalid
      | Some m =>
          if negb (Version m =? 1) || (Size m <=? 0) || (MaxPayloadBytes <? Size m) || negb (is_sha256_digest (Digest m))
          then Err ErrInvalid else
          match Name (Binding_ m) with
          | Err _ => Err ErrInvalid
          | Ok name =>
              if negb (recordShape intent (intent_record (Binding_ m) name [])) then Err ErrInvalid else
              match Inline m with
              | Some inline =>
                  if negb (bool_decide (Chunks m = None)) || (zlen inline =? 0) || (InlinePayloadBytes <? zlen inline) ||
                     negb (zlen inline =? Size m) || negb (bool_decide (DigestBytes inline = Digest m))
                  then Err ErrInvalid else Ok (m, name)
              | None =>
                  let chunks := default [] (Chunks m) in
                  if negb (zlen chunks =? (Size m + ChunkBytes - 1) / ChunkBytes) || (maxChunks <? zlen chunks)
                  then Err ErrInvalid else
                  if negb (refs_fit (Size m) 0 chunks) then Err ErrInvalid else Ok (m, name)
              end
          end
      end
  end.

(** ** API calls *)

Inductive resultE : Type -> Type :=
| GetRecord (key : string * string) : resultE (result api_error PtahResultRecord)
| CreateRecord (r : PtahResultRecord) : resultE (result api_error PtahResultRecord)
| CheckAuthority : resultE (result string unit).

Abbreviation rprogram A := (prog resultE (result rs_error A)).

Definition read (want : PtahResultRecord) : rprogram PtahResultRecord :=
  answer <-- call (GetRecord (record_key want));
  Ret match answer with
      | Err NotFound => Err ErrIncomplete
      | Err e => Err (ApiErr e)
      | Ok got =>
          if bool_decide (MetaUID (Meta got) = EmptyString) || negb (is_zero (DeletionTimestamp (Meta got))) ||
             negb (recordShape got want) || bad_size (Data got)
          then Err ErrConflict else Ok got
      end.

(** [ensure] and what it leaves in [*want]. *)
Definition ensure (want : PtahResultRecord) : prog resultE (PtahResultRecord * result rs_error unit) :=
  let expected := want in
  let settle want :=
    (got <-- read expected;
     Ret match got with
         | Err e => (want, Err e)
         | Ok got => if negb (bool_decide (Data got = Data expected)) then (want, Err ErrConflict) else (got, Ok tt)
         end) in
  answer <-- call (CreateRecord want);
  match answer with
  | Ok stored => settle stored
  | Err AlreadyExists => settle want
  | Err e =>
      got <-- read expected;
      Ret (want, match got with
                 | Err ErrConflict => Err ErrConflict
                 | Err _ => Err (ApiErr e)
                 | Ok got => if negb (bool_decide (Data got = Data expected)) then Err ErrConflict else Err (ApiErr e)
                 end)
  end.

Record Receipt : Type := { ReceiptName : string; ReceiptUID : string; ReceiptDigest : string; ReceiptSize : Z }.

(** ** Load *)

Fixpoint load_parts (b : Binding) (name : string) (childOwner : OwnerReference) (size index : Z)
    (refs : list chunk) (uids : list string) (payload : list Z) : rprogram (list Z) :=
  match refs, uids with
  | [], _ => Ret (Ok payload)
  | _ :: _, [] => Ret (Err ErrConflict)
  | ref :: refs, uid :: uids =>
      let wantSize := Z.min (size - index * ChunkBytes) ChunkBytes in
      if negb (RefSize ref =? wantSize) || negb (is_sha256_digest (RefDigest ref)) || bool_decide (uid = EmptyString)
      then Ret (Err ErrConflict) else
      part <-- read (record (Namespace b) (chunkName name index) "chunk" childOwner []);
      match part with
      | Err e => Ret (Err e)
      | Ok part =>
          if negb (bool_decide (MetaUID (Meta part) = uid)) || negb (zlen (Data part) =? RefSize ref) ||
             negb (bool_decide (DigestBytes (Data part) = RefDigest ref))
          then Ret (Err ErrConflict)
          else load_parts b name childOwner size (index + 1) refs uids (payload ++ Data part)
      end
  end.

Definition loadIntent (intent : option PtahResultRecord) (b : Binding) : rprogram (list Z * Receipt) :=
  match intent with
  | None => Ret (Err ErrConflict)
  | Some intent =>
      if bool_decide (MetaUID (Meta intent) = EmptyString) then Ret (Err ErrConflict) else
      match admissionManifest (Some intent) with
      | Err _ => Ret (Err ErrConflict)
      | Ok (m, name) =>
          if negb (bool_decide (Binding_ m = b)) then Ret (Err ErrConflict) else
          match Inline m with
          | Some inline =>
              Ret (Ok (inline, {| ReceiptName := MetaName (Meta intent); ReceiptUID := MetaUID (Meta intent);
                                  ReceiptDigest := Digest m; ReceiptSize := Size m |}))
          | None =>
              ready <-- read (record (Namespace b) (completeName name) "complete" (child_owner intent) []);
              match ready with
              | Err e => Ret (Err e)
              | Ok ready =>
                  match canonicalRecord (Data ready) with
                  | None => Ret (Err ErrConflict)
                  | Some c =>
                      let uids := default [] (ChunkUIDs c) in
                      let refs := default [] (Chunks m) in
                      if negb (bool_decide (ManifestUID c = MetaUID (Meta intent))) ||
                         negb (bool_decide (ManifestDigest c = DigestBytes (Data intent))) ||
                         negb (zlen uids =? zlen refs)
                      then Ret (Err ErrConflict) else
                      loaded <-- load_parts b name (child_owner intent) (Size m) 0 refs uids [];
                      Ret match loaded with
                          | Err e => Err e
                          | Ok payload =>
                              if negb (zlen payload =? Size m) || negb (bool_decide (DigestBytes payload = Digest m))
                              then Err ErrConflict
                              else Ok (payload, {| ReceiptName := MetaName (Meta ready); ReceiptUID := MetaUID (Meta ready);
                                                   ReceiptDigest := Digest m; ReceiptSize := Size m |})
                          end
                  end
              end
          end
      end
  end.

Definition Load (b : Binding) : rprogram (list Z * Receipt) :=
  match Name b with
  | Err e => Ret (Err e)
  | Ok name =>
      intent <-- read (intent_record b name []);
      match intent with
      | Err e => Ret (Err e)
      | Ok intent => loadIntent (Some intent) b
      end
  end.

Definition LoadAttempt (namespace uid operationID jobName : string) : rprogram (Binding * list Z * Receipt) :=
  match AttemptName namespace uid operationID jobName with
  | Err _ => Ret (Err ErrInvalid)
  | Ok name =>
      answer <-- call (GetRecord (namespace, name));
      match answer with
      | Err NotFound => Ret (Err ErrIncomplete)
      | Err e => Ret (Err (ApiErr e))
      | Ok intent =>
          match admissionManifest (Some intent) with
          | Err _ => Ret (Err ErrConflict)
          | Ok (m, found) =>
              let b := Binding_ m in
              if negb (bool_decide (found = name)) || negb (bool_decide (Namespace b = namespace)) ||
                 negb (bool_decide (UID b = uid)) || negb (bool_decide (OperationID b = operationID)) ||
                 negb (bool_decide (JobName b = jobName))
              then Ret (Err ErrConflict) else
              loaded <-- loadIntent (Some intent) b;
              Ret (r <-! loaded; Ok (b, r.1, r.2))
          end
      end
  end.

(** ** Publish *)

(** [check] was given: ask it first. *)
Definition authorized {A} (check : bool) (k : rprogram A) : rprogram A :=
  if check then
    verdict <-- call CheckAuthority;
    match verdict with
    | Err e => Ret (Err (CheckErr e))
    | Ok _ => k
    end
  else k.

(** [_, receipt, err := s.Load(ctx, b)]. *)
Definition load_receipt (b : Binding) : rprogram Receipt :=
  loaded <-- Load b;
  Ret (r <-! loaded; Ok r.2).

(** [payload[offset:min(offset+ChunkBytes, len(payload))]] of every offset. *)
Definition parts (payload : list Z) : list (list Z) := split payload ChunkBytes.

Definition chunked_manifest (b : Binding) (payload : list Z) (expectedDigest : string) : manifest :=
  {| Version := 1; Binding_ := b; Digest := expectedDigest; Size := zlen payload;
     Chunks := match parts payload with
               | [] => None
               | ps => Some ((fun part => {| RefDigest := DigestBytes part; RefSize := zlen part |}) <$> ps)
               end;
     Inline := None |}.
Definition inline_manifest (b : Binding) (payload : list Z) (expectedDigest : string) : manifest :=
  {| Version := 1; Binding_ := b; Digest := expectedDigest; Size := zlen payload; Chunks := None; Inline := Some payload |}.

Fixpoint write_parts (b : Binding) (name : string) (childOwner : OwnerReference) (index : Z) (ps : list (list Z)) :
    rprogram (list string) :=
  match ps with
  | [] => Ret (Ok [])
  | data :: rest =>
      ensured <-- ensure (record (Namespace b) (chunkName name index) "chunk" childOwner data);
      let '(part, err) := ensured in
      match err with
      | Err e => Ret (Err e)
      | Ok _ =>
          uids <-- write_parts b name childOwner (index + 1) rest;
          Ret (uids <-! uids; Ok (MetaUID (Meta part) :: uids))
      end
  end.

Definition publishChunks (b : Binding) (name : string) (payload : list Z) (expectedDigest : string) (check : bool) :
    rprogram Receipt :=
  let encoded := marshal (manifest_json (chunked_manifest b payload expectedDigest)) in
  authorized check (
    ensured <-- ensure (intent_record b name encoded);
    let '(intent, err) := ensured in
    match err with
    | Err e => Ret (Err e)
    | Ok _ =>
        let childOwner := child_owner intent in
        ready <-- call (GetRecord (Namespace b, completeName name));
        match ready with
        | Ok _ => authorized check (load_receipt b)
        | Err NotFound =>
            uids <-- write_parts b name childOwner 0 (parts payload);
            match uids with
            | Err e => Ret (Err e)
            | Ok uids =>
                let c := {| ManifestUID := MetaUID (Meta intent); ManifestDigest := DigestBytes encoded;
                            ChunkUIDs := match uids with [] => None | _ => Some uids end |} in
                authorized check (
                  ensured <-- ensure (record (Namespace b) (completeName name) "complete" childOwner
                                        (marshal (completion_json c)));
                  match ensured.2 with
                  | Err e => Ret (Err e)
                  | Ok _ => load_receipt b
                  end)
            end
        | Err e => Ret (Err (ApiErr e))
        end
    end).

Definition publishInline (b : Binding) (payload : list Z) (expectedDigest : string) (check : bool) : rprogram Receipt :=
  let name := match Name b with Ok name => name | Err _ => EmptyString end in
  let encoded := marshal (manifest_json (inline_manifest b payload expectedDigest)) in
  authorized check (
    ensured <-- ensure (intent_record b name encoded);
    let '(intent, err) := ensured in
    match err with
    | Err ErrConflict =>
        previous <-- read intent;
        match previous with
        | Err e => Ret (Err e)
        | Ok previous =>
            match admissionManifest (Some previous) with
            | Ok (stored, _) =>
                if bool_decide (Inline stored = None) && bool_decide (Binding_ stored = b) &&
                   bool_decide (Digest stored = expectedDigest) && (Size stored =? zlen payload)
                then publishChunks b name payload expectedDigest check
                else Ret (Err ErrConflict)
            | Err _ => Ret (Err ErrConflict)
            end
        end
    | Err e => Ret (Err e)
    | Ok _ =>
        loaded <-- loadIntent (Some intent) b;
        Ret (r <-! loaded; Ok r.2)
    end).

Definition publish (b : Binding) (payload : list Z) (expectedDigest : string) (check : bool) : rprogram Receipt :=
  match Name b with
  | Err e => Ret (Err e)
  | Ok name =>
      if (zlen payload =? 0) || (MaxPayloadBytes <? zlen payload) || negb (is_sha256_digest expectedDigest) ||
         negb (bool_decide (DigestBytes payload = expectedDigest))
      then Ret (Err ErrInvalid) else
      if zlen payload <=? InlinePayloadBytes then publishInline b payload expectedDigest check
      else publishChunks b name payload expectedDigest check
  end.

Definition Publish (b : Binding) (payload : list Z) (expectedDigest : string) : rprogram Receipt :=
  publish b payload expectedDigest false.
(** [check] is nil: [false]. *)
Definition PublishAuthorized (b : Binding) (payload : list Z) (expectedDigest : string) (check : bool) : rprogram Receipt :=
  if negb check then Ret (Err ErrInvalid) else publish b payload expectedDigest true.

(** ** Admission *)

Definition with_deletion (r : PtahResultRecord) (deleted : option Z) (finalizers : list string) : PtahResultRecord :=
  let m := Meta r in
  {| TypeMeta := TypeMeta r;
     Meta := {| MetaName := MetaName m; GenerateName := GenerateName m; MetaNamespace := MetaNamespace m;
                SelfLink := SelfLink m; MetaUID := MetaUID m; ResourceVersion := ResourceVersion m;
                MetaGeneration := MetaGeneration m; CreationTimestamp := CreationTimestamp m;
                DeletionTimestamp := deleted; DeletionGracePeriodSeconds := DeletionGracePeriodSeconds m;
                Labels := Labels m; Annotations := Annotations m; OwnerReferences := OwnerReferences m;
                Finalizers := finalizers; ManagedFields := ManagedFields m |};
     Type_ := Type_ r; Data := Data r |}.

(** A foreground deletion in progress. *)
Definition foregroundDeleting (m : ObjectMeta) : bool :=
  negb (is_zero (DeletionTimestamp m)) && bool_decide (Finalizers m = [FinalizerDeleteDependents]).

Definition cleanupView (r : option PtahResultRecord) : option PtahResultRecord :=
  match r with
  | None => None
  | Some r => Some (with_deletion r None (if foregroundDeleting (Meta r) then [] else Finalizers (Meta r)))
  end.

Definition StoredBinding (intent : option PtahResultRecord) : result rs_error Binding :=
  match intent with
  | None => Err ErrInvalid
  | Some r =>
      if bool_decide (MetaUID (Meta r) = EmptyString) then Err ErrInvalid else
      let copy := with_deletion r None (if foregroundDeleting (Meta r) then [] else Finalizers (Meta r)) in
      m <-! admissionManifest (Some copy);
      Ok (Binding_ m.1)
  end.

Definition MemberOf (recorded : option PtahResultRecord) (b : Binding) : bool :=
  match Name b, cleanupView recorded with
  | Ok name, Some got =>
      match OwnerReferences (Meta got) with
      | [ref] =>
          let validName :=
            (bool_decide (Type_ got = "complete") && bool_decide (MetaName (Meta got) = completeName name)) ||
            (bool_decide (Type_ got = "chunk") &&
             existsb (fun n => bool_decide (MetaName (Meta got) = chunkName name n)) (seqZ 0 maxChunks)) in
          negb (bool_decide (MetaUID (Meta got) = EmptyString)) && negb (bool_decide (OwnerUID ref = EmptyString)) &&
          validName &&
          recordShape got (record (Namespace b) (MetaName (Meta got)) (Type_ got)
                             (owner apiVersion "PtahResultRecord" name (OwnerUID ref)) [])
      | _ => false
      end
  | _, _ => false
  end.

(** What admission changes before it compares two versions of a record. *)
Definition without_bookkeeping (r : PtahResultRecord) (finalizers : list string) : PtahResultRecord :=
  let m := Meta r in
  {| TypeMeta := TypeMeta r;
     Meta := {| MetaName := MetaName m; GenerateName := GenerateName m; MetaNamespace := MetaNamespace m;
                SelfLink := SelfLink m; MetaUID := MetaUID m; ResourceVersion := EmptyString;
                MetaGeneration := MetaGeneration m; CreationTimestamp := CreationTimestamp m;
                DeletionTimestamp := None; DeletionGracePeriodSeconds := None;
                Labels := Labels m; Annotations := Annotations m; OwnerReferences := OwnerReferences m;
                Finalizers := finalizers; ManagedFields := [] |};
     Type_ := Type_ r; Data := Data r |}.

Definition ValidateRecordUpdate (old next : option PtahResultRecord) : result rs_error unit :=
  match old, next with
  | Some old, Some next =>
      if bool_decide (MetaUID (Meta old) = EmptyString) || negb (bool_decide (MetaUID (Meta old) = MetaUID (Meta next)))
      then Err ErrInvalid else
      let finished := foregroundDeleting (Meta old) && negb (is_zero (DeletionTimestamp (Meta next))) &&
                      bool_decide (Finalizers (Meta next) = []) in
      let a := without_bookkeeping old (if finished then Finalizers (Meta next) else Finalizers (Meta old)) in
      let b := without_bookkeeping next (Finalizers (Meta next)) in
      if negb (bool_decide (a = b)) then Err ErrConflict else Ok tt
  | _, _ => Err ErrInvalid
  end.

(** The intent of a candidate: itself, or the live owner of a child. *)
Definition candidate_intent (candidate : PtahResultRecord) : rprogram PtahResultRecord :=
  if bool_decide (Type_ candidate = "intent") then Ret (Ok candidate) else
  if negb (bool_decide (Type_ candidate = "chunk")) && negb (bool_decide (Type_ candidate = "complete"))
  then Ret (Err ErrInvalid) else
  match OwnerReferences (Meta candidate) with
  | [ref] =>
      if negb (bool_decide (OwnerAPIVersion ref = apiVersion)) || negb (bool_decide (OwnerKind ref = "PtahResultRecord")) ||
         bool_decide (OwnerName ref = EmptyString) || bool_decide (OwnerUID ref = EmptyString)
      then Ret (Err ErrInvalid) else
      answer <-- call (GetRecord (MetaNamespace (Meta candidate), OwnerName ref));
      Ret match answer with
          | Err e => Err (ApiErr e)
          | Ok intent =>
              if negb (bool_decide (MetaUID (Meta intent) = OwnerUID ref)) || negb (is_zero (DeletionTimestamp (Meta intent)))
              then Err ErrConflict else Ok intent
          end
  | _ => Ret (Err ErrInvalid)
  end.

(** The first index below [len(m.Chunks)] whose name the candidate has. *)
Fixpoint chunk_index (name wanted : string) (n : Z) (refs : list chunk) : option (Z * chunk) :=
  match refs with
  | [] => None
  | ref :: rest => if bool_decide (wanted = chunkName name n) then Some (n, ref) else chunk_index name wanted (n + 1) rest
  end.

Fixpoint admit_parts (m : manifest) (name : string) (childOwner : OwnerReference) (n : Z)
    (refs : list chunk) (uids : list string) (payload : list Z) : rprogram (list Z) :=
  match refs, uids with
  | [], _ => Ret (Ok payload)
  | _ :: _, [] => Ret (Err ErrConflict)
  | ref :: refs, uid :: uids =>
      let want := record (Namespace (Binding_ m)) (chunkName name n) "chunk" childOwner [] in
      part <-- read want;
      match part with
      | Err e => Ret (Err e)
      | Ok part =>
          if negb (recordShape part want) || bool_decide (uid = EmptyString) ||
             negb (bool_decide (MetaUID (Meta part) = uid)) || negb (zlen (Data part) =? RefSize ref) ||
             negb (bool_decide (DigestBytes (Data part) = RefDigest ref))
          then Ret (Err ErrConflict)
          else admit_parts m name childOwner (n + 1) refs uids (payload ++ Data part)
      end
  end.

(** The structure of a candidate against its intent; the payload of an inline
    intent or of a completion. *)
Definition candidate_payload (candidate intent : PtahResultRecord) (m : manifest) (name : string) :
    rprogram (option (list Z)) :=
  let childOwner := owner apiVersion "PtahResultRecord" name (MetaUID (Meta intent)) in
  let ns := Namespace (Binding_ m) in
  let refs := default [] (Chunks m) in
  if bool_decide (Type_ candidate = "intent") then Ret (Ok (Inline m)) else
  if bool_decide (Type_ candidate = "chunk") then
    Ret match chunk_index name (MetaName (Meta candidate)) 0 refs with
        | None => Err ErrInvalid
        | Some (index, ref) =>
            if negb (recordShape candidate (record ns (chunkName name index) "chunk" childOwner [])) then Err ErrInvalid else
            if negb (zlen (Data candidate) =? RefSize ref) ||
               negb (bool_decide (DigestBytes (Data candidate) = RefDigest ref))
            then Err ErrConflict else Ok None
        end
  else if bool_decide (Type_ candidate = "complete") then
    if negb (recordShape candidate (record ns (completeName name) "complete" childOwner [])) then Ret (Err ErrInvalid) else
    match canonicalRecord (Data candidate) with
    | None => Ret (Err ErrConflict)
    | Some c =>
        let uids := default [] (ChunkUIDs c) in
        if negb (bool_decide (ManifestUID c = MetaUID (Meta intent))) ||
           negb (bool_decide (ManifestDigest c = DigestBytes (Data intent))) || negb (zlen uids =? zlen refs)
        then Ret (Err ErrConflict) else
        loaded <-- admit_parts m name childOwner 0 refs uids [];
        Ret match loaded with
            | Err e => Err e
            | Ok payload =>
                if negb (zlen payload =? Size m) || negb (bool_decide (DigestBytes payload = Digest m))
                then Err ErrConflict else Ok (Some payload)
            end
    end
  else Ret (Err ErrInvalid).

(** Identical retries are admitted; a member that is missing after completion
    is never recreated. *)
Definition same_stored (existing candidate : PtahResultRecord) : bool :=
  negb (bool_decide (MetaUID (Meta existing) = EmptyString)) && is_zero (DeletionTimestamp (Meta existing)) &&
  recordShape existing candidate && bool_decide (Data existing = Data candidate).
Definition unless_conflicting (candidate : PtahResultRecord) (answer : result api_error PtahResultRecord) :
    result rs_error unit :=
  match answer with
  | Ok existing => if same_stored existing candidate then Ok tt else Err ErrConflict
  | Err NotFound => Ok tt
  | Err e => Err (ApiErr e)
  end.
Definition candidate_free (candidate : PtahResultRecord) (m : manifest) (name : string) : rprogram unit :=
  existing <-- call (GetRecord (record_key candidate));
  match existing with
  | Err NotFound =>
      if bool_decide (Type_ candidate = "complete") then Ret (Ok tt) else
      ready <-- call (GetRecord (Namespace (Binding_ m), completeName name));
      match ready with
      | Ok _ =>
          again <-- call (GetRecord (record_key candidate));
          Ret match again with
              | Err NotFound => Err ErrConflict
              | answer => unless_conflicting candidate answer
              end
      | Err NotFound => Ret (Ok tt)
      | Err e => Ret (Err (ApiErr e))
      end
  | answer => Ret (unless_conflicting candidate answer)
  end.

Definition ValidateRecordCreate (candidate : option PtahResultRecord) : rprogram (Binding * option (list Z)) :=
  match candidate with
  | None => Ret (Err ErrInvalid)
  | Some candidate =>
      if negb (is_zero (DeletionTimestamp (Meta candidate))) || bad_size (Data candidate) then Ret (Err ErrInvalid) else
      found <-- candidate_intent candidate;
      match found with
      | Err e => Ret (Err e)
      | Ok intent =>
          match admissionManifest (Some intent) with
          | Err e => Ret (Err e)
          | Ok (m, name) =>
              if negb (bool_decide (Inline m = None)) && negb (bool_decide (Type_ candidate = "intent"))
              then Ret (Err ErrInvalid) else
              if negb (bool_decide (label (Meta candidate) LabelAttempt = AttemptLabel name)) then Ret (Err ErrInvalid) else
              checked <-- candidate_payload candidate intent m name;
              match checked with
              | Err e => Ret (Err e)
              | Ok payload =>
                  free <-- candidate_free candidate m name;
                  Ret (_ <-! free; Ok (Binding_ m, payload))
              end
          end
      end
  end.
