(* ===== verification/ResultStoreProofs.v ===== *)
(** * Runner results: what a load shows and what a receipt means

    [Witnessed] is what the proofs need of the API server: a record a read
    returned stays known. Two servers meet it: one that answers anything and
    whose answers are logged, and one that keeps records under their names,
    refuses or loses any call and lets other writers create, update and delete
    records between two calls, except that the records of one attempt are not
    deleted and keep what admission freezes. Against either, a load that
    succeeds has read an intent for this very binding and the bytes its digest
    names; against the second, all receipts of that attempt agree. *)
From stdpp Require Import base list gmap strings.
From Stdlib Require Import ZArith Lia Ascii.
From S2P Require Import Prelude GoStrings Sha256 Json JsonDecode Fingerprint TargetLock PlanStore PlanStoreProofs KubeMeta ResultStore.
Local Open Scope go_scope.
Local Open Scope Z_scope.
#[local] Opaque sha256 hex_encode.

Class Witnessed {G : Type} (sp : espec resultE G) (seen : string * string -> PtahResultRecord -> G -> Prop) : Prop := {
  ask_free X (e : resultE X) g : pre sp e g;
  get_seen key r g g' : post sp (GetRecord key) g (Ok r) g' -> seen key r g';
  seen_stays X (e : resultE X) g x g' key r : post sp e g x g' -> seen key r g -> seen key r g';
}.

Section sound.
Context {G : Type} (sp : espec resultE G) (seen : string * string -> PtahResultRecord -> G -> Prop).
Context `{W : !Witnessed sp seen}.

(** A record a read accepted for [want]. *)
Definition accepted (want got : PtahResultRecord) : Prop :=
  MetaUID (Meta got) <> EmptyString /\ DeletionTimestamp (Meta got) = None /\
  recordShape got want = true /\ bad_size (Data got) = false.

Lemma wp_read want g :
  wp sp (read want) (fun r g' => forall got, r = Ok got -> seen (record_key want) got g' /\ accepted want got) g.
Proof.
  split; [apply ask_free|]. intros x g' Hx. cbn. destruct x as [got|e]; [|by destruct e].
  intros got' H. destruct (_ || _ || _ || _) eqn:E; [done|]. injection H as <-. bool_prop.
  unfold is_zero in *. bool_prop. split; [by eapply get_seen|done].
Qed.

Lemma wp_keep_seen {A} (p : prog resultE A) Q key r g :
  seen key r g -> wp sp p Q g -> wp sp p (fun a g' => Q a g' /\ seen key r g') g.
Proof. apply (wp_keep sp p Q (fun g => seen key r g)). intros. by eapply seen_stays. Qed.

(** A part a load accepted at [index]. *)
Definition part_seen (b : Binding) (name : string) (own : OwnerReference) (index : Z) (ref : chunk) (data : list Z) (g : G) : Prop :=
  exists part, seen (Namespace b, chunkName name index) part g /\ Data part = data /\
    zlen data = RefSize ref /\ DigestBytes data = RefDigest ref /\
    accepted (record (Namespace b) (chunkName name index) "chunk" own []) part.

Fixpoint parts_seen (b : Binding) (name : string) (own : OwnerReference) (index : Z) (refs : list chunk) (datas : list (list Z)) (g : G) : Prop :=
  match refs, datas with
  | [], [] => True
  | ref :: refs, data :: datas => part_seen b name own index ref data g /\ parts_seen b name own (index + 1) refs datas g
  | _, _ => False
  end.

Lemma wp_load_parts b name own size refs : forall index uids acc g,
  wp sp (load_parts b name own size index refs uids acc)
    (fun r g' => forall payload, r = Ok payload ->
       exists datas, payload = acc ++ concat datas /\ parts_seen b name own index refs datas g') g.
Proof.
  induction refs as [|ref refs IH]; intros index uids acc g.
  { cbn. intros payload [= <-]. exists []. by rewrite app_nil_r. }
  destruct uids as [|uid uids]; [done|]. cbn [load_parts].
  destruct (_ || _ || _); [done|]. apply wp_bind. eapply wp_mono; [|apply wp_read].
  intros [part|e] g1 Hr; [|done]. destruct (Hr part eq_refl) as [Hs Ha].
  destruct (_ || _ || _) eqn:E; [done|]. bool_prop.
  eapply wp_mono; [|eapply wp_keep_seen; [exact Hs|apply IH]].
  intros r g2 [Hr2 Hs2] payload ->. destruct (Hr2 payload eq_refl) as (datas & -> & Hp).
  exists (Data part :: datas). split; [cbn; by rewrite <- app_assoc|]. split; [|done].
  exists part. done.
Qed.

(** The publication of [b] with [payload], as far as it was read. *)
Definition committed (b : Binding) (payload : list Z) (receipt : Receipt) (g : G) : Prop :=
  exists name intent m, Name b = Ok name /\ seen (Namespace b, name) intent g /\
    accepted (intent_record b name []) intent /\
    admissionManifest (Some intent) = Ok (m, name) /\ Binding_ m = b /\
    ReceiptDigest receipt = Digest m /\ ReceiptSize receipt = Size m /\
    DigestBytes payload = Digest m /\ zlen payload = Size m /\
    ((Inline m = Some payload /\ ReceiptName receipt = MetaName (Meta intent) /\ ReceiptUID receipt = MetaUID (Meta intent)) \/
     (Inline m = None /\ exists ready c datas,
        seen (Namespace b, completeName name) ready g /\
        accepted (record (Namespace b) (completeName name) "complete" (child_owner intent) []) ready /\
        ReceiptName receipt = MetaName (Meta ready) /\ ReceiptUID receipt = MetaUID (Meta ready) /\
        canonicalRecord (Data ready) = Some c /\ ManifestUID c = MetaUID (Meta intent) /\
        ManifestDigest c = DigestBytes (Data intent) /\ payload = concat datas /\
        parts_seen b name (child_owner intent) 0 (default [] (Chunks m)) datas g)).

Lemma admission_inline m name r inline :
  admissionManifest (Some r) = Ok (m, name) -> Inline m = Some inline ->
  DigestBytes inline = Digest m /\ zlen inline = Size m.
Proof.
  cbn [admissionManifest]. destruct (_ || _); [done|]. destruct (canonicalRecord _) as [m'|]; [|done].
  destruct (_ || _ || _ || _); [done|]. destruct (Name _); [|done]. destruct (negb _); [done|]. intros H Hi.
  destruct (Inline m') as [i|] eqn:E; [|destruct (_ || _) in H; [done|]; destruct (negb _) in H; congruence].
  destruct (_ || _ || _ || _ || _) eqn:Eg in H; [done|]. injection H as <- <-. rewrite E in Hi. injection Hi as ->. by bool_prop.
Qed.

Lemma admission_name m name r : admissionManifest (Some r) = Ok (m, name) -> Name (Binding_ m) = Ok name.
Proof.
  cbn [admissionManifest]. destruct (_ || _); [done|]. destruct (canonicalRecord _) as [m'|]; [|done].
  destruct (_ || _ || _ || _); [done|]. destruct (Name _) eqn:E; [|done]. destruct (negb _); [done|]. intros H.
  destruct (Inline m') as [i|]; [destruct (_ || _ || _ || _ || _) in H|destruct (_ || _) in H; [done|]; destruct (negb _) in H];
    congruence.
Qed.

(** [loadIntent] of an intent that was read for [b]. *)
Lemma wp_loadIntent b name intent g :
  Name b = Ok name -> seen (Namespace b, name) intent g -> accepted (intent_record b name []) intent ->
  wp sp (loadIntent (Some intent) b)
    (fun r g' => forall payload receipt, r = Ok (payload, receipt) -> committed b payload receipt g') g.
Proof.
  intros Hn Hs Ha. cbn [loadIntent]. destruct (bool_decide _); [done|].
  destruct (admissionManifest (Some intent)) as [[m name']|] eqn:Em; [|done].
  destruct (negb _) eqn:Eb; [done|]. bool_prop. pose proof (admission_name _ _ _ Em) as Hn'.
  rewrite Eb, Hn in Hn'. injection Hn' as <-.
  destruct (Inline m) as [inline|] eqn:Ei.
  { cbn. intros payload receipt [= <- <-]. destruct (admission_inline _ _ _ _ Em Ei) as [Hd Hz].
    exists name, intent, m. repeat (split; [done|]). by left. }
  apply wp_bind. eapply wp_mono; [|eapply wp_keep_seen; [exact Hs|apply wp_read]].
  intros [ready|e] g1 [Hr Hs1]; [|done]. destruct (Hr ready eq_refl) as [Hsr Har]. clear Hr.
  destruct (canonicalRecord (Data ready)) as [c|] eqn:Ec; [|done].
  destruct (_ || _ || _) eqn:Eg; [done|]. bool_prop.
  apply wp_bind. eapply wp_mono; [|eapply wp_keep_seen; [exact Hsr|]; eapply wp_keep_seen; [exact Hs1|apply wp_load_parts]].
  intros [payload|e] g2 [[Hr Hs2] Hsr2]; [|done]. destruct (Hr payload eq_refl) as (datas & -> & Hp).
  cbn [wp]. intros payload' receipt Hok. destruct (_ || _) eqn:Ed; [done|]. bool_prop. injection Hok as <- <-.
  exists name, intent, m. repeat (split; [done|]). right. split; [done|]. exists ready, c, datas. done.
Qed.

Lemma wp_Load b g :
  wp sp (Load b) (fun r g' => forall payload receipt, r = Ok (payload, receipt) -> committed b payload receipt g') g.
Proof.
  unfold Load. destruct (Name b) as [name|] eqn:En; [|done]. apply wp_bind. eapply wp_mono; [|apply wp_read].
  intros [intent|e] g1 Hr; [|done]. destruct (Hr intent eq_refl) as [Hs Ha].
  by apply (wp_loadIntent b name).
Qed.

Lemma wp_ensure want g :
  wp sp (ensure want) (fun r g' => forall got, r = (got, Ok tt) ->
    seen (record_key want) got g' /\ accepted want got /\ Data got = Data want) g.
Proof.
  unfold ensure.
  assert (Hsettle : forall w g, wp sp (got <-- read want;
     Ret match got with
         | Err e => (w, Err e)
         | Ok got => if negb (bool_decide (Data got = Data want)) then (w, Err ErrConflict) else (got, Ok tt)
         end) (fun r g' => forall got, r = (got, Ok tt) ->
    seen (record_key want) got g' /\ accepted want got /\ Data got = Data want) g).
  { intros w g1. apply wp_bind. eapply wp_mono; [|apply wp_read]. intros [got|e] g2 Hr; [|done]. cbn.
    intros got' H. destruct (negb _) eqn:E; [done|]. bool_prop. injection H as <-. destruct (Hr got eq_refl). done. }
  split; [apply ask_free|]. intros x g1 Hx. cbn [pbind]. destruct x as [stored|[]]; try apply Hsettle.
  all: apply wp_bind; eapply wp_mono; [|apply wp_read]; intros [got|[]] g2 _; cbn; try done; by case_match.
Qed.

(** What a publication of [payload] left behind when it returned [receipt]. *)
Definition published (b : Binding) (payload : list Z) (digest : string) (receipt : Receipt) (g : G) : Prop :=
  exists name intent, Name b = Ok name /\ seen (Namespace b, name) intent g /\
    (Data intent = marshal (manifest_json (inline_manifest b payload digest)) \/
     Data intent = marshal (manifest_json (chunked_manifest b payload digest))) /\
    exists payload', committed b payload' receipt g.

Lemma wp_authorized {A} check (k : rprogram A) (Q : result rs_error A -> G -> Prop) g :
  (forall e g, Q (Err e) g) -> (forall g, wp sp k Q g) -> wp sp (authorized check k) Q g.
Proof.
  intros He Hk. unfold authorized. destruct check; [|apply Hk]. split; [apply ask_free|].
  intros [[]|e] g' _; [apply Hk|apply He].
Qed.

(** The same, keeping a record known before it. *)
Lemma wp_authorized_seen {A} check (k : rprogram A) (Q : result rs_error A -> G -> Prop) key r g :
  (forall e g, Q (Err e) g) -> seen key r g -> (forall g, seen key r g -> wp sp k Q g) ->
  wp sp (authorized check k) Q g.
Proof.
  intros He Hs Hk. unfold authorized. destruct check; [|by apply Hk]. split; [apply ask_free|].
  intros [[]|e] g' Hx; [|apply He]. apply Hk. by eapply seen_stays.
Qed.

Lemma wp_load_receipt b name intent payload digest g :
  Name b = Ok name -> seen (Namespace b, name) intent g ->
  (Data intent = marshal (manifest_json (inline_manifest b payload digest)) \/
   Data intent = marshal (manifest_json (chunked_manifest b payload digest))) ->
  wp sp (load_receipt b) (fun r g' => forall receipt, r = Ok receipt -> published b payload digest receipt g') g.
Proof.
  intros Hn Hs Hd. apply wp_bind. eapply wp_mono; [|eapply wp_keep_seen; [exact Hs|apply wp_Load]].
  intros [[p rc]|e] g' [Hr Hs']; [|done]. cbn. intros receipt [= <-]. exists name, intent. eauto 10.
Qed.

Lemma wp_publishChunks b name payload digest check g :
  Name b = Ok name ->
  wp sp (publishChunks b name payload digest check)
    (fun r g' => forall receipt, r = Ok receipt -> published b payload digest receipt g') g.
Proof.
  intros Hn. apply wp_authorized; [done|]. clear g. intros g. apply wp_bind. eapply wp_mono; [|apply wp_ensure].
  intros [intent [[]|e]] g1 Hr; [|done]. destruct (Hr intent eq_refl) as (Hs & _ & Hd). clear Hr.
  split; [apply ask_free|]. intros x g2 Hx. cbn [pbind]. eapply (seen_stays _ _ g1) in Hx; [|exact Hs].
  clear Hs. rename Hx into Hs. destruct x as [ready|[]]; try done.
  { eapply wp_authorized_seen; [done|exact Hs|]. intros g3 Hs3. eapply wp_load_receipt; eauto. }
  apply wp_bind. eapply wp_mono; [|eapply wp_keep_seen; [exact Hs|]; apply wp_true, ask_free].
  intros [uids|e] g3 [_ Hs3]; [|done]. eapply wp_authorized_seen; [done|exact Hs3|].
  clear g2 g3 Hs Hs3. intros g4 Hs4. apply wp_bind. eapply wp_mono; [|eapply wp_keep_seen; [exact Hs4|]; apply wp_true, ask_free].
  intros [done' [[]|e]] g5 [_ Hs5]; [|done]. eapply wp_load_receipt; eauto.
Qed.

Lemma wp_publishInline b payload digest check g :
  is_ok (Name b) = true ->
  wp sp (publishInline b payload digest check)
    (fun r g' => forall receipt, r = Ok receipt -> published b payload digest receipt g') g.
Proof.
  intros Hn. unfold publishInline. destruct (Name b) as [name|] eqn:En; [|done].
  apply wp_authorized; [done|]. clear g. intros g. apply wp_bind. eapply wp_mono; [|apply wp_ensure].
  intros [intent [[]|e]] g1 Hr.
  - destruct (Hr intent eq_refl) as (Hs & Ha & Hd). clear Hr. apply wp_bind.
    eapply wp_mono; [|eapply wp_keep_seen; [exact Hs|]; eapply wp_loadIntent; done].
    intros [[p rc]|e] g2 [Hr Hs2]; [|done]. cbn. intros receipt [= <-]. exists name, intent. eauto 10.
  - destruct e; try done. apply wp_bind. eapply wp_mono; [|apply wp_true, ask_free].
    intros [previous|e] g2 _; [|done]. destruct (admissionManifest _) as [[stored ?]|]; [|done].
    destruct (_ && _ && _ && _); [|done]. by apply wp_publishChunks.
Qed.

Lemma wp_publish_result b payload digest check g :
  wp sp (publish b payload digest check)
    (fun r g' => forall receipt, r = Ok receipt ->
       (payload <> [] /\ zlen payload <= MaxPayloadBytes /\ digest = DigestBytes payload) /\
       published b payload digest receipt g') g.
Proof.
  unfold publish. destruct (Name b) as [name|] eqn:En; [|done]. destruct (_ || _ || _ || _) eqn:Eg; [done|]. bool_prop.
  assert (payload <> []) by (by intros ->).
  destruct (zlen payload <=? InlinePayloadBytes);
    (eapply wp_mono; [|first [apply wp_publishInline|apply wp_publishChunks]; by rewrite ?En]);
    intros r g' Hr receipt ->; auto.
Qed.
End sound.

(** ** A server that answers anything *)

Definition read_log : Type := list ((string * string) * PtahResultRecord).
Definition any_answer (X : Type) (e : resultE X) (g : read_log) : X -> read_log -> Prop :=
  match e in resultE X return X -> read_log -> Prop with
  | GetRecord key => fun x g' => g' = match x with Ok r => g ++ [(key, r)] | Err _ => g end
  | _ => fun _ g' => g' = g
  end.
Definition any_server : espec resultE read_log := {| pre := fun _ _ _ => True; post := any_answer |}.
Definition logged (key : string * string) (r : PtahResultRecord) (g : read_log) : Prop := (key, r) ∈ g.

#[export] Instance any_server_witnessed : Witnessed any_server logged.
Proof.
  split; [done|..].
  - cbn. intros key r g g' ->. apply elem_of_app. right. by apply list_elem_of_singleton.
  - intros X e g x g' key r H Hs. destruct e; cbn in H; subst; [|done..].
    destruct x; [|done]. unfold logged. set_solver.
Qed.

(** ** A server that keeps records, with concurrent writers *)

Abbreviation store := (gmap (string * string) PtahResultRecord).

(** A record as the server stores it: with an identity, otherwise as asked. *)
Definition stored_as (r r' : PtahResultRecord) : Prop :=
  MetaUID (Meta r') <> EmptyString /\ DeletionTimestamp (Meta r') = None /\
  MetaName (Meta r') = MetaName (Meta r) /\ MetaNamespace (Meta r') = MetaNamespace (Meta r) /\
  GenerateName (Meta r') = GenerateName (Meta r) /\ Labels (Meta r') = Labels (Meta r) /\
  Annotations (Meta r') = Annotations (Meta r) /\ OwnerReferences (Meta r') = OwnerReferences (Meta r) /\
  Finalizers (Meta r') = Finalizers (Meta r) /\ Type_ r' = Type_ r /\ Data r' = Data r.

(** What no admitted write changes of a record: its identity, type and bytes. *)
Definition frozen (r r' : PtahResultRecord) : Prop :=
  MetaName (Meta r') = MetaName (Meta r) /\ MetaUID (Meta r') = MetaUID (Meta r) /\ Type_ r' = Type_ r /\ Data r' = Data r.

#[export] Instance frozen_preorder : PreOrder frozen.
Proof. split; unfold frozen; [done|]. intros r1 r2 r3 (?&?&?&?) (?&?&?&?). split_and!; congruence. Qed.

Lemma admitted_update_frozen old next : ValidateRecordUpdate (Some old) (Some next) = Ok tt -> frozen old next.
Proof.
  unfold ValidateRecordUpdate. destruct (_ || _); [done|]. case_match; [done|]. intros _.
  match goal with H : negb _ = false |- _ => apply negb_false_iff, bool_decide_eq_true in H; rename H into Heq end.
  pose proof (f_equal (fun r => MetaName (Meta r)) Heq). pose proof (f_equal (fun r => MetaUID (Meta r)) Heq).
  pose proof (f_equal Type_ Heq). pose proof (f_equal Data Heq). done.
Qed.

(** The names under which the records of an attempt are stored. *)
Definition own (b : Binding) (key : string * string) : Prop :=
  exists name, Name b = Ok name /\ (key = (Namespace b, name) \/ key = (Namespace b, completeName name) \/
                                   exists index, key = (Namespace b, chunkName name index)).

(** ** One attempt's records among other writers *)
Section Concurrent.
Context (b : Binding).

(** From [s] to [s'] the attempt's records stay, each as far as admission
    freezes it. Records may appear under its free names, and every record of
    another attempt may appear, change or go. *)
Definition retains (s s' : store) : Prop :=
  forall key r, own b key -> s !! key = Some r -> exists r', s' !! key = Some r' /\ frozen r r'.

#[export] Instance retains_preorder : PreOrder retains.
Proof.
  split; [intros s key r _ H; by exists r|]. intros s1 s2 s3 H12 H23 key r Hk H.
  destruct (H12 _ _ Hk H) as (r2 & H2 & Hf). destruct (H23 _ _ Hk H2) as (r3 & H3 & Hf'). exists r3. split; [done|by etrans].
Qed.

(** Before each call others write as [retains] allows. A read returns what is
    stored or fails; a creation under a free name is stored, and its answer
    may be lost; any other creation is refused. *)
Definition concurrent_answer (X : Type) (e : resultE X) (s : store) (x : X) (s' : store) : Prop :=
  exists mid, retains s mid /\
  match e in resultE X return X -> Prop with
  | GetRecord key => fun x =>
      s' = mid /\ match mid !! key with
                  | Some r => x = Ok r \/ exists e, e <> NotFound /\ x = Err e
                  | None => exists e, x = Err e
                  end
  | CreateRecord r => fun x =>
      (s' = mid /\ exists e, x = Err e) \/
      (mid !! record_key r = None /\ exists r', stored_as r r' /\ s' = <[record_key r := r']> mid /\
         (x = Ok r' \/ exists e, x = Err e))
  | CheckAuthority => fun _ => s' = mid
  end x.
Definition concurrent_server : espec resultE store := {| pre := fun _ _ _ => True; post := concurrent_answer |}.
Definition holds_record (key : string * string) (r : PtahResultRecord) (s : store) : Prop :=
  own b key -> exists r', s !! key = Some r' /\ frozen r r'.

Lemma concurrent_retains X (e : resultE X) s x s' : concurrent_answer X e s x s' -> retains s s'.
Proof.
  intros (mid & Hm & H). destruct e; [destruct H as [-> _]; done| |by subst].
  destruct H as [[-> _]|(Hn & r' & _ & -> & _)]; [done|]. etrans; [done|]. intros key r0 _ H0. exists r0.
  rewrite lookup_insert_ne by (intros <-; congruence). done.
Qed.

Lemma exec_retains {A} (p : prog resultE A) s a s' : exec concurrent_answer p s a s' -> retains s s'.
Proof.
  revert s. induction p as [a0|X e k IH]; intros s.
  - by intros [_ ->].
  - intros (x & s1 & Hx & Hex). etrans; [by eapply concurrent_retains|by eapply IH].
Qed.

#[export] Instance concurrent_witnessed : Witnessed concurrent_server holds_record.
Proof.
  split; [done|..].
  - cbn. intros key r g g' (mid & _ & -> & H) _. exists r. split; [|done]. destruct (mid !! key) as [r'|].
    + destruct H as [[= ->]|(? & _ & ?)]; [done|discriminate].
    + destruct H; discriminate.
  - intros X e g x g' key r H%concurrent_retains Hs Hk. destruct (Hs Hk) as (r1 & H1 & Hf).
    destruct (H _ _ Hk H1) as (r2 & H2 & Hf'). exists r2. split; [done|by etrans].
Qed.

Lemma holds_agree key r r' s s' :
  own b key -> retains s s' -> holds_record key r s -> holds_record key r' s' ->
  MetaName (Meta r) = MetaName (Meta r') /\ MetaUID (Meta r) = MetaUID (Meta r') /\ Data r = Data r'.
Proof.
  intros Hk Hs H H'. destruct (H Hk) as (r1 & H1 & Hf1), (H' Hk) as (r2 & H2 & Hf2).
  destruct (Hs _ _ Hk H1) as (r3 & H3 & Hf3). simplify_eq. destruct Hf1 as (?&?&_&?), Hf2 as (?&?&_&?), Hf3 as (?&?&_&?).
  split_and!; congruence.
Qed.

Lemma parts_agree name owner1 owner2 s s' refs : forall index datas datas',
  Name b = Ok name -> retains s s' -> parts_seen holds_record b name owner1 index refs datas s ->
  parts_seen holds_record b name owner2 index refs datas' s' -> datas = datas'.
Proof.
  induction refs as [|ref refs IH]; intros index [|d datas] [|d' datas'] Hn Hs H H'; try done.
  destruct H as [(p & Hp & <- & _) H], H' as [(p' & Hp' & <- & _) H']. f_equal; [|by eapply IH].
  eapply holds_agree; [|exact Hs|exact Hp|exact Hp']. exists name. eauto.
Qed.

Lemma manifest_of_data m name m' name' intent intent' :
  admissionManifest (Some intent) = Ok (m, name) -> admissionManifest (Some intent') = Ok (m', name') ->
  Data intent = Data intent' -> m = m'.
Proof. cbn [admissionManifest]. intros H H' E. rewrite E in H. follow H; follow H'; congruence. Qed.

(** A name holds one publication: whoever reads it sees the same one. *)
Lemma committed_agree b' payload payload' receipt receipt' s s' :
  retains s s' -> Namespace b' = Namespace b -> Name b' = Name b ->
  committed holds_record b payload receipt s -> committed holds_record b' payload' receipt' s' ->
  b' = b /\ payload = payload' /\ receipt' = receipt.
Proof.
  intros Hs Hns Hname (name & intent & m & Hn & Hi & _ & Hm & Hb & Hd & Hz & _ & _ & Hcase)
    (name' & intent' & m' & Hn' & Hi' & _ & Hm' & Hb' & Hd' & Hz' & _ & _ & Hcase').
  assert (name' = name) as -> by congruence. rewrite Hns in Hi'.
  destruct (holds_agree (Namespace b, name) intent intent' s s') as (En & Eu & Ed); [exists name; eauto|done..|].
  pose proof (manifest_of_data _ _ _ _ _ _ Hm Hm' Ed) as <-. assert (b' = b) as -> by congruence. split; [done|].
  destruct receipt as [rn ru rd rz], receipt' as [rn' ru' rd' rz']. cbn in *.
  destruct Hcase as [(Hi1 & ? & ?)|(Hi1 & ready & c & datas & Hr & _ & ? & ? & _ & _ & _ & -> & Hp)],
    Hcase' as [(Hi2 & ? & ?)|(Hi2 & ready' & c' & datas' & Hr' & _ & ? & ? & _ & _ & _ & -> & Hp')]; try congruence.
  - split; [congruence|]. f_equal; congruence.
  - destruct (holds_agree (Namespace b, completeName name) ready ready' s s') as (En' & Eu' & _); [exists name; eauto|done..|].
    split; [|f_equal; congruence]. f_equal. by eapply parts_agree.
Qed.
End Concurrent.

(** ** Documents of well-typed values *)

(** An [int64] generation, strings the API server decoded, and bytes. *)
Record well_typed (b : Binding) (payload : list Z) : Prop := {
  typed_generation : in_int64 (Generation b) = true;
  typed_utf8 : json_utf8 (binding_json b) = true;
  typed_bytes : Forall is_byte payload;
}.

Lemma base64_ascii url n : forall l, (length l <= n)%nat -> Forall is_byte l ->
  str_all (fun a => byte_of a <? 128) (base64 url l) = true.
Proof.
  assert (Hc : forall v, 0 <= v < 64 -> (byte_of (base64_char url v) <? 128) = true).
  { intros v Hv. unfold base64_char. apply Z.ltb_lt.
    rewrite byte_of_of by (unfold is_byte; repeat case_match; lia). repeat case_match; lia. }
  induction n as [|n IH]; intros l Hn Hl; [by destruct l; simpl in *; [|lia]|].
  destruct l as [|a [|b [|c r]]]; [done| | |]; repeat (apply Forall_cons in Hl as [? Hl]).
  - destruct (sextets a 0 0) as [(R1 & R2 & _) _]; [done..|]. change (0 / 16) with 0 in *. rewrite Z.add_0_r in *.
    cbn [base64 str_all]. rewrite !Hc by done. by destruct url.
  - destruct (sextets a b 0) as [(R1 & R2 & R3 & _) _]; [done..|]. change (0 / 64) with 0 in *. rewrite (Z.add_0_r (b mod 16 * 4)) in *.
    cbn [base64 str_all]. rewrite !Hc by done. by destruct url.
  - destruct (sextets a b c) as [(R1 & R2 & R3 & R4) _]; [done..|].
    rewrite base64_cons. cbn [str_all]. rewrite !Hc by done. cbn [andb]. apply IH; [simpl in *; lia|done].
Qed.

Lemma digest_utf8 l : utf8_str (DigestBytes l) = true.
Proof.
  apply ascii_utf8. unfold DigestBytes. rewrite str_all_app. apply andb_true_iff. split; [done|].
  eapply str_all_mono; [|apply hex_encode_lower, sha256_range]. intros a Ha.
  unfold is_lower_hex, is_digit, in_range in Ha. apply Z.ltb_lt. apply orb_true_iff in Ha as [Ha|Ha]; bool_prop; lia.
Qed.

Lemma manifest_roundtrip m :
  manifest_valid m = true -> json_utf8 (manifest_json m) = true -> canonicalRecord (marshal (manifest_json m)) = Some m.
Proof. exact (canonical_marshal m). Qed.
Lemma completion_roundtrip c :
  json_utf8 (completion_json c) = true -> canonicalRecord (marshal (completion_json c)) = Some c.
Proof. exact (canonical_marshal c eq_refl). Qed.

Lemma payload_int64 n : 0 <= n <= MaxPayloadBytes -> in_int64 n = true.
Proof. change MaxPayloadBytes with 50397184. unfold in_int64. intros. apply andb_true_iff. lia. Qed.

Lemma inline_roundtrip b payload digest :
  well_typed b payload -> payload <> [] -> zlen payload <= MaxPayloadBytes -> digest = DigestBytes payload ->
  canonicalRecord (marshal (manifest_json (inline_manifest b payload digest))) = Some (inline_manifest b payload digest).
Proof.
  intros [Hg Hu Hb] Hne Hz ->. apply manifest_roundtrip.
  - unfold manifest_valid. cbn [Version Size Digest Binding_ Chunks Inline inline_manifest default forallb].
    rewrite Hg, (payload_int64 (zlen payload)), bool_decide_eq_false_2 by (done || unfold zlen in *; lia).
    by apply (proj2 (forallb_bytes payload)).
  - destruct payload as [|x l]; [done|]. unfold manifest_json. cbn [Version Size Digest Binding_ Chunks Inline inline_manifest slice_json].
    cbn [app json_utf8 forallb fst snd]. rewrite Hu, digest_utf8, (ascii_utf8 (base64 false _)); [done|].
    by eapply base64_ascii.
Qed.

Lemma part_refs_utf8 ps :
  forallb json_utf8 (chunk_json <$> ((fun part => {| RefDigest := DigestBytes part; RefSize := zlen part |}) <$> ps)) = true.
Proof.
  induction ps as [|p ps IH]; [done|]. rewrite !fmap_cons. cbn [forallb]. rewrite IH, andb_true_r.
  unfold chunk_json. cbn [json_utf8 forallb fst snd RefDigest RefSize]. by rewrite digest_utf8.
Qed.

Lemma part_refs_int64 ps : Forall (fun c => 0 < zlen c <= ChunkBytes) ps ->
  forallb (fun c => in_int64 (RefSize c)) ((fun part => {| RefDigest := DigestBytes part; RefSize := zlen part |}) <$> ps) = true.
Proof.
  induction 1 as [|p ps Hp _ IH]; [done|]. rewrite fmap_cons. cbn [forallb RefSize]. rewrite IH, andb_true_r.
  apply payload_int64. change ChunkBytes with 524288 in Hp. change MaxPayloadBytes with 50397184. lia.
Qed.

Lemma chunked_roundtrip b payload digest :
  well_typed b payload -> zlen payload <= MaxPayloadBytes -> digest = DigestBytes payload ->
  canonicalRecord (marshal (manifest_json (chunked_manifest b payload digest))) = Some (chunked_manifest b payload digest).
Proof.
  intros [Hg Hu Hb] Hz ->. apply manifest_roundtrip.
  - unfold manifest_valid. cbn [Version Size Digest Binding_ Chunks Inline chunked_manifest].
    rewrite Hg, (payload_int64 (zlen payload)) by (unfold zlen in *; lia). change (in_int64 1) with true.
    cbn [andb]. rewrite andb_true_r. pose proof (split_sizes payload ChunkBytes eq_refl) as Hs. fold (parts payload) in Hs.
    apply part_refs_int64 in Hs. by destruct (parts payload).
  - unfold manifest_json. cbn [Version Size Digest Binding_ Chunks Inline chunked_manifest app json_utf8 forallb fst snd].
    rewrite Hu, digest_utf8. pose proof (part_refs_utf8 (parts payload)) as Hp.
    destruct (parts payload) as [|p ps]; [done|]. unfold slice_json. cbn [json_utf8]. by rewrite Hp.
Qed.

(** What the intent of a publication decodes to. *)
Lemma published_digest b0 b payload digest receipt s :
  Namespace b = Namespace b0 -> Name b = Name b0 ->
  well_typed b payload -> payload <> [] -> zlen payload <= MaxPayloadBytes -> digest = DigestBytes payload ->
  published (holds_record b0) b payload digest receipt s ->
  exists payload', committed (holds_record b0) b payload' receipt s /\
    ReceiptDigest receipt = digest /\ ReceiptSize receipt = zlen payload /\ DigestBytes payload' = DigestBytes payload.
Proof.
  intros Hns Hnm Ht Hne Hz Hd (name & intent & Hn & Hi & Hdata & payload' & Hc). exists payload'. split; [done|].
  destruct Hc as (name' & intent' & m & Hn' & Hi' & _ & Hm & _ & Hrd & Hrs & Hpd & _).
  assert (name' = name) as -> by congruence.
  destruct (holds_agree b0 (Namespace b, name) intent intent' s s) as (_ & _ & Ei);
    [exists name; rewrite Hns; split; [congruence|eauto]|done..|].
  assert (Hm' : exists m', canonicalRecord (Data intent) = Some m' /\ Digest m' = digest /\ Size m' = zlen payload).
  { destruct Hdata as [-> | ->].
    - exists (inline_manifest b payload digest). split; [by apply inline_roundtrip|by split].
    - exists (chunked_manifest b payload digest). split; [by apply chunked_roundtrip|by split]. }
  destruct Hm' as (m' & Ec & Ed & Es). cbn [admissionManifest] in Hm. rewrite <- Ei, Ec in Hm.
  assert (m = m') as -> by (follow Hm; congruence). split_and!; congruence.
Qed.

(** * Properties *)

(** C22: A loaded result is the one its attempt committed. However the API
    server answers, when [Load] returns a payload it has read an intent for
    exactly this binding under the attempt's name, the payload has the digest
    and the length that intent and the receipt state, and the receipt is
    either the intent itself, which then holds the payload, or a completion
    record that names the intent's identity and bytes and was read too. *)
Theorem result_load_sound (b : Binding) (payload : list Z) (receipt : Receipt) (log : read_log) :
  exec any_answer (Load b) [] (Ok (payload, receipt)) log ->
  exists name intent m, Name b = Ok name /\ ((Namespace b, name), intent) ∈ log /\
    admissionManifest (Some intent) = Ok (m, name) /\ Binding_ m = b /\
    DigestBytes payload = ReceiptDigest receipt /\ zlen payload = ReceiptSize receipt /\
    Digest m = ReceiptDigest receipt /\ Size m = ReceiptSize receipt /\
    (Inline m = Some payload /\ ReceiptUID receipt = MetaUID (Meta intent) \/
     exists ready c, ((Namespace b, completeName name), ready) ∈ log /\ ReceiptUID receipt = MetaUID (Meta ready) /\
       canonicalRecord (Data ready) = Some c /\ ManifestUID c = MetaUID (Meta intent) /\
       ManifestDigest c = DigestBytes (Data intent)).
Proof.
  intros H. eapply (wp_exec any_server) in H; [|done|apply (wp_Load any_server logged)].
  destruct (H _ _ eq_refl) as (name & intent & m & Hn & Hi & _ & Hm & Hb & Hd & Hs & Hpd & Hps & Hcase).
  exists name, intent, m. repeat (split; [congruence || done|]).
  destruct Hcase as [(Hin & _ & Hu)|(_ & ready & c & _ & Hr & _ & _ & Hu & Hc & H1 & H2 & _)]; [by left|].
  right. by exists ready, c.
Qed.

(** C23: An attempt has one result. Among any number of concurrent writers,
    once a publication under an attempt's name returned a receipt, every later
    publication under that name that returns a receipt returns the same one,
    for the same binding and the same bytes, and every later load under that
    name returns those bytes (up to a SHA-256 collision between the two). All
    this as long as none of the attempt's own records is deleted and each
    update of one of them keeps what [ValidateRecordUpdate] freezes
    ([admitted_update_frozen]); the records of other attempts may be created,
    changed and deleted at any point. *)
Theorem one_result_per_attempt (b : Binding) (payload : list Z) (digest : string) (check : bool) (receipt : Receipt)
    (s0 s1 s2 s3 : store) (b' : Binding) (payload' : list Z) (receipt' : Receipt) :
  well_typed b payload -> well_typed b' payload' ->
  exec (concurrent_answer b) (publish b payload digest check) s0 (Ok receipt) s1 -> retains b s1 s2 ->
  Namespace b' = Namespace b -> Name b' = Name b ->
  (exists digest' check', exec (concurrent_answer b) (publish b' payload' digest' check') s2 (Ok receipt') s3) \/
  exec (concurrent_answer b) (Load b') s2 (Ok (payload', receipt')) s3 ->
  b' = b /\ receipt' = receipt /\ ReceiptDigest receipt = DigestBytes payload /\ ReceiptSize receipt = zlen payload /\
  (payload' = payload \/ collision payload' payload).
Proof.
  intros Ht Ht' Hp Hs Hns Hn Hcase. set (sp := concurrent_server b). set (held := holds_record b).
  pose proof (wp_exec sp _ ltac:(done) _ _ _ _ _ Hp (wp_publish_result _ held b payload digest check s0) _ eq_refl)
    as [(Hne & Hz & Hd) Hpub].
  destruct (published_digest b b _ _ _ _ eq_refl eq_refl Ht Hne Hz Hd Hpub) as (q & Hc & Hrd & Hrs & Hq).
  assert (Hlater : exists q', committed held b' q' receipt' s3 /\ DigestBytes q' = DigestBytes payload' /\ retains b s2 s3).
  { destruct Hcase as [(d' & c' & H)|H].
    - pose proof (wp_exec sp _ ltac:(done) _ _ _ _ _ H (wp_publish_result _ held b' payload' d' c' s2) _ eq_refl)
        as [(Hne' & Hz' & Hd') Hpub'].
      destruct (published_digest b b' _ _ _ _ Hns Hn Ht' Hne' Hz' Hd' Hpub') as (q' & Hc' & _ & _ & Hq'). eauto using exec_retains.
    - pose proof (wp_exec sp _ ltac:(done) _ _ _ _ _ H (wp_Load _ held b' s2) _ _ eq_refl) as Hc'.
      eauto using exec_retains. }
  destruct Hlater as (q' & Hc' & Hq' & Hs').
  destruct (committed_agree b b' q q' receipt receipt' s1 s3) as (-> & <- & ->); [by etrans|done..|].
  split_and!; [done|done|congruence|done|]. apply DigestBytes_inj. congruence.
Qed.
