(* ===== verification/ResultEnvelope.v ===== *)
(** * The documents of a publication fit into one record

    An upper bound on the length of an encoded document, and with it that the
    intent of every valid publication, inline or chunked, and the completion
    of a chunked one stay within [ChunkBytes]: the limit the records of a
    publication are read back under. *)
From stdpp Require Import base list gmap strings pretty.
From Stdlib Require Import ZArith Lia Ascii.
From S2P Require Import Prelude GoStrings Sha256 Json JsonDecode Fingerprint TargetLock PlanStore PlanStoreProofs KubeMeta ResultStore ResultStoreProofs.
Local Open Scope Z_scope.
#[local] Opaque sha256 hex_encode.

(** ** Lengths of encodings *)

(** A character [json.Marshal] copies. *)
Definition plain_char (a : ascii) : bool := (byte_of a <? 128) && safe_byte true (byte_of a).
Definition str_cost (s : string) : Z := 2 + (if str_all plain_char s then 1 else 6) * len s.

Fixpoint doc_cost (v : json) : Z :=
  match v with
  | JStr s => str_cost s
  | JInt _ => 20
  | JBool _ => 5
  | JNull => 4
  | JArr l => foldr (fun x n => 1 + doc_cost x + n) 2 l
  | JObj fs => foldr (fun f n => 2 + str_cost f.1 + doc_cost f.2 + n) 2 fs
  end.

Fixpoint json_int64 (v : json) : bool :=
  match v with
  | JInt z => in_int64 z
  | JArr l => forallb json_int64 l
  | JObj fs => forallb (fun f => json_int64 f.2) fs
  | _ => true
  end.

Lemma esc_ascii_cost b : (length (esc_ascii true b) <= 6)%nat.
Proof. unfold esc_ascii. repeat case_match; simpl; lia. Qed.
Lemma esc_rune3_cost a b c : (length (esc_rune3 a b c) <= 6)%nat.
Proof. unfold esc_rune3. case_match; simpl; lia. Qed.

Lemma esc_cost n : forall l, (length l <= n)%nat -> (length (esc true l) <= 6 * length l)%nat.
Proof.
  induction n as [|n IH]; intros l Hl; [by destruct l; simpl in *; [|lia]|].
  assert (Hrest : forall r, (length r < length l)%nat -> (length (esc true r) <= 6 * length r)%nat) by (intros; apply IH; lia).
  clear IH Hl. destruct l as [|b0 l1]; [simpl; lia|]. simpl esc.
  pose proof (Hrest l1 ltac:(simpl; lia)) as H1.
  destruct (b0 <? 128); [rewrite length_app; pose proof (esc_ascii_cost b0); simpl length; lia|].
  assert (Hinv : (length (esc_invalid ++ esc true l1) <= 6 * length (b0 :: l1))%nat) by (rewrite length_app; simpl length; lia).
  destruct l1 as [|b1 l2]; [exact Hinv|]. destruct (rune2 b0 b1); [pose proof (Hrest l2 ltac:(simpl; lia)); simpl length; lia|].
  destruct l2 as [|b2 l3]; [exact Hinv|].
  destruct (rune3 b0 b1 b2); [rewrite length_app; pose proof (Hrest l3 ltac:(simpl; lia)); pose proof (esc_rune3_cost b0 b1 b2); simpl length; lia|].
  destruct l3 as [|b3 l4]; [exact Hinv|].
  destruct (rune4 b0 b1 b2 b3); [pose proof (Hrest l4 ltac:(simpl; lia)); simpl length; lia|exact Hinv].
Qed.

Lemma esc_plain s : str_all plain_char s = true -> esc true (bytes s) = bytes s.
Proof.
  induction s as [|a s IH]; [done|]. rewrite bytes_cons. intros [Ha Hs]%andb_true_iff.
  apply andb_true_iff in Ha as [Ha Hsafe]. cbn [esc]. unfold esc_ascii. rewrite Ha, Hsafe, IH by done. done.
Qed.

Lemma quote_cost s : zlen (quote true s) <= str_cost s.
Proof.
  unfold quote, str_cost, zlen. cbn [length]. rewrite length_app. cbn [length].
  destruct (str_all plain_char s) eqn:E.
  - rewrite esc_plain, length_bytes by done. unfold len. lia.
  - pose proof (esc_cost _ (bytes s) (Nat.le_refl _)) as H. rewrite length_bytes in H. unfold len. lia.
Qed.

Lemma str_cost_bound s : 2 <= str_cost s <= 2 + 6 * len s.
Proof. unfold str_cost, len. case_match; lia. Qed.

(** Decimal digits. *)
Lemma pretty_N_go_digits k : forall x s, (x < 10 ^ N.of_nat k)%N ->
  (String.length (pretty_N_go x s) <= String.length s + k)%nat.
Proof.
  induction k as [|k IH]; intros x s Hx.
  - assert (x = 0%N) as -> by (cbn in Hx; lia). rewrite pretty_N_go_0. lia.
  - assert (x = 0 \/ 0 < x)%N as [->|?] by lia; [rewrite pretty_N_go_0; lia|].
    rewrite pretty_N_go_step by done. etrans; [apply IH|cbn [String.length]; lia].
    rewrite Nat2N.inj_succ, N.pow_succ_r' in Hx. apply N.Div0.div_lt_upper_bound. lia.
Qed.

Lemma format_int_digits z : in_int64 z = true -> zlen (bytes (format_int z)) <= 20.
Proof.
  intros Hz. unfold zlen. rewrite length_bytes. unfold in_int64 in Hz. bool_prop.
  assert (Hp : forall p, Z.pos p <= 2 ^ 63 -> (String.length (pretty (N.pos p)) <= 19)%nat).
  { intros p Hp. unfold pretty, pretty_N. case_decide; [done|].
    etrans; [apply (pretty_N_go_digits 19)|done].
    change (10 ^ N.of_nat 19)%N with 10000000000000000000%N. change (2 ^ 63) with 9223372036854775808 in Hp. lia. }
  unfold format_int. destruct z as [|p|p].
  - by vm_compute.
  - change (pretty (Z.pos p)) with (pretty (N.pos p)). specialize (Hp p ltac:(lia)). lia.
  - change (pretty (Z.neg p)) with (String "-" (pretty (N.pos p))). cbn [String.length]. specialize (Hp p ltac:(lia)). lia.
Qed.

Lemma encode_cost v : json_int64 v = true -> zlen (marshal v) <= doc_cost v.
Proof.
  induction v as [s|z|[]| |l IH|fs IH] using json_ind'; intros Hi; try done.
  - apply quote_cost.
  - by apply format_int_digits.
  - assert (Htail : zlen (tail_arr true l) <= foldr (fun x n => 1 + doc_cost x + n) 2 l - 1).
    { cbn [json_int64] in Hi. induction IH as [|x l Hx _ IHl]; [done|]. cbn [forallb] in Hi. bool_prop.
      cbn [foldr]. change (tail_arr true (x :: l)) with (44 :: marshal x ++ tail_arr true l).
      unfold zlen in *. cbn [length]. rewrite length_app. specialize (Hx ltac:(done)). specialize (IHl ltac:(done)). lia. }
    cbn [doc_cost]. destruct l as [|x l]; [done|]. rewrite marshal_arr_cons.
    change (tail_arr true (x :: l)) with (44 :: marshal x ++ tail_arr true l) in Htail. unfold zlen in *. cbn [length] in *. lia.
  - assert (Htail : zlen (tail_obj true fs) <= foldr (fun f n => 2 + str_cost f.1 + doc_cost f.2 + n) 2 fs - 1).
    { cbn [json_int64] in Hi. induction IH as [|[k x] l Hx _ IHl]; [done|]. cbn [forallb] in Hi. bool_prop.
      cbn [foldr fst snd]. change (tail_obj true ((k, x) :: l)) with (44 :: quote true k ++ 58 :: marshal x ++ tail_obj true l).
      pose proof (quote_cost k). cbn [snd] in *.
      unfold zlen in *. cbn [length]. rewrite length_app. cbn [length]. rewrite length_app.
      specialize (Hx ltac:(done)). specialize (IHl ltac:(done)). lia. }
    cbn [doc_cost]. destruct fs as [|[k x] fs]; [done|]. rewrite marshal_obj_cons.
    change (tail_obj true ((k, x) :: fs)) with (44 :: quote true k ++ 58 :: marshal x ++ tail_obj true fs) in Htail.
    unfold zlen in *. cbn [length] in *. lia.
Qed.

(** ** Lengths of the parts of a publication *)

Lemma prefixed_length p n s :
  match cut_prefix p s with Some h => (String.length h =? n)%nat && str_all is_lower_hex h | None => false end = true ->
  len s = len p + Z.of_nat n.
Proof.
  destruct (cut_prefix p s) as [h|] eqn:E; [|done]. intros [Hl _]%andb_true_iff. apply Nat.eqb_eq in Hl.
  apply cut_prefix_Some in E as ->. unfold len. rewrite str_app_length. lia.
Qed.

Lemma digest_length s : is_sha256_digest s = true -> len s = 71.
Proof. intros H. by rewrite (prefixed_length "sha256:" 64 s H). Qed.
Lemma DigestBytes_length l : len (DigestBytes l) = 71.
Proof. apply digest_length, DigestBytes_shape. Qed.

Lemma label_length s : is_dns1123_label s = true -> len s <= 63.
Proof. unfold is_dns1123_label, ends_middle. destruct s; [done|]. intros H. by bool_prop. Qed.
Lemma subdomain_length s : is_dns1123_subdomain s = true -> len s <= 253.
Proof. unfold is_dns1123_subdomain. intros H. by bool_prop. Qed.
Lemma token_length s : bad_token s = false -> len s <= 256.
Proof. unfold bad_token. intros H. by bool_prop. Qed.

Lemma member_length (l : list string) (n : Z) s : forallb (fun x => len x <=? n) l = true -> s ∈ l -> len s <= n.
Proof. rewrite forallb_forall. intros H Hs. apply Z.leb_le, H. by apply list_elem_of_In. Qed.

Record binding_bounded (b : Binding) : Prop := {
  bounded_strings : Forall (fun s => len s <= 256)
    [Namespace b; Kind b; Name_ b; UID b; ExecutionBindingID b; InputFingerprint b; Operation b; OperationID b;
     JobName b; JobUID b; PodName b; PodUID b];
}.

Lemma validate_bounded b : validate b = Ok tt -> binding_bounded b.
Proof.
  unfold validate. destruct (_ || _) eqn:E1; [done|]. destruct (existsb _ _) eqn:E2; [done|]. intros H.
  cbn [existsb] in E2. bool_prop.
  assert (Hk : len (Kind b) <= 256 /\ len (Operation b) <= 256).
  { destruct (bool_decide (Kind b = "PtahSchema") && _) eqn:Es.
    - bool_prop. split; [by replace (Kind b) with "PtahSchema"%string by done|].
      by eapply member_length with (l := schema_operations).
    - destruct (bool_decide (Kind b = "PtahMigration") && _) eqn:Em; [|done]. bool_prop.
      split; [by replace (Kind b) with "PtahMigration"%string by done|].
      by eapply member_length with (l := migration_operations). }
  destruct Hk. constructor.
  assert (He : len (ExecutionBindingID b) = 35) by (by apply (prefixed_length "v1-" 32)).
  repeat (apply Forall_cons; split); try apply Forall_nil; try done;
    try (by apply token_length); try (by etrans; [apply label_length|]); try (by etrans; [apply subdomain_length|]); try lia.
  rewrite digest_length by done. lia.
Qed.

(** Evaluate the lengths and costs of the keys. *)
Ltac eval_keys :=
  repeat match goal with
  | |- context [str_cost (String ?a ?s)] =>
      let v := eval vm_compute in (str_cost (String a s)) in change (str_cost (String a s)) with v
  end.

Lemma binding_cost b : binding_bounded b -> doc_cost (binding_json b) <= 20000.
Proof.
  intros [Hb]. repeat (apply Forall_cons in Hb as [? Hb]). unfold binding_json. cbn [doc_cost foldr fst snd]. eval_keys.
  repeat match goal with |- context [str_cost ?s] =>
    lazymatch goal with
    | _ : 2 <= str_cost s <= _ |- _ => fail
    | _ => pose proof (str_cost_bound s)
    end
  end.
  repeat match goal with H : 2 <= str_cost _ <= _ |- _ => revert H end.
  generalize (str_cost (Namespace b)) (str_cost (Kind b)) (str_cost (Name_ b)) (str_cost (UID b)) (str_cost (ExecutionBindingID b))
    (str_cost (InputFingerprint b)) (str_cost (Operation b)) (str_cost (OperationID b)) (str_cost (JobName b)) (str_cost (JobUID b))
    (str_cost (PodName b)) (str_cost (PodUID b)). intros. lia.
Qed.

(** Base64: four characters for three bytes, none of them escaped. *)
Lemma base64_char_plain v : 0 <= v < 64 -> plain_char (base64_char false v) = true.
Proof.
  intros Hv. unfold plain_char, base64_char, safe_byte. rewrite !byte_of_of by (unfold is_byte; repeat case_match; lia).
  repeat case_match; apply andb_true_iff; split; lia.
Qed.

Lemma base64_shape n : forall l, (length l <= n)%nat -> Forall is_byte l ->
  str_all plain_char (base64 false l) = true /\ 3 * len (base64 false l) <= 4 * zlen l + 8.
Proof.
  induction n as [|n IH]; intros l Hn Hl; [by destruct l; simpl in *; [|lia]|].
  destruct l as [|a [|b [|c r]]]; [done| | |]; repeat (apply Forall_cons in Hl as [? Hl]).
  - destruct (sextets a 0 0) as [(R1 & R2 & _) _]; [done..|]. change (0 / 16) with 0 in *. rewrite Z.add_0_r in *.
    cbn [base64 str_all]. rewrite !base64_char_plain by done. split; [done|]. unfold len, zlen. cbn [String.length length]. lia.
  - destruct (sextets a b 0) as [(R1 & R2 & R3 & _) _]; [done..|]. change (0 / 64) with 0 in *. rewrite (Z.add_0_r (b mod 16 * 4)) in *.
    cbn [base64 str_all]. rewrite !base64_char_plain by done. split; [done|]. unfold len, zlen. cbn [String.length length]. lia.
  - destruct (sextets a b c) as [(R1 & R2 & R3 & R4) _]; [done..|].
    destruct (IH r) as [Hp Hlen]; [simpl in *; lia|done|]. rewrite base64_cons. cbn [str_all].
    rewrite !base64_char_plain by done. split; [done|]. unfold len, zlen in *. cbn [String.length length]. lia.
Qed.

Lemma foldr_cost {A} (f : A -> Z) (k : Z) l : Forall (fun a => f a <= k) l ->
  foldr (fun a n => 1 + f a + n) 2 l <= 2 + (1 + k) * zlen l.
Proof. unfold zlen. induction 1 as [|a l Ha _ IH]; cbn [foldr length]; lia. Qed.

Lemma parts_count payload : zlen payload <= MaxPayloadBytes -> zlen (parts payload) <= maxChunks.
Proof.
  intros Hz. unfold parts, split. rewrite split_loop_count; [|change ChunkBytes with 524288; lia|done]. unfold maxChunks.
  rewrite Z2Nat.id by done. apply Z.div_le_mono; [done|]. lia.
Qed.

Lemma head_cost b digest : binding_bounded b -> is_sha256_digest digest = true ->
  doc_cost (binding_json b) + str_cost digest <= 20428.
Proof.
  intros Hb Hd. pose proof (binding_cost b Hb). pose proof (str_cost_bound digest). rewrite (digest_length digest) in * by done. lia.
Qed.

Lemma inline_fits b payload digest :
  binding_bounded b -> well_typed b payload -> is_sha256_digest digest = true -> zlen payload <= InlinePayloadBytes ->
  zlen (marshal (manifest_json (inline_manifest b payload digest))) <= ChunkBytes.
Proof.
  intros Hb [Hg _ Hbytes] Hd Hz. change InlinePayloadBytes with 262144 in Hz. change ChunkBytes with 524288.
  pose proof (head_cost b digest Hb Hd) as Hh.
  etrans; [apply encode_cost|].
  - unfold manifest_json, binding_json. destruct payload as [|x l];
      cbn [json_int64 forallb app Version Size Digest Binding_ Chunks Inline inline_manifest slice_json fst snd]; rewrite Hg; [done|].
    change (in_int64 1) with true. rewrite payload_int64; [done|]. change MaxPayloadBytes with 50397184. unfold zlen in *. lia.
  - destruct (base64_shape _ payload (Nat.le_refl _) Hbytes) as [Hp Hl].
    assert (Hc : str_cost (base64 false payload) <= 2 + len (base64 false payload)) by (unfold str_cost; rewrite Hp; lia).
    unfold manifest_json. destruct payload as [|x l];
      cbn [doc_cost foldr app Version Size Digest Binding_ Chunks Inline inline_manifest slice_json fst snd]; eval_keys; lia.
Qed.

Lemma part_refs_cost ps :
  Forall (fun v => doc_cost v <= 600) (chunk_json <$> ((fun part => {| RefDigest := DigestBytes part; RefSize := zlen part |}) <$> ps)).
Proof.
  apply Forall_fmap, Forall_fmap, Forall_true. intros p. unfold compose, chunk_json. cbn [doc_cost foldr fst snd RefDigest RefSize].
  eval_keys. pose proof (str_cost_bound (DigestBytes p)) as H. rewrite DigestBytes_length in H. lia.
Qed.

Lemma refs_int64 refs :
  forallb (fun c => in_int64 (RefSize c)) refs = true -> forallb json_int64 (chunk_json <$> refs) = true.
Proof.
  rewrite !forallb_forall. intros Hq v Hv. apply list_elem_of_In, list_elem_of_fmap in Hv as (c & -> & Hv).
  cbn [chunk_json json_int64 forallb snd]. rewrite andb_true_r. apply Hq. by apply list_elem_of_In.
Qed.

Lemma chunked_fits b payload digest :
  binding_bounded b -> well_typed b payload -> is_sha256_digest digest = true -> zlen payload <= MaxPayloadBytes ->
  zlen (marshal (manifest_json (chunked_manifest b payload digest))) <= ChunkBytes.
Proof.
  intros Hb [Hg _ _] Hd Hz. pose proof (parts_count payload Hz) as Hn. change maxChunks with 97 in Hn. change ChunkBytes with 524288.
  pose proof (head_cost b digest Hb Hd) as Hh. pose proof (part_refs_cost (parts payload)) as Hc.
  pose proof (split_sizes payload ChunkBytes eq_refl) as Hs. fold (parts payload) in Hs. apply part_refs_int64 in Hs.
  etrans; [apply encode_cost|].
  - unfold manifest_json, binding_json. cbn [json_int64 forallb app Version Size Digest Binding_ Chunks Inline chunked_manifest fst snd].
    rewrite Hg, (payload_int64 (zlen payload)) by (unfold zlen in *; lia). change (in_int64 1) with true.
    apply refs_int64 in Hs. destruct (parts payload) as [|p ps]; [done|]. cbn [slice_json json_int64]. by rewrite Hs.
  - apply foldr_cost in Hc. unfold zlen in Hc. rewrite !length_fmap in Hc. fold (zlen (parts payload)) in Hc.
    unfold manifest_json. cbn [doc_cost foldr app Version Size Digest Binding_ Chunks Inline chunked_manifest fst snd]. eval_keys.
    assert (Hcost : doc_cost (slice_json chunk_json match parts payload with
      | [] => None
      | _ => Some ((fun part => {| RefDigest := DigestBytes part; RefSize := zlen part |}) <$> parts payload)
      end) <= 100000).
    { destruct (parts payload) as [|p ps]; [done|]. etrans; [exact Hc|]. lia. }
    destruct (parts payload) as [|p ps]; lia.
Qed.

Lemma completion_fits c :
  len (ManifestUID c) <= 256 -> len (ManifestDigest c) <= 71 -> Forall (fun u => len u <= 256) (default [] (ChunkUIDs c)) ->
  zlen (default [] (ChunkUIDs c)) <= maxChunks ->
  zlen (marshal (completion_json c)) <= ChunkBytes.
Proof.
  intros Hu Hd Hc Hn. change maxChunks with 97 in Hn. change ChunkBytes with 524288. etrans; [apply encode_cost|].
  - unfold completion_json. cbn [json_int64 forallb snd]. rewrite andb_true_r.
    destruct (ChunkUIDs c) as [uids|]; [|done]. cbn [slice_json json_int64]. clear. induction uids as [|u uids IH]; [done|].
    rewrite fmap_cons. cbn [forallb json_int64]. done.
  - unfold completion_json. cbn [doc_cost foldr fst snd]. eval_keys.
    pose proof (str_cost_bound (ManifestUID c)). pose proof (str_cost_bound (ManifestDigest c)).
    assert (Hs : doc_cost (slice_json JStr (ChunkUIDs c)) <= 200000); [|lia].
    destruct (ChunkUIDs c) as [uids|]; [|done]. cbn [from_option id] in *. cbn [slice_json doc_cost].
    assert (Hj : Forall (fun v => doc_cost v <= 1538) (JStr <$> uids)).
    { apply Forall_fmap. eapply Forall_impl; [exact Hc|]. intros u Hlen. cbv beta in Hlen. unfold compose. cbn [doc_cost].
      pose proof (str_cost_bound u). lia. }
    apply foldr_cost in Hj. unfold zlen in Hj. rewrite length_fmap in Hj. unfold zlen in Hn.
    etrans; [exact Hj|]. lia.
Qed.

(** The envelope has room. For every binding the store accepts and every
    payload within the limit, the intent of the chunked layout fits into one
    record, the intent that carries the payload fits whenever the payload is
    within [InlinePayloadBytes], and so does the completion that names every
    chunk, for API identities of up to 256 bytes: no publication the store
    starts is refused later for the size of its own documents. *)
Theorem publication_fits (b : Binding) (payload : list Z) (uid : string) (uids : list string) :
  validate b = Ok tt -> well_typed b payload -> 0 < zlen payload <= MaxPayloadBytes ->
  len uid <= 256 -> Forall (fun u => len u <= 256) uids -> length uids = length (parts payload) ->
  let digest := DigestBytes payload in
  let chunked := marshal (manifest_json (chunked_manifest b payload digest)) in
  zlen chunked <= ChunkBytes /\
  (zlen payload <= InlinePayloadBytes -> zlen (marshal (manifest_json (inline_manifest b payload digest))) <= ChunkBytes) /\
  zlen (marshal (completion_json {| ManifestUID := uid; ManifestDigest := DigestBytes chunked; ChunkUIDs := Some uids |})) <= ChunkBytes.
Proof.
  intros Hv Ht [_ Hz] Hu Hus Hlen digest chunked. apply validate_bounded in Hv.
  split; [by apply chunked_fits; [..|apply DigestBytes_shape|]|].
  split; [intros Hi; by apply inline_fits; [..|apply DigestBytes_shape|]|].
  apply completion_fits; cbn [ManifestUID ManifestDigest ChunkUIDs from_option id]; [done| |done|].
  - by rewrite DigestBytes_length.
  - unfold zlen. rewrite Hlen. by apply parts_count.
Qed.
