(* ===== verification/ResultPublish.v ===== *)
(** * Publishing runner results: authority, envelopes and resumption

    [PublishAuthorized] asks for authority before its first write and again
    before the write that completes a result; the calls it makes are traced.
    The documents a publication writes fit into one record. And a publication
    that was stopped anywhere, by this build or by one that always used
    chunks, is finished by the next one. *)
From stdpp Require Import base list gmap strings pretty.
From Stdlib Require Import ZArith Lia Ascii.
From S2P Require Import Prelude GoStrings Sha256 Json JsonDecode Fingerprint TargetLock PlanStore PlanStoreProofs KubeMeta ResultStore ResultStoreProofs ResultEnvelope.
Local Open Scope go_scope.
Local Open Scope Z_scope.
#[local] Opaque sha256 hex_encode.

(** ** When authority is checked *)

Inductive call_item : Type := Asked | Wrote (role : string) | Granted | Refused.

(** The item of an answered call; a trace has the newest call first. *)
Definition item_of (X : Type) (e : resultE X) : X -> call_item :=
  match e in resultE X return X -> call_item with
  | GetRecord _ => fun _ => Asked
  | CreateRecord r => fun _ => Wrote (Type_ r)
  | CheckAuthority => fun x => if is_ok x then Granted else Refused
  end.
Definition traced (X : Type) (e : resultE X) (tr : list call_item) (x : X) (tr' : list call_item) : Prop :=
  tr' = item_of X e x :: tr.

(** What may be called after [earlier]: nothing after a refusal; a chunk after
    some check, an intent or a completion right after one. *)
Definition may_follow (item : call_item) (earlier : list call_item) : Prop :=
  (Refused ∉ earlier) /\
  match item with
  | Wrote role => if bool_decide (role = "chunk") then Granted ∈ earlier else head earlier = Some Granted
  | _ => True
  end.
Fixpoint disciplined (tr : list call_item) : Prop :=
  match tr with
  | [] => True
  | item :: earlier => may_follow item earlier /\ disciplined earlier
  end.

(** No chunk was written since the last check. *)
Definition checked_last (tr : list call_item) : Prop :=
  exists newer older, tr = newer ++ Granted :: older /\ Wrote "chunk" ∉ newer.

Definition trace_spec : espec resultE (list call_item) :=
  {| pre := fun X e tr => match e with
                          | CreateRecord r => may_follow (Wrote (Type_ r)) tr
                          | GetRecord _ => may_follow Asked tr
                          | CheckAuthority => may_follow Granted tr
                          end;
     post := traced |}.

Section trace.
Abbreviation sp := trace_spec.

Lemma trace_read want tr : Refused ∉ tr -> wp sp (read want) (fun _ tr' => tr' = Asked :: tr) tr.
Proof. intros Ho. by split; [by split|]. Qed.

Lemma trace_ensure want tr :
  may_follow (Wrote (Type_ want)) tr -> wp sp (ensure want) (fun _ tr' => tr' = Asked :: Wrote (Type_ want) :: tr) tr.
Proof.
  intros Hm. unfold ensure. split; [done|]. intros x tr1 ->. cbn [pbind item_of].
  assert (Ho : Refused ∉ Wrote (Type_ want) :: tr) by (destruct Hm; set_solver).
  destruct x as [stored|[]]; apply wp_bind; (eapply wp_mono; [|by apply trace_read]); intros r tr2 ->; done.
Qed.

(** Reads only. *)
Definition only_asked (tr' tr : list call_item) : Prop := exists n, tr' = replicate n Asked ++ tr.
Lemma only_asked_trans a b c : only_asked a b -> only_asked b c -> only_asked a c.
Proof. intros [n ->] [m ->]. exists (n + m)%nat. by rewrite replicate_add, app_assoc. Qed.
Lemma only_asked_refused a b : only_asked a b -> Refused ∉ b -> Refused ∉ a.
Proof. intros [n ->] Hb. rewrite elem_of_app, elem_of_replicate. by intros [[? _]|?]. Qed.
Lemma only_asked_last a b : only_asked a b -> checked_last b -> checked_last a.
Proof.
  intros [n ->] (newer & older & -> & Hn). exists (replicate n Asked ++ newer), older. split; [by rewrite app_assoc|].
  rewrite elem_of_app, elem_of_replicate. by intros [[? _]|?].
Qed.

Lemma trace_load_parts b name own size refs : forall index uids acc tr,
  Refused ∉ tr -> wp sp (load_parts b name own size index refs uids acc) (fun _ tr' => only_asked tr' tr) tr.
Proof.
  assert (Hrefl : forall tr, only_asked tr tr) by (by exists O).
  induction refs as [|ref refs IH]; intros index [|uid uids] acc tr Ho; try apply Hrefl.
  cbn [load_parts]. destruct (_ || _ || _); [apply Hrefl|]. apply wp_bind. eapply wp_mono; [|by apply trace_read].
  intros [part|e] tr1 ->; [|by exists 1%nat]. destruct (_ || _ || _); [by exists 1%nat|].
  eapply wp_mono; [|apply IH; set_solver]. intros r tr2 H. eapply only_asked_trans; [exact H|]. by exists 1%nat.
Qed.

Lemma trace_loadIntent intent b tr :
  Refused ∉ tr -> wp sp (loadIntent intent b) (fun _ tr' => only_asked tr' tr) tr.
Proof.
  assert (Hrefl : forall tr, only_asked tr tr) by (by exists O). intros Ho. unfold loadIntent.
  destruct intent as [intent|]; [|apply Hrefl]. destruct (bool_decide _); [apply Hrefl|].
  destruct (admissionManifest _) as [[m name]|]; [|apply Hrefl]. destruct (negb _); [apply Hrefl|].
  destruct (Inline m); [apply Hrefl|]. apply wp_bind. eapply wp_mono; [|by apply trace_read].
  assert (H1 : only_asked (Asked :: tr) tr) by (by exists 1%nat).
  intros [ready|e] tr1 ->; [|done]. destruct (canonicalRecord _) as [c|]; [|done]. destruct (_ || _ || _); [done|].
  apply wp_bind. eapply wp_mono; [|apply trace_load_parts; set_solver].
  intros r tr2 H2. cbn [wp]. by eapply only_asked_trans; [exact H2|].
Qed.

Lemma trace_Load b tr : Refused ∉ tr -> wp sp (Load b) (fun _ tr' => only_asked tr' tr) tr.
Proof.
  intros Ho. unfold Load. destruct (Name b); [|by exists O]. apply wp_bind. eapply wp_mono; [|by apply trace_read].
  assert (H1 : only_asked (Asked :: tr) tr) by (by exists 1%nat).
  intros [intent|e] tr1 ->; [|done]. eapply wp_mono; [|apply trace_loadIntent; set_solver].
  intros r tr2 H2. by eapply only_asked_trans; [exact H2|].
Qed.

(** What a publication ends with. *)
Definition ended {A} (r : result rs_error A) (tr : list call_item) : Prop := is_ok r = true -> checked_last tr.

Lemma trace_authorized {A} (k : rprogram A) tr :
  Refused ∉ tr -> wp sp k ended (Granted :: tr) -> wp sp (authorized true k) ended tr.
Proof.
  intros Ho Hk. split; [by split|]. intros x tr1 ->. destruct x as [[]|e]; [done|]. cbn. by intros ?.
Qed.

Lemma trace_load_receipt b tr : Refused ∉ tr -> checked_last tr -> wp sp (load_receipt b) ended tr.
Proof.
  intros Ho Hc. apply wp_bind. eapply wp_mono; [|by apply trace_Load]. intros r tr1 H1 _. by eapply only_asked_last; [exact H1|].
Qed.

Lemma checked_now tr : checked_last (Granted :: tr).
Proof. exists [], tr. split; [done|]. set_solver. Qed.
Lemma checked_after item tr : item <> Wrote "chunk" -> checked_last tr -> checked_last (item :: tr).
Proof. intros Hi (newer & older & -> & Hn). exists (item :: newer), older. split; [done|]. set_solver. Qed.

Lemma trace_write_parts b name own ps : forall index tr,
  Refused ∉ tr -> Granted ∈ tr -> wp sp (write_parts b name own index ps) (fun _ tr' => (Refused ∉ tr') /\ Granted ∈ tr') tr.
Proof.
  induction ps as [|data ps IH]; intros index tr Ho Hg; [done|]. cbn [write_parts]. apply wp_bind.
  eapply wp_mono; [|apply trace_ensure]; [|by split].
  intros [part err] tr1 ->. assert (Ho1 : Refused ∉ Asked :: Wrote "chunk" :: tr) by set_solver.
  assert (Hg1 : Granted ∈ Asked :: Wrote "chunk" :: tr) by set_solver.
  destruct err as [[]|e]; [|done]. apply wp_bind. eapply wp_mono; [|by apply IH]. done.
Qed.

Lemma trace_publishChunks b name payload digest tr :
  Refused ∉ tr -> wp sp (publishChunks b name payload digest true) ended tr.
Proof.
  intros Ho. apply trace_authorized; [done|]. apply wp_bind. eapply wp_mono; [|apply trace_ensure].
  2: { split; [set_solver|done]. }
  intros [intent err] tr1 ->. destruct err as [[]|e]; [|by intros ?].
  assert (Ho1 : Refused ∉ Asked :: Wrote "intent" :: Granted :: tr) by set_solver.
  split; [by split|]. intros x tr2 ->. cbn [pbind item_of].
  destruct x as [ready|[]]; try by intros ?.
  { apply trace_authorized; [set_solver|]. apply trace_load_receipt; [set_solver|apply checked_now]. }
  apply wp_bind. eapply wp_mono; [|apply trace_write_parts; set_solver]. intros [uids|e] tr3 [Ho3 _]; [|by intros ?].
  apply trace_authorized; [done|]. apply wp_bind. eapply wp_mono; [|apply trace_ensure].
  2: { split; [set_solver|done]. }
  intros [done' err] tr4 ->. destruct err as [[]|e]; [|by intros ?].
  apply trace_load_receipt; [set_solver|]. do 2 (apply checked_after; [done|]). apply checked_now.
Qed.

Lemma trace_publishInline b payload digest tr :
  Refused ∉ tr -> wp sp (publishInline b payload digest true) ended tr.
Proof.
  intros Ho. unfold publishInline. apply trace_authorized; [done|]. apply wp_bind. eapply wp_mono; [|apply trace_ensure].
  2: { split; [set_solver|done]. }
  intros [intent err] tr1 ->. assert (Ho1 : Refused ∉ Asked :: Wrote "intent" :: Granted :: tr) by set_solver.
  destruct err as [[]|e].
  - apply wp_bind. eapply wp_mono; [|by apply trace_loadIntent]. intros r tr2 H2 _. eapply only_asked_last; [exact H2|].
    do 2 (apply checked_after; [done|]). apply checked_now.
  - destruct e; try by intros ?. apply wp_bind. eapply wp_mono; [|by apply trace_read]. intros [previous|e] tr2 ->; [|by intros ?].
    destruct (admissionManifest _) as [[stored ?]|]; [|by intros ?]. destruct (_ && _ && _ && _); [|by intros ?].
    apply trace_publishChunks. set_solver.
Qed.

Lemma trace_publish b payload digest tr : Refused ∉ tr -> wp sp (publish b payload digest true) ended tr.
Proof.
  intros Ho. unfold publish. destruct (Name b); [|by intros ?]. destruct (_ || _ || _ || _); [by intros ?|].
  destruct (zlen payload <=? InlinePayloadBytes); [by apply trace_publishInline|by apply trace_publishChunks].
Qed.
End trace.

(** C26: Nothing is published without live authority. Whatever the server and
    the authority answer, and wherever the publication stops, every record
    [PublishAuthorized] wrote was written after a check that granted it, the
    intent and the completion directly after one; nothing is called after a
    refusal; and a receipt is returned only when no chunk was written since
    the last granted check. *)
Theorem authority_precedes_writes (b : Binding) (payload : list Z) (digest : string) (check : bool) :
  (forall tr, exec_prefix traced (PublishAuthorized b payload digest check) [] tr -> disciplined tr) /\
  (forall receipt tr, exec traced (PublishAuthorized b payload digest check) [] (Ok receipt) tr -> checked_last tr).
Proof.
  assert (Hwp : wp trace_spec (PublishAuthorized b payload digest check) ended []).
  { unfold PublishAuthorized. destruct check; [|by intros ?]. apply trace_publish. set_solver. }
  split.
  - intros tr Htr. eapply (wp_exec_prefix trace_spec traced disciplined); [|exact Htr|done|exact Hwp].
    intros X e s x s' Hs Hpre ->. split; [|done]. split; [|done]. cbn [pre trace_spec] in Hpre.
    destruct e; cbn [item_of]; [done..|]. by destruct x.
  - intros receipt tr Hex. by apply (wp_exec trace_spec traced (fun _ _ _ _ _ _ H => H) _ _ _ _ _ Hex Hwp).
Qed.

(** ** A server that keeps what it is given *)

(** The [n]th object created gets the identity [uid_of n]. *)
Record cluster : Type := Cluster { records : store; next_uid : nat }.

Definition created (r : PtahResultRecord) (uid : string) : PtahResultRecord :=
  let m := Meta r in
  {| TypeMeta := TypeMeta r;
     Meta := {| MetaName := MetaName m; GenerateName := GenerateName m; MetaNamespace := MetaNamespace m;
                SelfLink := SelfLink m; MetaUID := uid; ResourceVersion := "1"; MetaGeneration := 1;
                CreationTimestamp := Some 1; DeletionTimestamp := None; DeletionGracePeriodSeconds := None;
                Labels := Labels m; Annotations := Annotations m; OwnerReferences := OwnerReferences m;
                Finalizers := Finalizers m; ManagedFields := [] |};
     Type_ := Type_ r; Data := Data r |}.

Section server.
Context (uid_of : nat -> string).

Definition serve (X : Type) (e : resultE X) (s : cluster) : X * cluster :=
  match e in resultE X return X * cluster with
  | GetRecord key => (match records s !! key with Some r => Ok r | None => Err NotFound end, s)
  | CreateRecord r =>
      match records s !! record_key r with
      | Some _ => (Err AlreadyExists, s)
      | None =>
          let r' := created r (uid_of (next_uid s)) in
          (Ok r', Cluster (<[record_key r := r']> (records s)) (S (next_uid s)))
      end
  | CheckAuthority => (Ok tt, s)
  end.
End server.

(** An identity as the API server assigns it. *)
Definition good_uid (u : string) : Prop := u <> EmptyString /\ utf8_str u = true /\ len u <= 256.

Lemma AttemptLabel_nonempty name : AttemptLabel name <> EmptyString.
Proof. done. Qed.

Lemma label_created ns n role ref data uid :
  label (Meta (created (record ns n role ref data) uid)) LabelAttempt <> EmptyString.
Proof.
  unfold label, created, record. cbn [Meta new_meta Labels]. rewrite lookup_insert_ne by done.
  rewrite lookup_singleton_eq. by case_match.
Qed.

Lemma shape_created ns n role ref data data' uid :
  recordShape (created (record ns n role ref data) uid) (record ns n role ref data') = true.
Proof.
  unfold recordShape. rewrite (bool_decide_eq_false_2 (label _ _ = _)) by apply label_created. rewrite andb_false_r.
  unfold created, record. cbn [Meta new_meta MetaNamespace MetaName GenerateName Annotations Finalizers Labels OwnerReferences Type_].
  by rewrite !bool_decide_eq_true_2 by done.
Qed.

Lemma accepted_created ns n role ref data data' uid :
  good_uid uid -> bad_size data = false ->
  accepted (record ns n role ref data') (created (record ns n role ref data) uid).
Proof. intros (Hu & _) Hs. split; [done|]. split; [done|]. split; [apply shape_created|done]. Qed.

Lemma read_accepted want got :
  accepted want got ->
  (if bool_decide (MetaUID (Meta got) = EmptyString) || negb (is_zero (DeletionTimestamp (Meta got))) ||
      negb (recordShape got want) || bad_size (Data got)
   then Err ErrConflict else Ok got) = Ok got.
Proof.
  intros (H1 & H2 & H3 & H4). unfold is_zero. by rewrite H3, H4, bool_decide_eq_false_2, bool_decide_eq_true_2 by done.
Qed.

Section resume.
Context (uid_of : nat -> string) (Huid : forall n, good_uid (uid_of n)).
Context (b : Binding) (payload : list Z) (name : string).
Context (Hname : Name b = Ok name) (Htyped : well_typed b payload) (Hpay : 0 < zlen payload <= MaxPayloadBytes).

Abbreviation digest := (DigestBytes payload).
Abbreviation ns := (Namespace b).
Abbreviation serve := (serve uid_of).
Abbreviation small := (zlen payload <= InlinePayloadBytes).
Definition inline_doc : list Z := marshal (manifest_json (inline_manifest b payload digest)).
Definition chunked_doc : list Z := marshal (manifest_json (chunked_manifest b payload digest)).
Definition intent_key : string * string := (ns, name).
Definition complete_key : string * string := (ns, completeName name).
Definition chunk_key (k : nat) : string * string := (ns, chunkName name (Z.of_nat k)).

Definition intent_at (doc : list Z) (intent : PtahResultRecord) : Prop :=
  exists uid, good_uid uid /\ intent = created (intent_record b name doc) uid.
Definition chunk_of (intent : PtahResultRecord) (k : nat) (data : list Z) : PtahResultRecord :=
  record ns (chunkName name (Z.of_nat k)) "chunk" (child_owner intent) data.
Definition completion_of (intent : PtahResultRecord) (uids : list string) : completion :=
  {| ManifestUID := MetaUID (Meta intent); ManifestDigest := DigestBytes chunked_doc;
     ChunkUIDs := match uids with [] => None | _ => Some uids end |}.
Definition complete_of (intent : PtahResultRecord) (uids : list string) : PtahResultRecord :=
  record ns (completeName name) "complete" (child_owner intent) (marshal (completion_json (completion_of intent uids))).

(** The chunk with identity [uid] is stored at [k]. *)
Definition chunk_stored (intent : PtahResultRecord) (s : cluster) (k : nat) (uid : string) : Prop :=
  good_uid uid /\ exists data, parts payload !! k = Some data /\
    records s !! chunk_key k = Some (created (chunk_of intent k data) uid).
(** Every chunk is, with these identities. *)
Definition all_stored (intent : PtahResultRecord) (s : cluster) (uids : list string) : Prop :=
  length uids = length (parts payload) /\ forall k uid, uids !! k = Some uid -> chunk_stored intent s k uid.

(** The names are free; the intent carries the payload; or it announces chunks
    of which some are stored, and perhaps a completion of all of them. *)
Definition untouched (s : cluster) : Prop :=
  records s !! intent_key = None /\ records s !! complete_key = None /\
  forall k, (k < length (parts payload))%nat -> records s !! chunk_key k = None.
Definition chunked (intent : PtahResultRecord) (s : cluster) : Prop :=
  records s !! intent_key = Some intent /\ intent_at chunked_doc intent /\
  (forall k r, (k < length (parts payload))%nat -> records s !! chunk_key k = Some r ->
     exists uid, chunk_stored intent s k uid) /\
  (forall r, records s !! complete_key = Some r ->
     exists uid uids, good_uid uid /\ r = created (complete_of intent uids) uid /\ all_stored intent s uids).
Definition resumable (s : cluster) : Prop :=
  untouched s \/
  (small /\ exists intent, records s !! intent_key = Some intent /\ intent_at inline_doc intent) \/
  (exists intent, chunked intent s).

(** A chunk or a completion of this intent. *)
Definition child_of (intent : PtahResultRecord) (s : cluster) (r : PtahResultRecord) : Prop :=
  (exists k data, parts payload !! k = Some data /\ r = chunk_of intent k data) \/
  (exists uids, all_stored intent s uids /\ r = complete_of intent uids).

(** What a publication may create. *)
Definition allowed (X : Type) (e : resultE X) (s : cluster) : Prop :=
  match e with
  | CreateRecord r =>
      (small /\ r = intent_record b name inline_doc) \/ r = intent_record b name chunked_doc \/
      (exists intent, chunked intent s /\ child_of intent s r)
  | _ => True
  end.
Definition resume_spec : espec resultE cluster := {| pre := allowed; post := deterministic serve |}.

(** *** Names *)

Lemma parts_bound k : (k < length (parts payload))%nat -> 0 <= Z.of_nat k < 1000.
Proof.
  intros Hk. pose proof (parts_count payload (proj2 Hpay)) as H. change maxChunks with 97 in H. unfold zlen in H. lia.
Qed.

Lemma chunk_key_inj j k : (j < length (parts payload))%nat -> (k < length (parts payload))%nat ->
  chunk_key j = chunk_key k -> j = k.
Proof.
  intros Hj Hk [= E]. unfold chunkName in E. apply str_app_inv in E as [_ E]; [|done]. apply str_app_inv in E as [_ E]; [|done].
  apply format_03d_inj in E; [lia|by apply parts_bound..].
Qed.

Lemma str_app_self s t : s = s +:+ t -> t = EmptyString.
Proof.
  intros E. apply (f_equal String.length) in E. rewrite str_app_length in E. destruct t; [done|]. cbn in E. lia.
Qed.
Lemma intent_key_chunk k : intent_key <> chunk_key k.
Proof. intros [= E]. unfold chunkName in E. by apply str_app_self in E. Qed.
Lemma intent_key_complete : intent_key <> complete_key.
Proof. intros [= E]. unfold completeName in E. by apply str_app_self in E. Qed.
Lemma chunk_key_complete k : (k < length (parts payload))%nat -> chunk_key k <> complete_key.
Proof.
  intros Hk [= E]. apply (f_equal String.length) in E. unfold chunkName, completeName in E. rewrite !str_app_length in E.
  rewrite (proj2 (format_03d_spec _ (parts_bound k Hk))) in E. cbn in E. lia.
Qed.

(** *** Creation keeps the server resumable *)

Lemma chunk_stored_grows intent s s' k uid :
  records s ⊆ records s' -> chunk_stored intent s k uid -> chunk_stored intent s' k uid.
Proof. intros Hs (Hu & data & Hd & Hr). split; [done|]. exists data. split; [done|]. by eapply lookup_weaken. Qed.
Lemma all_stored_grows intent s s' uids :
  records s ⊆ records s' -> all_stored intent s uids -> all_stored intent s' uids.
Proof. intros Hs [Hl Ha]. split; [done|]. intros k uid Hk. eapply chunk_stored_grows; eauto. Qed.

(** Storing a record that fits keeps the chunked layout. *)
Lemma chunked_insert intent s key r n :
  chunked intent s -> records s !! key = None ->
  (forall k, (k < length (parts payload))%nat -> key = chunk_key k ->
     exists uid, chunk_stored intent (Cluster (<[key := r]> (records s)) n) k uid) ->
  (key = complete_key -> exists uid uids, good_uid uid /\ r = created (complete_of intent uids) uid /\ all_stored intent s uids) ->
  chunked intent (Cluster (<[key := r]> (records s)) n).
Proof.
  intros (Hi & Hat & Hch & Hco) Hfree Hnewc Hnewd.
  assert (Hsub : records s ⊆ records (Cluster (<[key := r]> (records s)) n)) by (by apply insert_subseteq).
  split_and!; [by eapply lookup_weaken|done|..].
  - intros k r' Hk Hr'. destruct (decide (key = chunk_key k)) as [E|Hne]; [by apply Hnewc|].
    cbn [records] in Hr'. rewrite lookup_insert_ne in Hr' by done. destruct (Hch k r' Hk Hr') as [uid H]. exists uid. by eapply chunk_stored_grows.
  - intros r' Hr'. destruct (decide (key = complete_key)) as [E|Hne].
    + cbn [records] in Hr'. rewrite E, lookup_insert_eq in Hr'. injection Hr' as <-.
      destruct (Hnewd E) as (uid & uids & Hu & -> & Ha). exists uid, uids. split_and!; [done|done|]. by eapply all_stored_grows.
    + cbn [records] in Hr'. rewrite lookup_insert_ne in Hr' by done. destruct (Hco r' Hr') as (uid & uids & Hu & -> & Ha).
      exists uid, uids. split_and!; [done|done|]. by eapply all_stored_grows.
Qed.

Lemma chunked_fresh s uid n : untouched s -> good_uid uid ->
  chunked (created (intent_record b name chunked_doc) uid)
    (Cluster (<[intent_key := created (intent_record b name chunked_doc) uid]> (records s)) n).
Proof.
  intros (Hi & Hc & Hk) Hu. split_and!.
  - apply lookup_insert_eq.
  - by exists uid.
  - intros k r Hlt Hr. cbn [records] in Hr. rewrite lookup_insert_ne in Hr by apply intent_key_chunk. by rewrite Hk in Hr.
  - intros r Hr. cbn [records] in Hr. rewrite lookup_insert_ne in Hr by apply intent_key_complete. by rewrite Hc in Hr.
Qed.

Lemma chunked_create intent s r x s' :
  chunked intent s -> child_of intent s r -> deterministic serve _ (CreateRecord r) s x s' -> chunked intent s'.
Proof.
  unfold deterministic. intros Hc Hr H. cbn [ResultPublish.serve] in H.
  destruct (records s !! record_key r) eqn:E; [by injection H as _ <-|]. injection H as _ <-.
  destruct Hr as [(k & data & Hd & ->)|(uids & Hall & ->)].
  - change (record_key (chunk_of intent k data)) with (chunk_key k) in *.
    pose proof (lookup_lt_Some _ _ _ Hd) as Hk. apply chunked_insert; [done|done|..].
    + intros j Hj Ejk. apply chunk_key_inj in Ejk as <-; [|done..]. exists (uid_of (next_uid s)). split; [done|].
      exists data. split; [done|]. apply lookup_insert_eq.
    + intros Ec. by apply chunk_key_complete in Ec.
  - change (record_key (complete_of intent uids)) with complete_key in *. apply chunked_insert; [done|done|..].
    + intros j Hj Ejk. by apply eq_sym, chunk_key_complete in Ejk.
    + intros _. eauto.
Qed.

Lemma serve_keeps X (e : resultE X) s x s' :
  resumable s -> allowed X e s -> deterministic serve X e s x s' -> resumable s'.
Proof.
  intros Hs Ha H. destruct e as [key|r|]; [by injection H as _ <-| |by injection H as _ <-].
  destruct Ha as [[Hsm ->]|[->|(intent & Hc & Hr)]].
  3: { right; right. exists intent. by eapply chunked_create. }
  all: unfold deterministic in H; cbn [ResultPublish.serve] in H; change (record_key _) with intent_key in H;
    destruct (records s !! intent_key) eqn:E; [by injection H as _ <-|]; injection H as _ <-.
  - right; left. split; [done|]. eexists. split; [apply lookup_insert_eq|]. by eexists.
  - right; right. destruct Hs as [Hs|[(_ & i & Hi & _)|(i & Hi & _)]]; [|congruence..].
    eexists. by apply chunked_fresh.
Qed.

(** *** Sizes and documents *)

Lemma b_valid : validate b = Ok tt.
Proof. pose proof Hname as H. unfold Name in H. by destruct (validate b) as [[]|]. Qed.

Lemma payload_nonempty : payload <> [].
Proof. intros E. pose proof Hpay as [H _]. by rewrite E in H. Qed.

Lemma doc_size v : zlen (marshal v) <= ChunkBytes -> bad_size (marshal v) = false.
Proof.
  intros H. unfold bad_size. destruct (marshal_first true v) as (x & t & E & _). rewrite E in *.
  apply orb_false_iff. split; [apply Z.eqb_neq; unfold zlen; cbn [length]; lia|by apply Z.ltb_ge].
Qed.
Lemma inline_size : small -> bad_size inline_doc = false.
Proof. intros Hs. apply doc_size, inline_fits; [apply validate_bounded, b_valid|done|apply DigestBytes_shape|done]. Qed.
Lemma chunked_size : bad_size chunked_doc = false.
Proof. apply doc_size, chunked_fits; [apply validate_bounded, b_valid|done|apply DigestBytes_shape|apply Hpay]. Qed.
Lemma part_size k data : parts payload !! k = Some data -> bad_size data = false.
Proof.
  intros Hd. pose proof (split_sizes payload ChunkBytes eq_refl) as H. rewrite Forall_forall in H.
  specialize (H data (list_elem_of_lookup_2 _ _ _ Hd)). cbv beta in H. unfold bad_size.
  apply orb_false_iff. split; [apply Z.eqb_neq; lia|apply Z.ltb_ge; lia].
Qed.

Lemma uids_chunks intent s uids : all_stored intent s uids -> default [] (ChunkUIDs (completion_of intent uids)) = uids.
Proof. intros _. by destruct uids. Qed.

Lemma complete_size intent s uids :
  good_uid (MetaUID (Meta intent)) -> all_stored intent s uids -> bad_size (Data (complete_of intent uids)) = false.
Proof.
  intros (_ & _ & Hu) [Hl Ha]. apply doc_size, completion_fits; cbn [completion_of ManifestUID ManifestDigest]; [done|..].
  - by rewrite DigestBytes_length.
  - replace (default [] (ChunkUIDs (completion_of intent uids))) with uids by (by destruct uids).
    apply Forall_forall. intros u Hin. apply list_elem_of_lookup in Hin as [k Hk]. by destruct (Ha k u Hk) as [(_ & _ & ?) _].
  - replace (default [] (ChunkUIDs (completion_of intent uids))) with uids by (by destruct uids).
    unfold zlen. rewrite Hl. apply parts_count, Hpay.
Qed.

Lemma complete_decodes intent s uids :
  good_uid (MetaUID (Meta intent)) -> all_stored intent s uids ->
  canonicalRecord (Data (complete_of intent uids)) = Some (completion_of intent uids).
Proof.
  intros (_ & Hu & _) [_ Ha]. apply completion_roundtrip. unfold completion_json, completion_of.
  cbn [ManifestUID ManifestDigest ChunkUIDs json_utf8 forallb fst snd]. rewrite Hu, digest_utf8. rewrite andb_true_r.
  assert (Hj : forallb json_utf8 (JStr <$> uids) = true); [|destruct uids; [done|]; cbn [slice_json json_utf8]; by rewrite Hj].
  apply forallb_forall. intros v Hv. apply list_elem_of_In, list_elem_of_fmap in Hv as (u & -> & Hin).
  apply list_elem_of_lookup in Hin as [k Hk]. by destruct (Ha k u Hk) as [(_ & ? & _) _].
Qed.

(** The references of the chunked manifest fit the payload. *)
Lemma refs_fit_split size fuel : forall content n,
  (length content <= fuel)%nat -> zlen content = size - n * ChunkBytes ->
  refs_fit size n ((fun part => {| RefDigest := DigestBytes part; RefSize := zlen part |}) <$>
                   split_loop fuel content (Z.to_nat ChunkBytes)) = true.
Proof.
  assert (HC : ChunkBytes = 524288) by reflexivity.
  induction fuel as [|fuel IH]; intros [|x content] n Hl Hz; [done|cbn in Hl; lia|done|].
  cbn [split_loop]. rewrite fmap_cons. cbn [refs_fit RefSize RefDigest]. rewrite DigestBytes_shape, andb_true_r.
  apply andb_true_iff. split.
  - apply Z.eqb_eq. rewrite <- Hz. unfold zlen. rewrite length_take, HC. lia.
  - destruct (decide (length (x :: content) <= Z.to_nat ChunkBytes)%nat) as [Hle|Hgt].
    + rewrite drop_ge by done. by destruct fuel.
    + apply IH; [rewrite length_drop; cbn [length] in *; lia|]. unfold zlen in *. rewrite length_drop. lia.
Qed.

Lemma chunked_refs : default [] (Chunks (chunked_manifest b payload digest)) =
  (fun part => {| RefDigest := DigestBytes part; RefSize := zlen part |}) <$> parts payload.
Proof. cbn [Chunks chunked_manifest]. by destruct (parts payload). Qed.

Lemma admission_intent doc uid m :
  good_uid uid -> bad_size doc = false -> canonicalRecord doc = Some m -> Version m = 1 -> Size m = zlen payload ->
  Digest m = digest -> Binding_ m = b ->
  admissionManifest (Some (created (intent_record b name doc) uid)) =
  match Inline m with
  | Some inline =>
      if negb (bool_decide (Chunks m = None)) || (zlen inline =? 0) || (InlinePayloadBytes <? zlen inline) ||
         negb (zlen inline =? Size m) || negb (bool_decide (DigestBytes inline = Digest m))
      then Err ErrInvalid else Ok (m, name)
  | None =>
      let chunks := default [] (Chunks m) in
      if negb (zlen chunks =? (Size m + ChunkBytes - 1) / ChunkBytes) || (maxChunks <? zlen chunks) then Err ErrInvalid else
      if negb (refs_fit (Size m) 0 chunks) then Err ErrInvalid else Ok (m, name)
  end.
Proof.
  intros Hu Hs Hc Hv Hz Hd Hb. cbn [admissionManifest]. change (Data (created _ _)) with doc. rewrite Hs, Hc.
  change (DeletionTimestamp (Meta (created _ _))) with (@None Z). rewrite Hv, Hz, Hd, Hb, DigestBytes_shape, Hname.
  replace (zlen payload <=? 0) with false by (symmetry; apply Z.leb_gt; lia).
  replace (MaxPayloadBytes <? zlen payload) with false by (symmetry; apply Z.ltb_ge; lia).
  cbn [orb negb is_zero Z.eqb Pos.eqb]. unfold intent_record. rewrite shape_created. rewrite <- Hz. done.
Qed.

Lemma admits_inline uid : small -> good_uid uid ->
  admissionManifest (Some (created (intent_record b name inline_doc) uid)) = Ok (inline_manifest b payload digest, name).
Proof.
  intros Hs Hu. rewrite (admission_intent inline_doc uid (inline_manifest b payload digest)); try done.
  - cbn [Inline inline_manifest Chunks Size Digest]. rewrite !bool_decide_eq_true_2, Z.eqb_refl by done.
    replace (zlen payload =? 0) with false by (symmetry; apply Z.eqb_neq; lia).
    by replace (InlinePayloadBytes <? zlen payload) with false by (symmetry; apply Z.ltb_ge; lia).
  - by apply inline_size.
  - apply inline_roundtrip; [done|apply payload_nonempty|apply Hpay|done].
Qed.

Lemma admits_chunked uid : good_uid uid ->
  admissionManifest (Some (created (intent_record b name chunked_doc) uid)) = Ok (chunked_manifest b payload digest, name).
Proof.
  intros Hu. rewrite (admission_intent chunked_doc uid (chunked_manifest b payload digest)); try done.
  - change (Inline (chunked_manifest b payload digest)) with (@None (list Z)). cbn zeta. rewrite chunked_refs.
    change (Size (chunked_manifest b payload digest)) with (zlen payload).
    assert (Hlen : forall f : list Z -> chunk, zlen (f <$> parts payload) = zlen (parts payload)) by (intros; unfold zlen; by rewrite length_fmap).
    assert (Hcount : zlen (parts payload) = (zlen payload + ChunkBytes - 1) / ChunkBytes).
    { unfold parts, split. rewrite split_loop_count; [|change ChunkBytes with 524288; lia|done]. by rewrite Z2Nat.id by done. }
    rewrite Hlen, (proj2 (Z.eqb_eq _ _) Hcount), (proj2 (Z.ltb_ge _ _) (parts_count payload (proj2 Hpay))).
    cbn [negb orb]. unfold parts, split. by rewrite refs_fit_split by (done || lia).
  - apply chunked_size.
  - apply chunked_roundtrip; [done|apply Hpay|done].
Qed.

Lemma docs_differ : inline_doc <> chunked_doc.
Proof.
  intros E. pose proof (inline_roundtrip b payload digest Htyped payload_nonempty (proj2 Hpay) eq_refl) as H1.
  pose proof (chunked_roundtrip b payload digest Htyped (proj2 Hpay) eq_refl) as H2. fold inline_doc in H1. fold chunked_doc in H2.
  rewrite E, H2 in H1. apply (inj Some), (f_equal Inline) in H1. discriminate H1.
Qed.

(** *** One publication, from a resumable server *)

Abbreviation spec := resume_spec.

Lemma wp_read_at want got s :
  records s !! record_key want = Some got -> accepted want got -> wp spec (read want) (fun r s' => r = Ok got /\ s' = s) s.
Proof.
  intros Hg Ha. split; [done|]. intros x s1 Hx. unfold post, resume_spec, deterministic in Hx. cbn [ResultPublish.serve] in Hx.
  rewrite Hg in Hx. injection Hx as <- <-. cbn [pbind wp]. by rewrite read_accepted.
Qed.

Lemma wp_settle want w got s :
  records s !! record_key want = Some got -> accepted want got ->
  wp spec (got <-- read want;
           Ret match got with
               | Err e => (w, Err e)
               | Ok got => if negb (bool_decide (Data got = Data want)) then (w, Err ErrConflict) else (got, Ok tt)
               end)
    (fun r s' => s' = s /\ r = if bool_decide (Data got = Data want) then (got, Ok tt) else (w, Err ErrConflict)) s.
Proof.
  intros Hg Ha. apply wp_bind. eapply wp_mono; [|by apply wp_read_at]. intros r s' [-> ->]. cbn [wp]. by destruct (bool_decide _).
Qed.

(** [ensure] of a record that is missing or already stored as asked. *)
Lemma wp_ensure_fits ns' n role ref data s (P : cluster -> Prop) :
  let want := record ns' n role ref data in
  bad_size data = false -> allowed _ (CreateRecord want) s ->
  (forall r, records s !! record_key want = Some r -> exists uid, good_uid uid /\ r = created want uid) ->
  (forall x s', deterministic serve _ (CreateRecord want) s x s' -> P s') ->
  wp spec (ensure want) (fun r s' => P s' /\ records s ⊆ records s' /\
    exists uid, good_uid uid /\ r = (created want uid, Ok tt) /\ records s' !! record_key want = Some (created want uid)) s.
Proof.
  intros want Hsz Hal Hst HP. split; [done|]. intros x s1 Hx. pose proof (HP _ _ Hx) as HP1.
  unfold post, resume_spec, deterministic in Hx. cbn [ResultPublish.serve] in Hx.
  assert (Hdone : forall w uid, good_uid uid -> records s ⊆ records s1 -> records s1 !! record_key want = Some (created want uid) ->
    wp spec (got <-- read want;
           Ret match got with
               | Err e => (w, Err e)
               | Ok got => if negb (bool_decide (Data got = Data want)) then (w, Err ErrConflict) else (got, Ok tt)
               end)
      (fun r s' => P s' /\ records s ⊆ records s' /\ exists uid, good_uid uid /\ r = (created want uid, Ok tt) /\
         records s' !! record_key want = Some (created want uid)) s1).
  { intros w uid Hu Hsub Hl. eapply wp_mono; [|eapply wp_settle; [exact Hl|by apply accepted_created]].
    intros r s' [-> ->]. rewrite bool_decide_eq_true_2 by done. eauto 10. }
  destruct (records s !! record_key want) as [r|] eqn:E; injection Hx as <- <-; cbn [pbind].
  - destruct (Hst r eq_refl) as (uid & Hu & ->). by apply (Hdone _ uid).
  - apply (Hdone _ (uid_of (next_uid s))); [done|by apply insert_subseteq|apply lookup_insert_eq].
Qed.

Lemma chunked_good intent s : chunked intent s -> good_uid (MetaUID (Meta intent)).
Proof. by intros (_ & (uid & Hu & ->) & _). Qed.

Lemma wp_write_parts intent ps : forall k s,
  chunked intent s -> (forall j d, ps !! j = Some d -> parts payload !! (k + j)%nat = Some d) ->
  wp spec (write_parts b name (child_owner intent) (Z.of_nat k) ps)
    (fun r s' => exists uids, r = Ok uids /\ length uids = length ps /\ chunked intent s' /\ records s ⊆ records s' /\
       forall j uid, uids !! j = Some uid -> chunk_stored intent s' (k + j) uid) s.
Proof.
  induction ps as [|data ps IH]; intros k s Hc Hps; [by exists []|].
  assert (Hd : parts payload !! k = Some data) by (rewrite <- (Nat.add_0_r k); by apply Hps).
  pose proof (lookup_lt_Some _ _ _ Hd) as Hk.
  cbn [write_parts]. apply wp_bind. eapply wp_mono; [|apply (wp_ensure_fits _ _ _ _ _ _ (chunked intent))].
  2: by eapply part_size.
  2: { right; right. exists intent. split; [done|]. left. by exists k, data. }
  2: { intros r Hr. destruct Hc as (_ & _ & Hch & _). destruct (Hch k r Hk Hr) as (uid & Hu & data' & Hd' & Hr').
       exists uid. split; [done|]. unfold chunk_key in Hr'. change (record_key _) with (chunk_key k) in Hr. unfold chunk_key in Hr.
       rewrite Hr in Hr'. injection Hr' as ->. by rewrite Hd in Hd'; injection Hd' as <-. }
  2: { intros x s' Hx. eapply chunked_create; [exact Hc| |exact Hx]. left. by exists k, data. }
  intros r s1 (Hc1 & Hsub & uid & Hu & -> & Hl). apply wp_bind. replace (Z.of_nat k + 1) with (Z.of_nat (S k)) by lia.
  eapply wp_mono; [|apply IH; [exact Hc1|]].
  2: { intros j d Hj. replace (S k + j)%nat with (k + S j)%nat by lia. by apply Hps. }
  intros r s2 (uids & -> & Hlen & Hc2 & Hsub2 & Hall). exists (uid :: uids). split; [done|]. split; [cbn; by rewrite Hlen|].
  split; [done|]. split; [by etrans|]. intros [|j] u Hj; cbn in Hj.
  - injection Hj as <-. rewrite Nat.add_0_r. split; [done|]. exists data. split; [done|]. by eapply lookup_weaken.
  - replace (k + S j)%nat with (S k + j)%nat by lia. by apply Hall.
Qed.

(** *** Loading *)

Abbreviation ref_of := (fun part => {| RefDigest := DigestBytes part; RefSize := zlen part |}).

Lemma wp_load_parts_at intent s uids ps : forall k us acc,
  (forall j d, ps !! j = Some d -> parts payload !! (k + j)%nat = Some d) ->
  (forall j u, us !! j = Some u -> uids !! (k + j)%nat = Some u) -> length us = length ps ->
  all_stored intent s uids -> refs_fit (zlen payload) (Z.of_nat k) (ref_of <$> ps) = true ->
  wp spec (load_parts b name (child_owner intent) (zlen payload) (Z.of_nat k) (ref_of <$> ps) us acc)
    (fun r s' => r = Ok (acc ++ concat ps) /\ s' = s) s.
Proof.
  induction ps as [|data ps IH]; intros k us acc Hps Hus Hl Hall Hfit.
  { destruct us; [|done]. cbn. by rewrite app_nil_r. }
  destruct us as [|u us]; [done|]. rewrite fmap_cons in *. cbn [refs_fit load_parts RefSize RefDigest] in *.
  apply andb_true_iff in Hfit as [[Hsz Hdg]%andb_true_iff Hfit].
  assert (Hu : uids !! k = Some u) by (rewrite <- (Nat.add_0_r k); by apply Hus).
  assert (Hd : parts payload !! k = Some data) by (rewrite <- (Nat.add_0_r k); by apply Hps).
  pose proof (proj2 Hall k u Hu) as (Hgood & data' & Hd' & Hr). rewrite Hd in Hd'. injection Hd' as <-.
  rewrite Hsz, Hdg, bool_decide_eq_false_2 by apply Hgood. cbn [negb orb]. apply wp_bind.
  eapply wp_mono; [|eapply wp_read_at; [exact Hr|apply accepted_created; [done|by eapply part_size]]].
  intros r s1 [-> ->]. change (MetaUID (Meta (created _ u))) with u.
  change (Data (created (chunk_of intent k data) u)) with data.
  rewrite !bool_decide_eq_true_2, Z.eqb_refl by done. cbn [negb orb].
  replace (Z.of_nat k + 1) with (Z.of_nat (S k)) in * by lia.
  eapply wp_mono; [|apply IH; [| | |done|done]].
  - intros r s2 [-> ->]. cbn [concat]. by rewrite <- app_assoc.
  - intros j d Hj. replace (S k + j)%nat with (k + S j)%nat by lia. by apply Hps.
  - intros j d Hj. replace (S k + j)%nat with (k + S j)%nat by lia. by apply Hus.
  - by injection Hl.
Qed.

Lemma wp_load_intent_at s intent doc (Q : result rs_error (list Z * Receipt) -> cluster -> Prop) :
  records s !! intent_key = Some intent -> intent_at doc intent -> bad_size doc = false ->
  wp spec (loadIntent (Some intent) b) Q s -> wp spec (Load b) Q s.
Proof.
  intros Hi (uid & Hu & ->) Hs Hwp. unfold Load. rewrite Hname. apply wp_bind.
  eapply wp_mono; [|eapply wp_read_at; [exact Hi|by apply accepted_created]]. by intros r s1 [-> ->].
Qed.

Lemma wp_loadIntent_inline s intent :
  small -> intent_at inline_doc intent ->
  exists receipt, wp spec (loadIntent (Some intent) b) (fun r s' => s' = s /\ r = Ok (payload, receipt)) s.
Proof.
  intros Hs (uid & Hu & ->). eexists. cbn [loadIntent]. change (MetaUID (Meta (created _ uid))) with uid.
  rewrite bool_decide_eq_false_2 by apply Hu. rewrite admits_inline by done.
  change (Binding_ (inline_manifest b payload digest)) with b. rewrite bool_decide_eq_true_2 by done. cbn [negb].
  change (Inline (inline_manifest b payload digest)) with (Some payload). cbn [wp]. done.
Qed.

Lemma wp_loadIntent_chunked s intent uid uids :
  chunked intent s -> records s !! complete_key = Some (created (complete_of intent uids) uid) -> good_uid uid ->
  all_stored intent s uids ->
  exists receipt, wp spec (loadIntent (Some intent) b) (fun r s' => s' = s /\ r = Ok (payload, receipt)) s.
Proof.
  intros Hc Hready Hu Hall. eexists. pose proof (chunked_good _ _ Hc) as Hg. pose proof Hc as (_ & (iuid & Hiu & Ei) & _).
  cbn [loadIntent]. rewrite bool_decide_eq_false_2 by apply Hg. rewrite Ei at 1. rewrite admits_chunked by done.
  change (Binding_ (chunked_manifest b payload digest)) with b. rewrite bool_decide_eq_true_2 by done. cbn [negb].
  change (Inline (chunked_manifest b payload digest)) with (@None (list Z)). cbv iota. apply wp_bind.
  eapply wp_mono; [|eapply wp_read_at; [exact Hready|apply accepted_created; [done|by eapply complete_size]]].
  intros r s1 [-> ->]. change (Data (created (complete_of intent uids) uid)) with (Data (complete_of intent uids)).
  rewrite (complete_decodes _ s) by done. cbn zeta. rewrite (uids_chunks _ s) by done. rewrite chunked_refs.
  change (ManifestUID (completion_of intent uids)) with (MetaUID (Meta intent)).
  change (ManifestDigest (completion_of intent uids)) with (DigestBytes chunked_doc).
  replace (Data intent) with chunked_doc by (by rewrite Ei). rewrite !bool_decide_eq_true_2 by done.
  replace (zlen uids) with (zlen (ref_of <$> parts payload)) by (unfold zlen; by rewrite length_fmap, (proj1 Hall)).
  rewrite Z.eqb_refl. cbn [negb orb]. change (Size (chunked_manifest b payload digest)) with (zlen payload).
  change (Digest (chunked_manifest b payload digest)) with digest. apply wp_bind.
  eapply wp_mono; [|apply (wp_load_parts_at intent s uids (parts payload) 0 uids []); try done].
  - intros r s1 [-> ->]. cbn [app wp]. unfold parts. rewrite (split_concat payload ChunkBytes eq_refl).
    rewrite Z.eqb_refl, bool_decide_eq_true_2 by done. cbn [negb orb]. done.
  - apply Hall.
  - unfold parts, split. apply refs_fit_split; [done|lia].
Qed.

(** *** Publishing *)

(** Loading gives the payload, with this receipt. *)
Definition loads (receipt : Receipt) (s : cluster) : Prop :=
  wp spec (Load b) (fun r s' => s' = s /\ r = Ok (payload, receipt)) s.
(** A publication ended with the receipt of what can be loaded. *)
Definition delivered (r : result rs_error Receipt) (s : cluster) : Prop := exists receipt, r = Ok receipt /\ loads receipt s.

Lemma wp_load_receipt_loads receipt s : loads receipt s -> wp spec (load_receipt b) delivered s.
Proof.
  intros Hl. apply wp_bind. eapply wp_mono; [|exact Hl]. intros r s' [-> ->]. by exists receipt.
Qed.

Lemma wp_authorized_granted {A} check (k : rprogram A) Q s : wp spec k Q s -> wp spec (authorized check k) Q s.
Proof.
  intros Hk. destruct check; [|done]. split; [done|]. intros x s1 Hx. by injection Hx as <- <-.
Qed.

Lemma chunked_loads intent s r : chunked intent s -> records s !! complete_key = Some r -> exists receipt, loads receipt s.
Proof.
  intros Hc Hr. pose proof Hc as (Hi & Hat & _ & Hco). destruct (Hco r Hr) as (uid & uids & Hu & -> & Hall).
  destruct (wp_loadIntent_chunked s intent uid uids) as [receipt Hl]; [done..|]. exists receipt.
  eapply wp_load_intent_at; [exact Hi|exact Hat|apply chunked_size|done].
Qed.

Lemma wp_publishChunks_rest check intent s :
  chunked intent s ->
  wp spec (ready <-- call (GetRecord (ns, completeName name));
        match ready with
        | Ok _ => authorized check (load_receipt b)
        | Err NotFound =>
            uids <-- write_parts b name (child_owner intent) 0 (parts payload);
            match uids with
            | Err e => Ret (Err e)
            | Ok uids =>
                let c := {| ManifestUID := MetaUID (Meta intent); ManifestDigest := DigestBytes chunked_doc;
                            ChunkUIDs := match uids with [] => None | _ => Some uids end |} in
                authorized check (
                  ensured <-- ensure (record ns (completeName name) "complete" (child_owner intent)
                                        (marshal (completion_json c)));
                  match ensured.2 with
                  | Err e => Ret (Err e)
                  | Ok _ => load_receipt b
                  end)
            end
        | Err e => Ret (Err (ApiErr e))
        end) delivered s.
Proof.
  intros Hc. split; [done|]. intros x s1 Hx. unfold post, resume_spec, deterministic in Hx. cbn [ResultPublish.serve] in Hx.
  injection Hx as <- <-. cbn [pbind]. change (ns, completeName name) with complete_key.
  destruct (records s !! complete_key) as [r|] eqn:Er.
  { apply wp_authorized_granted. destruct (chunked_loads _ _ _ Hc Er). by eapply wp_load_receipt_loads. }
  apply wp_bind. eapply wp_mono; [|apply (wp_write_parts intent (parts payload) 0 s Hc); by intros].
  intros r s1 (uids & -> & Hlen & Hc1 & Hsub & Hall). cbn zeta. apply wp_authorized_granted, wp_bind.
  assert (Hstored : all_stored intent s1 uids) by (split; [done|]; intros k u Hk; exact (Hall k u Hk)).
  eapply wp_mono; [|apply (wp_ensure_fits _ _ _ _ _ _ (chunked intent))].
  - intros e s2 (Hc2 & _ & uid & Hu & -> & Hl). cbn [snd].
    destruct (chunked_loads _ _ _ Hc2 Hl). by eapply wp_load_receipt_loads.
  - exact (complete_size intent s1 uids (chunked_good _ _ Hc1) Hstored).
  - right; right. exists intent. split; [done|]. right. by exists uids.
  - intros r Hr. change (record_key _) with complete_key in Hr. destruct Hc1 as (_ & _ & _ & Hco).
    destruct (Hco r Hr) as (uid & uids' & Hu & -> & Hall'). exists uid. split; [done|].
    replace uids' with uids; [done|]. apply list_eq_same_length with (n := length (parts payload)); [by apply Hall'|by apply Hstored|].
    intros k u u' _ Hk Hk'. destruct (proj2 Hstored k u Hk) as (_ & d & Hd & Hr1). destruct (proj2 Hall' k u' Hk') as (_ & d' & Hd' & Hr2).
    rewrite Hr1 in Hr2. by injection Hr2.
  - intros x s2 Hx. eapply chunked_create; [exact Hc1| |exact Hx]. right. by exists uids.
Qed.

Lemma wp_publishChunks_resumes check s :
  untouched s \/ (exists intent, chunked intent s) ->
  wp spec (publishChunks b name payload digest check) delivered s.
Proof.
  intros Hs. unfold publishChunks. fold chunked_doc. cbv zeta. apply wp_authorized_granted, wp_bind.
  eapply wp_mono; [|apply (wp_ensure_fits _ _ _ _ _ _ (fun s => exists intent, chunked intent s))].
  - intros r s1 ((intent & Hc) & _ & uid & Hu & -> & Hl). cbv iota.
    pose proof Hc as (Hi & _). change (record_key _) with intent_key in Hl. rewrite Hi in Hl. injection Hl as <-.
    by apply wp_publishChunks_rest.
  - apply chunked_size.
  - right; by left.
  - intros r Hr. change (record_key _) with intent_key in Hr. destruct Hs as [[Hn _]|(intent & Hi & (uid & Hu & ->) & _)].
    + by rewrite Hn in Hr.
    + rewrite Hi in Hr. injection Hr as <-. by exists uid.
  - intros x s' Hx.
    unfold deterministic in Hx. cbn [ResultPublish.serve] in Hx. change (record_key _) with intent_key in Hx.
    destruct Hs as [Hs|(intent & Hc)].
    + rewrite (proj1 Hs) in Hx. injection Hx as _ <-. eexists. by apply chunked_fresh.
    + rewrite (proj1 Hc) in Hx. injection Hx as _ <-. by exists intent.
Qed.

(** The intent carries the payload inline. *)
Definition carried (s : cluster) : Prop :=
  small /\ exists intent, records s !! intent_key = Some intent /\ intent_at inline_doc intent.

(** A build that always writes chunks finds a conflict there. *)
Lemma wp_publishChunks_carried check s :
  carried s -> wp spec (publishChunks b name payload digest check) (fun _ s' => s' = s) s.
Proof.
  intros (Hsm & intent & Hi & (uid & Hu & ->)). unfold publishChunks. fold chunked_doc. cbv zeta. apply wp_authorized_granted, wp_bind.
  split; [by right; left|]. intros x s1 Hx. unfold post, resume_spec, deterministic in Hx. cbn [ResultPublish.serve] in Hx.
  change (record_key _) with intent_key in Hx. rewrite Hi in Hx. injection Hx as <- <-. cbn [pbind].
  eapply wp_mono; [|eapply wp_settle; [exact Hi|apply accepted_created; [done|by apply inline_size]]].
  intros r s1 [-> ->]. rewrite bool_decide_eq_false_2 by apply docs_differ. done.
Qed.

Lemma wp_publishInline_resumes check s :
  small -> resumable s -> wp spec (publishInline b payload digest check) delivered s.
Proof.
  intros Hsm Hs. unfold publishInline. rewrite Hname. fold inline_doc. cbv zeta. apply wp_authorized_granted, wp_bind.
  destruct Hs as [Hs|[Hs|(intent & Hc)]].
  3: { split; [by left|]. intros x s1 Hx. unfold post, resume_spec, deterministic in Hx. cbn [ResultPublish.serve] in Hx.
       change (record_key _) with intent_key in Hx. pose proof Hc as (Hi & (uid & Hu & ->) & _).
       rewrite Hi in Hx. injection Hx as <- <-. cbn [pbind].
       assert (Hacc : accepted (intent_record b name inline_doc) (created (intent_record b name chunked_doc) uid))
         by (apply accepted_created; [done|apply chunked_size]).
       eapply wp_mono; [|eapply wp_settle; [exact Hi|exact Hacc]].
       intros r s1 [-> ->]. rewrite bool_decide_eq_false_2 by (intros E; by apply docs_differ). apply wp_bind.
       eapply wp_mono; [|eapply wp_read_at; [exact Hi|exact Hacc]]. intros r s1 [-> ->]. rewrite admits_chunked by done.
       rewrite !bool_decide_eq_true_2, Z.eqb_refl by done. cbn [andb]. apply wp_publishChunks_resumes. eauto. }
  all: eapply wp_mono; [|apply (wp_ensure_fits _ _ _ _ _ _ (fun _ => True)); [by apply inline_size|by left| |done]].
  1, 3: intros r s1 (_ & _ & uid & Hu & -> & Hl); cbv iota;
    destruct (wp_loadIntent_inline s1 (created (intent_record b name inline_doc) uid)) as [receipt Hload]; [done|by exists uid|];
    apply wp_bind; eapply wp_mono; [|exact Hload]; intros r s2 [-> ->]; exists receipt; split; [done|];
    eapply wp_load_intent_at; [exact Hl|by exists uid|by apply inline_size|exact Hload].
  - intros r Hr. change (record_key _) with intent_key in Hr. by rewrite (proj1 Hs) in Hr.
  - intros r Hr. change (record_key _) with intent_key in Hr. destruct Hs as (_ & intent & Hi & (uid & Hu & ->)).
    rewrite Hi in Hr. injection Hr as <-. by exists uid.
Qed.

Lemma wp_publish_resumes check s : resumable s -> wp spec (publish b payload digest check) delivered s.
Proof.
  intros Hs. unfold publish. rewrite Hname, DigestBytes_shape, bool_decide_eq_true_2 by done.
  replace (zlen payload =? 0) with false by (symmetry; apply Z.eqb_neq; lia).
  replace (MaxPayloadBytes <? zlen payload) with false by (symmetry; apply Z.ltb_ge; lia). cbn [orb negb].
  destruct (zlen payload <=? InlinePayloadBytes) eqn:Esm; bool_prop; [by apply wp_publishInline_resumes|].
  apply wp_publishChunks_resumes. destruct Hs as [?|[[? _]|?]]; [by left|lia|by right].
Qed.

(** Publications stopped anywhere leave the server resumable. *)
Definition attempts (check : bool) (stops : list (bool * nat)) (s : cluster) : cluster :=
  fold_left (fun s '(older, n) =>
    run_crash serve n (if older : bool then publishChunks b name payload digest check else publish b payload digest check) s)
    stops s.

Lemma attempts_resumable check stops : forall s, resumable s -> resumable (attempts check stops s).
Proof.
  induction stops as [|[older n] stops IH]; intros s Hs; [done|]. apply IH.
  assert (Hwp : exists Q, wp spec (if older then publishChunks b name payload digest check else publish b payload digest check) Q s).
  { destruct older; [|by eexists; apply wp_publish_resumes]. destruct Hs as [?|[Hc|?]].
    - eexists. apply wp_publishChunks_resumes. by left.
    - eexists. by apply wp_publishChunks_carried.
    - eexists. apply wp_publishChunks_resumes. by right. }
  destruct Hwp as [Q Hwp].
  eapply (wp_exec_prefix spec (deterministic serve) resumable); [|apply run_crash_prefix|exact Hs|exact Hwp].
  intros X e s1 x s2 H1 H2 H3. split; [by eapply serve_keeps|done].
Qed.
End resume.

(** C25: Publishing a result can be stopped anywhere and taken up again. From a
    server on which the attempt's names are free, after any number of
    publications of one payload, each stopped after any number of its calls
    and each either by this build or by one that always used chunks, one more
    publication returns a receipt, and loading then returns the payload with
    that receipt. The server's identities are any that are not empty, are
    valid UTF-8 and have at most 256 bytes. *)
Theorem result_publish_resumes (uid_of : nat -> string) (b : Binding) (payload : list Z) (name : string) (check : bool)
    (stops : list (bool * nat)) (s0 : cluster) :
  (forall n, good_uid (uid_of n)) -> Name b = Ok name -> well_typed b payload -> 0 < zlen payload <= MaxPayloadBytes ->
  untouched b payload name s0 ->
  let s := attempts uid_of b payload name check stops s0 in
  exists receipt s', run (serve uid_of) (publish b payload (DigestBytes payload) check) s = (Ok receipt, s') /\
    run (serve uid_of) (Load b) s' = (Ok (payload, receipt), s').
Proof.
  intros Huid Hname Ht Hpay Hfree s.
  assert (Hs : resumable b payload name s) by (apply attempts_resumable; [done..|]; by left).
  pose proof (run_exec (serve uid_of) (publish b payload (DigestBytes payload) check) s) as Hrun.
  eapply (wp_exec (resume_spec uid_of b payload name)) in Hrun; [|done|by apply wp_publish_resumes].
  destruct Hrun as (receipt & Hr & Hl). destruct (run _ (publish _ _ _ _) s) as [r s']. cbn [fst snd] in *. subst r.
  exists receipt, s'. split; [done|].
  pose proof (run_exec (serve uid_of) (Load b) s') as Hload.
  eapply (wp_exec (resume_spec uid_of b payload name)) in Hload; [|done|exact Hl].
  destruct (run _ (Load b) s') as [r s'']. cbn [fst snd] in *. by destruct Hload as [-> ->].
Qed.

(** ** Concrete publications *)

Definition sample_binding : Binding :=
  {| Namespace := "shop"; Kind := "PtahSchema"; Name_ := "orders"; UID := "uid-orders"; Generation := 3;
     ExecutionBindingID := "v1-00000000000000000000000000000000"; InputFingerprint := Fingerprint.sample_digest;
     Operation := "plan"; OperationID := "op-1"; JobName := "orders-plan-1"; JobUID := "uid-job";
     PodName := "orders-plan-1-abcde"; PodUID := "uid-pod" |}.
Definition sample_payload : list Z := [123; 125].
Definition sample_name : string := Eval vm_compute in match Name sample_binding with Ok name => name | Err _ => EmptyString end.
Definition sample_uid : nat -> string := fun _ => "7b0c4b3e-0000-4000-8000-000000000001".

Lemma sample_typed : well_typed sample_binding sample_payload.
Proof. split; [vm_compute; reflexivity..|]. by repeat constructor. Qed.
Lemma sample_uid_good n : good_uid (sample_uid n).
Proof. split; [done|]. split; [vm_compute; reflexivity|]. by vm_compute. Qed.

Lemma result_publish_resumes_witness :
  let s := attempts sample_uid sample_binding sample_payload sample_name true
             [(false, 1%nat); (true, 2%nat); (true, 7%nat); (false, 3%nat)] (Cluster ∅ 0) in
  exists receipt s',
    run (serve sample_uid) (publish sample_binding sample_payload (DigestBytes sample_payload) true) s = (Ok receipt, s') /\
    run (serve sample_uid) (Load sample_binding) s' = (Ok (sample_payload, receipt), s').
Proof.
  apply (result_publish_resumes sample_uid sample_binding sample_payload sample_name); [apply sample_uid_good| |apply sample_typed|done|].
  - vm_compute. reflexivity.
  - by split_and!.
Defined.

(** The server's records alone, every object with one identity. *)
Definition serve_store (X : Type) (e : resultE X) (s : store) : X * store :=
  let '(x, c) := serve sample_uid X e (Cluster s 0) in (x, records c).

Lemma serve_store_concurrent b X (e : resultE X) s x s' : deterministic serve_store X e s x s' -> concurrent_answer b X e s x s'.
Proof.
  unfold deterministic, serve_store. intros H. exists s. split; [done|]. destruct e as [key|r|]; cbn [serve records] in H.
  - injection H as <- <-. split; [done|]. destruct (s !! key); eauto.
  - destruct (s !! record_key r) eqn:E; injection H as <- <-; [left; eauto|]. right. split; [done|].
    exists (created r (sample_uid 0)). split; [by split_and!|]. eauto.
  - by injection H as _ <-.
Qed.

Definition sample_receipt : Receipt := Eval vm_compute in
  match (run serve_store (publish sample_binding sample_payload (DigestBytes sample_payload) true) ∅).1 with
  | Ok r => r
  | Err _ => {| ReceiptName := EmptyString; ReceiptUID := EmptyString; ReceiptDigest := EmptyString; ReceiptSize := 0 |}
  end.
Definition sample_store : store :=
  (run serve_store (publish sample_binding sample_payload (DigestBytes sample_payload) true) ∅).2.

Lemma one_result_per_attempt_witness :
  ReceiptDigest sample_receipt = DigestBytes sample_payload /\ ReceiptSize sample_receipt = 2.
Proof.
  destruct (one_result_per_attempt sample_binding sample_payload (DigestBytes sample_payload) true sample_receipt
    ∅ sample_store sample_store (run serve_store (Load sample_binding) sample_store).2 sample_binding sample_payload sample_receipt) as (_ & _ & H1 & H2 & _);
    [apply sample_typed|apply sample_typed| |done|done|done| |exact (conj H1 H2)].
  - assert (E : (run serve_store (publish sample_binding sample_payload (DigestBytes sample_payload) true) ∅).1 = Ok sample_receipt)
      by (vm_compute; reflexivity).
    rewrite <- E. unfold sample_store. apply (exec_mono (deterministic serve_store)); [apply serve_store_concurrent|apply run_exec].
  - right. assert (E : (run serve_store (Load sample_binding) sample_store).1 = Ok (sample_payload, sample_receipt)) by (vm_compute; reflexivity).
    rewrite <- E. apply (exec_mono (deterministic serve_store)); [apply serve_store_concurrent|apply run_exec].
Defined.

(** Answers of a fixed server, logged. *)
Definition serve_logged (s : store) (X : Type) (e : resultE X) (g : read_log) : X * read_log :=
  let x := (serve_store X e s).1 in
  (x, match e in resultE X return X -> read_log with
      | GetRecord key => fun x => match x with Ok r => g ++ [(key, r)] | Err _ => g end
      | _ => fun _ => g
      end x).
Lemma serve_logged_any s X (e : resultE X) g x g' : deterministic (serve_logged s) X e g x g' -> any_answer X e g x g'.
Proof. intros H. injection H as <- <-. by destruct e. Qed.

Lemma result_load_sound_witness :
  DigestBytes sample_payload = ReceiptDigest sample_receipt /\ zlen sample_payload = ReceiptSize sample_receipt.
Proof.
  destruct (result_load_sound sample_binding sample_payload sample_receipt
    (run (serve_logged sample_store) (Load sample_binding) []).2) as (_ & _ & _ & _ & _ & _ & _ & H1 & H2 & _); [|exact (conj H1 H2)].
  assert (E : (run (serve_logged sample_store) (Load sample_binding) []).1 = Ok (sample_payload, sample_receipt)) by (vm_compute; reflexivity).
  rewrite <- E. apply (exec_mono (deterministic (serve_logged sample_store))); [apply serve_logged_any|apply run_exec].
Defined.

Lemma publication_fits_witness :
  zlen (marshal (manifest_json (inline_manifest sample_binding sample_payload (DigestBytes sample_payload)))) <= ChunkBytes.
Proof.
  apply (publication_fits sample_binding sample_payload (sample_uid 0) [sample_uid 0]);
    [vm_compute; reflexivity|apply sample_typed|done|by vm_compute|by apply Forall_singleton|vm_compute; reflexivity].
Defined.
