(* ===== verification/ResultRetention.v ===== *)
(** * Retention of runner evidence (package [internal/resultretention])

    A retirement marker fixes the binding it retires, the record it was read
    from and how long the evidence stays. [CheckOpen] fences delivery once a
    marker exists, [CheckUnpinned] asks the owning resource whether it still
    needs the attempt, and [Eligible] combines pins and the window. Reads are
    calls the API server answers in any way; a time is in nanoseconds. *)
From stdpp Require Import base list gmap strings.
From Stdlib Require Import ZArith Lia Ascii.
From S2P Require Import Prelude GoStrings Sha256 Json JsonDecode Fingerprint TargetLock PlanStore KubeMeta ResultStore.
Local Open Scope go_scope.
Local Open Scope Z_scope.

(** ** [time] *)

Definition second : Z := 1000000000.
Definition hour : Z := 3600 * second.
Definition MinimumWindow : Z := hour.
Definition max_duration : Z := 2 ^ 63 - 1.

(** A time as [metav1.Time] writes it: [2006-01-02T15:04:05Z], a valid date. *)
Definition two_digits (s : string) : option Z :=
  if (String.length s =? 2)%nat then parse_unsigned s else None.
Definition leap_year (y : Z) : bool := (y mod 4 =? 0) && (negb (y mod 100 =? 0) || (y mod 400 =? 0)).
Definition days_in_month (y m : Z) : Z :=
  if m =? 2 then (if leap_year y then 29 else 28)
  else if (m =? 4) || (m =? 6) || (m =? 9) || (m =? 11) then 30 else 31.
Definition char_at (n : nat) (c : ascii) (s : string) : bool := bool_decide (String.get n s = Some c).
Definition is_rfc3339 (s : string) : bool :=
  (String.length s =? 20)%nat && char_at 4 "-" s && char_at 7 "-" s && char_at 10 "T" s && char_at 13 ":" s &&
  char_at 16 ":" s && char_at 19 "Z" s &&
  match parse_unsigned (str_take 4 s), two_digits (str_take 2 (str_drop 5 s)), two_digits (str_take 2 (str_drop 8 s)),
        two_digits (str_take 2 (str_drop 11 s)), two_digits (str_take 2 (str_drop 14 s)), two_digits (str_take 2 (str_drop 17 s)) with
  | Some y, Some mo, Some d, Some h, Some mi, Some se =>
      (1 <=? mo) && (mo <=? 12) && (1 <=? d) && (d <=? days_in_month y mo) && (h <? 24) && (mi <? 60) && (se <? 60)
  | _, _, _, _, _, _ => false
  end.
(** The zero time is written as [null]. *)
Definition zero_time : string := "0001-01-01T00:00:00Z".

(** ** Errors *)

Inductive ev_error : Type :=
| ErrRecord | ErrRetired | ErrWindow | WindowError (ends : Z) | ErrPinned | ErrRetained | ErrCredential
| ErrDeleteBudget | ErrContext | StoreErr (e : rs_error) | EvApi (e : api_error).

(** [errors.As(err, &window)]. *)
Definition WindowEnd (err : ev_error) : option Z := match err with WindowError ends => Some ends | _ => None end.

(** ** Retirement markers *)

Record Source : Type := { SourceName : string; SourceUID : string; SourceType : string }.
#[export] Instance Source_eq_dec : EqDecision Source.
Proof. solve_decision. Defined.

Record Retirement : Type := {
  RetirementVersion : Z;
  RetirementBinding : Binding;
  RetirementSource : Source;
  RetentionSeconds : Z;
}.

Definition source_json (s : Source) : json :=
  JObj [("name", JStr (SourceName s)); ("uid", JStr (SourceUID s)); ("type", JStr (SourceType s))].
Definition source_of_json (v : json) : option Source :=
  values ← obj_values ["name"; "uid"; "type"] v;
  match values with
  | [JStr name; JStr uid; JStr type] => Some {| SourceName := name; SourceUID := uid; SourceType := type |}
  | _ => None
  end.
Definition retirement_json (r : Retirement) : json :=
  JObj [("version", JInt (RetirementVersion r)); ("binding", binding_json (RetirementBinding r));
        ("source", source_json (RetirementSource r)); ("retentionSeconds", JInt (RetentionSeconds r))].
Definition retirement_of_json (v : json) : option Retirement :=
  values ← obj_values ["version"; "binding"; "source"; "retentionSeconds"] v;
  match values with
  | [JInt version; binding; source; JInt seconds] =>
      b ← binding_of_json binding; s ← source_of_json source;
      if in_int64 version && in_int64 seconds then
        Some {| RetirementVersion := version; RetirementBinding := b; RetirementSource := s; RetentionSeconds := seconds |}
      else None
  | _ => None
  end.
Definition retirement_valid (r : Retirement) : bool :=
  in_int64 (RetirementVersion r) && in_int64 (RetentionSeconds r) && in_int64 (Generation (RetirementBinding r)).

Lemma source_of_source s : source_of_json (source_json s) = Some s.
Proof. unfold source_of_json, source_json. rewrite obj_values_keys by done. by destruct s. Qed.

Lemma retirement_of_retirement r : retirement_valid r = true -> retirement_of_json (retirement_json r) = Some r.
Proof.
  unfold retirement_valid, retirement_of_json, retirement_json. rewrite !andb_true_iff. intros [[Hv Hs] Hg].
  rewrite obj_values_keys by done. cbn [mbind option_bind fmap list_fmap snd]. rewrite binding_of_binding by done.
  cbn [mbind option_bind]. rewrite source_of_source. cbn [mbind option_bind]. rewrite Hv, Hs. by destruct r.
Qed.

#[export] Instance retirement_codec : JsonCodec Retirement :=
  {| to_json := retirement_json; of_json := retirement_of_json; json_valid := retirement_valid;
     of_to_json := retirement_of_retirement |}.

Definition Name (b : Binding) : result rs_error string :=
  name <-! ResultStore.Name b; Ok (name +:+ "-retired").

(** [jobconfig.CredentialName]. *)
Definition SecretPrefix : string := "ptah-result-key-".
Definition nul : string := of_bytes [0].
Definition CredentialName (ownerUID operationID jobName : string) : string :=
  SecretPrefix +:+ hex_encode (take 16 (sha256 (bytes (ownerUID +:+ nul +:+ operationID +:+ nul +:+ jobName)))).
Definition credential_name (b : Binding) : string := CredentialName (UID b) (OperationID b) (JobName b).

Definition validSource (r : Retirement) : bool :=
  let s := RetirementSource r in let b := RetirementBinding r in
  negb (bool_decide (SourceUID s = EmptyString)) &&
  ((bool_decide (SourceType s = "credential") && bool_decide (SourceName s = credential_name b)) ||
   (bool_decide (SourceType s = "intent") &&
    match ResultStore.Name b with Ok name => bool_decide (SourceName s = name) | Err _ => false end)).

Definition Record_ (b : Binding) (source : Source) (window : Z) : result ev_error PtahResultRecord :=
  match Name b with
  | Err _ => Err ErrRecord
  | Ok name =>
      if (window <? MinimumWindow) || negb (Z.rem window second =? 0) then Err ErrRecord else
      let r := {| RetirementVersion := 1; RetirementBinding := b; RetirementSource := source;
                  RetentionSeconds := Z.quot window second |} in
      if negb (validSource r) then Err ErrRecord else
      Ok {| TypeMeta := (EmptyString, EmptyString);
            Meta := new_meta (Namespace b) name {[LabelRecord := "retired"%string]}
                      [{| OwnerAPIVersion := apiVersion; OwnerKind := Kind b; OwnerName := Name_ b; OwnerUID := UID b;
                          Controller := Some true; BlockOwnerDeletion := Some false |}];
            Type_ := "retired"; Data := marshal (retirement_json r) |}
  end.

(** [json.Unmarshal] and the comparison with the bytes of [Record_] together
    are [canonicalRecord]: [Record_] encodes the same retirement. *)
Definition Decode (record : option PtahResultRecord) : result ev_error Retirement :=
  match record with
  | None => Err ErrRecord
  | Some record =>
      let m := Meta record in
      if negb (bool_decide (Type_ record = "retired")) || bad_size (Data record) then Err ErrRecord else
      match canonicalRecord (Data record) with
      | None => Err ErrRecord
      | Some r =>
          if negb (RetirementVersion r =? 1) || (RetentionSeconds r <? Z.quot MinimumWindow second) ||
             (Z.quot max_duration second <? RetentionSeconds r) then Err ErrRecord else
          match Record_ (RetirementBinding r) (RetirementSource r) (RetentionSeconds r * second) with
          | Err _ => Err ErrRecord
          | Ok want =>
              if negb (bool_decide (Data want = Data record)) || negb (bool_decide (MetaName m = MetaName (Meta want))) ||
                 negb (bool_decide (MetaNamespace m = MetaNamespace (Meta want))) ||
                 negb (bool_decide (GenerateName m = EmptyString)) || negb (bool_decide (Annotations m = ∅)) ||
                 negb (bool_decide (Labels m = Labels (Meta want))) ||
                 negb (bool_decide (OwnerReferences m = OwnerReferences (Meta want)))
              then Err ErrRecord else
              if negb (bool_decide (Finalizers m = [])) && negb (foregroundDeleting m) then Err ErrRecord else Ok r
          end
      end
  end.

(** ** Pins *)

Record ManagerRecord : Type := { MgrImage : string; MgrRevision : string; MgrRunnerImage : string }.
(** [RecordedAt] as its text; the zero time is the empty string. *)
Record UnresolvedMigrationRunStatus : Type := {
  RunOutcome : string;
  RunOperationID : string;
  RunJobName : string;
  RunJobUID : string;
  RunPlanRef : string * string;
  RunTargetIdentityDigest : string;
  RunDispatchedBy : option ManagerRecord;
  RunRecordedAt : string;
}.

Definition manager_json (m : ManagerRecord) : json :=
  JObj [("controllerImage", JStr (MgrImage m)); ("controllerRevision", JStr (MgrRevision m)); ("runnerImage", JStr (MgrRunnerImage m))].
Definition manager_of_json (v : json) : option ManagerRecord :=
  values ← obj_values ["controllerImage"; "controllerRevision"; "runnerImage"] v;
  match values with
  | [JStr image; JStr revision; JStr runner] => Some {| MgrImage := image; MgrRevision := revision; MgrRunnerImage := runner |}
  | _ => None
  end.
Definition time_json (t : string) : json := if bool_decide (t = EmptyString) then JNull else JStr t.
Definition time_of_json (v : json) : option string :=
  match v with
  | JNull => Some EmptyString
  | JStr t => if is_rfc3339 t && negb (bool_decide (t = zero_time)) then Some t else None
  | _ => None
  end.
Definition ref_json (r : string * string) : json := JObj [("name", JStr r.1); ("uid", JStr r.2)].
Definition ref_of_json (v : json) : option (string * string) :=
  values ← obj_values ["name"; "uid"] v;
  match values with [JStr name; JStr uid] => Some (name, uid) | _ => None end.

Definition unresolved_json (r : UnresolvedMigrationRunStatus) : json :=
  JObj ([("outcome", JStr (RunOutcome r)); ("operationID", JStr (RunOperationID r))] ++
        omit_empty "jobName" (RunJobName r) ++ omit_empty "jobUID" (RunJobUID r) ++ [("planRef", ref_json (RunPlanRef r))] ++
        omit_empty "targetIdentityDigest" (RunTargetIdentityDigest r) ++
        match RunDispatchedBy r with Some m => [("dispatchedBy", manager_json m)] | None => [] end ++
        [("recordedAt", time_json (RunRecordedAt r))]).
Definition opt_manager (fields : list (string * json)) : option (option ManagerRecord * list (string * json)) :=
  match opt_field "dispatchedBy" fields with
  | (None, rest) => Some (None, rest)
  | (Some v, rest) => m ← manager_of_json v; Some (Some m, rest)
  end.
Definition unresolved_of_json (v : json) : option UnresolvedMigrationRunStatus :=
  match v with
  | JObj fields =>
      '(outcome, fields) ← field "outcome" fields; outcome ← str_of_json outcome;
      '(operation, fields) ← field "operationID" fields; operation ← str_of_json operation;
      '(jobName, fields) ← opt_string "jobName" fields;
      '(jobUID, fields) ← opt_string "jobUID" fields;
      '(plan, fields) ← field "planRef" fields; plan ← ref_of_json plan;
      '(target, fields) ← opt_string "targetIdentityDigest" fields;
      '(manager, fields) ← opt_manager fields;
      '(recorded, fields) ← field "recordedAt" fields; recorded ← time_of_json recorded;
      match fields with
      | [] => Some {| RunOutcome := outcome; RunOperationID := operation; RunJobName := jobName; RunJobUID := jobUID;
                      RunPlanRef := plan; RunTargetIdentityDigest := target; RunDispatchedBy := manager;
                      RunRecordedAt := recorded |}
      | _ => None
      end
  | _ => None
  end.
Definition unresolved_valid (r : UnresolvedMigrationRunStatus) : bool :=
  bool_decide (RunRecordedAt r = EmptyString) ||
  (is_rfc3339 (RunRecordedAt r) && negb (bool_decide (RunRecordedAt r = zero_time))).

Lemma field_hit key v rest : field key ((key, v) :: rest) = Some (v, rest).
Proof. unfold field. by rewrite bool_decide_eq_true_2. Qed.
Lemma opt_string_omit key s rest :
  match rest with (k, _) :: _ => k <> key | [] => True end -> opt_string key (omit_empty key s ++ rest) = Some (s, rest).
Proof.
  intros Hk. unfold omit_empty, opt_string, opt_field. case_bool_decide; subst; cbn [app].
  - destruct rest as [|[k v] rest]; [done|]. cbn [field]. by rewrite bool_decide_eq_false_2.
  - by rewrite field_hit.
Qed.

Lemma unresolved_of_unresolved r : unresolved_valid r = true -> unresolved_of_json (unresolved_json r) = Some r.
Proof.
  unfold unresolved_valid, unresolved_of_json, unresolved_json. intros Hv. cbn [app].
  rewrite field_hit. cbn [mbind option_bind str_of_json]. rewrite field_hit. cbn [mbind option_bind str_of_json].
  rewrite opt_string_omit by (unfold omit_empty; by destruct (bool_decide (RunJobUID r = EmptyString))). cbn [mbind option_bind].
  rewrite opt_string_omit by done. cbn [mbind option_bind]. rewrite field_hit.
  cbn [mbind option_bind]. unfold ref_json at 1, ref_of_json. rewrite obj_values_keys by done. cbn [mbind option_bind fmap list_fmap snd].
  rewrite <- surjective_pairing. rewrite opt_string_omit by (by destruct (RunDispatchedBy r)). cbn [mbind option_bind].
  assert (Hm : opt_manager (match RunDispatchedBy r with Some m => [("dispatchedBy", manager_json m)] | None => [] end ++
      [("recordedAt", time_json (RunRecordedAt r))]) = Some (RunDispatchedBy r, [("recordedAt", time_json (RunRecordedAt r))])).
  { unfold opt_manager, opt_field. destruct (RunDispatchedBy r) as [[]|]; [|done]. cbn [app]. rewrite field_hit.
    unfold manager_of_json, manager_json. by rewrite obj_values_keys by done. }
  rewrite Hm. cbn [mbind option_bind]. rewrite field_hit. cbn [mbind option_bind].
  assert (Hr : time_of_json (time_json (RunRecordedAt r)) = Some (RunRecordedAt r)).
  { unfold time_json. case_bool_decide as E; [by rewrite E|]. unfold time_of_json. cbn [orb] in Hv. by rewrite Hv. }
  rewrite Hr. by destruct r.
Qed.
#[export] Instance unresolved_codec : JsonCodec UnresolvedMigrationRunStatus :=
  {| to_json := unresolved_json; of_json := unresolved_of_json; json_valid := unresolved_valid;
     of_to_json := unresolved_of_unresolved |}.

(** What [CheckUnpinned] reads of the owning resource. *)
Record SchemaPins : Type := {
  SchemaPinUID : string;
  SchemaActiveOperation : option string;
  SchemaPendingApply : option string;
  SchemaPendingRelease : option string;
}.
Record MigrationPins : Type := {
  MigrationPinUID : string;
  MigrationActiveOperation : option string;
  UnresolvedOperation : option string;
  ResolvedOperation : option string;
  MigrationPendingRelease : option string;
  (** [LastRun]'s Job name and UID. *)
  LastRunJob : option (string * string);
  UnresolvedRunAnnotation : option string;
}.

(** Listing metadata: by role and attempt label, in pages. *)
Inductive attempt_query : Type := ByAttempt (label : string) | Unindexed.
Record member_query : Type := { QueryNamespace : string; QueryAttempt : attempt_query; QueryContinue : string }.
(** The collector's own scan: intents and markers, then credentials. *)
Record scan_query : Type := { ScanCredentials : bool; ScanContinue : string }.
Inductive list_error : Type := ResourceExpired | ListFailed (e : api_error).
Inductive create_error : Type := NamespaceTerminating | CreateFailed (e : api_error).
Record DeleteOptions : Type := { PreconditionUID : string; PreconditionVersion : string; Foreground : bool }.

Inductive evidenceE : Type -> Type :=
| ReadRecord (key : string * string) : evidenceE (result api_error PtahResultRecord)
| ReadSchema (key : string * string) : evidenceE (result api_error SchemaPins)
| ReadMigration (key : string * string) : evidenceE (result api_error MigrationPins)
| ReadJob (key : string * string) : evidenceE (result api_error string)
| ListMembers (q : member_query) : evidenceE (result api_error (list ObjectMeta * string))
| ScanRecords (q : scan_query) : evidenceE (result list_error (list ObjectMeta * string))
| CreateMarker (r : PtahResultRecord) : evidenceE (result create_error PtahResultRecord)
| DeleteRecord (m : ObjectMeta) (o : DeleteOptions) : evidenceE (result api_error unit)
| Now : evidenceE Z
| ContextErr : evidenceE bool.

Abbreviation eprogram A := (prog evidenceE (result ev_error A)).

Definition is_id (o : option string) (id : string) : bool := bool_decide (o = Some id).

(** An annotation that does not prove another run keeps the attempt. *)
Definition annotation_pins (value operationID : string) : bool :=
  match canonicalRecord (bytes value) with
  | None => true
  | Some run =>
      negb (is_sha256_digest (RunOperationID run)) || bool_decide ((RunPlanRef run).1 = EmptyString) ||
      bool_decide ((RunPlanRef run).2 = EmptyString) || bool_decide (RunRecordedAt run = EmptyString) ||
      (253 <? len (RunJobName run)) ||
      (negb (bool_decide (RunTargetIdentityDigest run = EmptyString)) && negb (is_sha256_digest (RunTargetIdentityDigest run))) ||
      (negb (bool_decide (RunOutcome run = "Partial")) && negb (bool_decide (RunOutcome run = "Unknown"))) ||
      bool_decide (RunOperationID run = operationID)
  end.

Definition schema_pins (s : SchemaPins) (b : Binding) : bool :=
  bool_decide (SchemaPinUID s = UID b) &&
  (is_id (SchemaActiveOperation s) (OperationID b) || is_id (SchemaPendingApply s) (OperationID b) ||
   is_id (SchemaPendingRelease s) (OperationID b)).

Definition migration_pins (m : MigrationPins) (b : Binding) : bool :=
  bool_decide (MigrationPinUID m = UID b) &&
  (is_id (MigrationActiveOperation m) (OperationID b) || is_id (UnresolvedOperation m) (OperationID b) ||
   is_id (ResolvedOperation m) (OperationID b) || is_id (MigrationPendingRelease m) (OperationID b) ||
   match LastRunJob m with
   | Some (jobName, jobUID) =>
       (bool_decide (jobName = EmptyString) && bool_decide (Operation b = "migration-apply")) ||
       (bool_decide (jobName = JobName b) && (bool_decide (jobUID = EmptyString) || bool_decide (jobUID = JobUID b)))
   | None => false
   end ||
   match UnresolvedRunAnnotation m with Some value => annotation_pins value (OperationID b) | None => false end).

Definition CheckUnpinned (b : Binding) : eprogram unit :=
  match ResultStore.Name b with
  | Err e => Ret (Err (StoreErr e))
  | Ok _ =>
      let key := (Namespace b, Name_ b) in
      if bool_decide (Kind b = "PtahSchema") then
        answer <-- call (ReadSchema key);
        Ret match answer with
            | Err NotFound => Ok tt
            | Err e => Err (EvApi e)
            | Ok schema => if schema_pins schema b then Err ErrPinned else Ok tt
            end
      else if bool_decide (Kind b = "PtahMigration") then
        answer <-- call (ReadMigration key);
        Ret match answer with
            | Err NotFound => Ok tt
            | Err e => Err (EvApi e)
            | Ok migration => if migration_pins migration b then Err ErrPinned else Ok tt
            end
      else Ret (Err ErrPinned)
  end.

Definition CheckOpen (b : Binding) : eprogram unit :=
  match Name b with
  | Err _ => Ret (Err ErrRecord)
  | Ok name =>
      answer <-- call (ReadRecord (Namespace b, name));
      Ret match answer with
          | Err NotFound => Ok tt
          | Err e => Err (EvApi e)
          | Ok _ => Err ErrRetired
          end
  end.

(** [CreationTimestamp.Add(...)]; [now.Before(deadline)]. *)
Definition retention (r : Retirement) (window : Z) : Z := Z.max window (RetentionSeconds r * second).

Definition Eligible (record : option PtahResultRecord) (now window : Z) : eprogram unit :=
  match record, Decode record with
  | Some record, Ok r =>
      match CreationTimestamp (Meta record) with
      | None => Ret (Err ErrRecord)
      | Some created =>
          if bool_decide (MetaUID (Meta record) = EmptyString) || (window <? MinimumWindow) then Ret (Err ErrRecord) else
          unpinned <-- CheckUnpinned (RetirementBinding r);
          Ret (_ <-! unpinned;
               let deadline := created + retention r window in
               if now <? deadline then Err (WindowError deadline) else Ok tt)
      end
  | _, _ => Ret (Err ErrRecord)
  end.
