(* ===== verification/ResultCleanup.v ===== *)
(** * Collecting runner evidence (package [internal/resultcleanup])

    [AuthorizeDelete] is the admission verdict on every deletion of a record;
    [AuthorizeForegroundRetirement] lets a terminating namespace start one.
    The [Collector] scans metadata in pages, retires attempts by writing their
    marker and deletes what the verdict allows, at most ten deletions a step.

    What a credential record is bound to is read from a certificate
    ([resultcredentials.StoredRecordIdentity]): a parameter. The metrics the
    collector counts are left out. [Record_] is [resultretention.Record]. *)
From stdpp Require Import base list gmap strings.
From Stdlib Require Import ZArith Lia Ascii.
From S2P Require Import Prelude GoStrings Sha256 Json JsonDecode Fingerprint TargetLock PlanStore KubeMeta ResultStore ResultRetention.
Local Open Scope go_scope.
Local Open Scope Z_scope.

Section policy.
Context (StoredRecordIdentity : PtahResultRecord -> option Binding) (Window : Z).

Definition RootBinding (record : option PtahResultRecord) : result ev_error Binding :=
  match record with
  | None => Err ErrRecord
  | Some r =>
      if bool_decide (Type_ r = "credential") then
        match StoredRecordIdentity r with Some b => Ok b | None => Err ErrCredential end
      else if bool_decide (Type_ r = "intent") then
        match StoredBinding (Some r) with Ok b => Ok b | Err e => Err (StoreErr e) end
      else if bool_decide (Type_ r = "retired") then
        (d <-! Decode (Some r); Ok (RetirementBinding d))
      else Err ErrRecord
  end.

(** ** The members of an attempt *)

Definition member_owned (name : string) (m : ObjectMeta) : bool :=
  match OwnerReferences m with
  | [ref] => bool_decide (OwnerName ref = name) && bool_decide (OwnerKind ref = "PtahResultRecord")
  | _ => false
  end.

Fixpoint take_members (name : string) (legacy : bool) (items found : list ObjectMeta) : result ev_error (list ObjectMeta) :=
  match items with
  | [] => Ok found
  | member :: rest =>
      if member_owned name member then
        if 128 <? zlen (found ++ [member]) then Err ErrRetained else take_members name legacy rest (found ++ [member])
      else if negb legacy then Err ErrRetained else take_members name legacy rest found
  end.

Fixpoint member_pages (name namespace : string) (legacy : bool) (pages : nat) (continuation : string) (found : list ObjectMeta) :
    eprogram (list ObjectMeta) :=
  match pages with
  | O => Ret (if negb (bool_decide (continuation = EmptyString)) then Err ErrRetained else Ok found)
  | S pages' =>
      answer <-- call (ListMembers {| QueryNamespace := namespace;
                                      QueryAttempt := if legacy then Unindexed else ByAttempt (AttemptLabel name);
                                      QueryContinue := continuation |});
      match answer with
      | Err e => Ret (Err (EvApi e))
      | Ok (items, next) =>
          match take_members name legacy items found with
          | Err e => Ret (Err e)
          | Ok found =>
              if bool_decide (next = EmptyString) then Ret (Ok found)
              else member_pages name namespace legacy pages' next found
          end
      end
  end.

(** [sort.Slice]: completions first, then by name. Names are distinct. *)
Definition is_complete (m : ObjectMeta) : bool := bool_decide (label m LabelRecord = "complete").
Definition member_before (a b : ObjectMeta) : bool :=
  if negb (Bool.eqb (is_complete a) (is_complete b)) then is_complete a else (MetaName a <? MetaName b)%string.
Fixpoint insert_member (m : ObjectMeta) (l : list ObjectMeta) : list ObjectMeta :=
  match l with
  | [] => [m]
  | x :: r => if member_before x m then x :: insert_member m r else m :: l
  end.
Definition sort_members (l : list ObjectMeta) : list ObjectMeta := foldr insert_member [] l.

Definition members (b : Binding) : eprogram (list ObjectMeta) :=
  match ResultStore.Name b with
  | Err e => Ret (Err (StoreErr e))
  | Ok name =>
      indexed <-- member_pages name (Namespace b) false 1 EmptyString [];
      match indexed with
      | Err e => Ret (Err e)
      | Ok found =>
          all <-- member_pages name (Namespace b) true 16 EmptyString found;
          Ret (all <-! all; Ok (sort_members all))
      end
  end.

(** ** The verdict on a deletion *)

Definition requireJobAbsent (b : Binding) : eprogram unit :=
  answer <-- call (ReadJob (Namespace b, JobName b));
  Ret match answer with
      | Ok uid => if bool_decide (uid = JobUID b) then Err ErrRetained else Ok tt
      | Err NotFound => Ok tt
      | Err e => Err (EvApi e)
      end.

Definition requireAbsent (namespace name : string) : eprogram unit :=
  answer <-- call (ReadRecord (namespace, name));
  Ret match answer with
      | Err NotFound => Ok tt
      | Ok _ => Err ErrRetained
      | Err e => Err (EvApi e)
      end.

Definition requireNoMembers (b : Binding) : eprogram unit :=
  found <-- members b;
  Ret (found <-! found; if negb (zlen found =? 0) then Err ErrRetained else Ok tt).

(** [p; q] where an error of [p] is returned. *)
Definition then_ {A} (p : eprogram unit) (q : eprogram A) : eprogram A :=
  r <-- p;
  match r with
  | Err e => Ret (Err e)
  | Ok _ => q
  end.

Definition intent_name (b : Binding) : string := match ResultStore.Name b with Ok name => name | Err _ => EmptyString end.

Definition deletionOrder (record : PtahResultRecord) (b : Binding) : eprogram unit :=
  let intentName := intent_name b in
  if bool_decide (Type_ record = "chunk") then requireAbsent (Namespace b) (completeName intentName)
  else if bool_decide (Type_ record = "complete") then Ret (Ok tt)
  else if bool_decide (Type_ record = "intent") then requireNoMembers b
  else if bool_decide (Type_ record = "credential") then requireAbsent (Namespace b) intentName
  else if bool_decide (Type_ record = "retired") then
    then_ (requireAbsent (Namespace b) intentName)
      (then_ (requireAbsent (Namespace b) (credential_name b)) (requireNoMembers b))
  else Ret (Err ErrRetained).

Definition is_child (record : PtahResultRecord) : bool :=
  bool_decide (Type_ record = "chunk") || bool_decide (Type_ record = "complete").
Definition is_root (record : PtahResultRecord) : bool :=
  bool_decide (Type_ record = "intent") || bool_decide (Type_ record = "credential").

(** The one owner of a child, a record. *)
Definition child_ref (record : PtahResultRecord) : option OwnerReference :=
  match OwnerReferences (Meta record) with
  | [ref] => if bool_decide (OwnerKind ref = "PtahResultRecord") then Some ref else None
  | _ => None
  end.

(** The root of a record that is deleted without a marker. [true]: the root is
    the record itself. *)
Definition foreground_root (record : PtahResultRecord) : eprogram (PtahResultRecord * bool) :=
  if is_child record then
    match child_ref record with
    | None => Ret (Err ErrRetained)
    | Some ref =>
        answer <-- call (ReadRecord (MetaNamespace (Meta record), OwnerName ref));
        Ret match answer with
            | Err e => Err (EvApi e)
            | Ok root =>
                if negb (bool_decide (Type_ root = "intent")) || negb (bool_decide (MetaUID (Meta root) = OwnerUID ref))
                then Err ErrRetained else Ok (root, false)
            end
    end
  else Ret (Ok (record, true)).

Definition foregroundBinding (record : PtahResultRecord) : eprogram Binding :=
  found <-- foreground_root record;
  match found with
  | Err e => Ret (Err e)
  | Ok (root, same) =>
      match RootBinding (Some root), DeletionTimestamp (Meta root) with
      | Ok b, Some deleted =>
          if negb (is_root root) || negb (bool_decide (Finalizers (Meta root) = [FinalizerDeleteDependents])) ||
             (negb same && negb (MemberOf (Some record) b)) then Ret (Err ErrRetained) else
          then_ (CheckUnpinned b) (then_ (requireJobAbsent b) (
            match CreationTimestamp (Meta record) with
            | None => Ret (Err ErrWindow)
            | Some created =>
                let ends := Z.max (deleted + Window) (created + Window) in
                now <-- call Now;
                Ret (if now <? ends then Err (WindowError ends) else Ok b)
            end))
      | _, _ => Ret (Err ErrRetained)
      end
  end.

Definition authorizeForeground (record : PtahResultRecord) : eprogram unit :=
  found <-- foregroundBinding record;
  match found with
  | Err e => Ret (Err e)
  | Ok b => deletionOrder record b
  end.

(** The deadline a record's own age sets, if it has not passed. *)
Definition too_young (created : option Z) (window : Z) : prog evidenceE (option Z) :=
  match created with
  | None => Ret None
  | Some created =>
      now <-- call Now;
      Ret (if now <? created + window then Some (created + window) else None)
  end.

(** The retirement marker of a record and the binding it retires; [None] when
    the server has no marker. *)
Definition locate_marker (record : PtahResultRecord) : eprogram (option (PtahResultRecord * Binding)) :=
  if is_child record then
    match child_ref record with
    | None => Ret (Err ErrRetained)
    | Some ref =>
        answer <-- call (ReadRecord (MetaNamespace (Meta record), OwnerName ref +:+ "-retired"));
        Ret match answer with
            | Err NotFound => Ok None
            | Err e => Err (EvApi e)
            | Ok marker =>
                match Decode (Some marker) with
                | Err _ => Err ErrRetained
                | Ok r =>
                    if MemberOf (Some record) (RetirementBinding r) then Ok (Some (marker, RetirementBinding r))
                    else Err ErrRetained
                end
            end
    end
  else
    match RootBinding (Some record) with
    | Err e => Ret (Err e)
    | Ok b =>
        if bool_decide (Type_ record = "retired") then Ret (Ok (Some (record, b))) else
        match Name b with
        | Err e => Ret (Err (StoreErr e))
        | Ok name =>
            answer <-- call (ReadRecord (Namespace b, name));
            Ret match answer with
                | Err NotFound => Ok None
                | Err e => Err (EvApi e)
                | Ok marker => Ok (Some (marker, b))
                end
        end
    end.

(** Whether the recorded source has to be read, and what it answered. *)
Definition needs_source (record : PtahResultRecord) (r : Retirement) : bool :=
  negb (bool_decide (Type_ record = "retired")) &&
  negb (bool_decide (Type_ record = "credential") && bool_decide (SourceType (RetirementSource r) = "intent")).
Definition read_source (record : PtahResultRecord) (r : Retirement) (b : Binding) :
    prog evidenceE (result api_error PtahResultRecord) :=
  if needs_source record r && negb (bool_decide (MetaName (Meta record) = SourceName (RetirementSource r)))
  then call (ReadRecord (Namespace b, SourceName (RetirementSource r)))
  else Ret (Ok record).
Definition check_source (record : PtahResultRecord) (r : Retirement) (b : Binding)
    (source : result api_error PtahResultRecord) : result ev_error unit :=
  match source with
  | Ok source =>
      if needs_source record r then
        match RootBinding (Some source) with
        | Err _ => Err ErrRetained
        | Ok sourceBinding =>
            if negb (bool_decide (MetaUID (Meta source) = SourceUID (RetirementSource r))) ||
               negb (bool_decide (Type_ source = SourceType (RetirementSource r))) || negb (bool_decide (sourceBinding = b))
            then Err ErrRetained else Ok tt
        end
      else Ok tt
  | Err NotFound => Ok tt
  | Err e => Err (EvApi e)
  end.

(** The live intent of a child, when there is one, is its owner. *)
Definition check_intent (record : PtahResultRecord) (r : Retirement) (b : Binding)
    (source : result api_error PtahResultRecord) : eprogram unit :=
  if is_child record then
    match OwnerReferences (Meta record) with
    | ref :: _ =>
        answer <-- (if negb (bool_decide (OwnerName ref = SourceName (RetirementSource r)))
                    then call (ReadRecord (Namespace b, OwnerName ref)) else Ret source);
        Ret match answer with
            | Ok intent =>
                match RootBinding (Some intent) with
                | Err _ => Err ErrRetained
                | Ok intentBinding =>
                    if negb (bool_decide (intentBinding = b)) || negb (bool_decide (MetaUID (Meta intent) = OwnerUID ref))
                    then Err ErrRetained else Ok tt
                end
            | Err NotFound => Ok tt
            | Err e => Err (EvApi e)
            end
    | [] => Ret (Err ErrRetained)
    end
  else Ret (Ok tt).

(** The verdict once the marker and its binding are known. *)
Definition authorize_retired (record marker : PtahResultRecord) (b : Binding) : eprogram unit :=
  match Decode (Some marker) with
  | Err _ => Ret (Err ErrRetained)
  | Ok r =>
      if negb (bool_decide (RetirementBinding r = b)) ||
         (bool_decide (MetaName (Meta record) = SourceName (RetirementSource r)) &&
          negb (bool_decide (MetaUID (Meta record) = SourceUID (RetirementSource r))))
      then Ret (Err ErrRetained) else
      source <-- read_source record r b;
      then_ (Ret (check_source record r b source))
        (then_ (check_intent record r b source)
          (now <-- call Now;
           then_ (Eligible (Some marker) now Window)
             (match CreationTimestamp (Meta record) with
              | None => Ret (Err ErrWindow)
              | Some created =>
                  let ends := created + retention r Window in
                  now <-- call Now;
                  if now <? ends then Ret (Err (WindowError ends))
                  else then_ (requireJobAbsent b) (deletionOrder record b)
              end)))
  end.

Definition AuthorizeDelete (record : option PtahResultRecord) : eprogram unit :=
  match record with
  | None => Ret (Err ErrRetained)
  | Some record =>
      if (Window <? MinimumWindow) || bool_decide (MetaUID (Meta record) = EmptyString) then Ret (Err ErrRetained) else
      young <-- too_young (CreationTimestamp (Meta record)) Window;
      match young with
      | Some ends => Ret (Err (WindowError ends))
      | None =>
          located <-- locate_marker record;
          match located with
          | Err e => Ret (Err e)
          | Ok None => authorizeForeground record
          | Ok (Some (marker, b)) => authorize_retired record marker b
          end
      end
  end.

Definition AuthorizeForegroundRetirement (record : option PtahResultRecord) : eprogram unit :=
  match record with
  | None => Ret (Err ErrRetained)
  | Some record =>
      if (Window <? MinimumWindow) || bool_decide (MetaUID (Meta record) = EmptyString) ||
         negb (is_zero (DeletionTimestamp (Meta record))) || negb (bool_decide (Finalizers (Meta record) = [])) ||
         negb (is_root record) then Ret (Err ErrRetained) else
      match RootBinding (Some record) with
      | Err e => Ret (Err e)
      | Ok b =>
          let name := match Name b with Ok name => name | Err _ => "-retired" end in
          answer <-- call (ReadRecord (Namespace b, name));
          match answer with
          | Err NotFound => then_ (CheckUnpinned b) (requireJobAbsent b)
          | Ok _ => Ret (Err ErrRetained)
          | Err e => Ret (Err (EvApi e))
          end
      end
  end.

(** ** The collector *)

Definition maxRetryHints : Z := 8192.
Definition maxDeletesPerStep : nat := 10.
Definition retry_delay : Z := 30 * second.

(** [retryHintKey]: a UID, or the namespace and name of a credential. *)
Definition hint_key : Type := string * (string * string).
Definition uid_hint (uid : string) : hint_key := (uid, (EmptyString, EmptyString)).
Definition credential_hint (key : string * string) : hint_key := (EmptyString, key).

Record Collector : Type := {
  query : bool;
  continuation : string;
  pending : list ObjectMeta;
  next : gmap hint_key Z;
  deleteBudget : option nat;
}.

Definition with_next (c : Collector) (n : gmap hint_key Z) : Collector :=
  {| query := query c; continuation := continuation c; pending := pending c; next := n; deleteBudget := deleteBudget c |}.
Definition with_budget (c : Collector) (n : option nat) : Collector :=
  {| query := query c; continuation := continuation c; pending := pending c; next := next c; deleteBudget := n |}.
Definition with_pending (c : Collector) (l : list ObjectMeta) : Collector :=
  {| query := query c; continuation := continuation c; pending := l; next := next c; deleteBudget := deleteBudget c |}.
Definition with_page (c : Collector) (q : bool) (cont : string) (l : list ObjectMeta) : Collector :=
  {| query := q; continuation := cont; pending := l; next := next c; deleteBudget := deleteBudget c |}.

Definition deferUntil (c : Collector) (key : hint_key) (until : Z) : prog evidenceE Collector :=
  c <-- (if maxRetryHints <=? Z.of_nat (size (next c)) then
           now <-- call Now;
           Ret (with_next c (filter (fun '(_, deadline) => now < deadline) (next c)))
         else Ret c);
  Ret (if Z.of_nat (size (next c)) <? maxRetryHints then with_next c (<[key := until]> (next c)) else c).

Definition deleteRecord (c : Collector) (m : ObjectMeta) (o : DeleteOptions) : prog evidenceE (Collector * result ev_error unit) :=
  match deleteBudget c with
  | Some O => Ret (c, Err ErrDeleteBudget)
  | budget =>
      answer <-- call (DeleteRecord m o);
      Ret (with_budget c (pred <$> budget), match answer with Ok _ => Ok tt | Err e => Err (EvApi e) end)
  end.

Definition is_credential (m : ObjectMeta) : bool := bool_decide (label m "app.kubernetes.io/component" = "result-credential").
Definition meta_key (m : ObjectMeta) : string * string := (MetaNamespace m, MetaName m).

Definition after_delay (c : Collector) (key : hint_key) : prog evidenceE Collector :=
  now <-- call Now; deferUntil c key (now + retry_delay).

Definition removeMetadata (c : Collector) (m : ObjectMeta) : prog evidenceE (Collector * result ev_error unit) :=
  if bool_decide (MetaUID m = EmptyString) || bool_decide (ResourceVersion m = EmptyString) then Ret (c, Err ErrRetained) else
  if foregroundDeleting m then Ret (c, Ok tt) else
  deleted <-- deleteRecord c m {| PreconditionUID := MetaUID m; PreconditionVersion := ResourceVersion m; Foreground := false |};
  let '(c, err) := deleted in
  match err with
  | Ok _ | Err (EvApi NotFound) =>
      c <-- (if bool_decide (label m LabelRecord = "intent") || bool_decide (label m LabelRecord = "retired")
             then after_delay c (uid_hint (MetaUID m)) else Ret c);
      c <-- (if is_credential m then after_delay c (credential_hint (meta_key m)) else Ret c);
      Ret (c, Ok tt)
  | Err e => Ret (c, Err e)
  end.

Definition remove (c : Collector) (key : string * string) : prog evidenceE (Collector * result ev_error unit) :=
  answer <-- call (ReadRecord key);
  match answer with
  | Err NotFound => Ret (c, Ok tt)
  | Err e => Ret (c, Err (EvApi e))
  | Ok record => removeMetadata c (Meta record)
  end.

(** Run actions in order until one fails. *)
Fixpoint in_order (c : Collector) (actions : list (Collector -> prog evidenceE (Collector * result ev_error unit))) :
    prog evidenceE (Collector * result ev_error unit) :=
  match actions with
  | [] => Ret (c, Ok tt)
  | act :: rest =>
      done <-- act c;
      let '(c, err) := done in
      match err with
      | Err e => Ret (c, Err e)
      | Ok _ => in_order c rest
      end
  end.

(** An intent under the attempt's name must carry this binding. *)
Definition same_intent (b : Binding) : eprogram unit :=
  answer <-- call (ReadRecord (Namespace b, intent_name b));
  Ret match answer with
      | Ok intent =>
          match RootBinding (Some intent) with
          | Ok binding => if bool_decide (binding = b) then Ok tt else Err ErrRetained
          | Err _ => Err ErrRetained
          end
      | Err NotFound => Ok tt
      | Err e => Err (EvApi e)
      end.

(** The records collected after the members: the intent and the credential,
    the root as it was read. *)
Definition remove_root (root : PtahResultRecord) (b : Binding) (name : string) (c : Collector) :
    prog evidenceE (Collector * result ev_error unit) :=
  if bool_decide (MetaNamespace (Meta root) = Namespace b) && bool_decide (MetaName (Meta root) = name)
  then removeMetadata c (Meta root) else remove c (Namespace b, name).

Definition collect (c : Collector) (marker : option PtahResultRecord) (root : PtahResultRecord) (b : Binding) :
    prog evidenceE (Collector * result ev_error unit) :=
  found <-- then_ (match marker with None => same_intent b | Some _ => Ret (Ok tt) end)
              (then_ (requireJobAbsent b) (members b));
  match found with
  | Err e => Ret (c, Err e)
  | Ok found =>
      in_order c (((fun m c => removeMetadata c m) <$> found) ++
        [remove_root root b (intent_name b); remove_root root b (credential_name b)] ++
        match marker with Some marker => [fun c => removeMetadata c (Meta marker)] | None => [] end)
  end.

(** The marker of a root without one: written, or the one another writer won
    with; [None]: the namespace is terminating. *)
Definition retire (record : PtahResultRecord) (b : Binding) (name : string) : eprogram (option PtahResultRecord) :=
  match Record_ b {| SourceName := MetaName (Meta record); SourceUID := MetaUID (Meta record); SourceType := Type_ record |} Window with
  | Err e => Ret (Err e)
  | Ok marker =>
      answer <-- call (CreateMarker marker);
      match answer with
      | Ok marker => Ret (Ok (Some marker))
      | Err NamespaceTerminating => Ret (Ok None)
      | Err (CreateFailed AlreadyExists) =>
          again <-- call (ReadRecord (Namespace b, name));
          Ret match again with Ok marker => Ok (Some marker) | Err e => Err (EvApi e) end
      | Err (CreateFailed e) => Ret (Err (EvApi e))
      end
  end.

(** The rest of [process], once the marker is known. *)
Definition process_marker (c : Collector) (record marker : PtahResultRecord) (b : Binding) (retry : Z) :
    prog evidenceE (Collector * (Z * result ev_error unit)) :=
  match Decode (Some marker), CreationTimestamp (Meta marker) with
  | Ok r, Some created =>
      if negb (bool_decide (RetirementBinding r = b)) || bool_decide (MetaUID (Meta marker) = EmptyString)
      then Ret (c, (retry, Err ErrRecord)) else
      let deadline := created + retention r Window in
      now <-- call Now;
      if now <? deadline then
        c <-- deferUntil c (credential_hint (Namespace b, credential_name b)) deadline;
        Ret (c, (deadline, Err ErrWindow))
      else
        now <-- call Now;
        eligible <-- Eligible (Some marker) now Window;
        match eligible with
        | Err e => Ret (c, (retry, Err e))
        | Ok _ =>
            done <-- collect c (Some marker) record b;
            let '(c, err) := done in
            Ret (c, (retry, err))
        end
  | _, _ => Ret (c, (retry, Err ErrRecord))
  end.

Definition process (c : Collector) (m : ObjectMeta) : prog evidenceE (Collector * (Z * result ev_error unit)) :=
  now <-- call Now;
  let retry := now + retry_delay in
  answer <-- call (ReadRecord (meta_key m));
  match answer with
  | Err NotFound => Ret (c, (retry, Ok tt))
  | Err e => Ret (c, (retry, Err (EvApi e)))
  | Ok record =>
      if negb (bool_decide (MetaUID (Meta record) = MetaUID m)) then Ret (c, (retry, Err ErrRetained)) else
      match RootBinding (Some record) with
      | Err e => Ret (c, (retry, Err e))
      | Ok b =>
          let name := match Name b with Ok name => name | Err _ => "-retired" end in
          found <-- (if bool_decide (Type_ record = "retired") then Ret (Ok record)
                     else call (ReadRecord (Namespace b, name)));
          match found with
          | Ok marker => process_marker c record marker b retry
          | Err NotFound =>
              if negb (is_zero (DeletionTimestamp (Meta record))) then
                fg <-- foregroundBinding record;
                match fg with
                | Err e => Ret (c, (retry, Err e))
                | Ok _ =>
                    done <-- collect c None record b;
                    let '(c, err) := done in
                    Ret (c, (retry, err))
                end
              else
                unpinned <-- CheckUnpinned b;
                match unpinned with
                | Err e => Ret (c, (retry, Err e))
                | Ok _ =>
                    retired <-- retire record b name;
                    match retired with
                    | Err e => Ret (c, (retry, Err e))
                    | Ok (Some marker) => process_marker c record marker b retry
                    | Ok None =>
                        allowed <-- AuthorizeForegroundRetirement (Some record);
                        match allowed with
                        | Err e => Ret (c, (retry, Err e))
                        | Ok _ =>
                            done <-- deleteRecord c (Meta record)
                              {| PreconditionUID := MetaUID (Meta record);
                                 PreconditionVersion := ResourceVersion (Meta record); Foreground := true |};
                            let '(c, err) := done in
                            Ret (c, (retry, err))
                        end
                    end
                end
          | Err e => Ret (c, (retry, Err (EvApi e)))
          end
      end
  end.

(** [retained(err)]. *)
Definition retained (err : ev_error) : bool :=
  match err with ErrRetained | ErrPinned | ErrWindow | WindowError _ => true | _ => false end.

(** Whether a listed root is looked at now: not a young marker, no hint. *)
Definition due (c : Collector) (m : ObjectMeta) : prog evidenceE (option hint_key) :=
  young <-- (match bool_decide (label m LabelRecord = "retired"), CreationTimestamp m with
             | true, Some created => now <-- call Now; Ret (now <? created + Window)
             | _, _ => Ret false
             end);
  if (young : bool) then Ret None else
  let key := if is_credential m then credential_hint (meta_key m) else uid_hint (MetaUID m) in
  now <-- call Now;
  Ret match next c !! key with
      | Some until => if now <? until then None else Some key
      | None => Some key
      end.

(** The loop over the page; the failures are joined. *)
Fixpoint drain (c : Collector) (page : list ObjectMeta) (failures : list ev_error) : prog evidenceE (Collector * list ev_error) :=
  match page with
  | [] => Ret (with_pending c [], failures)
  | m :: rest =>
      stopped <-- call ContextErr;
      if (stopped : bool) then Ret (with_pending c page, failures ++ [ErrContext]) else
      match deleteBudget c with
      | Some O => Ret (with_pending c page, failures)
      | _ =>
          key <-- due c m;
          match key with
          | None => drain c rest failures
          | Some key =>
              done <-- process c m;
              let '(c, (until, err)) := done in
              match err with
              | Err ErrDeleteBudget => Ret (with_pending c page, failures)
              | _ =>
                  c <-- deferUntil c key until;
                  drain c rest (match err with
                                | Err e => if retained e then failures else failures ++ [e]
                                | Ok _ => failures
                                end)
              end
          end
      end
  end.

(** The next page, when the last one is done. *)
Definition fetch (c : Collector) : prog evidenceE (Collector * option ev_error) :=
  match pending c with
  | _ :: _ => Ret (c, None)
  | [] =>
      answer <-- call (ScanRecords {| ScanCredentials := query c; ScanContinue := continuation c |});
      Ret match answer with
          | Err ResourceExpired => (with_page c (query c) EmptyString [], Some (EvApi OtherError))
          | Err (ListFailed e) => (c, Some (EvApi e))
          | Ok (items, cont) =>
              (with_page c (if bool_decide (cont = EmptyString) then negb (query c) else query c) cont items, None)
          end
  end.

Definition Step (c : Collector) : prog evidenceE (Collector * list ev_error) :=
  let c := with_budget c (Some maxDeletesPerStep) in
  fetched <-- fetch c;
  let '(c, failed) := fetched in
  match failed with
  | Some e => Ret (with_budget c None, [e])
  | None =>
      drained <-- drain c (pending c) [];
      let '(c, failures) := drained in
      Ret (with_budget c None, failures)
  end.
End policy.
