(* ===== verification/ResultCleanupProofs.v ===== *)
(** * Collecting runner evidence: what a deletion was allowed on, and its bounds

    Every answer the API server and the clock gave to a verdict is a [fact];
    [AuthorizeDelete] allows a deletion only on facts that make it due. The
    collector attempts a bounded number of deletions a step and keeps a
    bounded number of hints, and a marker decodes to what it was written from. *)
From stdpp Require Import base list gmap strings.
From Stdlib Require Import ZArith Lia Ascii.
From S2P Require Import Prelude GoStrings Sha256 Json JsonDecode Fingerprint TargetLock PlanStore PlanStoreProofs KubeMeta ResultStore.
From S2P Require Import ResultStoreProofs ResultEnvelope ResultPublish ResultRetention ResultCleanup.
Local Open Scope go_scope.
Local Open Scope Z_scope.
#[local] Opaque sha256 hex_encode.

(** ** Facts *)

Inductive fact : Type :=
| FRecord (key : string * string) (answer : result api_error PtahResultRecord)
| FSchema (key : string * string) (answer : result api_error SchemaPins)
| FMigration (key : string * string) (answer : result api_error MigrationPins)
| FJob (key : string * string) (answer : result api_error string)
| FMembers (q : member_query) (answer : result api_error (list ObjectMeta * string))
| FNow (now : Z)
| FOther.

Definition fact_of (X : Type) (e : evidenceE X) : X -> fact :=
  match e in evidenceE X return X -> fact with
  | ReadRecord key => FRecord key
  | ReadSchema key => FSchema key
  | ReadMigration key => FMigration key
  | ReadJob key => FJob key
  | ListMembers q => FMembers q
  | Now => FNow
  | _ => fun _ => FOther
  end.
Definition answers (X : Type) (e : evidenceE X) (g : list fact) (x : X) (g' : list fact) : Prop := g' = fact_of X e x :: g.
Definition fact_spec : espec evidenceE (list fact) := {| pre := fun _ _ _ => True; post := answers |}.

(** A condition more facts cannot take away. *)
Definition monotone (P : list fact -> Prop) : Prop := forall f g, P g -> P (f :: g).

(** Every result of [p] that is [Ok] has its condition. *)
Definition ensures {A} (p : eprogram A) (P : A -> list fact -> Prop) : Prop :=
  forall g, wp fact_spec p (fun r g' => forall a, r = Ok a -> P a g') g.

Lemma wp_fact_free {A} (p : prog evidenceE A) g : wp fact_spec p (fun _ _ => True) g.
Proof. by apply wp_true. Qed.
Lemma wp_monotone {A} (p : prog evidenceE A) Q P g :
  monotone P -> P g -> wp fact_spec p Q g -> wp fact_spec p (fun a g' => Q a g' /\ P g') g.
Proof. intros HP. apply wp_keep. intros X e g0 x g1 ->. apply HP. Qed.

Lemma ensures_ret {A} (a : A) (P : A -> list fact -> Prop) : (forall g, P a g) -> ensures (Ret (Ok a)) P.
Proof. intros H g a' [= <-]. apply H. Qed.
Lemma ensures_err {A} e (P : A -> list fact -> Prop) : ensures (Ret (Err e)) P.
Proof. by intros g a'. Qed.

Lemma ensures_then {A} (p : eprogram unit) (q : eprogram A) P Q :
  monotone P -> ensures p (fun _ => P) -> ensures q Q -> ensures (then_ p q) (fun a g => P g /\ Q a g).
Proof.
  intros HP Hp Hq g. apply wp_bind. eapply wp_mono; [|apply Hp]. intros [[]|e] g1 H; [|by intros a].
  eapply wp_mono; [|eapply wp_monotone; [exact HP|by eapply H|apply Hq]]. intros r g2 [H1 H2] a ->. auto.
Qed.

Lemma ensures_mono {A} (p : eprogram A) (P Q : A -> list fact -> Prop) :
  (forall a g, P a g -> Q a g) -> ensures p P -> ensures p Q.
Proof. intros H Hp g. eapply wp_mono; [|apply Hp]. naive_solver. Qed.

(** ** What the checks establish *)

Definition unpinned (b : Binding) (g : list fact) : Prop :=
  (Kind b = "PtahSchema" /\ (FSchema (Namespace b, Name_ b) (Err NotFound) ∈ g \/
     exists s, FSchema (Namespace b, Name_ b) (Ok s) ∈ g /\ schema_pins s b = false)) \/
  (Kind b = "PtahMigration" /\ (FMigration (Namespace b, Name_ b) (Err NotFound) ∈ g \/
     exists m, FMigration (Namespace b, Name_ b) (Ok m) ∈ g /\ migration_pins m b = false)).
Definition job_gone (b : Binding) (g : list fact) : Prop :=
  FJob (Namespace b, JobName b) (Err NotFound) ∈ g \/
  exists uid, FJob (Namespace b, JobName b) (Ok uid) ∈ g /\ uid <> JobUID b.
Definition absent (namespace name : string) (g : list fact) : Prop := FRecord (namespace, name) (Err NotFound) ∈ g.
Definition passed (t : Z) (g : list fact) : Prop := exists now, FNow now ∈ g /\ t <= now.

(** The list of unindexed records was read to its end without a member. *)
Definition query_of (b : Binding) (name : string) (legacy : bool) (cont : string) : member_query :=
  {| QueryNamespace := Namespace b; QueryAttempt := if legacy then Unindexed else ByAttempt (AttemptLabel name); QueryContinue := cont |}.
Inductive pages_clear (b : Binding) (name : string) (g : list fact) : string -> Prop :=
| clear_last cont items : FMembers (query_of b name true cont) (Ok (items, EmptyString)) ∈ g ->
    Forall (fun m => member_owned name m = false) items -> pages_clear b name g cont
| clear_more cont items next : FMembers (query_of b name true cont) (Ok (items, next)) ∈ g ->
    Forall (fun m => member_owned name m = false) items -> pages_clear b name g next -> pages_clear b name g cont.
Definition no_members (b : Binding) (g : list fact) : Prop :=
  exists name, ResultStore.Name b = Ok name /\ FMembers (query_of b name false EmptyString) (Ok ([], EmptyString)) ∈ g /\
    pages_clear b name g EmptyString.

Lemma monotone_unpinned b : monotone (unpinned b).
Proof. intros f g H. unfold unpinned in *. setoid_rewrite elem_of_cons. naive_solver. Qed.
Lemma monotone_job_gone b : monotone (job_gone b).
Proof. intros f g H. unfold job_gone in *. setoid_rewrite elem_of_cons. naive_solver. Qed.
Lemma monotone_absent ns n : monotone (absent ns n).
Proof. intros f g H. by right. Qed.
Lemma monotone_passed t : monotone (passed t).
Proof. intros f g (now & H & Hl). exists now. split; [by right|done]. Qed.
Lemma pages_clear_mono b name f g cont : pages_clear b name g cont -> pages_clear b name (f :: g) cont.
Proof.
  induction 1; [eapply clear_last|eapply clear_more]; try done; by right.
Qed.
Lemma monotone_no_members b : monotone (no_members b).
Proof. intros f g (name & H1 & H2 & H3). exists name. split_and!; [done|by right|by apply pages_clear_mono]. Qed.
#[local] Hint Resolve monotone_unpinned monotone_job_gone monotone_absent monotone_passed monotone_no_members : ptah.

Lemma CheckUnpinned_ensures b : ensures (CheckUnpinned b) (fun _ => unpinned b).
Proof.
  intros g. unfold CheckUnpinned. destruct (ResultStore.Name b); [|by intros ?].
  case_bool_decide; [|case_bool_decide; [|by intros ?]]; (split; [done|]); intros x g' ->; cbn [pbind wp fact_of]; intros [] Hok.
  - left. split; [done|]. destruct x as [s|[]]; try discriminate.
    + destruct (schema_pins s b) eqn:E; [discriminate|]. right. exists s. split; [apply list_elem_of_here|done].
    + left. apply list_elem_of_here.
  - right. split; [done|]. destruct x as [m|[]]; try discriminate.
    + destruct (migration_pins m b) eqn:E; [discriminate|]. right. exists m. split; [apply list_elem_of_here|done].
    + left. apply list_elem_of_here.
Qed.

Lemma requireJobAbsent_ensures b : ensures (requireJobAbsent b) (fun _ => job_gone b).
Proof.
  intros g. split; [done|]. intros x g' ->. cbn [pbind wp fact_of]. intros [] Hok. destruct x as [uid|[]]; try discriminate.
  - case_bool_decide; [discriminate|]. right. exists uid. split; [apply list_elem_of_here|done].
  - left. apply list_elem_of_here.
Qed.

Lemma requireAbsent_ensures ns n : ensures (requireAbsent ns n) (fun _ => absent ns n).
Proof.
  intros g. split; [done|]. intros x g' ->. cbn [pbind wp fact_of]. intros [] Hok. destruct x as [r|[]]; try discriminate.
  apply list_elem_of_here.
Qed.

Lemma take_members_spec name legacy items : forall found out,
  take_members name legacy items found = Ok out ->
  exists more, out = found ++ more /\ (more = [] -> Forall (fun m => member_owned name m = false) items /\ (legacy = false -> items = [])).
Proof.
  induction items as [|m items IH]; intros found out H; cbn in H.
  { injection H as <-. exists []. by rewrite app_nil_r. }
  destruct (member_owned name m) eqn:Eo.
  - destruct (128 <? _); [done|]. apply IH in H as (more & -> & _). exists (m :: more). by rewrite <- app_assoc.
  - destruct legacy; [|done]. apply IH in H as (more & -> & Hm). exists more. split; [done|]. intros ->. destruct (Hm eq_refl).
    split; [by constructor|done].
Qed.

Lemma member_pages_spec b name legacy pages : forall cont found,
  ensures (member_pages name (Namespace b) legacy pages cont found) (fun out g =>
    exists more, out = found ++ more /\
      match pages with
      | O => cont = EmptyString
      | S n => more = [] -> (legacy = true -> pages_clear b name g cont) /\
                 (legacy = false -> n = O -> FMembers (query_of b name false cont) (Ok ([], EmptyString)) ∈ g)
      end).
Proof.
  induction pages as [|pages IH]; intros cont found g.
  { intros out Hok. cbn in Hok. case_bool_decide; [|done]. injection Hok as <-. exists []. by rewrite app_nil_r. }
  cbn [member_pages]. split; [done|]. intros x g1 ->. cbn [pbind fact_of]. destruct x as [[items next]|e]; [|by intros ?].
  destruct (take_members name legacy items found) as [out|] eqn:Et; [|by intros ?].
  apply take_members_spec in Et as (more & -> & Hm). fold (query_of b name legacy cont).
  assert (Hf : FMembers (query_of b name legacy cont) (Ok (items, next)) ∈ FMembers (query_of b name legacy cont) (Ok (items, next)) :: g)
    by apply list_elem_of_here.
  case_bool_decide as En.
  - intros out [= <-]. exists more. split; [done|]. intros ->. destruct (Hm eq_refl) as [Hall Hi]. subst next. split.
    + intros ->. by eapply clear_last.
    + intros -> _. by rewrite (Hi eq_refl) in Hf |- *.
  - eapply wp_mono; [|eapply (wp_monotone _ _ (fun g => FMembers (query_of b name legacy cont) (Ok (items, next)) ∈ g)); [|exact Hf|apply IH]].
    2: { intros f g' H. by right. }
    intros r g2 [H Hf2] out ->. destruct (H out eq_refl) as (more' & -> & Hm'). exists (more ++ more'). split; [by rewrite app_assoc|].
    destruct pages as [|pages]; [done|].
    intros [-> ->]%app_eq_nil. destruct (Hm eq_refl) as [Hall Hi], (Hm' eq_refl) as [Hp _]. split; [|done].
    intros ->. eapply clear_more; [exact Hf2|done|]. by apply Hp.
Qed.

Lemma insert_member_nonempty m l : insert_member m l <> [].
Proof. destruct l; cbn; [done|by case_match]. Qed.

Lemma requireNoMembers_ensures b : ensures (requireNoMembers b) (fun _ => no_members b).
Proof.
  intros g. unfold requireNoMembers, members. destruct (ResultStore.Name b) as [name|] eqn:En; [|by intros ?].
  apply wp_bind, wp_bind. eapply wp_mono; [|apply (member_pages_spec b name false 1)].
  intros [found|e] g1 H1; [|by intros ?]. destruct (H1 found eq_refl) as (more & Hfound & Hm). cbn [app] in Hfound. subst found.
  apply wp_bind. eapply wp_mono; [|eapply (wp_monotone _ _ (fun g => more = [] -> FMembers (query_of b name false EmptyString) (Ok ([], EmptyString)) ∈ g));
    [| |apply (member_pages_spec b name true 16)]].
  2: { intros f g' H Hn. right. by apply H. }
  2: { intros Hn. by apply Hm. }
  intros [all|e] g2 [H2 Hf]; [|by intros ?]. destruct (H2 all eq_refl) as (more' & -> & Hm'). cbn [wp rbind].
  intros [] Hok. destruct (more ++ more') as [|x l] eqn:E.
  - apply app_eq_nil in E as [-> ->]. exists name. split; [done|]. split; [by apply Hf|]. by apply Hm'.
  - exfalso. cbn [sort_members foldr] in Hok. fold (sort_members l) in Hok.
    destruct (insert_member x (sort_members l)) eqn:Ei; [by apply insert_member_nonempty in Ei|].
    rewrite (proj2 (Z.eqb_neq _ _)) in Hok; [done|]. unfold zlen. cbn [length]. lia.
Qed.

(** Dependents first: a chunk after its completion, an intent after its
    members, a credential after its intent, a marker last. *)
Definition ordered (record : PtahResultRecord) (b : Binding) (g : list fact) : Prop :=
  let name := intent_name b in
  (Type_ record = "chunk" /\ absent (Namespace b) (completeName name) g) \/
  Type_ record = "complete" \/
  (Type_ record = "intent" /\ no_members b g) \/
  (Type_ record = "credential" /\ absent (Namespace b) name g) \/
  (Type_ record = "retired" /\ absent (Namespace b) name g /\ absent (Namespace b) (credential_name b) g /\ no_members b g).

Lemma deletionOrder_ensures record b : ensures (deletionOrder record b) (fun _ => ordered record b).
Proof.
  unfold deletionOrder, ordered. cbn zeta.
  case_bool_decide; [eapply ensures_mono; [|apply requireAbsent_ensures]; naive_solver|].
  case_bool_decide; [apply ensures_ret; naive_solver|].
  case_bool_decide; [eapply ensures_mono; [|apply requireNoMembers_ensures]; naive_solver|].
  case_bool_decide; [eapply ensures_mono; [|apply requireAbsent_ensures]; naive_solver|].
  case_bool_decide; [|apply ensures_err].
  eapply ensures_mono; [|eapply ensures_then; [|apply requireAbsent_ensures|
    eapply ensures_then; [|apply requireAbsent_ensures|apply requireNoMembers_ensures]]]; [|auto with ptah..].
  cbn. naive_solver.
Qed.

Section verdict.
Context (StoredRecordIdentity : PtahResultRecord -> option Binding) (Window : Z).
Abbreviation RootBinding := (RootBinding StoredRecordIdentity).

(** The checks both ways of authorizing a deletion end with. *)
Definition cleared (record : PtahResultRecord) (b : Binding) (g : list fact) : Prop :=
  unpinned b g /\ job_gone b g /\ ordered record b g.

(** A marker retires [b]: it and the record have outlived the longer of the
    two windows. *)
Definition retired_by (record marker : PtahResultRecord) (b : Binding) (g : list fact) : Prop :=
  exists r written created, Decode (Some marker) = Ok r /\ RetirementBinding r = b /\
    CreationTimestamp (Meta marker) = Some written /\ passed (written + retention r Window) g /\
    CreationTimestamp (Meta record) = Some created /\ passed (created + retention r Window) g /\
    (MetaName (Meta record) = SourceName (RetirementSource r) -> MetaUID (Meta record) = SourceUID (RetirementSource r)).

(** Its root is being deleted in the foreground, for a whole window. *)
Definition foreground_of (record root : PtahResultRecord) (b : Binding) (g : list fact) : Prop :=
  exists deleted created, RootBinding (Some root) = Ok b /\ is_root root = true /\ foregroundDeleting (Meta root) = true /\
    DeletionTimestamp (Meta root) = Some deleted /\ CreationTimestamp (Meta record) = Some created /\
    passed (deleted + Window) g /\ passed (created + Window) g.

Lemma wp_Now (k : Z -> prog evidenceE (result ev_error unit)) Q g :
  (forall now, wp fact_spec (k now) Q (FNow now :: g)) -> wp fact_spec (now <-- call Now; k now) Q g.
Proof. intros H. split; [done|]. intros now g' ->. apply H. Qed.

Lemma wp_Eligible marker now g :
  wp fact_spec (Eligible (Some marker) now Window) (fun r0 g' => r0 = Ok tt ->
    exists r written, Decode (Some marker) = Ok r /\ CreationTimestamp (Meta marker) = Some written /\
      written + retention r Window <= now /\ unpinned (RetirementBinding r) g') g.
Proof.
  unfold Eligible. destruct (Decode (Some marker)) as [r|]; [|by intros ?].
  destruct (CreationTimestamp _) as [written|]; [|by intros ?]. destruct (_ || _); [by intros ?|].
  apply wp_bind. eapply wp_mono; [|apply CheckUnpinned_ensures]. intros [[]|e] g1 H; [|by intros ?]. cbn [wp rbind].
  intros Hok. destruct (now <? written + retention r Window) eqn:E; [done|]. bool_prop. exists r, written. split_and!; [done|done|done|]. by apply (H tt).
Qed.

Lemma authorize_retired_ensures record marker b :
  ensures (authorize_retired StoredRecordIdentity Window record marker b) (fun _ g => retired_by record marker b g /\ cleared record b g).
Proof.
  intros g. unfold authorize_retired. destruct (Decode (Some marker)) as [r|] eqn:Ed; [|by intros ?].
  destruct (_ || _) eqn:Eb; [by intros ?|]. apply orb_false_iff in Eb as [Eb Es]. bool_prop. subst b.
  apply andb_false_iff in Es.
  apply wp_bind. eapply wp_mono; [|apply wp_fact_free]. intros source g1 _. cbn beta.
  assert (Hrest : ensures (now <-- call Now;
           then_ (Eligible (Some marker) now Window)
             (match CreationTimestamp (Meta record) with
              | None => Ret (Err ErrWindow)
              | Some created =>
                  let ends := created + retention r Window in
                  now <-- call Now;
                  if now <? ends then Ret (Err (WindowError ends))
                  else then_ (requireJobAbsent (RetirementBinding r)) (deletionOrder record (RetirementBinding r))
              end)) (fun _ g => retired_by record marker (RetirementBinding r) g /\ cleared record (RetirementBinding r) g)).
  { clear g g1 source. intros g. apply wp_Now. intros now. apply wp_bind.
    eapply wp_mono; [|eapply (wp_monotone _ _ (fun g => FNow now ∈ g)); [|apply list_elem_of_here|apply wp_Eligible]].
    2: { intros f g' H. by right. }
    intros [[]|e] g1 [H Hnow]; [|by intros ?]. destruct (H eq_refl) as (r' & written & Hd & Hw & Hle & Hun). clear H.
    rewrite Ed in Hd. injection Hd as <-. destruct (CreationTimestamp (Meta record)) as [created|] eqn:Ec; [|by intros ?].
    cbn zeta. apply wp_Now. intros now2. destruct (now2 <? _) eqn:E; [by intros ?|]. bool_prop.
    assert (Hp1 : passed (written + retention r Window) (FNow now2 :: g1)) by (exists now; split; [by right|done]).
    assert (Hp2 : passed (created + retention r Window) (FNow now2 :: g1)) by (exists now2; split; [apply list_elem_of_here|done]).
    eapply (monotone_unpinned _ (FNow now2)) in Hun.
    eapply wp_mono; [|eapply wp_monotone; [apply monotone_passed|exact Hp1|]; eapply wp_monotone; [apply monotone_passed|exact Hp2|];
      eapply wp_monotone; [apply monotone_unpinned|exact Hun|];
      apply (ensures_then _ _ (job_gone (RetirementBinding r)) (fun _ => ordered record (RetirementBinding r)));
        [eauto with ptah|apply requireJobAbsent_ensures|apply deletionOrder_ensures]].
    intros r0 g2 (((H & Hun2) & Hp2') & Hp1') [] ->. destruct (H tt eq_refl) as [Hj Ho]. split; [|by split_and!].
    exists r, written, created. split_and!; try done. intros En. destruct Es as [Es|Es]; bool_prop; done. }
  eapply wp_mono; [|eapply (ensures_then _ _ (fun _ => True)); [done|by intros ??|
    eapply (ensures_then _ _ (fun _ => True)); [done| |exact Hrest]]].
  - cbn. intros r0 g2 H a ->. by destruct (H a eq_refl) as (_ & _ & ?).
  - intros g2. eapply wp_mono; [|apply wp_fact_free]. done.
Qed.

Lemma foregroundBinding_ensures record :
  ensures (foregroundBinding StoredRecordIdentity Window record) (fun b g =>
    unpinned b g /\ job_gone b g /\ exists root, foreground_of record root b g /\
      ((is_child record = false /\ root = record) \/
       (MemberOf (Some record) b = true /\ exists ref, child_ref record = Some ref /\ MetaUID (Meta root) = OwnerUID ref /\
          FRecord (MetaNamespace (Meta record), OwnerName ref) (Ok root) ∈ g))).
Proof.
  intros g. unfold foregroundBinding. apply wp_bind.
  apply (wp_mono _ _ (fun r g' => forall root same, r = Ok (root, same) ->
    (same = true /\ is_child record = false /\ root = record) \/
    (same = false /\ exists ref, child_ref record = Some ref /\ MetaUID (Meta root) = OwnerUID ref /\
       FRecord (MetaNamespace (Meta record), OwnerName ref) (Ok root) ∈ g'))).
  2: { unfold foreground_root. destruct (is_child record); [|cbn; intros root same [= <- <-]; by left].
       destruct (child_ref record) as [ref|]; [|by intros ?]. split; [done|]. intros x g1 ->. cbn [pbind wp fact_of].
       intros root same Hok. destruct x as [root'|]; [|done]. destruct (_ || _) eqn:E; [done|]. bool_prop. injection Hok as <- <-.
       right. split; [done|]. exists ref. split_and!; [done|done|apply list_elem_of_here]. }
  intros [[root same]|e] g1 Hr; [|by intros ?]. specialize (Hr root same eq_refl).
  destruct (RootBinding (Some root)) as [b|] eqn:Eb; [|by intros ?]. destruct (DeletionTimestamp (Meta root)) as [deleted|] eqn:Edel; [|by intros ?].
  destruct (_ || _ || _) eqn:Eg; [by intros ?|]. apply orb_false_iff in Eg as [Eg Em]. bool_prop. apply andb_false_iff in Em.
  assert (Hfg : foregroundDeleting (Meta root) = true).
  { unfold foregroundDeleting, is_zero. rewrite Edel. by rewrite bool_decide_eq_false_2, bool_decide_eq_true_2 by done. }
  set (K := fun g : list fact => (same = true /\ is_child record = false /\ root = record) \/
    (same = false /\ exists ref, child_ref record = Some ref /\ MetaUID (Meta root) = OwnerUID ref /\
       FRecord (MetaNamespace (Meta record), OwnerName ref) (Ok root) ∈ g)).
  assert (HK : monotone K).
  { intros f g' [HK|(Hs & ref & H1 & H2 & H3)]; [by left|]. right. split; [done|]. exists ref. split_and!; [done|done|by right]. }
  assert (Hrest : ensures (match CreationTimestamp (Meta record) with
            | None => Ret (Err ErrWindow)
            | Some created =>
                let ends := Z.max (deleted + Window) (created + Window) in
                now <-- call Now;
                Ret (if now <? ends then Err (WindowError ends) else Ok b)
            end) (fun b' g => b' = b /\ exists created, CreationTimestamp (Meta record) = Some created /\
       passed (deleted + Window) g /\ passed (created + Window) g)).
  { intros g2. destruct (CreationTimestamp (Meta record)) as [created|]; [|by intros ?]. cbn zeta.
    split; [done|]. intros now g3 ->. cbn [pbind wp fact_of]. intros b' Hok. destruct (now <? _) eqn:E; [done|]. bool_prop.
    injection Hok as <-. split; [done|]. exists created. split; [done|].
    split; exists now; (split; [apply list_elem_of_here|lia]). }
  eapply wp_mono; [|eapply (wp_monotone _ _ K); [exact HK|exact Hr|]].
  2: { eapply ensures_then; [|apply CheckUnpinned_ensures|]; [auto with ptah|].
       eapply ensures_then; [|apply requireJobAbsent_ensures|exact Hrest]. auto with ptah. }
  cbn beta. intros r0 g2 [Hres HK2] b' ->. destruct (Hres b' eq_refl) as (Hu & Hj & -> & created & Hc & Hp1 & Hp2).
  split; [done|]. split; [done|]. exists root. split; [by exists deleted, created|].
  destruct HK2 as [(-> & Hch & ->)|(-> & Href)]; [by left|]. right. split; [|done]. by destruct Em; bool_prop.
Qed.

(** Whose evidence the record is, and why it may go. *)
Definition belongs (record : PtahResultRecord) (b : Binding) : Prop :=
  RootBinding (Some record) = Ok b \/ MemberOf (Some record) b = true.
Definition known (r : PtahResultRecord) (g : list fact) : Prop := exists key, FRecord key (Ok r) ∈ g.
Definition due_by (record : PtahResultRecord) (b : Binding) (g : list fact) : Prop :=
  (exists marker, (marker = record /\ Type_ record = "retired" \/ known marker g) /\ retired_by record marker b g) \/
  (exists root, (root = record \/ known root g) /\ foreground_of record root b g).

Lemma monotone_passed_le t t' g : t' <= t -> passed t g -> passed t' g.
Proof. intros Hle (now & Hn & Ht). exists now. split; [done|lia]. Qed.

Lemma authorizeForeground_ensures record :
  ensures (authorizeForeground StoredRecordIdentity Window record)
    (fun _ g => exists b, belongs record b /\ cleared record b g /\ due_by record b g /\
       exists created, CreationTimestamp (Meta record) = Some created /\ passed (created + Window) g).
Proof.
  intros g. unfold authorizeForeground. apply wp_bind. eapply wp_mono; [|apply foregroundBinding_ensures].
  intros [b|e] g1 H; [|by intros ?]. destruct (H b eq_refl) as (Hu & Hj & root & Hfg & Hroot). clear H.
  set (K := fun g : list fact => unpinned b g /\ job_gone b g /\ foreground_of record root b g /\ (root = record \/ known root g)).
  assert (HK : monotone K).
  { intros f g' (H1 & H2 & (deleted & created & F1 & F2 & F3 & F4 & F5 & F6 & F7) & H4). unfold K. repeat split.
    - by apply monotone_unpinned.
    - by apply monotone_job_gone.
    - exists deleted, created. split_and!; try done; by apply monotone_passed.
    - destruct H4 as [?|[key Hk]]; [by left|]. right. exists key. by right. }
  assert (HK1 : K g1).
  { unfold K. split_and!; [done..|]. destruct Hroot as [[_ ->]|(_ & ref & _ & _ & Hin)]; [by left|]. right. by eexists. }
  eapply wp_mono; [|eapply (wp_monotone _ _ K); [exact HK|exact HK1|apply deletionOrder_ensures]].
  intros r g2 [Ho (Hu2 & Hj2 & Hfg2 & Hk2)] [] ->. exists b. split; [|split; [|split]].
  - destruct Hroot as [[_ ->]|(Hm & _)]; [left; by destruct Hfg as (? & ? & ? & _)|by right].
  - split_and!; [done|done|by apply (Ho tt)].
  - right. by exists root.
  - destruct Hfg2 as (deleted & created & _ & _ & _ & _ & Hc & _ & Hp). eauto.
Qed.

Lemma locate_marker_ensures record :
  ensures (locate_marker StoredRecordIdentity record) (fun located g => forall marker b, located = Some (marker, b) ->
    belongs record b /\ (marker = record /\ Type_ record = "retired" \/ known marker g)).
Proof.
  intros g. unfold locate_marker. destruct (is_child record).
  - destruct (child_ref record) as [ref|]; [|by intros ?]. split; [done|]. intros x g1 ->. cbn [pbind wp fact_of].
    intros located Hok marker b ->. destruct x as [m|[]]; try discriminate.
    destruct (Decode (Some m)) as [r|]; [|done]. destruct (MemberOf _ _) eqn:Em; [|done]. injection Hok as <- <-.
    split; [by right|]. right. eexists. apply list_elem_of_here.
  - destruct (ResultCleanup.RootBinding _ _) as [b|] eqn:Eb; [|by intros ?]. case_bool_decide as Et.
    { cbn. intros located [= <-] marker b' [= <- <-]. split; [by left|]. by left. }
    destruct (Name b) as [name|]; [|by intros ?]. split; [done|]. intros x g1 ->. cbn [pbind wp fact_of].
    intros located Hok marker b' ->. destruct x as [m|[]]; try discriminate. injection Hok as <- <-.
    split; [by left|]. right. eexists. apply list_elem_of_here.
Qed.
End verdict.

(** * Properties *)

(** C24: Evidence is deleted only when nothing can need it. Whatever the API
    server and the clock answer, when [AuthorizeDelete] allows the deletion of
    a record there is a binding the record belongs to such that, by the
    answers this very verdict was given: the record has outlived the window;
    a marker that retires this binding, and the record, have outlived the
    longer of the policy's and the marker's window, or the record's root has
    been in foreground deletion for a whole window; the owning resource is
    gone or pins no operation of the attempt; the attempt's Job is gone or
    replaced; and every record that depends on this one is already absent. *)
Theorem delete_only_when_due (StoredRecordIdentity : PtahResultRecord -> option Binding) (Window : Z)
    (record : PtahResultRecord) (g : list fact) :
  exec answers (AuthorizeDelete StoredRecordIdentity Window (Some record)) [] (Ok tt) g ->
  MinimumWindow <= Window /\
  exists b, belongs StoredRecordIdentity record b /\
    (exists created, CreationTimestamp (Meta record) = Some created /\ passed (created + Window) g) /\
    due_by StoredRecordIdentity Window record b g /\
    unpinned b g /\ job_gone b g /\ ordered record b g.
Proof.
  intros Hex. cbn [AuthorizeDelete] in Hex. destruct (_ || _) eqn:Eg; [by destruct Hex|]. bool_prop. split; [done|].
  apply exec_bind in Hex as ([ends|] & g1 & _ & Hex); [by destruct Hex|].
  apply exec_bind in Hex as (located & g2 & Hloc & Hex).
  pose proof (wp_exec fact_spec answers (fun _ _ _ _ _ _ H => H) _ _ _ _ _ Hloc (locate_marker_ensures StoredRecordIdentity record g1)) as Hl.
  destruct located as [[[marker b]|]|e]; [| |by destruct Hex].
  - destruct (Hl _ eq_refl marker b eq_refl) as [Hb Hm].
    set (K := fun g : list fact => marker = record /\ Type_ record = "retired" \/ known marker g).
    assert (HK : monotone K) by (intros f g' [?|[key Hk]]; [by left|right; exists key; by right]).
    pose proof (wp_exec fact_spec answers (fun _ _ _ _ _ _ H => H) _ _ _ _ _ Hex
      (wp_monotone _ _ K g2 HK Hm (authorize_retired_ensures StoredRecordIdentity Window record marker b g2))) as [Hr HKg].
    destruct (Hr tt eq_refl) as [Hret (Hu & Hj & Ho)]. exists b.
    pose proof Hret as (r & written & created & _ & _ & _ & _ & Hc & Hp & _).
    split_and!; [done| | |done|done|done].
    + exists created. split; [done|]. eapply monotone_passed_le; [|exact Hp]. unfold retention. lia.
    + left. by exists marker.
  - pose proof (wp_exec fact_spec answers (fun _ _ _ _ _ _ H => H) _ _ _ _ _ Hex
      (authorizeForeground_ensures StoredRecordIdentity Window record g2) tt eq_refl) as (b & Hb & (Hu & Hj & Ho) & Hdue & Hc).
    exists b. by split_and!.
Qed.

(** ** Bounds of a step *)

(** The number of deletions that were sent. *)
Definition counted (X : Type) (e : evidenceE X) (n : nat) (x : X) (n' : nat) : Prop :=
  n' = match e with DeleteRecord _ _ => S n | _ => n end.
Definition count_spec : espec evidenceE nat := {| pre := fun _ _ _ => True; post := counted |}.

(** A program that deletes nothing. *)
Fixpoint no_delete {A} (p : prog evidenceE A) : Prop :=
  match p with
  | Ret _ => True
  | Vis e k => match e with DeleteRecord _ _ => False | _ => True end /\ forall x, no_delete (k x)
  end.

Lemma no_delete_bind {A B} (p : prog evidenceE A) (f : A -> prog evidenceE B) :
  no_delete p -> (forall a, no_delete (f a)) -> no_delete (pbind p f).
Proof.
  intros Hp Hf. induction p as [a|X e k IH]; cbn; [apply Hf|]. destruct Hp as [He Hk]. split; [done|]. intros x. by apply IH.
Qed.

Lemma no_delete_wp {A} (p : prog evidenceE A) n : no_delete p -> wp count_spec p (fun _ n' => n' = n) n.
Proof.
  induction p as [a|X e k IH]; cbn; [done|]. intros [He Hk]. split; [done|]. intros x n' ->. destruct e; try done; by apply IH.
Qed.

(** Follow a program of reads through its branches. *)
Ltac quiet :=
  repeat first
    [ exact I | assumption
    | match goal with
      | |- no_delete (Ret _) => exact I
      | |- no_delete (call _) => split; [exact I|intros ?; exact I]
      | |- no_delete (pbind _ _) => apply no_delete_bind; [|intros ?]
      | |- no_delete (then_ _ _) => unfold then_
      | |- no_delete (match ?x with _ => _ end) => destruct x
      | |- no_delete (let '(_, _) := ?x in _) => destruct x
      end ].

Lemma quiet_unpinned b : no_delete (CheckUnpinned b).
Proof. unfold CheckUnpinned. quiet. Qed.
Lemma quiet_member_pages name ns legacy pages : forall cont found, no_delete (member_pages name ns legacy pages cont found).
Proof. induction pages as [|pages IH]; intros cont found; cbn [member_pages]; quiet. apply IH. Qed.
Lemma quiet_members b : no_delete (members b).
Proof. unfold members. quiet; apply quiet_member_pages. Qed.
Lemma quiet_job b : no_delete (requireJobAbsent b).
Proof. unfold requireJobAbsent. quiet. Qed.
Lemma quiet_eligible m now w : no_delete (Eligible m now w).
Proof. unfold Eligible. quiet. apply quiet_unpinned. Qed.

Section step.
Context (StoredRecordIdentity : PtahResultRecord -> option Binding) (Window : Z).
Abbreviation P f := (f StoredRecordIdentity Window).

Lemma quiet_foreground r : no_delete (P foregroundBinding r).
Proof.
  unfold foregroundBinding, foreground_root. quiet; first [apply quiet_unpinned|apply quiet_job].
Qed.
Lemma quiet_foreground_retirement r : no_delete (P AuthorizeForegroundRetirement r).
Proof. unfold AuthorizeForegroundRetirement. quiet; first [apply quiet_unpinned|apply quiet_job]. Qed.
Lemma quiet_retire r b name : no_delete (retire Window r b name).
Proof. unfold retire. quiet. Qed.
Lemma quiet_defer c key t : no_delete (deferUntil c key t).
Proof. unfold deferUntil. quiet. Qed.
Lemma quiet_due c m : no_delete (due Window c m).
Proof. unfold due. quiet. Qed.

(** What a part of a step does to the collector: it spends its budget on
    deletions and keeps its hints within their limit. *)
Definition bounded (c : Collector) (n : nat) (c' : Collector) (n' : nat) : Prop :=
  (forall k, deleteBudget c = Some k -> exists k', deleteBudget c' = Some k' /\ (n' + k' = n + k)%nat) /\
  (Z.of_nat (size (next c)) <= maxRetryHints -> Z.of_nat (size (next c')) <= maxRetryHints).

Lemma bounded_refl c n : bounded c n c n.
Proof. split; eauto. Qed.
Lemma bounded_trans c1 n1 c2 n2 c3 n3 : bounded c1 n1 c2 n2 -> bounded c2 n2 c3 n3 -> bounded c1 n1 c3 n3.
Proof.
  intros [B1 H1] [B2 H2]. split; [|auto]. intros k Hk. destruct (B1 k Hk) as (k2 & Hk2 & E2). destruct (B2 k2 Hk2) as (k3 & Hk3 & E3).
  exists k3. split; [done|lia].
Qed.

(** A program that threads the collector. *)
Definition stays {A} (c : Collector) (p : prog evidenceE (Collector * A)) : Prop :=
  forall n, wp count_spec p (fun r n' => bounded c n r.1 n') n.
Definition stays0 (c : Collector) (p : prog evidenceE Collector) : Prop :=
  forall n, wp count_spec p (fun c' n' => bounded c n c' n') n.

Lemma stays_ret {A} c (a : A) : stays c (Ret (c, a)).
Proof. intros n. apply bounded_refl. Qed.
Lemma stays_quiet {A B} c (p : prog evidenceE A) (f : A -> prog evidenceE (Collector * B)) :
  no_delete p -> (forall a, stays c (f a)) -> stays c (pbind p f).
Proof. intros Hp Hf n. apply wp_bind. eapply wp_mono; [|by apply no_delete_wp]. intros a n' ->. apply Hf. Qed.
Lemma stays_bind {A B} c (p : prog evidenceE (Collector * A)) (f : Collector * A -> prog evidenceE (Collector * B)) :
  stays c p -> (forall c' a, stays c' (f (c', a))) -> stays c (pbind p f).
Proof.
  intros Hp Hf n. apply wp_bind. eapply wp_mono; [|apply Hp]. intros [c' a] n1 H1. eapply wp_mono; [|apply Hf].
  intros r n2 H2. by eapply bounded_trans.
Qed.
Lemma stays_bind0 {B} c (p : prog evidenceE Collector) (f : Collector -> prog evidenceE (Collector * B)) :
  stays0 c p -> (forall c', stays c' (f c')) -> stays c (pbind p f).
Proof.
  intros Hp Hf n. apply wp_bind. eapply wp_mono; [|apply Hp]. intros c' n1 H1. eapply wp_mono; [|apply Hf].
  intros r n2 H2. by eapply bounded_trans.
Qed.

Lemma stays_defer c key t : stays0 c (deferUntil c key t).
Proof.
  intros n. unfold deferUntil. apply wp_bind.
  assert (Hafter : forall c1 n1, bounded c n c1 n1 -> bounded c n (if Z.of_nat (size (next c1)) <? maxRetryHints then with_next c1 (<[key:=t]> (next c1)) else c1) n1).
  { intros c1 n1 H1. eapply bounded_trans; [exact H1|]. destruct (_ <? _) eqn:E; [|apply bounded_refl]. bool_prop.
    split; [eauto|]. cbn [next with_next]. intros _. destruct (next c1 !! key) eqn:Ek.
    - rewrite map_size_insert_Some by eauto. lia.
    - rewrite map_size_insert_None by done. lia. }
  destruct (_ <=? _).
  - split; [done|]. intros now n1 ->. cbn [pbind wp]. apply Hafter. split; [eauto|]. cbn [next with_next].
    intros H. etrans; [|exact H]. apply inj_le, map_size_filter.
  - cbn [wp]. apply Hafter, bounded_refl.
Qed.

Lemma stays_delete c m o : stays c (deleteRecord c m o).
Proof.
  intros n. unfold deleteRecord. destruct (deleteBudget c) as [[|k]|] eqn:E; [apply bounded_refl|..].
  - split; [done|]. intros x n' ->. cbn [pbind wp fst]. split; [|done]. intros k0 Hk. rewrite E in Hk. injection Hk as <-.
    exists k. split; [done|lia].
  - split; [done|]. intros x n' ->. cbn [pbind wp fst]. split; [|done]. intros k0 Hk. by rewrite E in Hk.
Qed.

Lemma stays_after_delay c key : stays0 c (after_delay c key).
Proof. intros n. split; [done|]. intros now n' ->. apply stays_defer. Qed.
Lemma stays0_ret c : stays0 c (Ret c).
Proof. intros n. apply bounded_refl. Qed.

Lemma stays_removeMetadata c m : stays c (removeMetadata c m).
Proof.
  unfold removeMetadata. destruct (_ || _); [apply stays_ret|]. destruct (foregroundDeleting m); [apply stays_ret|].
  apply stays_bind; [apply stays_delete|]. intros c' err.
  assert (Hok : stays c' (c0 <-- (if bool_decide (label m LabelRecord = "intent") || bool_decide (label m LabelRecord = "retired")
             then after_delay c' (uid_hint (MetaUID m)) else Ret c');
      c1 <-- (if is_credential m then after_delay c0 (credential_hint (meta_key m)) else Ret c0);
      Ret (c1, @Ok ev_error unit tt))).
  { apply stays_bind0; [destruct (_ || _); [apply stays_after_delay|apply stays0_ret]|]. intros c1.
    apply stays_bind0; [destruct (is_credential m); [apply stays_after_delay|apply stays0_ret]|]. intros c2. apply stays_ret. }
  destruct err as [[]|[]]; try apply stays_ret; try exact Hok. destruct e; try apply stays_ret. exact Hok.
Qed.

Lemma stays_remove c key : stays c (remove c key).
Proof.
  apply stays_quiet; [quiet|]. intros [r|[]]; try apply stays_ret. apply stays_removeMetadata.
Qed.

Lemma stays_in_order actions : Forall (fun act => forall c, stays c (act c)) actions -> forall c, stays c (in_order c actions).
Proof.
  induction 1 as [|act actions Ha _ IH]; intros c; cbn [in_order]; [apply stays_ret|].
  apply stays_bind; [apply Ha|]. intros c' [[]|e]; [apply IH|apply stays_ret].
Qed.

Lemma stays_collect c marker root b : stays c (collect StoredRecordIdentity c marker root b).
Proof.
  unfold collect. apply stays_quiet.
  { unfold same_intent. quiet; first [apply quiet_job|apply quiet_members]. }
  intros [found|e]; [|apply stays_ret]. apply stays_in_order.
  assert (Hroot : forall name c, stays c (remove_root root b name c)).
  { intros name c0. unfold remove_root. destruct (_ && _); [apply stays_removeMetadata|apply stays_remove]. }
  rewrite !Forall_app. split_and!.
  - apply Forall_fmap, Forall_true. intros m c0. apply stays_removeMetadata.
  - by repeat constructor.
  - destruct marker; [|constructor]. constructor; [|constructor]. intros c0. apply stays_removeMetadata.
Qed.

Lemma stays_process_marker c record marker b retry : stays c (P process_marker c record marker b retry).
Proof.
  unfold process_marker. destruct (Decode _) as [r|]; [|apply stays_ret]. destruct (CreationTimestamp _) as [written|]; [|apply stays_ret].
  destruct (_ || _); [apply stays_ret|]. apply stays_quiet; [quiet|]. intros now. destruct (_ <? _).
  - apply stays_bind0; [apply stays_defer|]. intros c'. apply stays_ret.
  - apply stays_quiet; [quiet|]. intros now2. apply stays_quiet; [apply quiet_eligible|]. intros [[]|e]; [|apply stays_ret].
    apply stays_bind; [apply stays_collect|]. intros c' err. apply stays_ret.
Qed.

Lemma stays_process c m : stays c (P process c m).
Proof.
  unfold process. apply stays_quiet; [quiet|]. intros now. cbn zeta. apply stays_quiet; [quiet|].
  intros [record|[]]; try apply stays_ret. destruct (negb _); [apply stays_ret|].
  destruct (RootBinding _ _) as [b|]; [|apply stays_ret]. apply stays_quiet; [quiet|].
  intros [marker|[]]; try apply stays_ret; [apply stays_process_marker|]. destruct (negb _).
  - apply stays_quiet; [apply quiet_foreground|]. intros [?|?]; [|apply stays_ret].
    apply stays_bind; [apply stays_collect|]. intros c' err. apply stays_ret.
  - apply stays_quiet; [apply quiet_unpinned|]. intros [[]|?]; [|apply stays_ret].
    apply stays_quiet; [apply quiet_retire|]. intros [[marker|]|?]; [apply stays_process_marker| |apply stays_ret].
    apply stays_quiet; [apply quiet_foreground_retirement|]. intros [[]|?]; [|apply stays_ret].
    apply stays_bind; [apply stays_delete|]. intros c' err. apply stays_ret.
Qed.

Lemma stays_pending {A} c l (a : A) : stays c (Ret (with_pending c l, a)).
Proof. intros n. split; eauto. Qed.

Lemma stays_drain page : forall c failures, stays c (P drain c page failures).
Proof.
  induction page as [|m page IH]; intros c failures; cbn [drain]; [apply stays_pending|].
  apply stays_quiet; [quiet|]. intros [|]; [apply stays_pending|].
  assert (Hgo : stays c (key <-- due Window c m;
    match key with
    | None => P drain c page failures
    | Some key =>
        done <-- P process c m;
        let '(c, (until, err)) := done in
        match err with
        | Err ErrDeleteBudget => Ret (with_pending c (m :: page), failures)
        | _ =>
            c <-- deferUntil c key until;
            P drain c page (match err with
                            | Err e => if retained e then failures else failures ++ [e]
                            | Ok _ => failures
                            end)
        end
    end)).
  { apply stays_quiet; [apply quiet_due|]. intros [key|]; [|apply IH].
    apply stays_bind; [apply stays_process|]. intros c' [until err].
    assert (Hnext : forall fs, stays c' (c0 <-- deferUntil c' key until; P drain c0 page fs))
      by (intros fs; apply stays_bind0; [apply stays_defer|intros c0; apply IH]).
    destruct err as [[]|[]]; first [apply Hnext|apply stays_pending]. }
  destruct (deleteBudget c) as [[|k]|]; [apply stays_pending|exact Hgo..].
Qed.
End step.

(** C33: a step of the collector is bounded. However the API server and the
    clock answer, a [Step] sends at most [maxDeletesPerStep] deletions, the
    budget is withdrawn when it returns, and the retry hints never outgrow
    [maxRetryHints]. *)
Theorem step_bounded (StoredRecordIdentity : PtahResultRecord -> option Binding) (Window : Z)
    (c c' : Collector) (failures : list ev_error) (deletions : nat) :
  exec counted (Step StoredRecordIdentity Window c) 0%nat (c', failures) deletions ->
  (deletions <= maxDeletesPerStep)%nat /\ deleteBudget c' = None /\
  (Z.of_nat (size (next c)) <= maxRetryHints -> Z.of_nat (size (next c')) <= maxRetryHints).
Proof.
  assert (Hf : stays (with_budget c (Some maxDeletesPerStep)) (fetch (with_budget c (Some maxDeletesPerStep)))).
  { unfold fetch. destruct (pending _); [|apply stays_ret]. intros n. split; [done|]. intros x n' ->. cbn [pbind wp].
    destruct x as [[items cont]|[]]; cbn [fst]; split; eauto. }
  intros H. unfold Step in H. apply exec_bind in H as ([c1 failed] & n1 & H1 & H2).
  pose proof (wp_exec count_spec counted (fun _ _ _ _ _ _ H => H) _ _ _ _ _ H1 (Hf O)) as [B1 S1]. cbn [fst] in *.
  destruct (B1 _ eq_refl) as (k1 & Hk1 & E1).
  destruct failed as [e|].
  - destruct H2 as [[= -> ->] ->]. split_and!; [lia|done|exact S1].
  - apply exec_bind in H2 as ([c2 fs] & n2 & H2 & H3).
    pose proof (wp_exec count_spec counted (fun _ _ _ _ _ _ H => H) _ _ _ _ _ H2 (stays_drain StoredRecordIdentity Window (pending c1) c1 [] n1)) as [B2 S2].
    cbn [fst] in *. destruct (B2 _ Hk1) as (k2 & Hk2 & E2). destruct H3 as [[= -> ->] ->]. split_and!; [lia|done|]. cbn [next with_budget]. auto.
Qed.

(** ** Markers *)

Lemma valid_source_length r : validSource r = true ->
  len (SourceName (RetirementSource r)) <= 256 /\ len (SourceType (RetirementSource r)) <= 256.
Proof.
  unfold validSource. intros [_ H]%andb_true_iff. apply orb_true_iff in H as [H|H]; apply andb_true_iff in H as [Ht Hn]; bool_prop.
  - rewrite Ht, Hn. split; [|done]. unfold credential_name, CredentialName, len. rewrite str_app_length, hex_encode_length, length_take.
    change (String.length SecretPrefix) with 16%nat. lia.
  - rewrite Ht. split; [|done]. destruct (ResultStore.Name _) as [name|] eqn:En; [|done]. bool_prop. rewrite Hn.
    unfold ResultStore.Name in En. destruct (validate _); [|done]. cbn [rbind] in En. unfold AttemptName in En.
    destruct (_ || _); [done|]. destruct (existsb _ _); [done|]. injection En as <-. unfold len. rewrite !str_app_length, hex_encode_length, sha256_length.
    change (String.length EmptyString) with 0%nat.
    change (String.length "ptah-result-") with 12%nat. lia.
Qed.

Lemma retirement_fits r : validSource r = true -> validate (RetirementBinding r) = Ok tt -> retirement_valid r = true ->
  len (SourceUID (RetirementSource r)) <= 256 -> zlen (marshal (retirement_json r)) <= ChunkBytes.
Proof.
  intros Hs Hv Hok Hu. destruct (valid_source_length r Hs) as [Hn Ht]. apply validate_bounded, binding_cost in Hv.
  change ChunkBytes with 524288. etrans; [apply encode_cost|].
  - unfold retirement_valid in Hok. bool_prop. unfold retirement_json, binding_json, source_json.
    cbn [json_int64 forallb snd]. by repeat match goal with H : in_int64 _ = true |- _ => rewrite H end.
  - unfold retirement_json, source_json. cbn [doc_cost foldr fst snd]. eval_keys.
    pose proof (str_cost_bound (SourceName (RetirementSource r))). pose proof (str_cost_bound (SourceUID (RetirementSource r))).
    pose proof (str_cost_bound (SourceType (RetirementSource r))). lia.
Qed.

(** What decodes as a marker names its own binding, source and window. *)
Definition marker_of (record : PtahResultRecord) (r : Retirement) : Prop :=
  Data record = marshal (retirement_json r) /\ MinimumWindow <= RetentionSeconds r * second <= max_duration /\
  MetaNamespace (Meta record) = Namespace (RetirementBinding r) /\ Name (RetirementBinding r) = Ok (MetaName (Meta record)) /\
  validSource r = true.

Lemma Decode_marker record r : Decode (Some record) = Ok r -> marker_of record r.
Proof.
  cbn [Decode]. destruct (_ || _); [done|]. destruct (canonicalRecord _) as [r'|] eqn:Ec; [|done].
  destruct (_ || _ || _) eqn:Eg; [done|]. destruct (Record_ _ _ _) as [want|] eqn:Er; [|done].
  destruct (_ || _ || _ || _ || _ || _ || _) eqn:Em; [done|]. destruct (_ && _); [done|]. intros [= <-].
  apply canonicalRecord_marshal in Ec. bool_prop. change (Z.quot MinimumWindow second) with 3600 in *.
  change (Z.quot max_duration second) with 9223372036 in *.
  unfold Record_ in Er. destruct (Name _) as [name|] eqn:En; [|done]. destruct (_ || _) in Er; [done|].
  destruct (negb (validSource _)) eqn:Ev in Er; [done|]. injection Er as <-. bool_prop. cbn [Meta new_meta MetaName MetaNamespace] in *.
  unfold marker_of. change MinimumWindow with 3600000000000. change max_duration with 9223372036854775807. change second with 1000000000 in *.
  split_and!; [done|lia|lia|done|congruence|]. rewrite Z.quot_mul in Ev by done. destruct r' as [v b s t]. cbn in *. congruence.
Qed.

(** A retirement marker says what it was written to say. The marker
    [Record] builds for a binding, a source and a window decodes to exactly
    that retirement, and whatever decodes as a marker is stored under the
    name of the attempt it retires, in its namespace, from a source of that
    attempt, for at least [MinimumWindow]. *)
Theorem retirement_roundtrip (b : Binding) (source : Source) (window : Z) (marker : PtahResultRecord) :
  let r := {| RetirementVersion := 1; RetirementBinding := b; RetirementSource := source;
              RetentionSeconds := Z.quot window second |} in
  in_int64 (Generation b) = true -> json_utf8 (retirement_json r) = true -> len (SourceUID source) <= 256 ->
  window <= max_duration -> Record_ b source window = Ok marker ->
  Decode (Some marker) = Ok r /\ (forall record r', Decode (Some record) = Ok r' -> marker_of record r').
Proof.
  intros r Hg Hu Hlen Hmax Hrec. split; [|apply Decode_marker].
  pose proof Hrec as H. unfold Record_ in H. destruct (Name b) as [name|] eqn:En; [|done].
  destruct (_ || _) eqn:Ew in H; [done|]. fold r in H. destruct (negb (validSource r)) eqn:Ev in H; [done|]. bool_prop. injection H as Hm.
  assert (Hw : window = RetentionSeconds r * second).
  { cbn. rewrite Z.mul_comm. pose proof (Z.quot_rem' window second). lia. }
  assert (Hbounds : 3600 <= RetentionSeconds r <= 9223372036).
  { change MinimumWindow with 3600000000000 in *. change max_duration with 9223372036854775807 in *. change second with 1000000000 in *. lia. }
  assert (Hval : retirement_valid r = true).
  { unfold retirement_valid. change (RetirementBinding r) with b. change (RetirementVersion r) with 1. rewrite Hg. unfold in_int64. apply andb_true_iff. split; [|done].
    apply andb_true_iff. split; [done|]. apply andb_true_iff. lia. }
  assert (Hval' : validate b = Ok tt).
  { unfold Name, ResultStore.Name in En. by destruct (validate b) as [[]|]. }
  assert (Hc : canonicalRecord (marshal (retirement_json r)) = Some r) by (exact (canonical_marshal r Hval Hu)).
  pose proof (retirement_fits r Ev Hval' Hval Hlen) as Hfit.
  cbn [Decode]. replace (Data marker) with (marshal (retirement_json r)) by (by rewrite <- Hm).
  replace (Type_ marker) with "retired"%string by (by rewrite <- Hm). rewrite bool_decide_eq_true_2 by done.
  assert (Hb : bad_size (marshal (retirement_json r)) = false).
  { unfold bad_size. destruct (marshal_first true (retirement_json r)) as (x & t & E & _). rewrite E in *.
    apply orb_false_iff. split; [apply Z.eqb_neq; unfold zlen; cbn [length]; lia|by apply Z.ltb_ge]. }
  rewrite Hb, Hc. cbn [negb orb]. change (RetirementVersion r) with 1. cbn [Z.eqb Pos.eqb negb orb].
  change (Z.quot MinimumWindow second) with 3600. change (Z.quot max_duration second) with 9223372036.
  rewrite (proj2 (Z.ltb_ge _ _)), (proj2 (Z.ltb_ge 9223372036 _)) by lia. cbn [orb].
  change (RetirementBinding r) with b. change (RetirementSource r) with source. rewrite <- Hw, Hrec.
  replace (Data marker) with (marshal (retirement_json r)) by (by rewrite <- Hm).
  rewrite !bool_decide_eq_true_2 by (done || by rewrite <- Hm). cbn [negb orb andb]. done.
Qed.

(** ** A retired attempt *)

Definition sample_source : Source := {| SourceName := sample_name; SourceUID := "uid-intent"; SourceType := "intent" |}.
Definition sample_marker : PtahResultRecord := Eval vm_compute in
  match Record_ sample_binding sample_source hour with
  | Ok m => created m "uid-marker"
  | Err _ => record "none" "none" "none" (owner "none" "none" "none" "none") []
  end.

(** A server on which only the marker is left, at a fixed time. *)
Definition serve_marker (now : Z) (X : Type) (e : evidenceE X) : X :=
  match e in evidenceE X return X with
  | ReadRecord key => if bool_decide (key = record_key sample_marker) then Ok sample_marker else Err NotFound
  | ReadSchema _ => Err NotFound
  | ReadMigration _ => Err NotFound
  | ReadJob _ => Err NotFound
  | ListMembers _ => Ok ([], EmptyString)
  | ScanRecords q => Ok (if ScanCredentials q then [] else [Meta sample_marker], EmptyString)
  | CreateMarker _ => Err (CreateFailed AlreadyExists)
  | DeleteRecord _ _ => Ok tt
  | Now => now
  | ContextErr => false
  end.
Definition serve_facts (now : Z) (X : Type) (e : evidenceE X) (g : list fact) : X * list fact :=
  (serve_marker now X e, fact_of X e (serve_marker now X e) :: g).
Definition serve_count (now : Z) (X : Type) (e : evidenceE X) (n : nat) : X * nat :=
  (serve_marker now X e, match e with DeleteRecord _ _ => S n | _ => n end).

Lemma retirement_roundtrip_witness :
  exists marker, Decode (Some marker) = Ok {| RetirementVersion := 1; RetirementBinding := sample_binding;
    RetirementSource := sample_source; RetentionSeconds := 3600 |}.
Proof.
  destruct (Record_ sample_binding sample_source hour) as [marker|] eqn:E; [|vm_compute in E; discriminate E].
  exists marker. apply (retirement_roundtrip sample_binding sample_source hour marker); [done|by vm_compute|by vm_compute|by vm_compute|exact E].
Defined.

Lemma delete_only_when_due_witness :
  let g := (run (serve_facts (3 * hour)) (AuthorizeDelete (fun _ => None) hour (Some sample_marker)) []).2 in
  exists b, unpinned b g /\ job_gone b g /\ ordered sample_marker b g.
Proof.
  set (g := (run _ _ _).2). cbn zeta.
  destruct (delete_only_when_due (fun _ => None) hour sample_marker g) as [_ (b & _ & _ & _ & H)]; [|by exists b].
  assert (E : (run (serve_facts (3 * hour)) (AuthorizeDelete (fun _ => None) hour (Some sample_marker)) []).1 = Ok tt) by (vm_compute; reflexivity).
  rewrite <- E. subst g. apply (exec_mono (deterministic (serve_facts (3 * hour)))); [|apply run_exec].
  intros X e s x s' H. by injection H as <- <-.
Defined.

Definition idle : Collector :=
  {| query := false; continuation := EmptyString; pending := []; next := ∅; deleteBudget := None |}.

Lemma step_bounded_witness :
  let stepped := run (serve_count (3 * hour)) (Step (fun _ => None) hour idle) 0%nat in
  stepped.2 = 1%nat /\ (stepped.2 <= maxDeletesPerStep)%nat /\ deleteBudget stepped.1.1 = None.
Proof.
  set (stepped := run _ _ _). cbn zeta. split; [vm_compute; reflexivity|].
  destruct (step_bounded (fun _ => None) hour idle stepped.1.1 stepped.1.2 stepped.2) as (H1 & H2 & _); [|exact (conj H1 H2)].
  rewrite <- surjective_pairing. subst stepped. apply (exec_mono (deterministic (serve_count (3 * hour)))); [|apply run_exec].
  intros X e s x s' H. by injection H as <- <-.
Defined.
