(* ===== verification/LifecycleJournal.v ===== *)
(** * The lifecycle journal (package [internal/lifecyclejournal])

    Every status write derives the events it records from the status before
    and after it ([SchemaEntries], [MigrationEntries]) and adds them to a
    bounded journal ([Record]). Instants are nanoseconds; a [metav1.Time] that
    is a pointer is an [option]. The status records keep the fields this
    package reads. The conditions of a status are [k8s.io/apimachinery]'s: their
    type, [meta.FindStatusCondition] and [meta.IsStatusConditionTrue] are
    parameters. *)
From stdpp Require Import base list gmap strings.
From Stdlib Require Import ZArith Lia Ascii.
From S2P Require Import Prelude GoStrings Json TargetLock.
Local Open Scope Z_scope.

(** ** Entries ([api/v1alpha1/journal_types.go]) *)

Inductive JournalEntryType : Type :=
| JournalPlanPublished | JournalApprovalAccepted | JournalApplyFinished | JournalVerified
| JournalRunFinished | JournalRunAcknowledged | JournalOperationFailed.
#[export] Instance JournalEntryType_eq_dec : EqDecision JournalEntryType.
Proof. solve_decision. Defined.

Inductive JournalOutcome : Type :=
| JournalSucceeded | JournalFailed | JournalPartial | JournalUnknown | JournalUpToDate
| JournalInSync | JournalDriftRemains | JournalSuperseded | JournalPending | JournalBlocked.

Record MigrationRunFailureStatus : Type := {
  FailureVersion : Z;
  FailureStatement : Z;
  FailureStatements : Z;
  SQLState : string;
  ErrorNumber : Z;
}.

Record JournalEntry : Type := {
  EntryType : JournalEntryType;
  At : Z;
  StartedAt : option Z;
  LastAt : option Z;
  Count : Z;
  OperationID : string;
  Plan : string;
  PlanUID : string;
  PlanFingerprint : string;
  Statements : Z;
  Destructive : bool;
  ApprovalRequired : bool;
  Replaced : string;
  Authorization : string;
  Approval : string;
  ApprovalUID : string;
  Approver : string;
  Outcome : option JournalOutcome;
  Operation : string;
  Reason : string;
  JobName : string;
  JobUID : string;
  AppliedVersions : Z;
  Failure : option MigrationRunFailureStatus;
  Acknowledgment : string;
  AcknowledgedBy : string;
}.

(** A composite literal with the given type and time, every other field zero. *)
Definition newEntry (t : JournalEntryType) (at_ : Z) : JournalEntry :=
  {| EntryType := t; At := at_; StartedAt := None; LastAt := None; Count := 0; OperationID := EmptyString;
     Plan := EmptyString; PlanUID := EmptyString; PlanFingerprint := EmptyString; Statements := 0;
     Destructive := false; ApprovalRequired := false; Replaced := EmptyString; Authorization := EmptyString;
     Approval := EmptyString; ApprovalUID := EmptyString; Approver := EmptyString; Outcome := None;
     Operation := EmptyString; Reason := EmptyString; JobName := EmptyString; JobUID := EmptyString;
     AppliedVersions := 0; Failure := None; Acknowledgment := EmptyString; AcknowledgedBy := EmptyString |}.

(** Assignments of fields. *)
Definition with_started (startedAt_ : option Z) (e : JournalEntry) : JournalEntry :=
  {| EntryType := EntryType e; At := At e; StartedAt := startedAt_; LastAt := LastAt e; Count := Count e;
     OperationID := OperationID e; Plan := Plan e; PlanUID := PlanUID e; PlanFingerprint := PlanFingerprint e;
     Statements := Statements e; Destructive := Destructive e; ApprovalRequired := ApprovalRequired e;
     Replaced := Replaced e; Authorization := Authorization e; Approval := Approval e;
     ApprovalUID := ApprovalUID e; Approver := Approver e; Outcome := Outcome e; Operation := Operation e;
     Reason := Reason e; JobName := JobName e; JobUID := JobUID e; AppliedVersions := AppliedVersions e;
     Failure := Failure e; Acknowledgment := Acknowledgment e; AcknowledgedBy := AcknowledgedBy e |}.
Definition with_fold (lastAt_ : option Z) (count_ : Z) (e : JournalEntry) : JournalEntry :=
  {| EntryType := EntryType e; At := At e; StartedAt := StartedAt e; LastAt := lastAt_; Count := count_;
     OperationID := OperationID e; Plan := Plan e; PlanUID := PlanUID e; PlanFingerprint := PlanFingerprint e;
     Statements := Statements e; Destructive := Destructive e; ApprovalRequired := ApprovalRequired e;
     Replaced := Replaced e; Authorization := Authorization e; Approval := Approval e;
     ApprovalUID := ApprovalUID e; Approver := Approver e; Outcome := Outcome e; Operation := Operation e;
     Reason := Reason e; JobName := JobName e; JobUID := JobUID e; AppliedVersions := AppliedVersions e;
     Failure := Failure e; Acknowledgment := Acknowledgment e; AcknowledgedBy := AcknowledgedBy e |}.
Definition with_operation_id (operationID_ : string) (e : JournalEntry) : JournalEntry :=
  {| EntryType := EntryType e; At := At e; StartedAt := StartedAt e; LastAt := LastAt e; Count := Count e;
     OperationID := operationID_; Plan := Plan e; PlanUID := PlanUID e; PlanFingerprint := PlanFingerprint e;
     Statements := Statements e; Destructive := Destructive e; ApprovalRequired := ApprovalRequired e;
     Replaced := Replaced e; Authorization := Authorization e; Approval := Approval e;
     ApprovalUID := ApprovalUID e; Approver := Approver e; Outcome := Outcome e; Operation := Operation e;
     Reason := Reason e; JobName := JobName e; JobUID := JobUID e; AppliedVersions := AppliedVersions e;
     Failure := Failure e; Acknowledgment := Acknowledgment e; AcknowledgedBy := AcknowledgedBy e |}.
Definition with_plan (plan_ : string) (planUID_ : string) (e : JournalEntry) : JournalEntry :=
  {| EntryType := EntryType e; At := At e; StartedAt := StartedAt e; LastAt := LastAt e; Count := Count e;
     OperationID := OperationID e; Plan := plan_; PlanUID := planUID_; PlanFingerprint := PlanFingerprint e;
     Statements := Statements e; Destructive := Destructive e; ApprovalRequired := ApprovalRequired e;
     Replaced := Replaced e; Authorization := Authorization e; Approval := Approval e;
     ApprovalUID := ApprovalUID e; Approver := Approver e; Outcome := Outcome e; Operation := Operation e;
     Reason := Reason e; JobName := JobName e; JobUID := JobUID e; AppliedVersions := AppliedVersions e;
     Failure := Failure e; Acknowledgment := Acknowledgment e; AcknowledgedBy := AcknowledgedBy e |}.
Definition with_plan_fingerprint (planFingerprint_ : string) (e : JournalEntry) : JournalEntry :=
  {| EntryType := EntryType e; At := At e; StartedAt := StartedAt e; LastAt := LastAt e; Count := Count e;
     OperationID := OperationID e; Plan := Plan e; PlanUID := PlanUID e; PlanFingerprint := planFingerprint_;
     Statements := Statements e; Destructive := Destructive e; ApprovalRequired := ApprovalRequired e;
     Replaced := Replaced e; Authorization := Authorization e; Approval := Approval e;
     ApprovalUID := ApprovalUID e; Approver := Approver e; Outcome := Outcome e; Operation := Operation e;
     Reason := Reason e; JobName := JobName e; JobUID := JobUID e; AppliedVersions := AppliedVersions e;
     Failure := Failure e; Acknowledgment := Acknowledgment e; AcknowledgedBy := AcknowledgedBy e |}.
Definition with_published (plan_ : string) (statements_ : Z) (destructive_ : bool) (approvalRequired_ : bool) (replaced_ : string) (e : JournalEntry) : JournalEntry :=
  {| EntryType := EntryType e; At := At e; StartedAt := StartedAt e; LastAt := LastAt e; Count := Count e;
     OperationID := OperationID e; Plan := plan_; PlanUID := PlanUID e; PlanFingerprint := PlanFingerprint e;
     Statements := statements_; Destructive := destructive_; ApprovalRequired := approvalRequired_;
     Replaced := replaced_; Authorization := Authorization e; Approval := Approval e;
     ApprovalUID := ApprovalUID e; Approver := Approver e; Outcome := Outcome e; Operation := Operation e;
     Reason := Reason e; JobName := JobName e; JobUID := JobUID e; AppliedVersions := AppliedVersions e;
     Failure := Failure e; Acknowledgment := Acknowledgment e; AcknowledgedBy := AcknowledgedBy e |}.
Definition with_authorization (authorization_ : string) (e : JournalEntry) : JournalEntry :=
  {| EntryType := EntryType e; At := At e; StartedAt := StartedAt e; LastAt := LastAt e; Count := Count e;
     OperationID := OperationID e; Plan := Plan e; PlanUID := PlanUID e; PlanFingerprint := PlanFingerprint e;
     Statements := Statements e; Destructive := Destructive e; ApprovalRequired := ApprovalRequired e;
     Replaced := Replaced e; Authorization := authorization_; Approval := Approval e;
     ApprovalUID := ApprovalUID e; Approver := Approver e; Outcome := Outcome e; Operation := Operation e;
     Reason := Reason e; JobName := JobName e; JobUID := JobUID e; AppliedVersions := AppliedVersions e;
     Failure := Failure e; Acknowledgment := Acknowledgment e; AcknowledgedBy := AcknowledgedBy e |}.
Definition with_approval (approval_ : string) (approvalUID_ : string) (e : JournalEntry) : JournalEntry :=
  {| EntryType := EntryType e; At := At e; StartedAt := StartedAt e; LastAt := LastAt e; Count := Count e;
     OperationID := OperationID e; Plan := Plan e; PlanUID := PlanUID e; PlanFingerprint := PlanFingerprint e;
     Statements := Statements e; Destructive := Destructive e; ApprovalRequired := ApprovalRequired e;
     Replaced := Replaced e; Authorization := Authorization e; Approval := approval_;
     ApprovalUID := approvalUID_; Approver := Approver e; Outcome := Outcome e; Operation := Operation e;
     Reason := Reason e; JobName := JobName e; JobUID := JobUID e; AppliedVersions := AppliedVersions e;
     Failure := Failure e; Acknowledgment := Acknowledgment e; AcknowledgedBy := AcknowledgedBy e |}.
Definition with_approver (approver_ : string) (e : JournalEntry) : JournalEntry :=
  {| EntryType := EntryType e; At := At e; StartedAt := StartedAt e; LastAt := LastAt e; Count := Count e;
     OperationID := OperationID e; Plan := Plan e; PlanUID := PlanUID e; PlanFingerprint := PlanFingerprint e;
     Statements := Statements e; Destructive := Destructive e; ApprovalRequired := ApprovalRequired e;
     Replaced := Replaced e; Authorization := Authorization e; Approval := Approval e;
     ApprovalUID := ApprovalUID e; Approver := approver_; Outcome := Outcome e; Operation := Operation e;
     Reason := Reason e; JobName := JobName e; JobUID := JobUID e; AppliedVersions := AppliedVersions e;
     Failure := Failure e; Acknowledgment := Acknowledgment e; AcknowledgedBy := AcknowledgedBy e |}.
Definition with_outcome (outcome_ : option JournalOutcome) (e : JournalEntry) : JournalEntry :=
  {| EntryType := EntryType e; At := At e; StartedAt := StartedAt e; LastAt := LastAt e; Count := Count e;
     OperationID := OperationID e; Plan := Plan e; PlanUID := PlanUID e; PlanFingerprint := PlanFingerprint e;
     Statements := Statements e; Destructive := Destructive e; ApprovalRequired := ApprovalRequired e;
     Replaced := Replaced e; Authorization := Authorization e; Approval := Approval e;
     ApprovalUID := ApprovalUID e; Approver := Approver e; Outcome := outcome_; Operation := Operation e;
     Reason := Reason e; JobName := JobName e; JobUID := JobUID e; AppliedVersions := AppliedVersions e;
     Failure := Failure e; Acknowledgment := Acknowledgment e; AcknowledgedBy := AcknowledgedBy e |}.
Definition with_failed_operation (operation_ : string) (e : JournalEntry) : JournalEntry :=
  {| EntryType := EntryType e; At := At e; StartedAt := StartedAt e; LastAt := LastAt e; Count := Count e;
     OperationID := OperationID e; Plan := Plan e; PlanUID := PlanUID e; PlanFingerprint := PlanFingerprint e;
     Statements := Statements e; Destructive := Destructive e; ApprovalRequired := ApprovalRequired e;
     Replaced := Replaced e; Authorization := Authorization e; Approval := Approval e;
     ApprovalUID := ApprovalUID e; Approver := Approver e; Outcome := Outcome e; Operation := operation_;
     Reason := Reason e; JobName := JobName e; JobUID := JobUID e; AppliedVersions := AppliedVersions e;
     Failure := Failure e; Acknowledgment := Acknowledgment e; AcknowledgedBy := AcknowledgedBy e |}.
Definition with_reason (reason_ : string) (e : JournalEntry) : JournalEntry :=
  {| EntryType := EntryType e; At := At e; StartedAt := StartedAt e; LastAt := LastAt e; Count := Count e;
     OperationID := OperationID e; Plan := Plan e; PlanUID := PlanUID e; PlanFingerprint := PlanFingerprint e;
     Statements := Statements e; Destructive := Destructive e; ApprovalRequired := ApprovalRequired e;
     Replaced := Replaced e; Authorization := Authorization e; Approval := Approval e;
     ApprovalUID := ApprovalUID e; Approver := Approver e; Outcome := Outcome e; Operation := Operation e;
     Reason := reason_; JobName := JobName e; JobUID := JobUID e; AppliedVersions := AppliedVersions e;
     Failure := Failure e; Acknowledgment := Acknowledgment e; AcknowledgedBy := AcknowledgedBy e |}.
Definition with_job (jobName_ : string) (jobUID_ : string) (e : JournalEntry) : JournalEntry :=
  {| EntryType := EntryType e; At := At e; StartedAt := StartedAt e; LastAt := LastAt e; Count := Count e;
     OperationID := OperationID e; Plan := Plan e; PlanUID := PlanUID e; PlanFingerprint := PlanFingerprint e;
     Statements := Statements e; Destructive := Destructive e; ApprovalRequired := ApprovalRequired e;
     Replaced := Replaced e; Authorization := Authorization e; Approval := Approval e;
     ApprovalUID := ApprovalUID e; Approver := Approver e; Outcome := Outcome e; Operation := Operation e;
     Reason := Reason e; JobName := jobName_; JobUID := jobUID_; AppliedVersions := AppliedVersions e;
     Failure := Failure e; Acknowledgment := Acknowledgment e; AcknowledgedBy := AcknowledgedBy e |}.
Definition with_run (appliedVersions_ : Z) (failure_ : option MigrationRunFailureStatus) (e : JournalEntry) : JournalEntry :=
  {| EntryType := EntryType e; At := At e; StartedAt := StartedAt e; LastAt := LastAt e; Count := Count e;
     OperationID := OperationID e; Plan := Plan e; PlanUID := PlanUID e; PlanFingerprint := PlanFingerprint e;
     Statements := Statements e; Destructive := Destructive e; ApprovalRequired := ApprovalRequired e;
     Replaced := Replaced e; Authorization := Authorization e; Approval := Approval e;
     ApprovalUID := ApprovalUID e; Approver := Approver e; Outcome := Outcome e; Operation := Operation e;
     Reason := Reason e; JobName := JobName e; JobUID := JobUID e; AppliedVersions := appliedVersions_;
     Failure := failure_; Acknowledgment := Acknowledgment e; AcknowledgedBy := AcknowledgedBy e |}.
Definition with_acknowledgment (acknowledgment_ : string) (e : JournalEntry) : JournalEntry :=
  {| EntryType := EntryType e; At := At e; StartedAt := StartedAt e; LastAt := LastAt e; Count := Count e;
     OperationID := OperationID e; Plan := Plan e; PlanUID := PlanUID e; PlanFingerprint := PlanFingerprint e;
     Statements := Statements e; Destructive := Destructive e; ApprovalRequired := ApprovalRequired e;
     Replaced := Replaced e; Authorization := Authorization e; Approval := Approval e;
     ApprovalUID := ApprovalUID e; Approver := Approver e; Outcome := Outcome e; Operation := Operation e;
     Reason := Reason e; JobName := JobName e; JobUID := JobUID e; AppliedVersions := AppliedVersions e;
     Failure := Failure e; Acknowledgment := acknowledgment_; AcknowledgedBy := AcknowledgedBy e |}.
Definition with_acknowledged_by (acknowledgedBy_ : string) (e : JournalEntry) : JournalEntry :=
  {| EntryType := EntryType e; At := At e; StartedAt := StartedAt e; LastAt := LastAt e; Count := Count e;
     OperationID := OperationID e; Plan := Plan e; PlanUID := PlanUID e; PlanFingerprint := PlanFingerprint e;
     Statements := Statements e; Destructive := Destructive e; ApprovalRequired := ApprovalRequired e;
     Replaced := Replaced e; Authorization := Authorization e; Approval := Approval e;
     ApprovalUID := ApprovalUID e; Approver := Approver e; Outcome := Outcome e; Operation := Operation e;
     Reason := Reason e; JobName := JobName e; JobUID := JobUID e; AppliedVersions := AppliedVersions e;
     Failure := Failure e; Acknowledgment := Acknowledgment e; AcknowledgedBy := acknowledgedBy_ |}.

Record LifecycleJournal : Type := { CoveredSince : Z; Entries : list JournalEntry }.

(** ** The bounds *)

Definition MaxEntries : Z := 64.
Definition MaxAge : Z := 30 * 24 * 3600 * Second.

Definition folds (newest entry : JournalEntry) : bool :=
  bool_decide (EntryType newest = JournalOperationFailed) && bool_decide (EntryType entry = JournalOperationFailed) &&
  bool_decide (Operation newest = Operation entry) && bool_decide (Reason newest = Reason entry).

Definition latest (entry : JournalEntry) : Z := default (At entry) (LastAt entry).

(** [outstanding]: [None] for -1. The scan runs from the newest entry down;
    [approvals] are the indices of the approvals it passed, newest first. *)
Fixpoint outstanding_scan (entries : list JournalEntry) (remaining : nat) (approvals : list nat) :
    option nat * option nat :=
  match remaining with
  | O => (None, None)
  | S index =>
      match entries !! index with
      | None => (None, None)
      | Some e =>
          match EntryType e with
          | JournalPlanPublished =>
              (Some index,
               List.find (fun candidate => bool_decide (Plan <$> entries !! candidate = Some (Plan e))) approvals)
          | JournalApprovalAccepted => outstanding_scan entries index (approvals ++ [index])
          | JournalApplyFinished | JournalRunFinished => (None, None)
          | _ => outstanding_scan entries index approvals
          end
      end
  end.
Definition outstanding (entries : list JournalEntry) : option nat * option nat :=
  outstanding_scan entries (length entries) [].

(** The loop of [applyBounds], over the entries from [index] on. *)
Fixpoint bound_loop (rest : list JournalEntry) (index count : nat) (cutoff : Z) (published approval : option nat)
    (kept : list JournalEntry) (covered : Z) : list JournalEntry * Z :=
  match rest with
  | [] => (kept, covered)
  | entry :: rest' =>
      if bool_decide (published = Some index) || bool_decide (approval = Some index)
      then bound_loop rest' (S index) count cutoff published approval (kept ++ [entry]) covered
      else
        let dropped := Z.of_nat index - Z.of_nat (length kept) in
        if (Z.of_nat count - dropped <=? MaxEntries) && negb (latest entry <? cutoff)
        then (kept ++ rest, covered)
        else bound_loop rest' (S index) count cutoff published approval kept
               (if covered <? latest entry then latest entry else covered)
  end.

Definition applyBounds (journal : LifecycleJournal) : LifecycleJournal :=
  match last (Entries journal) with
  | None => journal
  | Some newest =>
      let cutoff := latest newest - MaxAge in
      let '(published, approval) := outstanding (Entries journal) in
      let '(kept, covered) := bound_loop (Entries journal) 0 (length (Entries journal)) cutoff published approval
                                [] (CoveredSince journal) in
      {| CoveredSince := covered; Entries := kept |}
  end.

(** One entry added: folded into the newest, or appended. *)
Definition add_entry (entries : list JournalEntry) (entry : JournalEntry) : list JournalEntry :=
  match last entries with
  | Some newest =>
      if folds newest entry
      then removelast entries ++ [with_fold (Some (At entry)) (int32_wrap (Z.max (Count newest) 1 + 1)) newest]
      else entries ++ [entry]
  | None => [entry]
  end.

(** [journal] is nil: [None]. *)
Definition Record_ (journal : option LifecycleJournal) (entries : list JournalEntry) (now : Z) : LifecycleJournal :=
  let journal := default {| CoveredSince := now; Entries := [] |} journal in
  applyBounds {| CoveredSince := CoveredSince journal; Entries := fold_left add_entry entries (Entries journal) |}.

(** ** What the journal already holds *)

Definition OutstandingPlan (journal : option LifecycleJournal) : string * bool :=
  match journal with
  | None => (EmptyString, false)
  | Some j =>
      match outstanding (Entries j) with
      | (None, _) => (EmptyString, false)
      | (Some published, approval) =>
          (str_or_empty (Plan <$> Entries j !! published), bool_decide (is_Some approval))
      end
  end.

Definition planRecorded (journal : option LifecycleJournal) (plan : string) : bool :=
  bool_decide ((OutstandingPlan journal).1 = plan).

Definition approvalRecorded (journal : option LifecycleJournal) (approval : string) : bool :=
  match journal with
  | None => false
  | Some j => existsb (fun e => bool_decide (EntryType e = JournalApprovalAccepted) &&
                                bool_decide (ApprovalUID e = approval)) (Entries j)
  end.

Definition orNow (at_ now : Z) : Z := if at_ =? zeroTime then now else at_.

Definition publishedAt (created : Z) (journal : option LifecycleJournal) (now : Z) : Z :=
  match journal ≫= fun j => last (Entries j) with
  | Some newest => if created <? latest newest then now else orNow created now
  | None => orNow created now
  end.

(** The bytes of the first rune; an invalid one is a single byte. *)
Definition rune_length (l : list Z) : nat :=
  match l with
  | b0 :: b1 :: b2 :: b3 :: _ =>
      if b0 <? 128 then 1 else if rune2 b0 b1 then 2 else if rune3 b0 b1 b2 then 3
      else if rune4 b0 b1 b2 b3 then 4 else 1
  | b0 :: b1 :: b2 :: _ => if b0 <? 128 then 1 else if rune2 b0 b1 then 2 else if rune3 b0 b1 b2 then 3 else 1
  | b0 :: b1 :: _ => if b0 <? 128 then 1 else if rune2 b0 b1 then 2 else 1
  | _ => 1
  end.
Fixpoint take_runes (n : nat) (l : list Z) : list Z :=
  match n, l with
  | O, _ | _, [] => []
  | S n', _ => take (rune_length l) l ++ take_runes n' (drop (rune_length l) l)
  end.
Definition maxUsernameLength : nat := 512.
Definition boundedUsername (username : string) : string := of_bytes (take_runes maxUsernameLength (bytes username)).

(** ** Statuses *)

Section statuses.
Context {Conditions : Type}.

(** [metav1.Condition]: its status and reason. *)
Record Condition : Type := { ConditionTrue : bool; ConditionReason : string }.
Context (FindStatusCondition : Conditions -> string -> option Condition)
        (IsStatusConditionTrue : Conditions -> string -> bool).

Record PlanApproval : Type := { ApprovalName : string; ApprovalObjectUID : string; ApproverUsername : string; ApprovedAt : Z }.
Record CurrentPlanStatus : Type := {
  PlanName : string;
  PlanCreatedAt : Z;
  StatementCount : Z;
  PlanDestructive : bool;
  PlanApproval_ : option PlanApproval;
}.
Record OperationStatus : Type := { OpType : string; OpID : string; OpAttempt : Z; OpStartedAt : Z }.
Record PendingObservation : Type := { PendingPlan : string; ApplyOperationID : string; PendingSucceeded : bool }.
Record SchemaStatus : Type := {
  SPlan : option CurrentPlanStatus;
  SActive : option OperationStatus;
  SPending : option PendingObservation;
  SPhase : string;
  SConditions : Conditions;
}.

(** A reference: its name and UID. *)
Definition ObjectRef : Type := string * string.

Record MigrationOperation : Type := {
  MOpType : string;
  MOpID : string;
  MOpAttempt : Z;
  MOpApprovalRef : option ObjectRef;
  MOpPlanRef : option ObjectRef;
  MOpPlanFingerprint : string;
  MOpApprovedBy : option string;
}.
Inductive RunOutcome : Type := RunApplied | RunUpToDate | RunFailed | RunPartial | RunUnknown.
#[export] Instance RunOutcome_eq_dec : EqDecision RunOutcome.
Proof. solve_decision. Defined.
Inductive VerificationResult : Type := VerifiedInSync | VerifiedPending | VerifiedBlocked.

Record RunAuthorization : Type := { AuthKind : string; AuthApprovalRef : option ObjectRef; AuthApprover : option string }.
Record MigrationRun : Type := {
  RunOutcome_ : RunOutcome;
  RunJobName : string;
  RunJobUID : string;
  RunOperationID : string;
  RunPlanRef : option ObjectRef;
  RunPlanFingerprint : string;
  RunAuthorization_ : option RunAuthorization;
  RunVerification : option (Z * VerificationResult);
  RunStartedAt : Z;
  RunFinishedAt : option Z;
  RunAppliedVersions : list Z;
  RunFailure : option MigrationRunFailureStatus;
}.
Record UnresolvedRun : Type := {
  HoldOutcome : RunOutcome;
  HoldOperationID : string;
  HoldJobName : string;
  HoldJobUID : string;
  HoldPlanRef : ObjectRef;
  HoldRecordedAt : Z;
}.
Record ResolvedRun : Type := {
  ResolvedOperationID : string;
  ResolvedOutcome : RunOutcome;
  ResolvedByAcknowledgment : bool;
  AcknowledgmentRef : option ObjectRef;
  ResolvedAcknowledgedBy : option string;
  ResolvedAt : Z;
}.
Record MigrationStatus : Type := {
  MPlan : option string;
  MActive : option MigrationOperation;
  MLastRun : option MigrationRun;
  MUnresolved : option UnresolvedRun;
  MResolved : option ResolvedRun;
  MPhase : string;
  MConditions : Conditions;
}.

(** ** What a schema's status write records *)

Definition schemaHeldApproval (before : SchemaStatus) (approval : string) : bool :=
  match SPlan before ≫= PlanApproval_ with
  | Some a => bool_decide (ApprovalObjectUID a = approval)
  | None => false
  end.

Definition schemaOperation (before after : SchemaStatus) : string :=
  match SActive after, SActive before with
  | Some o, _ | None, Some o => OpType o
  | None, None => EmptyString
  end.

Definition realmRefusal (reason : string) : bool :=
  bool_decide (reason = "RealmConflict") || bool_decide (reason = "RealmNotAuthorized").

Definition replacedPlan (before : SchemaStatus) (journal : option LifecycleJournal) : string :=
  match journal with
  | None => EmptyString
  | Some j =>
      match outstanding (Entries j) with
      | (None, _) => EmptyString
      | (Some published, approval) =>
          match Entries j !! published with
          | None => EmptyString
          | Some entry =>
              let asked := FindStatusCondition (SConditions before) "ApprovalRequired" in
              if bool_decide (ConditionReason <$> asked = Some "NoChanges") then EmptyString
              else if bool_decide (is_Some approval) || IsStatusConditionTrue (SConditions before) "ApprovalRequired"
              then Plan entry
              else match asked with
                   | Some c => if ApprovalRequired entry && realmRefusal (ConditionReason c) then Plan entry else EmptyString
                   | None => EmptyString
                   end
          end
      end
  end.

(** The plan a write names first. *)
Definition plan_entry (before after : SchemaStatus) (journal : option LifecycleJournal) (now : Z) : list JournalEntry :=
  match SPlan after with
  | Some plan =>
      if negb (bool_decide (PlanName <$> SPlan before = Some (PlanName plan))) && negb (planRecorded journal (PlanName plan))
      then [with_published (PlanName plan) (StatementCount plan) (PlanDestructive plan)
              (IsStatusConditionTrue (SConditions after) "ApprovalRequired") (replacedPlan before journal)
              (newEntry JournalPlanPublished (publishedAt (PlanCreatedAt plan) journal now))]
      else []
  | None => []
  end.

Definition approval_entry (before after : SchemaStatus) (journal : option LifecycleJournal) (now : Z) : list JournalEntry :=
  match SPlan after with
  | Some plan =>
      match PlanApproval_ plan with
      | Some a =>
          if negb (bool_decide (is_Some journal) && schemaHeldApproval before (ApprovalObjectUID a)) &&
             negb (approvalRecorded journal (ApprovalObjectUID a))
          then [with_approver (boundedUsername (ApproverUsername a))
                  (with_approval (ApprovalName a) (ApprovalObjectUID a)
                     (with_plan (PlanName plan) EmptyString
                        (newEntry JournalApprovalAccepted (orNow (ApprovedAt a) now))))]
          else []
      | None => []
      end
  | None => []
  end.

Definition apply_entry (before after : SchemaStatus) (now : Z) : list JournalEntry :=
  match SActive before with
  | Some operation =>
      if bool_decide (OpType operation = "Apply") && negb (bool_decide (OpID <$> SActive after = Some (OpID operation)))
      then match SPending after with
           | Some pending =>
               if bool_decide (ApplyOperationID pending = OpID operation)
               then [with_outcome (Some (if PendingSucceeded pending then JournalSucceeded else JournalUnknown))
                       (with_plan (PendingPlan pending) EmptyString
                          (with_started (Some (OpStartedAt operation)) (newEntry JournalApplyFinished now)))]
               else []
           | None => []
           end
      else []
  | None => []
  end.

Definition proof_outcome (after : SchemaStatus) : JournalOutcome :=
  if bool_decide (SPhase after = "InSync") then JournalInSync
  else if bool_decide (ConditionReason <$> FindStatusCondition (SConditions after) "Ready" = Some "ProofSettled")
  then JournalUnknown
  else if bool_decide (SPhase after = "Pending") || bool_decide (SPhase after = "Verifying") then JournalSuperseded
  else if IsStatusConditionTrue (SConditions after) "DriftDetected" then JournalDriftRemains
  else JournalSuperseded.

Definition verified_entry (before after : SchemaStatus) (now : Z) : list JournalEntry :=
  match SPending before, SPending after with
  | Some pending, None =>
      [with_outcome (Some (proof_outcome after)) (with_plan (PendingPlan pending) EmptyString (newEntry JournalVerified now))]
  | _, _ => []
  end.

Definition schema_retried (before after : SchemaStatus) : bool :=
  match SActive before, SActive after with
  | Some b, Some a => bool_decide (OpID b = OpID a) && (OpAttempt b <? OpAttempt a)
  | _, _ => false
  end.

Definition schema_failure_entry (before after : SchemaStatus) (now : Z) : list JournalEntry :=
  match FindStatusCondition (SConditions after) "ReconciliationFailed" with
  | Some failure =>
      if ConditionTrue failure then
        let fresh := match FindStatusCondition (SConditions before) "ReconciliationFailed" with
                     | None => true
                     | Some previous =>
                         negb (ConditionTrue previous) ||
                         negb (bool_decide (ConditionReason previous = ConditionReason failure)) ||
                         schema_retried before after
                     end in
        if fresh
        then [with_reason (ConditionReason failure)
                (with_failed_operation (schemaOperation before after) (newEntry JournalOperationFailed now))]
        else []
      else []
  | None => []
  end.

Definition SchemaEntries (before after : SchemaStatus) (journal : option LifecycleJournal) (now : Z) : list JournalEntry :=
  plan_entry before after journal now ++ approval_entry before after journal now ++ apply_entry before after now ++
  verified_entry before after now ++ schema_failure_entry before after now.

(** ** What a migration's status write records *)

Definition runOutcome (outcome : RunOutcome) : JournalOutcome :=
  match outcome with
  | RunApplied => JournalSucceeded
  | RunUpToDate => JournalUpToDate
  | RunFailed => JournalFailed
  | RunPartial => JournalPartial
  | RunUnknown => JournalUnknown
  end.

Definition verificationOutcome (r : VerificationResult) : JournalOutcome :=
  match r with
  | VerifiedInSync => JournalInSync
  | VerifiedBlocked => JournalBlocked
  | VerifiedPending => JournalPending
  end.

Definition with_ref (ref : option ObjectRef) (e : JournalEntry) : JournalEntry :=
  match ref with Some r => with_plan r.1 r.2 e | None => e end.

Definition withRunIdentity (run : MigrationRun) (e : JournalEntry) : JournalEntry :=
  let e := with_ref (RunPlanRef run)
             (with_plan_fingerprint (RunPlanFingerprint run)
                (with_job (RunJobName run) (RunJobUID run) (with_operation_id (RunOperationID run) e))) in
  match RunAuthorization_ run with
  | None => e
  | Some a =>
      let e := with_authorization (AuthKind a) e in
      let e := match AuthApprovalRef a with Some r => with_approval r.1 r.2 e | None => e end in
      match AuthApprover a with Some u => with_approver (boundedUsername u) e | None => e end
  end.

(** The entry of a run finished at [finished]. *)
Definition runFinished (run : MigrationRun) (finished : Z) : JournalEntry :=
  withRunIdentity run
    (with_run (int32_wrap (Z.of_nat (length (RunAppliedVersions run)))) (RunFailure run)
       (with_outcome (Some (runOutcome (RunOutcome_ run)))
          (with_started (Some (RunStartedAt run)) (newEntry JournalRunFinished finished)))).

Definition sameRun (previous : option MigrationRun) (current : MigrationRun) : bool :=
  match previous with
  | Some p => bool_decide (is_Some (RunFinishedAt p)) && bool_decide (RunJobUID p = RunJobUID current) &&
              (RunStartedAt p =? RunStartedAt current)
  | None => false
  end.

Definition accountsFor (run : MigrationRun) (hold : UnresolvedRun) : bool :=
  bool_decide (RunJobUID run = HoldJobUID hold) && bool_decide (RunOutcome_ run = HoldOutcome hold).

(** The last run with the time it finished. *)
Definition finished_run (s : MigrationStatus) : option (MigrationRun * Z) :=
  run ← MLastRun s; at_ ← RunFinishedAt run; Some (run, at_).

Definition hold_entry (hold : UnresolvedRun) (now : Z) : JournalEntry :=
  with_job (HoldJobName hold) (HoldJobUID hold)
    (with_plan (HoldPlanRef hold).1 (HoldPlanRef hold).2
       (with_outcome (Some (runOutcome (HoldOutcome hold)))
          (with_operation_id (HoldOperationID hold) (newEntry JournalRunFinished (orNow (HoldRecordedAt hold) now))))).

Definition finishedRun (before after : MigrationStatus) (journal : option LifecycleJournal) (now : Z) : option JournalEntry :=
  let unresolved :=
    match MUnresolved after with
    | None => None
    | Some hold =>
        let held := bool_decide (HoldOperationID <$> MUnresolved before = Some (HoldOperationID hold)) in
        if held && bool_decide (is_Some journal) then None else
        match finished_run after with
        | Some (run, finished) =>
            if accountsFor run hold then
              if bool_decide (is_Some journal) then None
              else Some (with_plan (HoldPlanRef hold).1 (HoldPlanRef hold).2
                           (with_operation_id (HoldOperationID hold) (runFinished run finished)))
            else Some (hold_entry hold now)
        | None => Some (hold_entry hold now)
        end
    end in
  match finished_run after with
  | Some (run, finished) => if sameRun (MLastRun before) run then unresolved else Some (runFinished run finished)
  | None => unresolved
  end.

Definition migrationHeldApproval (before : MigrationStatus) (approval : string) : bool :=
  match MActive before ≫= MOpApprovalRef with
  | Some ref => bool_decide (ref.2 = approval)
  | None => false
  end.

Definition migration_plan_entry (before after : MigrationStatus) (journal : option LifecycleJournal) (now : Z) : list JournalEntry :=
  match MPlan after with
  | Some plan =>
      if negb (bool_decide (MPlan before = Some plan)) && negb (planRecorded journal plan)
      then [with_plan plan EmptyString (newEntry JournalPlanPublished now)] else []
  | None => []
  end.

Definition migration_approval_entry (before after : MigrationStatus) (journal : option LifecycleJournal) (now : Z) :
    list JournalEntry :=
  match MActive after with
  | Some operation =>
      match MOpApprovalRef operation with
      | Some ref =>
          if bool_decide (MOpType operation = "Apply") &&
             negb (bool_decide (is_Some journal) && migrationHeldApproval before ref.2) &&
             negb (approvalRecorded journal ref.2)
          then
            let e := with_ref (MOpPlanRef operation)
                       (with_plan_fingerprint (MOpPlanFingerprint operation)
                          (with_approval ref.1 ref.2 (newEntry JournalApprovalAccepted now))) in
            [match MOpApprovedBy operation with Some u => with_approver (boundedUsername u) e | None => e end]
          else []
      | None => []
      end
  | None => []
  end.

Definition migration_verified_entry (before after : MigrationStatus) : list JournalEntry :=
  match MLastRun after with
  | Some run =>
      match RunVerification run with
      | Some (observedAt, found) =>
          if bool_decide (is_Some (MLastRun before ≫= RunVerification)) then [] else
          [with_ref (RunPlanRef run)
             (with_job (RunJobName run) (RunJobUID run)
                (with_outcome (Some (verificationOutcome found))
                   (with_operation_id (RunOperationID run) (newEntry JournalVerified observedAt))))]
      | None => []
      end
  | None => []
  end.

Definition acknowledged_entry (before after : MigrationStatus) (now : Z) : list JournalEntry :=
  match MResolved after with
  | Some resolved =>
      if ResolvedByAcknowledgment resolved &&
         negb (bool_decide (ResolvedOperationID <$> MResolved before = Some (ResolvedOperationID resolved)))
      then
        let e := with_outcome (Some (runOutcome (ResolvedOutcome resolved)))
                   (with_operation_id (ResolvedOperationID resolved)
                      (newEntry JournalRunAcknowledged (orNow (ResolvedAt resolved) now))) in
        let e := match MUnresolved before with
                 | Some held =>
                     if bool_decide (HoldOperationID held = ResolvedOperationID resolved)
                     then with_job (HoldJobName held) (HoldJobUID held)
                            (with_plan (HoldPlanRef held).1 (HoldPlanRef held).2 e)
                     else e
                 | None => e
                 end in
        let e := match AcknowledgmentRef resolved with Some r => with_acknowledgment r.1 e | None => e end in
        [match ResolvedAcknowledgedBy resolved with
         | Some u => with_acknowledged_by (boundedUsername u) e
         | None => e
         end]
      else []
  | None => []
  end.

Definition ready_reason (s : MigrationStatus) : string :=
  str_or_empty (ConditionReason <$> FindStatusCondition (MConditions s) "Ready").

Definition migration_retried (before after : MigrationStatus) : bool :=
  match MActive before, MActive after with
  | Some b, Some a => bool_decide (MOpID b = MOpID a) && (MOpAttempt b <? MOpAttempt a)
  | _, _ => false
  end.

Definition firstMigrationOperation (before after : MigrationStatus) : option MigrationOperation :=
  match MActive after with Some o => Some o | None => MActive before end.

Definition migration_failure_entry (before after : MigrationStatus) (now : Z) : list JournalEntry :=
  if bool_decide (MPhase after = "Failed") then
    let reason := ready_reason after in
    if negb (bool_decide (MPhase before = "Failed")) || negb (bool_decide (ready_reason before = reason)) ||
       migration_retried before after
    then
      let e := with_reason reason (newEntry JournalOperationFailed now) in
      [match firstMigrationOperation before after with
       | Some o => with_failed_operation (MOpType o) e
       | None => e
       end]
    else []
  else [].

Definition MigrationEntries (before after : MigrationStatus) (journal : option LifecycleJournal) (now : Z) : list JournalEntry :=
  migration_plan_entry before after journal now ++ migration_approval_entry before after journal now ++
  option_list (finishedRun before after journal now) ++ migration_verified_entry before after ++
  acknowledged_entry before after now ++ migration_failure_entry before after now.
End statuses.
