(* ===== verification/LifecycleJournalProofs.v ===== *)
(** * What the journal keeps

    The bounds of the journal, the plan that is outstanding across them, and
    that a write which changes nothing records nothing. *)
From stdpp Require Import base list gmap strings.
From Stdlib Require Import ZArith Lia Ascii.
From S2P Require Import Prelude GoStrings Json TargetLock LifecycleJournal.
Local Open Scope Z_scope.
#[local] Opaque boundedUsername.

(** ** The shape of a bounded journal *)

Definition special (published approval : option nat) (index : nat) : bool :=
  bool_decide (published = Some index) || bool_decide (approval = Some index).

(** The entries of [pre], which starts at [index], that the bounds keep. *)
Fixpoint specials (published approval : option nat) (index : nat) (pre : list JournalEntry) : list JournalEntry :=
  match pre with
  | [] => []
  | e :: pre' =>
      if special published approval index then e :: specials published approval (S index) pre'
      else specials published approval (S index) pre'
  end.

(** The others, which the bounds drop. *)
Fixpoint dropped (published approval : option nat) (index : nat) (pre : list JournalEntry) : list JournalEntry :=
  match pre with
  | [] => []
  | e :: pre' =>
      if special published approval index then dropped published approval (S index) pre'
      else e :: dropped published approval (S index) pre'
  end.

Lemma bound_loop_shape published approval count cutoff rest : forall index kept covered,
  exists pre suf, rest = pre ++ suf /\
  (bound_loop rest index count cutoff published approval kept covered).1 = kept ++ specials published approval index pre ++ suf /\
  let covered' := (bound_loop rest index count cutoff published approval kept covered).2 in
  covered <= covered' /\ Forall (fun e => latest e <= covered') (dropped published approval index pre).
Proof.
  induction rest as [|e rest IH]; intros index kept covered.
  { exists [], []. cbn. rewrite app_nil_r. repeat split; [lia|constructor]. }
  cbn [bound_loop]. fold (special published approval index).
  destruct (special published approval index) eqn:Hs.
  - destruct (IH (S index) (kept ++ [e]) covered) as (pre & suf & -> & H1 & H2 & H3).
    exists (e :: pre), suf. split; [done|]. cbn [specials dropped]. rewrite Hs. split; [|done].
    rewrite H1. by rewrite <- app_assoc.
  - destruct (_ && _).
    + exists [], (e :: rest). cbn. repeat split; [lia|constructor].
    + destruct (IH (S index) kept (if covered <? latest e then latest e else covered)) as (pre & suf & -> & H1 & H2 & H3).
      exists (e :: pre), suf. split; [done|]. cbn [specials dropped]. rewrite Hs. split; [done|].
      destruct (covered <? latest e) eqn:Hc; bool_prop; (split; [lia|]); constructor; [lia|done|lia|done].
Qed.

(** ** The number of entries *)

(** Whether a special index is still to come. *)
Definition due (o : option nat) (index : nat) : Z :=
  match o with Some i => if (index <=? i)%nat then 1 else 0 | None => 0 end.

Lemma due_step o index : due o (S index) <= due o index /\
  (o = Some index -> due o (S index) = due o index - 1).
Proof.
  unfold due. destruct o as [i|]; [|split; [lia|done]].
  destruct (Nat.leb_spec index i), (Nat.leb_spec (S index) i); split; try lia; intros [= ->]; lia.
Qed.

Lemma bound_loop_length published approval count cutoff rest : forall index kept covered,
  count = (index + length rest)%nat ->
  Z.of_nat (length kept) + due published index + due approval index <= 2 ->
  Z.of_nat (length (bound_loop rest index count cutoff published approval kept covered).1) <= MaxEntries.
Proof.
  assert (Hmax : 2 <= MaxEntries) by (unfold MaxEntries; lia).
  assert (Hdue : forall o i, 0 <= due o i) by (intros [i|] j; unfold due; [case_goal|]; lia).
  induction rest as [|e rest IH]; intros index kept covered -> Hk.
  { cbn. pose proof (Hdue published index). pose proof (Hdue approval index). lia. }
  cbn [bound_loop]. destruct (due_step published index) as [Hp1 Hp2], (due_step approval index) as [Ha1 Ha2].
  destruct (_ || _) eqn:Hs.
  - apply IH; [cbn [length]; lia|]. rewrite length_app. cbn [length].
    apply orb_true_iff in Hs as [Hs|Hs]; bool_prop; [specialize (Hp2 Hs)|specialize (Ha2 Hs)]; lia.
  - destruct (_ && _) eqn:Hb.
    + bool_prop. cbn [fst]. rewrite length_app. cbn [length] in *. lia.
    + apply IH; [cbn [length]; lia|]. lia.
Qed.

(** ** The newest entry *)

Lemma bound_loop_last published approval count cutoff rest newest : forall index kept covered,
  count = (index + length rest)%nat -> last rest = Some newest -> cutoff <= latest newest ->
  Z.of_nat (length kept) + due published index + due approval index <= 2 ->
  last (bound_loop rest index count cutoff published approval kept covered).1 = Some newest.
Proof.
  induction rest as [|e rest IH]; intros index kept covered -> Hl Hcut Hk; [done|].
  cbn [bound_loop]. destruct (due_step published index) as [Hp1 Hp2], (due_step approval index) as [Ha1 Ha2].
  assert (Hdue : forall o i, 0 <= due o i) by (intros [i|] j; unfold due; [case_goal|]; lia).
  pose proof (Hdue published index). pose proof (Hdue approval index).
  destruct (decide (rest = [])) as [->|Hne].
  - cbn in Hl. injection Hl as ->. destruct (_ || _); cbn [bound_loop fst]; [by rewrite last_snoc|].
    replace (_ && _) with true; [cbn [fst]; by rewrite last_snoc|].
    symmetry. apply andb_true_iff. split; [apply Z.leb_le; cbn [length]; unfold MaxEntries; lia|].
    apply negb_true_iff, Z.ltb_ge. lia.
  - assert (Hl' : last rest = Some newest) by (destruct rest; [done|exact Hl]).
    destruct (_ || _) eqn:Hs.
    + apply IH; [cbn [length]; lia|done|done|]. rewrite length_app. cbn [length].
      apply orb_true_iff in Hs as [Hs|Hs]; bool_prop; [specialize (Hp2 Hs)|specialize (Ha2 Hs)]; lia.
    + destruct (_ && _); [cbn [fst]; rewrite last_app, Hl; done|]. apply IH; [cbn [length]; lia|done..|lia].
Qed.

(** ** The outstanding plan *)

Definition is_published (e : JournalEntry) : Prop := EntryType e = JournalPlanPublished.
Definition is_finish (e : JournalEntry) : Prop :=
  EntryType e = JournalApplyFinished \/ EntryType e = JournalRunFinished.
Definition approves (plan : string) (e : JournalEntry) : Prop :=
  EntryType e = JournalApprovalAccepted /\ Plan e = plan.
Definition inert (e : JournalEntry) : Prop := ~ is_published e /\ ~ is_finish e.

(** [plan] was published and nothing was published or carried out since;
    [approved] says whether an approval of it was accepted since. *)
Definition outstanding_at (es : list JournalEntry) (plan : string) (approved : bool) : Prop :=
  exists l1 e l2, es = l1 ++ e :: l2 /\ is_published e /\ Plan e = plan /\ Forall inert l2 /\
    (approved = true <-> Exists (approves plan) l2).
(** Every published plan was carried out. *)
Definition nothing_outstanding (es : list JournalEntry) : Prop :=
  forall l1 e l2, es = l1 ++ e :: l2 -> is_published e -> Exists (fun x => ~ inert x) l2.

(** The indices [outstanding] returns, as a place in the list. *)
Definition located (es : list JournalEntry) (published approval : option nat) : Prop :=
  match published with
  | None => approval = None /\ nothing_outstanding es
  | Some p =>
      exists l1 e l2, es = l1 ++ e :: l2 /\ length l1 = p /\ is_published e /\ Forall inert l2 /\
      match approval with
      | Some a => exists m1 e' m2, l2 = m1 ++ e' :: m2 /\ a = (S p + length m1)%nat /\ approves (Plan e) e'
      | None => ~ Exists (approves (Plan e)) l2
      end
  end.

(** [approvals] are places of approvals in [tail], and cover them all. *)
Definition approvals_of (es tail : list JournalEntry) (offset : nat) (approvals : list nat) : Prop :=
  (forall a, a ∈ approvals -> exists m1 e m2, tail = m1 ++ e :: m2 /\ a = (offset + length m1)%nat /\
     EntryType e = JournalApprovalAccepted) /\
  (forall m1 e m2, tail = m1 ++ e :: m2 -> EntryType e = JournalApprovalAccepted -> (offset + length m1)%nat ∈ approvals).

Lemma approvals_extend es e tail offset approvals :
  approvals_of es tail (S offset) approvals -> EntryType e = JournalApprovalAccepted ->
  approvals_of es (e :: tail) offset (approvals ++ [offset]).
Proof.
  intros [H1 H2] He. split.
  - intros a [Ha|Ha]%elem_of_app.
    + destruct (H1 a Ha) as (m1 & x & m2 & -> & -> & Hx). exists (e :: m1), x, m2. split; [done|]. split; [cbn; lia|done].
    + apply list_elem_of_singleton in Ha as ->. exists [], e, tail. split; [done|]. split; [cbn; lia|done].
  - intros [|y m1] x m2 E Hx; apply elem_of_app.
    + right. apply list_elem_of_singleton. cbn. lia.
    + injection E as <- ->. left. cbn. rewrite <- Nat.add_succ_comm. by apply (H2 m1 x m2).
Qed.

Lemma approvals_skip es e tail offset approvals :
  approvals_of es tail (S offset) approvals -> EntryType e <> JournalApprovalAccepted ->
  approvals_of es (e :: tail) offset approvals.
Proof.
  intros [H1 H2] He. split.
  - intros a Ha. destruct (H1 a Ha) as (m1 & x & m2 & -> & -> & Hx). exists (e :: m1), x, m2.
    split; [done|]. split; [cbn; lia|done].
  - intros [|y m1] x m2 E Hx; injection E as <- ->; [done|]. cbn. rewrite <- Nat.add_succ_comm. by apply (H2 m1 x m2).
Qed.

Lemma lookup_after (head : list JournalEntry) e m1 e' m2 :
  (head ++ e :: m1 ++ e' :: m2) !! (S (length head) + length m1)%nat = Some e'.
Proof.
  rewrite (cons_middle e), !app_assoc.
  apply list_lookup_middle. rewrite !length_app. cbn. lia.
Qed.

(** Behind a finish nothing is outstanding. *)
Lemma finish_settles head e tail :
  ~ inert e -> ~ is_published e -> Forall inert tail -> nothing_outstanding (head ++ e :: tail).
Proof.
  intros He Hp Hin l1 e0 l2 E He0. destruct (decide (length l1 < length head)%nat) as [Hlt|Hge].
  - apply Exists_exists. exists e. split; [|done].
    assert (H : (l1 ++ e0 :: l2) !! length head = Some e) by (rewrite <- E; by apply list_lookup_middle).
    rewrite lookup_app_r in H by lia. destruct (length head - length l1)%nat eqn:En; [lia|]. cbn in H.
    by eapply list_elem_of_lookup_2.
  - assert (H : (head ++ e :: tail) !! length l1 = Some e0) by (rewrite E; by apply list_lookup_middle).
    rewrite lookup_app_r in H by lia. destruct (length l1 - length head)%nat; cbn in H.
    + by injection H as ->.
    + rewrite Forall_forall in Hin. by destruct (Hin e0 (list_elem_of_lookup_2 _ _ _ H)).
Qed.

Lemma scan_located es : forall head tail approvals,
  es = head ++ tail -> Forall inert tail -> approvals_of es tail (length head) approvals ->
  located es (outstanding_scan es (length head) approvals).1 (outstanding_scan es (length head) approvals).2.
Proof.
  induction head as [|e head IH] using rev_ind; intros tail approvals Hes Hin Hap.
  { cbn. split; [done|]. intros l1 e l2 E Hp. cbn in Hes. subst tail. rewrite E in Hin.
    apply Forall_app in Hin as [_ [[Hn _] _]%Forall_cons]. done. }
  rewrite length_app, Nat.add_1_r in *. cbn [outstanding_scan].
  rewrite <- app_assoc in Hes. cbn [app] in Hes.
  assert (Hl : es !! length head = Some e) by (rewrite Hes; apply list_lookup_middle; done). rewrite Hl.
  destruct (EntryType e) eqn:Ht; cbn [fst snd].
  - exists head, e, tail. split; [done|]. split; [done|]. split; [done|]. split; [done|].
    destruct (find _ approvals) as [a|] eqn:Hf.
    + apply find_some in Hf as [Ha%list_elem_of_In Hp]. apply bool_decide_eq_true in Hp.
      destruct Hap as [H1 _]. destruct (H1 a Ha) as (m1 & e' & m2 & -> & -> & Ht').
      exists m1, e', m2. split; [done|]. split; [done|]. split; [done|].
      rewrite Hes, lookup_after in Hp. by injection Hp.
    + intros (e' & He' & Ht' & Hp)%Exists_exists. apply list_elem_of_split in He' as (m1 & m2 & ->).
      destruct Hap as [_ H2]. pose proof (H2 m1 e' m2 eq_refl Ht') as Ha.
      apply list_elem_of_In in Ha. pose proof (find_none _ _ Hf _ Ha) as Hn. cbv beta in Hn.
      apply bool_decide_eq_false in Hn. apply Hn. rewrite Hes, lookup_after. cbn. by rewrite Hp.
  - apply (IH (e :: tail)); [done| |by apply approvals_extend].
    constructor; [|done]. unfold inert, is_published, is_finish. rewrite Ht. naive_solver.
  - split; [done|]. rewrite Hes. apply finish_settles; unfold inert, is_published, is_finish; rewrite ?Ht; naive_solver.
  - apply (IH (e :: tail)); [done| |apply approvals_skip; [done|by rewrite Ht]].
    constructor; [|done]. unfold inert, is_published, is_finish. rewrite Ht. naive_solver.
  - split; [done|]. rewrite Hes. apply finish_settles; unfold inert, is_published, is_finish; rewrite ?Ht; naive_solver.
  - apply (IH (e :: tail)); [done| |apply approvals_skip; [done|by rewrite Ht]].
    constructor; [|done]. unfold inert, is_published, is_finish. rewrite Ht. naive_solver.
  - apply (IH (e :: tail)); [done| |apply approvals_skip; [done|by rewrite Ht]].
    constructor; [|done]. unfold inert, is_published, is_finish. rewrite Ht. naive_solver.
Qed.

Lemma outstanding_located es : located es (outstanding es).1 (outstanding es).2.
Proof.
  apply (scan_located es es []); [by rewrite app_nil_r|constructor|]. split.
  - by intros a Ha%elem_of_nil.
  - by intros [|? ?] e m2 E.
Qed.

(** What [OutstandingPlan] answers. *)
Lemma OutstandingPlan_spec j :
  (exists plan approved, outstanding_at (Entries j) plan approved /\ OutstandingPlan (Some j) = (plan, approved)) \/
  (nothing_outstanding (Entries j) /\ OutstandingPlan (Some j) = (EmptyString, false)).
Proof.
  pose proof (outstanding_located (Entries j)) as H. unfold OutstandingPlan.
  destruct (outstanding (Entries j)) as [[p|] a]; cbn in H; [|destruct H; by right].
  destruct H as (l1 & e & l2 & E & <- & Hp & Hin & Ha). left.
  exists (Plan e), (bool_decide (is_Some a)). split.
  - exists l1, e, l2. do 4 (split; [done|]). destruct a as [a|].
    + destruct Ha as (m1 & e' & m2 & -> & _ & Hap). split; [|done]. intros _.
      apply Exists_app. right. by constructor.
    + rewrite bool_decide_eq_false_2 by (by intros [? ?]). done.
  - rewrite E. by rewrite list_lookup_middle.
Qed.

Lemma outstanding_unique es plan approved plan' approved' :
  outstanding_at es plan approved -> outstanding_at es plan' approved' -> plan = plan' /\ approved = approved'.
Proof.
  intros (l1 & e & l2 & E & Hp & <- & Hin & Ha) (l1' & e' & l2' & E' & Hp' & <- & Hin' & Ha'). subst es.
  assert (Hlen : length l1 = length l1').
  { assert (Hno : forall k1 x k2 k1' x' k2', k1 ++ x :: k2 = k1' ++ x' :: k2' -> is_published x' -> Forall inert k2 ->
      (length k1' <= length k1)%nat).
    { intros k1 x k2 k1' x' k2' Ek Hx Hk. destruct (decide (length k1' <= length k1)%nat) as [|Hn]; [done|].
      assert (H : (k1 ++ x :: k2) !! length k1' = Some x') by (rewrite Ek; by apply list_lookup_middle).
      rewrite lookup_app_r in H by lia. destruct (length k1' - length k1)%nat eqn:En; [lia|]. cbn in H.
      rewrite Forall_forall in Hk. by destruct (Hk x' (list_elem_of_lookup_2 _ _ _ H)). }
    apply Nat.le_antisymm; eapply Hno; eauto. }
  apply app_inj_1 in E' as [-> E']; [|done]. injection E' as -> ->. split; [done|].
  apply eq_true_iff_eq. by rewrite Ha, Ha'.
Qed.

Lemma outstanding_not_nothing es plan approved : outstanding_at es plan approved -> ~ nothing_outstanding es.
Proof.
  intros (l1 & e & l2 & -> & Hp & _ & Hin & _) Hn. specialize (Hn l1 e l2 eq_refl Hp).
  rewrite Forall_forall in Hin. apply Exists_exists in Hn as (x & Hx & Hni). by apply Hni, Hin.
Qed.

(** ** The outstanding plan survives the bounds *)

Section keep.
Context (published approval : option nat).
Abbreviation sp := (specials published approval).

Lemma specials_none pre : forall index,
  (forall i, (i < length pre)%nat -> special published approval (index + i) = false) -> sp index pre = [].
Proof.
  induction pre as [|e pre IH]; intros index H; [done|]. cbn [specials].
  pose proof (H O ltac:(cbn; lia)) as H0. rewrite Nat.add_0_r in H0. rewrite H0.
  apply IH. intros i Hi. rewrite Nat.add_succ_comm. apply H. cbn. lia.
Qed.

Lemma specials_app a b : forall index, sp index (a ++ b) = sp index a ++ sp (index + length a) b.
Proof.
  induction a as [|e a IH]; intros index; cbn; [by rewrite Nat.add_0_r|].
  rewrite IH, Nat.add_succ_comm. by destruct (special _ _ _).
Qed.

Lemma specials_subset x pre : forall index, x ∈ sp index pre -> x ∈ pre.
Proof.
  induction pre as [|e pre IH]; intros index; cbn; [done|].
  destruct (special _ _ _); rewrite ?elem_of_cons; naive_solver.
Qed.

Lemma specials_in pre x : forall index i,
  pre !! i = Some x -> special published approval (index + i) = true -> x ∈ sp index pre.
Proof.
  induction pre as [|e pre IH]; intros index [|i] Hi Hs; try done; cbn [specials].
  - cbn in Hi. injection Hi as ->. rewrite Nat.add_0_r in Hs. rewrite Hs. apply elem_of_cons. by left.
  - cbn in Hi. assert (Hin : x ∈ sp (S index) pre) by (apply (IH _ i); [done|by rewrite Nat.add_succ_comm]).
    destruct (special published approval index); [apply elem_of_cons; by right|done].
Qed.
End keep.

Lemma special_before p a i : (i < p)%nat -> (forall k, a = Some k -> (p < k)%nat) -> special (Some p) a i = false.
Proof.
  intros Hi Ha. unfold special. apply orb_false_iff. split; apply bool_decide_eq_false.
  - intros [= ->]. lia.
  - intros ->. specialize (Ha i eq_refl). lia.
Qed.

(** The published entry lies in the part kept whole. *)
Lemma keep_late pre k e l2 a approved :
  (forall q, a = Some q -> (length (pre ++ k) < q)%nat) -> is_published e -> Forall inert l2 ->
  (approved = true <-> Exists (approves (Plan e)) l2) ->
  outstanding_at (specials (Some (length (pre ++ k))) a 0 pre ++ k ++ e :: l2) (Plan e) approved.
Proof.
  intros Hlater Hp Hin Hap. rewrite specials_none.
  - cbn [app]. by exists k, e, l2.
  - intros i Hi. apply special_before; [rewrite length_app; lia|done].
Qed.

(** The published entry is kept on its own, with its newest approval. *)
Lemma keep_early l1 e l2a suf a approved :
  (forall q, a = Some q -> exists m1 e' m2, l2a ++ suf = m1 ++ e' :: m2 /\ q = (S (length l1) + length m1)%nat /\
     approves (Plan e) e') ->
  is_published e -> Forall inert (l2a ++ suf) -> approved = bool_decide (is_Some a) ->
  (approved = true <-> Exists (approves (Plan e)) (l2a ++ suf)) ->
  outstanding_at (specials (Some (length l1)) a 0 (l1 ++ e :: l2a) ++ suf) (Plan e) approved.
Proof.
  intros Hq Hp Hin Happr Hap. rewrite specials_app, (specials_none _ _ l1).
  2: { intros i Hi. apply special_before; [lia|]. intros q Eq. destruct (Hq q Eq) as (? & ? & ? & _ & -> & _). lia. }
  cbn [app specials Nat.add]. replace (special _ _ (length l1)) with true
    by (unfold special; by rewrite bool_decide_eq_true_2).
  exists [], e, (specials (Some (length l1)) a (S (length l1)) l2a ++ suf). split; [done|]. split; [done|]. split; [done|].
  apply Forall_app in Hin as [Hin1 Hin2]. split.
  { apply Forall_app. split; [|done]. rewrite Forall_forall in *. eauto using specials_subset. }
  split.
  - intros Ht. assert (His : is_Some a) by (rewrite Happr in Ht; by apply bool_decide_eq_true in Ht).
    destruct His as [q ->]. destruct (Hq q eq_refl) as (m1 & e' & m2 & E & -> & Hap'). apply Exists_exists. exists e'.
    split; [|done]. apply elem_of_app. assert (Hlk : (l2a ++ suf) !! length m1 = Some e') by (rewrite E; by apply list_lookup_middle).
    apply lookup_app_Some in Hlk as [Hlk|[_ Hlk]]; [left|right; by eapply list_elem_of_lookup_2].
    eapply specials_in; [exact Hlk|]. unfold special. apply orb_true_iff. right. by apply bool_decide_eq_true.
  - intros Hx. apply Hap. apply Exists_exists in Hx as (x & Hx & Hax). apply Exists_exists. exists x. split; [|done].
    rewrite elem_of_app in *. destruct Hx as [Hx|Hx]; [left; by eapply specials_subset|by right].
Qed.

Lemma bounds_keep_outstanding es pre suf p a :
  located es (Some p) a -> es = pre ++ suf ->
  exists plan approved, outstanding_at es plan approved /\ outstanding_at (specials (Some p) a 0 pre ++ suf) plan approved.
Proof.
  intros (l1 & e & l2 & E & <- & Hp & Hin & Ha) Hes.
  assert (Hloc : forall q, a = Some q -> exists m1 e' m2, l2 = m1 ++ e' :: m2 /\ q = (S (length l1) + length m1)%nat /\
    approves (Plan e) e') by (by intros q ->).
  assert (Hex : bool_decide (is_Some a) = true <-> Exists (approves (Plan e)) l2).
  { rewrite bool_decide_eq_true. destruct a as [a|]; [|split; [by intros [? ?]|done]]. split; [|by eexists]. intros _.
    destruct Ha as (m1 & e' & m2 & -> & _ & Hap). apply Exists_app. right. by constructor. }
  exists (Plan e), (bool_decide (is_Some a)). split; [by exists l1, e, l2|].
  assert (Esplit : l1 ++ e :: l2 = pre ++ suf) by congruence.
  assert (Hlater : forall q, a = Some q -> (length l1 < q)%nat)
    by (intros q Hq; destruct (Hloc q Hq) as (? & ? & ? & _ & -> & _); lia).
  apply app_eq_app in Esplit as [k [[-> ->]|[-> E2]]]; [by apply keep_late|].
  destruct k as [|x k]; cbn in E2.
  - subst suf. rewrite app_nil_r. pose proof (keep_late l1 [] e l2 a (bool_decide (is_Some a))) as H.
    rewrite app_nil_r in H. by apply H.
  - injection E2 as <- ->. by apply keep_early.
Qed.

Lemma bounds_keep_nothing es pre suf : nothing_outstanding es -> es = pre ++ suf -> nothing_outstanding suf.
Proof. intros H -> l1 e l2 -> He. apply (H (pre ++ l1) e l2); [by rewrite app_assoc|done]. Qed.

Lemma applyBounds_shape j : Entries j <> [] -> exists pre suf,
  Entries j = pre ++ suf /\
  Entries (applyBounds j) = specials (outstanding (Entries j)).1 (outstanding (Entries j)).2 0 pre ++ suf /\
  CoveredSince j <= CoveredSince (applyBounds j) /\
  Forall (fun e => latest e <= CoveredSince (applyBounds j))
    (dropped (outstanding (Entries j)).1 (outstanding (Entries j)).2 0 pre).
Proof.
  intros Hne. unfold applyBounds. destruct (last (Entries j)) as [newest|] eqn:Hl; [|by apply last_None in Hl].
  destruct (outstanding (Entries j)) as [p a]. cbn [fst snd].
  destruct (bound_loop_shape p a (length (Entries j)) (latest newest - MaxAge) (Entries j) 0 [] (CoveredSince j))
    as (pre & suf & E & H1 & H2 & H3).
  exists pre, suf. destruct (bound_loop _ _ _ _ _ _ _ _) as [kept covered]. cbn in *. by rewrite H1.
Qed.

Lemma applyBounds_outstanding j : OutstandingPlan (Some (applyBounds j)) = OutstandingPlan (Some j).
Proof.
  destruct (decide (Entries j = [])) as [Hnil|Hne]; [unfold applyBounds; by rewrite Hnil|].
  destruct (applyBounds_shape j Hne) as (pre & suf & Hes & Hk & _).
  pose proof (outstanding_located (Entries j)) as Hloc. destruct (outstanding (Entries j)) as [[p|] a]; cbn [fst snd] in *.
  - destruct (bounds_keep_outstanding _ _ _ _ _ Hloc Hes) as (plan & approved & H1 & H2). rewrite <- Hk in H2.
    destruct (OutstandingPlan_spec j) as [(pl & ap & H3 & ->)|[H3 _]]; [|by apply outstanding_not_nothing in H1].
    destruct (OutstandingPlan_spec (applyBounds j)) as [(pl' & ap' & H4 & ->)|[H4 _]]; [|by apply outstanding_not_nothing in H2].
    destruct (outstanding_unique _ _ _ _ _ H1 H3), (outstanding_unique _ _ _ _ _ H2 H4). congruence.
  - destruct Hloc as [-> Hnone]. rewrite specials_none in Hk by done. cbn in Hk.
    pose proof (bounds_keep_nothing _ _ _ Hnone Hes) as Hn. rewrite <- Hk in Hn.
    destruct (OutstandingPlan_spec j) as [(pl & ap & H3 & _)|[_ ->]]; [by apply outstanding_not_nothing in H3|].
    by destruct (OutstandingPlan_spec (applyBounds j)) as [(pl & ap & H3 & _)|[_ ->]]; [apply outstanding_not_nothing in H3|].
Qed.

(** * Properties *)

(** The journal with the entries added, before the bounds are applied. *)
Definition unbounded (journal : option LifecycleJournal) (entries : list JournalEntry) (now : Z) : LifecycleJournal :=
  let j := default {| CoveredSince := now; Entries := [] |} journal in
  {| CoveredSince := CoveredSince j; Entries := fold_left add_entry entries (Entries j) |}.

Lemma Record_unbounded journal entries now : Record_ journal entries now = applyBounds (unbounded journal entries now).
Proof. done. Qed.

Lemma due_le_1 o i : due o i <= 1.
Proof. unfold due. destruct o; [case_goal|]; lia. Qed.

(** The journal is bounded and current. Whatever journal it starts from,
    [Record] leaves at most 64 entries, which the API schema requires of a
    status write, and the newest entry is never dropped. *)
Theorem journal_bounded (journal : option LifecycleJournal) (entries : list JournalEntry) (now : Z) :
  Z.of_nat (length (Entries (Record_ journal entries now))) <= MaxEntries /\
  last (Entries (Record_ journal entries now)) = last (Entries (unbounded journal entries now)).
Proof.
  rewrite Record_unbounded. set (j := unbounded _ _ _). unfold applyBounds.
  destruct (last (Entries j)) as [newest|] eqn:Hl.
  2: { apply last_None in Hl. rewrite Hl. cbn. split; [|done]. unfold MaxEntries. lia. }
  destruct (outstanding (Entries j)) as [p a].
  pose proof (due_le_1 p 0). pose proof (due_le_1 a 0).
  pose proof (bound_loop_length p a (length (Entries j)) (latest newest - MaxAge) (Entries j) 0 [] (CoveredSince j)) as H1.
  pose proof (bound_loop_last p a (length (Entries j)) (latest newest - MaxAge) (Entries j) newest 0 [] (CoveredSince j)) as H2.
  destruct (bound_loop _ _ _ _ _ _ _ _) as [kept covered]. cbn in *.
  split; [apply H1; lia|apply H2; [done|done|unfold MaxAge, Second; lia|lia]].
Qed.

(** The bounds never lose the plan a person is asked about. The plan the
    journal reports as published and not carried out, and whether an approval
    of it was accepted, are the same after the bounds as before, however old
    those entries are and however many came after. *)
Theorem journal_keeps_outstanding (journal : option LifecycleJournal) (entries : list JournalEntry) (now : Z) :
  OutstandingPlan (Some (Record_ journal entries now)) = OutstandingPlan (Some (unbounded journal entries now)).
Proof. rewrite Record_unbounded. apply applyBounds_outstanding. Qed.

Lemma specials_or_dropped p a pre e : forall index,
  e ∈ pre -> e ∈ specials p a index pre \/ e ∈ dropped p a index pre.
Proof.
  induction pre as [|x pre IH]; intros index He; [by apply elem_of_nil in He|]. cbn.
  apply elem_of_cons in He as [-> | He]; destruct (special p a index); rewrite ?elem_of_cons; auto;
    destruct (IH (S index) He); auto.
Qed.

(** What the journal says it covers is complete. [CoveredSince] only moves
    forward, and every entry that was recorded is still in the journal or is
    no later than [CoveredSince]. *)
Theorem journal_coverage (journal : option LifecycleJournal) (entries : list JournalEntry) (now : Z) :
  let full := unbounded journal entries now in
  let stored := Record_ journal entries now in
  CoveredSince full <= CoveredSince stored /\
  forall e, e ∈ Entries full -> e ∈ Entries stored \/ latest e <= CoveredSince stored.
Proof.
  cbv zeta. rewrite Record_unbounded. set (j := unbounded _ _ _).
  destruct (decide (Entries j = [])) as [Hnil|Hne].
  { unfold applyBounds. rewrite Hnil. cbn [last]. split; [lia|]. intros e He. left. revert He. by rewrite ?Hnil. }
  destruct (applyBounds_shape j Hne) as (pre & suf & Hes & -> & Hc & Hd). split; [done|].
  intros e He. rewrite elem_of_app. rewrite Hes in He. apply elem_of_app in He as [He|He]; [|by auto].
  destruct (specials_or_dropped (outstanding (Entries j)).1 (outstanding (Entries j)).2 pre e 0 He) as [|Hx]; [by auto|].
  right. rewrite Forall_forall in Hd. by apply Hd.
Qed.

(** The failed attempts an entry stands for. *)
Definition attempts (e : JournalEntry) : Z :=
  if bool_decide (EntryType e = JournalOperationFailed) then Z.max (Count e) 1 else 0.
Definition total_attempts (l : list JournalEntry) : Z := foldr (fun e n => attempts e + n) 0 l.

#[local] Arguments total_attempts : simpl never.
Lemma total_attempts_cons e l : total_attempts (e :: l) = attempts e + total_attempts l.
Proof. done. Qed.
Lemma total_attempts_app a b : total_attempts (a ++ b) = total_attempts a + total_attempts b.
Proof. induction a as [|e a IH]; cbn [app]; [done|]. rewrite !total_attempts_cons, IH. lia. Qed.
Lemma attempts_nonneg e : 0 <= attempts e.
Proof. unfold attempts. case_bool_decide; lia. Qed.
Lemma total_attempts_nonneg l : 0 <= total_attempts l.
Proof. induction l as [|e l IH]; [done|]. rewrite total_attempts_cons. pose proof (attempts_nonneg e). lia. Qed.

Lemma add_entry_attempts l e :
  Count e = 0 -> total_attempts l + attempts e <= max_int32 ->
  total_attempts (add_entry l e) = total_attempts l + attempts e.
Proof.
  intros Hc Hb. unfold add_entry. destruct (last l) as [newest|] eqn:Hl.
  2: { apply last_None in Hl as ->. rewrite total_attempts_cons. change (total_attempts []) with 0. lia. }
  destruct (folds newest e) eqn:Hf; [|rewrite total_attempts_app, total_attempts_cons; change (total_attempts []) with 0; lia].
  apply last_Some in Hl as [l' ->]. rewrite removelast_last, !total_attempts_app, !total_attempts_cons in *.
  change (total_attempts []) with 0 in *.
  unfold folds in Hf. bool_prop. pose proof (total_attempts_nonneg l').
  unfold attempts in *. cbn. rewrite !bool_decide_eq_true_2 in * by done. rewrite Hc in *.
  rewrite int32_wrap_small by (unfold in_int32, max_int32 in *; apply andb_true_iff; rewrite Z.leb_le, Z.ltb_lt; lia).
  lia.
Qed.

(** Folding repeated failures loses no attempt. As long as the attempts a
    journal stands for fit in the count, adding new entries adds exactly one
    attempt per failed entry, whether it was folded or appended. *)
Theorem folding_counts_attempts (es l : list JournalEntry) :
  Forall (fun e => Count e = 0) es -> total_attempts l + total_attempts es <= max_int32 ->
  total_attempts (fold_left add_entry es l) = total_attempts l + total_attempts es.
Proof.
  revert l. induction es as [|e es IH]; intros l Hc Hb; cbn [fold_left]; [change (total_attempts []) with 0; lia|].
  rewrite total_attempts_cons in *.
  apply Forall_cons in Hc as [Hc Hcs]. pose proof (total_attempts_nonneg es).
  rewrite IH by (try done; rewrite add_entry_attempts by (done || lia); lia).
  rewrite add_entry_attempts by (done || lia). lia.
Qed.

Definition sample_failure : JournalEntry := with_reason "Timeout" (newEntry JournalOperationFailed 5).

Lemma folding_counts_attempts_witness :
  total_attempts (fold_left add_entry [sample_failure; sample_failure] [sample_failure]) = 3 /\
  length (fold_left add_entry [sample_failure; sample_failure] [sample_failure]) = 1%nat.
Proof.
  split; [|reflexivity].
  refine (eq_trans (folding_counts_attempts [sample_failure; sample_failure] [sample_failure] _ _) _);
    [by repeat constructor|vm_compute; discriminate|reflexivity].
Defined.

Lemma schema_quiet {Conditions : Type} (find : Conditions -> string -> option Condition)
    (isTrue : Conditions -> string -> bool) (s : SchemaStatus) now :
  apply_entry s s now ++ verified_entry find isTrue s s now ++ schema_failure_entry find s s now = [].
Proof.
  unfold apply_entry, verified_entry, schema_failure_entry, schema_retried.
  replace (match SPending s with Some _ => _ | None => [] end) with (@nil JournalEntry) by (by destruct (SPending s)).
  replace (match SActive s with Some operation => _ | None => [] end) with (@nil JournalEntry).
  2: { destruct (SActive s) as [o|]; [|done]. cbn. rewrite (bool_decide_eq_true_2 (Some _ = Some _)) by done.
       by rewrite andb_false_r. }
  cbn [app]. destruct (find (SConditions s) _) as [c|]; [|done]. destruct (ConditionTrue c); [|done]. cbn.
  rewrite bool_decide_eq_true_2 by done. destruct (SActive s) as [o|]; [|done]. cbn.
  by rewrite bool_decide_eq_true_2, Z.ltb_irrefl by done.
Qed.

Lemma finishedRun_quiet {Conditions : Type} (s : @MigrationStatus Conditions) j now : finishedRun s s (Some j) now = None.
Proof.
  unfold finishedRun, finished_run. assert (Hsome : bool_decide (is_Some (Some j)) = true) by (by apply bool_decide_eq_true_2).
  assert (Hhold : match MUnresolved s with
    | Some hold => bool_decide (HoldOperationID <$> MUnresolved s = Some (HoldOperationID hold)) = true | None => True end).
  { destruct (MUnresolved s); [|done]. by apply bool_decide_eq_true_2. }
  destruct (MUnresolved s) as [hold|] eqn:Hu; [rewrite Hhold, Hsome; cbn [andb]|];
    (destruct (MLastRun s) as [run|]; [|done]; cbn; destruct (RunFinishedAt run) eqn:Hf; [|done]; cbn;
     unfold sameRun; rewrite ?Hf, !bool_decide_eq_true_2 by (done || by eexists);
     by rewrite Z.eqb_refl).
Qed.

Lemma migration_quiet {Conditions : Type} (find : Conditions -> string -> option Condition)
    (s : MigrationStatus) j now : MigrationEntries find s s (Some j) now = [].
Proof.
  unfold MigrationEntries. rewrite finishedRun_quiet. cbn [option_list app].
  assert (Hsome : bool_decide (is_Some (Some j)) = true) by (by apply bool_decide_eq_true_2).
  unfold migration_plan_entry, migration_approval_entry, migration_verified_entry, acknowledged_entry,
    migration_failure_entry, migrationHeldApproval, migration_retried.
  replace (match MPlan s with Some _ => _ | None => [] end) with (@nil JournalEntry)
    by (destruct (MPlan s); [|done]; by rewrite bool_decide_eq_true_2).
  replace (match MActive s with Some operation => _ | None => [] end) with (@nil JournalEntry).
  2: { destruct (MActive s) as [o|]; [|done]. cbn. destruct (MOpApprovalRef o) as [ref|] eqn:Hr; [|done]. cbn.
       rewrite ?Hsome, (bool_decide_eq_true_2 (ref.2 = _)) by done. cbn. by rewrite andb_false_r. }
  replace (match MLastRun s with Some run => _ | None => [] end) with (@nil JournalEntry).
  2: { destruct (MLastRun s) as [run|]; [|done]. cbn. destruct (RunVerification run) as [[at_ found]|] eqn:Hv; [|done].
       by rewrite ?Hv, ?bool_decide_eq_true_2 by (by eexists). }
  replace (match MResolved s with Some resolved => _ | None => [] end) with (@nil JournalEntry).
  2: { destruct (MResolved s) as [r|]; [|done]. cbn. rewrite (bool_decide_eq_true_2 (Some _ = Some _)) by done.
       by rewrite andb_false_r. }
  cbn [app]. destruct (bool_decide (MPhase s = "Failed")); [|done].
  rewrite (bool_decide_eq_true_2 (ready_reason find s = _)) by done. cbn.
  destruct (MActive s) as [o|]; [|done]. cbn. by rewrite bool_decide_eq_true_2, Z.ltb_irrefl by done.
Qed.

(** A status write that changes nothing records nothing. For a resource
    that already keeps a journal, writing the status it had adds no entry, for
    both families: no plan, approval, run, proof or failure is journaled
    twice by a read-only cycle. *)
Theorem quiet_write_records_nothing {Conditions : Type}
    (FindStatusCondition : Conditions -> string -> option Condition) (IsStatusConditionTrue : Conditions -> string -> bool)
    (schema : SchemaStatus) (migration : MigrationStatus) (j : LifecycleJournal) (now : Z) :
  SchemaEntries FindStatusCondition IsStatusConditionTrue schema schema (Some j) now = [] /\
  MigrationEntries FindStatusCondition migration migration (Some j) now = [].
Proof.
  assert (Hsome : bool_decide (is_Some (Some j)) = true) by (by apply bool_decide_eq_true_2).
  split; [|by apply migration_quiet]. unfold SchemaEntries, plan_entry, approval_entry.
  destruct (SPlan schema) as [plan|] eqn:Hp; [|by apply schema_quiet].
  cbn [fmap option_fmap option_map]. rewrite (bool_decide_eq_true_2 (Some _ = Some _)) by done. cbn [negb andb app].
  destruct (PlanApproval_ plan) as [a|] eqn:Ha; [|by apply schema_quiet].
  unfold schemaHeldApproval. rewrite Hp. cbn [mbind option_bind]. rewrite Ha, Hsome, bool_decide_eq_true_2 by done.
  by apply schema_quiet.
Qed.
