(* ===== verification/MigrationStatus.v ===== *)
(** * What Ptah reports of a migration history (package [internal/dataplane],
      [migration.go])

    The status document of [migrations status] and the run document of
    [migrations up]: their data, what is read out of them (the pending
    selection, the modified and out-of-order versions, the artifact's extent)
    and the validation that refuses a document that contradicts itself. The
    text of a document is decoded by [encoding/json]; the decoders here take
    what [decodeJSON] produced, [None] when it failed, and run every check the
    code runs on it. *)
From stdpp Require Import base list gmap strings.
From Stdlib Require Import ZArith Lia Ascii.
From S2P Require Import Prelude GoStrings.
Local Open Scope go_scope.
Local Open Scope Z_scope.

Definition SupportedMigrationStatusContract : Z := 2.
Definition SupportedMigrationRunContract : Z := 2.
Definition MigrationStatusCommand : string := "migrations status".
Definition MigrationRunCommand : string := "migrations up".

Definition MigrationStateApplied : string := "applied".
Definition MigrationStateModified : string := "modified".
Definition MigrationStateDirty : string := "dirty".
Definition MigrationStatePending : string := "pending".
Definition MigrationStateOutOfOrder : string := "out-of-order".
Definition MigrationStateCheckpointCovered : string := "checkpoint-covered".
Definition migrationStates : list string :=
  [MigrationStateApplied; MigrationStateModified; MigrationStateDirty; MigrationStatePending;
   MigrationStateOutOfOrder; MigrationStateCheckpointCovered].

Definition MigrationOutcomeUpToDate : string := "up-to-date".
Definition MigrationOutcomeApplied : string := "applied".
Definition MigrationOutcomeDryRun : string := "dry-run".
Definition MigrationOutcomeFailed : string := "failed".
Definition MigrationOutcomePartial : string := "partial".
Definition MigrationOutcomeUnknown : string := "unknown".
Definition migrationOutcomes : list string :=
  [MigrationOutcomeUpToDate; MigrationOutcomeApplied; MigrationOutcomeDryRun; MigrationOutcomeFailed;
   MigrationOutcomePartial; MigrationOutcomeUnknown].
Definition IsKnownMigrationOutcome (outcome : string) : bool := bool_decide (outcome ∈ migrationOutcomes).

(** ** Documents *)

(** [AppliedAt] is a [*time.Time], kept as nanoseconds; nothing compares it. *)
Record MigrationRecord : Type := {
  RecVersion : Z;
  RecVersionKey : string;
  RecDescription : string;
  RecChecksum : string;
  RecAppliedChecksum : string;
  RecCheckpoint : bool;
  RecTransactionMode : string;
  RecAppliedAt : option Z;
  RecExecutionMs : option Z;
  RecState : string;
}.

Definition HasRevisionRow (m : MigrationRecord) : bool :=
  bool_decide (RecState m = MigrationStateApplied) || bool_decide (RecState m = MigrationStateModified)
  || bool_decide (RecState m = MigrationStateDirty).

Definition MaxMigrationDescriptionBytes : Z := 255.
Definition MaxMigrationChecksumBytes : Z := 128.

Record MigrationDirty : Type := {
  DirtyVersion : Z;
  DirtyApplied : Z;
  DirtyTotal : Z;
  DirtyError : string;
}.

(** [PendingMigrations] is a slice whose nil is told apart from empty. *)
Record MigrationStatusReport : Type := {
  StatusContractVersion : Z;
  CurrentVersion : Z;
  CheckpointVersion : Z;
  TotalMigrations : Z;
  HasPendingChanges : bool;
  PendingMigrations : option (list Z);
  Migrations : list MigrationRecord;
  DirtyRevision : option MigrationDirty;
}.

Record CommandError : Type := {
  ErrorKind : string;
  ErrorMessage : string;
}.

Record MigrationRunFailure : Type := {
  FailureVersion : Z;
  Statement : Z;
  Statements : Z;
  SQLState : string;
  ErrorNumber : Z;
}.

Record MigrationRunReport : Type := {
  RunContractVersion : Z;
  Direction : string;
  Outcome : string;
  Planned : list Z;
  Applied : list Z;
  RunError : option CommandError;
  Failure : option MigrationRunFailure;
  Status : option MigrationStatusReport;
}.

Definition StoppedBeforeSelecting (r : MigrationRunReport) : bool :=
  bool_decide (Outcome r = MigrationOutcomeFailed) && bool_decide (Status r = None :> option _)
  && bool_decide (Planned r = []) && bool_decide (Applied r = []) && bool_decide (Failure r = None :> option _).

(** ** What a status document says *)

Definition selected_state (state : string) : bool :=
  bool_decide (state = MigrationStatePending) || bool_decide (state = MigrationStateOutOfOrder).

(** The versions of the records in one of the states. *)
Definition versions_where (f : string -> bool) (l : list MigrationRecord) : list Z :=
  RecVersion <$> List.filter (fun m => f (RecState m)) l.

Definition Pending (r : MigrationStatusReport) : list Z :=
  match PendingMigrations r with
  | Some l => l
  | None => versions_where selected_state (Migrations r)
  end.

Definition LastVersion (r : MigrationStatusReport) : Z :=
  foldl (fun last m => if last <? RecVersion m then RecVersion m else last) 0 (Migrations r).

Definition Modified (r : MigrationStatusReport) : list Z :=
  versions_where (fun s => bool_decide (s = MigrationStateModified)) (Migrations r).

Definition OutOfOrder (r : MigrationStatusReport) : list Z :=
  versions_where (fun s => bool_decide (s = MigrationStateOutOfOrder)) (Migrations r).

(** ** Validation *)

Inductive doc_error : Type :=
| DecodeFailed
| AnotherCommand
| FailureDocument
| ContractMismatch (version : Z)
| NegativeCount
| ListsMoreThanCounts (listed counted : Z)
| RecordWithoutVersion
| VersionTwice (version : Z)
| UnknownState (state : string) (version : Z)
| DescriptionTooLong (version : Z)
| ChecksumTooLong (version : Z)
| RanWithoutRow (version : Z)
| DurationWithoutTime (version : Z)
| NegativeDuration (version ms : Z)
| DirtyWithoutVersion
| WrongDirection (direction : string)
| UnknownOutcome (outcome : string)
| AppliedNotPlanned (version : Z)
| FailedAndComplete (outcome : string)
| FailureNotSelected (version : Z)
| BadStatement (statement statements : Z)
| BadSQLState
| BadErrorNumber (number : Z)
| FailedWithoutHistory.

Definition validateRow (m : MigrationRecord) : result doc_error unit :=
  guard (len (RecDescription m) <=? MaxMigrationDescriptionBytes) else DescriptionTooLong (RecVersion m);
  guard ((len (RecChecksum m) <=? MaxMigrationChecksumBytes)
         && (len (RecAppliedChecksum m) <=? MaxMigrationChecksumBytes)) else ChecksumTooLong (RecVersion m);
  guard (negb ((bool_decide (is_Some (RecAppliedAt m)) || bool_decide (is_Some (RecExecutionMs m)))
               && negb (HasRevisionRow m))) else RanWithoutRow (RecVersion m);
  guard (negb (bool_decide (is_Some (RecExecutionMs m)) && bool_decide (RecAppliedAt m = None)))
    else DurationWithoutTime (RecVersion m);
  match RecExecutionMs m with
  | Some ms => if ms <? 0 then Err (NegativeDuration (RecVersion m) ms) else Ok tt
  | None => Ok tt
  end.

Fixpoint validate_records (l : list MigrationRecord) (seen : gset Z) : result doc_error unit :=
  match l with
  | [] => Ok tt
  | m :: rest =>
      guard (0 <? RecVersion m) else RecordWithoutVersion;
      guard (bool_decide (RecVersion m ∉ seen)) else VersionTwice (RecVersion m);
      guard (bool_decide (RecState m ∈ migrationStates)) else UnknownState (RecState m) (RecVersion m);
      _ <-! validateRow m;
      validate_records rest ({[RecVersion m]} ∪ seen)
  end.

Definition validate_status (r : MigrationStatusReport) : result doc_error unit :=
  guard (StatusContractVersion r =? SupportedMigrationStatusContract)
    else ContractMismatch (StatusContractVersion r);
  guard (negb ((CurrentVersion r <? 0) || (CheckpointVersion r <? 0) || (TotalMigrations r <? 0)))
    else NegativeCount;
  guard (Z.of_nat (length (Migrations r)) <=? TotalMigrations r)
    else ListsMoreThanCounts (Z.of_nat (length (Migrations r))) (TotalMigrations r);
  _ <-! validate_records (Migrations r) ∅;
  match DirtyRevision r with
  | Some d => if DirtyVersion d <=? 0 then Err DirtyWithoutVersion else Ok tt
  | None => Ok tt
  end.

Definition maxMigrationStatements : Z := max_int32.

(** [^[0-9A-Z]{5}$] *)
Definition sqlStatePattern (s : string) : bool :=
  (len s =? 5) && str_all (fun a => is_digit a || is_upper a) s.

Definition validate_failure (f : MigrationRunFailure) (report : MigrationRunReport) : result doc_error unit :=
  guard (negb (bool_decide (Outcome report = MigrationOutcomeApplied)
               || bool_decide (Outcome report = MigrationOutcomeUpToDate)))
    else FailedAndComplete (Outcome report);
  guard (negb (bool_decide (FailureVersion f ∉ Planned report)
               || bool_decide (FailureVersion f ∈ Applied report)))
    else FailureNotSelected (FailureVersion f);
  guard (negb ((Statement f <? 1) || (Statements f <? Statement f) || (maxMigrationStatements <? Statements f)))
    else BadStatement (Statement f) (Statements f);
  guard (negb (bool_decide (SQLState f <> EmptyString) && negb (sqlStatePattern (SQLState f))))
    else BadSQLState;
  guard (negb ((ErrorNumber f <? 0) || (65535 <? ErrorNumber f))) else BadErrorNumber (ErrorNumber f);
  Ok tt.

(** ** Reading a document *)

Record migrationEnvelope : Type := {
  Command : string;
  EnvelopeError : option CommandError;
}.

(** [envelope] and [document] are what the two [decodeJSON] calls produced
    from the bytes, [None] for an error. *)
Definition DecodeMigrationStatus (envelope : option migrationEnvelope)
    (document : option MigrationStatusReport) : result doc_error MigrationStatusReport :=
  match envelope with
  | None => Err DecodeFailed
  | Some e =>
      guard (bool_decide (Command e = MigrationStatusCommand)) else AnotherCommand;
      guard (bool_decide (EnvelopeError e = None :> option _)) else FailureDocument;
      match document with
      | None => Err DecodeFailed
      | Some report =>
          _ <-! validate_status report;
          Ok report
      end
  end.

(** The first applied version that was never planned. *)
Fixpoint unplanned (applied planned : list Z) : option Z :=
  match applied with
  | [] => None
  | version :: rest => if bool_decide (version ∈ planned) then unplanned rest planned else Some version
  end.

Definition DecodeMigrationRun (envelope : option migrationEnvelope)
    (document : option MigrationRunReport) : result doc_error MigrationRunReport :=
  match envelope with
  | None => Err DecodeFailed
  | Some e =>
      guard (bool_decide (Command e = MigrationRunCommand)) else AnotherCommand;
      match document with
      | None => Err DecodeFailed
      | Some report =>
          guard (RunContractVersion report =? SupportedMigrationRunContract)
            else ContractMismatch (RunContractVersion report);
          guard (bool_decide (Direction report = "up")) else WrongDirection (Direction report);
          guard (bool_decide (Outcome report ∈ migrationOutcomes)) else UnknownOutcome (Outcome report);
          _ <-! match Status report with Some s => validate_status s | None => Ok tt end;
          match unplanned (Applied report) (Planned report) with
          | Some version => Err (AppliedNotPlanned version)
          | None =>
              _ <-! match Failure report with Some f => validate_failure f report | None => Ok tt end;
              if bool_decide (Outcome report = MigrationOutcomeFailed)
                 && bool_decide (Status report = None :> option _) && negb (StoppedBeforeSelecting report)
              then Err FailedWithoutHistory
              else Ok report
          end
      end
  end.

(** * What an accepted document satisfies *)

(** A record's account of its revision row agrees with its state. *)
Definition row_wf (m : MigrationRecord) : Prop :=
  len (RecDescription m) <= MaxMigrationDescriptionBytes /\
  len (RecChecksum m) <= MaxMigrationChecksumBytes /\
  len (RecAppliedChecksum m) <= MaxMigrationChecksumBytes /\
  (is_Some (RecAppliedAt m) -> HasRevisionRow m = true) /\
  (forall ms, RecExecutionMs m = Some ms -> 0 <= ms /\ is_Some (RecAppliedAt m)).

Definition status_wf (r : MigrationStatusReport) : Prop :=
  StatusContractVersion r = SupportedMigrationStatusContract /\
  0 <= CurrentVersion r /\ 0 <= CheckpointVersion r /\
  Z.of_nat (length (Migrations r)) <= TotalMigrations r /\
  NoDup (RecVersion <$> Migrations r) /\
  Forall (fun m => 0 < RecVersion m /\ RecState m ∈ migrationStates /\ row_wf m) (Migrations r) /\
  (forall d, DirtyRevision r = Some d -> 0 < DirtyVersion d).

(** A failed statement belongs to a migration the run selected and left
    unapplied, of a run that did not complete. *)
Definition failure_wf (f : MigrationRunFailure) (r : MigrationRunReport) : Prop :=
  Outcome r <> MigrationOutcomeApplied /\ Outcome r <> MigrationOutcomeUpToDate /\
  (FailureVersion f ∈ Planned r) /\ (FailureVersion f ∉ Applied r) /\
  1 <= Statement f <= Statements f /\ Statements f <= maxMigrationStatements /\
  (SQLState f = EmptyString \/ sqlStatePattern (SQLState f) = true) /\
  0 <= ErrorNumber f < 2 ^ 16.

Definition run_wf (r : MigrationRunReport) : Prop :=
  RunContractVersion r = SupportedMigrationRunContract /\ Direction r = "up" /\
  Outcome r ∈ migrationOutcomes /\
  (forall s, Status r = Some s -> status_wf s) /\
  (forall v, v ∈ Applied r -> v ∈ Planned r) /\
  (forall f, Failure r = Some f -> failure_wf f r) /\
  (Outcome r = MigrationOutcomeFailed -> Status r = None ->
   Planned r = [] /\ Applied r = [] /\ Failure r = None).

(** ** Lemmas *)

Lemma validateRow_spec m : validateRow m = Ok tt <-> row_wf m.
Proof.
  unfold validateRow, row_wf. guards. flags.
  destruct (RecExecutionMs m) as [ms|], (RecAppliedAt m) as [at_|], (HasRevisionRow m); cbn;
    try destruct (ms <? 0) eqn:?; bool_prop.
  all: split; intros; destruct_and?; destruct_or?; split_and?;
    intros; simplify_eq; try done; try lia; eauto.
  all: repeat match goal with
    | H : forall ms, Some _ = Some ms -> _ |- _ => destruct (H _ eq_refl); clear H
    | H : is_Some _ -> false = true |- _ => discriminate (H (mk_is_Some _ _ eq_refl))
    | H : is_Some None |- _ => by apply is_Some_None in H
    | H : ~ is_Some (Some _) |- _ => by destruct (H (mk_is_Some _ _ eq_refl))
    end; lia.
Qed.

Lemma validate_records_spec l : forall seen,
  validate_records l seen = Ok tt <->
  NoDup (RecVersion <$> l) /\ (forall m, m ∈ l -> RecVersion m ∉ seen) /\
  Forall (fun m => 0 < RecVersion m /\ RecState m ∈ migrationStates /\ row_wf m) l.
Proof.
  induction l as [|m l IH]; intros seen; simpl.
  { split; [|done]. intros _. split; [constructor|]. split; [|constructor]. intros m Hm. inversion Hm. }
  guards. flags. rewrite IH, validateRow_spec, NoDup_cons, Forall_cons, list_elem_of_fmap.
  setoid_rewrite elem_of_cons. setoid_rewrite elem_of_union. setoid_rewrite elem_of_singleton.
  naive_solver.
Qed.

Lemma validate_status_spec r : validate_status r = Ok tt <-> status_wf r.
Proof.
  unfold validate_status, status_wf. guards. flags. rewrite validate_records_spec.
  destruct (DirtyRevision r) as [d|]; [destruct (DirtyVersion d <=? 0) eqn:?; bool_prop|].
  all: split; [|intros (?&?&?&?&?&?&?)]; naive_solver lia || (intuition (try lia; try set_solver)).
Qed.

Lemma validate_failure_spec f r : validate_failure f r = Ok tt <-> failure_wf f r.
Proof.
  unfold validate_failure, failure_wf, maxMigrationStatements, max_int32. guards. flags.
  destruct (sqlStatePattern (SQLState f)), (decide (SQLState f = EmptyString)),
    (decide (FailureVersion f ∈ Planned r)); intuition (try lia; try done).
Qed.

Lemma unplanned_spec applied planned :
  unplanned applied planned = None <-> forall v, v ∈ applied -> v ∈ planned.
Proof.
  induction applied as [|v l IH]; simpl.
  { split; [|done]. intros _ v Hv. inversion Hv. }
  setoid_rewrite elem_of_cons. case_bool_decide; [rewrite IH|]; naive_solver.
Qed.

Lemma versions_where_spec f l v :
  v ∈ versions_where f l <-> exists m, m ∈ l /\ f (RecState m) = true /\ RecVersion m = v.
Proof.
  unfold versions_where. rewrite list_elem_of_fmap. setoid_rewrite list_elem_of_In.
  setoid_rewrite filter_In. naive_solver.
Qed.

Lemma versions_where_sublist f l : sublist (versions_where f l) (RecVersion <$> l).
Proof.
  unfold versions_where. induction l as [|m l IH]; simpl; [constructor|].
  destruct (f (RecState m)); simpl; by constructor.
Qed.

Lemma last_version_go l : forall z,
  let last := foldl (fun last m => if last <? RecVersion m then RecVersion m else last) z l in
  z <= last /\ (forall m, m ∈ l -> RecVersion m <= last) /\ (last = z \/ last ∈ RecVersion <$> l).
Proof.
  induction l as [|m l IH]; intros z; simpl.
  { split_and!; [lia| |by left]. intros m Hm. inversion Hm. }
  destruct (IH (if z <? RecVersion m then RecVersion m else z)) as (H1 & H2 & H3).
  split_and!.
  - destruct (z <? RecVersion m) eqn:?; lia.
  - intros m' [->|Hm]%elem_of_cons; [destruct (z <? RecVersion m) eqn:?; lia|auto].
  - rewrite elem_of_cons. destruct (z <? RecVersion m); tauto.
Qed.

(** * Properties *)

(** A run document is accepted exactly when it is one [migrations up]
    printed under contract 2 and accounts for itself: every applied version
    was planned, a failed statement belongs to a version that was planned and
    not applied, in a run that did not complete, within its statement count,
    with a SQLSTATE of five digits or capital letters; the status it carries
    is well formed; and a failed run with no status selected nothing. *)
Theorem run_document_accepts (envelope : option migrationEnvelope)
    (document : option MigrationRunReport) (r : MigrationRunReport) :
  DecodeMigrationRun envelope document = Ok r <->
  (exists e, envelope = Some e /\ Command e = MigrationRunCommand) /\ document = Some r /\ run_wf r.
Proof.
  destruct envelope as [e|]; simpl; [|naive_solver].
  destruct document as [d|]; simpl; [|split; [by intros [_ ?]%guard_ok|naive_solver]].
  assert ((match Status d with Some s => validate_status s | None => Ok tt end = Ok tt) <->
          (forall s, Status d = Some s -> status_wf s)) as HS.
  { destruct (Status d); [rewrite validate_status_spec|]; naive_solver. }
  assert ((match Failure d with Some f => validate_failure f d | None => Ok tt end = Ok tt) <->
          (forall f, Failure d = Some f -> failure_wf f d)) as HF.
  { destruct (Failure d); [rewrite validate_failure_spec|]; naive_solver. }
  guards. flags. rewrite HS. clear HS. pose proof (unplanned_spec (Applied d) (Planned d)) as HU.
  unfold run_wf. destruct (unplanned (Applied d) (Planned d)) as [v|] eqn:EU.
  { split; [naive_solver|]. intros (_ & [= ->] & _ & _ & _ & _ & Hp & _). by apply HU in Hp. }
  rewrite bind_ok_unit, HF. clear HF EU. unfold StoppedBeforeSelecting.
  destruct (decide (Outcome d = MigrationOutcomeFailed)) as [Ho|Ho];
    [rewrite (bool_decide_eq_true_2 _ Ho)|rewrite (bool_decide_eq_false_2 _ Ho)];
    [|simpl; split; naive_solver].
  simpl. repeat case_bool_decide; simpl; split; naive_solver.
Qed.

(** A status document is accepted exactly when it is a [migrations status]
    report of contract 2 that is no failure document and is well formed. What
    is read out of an accepted one is exact: the last version is zero or a
    listed version and no listed version exceeds it; the modified and the
    out-of-order versions are those of the records in that state, listed once
    each; and the pending list is Ptah's own selection when it reports one. *)
Theorem status_document_reads (envelope : option migrationEnvelope)
    (document : option MigrationStatusReport) (r : MigrationStatusReport) :
  (DecodeMigrationStatus envelope document = Ok r <->
   (exists e, envelope = Some e /\ Command e = MigrationStatusCommand /\ EnvelopeError e = None) /\
   document = Some r /\ status_wf r) /\
  (status_wf r ->
   (LastVersion r = 0 \/ LastVersion r ∈ RecVersion <$> Migrations r) /\
   (forall m, m ∈ Migrations r -> RecVersion m <= LastVersion r) /\
   NoDup (Modified r) /\ NoDup (OutOfOrder r) /\
   (forall v, v ∈ Modified r <->
      exists m, m ∈ Migrations r /\ RecState m = MigrationStateModified /\ RecVersion m = v) /\
   (forall v, v ∈ OutOfOrder r <->
      exists m, m ∈ Migrations r /\ RecState m = MigrationStateOutOfOrder /\ RecVersion m = v) /\
   (forall l, PendingMigrations r = Some l -> Pending r = l) /\
   (PendingMigrations r = None -> sublist (Pending r) (RecVersion <$> Migrations r) /\
      forall v, v ∈ OutOfOrder r -> v ∈ Pending r)).
Proof.
  split.
  - destruct envelope as [e|]; simpl; [|naive_solver]. guards. flags.
    destruct document as [d|]; simpl; [|naive_solver].
    rewrite bind_ok_unit, validate_status_spec. naive_solver.
  - intros (_ & _ & _ & _ & Hnd & _ & _). destruct (last_version_go (Migrations r) 0) as (_ & Hle & Hin).
    unfold Modified, OutOfOrder, Pending, LastVersion. setoid_rewrite versions_where_spec.
    setoid_rewrite bool_decide_eq_true. split_and!; auto.
    1,2: eapply sublist_NoDup; [done|apply versions_where_sublist].
    1: intros l ->; done.
    intros ->. split; [apply versions_where_sublist|]. setoid_rewrite versions_where_spec.
    intros v (m & Hm & Hs & Hv). exists m. split_and!; [done| |done]. unfold selected_state. by rewrite Hs.
Qed.

(** ** Samples *)

Definition sample_record (version : Z) (state : string) : MigrationRecord :=
  {| RecVersion := version; RecVersionKey := format_int version; RecDescription := "add column";
     RecChecksum := "h1:abc"; RecAppliedChecksum := EmptyString; RecCheckpoint := false;
     RecTransactionMode := "file"; RecAppliedAt := None; RecExecutionMs := None; RecState := state |}.
Definition sample_status (pending : option (list Z)) (l : list MigrationRecord) : MigrationStatusReport :=
  {| StatusContractVersion := 2; CurrentVersion := 1; CheckpointVersion := 0;
     TotalMigrations := Z.of_nat (length l); HasPendingChanges := true;
     PendingMigrations := pending; Migrations := l; DirtyRevision := None |}.
Definition sample_run (applied : list Z) (failed : Z) : MigrationRunReport :=
  {| RunContractVersion := 2; Direction := "up"; Outcome := MigrationOutcomePartial;
     Planned := [2; 3]; Applied := applied; RunError := None;
     Failure := Some {| FailureVersion := failed; Statement := 1; Statements := 4;
                        SQLState := "42P01"; ErrorNumber := 0 |};
     Status := None |}.

(** A run that applied version 2 and stopped in version 3 is accepted, and one
    that names the applied version as the failed one is refused. *)
Example run_document_sample :
  let e := Some {| Command := MigrationRunCommand; EnvelopeError := None |} in
  DecodeMigrationRun e (Some (sample_run [2] 3)) = Ok (sample_run [2] 3) /\
  DecodeMigrationRun e (Some (sample_run [2] 2)) = Err (FailureNotSelected 2) /\
  DecodeMigrationRun e (Some (sample_run [4] 3)) = Err (AppliedNotPlanned 4).
Proof. vm_compute. done. Qed.

Example status_document_sample :
  validate_status (sample_status None
    [sample_record 1 MigrationStateApplied; sample_record 2 MigrationStatePending]) = Ok tt.
Proof. vm_compute. done. Qed.
