(* ===== verification/MigrationPlan.v ===== *)
(** * Migration plans (package [internal/migrationplan]; the sequence encoding
      of [internal/workload/migration_builder.go])

    A migration plan names a database history and the exact sequence of
    migrations that continues it. Here are its identity (the binding and its
    fingerprint), the fingerprint of the history it was computed against, the
    selection of the sequence, the encoding the Apply Job carries it in, and
    the object that is published. The theorems show that the identity binds
    every input, that the encoding loses nothing, and that the selected
    sequence is what the history reports. *)
From stdpp Require Import base list gmap strings.
From Stdlib Require Import ZArith Lia Ascii.
From S2P Require Import Prelude GoStrings Sha256 Json Fingerprint MigrationStatus.
Local Open Scope go_scope.
Local Open Scope Z_scope.

Definition MaxMigrations : Z := 256.
Definition namePrefix : string := "ptah-mplan-".
Definition LabelMigration : string := "operator.ptah.run/migration".

Record Binding : Type := {
  BMigrationUID : string;
  BHistoryFingerprint : string;
  BSequenceDigest : string;
  BArtifactDigest : string;
  BSource : option PlanSource;
  BCoordinationDigest : string;
  BTargetIdentityDigest : string;
  BPolicyFingerprint : string;
  BVerificationPolicyUID : string;
  BVerificationPolicyDigest : string;
  BExecutionBindingID : string;
  BControllerStateVersion : Z;
  BPtahVersion : string;
  BExecutorImage : string;
  BRunnerProtocolVersion : Z;
}.

(** [Binding.ContractVersion]. *)
Definition BContractVersion (b : Binding) : Z := PlanContractVersionFor (BSource b).

Definition SupportedContractVersion (version : Z) : bool :=
  (version =? CurrentPlanContractVersion) || (version =? SourcePlanContractVersion).

Definition mplan_required (b : Binding) : list string :=
  [BMigrationUID b; BHistoryFingerprint b; BSequenceDigest b; BCoordinationDigest b;
   BTargetIdentityDigest b; BPolicyFingerprint b; BPtahVersion b; BExecutorImage b].

Definition mplan_doc (b : Binding) : json :=
  JMap ([("contract_version", JInt (BContractVersion b)); ("migration_uid", JStr (BMigrationUID b));
         ("history_fingerprint", JStr (BHistoryFingerprint b)); ("sequence_digest", JStr (BSequenceDigest b));
         ("coordination_digest", JStr (BCoordinationDigest b));
         ("target_identity_digest", JStr (BTargetIdentityDigest b));
         ("policy_fingerprint", JStr (BPolicyFingerprint b));
         ("execution_binding_id", JStr (BExecutionBindingID b));
         ("controller_state_version", JInt (BControllerStateVersion b));
         ("ptah_version", JStr (BPtahVersion b)); ("executor_image", JStr (BExecutorImage b));
         ("runner_protocol_version", JInt (BRunnerProtocolVersion b))]
        ++ match BSource b with
           | None => [("artifact_digest", JStr (BArtifactDigest b));
                      ("verification_policy_uid", JStr (BVerificationPolicyUID b));
                      ("verification_policy_digest", JStr (BVerificationPolicyDigest b))]
           | Some s => [("source", source_doc s)]
           end).

(** [Binding.Fingerprint]. *)
Definition BFingerprint (b : Binding) : result fp_error string :=
  guard (negb (existsb blank (mplan_required b))) else FieldRequired;
  _ <-! ValidatePlanSource (BContractVersion b) (BArtifactDigest b) (BVerificationPolicyUID b)
          (BVerificationPolicyDigest b) (BSource b);
  guard (is_epoch_id (BExecutionBindingID b)) else InvalidExecutionBinding;
  guard (negb (BControllerStateVersion b <? 1)) else NonPositiveStateVersion;
  guard (negb (BRunnerProtocolVersion b <? 1)) else NonPositiveProtocolVersion;
  Ok (DigestCanonicalJSON (mplan_doc b)).

(** [Name]: [planFingerprint[len("sha256:"):len("sha256:")+24]]. *)
Definition plan_name (planFingerprint : string) : option string :=
  if is_sha256_digest planFingerprint
  then Some (namePrefix +:+ str_take 24 (str_drop 7 planFingerprint)) else None.

(** ** The history a plan was computed against *)

Definition record_doc (m : MigrationRecord) : json :=
  JMap [("version", JInt (RecVersion m)); ("version_key", JStr (RecVersionKey m));
        ("checksum", JStr (RecChecksum m)); ("applied_checksum", JStr (RecAppliedChecksum m));
        ("checkpoint", JBool (RecCheckpoint m)); ("state", JStr (RecState m))].

Definition dirty_doc (d : MigrationDirty) : json :=
  JMap [("version", JInt (DirtyVersion d)); ("applied", JInt (DirtyApplied d)); ("total", JInt (DirtyTotal d))].

Definition history_doc (r : MigrationStatusReport) : json :=
  JMap ([("contract_version", JInt (StatusContractVersion r)); ("current_version", JInt (CurrentVersion r));
         ("checkpoint_version", JInt (CheckpointVersion r)); ("total_migrations", JInt (TotalMigrations r));
         ("migrations", JArr (record_doc <$> Migrations r));
         ("dirty", JBool (bool_decide (is_Some (DirtyRevision r))))]
        ++ match DirtyRevision r with Some d => [("dirty_revision", dirty_doc d)] | None => [] end).

Definition HistoryFingerprint (r : MigrationStatusReport) : result fp_error string :=
  guard (StatusContractVersion r =? SupportedMigrationStatusContract)
    else UnsupportedVersion (StatusContractVersion r);
  Ok (DigestCanonicalJSON (history_doc r)).

(** ** The sequence a plan carries *)

Record PlannedMigration : Type := {
  PmVersion : Z;
  PmVersionKey : string;
  PmDescription : string;
  PmChecksum : string;
  PmCheckpoint : bool;
  PmTransactionMode : string;
}.

Definition migrationSequenceEntries (planned : list PlannedMigration) : list SequenceEntry :=
  (fun m => {| Version := PmVersion m; VersionKey := PmVersionKey m; Checksum := PmChecksum m;
               Checkpoint := PmCheckpoint m; TransactionMode := PmTransactionMode m |}) <$> planned.

(** [workload.MigrationSequenceDigest] and [SequenceDigest]. *)
Definition SequenceDigest (planned : list PlannedMigration) : result fp_error string :=
  MigrationSequenceDigest (migrationSequenceEntries planned).

Definition MaxEncodedMigrationSequence : Z := Z.shiftl 120 10.

(** [SequenceEntry] as the encoder writes it: its fields in order, under their
    tags. *)
Definition entry_struct (e : SequenceEntry) : json :=
  JObj [("version", JInt (Version e)); ("version_key", JStr (VersionKey e));
        ("checksum", JStr (Checksum e)); ("checkpoint", JBool (Checkpoint e));
        ("transaction_mode", JStr (TransactionMode e))].

Inductive seq_error : Type :=
| VersionNotPositive (version : Z)
| NoChecksum (version : Z)
| UnknownTransactionMode (version : Z) (mode : string)
| NothingPending
| TooManyMigrations (count : Z)
| SequenceTooLong (bytes : Z).

(** The encoder appends a newline, which the code trims. *)
Definition encodeMigrationSequence (entries : list SequenceEntry) : result seq_error (list Z) :=
  let encoded := encode_plain (JArr (entry_struct <$> entries)) in
  if MaxEncodedMigrationSequence <? Z.of_nat (length encoded)
  then Err (SequenceTooLong (Z.of_nat (length encoded))) else Ok encoded.

Definition EncodeMigrationSequence (planned : list PlannedMigration) : result seq_error (list Z) :=
  encodeMigrationSequence (migrationSequenceEntries planned).

(** The entry the loop appends for a record. *)
Definition planned_of (m : MigrationRecord) : PlannedMigration :=
  {| PmVersion := RecVersion m; PmVersionKey := RecVersionKey m; PmDescription := RecDescription m;
     PmChecksum := RecChecksum m; PmCheckpoint := RecCheckpoint m; PmTransactionMode := RecTransactionMode m |}.

Fixpoint select_pending (l : list MigrationRecord) : result seq_error (list PlannedMigration) :=
  match l with
  | [] => Ok []
  | m :: rest =>
      if negb (selected_state (RecState m)) then select_pending rest else
      guard (negb (RecVersion m <? 1)) else VersionNotPositive (RecVersion m);
      guard (negb (blank (RecChecksum m))) else NoChecksum (RecVersion m);
      guard (bool_decide (RecTransactionMode m ∈ [EmptyString; "file"; "none"]))
        else UnknownTransactionMode (RecVersion m) (RecTransactionMode m);
      planned <-! select_pending rest;
      Ok (planned_of m :: planned)
  end.

Definition Sequence (r : MigrationStatusReport) : result seq_error (list PlannedMigration) :=
  planned <-! select_pending (Migrations r);
  guard (negb (bool_decide (planned = []))) else NothingPending;
  guard (Z.of_nat (length planned) <=? MaxMigrations) else TooManyMigrations (Z.of_nat (length planned));
  _ <-! EncodeMigrationSequence planned;
  Ok planned.

(** ** The published object *)

Record OwnerReference : Type := {
  OwnerAPIVersion : string;
  OwnerKind : string;
  OwnerName : string;
  OwnerUID : string;
  OwnerController : bool;
  BlockOwnerDeletion : bool;
}.

(** The metadata of the owner and of the plan; the specification is carried
    over unread but for its fingerprint. *)
Record PtahMigration : Type := { MigrationNamespace : string; MigrationName : string; MigrationUID : string }.

Section Desired.
Context {Spec : Type} (SpecFingerprint : Spec -> string).

Record PtahMigrationPlan : Type := {
  PlanNamespace : string;
  PlanName : string;
  PlanLabels : list (string * string);
  PlanOwners : list OwnerReference;
  PlanSpec : Spec;
}.

Definition Desired (migration : option PtahMigration) (spec : Spec) : option PtahMigrationPlan :=
  match migration with
  | None => None
  | Some m =>
      if empty (MigrationName m) || empty (MigrationUID m) then None else
      name ← plan_name (SpecFingerprint spec);
      Some {| PlanNamespace := MigrationNamespace m; PlanName := name;
              PlanLabels := [(LabelMigration, MigrationName m)];
              PlanOwners := [ {| OwnerAPIVersion := "operator.ptah.run/v1alpha1"; OwnerKind := "PtahMigration";
                                 OwnerName := MigrationName m; OwnerUID := MigrationUID m;
                                 OwnerController := true; BlockOwnerDeletion := true |} ];
              PlanSpec := spec |}
  end.
End Desired.

(** * Lemmas *)

Lemma BFingerprint_ok b f :
  BFingerprint b = Ok f ->
  f = DigestCanonicalJSON (mplan_doc b) /\
  (is_Some (BSource b) -> BArtifactDigest b = EmptyString /\ BVerificationPolicyUID b = EmptyString /\
                          BVerificationPolicyDigest b = EmptyString).
Proof.
  unfold BFingerprint. guards. intros (_ & Hs & _ & _ & _ & [= <-]). split; [done|].
  unfold BContractVersion, ValidatePlanSource in Hs. apply bind_ok_unit in Hs as [_ Hs].
  intros [s E]. rewrite E in Hs. unfold validatePlanSource, empty in Hs. simpl in Hs.
  follow Hs. bool_prop. auto.
Qed.

(** The values of an object, without their keys. *)
Definition doc_values (j : json) : list json := (fun f => f.2) <$> doc_fields j.

Lemma mplan_doc_source b b' : mplan_doc b = mplan_doc b' -> BSource b = BSource b'.
Proof.
  intros H. apply (f_equal doc_values) in H. revert H.
  destruct b as [? ? ? ? o], b' as [? ? ? ? o']. unfold mplan_doc, JMap, BContractVersion. simpl BSource.
  destruct o as [s|], o' as [s'|]; [| | |done].
  - remember (source_doc s) as x eqn:Ex. remember (source_doc s') as y eqn:Ey. vm_compute.
    intros H. injection H as H. intros; subst. match goal with E : _ = source_doc _ |- _ =>
      symmetry in E; apply source_doc_inj in E; by subst end.
  - remember (source_doc s) as x. vm_compute. intros H. discriminate H.
  - remember (source_doc s') as x. vm_compute. intros H. discriminate H.
Qed.

Lemma mplan_doc_inj b b' :
  (is_Some (BSource b) -> BArtifactDigest b = BArtifactDigest b' /\
     BVerificationPolicyUID b = BVerificationPolicyUID b' /\
     BVerificationPolicyDigest b = BVerificationPolicyDigest b') ->
  mplan_doc b = mplan_doc b' -> b = b'.
Proof.
  intros Hs H. pose proof (mplan_doc_source _ _ H) as E. apply (f_equal doc_values) in H. revert H Hs.
  destruct b as [? ? ? ? o], b' as [? ? ? ? o']. simpl in *. subst o'.
  unfold mplan_doc, JMap, BContractVersion. simpl BSource. destruct o as [s|].
  - remember (source_doc s) as x. vm_compute. intros H Hs.
    destruct (Hs (mk_is_Some _ _ eq_refl)) as (-> & -> & ->). by injection H as -> -> -> -> -> -> -> -> -> -> ->.
  - vm_compute. intros H _. by injection H as -> -> -> -> -> -> -> -> -> -> -> -> -> ->.
Qed.

Lemma record_doc_inj m m' :
  record_doc m = record_doc m' ->
  (RecVersion m, RecVersionKey m, RecChecksum m, RecAppliedChecksum m, RecCheckpoint m, RecState m) =
  (RecVersion m', RecVersionKey m', RecChecksum m', RecAppliedChecksum m', RecCheckpoint m', RecState m').
Proof.
  intros H. apply (f_equal doc_values) in H. revert H. destruct m, m'. unfold record_doc, JMap. vm_compute.
  intros H. by injection H as -> -> -> -> -> ->.
Qed.

Lemma dirty_doc_inj d d' :
  dirty_doc d = dirty_doc d' ->
  (DirtyVersion d, DirtyApplied d, DirtyTotal d) = (DirtyVersion d', DirtyApplied d', DirtyTotal d').
Proof.
  intros H. apply (f_equal doc_values) in H. revert H. destruct d, d'. unfold dirty_doc, JMap. vm_compute.
  intros H. by injection H as -> -> ->.
Qed.

(** What a history fingerprint covers: every migration's identity, content,
    applied content and state, and the dirty revision; not when a row was
    written nor how a migration is described. *)
Definition record_view (m : MigrationRecord) : Z * string * string * string * bool * string :=
  (RecVersion m, RecVersionKey m, RecChecksum m, RecAppliedChecksum m, RecCheckpoint m, RecState m).
Definition dirty_view (d : MigrationDirty) : Z * Z * Z := (DirtyVersion d, DirtyApplied d, DirtyTotal d).
Definition history_view (r : MigrationStatusReport) :=
  (StatusContractVersion r, CurrentVersion r, CheckpointVersion r, TotalMigrations r,
   record_view <$> Migrations r, dirty_view <$> DirtyRevision r).

Lemma record_docs_view (l l' : list MigrationRecord) :
  record_doc <$> l = record_doc <$> l' <-> record_view <$> l = record_view <$> l'.
Proof.
  revert l'. induction l as [|m l IH]; intros [|m' l']; try done. rewrite !fmap_cons. split.
  - intros H. assert (record_doc m = record_doc m' /\ record_doc <$> l = record_doc <$> l') as [H1 H2]
      by (split; congruence).
    apply record_doc_inj in H1. apply IH in H2. unfold record_view at 1 3. congruence.
  - intros H. assert (record_view m = record_view m' /\ record_view <$> l = record_view <$> l') as [H1 H2]
      by (split; congruence).
    apply IH in H2. f_equal; [|done]. unfold record_view in H1. unfold record_doc.
    by injection H1 as -> -> -> -> -> ->.
Qed.

Lemma history_doc_view r r' : history_doc r = history_doc r' <-> history_view r = history_view r'.
Proof.
  split.
  - intros H. apply (f_equal doc_values) in H. revert H.
    destruct r as [cv cur cp tot hp pm l o], r' as [cv' cur' cp' tot' hp' pm' l' o'].
    unfold history_doc, history_view, JMap. simpl.
    pose proof (proj1 (record_docs_view l l')) as Hl.
    remember (record_doc <$> l) as x. remember (record_doc <$> l') as x'.
    destruct o as [d|], o' as [d'|]; intros H; simpl option_fmap.
    + pose proof (dirty_doc_inj d d') as Hd.
      remember (dirty_doc d) as y. remember (dirty_doc d') as y'. vm_compute in H.
      injection H as -> -> -> Hy Hm ->. apply Hd in Hy. apply Hl in Hm. rewrite Hm. simpl. unfold dirty_view. by rewrite Hy.
    + vm_compute in H. discriminate H.
    + vm_compute in H. discriminate H.
    + vm_compute in H. injection H as -> -> -> Hm ->. apply Hl in Hm. congruence.
  - unfold history_view. intros H. injection H as H1 H2 H3 H4 H5 H6.
    apply record_docs_view in H5. unfold history_doc. rewrite H1, H2, H3, H4, H5.
    destruct (DirtyRevision r) as [d|], (DirtyRevision r') as [d'|]; try done.
    simpl in H6. unfold dirty_view in H6. unfold dirty_doc. by injection H6 as -> -> ->.
Qed.

Lemma entry_struct_inj e e' : entry_struct e = entry_struct e' -> e = e'.
Proof.
  intros H. apply (f_equal doc_values) in H. revert H. destruct e, e'. unfold entry_struct. vm_compute.
  intros H. by injection H as -> -> -> -> ->.
Qed.

Lemma entry_structs_inj (l l' : list SequenceEntry) : entry_struct <$> l = entry_struct <$> l' -> l = l'.
Proof.
  revert l'. induction l as [|e l IH]; intros [|e' l'] H; try done. rewrite !fmap_cons in H.
  assert (entry_struct e = entry_struct e' /\ entry_struct <$> l = entry_struct <$> l') as [H1 H2]
    by (split; congruence).
  apply entry_struct_inj in H1 as ->. f_equal. by apply IH.
Qed.

(** A record the selection accepts. *)
Definition runnable (m : MigrationRecord) : Prop :=
  1 <= RecVersion m /\ blank (RecChecksum m) = false /\ RecTransactionMode m ∈ [EmptyString; "file"; "none"].
Definition selected (m : MigrationRecord) : bool := selected_state (RecState m).

Lemma select_pending_spec l : forall p,
  select_pending l = Ok p <->
  p = planned_of <$> List.filter selected l /\ Forall (fun m => selected m = true -> runnable m) l.
Proof.
  unfold selected. induction l as [|m l IH]; intros p; simpl.
  { split; [intros [= <-]; split; [done|constructor]|by intros [-> _]]. }
  rewrite Forall_cons. destruct (selected_state (RecState m)); simpl; [|rewrite IH; naive_solver].
  guards. flags. unfold runnable. destruct (select_pending l) as [q|e] eqn:E; simpl.
  - destruct (proj1 (IH q) eq_refl) as [-> Hall]. naive_solver lia.
  - split; [naive_solver|]. intros (_ & _ & Hall). exfalso.
    by assert (Err e = Ok (planned_of <$> List.filter (fun m => selected_state (RecState m)) l)) by (by apply IH).
Qed.

Lemma str_take_length n s : String.length (str_take n s) = Nat.min n (String.length s).
Proof. revert s. induction n as [|n IH]; intros [|a s]; simpl; auto. Qed.
Lemma str_drop_length n s : String.length (str_drop n s) = (String.length s - n)%nat.
Proof. revert s. induction n as [|n IH]; intros [|a s]; simpl; auto. Qed.
Lemma str_all_take f n s : str_all f s = true -> str_all f (str_take n s) = true.
Proof.
  revert s. induction n as [|n IH]; intros [|a s]; simpl; auto. rewrite !andb_true_iff. naive_solver.
Qed.

Lemma last_char_app p t : t <> EmptyString -> last_char (p +:+ t) = last_char t.
Proof.
  intros Ht. induction p as [|a p IH]; [done|]. change (String a p +:+ t) with (String a (p +:+ t)).
  rewrite <- IH. simpl. destruct (p +:+ t) eqn:E; [|done]. destruct p; [done|discriminate E].
Qed.

Lemma last_char_all f t : t <> EmptyString -> str_all f t = true -> exists a, last_char t = Some a /\ f a = true.
Proof.
  induction t as [|a t IH]; [done|]. intros _ [Ha Ht]%andb_true_iff. destruct t as [|b t]; [by eexists|].
  by apply IH.
Qed.

Lemma plan_name_spec f n :
  plan_name f = Some n -> exists h, n = namePrefix +:+ h /\ String.length h = 24%nat /\ str_all is_lower_hex h = true /\
                                    has_prefix ("sha256:" +:+ h) f = true.
Proof.
  unfold plan_name, is_sha256_digest. destruct (cut_prefix "sha256:" f) as [x|] eqn:E; [|done].
  case_match eqn:Hx; [|done]. apply cut_prefix_Some in E as ->. bool_prop. apply Nat.eqb_eq in H.
  change (str_drop 7 ("sha256:" +:+ x)) with x. intros Hn. exists (str_take 24 x). split; [congruence|].
  split; [rewrite str_take_length; lia|]. split; [by apply str_all_take|].
  assert (forall k s, exists r, s = str_take k s +:+ r) as Htake.
  { clear. intros k. induction k as [|k IH]; intros [|a s]; [by exists EmptyString|by exists (String a s)|by exists EmptyString|].
    destruct (IH s) as [r Hr]. exists r. change (String a s = String a (str_take k s +:+ r)). by rewrite <- Hr. }
  destruct (Htake 24%nat x) as [r Hr]. unfold has_prefix. apply bool_decide_eq_true.
  exists r.
  assert ("sha256:" +:+ x = ("sha256:" +:+ str_take 24 x) +:+ r) as Ex by (rewrite Hr at 1; reflexivity).
  rewrite Ex. apply cut_prefix_app.
Qed.

(** The prefix and hexadecimal digits make a DNS label. *)
Lemma mplan_label h :
  String.length h = 24%nat -> str_all is_lower_hex h = true -> is_dns1123_label (namePrefix +:+ h) = true.
Proof.
  intros Hl Hh. destruct (last_char_all is_lower_hex h) as (a & Ha & Hx); [by destruct h|done|].
  assert (len (namePrefix +:+ h) = 35) as Hlen by (unfold len; rewrite str_app_length, Hl; done).
  unfold is_dns1123_label, ends_middle. change (namePrefix +:+ h) with (String "p" ("tah-mplan-" +:+ h)) at 1.
  cbv iota beta. change (String "p" ("tah-mplan-" +:+ h)) with (namePrefix +:+ h).
  rewrite last_char_app, Ha, Hlen, str_all_app by (by destruct h).
  assert (forall c, is_lower_hex c = true -> is_alnum_lower c = true) as Hc.
  { intros c. unfold is_lower_hex, is_alnum_lower, is_lower, is_digit, in_range.
    rewrite !orb_true_iff, !andb_true_iff, !Z.leb_le. lia. }
  rewrite (Hc a Hx), (str_all_mono is_lower_hex _ h); [reflexivity| |done].
  intros c Hcc. by rewrite (Hc c Hcc), orb_true_r.
Qed.

(** * Properties *)

(** A migration plan's fingerprint is its complete identity. Two bindings
    with one fingerprint agree on every field; the sequences they were
    published with are equal, entry by entry and in order; and the histories
    they were computed against agree on every migration's version, key,
    checksum, applied checksum, checkpoint flag and state and on the dirty
    revision -- unless one of the three named pairs of documents collides
    under SHA-256. *)
Theorem migration_plan_binds (b b' : Binding) (p p' : list PlannedMigration)
    (r r' : MigrationStatusReport) (f : string) :
  BFingerprint b = Ok f -> BFingerprint b' = Ok f ->
  SequenceDigest p = Ok (BSequenceDigest b) -> SequenceDigest p' = Ok (BSequenceDigest b') ->
  HistoryFingerprint r = Ok (BHistoryFingerprint b) -> HistoryFingerprint r' = Ok (BHistoryFingerprint b') ->
  forallb json_utf8 [mplan_doc b; mplan_doc b'; sequence_doc (migrationSequenceEntries p);
    sequence_doc (migrationSequenceEntries p'); history_doc r; history_doc r'] = true ->
  (b = b' /\ migrationSequenceEntries p = migrationSequenceEntries p' /\ history_view r = history_view r') \/
  collision (marshal (mplan_doc b)) (marshal (mplan_doc b')) \/
  collision (marshal (sequence_doc (migrationSequenceEntries p)))
            (marshal (sequence_doc (migrationSequenceEntries p'))) \/
  collision (marshal (history_doc r)) (marshal (history_doc r')).
Proof.
  intros Hb Hb' Hp Hp' Hr Hr' Hu. cbn [forallb] in Hu. bool_prop.
  apply BFingerprint_ok in Hb as [Eb Hs], Hb' as [Eb' Hs']. rewrite Eb in Eb'.
  apply digest_json_inj in Eb' as [Eb'|]; [|by auto|done..].
  assert (b = b') as ->.
  { apply mplan_doc_inj; [|done]. intros Hso. apply mplan_doc_source in Eb'. destruct (Hs Hso) as (-> & -> & ->).
    rewrite Eb' in Hso. destruct (Hs' Hso) as (-> & -> & ->). done. }
  clear Eb Eb'. destruct (sequence_digest_inj _ _ _ Hp Hp') as [Ep|]; [done..| |by auto].
  assert (forall q, HistoryFingerprint q = Ok (BHistoryFingerprint b') ->
    BHistoryFingerprint b' = DigestCanonicalJSON (history_doc q)) as Hq.
  { intros q Hq. unfold HistoryFingerprint in Hq. follow Hq. congruence. }
  apply Hq in Hr, Hr'. rewrite Hr in Hr'. apply digest_json_inj in Hr' as [Er|]; [|by auto|done..].
  left. split_and!; [done..|by apply history_doc_view].
Qed.

(** The sequence of a plan is exactly what the history reports to run: the
    records that are pending or out of order, in the order of the document,
    each carrying its version, key, checksum, checkpoint flag and mode. It is
    produced exactly when every such record has a positive version, a checksum
    and a known transaction mode, there are between 1 and 256 of them, and the
    encoding fits what an Apply Job can carry. *)
Lemma Sequence_spec (r : MigrationStatusReport) (p : list PlannedMigration) :
  Sequence r = Ok p <->
  p = planned_of <$> List.filter selected (Migrations r) /\
  (forall m, m ∈ Migrations r -> selected m = true -> runnable m) /\
  1 <= Z.of_nat (length p) <= MaxMigrations /\
  Z.of_nat (length (encode_plain (JArr (entry_struct <$> migrationSequenceEntries p)))) <= 122880.
Proof.
  unfold Sequence, EncodeMigrationSequence, encodeMigrationSequence.
  change MaxEncodedMigrationSequence with 122880.
  destruct (select_pending (Migrations r)) as [q|e] eqn:E; cbn [rbind].
  - apply select_pending_spec in E as [-> Hall]. rewrite Forall_forall in Hall. guards. flags.
    set (q := planned_of <$> _). assert (q <> [] <-> 1 <= Z.of_nat (length q)) as Hq.
    { destruct q; simpl; split; [done|lia|lia|done]. }
    rewrite Hq. destruct (122880 <? _) eqn:El; bool_prop; cbn [rbind].
    + split; [naive_solver|]. intros (-> & _ & _ & ?). lia.
    + split; [intros (? & ? & [= <-]); auto with lia|]. intros (-> & _ & [? ?] & _). auto with lia.
  - split; [done|]. intros (-> & Hall & _). exfalso.
    assert (select_pending (Migrations r) = Ok (planned_of <$> List.filter selected (Migrations r))) as Ho.
    { apply select_pending_spec. split; [done|]. by apply Forall_forall. }
    congruence.
Qed.

(** The encoding the Apply Job carries the approved sequence in loses
    nothing: two sequences with one encoding have the same entries, so the
    runner digests exactly the sequence the plan's digest names. *)
Theorem sequence_encoding_faithful (p p' : list PlannedMigration) (s : list Z) :
  forallb json_utf8 (entry_struct <$> migrationSequenceEntries p ++ migrationSequenceEntries p') = true ->
  EncodeMigrationSequence p = Ok s -> EncodeMigrationSequence p' = Ok s ->
  migrationSequenceEntries p = migrationSequenceEntries p' /\ SequenceDigest p = SequenceDigest p'.
Proof.
  rewrite fmap_app, forallb_app. intros [Hu Hu']%andb_true_iff H H'.
  assert (migrationSequenceEntries p = migrationSequenceEntries p') as E.
  { unfold EncodeMigrationSequence, encodeMigrationSequence in *.
    follow H. follow H'. apply entry_structs_inj.
    assert (JArr (entry_struct <$> migrationSequenceEntries p) = JArr (entry_struct <$> migrationSequenceEntries p'))
      as Hj by (apply (marshal_inj false); [done|done|congruence]).
    congruence. }
  split; [done|]. unfold SequenceDigest. by rewrite E.
Qed.

(** The object a plan is published as is named by its fingerprint alone: the
    name is the prefix and the first 24 hexadecimal digits, a valid DNS label,
    so publishing one decision twice addresses one object; it is refused for a
    migration without a name or UID and for a fingerprint that is no digest;
    and its only owner is the migration, as the controller. *)
Theorem desired_plan_object {Spec : Type} (fp : Spec -> string) (m : option PtahMigration) (spec : Spec) :
  (Desired fp m spec = None <->
   is_sha256_digest (fp spec) = false \/
   forall x, m = Some x -> MigrationName x = EmptyString \/ MigrationUID x = EmptyString) /\
  (forall plan, Desired fp m spec = Some plan ->
   is_dns1123_label (PlanName plan) = true /\ len (PlanName plan) = 35 /\
   (exists h, PlanName plan = namePrefix +:+ h /\ has_prefix ("sha256:" +:+ h) (fp spec) = true) /\
   exists x o, m = Some x /\ PlanOwners plan = [o] /\ OwnerUID o = MigrationUID x /\
     OwnerName o = MigrationName x /\ OwnerController o = true /\ PlanSpec plan = spec /\
     PlanNamespace plan = MigrationNamespace x).
Proof.
  split.
  - destruct m as [x|]; [|split; [intros _; right; intros ? [=]|done]]. simpl. unfold empty, plan_name.
    destruct (decide (MigrationName x = EmptyString)) as [Hn|Hn], (decide (MigrationUID x = EmptyString)) as [Hi|Hi];
      rewrite ?(bool_decide_eq_true_2 _ Hn), ?(bool_decide_eq_false_2 _ Hn),
        ?(bool_decide_eq_true_2 _ Hi), ?(bool_decide_eq_false_2 _ Hi); simpl.
    1-3: split; [intros _; right; intros ? [= <-]; auto|done].
    destruct (is_sha256_digest (fp spec)); simpl; [|split; [by left|done]].
    split; [done|]. intros [?|H]; [done|]. destruct (H x eq_refl); done.
  - destruct m as [x|]; simpl; [|done]. intros plan H. case_match; [done|].
    destruct (plan_name (fp spec)) as [n|] eqn:En; [|done]. simpl in H. injection H as <-. simpl.
    apply plan_name_spec in En as (h & -> & Hl & Hh & Hp).
    assert (len (namePrefix +:+ h) = 35) as Hlen by (unfold len; rewrite str_app_length, Hl; done).
    split; [by apply mplan_label|]. split; [done|]. split; [by exists h|by eexists _, _; split_and!].
Qed.

(** ** Witnesses *)

Definition sample_history : MigrationStatusReport :=
  sample_status None
    [sample_record 1 MigrationStateApplied; sample_record 2 MigrationStatePending;
     sample_record 3 MigrationStatePending].
Definition sample_planned : list PlannedMigration :=
  planned_of <$> [sample_record 2 MigrationStatePending; sample_record 3 MigrationStatePending].
Definition sample_mbinding : Binding :=
  {| BMigrationUID := "migration-uid"; BHistoryFingerprint := ok_or_empty (HistoryFingerprint sample_history);
     BSequenceDigest := ok_or_empty (SequenceDigest sample_planned); BArtifactDigest := EmptyString;
     BSource := Some {| Kind := "ConfigMap"; Revision := "12"; ContentDigest := sample_digest;
                        PolicyUID := EmptyString; PolicyDigest := EmptyString |};
     BCoordinationDigest := sample_digest; BTargetIdentityDigest := sample_digest;
     BPolicyFingerprint := sample_digest; BVerificationPolicyUID := EmptyString;
     BVerificationPolicyDigest := EmptyString; BExecutionBindingID := "v1-00000000000000000000000000000000";
     BControllerStateVersion := 1; BPtahVersion := "v1.2.3";
     BExecutorImage := "registry/ptah@" +:+ sample_digest; BRunnerProtocolVersion := 3 |}.

Example sequence_sample :
  Sequence sample_history = Ok sample_planned /\
  Sequence (sample_status None [sample_record 1 MigrationStateApplied]) = Err NothingPending.
Proof. vm_compute. done. Qed.

Lemma migration_plan_binds_witness :
  (sample_mbinding = sample_mbinding /\
   migrationSequenceEntries sample_planned = migrationSequenceEntries sample_planned /\
   history_view sample_history = history_view sample_history) \/
  collision (marshal (mplan_doc sample_mbinding)) (marshal (mplan_doc sample_mbinding)) \/
  collision (marshal (sequence_doc (migrationSequenceEntries sample_planned)))
            (marshal (sequence_doc (migrationSequenceEntries sample_planned))) \/
  collision (marshal (history_doc sample_history)) (marshal (history_doc sample_history)).
Proof.
  apply (migration_plan_binds sample_mbinding sample_mbinding sample_planned sample_planned
    sample_history sample_history (ok_or_empty (BFingerprint sample_mbinding))); vm_compute; reflexivity.
Defined.

Definition sample_encoding : list Z :=
  Eval vm_compute in match EncodeMigrationSequence sample_planned with Ok s => s | Err _ => [] end.

Lemma sequence_encoding_faithful_witness :
  migrationSequenceEntries sample_planned = migrationSequenceEntries sample_planned /\
  SequenceDigest sample_planned = SequenceDigest sample_planned.
Proof.
  apply (sequence_encoding_faithful sample_planned sample_planned sample_encoding); vm_compute; reflexivity.
Defined.

Lemma planned_versions r : PmVersion <$> (planned_of <$> List.filter selected (Migrations r)) = versions_where selected_state (Migrations r).
Proof. by rewrite <- list_fmap_compose. Qed.

(** C40: The sequence of a plan is recounted from the records of the history.
    It is exactly the records that are pending or out of order, in the order
    of the document, each with its version, key, description, checksum,
    checkpoint flag and mode, and it is produced exactly when every such
    record has a positive version, a checksum and a known transaction mode,
    there are between 1 and 256 of them and the encoding fits what an Apply
    Job can carry; no other field of the report matters. So its versions are
    the ones [Pending] returns exactly when the report carries no selection
    of Ptah's or one that is this recount, and there is a valid report, of a
    database that bootstrapped from a checkpoint, where they are not: one
    version is reported to run while the plan carries two. *)
Theorem sequence_recounts_states :
  (forall r p, Sequence r = Ok p <->
     p = planned_of <$> List.filter selected (Migrations r) /\
     (forall m, m ∈ Migrations r -> selected m = true -> runnable m) /\
     1 <= Z.of_nat (length p) <= MaxMigrations /\
     Z.of_nat (length (encode_plain (JArr (entry_struct <$> migrationSequenceEntries p)))) <= 122880) /\
  (forall r p, Sequence r = Ok p ->
     (PmVersion <$> p = Pending r <->
      forall l, PendingMigrations r = Some l -> l = versions_where selected_state (Migrations r))) /\
  exists r p, validate_status r = Ok tt /\ Pending r = [6] /\ Sequence r = Ok p /\ PmVersion <$> p = [2; 6].
Proof.
  split; [exact Sequence_spec|split].
  - intros r p (-> & _)%Sequence_spec. rewrite planned_versions. unfold Pending.
    destruct (PendingMigrations r); [naive_solver|done].
  - exists (sample_status (Some [6])
      [sample_record 2 MigrationStatePending; sample_record 5 MigrationStateApplied;
       sample_record 6 MigrationStatePending]).
    eexists. split_and!; vm_compute; reflexivity.
Qed.
