(* ===== verification/SourceContent.v ===== *)
(** * The content of a delivered source (package [internal/sourcecontent])

    The content digest every plan binds: the canonical manifest of a set of
    files, its parser, the snapshot a ConfigMap source is stored as, and the
    check an operation makes before it reads a snapshot. The theorems show
    which sets of files the rules admit, that the digest binds the files
    whatever their order, and that a snapshot is read back exactly, or
    refused. File-system access is an argument: a snapshot directory is what
    listing it and opening each of its files return. *)
From stdpp Require Import base list gmap strings pretty.
From Stdlib Require Import ZArith Lia Ascii Sorted Permutation.
From S2P Require Import Prelude GoStrings Sha256 Json Fingerprint.
Local Open Scope go_scope.
Local Open Scope Z_scope.

Definition MaxFiles : Z := 1000.
Definition MaxPathElementBytes : Z := 255.
Definition ManifestKey : string := "manifest".
Definition MaxSnapshotBytes : Z := Z.shiftl 1 20.

Record File : Type := { Path : string; Data : list Z }.

Inductive sc_error : Type :=
| ErrEmpty
| ErrTooManyFiles
| ErrInvalidPath
| ErrDuplicate
| ErrPathConflict
| ErrInvalidEntry
| MalformedManifest
| ErrContentMismatch
| ReadFailed.

(** ** Paths *)

(** [strings.SplitSeq(path, "/")]. *)
Fixpoint split_slash (s : string) : list string :=
  match s with
  | EmptyString => [EmptyString]
  | String a s' =>
      match split_slash s' with
      | h :: t => if bool_decide (a = "/"%char) then EmptyString :: h :: t else String a h :: t
      | [] => []
      end
  end.

(** A code point below 0x80 of valid UTF-8 is one byte. *)
Definition refused_rune (a : ascii) : bool :=
  (byte_of a <? 32) || (byte_of a =? 127) || (byte_of a =? 92).

Definition valid_element (e : string) : bool :=
  negb (empty e || bool_decide (e = ".") || bool_decide (e = "..") || (MaxPathElementBytes <? len e)).

Definition validPath (path : string) : bool :=
  negb (empty path) && utf8_str path && str_all (fun a => negb (refused_rune a)) path
  && forallb valid_element (split_slash path).

(** [paths[i-1] == path] and the validity of each, in order. *)
Fixpoint check_each (previous : option string) (paths : list string) : result sc_error unit :=
  match paths with
  | [] => Ok tt
  | path :: rest =>
      guard (validPath path) else ErrInvalidPath;
      guard (negb (bool_decide (previous = Some path))) else ErrDuplicate;
      check_each (Some path) rest
  end.

(** The inner loop: the paths after [path] until one does not extend it. *)
Fixpoint conflict_after (path : string) (later : list string) : bool :=
  match later with
  | [] => false
  | l :: rest =>
      if negb (has_prefix path l) then false
      else has_prefix (path +:+ "/") l || conflict_after path rest
  end.

Fixpoint check_conflicts (paths : list string) : result sc_error unit :=
  match paths with
  | [] => Ok tt
  | path :: rest => if conflict_after path rest then Err ErrPathConflict else check_conflicts rest
  end.

Definition checkSortedPaths (paths : list string) : result sc_error unit :=
  _ <-! check_each None paths;
  check_conflicts paths.

(** ** The manifest *)

(** [slices.SortFunc] by path. *)
Section SortBy.
Context {A : Type} (key : A -> string).
Fixpoint insert_by (x : A) (l : list A) : list A :=
  match l with
  | [] => [x]
  | y :: r => if (key x <=? key y)%string then x :: l else y :: insert_by x r
  end.
Definition sort_by (l : list A) : list A := foldr insert_by [] l.
End SortBy.

(** One line: the digest, the size and the path. *)
Definition manifest_line (sum : string) (size : Z) (path : string) : list Z :=
  bytes sum ++ 32 :: bytes (format_int size) ++ 32 :: bytes path ++ [10].

Definition file_line (f : File) : list Z :=
  manifest_line (hex_encode (sha256 (Data f))) (Z.of_nat (length (Data f))) (Path f).

Definition Manifest (files : list File) : result sc_error (list Z) :=
  match files with
  | [] => Err ErrEmpty
  | _ =>
      guard (Z.of_nat (length files) <=? MaxFiles) else ErrTooManyFiles;
      let sorted := sort_by Path files in
      _ <-! checkSortedPaths (Path <$> sorted);
      Ok (sorted ≫= file_line)
  end.

(** [DigestOf] and the end of [Digest] are [DigestBytes]. *)
Definition DigestOf (manifest : list Z) : string := DigestBytes manifest.

Definition Digest (files : list File) : result sc_error string :=
  manifest <-! Manifest files;
  Ok (DigestOf manifest).

Definition Canonical (files : list File) : result sc_error (list File * list Z * string) :=
  manifest <-! Manifest files;
  Ok (sort_by Path files, manifest, DigestOf manifest).

(** ** Entries of a report *)

Record Entry : Type := { EntryPath : string; EntrySize : Z; EntrySHA256 : string }.

(** [len(s) != 64 || strings.ToLower(s) != s], then [hex.DecodeString]. *)
Definition valid_sum (s : string) : bool :=
  (len s =? 64) && bool_decide (to_lower s = s) && bool_decide (is_Some (hex_decode s)).

Fixpoint entry_lines (entries : list Entry) : result sc_error (list Z) :=
  match entries with
  | [] => Ok []
  | e :: rest =>
      guard (negb (EntrySize e <? 0) && valid_sum (EntrySHA256 e)) else ErrInvalidEntry;
      lines <-! entry_lines rest;
      Ok (manifest_line (EntrySHA256 e) (EntrySize e) (EntryPath e) ++ lines)
  end.

Definition DigestOfEntries (entries : list Entry) : result sc_error string :=
  match entries with
  | [] => Err ErrEmpty
  | _ =>
      guard (Z.of_nat (length entries) <=? MaxFiles) else ErrTooManyFiles;
      let sorted := sort_by EntryPath entries in
      _ <-! checkSortedPaths (EntryPath <$> sorted);
      manifest <-! entry_lines sorted;
      Ok (DigestBytes manifest)
  end.

(** ** Reading a manifest back *)

(** [bytes.Split]: the pieces between the separators, at least one. *)
Fixpoint split_bytes (sep : Z) (l : list Z) : list (list Z) :=
  match l with
  | [] => [[]]
  | b :: r =>
      match split_bytes sep r with
      | h :: t => if b =? sep then [] :: h :: t else (b :: h) :: t
      | [] => []
      end
  end.
(** The bytes before and after the first separator. *)
Fixpoint cut_bytes (sep : Z) (l : list Z) : option (list Z * list Z) :=
  match l with
  | [] => None
  | b :: r => if b =? sep then Some ([], r) else '(h, t) ← cut_bytes sep r; Some (b :: h, t)
  end.

Record manifestLine : Type := { ml_sum : string; ml_size : Z; ml_path : string }.

(** [strings.SplitN(line, " ", 3)] and the checks on its three fields. *)
Definition parse_line (line : list Z) : option manifestLine :=
  '(f0, r0) ← cut_bytes 32 line;
  '(f1, f2) ← cut_bytes 32 r0;
  let sum := of_bytes f0 in
  if negb (valid_sum sum) then None else
  size ← parse_int (of_bytes f1);
  if (size <? 0) || negb (bool_decide (format_int size = of_bytes f1)) then None else
  if negb (validPath (of_bytes f2)) then None else
  Some {| ml_sum := sum; ml_size := size; ml_path := of_bytes f2 |}.

Fixpoint parse_lines (previous : option string) (raw : list (list Z)) : option (list manifestLine) :=
  match raw with
  | [] => Some []
  | line :: rest =>
      l ← parse_line line;
      if match previous with Some p => (ml_path l <=? p)%string | None => false end then None else
      lines ← parse_lines (Some (ml_path l)) rest;
      Some (l :: lines)
  end.

Definition parseManifest (manifest : list Z) : option (list manifestLine) :=
  match last manifest with
  | Some 10 =>
      let raw := split_bytes 10 (take (length manifest - 1) manifest) in
      if MaxFiles <? Z.of_nat (length raw) then None else parse_lines None raw
  | _ => None
  end.

(** ** A snapshot *)

(** [read] returns the bytes stored for a manifest line, or an error. *)
Fixpoint read_files (read : Z -> Z -> option (list Z)) (index total : Z) (lines : list manifestLine)
    : result sc_error (list File) :=
  match lines with
  | [] => Ok []
  | line :: rest =>
      let total := int64_wrap (total + ml_size line) in
      if MaxSnapshotBytes <? total then Err ErrContentMismatch else
      match read index (ml_size line) with
      | None => Err ErrContentMismatch
      | Some data =>
          guard ((Z.of_nat (length data) =? ml_size line)
                 && bool_decide (hex_encode (sha256 data) = ml_sum line)) else ErrContentMismatch;
          files <-! read_files read (index + 1) total rest;
          Ok ({| Path := ml_path line; Data := data |} :: files)
      end
  end.

Definition Files (manifest : list Z) (read : Z -> Z -> option (list Z)) : result sc_error (list File) :=
  match parseManifest manifest with
  | None => Err ErrContentMismatch
  | Some lines =>
      files <-! read_files read 0 (Z.of_nat (length manifest)) lines;
      match Manifest files with
      | Err _ => Err ErrContentMismatch
      | Ok recomputed => if bool_decide (recomputed = manifest) then Ok files else Err ErrContentMismatch
      end
  end.

(** [fmt.Sprintf("f%04d", index)] of an index that is not negative. *)
Definition SnapshotFileKey (index : Z) : string :=
  "f" +:+ (if index <? 1000 then "0" +:+ format_03d index else format_int index).

(** A snapshot directory: what [os.ReadDir] lists and what opening and
    reading a file to its end gives. *)
Record snapshotDir : Type := {
  listing : option (list string);
  content : string -> option (list Z);
}.

(** [io.LimitReader] stops at its limit, which wraps like any [int64]. *)
Definition readBounded (d : snapshotDir) (name : string) (limit : Z) : option (list Z) :=
  data ← content d name;
  let data := take (Z.to_nat (int64_wrap (limit + 1))) data in
  if limit <? Z.of_nat (length data) then None else Some data.

Definition isFileKey (name : string) (count : Z) : bool :=
  match name with
  | String a rest =>
      (len name =? 5) && bool_decide (a = "f"%char) &&
      match parse_int rest with
      | Some index => (0 <=? index) && (index <? count) && bool_decide (SnapshotFileKey index = name)
      | None => false
      end
  | EmptyString => false
  end.

Fixpoint count_keys (names : list string) (count seen : Z) : result sc_error Z :=
  match names with
  | [] => Ok seen
  | name :: rest =>
      if has_prefix ".." name then count_keys rest count seen else
      guard (bool_decide (name = ManifestKey) || isFileKey name count) else ErrContentMismatch;
      count_keys rest count (seen + 1)
  end.

Definition onlyKeys (d : snapshotDir) (count : Z) : result sc_error unit :=
  match listing d with
  | None => Err ReadFailed
  | Some names =>
      seen <-! count_keys names count 0;
      if seen =? count + 1 then Ok tt else Err ErrContentMismatch
  end.

(** [Materialize] up to the files it writes. *)
Definition Materialize (d : snapshotDir) (contentDigest : string) : result sc_error (list File) :=
  match readBounded d ManifestKey MaxSnapshotBytes with
  | None => Err ReadFailed
  | Some manifest =>
      guard (bool_decide (DigestOf manifest = contentDigest)) else ErrContentMismatch;
      match parseManifest manifest with
      | None => Err ErrContentMismatch
      | Some lines =>
          _ <-! onlyKeys d (Z.of_nat (length lines));
          Files manifest (fun index size => readBounded d (SnapshotFileKey index) size)
      end
  end.
