(* ===== verification/SourceContentProofs.v ===== *)
(** * Source content: which sets of files are admitted, what a digest binds,
      and reading a snapshot back

    The lemmas and theorems about [SourceContent.v]. *)
From stdpp Require Import base list gmap strings pretty.
From Stdlib Require Import ZArith Lia Ascii Sorted Permutation.
From S2P Require Import Prelude GoStrings Sha256 Json JsonDecode Fingerprint SourceContent.
Local Open Scope go_scope.
Local Open Scope Z_scope.
#[local] Opaque sha256 hex_encode.

(** ** Sorting by a key *)

Section SortByLemmas.
Context {A : Type} (key : A -> string).

Lemma insert_by_key x l : key <$> insert_by key x l = insert_str (key x) (key <$> l).
Proof.
  induction l as [|y l IH]; [done|]. rewrite fmap_cons. cbn [insert_by insert_str].
  case_match; rewrite ?fmap_cons, ?IH; done.
Qed.

Lemma sort_by_key l : key <$> sort_by key l = sort_strings (key <$> l).
Proof.
  induction l as [|x l IH]; [done|]. change (sort_by key (x :: l)) with (insert_by key x (sort_by key l)).
  rewrite insert_by_key, IH. done.
Qed.

Lemma sort_by_perm l : Permutation l (sort_by key l).
Proof.
  assert (forall x k, Permutation (x :: k) (insert_by key x k)) as Hi.
  { intros x k. induction k as [|y k IH]; simpl; [done|]. case_match; [done|]. rewrite perm_swap. by constructor. }
  induction l as [|x l IH]; [done|]. change (sort_by key (x :: l)) with (insert_by key x (sort_by key l)).
  rewrite <- Hi. by constructor.
Qed.
End SortByLemmas.

Lemma sort_by_sorted {A} (key : A -> string) l : StronglySorted str_le (key <$> sort_by key l).
Proof. rewrite sort_by_key. apply sort_strings_sorted. Qed.

Lemma sort_by_id {A} (key : A -> string) l : StronglySorted str_le (key <$> l) -> sort_by key l = l.
Proof.
  induction l as [|x l IH]; intros H; [done|]. rewrite fmap_cons in H. apply StronglySorted_inv in H as [Hs Hx].
  change (sort_by key (x :: l)) with (insert_by key x (sort_by key l)). rewrite (IH Hs).
  destruct l as [|y l]; [done|]. cbn [insert_by]. rewrite fmap_cons in Hx. apply Forall_cons in Hx as [Hx _]. by rewrite Hx.
Qed.

(** Two sorted lists with distinct keys and the same elements are equal. *)
Lemma sort_by_perm_eq {A} (key : A -> string) (l l' : list A) :
  NoDup (key <$> l) -> Permutation l l' -> sort_by key l = sort_by key l'.
Proof.
  intros Hnd Hp. set (s := sort_by key l). set (s' := sort_by key l').
  assert (key <$> s = key <$> s') as Hk.
  { apply sorted_perm_eq; [apply sort_by_sorted..|]. unfold s, s'. by rewrite <- !sort_by_perm, Hp. }
  assert (Permutation s s') as Hs by (unfold s, s'; by rewrite <- !sort_by_perm).
  assert (NoDup (key <$> s)) as Hn by (unfold s; by rewrite <- sort_by_perm). clearbody s s'. clear Hp Hnd l l'.
  revert s' Hk Hs. induction s as [|x s IH]; intros [|y s'] Hk Hs; [done..|].
  rewrite !fmap_cons in *. assert (key x = key y /\ key <$> s = key <$> s') as [Hxy Hk'] by (split; congruence).
  apply NoDup_cons in Hn as [Hx Hn]. assert (x = y) as ->.
  { assert (x ∈ y :: s') as [->|Hin]%elem_of_cons by (rewrite <- Hs; apply list_elem_of_here); [done|].
    exfalso. apply Hx. rewrite Hk'. apply list_elem_of_fmap. eauto. }
  f_equal. apply IH; [done..|]. by apply Permutation_cons_inv in Hs.
Qed.

(** ** The order of paths *)

Lemma str_le_app p t : str_le p (p +:+ t).
Proof.
  unfold str_le, String.leb. induction p as [|a p IH]; simpl; [by destruct t|].
  unfold Ascii.compare. by rewrite N.compare_refl.
Qed.

Lemma str_le_cons a b p q : str_le (String a p) (String b q) -> (N_of_ascii a < N_of_ascii b)%N \/ a = b /\ str_le p q.
Proof.
  unfold str_le, String.leb. simpl. unfold Ascii.compare.
  destruct (N.compare_spec (N_of_ascii a) (N_of_ascii b)) as [E|E|E]; [|by left|done].
  intros H. right. split; [|done]. rewrite <- (ascii_N_embedding a), <- (ascii_N_embedding b). by f_equal.
Qed.

(** What lies between a path and an extension of it extends it. *)
Lemma prefix_between p t : forall r, str_le p r -> str_le r (p +:+ t) -> has_prefix p r = true.
Proof.
  unfold has_prefix. induction p as [|a p IH]; intros r Hpr Hr; [by apply bool_decide_eq_true|].
  destruct r as [|b r]; [done|]. change (String a p +:+ t) with (String a (p +:+ t)) in Hr.
  apply str_le_cons in Hpr as [Hpr|[<- Hpr]]; apply str_le_cons in Hr as [Hr|[E Hr]]; try subst; try lia.
  cbn [cut_prefix]. rewrite (bool_decide_eq_true_2 (a = a)) by done. by apply IH.
Qed.

Lemma has_prefix_spec p s : has_prefix p s = true <-> exists t, s = p +:+ t.
Proof.
  unfold has_prefix. rewrite bool_decide_eq_true. split.
  - intros [t Ht]. exists t. by apply cut_prefix_Some.
  - intros [t ->]. exists t. apply cut_prefix_app.
Qed.

Lemma str_app_assoc (x y z : string) : (x +:+ y) +:+ z = x +:+ (y +:+ z).
Proof.
  induction x as [|a x IH]; [done|].
  change (String a ((x +:+ y) +:+ z) = String a (x +:+ (y +:+ z))). by rewrite IH.
Qed.

Lemma dir_prefix p q : has_prefix (p +:+ "/") q = true -> has_prefix p q = true /\ p <> q /\ str_le p q.
Proof.
  rewrite !has_prefix_spec. intros [t ->]. rewrite str_app_assoc. split; [by eexists|].
  split; [|apply str_le_app]. intros E. apply (f_equal String.length) in E.
  rewrite !str_app_length in E. simpl in E. lia.
Qed.

(** ** The checks on sorted paths *)

Lemma check_each_spec paths : forall previous,
  StronglySorted str_le paths -> (forall p, previous = Some p -> Forall (str_le p) paths) ->
  (check_each previous paths = Ok tt <->
   Forall (fun p => validPath p = true) paths /\ NoDup paths /\ (forall p, previous = Some p -> p ∉ paths)).
Proof.
  induction paths as [|p paths IH]; intros previous Hs Hp; simpl.
  { split; [|done]. intros _. split; [constructor|]. split; [constructor|]. intros p _ Hin. inversion Hin. }
  apply StronglySorted_inv in Hs as [Hs Hall]. rewrite Forall_cons, NoDup_cons.
  destruct (validPath p) eqn:Ev; [|split; [done|intros ((?&?)&_); congruence]].
  case_bool_decide as Hd; simpl.
  { split; [done|]. intros (_ & _ & Hn). exfalso. apply (Hn p Hd). apply list_elem_of_here. }
  rewrite IH by (try done; by intros ? [= <-]). split.
  - intros (Hv & Hn & Hx). split; [done|]. split; [by split; [apply Hx|]|].
    intros q -> Hq. apply elem_of_cons in Hq as [->|Hq]; [done|].
    specialize (Hp q eq_refl). apply Forall_cons in Hp as [Hqp _]. rewrite Forall_forall in Hall.
    assert (q = p) as -> by (apply String.leb_antisym; [done|by apply Hall]). done.
  - intros ((_ & Hv) & (Hx & Hn) & _). split; [done|]. split; [done|]. by intros ? [= <-].
Qed.

Lemma conflict_after_spec p later :
  StronglySorted str_le (p :: later) ->
  (conflict_after p later = true <-> exists q, q ∈ later /\ has_prefix (p +:+ "/") q = true).
Proof.
  induction later as [|l later IH]; intros Hs; simpl.
  { split; [done|]. intros (q & Hq & _). inversion Hq. }
  setoid_rewrite elem_of_cons. apply StronglySorted_inv in Hs as [Hs Hp]. apply Forall_cons in Hp as [Hpl Hp].
  apply StronglySorted_inv in Hs as [Hs Hl].
  destruct (has_prefix p l) eqn:El; simpl.
  - rewrite orb_true_iff, IH by (by constructor). naive_solver.
  - split; [done|]. intros (q & [->|Hq] & Hd); [by apply dir_prefix in Hd as [? _]; congruence|].
    exfalso. apply has_prefix_spec in Hd as [t ->]. rewrite str_app_assoc in Hq.
    rewrite Forall_forall in Hl. specialize (Hl _ Hq). pose proof (prefix_between _ _ _ Hpl Hl). congruence.
Qed.

(** No path is a directory of another. *)
Definition no_conflict (paths : list string) : Prop :=
  forall p q, p ∈ paths -> q ∈ paths -> has_prefix (p +:+ "/") q = false.

Lemma check_conflicts_spec paths :
  StronglySorted str_le paths -> NoDup paths -> (check_conflicts paths = Ok tt <-> no_conflict paths).
Proof.
  unfold no_conflict. induction paths as [|p paths IH]; intros Hs Hn; simpl.
  { split; [|done]. intros _ p q Hp. inversion Hp. }
  pose proof (conflict_after_spec p paths Hs) as Hc. apply StronglySorted_inv in Hs as [Hs Hp].
  apply NoDup_cons in Hn as [Hpn Hn]. setoid_rewrite elem_of_cons. rewrite Forall_forall in Hp.
  destruct (conflict_after p paths).
  - split; [done|]. intros H. destruct (proj1 Hc eq_refl) as (q & Hq & Hd).
    specialize (H p q (or_introl eq_refl) (or_intror Hq)). congruence.
  - rewrite IH by done. split; [|naive_solver]. intros H a b Ha Hb.
    destruct (has_prefix (a +:+ "/") b) eqn:E; [exfalso|done].
    pose proof (dir_prefix _ _ E) as (_ & Hab & Hle).
    destruct Ha as [->|Ha], Hb as [->|Hb]; [done| | |by rewrite H in E].
    + assert (false = true) by (apply Hc; eauto). done.
    + apply Hab, String.leb_antisym; [done|]. by apply Hp.
Qed.

(** The sets of files the rules admit. *)
Definition admissible (files : list File) : Prop :=
  1 <= Z.of_nat (length files) <= MaxFiles /\
  Forall (fun f => validPath (Path f) = true) files /\
  NoDup (Path <$> files) /\ no_conflict (Path <$> files).

Lemma checkSortedPaths_spec paths :
  StronglySorted str_le paths ->
  (checkSortedPaths paths = Ok tt <->
   Forall (fun p => validPath p = true) paths /\ NoDup paths /\ no_conflict paths).
Proof.
  intros Hs. unfold checkSortedPaths. pose proof (check_each_spec paths None Hs ltac:(done)) as He.
  destruct (check_each None paths) as [[]|e]; simpl.
  - destruct (proj1 He eq_refl) as (Hv & Hn & _). rewrite check_conflicts_spec by done. naive_solver.
  - split; [done|]. intros (Hv & Hn & _). assert (Err e = Ok ()) by (apply He; naive_solver). done.
Qed.

Lemma Manifest_spec files m :
  Manifest files = Ok m <-> admissible files /\ m = sort_by Path files ≫= file_line.
Proof.
  unfold Manifest, admissible. destruct files as [|f fs]; [split; [done|]; intros [[Hl _] _]; simpl in Hl; lia|].
  set (files := f :: fs). assert (1 <= Z.of_nat (length files)) as Hl1 by (unfold files; simpl; lia).
  clearbody files. clear f fs.
  pose proof (checkSortedPaths_spec _ (sort_by_sorted Path files)) as Hc.
  assert ((checkSortedPaths (Path <$> sort_by Path files) = Ok ()) <->
    Forall (fun f => validPath (Path f) = true) files /\ NoDup (Path <$> files) /\ no_conflict (Path <$> files)) as Hc'.
  { pose proof (sort_by_perm Path files) as Hp. rewrite Hc. generalize dependent (sort_by Path files).
    intros s _ Hp. rewrite Forall_fmap. unfold compose, no_conflict.
    assert (forall p, p ∈ Path <$> s <-> p ∈ Path <$> files) as Hin by (intros p; by rewrite Hp).
    setoid_rewrite Hin. by rewrite Hp. }
  clear Hc. destruct (Z.of_nat (length files) <=? MaxFiles) eqn:El; bool_prop;
    [|split; [done|]; intros [[? _] _]; lia].
  destruct (checkSortedPaths _) as [[]|e]; simpl.
  - destruct (proj1 Hc' eq_refl) as (? & ? & ?). split; [by intros [= <-]|by intros [_ ->]].
  - split; [done|]. intros [(_ & H) _]. assert (Err e = Ok ()) by (by apply Hc'). done.
Qed.

(** ** Bytes of a line *)

Lemma split_bytes_nonempty sep l : exists h t, split_bytes sep l = h :: t.
Proof.
  induction l as [|b l (h & t & IH)]; simpl; [eauto|]. rewrite IH. destruct (b =? sep); eauto.
Qed.

Lemma split_bytes_app sep l r : sep ∉ l -> split_bytes sep (l ++ sep :: r) = l :: split_bytes sep r.
Proof.
  induction l as [|b l IH]; intros Hn; simpl.
  - rewrite Z.eqb_refl. by destruct (split_bytes_nonempty sep r) as (h & t & ->).
  - apply not_elem_of_cons in Hn as [Hb Hn]. rewrite IH by done. by rewrite (proj2 (Z.eqb_neq b sep)).
Qed.

Lemma split_bytes_none sep l : sep ∉ l -> split_bytes sep l = [l].
Proof.
  induction l as [|b l IH]; intros Hn; simpl; [done|]. apply not_elem_of_cons in Hn as [Hb Hn].
  rewrite IH by done. by rewrite (proj2 (Z.eqb_neq b sep)).
Qed.

Lemma cut_bytes_app sep l r : sep ∉ l -> cut_bytes sep (l ++ sep :: r) = Some (l, r).
Proof.
  induction l as [|b l IH]; intros Hn; simpl; [by rewrite Z.eqb_refl|].
  apply not_elem_of_cons in Hn as [Hb Hn]. by rewrite IH, (proj2 (Z.eqb_neq b sep)).
Qed.

Lemma split_lines sep (bs : list (list Z)) :
  bs <> [] -> Forall (fun b => sep ∉ b) bs ->
  let m := bs ≫= (fun b => b ++ [sep]) in
  last m = Some sep /\ split_bytes sep (take (length m - 1) m) = bs.
Proof.
  induction bs as [|b bs IH]; intros Hne Hall; [done|]. apply Forall_cons in Hall as [Hb Hall].
  destruct bs as [|b' bs].
  - simpl. rewrite app_nil_r. split; [by rewrite last_snoc|].
    rewrite length_app. simpl. replace (length b + 1 - 1)%nat with (length b) by lia.
    rewrite take_app_length. by apply split_bytes_none.
  - destruct IH as [Hl Hs]; [done..|]. set (m' := (b' :: bs) ≫= _) in *.
    assert ((b :: b' :: bs) ≫= (fun b => b ++ [sep]) = b ++ sep :: m') as ->.
    { rewrite bind_cons. fold m'. by rewrite <- app_assoc. }
    cbv zeta. assert (m' <> []) as Hm' by (intros E; rewrite E in Hl; done).
    assert (last (b ++ sep :: m') = Some sep) as ->.
    { by rewrite last_app_cons, last_cons, Hl. }
    split; [done|].
    assert (length (b ++ sep :: m') - 1 = length b + S (length m' - 1))%nat as ->.
    { rewrite length_app. simpl. destruct m'; [done|simpl; lia]. }
    rewrite take_app_add. simpl. rewrite split_bytes_app by done. by rewrite Hs.
Qed.

(** ** Digests in hexadecimal *)

Lemma lower_bytes_id l : Forall (fun b => b < 128 /\ ~ (65 <= b <= 90)) l -> lower_bytes l = l.
Proof.
  induction 1 as [|b l [Hb Hu] Hl IH]; [done|].
  assert (lower_byte b = b) as Hlb by (unfold lower_byte; case_match; [lia|done]).
  simpl. rewrite (proj2 (Z.eqb_neq b 196)), (proj2 (Z.eqb_neq b 226)) by lia. simpl.
  destruct l as [|b1 [|b2 l]]; by rewrite ?Hlb, ?IH.
Qed.

Lemma str_all_bytes f s (P : Z -> Prop) :
  (forall a, f a = true -> P (byte_of a)) -> str_all f s = true -> Forall P (bytes s).
Proof.
  intros Hf. induction s as [|a s IH]; [constructor|]. intros [Ha Hs]%andb_true_iff. rewrite bytes_cons.
  constructor; auto.
Qed.

Lemma lower_hex_bytes s : str_all is_lower_hex s = true -> Forall (fun b => 48 <= b <= 57 \/ 97 <= b <= 102) (bytes s).
Proof.
  apply str_all_bytes. intros a. unfold is_lower_hex, is_digit, in_range.
  rewrite orb_true_iff, !andb_true_iff, !Z.leb_le. lia.
Qed.

Lemma valid_sum_hex l : Forall is_byte l -> length l = 32%nat -> valid_sum (hex_encode l) = true.
Proof.
  intros Hl Hlen. unfold valid_sum, len. rewrite hex_encode_length, Hlen, hex_decode_encode by done.
  rewrite !andb_true_iff. split; [split; [done|]|done]. apply bool_decide_eq_true. unfold to_lower.
  rewrite lower_bytes_id, of_bytes_bytes; [done|].
  eapply Forall_impl; [by apply lower_hex_bytes, hex_encode_lower|]. simpl. lia.
Qed.

(** The bytes of one line, without its newline. *)
Definition line_body (f : File) : list Z :=
  bytes (hex_encode (sha256 (Data f))) ++ 32 :: bytes (format_int (Z.of_nat (length (Data f)))) ++ 32 :: bytes (Path f).

Lemma file_line_body f : file_line f = line_body f ++ [10].
Proof. unfold file_line, manifest_line, line_body. by rewrite <- !app_assoc, <- app_comm_cons, <- !app_assoc. Qed.

Lemma hex_no_byte l b : Forall is_byte l -> b < 48 -> b ∉ bytes (hex_encode l).
Proof.
  intros Hl Hb Hin. pose proof (lower_hex_bytes _ (hex_encode_lower l Hl)) as H.
  rewrite Forall_forall in H. apply H in Hin. lia.
Qed.

Lemma num_no_byte z b : num_byte b = false -> b ∉ bytes (format_int z).
Proof.
  intros Hb Hin. destruct (format_int_num z) as [H _]. rewrite Forall_forall in H. apply H in Hin. congruence.
Qed.

Lemma path_no_byte p b : validPath p = true -> b < 32 -> b ∉ bytes p.
Proof.
  unfold validPath. intros H Hb Hin. bool_prop.
  match goal with H : str_all _ p = true |- _ => eapply (str_all_bytes _ _ (fun c => 32 <= c)) in H as Hall end.
  - rewrite Forall_forall in Hall. apply Hall in Hin. lia.
  - intros a. unfold refused_rune. intros. bool_prop. lia.
Qed.

Lemma line_body_no_newline f : validPath (Path f) = true -> 10 ∉ line_body f.
Proof.
  intros Hp. unfold line_body. rewrite !not_elem_of_app, !not_elem_of_cons, not_elem_of_app, not_elem_of_cons.
  split_and!; try lia; [apply hex_no_byte; auto with ptah; lia|by apply num_no_byte|by apply path_no_byte].
Qed.

(** The line a file is listed by. *)
Definition line_of (f : File) : manifestLine :=
  {| ml_sum := hex_encode (sha256 (Data f)); ml_size := Z.of_nat (length (Data f)); ml_path := Path f |}.
(** A Go slice is never longer than an [int] counts. *)
Definition sized (f : File) : Prop := Z.of_nat (length (Data f)) < 2 ^ 63.

Lemma parse_line_body f : validPath (Path f) = true -> sized f -> parse_line (line_body f) = Some (line_of f).
Proof.
  intros Hp Hs. unfold parse_line, line_body.
  rewrite cut_bytes_app by (apply hex_no_byte; auto with ptah; lia). simpl.
  rewrite cut_bytes_app by (by apply num_no_byte). simpl. rewrite !of_bytes_bytes.
  rewrite valid_sum_hex by auto using sha256_range, sha256_length. simpl.
  rewrite parse_format_int by (unfold sized in Hs; lia). simpl.
  rewrite (proj2 (Z.ltb_ge _ _)) by lia. rewrite bool_decide_eq_true_2 by done. simpl. by rewrite Hp.
Qed.

Lemma parse_lines_bodies files : forall previous,
  Forall (fun f => validPath (Path f) = true) files -> Forall sized files ->
  StronglySorted str_le (Path <$> files) -> NoDup (Path <$> files) ->
  (forall p, previous = Some p -> Forall (fun q => str_le p q /\ p <> q) (Path <$> files)) ->
  parse_lines previous (line_body <$> files) = Some (line_of <$> files).
Proof.
  induction files as [|f files IH]; intros previous Hv Hs Ho Hn Hp; [done|].
  apply Forall_cons in Hv as [Hvf Hv], Hs as [Hsf Hs]. rewrite !fmap_cons in *.
  apply StronglySorted_inv in Ho as [Ho Hall]. apply NoDup_cons in Hn as [Hnf Hn].
  cbn [parse_lines]. rewrite parse_line_body by done. simpl.
  assert (match previous with Some p => (Path f <=? p)%string | None => false end = false) as ->.
  { destruct previous as [p|]; [|done]. specialize (Hp p eq_refl). apply Forall_cons in Hp as [[Hle Hne] _].
    destruct (Path f <=? p)%string eqn:E; [|done]. exfalso. apply Hne. by apply String.leb_antisym. }
  change (list_fmap File (list Z) line_body files) with (line_body <$> files).
  assert (parse_lines (Some (Path f)) (line_body <$> files) = Some (line_of <$> files)) as ->; [|done].
  apply IH; [done..|]. intros p [= <-]. rewrite Forall_forall in *. intros q Hq.
  split; [by apply Hall|]. by intros <-.
Qed.

Lemma bind_lines (files : list File) : files ≫= file_line = (line_body <$> files) ≫= (fun b => b ++ [10]).
Proof. induction files as [|f files IH]; [done|]. rewrite fmap_cons, !bind_cons, IH, file_line_body. done. Qed.

(** Parsing the manifest of a set of files gives its lines. *)
Lemma parse_Manifest files m :
  Forall sized files -> Manifest files = Ok m -> parseManifest m = Some (line_of <$> sort_by Path files).
Proof.
  intros Hs Hm. apply Manifest_spec in Hm as [(Hl & Hv & Hn & Hc) ->].
  pose proof (sort_by_perm Path files) as Hp. pose proof (sort_by_sorted Path files) as Ho.
  set (s := sort_by Path files) in *. clearbody s. rewrite Hp in Hv, Hn, Hs, Hl. clear Hp Hc files.
  rewrite bind_lines. destruct (split_lines 10 (line_body <$> s)) as [Hlast Hsplit].
  { destruct s; [simpl in Hl; lia|done]. }
  { rewrite Forall_fmap. eapply Forall_impl; [done|]. intros f Hf. by apply line_body_no_newline. }
  unfold parseManifest. rewrite Hlast, Hsplit, length_fmap. cbv zeta.
  rewrite (proj2 (Z.ltb_ge _ _)) by lia. by apply parse_lines_bodies.
Qed.

(** Equal manifests list equal files, or two files with one digest. *)
Lemma line_of_inj f f' :
  line_of f = line_of f' -> f = f' \/ (Path f = Path f' /\ collision (Data f) (Data f')).
Proof.
  intros H. pose proof (f_equal ml_sum H) as Hsum. pose proof (f_equal ml_path H) as Hp.
  cbn [line_of ml_sum ml_path] in Hsum, Hp. apply hex_encode_inj in Hsum; [|auto with ptah..].
  destruct (decide (Data f = Data f')) as [E|E]; [left|by right].
  destruct f as [p d], f' as [p' d']. cbn [Path Data] in Hp, E. by rewrite Hp, E.
Qed.

Lemma lines_of_inj (l l' : list File) :
  line_of <$> l = line_of <$> l' ->
  l = l' \/ exists f f', f ∈ l /\ f' ∈ l' /\ Path f = Path f' /\ collision (Data f) (Data f').
Proof.
  revert l'. induction l as [|f l IH]; intros [|f' l'] H; try done; [by left|]. rewrite !fmap_cons in H.
  assert (line_of f = line_of f' /\ line_of <$> l = line_of <$> l') as [H1 H2] by (split; congruence).
  apply IH in H2 as [->|(g & g' & Hg & Hg' & Hc)].
  - apply line_of_inj in H1 as [->|Hc]; [by left|]. right. exists f, f'.
    split; [apply list_elem_of_here|]. split; [apply list_elem_of_here|exact Hc].
  - right. exists g, g'. split; [by apply list_elem_of_further|]. split; [by apply list_elem_of_further|exact Hc].
Qed.

(** ** Snapshots *)

Definition total_bytes (files : list File) : Z := foldr (fun f n => Z.of_nat (length (Data f)) + n) 0 files.

Lemma total_bytes_nonneg files : 0 <= total_bytes files.
Proof. induction files; simpl; lia. Qed.

Lemma total_sized files : total_bytes files <= MaxSnapshotBytes -> Forall sized files.
Proof.
  change MaxSnapshotBytes with 1048576. induction files as [|f l IH]; intros Hb; constructor;
    cbn [total_bytes foldr] in Hb; fold (total_bytes l) in Hb; pose proof (total_bytes_nonneg l);
    [unfold sized; lia|apply IH; lia].
Qed.

Lemma total_lookup files i f : files !! i = Some f -> Z.of_nat (length (Data f)) <= total_bytes files.
Proof.
  revert i. induction files as [|g l IH]; intros [|i] Hf; [done|done|..]; simpl in Hf;
    cbn [total_bytes foldr]; fold (total_bytes l); pose proof (total_bytes_nonneg l);
    [injection Hf as ->; lia|specialize (IH _ Hf); lia].
Qed.

Lemma int64_wrap_small z : in_int64 z = true -> int64_wrap z = z.
Proof.
  unfold in_int64, int64_wrap. rewrite andb_true_iff, Z.leb_le, Z.ltb_lt. intros. rewrite Z.mod_small; lia.
Qed.

(** Reading the files of a manifest whose bytes fit. *)
Lemma read_files_complete read files : forall index total,
  0 <= total -> total + total_bytes files <= MaxSnapshotBytes ->
  (forall i f, files !! i = Some f ->
     read (index + Z.of_nat i) (Z.of_nat (length (Data f))) = Some (Data f)) ->
  read_files read index total (line_of <$> files) = Ok files.
Proof.
  induction files as [|f files IH]; intros index total Ht Hb Hr; [done|].
  rewrite fmap_cons. cbn [read_files line_of ml_size ml_sum ml_path]. cbn [total_bytes foldr] in Hb.
  fold (total_bytes files) in Hb. pose proof (total_bytes_nonneg files).
  change MaxSnapshotBytes with 1048576 in *.
  rewrite int64_wrap_small by (unfold in_int64; rewrite andb_true_iff, Z.leb_le, Z.ltb_lt; lia).
  rewrite (proj2 (Z.ltb_ge _ _)) by lia.
  pose proof (Hr O f eq_refl) as H0. rewrite Z.add_0_r in H0. rewrite H0.
  rewrite Z.eqb_refl, bool_decide_eq_true_2 by done. cbn [andb].
  rewrite IH; [by destruct f| lia|lia|].
  intros i g Hg. rewrite <- (Hr (S i) g Hg). f_equal. lia.
Qed.

(** What reading the files of a manifest gives: one file per line, its bytes as
    read, within the bound -- the sum cannot pass it by wrapping around when no
    read returns more than an address space holds. *)
Lemma read_files_sound read lines : forall index total files,
  (forall i size data, read i size = Some data -> Z.of_nat (length data) < 2 ^ 62) ->
  0 <= total <= MaxSnapshotBytes ->
  read_files read index total lines = Ok files ->
  line_of <$> files = lines /\ total + total_bytes files <= MaxSnapshotBytes.
Proof.
  change MaxSnapshotBytes with 1048576.
  induction lines as [|line lines IH]; intros index total files Hread Ht H; cbn [read_files] in H.
  { injection H as <-. simpl. split; [done|lia]. }
  change MaxSnapshotBytes with 1048576 in H.
  destruct (1048576 <? _) eqn:El; [done|]. destruct (read index (ml_size line)) as [data|] eqn:Er; [|done].
  destruct (_ && _) eqn:Ed; [|done]. apply andb_true_iff in Ed as [Hlen Hsum].
  apply Z.eqb_eq in Hlen. apply bool_decide_eq_true in Hsum. apply Z.ltb_ge in El.
  pose proof (Hread _ _ _ Er) as Hd. rewrite int64_wrap_small in H, El
    by (unfold in_int64; rewrite andb_true_iff, Z.leb_le, Z.ltb_lt; lia).
  destruct (read_files _ _ _ lines) as [fs|] eqn:E; cbn [rbind] in H; [|done]. injection H as <-.
  apply IH in E as [<- Hb]; [|done|lia]. rewrite fmap_cons. split.
  - f_equal. unfold line_of. destruct line as [a b c]. cbn [ml_sum ml_size ml_path Data Path] in *. by rewrite Hsum, Hlen.
  - cbn [total_bytes foldr Data]. fold (total_bytes fs). lia.
Qed.

Lemma Files_sound m read files :
  Files m read = Ok files -> exists lines, parseManifest m = Some lines /\
    read_files read 0 (Z.of_nat (length m)) lines = Ok files /\ Manifest files = Ok m.
Proof.
  unfold Files. destruct (parseManifest m) as [lines|]; [|done]. intros H. exists lines. split; [done|].
  destruct (read_files _ _ _ lines) as [fs|] eqn:E; [|done]. cbn [rbind] in H.
  destruct (Manifest fs) as [m'|] eqn:Em; [|done]. case_bool_decide; [|done]. by simplify_eq.
Qed.

(** Two admitted sets of files with one digest. *)
Definition same_content (files files' : list File) : Prop :=
  Permutation files files' \/
  (exists m m', Manifest files = Ok m /\ Manifest files' = Ok m' /\ collision m m') \/
  (exists f f', f ∈ files /\ f' ∈ files' /\ Path f = Path f' /\ collision (Data f) (Data f')).

Lemma digest_same_content files files' m m' :
  Forall sized files -> Forall sized files' ->
  Manifest files = Ok m -> Manifest files' = Ok m' -> DigestOf m = DigestOf m' -> same_content files files'.
Proof.
  intros Hs Hs' Hm Hm' Hd. unfold same_content. apply DigestBytes_inj in Hd as [<-|Hc]; [|by eauto 10].
  apply parse_Manifest in Hm as Hp; [|done]. apply parse_Manifest in Hm' as Hp'; [|done].
  assert (line_of <$> sort_by Path files = line_of <$> sort_by Path files') as Hl by congruence.
  apply lines_of_inj in Hl as [Hl|(f & f' & Hf & Hf' & Hc)].
  - left. rewrite (sort_by_perm Path files), (sort_by_perm Path files'). by rewrite Hl.
  - right; right. exists f, f'. rewrite (sort_by_perm Path files), (sort_by_perm Path files'). done.
Qed.

Lemma Manifest_perm files files' :
  Permutation files files' -> forall m, Manifest files = Ok m -> Manifest files' = Ok m.
Proof.
  intros Hp m. rewrite !Manifest_spec. unfold admissible, no_conflict. intros [(Hl & Hv & Hn & Hc) ->].
  rewrite (sort_by_perm_eq Path files files') by done. split; [|done]. rewrite <- Hp. split_and!; try done; try lia.
  intros p q. rewrite <- Hp. apply Hc.
Qed.

(** The report of a file. *)
Definition entry_of (f : File) : Entry :=
  {| EntryPath := Path f; EntrySize := Z.of_nat (length (Data f)); EntrySHA256 := hex_encode (sha256 (Data f)) |}.

Lemma sort_by_fmap {A B} (f : A -> B) (key : B -> string) (l : list A) :
  sort_by key (f <$> l) = f <$> sort_by (key ∘ f) l.
Proof.
  induction l as [|x l IH]; [done|].
  change (insert_by key (f x) (sort_by key (f <$> l)) = f <$> insert_by (key ∘ f) x (sort_by (key ∘ f) l)).
  rewrite IH. generalize (sort_by (key ∘ f) l) as k. intros k. induction k as [|y k IHk]; [done|].
  rewrite fmap_cons. cbn [insert_by]. unfold compose at 1 2. case_match; [done|]. by rewrite fmap_cons, IHk.
Qed.

Lemma entry_lines_files files : entry_lines (entry_of <$> files) = Ok (files ≫= file_line).
Proof.
  induction files as [|f files IH]; [done|]. rewrite fmap_cons, bind_cons. cbn [entry_lines entry_of EntrySize EntrySHA256 EntryPath].
  rewrite valid_sum_hex by auto using sha256_range, sha256_length.
  rewrite (proj2 (Z.ltb_ge _ _)) by lia. cbn [negb andb]. by rewrite IH.
Qed.

(** ** The directory of a snapshot *)

Definition key_index (i : Z) : bool :=
  match SnapshotFileKey i with
  | String a rest => bool_decide (a = "f"%char) && bool_decide (parse_int rest = Some i)
  | EmptyString => false
  end && (len (SnapshotFileKey i) =? 5) && negb (has_prefix ".." (SnapshotFileKey i))
  && negb (bool_decide (SnapshotFileKey i = ManifestKey)).

Lemma key_index_small i : 0 <= i < MaxFiles -> key_index i = true.
Proof.
  intros Hi. assert (forallb key_index (seqZ 0 1000) = true) as Hall by (vm_compute; reflexivity).
  rewrite forallb_forall in Hall. apply Hall, list_elem_of_In, elem_of_seqZ. unfold MaxFiles in Hi. lia.
Qed.

Lemma isFileKey_SnapshotFileKey i count : 0 <= i < count -> count <= MaxFiles -> isFileKey (SnapshotFileKey i) count = true.
Proof.
  intros Hi Hc. pose proof (key_index_small i) as Hk. specialize (Hk ltac:(lia)). unfold key_index in Hk.
  unfold isFileKey. destruct (SnapshotFileKey i) as [|a rest] eqn:E; [done|]. bool_prop.
  repeat match goal with H : bool_decide _ = true |- _ => apply bool_decide_eq_true in H end. subst a.
  rewrite bool_decide_eq_true_2 by done.
  match goal with H : parse_int rest = _ |- _ => rewrite H end.
  rewrite E, bool_decide_eq_true_2 by done.
  rewrite (proj2 (Z.eqb_eq _ _)), (proj2 (Z.leb_le _ _)), (proj2 (Z.ltb_lt _ _)) by (done || lia). done.
Qed.

(** The keys of a snapshot, without the entries of the kubelet. *)
Definition own_keys (names : list string) : list string := List.filter (fun n => negb (has_prefix ".." n)) names.

Lemma count_keys_spec names count : forall seen,
  Forall (fun n => n = ManifestKey \/ isFileKey n count = true) (own_keys names) ->
  count_keys names count seen = Ok (seen + Z.of_nat (length (own_keys names))).
Proof.
  unfold own_keys. induction names as [|n names IH]; intros seen H; simpl in *; [by rewrite Z.add_0_r|].
  destruct (has_prefix ".." n); simpl in *; [by apply IH|]. apply Forall_cons in H as [Hn H].
  assert (bool_decide (n = ManifestKey) || isFileKey n count = true) as ->.
  { apply orb_true_iff. destruct Hn as [->|Hn]; [left; by apply bool_decide_eq_true|by right]. }
  rewrite IH by done. f_equal. lia.
Qed.

Lemma readBounded_exact d name data limit :
  content d name = Some data -> Z.of_nat (length data) <= limit < 2 ^ 63 - 1 -> readBounded d name limit = Some data.
Proof.
  intros Hc Hl. unfold readBounded. rewrite Hc. cbn [mbind option_bind].
  rewrite int64_wrap_small by (unfold in_int64; rewrite andb_true_iff, Z.leb_le, Z.ltb_lt; lia).
  rewrite take_ge by lia. by rewrite (proj2 (Z.ltb_ge _ _)) by lia.
Qed.

Lemma readBounded_prefix d name data limit :
  readBounded d name limit = Some data -> exists full, content d name = Some full /\ (length data <= length full)%nat.
Proof.
  unfold readBounded. destruct (content d name) as [full|]; [|done]. cbn [mbind option_bind].
  case_match; [done|]. intros H'. assert (take (Z.to_nat (int64_wrap (limit + 1))) full = data) as <- by congruence.
  exists full. split; [done|]. rewrite length_take. lia.
Qed.

(** The directory a snapshot of [files] is mounted as. *)
Definition holds_snapshot (d : snapshotDir) (files : list File) (manifest : list Z) : Prop :=
  content d ManifestKey = Some manifest /\
  (forall i f, files !! i = Some f -> content d (SnapshotFileKey (Z.of_nat i)) = Some (Data f)) /\
  exists names, listing d = Some names /\
    Permutation (own_keys names) (ManifestKey :: (SnapshotFileKey <$> seqZ 0 (Z.of_nat (length files)))).

Lemma onlyKeys_holds d files m :
  Z.of_nat (length files) <= MaxFiles -> holds_snapshot d files m ->
  onlyKeys d (Z.of_nat (length files)) = Ok tt.
Proof.
  intros Hl (_ & _ & names & Hn & Hp). unfold onlyKeys. rewrite Hn, count_keys_spec.
  - cbn [rbind]. rewrite Hp. cbn [length]. rewrite length_fmap, length_seqZ, Nat2Z.id.
    by rewrite (proj2 (Z.eqb_eq _ _)) by lia.
  - rewrite Hp. constructor; [by left|]. rewrite Forall_fmap, Forall_forall. intros i Hi%elem_of_seqZ. right.
    apply isFileKey_SnapshotFileKey; lia.
Qed.

(** * Properties *)

(** A set of files has a manifest exactly when the rules admit it: between 1
    and 1000 files, every path relative, valid UTF-8 and made of elements that
    are not empty, [.], [..] or over 255 bytes, no path twice, and no path a
    directory of another -- which the code finds by comparing each sorted path
    only with the ones that directly follow it. *)
Theorem manifest_admits (files : list File) :
  (exists m, Manifest files = Ok m) <-> admissible files.
Proof.
  split; [intros [m Hm]; by apply Manifest_spec in Hm as [? _]|].
  intros H. exists (sort_by Path files ≫= file_line). by apply Manifest_spec.
Qed.

(** The content digest binds the files and nothing else: the same files in
    any order, and a report that lists their paths, sizes and sums, give the
    same digest, and two sets with one digest hold the same files with the same
    bytes, unless two manifests or two files of one path collide under
    SHA-256. *)
Theorem content_digest_binds (files files' : list File) (d : string) :
  Forall sized files -> Forall sized files' -> Digest files = Ok d ->
  (Permutation files files' -> Digest files' = Ok d) /\
  DigestOfEntries (entry_of <$> files) = Ok d /\
  (Digest files' = Ok d -> same_content files files').
Proof.
  intros Hs Hs' H. unfold Digest in *. destruct (Manifest files) as [m|] eqn:Em; [|done]. cbn [rbind] in H.
  assert (d = DigestOf m) as -> by congruence. split; [|split].
  - intros Hp. rewrite (Manifest_perm _ _ Hp m Em). reflexivity.
  - apply Manifest_spec in Em as [Ha ->]. unfold DigestOfEntries.
    destruct files as [|f fs]; [destruct Ha as [[Hl _] _]; simpl in Hl; lia|]. set (files := f :: fs) in *.
    change (entry_of <$> files) with (entry_of f :: (entry_of <$> fs)) at 1. cbv iota.
    rewrite length_fmap, sort_by_fmap, <- list_fmap_compose, entry_lines_files.
    change (EntryPath ∘ entry_of) with Path. destruct Ha as ([_ Hl] & Hv & Hn & Hc).
    rewrite (proj2 (Z.leb_le _ _)) by done.
    rewrite (proj2 (checkSortedPaths_spec _ (sort_by_sorted Path files))); [done|].
    pose proof (sort_by_perm Path files) as Hp. split; [rewrite Forall_fmap; by rewrite <- Hp|].
    split; [by rewrite <- Hp|]. intros p q. rewrite <- Hp. apply Hc.
  - destruct (Manifest files') as [m'|] eqn:Em'; [|done]. cbn [rbind]. intros H'.
    eapply digest_same_content; [done..|congruence].
Qed.

(** A snapshot is read back exactly. For every admitted set of files whose
    bytes and manifest fit in a ConfigMap, the directory that holds the
    manifest and, under the key of its line, each file -- and no other key but
    the kubelet's own -- gives the files of the set under the digest of the
    set. *)
Theorem snapshot_roundtrip (files sorted : list File) (m : list Z) (d : string) (dir : snapshotDir) :
  Canonical files = Ok (sorted, m, d) ->
  Z.of_nat (length m) + total_bytes sorted <= MaxSnapshotBytes ->
  holds_snapshot dir sorted m ->
  Materialize dir d = Ok sorted /\ Permutation files sorted.
Proof.
  intros Hc Ht Hd. unfold Canonical in Hc. destruct (Manifest files) as [m'|] eqn:Em; [|done].
  cbn [rbind] in Hc. assert (sort_by Path files = sorted /\ m' = m /\ DigestOf m' = d) as (<- & -> & <-)
    by (split_and!; congruence). clear Hc. split; [|apply sort_by_perm].
  pose proof (Manifest_perm _ _ (sort_by_perm Path files) m Em) as Ems.
  pose proof (proj1 (Manifest_spec _ _) Ems) as [Hadm _]. pose proof (total_bytes_nonneg (sort_by Path files)).
  assert (Forall sized (sort_by Path files)) as Hsz by (apply total_sized; lia).
  pose proof (parse_Manifest _ _ Hsz Ems) as Hp. rewrite (sort_by_perm_eq Path _ files) in Hp;
    [|apply Hadm|symmetry; apply sort_by_perm].
  pose proof Hd as (Hcm & Hcf & _). unfold Materialize, Files.
  rewrite (readBounded_exact _ _ _ _ Hcm) by (change MaxSnapshotBytes with 1048576 in *; lia).
  rewrite bool_decide_eq_true_2 by done. rewrite Hp, length_fmap, (onlyKeys_holds _ _ _ (proj2 (proj1 Hadm)) Hd).
  cbn [rbind]. rewrite read_files_complete; [|lia|lia|].
  - cbn [rbind]. by rewrite Ems, bool_decide_eq_true_2 by done.
  - intros i f Hf. rewrite Z.add_0_l. apply readBounded_exact; [by apply Hcf|].
    apply total_lookup in Hf.
    change MaxSnapshotBytes with 1048576 in *. lia.
Qed.

(** C21: Whatever a directory holds, the files a snapshot is materialized as are
    the bound content. When [Materialize] succeeds under the digest of an
    admitted set of files, it returns that set, in the order of its paths, or
    exhibits a SHA-256 collision; and what it read is at most one mebibyte,
    although the sum of the sizes is taken in 64 bits. *)
Theorem materialize_sound (files read : list File) (d : string) (dir : snapshotDir) :
  Forall sized files -> Digest files = Ok d ->
  (forall name data, content dir name = Some data -> Z.of_nat (length data) < 2 ^ 62) ->
  Materialize dir d = Ok read ->
  same_content read files /\ total_bytes read <= MaxSnapshotBytes /\
  StronglySorted str_le (Path <$> read).
Proof.
  intros Hs Hd Hc H. unfold Materialize in H.
  destruct (readBounded dir ManifestKey MaxSnapshotBytes) as [m|] eqn:Er; [|done].
  case_bool_decide as Edig; [|done]. destruct (parseManifest m) as [lines|] eqn:Ep; [|done].
  apply bind_ok_unit in H as [_ H]. apply Files_sound in H as (lines' & Ep' & Hr & Hm).
  assert (Z.of_nat (length m) <= MaxSnapshotBytes) as Hlm.
  { unfold readBounded in Er. destruct (content dir ManifestKey); [|done]. cbn [mbind option_bind] in Er.
    case_match eqn:El; [done|]. apply Z.ltb_ge in El. congruence. }
  apply read_files_sound in Hr as [Hlines Ht]; [| |lia].
  2: { intros i size data Hrd. apply readBounded_prefix in Hrd as (full & Hfull & Hle). apply Hc in Hfull. lia. }
  assert (Forall sized read) as Hsr by (apply total_sized; lia).
  split; [|split; [lia|]].
  - unfold Digest in Hd. destruct (Manifest files) as [m'|] eqn:Em; [|done]. cbn [rbind] in Hd.
    eapply digest_same_content; [done..|]. congruence.
  - pose proof (parse_Manifest _ _ Hsr Hm) as Hp. rewrite Hp in Ep'. injection Ep' as <-.
    apply (f_equal (fmap ml_path)) in Hlines. rewrite <- !list_fmap_compose in Hlines.
    change (ml_path ∘ line_of) with Path in Hlines. rewrite Hlines. apply sort_by_sorted.
Qed.

(** ** Witnesses *)

Definition sample_files : list File :=
  [ {| Path := "tables/orders.sql"; Data := [65; 10; 66] |}; {| Path := "a.sql"; Data := [] |} ].
Definition sample_sorted : list File := Eval vm_compute in sort_by Path sample_files.
Definition sample_manifest : list Z :=
  Eval vm_compute in match Manifest sample_files with Ok m => m | Err _ => [] end.
Definition sample_content_digest : string := Eval vm_compute in DigestOf sample_manifest.
Definition sample_dir : snapshotDir :=
  {| listing := Some ["..data"; "f0000"; "f0001"; "manifest"];
     content := fun name =>
       if bool_decide (name = "manifest") then Some sample_manifest
       else if bool_decide (name = "f0000") then Some []
       else if bool_decide (name = "f0001") then Some [65; 10; 66] else None |}.

Lemma sample_sized : Forall sized sample_files.
Proof. by repeat constructor. Qed.

Lemma content_digest_binds_witness :
  (Permutation sample_files sample_sorted -> Digest sample_sorted = Ok sample_content_digest) /\
  DigestOfEntries (entry_of <$> sample_files) = Ok sample_content_digest /\
  (Digest sample_sorted = Ok sample_content_digest -> same_content sample_files sample_sorted).
Proof.
  apply (content_digest_binds sample_files sample_sorted sample_content_digest).
  - exact sample_sized.
  - by repeat constructor.
  - vm_compute; reflexivity.
Defined.

Lemma sample_holds : holds_snapshot sample_dir sample_sorted sample_manifest.
Proof.
  split; [reflexivity|]. split.
  - intros [|[|i]] f Hf; [injection Hf as <-; reflexivity|injection Hf as <-; reflexivity|].
    by destruct i.
  - eexists. split; [reflexivity|]. vm_compute.
    apply (Permutation_app_comm ["f0000"; "f0001"] ["manifest"]).
Qed.

Lemma snapshot_roundtrip_witness :
  Materialize sample_dir sample_content_digest = Ok sample_sorted /\ Permutation sample_files sample_sorted.
Proof.
  apply (snapshot_roundtrip sample_files sample_sorted sample_manifest sample_content_digest sample_dir).
  - vm_compute; reflexivity.
  - vm_compute; discriminate.
  - exact sample_holds.
Defined.

Lemma materialize_sound_witness :
  same_content sample_sorted sample_files /\ total_bytes sample_sorted <= MaxSnapshotBytes /\
  StronglySorted str_le (Path <$> sample_sorted).
Proof.
  apply (materialize_sound sample_files sample_sorted sample_content_digest sample_dir).
  - exact sample_sized.
  - vm_compute; reflexivity.
  - intros name data. unfold sample_dir. cbn [content].
    repeat (case_bool_decide; [intros [= <-]; vm_compute; reflexivity|]). done.
  - vm_compute; reflexivity.
Defined.

(** A path that is both a file and a directory is refused even with another
    path between the two. *)
Example conflict_sample :
  Manifest [ {| Path := "a"; Data := [] |}; {| Path := "a/b"; Data := [] |}; {| Path := "a-b"; Data := [] |} ]
  = Err ErrPathConflict.
Proof. vm_compute. reflexivity. Qed.
