(* ===== verification/SourceSnapshot.v ===== *)
(** * Snapshots of ConfigMap sources (package [internal/sourcesnapshot])

    The immutable ConfigMap a ConfigMap source is copied into: the selection
    of its files, the object [Build] writes, and the check [Verify] makes of a
    stored one. The theorem shows the two are one contract: what [Verify]
    accepts is exactly what [Build] writes. *)
From stdpp Require Import base list gmap strings.
From Stdlib Require Import ZArith Lia Ascii Sorted Permutation.
From S2P Require Import Prelude GoStrings Sha256 Json Fingerprint KubeMeta SourceContent SourceContentProofs.
Local Open Scope go_scope.
Local Open Scope Z_scope.

Definition NamePrefix : string := "ptah-src-".
Definition LabelSchema : string := "operator.ptah.run/schema".
Definition LabelMigration : string := "operator.ptah.run/migration".
Definition GroupVersion : string := "operator.ptah.run/v1alpha1".

Record ConfigMap : Type := {
  Meta : ObjectMeta;
  Immutable : option bool;
  ConfigData : gmap string string;
  BinaryData : gmap string (list Z);
}.

Inductive snap_error : Type :=
| ErrMissingKey
| ErrTooLarge
| ErrOwnerKind
| ErrOwnerIncomplete
| ErrSnapshotName
| ErrOwners
| ErrControlled
| ErrLabels
| ErrExtraMetadata
| ErrMutable
| ErrExtraKey
| ErrNameMismatch
| Content (e : sc_error).

Record Owner : Type := { Kind : string; OwnerName_ : string; OwnerUID_ : string }.

Definition label (o : Owner) : result snap_error string :=
  if bool_decide (Kind o = "PtahSchema") then Ok LabelSchema
  else if bool_decide (Kind o = "PtahMigration") then Ok LabelMigration
  else Err ErrOwnerKind.

Definition nul : string := String "000"%char EmptyString.
Definition Name (owner contentDigest : string) : string :=
  NamePrefix +:+ hex_encode (take 12 (sha256 (bytes (owner +:+ nul +:+ contentDigest)))).

(** [^ptah-src-[0-9a-f]{24}$] *)
Definition IsName (name : string) : bool :=
  match cut_prefix NamePrefix name with
  | Some rest => (len rest =? 24) && str_all is_lower_hex rest
  | None => false
  end.

(** [ConfigMapSourceItem]: a key and the path its file is given. *)
Record Item : Type := { ItemKey : string; ItemPath : string }.

Fixpoint Select (source : ConfigMap) (items : list Item) : result snap_error (list File) :=
  match items with
  | [] => Ok []
  | item :: rest =>
      data <-! match BinaryData source !! ItemKey item with
               | Some value => Ok value
               | None =>
                   match ConfigData source !! ItemKey item with
                   | Some value => Ok (bytes value)
                   | None => Err ErrMissingKey
                   end
               end;
      files <-! Select source rest;
      Ok ({| Path := ItemPath item; Data := data |} :: files)
  end.

(** The loop that fills [BinaryData], from an index on. *)
Fixpoint put_files (index : Z) (files : list File) (data : gmap string (list Z)) : gmap string (list Z) :=
  match files with
  | [] => data
  | file :: rest => put_files (index + 1) rest (<[SnapshotFileKey index := Data file]> data)
  end.

Definition owner_reference (o : Owner) : OwnerReference :=
  {| OwnerAPIVersion := GroupVersion; OwnerKind := Kind o; OwnerName := OwnerName_ o; OwnerUID := OwnerUID_ o;
     Controller := Some true; BlockOwnerDeletion := Some true |}.

Definition Build (namespace : string) (owner : Owner) (files : list File) : result snap_error (ConfigMap * string) :=
  label <-! label owner;
  guard (negb (empty (OwnerName_ owner) || empty (OwnerUID_ owner) || empty namespace)) else ErrOwnerIncomplete;
  match Canonical files with
  | Err e => Err (Content e)
  | Ok (sorted, manifest, digest) =>
      let total := foldl (fun n f => n + Z.of_nat (length (Data f))) (Z.of_nat (length manifest)) sorted in
      guard (negb (MaxSnapshotBytes <? total)) else ErrTooLarge;
      Ok ({| Meta := new_meta namespace (Name (OwnerUID_ owner) digest) {[ label := OwnerName_ owner ]} [owner_reference owner];
             Immutable := Some true; ConfigData := ∅;
             BinaryData := put_files 0 sorted {[ ManifestKey := manifest ]} |}, digest)
  end.

Definition Verify (configMap : ConfigMap) : result snap_error (Owner * string) :=
  let meta := Meta configMap in
  guard (IsName (MetaName meta)) else ErrSnapshotName;
  match OwnerReferences meta with
  | [reference] =>
      let owner := {| Kind := OwnerKind reference; OwnerName_ := OwnerName reference; OwnerUID_ := OwnerUID reference |} in
      label <-! label owner;
      guard (bool_decide (OwnerAPIVersion reference = GroupVersion) && negb (empty (OwnerName_ owner)) &&
             negb (empty (OwnerUID_ owner)) && bool_decide (Controller reference = Some true) &&
             bool_decide (BlockOwnerDeletion reference = Some true)) else ErrControlled;
      guard (bool_decide (size (Labels meta) = 1%nat) &&
             bool_decide (str_or_empty (Labels meta !! label) = OwnerName_ owner)) else ErrLabels;
      guard (bool_decide (size (Annotations meta) = 0%nat) && bool_decide (Finalizers meta = []) &&
             empty (GenerateName meta)) else ErrExtraMetadata;
      guard (bool_decide (Immutable configMap = Some true) && bool_decide (size (ConfigData configMap) = 0%nat)) else ErrMutable;
      let manifest := default [] (BinaryData configMap !! ManifestKey) in
      match Files manifest (fun index _ => BinaryData configMap !! SnapshotFileKey index) with
      | Err e => Err (Content e)
      | Ok files =>
          guard (bool_decide (size (BinaryData configMap) = (length files + 1)%nat)) else ErrExtraKey;
          let digest := DigestOf manifest in
          guard (bool_decide (MetaName meta = Name (OwnerUID_ owner) digest)) else ErrNameMismatch;
          Ok (owner, digest)
      end
  | _ => Err ErrOwners
  end.

Definition first_owner_uid (configMap : ConfigMap) : string :=
  match OwnerReferences (Meta configMap) with reference :: _ => OwnerUID reference | [] => EmptyString end.

(** [built] is what [Build] returned, so it has an owner. *)
Definition Same (stored built : ConfigMap) : bool :=
  is_ok (Verify stored) && bool_decide (MetaName (Meta stored) = MetaName (Meta built)) &&
  bool_decide (first_owner_uid stored = first_owner_uid built) &&
  bool_decide (BinaryData stored = BinaryData built).

(** ** Keys and bytes *)

#[local] Opaque sha256 hex_encode.

Lemma SnapshotFileKey_inj i j :
  0 <= i < MaxFiles -> 0 <= j < MaxFiles -> SnapshotFileKey i = SnapshotFileKey j -> i = j.
Proof.
  intros Hi%key_index_small Hj%key_index_small H. unfold key_index in Hi, Hj. rewrite H in Hi.
  destruct (SnapshotFileKey j) as [|a rest]; [done|]. bool_prop. congruence.
Qed.

Lemma SnapshotFileKey_manifest i : 0 <= i < MaxFiles -> SnapshotFileKey i <> ManifestKey.
Proof. intros Hi%key_index_small. unfold key_index in Hi. by bool_prop. Qed.

Lemma put_files_other index files data k :
  (forall i, index <= i < index + Z.of_nat (length files) -> SnapshotFileKey i <> k) ->
  put_files index files data !! k = data !! k.
Proof.
  revert index data. induction files as [|f files IH]; intros index data Hk; [done|]. cbn [put_files length] in *.
  rewrite IH by (intros i Hi; apply Hk; lia). apply lookup_insert_ne, Hk. lia.
Qed.

Lemma put_files_lookup index files data i f :
  0 <= index -> index + Z.of_nat (length files) <= MaxFiles -> files !! i = Some f ->
  put_files index files data !! SnapshotFileKey (index + Z.of_nat i) = Some (Data f).
Proof.
  revert index data i. induction files as [|g files IH]; intros index data i H0 Hl Hf; [done|].
  cbn [put_files length] in *. destruct i as [|i]; simpl in Hf.
  - injection Hf as ->. rewrite Z.add_0_r, put_files_other; [by rewrite lookup_insert_eq|].
    intros j Hj ?%SnapshotFileKey_inj; lia.
  - replace (index + Z.of_nat (S i)) with (index + 1 + Z.of_nat i) by lia. apply IH; [lia|lia|done].
Qed.

Lemma put_files_size index files data :
  0 <= index -> index + Z.of_nat (length files) <= MaxFiles ->
  (forall i, index <= i < index + Z.of_nat (length files) -> data !! SnapshotFileKey i = None) ->
  size (put_files index files data) = (length files + size data)%nat.
Proof.
  revert index data. induction files as [|f files IH]; intros index data H0 Hl Hd; [done|]. cbn [put_files length] in *.
  rewrite IH; [rewrite map_size_insert_None by (apply Hd; lia); lia|lia|lia|].
  intros i Hi. rewrite lookup_insert_ne; [apply Hd; lia|]. intros ?%SnapshotFileKey_inj; lia.
Qed.

(** The keys of a snapshot, and what is stored under them, are all of it. *)
Lemma put_files_exact files m (data : gmap string (list Z)) :
  Z.of_nat (length files) <= MaxFiles ->
  data !! ManifestKey = Some m -> (forall i f, files !! i = Some f -> data !! SnapshotFileKey (Z.of_nat i) = Some (Data f)) ->
  size data = (length files + 1)%nat -> data = put_files 0 files {[ ManifestKey := m ]}.
Proof.
  intros Hl Hm Hf Hs. symmetry. apply map_subseteq_size_eq.
  - apply map_subseteq_spec. intros k x Hk.
    destruct (decide (Exists (fun i => SnapshotFileKey i = k) (seqZ 0 (Z.of_nat (length files))))) as [He|Hne].
    + apply Exists_exists in He as (i & Hi%elem_of_seqZ & <-).
      destruct (lookup_lt_is_Some_2 files (Z.to_nat i)) as [f Hi']; [lia|]. pose proof (Hf _ _ Hi') as Hd.
      pose proof (put_files_lookup 0 files {[ManifestKey := m]} _ _ ltac:(lia) ltac:(lia) Hi') as Hp.
      replace (0 + Z.of_nat (Z.to_nat i)) with i in Hp by lia. rewrite Z2Nat.id in Hd by lia. congruence.
    + rewrite put_files_other in Hk.
      * apply lookup_singleton_Some in Hk as [<- <-]. exact Hm.
      * intros i Hi Hk'. apply Hne, Exists_exists. exists i. split; [apply elem_of_seqZ; lia|done].
  - rewrite Hs, put_files_size; [rewrite map_size_singleton; lia|lia|lia|].
    intros i Hi. apply lookup_singleton_ne. intros Hk. symmetry in Hk. revert Hk. apply SnapshotFileKey_manifest. lia.
Qed.

Lemma total_foldl files n : foldl (fun n f => n + Z.of_nat (length (Data f))) n files = n + total_bytes files.
Proof. revert n. induction files as [|f files IH]; intros n; simpl; [lia|]. rewrite IH. cbn [total_bytes foldr]. fold (total_bytes files). lia. Qed.

Lemma Name_shape owner digest : IsName (Name owner digest) = true.
Proof.
  unfold IsName, Name. rewrite cut_prefix_app.
  assert (Forall is_byte (take 12 (sha256 (bytes (owner +:+ nul +:+ digest))))) as Hb by apply Forall_take, sha256_range.
  rewrite hex_encode_lower, andb_true_r by done. unfold len. rewrite hex_encode_length, length_take, sha256_length. done.
Qed.

(** What is read for the files of a manifest is what is stored. *)
Lemma read_files_reads read lines : forall index total files i f,
  read_files read index total lines = Ok files -> files !! i = Some f ->
  exists size, read (index + Z.of_nat i) size = Some (Data f).
Proof.
  induction lines as [|line lines IH]; intros index total files i f H Hi; cbn [read_files] in H; [by simplify_eq|].
  destruct (_ <? _); [done|]. destruct (read index (ml_size line)) as [data|] eqn:Er; [|done]. destruct (_ && _); [|done].
  destruct (read_files _ _ _ lines) as [fs|] eqn:E; cbn [rbind] in H; [|done]. injection H as <-.
  destruct i as [|i]; simpl in Hi.
  - injection Hi as <-. exists (ml_size line). by rewrite Z.add_0_r.
  - destruct (IH _ _ _ _ _ E Hi) as [size Hs]. exists size. rewrite <- Hs. f_equal. lia.
Qed.

Lemma read_files_start read line lines index total files :
  (forall i size data, read i size = Some data -> Z.of_nat (length data) < 2 ^ 62) -> 0 <= total < 2 ^ 62 ->
  read_files read index total (line :: lines) = Ok files -> total <= MaxSnapshotBytes.
Proof.
  intros Hread Ht H. cbn [read_files] in H. destruct (_ <? _) eqn:El; [done|].
  destruct (read index (ml_size line)) as [data|] eqn:Er; [|done]. destruct (_ && _) eqn:Ed; [|done]. bool_prop.
  pose proof (Hread _ _ _ Er). rewrite int64_wrap_small in El; [lia|].
  unfold in_int64. apply andb_true_iff. rewrite Z.leb_le, Z.ltb_lt. lia.
Qed.

(** ** [Build] and [Verify] *)

(** Two ConfigMaps a writer cannot tell apart: everything but what the API
    server assigns. *)
Definition same_object (a b : ConfigMap) : Prop :=
  MetaNamespace (Meta a) = MetaNamespace (Meta b) /\ MetaName (Meta a) = MetaName (Meta b) /\
  GenerateName (Meta a) = GenerateName (Meta b) /\ Labels (Meta a) = Labels (Meta b) /\
  Annotations (Meta a) = Annotations (Meta b) /\ OwnerReferences (Meta a) = OwnerReferences (Meta b) /\
  Finalizers (Meta a) = Finalizers (Meta b) /\ Immutable a = Immutable b /\ ConfigData a = ConfigData b /\
  BinaryData a = BinaryData b.

(** What the files of a stored snapshot are: an admitted set in the order of
    its manifest, all of what is stored, within the limit. *)
Definition stores (data : gmap string (list Z)) (files : list File) (m : list Z) : Prop :=
  Canonical files = Ok (files, m, DigestOf m) /\ Z.of_nat (length m) + total_bytes files <= MaxSnapshotBytes /\
  data = put_files 0 files {[ ManifestKey := m ]}.

Lemma Canonical_sorted files sorted m d :
  Canonical files = Ok (sorted, m, d) -> Canonical sorted = Ok (sorted, m, d) /\ d = DigestOf m /\ admissible sorted.
Proof.
  unfold Canonical. destruct (Manifest files) as [m'|] eqn:Em; [|done]. cbn [rbind].
  intros H. assert (sorted = sort_by Path files /\ m = m' /\ d = DigestOf m') as (-> & -> & ->) by (split_and!; congruence).
  clear H. pose proof (Manifest_perm _ _ (sort_by_perm Path files) m' Em) as Ems. rewrite Ems.
  apply Manifest_spec in Ems as [Ha _]. split_and!; [|done|done]. cbn [rbind]. do 3 f_equal.
  apply sort_by_id, sort_by_sorted.
Qed.

Section Stored.
Context (data : gmap string (list Z)).
Let stored (index size : Z) : option (list Z) := data !! SnapshotFileKey index.

Lemma Files_stores files m :
  stores data files m -> data !! ManifestKey = Some m /\ Files m stored = Ok files /\ size data = (length files + 1)%nat.
Proof.
  intros (Hc & Ht & ->). destruct (Canonical_sorted _ _ _ _ Hc) as (_ & _ & Ha). destruct Ha as [Hl Ha].
  unfold Canonical in Hc. destruct (Manifest files) as [m'|] eqn:Em; [|done]. cbn [rbind] in Hc.
  assert (sort_by Path files = files /\ m' = m) as [Hs ->] by (split; congruence). clear Hc.
  pose proof (total_bytes_nonneg files). assert (Forall sized files) as Hsz by (apply total_sized; lia). split_and!.
  - rewrite put_files_other; [apply lookup_singleton_eq|]. intros i Hi. apply SnapshotFileKey_manifest. lia.
  - unfold Files. rewrite (parse_Manifest _ _ Hsz Em), Hs, read_files_complete; [|lia|lia|].
    + cbn [rbind]. by rewrite Em, bool_decide_eq_true_2 by done.
    + intros i f Hf. apply put_files_lookup; [lia|lia|done].
  - rewrite put_files_size; [rewrite map_size_singleton; lia|lia|lia|].
    intros i Hi. apply lookup_singleton_ne. intros Hk. symmetry in Hk. revert Hk. apply SnapshotFileKey_manifest. lia.
Qed.

Lemma Files_stored files :
  (forall k v, data !! k = Some v -> Z.of_nat (length v) < 2 ^ 62) ->
  Files (default [] (data !! ManifestKey)) stored = Ok files -> size data = (length files + 1)%nat ->
  stores data files (default [] (data !! ManifestKey)).
Proof.
  intros Hb H Hs. destruct (data !! ManifestKey) as [m|] eqn:Em; cbn [default from_option id] in *; [|done].
  apply Files_sound in H as (lines & Hp & Hr & Hm).
  assert (Z.of_nat (length m) <= MaxSnapshotBytes) as Hlm.
  { destruct lines as [|line lines]; [cbn [read_files] in Hr; injection Hr as <-; done|].
    eapply read_files_start; [|split; [apply Zle_0_nat|apply (Hb _ _ Em)]|exact Hr]. intros i size v Hv. by apply (Hb _ _ Hv). }
  pose proof Hr as Hr'. apply read_files_sound in Hr' as [Hlines Ht]; [|intros i size v Hv; by apply (Hb _ _ Hv)|lia].
  assert (Forall sized files) as Hsz by (apply total_sized; lia).
  pose proof (proj1 (Manifest_spec _ _) Hm) as [Ha _].
  assert (sort_by Path files = files) as Hsort.
  { apply sort_by_id. pose proof (parse_Manifest _ _ Hsz Hm) as Hp'. rewrite Hp' in Hp. injection Hp as <-.
    apply (f_equal (fmap ml_path)) in Hlines. rewrite <- !list_fmap_compose in Hlines.
    change (ml_path ∘ line_of) with Path in Hlines. rewrite Hlines. apply sort_by_sorted. }
  split_and!.
  - unfold Canonical. by rewrite Hm, Hsort.
  - lia.
  - apply put_files_exact; [apply Ha|done| |done]. intros i f Hf. destruct (read_files_reads _ _ _ _ _ _ _ Hr Hf) as [? Hd]. exact Hd.
Qed.
End Stored.

Lemma Build_spec namespace owner files built d :
  Build namespace owner files = Ok (built, d) <->
  exists l sorted m, label owner = Ok l /\ OwnerName_ owner <> EmptyString /\ OwnerUID_ owner <> EmptyString /\
    namespace <> EmptyString /\ Canonical files = Ok (sorted, m, d) /\
    Z.of_nat (length m) + total_bytes sorted <= MaxSnapshotBytes /\
    built = {| Meta := new_meta namespace (Name (OwnerUID_ owner) d) {[ l := OwnerName_ owner ]} [owner_reference owner];
               Immutable := Some true; ConfigData := ∅; BinaryData := put_files 0 sorted {[ ManifestKey := m ]} |}.
Proof.
  unfold Build, empty. destruct (label owner) as [l|e]; cbn [rbind]; [|naive_solver]. rewrite guard_ok. flags.
  destruct (Canonical files) as [[[sorted m] digest]|e] eqn:E; [|naive_solver]. rewrite total_foldl, guard_ok. flags. split.
  - intros [[[Hn Hu] Hns] [Ht H]]. injection H as <- <-. eauto 15.
  - intros (? & ? & ? & [= <-] & ? & ? & ? & [= <- <- <-] & ? & ->). done.
Qed.

Lemma Verify_spec (cm : ConfigMap) owner d :
  (forall k v, BinaryData cm !! k = Some v -> Z.of_nat (length v) < 2 ^ 62) ->
  Verify cm = Ok (owner, d) <->
  exists l files m, label owner = Ok l /\ OwnerName_ owner <> EmptyString /\ OwnerUID_ owner <> EmptyString /\
    OwnerReferences (Meta cm) = [owner_reference owner] /\ Labels (Meta cm) = {[ l := OwnerName_ owner ]} /\
    Annotations (Meta cm) = ∅ /\ Finalizers (Meta cm) = [] /\ GenerateName (Meta cm) = EmptyString /\
    Immutable cm = Some true /\ ConfigData cm = ∅ /\ stores (BinaryData cm) files m /\ d = DigestOf m /\
    MetaName (Meta cm) = Name (OwnerUID_ owner) d.
Proof.
  intros Hb. unfold Verify, empty. split.
  - rewrite guard_ok. intros [_ H]. destruct (OwnerReferences (Meta cm)) as [|r [|]]; [done| |done].
    set (o := {| Kind := OwnerKind r; OwnerName_ := OwnerName r; OwnerUID_ := OwnerUID r |}) in *.
    destruct (label o) as [l|] eqn:El; [|done]. cbn [rbind] in H. rewrite !guard_ok in H. revert H. flags.
    intros (((((Hav & Hn) & Hu) & Hc) & Hbo) & (Hls & Hl) & ((Ha & Hf) & Hg) & (Him & Hcd) & H). bool_prop.
    destruct (Files _ _) as [files|] eqn:Ef; [|done]. rewrite !guard_ok in H. revert H. flags. intros (Hs & Hname & H).
    injection H as <- <-. exists l, files, (default [] (BinaryData cm !! ManifestKey)).
    split_and!; try done.
    + destruct r; cbn in *. by subst.
    + apply singleton_of_size; [done|]. destruct (Labels (Meta cm) !! l) as [v|]; cbn in Hl; [by rewrite Hl|by destruct Hn].
    + by apply map_size_empty_inv.
    + by apply map_size_empty_inv.
    + by apply Files_stored.
  - intros (l & files & m & El & Hn & Hu & Hor & Hl & Ha & Hf & Hg & Him & Hcd & Hst & -> & Hname).
    rewrite Hname, Name_shape, Hor. cbn [owner_reference OwnerKind OwnerName OwnerUID].
    destruct owner as [kind name uid]. cbn [Kind OwnerName_ OwnerUID_] in *. rewrite El. cbn [rbind].
    apply Files_stores in Hst as (Hm & Hfs & Hsz). rewrite Hm. cbn [default from_option id]. rewrite Hfs, Hsz.
    rewrite Hl, Ha, Hf, Hg, Him, Hcd, map_size_singleton, !map_size_empty, lookup_singleton_eq.
    cbn [str_or_empty default from_option id]. rewrite (bool_decide_eq_false_2 (name = EmptyString)), (bool_decide_eq_false_2 (uid = EmptyString)) by done.
    by rewrite !bool_decide_eq_true_2 by done.
Qed.

(** C32: Writing a snapshot and checking one are the same contract. Whatever a
    stored ConfigMap holds, [Verify] accepts it, for an owner and a content
    digest, exactly when [Build] writes it for that owner from some files with
    that digest, up to what the API server assigns; so [Verify] accepts what
    [Build] wrote, and what it accepts carries nothing else. *)
Theorem snapshot_contract (cm : ConfigMap) (owner : Owner) (digest : string) :
  MetaNamespace (Meta cm) <> EmptyString ->
  (forall k v, BinaryData cm !! k = Some v -> Z.of_nat (length v) < 2 ^ 62) ->
  Verify cm = Ok (owner, digest) <->
  exists files built, Build (MetaNamespace (Meta cm)) owner files = Ok (built, digest) /\ same_object cm built.
Proof.
  intros Hns Hb. rewrite Verify_spec by done. setoid_rewrite Build_spec. split.
  - intros (l & files & m & El & Hn & Hu & Hor & Hl & Ha & Hf & Hg & Him & Hcd & (Hc & Ht & Hd) & -> & Hname).
    exists files. eexists. split; [exists l, files, m; split_and!; done|]. split_and!; done.
  - intros (files & built & (l & sorted & m & El & Hn & Hu & _ & Hc & Ht & ->) & Hs).
    destruct Hs as (_ & Hname & Hg & Hl & Ha & Hor & Hf & Him & Hcd & Hd). cbn in *.
    destruct (Canonical_sorted _ _ _ _ Hc) as (Hc' & -> & _). exists l, sorted, m. split_and!; try done.
Qed.

(** [Same] finds the object [Build] wrote: the stored one holds the same files
    under the same digest, for the same owner. *)
Lemma Same_spec namespace owner files built d (stored : ConfigMap) :
  Build namespace owner files = Ok (built, d) ->
  (forall k v, BinaryData stored !! k = Some v -> Z.of_nat (length v) < 2 ^ 62) ->
  Same stored built = true <->
  exists o, Verify stored = Ok (o, d) /\ OwnerUID_ o = OwnerUID_ owner /\ BinaryData stored = BinaryData built.
Proof.
  rewrite Build_spec. intros (l & sorted & m & _ & _ & _ & _ & Hc & Ht & ->) Hb.
  destruct (Canonical_sorted _ _ _ _ Hc) as (Hc' & Hd & _).
  unfold Same. rewrite !andb_true_iff, !bool_decide_eq_true. split.
  - intros (((Hv & _) & Hu) & Hbd). destruct (Verify stored) as [[o d']|] eqn:Ev; [|done]. exists o.
    apply Verify_spec in Ev as (l' & files' & m' & _ & _ & _ & Hor & _ & _ & _ & _ & _ & _ & Hst & -> & _); [|done].
    pose proof (Files_stores _ _ _ Hst) as [Hm' _]. assert (stores (BinaryData stored) sorted m) as Hst' by (split_and!; [congruence|done|done]).
    pose proof (Files_stores _ _ _ Hst') as [Hm _]. assert (m' = m) as -> by congruence. split_and!; [congruence| |done].
    unfold first_owner_uid in Hu. rewrite Hor in Hu. exact Hu.
  - intros (o & Hv & Hu & Hbd). rewrite Hv. pose proof Hv as Hv'.
    apply Verify_spec in Hv' as (l' & files' & m' & _ & _ & _ & Hor & _ & _ & _ & _ & _ & _ & _ & _ & Hn); [|done].
    split_and!; try done; [|]; cbn [Meta new_meta MetaName].
    + by rewrite Hn, Hu.
    + unfold first_owner_uid. by rewrite Hor.
Qed.

(** ** Witness *)

Definition sample_owner : Owner := {| Kind := "PtahSchema"; OwnerName_ := "storefront"; OwnerUID_ := "schema-uid" |}.
Definition sample_snapshot : ConfigMap := Eval vm_compute in
  match Build "application" sample_owner sample_files with
  | Ok (built, _) => built
  | Err _ => {| Meta := new_meta EmptyString EmptyString ∅ []; Immutable := None; ConfigData := ∅; BinaryData := ∅ |}
  end.

Lemma snapshot_contract_witness :
  Verify sample_snapshot = Ok (sample_owner, sample_content_digest) <->
  exists files built, Build "application" sample_owner files = Ok (built, sample_content_digest) /\ same_object sample_snapshot built.
Proof.
  apply (snapshot_contract sample_snapshot sample_owner sample_content_digest); [done|].
  apply (proj1 (map_Forall_lookup (fun _ v => Z.of_nat (length v) < 2 ^ 62) _)), (proj1 (bool_decide_eq_true _)). vm_compute. reflexivity.
Defined.

(** The other side is not empty: the sample was built, and verifies. *)
Example sample_verifies :
  Verify sample_snapshot = Ok (sample_owner, sample_content_digest) /\
  Build "application" sample_owner sample_files = Ok (sample_snapshot, sample_content_digest).
Proof. split; vm_compute; reflexivity. Qed.
