(* ===== verification/SourceBinding.v ===== *)
(** * What a plan's source binds (package [internal/sourcebinding])

    A plan binds the content it was computed from: the digest of an OCI
    artifact, or a source binding that names a ConfigMap or a Git repository
    with the digest of the selected files. An operation reads that content
    through an access binding. This file models both, which access gives
    which content, and the part of a resource's status they are taken from.

    [net/url.Parse] is a parameter that returns the fields the code reads; the
    code relies on it to refuse a URL with a control character, such as the
    newline that separates the repository from the path in [GitRevision]. The
    reference grammar of [oras-go] is the parameter of [OciReference]. *)
From stdpp Require Import base list gmap strings.
From Stdlib Require Import ZArith Lia Ascii.
From S2P Require Import Prelude GoStrings Sha256 Json Fingerprint OciReference KubeMeta PlanStore.
From S2P Require Import SourceContent SourceContentProofs SourceSnapshot.
Local Open Scope go_scope.
Local Open Scope Z_scope.

(** ** API types *)

Definition SourceKindConfigMap : string := "ConfigMap".
Definition SourceKindGit : string := "Git".

(** [corev1.ConfigMapKeySelector]. *)
Record KeySelector : Type := { SelectorName : string; SelectorKey : string; SelectorOptional : option bool }.

Record GitRef : Type := { Branch : string; Tag : string; RefCommit : string }.
#[export] Instance GitRef_eq_dec : EqDecision GitRef.
Proof. solve_decision. Defined.

Record GitTransportSpec : Type := { GitCAFrom : option KeySelector; KnownHostsFrom : option KeySelector }.

(** [GitAuthSource] is the name of a Secret. *)
Record GitSourceBinding : Type := {
  GitURL : string;
  GitRef_ : GitRef;
  GitCommit : string;
  GitPath : string;
  GitContentDigest : string;
  GitAuthFrom : option string;
  GitTransport : GitTransportSpec;
}.

Record GitSourceSpec : Type := {
  SpecURL : string;
  SpecRef : GitRef;
  SpecPath : string;
  SpecAuthFrom : option string;
  SpecTransport : GitTransportSpec;
}.

Record GitSourceRevision : Type := {
  RevisionURL : string;
  RevisionRef : GitRef;
  RevisionPath : string;
  RevisionCommit : string;
  RevisionContentDigest : string;
}.

Record SourceSnapshotBinding : Type := {
  SnapshotName : string;
  SnapshotUID : string;
  SnapshotContentDigest : string;
  SchemaFile : string;
}.

Record ConfigMapSourceRevision : Type := { CMName : string; CMUID : string; CMResourceVersion : string }.

(** The Secret of [RegistryAuthSource] is only tested for presence. *)
Record SourceAccessBinding : Type := {
  ResolvedReference : string;
  AccessDigest : string;
  RegistryAuthFrom : option string;
  PlainHTTP : bool;
  CAFrom : option KeySelector;
  Snapshot : option SourceSnapshotBinding;
  Git : option GitSourceBinding;
}.

(** The fields of [SourceSpec] and [SchemaSourceStatus] read here. *)
Record SourceSpec : Type := { SpecConfigMap : option string; SpecGit : option GitSourceSpec }.

Record SchemaSourceStatus : Type := {
  StatusDigest : string;
  Verified : bool;
  StatusConfigMap : option ConfigMapSourceRevision;
  StatusSnapshot : option SourceSnapshotBinding;
  StatusGit : option GitSourceRevision;
  StatusSourcePolicy : option (string * string);
}.

(** ** Plan sources *)

Definition newline : string := String "010"%char EmptyString.

Definition GitRevision (repository path : string) : string :=
  "sha256:" +:+ hex_encode (sha256 (bytes (repository +:+ newline +:+ path))).

Definition GitPlanSource (repository path contentDigest : string) : PlanSourceBinding :=
  {| SourceKind := SourceKindGit; SourceRevision := GitRevision repository path;
     SourceContentDigest := contentDigest; SourcePolicy := None |}.

Definition ConfigMapPlanSource (revision : ConfigMapSourceRevision) (snapshot : SourceSnapshotBinding) : PlanSourceBinding :=
  {| SourceKind := SourceKindConfigMap; SourceRevision := CMUID revision;
     SourceContentDigest := SnapshotContentDigest snapshot; SourcePolicy := None |}.

Definition withPolicy (source : PlanSourceBinding) (policy : option (string * string)) : PlanSourceBinding :=
  match policy with
  | None => source
  | Some p => {| SourceKind := SourceKind source; SourceRevision := SourceRevision source;
                 SourceContentDigest := SourceContentDigest source; SourcePolicy := Some p |}
  end.

Definition SchemaPlanSource (status : SchemaSourceStatus) : string * option PlanSourceBinding :=
  match StatusGit status with
  | Some git =>
      (EmptyString, Some (withPolicy (GitPlanSource (RevisionURL git) (RevisionPath git) (RevisionContentDigest git))
                                     (StatusSourcePolicy status)))
  | None =>
      match StatusConfigMap status, StatusSnapshot status with
      | Some revision, Some snapshot =>
          (EmptyString, Some (withPolicy (ConfigMapPlanSource revision snapshot) (StatusSourcePolicy status)))
      | _, _ => (StatusDigest status, None)
      end
  end.

Definition MigrationPlanSource (artifact : option SourceAccessBinding) (revision : option ConfigMapSourceRevision)
    (policy : option (string * string)) : string * option PlanSourceBinding :=
  match artifact with
  | None => (EmptyString, None)
  | Some artifact =>
      match Git artifact with
      | Some git => (EmptyString, Some (withPolicy (GitPlanSource (GitURL git) (GitPath git) (GitContentDigest git)) policy))
      | None =>
          match Snapshot artifact with
          | Some snapshot =>
              match revision with
              | None => (EmptyString, None)
              | Some revision => (EmptyString, Some (withPolicy (ConfigMapPlanSource revision snapshot) policy))
              end
          | None => (AccessDigest artifact, None)
          end
      end
  end.

(** [Fingerprint] is [PlanStore.source_fingerprint]. *)
Definition ContractVersion (source : option PlanSourceBinding) : Z := PlanContractVersionFor (source_fingerprint source).

Definition WrittenContract (version : Z) (source : option PlanSourceBinding) : bool :=
  is_ok (ValidatePlanContractVersion version) && (version =? ContractVersion source).

Definition SamePolicy (a b : option (string * string)) : bool :=
  match a, b with
  | Some a, Some b => bool_decide (a = b)
  | None, None => true
  | _, _ => false
  end.

Definition Equal (a b : option PlanSourceBinding) : bool :=
  match a, b with
  | Some a, Some b =>
      bool_decide (SourceKind a = SourceKind b) && bool_decide (SourceRevision a = SourceRevision b) &&
      bool_decide (SourceContentDigest a = SourceContentDigest b) && SamePolicy (SourcePolicy a) (SourcePolicy b)
  | None, None => true
  | _, _ => false
  end.

Definition SamePlanSource (artifactA : string) (sourceA : option PlanSourceBinding)
    (artifactB : string) (sourceB : option PlanSourceBinding) : bool :=
  bool_decide (artifactA = artifactB) && Equal sourceA sourceB.

(** ** Access bindings *)

(** What [url.Parse] gives: [URLUser] is the user and the password, if any. *)
Record URL : Type := {
  URLScheme : string;
  URLHost : string;
  RawQuery : string;
  Fragment : string;
  URLUser : option (string * option string);
}.

Inductive access_error : Type :=
| GitWithRegistry
| GitRepository
| GitCredential
| GitOneRef
| GitFullCommit
| GitDigest
| GitCleanPath
| GitAuthName
| GitKnownHosts
| GitTrustScheme
| GitTrustKey
| NotPinnedReference
| SnapshotWithRegistry
| SnapshotIncomplete
| SnapshotFile.

(** [^[0-9a-f]{40}$] *)
Definition is_git_commit (s : string) : bool := (len s =? 40) && str_all is_lower_hex s.

(** [ValidatePath] of [sourcecontent]. *)
Definition ValidatePath (path : string) : bool := validPath path.

Definition present {A} (o : option A) : bool := bool_decide (is_Some o).

(** Nothing that belongs to a registry. *)
Definition names_registry (b : SourceAccessBinding) : bool :=
  negb (empty (ResolvedReference b)) || negb (empty (AccessDigest b)) || present (RegistryAuthFrom b) ||
  PlainHTTP b || present (CAFrom b).

Definition bad_selector (s : option KeySelector) : bool :=
  match s with
  | None => false
  | Some s => empty (SelectorName s) || empty (SelectorKey s) || bool_decide (SelectorOptional s = Some true)
  end.

Definition ref_count (r : GitRef) : nat :=
  length (List.filter (fun set => set) [negb (empty (Branch r)); negb (empty (Tag r)); negb (empty (RefCommit r))]).

Section Access.
Context (ParseReference : string -> option parsed_reference)
  (ReferenceOrDefault : parsed_reference -> string)
  (url_Parse : string -> option URL).

Definition ValidateGit (git : GitSourceBinding) : result access_error unit :=
  match url_Parse (GitURL git) with
  | None => Err GitRepository
  | Some parsed =>
      let https := bool_decide (URLScheme parsed = "https") in
      let ssh := bool_decide (URLScheme parsed = "ssh") in
      guard (negb ((negb https && negb ssh) || empty (URLHost parsed) || negb (empty (RawQuery parsed)) ||
                   negb (empty (Fragment parsed)))) else GitRepository;
      guard (negb (https && present (URLUser parsed))) else GitCredential;
      guard (negb match URLUser parsed with Some (_, Some _) => true | _ => false end) else GitCredential;
      guard (ref_count (GitRef_ git) =? 1)%nat else GitOneRef;
      guard (is_git_commit (GitCommit git) &&
             (empty (RefCommit (GitRef_ git)) || bool_decide (RefCommit (GitRef_ git) = GitCommit git))) else GitFullCommit;
      guard (is_sha256_digest (GitContentDigest git)) else GitDigest;
      guard (bool_decide (GitPath git = ".") || ValidatePath (GitPath git)) else GitCleanPath;
      guard (negb match GitAuthFrom git with Some name => empty (trim_space name) | None => false end) else GitAuthName;
      guard (negb (ssh && negb (present (KnownHostsFrom (GitTransport git))))) else GitKnownHosts;
      guard (negb ((negb ssh && present (KnownHostsFrom (GitTransport git))) ||
                   (ssh && present (GitCAFrom (GitTransport git))))) else GitTrustScheme;
      guard (negb (bad_selector (GitCAFrom (GitTransport git)) || bad_selector (KnownHostsFrom (GitTransport git)))) else GitTrustKey;
      Ok tt
  end.

Definition ValidateAccess (binding : SourceAccessBinding) : result access_error unit :=
  match Git binding with
  | Some git =>
      guard (negb (present (Snapshot binding) || names_registry binding)) else GitWithRegistry;
      ValidateGit git
  | None =>
      match Snapshot binding with
      | None =>
          guard (is_ok (ValidatePinned ParseReference ReferenceOrDefault (ResolvedReference binding) (AccessDigest binding)))
            else NotPinnedReference;
          Ok tt
      | Some snapshot =>
          guard (negb (names_registry binding)) else SnapshotWithRegistry;
          guard (IsName (SnapshotName snapshot) && negb (empty (SnapshotUID snapshot)) &&
                 is_sha256_digest (SnapshotContentDigest snapshot)) else SnapshotIncomplete;
          guard (empty (SchemaFile snapshot) || ValidatePath (SchemaFile snapshot)) else SnapshotFile;
          Ok tt
      end
  end.
End Access.

Definition AccessGives (binding : SourceAccessBinding) (artifactDigest : string) (source : option PlanSourceBinding) : bool :=
  match Git binding with
  | Some git =>
      match source with
      | None => false
      | Some s => empty artifactDigest && bool_decide (SourceKind s = SourceKindGit) &&
                  bool_decide (GitContentDigest git = SourceContentDigest s) &&
                  bool_decide (GitRevision (GitURL git) (GitPath git) = SourceRevision s)
      end
  | None =>
      match Snapshot binding with
      | Some snapshot =>
          match source with
          | None => false
          | Some s => empty artifactDigest && bool_decide (SnapshotContentDigest snapshot = SourceContentDigest s)
          end
      | None => negb (present source) && negb (empty artifactDigest) && bool_decide (AccessDigest binding = artifactDigest)
      end
  end.

(** An access binding with only one of its shapes set. *)
Definition only (snapshot : option SourceSnapshotBinding) (git : option GitSourceBinding) : SourceAccessBinding :=
  {| ResolvedReference := EmptyString; AccessDigest := EmptyString; RegistryAuthFrom := None; PlainHTTP := false;
     CAFrom := None; Snapshot := snapshot; Git := git |}.

Definition GitAccess (spec : GitSourceSpec) (revision : GitSourceRevision) : GitSourceBinding :=
  {| GitURL := RevisionURL revision; GitRef_ := RevisionRef revision; GitCommit := RevisionCommit revision;
     GitPath := RevisionPath revision; GitContentDigest := RevisionContentDigest revision;
     GitAuthFrom := SpecAuthFrom spec; GitTransport := SpecTransport spec |}.

Definition SchemaAccess (spec : SourceSpec) (status : SchemaSourceStatus) : option SourceAccessBinding :=
  match StatusGit status with
  | Some revision =>
      match SpecGit spec with
      | None => None
      | Some git => Some (only None (Some (GitAccess git revision)))
      end
  | None =>
      match StatusSnapshot status with
      | None => None
      | Some snapshot => Some (only (Some snapshot) None)
      end
  end.

Definition GitResolved (spec : option GitSourceSpec) (revision : option GitSourceRevision) : bool :=
  match spec, revision with
  | Some spec, Some revision =>
      bool_decide (RevisionURL revision = SpecURL spec) && bool_decide (RevisionRef revision = SpecRef spec) &&
      bool_decide (RevisionPath revision = SpecPath spec)
  | _, _ => false
  end.

Definition SchemaSourceReady (spec : SourceSpec) (status : SchemaSourceStatus) : bool :=
  match StatusGit status with
  | Some _ => GitResolved (SpecGit spec) (StatusGit status)
  | None =>
      match StatusSnapshot status with
      | Some _ =>
          match SpecConfigMap spec, StatusConfigMap status with
          | Some name, Some revision => bool_decide (CMName revision = name)
          | _, _ => false
          end
      | None => Verified status
      end
  end.

(** * Theorems *)

#[local] Opaque sha256 hex_encode.

(** A byte [net/url] refuses anywhere in a URL. *)
Definition control (a : ascii) : bool := (byte_of a <? 32) || (byte_of a =? 127).
Definition no_control (s : string) : bool := str_all (fun a => negb (control a)) s.

Lemma newline_join_inj r p r' p' :
  no_control r = true -> no_control r' = true -> r +:+ newline +:+ p = r' +:+ newline +:+ p' -> r = r' /\ p = p'.
Proof.
  unfold no_control. revert r'. induction r as [|a r IH]; intros [|a' r'] Hr Hr' H; cbn [str_all] in *.
  - split; [done|]. injection H. auto.
  - bool_prop. exfalso. injection H as <- _. done.
  - bool_prop. exfalso. injection H as -> _. done.
  - bool_prop. injection H as -> H. destruct (IH r') as [-> ->]; auto.
Qed.

Lemma GitRevision_digest r p : GitRevision r p = DigestBytes (bytes (r +:+ newline +:+ p)).
Proof. done. Qed.

Lemma GitRevision_inj r p r' p' :
  no_control r = true -> no_control r' = true -> GitRevision r p = GitRevision r' p' ->
  (r = r' /\ p = p') \/ collision (bytes (r +:+ newline +:+ p)) (bytes (r' +:+ newline +:+ p')).
Proof.
  intros Hr Hr' H. rewrite !GitRevision_digest in H. apply DigestBytes_inj in H as [H|H]; [left|by right].
  by apply newline_join_inj, bytes_inj.
Qed.

Lemma Equal_eq a b : Equal a b = true <-> a = b.
Proof.
  assert (forall p q, SamePolicy p q = true <-> p = q) as Hp.
  { intros [p|] [q|]; simpl; rewrite ?bool_decide_eq_true; naive_solver. }
  destruct a as [[]|], b as [[]|]; simpl; [|naive_solver..]. rewrite !andb_true_iff, !bool_decide_eq_true, Hp. naive_solver.
Qed.

(** The digest of the content an access binding delivers. *)
Definition delivers (b : SourceAccessBinding) : string :=
  match Git b, Snapshot b with
  | Some git, _ => GitContentDigest git
  | None, Some snapshot => SnapshotContentDigest snapshot
  | None, None => AccessDigest b
  end.

(** What a plan binds of its content: the artifact's digest or the files'. *)
Definition bound_content (artifactDigest : string) (source : option PlanSourceBinding) : string :=
  match source with Some s => SourceContentDigest s | None => artifactDigest end.

Section AccessBinds.
Context (ParseReference : string -> option parsed_reference)
  (ReferenceOrDefault : parsed_reference -> string)
  (url_Parse : string -> option URL).
Abbreviation valid b := (ValidateAccess ParseReference ReferenceOrDefault url_Parse b = Ok tt).

Lemma gives_delivers b artifact source : AccessGives b artifact source = true -> delivers b = bound_content artifact source.
Proof.
  unfold AccessGives, delivers, bound_content, present. destruct (Git b), (Snapshot b), source; intros H; bool_prop; try done.
  all: exfalso; by eauto.
Qed.

Lemma valid_digest b : valid b -> is_sha256_digest (delivers b) = true.
Proof.
  unfold ValidateAccess, delivers. destruct (Git b) as [g|].
  - unfold ValidateGit. destruct (url_Parse (GitURL g)); guards; [|by intros []]. tauto.
  - destruct (Snapshot b) as [s|]; guards.
    + intros (_ & H & _). by bool_prop.
    + intros [H _]. unfold is_ok, ValidatePinned in H. destruct (Parse _ _ _) as [pin|]; [|done]. cbn [rbind] in H.
      unfold validatePin in H. destruct (is_sha256_digest (AccessDigest b)); done.
Qed.
End AccessBinds.

(** An access binding delivers the content a plan binds, and nothing else.
    When an access binding in one of its valid shapes gives a plan's source,
    what it delivers has the SHA-256 digest the plan binds, so two such
    bindings deliver the same content; two Git bindings also name the same
    repository and path, or exhibit a collision of SHA-256; and a plan that
    binds an artifact is only given by a reference pinned to its digest. *)
Theorem access_binds_content (ParseReference : string -> option parsed_reference)
    (ReferenceOrDefault : parsed_reference -> string) (url_Parse : string -> option URL)
    (a b : SourceAccessBinding) (artifact : string) (source : option PlanSourceBinding) :
  (forall raw u, url_Parse raw = Some u -> no_control raw = true) ->
  ValidateAccess ParseReference ReferenceOrDefault url_Parse a = Ok tt ->
  ValidateAccess ParseReference ReferenceOrDefault url_Parse b = Ok tt ->
  AccessGives a artifact source = true -> AccessGives b artifact source = true ->
  delivers a = bound_content artifact source /\ delivers b = delivers a /\ is_sha256_digest (delivers a) = true /\
  (forall g g', Git a = Some g -> Git b = Some g' ->
     (GitURL g = GitURL g' /\ GitPath g = GitPath g') \/
     collision (bytes (GitURL g +:+ newline +:+ GitPath g)) (bytes (GitURL g' +:+ newline +:+ GitPath g'))) /\
  (source = None ->
     exists pin, Parse ParseReference ReferenceOrDefault (ResolvedReference a) = Ok pin /\ IsDigest pin = true /\ Selector pin = artifact).
Proof.
  intros Hctl Ha Hb Ga Gb. pose proof (gives_delivers _ _ _ Ga) as Da. pose proof (gives_delivers _ _ _ Gb) as Db.
  split_and!; [done|congruence|by eapply valid_digest| |].
  - intros g g' Eg Eg'. apply GitRevision_inj; cycle -1.
    { unfold AccessGives in Ga, Gb. rewrite Eg in Ga. rewrite Eg' in Gb. destruct source; bool_prop; congruence. }
    all: match goal with |- no_control (GitURL ?x) = true => destruct (url_Parse (GitURL x)) eqn:E; [by eapply Hctl|] end.
    + unfold ValidateAccess in Ha. rewrite Eg in Ha. unfold ValidateGit in Ha. rewrite E in Ha. by destruct (negb _).
    + unfold ValidateAccess in Hb. rewrite Eg' in Hb. unfold ValidateGit in Hb. rewrite E in Hb. by destruct (negb _).
  - intros ->. unfold AccessGives in Ga. unfold ValidateAccess in Ha.
    destruct (Git a); [done|]. destruct (Snapshot a); [done|]. apply guard_ok in Ha as [Ha _]. bool_prop.
    unfold is_ok, ValidatePinned in Ha. destruct (Parse _ _ _) as [pin|]; [|done]. cbn [rbind] in Ha. exists pin.
    destruct (validatePin _ _) as [[]|] eqn:E; [|done].
    apply (validatePin_spec ParseReference (fun h => h)) in E as (_ & Hd & Hs). split_and!; [done|done|congruence].
Qed.

(** What a resource resolved is what its plans bind and what its
    operations read. When a schema's source is ready, the access its
    operations use gives the source its plan is bound to; the access a
    migration recorded gives the source its plan is bound to, whenever it
    binds one; and [SamePlanSource] is equality, so a plan stays current
    exactly while the resource resolves to what it was computed from. *)
Theorem plan_source_readable :
  (forall spec status access, SchemaSourceReady spec status = true -> SchemaAccess spec status = Some access ->
     AccessGives access (SchemaPlanSource status).1 (SchemaPlanSource status).2 = true) /\
  (forall access revision policy, let plan := MigrationPlanSource (Some access) revision policy in
     plan <> (EmptyString, None) -> AccessGives access plan.1 plan.2 = true) /\
  (forall a s b t, SamePlanSource a s b t = true <-> (a, s) = (b, t)).
Proof.
  split_and!.
  - intros spec status access Hr Ha. unfold SchemaAccess, SchemaSourceReady, SchemaPlanSource in *.
    destruct (StatusGit status) as [git|].
    + destruct (SpecGit spec); [|done]. injection Ha as <-. unfold AccessGives. cbn [only Git GitAccess].
      destruct (StatusSourcePolicy status); cbn; by rewrite !bool_decide_eq_true_2 by done.
    + destruct (StatusSnapshot status) as [snapshot|]; [|done]. injection Ha as <-.
      destruct (SpecConfigMap spec), (StatusConfigMap status); try done. unfold AccessGives. cbn [only Git Snapshot].
      destruct (StatusSourcePolicy status); cbn; by rewrite !bool_decide_eq_true_2 by done.
  - intros access revision policy plan Hp. subst plan. unfold MigrationPlanSource, AccessGives in *.
    destruct (Git access) as [git|]; [destruct policy; cbn; by rewrite !bool_decide_eq_true_2 by done|].
    destruct (Snapshot access) as [snapshot|].
    + destruct revision; [|done]. destruct policy; cbn; by rewrite !bool_decide_eq_true_2 by done.
    + cbn in *. rewrite bool_decide_eq_true_2 by done. unfold empty. rewrite bool_decide_eq_false_2 by congruence. done.
  - intros a s b t. unfold SamePlanSource. rewrite andb_true_iff, bool_decide_eq_true, Equal_eq. naive_solver.
Qed.

(** ** Witness *)

Definition sample_commit : string := "3f1c2b0a9d8e7f6a5b4c3d2e1f0a9b8c7d6e5f4a".
Definition sample_git (path : string) : GitSourceBinding :=
  {| GitURL := "https://git.example.com/app.git"; GitRef_ := {| Branch := "main"; Tag := EmptyString; RefCommit := EmptyString |};
     GitCommit := sample_commit; GitPath := path; GitContentDigest := sample_content_digest; GitAuthFrom := Some "token";
     GitTransport := {| GitCAFrom := None; KnownHostsFrom := None |} |}.
(** Enough of [url.Parse] for the sample. *)
Definition sample_url (raw : string) : option URL :=
  if negb (no_control raw) then None else
  '(scheme, rest) ← cut ":"%char raw;
  rest ← cut_prefix "//" rest;
  '(host, _) ← cut "/"%char rest;
  Some {| URLScheme := scheme; URLHost := host; RawQuery := EmptyString; Fragment := EmptyString; URLUser := None |}.

Lemma access_binds_content_witness :
  let access := only None (Some (sample_git "db/schema.hcl")) in
  let source := Some (GitPlanSource "https://git.example.com/app.git" "db/schema.hcl" sample_content_digest) in
  delivers access = bound_content EmptyString source /\ delivers access = delivers access /\
  is_sha256_digest (delivers access) = true /\
  (forall g g', Git access = Some g -> Git access = Some g' ->
     (GitURL g = GitURL g' /\ GitPath g = GitPath g') \/
     collision (bytes (GitURL g +:+ newline +:+ GitPath g)) (bytes (GitURL g' +:+ newline +:+ GitPath g'))) /\
  (source = None ->
     exists pin, Parse sample_parser sample_default (ResolvedReference access) = Ok pin /\ IsDigest pin = true /\
                 Selector pin = EmptyString).
Proof.
  apply (access_binds_content sample_parser sample_default sample_url).
  - intros raw u. unfold sample_url. destruct (no_control raw); done.
  - vm_compute; reflexivity.
  - vm_compute; reflexivity.
  - vm_compute; reflexivity.
  - vm_compute; reflexivity.
Defined.
