(* ===== verification/SourcePolicy.v ===== *)
(** * Source and verification policies (packages [internal/sourcepolicy],
    [internal/policy])

    A policy is one key of an immutable ConfigMap. A plan binds the ConfigMap's
    identity and the digest of the key's bytes; [StillBinds] and
    [ConfigMapBinding] read what a resource names now. The API reader is a
    parameter: the event a client embeds its read of a ConfigMap in, with the
    client's own errors. The YAML decoder is [sigs.k8s.io/yaml], a parameter.
    [CheckGitHost] compares hosts with [strings.EqualFold], whose Unicode
    tables are not modelled, and is left out. *)
From stdpp Require Import base list gmap strings.
From Stdlib Require Import ZArith Lia Ascii.
From S2P Require Import Prelude GoStrings Sha256 Json Fingerprint KubeMeta SourceContent SourceSnapshot SourceBinding.
Local Open Scope go_scope.
Local Open Scope Z_scope.

Definition MaxDocumentBytes : Z := Z.shiftl 64 10.

Record Policy : Type := {
  AllowedGitHosts : option (list string);
  AllowedConfigMaps : option (list string);
  MaxContentBytes : option Z;
}.

Inductive policy_error {R : Type} : Type :=
| PolicyTooLarge
| NotAPolicy
| MaxContentNotPositive
| PaddedEntry
| IncompleteReference
| PolicyRead (e : R)
| NoStableIdentity
| NotImmutable
| KeyMissing
| ErrRefused
| PolicyChanged.
Arguments policy_error : clear implicits.

(** An entry of a list is trimmed and not empty. *)
Definition padded (entry : string) : bool :=
  empty (trim_space entry) || negb (bool_decide (entry = trim_space entry)).

Section Policies.
Context {R : Type} {E : Type -> Type} (get : string * string -> E (result R ConfigMap))
  (UnmarshalStrict : list Z -> option Policy).

Definition Parse (document : list Z) : result (policy_error R) Policy :=
  guard (negb (MaxDocumentBytes <? Z.of_nat (length document))) else PolicyTooLarge;
  match UnmarshalStrict document with
  | None => Err NotAPolicy
  | Some policy =>
      guard (negb match MaxContentBytes policy with Some n => n <? 1 | None => false end) else MaxContentNotPositive;
      guard (negb (existsb padded (default [] (AllowedGitHosts policy)) ||
                   existsb padded (default [] (AllowedConfigMaps policy)))) else PaddedEntry;
      Ok policy
  end.

(** The bytes of the key a selector names in a stable, immutable ConfigMap:
    the part [Read] and [ConfigMapBinding] share. *)
Definition selected_bytes (configMap : ConfigMap) (key : string) : result (policy_error R) (list Z) :=
  if empty (MetaUID (Meta configMap)) || present (DeletionTimestamp (Meta configMap)) then Err NoStableIdentity else
  guard (bool_decide (Immutable configMap = Some true)) else NotImmutable;
  match BinaryData configMap !! key with
  | Some value => Ok value
  | None =>
      match ConfigData configMap !! key with
      | Some value => Ok (bytes value)
      | None => Err KeyMissing
      end
  end.

Definition incomplete (namespace : string) (selector : option KeySelector) : bool :=
  empty namespace || match selector with None => true | Some s => empty (SelectorName s) || empty (SelectorKey s) end.

(** The ConfigMap a complete selector names, and the selected bytes. *)
Definition read_selected (namespace : string) (selector : option KeySelector) :
    prog E (result (policy_error R) (ConfigMap * list Z)) :=
  match selector with
  | Some s =>
      if incomplete namespace selector then Ret (Err IncompleteReference) else
      got <-- call (get (namespace, SelectorName s));
      Ret match got with
          | Err e => Err (PolicyRead e)
          | Ok configMap => document <-! selected_bytes configMap (SelectorKey s); Ok (configMap, document)
          end
  | None => Ret (Err IncompleteReference)
  end.

(** The identity a plan binds: the object and the digest of the bytes. *)
Definition binding_of (r : ConfigMap * list Z) : string * string := (MetaUID (Meta r.1), DigestBytes r.2).

Definition Read (namespace : string) (selector : option KeySelector) :
    prog E (result (policy_error R) (Policy * (string * string))) :=
  got <-- read_selected namespace selector;
  Ret (r <-! got; policy <-! Parse r.2; Ok (policy, binding_of r)).

(** [policy.ConfigMapBinding]. *)
Definition ConfigMapBinding (namespace : string) (selector : option KeySelector) :
    prog E (result (policy_error R) (string * string)) :=
  got <-- read_selected namespace selector;
  Ret (r <-! got; Ok (binding_of r)).

Definition CheckConfigMap (p : Policy) (name : string) : result (policy_error R) unit :=
  match AllowedConfigMaps p with
  | None => Ok tt
  | Some allowed => guard (bool_decide (name ∈ allowed)) else ErrRefused; Ok tt
  end.

Definition CheckContentBytes (p : Policy) (size : Z) : result (policy_error R) unit :=
  match MaxContentBytes p with
  | None => Ok tt
  | Some most => guard (size <=? most) else ErrRefused; Ok tt
  end.

Definition LiveBinding (namespace : string) (selector : option KeySelector) :
    prog E (result (policy_error R) (option (string * string))) :=
  match selector with
  | None => Ret (Ok None)
  | Some _ =>
      got <-- Read namespace selector;
      Ret (r <-! got; Ok (Some r.2))
  end.

Definition StillBinds (namespace : string) (selector : option KeySelector) (bound : option (string * string)) :
    prog E (result (policy_error R) unit) :=
  live <-- LiveBinding namespace selector;
  Ret (live <-! live; guard (bool_decide (live = bound)) else PolicyChanged; Ok tt).
End Policies.
