(* ===== verification/ApprovalAdmission.v ===== *)
(** * The approval boundary (package [internal/admission])

    The webhooks that admit an approval of a schema plan or a migration plan
    and an acknowledgment of an unresolved run: they stamp the authenticated
    identity on it in a mutating pass, and hold it in both passes to the plan
    and the resource the API server stores now. A handler is a program of
    reads; the decoded objects of the request are arguments, and a patch is
    the object it produces. The status conditions of [k8s.io/apimachinery] are
    parameters. The decoder and the reader are configured. *)
From stdpp Require Import base list gmap strings.
From Stdlib Require Import ZArith Lia Ascii.
From S2P Require Import Prelude GoStrings Sha256 Json Fingerprint OciReference PlanStore KubeMeta MigrationStatus MigrationPlan.
From S2P Require Import SourceContent SourceSnapshot SourceBinding SourcePolicy.
Local Open Scope go_scope.
Local Open Scope Z_scope.

Definition maxRecordedGroups : nat := 64.
Definition ReservedActorPrefix : string := "system:ptah-operator:".
Definition PhaseAwaitingApproval : string := "AwaitingApproval".
Definition ConditionPlanStorageReady : string := "Ready".
Definition ConditionApprovalRequired : string := "ApprovalRequired".
Definition LastSpecWriterUsernameAnnotation : string := "operator.ptah.run/last-spec-writer-username".
Definition LastSpecWriterUIDAnnotation : string := "operator.ptah.run/last-spec-writer-uid".

(** What a read of the API server can fail with, as [denialFor] tells it. *)
Inductive read_error : Type := ReadNotFound | ReadForbidden | ReadOther.

Inductive adm_error : Type :=
| NotInitialized
| UnsupportedOperation
| Undecodable
| NamespaceMismatch
| SpecImmutable
| OwnerNotNamed
| PlanNotNamed
| FingerprintNotNamed
| ReservedUsername
| ReadFailed (e : read_error)
| PlanDeleting
| PlanReplaced
| OtherOwner
| OtherFingerprint
| ContractUnsupported
| OtherExecution
| StorageNotReady
| OwnerDeleting
| OwnerReplaced
| PlanNotCurrent
| NotAwaiting
| ApprovalNotRequired
| OperationActive
| AlreadyApproved
| NoSpecWriter
| SelfApproval
| CoordinationUnknown (e : fp_error)
| SourceOrTargetChanged
| NoHistory
| HistoryMoved
| IdentityChanged
| ArtifactChanged
| ExecutionChanged
| RealmChanged
| PolicyRefused (e : policy_error read_error)
| VerificationPolicyChanged
| UsernameEmpty
| IdentityMismatch
| NotStamped
| NotTimed
| OperationNotNamed
| NoUnresolvedRun
| OtherRun.

(** ** Execution *)

Record Execution : Type := {
  ExecStateVersion : Z;
  ExecPtahVersion : string;
  ExecExecutorImage : string;
  ExecProtocolVersion : Z;
}.

Definition named (s : string) : bool := negb (empty (trim_space s)) && bool_decide (trim_space s = s).

Definition valid (e : Execution) : bool :=
  (1 <=? ExecStateVersion e) && (1 <=? ExecProtocolVersion e) && named (ExecPtahVersion e) && named (ExecExecutorImage e).

Definition binds (e : Execution) (stateVersion : Z) (ptahVersion executorImage : string) (protocolVersion : Z) : bool :=
  (stateVersion =? ExecStateVersion e) && bool_decide (ptahVersion = ExecPtahVersion e) &&
  bool_decide (executorImage = ExecExecutorImage e) && (protocolVersion =? ExecProtocolVersion e).

(** ** Requests *)

Record UserInfo : Type := { Username : string; UserUID : string; UserGroups : list string }.
(** [DeepEqual] tells a nil slice of groups from an empty one. *)
Record ApprovalIdentity : Type := { IdUsername : string; IdUID : string; IdGroups : option (list string) }.
#[export] Instance ApprovalIdentity_eq_dec : EqDecision ApprovalIdentity.
Proof. solve_decision. Defined.

(** [PtahSchemaApprovalSpec] and [PtahMigrationApprovalSpec]: they differ in
    the name of the field that names the approved resource. *)
Record ApprovalSpec : Type := {
  OwnerRef : string * string;
  PlanRef : string * string;
  PlanFingerprint : string;
  Approver : ApprovalIdentity;
  ApprovedAt : option Z;
  MutationRequestUID : string;
}.
#[export] Instance ApprovalSpec_eq_dec : EqDecision ApprovalSpec.
Proof. solve_decision. Defined.

Record RunAcknowledgmentSpec : Type := {
  AckMigrationRef : string * string;
  AckOperationID : string;
  AcknowledgedBy : ApprovalIdentity;
  AcknowledgedAt : option Z;
  AckMutationRequestUID : string;
}.
#[export] Instance RunAcknowledgmentSpec_eq_dec : EqDecision RunAcknowledgmentSpec.
Proof. solve_decision. Defined.

(** A decoded object: the namespace in its metadata, and its spec. *)
Record Object (S : Type) : Type := { ObjNamespace : string; ObjSpec : S }.
Arguments ObjNamespace {S}.
Arguments ObjSpec {S}.

Inductive Operation : Type := Create | Update | OtherOperation.

(** The object and the stored object are [None] when they do not decode. *)
Record Request (S : Type) : Type := {
  ReqOperation : Operation;
  ReqNamespace : string;
  ReqUID : string;
  ReqUser : UserInfo;
  ReqObject : option (Object S);
  ReqOldObject : option (Object S);
}.
Arguments ReqOperation {S}.
Arguments ReqNamespace {S}.
Arguments ReqUID {S}.
Arguments ReqUser {S}.
Arguments ReqObject {S}.
Arguments ReqOldObject {S}.

Inductive Response (S : Type) : Type :=
| Allowed
| Denied (e : adm_error)
| Errored (code : Z) (e : adm_error)
| PatchTo (o : Object S).
Arguments Allowed {S}.
Arguments Denied {S}.
Arguments Errored {S}.
Arguments PatchTo {S}.

(** ** Identities *)

(** The loop of [normalizedGroups]: trimmed, not empty, not seen before. *)
Fixpoint distinct_groups (seen groups : list string) : list string :=
  match groups with
  | [] => []
  | group :: rest =>
      let group := trim_space group in
      if empty group then distinct_groups seen rest else
      if bool_decide (group ∈ seen) then distinct_groups seen rest
      else group :: distinct_groups (group :: seen) rest
  end.

Definition normalizedGroups (groups : list string) : list string :=
  take maxRecordedGroups (sort_strings (distinct_groups [] groups)).

Definition identity_of (user : UserInfo) : ApprovalIdentity :=
  {| IdUsername := trim_space (Username user); IdUID := trim_space (UserUID user);
     IdGroups := Some (normalizedGroups (UserGroups user)) |}.

(** The identity, the mark and the time a validating pass requires. *)
Definition stamped (identity : ApprovalIdentity) (requestUID : string) (at_ : option Z) (user : UserInfo) :
    result adm_error unit :=
  guard (negb (empty (trim_space (Username user)))) else UsernameEmpty;
  guard (bool_decide (IdUsername identity = trim_space (Username user)) && bool_decide (IdUID identity = trim_space (UserUID user)) &&
         bool_decide (default [] (IdGroups identity) = normalizedGroups (UserGroups user))) else IdentityMismatch;
  guard (negb (empty (trim_space requestUID))) else NotStamped;
  guard (bool_decide (is_Some at_)) else NotTimed;
  Ok tt.

Definition identityMatchesRequest (spec : ApprovalSpec) (user : UserInfo) : result adm_error unit :=
  stamped (Approver spec) (MutationRequestUID spec) (ApprovedAt spec) user.

Definition acknowledgmentIdentityMatchesRequest (spec : RunAcknowledgmentSpec) (user : UserInfo) : result adm_error unit :=
  stamped (AcknowledgedBy spec) (AckMutationRequestUID spec) (AcknowledgedAt spec) user.

Definition stampIdentity (spec : ApprovalSpec) (user : UserInfo) (requestUID : string) (now : Z) : ApprovalSpec :=
  {| OwnerRef := OwnerRef spec; PlanRef := PlanRef spec; PlanFingerprint := PlanFingerprint spec;
     Approver := identity_of user; ApprovedAt := Some now; MutationRequestUID := requestUID |}.

Definition stamp (spec : RunAcknowledgmentSpec) (user : UserInfo) (requestUID : string) (now : Z) : RunAcknowledgmentSpec :=
  {| AckMigrationRef := AckMigrationRef spec; AckOperationID := AckOperationID spec;
     AcknowledgedBy := identity_of user; AcknowledgedAt := Some now; AckMutationRequestUID := requestUID |}.

Definition refuseSelfApproval (annotations : gmap string string) (approver : ApprovalIdentity) : result adm_error unit :=
  let writerUsername := trim_space (str_or_empty (annotations !! LastSpecWriterUsernameAnnotation)) in
  if empty writerUsername then Err NoSpecWriter else
  let writerUID := str_or_empty (annotations !! LastSpecWriterUIDAnnotation) in
  if bool_decide (writerUsername = IdUsername approver) && bool_decide (writerUID = IdUID approver)
  then Err SelfApproval else Ok tt.

Definition requireExplicitDecision (ownerRef planRef : string * string) (planFingerprint : string) : result adm_error unit :=
  if empty (trim_space ownerRef.1) || empty ownerRef.2 then Err OwnerNotNamed else
  if empty (trim_space planRef.1) || empty planRef.2 then Err PlanNotNamed else
  if empty (trim_space planFingerprint) then Err FingerprintNotNamed else Ok tt.

Definition denialFor {S} (err : adm_error) : Response S :=
  match err with
  | ReadFailed ReadNotFound | PolicyRefused (PolicyRead ReadNotFound) => Errored 404 err
  | ReadFailed ReadForbidden | PolicyRefused (PolicyRead ReadForbidden) => Errored 403 err
  | _ => Denied err
  end.

(** ** What the handlers read *)

Record ExecutionBindingStatus : Type := {
  BindingEpoch : string;
  BindingStateVersion : Z;
  BindingPtahVersion : string;
  BindingExecutorImage : string;
  BindingProtocolVersion : Z;
}.

Record CurrentPlanStatus : Type := {
  CurrentUID : string;
  CurrentFingerprint : string;
  CurrentExecutionBindingID : string;
  CurrentStateVersion : Z;
  CurrentApproval : option string;
}.

Section Admission.
Context {Conditions : Type} (IsStatusConditionTrue : Conditions -> string -> bool)
  (UnmarshalStrict : list Z -> option Policy).

Record PtahSchema : Type := {
  SchemaMeta : ObjectMeta;
  SchemaTarget : DatabaseTargetSpec;
  SchemaSourcePolicyFrom : option KeySelector;
  SchemaVerificationPolicyFrom : option KeySelector;
  SchemaPhase : string;
  SchemaConditions : Conditions;
  SchemaActiveOperation : option string;
  SchemaPlan : option CurrentPlanStatus;
  SchemaExecutionBinding : option ExecutionBindingStatus;
  SchemaSource : SchemaSourceStatus;
  SchemaCoordinationDigest : string;
  SchemaIdentityDigest : string;
}.

(** The fields of [PtahMigrationPlanSpec] a handler reads. *)
Record PtahMigrationPlan : Type := {
  MPlanMeta : ObjectMeta;
  MPlanContractVersion : Z;
  MPlanMigrationRef : string * string;
  MPlanFingerprint : string;
  MPlanHistoryFingerprint : string;
  MPlanArtifactDigest : string;
  MPlanSource : option PlanSourceBinding;
  MPlanCoordinationDigest : string;
  MPlanTargetIdentityDigest : string;
  MPlanVerificationPolicyUID : string;
  MPlanVerificationPolicyDigest : string;
  MPlanExecutionBindingID : string;
  MPlanStateVersion : Z;
  MPlanPtahVersion : string;
  MPlanExecutorImage : string;
  MPlanProtocolVersion : Z;
}.

Record PtahMigration : Type := {
  MigrationMeta : ObjectMeta;
  MigrationTarget : DatabaseTargetSpec;
  MigrationSourcePolicyFrom : option KeySelector;
  MigrationVerificationPolicyFrom : option KeySelector;
  MigrationPhase : string;
  MigrationConditions : Conditions;
  MigrationActiveOperation : option string;
  MigrationPlanUID : option string;
  (** [status.history]: its fingerprint and target identity. *)
  MigrationHistory : option (string * string);
  MigrationArtifact : option SourceAccessBinding;
  MigrationConfigMap : option ConfigMapSourceRevision;
  MigrationSourcePolicy : option (string * string);
  MigrationExecutionBinding : option ExecutionBindingStatus;
  MigrationUnresolvedRun : option string;
}.

Abbreviation SchemaPlanObject := (PtahSchemaPlan (Conditions := Conditions)).

Inductive admissionE : Type -> Type :=
| GetSchemaPlan (key : string * string) : admissionE (result read_error SchemaPlanObject)
| GetSchema (key : string * string) : admissionE (result read_error PtahSchema)
| GetMigrationPlan (key : string * string) : admissionE (result read_error PtahMigrationPlan)
| GetMigration (key : string * string) : admissionE (result read_error PtahMigration)
| GetConfigMap (key : string * string) : admissionE (result read_error ConfigMap)
| ClockNow : admissionE Z.

Abbreviation aprogram A := (prog admissionE (result adm_error A)).

(** Early returns of a call and of a check. *)
Definition reading {X A} (e : admissionE (result read_error X)) (k : X -> aprogram A) : aprogram A :=
  got <-- call e;
  match got with Err err => Ret (Err (ReadFailed err)) | Ok x => k x end.
Definition checking {X A} (r : result adm_error X) (k : X -> aprogram A) : aprogram A :=
  match r with Err err => Ret (Err err) | Ok x => k x end.

(** The policy a plan was decided under, as its resource names it now. *)
Definition policy_still_binds (namespace : string) (source : option PlanSourceBinding)
    (sourcePolicyFrom verificationPolicyFrom : option KeySelector) (policyUID policyDigest : string) : aprogram unit :=
  match source with
  | Some source =>
      answer <-- StillBinds GetConfigMap UnmarshalStrict namespace sourcePolicyFrom (PlanStore.SourcePolicy source);
      Ret match answer with Err e => Err (PolicyRefused e) | Ok _ => Ok tt end
  | None =>
      answer <-- ConfigMapBinding GetConfigMap namespace verificationPolicyFrom;
      Ret match answer with
          | Err e => Err (PolicyRefused e)
          | Ok (uid, digest) =>
              guard (bool_decide (uid = policyUID) && bool_decide (digest = policyDigest)) else VerificationPolicyChanged;
              Ok tt
          end
  end.

(** ** Schema approvals *)

Section SchemaApproval.
Context (Execution_ : Execution) (RequireDistinctApprover : bool).

(** The plan the approval names, as the API server stores it. *)
Definition plan_refusal (spec : ApprovalSpec) (plan : SchemaPlanObject) : result adm_error unit :=
  let p := Spec plan in
  guard (negb (present (PlanStore.DeletionTimestamp (PlanMeta plan)))) else PlanDeleting;
  guard (bool_decide (UID (PlanMeta plan) = (PlanRef spec).2)) else PlanReplaced;
  guard (bool_decide (SchemaRef p = OwnerRef spec)) else OtherOwner;
  guard (bool_decide (PlanFingerprint spec = SpecFingerprint p)) else OtherFingerprint;
  guard (is_ok (ValidatePlanContractVersion (PlanStore.ContractVersion p))) else ContractUnsupported;
  guard (binds Execution_ (ControllerStateVersion p) (PtahVersion p) (ExecutorImage p) (RunnerProtocolVersion p)) else OtherExecution;
  guard ((ObservedGeneration plan =? Generation (PlanMeta plan)) &&
         IsStatusConditionTrue (PlanConditions plan) ConditionPlanStorageReady) else StorageNotReady;
  Ok tt.

(** The plan is the schema's current one, under the schema's current binding. *)
Definition plan_current (plan : SchemaPlanObject) (schema : PtahSchema) : bool :=
  let p := Spec plan in
  match SchemaPlan schema, SchemaExecutionBinding schema with
  | Some current, Some binding =>
      bool_decide (CurrentUID current = UID (PlanMeta plan)) && bool_decide (CurrentFingerprint current = SpecFingerprint p) &&
      negb (empty (BindingEpoch binding)) && bool_decide (BindingEpoch binding = ExecutionBindingID p) &&
      bool_decide (CurrentExecutionBindingID current = ExecutionBindingID p) && (1 <=? CurrentStateVersion current) &&
      (CurrentStateVersion current =? ControllerStateVersion p)
  | _, _ => false
  end.

Definition source_and_target (plan : SchemaPlanObject) (schema : PtahSchema) (coordinationDigest : string) : bool :=
  let p := Spec plan in
  let '(statusArtifact, statusSource) := SchemaPlanSource (SchemaSource schema) in
  SamePlanSource (ArtifactDigest p) (Source p) statusArtifact statusSource &&
  bool_decide (coordinationDigest = CoordinationDigest p) &&
  bool_decide (SchemaCoordinationDigest schema = CoordinationDigest p) &&
  bool_decide (SchemaIdentityDigest schema = TargetIdentityDigest p) &&
  match SchemaExecutionBinding schema with
  | Some binding =>
      (BindingStateVersion binding =? ControllerStateVersion p) && bool_decide (BindingPtahVersion binding = PtahVersion p) &&
      bool_decide (BindingExecutorImage binding = ExecutorImage p) && (BindingProtocolVersion binding =? RunnerProtocolVersion p)
  | None => false
  end.

(** The schema waits for exactly this decision. *)
Definition schema_refusal (spec : ApprovalSpec) (plan : SchemaPlanObject) (schema : PtahSchema) : result adm_error unit :=
  let meta := SchemaMeta schema in
  guard (negb (present (DeletionTimestamp meta))) else OwnerDeleting;
  guard (bool_decide (MetaUID meta = (OwnerRef spec).2) && bool_decide ((SchemaRef (Spec plan)).2 = MetaUID meta) &&
         bool_decide ((SchemaRef (Spec plan)).1 = MetaName meta)) else OwnerReplaced;
  guard (plan_current plan schema) else PlanNotCurrent;
  guard (bool_decide (SchemaPhase schema = PhaseAwaitingApproval)) else NotAwaiting;
  guard (IsStatusConditionTrue (SchemaConditions schema) ConditionApprovalRequired) else ApprovalNotRequired;
  guard (negb (present (SchemaActiveOperation schema))) else OperationActive;
  guard (negb match SchemaPlan schema with Some current => present (CurrentApproval current) | None => false end) else AlreadyApproved;
  _ <-! (if RequireDistinctApprover then refuseSelfApproval (Annotations meta) (Approver spec) else Ok tt);
  match Fingerprint.Digest (MetaNamespace meta) (SchemaTarget schema) with
  | Err e => Err (CoordinationUnknown e)
  | Ok coordinationDigest =>
      guard (source_and_target plan schema coordinationDigest) else SourceOrTargetChanged;
      Ok tt
  end.

Definition validateBinding (approval : Object ApprovalSpec) : aprogram unit :=
  let spec := ObjSpec approval in
  let namespace := ObjNamespace approval in
  checking (requireExplicitDecision (OwnerRef spec) (PlanRef spec) (PlanFingerprint spec)) (fun _ =>
  reading (GetSchemaPlan (namespace, (PlanRef spec).1)) (fun plan =>
  checking (plan_refusal spec plan) (fun _ =>
  reading (GetSchema (namespace, (OwnerRef spec).1)) (fun schema =>
  checking (schema_refusal spec plan schema) (fun _ =>
  policy_still_binds namespace (Source (Spec plan)) (SchemaSourcePolicyFrom schema) (SchemaVerificationPolicyFrom schema)
    (VerificationPolicyUID (Spec plan)) (VerificationPolicyDigest (Spec plan))))))).
End SchemaApproval.

(** ** Migration approvals *)

Section MigrationApproval.
Context (Execution_ : Execution) (RequireDistinctApprover : bool).

Definition mplan_refusal (spec : ApprovalSpec) (plan : PtahMigrationPlan) : result adm_error unit :=
  guard (negb (present (DeletionTimestamp (MPlanMeta plan)))) else PlanDeleting;
  guard (bool_decide (MetaUID (MPlanMeta plan) = (PlanRef spec).2)) else PlanReplaced;
  guard (bool_decide (MPlanMigrationRef plan = OwnerRef spec)) else OtherOwner;
  guard (bool_decide (PlanFingerprint spec = MPlanFingerprint plan)) else OtherFingerprint;
  guard (SupportedContractVersion (MPlanContractVersion plan)) else ContractUnsupported;
  guard (binds Execution_ (MPlanStateVersion plan) (MPlanPtahVersion plan) (MPlanExecutorImage plan) (MPlanProtocolVersion plan))
    else OtherExecution;
  Ok tt.

Definition execution_current (plan : PtahMigrationPlan) (migration : PtahMigration) : bool :=
  match MigrationExecutionBinding migration with
  | None => false
  | Some binding =>
      negb (empty (BindingEpoch binding)) && bool_decide (BindingEpoch binding = MPlanExecutionBindingID plan) &&
      (BindingStateVersion binding =? MPlanStateVersion plan) && bool_decide (BindingPtahVersion binding = MPlanPtahVersion plan) &&
      bool_decide (BindingExecutorImage binding = MPlanExecutorImage plan) &&
      (BindingProtocolVersion binding =? MPlanProtocolVersion plan)
  end.

Definition artifact_current (plan : PtahMigrationPlan) (migration : PtahMigration) : bool :=
  let '(statusArtifact, statusSource) :=
    MigrationPlanSource (MigrationArtifact migration) (MigrationConfigMap migration) (MigrationSourcePolicy migration) in
  present (MigrationArtifact migration) &&
  SamePlanSource (MPlanArtifactDigest plan) (MPlanSource plan) statusArtifact statusSource.

Definition migration_refusal (spec : ApprovalSpec) (plan : PtahMigrationPlan) (migration : PtahMigration) : result adm_error unit :=
  let meta := MigrationMeta migration in
  guard (negb (present (DeletionTimestamp meta))) else OwnerDeleting;
  guard (bool_decide (MetaUID meta = (OwnerRef spec).2) && bool_decide ((MPlanMigrationRef plan).2 = MetaUID meta) &&
         bool_decide ((MPlanMigrationRef plan).1 = MetaName meta)) else OwnerReplaced;
  guard (bool_decide (MigrationPlanUID migration = Some (MetaUID (MPlanMeta plan)))) else PlanNotCurrent;
  guard (bool_decide (MigrationPhase migration = PhaseAwaitingApproval)) else NotAwaiting;
  guard (IsStatusConditionTrue (MigrationConditions migration) ConditionApprovalRequired) else ApprovalNotRequired;
  guard (negb (present (MigrationActiveOperation migration))) else OperationActive;
  match MigrationHistory migration with
  | None => Err NoHistory
  | Some (fingerprint, identity) =>
      guard (bool_decide (fingerprint = MPlanHistoryFingerprint plan)) else HistoryMoved;
      guard (bool_decide (identity = MPlanTargetIdentityDigest plan)) else IdentityChanged;
      guard (artifact_current plan migration) else ArtifactChanged;
      guard (execution_current plan migration) else ExecutionChanged;
      match Fingerprint.Digest (MetaNamespace meta) (MigrationTarget migration) with
      | Err e => Err (CoordinationUnknown e)
      | Ok coordinationDigest => guard (bool_decide (coordinationDigest = MPlanCoordinationDigest plan)) else RealmChanged; Ok tt
      end
  end.

Definition validateMigrationBinding (approval : Object ApprovalSpec) : aprogram unit :=
  let spec := ObjSpec approval in
  let namespace := ObjNamespace approval in
  require (negb (has_prefix ReservedActorPrefix (IdUsername (Approver spec)))) else ReservedUsername;
  checking (requireExplicitDecision (OwnerRef spec) (PlanRef spec) (PlanFingerprint spec)) (fun _ =>
  reading (GetMigrationPlan (namespace, (PlanRef spec).1)) (fun plan =>
  checking (mplan_refusal spec plan) (fun _ =>
  reading (GetMigration (namespace, (OwnerRef spec).1)) (fun migration =>
  checking (migration_refusal spec plan migration) (fun _ =>
  bound <-- policy_still_binds namespace (MPlanSource plan) (MigrationSourcePolicyFrom migration)
             (MigrationVerificationPolicyFrom migration) (MPlanVerificationPolicyUID plan) (MPlanVerificationPolicyDigest plan);
  checking bound (fun _ =>
  Ret (if RequireDistinctApprover then refuseSelfApproval (Annotations (MigrationMeta migration)) (Approver spec) else Ok tt))))))).
End MigrationApproval.

(** ** Run acknowledgments *)

Definition validateAcknowledgmentBinding (acknowledgment : Object RunAcknowledgmentSpec) : aprogram unit :=
  let spec := ObjSpec acknowledgment in
  let reference := AckMigrationRef spec in
  require (negb (empty (trim_space reference.1) || empty reference.2)) else OwnerNotNamed;
  require (negb (empty (trim_space (AckOperationID spec)))) else OperationNotNamed;
  reading (GetMigration (ObjNamespace acknowledgment, reference.1)) (fun migration =>
  Ret (guard (negb (present (DeletionTimestamp (MigrationMeta migration)))) else OwnerDeleting;
       guard (bool_decide (MetaUID (MigrationMeta migration) = reference.2)) else OwnerReplaced;
       match MigrationUnresolvedRun migration with
       | None => Err NoUnresolvedRun
       | Some operationID => guard (bool_decide (operationID = AckOperationID spec)) else OtherRun; Ok tt
       end)).

(** ** The handlers

    The three [Handle] methods are one text over the parts above: what they
    stamp, what identity they require, and what they bind. *)

Section Handle.
Context {S : Type} `{EqDecision S} (initialized : bool)
  (stamp_ : S -> UserInfo -> string -> Z -> S) (identity : S -> UserInfo -> result adm_error unit)
  (bind_ : Object S -> aprogram unit).

Definition handle (Mutate : bool) (req : Request S) : prog admissionE (Response S) :=
  if negb initialized then Ret (Errored 500 NotInitialized) else
  match ReqOperation req with
  | OtherOperation => Ret (Denied UnsupportedOperation)
  | operation =>
      match ReqObject req with
      | None => Ret (Errored 400 Undecodable)
      | Some object =>
          if negb (bool_decide (ObjNamespace object = ReqNamespace req)) then Ret (Denied NamespaceMismatch) else
          match operation with
          | Update =>
              Ret match ReqOldObject req with
                  | None => Errored 400 Undecodable
                  | Some old => if negb (bool_decide (ObjSpec object = ObjSpec old)) then Denied SpecImmutable else Allowed
                  end
          | _ =>
              if Mutate then
                now <-- call ClockNow;
                let object := {| ObjNamespace := ObjNamespace object;
                                 ObjSpec := stamp_ (ObjSpec object) (ReqUser req) (ReqUID req) now |} in
                bound <-- bind_ object;
                Ret match bound with Err e => denialFor e | Ok _ => PatchTo object end
              else
                match identity (ObjSpec object) (ReqUser req) with
                | Err e => Ret (Denied e)
                | Ok _ =>
                    bound <-- bind_ object;
                    Ret match bound with Err e => denialFor e | Ok _ => Allowed end
                end
          end
      end
  end.
End Handle.

Definition ApprovalHandler (execution : Execution) (distinct : bool) : bool -> Request ApprovalSpec -> prog admissionE (Response ApprovalSpec) :=
  handle (valid execution) stampIdentity identityMatchesRequest (validateBinding execution distinct).

Definition MigrationApprovalHandler (execution : Execution) (distinct : bool) : bool -> Request ApprovalSpec -> prog admissionE (Response ApprovalSpec) :=
  handle (valid execution) stampIdentity identityMatchesRequest (validateMigrationBinding execution distinct).

Definition RunAcknowledgmentHandler : bool -> Request RunAcknowledgmentSpec -> prog admissionE (Response RunAcknowledgmentSpec) :=
  handle true stamp acknowledgmentIdentityMatchesRequest validateAcknowledgmentBinding.
End Admission.
