(* ===== verification/ApprovalProofs.v ===== *)
(** * What an admitted approval proves

    Whatever the API server answers, an approval is admitted only for the
    plan and the resource it names as they are stored, with the identity the
    API server authenticated. *)
From stdpp Require Import base list gmap strings.
From Stdlib Require Import ZArith Lia Ascii.
From S2P Require Import Prelude GoStrings Sha256 Json Fingerprint OciReference PlanStore KubeMeta MigrationStatus MigrationPlan.
From S2P Require Import SourceContent SourceSnapshot SourceBinding SourcePolicy ApprovalAdmission.
Local Open Scope go_scope.
Local Open Scope Z_scope.

#[local] Opaque sha256 hex_encode.

Section Facts.
Context {Conditions : Type} (IsStatusConditionTrue : Conditions -> string -> bool)
  (UnmarshalStrict : list Z -> option Policy).
Abbreviation aE := (admissionE (Conditions := Conditions)).
Abbreviation alog := (list (entry aE)).
Abbreviation get := (GetConfigMap (Conditions := Conditions)).

Lemma sees_reading {X A} (e : aE (result read_error X)) (k : X -> prog aE (result adm_error A)) (P : A -> alog -> Prop) :
  (forall x, sees (k x) (fun a log => seen e (Ok x) log -> P a log)) -> sees (reading e k) P.
Proof. intros H. apply sees_call. intros [x|err]; [apply H|]. by apply sees_ret. Qed.

Lemma sees_checking {X A} (r : result adm_error X) (k : X -> prog aE (result adm_error A)) (P : A -> alog -> Prop) :
  (forall x, r = Ok x -> sees (k x) P) -> sees (checking r k) P.
Proof. intros H. destruct r; [by apply H|by apply sees_ret]. Qed.

(** ** Policies *)

(** The ConfigMap a selector names, read as stable and immutable, and its
    selected bytes. *)
Definition read_policy (log : alog) (namespace : string) (selector : option KeySelector) (uid digest : string) : Prop :=
  exists s cm document, selector = Some s /\ seen (get (namespace, SelectorName s)) (Ok cm) log /\
    selected_bytes (R := read_error) cm (SelectorKey s) = Ok document /\ uid = MetaUID (Meta cm) /\ digest = DigestBytes document.

Lemma read_selected_sees namespace selector :
  sees (read_selected get namespace selector) (fun r log => read_policy log namespace selector (binding_of r).1 (binding_of r).2).
Proof.
  unfold read_selected. destruct selector as [s|]; [|by apply sees_ret]. destruct (incomplete _ _); [by apply sees_ret|].
  apply sees_call. intros [cm|err]; apply sees_ret; [|done]. intros r log Hr Hseen.
  destruct (selected_bytes cm (SelectorKey s)) as [document|] eqn:E; [|done]. injection Hr as <-. exists s, cm, document. done.
Qed.

(** A result computed from a program's value. *)
Lemma sees_bind {R A B} (p : prog aE (result R A)) (f : result R A -> result R B) (P : B -> alog -> Prop) :
  (forall e, f (Err e) = Err e) -> sees p (fun a log => forall b, f (Ok a) = Ok b -> P b log) ->
  sees (r <-- p; Ret (f r)) P.
Proof.
  intros He Hp log. apply wp_bind. eapply wp_mono; [|apply Hp]. intros [a|e] log' Hr b Hb; cbn in Hb.
  - by apply (Hr a).
  - by rewrite He in Hb.
Qed.

(** The policy a plan was decided under is the one its resource names now. *)
Definition policy_bound (log : alog) (namespace : string) (source : option PlanSourceBinding)
    (sourcePolicyFrom verificationPolicyFrom : option KeySelector) (policyUID policyDigest : string) : Prop :=
  match source with
  | Some s =>
      match PlanStore.SourcePolicy s with
      | None => sourcePolicyFrom = None
      | Some (uid, digest) => read_policy log namespace sourcePolicyFrom uid digest
      end
  | None => read_policy log namespace verificationPolicyFrom policyUID policyDigest
  end.

Lemma StillBinds_sees namespace selector bound :
  sees (StillBinds get UnmarshalStrict namespace selector bound)
    (fun _ log => match bound with None => selector = None | Some (u, d) => read_policy log namespace selector u d end).
Proof.
  unfold StillBinds, LiveBinding. destruct selector as [sel|].
  - apply sees_bind; [done|]. apply sees_bind; [done|]. unfold Read. apply sees_bind; [done|].
    eapply sees_mono; [|apply read_selected_sees]. intros r log Hr p Hp live Hl b Hb.
    cbn [rbind] in *. destruct (Parse _ _) as [pol|]; [|done]. injection Hp as <-. injection Hl as <-. cbn [snd] in *.
    case_bool_decide as Hd; [|done]. by rewrite <- Hd.
  - intros log. cbn. intros a. case_bool_decide as Hd; [|done]. by rewrite <- Hd.
Qed.

Lemma ConfigMapBinding_sees namespace selector :
  sees (ConfigMapBinding get namespace selector) (fun b log => read_policy log namespace selector b.1 b.2).
Proof.
  unfold ConfigMapBinding. apply sees_bind; [done|]. eapply sees_mono; [|apply read_selected_sees].
  intros r log Hr b Hb. by injection Hb as <-.
Qed.

Lemma policy_still_binds_sees namespace source sp vp uid digest :
  sees (policy_still_binds UnmarshalStrict namespace source sp vp uid digest)
    (fun _ log => policy_bound log namespace source sp vp uid digest).
Proof.
  unfold policy_still_binds, policy_bound. destruct source as [s|]; intros log; apply wp_bind.
  - eapply wp_mono; [|apply StillBinds_sees]. intros [b|e] log' Hr a Ha; [by apply (Hr b)|done].
  - eapply wp_mono; [|apply ConfigMapBinding_sees]. intros [[u d]|e] log' Hr a Ha; cbn in Ha; [|done].
    destruct (bool_decide (u = uid) && bool_decide (d = digest)) eqn:E; [|done]. bool_prop. subst. by apply (Hr (uid, digest)).
Qed.

(** ** Schema approvals *)

Lemma present_none {A} (o : option A) : present o = false <-> o = None.
Proof. unfold present. rewrite bool_decide_eq_false, eq_None_not_Some. done. Qed.

(** A binding in force runs the execution a plan was computed under. *)
Definition runs (binding : ExecutionBindingStatus) (execution : Execution) : Prop :=
  BindingStateVersion binding = ExecStateVersion execution /\ BindingPtahVersion binding = ExecPtahVersion execution /\
  BindingExecutorImage binding = ExecExecutorImage execution /\ BindingProtocolVersion binding = ExecProtocolVersion execution.

(** The decision names the plan the schema waits for, as both are stored: the
    plan by its identity and fingerprint, computed from the source, the realm
    and the target the schema resolves to, under the execution and the policy
    in force, with nothing running and nothing approved yet. *)
Definition schema_decision (log : alog) (execution : Execution) (distinct : bool) (namespace : string) (spec : ApprovalSpec) : Prop :=
  exists plan schema current binding,
    seen (GetSchemaPlan (namespace, (PlanRef spec).1)) (Ok plan) log /\
    seen (GetSchema (namespace, (OwnerRef spec).1)) (Ok schema) log /\
    (UID (PlanMeta plan) = (PlanRef spec).2 /\ SpecFingerprint (Spec plan) = PlanFingerprint spec /\
     SchemaRef (Spec plan) = OwnerRef spec /\ PlanStore.DeletionTimestamp (PlanMeta plan) = None) /\
    (MetaUID (SchemaMeta schema) = (OwnerRef spec).2 /\ DeletionTimestamp (SchemaMeta schema) = None /\
     SchemaPhase schema = PhaseAwaitingApproval /\ SchemaActiveOperation schema = None) /\
    (SchemaPlan schema = Some current /\ CurrentUID current = UID (PlanMeta plan) /\
     CurrentFingerprint current = PlanFingerprint spec /\ CurrentApproval current = None) /\
    (SchemaExecutionBinding schema = Some binding /\ BindingEpoch binding = ExecutionBindingID (Spec plan) /\ runs binding execution) /\
    (SchemaPlanSource (SchemaSource schema) = (ArtifactDigest (Spec plan), Source (Spec plan)) /\
     Fingerprint.Digest (MetaNamespace (SchemaMeta schema)) (SchemaTarget schema) = Ok (CoordinationDigest (Spec plan)) /\
     SchemaIdentityDigest schema = TargetIdentityDigest (Spec plan)) /\
    policy_bound log namespace (Source (Spec plan)) (SchemaSourcePolicyFrom schema) (SchemaVerificationPolicyFrom schema)
      (VerificationPolicyUID (Spec plan)) (VerificationPolicyDigest (Spec plan)) /\
    (distinct = true -> refuseSelfApproval (Annotations (SchemaMeta schema)) (Approver spec) = Ok tt).

Lemma SamePlanSource_eq a s b t : SamePlanSource a s b t = true <-> a = b /\ s = t.
Proof. unfold SamePlanSource. by rewrite andb_true_iff, bool_decide_eq_true, Equal_eq. Qed.

Lemma validateBinding_sees execution distinct approval :
  sees (validateBinding IsStatusConditionTrue UnmarshalStrict execution distinct approval)
    (fun _ log => schema_decision log execution distinct (ObjNamespace approval) (ObjSpec approval)).
Proof.
  unfold validateBinding. apply sees_checking. intros [] _. apply sees_reading. intros plan. apply sees_checking. intros [] Hplan.
  apply sees_reading. intros schema. apply sees_checking. intros [] Hschema.
  eapply sees_mono; [|apply policy_still_binds_sees]. intros [] log Hpol Hs Hp. unfold schema_decision. exists plan, schema.
  unfold plan_refusal, binds in Hplan. unfold schema_refusal in Hschema. rewrite ?guard_ok in Hplan. revert Hplan Hschema.
  guards. intros (Hd & Hu & Hr & Hf & _ & Hex & _) (Hod & Ho & Hcur & Hph & _ & Hact & Hap & Hself & Hrest). bool_prop.
  apply present_none in Hd, Hod, Hact. unfold plan_current in Hcur.
  destruct (SchemaPlan schema) as [current|]; [|done]. destruct (SchemaExecutionBinding schema) as [binding|] eqn:Eb; [|done].
  bool_prop. apply present_none in Hap.
  destruct (Fingerprint.Digest _ _) as [realm|]; [|done]. apply guard_ok in Hrest as [Hst _].
  unfold source_and_target in Hst. destruct (SchemaPlanSource (SchemaSource schema)) as [sa ss]. rewrite Eb in Hst. bool_prop.
  match goal with H : SamePlanSource _ _ _ _ = true |- _ => apply SamePlanSource_eq in H as [? ?] end. subst.
  exists current, binding. split_and!; try done; try congruence; [split_and!; congruence|by intros ->].
Qed.

(** ** Migration approvals *)

Definition migration_decision (log : alog) (execution : Execution) (distinct : bool) (namespace : string) (spec : ApprovalSpec) : Prop :=
  exists plan migration binding artifact,
    seen (GetMigrationPlan (namespace, (PlanRef spec).1)) (Ok plan) log /\
    seen (GetMigration (namespace, (OwnerRef spec).1)) (Ok migration) log /\
    (MetaUID (MPlanMeta plan) = (PlanRef spec).2 /\ MPlanFingerprint plan = PlanFingerprint spec /\
     MPlanMigrationRef plan = OwnerRef spec /\ DeletionTimestamp (MPlanMeta plan) = None) /\
    (MetaUID (MigrationMeta migration) = (OwnerRef spec).2 /\ DeletionTimestamp (MigrationMeta migration) = None /\
     MigrationPhase migration = PhaseAwaitingApproval /\ MigrationActiveOperation migration = None /\
     MigrationPlanUID migration = Some (MetaUID (MPlanMeta plan))) /\
    (MigrationHistory migration = Some (MPlanHistoryFingerprint plan, MPlanTargetIdentityDigest plan)) /\
    (MigrationExecutionBinding migration = Some binding /\ BindingEpoch binding = MPlanExecutionBindingID plan /\ runs binding execution) /\
    (MigrationArtifact migration = Some artifact /\
     MigrationPlanSource (Some artifact) (MigrationConfigMap migration) (MigrationSourcePolicy migration) =
       (MPlanArtifactDigest plan, MPlanSource plan) /\
     Fingerprint.Digest (MetaNamespace (MigrationMeta migration)) (MigrationTarget migration) = Ok (MPlanCoordinationDigest plan)) /\
    policy_bound log namespace (MPlanSource plan) (MigrationSourcePolicyFrom migration) (MigrationVerificationPolicyFrom migration)
      (MPlanVerificationPolicyUID plan) (MPlanVerificationPolicyDigest plan) /\
    has_prefix ReservedActorPrefix (IdUsername (Approver spec)) = false /\
    (distinct = true -> refuseSelfApproval (Annotations (MigrationMeta migration)) (Approver spec) = Ok tt).

Lemma sees_then_checking {X A} (p : prog aE (result adm_error X)) (k : X -> prog aE (result adm_error A)) (Q : X -> alog -> Prop) (P : A -> alog -> Prop) :
  sees p Q -> (forall x, grows (Q x)) -> (forall x, sees (k x) (fun a log => Q x log -> P a log)) ->
  sees (r <-- p; checking r k) P.
Proof.
  intros Hp HQ Hk log. apply wp_bind. eapply wp_mono; [|apply Hp]. intros [x|e] log' Hr; cbn [checking]; [|done].
  eapply wp_mono; [|eapply (sees_keep (k x) _ (Q x) _ (HQ x) (Hr x eq_refl)); apply Hk]. intros r log'' Hr' a Ha.
  destruct (Hr' a Ha) as [HP HQ']. by apply HP.
Qed.

Lemma policy_bound_grows namespace source sp vp uid digest : grows (fun log => policy_bound log namespace source sp vp uid digest).
Proof.
  assert (forall sel u d, grows (fun log => read_policy log namespace sel u d)) as Hr.
  { intros sel u d log more (s & cm & document & -> & Hs & H). exists s, cm, document. split; [done|]. split; [by apply seen_grows|done]. }
  intros log more. unfold policy_bound. destruct source as [s|]; [|apply Hr]. destruct (PlanStore.SourcePolicy s) as [[]|]; [apply Hr|done].
Qed.

Lemma validateMigrationBinding_sees execution distinct approval :
  sees (validateMigrationBinding IsStatusConditionTrue UnmarshalStrict execution distinct approval)
    (fun _ log => migration_decision log execution distinct (ObjNamespace approval) (ObjSpec approval)).
Proof.
  unfold validateMigrationBinding. destruct (negb (has_prefix _ _)) eqn:Hres; [|by apply sees_ret].
  apply sees_checking. intros [] _. apply sees_reading. intros plan. apply sees_checking. intros [] Hplan.
  apply sees_reading. intros migration. apply sees_checking. intros [] Hmig.
  eapply sees_then_checking; [apply policy_still_binds_sees|intros; apply policy_bound_grows|].
  intros []. apply sees_ret. intros [] log Hself Hpol Hm Hp. unfold migration_decision. exists plan, migration.
  unfold mplan_refusal, binds in Hplan. unfold migration_refusal in Hmig. revert Hplan Hmig.
  guards. intros (Hd & Hu & Hr & Hf & _ & Hex & _) (Hod & Ho & Hcur & Hph & _ & Hact & Hrest). bool_prop.
  apply present_none in Hd, Hod, Hact. destruct (MigrationHistory migration) as [[history identity]|]; [|done].
  revert Hrest. guards. intros (Hh & Hi & Hart & Hexec & Hrest). bool_prop. unfold execution_current in Hexec.
  destruct (MigrationExecutionBinding migration) as [binding|]; [|done]. unfold artifact_current in Hart.
  destruct (MigrationArtifact migration) as [artifact|]; [|by destruct (MigrationPlanSource _ _ _)].
  destruct (MigrationPlanSource _ _ _) as [sa ss] eqn:Eps. bool_prop.
  match goal with H : SamePlanSource _ _ _ _ = true |- _ => apply SamePlanSource_eq in H as [? ?] end.
  destruct (Fingerprint.Digest _ _) as [realm|]; [|done]. apply guard_ok in Hrest as [Hrealm _]. bool_prop. subst.
  exists binding, artifact. split_and!; try done; try congruence; [split_and!; congruence|by intros ->].
Qed.

(** ** The passes of a handler *)

Definition admits {S} (r : Response S) : bool := match r with Allowed | PatchTo _ => true | _ => false end.

(** The object a pass lets through: stamped by the mutating one, checked
    against the request's identity by the validating one. *)
Definition passed {S} (stamp_ : S -> UserInfo -> string -> Z -> S) (identity : S -> UserInfo -> result adm_error unit)
    (Mutate : bool) (req : Request S) (r : Response S) (final : Object S) : Prop :=
  exists object, ReqObject req = Some object /\ ObjNamespace object = ReqNamespace req /\ ObjNamespace final = ObjNamespace object /\
    if Mutate then r = PatchTo final /\ exists now, ObjSpec final = stamp_ (ObjSpec object) (ReqUser req) (ReqUID req) now
    else r = Allowed /\ final = object /\ identity (ObjSpec object) (ReqUser req) = Ok tt.

Lemma denialFor_refuses {S} e : admits (denialFor (S := S) e) = false.
Proof. unfold denialFor. repeat case_match; done. Qed.

Lemma handle_admits {S} `{EqDecision S} initialized stamp_ identity bind_ Mutate (req : Request S) r (log0 log : alog) :
  ReqOperation req = Create -> admits r = true ->
  exec any_answer (handle initialized stamp_ identity bind_ Mutate req) log0 r log ->
  initialized = true /\ exists final log1, passed stamp_ identity Mutate req r final /\ exec any_answer (bind_ final) log1 (Ok tt) log.
Proof.
  intros Hop Hr. unfold handle. rewrite Hop. destruct initialized; cbn [negb]; [|by intros [-> _]]. intros Hex. split; [done|].
  destruct (ReqObject req) as [object|] eqn:Eo; [|by destruct Hex as [-> _]].
  destruct (negb (bool_decide (ObjNamespace object = _))) eqn:En; [by destruct Hex as [-> _]|]. bool_prop. destruct Mutate.
  - apply exec_bind in Hex as (now & log1 & _ & Hex). apply exec_bind in Hex as (b & log2 & Hb & [-> ->]).
    destruct b as [[]|e]; [|by rewrite denialFor_refuses in Hr].
    eexists _, log1. split; [|exact Hb].
    exists object. split_and!; [done..|by exists now].
  - destruct (identity (ObjSpec object) (ReqUser req)) as [[]|] eqn:Ei; [|by destruct Hex as [-> _]].
    apply exec_bind in Hex as (b & log2 & Hb & [-> ->]). destruct b as [[]|e]; [|by rewrite denialFor_refuses in Hr].
    exists object, log0. split; [|exact Hb]. exists object. by rewrite Eo.
Qed.

(** ** Stored decisions *)

(** The identity a decision carries is the one the API server authenticated. *)
Definition authentic (identity : ApprovalIdentity) (user : UserInfo) : Prop :=
  IdUsername identity = trim_space (Username user) /\ IdUID identity = trim_space (UserUID user) /\
  default [] (IdGroups identity) = normalizedGroups (UserGroups user).

Lemma stamped_authentic identity uid at_ user :
  stamped identity uid at_ user = Ok tt -> authentic identity user /\ trim_space (Username user) <> EmptyString.
Proof. unfold stamped, empty. guards. intros (Hn & Hid & _). bool_prop. by repeat split. Qed.

(** What the mutating pass stamps, the validating pass of the same request
    accepts. *)
Lemma stamp_accepted user uid now :
  trim_space (Username user) <> EmptyString -> trim_space uid <> EmptyString ->
  stamped (identity_of user) uid (Some now) user = Ok tt.
Proof.
  intros Hn Hu. unfold stamped, empty. cbn [identity_of IdUsername IdUID IdGroups default from_option id].
  rewrite (bool_decide_eq_false_2 _ Hn), (bool_decide_eq_false_2 _ Hu), !bool_decide_eq_true_2 by done. done.
Qed.

(** An object the API server stored: created and then updated by requests the
    validating webhook allowed. [creator] is who sent the first, [namespace]
    the namespace it created the object in, and [log] holds what the API
    server answered to the webhook while it decided that first request. *)
Inductive stored_by {S} (handler : Request S -> prog aE (Response S)) : Object S -> UserInfo -> string -> alog -> Prop :=
| stored_create req object (log : alog) :
    ReqOperation req = Create -> ReqObject req = Some object -> exec any_answer (handler req) [] Allowed log ->
    stored_by handler object (ReqUser req) (ReqNamespace req) log
| stored_update req old object creator namespace (log later : alog) :
    stored_by handler old creator namespace log ->
    ReqOperation req = Update -> ReqOldObject req = Some old -> ReqObject req = Some object ->
    exec any_answer (handler req) [] Allowed later -> stored_by handler object creator namespace log.

Section Stored.
Context {S : Type} `{EqDecision S} (initialized : bool) (stamp_ : S -> UserInfo -> string -> Z -> S)
  (identity : S -> UserInfo -> result adm_error unit) (bind_ : Object S -> prog aE (result adm_error unit))
  (decision : alog -> string -> S -> Prop)
  (Hsees : forall o, sees (bind_ o) (fun _ log => decision log (ObjNamespace o) (ObjSpec o))).
Abbreviation handler := (handle initialized stamp_ identity bind_ false).

Lemma handle_update (req : Request S) old object log0 log :
  ReqOperation req = Update -> ReqOldObject req = Some old -> ReqObject req = Some object ->
  exec any_answer (handler req) log0 Allowed log -> ObjSpec object = ObjSpec old.
Proof.
  intros Hop Ho Hobj. unfold handle. rewrite Hop, Ho, Hobj. destruct (negb initialized); [by intros []|].
  destruct (negb (bool_decide (ObjNamespace object = _))); [by intros []|]. intros [H _].
  destruct (bool_decide (ObjSpec object = ObjSpec old)) eqn:E; [by bool_prop|done].
Qed.

Lemma stored_decides object creator namespace log :
  stored_by handler object creator namespace log ->
  identity (ObjSpec object) creator = Ok tt /\ decision log namespace (ObjSpec object).
Proof.
  induction 1 as [req object log Hop Hobj Hex|req old object creator namespace log later _ IH Hop Ho Hobj Hex].
  - apply handle_admits in Hex as (_ & final & log1 & (object' & Hobj' & Hns & _ & _ & -> & Hi) & Hb); [|done..].
    rewrite Hobj in Hobj'. injection Hobj' as <-. split; [done|]. rewrite <- Hns.
    exact (sees_exec _ _ _ _ _ (Hsees object) Hb).
  - by rewrite (handle_update _ _ _ _ _ Hop Ho Hobj Hex).
Qed.
End Stored.

(** An acknowledgment settles the run its migration records as unresolved. *)
Definition acknowledges (log : alog) (namespace : string) (spec : RunAcknowledgmentSpec) : Prop :=
  exists migration, seen (GetMigration (namespace, (AckMigrationRef spec).1)) (Ok migration) log /\
    MetaUID (MigrationMeta migration) = (AckMigrationRef spec).2 /\ DeletionTimestamp (MigrationMeta migration) = None /\
    MigrationUnresolvedRun migration = Some (AckOperationID spec).

Lemma acknowledgment_sees o :
  sees (validateAcknowledgmentBinding o) (fun _ log => acknowledges log (ObjNamespace o) (ObjSpec o)).
Proof.
  unfold validateAcknowledgmentBinding. destruct (negb _); [|by apply sees_ret]. destruct (negb _); [|by apply sees_ret].
  apply sees_reading. intros migration. apply sees_ret. intros a log. guards. intros (Hd & Hu & H) Hs. bool_prop. apply present_none in Hd.
  destruct (MigrationUnresolvedRun migration) eqn:E; [|done]. apply guard_ok in H as [H _]. bool_prop. subst. by exists migration.
Qed.

(** C31: A stored decision was made by the person it names, about what the API
    server answered when it was made, and is not changed afterwards. Whatever
    the API server answers, every approval of a schema plan or a migration
    plan, and every acknowledgment of a run, that was created and updated
    through the webhook carries the identity of whoever created it, and the
    webhook that let it be created had read, in the namespace of that request
    and while it decided it, the plan and the resource it names as it names
    them: the resource's current plan, by identity and fingerprint, computed
    from the source, the realm, the history, the policy and the execution in
    force, and waiting for the decision (for an acknowledgment: the migration
    that records the run as unresolved). *)
Theorem stored_decisions_hold (execution : Execution) (distinct : bool) :
  (forall o creator namespace log,
     stored_by (ApprovalHandler IsStatusConditionTrue UnmarshalStrict execution distinct false) o creator namespace log ->
     authentic (Approver (ObjSpec o)) creator /\ schema_decision log execution distinct namespace (ObjSpec o)) /\
  (forall o creator namespace log,
     stored_by (MigrationApprovalHandler IsStatusConditionTrue UnmarshalStrict execution distinct false) o creator namespace log ->
     authentic (Approver (ObjSpec o)) creator /\ migration_decision log execution distinct namespace (ObjSpec o)) /\
  (forall o creator namespace log,
     stored_by (RunAcknowledgmentHandler false) o creator namespace log ->
     authentic (AcknowledgedBy (ObjSpec o)) creator /\ acknowledges log namespace (ObjSpec o)).
Proof.
  split_and!; intros o creator namespace log H.
  - apply (stored_decides _ _ _ _ (fun log => schema_decision log execution distinct) (validateBinding_sees execution distinct)) in H as [Hi Hd].
    by apply stamped_authentic in Hi as [Hi _].
  - apply (stored_decides _ _ _ _ (fun log => migration_decision log execution distinct) (validateMigrationBinding_sees execution distinct)) in H as [Hi Hd].
    by apply stamped_authentic in Hi as [Hi _].
  - apply (stored_decides _ _ _ _ acknowledges acknowledgment_sees) in H as [Hi Hd]. by apply stamped_authentic in Hi as [Hi _].
Qed.
End Facts.
