(* ===== verification/SpecWriter.v ===== *)
(** * Who last wrote the desired state (packages [internal/admission],
    [internal/desiredspec])

    The webhook that records, in two reserved annotations, the authenticated
    identity that created a PtahSchema or a PtahMigration or last changed its
    spec other than [spec.suspend]. A request's objects are the views
    [encoding/json] decodes of them, [None] when it does not. The spec is
    decoded into [any]: an object, whose fields the code looks at, or another
    value; the values themselves are only compared. *)
From stdpp Require Import base list gmap strings.
From Stdlib Require Import ZArith Lia Ascii.
From S2P Require Import Prelude GoStrings Fingerprint PlanStore KubeMeta SourceContent SourceSnapshot SourceBinding SourcePolicy.
From S2P Require Import ApprovalAdmission ApprovalProofs.
Local Open Scope go_scope.
Local Open Scope Z_scope.

Section SpecWriter.
Context {value : Type} `{EqDecision value}.

(** ** The desired state *)

Inductive any : Type := Fields (m : gmap string value) | Value (v : value).
#[export] Instance any_eq_dec : EqDecision any.
Proof. solve_decision. Defined.

Definition WithoutSuspend (spec : any) : any :=
  match spec with
  | Fields m => Fields (delete "suspend" m)
  | Value v => Value v
  end.

(** ** The webhook *)

(** [specWriterView]; a nil map of annotations is [None]. *)
Record specWriterView : Type := { ViewAnnotations : option (gmap string string); ViewSpec : any }.

Record SpecRequest : Type := {
  SpecOperation : Operation;
  SpecUser : UserInfo;
  SpecObject : option specWriterView;
  SpecOldObject : option specWriterView;
}.

(** A JSON patch operation. The value added is a string or a map of them. *)
Inductive patch : Type :=
| AddMap (path : string) (m : gmap string string)
| Add (path : string) (v : string)
| Remove (path : string).

Inductive SpecResponse : Type :=
| SpecAllowed
| SpecPatched (ops : list patch)
| SpecDenied
| SpecErrored (code : Z).

Definition specWriterAnnotations : list string := [LastSpecWriterUsernameAnnotation; LastSpecWriterUIDAnnotation].

Definition annotations_of (v : specWriterView) : gmap string string := default ∅ (ViewAnnotations v).

(** The reserved keys the stored object has. *)
Definition carried (stored : gmap string string) : gmap string string :=
  foldr (fun key values => match stored !! key with Some v => <[key := v]> values | None => values end) ∅ specWriterAnnotations.

Definition requester (user : UserInfo) : gmap string string :=
  let values := {[ LastSpecWriterUsernameAnnotation := trim_space (Username user) ]} in
  let uid := trim_space (UserUID user) in
  if empty uid then values else <[LastSpecWriterUIDAnnotation := uid]> values.

(** [None] when an object does not decode. *)
Definition specWriterValues (req : SpecRequest) : option (gmap string string) :=
  match SpecOperation req with
  | Update =>
      match SpecObject req, SpecOldObject req with
      | Some current, Some stored =>
          if bool_decide (WithoutSuspend (ViewSpec current) = WithoutSuspend (ViewSpec stored))
          then Some (carried (annotations_of stored)) else Some (requester (SpecUser req))
      | _, _ => None
      end
  | _ => Some (requester (SpecUser req))
  end.

(** [strings.NewReplacer("~", "~0", "/", "~1")]: the escape of a JSON pointer. *)
Fixpoint pointer_escape (s : string) : string :=
  match s with
  | EmptyString => EmptyString
  | String a s' =>
      if bool_decide (a = "~"%char) then "~0" +:+ pointer_escape s'
      else if bool_decide (a = "/"%char) then "~1" +:+ pointer_escape s'
      else String a (pointer_escape s')
  end.
Definition annotations_path : string := "/metadata/annotations".
Definition annotation_path (key : string) : string := annotations_path +:+ "/" +:+ pointer_escape key.

Definition patch_of (want have : gmap string string) (key : string) : list patch :=
  match want !! key, have !! key with
  | Some wanted, Some present => if bool_decide (present = wanted) then [] else [Add (annotation_path key) wanted]
  | Some wanted, None => [Add (annotation_path key) wanted]
  | None, Some _ => [Remove (annotation_path key)]
  | None, None => []
  end.

Definition specWriterResponse (req : SpecRequest) : SpecResponse :=
  match SpecOperation req with
  | OtherOperation => SpecDenied
  | _ =>
      match specWriterValues req with
      | None => SpecErrored 400
      | Some want =>
          match SpecObject req with
          | None => SpecErrored 400
          | Some current =>
              match ViewAnnotations current with
              | None => if bool_decide (want = ∅) then SpecAllowed else SpecPatched [AddMap annotations_path want]
              | Some have =>
                  match specWriterAnnotations ≫= patch_of want have with
                  | [] => SpecAllowed
                  | ops => SpecPatched ops
                  end
              end
          end
      end
  end.

(** ** What the API server stores

    The patch a JSON patch operation denotes, for the paths of annotations: a
    pointer's last token names the key, with its escapes undone. *)

Fixpoint pointer_unescape (s : string) : string :=
  match s with
  | String "~"%char (String c s') =>
      if bool_decide (c = "0"%char) then String "~"%char (pointer_unescape s')
      else if bool_decide (c = "1"%char) then String "/"%char (pointer_unescape s')
      else String "~"%char (String c (pointer_unescape s'))
  | String a s' => String a (pointer_unescape s')
  | EmptyString => EmptyString
  end.

Definition pointer_key (path : string) : option string :=
  token ← cut_prefix (annotations_path +:+ "/") path; Some (pointer_unescape token).

(** An operation on a path it does not apply to fails. *)
Definition apply_patch (op : patch) (annotations : option (gmap string string)) : option (option (gmap string string)) :=
  match op with
  | AddMap path m => if bool_decide (path = annotations_path) then Some (Some m) else None
  | Add path v => m ← annotations; key ← pointer_key path; Some (Some (<[key := v]> m))
  | Remove path => m ← annotations; key ← pointer_key path; if bool_decide (is_Some (m !! key)) then Some (Some (delete key m)) else None
  end.

Fixpoint apply_patches (ops : list patch) (annotations : option (gmap string string)) : option (option (gmap string string)) :=
  match ops with
  | [] => Some annotations
  | op :: rest => annotations ← apply_patch op annotations; apply_patches rest annotations
  end.

(** The object an admitted request stores: the submitted one, patched. *)
Definition admitted (req : SpecRequest) : option specWriterView :=
  current ← SpecObject req;
  match specWriterResponse req with
  | SpecAllowed => Some current
  | SpecPatched ops => a ← apply_patches ops (ViewAnnotations current); Some {| ViewAnnotations := a; ViewSpec := ViewSpec current |}
  | SpecDenied | SpecErrored _ => None
  end.

(** The writes an object has been through: a create and any number of
    updates, each admitted, with whoever last changed the desired state. *)
Inductive written : specWriterView -> UserInfo -> Prop :=
| written_create user object stored :
    admitted {| SpecOperation := Create; SpecUser := user; SpecObject := Some object; SpecOldObject := None |} = Some stored ->
    written stored user
| written_update old writer user object stored :
    written old writer ->
    admitted {| SpecOperation := Update; SpecUser := user; SpecObject := Some object; SpecOldObject := Some old |} = Some stored ->
    written stored (if bool_decide (WithoutSuspend (ViewSpec object) = WithoutSuspend (ViewSpec old)) then writer else user).
End SpecWriter.

(** ** Four eyes

    The two reserved annotations name whoever last changed the desired state,
    whatever a request carried; so an approval the four-eyes control admits
    is another person's. *)

(** ** The patch *)

(** What a key is patched to. *)
Definition put_key (want : gmap string string) (key : string) (have : gmap string string) : gmap string string :=
  match want !! key with Some v => <[key := v]> have | None => delete key have end.

Lemma reserved_pointer key : In key specWriterAnnotations -> pointer_key (annotation_path key) = Some key.
Proof. intros [<-|[<-|[]]]; vm_compute; reflexivity. Qed.

Lemma apply_patch_of want have now key rest :
  In key specWriterAnnotations -> now !! key = have !! key ->
  apply_patches (patch_of want have key ++ rest) (Some now) = apply_patches rest (Some (put_key want key now)).
Proof.
  intros Hkey Hnow. pose proof (reserved_pointer key Hkey) as Hp. unfold patch_of, put_key.
  destruct (want !! key) as [w|], (have !! key) as [h|] eqn:Eh; [case_bool_decide| | |]; cbn [app apply_patches apply_patch mbind option_bind];
    rewrite ?Hp; cbn [mbind option_bind]; rewrite ?Hnow, ?bool_decide_eq_true_2 by done; cbn [mbind option_bind]; try done.
  - subst. by rewrite insert_id.
  - by rewrite delete_id.
Qed.

(** The reserved keys, as the webhook leaves them, and every other key as the
    request carried it. *)
Definition left_with (want have : gmap string string) : gmap string string :=
  put_key want LastSpecWriterUIDAnnotation (put_key want LastSpecWriterUsernameAnnotation have).

Lemma put_key_lookup want key have k : put_key want key have !! k = if bool_decide (k = key) then want !! key else have !! k.
Proof.
  unfold put_key. case_bool_decide as Hk; [subst|].
  - destruct (want !! key); by simplify_map_eq.
  - destruct (want !! key); by simplify_map_eq.
Qed.

Section Writers.
Context {value : Type} `{EqDecision value}.
Implicit Types (req : SpecRequest (value := value)) (view : specWriterView (value := value)).

(** A map of reserved keys only. *)
Definition only_reserved (want : gmap string string) : Prop :=
  forall k, k <> LastSpecWriterUsernameAnnotation -> k <> LastSpecWriterUIDAnnotation -> want !! k = None.

Lemma requester_reserved user : only_reserved (requester user).
Proof. intros k Hu Hi. unfold requester. destruct (empty _); by rewrite ?lookup_insert_ne, lookup_singleton_ne by done. Qed.

Lemma carried_lookup stored k : In k specWriterAnnotations -> carried stored !! k = stored !! k.
Proof.
  unfold carried. cbn [specWriterAnnotations foldr].
  destruct (stored !! LastSpecWriterUIDAnnotation) eqn:Ei, (stored !! LastSpecWriterUsernameAnnotation) eqn:Eu;
    intros [<-|[<-|[]]]; rewrite ?Ei, ?Eu; by simplify_map_eq.
Qed.

Lemma carried_reserved stored : only_reserved (carried stored).
Proof.
  intros k Hu Hi. unfold carried. cbn [specWriterAnnotations foldr].
  destruct (stored !! LastSpecWriterUIDAnnotation), (stored !! LastSpecWriterUsernameAnnotation);
    by rewrite ?lookup_insert_ne, lookup_empty by done.
Qed.

Lemma values_reserved req want : specWriterValues req = Some want -> only_reserved want.
Proof.
  unfold specWriterValues. destruct (SpecOperation req), (SpecObject req), (SpecOldObject req); try case_bool_decide;
    intros [= <-]; auto using requester_reserved, carried_reserved.
Qed.

Lemma apply_ops want have :
  apply_patches (specWriterAnnotations ≫= patch_of want have) (Some have) = Some (Some (left_with want have)).
Proof.
  cbn [specWriterAnnotations mbind list_bind]. rewrite apply_patch_of by (done || by left). rewrite apply_patch_of; [done|by right; left|].
  rewrite put_key_lookup. by rewrite bool_decide_eq_false_2 by done.
Qed.

Lemma left_with_empty want : only_reserved want -> left_with want ∅ = want.
Proof.
  intros Hr. apply map_eq. intros k. unfold left_with. rewrite !put_key_lookup. repeat case_bool_decide; subst; [done..|].
  rewrite lookup_empty. symmetry. by apply Hr.
Qed.

(** An admitted request stores the submitted spec, the annotations it carried
    and, under the reserved keys, what the webhook wants. *)
Lemma admitted_stores req current stored want :
  SpecObject req = Some current -> specWriterValues req = Some want -> admitted req = Some stored ->
  ViewSpec stored = ViewSpec current /\ annotations_of stored = left_with want (annotations_of current).
Proof.
  intros Hc Hw Ha. pose proof (values_reserved _ _ Hw) as Hr. unfold admitted in Ha. rewrite Hc in Ha. cbn [mbind option_bind] in Ha.
  assert (specWriterResponse req = SpecDenied \/ specWriterResponse req =
    match ViewAnnotations current with
    | None => if bool_decide (want = ∅) then SpecAllowed else SpecPatched [AddMap annotations_path want]
    | Some have => match specWriterAnnotations ≫= patch_of want have with [] => SpecAllowed | ops => SpecPatched ops end
    end) as [Hresp|Hresp]; [|by rewrite Hresp in Ha|].
  { unfold specWriterResponse. rewrite Hw, Hc. destruct (SpecOperation req); auto. }
  rewrite Hresp in Ha. unfold annotations_of. destruct (ViewAnnotations current) as [have|] eqn:Ea; cbn [default from_option id].
  - pose proof (apply_ops want have) as Hops. destruct (specWriterAnnotations ≫= patch_of want have) as [|op ops].
    + injection Hops as Hops. injection Ha as <-. by rewrite Ea.
    + rewrite Hops in Ha. by injection Ha as <-.
  - rewrite left_with_empty by done. case_bool_decide as He; [injection Ha as <-; by rewrite Ea, He|by injection Ha as <-].
Qed.

(** What the reserved annotations of an object say its writer is. *)
Definition names_writer (annotations : gmap string string) (writer : UserInfo) : Prop :=
  annotations !! LastSpecWriterUsernameAnnotation = Some (trim_space (Username writer)) /\
  str_or_empty (annotations !! LastSpecWriterUIDAnnotation) = trim_space (UserUID writer).

Lemma left_with_requester user have : names_writer (left_with (requester user) have) user.
Proof.
  unfold names_writer, left_with. rewrite !put_key_lookup. cbn [bool_decide decide_rel].
  unfold requester, empty. split.
  - rewrite bool_decide_eq_false_2, bool_decide_eq_true_2 by done. case_bool_decide; by simplify_map_eq.
  - rewrite bool_decide_eq_true_2 by done. case_bool_decide as He; simplify_map_eq; [|done]. by rewrite He.
Qed.

Lemma left_with_carried stored have writer : names_writer stored writer -> names_writer (left_with (carried stored) have) writer.
Proof.
  intros [Hu Hi]. unfold names_writer, left_with. rewrite !put_key_lookup.
  rewrite (bool_decide_eq_false_2 (LastSpecWriterUsernameAnnotation = LastSpecWriterUIDAnnotation)), !bool_decide_eq_true_2 by done.
  rewrite !carried_lookup by (simpl; auto). done.
Qed.

(** The recorded writer is the last one who changed the desired state. *)
Lemma written_names view writer : written view writer -> names_writer (annotations_of view) writer.
Proof.
  induction 1 as [user object stored Ha|old writer user object stored _ IH Ha].
  - eapply admitted_stores in Ha as [_ ->]; [|done|done]. apply left_with_requester.
  - case_bool_decide as Hs.
    + eapply (admitted_stores _ object stored (carried (annotations_of old))) in Ha as [_ ->]; [by apply left_with_carried|done|].
      unfold specWriterValues. cbn [SpecOperation SpecObject SpecOldObject]. by rewrite bool_decide_eq_true_2.
    + eapply (admitted_stores _ object stored (requester user)) in Ha as [_ ->]; [apply left_with_requester|done|].
      unfold specWriterValues. cbn [SpecOperation SpecObject SpecOldObject]. by rewrite bool_decide_eq_false_2.
Qed.
End Writers.

(** ** Four eyes *)

(** One authenticated identity: the user name and the UID. *)
Definition same_identity (a b : UserInfo) : Prop :=
  trim_space (Username a) = trim_space (Username b) /\ trim_space (UserUID a) = trim_space (UserUID b).

Lemma refuse_self annotations approver writer user :
  refuseSelfApproval annotations approver = Ok tt -> names_writer annotations writer ->
  IdUsername approver = trim_space (Username user) -> IdUID approver = trim_space (UserUID user) -> ~ same_identity user writer.
Proof.
  intros H [Hu Hi] Hau Hai [Hs1 Hs2]. unfold refuseSelfApproval in H. rewrite Hu, Hi, Hau, Hai in H.
  cbn [str_or_empty default from_option id] in H. rewrite trim_space_idem, <- Hs1, <- Hs2 in H.
  destruct (empty _); [done|]. by rewrite !bool_decide_eq_true_2 in H by done.
Qed.

Section FourEyes.
Context {Conditions : Type} (IsStatusConditionTrue : Conditions -> string -> bool) (UnmarshalStrict : list Z -> option Policy).
Abbreviation alog := (list (entry (admissionE (Conditions := Conditions)))).

(** The annotations of the resource a verdict read. *)
Definition owner_annotations (log : alog) (annotations : gmap string string) : Prop :=
  (exists key schema, seen (GetSchema key) (Ok schema) log /\ annotations = Annotations (SchemaMeta schema)) \/
  (exists key migration, seen (GetMigration key) (Ok migration) log /\ annotations = Annotations (MigrationMeta migration)).

Lemma passed_identity Mutate req r final :
  passed stampIdentity identityMatchesRequest Mutate req r final ->
  IdUsername (Approver (ObjSpec final)) = trim_space (Username (ReqUser req)) /\
  IdUID (Approver (ObjSpec final)) = trim_space (UserUID (ReqUser req)).
Proof.
  intros (object & _ & _ & _ & H). destruct Mutate.
  - destruct H as [_ [now ->]]. done.
  - destruct H as (_ & -> & Hi). apply stamped_authentic in Hi as [(Hu & Hid & _) _]. done.
Qed.

(** C30: Nobody approves their own change. With the four-eyes control on,
    whatever the API server answers, an approval of a schema plan or of a
    migration plan that either pass of the webhook admits is sent by another
    identity than the last one that changed the desired state of the resource
    the verdict read, across every create and update the spec-writer webhook
    admitted: forged annotations, edits of other metadata and suspending or
    resuming the resource do not change who that is. *)
Theorem four_eyes {value : Type} `{EqDecision value} (execution : Execution) (Mutate : bool) (req : Request ApprovalSpec)
    (r : Response ApprovalSpec) (log : alog) :
  ReqOperation req = Create -> admits r = true ->
  exec any_answer (ApprovalHandler IsStatusConditionTrue UnmarshalStrict execution true Mutate req) [] r log \/
  exec any_answer (MigrationApprovalHandler IsStatusConditionTrue UnmarshalStrict execution true Mutate req) [] r log ->
  exists annotations, owner_annotations log annotations /\
    forall (view : specWriterView (value := value)) writer, written view writer -> annotations_of view = annotations ->
      ~ same_identity (ReqUser req) writer.
Proof.
  intros Hop Hr [Hex|Hex].
  - apply handle_admits in Hex as (_ & final & log1 & [Hu Hi]%passed_identity & Hb); [|done..].
    apply (sees_exec _ _ _ _ _ (validateBinding_sees _ _ execution true final)) in Hb.
    destruct Hb as (plan & schema & current & binding & _ & Hs & _ & _ & _ & _ & _ & _ & Hself).
    exists (Annotations (SchemaMeta schema)). split; [left; eauto|]. intros view writer Hw Ha.
    eapply refuse_self; [by apply Hself| |done|done]. rewrite <- Ha. by apply written_names.
  - apply handle_admits in Hex as (_ & final & log1 & [Hu Hi]%passed_identity & Hb); [|done..].
    apply (sees_exec _ _ _ _ _ (validateMigrationBinding_sees _ _ execution true final)) in Hb.
    destruct Hb as (plan & migration & binding & artifact & _ & Hs & _ & _ & _ & _ & _ & _ & _ & Hself).
    exists (Annotations (MigrationMeta migration)). split; [right; eauto|]. intros view writer Hw Ha.
    eapply refuse_self; [by apply Hself| |done|done]. rewrite <- Ha. by apply written_names.
Qed.
End FourEyes.

(** ** A migration written by one person and approved by another *)

Definition alice : UserInfo := {| Username := "alice"; UserUID := "uid-a"; UserGroups := ["dev"] |}.
Definition bob : UserInfo := {| Username := "bob"; UserUID := "uid-b"; UserGroups := ["dba"; "dev"; "dba "] |}.

(** The manifest alice submits names bob as its writer; the webhook does not
    believe it. *)
Definition submitted : specWriterView (value := string) :=
  {| ViewAnnotations := Some {[ LastSpecWriterUsernameAnnotation := "bob"; "team" := "payments" ]};
     ViewSpec := Fields {[ "target" := "orders"; "suspend" := "true" ]} |}.
Definition sample_view : specWriterView (value := string) :=
  default submitted (admitted {| SpecOperation := Create; SpecUser := alice; SpecObject := Some submitted; SpecOldObject := None |}).
(** Bob resumes it, claiming it again. *)
Definition resumed : specWriterView (value := string) :=
  {| ViewAnnotations := Some {[ LastSpecWriterUsernameAnnotation := "bob"; LastSpecWriterUIDAnnotation := "uid-b" ]};
     ViewSpec := Fields {[ "target" := "orders" ]} |}.
Definition sample_view' : specWriterView (value := string) :=
  default submitted (admitted {| SpecOperation := Update; SpecUser := bob; SpecObject := Some resumed; SpecOldObject := Some sample_view |}).

Lemma sample_written : written sample_view' alice.
Proof.
  change alice with (if bool_decide (WithoutSuspend (ViewSpec resumed) = WithoutSuspend (ViewSpec sample_view)) then alice else bob).
  apply (written_update sample_view alice bob resumed); [apply (written_create alice submitted)|]; vm_compute; reflexivity.
Qed.

Definition sample_execution : Execution :=
  {| ExecStateVersion := 3; ExecPtahVersion := "v1.2.3"; ExecExecutorImage := "registry/ptah@sha256:00"; ExecProtocolVersion := 2 |}.
Definition sample_target : DatabaseTargetSpec := {| Engine := "postgres"; CoordinationKey := "orders"; RealmRef := None |}.
Definition sample_realm : string := Eval vm_compute in ok_or_empty (Fingerprint.Digest "shop" sample_target).
Definition sample_meta (name uid : string) (annotations : gmap string string) : ObjectMeta :=
  {| MetaName := name; GenerateName := EmptyString; MetaNamespace := "shop"; SelfLink := EmptyString; MetaUID := uid;
     ResourceVersion := "7"; MetaGeneration := 1; CreationTimestamp := Some 1; DeletionTimestamp := None;
     DeletionGracePeriodSeconds := None; Labels := ∅; Annotations := annotations; OwnerReferences := []; Finalizers := [];
     ManagedFields := [] |}.
Definition sample_policy : ConfigMap :=
  {| Meta := sample_meta "policy" "uid-policy" ∅; Immutable := Some true; ConfigData := {[ "policy.yaml" := "a: 1" ]}; BinaryData := ∅ |}.
Definition sample_plan : PtahMigrationPlan :=
  {| MPlanMeta := sample_meta "plan" "uid-plan" ∅; MPlanContractVersion := 1; MPlanMigrationRef := ("orders", "uid-m");
     MPlanFingerprint := "sha256:fp"; MPlanHistoryFingerprint := "sha256:history"; MPlanArtifactDigest := "sha256:artifact";
     MPlanSource := None; MPlanCoordinationDigest := sample_realm; MPlanTargetIdentityDigest := "sha256:target";
     MPlanVerificationPolicyUID := "uid-policy"; MPlanVerificationPolicyDigest := DigestBytes (bytes "a: 1");
     MPlanExecutionBindingID := "epoch"; MPlanStateVersion := 3; MPlanPtahVersion := "v1.2.3";
     MPlanExecutorImage := "registry/ptah@sha256:00"; MPlanProtocolVersion := 2 |}.
Definition sample_migration (annotations : gmap string string) : PtahMigration (Conditions := unit) :=
  {| MigrationMeta := sample_meta "orders" "uid-m" annotations; MigrationTarget := sample_target;
     MigrationSourcePolicyFrom := None;
     MigrationVerificationPolicyFrom := Some {| SelectorName := "policy"; SelectorKey := "policy.yaml"; SelectorOptional := None |};
     MigrationPhase := PhaseAwaitingApproval; MigrationConditions := tt; MigrationActiveOperation := None;
     MigrationPlanUID := Some "uid-plan"; MigrationHistory := Some ("sha256:history", "sha256:target");
     MigrationArtifact := Some {| ResolvedReference := "r/a@sha256:artifact"; AccessDigest := "sha256:artifact"; RegistryAuthFrom := None;
                                  PlainHTTP := false; CAFrom := None; Snapshot := None; Git := None |};
     MigrationConfigMap := None; MigrationSourcePolicy := None;
     MigrationExecutionBinding := Some {| BindingEpoch := "epoch"; BindingStateVersion := 3; BindingPtahVersion := "v1.2.3";
                                          BindingExecutorImage := "registry/ptah@sha256:00"; BindingProtocolVersion := 2 |};
     MigrationUnresolvedRun := None |}.
Definition sample_server (X : Type) (e : admissionE (Conditions := unit) X) : X :=
  match e with
  | GetMigrationPlan _ => Ok sample_plan
  | GetMigration _ => Ok (sample_migration (annotations_of sample_view'))
  | GetConfigMap _ => Ok sample_policy
  | GetSchemaPlan _ | GetSchema _ => Err ReadNotFound
  | ClockNow => 1700000000
  end.

Definition sample_request (user : UserInfo) : Request ApprovalSpec :=
  {| ReqOperation := Create; ReqNamespace := "shop"; ReqUID := "request"; ReqUser := user;
     ReqObject := Some {| ObjNamespace := "shop";
       ObjSpec := {| OwnerRef := ("orders", "uid-m"); PlanRef := ("plan", "uid-plan"); PlanFingerprint := "sha256:fp";
                     Approver := {| IdUsername := "carol"; IdUID := EmptyString; IdGroups := None |}; ApprovedAt := None;
                     MutationRequestUID := EmptyString |} |};
     ReqOldObject := None |}.
Definition sample_handler (user : UserInfo) : prog (admissionE (Conditions := unit)) (Response ApprovalSpec) :=
  MigrationApprovalHandler (fun _ _ => true) (fun _ => None) sample_execution true true (sample_request user).
Definition sample_run (user : UserInfo) := run (recording sample_server) (sample_handler user) [].

(** Alice's own approval is refused. *)
Example self_approval_refused : (sample_run alice).1 = Denied SelfApproval.
Proof. vm_compute. reflexivity. Qed.

Lemma four_eyes_witness :
  admits (sample_run bob).1 = true /\
  exists annotations, owner_annotations (sample_run bob).2 annotations /\
    forall (view : specWriterView (value := string)) writer, written view writer -> annotations_of view = annotations ->
      ~ same_identity bob writer.
Proof.
  assert (admits (sample_run bob).1 = true) as Ha by (vm_compute; reflexivity). split; [exact Ha|].
  apply (four_eyes (fun _ _ => true) (fun _ => None) sample_execution true (sample_request bob) (sample_run bob).1 (sample_run bob).2);
    [reflexivity|exact Ha|]. right. apply run_recording.
Defined.
