(* ===== verification/Cadence.v ===== *)
(** * The cadence of refreshes (controller/cadence.go and the deadlines of
    schema_controller.go, realm.go and read_request.go)

    A resource refreshes once an interval. The resources that share an
    interval take evenly spaced slots in it, in the order of their UIDs, and
    a refresh that started past its slot moves later onto it. A time is a
    number of nanoseconds since the epoch and a duration a number of
    nanoseconds; [None] is a nil [*metav1.Time]. *)
From stdpp Require Import base list gmap strings.
From Stdlib Require Import ZArith Lia.
From S2P Require Import Prelude GoStrings Fingerprint.
Local Open Scope go_scope.
Local Open Scope Z_scope.

Definition Millisecond : Z := 1000000.
Definition Second : Z := 1000 * Millisecond.
Definition Minute : Z := 60 * Second.

Definition defaultInterval : Z := 10 * Minute.
Definition defaultMigrationInterval : Z := 10 * Minute.
Definition defaultFailureRetry : Z := 30 * Second.
Definition maxLockContentionPoll : Z := 5 * Second.
Definition statusPatchRequeue : Z := Millisecond.
Definition dueRequeue : Z := Millisecond.
Definition realmRecheckCeiling : Z := Minute.

(** ** Deadlines *)

Definition due (next : option Z) (now : Z) : bool :=
  match next with None => true | Some t => negb (now <? t) end.

Definition until (next : option Z) (now : Z) : Z :=
  match next with
  | None => 0
  | Some t => if negb (now <? t) then 0 else t - now
  end.

(** The [RequeueAfter] of [requeueAtDeadline]. *)
Definition requeueAtDeadline (next : option Z) (now : Z) : Z :=
  let remaining := until next now in
  if remaining <=? 0 then dueRequeue else remaining.

Definition interval (spec : Z) : Z := if 0 <? spec then spec else defaultInterval.
Definition migrationInterval (spec : Z) : Z := if 0 <? spec then spec else defaultMigrationInterval.
Definition failureRetry (spec : Z) : Z := if 0 <? spec then spec else defaultFailureRetry.

Definition handoffDeadline (current : option Z) (now : Z) : option Z :=
  match current with
  | Some t => if now <? t then Some t else Some now
  | None => Some now
  end.

Definition cycleDeadline (current : option Z) (now interval : Z) : Z :=
  match current with
  | Some t => if now <? t then t else now + interval
  | None => now + interval
  end.

Definition realmBlockDeadline (current : option Z) (now interval : Z) : Z :=
  let interval := if (interval <=? 0) || (realmRecheckCeiling <? interval) then realmRecheckCeiling else interval in
  let bound := now + interval in
  match current with
  | Some t => if (now <? t) && negb (bound <? t) then t else bound
  | None => bound
  end.

(** ** Slots *)

(** Division and remainder of [int64] truncate. *)
Definition evenSlot (rank n : nat) (interval : Z) : Z := Z.quot interval (Z.of_nat n) * Z.of_nat rank.

Definition resolveDeadline (claimedAt interval slot : Z) : Z :=
  let next := claimedAt + interval in
  if interval <=? 0 then next else
  let past := Z.rem (next - slot) interval in
  let past := if past <? 0 then past + interval else past in
  if past <=? Z.quot interval 10 then next
  else next + Z.min (interval - past) (Z.quot interval 2).

Definition claimDeadline (current : option Z) (resolve mutating : bool) (claimedAt interval slot : Z) (slotted : bool) : option Z :=
  if resolve && slotted then Some (resolveDeadline claimedAt interval slot)
  else if resolve then Some (claimedAt + interval)
  else match current with
       | Some t => if negb mutating && (claimedAt <? t) then Some t else None
       | None => None
       end.

(** A resource as the cache lists it: its UID and its interval. *)
Inductive fleetE : Type -> Type :=
| ListSchemaIntervals : fleetE (option (list (string * Z)))
| ListMigrationIntervals : fleetE (option (list (string * Z))).

(** The other resources of one interval. *)
Definition same_period (uid : string) (period : Z) (items : list (string * Z)) : list string :=
  fst <$> filter (fun item => item.1 <> uid /\ item.2 = period) items.

(** [slices.Index] of a string that is in the list. *)
Fixpoint index_of (uid : string) (fleet : list string) : nat :=
  match fleet with
  | [] => 0
  | x :: rest => if bool_decide (x = uid) then 0 else S (index_of uid rest)
  end.

Definition slot_in (uid : string) (period : Z) (schemas migrations : list (string * Z)) : option Z :=
  let fleet := uid :: same_period uid period schemas ++ same_period uid period migrations in
  if (length fleet <? 2)%nat then None
  else Some (evenSlot (index_of uid (sort_strings fleet)) (length fleet) period).

(** The reader is configured. *)
Definition refreshSlot (uid : string) (period : Z) : prog fleetE (option Z) :=
  if (period <=? 0) || empty uid then Ret None else
  schemas <-- call ListSchemaIntervals;
  match schemas with
  | None => Ret None
  | Some schemas =>
      migrations <-- call ListMigrationIntervals;
      match migrations with
      | None => Ret None
      | Some migrations => Ret (slot_in uid period schemas migrations)
      end
  end.

(** * Properties *)

(** ** One refresh *)

(** How far past its slot an instant is. *)
Definition past_slot (t interval slot : Z) : Z := (t - slot) mod interval.

Lemma resolveDeadline_past claimedAt interval slot :
  0 < interval ->
  let past := past_slot claimedAt interval slot in
  resolveDeadline claimedAt interval slot =
    claimedAt + interval + (if past <=? interval / 10 then 0 else Z.min (interval - past) (interval / 2)).
Proof.
  intros Hi past. unfold resolveDeadline. rewrite (proj2 (Z.leb_gt interval 0)) by lia.
  rewrite !Z.quot_div_nonneg by lia.
  assert ((if Z.rem (claimedAt + interval - slot) interval <? 0
           then Z.rem (claimedAt + interval - slot) interval + interval
           else Z.rem (claimedAt + interval - slot) interval) = past) as ->.
  { subst past. unfold past_slot. pose proof (Z.mod_pos_bound (claimedAt - slot) interval Hi).
    pose proof (Z.quot_rem' (claimedAt + interval - slot) interval) as Hq.
    destruct (Z.ltb_spec (Z.rem (claimedAt + interval - slot) interval) 0) as [Hneg|Hpos].
    - pose proof (Z.rem_bound_abs (claimedAt + interval - slot) interval).
      apply (Z.mod_unique_pos _ _ (Z.quot (claimedAt + interval - slot) interval - 2)); lia.
    - pose proof (Z.rem_bound_abs (claimedAt + interval - slot) interval).
      apply (Z.mod_unique_pos _ _ (Z.quot (claimedAt + interval - slot) interval - 1)); lia. }
  destruct (past <=? interval / 10); lia.
Qed.

Lemma past_slot_shift t k interval slot : 0 < interval -> past_slot (t + k * interval) interval slot = past_slot t interval slot.
Proof. intros Hi. unfold past_slot. replace (t + k * interval - slot) with (t - slot + k * interval) by lia. apply Z.mod_add. lia. Qed.

(** Where a deadline lands on the circle of the interval. *)
Lemma past_slot_add t d interval slot :
  0 < interval -> 0 <= d ->
  past_slot (t + d) interval slot = (past_slot t interval slot + d) mod interval.
Proof. intros Hi Hd. unfold past_slot. rewrite Zplus_mod_idemp_l. f_equal. lia. Qed.

Lemma resolveDeadline_lands claimedAt interval slot :
  1 < interval ->
  let past := past_slot claimedAt interval slot in
  past_slot (resolveDeadline claimedAt interval slot) interval slot =
    if past <=? interval / 10 then past else if interval - past <=? interval / 2 then 0 else past + interval / 2.
Proof.
  intros Hi past. assert (0 < interval) as Hi' by lia. rewrite resolveDeadline_past by lia. fold past.
  pose proof (Z.mod_pos_bound (claimedAt - slot) interval Hi') as Hp. fold (past_slot claimedAt interval slot) in Hp. fold past in Hp.
  replace (claimedAt + interval) with (claimedAt + 1 * interval) by lia.
  destruct (Z.leb_spec past (interval / 10)).
  - rewrite Z.add_0_r. by apply past_slot_shift.
  - assert (0 < interval / 2) by (apply Z.div_str_pos; lia).
    rewrite past_slot_add, past_slot_shift by lia. fold past.
    destruct (Z.leb_spec (interval - past) (interval / 2)).
    + rewrite Z.min_l by lia. replace (past + (interval - past)) with (1 * interval) by lia. apply Z_mod_mult.
    + rewrite Z.min_r by lia. apply Z.mod_small. lia.
Qed.

(** ** The fleet *)

(** The resources of one interval, in the order of the lists. *)
Definition fleet_of (period : Z) (items : list (string * Z)) : list string := fst <$> filter (fun item => item.2 = period) items.

Lemma fleet_perm uid period (items : list (string * Z)) :
  NoDup (fst <$> items) -> (uid, period) ∈ items -> uid :: same_period uid period items ≡ₚ fleet_of period items.
Proof.
  intros Hnd Hin. apply list_elem_of_split in Hin as (l1 & l2 & ->).
  rewrite fmap_app, fmap_cons in Hnd. apply NoDup_app in Hnd as (_ & Hdis & Hnd2). apply NoDup_cons in Hnd2 as [Hn2 _].
  assert (forall l, uid ∉ fst <$> l -> same_period uid period l = fleet_of period l) as Hsame.
  { intros l Hl. unfold same_period, fleet_of. f_equal. induction l as [|[u p] l IH]; [done|].
    rewrite fmap_cons, not_elem_of_cons in Hl. destruct Hl as [Hne Hl]. rewrite !filter_cons, IH by done. cbn.
    repeat case_decide; naive_solver. }
  unfold same_period, fleet_of in *. rewrite !filter_app, !fmap_app, !filter_cons. cbn [fst snd].
  rewrite decide_False by naive_solver. rewrite decide_True by done. rewrite fmap_cons, (Hsame l1), (Hsame l2); [by rewrite Permutation_middle|done|].
  intros H1. apply (Hdis _ H1). by left.
Qed.

Lemma same_period_app uid period l1 l2 : same_period uid period (l1 ++ l2) = same_period uid period l1 ++ same_period uid period l2.
Proof. unfold same_period. by rewrite filter_app, fmap_app. Qed.

Lemma index_of_lookup uid l : uid ∈ l -> l !! index_of uid l = Some uid.
Proof.
  induction l as [|x l IH]; intros Hin; [by apply elem_of_nil in Hin|]. cbn [index_of]. case_bool_decide as Hx; [by subst|].
  cbn. apply IH. apply elem_of_cons in Hin as [->|Hin]; [done|exact Hin].
Qed.

(** A resource's slot, by its rank among the resources of its interval. *)
Lemma slot_in_rank uid period schemas migrations :
  NoDup (fst <$> schemas ++ migrations) -> (uid, period) ∈ schemas ++ migrations ->
  let fleet := sort_strings (fleet_of period (schemas ++ migrations)) in
  (1 < length fleet)%nat ->
  slot_in uid period schemas migrations = Some (evenSlot (index_of uid fleet) (length fleet) period) /\
  fleet !! index_of uid fleet = Some uid.
Proof.
  intros Hnd Hin fleet Hlen. pose proof (fleet_perm _ _ _ Hnd Hin) as Hp. rewrite same_period_app in Hp.
  assert (sort_strings (uid :: same_period uid period schemas ++ same_period uid period migrations) = fleet) as Hs.
  { apply sorted_perm_eq; [apply sort_strings_sorted..|]. unfold fleet. rewrite <- !sort_strings_perm. exact Hp. }
  assert (length (uid :: same_period uid period schemas ++ same_period uid period migrations) = length fleet) as Hl.
  { rewrite Hp. unfold fleet. by rewrite <- sort_strings_perm. }
  split.
  - unfold slot_in. rewrite Hs, Hl. by rewrite (proj2 (Nat.ltb_ge _ _)) by lia.
  - apply index_of_lookup. unfold fleet. rewrite <- sort_strings_perm, <- Hp. by left.
Qed.

Lemma evenSlot_rank i n period :
  0 <= period -> (0 < n)%nat -> evenSlot i n period = period / Z.of_nat n * Z.of_nat i.
Proof. intros. unfold evenSlot. by rewrite Z.quot_div_nonneg by lia. Qed.

Lemma evenSlot_apart i j n period :
  0 < period -> (i < j < n)%nat ->
  period / Z.of_nat n <= evenSlot j n period - evenSlot i n period <= period - period / Z.of_nat n.
Proof.
  intros Hp Hij. rewrite !evenSlot_rank by lia. set (q := period / Z.of_nat n).
  assert (0 <= q) by (apply Z.div_pos; lia). assert (q * Z.of_nat n <= period) by (pose proof (Z.mul_div_le period (Z.of_nat n)); lia).
  assert (q * (Z.of_nat j - Z.of_nat i) <= q * (Z.of_nat n - 1)) by (apply Z.mul_le_mono_nonneg_l; lia).
  assert (q * 1 <= q * (Z.of_nat j - Z.of_nat i)) by (apply Z.mul_le_mono_nonneg_l; lia). lia.
Qed.

(** C37: Refreshes keep their interval and spread over it. A Resolve sets the
    next refresh at least an interval and at most an interval and a half
    later; of two refreshes in a row that start within a tenth of the
    interval after their deadline, one leaves its deadline within a tenth of
    the interval past the resource's slot, so a resource reaches its slot
    within two cycles wherever it started; and, of the [n] resources that
    share an interval, any two have different ranks below [n] and as slots
    those multiples of the [n]th part of the interval (in whole nanoseconds),
    so their slots are at least that part apart on both sides of the circle. *)
Theorem refreshes_spread (I slot claimed latency : Z) (schemas migrations : list (string * Z)) (a b : string) :
  1 < I -> 0 <= latency <= I / 10 -> NoDup (fst <$> schemas ++ migrations) ->
  (a, I) ∈ schemas ++ migrations -> (b, I) ∈ schemas ++ migrations -> a <> b ->
  let deadline := resolveDeadline claimed I slot in
  let next := resolveDeadline (deadline + latency) I slot in
  claimed + I <= deadline <= claimed + I + I / 2 /\
  (past_slot deadline I slot <= I / 10 \/ past_slot next I slot <= I / 10) /\
  let n := Z.of_nat (length (fleet_of I (schemas ++ migrations))) in
  exists ra rb, 0 <= ra < n /\ 0 <= rb < n /\ ra <> rb /\
    slot_in a I schemas migrations = Some (I / n * ra) /\ slot_in b I schemas migrations = Some (I / n * rb) /\
    I / n <= Z.abs (I / n * ra - I / n * rb) <= I - I / n.
Proof.
  intros HI Hlat Hnd Ha Hb Hab deadline next. split; [|split].
  - unfold deadline. rewrite resolveDeadline_past by lia. pose proof (Z.mod_pos_bound (claimed - slot) I ltac:(lia)) as Hp.
    fold (past_slot claimed I slot) in Hp. pose proof (Z.div_pos I 2 ltac:(lia) ltac:(lia)).
    destruct (Z.leb_spec (past_slot claimed I slot) (I / 10)); lia.
  - unfold next. rewrite resolveDeadline_lands by done. rewrite past_slot_add by lia. unfold deadline. rewrite resolveDeadline_lands by done.
    pose proof (Z.mod_pos_bound (claimed - slot) I ltac:(lia)) as Hp. fold (past_slot claimed I slot) in Hp.
    set (past := past_slot claimed I slot) in *. assert (I / 10 * 10 <= I) by (pose proof (Z.mul_div_le I 10); lia).
    pose proof (Z.mul_div_le I 2 ltac:(lia)). pose proof (Z.mul_succ_div_gt I 2 ltac:(lia)). pose proof (Z.div_pos I 10 ltac:(lia) ltac:(lia)).
    destruct (Z.leb_spec past (I / 10)); [by left|]. destruct (Z.leb_spec (I - past) (I / 2)); [left; lia|]. right.
    destruct (Z.lt_ge_cases (past + I / 2 + latency) I).
    + rewrite (Z.mod_small (past + I / 2 + latency)) by lia.
      destruct (Z.leb_spec (past + I / 2 + latency) (I / 10)); [lia|].
      destruct (Z.leb_spec (I - (past + I / 2 + latency)) (I / 2)); lia.
    + assert ((past + I / 2 + latency) mod I = past + I / 2 + latency - I) as Hm by (symmetry; apply (Z.mod_unique_pos _ _ 1); lia).
      rewrite Hm. destruct (Z.leb_spec (past + I / 2 + latency - I) (I / 10)); lia.
  - set (fleet := sort_strings (fleet_of I (schemas ++ migrations))).
    assert (Hmem : forall u, (u, I) ∈ schemas ++ migrations -> u ∈ fleet).
    { intros u Hu. unfold fleet. rewrite <- sort_strings_perm, <- (fleet_perm _ _ _ Hnd Hu). by left. }
    assert (1 < length fleet)%nat as Hlen.
    { destruct fleet as [|x [|y l]]; cbn; [..|lia]; pose proof (Hmem a Ha) as H1; pose proof (Hmem b Hb) as H2;
        rewrite ?elem_of_nil, ?list_elem_of_singleton in H1, H2; naive_solver. }
    destruct (slot_in_rank _ _ _ _ Hnd Ha Hlen) as [-> Hla]. destruct (slot_in_rank _ _ _ _ Hnd Hb Hlen) as [-> Hlb].
    fold fleet in Hla, Hlb |- *. pose proof (lookup_lt_Some _ _ _ Hla). pose proof (lookup_lt_Some _ _ _ Hlb).
    assert (index_of a fleet <> index_of b fleet) as Hne by (intros E; rewrite E in Hla; congruence).
    assert (length (fleet_of I (schemas ++ migrations)) = length fleet) as -> by (unfold fleet; by rewrite <- sort_strings_perm).
    cbv zeta. exists (Z.of_nat (index_of a fleet)), (Z.of_nat (index_of b fleet)).
    rewrite <- !evenSlot_rank by lia. split; [lia|]. split; [lia|]. split; [lia|]. split; [done|]. split; [done|].
    destruct (Nat.lt_total (index_of a fleet) (index_of b fleet)) as [Hlt|[E|Hlt]]; [|done|].
    + pose proof (evenSlot_apart (index_of a fleet) (index_of b fleet) (length fleet) I). lia.
    + pose proof (evenSlot_apart (index_of b fleet) (index_of a fleet) (length fleet) I). lia.
Qed.

Lemma refreshes_spread_witness :
  let schemas := [("uid-c", 600); ("uid-a", 600); ("uid-x", 60)] in
  let migrations := [("uid-b", 600)] in
  slot_in "uid-a" 600 schemas migrations = Some 0 /\ slot_in "uid-b" 600 schemas migrations = Some 200 /\
  (past_slot (resolveDeadline 130 600 0) 600 0 <= 600 / 10 \/
   past_slot (resolveDeadline (resolveDeadline 130 600 0 + 20) 600 0) 600 0 <= 600 / 10).
Proof.
  split; [vm_compute; reflexivity|]. split; [vm_compute; reflexivity|].
  apply (refreshes_spread 600 0 130 20 [("uid-c", 600); ("uid-a", 600); ("uid-x", 60)] [("uid-b", 600)] "uid-a" "uid-b");
    [lia|split; vm_compute; discriminate|apply (bool_decide_eq_true_1 _); vm_compute; reflexivity
    |apply (bool_decide_eq_true_1 _); vm_compute; reflexivity|apply (bool_decide_eq_true_1 _); vm_compute; reflexivity|done].
Defined.
