(* ===== verification/RealmCensus.v ===== *)
(** * Who may claim a realm (controller/realm.go)

    Before a resource claims an operation it takes a census of its realm: the
    PtahSchemas and PtahMigrations, suspended and deleted ones aside, whose
    spec derives the same coordination digest, in the namespaces the realm
    admits. Two claimants of one realm are both refused until the realm and
    every claimant agree to share it. The reads go to the manager's cache,
    whose index lists the resources of a namespace by the digest of their
    spec. *)
From stdpp Require Import base list gmap strings.
From Stdlib Require Import ZArith Lia.
From S2P Require Import Prelude GoStrings Sha256 Json Fingerprint.
Local Open Scope go_scope.
Local Open Scope Z_scope.

Definition RealmSharingShared : string := "Shared".

(** The fields of a [PtahRealm] the census reads. *)
Record PtahRealm : Type := { RealmNamespaces : list string; RealmEngine : string; RealmSharing : string }.

(** A PtahSchema or a PtahMigration, as the census reads it. *)
Record Claimant : Type := {
  ClaimantUID : string;
  ClaimantNamespace : string;
  ClaimantDeleting : bool;
  ClaimantSuspend : bool;
  ClaimantTarget : DatabaseTargetSpec;
  SharedRealm : bool;
}.
#[export] Instance DatabaseTargetSpec_eq_dec : EqDecision DatabaseTargetSpec.
Proof. solve_decision. Defined.
#[export] Instance Claimant_eq_dec : EqDecision Claimant.
Proof. solve_decision. Defined.

Record realmCensus : Type := { Schemas : nat; Migrations : nat; Undeclared : nat }.
Definition total (c : realmCensus) : nat := (Schemas c + Migrations c)%nat.

Record realmVerdict : Type := {
  VerdictNamespace : string;
  VerdictRealm : string;
  Authorized : bool;
  Exclusive : bool;
  Census : realmCensus;
}.

Definition conflict (v : realmVerdict) : bool :=
  if negb (Authorized v) then false
  else (1 <? total (Census v))%nat && (Exclusive v || (0 <? Undeclared (Census v))%nat).

(** The reason of a refusal; its messages state the counts and the names of
    the resource's own realm and namespace. *)
Inductive realm_reason : Type := ReasonRealmNotAuthorized | ReasonRealmConflict.

Definition refusal (v : realmVerdict) : option realm_reason :=
  if negb (Authorized v) then Some ReasonRealmNotAuthorized
  else if negb (conflict v) then None else Some ReasonRealmConflict.

Definition realmDigestIndexValue (namespace : string) (target : DatabaseTargetSpec) : list string :=
  match Digest namespace target with Err _ => [] | Ok digest => [digest] end.

Definition realmAdmits (realm : PtahRealm) (namespace engine : string) : bool :=
  bool_decide (namespace ∈ RealmNamespaces realm) &&
  match canonicalDatabaseEngine (RealmEngine realm), canonicalDatabaseEngine engine with
  | Ok granted, Ok claimed => bool_decide (claimed = granted)
  | _, _ => false
  end.

Definition claimsRealm (dormant : bool) (namespace : string) (target : DatabaseTargetSpec) (digest : string) : bool :=
  if dormant then false else
  match Digest namespace target with Err _ => false | Ok candidate => bool_decide (candidate = digest) end.

(** ** The census *)

Inductive census_error : Type := DigestUnknown (e : fp_error) | RealmUnread | ListFailed.

(** [None] is an error; [GetRealm] also answers that there is none. *)
Inductive censusE : Type -> Type :=
| GetRealm (name : string) : censusE (option (option PtahRealm))
| ListSchemas (namespace digest : string) : censusE (option (list Claimant))
| ListMigrations (namespace digest : string) : censusE (option (list Claimant)).

Definition counted (digest : string) (c : Claimant) : bool :=
  claimsRealm (ClaimantDeleting c || ClaimantSuspend c) (ClaimantNamespace c) (ClaimantTarget c) digest.

(** What one list adds: its claimants, and those that did not declare. *)
Definition claimants (digest : string) (items : list Claimant) : list Claimant := List.filter (counted digest) items.
Definition undeclared (items : list Claimant) : nat := length (List.filter (fun c => negb (SharedRealm c)) items).

Fixpoint count_members (digest : string) (namespaces : list string) (c : realmCensus) : prog censusE (result census_error realmCensus) :=
  match namespaces with
  | [] => Ret (Ok c)
  | member :: rest =>
      schemas <-- call (ListSchemas member digest);
      match schemas with
      | None => Ret (Err ListFailed)
      | Some schemas =>
          migrations <-- call (ListMigrations member digest);
          match migrations with
          | None => Ret (Err ListFailed)
          | Some migrations =>
              let schemas := claimants digest schemas in
              let migrations := claimants digest migrations in
              count_members digest rest
                {| Schemas := Schemas c + length schemas; Migrations := Migrations c + length migrations;
                   Undeclared := Undeclared c + undeclared schemas + undeclared migrations |}
          end
      end
  end.

Definition empty_census : realmCensus := {| Schemas := 0; Migrations := 0; Undeclared := 0 |}.

Definition takeRealmCensus (namespace : string) (target : DatabaseTargetSpec) : prog censusE (result census_error realmVerdict) :=
  match Digest namespace target with
  | Err e => Ret (Err (DigestUnknown e))
  | Ok digest =>
      let verdict authorized exclusive c :=
        {| VerdictNamespace := namespace; VerdictRealm := RealmName target; Authorized := authorized; Exclusive := exclusive; Census := c |} in
      let census exclusive granted :=
        counted <-- count_members digest granted empty_census;
        Ret match counted with Err e => Err e | Ok c => Ok (verdict true exclusive c) end in
      if negb (empty (RealmName target)) then
        got <-- call (GetRealm (RealmName target));
        match got with
        | None => Ret (Err RealmUnread)
        | Some None => Ret (Ok (verdict false false empty_census))
        | Some (Some realm) =>
            if negb (realmAdmits realm namespace (Engine target)) then Ret (Ok (verdict false false empty_census))
            else census (negb (bool_decide (RealmSharing realm = RealmSharingShared))) (RealmNamespaces realm)
        end
      else census false [namespace]
  end.

(** * Properties *)

(** ** A cluster *)

Record cluster : Type := { cl_schemas : list Claimant; cl_migrations : list Claimant; cl_realms : gmap string PtahRealm }.

(** The lists of the cache: the resources of a namespace indexed under a
    digest. *)
Definition listed (namespace digest : string) (items : list Claimant) : list Claimant :=
  filter (fun c => ClaimantNamespace c = namespace /\
                   digest ∈ realmDigestIndexValue (ClaimantNamespace c) (ClaimantTarget c)) items.

Definition serve (cl : cluster) (X : Type) (e : censusE X) (s : unit) : X * unit :=
  match e in censusE X return X * unit with
  | GetRealm name => (Some (cl_realms cl !! name), s)
  | ListSchemas namespace digest => (Some (listed namespace digest (cl_schemas cl)), s)
  | ListMigrations namespace digest => (Some (listed namespace digest (cl_migrations cl)), s)
  end.

(** ** The census, abstractly *)

Definition resources (cl : cluster) : list Claimant := cl_schemas cl ++ cl_migrations cl.
Definition active (c : Claimant) : bool := negb (ClaimantDeleting c || ClaimantSuspend c).
Definition claim (c : Claimant) : option realm := claimed_realm (ClaimantNamespace c) (ClaimantTarget c).

(** A key needs nobody's grant; a PtahRealm lists the namespaces it admits. *)
Definition admitted (cl : cluster) (c : Claimant) : bool :=
  match RealmRef (ClaimantTarget c) with
  | None => true
  | Some name =>
      match cl_realms cl !! name with
      | None => false
      | Some realm => realmAdmits realm (ClaimantNamespace c) (Engine (ClaimantTarget c))
      end
  end.

(** Whether a resource, and the realm it names, agree to share. *)
Definition shares (cl : cluster) (c : Claimant) : bool :=
  SharedRealm c &&
  match RealmRef (ClaimantTarget c) with
  | None => true
  | Some name => match cl_realms cl !! name with None => false | Some realm => bool_decide (RealmSharing realm = RealmSharingShared) end
  end.

(** Another resource that claims the same realm now. *)
Definition rival (cl : cluster) (a b : Claimant) : Prop :=
  b ∈ resources cl /\ b <> a /\ active b = true /\ claim b = claim a /\ admitted cl b = true.

(** What the census reads, in its order. *)
Definition members (cl : cluster) (digest : string) (namespaces : list string) : list Claimant :=
  namespaces ≫= (fun namespace => claimants digest (listed namespace digest (cl_schemas cl)) ++
                                  claimants digest (listed namespace digest (cl_migrations cl))).

Lemma undeclared_app l1 l2 : undeclared (l1 ++ l2) = (undeclared l1 + undeclared l2)%nat.
Proof. unfold undeclared. by rewrite List.filter_app, length_app. Qed.

Lemma count_members_run cl digest namespaces c :
  exists c', run (serve cl) (count_members digest namespaces c) tt = (Ok c', tt) /\
    total c' = (total c + length (members cl digest namespaces))%nat /\
    Undeclared c' = (Undeclared c + undeclared (members cl digest namespaces))%nat.
Proof.
  revert c. induction namespaces as [|n rest IH]; intros c; [exists c; unfold members, undeclared; cbn; split_and!; [done|lia|lia]|].
  cbn [count_members pbind call run serve]. match goal with |- context [count_members digest rest ?x] => destruct (IH x) as (c' & -> & Ht & Hu) end.
  exists c'. split; [done|]. unfold members in *. cbn [mbind list_bind] in *. rewrite Ht, Hu, !length_app, !undeclared_app.
  unfold total. cbn [Schemas Migrations Undeclared]. lia.
Qed.

Lemma in_claimants digest items c : c ∈ claimants digest items <-> c ∈ items /\ counted digest c = true.
Proof. unfold claimants. rewrite !list_elem_of_In. apply filter_In. Qed.

Lemma counted_spec digest c :
  counted digest c = true <-> active c = true /\ Digest (ClaimantNamespace c) (ClaimantTarget c) = Ok digest.
Proof.
  unfold counted, claimsRealm, active. destruct (ClaimantDeleting c || ClaimantSuspend c); cbn; [naive_solver|].
  destruct (Digest _ _) as [d|]; [|naive_solver]. rewrite bool_decide_eq_true. naive_solver.
Qed.

Lemma in_listed namespace digest items c :
  Digest (ClaimantNamespace c) (ClaimantTarget c) = Ok digest ->
  c ∈ listed namespace digest items <-> c ∈ items /\ ClaimantNamespace c = namespace.
Proof.
  intros Hd. unfold listed, realmDigestIndexValue. rewrite list_elem_of_filter, Hd, list_elem_of_singleton. naive_solver.
Qed.

Lemma in_members cl digest namespaces c :
  c ∈ members cl digest namespaces <->
  c ∈ resources cl /\ ClaimantNamespace c ∈ namespaces /\ active c = true /\
  Digest (ClaimantNamespace c) (ClaimantTarget c) = Ok digest.
Proof.
  unfold members, resources. rewrite list_elem_of_bind. split.
  - intros (n & Hc & Hn). rewrite elem_of_app, !in_claimants, !counted_spec in Hc.
    destruct Hc as [[Hl [Ha Hd]]|[Hl [Ha Hd]]]; apply in_listed in Hl as [Hi <-]; try done; rewrite elem_of_app; auto.
  - intros (Hi & Hn & Ha & Hd). exists (ClaimantNamespace c). split; [|done].
    rewrite elem_of_app, !in_claimants, !counted_spec, !in_listed by done. apply elem_of_app in Hi. naive_solver.
Qed.

Lemma members_nodup cl digest namespaces : NoDup (resources cl) -> NoDup namespaces -> NoDup (members cl digest namespaces).
Proof.
  intros Hr Hn. unfold members. induction Hn as [|n rest Hnot Hn IH]; [constructor|].
  cbn [mbind list_bind]. apply NoDup_app. split; [|split; [|exact IH]].
  - unfold resources in Hr. apply NoDup_app in Hr as (H1 & H2 & H3).
    apply NoDup_app. split_and!; [|intros x; rewrite !in_claimants|]; try (apply NoDup_ListNoDup, List.NoDup_filter, NoDup_ListNoDup, NoDup_filter; done).
    intros [Hx _] [Hy _]. unfold listed in *. rewrite list_elem_of_filter in Hx, Hy. apply (H2 x); naive_solver.
  - intros x Hx Hy. change (x ∈ members cl digest rest) in Hy. apply in_members in Hy as (_ & Hin & _ & _).
    rewrite elem_of_app, !in_claimants in Hx. unfold listed in Hx. rewrite !list_elem_of_filter in Hx.
    apply Hnot. destruct Hx as [[[[<- _] _] _]|[[[<- _] _] _]]; exact Hin.
Qed.

(** The namespaces a census reads, and whether the realm may be shared. *)
Definition granted (cl : cluster) (c : Claimant) : list string :=
  match RealmRef (ClaimantTarget c) with
  | None => [ClaimantNamespace c]
  | Some name => match cl_realms cl !! name with None => [] | Some realm => RealmNamespaces realm end
  end.
Definition realm_shares (cl : cluster) (c : Claimant) : bool :=
  match RealmRef (ClaimantTarget c) with
  | None => true
  | Some name => match cl_realms cl !! name with None => false | Some realm => bool_decide (RealmSharing realm = RealmSharingShared) end
  end.

Lemma realm_ref_named namespace t name digest : Digest namespace t = Ok digest -> RealmRef t = Some name -> empty name = false.
Proof.
  intros (r & Hr & _)%Digest_claimed Ht. unfold claimed_realm in Hr. rewrite Ht in Hr.
  destruct (canonicalDatabaseEngine _); [|done]. destruct (empty (CoordinationKey t) && _ && _) eqn:E; [|done].
  unfold empty. case_bool_decide; [subst|done]. by rewrite andb_comm in E.
Qed.

Lemma census_run cl a digest :
  Digest (ClaimantNamespace a) (ClaimantTarget a) = Ok digest ->
  exists v, run (serve cl) (takeRealmCensus (ClaimantNamespace a) (ClaimantTarget a)) tt = (Ok v, tt) /\
    Authorized v = admitted cl a /\
    (admitted cl a = true ->
       total (Census v) = length (members cl digest (granted cl a)) /\
       Undeclared (Census v) = undeclared (members cl digest (granted cl a)) /\ Exclusive v = negb (realm_shares cl a)).
Proof.
  intros Hd. unfold takeRealmCensus, admitted, granted, realm_shares. rewrite Hd. unfold RealmName.
  destruct (RealmRef (ClaimantTarget a)) as [name|] eqn:Er; cbn [str_or_empty default from_option id].
  - rewrite (realm_ref_named _ _ _ _ Hd Er). cbn [negb pbind call run serve]. destruct (cl_realms cl !! name) as [realm|]; [|by eexists].
    destruct (realmAdmits realm _ _) eqn:Ea; cbn [negb]; [|by eexists].
    rewrite run_bind. destruct (count_members_run cl digest (RealmNamespaces realm) empty_census) as (c & -> & Ht & Hu). by eexists.
  - change (empty EmptyString) with true. cbn [negb]. rewrite run_bind. destruct (count_members_run cl digest [ClaimantNamespace a] empty_census) as (c & -> & Ht & Hu). by eexists.
Qed.

Lemma undeclared_zero l : undeclared l = 0%nat <-> forall c, c ∈ l -> SharedRealm c = true.
Proof.
  unfold undeclared. induction l as [|x l IH]; cbn; [split; [intros _ c H; by apply elem_of_nil in H|done]|].
  destruct (SharedRealm x) eqn:E; cbn.
  - rewrite IH. setoid_rewrite elem_of_cons. naive_solver.
  - split; [done|]. intros H. specialize (H x). rewrite E in H. discriminate H. by left.
Qed.

(** Two claims of one realm name the same grant. *)
Lemma same_realm cl a b : claim a = claim b -> is_Some (claim a) -> realm_shares cl a = realm_shares cl b /\ granted cl a = granted cl b.
Proof.
  unfold claim, claimed_realm, realm_shares, granted. intros Hab [r Hr]. rewrite Hr in Hab. symmetry in Hab. revert Hr Hab.
  destruct (canonicalDatabaseEngine _), (canonicalDatabaseEngine _), (RealmRef _), (RealmRef _);
    intros; repeat case_match; simplify_eq; split; congruence.
Qed.

Lemma admitted_granted cl c : admitted cl c = true -> ClaimantNamespace c ∈ granted cl c.
Proof.
  unfold admitted, granted. destruct (RealmRef _) as [name|]; [|intros _; by left].
  destruct (cl_realms cl !! name) as [realm|]; [|done]. unfold realmAdmits. intros H. by bool_prop.
Qed.

Lemma granted_admitted cl a b :
  admitted cl a = true -> claim a = claim b -> is_Some (claim a) -> ClaimantNamespace b ∈ granted cl a -> admitted cl b = true.
Proof.
  unfold admitted, granted, claim, claimed_realm. intros Ha Hab [r Hr] Hin. rewrite Hr in Hab. symmetry in Hab.
  destruct (canonicalDatabaseEngine (Engine (ClaimantTarget a))) as [ea|] eqn:Ea; [|done].
  destruct (canonicalDatabaseEngine (Engine (ClaimantTarget b))) as [eb|] eqn:Eb; [|done].
  destruct (RealmRef (ClaimantTarget a)), (RealmRef (ClaimantTarget b)); repeat case_match; simplify_eq; try done.
  unfold realmAdmits in *. rewrite Ea in Ha. rewrite Eb. bool_prop. rewrite bool_decide_eq_true_2 by done.
  destruct (canonicalDatabaseEngine (RealmEngine _)); done.
Qed.

(** The named collision of two realms' documents. *)
Definition realms_collide (a b : Claimant) : Prop :=
  exists r r', claim a = Some r /\ claim b = Some r' /\ collision (marshal (realm_json r)) (marshal (realm_json r')).

(** A counted member is a rival, unless two realms collide. *)
Lemma member_rival cl a b digest :
  Digest (ClaimantNamespace a) (ClaimantTarget a) = Ok digest -> admitted cl a = true ->
  b ∈ members cl digest (granted cl a) -> b <> a -> rival cl a b \/ realms_collide a b.
Proof.
  intros Hd Ha (Hi & Hn & Hact & Hd')%in_members Hne. pose proof Hd as (r & Hr & _)%Digest_claimed. pose proof Hd' as (r' & Hr' & _)%Digest_claimed.
  destruct (Digest_inj _ _ _ _ _ _ _ Hd Hd' Hr Hr') as [<-|Hc]; [left|right; by exists r, r'].
  assert (claim b = claim a) as Hcl by (unfold claim; congruence). split_and!; try done.
  apply (granted_admitted cl a b); [done|by symmetry|by exists r|done].
Qed.

Lemma rival_member cl a b digest :
  Digest (ClaimantNamespace a) (ClaimantTarget a) = Ok digest -> rival cl a b -> b ∈ members cl digest (granted cl a).
Proof.
  intros Hd (Hi & _ & Hact & Hcl & Hadm). pose proof Hd as (r & Hr & ->)%Digest_claimed.
  apply in_members. split_and!; [done| |done|apply Digest_claimed; exists r; unfold claim in Hcl; split; congruence].
  destruct (same_realm cl a b) as [_ ->]; [done|by exists r|by apply admitted_granted].
Qed.

(** C36: A realm has one owner, or everyone agreed to share it. The census of
    an active resource over what the cache holds refuses it exactly when its
    realm does not admit it, or another active resource that the realm admits
    claims the same realm and the realm or one of the two does not share; so
    of two such resources neither may claim an operation. The only other
    refusal counts a resource of another realm whose document collides with
    this one's under SHA-256. *)
Theorem realm_owned_or_shared (cl : cluster) (a : Claimant) (r : realm) :
  NoDup (resources cl) -> (forall name realm, cl_realms cl !! name = Some realm -> NoDup (RealmNamespaces realm)) ->
  a ∈ resources cl -> active a = true -> claim a = Some r ->
  exists v, run (serve cl) (takeRealmCensus (ClaimantNamespace a) (ClaimantTarget a)) tt = (Ok v, tt) /\
    (refusal v = None ->
       admitted cl a = true /\ forall b, rival cl a b -> shares cl a = true /\ shares cl b = true) /\
    (refusal v <> None ->
       admitted cl a = false \/
       (exists b, rival cl a b /\ (shares cl a = false \/ shares cl b = false)) \/
       (exists b, b ∈ resources cl /\ realms_collide a b)).
Proof.
  intros Hnd Hns Hin Hact Hcl.
  assert (exists digest, Digest (ClaimantNamespace a) (ClaimantTarget a) = Ok digest) as [digest Hd].
  { eexists. apply Digest_claimed. exists r. split; [exact Hcl|reflexivity]. }
  destruct (census_run cl a digest Hd) as (v & Hrun & Hauth & Hcensus). exists v. split; [exact Hrun|].
  unfold refusal, conflict. rewrite Hauth. destruct (admitted cl a) eqn:Eadm; cbn [negb]; [|split; [done|by left]].
  destruct (Hcensus eq_refl) as (-> & -> & ->). set (M := members cl digest (granted cl a)).
  assert (a ∈ M) as HaM by (apply in_members; split_and!; [done|by apply admitted_granted|done..]).
  assert (forall b, rival cl a b -> shares cl b = SharedRealm b && realm_shares cl a) as Hsh.
  { intros b (_ & _ & _ & Hcb & _). unfold shares. fold (realm_shares cl b). destruct (same_realm cl a b) as [-> _]; [done|by exists r|done]. }
  assert (shares cl a = SharedRealm a && realm_shares cl a) as Hsa by done. split.
  - destruct (negb ((1 <? length M)%nat && _)) eqn:Ec; [intros _|done]. split; [done|]. intros b Hb.
    pose proof (rival_member _ _ _ _ Hd Hb) as HbM. fold M in HbM. rewrite Hsa, (Hsh b Hb).
    assert (1 < length M)%nat as Hlen.
    { destruct Hb as (_ & Hne & _). destruct M as [|x [|y M']]; [by apply elem_of_nil in HaM| |cbn; lia].
      apply list_elem_of_singleton in HaM, HbM. congruence. }
    apply Nat.ltb_lt in Hlen. rewrite Hlen in Ec. cbn [andb] in Ec. apply negb_true_iff, orb_false_iff in Ec as [Ex Eu].
    apply negb_false_iff in Ex. apply Nat.ltb_ge in Eu. assert (undeclared M = 0%nat) as Hu0 by lia. rewrite undeclared_zero in Hu0.
    by rewrite Ex, (Hu0 a HaM), (Hu0 b HbM).
  - destruct (negb ((1 <? length M)%nat && _)) eqn:Ec; [done|intros _; right]. apply negb_false_iff, andb_true_iff in Ec as [Hlen Hsplit].
    apply Nat.ltb_lt in Hlen.
    assert (NoDup M) as HndM.
    { apply members_nodup; [done|]. unfold granted. destruct (RealmRef _); [|apply NoDup_singleton].
      destruct (cl_realms cl !! _) eqn:E; [by eapply Hns|constructor]. }
    assert (forall b, b ∈ M -> b <> a -> rival cl a b \/ exists b, b ∈ resources cl /\ realms_collide a b) as Hriv.
    { intros b Hb Hne. destruct (member_rival _ _ _ _ Hd Eadm Hb Hne) as [Hr|Hr]; [by left|]. right. exists b. split; [|done].
      by apply in_members in Hb as [Hi _]. }
    assert (exists b, b ∈ M /\ b <> a) as (b & Hb & Hne).
    { destruct M as [|x [|y M']]; [cbn in Hlen; lia..|]. apply NoDup_cons in HndM as [Hx _].
      destruct (decide (x = a)) as [->|Hne]; [exists y; set_solver|exists x; set_solver]. }
    destruct (Hriv b Hb Hne) as [Hrb|Hcol]; [|by right]. destruct (realm_shares cl a) eqn:Ers; cbn [negb orb] in Hsplit.
    + apply Nat.ltb_lt in Hsplit. destruct (SharedRealm a) eqn:Esa; [|left; exists b; rewrite Hsa; by split; [|left]].
      destruct (decide (Forall (fun c => SharedRealm c = true) M)) as [Hall|Hex].
      { rewrite Forall_forall in Hall. pose proof (proj2 (undeclared_zero M) Hall). lia. }
      apply not_Forall_Exists in Hex; [|apply _]. apply Exists_exists in Hex as (c & Hc & Hsc). apply not_true_iff_false in Hsc.
      assert (c <> a) as Hca by congruence. destruct (Hriv c Hc Hca) as [Hrc|Hcol]; [left; exists c|by right].
      rewrite (Hsh c Hrc), Hsc. by split; [|right].
    + left. exists b. rewrite Hsa. rewrite andb_false_r. by split; [|left].
Qed.

(** Two teams claim one PtahRealm; only one of them declared sharing. *)
Definition team (uid namespace : string) (shared : bool) : Claimant :=
  {| ClaimantUID := uid; ClaimantNamespace := namespace; ClaimantDeleting := false; ClaimantSuspend := false;
     ClaimantTarget := {| Engine := "postgres"; CoordinationKey := EmptyString; RealmRef := Some "orders" |}; SharedRealm := shared |}.
Definition sample_cluster (shared : bool) : cluster :=
  {| cl_schemas := [team "uid-a" "shop" true]; cl_migrations := [team "uid-b" "billing" shared; team "uid-c" "stranger" false];
     cl_realms := {[ "orders" := {| RealmNamespaces := ["shop"; "billing"]; RealmEngine := "PostgreSQL"; RealmSharing := "Shared" |} ]} |}.

Lemma realm_owned_or_shared_witness :
  let a := team "uid-a" "shop" true in
  let verdict cl := match (run (serve cl) (takeRealmCensus "shop" (ClaimantTarget a)) tt).1 with Ok v => refusal v | Err _ => None end in
  verdict (sample_cluster false) = Some ReasonRealmConflict /\ verdict (sample_cluster true) = None /\
  exists v, run (serve (sample_cluster true)) (takeRealmCensus "shop" (ClaimantTarget a)) tt = (Ok v, tt) /\
    (refusal v = None ->
       admitted (sample_cluster true) a = true /\
       forall b, rival (sample_cluster true) a b -> shares (sample_cluster true) a = true /\ shares (sample_cluster true) b = true).
Proof.
  split; [vm_compute; reflexivity|]. split; [vm_compute; reflexivity|].
  destruct (realm_owned_or_shared (sample_cluster true) (team "uid-a" "shop" true) (NamedRealm "postgresql" "orders")) as (v & Hv & Hok & _);
    [apply (bool_decide_eq_true_1 _); vm_compute; reflexivity| |apply (bool_decide_eq_true_1 _); vm_compute; reflexivity
    |reflexivity|vm_compute; reflexivity|exists v; split; [exact Hv|exact Hok]].
  intros name realm H. cbn [cl_realms sample_cluster] in H. apply lookup_singleton_Some in H as [_ <-]. apply (bool_decide_eq_true_1 _). vm_compute. reflexivity.
Defined.
