(* ===== verification/Effects.v ===== *)
(** * Programs over programs, and record updates

    The controllers call components that are programs of their own: [hoist]
    makes the calls of a component the calls of its client, and [interp]
    answers each call of a driver with a program of the client that also
    moves the client's state. [Update] gives the assignment of one field of a
    Go struct: [r <| field := v |>]. *)
From stdpp Require Import base list.
From S2P Require Import Prelude.
Local Open Scope go_scope.

(** ** Hoisting *)

Fixpoint hoist {E F : Type -> Type} {A} (f : forall X, E X -> F X) (p : prog E A) : prog F A :=
  match p with
  | Ret a => Ret a
  | Vis e k => Vis (f _ e) (fun x => hoist f (k x))
  end.

(** A component under its client's specification: what it concludes is what
    it concludes under the specification its own calls get. *)
Lemma wp_hoist {E F : Type -> Type} {G A} (f : forall X, E X -> F X) (spE : espec E G) (spF : espec F G) (p : prog E A) Q g :
  (forall X (e : E X) g, pre spE e g -> pre spF (f X e) g) ->
  (forall X (e : E X) g x g', post spF (f X e) g x g' -> post spE e g x g') ->
  wp spE p Q g -> wp spF (hoist f p) Q g.
Proof.
  intros Hpre Hpost. revert g. induction p as [a|X e k IH]; simpl; [auto|].
  intros g [He Hk]. split; [by apply Hpre|]. intros x g' Hx. by apply IH, Hk, Hpost.
Qed.

(** What every answer keeps, and that every call is allowed where it holds. *)
Lemma wp_hoist_keep {E F : Type -> Type} {G A} (f : forall X, E X -> F X) (spF : espec F G) (p : prog E A) (P : G -> Prop) g :
  (forall X (e : E X) g, P g -> pre spF (f X e) g) ->
  (forall X (e : E X) g x g', P g -> post spF (f X e) g x g' -> P g') ->
  P g -> wp spF (hoist f p) (fun _ g' => P g') g.
Proof.
  intros Hpre Hpost. revert g. induction p as [a|X e k IH]; simpl; [auto|].
  intros g Hg. split; [by apply Hpre|]. intros x g' Hx. by eapply IH, Hpost.
Qed.

(** The log of a hoisted component is its own log, under its client's calls. *)
Definition hoist_entry {E F : Type -> Type} (f : forall X, E X -> F X) (x : entry E) : entry F :=
  answered (f _ (projT2 x).1) (projT2 x).2.

Lemma wp_hoist_log {E F : Type -> Type} {G A} (f : forall X, E X -> F X) (spF : espec F G) (log : G -> list (entry F))
    (p : prog E A) (Q : A -> list (entry E) -> Prop) (P : G -> Prop) g l :
  (forall X (e : E X) g, P g -> pre spF (f X e) g) ->
  (forall X (e : E X) g x g', P g -> post spF (f X e) g x g' -> P g' /\ log g' = log g ++ [answered (f X e) x]) ->
  P g -> wp logging p Q l ->
  wp spF (hoist f p) (fun a g' => P g' /\ exists more, log g' = log g ++ map (hoist_entry f) more /\ Q a (l ++ more)) g.
Proof.
  intros Hpre Hpost. revert g l. induction p as [a|X e k IH]; simpl; intros g l Hg.
  - intros HQ. split; [done|]. exists []. simpl. by rewrite !app_nil_r.
  - intros [_ Hk]. split; [by apply Hpre|]. intros x g' Hx. destruct (Hpost _ _ _ _ _ Hg Hx) as [Hg' Hl].
    eapply wp_mono; [|apply (IH x g' (l ++ [answered e x])); [done|by apply Hk]].
    intros a g2 [Hg2 (more & -> & HQ)]. split; [done|]. exists (answered e x :: more).
    rewrite Hl, <- !app_assoc in *. by split.
Qed.

(** ** Interpreting *)

Fixpoint interp {E F : Type -> Type} {S A} (h : forall X, E X -> S -> prog F (X * S)) (p : prog E A) (s : S) : prog F (A * S) :=
  match p with
  | Ret a => Ret (a, s)
  | Vis e k => pbind (h _ e s) (fun xs => interp h (k xs.1) xs.2)
  end.

(** A driver is specified over the client's state and the client's world
    together; the client answers each call within that specification. *)
Lemma wp_interp {E F : Type -> Type} {S G A} (h : forall X, E X -> S -> prog F (X * S))
    (spE : espec E (S * G)) (spF : espec F G) (p : prog E A) (Q : A -> S * G -> Prop) s g :
  (forall X (e : E X) s g, pre spE e (s, g) -> wp spF (h X e s) (fun xs g' => post spE e (s, g) xs.1 (xs.2, g')) g) ->
  wp spE p Q (s, g) -> wp spF (interp h p s) (fun xs g' => Q xs.1 (xs.2, g')) g.
Proof.
  intros Hh. revert s g. induction p as [a|X e k IH]; simpl; [auto|].
  intros s g [Hpre Hk]. apply wp_bind. eapply wp_mono; [|by apply Hh].
  intros [x s'] g' Hpost. apply IH, Hk, Hpost.
Qed.

(** ** The calls a program makes *)

Lemma exec_prefix_mono {E : Type -> Type} {S A} (h g : forall X, E X -> S -> X -> S -> Prop) :
  (forall X (e : E X) s x s', h X e s x s' -> g X e s x s') ->
  forall (p : prog E A) s s', exec_prefix h p s s' -> exec_prefix g p s s'.
Proof.
  intros Hg. induction p as [a|X e k IH]; cbn; intros s s' [->|H]; auto. destruct H as (x & s1 & Hx & H). right. exists x, s1. split; [by apply Hg|by apply IH].
Qed.

(** Run from [s], the program makes call [e] in state [s1]. *)
Fixpoint makes {E : Type -> Type} {S A X : Type} (h : forall X, E X -> S -> X -> S -> Prop)
    (p : prog E A) (s : S) (e : E X) (s1 : S) : Prop :=
  match p with
  | Ret _ => False
  | Vis e0 k => (existT _ e0 = existT X e :> {X & E X} /\ s1 = s) \/ exists x s', h _ e0 s x s' /\ makes h (k x) s' e s1
  end.

(** What a specification requires of a call holds where the call is made. *)
Lemma wp_makes {E S A X} (sp : espec E S) (p : prog E A) Q s (e : E X) s1 :
  wp sp p Q s -> makes (fun X e => post sp e) p s e s1 -> pre sp e s1.
Proof.
  revert s. induction p as [a|Y e0 k IH]; simpl; intros s; [done|].
  intros [Hpre Hk] [[Heq ->]|(x & s' & Hx & Hm)].
  - change (match existT X e with existT Y e' => pre sp e' s end). by rewrite <- Heq.
  - eapply IH; [|exact Hm]. by apply Hk.
Qed.

(** ** Record updates *)

(** A record type gives its own eta expansion; the update of a field puts the
    new value in place of the field's projection. *)
Class Fields (R : Type) : Type := rebuild : R -> R.
Class Update {R T : Type} (proj : R -> T) : Type := update : T -> R -> R.
Arguments update {R T} proj {_} _ _.

Ltac derive_update :=
  match goal with
  | |- @Update ?R ?T ?proj =>
      let v := fresh "v" in let r := fresh "r" in
      intros v r;
      let eta := eval cbv delta [rebuild] in (@rebuild R _) in
      let eta := eval hnf in eta in
      let e := eval cbv beta in (eta r) in
      match eval pattern (proj r) in e with
      | ?f _ => let u := eval cbv beta in (f v) in exact u
      end
  end.
#[export] Hint Extern 0 (Update _) => derive_update : typeclass_instances.

Notation "r <| p := v |>" := (update p v r) (at level 1, left associativity, p at level 9).

(** ** Runs and their logs

    A program that ran against any answers, the log it started from and the
    log it left. *)

Section Runs.
Context {E : Type -> Type}.

Definition runs {A} (p : prog E A) (before : list (entry E)) (a : A) (after : list (entry E)) : Prop := exec any_answer p before a after.

Lemma runs_ret {A} (a b : A) log log' : runs (Ret a) log b log' -> b = a /\ log' = log.
Proof. done. Qed.

Lemma runs_call {X A} (e : E X) (k : X -> prog E A) log a log' :
  runs (pbind (call e) k) log a log' -> exists x, runs (k x) (log ++ [answered e x]) a log'.
Proof. intros (x & s1 & -> & Hk). by exists x. Qed.

Lemma runs_bind {A B} (p : prog E A) (f : A -> prog E B) log b log' :
  runs (pbind p f) log b log' -> exists a log1, runs p log a log1 /\ runs (f a) log1 b log'.
Proof. unfold runs. by rewrite exec_bind. Qed.

Lemma runs_extends {A} (p : prog E A) log a log' : runs p log a log' -> log `prefix_of` log'.
Proof.
  revert log. induction p as [a0|X e k IH]; intros log; [by intros [_ ->]|].
  intros (x & s1 & -> & Hk). etransitivity; [|by eapply IH]. by apply prefix_app_r.
Qed.

Lemma seen_runs {X A} (e : E X) (x : X) (p : prog E A) log a log' :
  runs p (log ++ [answered e x]) a log' -> seen e x log'.
Proof. intros [more ->]%runs_extends. unfold seen. rewrite !in_app_iff. left; right. by left. Qed.

Lemma runs_refuse {A} (c : bool) (r : A) (k : prog E A) log a log' :
  runs (if c then Ret r else k) log a log' -> (c = true /\ a = r) \/ (c = false /\ runs k log a log').
Proof. destruct c; [|by right]. intros [-> _]. by left. Qed.
End Runs.
