(* ===== verification/KubePod.v ===== *)
(** * Pods, Jobs and the objects admission reads (Kubernetes API types)

    The fields of [corev1.PodSpec], [corev1.Container], [batchv1.Job] and of
    the objects built-in admission consults that the operator reads or
    writes. What no modelled code reads of an object is one opaque [Rest]
    field, its canonical text. A slice or map an object does not have is the
    empty one, except where the code tells the two apart, where it is an
    [option]. A [resource.Quantity] is its canonical text.

    [Class Apimachinery] holds what the code calls of the Kubernetes
    libraries: [Quantity.Cmp] and [Sign], the defaulting of
    [clientgoscheme.Scheme], [validation.IsQualifiedName] and the comparison
    of the fields nothing else reads. [ApimachineryLaws] says what is relied
    on. *)
From Stdlib Require Import ZArith Lia.
From stdpp Require Import base list gmap strings.
From S2P Require Import Prelude GoStrings Json KubeMeta.
Local Open Scope Z_scope.

(** ** Pods *)

Record Toleration : Type := {
  TolKey : string;
  TolOperator : string;
  TolValue : string;
  TolEffect : string;
  TolerationSeconds : option Z;
}.
#[export] Instance Toleration_eq_dec : EqDecision Toleration.
Proof. solve_decision. Defined.

Definition TolerationOpExists : string := "Exists".
Definition TolerationOpEqual : string := "Equal".
Definition TaintEffectNoExecute : string := "NoExecute".
Definition TaintEffectNoSchedule : string := "NoSchedule".
Definition PullAlways : string := "Always".
Definition PreemptLowerPriority : string := "PreemptLowerPriority".
Definition PreemptNever : string := "Never".

(** [corev1.ResourceList]: a quantity for each resource name. *)
Abbreviation ResourceList := (gmap string string).

(** [EnvVarSource] keeps the two sources the code names apart; the others are
    its rest. *)
Record ObjectFieldSelector : Type := { FieldAPIVersion : string; FieldPath : string }.
#[export] Instance ObjectFieldSelector_eq_dec : EqDecision ObjectFieldSelector.
Proof. solve_decision. Defined.
Record SecretKeySelector : Type := { SecretKeyName : string; SecretKeyRest : string }.
#[export] Instance SecretKeySelector_eq_dec : EqDecision SecretKeySelector.
Proof. solve_decision. Defined.
Record EnvVarSource : Type := {
  FieldRef : option ObjectFieldSelector;
  SecretKeyRef : option SecretKeySelector;
  EnvSourceRest : string;
}.
#[export] Instance EnvVarSource_eq_dec : EqDecision EnvVarSource.
Proof. solve_decision. Defined.
Record EnvVar : Type := { EnvName : string; EnvValue : string; ValueFrom : option EnvVarSource }.
#[export] Instance EnvVar_eq_dec : EqDecision EnvVar.
Proof. solve_decision. Defined.
Record EnvFromSource : Type := { FromSecretRef : option string; EnvFromRest : string }.
#[export] Instance EnvFromSource_eq_dec : EqDecision EnvFromSource.
Proof. solve_decision. Defined.
Record VolumeMount : Type := { MountName : string; MountPathOf : string; MountReadOnly : bool; MountRest : string }.
#[export] Instance VolumeMount_eq_dec : EqDecision VolumeMount.
Proof. solve_decision. Defined.

Record Container : Type := {
  ContainerName : string;
  Args : list string;
  Env : list EnvVar;
  EnvFrom : list EnvFromSource;
  VolumeMounts : list VolumeMount;
  Requests : ResourceList;
  Limits : ResourceList;
  ImagePullPolicy : string;
  ContainerImage : string;
  ContainerRest : string;
}.
#[export] Instance Container_eq_dec : EqDecision Container.
Proof. solve_decision. Defined.

Record KeyToPath : Type := { PathKey : string; PathOf : string; PathMode : option Z }.
#[export] Instance KeyToPath_eq_dec : EqDecision KeyToPath.
Proof. solve_decision. Defined.
Record SecretVolumeSource : Type := {
  SecretVolumeName : string;
  SecretItems : list KeyToPath;
  SecretMode : option Z;
  SecretOptional : option bool;
}.
#[export] Instance SecretVolumeSource_eq_dec : EqDecision SecretVolumeSource.
Proof. solve_decision. Defined.
Record ServiceAccountTokenProjection : Type := { ProjectedAudience : string; ExpirationSeconds : option Z; TokenFile : string }.
#[export] Instance ServiceAccountTokenProjection_eq_dec : EqDecision ServiceAccountTokenProjection.
Proof. solve_decision. Defined.
(** One projected source: the Secret it names, its token, and the rest of it. *)
Record VolumeProjection : Type := {
  ProjectedSecret : option string;
  ProjectedToken : option ServiceAccountTokenProjection;
  ProjectionRest : string;
}.
#[export] Instance VolumeProjection_eq_dec : EqDecision VolumeProjection.
Proof. solve_decision. Defined.
Record ProjectedVolumeSource : Type := { ProjectedSources : list VolumeProjection; ProjectedMode : option Z }.
#[export] Instance ProjectedVolumeSource_eq_dec : EqDecision ProjectedVolumeSource.
Proof. solve_decision. Defined.

(** A volume: its Secret or projected source, the Secrets the other sources
    name (CSI, AzureFile, CephFS, Cinder, FlexVolume, ISCSI, RBD, ScaleIO,
    StorageOS), and the rest of it. *)
Record Volume : Type := {
  VolumeNameOf : string;
  VolumeSecret : option SecretVolumeSource;
  VolumeProjected : option ProjectedVolumeSource;
  VolumeSecretRefs : list string;
  VolumeRest : string;
}.
#[export] Instance Volume_eq_dec : EqDecision Volume.
Proof. solve_decision. Defined.

Record PodSpec : Type := {
  Containers : list Container;
  InitContainers : list Container;
  EphemeralContainers : list Container;
  Volumes : list Volume;
  ServiceAccountName : string;
  DeprecatedServiceAccount : string;
  AutomountServiceAccountToken : option bool;
  ImagePullSecrets : list string;
  NodeName : string;
  NodeSelector : gmap string string;
  RuntimeClassName : option string;
  Overhead : option ResourceList;
  PriorityClassName : string;
  Priority : option Z;
  PreemptionPolicy : option string;
  Tolerations : list Toleration;
  PodLevelResources : option string;
  PodActiveDeadlineSeconds : option Z;
  PodRest : string;
}.
#[export] Instance PodSpec_eq_dec : EqDecision PodSpec.
Proof. solve_decision. Defined.

Record PodTemplateSpec : Type := { TemplateMeta : ObjectMeta; TemplateSpec : PodSpec }.
#[export] Instance PodTemplateSpec_eq_dec : EqDecision PodTemplateSpec.
Proof. solve_decision. Defined.

(** Of a Pod's status the phase is read. *)
Record Pod : Type := { PodMeta : ObjectMeta; PodSpecOf : PodSpec; PodPhase : string; PodStatusRest : string }.
#[export] Instance Pod_eq_dec : EqDecision Pod.
Proof. solve_decision. Defined.

(** ** Jobs *)

(** [metav1.LabelSelector]: its labels, and how many expressions it has. *)
Record LabelSelector : Type := { MatchLabels : gmap string string; MatchExpressions : list string }.
#[export] Instance LabelSelector_eq_dec : EqDecision LabelSelector.
Proof. solve_decision. Defined.

Record JobSpec : Type := {
  Parallelism : option Z;
  Completions : option Z;
  BackoffLimit : option Z;
  ActiveDeadlineSeconds : option Z;
  PodReplacementPolicy : option string;
  CompletionMode : option string;
  Suspend : option bool;
  ManualSelector : option bool;
  PodFailurePolicy : option string;
  SuccessPolicy : option string;
  BackoffLimitPerIndex : option Z;
  MaxFailedIndexes : option Z;
  ManagedBy : option string;
  TTLSecondsAfterFinished : option Z;
  Selector : option LabelSelector;
  Template : PodTemplateSpec;
}.
#[export] Instance JobSpec_eq_dec : EqDecision JobSpec.
Proof. solve_decision. Defined.

Record Job : Type := { JobMeta : ObjectMeta; JobSpecOf : JobSpec }.
#[export] Instance Job_eq_dec : EqDecision Job.
Proof. solve_decision. Defined.

Definition ControllerUidLabel : string := "batch.kubernetes.io/controller-uid".
Definition JobNameLabel : string := "batch.kubernetes.io/job-name".
Definition JobTrackingFinalizer : string := "batch.kubernetes.io/job-tracking".
Definition batchv1_group : string := "batch/v1".
Definition operator_group : string := "operator.ptah.run/v1alpha1".

(** ** The objects built-in admission consults *)

Record ServiceAccount : Type := { AccountMeta : ObjectMeta; AccountPullSecrets : list string }.
Record LimitRangeItem : Type := {
  LimitType : string;
  LimitMax : ResourceList;
  LimitMin : ResourceList;
  LimitDefault : ResourceList;
  LimitDefaultRequest : ResourceList;
}.
Record LimitRange : Type := { LimitRangeMeta : ObjectMeta; LimitRangeLimits : list LimitRangeItem }.
Definition LimitTypeContainer : string := "Container".
Record RuntimeClass : Type := {
  RuntimeMeta : ObjectMeta;
  RuntimeHandler : string;
  (** [overhead.podFixed], where the class has an overhead. *)
  RuntimeOverhead : option ResourceList;
  (** [scheduling], its selector and tolerations. *)
  RuntimeScheduling : option (gmap string string * list Toleration);
}.
Record PriorityClass : Type := {
  PriorityMeta : ObjectMeta;
  PriorityValue : Z;
  GlobalDefault : bool;
  PriorityPreemption : option string;
}.

(** ** The Kubernetes libraries *)

Class Apimachinery : Type := {
  (** [resource.Quantity.Cmp] and [Sign]. *)
  quantity_cmp : string -> string -> comparison;
  quantity_sign : string -> Z;
  (** [clientgoscheme.Scheme.Default] on a Pod. *)
  scheme_default : ObjectMeta -> PodSpec -> ObjectMeta * PodSpec;
  (** [equality.Semantic.DeepEqual] on the fields nothing else reads. *)
  rest_equal : string -> string -> bool;
  (** [validation.IsQualifiedName] finds no problem. *)
  is_qualified_name : string -> bool;
  (** [json.Marshal] of a [corev1.PodTemplateSpec]. *)
  template_json : PodTemplateSpec -> json;
}.

(** [candidate.Cmp(quantity) == 0]. *)
Definition same_quantity `{Apimachinery} (a b : string) : bool :=
  match quantity_cmp a b with Eq => true | _ => false end.

Class ApimachineryLaws `{Apimachinery} : Prop := {
  same_quantity_refl : forall a, same_quantity a a = true;
  same_quantity_sym : forall a b, same_quantity a b = true -> same_quantity b a = true;
  same_quantity_trans : forall a b c, same_quantity a b = true -> same_quantity b c = true -> same_quantity a c = true;
  rest_equal_refl : forall a, rest_equal a a = true;
}.

(** ** [equality.Semantic.DeepEqual]

    Two values are equal when they are the same except that two quantities
    are compared by value. *)

Section Semantic.
Context `{Apimachinery}.

Definition semantic_resources (a b : ResourceList) : bool :=
  bool_decide (dom a = dom b) &&
  forallb (fun '(name, got) => match b !! name with Some want => same_quantity got want | None => false end) (map_to_list a).

Definition semantic_container (a b : Container) : bool :=
  bool_decide (ContainerName a = ContainerName b) && bool_decide (Args a = Args b) && bool_decide (Env a = Env b) &&
  bool_decide (EnvFrom a = EnvFrom b) && bool_decide (VolumeMounts a = VolumeMounts b) &&
  semantic_resources (Requests a) (Requests b) && semantic_resources (Limits a) (Limits b) &&
  bool_decide (ImagePullPolicy a = ImagePullPolicy b) && bool_decide (ContainerImage a = ContainerImage b) && rest_equal (ContainerRest a) (ContainerRest b).

Definition semantic_volume (a b : Volume) : bool :=
  bool_decide (VolumeNameOf a = VolumeNameOf b) && bool_decide (VolumeSecret a = VolumeSecret b) &&
  bool_decide (VolumeProjected a = VolumeProjected b) && bool_decide (VolumeSecretRefs a = VolumeSecretRefs b) && rest_equal (VolumeRest a) (VolumeRest b).

Definition semantic_option {A} (f : A -> A -> bool) (a b : option A) : bool :=
  match a, b with
  | Some x, Some y => f x y
  | None, None => true
  | _, _ => false
  end.

(** The semantic equality takes an absent list or map for an empty one. *)
Definition semantic_overhead (a b : option ResourceList) : bool := semantic_resources (default ∅ a) (default ∅ b).

Fixpoint semantic_list {A} (f : A -> A -> bool) (a b : list A) : bool :=
  match a, b with
  | [], [] => true
  | x :: a', y :: b' => f x y && semantic_list f a' b'
  | _, _ => false
  end.

Definition semantic_pod_spec (a b : PodSpec) : bool :=
  semantic_list semantic_container (Containers a) (Containers b) &&
  semantic_list semantic_container (InitContainers a) (InitContainers b) &&
  semantic_list semantic_container (EphemeralContainers a) (EphemeralContainers b) &&
  semantic_list semantic_volume (Volumes a) (Volumes b) &&
  bool_decide (ServiceAccountName a = ServiceAccountName b) &&
  bool_decide (DeprecatedServiceAccount a = DeprecatedServiceAccount b) &&
  bool_decide (AutomountServiceAccountToken a = AutomountServiceAccountToken b) &&
  bool_decide (ImagePullSecrets a = ImagePullSecrets b) && bool_decide (NodeName a = NodeName b) &&
  bool_decide (NodeSelector a = NodeSelector b) && bool_decide (RuntimeClassName a = RuntimeClassName b) &&
  semantic_overhead (Overhead a) (Overhead b) && bool_decide (PriorityClassName a = PriorityClassName b) &&
  bool_decide (Priority a = Priority b) && bool_decide (PreemptionPolicy a = PreemptionPolicy b) &&
  bool_decide (Tolerations a = Tolerations b) && semantic_option rest_equal (PodLevelResources a) (PodLevelResources b) &&
  bool_decide (PodActiveDeadlineSeconds a = PodActiveDeadlineSeconds b) && rest_equal (PodRest a) (PodRest b).
End Semantic.
