(* ===== verification/JobConfig.v ===== *)
(** * The result delivery of a Job (package [internal/resultdelivery/jobconfig])

    What a dispatched Job says about delivering its result: an endpoint, the
    generation it was dispatched for, and either a Secret with a client
    certificate or a Pod token for the receiver alone. [Attach] and
    [AttachPodToken] write it into the template before the admission snapshot
    is taken; [Read] holds a Job to exactly that shape. The code refuses with
    one error, here [None]. Also the identity of an attempt
    ([internal/resultdelivery/protocol.go]). *)
From Stdlib Require Import ZArith Lia Ascii.
From stdpp Require Import base list gmap strings.
From S2P Require Import TargetLock GoStrings Json Fingerprint SourceContent KubeMeta KubePod.
From S2P Require ResultStore ResultRetention.
From S2P Require Import Prelude.
Local Open Scope go_scope.
Local Open Scope Z_scope.

(** ** The identity of an attempt *)

Record Identity : Type := { IdentityBinding : ResultStore.Binding; Engine : string }.

Definition valid (i : Identity) : bool :=
  let b := IdentityBinding i in
  is_ok (ResultStore.Name b) &&
  (bool_decide (Engine i = "postgresql") || bool_decide (Engine i = "mysql") ||
   (empty (Engine i) && (bool_decide (ResultStore.Operation b = "resolve") || bool_decide (ResultStore.Operation b = "verify")))).
Definition identity_json (i : Identity) : json :=
  JObj [("binding", ResultStore.binding_json (IdentityBinding i)); ("engine", JStr (Engine i))].

Definition TokenAudience : string := "operator.ptah.run/results".

(** ** Names *)

Definition PodNamespaceVar : string := "PTAH_RESULT_POD_NAMESPACE".
Definition PodNameVar : string := "PTAH_RESULT_POD_NAME".
Definition PodUIDVar : string := "PTAH_RESULT_POD_UID".
Definition GenerationVar : string := "PTAH_RESULT_GENERATION".
Definition ResultJobUID : string := "PTAH_RESULT_JOB_UID".
Definition ServerTrust : string := "PTAH_RESULT_SERVER_TRUST".
Definition IdentityTemplate : string := "PTAH_RESULT_IDENTITY_TEMPLATE".
Definition VolumeName : string := "result-credentials".
Definition MountPath : string := "/credentials/result".
Definition TokenPath : string := MountPath +:+ "/token".
Definition EnvExpectedDatabaseEngine : string := "PTAH_EXPECTED_DATABASE_ENGINE".
Definition runnerContainer : string := "ptah".

(** ** What is written *)

(** A map lookup of an absent key gives the empty string. *)
Definition get (m : gmap string string) (key : string) : string := str_or_empty (m !! key).
Definition job_pod_spec (job : Job) : PodSpec := TemplateSpec (Template (JobSpecOf job)).

Definition plain_env (name value : string) : EnvVar := {| EnvName := name; EnvValue := value; ValueFrom := None |}.
Definition field_env (name path : string) : EnvVar :=
  {| EnvName := name; EnvValue := EmptyString;
     ValueFrom := Some {| FieldRef := Some {| FieldAPIVersion := "v1"; FieldPath := path |}; SecretKeyRef := None;
                          EnvSourceRest := EmptyString |} |}.
Definition variables (generation : Z) : list EnvVar :=
  plain_env GenerationVar (format_int generation) ::
  [field_env PodNamespaceVar "metadata.namespace"; field_env PodNameVar "metadata.name"; field_env PodUIDVar "metadata.uid"].

(** The mode [0440]. *)
Definition volume (name : string) : Volume :=
  {| VolumeNameOf := VolumeName;
     VolumeSecret := Some {| SecretVolumeName := name;
                             SecretItems := (fun key => {| PathKey := key; PathOf := key; PathMode := None |}) <$> ["tls.crt"; "tls.key"; "ca.crt"];
                             SecretMode := Some 288; SecretOptional := None |};
     VolumeProjected := None; VolumeSecretRefs := []; VolumeRest := EmptyString |}.
Definition tokenVolume : Volume :=
  {| VolumeNameOf := VolumeName; VolumeSecret := None;
     VolumeProjected := Some
       {| ProjectedSources := [{| ProjectedSecret := None;
                                  ProjectedToken := Some {| ProjectedAudience := TokenAudience; ExpirationSeconds := Some 3600; TokenFile := "token" |};
                                  ProjectionRest := EmptyString |}];
          ProjectedMode := Some 288 |};
     VolumeSecretRefs := []; VolumeRest := EmptyString |}.
Definition result_mount : VolumeMount :=
  {| MountName := VolumeName; MountPathOf := MountPath; MountReadOnly := true; MountRest := EmptyString |}.

Definition UsesPodToken (job : Job) : bool :=
  let spec := job_pod_spec job in
  existsb (fun c =>
    existsb (has_prefix "--result-token") (Args c) ||
    existsb (fun e => bool_decide (EnvName e ∈ [ResultJobUID; ServerTrust; IdentityTemplate])) (Env c)) (Containers spec) ||
  existsb (fun v => bool_decide (VolumeNameOf v = VolumeName) && bool_decide (is_Some (VolumeProjected v))) (Volumes spec).

(** What [url.Parse] gives of an endpoint, and whether
    [x509.CertPool.AppendCertsFromPEM] finds a certificate in a text. *)
Record endpoint_url : Type := {
  EndpointScheme : string;
  EndpointHostname : string;
  EndpointUser : bool;
  EndpointQuery : string;
  EndpointForceQuery : bool;
  EndpointFragment : string;
  EndpointPath : string;
}.
Class DeliveryLibraries : Type := {
  url_parse : string -> option endpoint_url;
  certs_from_pem : string -> bool;
}.

Record Config : Type := { Endpoint : string; ConfigGeneration : Z; SecretName : string; PodToken : bool }.

Section JobConfig.
Context `{DeliveryLibraries}.

Definition ValidateEndpoint (endpoint : string) : bool :=
  match url_parse endpoint with
  | None => false
  | Some u =>
      bool_decide (EndpointScheme u = "https") && negb (empty (EndpointHostname u)) && negb (EndpointUser u) &&
      empty (EndpointQuery u) && negb (EndpointForceQuery u) && empty (EndpointFragment u) &&
      (empty (EndpointPath u) || bool_decide (EndpointPath u = "/"))
  end.

Definition validServerTrust (trust : string) : bool := (0 <? len trust) && (len trust <=? 65536) && certs_from_pem trust.

(** The value of the one [--operation] flag. *)
Fixpoint operation_arg (operation : string) (args : list string) : option string :=
  match args with
  | [] => Some operation
  | arg :: rest =>
      if bool_decide (arg = "--operation") then
        if empty operation then match rest with value :: _ => operation_arg value rest | [] => None end else None
      else operation_arg operation rest
  end.
(** The engine, and whether a variable named one. *)
Fixpoint engine_env (engine : string) (seen : bool) (env : list EnvVar) : option string :=
  match env with
  | [] => Some engine
  | e :: rest =>
      if bool_decide (EnvName e = EnvExpectedDatabaseEngine) then
        if seen || bool_decide (is_Some (ValueFrom e)) then None else engine_env (to_lower (EnvValue e)) true rest
      else engine_env engine seen rest
  end.

(** The identity of the Job with the three fields Kubernetes assigns later
    as given. *)
Definition attempt_identity (job : Job) (owner : OwnerReference) (ownerUID : string) (generation : Z)
    (operationID operation engine jobUID podName podUID : string) : Identity :=
  {| IdentityBinding :=
       {| ResultStore.Namespace := MetaNamespace (JobMeta job); ResultStore.Kind := OwnerKind owner; ResultStore.Name_ := OwnerName owner;
          ResultStore.UID := ownerUID; ResultStore.Generation := generation;
          ResultStore.ExecutionBindingID := get (Annotations (JobMeta job)) "operator.ptah.run/execution-binding-id";
          ResultStore.InputFingerprint := get (Annotations (JobMeta job)) "operator.ptah.run/input-fingerprint";
          ResultStore.Operation := operation; ResultStore.OperationID := operationID; ResultStore.JobName := MetaName (JobMeta job);
          ResultStore.JobUID := jobUID; ResultStore.PodName := podName; ResultStore.PodUID := podUID |};
     Engine := engine |}.

Definition tokenTemplate (job : Job) (ownerUID : string) (generation : Z) (operationID : string) : option Identity :=
  match OwnerReferences (JobMeta job), Containers (job_pod_spec job) with
  | [owner], [main] =>
      if (generation <? 1) || negb (bool_decide (OwnerUID owner = ownerUID)) || negb (bool_decide (Controller owner = Some true)) ||
         negb (bool_decide (OwnerAPIVersion owner = operator_group)) ||
         negb (bool_decide (get (Annotations (JobMeta job)) "operator.ptah.run/operation-id" = operationID)) then None else
      operation ← operation_arg EmptyString (Args main);
      engine ← engine_env EmptyString false (Env main);
      let identity := attempt_identity job owner ownerUID generation operationID operation engine in
      if valid (identity "assigned-job-uid" "assigned-pod-name" "assigned-pod-uid")
      then Some (identity EmptyString EmptyString EmptyString) else None
  | _, _ => None
  end.

Definition tokenVariables (job : Job) (ownerUID : string) (generation : Z) (operationID trust : string) : option (list EnvVar) :=
  if negb (validServerTrust trust) then None else
  identity ← tokenTemplate job ownerUID generation operationID;
  let data := of_bytes (marshal (identity_json identity)) in
  if 4096 <? len data then None else
  Some (variables generation ++
        [field_env ResultJobUID "metadata.labels['batch.kubernetes.io/controller-uid']"; plain_env ServerTrust trust;
         plain_env IdentityTemplate data]).

(** ** What is read *)

(** The [--result-] flags: only the endpoint and this one, each once, each
    with a value, which is the argument after it. *)
Fixpoint result_args (credential : string) (args : gmap string string) (l : list string) : option (gmap string string) :=
  match l with
  | [] => Some args
  | arg :: rest =>
      if has_prefix "--result-" arg then
        if bool_decide (arg = "--result-endpoint") || bool_decide (arg = credential) then
          match rest, args !! arg with
          | value :: _, None => result_args credential (<[arg := value]> args) rest
          | _, _ => None
          end
        else None
      else result_args credential args rest
  end.
(** The [PTAH_RESULT_] variables by name. *)
Fixpoint result_env (selected : gmap string EnvVar) (env : list EnvVar) : option (gmap string EnvVar) :=
  match env with
  | [] => Some selected
  | e :: rest =>
      if has_prefix "PTAH_RESULT_" (EnvName e) then
        match selected !! EnvName e with
        | Some _ => None
        | None => result_env (<[EnvName e := e]> selected) rest
        end
      else result_env selected rest
  end.
Definition selected_value (selected : gmap string EnvVar) (name : string) : string :=
  match selected !! name with Some e => EnvValue e | None => EmptyString end.
Definition holds_variables (selected : gmap string EnvVar) (expected : list EnvVar) : bool :=
  forallb (fun e => bool_decide (selected !! EnvName e = Some e)) expected.

(** The volume or the mount of the credentials: there once, exactly as
    written. *)
Definition exactly_once {A} `{EqDecision A} (selects : A -> bool) (wanted : A) (l : list A) : bool :=
  bool_decide (List.filter selects l = [wanted]).
Definition result_volume (v : Volume) : bool := bool_decide (VolumeNameOf v = VolumeName).
Definition result_mounted (m : VolumeMount) : bool :=
  bool_decide (MountName m = VolumeName) || bool_decide (MountPathOf m = MountPath) || has_prefix (MountPath +:+ "/") (MountPathOf m).
Definition mounts_credentials (c : Container) : bool := existsb (fun m => bool_decide (MountName m = VolumeName)) (VolumeMounts c).

(** Another volume that projects a token, or that is of the Secret. *)
Definition projects_token (v : Volume) : bool :=
  match VolumeProjected v with
  | Some p => existsb (fun s => bool_decide (is_Some (ProjectedToken s))) (ProjectedSources p)
  | None => false
  end.
Definition projects_secret (name : string) (v : Volume) : bool :=
  match VolumeSecret v with Some s => bool_decide (SecretVolumeName s = name) | None => false end ||
  match VolumeProjected v with
  | Some p => existsb (fun s => bool_decide (ProjectedSecret s = Some name)) (ProjectedSources p)
  | None => false
  end.
Definition credentialEnvironment (name : string) (c : Container) : bool :=
  existsb (fun e => match ValueFrom e with
                    | Some source => match SecretKeyRef source with Some ref => bool_decide (SecretKeyName ref = name) | None => false end
                    | None => false
                    end) (Env c) ||
  existsb (fun s => bool_decide (FromSecretRef s = Some name)) (EnvFrom c).

(** The one runner container. *)
Definition runner (spec : PodSpec) : option Container :=
  match Containers spec with
  | [main] => if bool_decide (ContainerName main = runnerContainer) then Some main else None
  | _ => None
  end.
(** The generation of the variables, and the variables. *)
Definition read_generation (main : Container) (count : nat) : option (Z * gmap string EnvVar) :=
  selected ← result_env ∅ (Env main);
  generation ← parse_int (selected_value selected GenerationVar);
  if (generation <? 1) || negb (size selected =? count)%nat then None else Some (generation, selected).
Definition read_endpoint (main : Container) (credential path : string) : option string :=
  args ← result_args credential ∅ (Args main);
  if negb (size args =? 2)%nat || negb (ValidateEndpoint (get args "--result-endpoint")) || negb (bool_decide (get args credential = path))
  then None else Some (get args "--result-endpoint").

Definition readPodToken (job : Job) (ownerUID operationID : string) : option Config :=
  let spec := job_pod_spec job in
  if empty ownerUID || empty operationID then None else
  main ← runner spec;
  if negb (bool_decide (AutomountServiceAccountToken spec = Some false)) then None else
  endpoint ← read_endpoint main "--result-token" TokenPath;
  '(generation, selected) ← read_generation main 7;
  expected ← tokenVariables job ownerUID generation operationID (selected_value selected ServerTrust);
  if holds_variables selected expected &&
     exactly_once result_volume tokenVolume (Volumes spec) &&
     negb (existsb (fun v => negb (result_volume v) && projects_token v) (Volumes spec)) &&
     exactly_once result_mounted result_mount (VolumeMounts main) &&
     negb (existsb mounts_credentials (InitContainers spec ++ EphemeralContainers spec))
  then Some {| Endpoint := endpoint; ConfigGeneration := generation;
               SecretName := ResultRetention.CredentialName ownerUID operationID (MetaName (JobMeta job)); PodToken := true |}
  else None.

Definition readCredentials (job : Job) (ownerUID operationID : string) : option Config :=
  let spec := job_pod_spec job in
  if empty ownerUID || empty operationID then None else
  main ← runner spec;
  endpoint ← read_endpoint main "--result-credentials" MountPath;
  '(generation, selected) ← read_generation main 4;
  let name := ResultRetention.CredentialName ownerUID operationID (MetaName (JobMeta job)) in
  if holds_variables selected (variables generation) &&
     exactly_once result_volume (volume name) (Volumes spec) &&
     negb (existsb (fun v => negb (result_volume v) && projects_secret name v) (Volumes spec)) &&
     exactly_once result_mounted result_mount (VolumeMounts main) &&
     negb (bool_decide (name ∈ ImagePullSecrets spec)) &&
     negb (existsb (credentialEnvironment name) (main :: InitContainers spec ++ EphemeralContainers spec)) &&
     negb (existsb mounts_credentials (InitContainers spec ++ EphemeralContainers spec)) &&
     bool_decide (AutomountServiceAccountToken spec = Some false)
  then Some {| Endpoint := endpoint; ConfigGeneration := generation; SecretName := name; PodToken := false |}
  else None.

Definition Read (job : Job) (ownerUID operationID : string) : option Config :=
  if UsesPodToken job then readPodToken job ownerUID operationID else readCredentials job ownerUID operationID.

(** ** What is attached *)

(** The template with the flags, the variables, the volume and its mount
    added; the variables are sorted by name again. ([sort.Slice] leaves the
    order of equal names open; [Read] refuses a repeated result variable.) *)
Definition attached (job : Job) (main : Container) (flags : list string) (values : list EnvVar) (v : Volume) : Job :=
  let spec := job_pod_spec job in
  let main' :=
    {| ContainerName := ContainerName main; Args := Args main ++ flags; Env := sort_by EnvName (Env main ++ values); EnvFrom := EnvFrom main;
       VolumeMounts := VolumeMounts main ++ [result_mount]; Requests := Requests main; Limits := Limits main;
       ImagePullPolicy := ImagePullPolicy main; ContainerImage := ContainerImage main; ContainerRest := ContainerRest main |} in
  let spec' :=
    {| Containers := [main']; InitContainers := InitContainers spec; EphemeralContainers := EphemeralContainers spec;
       Volumes := Volumes spec ++ [v]; ServiceAccountName := ServiceAccountName spec; DeprecatedServiceAccount := DeprecatedServiceAccount spec;
       AutomountServiceAccountToken := AutomountServiceAccountToken spec; ImagePullSecrets := ImagePullSecrets spec;
       NodeName := NodeName spec; NodeSelector := NodeSelector spec; RuntimeClassName := RuntimeClassName spec;
       Overhead := Overhead spec; PriorityClassName := PriorityClassName spec; Priority := Priority spec;
       PreemptionPolicy := PreemptionPolicy spec; Tolerations := Tolerations spec; PodLevelResources := PodLevelResources spec;
       PodActiveDeadlineSeconds := PodActiveDeadlineSeconds spec; PodRest := PodRest spec |} in
  let j := JobSpecOf job in
  {| JobMeta := JobMeta job;
     JobSpecOf :=
       {| Parallelism := Parallelism j; Completions := Completions j; BackoffLimit := BackoffLimit j;
          ActiveDeadlineSeconds := ActiveDeadlineSeconds j; PodReplacementPolicy := PodReplacementPolicy j; CompletionMode := CompletionMode j;
          Suspend := Suspend j; ManualSelector := ManualSelector j; PodFailurePolicy := PodFailurePolicy j; SuccessPolicy := SuccessPolicy j;
          BackoffLimitPerIndex := BackoffLimitPerIndex j; MaxFailedIndexes := MaxFailedIndexes j; ManagedBy := ManagedBy j;
          TTLSecondsAfterFinished := TTLSecondsAfterFinished j; Selector := Selector j;
          Template := {| TemplateMeta := TemplateMeta (Template j); TemplateSpec := spec' |} |} |}.

Definition Attach (job : Job) (ownerUID : string) (generation : Z) (operationID endpoint : string) : option Job :=
  if empty (MetaName (JobMeta job)) || empty ownerUID || empty operationID || (generation <? 1) then None else
  if negb (ValidateEndpoint endpoint) then None else
  main ← runner (job_pod_spec job);
  let job' := attached job main ["--result-endpoint"; endpoint; "--result-credentials"; MountPath] (variables generation)
                (volume (ResultRetention.CredentialName ownerUID operationID (MetaName (JobMeta job)))) in
  _ ← Read job' ownerUID operationID; Some job'.

Definition AttachPodToken (job : Job) (ownerUID : string) (generation : Z) (operationID endpoint serverTrust : string) : option Job :=
  main ← runner (job_pod_spec job);
  if negb (ValidateEndpoint endpoint) then None else
  values ← tokenVariables job ownerUID generation operationID serverTrust;
  let job' := attached job main ["--result-endpoint"; endpoint; "--result-token"; TokenPath] values tokenVolume in
  _ ← readPodToken job' ownerUID operationID; Some job'.
End JobConfig.
