(* ===== verification/JobConfigProofs.v ===== *)
(** * What a read delivery projection pins (package [jobconfig])

    Soundness and completeness of [Read]: a Job it accepts carries exactly the
    delivery inputs [Attach] and [AttachPodToken] write, in its runner
    container alone; and attaching to a Job without any succeeds and is read
    back. *)
From Stdlib Require Import ZArith Lia Ascii.
From stdpp Require Import base list gmap strings sorting.
From S2P Require Import GoStrings Json JsonDecode Fingerprint SourceContent SourceContentProofs KubeMeta KubePod JobConfig.
From S2P Require ResultStore ResultRetention.
From S2P Require Import Prelude.
Local Open Scope go_scope.
Local Open Scope Z_scope.

Section Reading.
Context `{DeliveryLibraries}.

(** [Read] looks at these fields of a Job and at no others. *)
Definition same_delivery (a b : Job) : Prop :=
  let s := job_pod_spec a in let t := job_pod_spec b in
  (MetaName (JobMeta a), MetaNamespace (JobMeta a), OwnerReferences (JobMeta a), Annotations (JobMeta a)) =
  (MetaName (JobMeta b), MetaNamespace (JobMeta b), OwnerReferences (JobMeta b), Annotations (JobMeta b)) /\
  (Containers s, InitContainers s, EphemeralContainers s, Volumes s) = (Containers t, InitContainers t, EphemeralContainers t, Volumes t) /\
  (ImagePullSecrets s, AutomountServiceAccountToken s) = (ImagePullSecrets t, AutomountServiceAccountToken t).

Lemma Read_same a b owner operationID : same_delivery a b -> Read a owner operationID = Read b owner operationID.
Proof.
  intros ([= Hn Hns Ho Ha] & [= Hc Hi He Hv] & [= Hp Hm]).
  unfold Read, UsesPodToken, readPodToken, readCredentials, runner, tokenVariables, tokenTemplate, attempt_identity.
  by rewrite Hn, Hns, Ho, Ha, Hc, Hi, He, Hv, Hp, Hm.
Qed.

(** ** Flags and variables *)

Lemma result_env_spec selected env :
  result_env selected env =
    (let own := List.filter (fun e => has_prefix "PTAH_RESULT_" (EnvName e)) env in
     if decide (NoDup (EnvName <$> own) /\ Forall (fun e => selected !! EnvName e = None) own)
     then Some (list_to_map ((fun e => (EnvName e, e)) <$> own) ∪ selected) else None).
Proof.
  revert selected. induction env as [|e env IH]; intros selected; cbn [result_env List.filter].
  { cbv zeta. rewrite decide_True by (split; constructor). f_equal. symmetry. apply (left_id_L ∅ (∪)). }
  destruct (has_prefix "PTAH_RESULT_" (EnvName e)); [|apply IH]. rewrite IH. cbv zeta.
  set (own := List.filter _ env). destruct (selected !! EnvName e) eqn:Hs.
  { rewrite decide_False; [done|]. intros [_ Hf]. apply Forall_cons in Hf as [Hf _]. congruence. }
  case_decide as Hd.
  - destruct Hd as [Hnd Hf].
    assert (EnvName e ∉ (EnvName <$> own)) as Hin.
    { intros (x & Hx & Hin)%list_elem_of_fmap. rewrite Forall_forall in Hf. specialize (Hf x Hin). rewrite <- Hx, lookup_insert_eq in Hf. done. }
    rewrite decide_True; cycle 1.
    { split; [by constructor|]. constructor; [done|]. eapply Forall_impl; [exact Hf|]. intros x Hx. cbv beta in Hx.
      by apply lookup_insert_None in Hx as [? _]. }
    f_equal. rewrite fmap_cons, list_to_map_cons.
    rewrite <- insert_union_r, <- insert_union_l; [done|].
    apply not_elem_of_list_to_map_1. rewrite <- list_fmap_compose. exact Hin.
  - rewrite decide_False; [done|]. intros [Hnd Hf]. apply Hd. cbn [fmap list_fmap] in Hnd. apply NoDup_cons in Hnd as [Hin Hnd].
    apply Forall_cons in Hf as [_ Hf]. split; [done|]. rewrite Forall_forall in Hf |- *. intros x Hx.
    apply lookup_insert_None. split; [by apply Hf|]. intros Heq. apply Hin. rewrite Heq. by apply list_elem_of_fmap_2.
Qed.

Definition result_variables (env : list EnvVar) : list EnvVar := List.filter (fun e => has_prefix "PTAH_RESULT_" (EnvName e)) env.

Lemma result_env_some env selected :
  result_env ∅ env = Some selected <->
  NoDup (EnvName <$> result_variables env) /\ selected = list_to_map ((fun e => (EnvName e, e)) <$> result_variables env).
Proof.
  rewrite result_env_spec. cbv zeta. fold (result_variables env). case_decide as Hd; rewrite ?map_union_empty.
  - split; [intros [= <-]; tauto|]. by intros [_ ->].
  - split; [done|]. intros [Hnd _]. destruct Hd. split; [done|]. rewrite Forall_forall. intros x _. apply lookup_empty.
Qed.

(** The variables hold the expected ones and are as many: they are these. *)
Lemma holds_exactly env selected expected :
  result_env ∅ env = Some selected -> holds_variables selected expected = true ->
  NoDup (EnvName <$> expected) -> size selected = length expected -> result_variables env ≡ₚ expected.
Proof.
  intros [Hnd ->]%result_env_some Hh Hnd' Hsz. symmetry. apply submseteq_length_Permutation.
  - apply NoDup_submseteq; [by eapply NoDup_fmap_1|]. intros e He. unfold holds_variables in Hh. rewrite forallb_forall in Hh.
    specialize (Hh e). rewrite <- list_elem_of_In in Hh. specialize (Hh He). apply bool_decide_eq_true in Hh.
    apply elem_of_list_to_map_2 in Hh. apply list_elem_of_fmap in Hh as (x & [= _ ->] & Hx). exact Hx.
  - rewrite <- Hsz. rewrite map_size_list_to_map, length_fmap; [done|]. by rewrite <- list_fmap_compose.
Qed.

(** The argument after a flag is its value. *)
Definition flag_value (args : list string) (flag value : string) : Prop :=
  exists before after, args = before ++ flag :: value :: after.
Definition result_flags (args : list string) : list string := List.filter (has_prefix "--result-") args.

Lemma flag_value_cons arg args flag value : flag_value args flag value -> flag_value (arg :: args) flag value.
Proof. intros (before & after & ->). by exists (arg :: before), after. Qed.

Lemma result_args_some credential args l m :
  result_args credential args l = Some m ->
  NoDup (result_flags l) /\ dom m = dom args ∪ list_to_set (result_flags l) /\ (forall flag, flag ∈ result_flags l -> args !! flag = None) /\
  (forall flag, flag ∈ result_flags l -> flag = "--result-endpoint" \/ flag = credential) /\
  (forall flag value, m !! flag = Some value -> args !! flag = Some value \/ flag_value l flag value).
Proof.
  revert args. induction l as [|arg l IH]; intros args Hm; cbn [result_args] in Hm; unfold result_flags in *; cbn [List.filter].
  { injection Hm as <-. split; [constructor|]. split; [set_solver|]. split; [by intros ? ?%not_elem_of_nil|].
    split; [by intros ? ?%not_elem_of_nil|]. by left. }
  destruct (has_prefix "--result-" arg).
  2: { destruct (IH _ Hm) as (?&?&?&?&Hv). split_and!; [done..|]. intros flag value [?|?]%Hv; [by left|right; by apply flag_value_cons]. }
  destruct (bool_decide _ || bool_decide _) eqn:Hk; [|done]. destruct l as [|value l]; [done|]. destruct (args !! arg) eqn:Ha; [done|].
  destruct (IH _ Hm) as (Hnd & Hd & Hf & Hn & Hv). set (own := List.filter _ (value :: l)) in *.
  assert (arg ∉ own) as Hin. { intros Hin%Hf. by rewrite lookup_insert_eq in Hin. }
  split; [by constructor|]. split; [rewrite Hd, dom_insert_L; set_solver|]. split.
  { intros flag [->|Hflag]%elem_of_cons; [done|]. apply Hf in Hflag. by apply lookup_insert_None in Hflag as [? _]. }
  split.
  { intros flag [->|Hflag]%elem_of_cons; [|by apply Hn]. apply orb_true_iff in Hk as [?%bool_decide_eq_true|?%bool_decide_eq_true]; tauto. }
  intros flag v [Hflag|Hflag]%Hv; [|right; by apply flag_value_cons].
  apply lookup_insert_Some in Hflag as [[<- <-]|[_ Hflag]]; [right; by exists [], l|by left].
Qed.

Lemma read_endpoint_some main credential path endpoint :
  credential <> "--result-endpoint" -> read_endpoint main credential path = Some endpoint ->
  ValidateEndpoint endpoint = true /\ result_flags (Args main) ≡ₚ ["--result-endpoint"; credential] /\
  flag_value (Args main) "--result-endpoint" endpoint /\ (path <> EmptyString -> flag_value (Args main) credential path).
Proof.
  unfold read_endpoint. intros Hne Hr. destruct (result_args credential ∅ (Args main)) as [args|] eqn:Ha; [|done]. cbn [mbind option_bind] in Hr.
  destruct (negb (size args =? 2)%nat || _ || _) eqn:Hg; [done|]. injection Hr as <-.
  apply orb_false_iff in Hg as [[Hsz%negb_false_iff%Nat.eqb_eq Hv%negb_false_iff]%orb_false_iff Hp%negb_false_iff%bool_decide_eq_true].
  destruct (result_args_some _ _ _ _ Ha) as (Hnd & Hd & _ & Hn & Hval).
  assert (result_flags (Args main) ≡ₚ ["--result-endpoint"; credential]) as Hperm.
  { apply submseteq_length_Permutation.
    - apply NoDup_submseteq; [done|]. intros flag [->| ->]%Hn; set_solver.
    - rewrite <- size_dom, Hd, dom_empty_L, (left_id_L ∅ (∪)), size_list_to_set in Hsz by done. simpl. lia. }
  assert (forall flag, flag ∈ result_flags (Args main) -> flag_value (Args main) flag (get args flag)) as Hall.
  { intros flag Hflag. assert (flag ∈ dom args) as [v Hlook]%elem_of_dom by (rewrite Hd; set_solver).
    unfold get. rewrite Hlook. destruct (Hval flag v Hlook) as [Hl|Hl]; [by rewrite lookup_empty in Hl|exact Hl]. }
  split; [done|]. split; [done|]. split; [apply Hall; rewrite Hperm; set_solver|].
  intros _. rewrite <- Hp. apply Hall. rewrite Hperm. set_solver.
Qed.

Lemma read_generation_some main count generation selected :
  read_generation main count = Some (generation, selected) ->
  result_env ∅ (Env main) = Some selected /\ 1 <= generation /\ in_int64 generation = true /\ size selected = count.
Proof.
  unfold read_generation. intros Hr. destruct (result_env ∅ (Env main)) as [sel|]; [|done]. cbn [mbind option_bind] in Hr.
  destruct (parse_int _) as [g|] eqn:Hp; [|done]. cbn [mbind option_bind] in Hr. destruct (_ || _) eqn:Hg; [done|]. injection Hr as <- <-.
  apply orb_false_iff in Hg as [?%Z.ltb_ge ?%negb_false_iff%Nat.eqb_eq]. split_and!; [done..| |done].
  unfold parse_int in Hp. destruct (match selected_value sel GenerationVar with EmptyString => None | String _ _ => _ end); [|done].
  cbn [mbind option_bind] in Hp. destruct (in_int64 z) eqn:E; [|done]. by injection Hp as <-.
Qed.

Lemma runner_some spec main : runner spec = Some main <-> Containers spec = [main] /\ ContainerName main = runnerContainer.
Proof.
  unfold runner. destruct (Containers spec) as [|c [|d l]].
  - split; [done|]. by intros [? _].
  - case_bool_decide; split; [by intros [= ->]|by intros [[= ->] _]|done|intros [[= ->] ?]; done].
  - split; [done|]. by intros [? _].
Qed.

(** ** What an accepted Job carries *)

Definition delivery_flag (c : Config) : string * string :=
  if PodToken c then ("--result-token", TokenPath) else ("--result-credentials", MountPath).
Definition delivery_volume (c : Config) : Volume := if PodToken c then tokenVolume else volume (SecretName c).
(** The variables written for the generation: with a token, also the trust
    and the identity of this very Job. *)
Definition delivery_variables (job : Job) (owner operationID : string) (c : Config) (values : list EnvVar) : Prop :=
  if PodToken c then exists trust, tokenVariables job owner (ConfigGeneration c) operationID trust = Some values
  else values = variables (ConfigGeneration c).

(** The other places [Read] looks at: with a token no other volume projects
    any; otherwise no other Secret or projected volume is of the Secret, no
    variable of any container, and no image pull secret. A reference a storage
    driver makes ([VolumeSecretRefs]: CSI, FlexVolume and the like) is not
    looked at here; the Pod webhook counts it ([PodWebhook.References]). *)
Definition delivery_alone (spec : PodSpec) (c : Config) : Prop :=
  if PodToken c then forall v, v ∈ Volumes spec -> projects_token v = true -> v = tokenVolume
  else (forall v, v ∈ Volumes spec -> projects_secret (SecretName c) v = true -> v = volume (SecretName c)) /\
       (SecretName c ∉ ImagePullSecrets spec) /\
       (forall k, k ∈ Containers spec ++ InitContainers spec ++ EphemeralContainers spec -> credentialEnvironment (SecretName c) k = false).

Record delivers (job : Job) (owner operationID : string) (c : Config) (main : Container) : Prop := {
  delivers_runner : Containers (job_pod_spec job) = [main] /\ ContainerName main = runnerContainer;
  delivers_closed : AutomountServiceAccountToken (job_pod_spec job) = Some false;
  delivers_kind : PodToken c = UsesPodToken job;
  delivers_name : SecretName c = ResultRetention.CredentialName owner operationID (MetaName (JobMeta job));
  delivers_endpoint : ValidateEndpoint (Endpoint c) = true;
  delivers_generation : 1 <= ConfigGeneration c < 2 ^ 63;
  delivers_flags : result_flags (Args main) ≡ₚ ["--result-endpoint"; (delivery_flag c).1];
  delivers_values : flag_value (Args main) "--result-endpoint" (Endpoint c) /\ flag_value (Args main) (delivery_flag c).1 (delivery_flag c).2;
  delivers_variables : exists values, delivery_variables job owner operationID c values /\ result_variables (Env main) ≡ₚ values;
  delivers_volume : List.filter result_volume (Volumes (job_pod_spec job)) = [delivery_volume c];
  delivers_mount : List.filter result_mounted (VolumeMounts main) = [result_mount];
  delivers_unmounted : forall k, k ∈ InitContainers (job_pod_spec job) ++ EphemeralContainers (job_pod_spec job) -> mounts_credentials k = false;
  delivers_alone : delivery_alone (job_pod_spec job) c;
}.

Lemma tokenVariables_names job owner generation operationID trust values :
  tokenVariables job owner generation operationID trust = Some values ->
  EnvName <$> values = [GenerationVar; PodNamespaceVar; PodNameVar; PodUIDVar; ResultJobUID; ServerTrust; IdentityTemplate].
Proof.
  unfold tokenVariables. destruct (negb _); [done|]. destruct (tokenTemplate _ _ _ _); [|done]. cbn [mbind option_bind].
  destruct (4096 <? _); [done|]. by intros [= <-].
Qed.

Lemma exactly_once_some {A} `{EqDecision A} (selects : A -> bool) (wanted : A) l :
  exactly_once selects wanted l = true -> List.filter selects l = [wanted].
Proof. apply bool_decide_eq_true. Qed.

Lemma existsb_false {A} (f : A -> bool) l : existsb f l = false <-> forall x, x ∈ l -> f x = false.
Proof.
  induction l as [|y l IH]; cbn [existsb]; [split; [by intros _ x ?%not_elem_of_nil|done]|].
  rewrite orb_false_iff, IH. split; [intros [Hy Hl] x [->|?]%elem_of_cons; [done|by apply Hl]|].
  intros Hl. split; [apply Hl; by left|]. intros x Hx. apply Hl. by right.
Qed.

(** The selected volume is the one written, so every other that projects
    anything is refused. *)
Lemma only_volume (f : Volume -> bool) v l :
  List.filter result_volume l = [v] -> existsb (fun x => negb (result_volume x) && f x) l = false ->
  forall x, x ∈ l -> f x = true -> x = v.
Proof.
  intros Hf He x Hx Hfx. rewrite existsb_false in He. specialize (He x Hx). rewrite Hfx, andb_true_r in He.
  apply negb_false_iff in He. assert (x ∈ List.filter result_volume l) as Hin.
  { rewrite list_elem_of_In, filter_In, <- list_elem_of_In. done. }
  rewrite Hf in Hin. by apply list_elem_of_singleton in Hin.
Qed.

Lemma readPodToken_some job owner operationID c :
  readPodToken job owner operationID = Some c -> UsesPodToken job = true -> exists main, delivers job owner operationID c main.
Proof.
  unfold readPodToken. intros Hr Hu. destruct (empty owner || empty operationID); [done|].
  destruct (runner (job_pod_spec job)) as [main|] eqn:Hmain; [|done]. cbn [mbind option_bind] in Hr.
  destruct (negb (bool_decide (AutomountServiceAccountToken _ = _))) eqn:Hauto; [done|]. apply negb_false_iff, bool_decide_eq_true in Hauto.
  destruct (read_endpoint _ _ _) as [endpoint|] eqn:Hend; [|done]. cbn [mbind option_bind] in Hr.
  destruct (read_generation main 7) as [[generation selected]|] eqn:Hgen; [|done]. cbn [mbind option_bind] in Hr.
  destruct (tokenVariables _ _ _ _ _) as [values|] eqn:Hval; [|done]. cbn [mbind option_bind] in Hr.
  destruct (_ && _) eqn:Hc in Hr; [|done]. injection Hr as <-.
  apply andb_true_iff in Hc as [[[[Hh Hvol%exactly_once_some]%andb_true_iff Hno%negb_true_iff]%andb_true_iff Hm%exactly_once_some]%andb_true_iff Hin%negb_true_iff].
  apply read_endpoint_some in Hend as (He & Hfl & Hv1 & Hv2); [|done].
  apply read_generation_some in Hgen as (Hsel & Hg1 & Hg2 & Hsz).
  exists main. constructor; cbn; try done.
  - by apply runner_some.
  - unfold in_int64 in Hg2. lia.
  - split; [done|by apply Hv2].
  - exists values. split; [by exists (selected_value selected ServerTrust)|]. apply tokenVariables_names in Hval as Hnames.
    eapply holds_exactly; [exact Hsel|exact Hh|rewrite Hnames; apply (bool_decide_unpack _); by vm_compute|].
    rewrite Hsz, <- (length_fmap EnvName values), Hnames. done.
  - by apply existsb_false.
  - unfold delivery_alone. cbn. eapply only_volume; [exact Hvol|exact Hno].
Qed.

Lemma readCredentials_some job owner operationID c :
  readCredentials job owner operationID = Some c -> UsesPodToken job = false -> exists main, delivers job owner operationID c main.
Proof.
  unfold readCredentials. intros Hr Hu. destruct (empty owner || empty operationID); [done|].
  destruct (runner (job_pod_spec job)) as [main|] eqn:Hmain; [|done]. cbn [mbind option_bind] in Hr.
  destruct (read_endpoint _ _ _) as [endpoint|] eqn:Hend; [|done]. cbn [mbind option_bind] in Hr.
  destruct (read_generation main 4) as [[generation selected]|] eqn:Hgen; [|done]. cbn [mbind option_bind] in Hr.
  set (name := ResultRetention.CredentialName _ _ _) in *.
  destruct (_ && _) eqn:Hc in Hr; [|done]. injection Hr as <-.
  apply andb_true_iff in Hc as [Hc Hauto%bool_decide_eq_true]. apply andb_true_iff in Hc as [Hc Hin%negb_true_iff].
  apply andb_true_iff in Hc as [Hc Henv%negb_true_iff]. apply andb_true_iff in Hc as [Hc Hpull%negb_true_iff%bool_decide_eq_false].
  apply andb_true_iff in Hc as [[[Hh Hvol%exactly_once_some]%andb_true_iff Hno%negb_true_iff]%andb_true_iff Hm%exactly_once_some].
  apply read_endpoint_some in Hend as (He & Hfl & Hv1 & Hv2); [|done].
  apply read_generation_some in Hgen as (Hsel & Hg1 & Hg2 & Hsz). apply runner_some in Hmain as [Hone Hname].
  exists main. constructor; cbn; try done.
  - unfold in_int64 in Hg2. lia.
  - split; [done|by apply Hv2].
  - exists (variables generation). split; [done|].
    eapply holds_exactly; [exact Hsel|exact Hh|apply (bool_decide_unpack (NoDup [GenerationVar; PodNamespaceVar; PodNameVar; PodUIDVar])); by vm_compute|].
    by rewrite Hsz.
  - by apply existsb_false.
  - unfold delivery_alone. cbn. split; [eapply only_volume; [exact Hvol|exact Hno]|]. split; [done|].
    rewrite Hone. by apply existsb_false.
Qed.

(** C11: a Job whose delivery projection is accepted delivers as it was
    dispatched and from one place. It has the runner container alone and no
    token of the API server; the two result flags, once each, with an HTTPS
    endpoint; exactly the variables written for its generation, and with a
    token the identity of this very Job; one volume with the credential,
    mounted once by the runner, read only, and by no other container. With a
    token, no other volume projects one; otherwise no other Secret volume,
    projected source, variable or image pull secret names the Secret. *)
Theorem accepted_delivery_pinned job owner operationID c :
  Read job owner operationID = Some c -> exists main, delivers job owner operationID c main.
Proof.
  unfold Read. destruct (UsesPodToken job) eqn:E; intros Hr; [by apply readPodToken_some|by apply readCredentials_some].
Qed.

(** ** Attaching *)

(** A template that delivers nothing yet. *)
Record undelivered (spec : PodSpec) (main : Container) : Prop := {
  undelivered_runner : runner spec = Some main;
  undelivered_closed : AutomountServiceAccountToken spec = Some false;
  undelivered_flags : result_flags (Args main) = [];
  undelivered_variables : result_variables (Env main) = [];
  undelivered_volume : List.filter result_volume (Volumes spec) = [];
  undelivered_mount : List.filter result_mounted (VolumeMounts main) = [];
  undelivered_unmounted : existsb mounts_credentials (InitContainers spec ++ EphemeralContainers spec) = false;
}.
(** Nothing of the template is of the Secret. *)
Definition free_of (name : string) (spec : PodSpec) : Prop :=
  existsb (projects_secret name) (Volumes spec) = false /\ (name ∉ ImagePullSecrets spec) /\
  existsb (credentialEnvironment name) (Containers spec ++ InitContainers spec ++ EphemeralContainers spec) = false.

Lemma result_args_skip credential args l l' :
  result_flags l = [] -> result_args credential args (l ++ l') = result_args credential args l'.
Proof.
  unfold result_flags. induction l as [|arg l IH]; intros Hf; [done|]. cbn [List.filter app result_args] in *.
  destruct (has_prefix "--result-" arg); [done|by apply IH].
Qed.

Lemma dash_prefix p s : has_prefix ("--" +:+ p) s = true -> has_prefix "--" s = true.
Proof. intros (t & ->)%has_prefix_spec. apply has_prefix_spec. exists (p +:+ t). by rewrite <- str_app_assoc. Qed.

(** The flags attached after those of the template are read back. *)
Lemma read_endpoint_attached main main' credential path endpoint :
  has_prefix "--" endpoint = false -> ValidateEndpoint endpoint = true -> result_flags (Args main) = [] ->
  Args main' = Args main ++ ["--result-endpoint"; endpoint; credential; path] ->
  has_prefix "--result-" credential = true -> credential <> "--result-endpoint" -> has_prefix "--result-" path = false ->
  read_endpoint main' credential path = Some endpoint.
Proof.
  intros He Hv Hf Ha Hc Hne Hp. unfold read_endpoint. rewrite Ha, result_args_skip by done.
  assert (has_prefix "--result-" endpoint = false) as He'.
  { destruct (has_prefix "--result-" endpoint) eqn:E; [|done]. change "--result-" with ("--" +:+ "result-") in E. by rewrite (dash_prefix _ _ E) in He. }
  cbn [result_args]. rewrite Hc, Hp, He'. rewrite (bool_decide_eq_true_2 (credential = credential)) by done.
  change (has_prefix "--result-" "--result-endpoint") with true. rewrite orb_true_r.
  change (bool_decide ("--result-endpoint" = "--result-endpoint") || bool_decide ("--result-endpoint" = credential)) with true.
  rewrite lookup_empty, lookup_insert_ne, lookup_empty by congruence. cbn [mbind option_bind].
  rewrite map_size_insert_None, map_size_insert_None, map_size_empty by (rewrite ?lookup_insert_ne by congruence; apply lookup_empty).
  unfold get. rewrite lookup_insert_eq, lookup_insert_ne, lookup_insert_eq by congruence. cbn [str_or_empty default from_option id].
  by rewrite Hv, bool_decide_eq_true_2.
Qed.

Lemma filter_app_bool {A} (f : A -> bool) l l' : List.filter f (l ++ l') = List.filter f l ++ List.filter f l'.
Proof. induction l as [|x l IH]; [done|]. cbn [app List.filter]. destruct (f x); [by rewrite IH|done]. Qed.
Lemma filter_perm_bool {A} (f : A -> bool) l l' : l ≡ₚ l' -> List.filter f l ≡ₚ List.filter f l'.
Proof. induction 1; cbn [List.filter]; repeat destruct (f _); try done; [by constructor|by constructor|by etrans]. Qed.

Lemma result_variables_attached env values :
  result_variables env = [] -> Forall (fun e => has_prefix "PTAH_RESULT_" (EnvName e) = true) values ->
  result_variables (sort_by EnvName (env ++ values)) ≡ₚ values.
Proof.
  intros Hn Hv. unfold result_variables in *. rewrite <- (filter_perm_bool _ _ _ (sort_by_perm EnvName (env ++ values))).
  rewrite filter_app_bool, Hn. cbn [app]. induction Hv as [|e l He Hv IH]; cbn [List.filter]; [done|]. by rewrite He, IH.
Qed.

Lemma read_generation_attached main values generation :
  result_variables (Env main) ≡ₚ values -> NoDup (EnvName <$> values) -> 1 <= generation < 2 ^ 63 ->
  plain_env GenerationVar (format_int generation) ∈ values ->
  exists selected, read_generation main (length values) = Some (generation, selected) /\ holds_variables selected values = true.
Proof.
  intros Hp Hnd Hg Hin.
  set (selected := (list_to_map ((fun e => (EnvName e, e)) <$> result_variables (Env main)) : gmap string EnvVar)).
  assert (NoDup (EnvName <$> result_variables (Env main))) as Hnd' by (by rewrite (fmap_Permutation EnvName _ _ Hp)).
  assert (forall e, e ∈ values -> selected !! EnvName e = Some e) as Hsel.
  { intros e He. apply elem_of_list_to_map_1; [by rewrite <- list_fmap_compose|]. apply (list_elem_of_fmap_2 (fun e => (EnvName e, e))).
    by rewrite Hp. }
  exists selected. split.
  - unfold read_generation. replace (result_env ∅ (Env main)) with (Some selected) by (symmetry; by apply result_env_some).
    cbn [mbind option_bind]. unfold selected_value.
    change GenerationVar with (EnvName (plain_env GenerationVar (format_int generation))). rewrite Hsel by done. cbn [EnvValue plain_env].
    rewrite parse_format_int by lia. cbn [mbind option_bind].
    replace (size selected) with (length values); cycle 1.
    { unfold selected. rewrite map_size_list_to_map by (by rewrite <- list_fmap_compose). by rewrite length_fmap, Hp. }
    rewrite Nat.eqb_refl. by replace (generation <? 1) with false by lia.
  - unfold holds_variables. apply forallb_forall. intros e He%list_elem_of_In. apply bool_decide_eq_true. by apply Hsel.
Qed.

(** The loops that look for the operation and the engine find them again
    behind what is attached. *)
Lemma operation_arg_app operation l l' v :
  operation_arg operation l = Some v -> Forall (fun a => a <> "--operation") l' -> operation_arg operation (l ++ l') = Some v.
Proof.
  revert operation. induction l as [|arg l IH]; intros operation Hl Hf.
  - cbn in Hl. injection Hl as ->. cbn [app]. induction Hf as [|a l' Ha Hf IH]; [done|]. cbn [operation_arg].
    by rewrite bool_decide_eq_false_2.
  - cbn [operation_arg app] in *. case_bool_decide; [|by apply IH]. destruct (empty operation); [|done].
    destruct l as [|value l]; [done|]. by apply IH.
Qed.

Definition engine_variables (env : list EnvVar) : list EnvVar := List.filter (fun e => bool_decide (EnvName e = EnvExpectedDatabaseEngine)) env.
Lemma engine_env_spec env engine seen :
  engine_env engine seen env =
    match engine_variables env with
    | [] => Some engine
    | [e] => if seen || bool_decide (is_Some (ValueFrom e)) then None else Some (to_lower (EnvValue e))
    | _ => None
    end.
Proof.
  revert engine seen. induction env as [|e env IH]; intros engine seen; [done|]. cbn [engine_env].
  unfold engine_variables in *. cbn [List.filter]. case_bool_decide; [|apply IH].
  destruct (seen || _); [by destruct (List.filter _ env)|]. rewrite IH. by destruct (List.filter _ env) as [|e' [|e'' l]].
Qed.
Lemma engine_env_perm env env' engine : engine_variables env ≡ₚ engine_variables env' -> engine_env engine false env = engine_env engine false env'.
Proof.
  rewrite !engine_env_spec. intros Hp. destruct (engine_variables env) as [|e [|e' l]].
  - apply Permutation_nil_l in Hp. by rewrite <- Hp.
  - symmetry in Hp. apply Permutation_singleton_r in Hp. by rewrite Hp.
  - destruct (engine_variables env') as [|d [|d' l']]; [by apply Permutation_length in Hp..|done].
Qed.

Lemma tokenTemplate_attached job main flags values v owner generation operationID i :
  Containers (job_pod_spec job) = [main] -> Forall (fun a => a <> "--operation") flags ->
  Forall (fun e => EnvName e <> EnvExpectedDatabaseEngine) values ->
  tokenTemplate job owner generation operationID = Some i ->
  tokenTemplate (attached job main flags values v) owner generation operationID = Some i.
Proof.
  intros Hone Hf Hv. unfold tokenTemplate. rewrite Hone. cbn [job_pod_spec attached JobSpecOf Template TemplateSpec Containers JobMeta Args Env].
  destruct (OwnerReferences (JobMeta job)) as [|r [|]]; [done| |done]. destruct (_ || _); [done|].
  destruct (operation_arg EmptyString (Args main)) as [operation|] eqn:Ho; [|done].
  rewrite (operation_arg_app _ _ _ _ Ho Hf). cbn [mbind option_bind].
  rewrite (engine_env_perm (sort_by EnvName (Env main ++ values)) (Env main)); [done|].
  unfold engine_variables. rewrite <- (filter_perm_bool _ _ _ (sort_by_perm EnvName (Env main ++ values))), filter_app_bool.
  replace (List.filter _ values) with (@nil EnvVar); [by rewrite app_nil_r|]. symmetry.
  induction Hv as [|e l He Hv IH]; [done|]. cbn [List.filter]. by rewrite bool_decide_eq_false_2.
Qed.

Lemma tokenVariables_attached job main flags values v owner generation operationID trust :
  Containers (job_pod_spec job) = [main] -> Forall (fun a => a <> "--operation") flags ->
  tokenVariables job owner generation operationID trust = Some values ->
  tokenVariables (attached job main flags values v) owner generation operationID trust = Some values.
Proof.
  intros Hone Hf Hv. pose proof (tokenVariables_names _ _ _ _ _ _ Hv) as Hn. revert Hv. unfold tokenVariables.
  destruct (negb (validServerTrust trust)); [done|]. destruct (tokenTemplate job _ _ _) as [i|] eqn:Ht; [|done].
  rewrite (tokenTemplate_attached _ _ _ _ _ _ _ _ i); [done|done|done| |done].
  apply Forall_forall. intros e He. apply (list_elem_of_fmap_2 EnvName) in He. rewrite Hn in He.
  intros Heq. rewrite Heq in He. revert He. apply (bool_decide_eq_false (EnvExpectedDatabaseEngine ∈ _)). by vm_compute.
Qed.

Lemma tokenVariables_trust job owner generation operationID trust values :
  tokenVariables job owner generation operationID trust = Some values ->
  plain_env GenerationVar (format_int generation) ∈ values /\ plain_env ServerTrust trust ∈ values.
Proof.
  unfold tokenVariables. destruct (negb _); [done|]. destruct (tokenTemplate _ _ _ _); [|done]. cbn [mbind option_bind].
  destruct (4096 <? _); [done|]. intros [= <-]. split; [by left|].
  cbn [variables app]. do 5 right. by left.
Qed.

Lemma exactly_once_attached {A} `{EqDecision A} (selects : A -> bool) (wanted : A) l :
  List.filter selects l = [] -> selects wanted = true -> exactly_once selects wanted (l ++ [wanted]) = true.
Proof. intros Hl Hw. apply bool_decide_eq_true. rewrite filter_app_bool, Hl. cbn. by rewrite Hw. Qed.

Lemma others_app (f : Volume -> bool) v l :
  existsb f l = false -> result_volume v = true -> existsb (fun x => negb (result_volume x) && f x) (l ++ [v]) = false.
Proof.
  rewrite !existsb_false. intros Hl Hv x [Hx|Hx%list_elem_of_singleton]%elem_of_app.
  - by rewrite (Hl x Hx), andb_false_r.
  - by rewrite Hx, Hv.
Qed.

Lemma dashes endpoint : has_prefix "--" endpoint = false -> endpoint <> "--operation".
Proof. by intros He ->. Qed.

(** A Job without result flags, variables and volume uses no Pod token,
    before and after a Secret is attached. *)
Lemma uses_no_token job main :
  Containers (job_pod_spec job) = [main] ->
  (forall a, a ∈ Args main -> has_prefix "--result-token" a = false) ->
  (forall e, e ∈ Env main -> EnvName e ∉ [ResultJobUID; ServerTrust; IdentityTemplate]) ->
  (forall v, v ∈ Volumes (job_pod_spec job) -> result_volume v = true -> VolumeProjected v = None) -> UsesPodToken job = false.
Proof.
  intros Hone Ha He Hv. unfold UsesPodToken. rewrite Hone. apply orb_false_iff. split.
  - cbn [existsb]. rewrite orb_false_r. apply orb_false_iff. split; apply existsb_false; [done|].
    intros e Hin. apply bool_decide_eq_false. by apply He.
  - apply existsb_false. intros v Hin. destruct (bool_decide (VolumeNameOf v = VolumeName)) eqn:E; [|done].
    rewrite (Hv v Hin E). done.
Qed.

Lemma result_flags_none args a : result_flags args = [] -> a ∈ args -> has_prefix "--result-" a = false.
Proof.
  intros Hf Ha. destruct (has_prefix "--result-" a) eqn:E; [|done].
  assert (a ∈ result_flags args) as Hin by (unfold result_flags; rewrite list_elem_of_In, filter_In, <- list_elem_of_In; done).
  rewrite Hf in Hin. by apply not_elem_of_nil in Hin.
Qed.
Lemma result_variables_none env e : result_variables env = [] -> e ∈ env -> has_prefix "PTAH_RESULT_" (EnvName e) = false.
Proof.
  intros Hf He. destruct (has_prefix "PTAH_RESULT_" (EnvName e)) eqn:E; [|done].
  assert (e ∈ result_variables env) as Hin by (unfold result_variables; rewrite list_elem_of_In, filter_In, <- list_elem_of_In; done).
  rewrite Hf in Hin. by apply not_elem_of_nil in Hin.
Qed.
Lemma token_prefix a : has_prefix "--result-token" a = true -> has_prefix "--result-" a = true.
Proof. intros (t & ->)%has_prefix_spec. apply has_prefix_spec. by exists ("token" +:+ t). Qed.

Lemma attach_credentials job main owner generation operationID endpoint :
  let spec := job_pod_spec job in
  let name := ResultRetention.CredentialName owner operationID (MetaName (JobMeta job)) in
  undelivered spec main -> free_of name spec -> has_prefix "--" endpoint = false -> ValidateEndpoint endpoint = true ->
  1 <= generation < 2 ^ 63 -> owner <> EmptyString -> operationID <> EmptyString ->
  let job' := attached job main ["--result-endpoint"; endpoint; "--result-credentials"; MountPath] (variables generation) (volume name) in
  Read job' owner operationID = Some {| Endpoint := endpoint; ConfigGeneration := generation; SecretName := name; PodToken := false |}.
Proof.
  intros spec name [Hrun Hauto Hflags Hvars Hvol Hmnt Hun] (Hfv & Hfp & Hfe) He Hv Hg Ho Hop job'.
  apply runner_some in Hrun as [Hone Hname]. set (main' := hd main (Containers (job_pod_spec job'))).
  assert (Containers (job_pod_spec job') = [main']) as Hone' by done.
  assert (result_variables (Env main') ≡ₚ variables generation) as Hp.
  { apply result_variables_attached; [done|]. repeat constructor. }
  destruct (read_generation_attached main' (variables generation) generation Hp) as (selected & Hgen & Hh); [|done|by left|].
  { apply (bool_decide_unpack (NoDup [GenerationVar; PodNamespaceVar; PodNameVar; PodUIDVar])). by vm_compute. }
  assert (UsesPodToken job' = false) as Huse.
  { apply (uses_no_token job' main'); [done|..].
    - intros a [Ha|Ha]%elem_of_app.
      + destruct (has_prefix "--result-token" a) eqn:E; [|done]. apply token_prefix in E. by rewrite (result_flags_none _ a Hflags Ha) in E.
      + rewrite !elem_of_cons in Ha. destruct Ha as [->|[->|[->|[->|[]%not_elem_of_nil]]]]; try (by vm_compute).
        destruct (has_prefix "--result-token" endpoint) eqn:E; [|done]. change "--result-token" with ("--" +:+ "result-token") in E.
        by rewrite (dash_prefix _ _ E) in He.
    - intros e Hin. change (Env main') with (sort_by EnvName (Env main ++ variables generation)) in Hin. rewrite <- sort_by_perm in Hin.
      apply elem_of_app in Hin as [Hin|Hin].
      + intros Hn. pose proof (result_variables_none _ e Hvars Hin) as E. rewrite !elem_of_cons in Hn.
        destruct Hn as [Hn|[Hn|[Hn|[]%not_elem_of_nil]]]; by rewrite Hn in E.
      + apply (list_elem_of_fmap_2 EnvName) in Hin. cbn in Hin. rewrite !elem_of_cons in Hin.
        destruct Hin as [->|[->|[->|[->|[]%not_elem_of_nil]]]]; apply (proj1 (bool_decide_eq_false _)); by vm_compute.
    - intros v [Hin|Hin%list_elem_of_singleton]%elem_of_app Hr; [|by subst].
      assert (v ∈ List.filter result_volume (Volumes spec)) as Hin' by (rewrite list_elem_of_In, filter_In, <- list_elem_of_In; done).
      rewrite Hvol in Hin'. by apply not_elem_of_nil in Hin'. }
  unfold Read. rewrite Huse. unfold readCredentials, empty. cbv zeta. rewrite !bool_decide_eq_false_2 by done. cbn [orb].
  replace (runner (job_pod_spec job')) with (Some main') by (symmetry; apply runner_some; done). cbn [mbind option_bind].
  rewrite (read_endpoint_attached main main' _ _ endpoint He Hv Hflags) by done. cbn [mbind option_bind].
  change 4%nat with (length (variables generation)). rewrite Hgen. cbn [mbind option_bind]. rewrite Hh.
  change (MetaName (JobMeta job')) with (MetaName (JobMeta job)). fold name. change (Volumes (job_pod_spec job')) with (Volumes spec ++ [volume name]).
  change (VolumeMounts main') with (VolumeMounts main ++ [result_mount]). rewrite !exactly_once_attached by done.
  rewrite others_app by done.
  change (InitContainers (job_pod_spec job') ++ EphemeralContainers (job_pod_spec job')) with (InitContainers spec ++ EphemeralContainers spec).
  rewrite Hun. change (AutomountServiceAccountToken (job_pod_spec job')) with (AutomountServiceAccountToken spec). rewrite (bool_decide_eq_true_2 _ Hauto).
  replace (existsb (credentialEnvironment name) (main' :: _)) with false; [done|]. symmetry.
  replace (Containers spec) with [main] in Hfe by (symmetry; exact Hone). cbn [app existsb] in Hfe |- *. apply orb_false_iff in Hfe as [Hfe ->]. rewrite orb_false_r.
  unfold credentialEnvironment in *. apply orb_false_iff in Hfe as [Hfe Hff]. change (EnvFrom main') with (EnvFrom main). rewrite Hff, orb_false_r.
  rewrite existsb_false in Hfe |- *. intros e Hin. change (Env main') with (sort_by EnvName (Env main ++ variables generation)) in Hin.
  rewrite <- sort_by_perm in Hin. apply elem_of_app in Hin as [Hin|Hin]; [by apply Hfe|].
  unfold variables in Hin. rewrite !elem_of_cons in Hin. by destruct Hin as [->|[->|[->|[->|[]%not_elem_of_nil]]]].
Qed.

Lemma attach_token job main owner generation operationID endpoint trust values :
  let spec := job_pod_spec job in
  undelivered spec main -> existsb projects_token (Volumes spec) = false ->
  has_prefix "--" endpoint = false -> ValidateEndpoint endpoint = true ->
  1 <= generation < 2 ^ 63 -> owner <> EmptyString -> operationID <> EmptyString ->
  tokenVariables job owner generation operationID trust = Some values ->
  let job' := attached job main ["--result-endpoint"; endpoint; "--result-token"; TokenPath] values tokenVolume in
  UsesPodToken job' = true /\
  readPodToken job' owner operationID =
    Some {| Endpoint := endpoint; ConfigGeneration := generation;
            SecretName := ResultRetention.CredentialName owner operationID (MetaName (JobMeta job)); PodToken := true |}.
Proof.
  intros spec [Hrun Hauto Hflags Hvars Hvol Hmnt Hun] Hnt He Hv Hg Ho Hop Htv job'.
  apply runner_some in Hrun as [Hone Hname]. set (main' := hd main (Containers (job_pod_spec job'))).
  assert (Containers (job_pod_spec job') = [main']) as Hone' by done.
  pose proof (tokenVariables_names _ _ _ _ _ _ Htv) as Hnames. destruct (tokenVariables_trust _ _ _ _ _ _ Htv) as [Hgv Htr].
  assert (Forall (fun e => has_prefix "PTAH_RESULT_" (EnvName e) = true) values) as Hpre.
  { apply (Forall_fmap EnvName (fun n => has_prefix "PTAH_RESULT_" n = true)). rewrite Hnames. repeat constructor. }
  assert (result_variables (Env main') ≡ₚ values) as Hp by (by apply result_variables_attached).
  assert (NoDup (EnvName <$> values)) as Hnd by (rewrite Hnames; apply (bool_decide_unpack _); by vm_compute).
  assert (length values = 7%nat) as Hlen by (by rewrite <- (length_fmap EnvName values), Hnames).
  destruct (read_generation_attached main' values generation Hp Hnd Hg Hgv) as (selected & Hgen & Hh).
  split.
  { unfold UsesPodToken. rewrite Hone'. apply orb_true_iff. left. cbn [existsb]. rewrite orb_false_r. apply orb_true_iff. left.
    apply existsb_exists. exists "--result-token". split; [|done]. apply list_elem_of_In, elem_of_app. right. do 2 right. by left. }
  unfold readPodToken, empty. cbv zeta. rewrite !bool_decide_eq_false_2 by done. cbn [orb].
  replace (runner (job_pod_spec job')) with (Some main') by (symmetry; apply runner_some; done). cbn [mbind option_bind].
  change (AutomountServiceAccountToken (job_pod_spec job')) with (AutomountServiceAccountToken spec). rewrite (bool_decide_eq_true_2 _ Hauto).
  rewrite (read_endpoint_attached main main' _ _ endpoint He Hv Hflags) by done. cbn [negb mbind option_bind].
  rewrite <- Hlen, Hgen. cbn [mbind option_bind].
  assert (selected_value selected ServerTrust = trust) as ->.
  { unfold holds_variables in Hh. rewrite forallb_forall in Hh. specialize (Hh _ (proj1 (list_elem_of_In _ _) Htr)).
    apply bool_decide_eq_true in Hh. unfold selected_value. cbn [EnvName plain_env] in Hh. by rewrite Hh. }
  replace (tokenVariables job' owner generation operationID trust) with (Some values); cycle 1.
  { symmetry. apply tokenVariables_attached; [done| |done]. repeat constructor; try done. by apply dashes. }
  cbn [mbind option_bind]. rewrite Hh. change (Volumes (job_pod_spec job')) with (Volumes spec ++ [tokenVolume]).
  change (VolumeMounts main') with (VolumeMounts main ++ [result_mount]). rewrite !exactly_once_attached by done.
  rewrite others_app by done.
  change (InitContainers (job_pod_spec job') ++ EphemeralContainers (job_pod_spec job')) with (InitContainers spec ++ EphemeralContainers spec).
  by rewrite Hun.
Qed.

(** Attaching the delivery inputs to a template that has none yet
    succeeds, for a valid endpoint and generation, and is read back exactly:
    with a credential Secret when nothing of the template is of that Secret,
    and with a Pod token whenever the Job's identity and the public trust are
    well formed and no other volume projects a token. *)
Theorem attached_delivery_reads job main owner generation operationID endpoint :
  let spec := job_pod_spec job in
  let name := ResultRetention.CredentialName owner operationID (MetaName (JobMeta job)) in
  let config token := {| Endpoint := endpoint; ConfigGeneration := generation; SecretName := name; PodToken := token |} in
  undelivered spec main -> has_prefix "--" endpoint = false -> ValidateEndpoint endpoint = true ->
  1 <= generation < 2 ^ 63 -> owner <> EmptyString -> operationID <> EmptyString ->
  (MetaName (JobMeta job) <> EmptyString -> free_of name spec ->
   exists job', Attach job owner generation operationID endpoint = Some job' /\ Read job' owner operationID = Some (config false)) /\
  (forall trust values, tokenVariables job owner generation operationID trust = Some values ->
   existsb projects_token (Volumes spec) = false ->
   exists job', AttachPodToken job owner generation operationID endpoint trust = Some job' /\ Read job' owner operationID = Some (config true)).
Proof.
  intros spec name config Hu He Hv Hg Ho Hop. pose proof (undelivered_runner _ _ Hu) as Hrun. split.
  - intros Hname Hfree. eexists. unfold Attach, empty. rewrite !bool_decide_eq_false_2 by done.
    replace (generation <? 1) with false by lia. cbn [orb]. rewrite Hv. cbn [negb]. fold spec. rewrite Hrun. cbn [mbind option_bind].
    pose proof (attach_credentials job main owner generation operationID endpoint Hu Hfree He Hv Hg Ho Hop) as Hr. fold spec name in Hr |- *.
    rewrite Hr. split; [done|exact Hr].
  - intros trust values Htv Hnt. eexists. unfold AttachPodToken. fold spec. rewrite Hrun. cbn [mbind option_bind]. rewrite Hv. cbn [negb].
    rewrite Htv. cbn [mbind option_bind].
    destruct (attach_token job main owner generation operationID endpoint trust values Hu Hnt He Hv Hg Ho Hop Htv) as [Huse Hr].
    rewrite Hr. split; [done|]. unfold Read. by rewrite Huse.
Qed.
End Reading.
