(* ===== verification/PodIntent.v ===== *)
(** * Pod intent (package [internal/podintent])

    The admission snapshot a dispatch records and the Pod it then admits:
    [Resolve] reads the objects built-in admission will consult and bounds
    what they may change, [ValidateSnapshot] re-reads the record, and
    [ValidatePodSpec] takes the admitted Pod back to its template one mutation
    at a time and compares what is left. The code mutates a copy of the
    admitted spec; here each check returns the spec it leaves. A loop over a
    Go map that stops at its first complaint is a test of every entry: which
    entry is named is unspecified. *)
From Stdlib Require Import ZArith Lia Ascii.
From stdpp Require Import base list gmap strings.
From S2P Require Import Prelude GoStrings Json Fingerprint SourceContent KubeMeta KubePod.
Local Open Scope go_scope.
Local Open Scope Z_scope.

(** ** The snapshot (api/v1alpha1) *)

Record AdmissionObjectBinding : Type := { BindingName : string; BindingUID : string; BindingVersion : string }.
#[export] Instance AdmissionObjectBinding_eq_dec : EqDecision AdmissionObjectBinding.
Proof. solve_decision. Defined.

Record LimitRangeAdmissionSnapshot : Type := {
  RangeObject : AdmissionObjectBinding;
  DefaultRequests : ResourceList;
  DefaultLimits : ResourceList;
}.

Record RuntimeClassAdmissionSnapshot : Type := {
  RuntimeObject : AdmissionObjectBinding;
  Handler : string;
  OverheadDefined : bool;
  SnapshotOverhead : ResourceList;
  SnapshotNodeSelector : gmap string string;
  SnapshotTolerations : list Toleration;
}.

Record PriorityClassAdmissionSnapshot : Type := {
  PriorityObject : option AdmissionObjectBinding;
  SnapshotPriorityName : string;
  SnapshotPriorityValue : Z;
  SnapshotPreemption : option string;
}.

Record ServiceAccountAdmissionSnapshot : Type := {
  AccountObject : AdmissionObjectBinding;
  SnapshotPullSecrets : list string;
}.

(** Options: the cluster's admission configuration. *)
Record Options : Type := {
  DefaultTolerationsEnabled : bool;
  DefaultNotReadyTolerationSeconds : Z;
  DefaultUnreachableTolerationSeconds : Z;
  ExtendedResourceTolerationEnabled : bool;
  AlwaysPullImagesEnabled : bool;
}.
Definition DefaultOptions : Options :=
  {| DefaultTolerationsEnabled := true; DefaultNotReadyTolerationSeconds := 300;
     DefaultUnreachableTolerationSeconds := 300; ExtendedResourceTolerationEnabled := false;
     AlwaysPullImagesEnabled := false |}.

(** The snapshot repeats the options' five fields. *)
Record PodAdmissionSnapshot : Type := {
  SnapshotVersionOf : string;
  SnapshotDigest : string;
  TemplateDigest : string;
  SnapshotAccount : ServiceAccountAdmissionSnapshot;
  LimitRanges : list LimitRangeAdmissionSnapshot;
  SnapshotRuntime : option RuntimeClassAdmissionSnapshot;
  SnapshotPriority : PriorityClassAdmissionSnapshot;
  SnapshotOptions : Options;
}.
Definition with_digest (digest : string) (s : PodAdmissionSnapshot) : PodAdmissionSnapshot :=
  {| SnapshotVersionOf := SnapshotVersionOf s; SnapshotDigest := digest; TemplateDigest := TemplateDigest s;
     SnapshotAccount := SnapshotAccount s; LimitRanges := LimitRanges s; SnapshotRuntime := SnapshotRuntime s;
     SnapshotPriority := SnapshotPriority s; SnapshotOptions := SnapshotOptions s |}.

Definition SnapshotVersion : string := "v1".
Definition maxLimitRanges : Z := 32.
Definition maxResourceKeys : Z := 64.
Definition maxLimitRangeDefaultEntries : Z := 64.
Definition maxSchedulingItems : Z := 64.

Inductive pod_error : Type :=
| InputRequired | PodLevelResourcesUnsupported | NegativeTolerationSeconds
| ReadFailed (notFound : bool) | InvalidObjectBinding
| TooManyPullSecrets | TooManyLimitRanges | ManyContainerItems | TooManyDefaultKeys | TooManyDefaults
| ConflictingDefaults | EmptyRuntimeClass | RuntimeClassTooLarge | SelectorConflict | ManyDefaultPriorities
| SnapshotMissing | UnsupportedSnapshotVersion | InvalidTemplateDigest | RangesNotSorted | InvalidResourceList
| InvalidHandler | SchedulingTooLarge | PriorityNameMismatch | NotZeroDefaultPriority | InvalidPreemption
| SnapshotDigestMismatch
| TemplateMismatch | AccountMismatch | AliasChanged | PullSecretsMismatch
| ContainerCountChanged | ContainerIdentityChanged | LimitsChanged | RequestsChanged | PullPolicyMismatch
| RuntimeClassMismatch | SelectorMismatch | OverheadMismatch | PriorityMismatch | TolerationsMismatch
| SpecMismatch.

(** ** Canonical documents *)

Definition omit_nil {A} (key : string) (f : list A -> json) (l : list A) : list (string * json) :=
  match l with [] => [] | _ => [(key, f l)] end.
Definition map_json (m : gmap string string) : json :=
  JObj (prod_map id JStr <$> sort_by fst (map_to_list m)).
Definition omit_map (key : string) (m : gmap string string) : list (string * json) :=
  if bool_decide (m = ∅) then [] else [(key, map_json m)].

Definition object_json (b : AdmissionObjectBinding) : json :=
  JObj [("name", JStr (BindingName b)); ("uid", JStr (BindingUID b)); ("resourceVersion", JStr (BindingVersion b))].
Definition account_json (a : ServiceAccountAdmissionSnapshot) : json :=
  JObj (("object", object_json (AccountObject a)) ::
        omit_nil "imagePullSecrets" (fun l => JArr ((fun name => JObj (omitempty "name" name)) <$> l)) (SnapshotPullSecrets a)).
Definition range_json (r : LimitRangeAdmissionSnapshot) : json :=
  JObj (("object", object_json (RangeObject r)) ::
        omit_map "defaultRequests" (DefaultRequests r) ++ omit_map "defaultLimits" (DefaultLimits r)).
(** [corev1.Toleration], every field [omitempty]. *)
Definition toleration_json (t : Toleration) : json :=
  JObj (omitempty "key" (TolKey t) ++ omitempty "operator" (TolOperator t) ++ omitempty "value" (TolValue t) ++
        omitempty "effect" (TolEffect t) ++
        match TolerationSeconds t with Some s => [("tolerationSeconds", JInt s)] | None => [] end).
Definition runtime_json (r : RuntimeClassAdmissionSnapshot) : json :=
  JObj ([("object", object_json (RuntimeObject r)); ("handler", JStr (Handler r))] ++
        (if OverheadDefined r then [("overheadDefined", JBool true)] else []) ++
        omit_map "overhead" (SnapshotOverhead r) ++ omit_map "nodeSelector" (SnapshotNodeSelector r) ++
        omit_nil "tolerations" (fun l => JArr (toleration_json <$> l)) (SnapshotTolerations r)).
Definition priority_json (p : PriorityClassAdmissionSnapshot) : json :=
  JObj (match PriorityObject p with Some b => [("object", object_json b)] | None => [] end ++
        omitempty "name" (SnapshotPriorityName p) ++ [("value", JInt (SnapshotPriorityValue p))] ++
        match SnapshotPreemption p with Some v => [("preemptionPolicy", JStr v)] | None => [] end).
Definition snapshot_json (s : PodAdmissionSnapshot) : json :=
  let o := SnapshotOptions s in
  JObj ([("version", JStr (SnapshotVersionOf s)); ("digest", JStr (SnapshotDigest s));
         ("templateDigest", JStr (TemplateDigest s)); ("serviceAccount", account_json (SnapshotAccount s))] ++
        omit_nil "limitRanges" (fun l => JArr (range_json <$> l)) (LimitRanges s) ++
        match SnapshotRuntime s with Some r => [("runtimeClass", runtime_json r)] | None => [] end ++
        [("priorityClass", priority_json (SnapshotPriority s));
         ("defaultTolerationsEnabled", JBool (DefaultTolerationsEnabled o));
         ("defaultNotReadyTolerationSeconds", JInt (DefaultNotReadyTolerationSeconds o));
         ("defaultUnreachableTolerationSeconds", JInt (DefaultUnreachableTolerationSeconds o));
         ("extendedResourceTolerationEnabled", JBool (ExtendedResourceTolerationEnabled o));
         ("alwaysPullImagesEnabled", JBool (AlwaysPullImagesEnabled o))]).

(** ** Small checks *)

Definition OptionsValidate (o : Options) : result pod_error unit :=
  guard negb ((DefaultNotReadyTolerationSeconds o <? 0) || (DefaultUnreachableTolerationSeconds o <? 0))
    else NegativeTolerationSeconds;
  Ok tt.

Definition validateBinding (b : AdmissionObjectBinding) : result pod_error unit :=
  guard negb (empty (BindingName b) || (253 <? len (BindingName b)) || empty (BindingUID b) ||
              (128 <? len (BindingUID b)) || empty (BindingVersion b) || (128 <? len (BindingVersion b)))
    else InvalidObjectBinding;
  Ok tt.

Definition objectBinding (m : ObjectMeta) : result pod_error AdmissionObjectBinding :=
  let binding := {| BindingName := MetaName m; BindingUID := MetaUID m; BindingVersion := ResourceVersion m |} in
  _ <-! validateBinding binding;
  Ok binding.

(** The separator is the character NUL. *)
Definition nul : string := String (ascii_of_nat 0) EmptyString.
Definition bindingOrder (b : AdmissionObjectBinding) : string :=
  BindingName b +:+ nul +:+ BindingUID b +:+ nul +:+ BindingVersion b.

(** [len] of a map. *)
Definition map_len {A} (m : gmap string A) : Z := Z.of_nat (size m).

Section PodIntent.
Context `{Apimachinery}.

Definition validateResourceList (resources : ResourceList) : result pod_error unit :=
  guard (map_len resources <=? maxResourceKeys) else InvalidResourceList;
  guard forallb (fun '(name, quantity) => negb (empty name || (quantity_sign quantity <? 0))) (map_to_list resources)
    else InvalidResourceList;
  Ok tt.

(** ** LimitRange defaults *)

Definition quantityAllowed (candidate : string) (allowed : list string) : bool :=
  existsb (fun quantity => same_quantity candidate quantity) allowed.

(** One entry of [appendUniqueQuantities]; its entries are of distinct names,
    so their order is immaterial. *)
Definition append_unique (destination : gmap string (list string)) (name quantity : string) : gmap string (list string) :=
  let allowed := default [] (destination !! name) in
  if quantityAllowed quantity allowed then destination else <[name := allowed ++ [quantity]]> destination.
Definition appendUniqueQuantities (destination : gmap string (list string)) (values : ResourceList) : gmap string (list string) :=
  map_fold (fun name quantity d => append_unique d name quantity) destination values.

Definition allowedLimitRangeDefaults (limitRanges : list LimitRangeAdmissionSnapshot)
    : gmap string (list string) * gmap string (list string) :=
  foldl (fun '(requests, limits) limitRange =>
           (appendUniqueQuantities requests (DefaultRequests limitRange),
            appendUniqueQuantities limits (DefaultLimits limitRange))) (∅, ∅) limitRanges.

(** A key the first map lacks is taken from the second. *)
Definition normalizedContainerDefaults (item : LimitRangeItem) : ResourceList * ResourceList :=
  let limits := LimitDefault item ∪ LimitMax item in
  let requests := LimitDefaultRequest item ∪ limits ∪ LimitMin item in
  (requests, limits).

(** Every resource with two candidate defaults is configured everywhere. *)
Definition validateUnambiguousLimitRangeDefaults (template : PodSpec) (limitRanges : list LimitRangeAdmissionSnapshot)
    : result pod_error unit :=
  let '(requests, limits) := allowedLimitRangeDefaults limitRanges in
  let containers := Containers template ++ InitContainers template in
  guard forallb (fun '(name, candidates) =>
          (length candidates <? 2)%nat || forallb (fun c => bool_decide (is_Some (Requests c !! name))) containers)
          (map_to_list requests) else ConflictingDefaults;
  guard forallb (fun '(name, candidates) =>
          (length candidates <? 2)%nat || forallb (fun c => bool_decide (is_Some (Limits c !! name))) containers)
          (map_to_list limits) else ConflictingDefaults;
  Ok tt.

(** ** Digests *)

Definition with_maps (labels annotations : gmap string string) (m : ObjectMeta) : ObjectMeta :=
  {| MetaName := MetaName m; GenerateName := GenerateName m; MetaNamespace := MetaNamespace m; SelfLink := SelfLink m;
     MetaUID := MetaUID m; ResourceVersion := ResourceVersion m; MetaGeneration := MetaGeneration m;
     CreationTimestamp := CreationTimestamp m; DeletionTimestamp := DeletionTimestamp m;
     DeletionGracePeriodSeconds := DeletionGracePeriodSeconds m; Labels := labels; Annotations := annotations;
     OwnerReferences := OwnerReferences m; Finalizers := Finalizers m; ManagedFields := ManagedFields m |}.

Definition AnnotationAdmissionSnapshotDigest : string := "operator.ptah.run/admission-snapshot-digest".
Definition generated_keys : list string := [ControllerUidLabel; JobNameLabel; "controller-uid"; "job-name"].
Definition without_keys (keys : list string) (m : gmap string string) : gmap string string := foldr delete m keys.

(** [serviceAccountName], [default] where the spec names none. *)
Definition effective_account (name : string) : string := if empty name then "default" else name.

(** The accounts, pull secrets and scheduling fields of a spec, replaced. *)
Definition with_accounts (name alias : string) (pullSecrets : list string) (s : PodSpec) : PodSpec :=
  {| Containers := Containers s; InitContainers := InitContainers s; EphemeralContainers := EphemeralContainers s;
     Volumes := Volumes s; ServiceAccountName := name; DeprecatedServiceAccount := alias;
     AutomountServiceAccountToken := AutomountServiceAccountToken s; ImagePullSecrets := pullSecrets;
     NodeName := NodeName s; NodeSelector := NodeSelector s; RuntimeClassName := RuntimeClassName s;
     Overhead := Overhead s; PriorityClassName := PriorityClassName s; Priority := Priority s;
     PreemptionPolicy := PreemptionPolicy s; Tolerations := Tolerations s; PodLevelResources := PodLevelResources s;
     PodActiveDeadlineSeconds := PodActiveDeadlineSeconds s; PodRest := PodRest s |}.
Definition with_containers (containers initContainers : list Container) (s : PodSpec) : PodSpec :=
  {| Containers := containers; InitContainers := initContainers; EphemeralContainers := EphemeralContainers s;
     Volumes := Volumes s; ServiceAccountName := ServiceAccountName s; DeprecatedServiceAccount := DeprecatedServiceAccount s;
     AutomountServiceAccountToken := AutomountServiceAccountToken s; ImagePullSecrets := ImagePullSecrets s;
     NodeName := NodeName s; NodeSelector := NodeSelector s; RuntimeClassName := RuntimeClassName s;
     Overhead := Overhead s; PriorityClassName := PriorityClassName s; Priority := Priority s;
     PreemptionPolicy := PreemptionPolicy s; Tolerations := Tolerations s; PodLevelResources := PodLevelResources s;
     PodActiveDeadlineSeconds := PodActiveDeadlineSeconds s; PodRest := PodRest s |}.
Definition with_scheduling (selector : gmap string string) (overhead : option ResourceList) (s : PodSpec) : PodSpec :=
  {| Containers := Containers s; InitContainers := InitContainers s; EphemeralContainers := EphemeralContainers s;
     Volumes := Volumes s; ServiceAccountName := ServiceAccountName s; DeprecatedServiceAccount := DeprecatedServiceAccount s;
     AutomountServiceAccountToken := AutomountServiceAccountToken s; ImagePullSecrets := ImagePullSecrets s;
     NodeName := NodeName s; NodeSelector := selector; RuntimeClassName := RuntimeClassName s;
     Overhead := overhead; PriorityClassName := PriorityClassName s; Priority := Priority s;
     PreemptionPolicy := PreemptionPolicy s; Tolerations := Tolerations s; PodLevelResources := PodLevelResources s;
     PodActiveDeadlineSeconds := PodActiveDeadlineSeconds s; PodRest := PodRest s |}.
Definition with_priority (name : string) (priority : option Z) (preemption : option string) (s : PodSpec) : PodSpec :=
  {| Containers := Containers s; InitContainers := InitContainers s; EphemeralContainers := EphemeralContainers s;
     Volumes := Volumes s; ServiceAccountName := ServiceAccountName s; DeprecatedServiceAccount := DeprecatedServiceAccount s;
     AutomountServiceAccountToken := AutomountServiceAccountToken s; ImagePullSecrets := ImagePullSecrets s;
     NodeName := NodeName s; NodeSelector := NodeSelector s; RuntimeClassName := RuntimeClassName s;
     Overhead := Overhead s; PriorityClassName := name; Priority := priority;
     PreemptionPolicy := preemption; Tolerations := Tolerations s; PodLevelResources := PodLevelResources s;
     PodActiveDeadlineSeconds := PodActiveDeadlineSeconds s; PodRest := PodRest s |}.
Definition with_tolerations (tolerations : list Toleration) (s : PodSpec) : PodSpec :=
  {| Containers := Containers s; InitContainers := InitContainers s; EphemeralContainers := EphemeralContainers s;
     Volumes := Volumes s; ServiceAccountName := ServiceAccountName s; DeprecatedServiceAccount := DeprecatedServiceAccount s;
     AutomountServiceAccountToken := AutomountServiceAccountToken s; ImagePullSecrets := ImagePullSecrets s;
     NodeName := NodeName s; NodeSelector := NodeSelector s; RuntimeClassName := RuntimeClassName s;
     Overhead := Overhead s; PriorityClassName := PriorityClassName s; Priority := Priority s;
     PreemptionPolicy := PreemptionPolicy s; Tolerations := tolerations; PodLevelResources := PodLevelResources s;
     PodActiveDeadlineSeconds := PodActiveDeadlineSeconds s; PodRest := PodRest s |}.
Definition with_node (node : string) (s : PodSpec) : PodSpec :=
  {| Containers := Containers s; InitContainers := InitContainers s; EphemeralContainers := EphemeralContainers s;
     Volumes := Volumes s; ServiceAccountName := ServiceAccountName s; DeprecatedServiceAccount := DeprecatedServiceAccount s;
     AutomountServiceAccountToken := AutomountServiceAccountToken s; ImagePullSecrets := ImagePullSecrets s;
     NodeName := node; NodeSelector := NodeSelector s; RuntimeClassName := RuntimeClassName s;
     Overhead := Overhead s; PriorityClassName := PriorityClassName s; Priority := Priority s;
     PreemptionPolicy := PreemptionPolicy s; Tolerations := Tolerations s; PodLevelResources := PodLevelResources s;
     PodActiveDeadlineSeconds := PodActiveDeadlineSeconds s; PodRest := PodRest s |}.

(** The template without what the API server and the digest itself add to
    it, with the defaults applied. *)
Definition canonical_template (template : PodTemplateSpec) : PodTemplateSpec :=
  let meta := TemplateMeta template in
  let spec := TemplateSpec template in
  let alias := if bool_decide (DeprecatedServiceAccount spec = effective_account (ServiceAccountName spec))
               then EmptyString else DeprecatedServiceAccount spec in
  let '(meta', spec') :=
    scheme_default
      (with_maps (without_keys generated_keys (Labels meta)) (delete AnnotationAdmissionSnapshotDigest (Annotations meta)) meta)
      (with_accounts (ServiceAccountName spec) alias (ImagePullSecrets spec) spec) in
  {| TemplateMeta := meta'; TemplateSpec := spec' |}.
Definition DigestTemplate (template : PodTemplateSpec) : string :=
  DigestCanonicalJSON (template_json (canonical_template template)).

Definition bindDigest (snapshot : PodAdmissionSnapshot) : PodAdmissionSnapshot :=
  with_digest (DigestCanonicalJSON (snapshot_json (with_digest EmptyString snapshot))) snapshot.

(** ** Re-reading a snapshot *)

(** The loop over the LimitRanges: each binding is valid and strictly after
    the one before it, and the entries stay within their bounds. *)
Fixpoint validate_ranges (last : option string) (total : Z) (ranges : list LimitRangeAdmissionSnapshot) : result pod_error unit :=
  match ranges with
  | [] => Ok tt
  | r :: rest =>
      _ <-! validateBinding (RangeObject r);
      let order := bindingOrder (RangeObject r) in
      guard negb (match last with Some l => (order <=? l)%string | None => false end) else RangesNotSorted;
      _ <-! validateResourceList (DefaultRequests r);
      _ <-! validateResourceList (DefaultLimits r);
      let total := total + map_len (DefaultRequests r) + map_len (DefaultLimits r) in
      guard (total <=? maxLimitRangeDefaultEntries) else TooManyDefaults;
      validate_ranges (Some order) total rest
  end.

Definition validate_runtime (r : option RuntimeClassAdmissionSnapshot) : result pod_error unit :=
  match r with
  | None => Ok tt
  | Some r =>
      _ <-! validateBinding (RuntimeObject r);
      guard negb (empty (Handler r) || (63 <? len (Handler r))) else InvalidHandler;
      _ <-! validateResourceList (SnapshotOverhead r);
      guard negb ((maxSchedulingItems <? map_len (SnapshotNodeSelector r)) ||
                  (maxSchedulingItems <? Z.of_nat (length (SnapshotTolerations r)))) else SchedulingTooLarge;
      Ok tt
  end.

Definition validate_priority_record (p : PriorityClassAdmissionSnapshot) : result pod_error unit :=
  _ <-! match PriorityObject p with
        | Some object =>
            _ <-! validateBinding object;
            guard bool_decide (SnapshotPriorityName p = BindingName object) else PriorityNameMismatch;
            Ok tt
        | None =>
            guard negb (negb (empty (SnapshotPriorityName p)) || negb (SnapshotPriorityValue p =? 0)) else NotZeroDefaultPriority;
            Ok tt
        end;
  guard match SnapshotPreemption p with
        | Some policy => bool_decide (policy = PreemptLowerPriority) || bool_decide (policy = PreemptNever)
        | None => true
        end else InvalidPreemption;
  Ok tt.

Definition ValidateSnapshot (snapshot : option PodAdmissionSnapshot) : result pod_error unit :=
  match snapshot with
  | None => Err SnapshotMissing
  | Some s =>
      guard bool_decide (SnapshotVersionOf s = SnapshotVersion) else UnsupportedSnapshotVersion;
      guard is_sha256_digest (TemplateDigest s) else InvalidTemplateDigest;
      _ <-! validateBinding (AccountObject (SnapshotAccount s));
      guard (Z.of_nat (length (SnapshotPullSecrets (SnapshotAccount s))) <=? maxSchedulingItems) else TooManyPullSecrets;
      guard (Z.of_nat (length (LimitRanges s)) <=? maxLimitRanges) else TooManyLimitRanges;
      _ <-! validate_ranges None 0 (LimitRanges s);
      _ <-! validate_runtime (SnapshotRuntime s);
      _ <-! validate_priority_record (SnapshotPriority s);
      _ <-! OptionsValidate (SnapshotOptions s);
      guard bool_decide (SnapshotDigest s = DigestCanonicalJSON (snapshot_json (with_digest EmptyString s)))
        else SnapshotDigestMismatch;
      Ok tt
  end.

(** ** Resolving a snapshot

    The reader's calls. A failed read says whether the object was absent. *)

Inductive podE : Type -> Type :=
| GetServiceAccount (namespace name : string) : podE (result bool ServiceAccount)
| ListLimitRanges (namespace : string) : podE (result bool (list LimitRange))
| GetRuntimeClass (name : string) : podE (result bool RuntimeClass)
| GetPriorityClass (name : string) : podE (result bool PriorityClass)
| ListPriorityClasses : podE (result bool (list PriorityClass)).

Definition lift {A} (r : result pod_error A) : prog podE (result pod_error A) := Ret r.
Definition andthen {A B} (p : prog podE (result pod_error A)) (f : A -> prog podE (result pod_error B))
    : prog podE (result pod_error B) :=
  pbind p (fun r => match r with Ok a => f a | Err e => Ret (Err e) end).
Definition reading {A} (e : podE (result bool A)) : prog podE (result pod_error A) :=
  pbind (call e) (fun r => Ret (match r with Ok a => Ok a | Err notFound => Err (ReadFailed notFound) end)).

(** The container items of one LimitRange; a second one is refused. *)
Definition range_defaults (limitRange : LimitRange) : result pod_error (ResourceList * ResourceList) :=
  match filter (fun item => LimitType item = LimitTypeContainer) (LimitRangeLimits limitRange) with
  | [] => Ok (∅, ∅)
  | [item] => Ok (normalizedContainerDefaults item)
  | _ => Err ManyContainerItems
  end.

Fixpoint resolve_ranges (total : Z) (items : list LimitRange) : result pod_error (list LimitRangeAdmissionSnapshot) :=
  match items with
  | [] => Ok []
  | limitRange :: rest =>
      binding <-! objectBinding (LimitRangeMeta limitRange);
      defaults <-! range_defaults limitRange;
      let '(requests, limits) := defaults in
      guard negb ((maxResourceKeys <? map_len requests) || (maxResourceKeys <? map_len limits)) else TooManyDefaultKeys;
      let total := total + (map_len requests + map_len limits) in
      guard (total <=? maxLimitRangeDefaultEntries) else TooManyDefaults;
      ranges <-! resolve_ranges total rest;
      Ok ({| RangeObject := binding; DefaultRequests := requests; DefaultLimits := limits |} :: ranges)
  end.

(** [sort.Slice] by [bindingOrder]. *)
Definition sort_ranges (ranges : list LimitRangeAdmissionSnapshot) : list LimitRangeAdmissionSnapshot :=
  sort_by (fun r => bindingOrder (RangeObject r)) ranges.

Definition selector_conflict (base added : gmap string string) : bool :=
  existsb (fun '(key, value) => match base !! key with Some current => negb (bool_decide (current = value)) | None => false end)
    (map_to_list added).

Definition resolveRuntimeClass (template : PodSpec) : prog podE (result pod_error (option RuntimeClassAdmissionSnapshot)) :=
  match RuntimeClassName template with
  | None => lift (Ok None)
  | Some name =>
      require negb (empty name) else EmptyRuntimeClass;
      andthen (reading (GetRuntimeClass name)) (fun class =>
      andthen (lift (objectBinding (RuntimeMeta class))) (fun binding =>
      let resolved :=
        {| RuntimeObject := binding; Handler := RuntimeHandler class;
           OverheadDefined := bool_decide (is_Some (RuntimeOverhead class));
           SnapshotOverhead := default ∅ (RuntimeOverhead class);
           SnapshotNodeSelector := default ∅ (fst <$> RuntimeScheduling class);
           SnapshotTolerations := default [] (snd <$> RuntimeScheduling class) |} in
      require negb ((maxResourceKeys <? map_len (SnapshotOverhead resolved)) ||
                    (maxSchedulingItems <? map_len (SnapshotNodeSelector resolved)) ||
                    (maxSchedulingItems <? Z.of_nat (length (SnapshotTolerations resolved)))) else RuntimeClassTooLarge;
      require negb (selector_conflict (NodeSelector template) (SnapshotNodeSelector resolved)) else SelectorConflict;
      lift (Ok (Some resolved))))
  end.

(** The class the template names, or the one global default there is. *)
Definition selected_priority (template : PodSpec) : prog podE (result pod_error (option PriorityClass)) :=
  if negb (empty (PriorityClassName template)) then
    andthen (reading (GetPriorityClass (PriorityClassName template))) (fun class => lift (Ok (Some class)))
  else
    andthen (reading ListPriorityClasses) (fun classes =>
    match filter (fun c => GlobalDefault c = true) classes with
    | [] => lift (Ok None)
    | [class] => lift (Ok (Some class))
    | _ => lift (Err ManyDefaultPriorities)
    end).
Definition resolvePriorityClass (template : PodSpec) : prog podE (result pod_error PriorityClassAdmissionSnapshot) :=
  andthen (selected_priority template) (fun selected =>
  match selected with
  | None => lift (Ok {| PriorityObject := None; SnapshotPriorityName := EmptyString; SnapshotPriorityValue := 0;
                        SnapshotPreemption := Some PreemptLowerPriority |})
  | Some class =>
      andthen (lift (objectBinding (PriorityMeta class))) (fun binding =>
      lift (Ok {| PriorityObject := Some binding; SnapshotPriorityName := MetaName (PriorityMeta class);
                  SnapshotPriorityValue := PriorityValue class; SnapshotPreemption := PriorityPreemption class |}))
  end).

Definition Resolve (namespace : string) (template : PodTemplateSpec) (options : Options)
    : prog podE (result pod_error PodAdmissionSnapshot) :=
  let spec := TemplateSpec template in
  require negb (empty namespace) else InputRequired;
  require bool_decide (PodLevelResources spec = None) else PodLevelResourcesUnsupported;
  andthen (lift (OptionsValidate options)) (fun _ =>
  let templateDigest := DigestTemplate template in
  andthen (reading (GetServiceAccount namespace (effective_account (ServiceAccountName spec)))) (fun account =>
  andthen (lift (objectBinding (AccountMeta account))) (fun accountBinding =>
  require (Z.of_nat (length (AccountPullSecrets account)) <=? maxSchedulingItems) else TooManyPullSecrets;
  andthen (reading (ListLimitRanges namespace)) (fun items =>
  require (Z.of_nat (length items) <=? maxLimitRanges) else TooManyLimitRanges;
  andthen (lift (resolve_ranges 0 items)) (fun resolved =>
  let limitRanges := sort_ranges resolved in
  andthen (lift (validateUnambiguousLimitRangeDefaults spec limitRanges)) (fun _ =>
  andthen (resolveRuntimeClass spec) (fun runtimeClass =>
  andthen (resolvePriorityClass spec) (fun priorityClass =>
  lift (Ok (bindDigest
    {| SnapshotVersionOf := SnapshotVersion; SnapshotDigest := EmptyString; TemplateDigest := templateDigest;
       SnapshotAccount := {| AccountObject := accountBinding; SnapshotPullSecrets := AccountPullSecrets account |};
       LimitRanges := limitRanges; SnapshotRuntime := runtimeClass; SnapshotPriority := priorityClass;
       SnapshotOptions := options |})))))))))).

(** ** Tolerations *)

Definition sameTolerationIdentity (left right : Toleration) : bool :=
  bool_decide (TolKey left = TolKey right) && bool_decide (TolEffect left = TolEffect right) &&
  bool_decide (TolOperator left = TolOperator right) && bool_decide (TolValue left = TolValue right).

(** The loop returns the slice it was given when it meets the wanted
    toleration itself. *)
Fixpoint update_tolerations (wanted : Toleration) (values : list Toleration) : option (list Toleration * bool) :=
  match values with
  | [] => Some ([], false)
  | current :: rest =>
      if sameTolerationIdentity current wanted then
        if bool_decide (current = wanted) then None else
        '(result, _) ← update_tolerations wanted rest; Some (wanted :: result, true)
      else
        '(result, updated) ← update_tolerations wanted rest; Some (current :: result, updated)
  end.
Definition addOrUpdateToleration (values : list Toleration) (wanted : Toleration) : list Toleration :=
  match update_tolerations wanted values with
  | None => values
  | Some (result, updated) => if updated : bool then result else result ++ [wanted]
  end.

Definition toleratesNoExecuteKey (values : list Toleration) (key : string) : bool :=
  existsb (fun t =>
    (bool_decide (TolKey t = key) || empty (TolKey t)) &&
    (bool_decide (TolEffect t = TaintEffectNoExecute) || empty (TolEffect t))) values.

Definition tolerationSuperset (superset value : Toleration) : bool :=
  if bool_decide (superset = value) then true
  else if negb (bool_decide (TolKey value = TolKey superset)) &&
          (negb (empty (TolKey superset)) || negb (bool_decide (TolOperator superset = TolerationOpExists))) then false
  else if negb (bool_decide (TolEffect value = TolEffect superset)) && negb (empty (TolEffect superset)) then false
  else if bool_decide (TolEffect superset = TaintEffectNoExecute) &&
          match TolerationSeconds superset with
          | Some most => match TolerationSeconds value with Some s => most <? s | None => true end
          | None => false
          end then false
  else if bool_decide (TolOperator superset = TolerationOpEqual) || empty (TolOperator superset) then
    bool_decide (TolOperator value = TolerationOpEqual) && bool_decide (TolValue value = TolValue superset)
  else bool_decide (TolOperator superset = TolerationOpExists).

(** The loop of [mergeTolerations]: [merged] is what was kept, [later] what
    is still to come. *)
Fixpoint merge_loop (merged all : list Toleration) : list Toleration :=
  match all with
  | [] => merged
  | t :: later =>
      if existsb (fun existing => tolerationSuperset existing t) merged then merge_loop merged later
      else if existsb (fun l => negb (bool_decide (t = l)) && tolerationSuperset l t) later then merge_loop merged later
      else merge_loop (merged ++ [t]) later
  end.
Definition mergeTolerations (first second : list Toleration) : list Toleration := merge_loop [] (first ++ second).

(** [strings.Contains]. *)
Fixpoint contains (sub s : string) : bool :=
  has_prefix sub s || match s with EmptyString => false | String _ s' => contains sub s' end.
Definition isExtendedResourceName (name : string) : bool :=
  if negb (contains "/" name) || contains "kubernetes.io/" name then false
  else is_qualified_name ("requests." +:+ name).

Definition extendedResourceTolerations (containers initContainers : list Container) : list Toleration :=
  let names : gset string :=
    list_to_set (filter (fun name => isExtendedResourceName name = true)
      ((containers ++ initContainers) ≫= fun c => elements (dom (Requests c)))) in
  (fun name => {| TolKey := name; TolOperator := TolerationOpExists; TolValue := EmptyString;
                  TolEffect := TaintEffectNoSchedule; TolerationSeconds := None |}) <$> sort_strings (elements names).

(** ** The admitted spec, taken back to the template *)

Definition validateServiceAccount (actual expected : PodSpec) (snapshot : PodAdmissionSnapshot) : result pod_error PodSpec :=
  let wantName := effective_account (ServiceAccountName expected) in
  guard bool_decide (BindingName (AccountObject (SnapshotAccount snapshot)) = wantName) &&
        bool_decide (ServiceAccountName actual = wantName) else AccountMismatch;
  guard bool_decide (DeprecatedServiceAccount actual = DeprecatedServiceAccount expected) ||
        bool_decide (DeprecatedServiceAccount actual = wantName) else AliasChanged;
  let wantSecrets := match ImagePullSecrets expected with
                     | [] => SnapshotPullSecrets (SnapshotAccount snapshot)
                     | secrets => secrets
                     end in
  guard bool_decide (ImagePullSecrets actual = wantSecrets) else PullSecretsMismatch;
  Ok (with_accounts (ServiceAccountName expected) (DeprecatedServiceAccount expected) (ImagePullSecrets expected) actual).

Definition entries (m : ResourceList) : list (string * string) := map_to_list m.

(** Every configured resource is admitted unchanged. *)
Definition configured_kept (actual expected : ResourceList) : bool :=
  forallb (fun '(name, want) => match actual !! name with Some got => same_quantity got want | None => false end) (entries expected).
(** Every default the snapshot has for an unconfigured resource is there. *)
Definition defaults_admitted (actual expected : ResourceList) (allowed : gmap string (list string)) : bool :=
  forallb (fun '(name, quantities) =>
    bool_decide (is_Some (expected !! name)) || (length quantities =? 0)%nat || bool_decide (is_Some (actual !! name)))
    (map_to_list allowed).

Definition validateResourceRequirements (actual expected : ResourceList) (allowed : gmap string (list string)) : result pod_error unit :=
  guard configured_kept actual expected else LimitsChanged;
  guard forallb (fun '(name, got) =>
          bool_decide (is_Some (expected !! name)) || quantityAllowed got (default [] (allowed !! name))) (entries actual)
    else LimitsChanged;
  guard defaults_admitted actual expected allowed else LimitsChanged;
  Ok tt.

Definition validateResourceRequests (actual expected actualLimits : ResourceList) (allowedDefaults : gmap string (list string))
    : result pod_error unit :=
  guard configured_kept actual expected else RequestsChanged;
  guard forallb (fun '(name, got) =>
          bool_decide (is_Some (expected !! name)) || quantityAllowed got (default [] (allowedDefaults !! name)) ||
          match actualLimits !! name with Some limit => same_quantity got limit | None => false end) (entries actual)
    else RequestsChanged;
  guard defaults_admitted actual expected allowedDefaults else RequestsChanged;
  guard forallb (fun '(name, _) => bool_decide (is_Some (expected !! name)) || bool_decide (is_Some (actual !! name)))
          (entries actualLimits) else RequestsChanged;
  Ok tt.

Definition with_resources (requests limits : ResourceList) (pullPolicy : string) (c : Container) : Container :=
  {| ContainerName := ContainerName c; Args := Args c; Env := Env c; EnvFrom := EnvFrom c; VolumeMounts := VolumeMounts c;
     Requests := requests; Limits := limits; ImagePullPolicy := pullPolicy; ContainerImage := ContainerImage c; ContainerRest := ContainerRest c |}.

Definition validate_container (actual expected : Container) (allowedRequests allowedLimits : gmap string (list string))
    (alwaysPullImagesEnabled : bool) : result pod_error Container :=
  guard bool_decide (ContainerName actual = ContainerName expected) else ContainerIdentityChanged;
  _ <-! validateResourceRequirements (Limits actual) (Limits expected) allowedLimits;
  _ <-! validateResourceRequests (Requests actual) (Requests expected) (Limits actual) allowedRequests;
  let wantPullPolicy := if alwaysPullImagesEnabled then PullAlways else ImagePullPolicy expected in
  guard bool_decide (ImagePullPolicy actual = wantPullPolicy) else PullPolicyMismatch;
  Ok (with_resources (Requests expected) (Limits expected) (ImagePullPolicy expected) actual).

Fixpoint validate_each (actual expected : list Container) (allowedRequests allowedLimits : gmap string (list string))
    (alwaysPullImagesEnabled : bool) : result pod_error (list Container) :=
  match actual, expected with
  | a :: actual', e :: expected' =>
      a' <-! validate_container a e allowedRequests allowedLimits alwaysPullImagesEnabled;
      rest <-! validate_each actual' expected' allowedRequests allowedLimits alwaysPullImagesEnabled;
      Ok (a' :: rest)
  | _, _ => Ok []
  end.
Definition validateContainers (actual expected : list Container) (allowedRequests allowedLimits : gmap string (list string))
    (alwaysPullImagesEnabled : bool) : result pod_error (list Container) :=
  guard (length actual =? length expected)%nat else ContainerCountChanged;
  validate_each actual expected allowedRequests allowedLimits alwaysPullImagesEnabled.

Definition resourceListEqual (left right : ResourceList) : bool :=
  (map_len left =? map_len right) &&
  forallb (fun '(name, quantity) => match right !! name with Some other => same_quantity quantity other | None => false end)
    (entries left).

Definition validateRuntimeClass (actual expected : PodSpec) (snapshot : option RuntimeClassAdmissionSnapshot) : result pod_error PodSpec :=
  match RuntimeClassName expected with
  | None =>
      guard match snapshot with Some _ => false | None => true end && bool_decide (RuntimeClassName actual = None) &&
            bool_decide (Overhead actual = None) && bool_decide (NodeSelector actual = NodeSelector expected)
        else RuntimeClassMismatch;
      Ok actual
  | Some name =>
      match snapshot with
      | None => Err RuntimeClassMismatch
      | Some r =>
          guard bool_decide (BindingName (RuntimeObject r) = name) && bool_decide (RuntimeClassName actual = Some name)
            else RuntimeClassMismatch;
          guard negb (selector_conflict (NodeSelector expected) (SnapshotNodeSelector r)) else SelectorConflict;
          guard bool_decide (NodeSelector actual = SnapshotNodeSelector r ∪ NodeSelector expected) else SelectorMismatch;
          guard (if OverheadDefined r then resourceListEqual (default ∅ (Overhead actual)) (SnapshotOverhead r)
                 else bool_decide (Overhead actual = None)) else OverheadMismatch;
          Ok (with_scheduling (NodeSelector expected) (Overhead expected) actual)
      end
  end.

Definition validatePriority (actual expected : PodSpec) (snapshot : PriorityClassAdmissionSnapshot) : result pod_error PodSpec :=
  guard empty (PriorityClassName expected) || bool_decide (SnapshotPriorityName snapshot = PriorityClassName expected)
    else PriorityMismatch;
  guard bool_decide (PriorityClassName actual = SnapshotPriorityName snapshot) &&
        bool_decide (Priority actual = Some (SnapshotPriorityValue snapshot)) &&
        bool_decide (PreemptionPolicy actual = SnapshotPreemption snapshot) else PriorityMismatch;
  Ok (with_priority (PriorityClassName expected) (Priority expected) (PreemptionPolicy expected) actual).

Definition no_execute (key : string) (seconds : Z) : Toleration :=
  {| TolKey := key; TolOperator := TolerationOpExists; TolValue := EmptyString; TolEffect := TaintEffectNoExecute;
     TolerationSeconds := Some seconds |}.
Definition append_default (candidate : list Toleration) (key : string) (seconds : Z) : list Toleration :=
  if toleratesNoExecuteKey candidate key then candidate else candidate ++ [no_execute key seconds].

(** The tolerations admission leaves: the default ones, the extended-resource
    ones, then those of the RuntimeClass merged in. *)
Definition admitted_tolerations (expected : list Toleration) (snapshot : PodAdmissionSnapshot) (extended : list Toleration)
    : list Toleration :=
  let o := SnapshotOptions snapshot in
  let runtimeTolerations := match SnapshotRuntime snapshot with Some r => SnapshotTolerations r | None => [] end in
  let candidate :=
    if DefaultTolerationsEnabled o then
      append_default (append_default expected "node.kubernetes.io/not-ready" (DefaultNotReadyTolerationSeconds o))
        "node.kubernetes.io/unreachable" (DefaultUnreachableTolerationSeconds o)
    else expected in
  let candidate := if ExtendedResourceTolerationEnabled o then foldl addOrUpdateToleration candidate extended else candidate in
  mergeTolerations candidate runtimeTolerations.
Definition validateTolerations (actual expected : PodSpec) (snapshot : PodAdmissionSnapshot) (extended : list Toleration)
    : result pod_error PodSpec :=
  guard bool_decide (Tolerations actual = admitted_tolerations (Tolerations expected) snapshot extended) else TolerationsMismatch;
  Ok (with_tolerations (Tolerations expected) actual).

(** A Pod of the spec alone, defaulted. *)
Definition defaulted (spec : PodSpec) : PodSpec := (scheme_default (new_meta EmptyString EmptyString ∅ []) spec).2.

(** The checks on the two defaulted specs, in their order. *)
Definition check_envelope (snapshot : PodAdmissionSnapshot) (expected actual : PodSpec) : result pod_error unit :=
  let extendedTolerations := extendedResourceTolerations (Containers actual) (InitContainers actual) in
  actual <-! validateServiceAccount actual expected snapshot;
  let '(allowedRequests, allowedLimits) := allowedLimitRangeDefaults (LimitRanges snapshot) in
  let always := AlwaysPullImagesEnabled (SnapshotOptions snapshot) in
  containers <-! validateContainers (Containers actual) (Containers expected) allowedRequests allowedLimits always;
  initContainers <-! validateContainers (InitContainers actual) (InitContainers expected) allowedRequests allowedLimits always;
  let actual := with_containers containers initContainers actual in
  actual <-! validateRuntimeClass actual expected (SnapshotRuntime snapshot);
  actual <-! validatePriority actual expected (SnapshotPriority snapshot);
  actual <-! validateTolerations actual expected snapshot extendedTolerations;
  guard semantic_pod_spec (with_node (NodeName expected) actual) expected else SpecMismatch;
  Ok tt.

Definition ValidatePodSpec (actualSpec : PodSpec) (template : PodTemplateSpec) (snapshot : option PodAdmissionSnapshot)
    : result pod_error unit :=
  _ <-! ValidateSnapshot snapshot;
  match snapshot with
  | None => Err SnapshotMissing
  | Some snapshot =>
      guard bool_decide (DigestTemplate template = TemplateDigest snapshot) else TemplateMismatch;
      check_envelope snapshot (defaulted (TemplateSpec template)) (defaulted actualSpec)
  end.
End PodIntent.
