(* ===== verification/PodIntentProofs.v ===== *)
(** * What a Pod may be (package [internal/podintent])

    The order of tolerations and what merging keeps of it, the snapshot a
    resolution records, and the envelope [ValidatePodSpec] holds a Pod to,
    stated on the Pod and its template instead of by undoing one mutation
    after another. *)
From Stdlib Require Import ZArith Lia Ascii Sorted Permutation.
From stdpp Require Import base list gmap strings sorting.
From S2P Require Import Prelude GoStrings Json Fingerprint SourceContent SourceContentProofs KubeMeta KubePod PodIntent.
Local Open Scope go_scope.
Local Open Scope Z_scope.

(** ** Tolerations *)

(** [l] tolerates what [t] tolerates. *)
Definition covered_by (t l : Toleration) : Prop := tolerationSuperset l t = true.

Lemma if_false_true (b c : bool) : (if b then false else c) = true <-> b = false /\ c = true.
Proof. destruct b; naive_solver. Qed.

Lemma seconds_iff (most s : option Z) :
  match most with Some m => match s with Some x => m <? x | None => true end | None => false end = false <->
  (forall m, most = Some m -> exists x, s = Some x /\ x <= m).
Proof. destruct most as [m|], s as [x|]; rewrite ?Z.ltb_ge; naive_solver. Qed.

Lemma operator_iff (l t : Toleration) :
  (if bool_decide (TolOperator l = TolerationOpEqual) || bool_decide (TolOperator l = EmptyString)
   then bool_decide (TolOperator t = TolerationOpEqual) && bool_decide (TolValue t = TolValue l)
   else bool_decide (TolOperator l = TolerationOpExists)) = true <->
  TolOperator l = TolerationOpExists \/
  (TolOperator l = TolerationOpEqual \/ TolOperator l = EmptyString) /\
  TolOperator t = TolerationOpEqual /\ TolValue t = TolValue l.
Proof.
  destruct (bool_decide_reflect (TolOperator l = TolerationOpEqual)) as [->|];
    [|destruct (bool_decide_reflect (TolOperator l = EmptyString)) as [->|]]; simpl;
    rewrite ?andb_true_iff, !bool_decide_eq_true; unfold TolerationOpExists; naive_solver.
Qed.

(** The comparison as one proposition. *)
Lemma superset_iff l t :
  covered_by t l <->
  l = t \/
  (TolKey t = TolKey l \/ TolKey l = EmptyString /\ TolOperator l = TolerationOpExists) /\
  (TolEffect t = TolEffect l \/ TolEffect l = EmptyString) /\
  (TolEffect l = TaintEffectNoExecute -> forall most, TolerationSeconds l = Some most ->
     exists s, TolerationSeconds t = Some s /\ s <= most) /\
  (TolOperator l = TolerationOpExists \/
   (TolOperator l = TolerationOpEqual \/ TolOperator l = EmptyString) /\
   TolOperator t = TolerationOpEqual /\ TolValue t = TolValue l).
Proof.
  unfold covered_by, tolerationSuperset, empty. destruct (bool_decide_reflect (l = t)) as [Hlt|Hlt]; [tauto|].
  rewrite !if_false_true, !andb_false_iff, !orb_false_iff, !negb_false_iff, !bool_decide_eq_true, bool_decide_eq_false, seconds_iff.
  rewrite operator_iff. destruct (decide (TolEffect l = TaintEffectNoExecute)); tauto.
Qed.

#[export] Instance covered_by_preorder : PreOrder covered_by.
Proof.
  split.
  - intros t. apply superset_iff. by left.
  - intros a b c Hab%superset_iff Hbc%superset_iff. apply superset_iff.
    destruct Hab as [->|(K1 & E1 & S1 & O1)]; [tauto|]. destruct Hbc as [->|(K2 & E2 & S2 & O2)]; [tauto|].
    right. split_and!.
    + destruct K2 as [K2|]; [|tauto]. rewrite <- K2. destruct K1 as [|[HK HO]]; [tauto|].
      right. split; [done|]. destruct O2 as [|(_ & HO' & _)]; [done|]. rewrite HO in HO'. done.
    + destruct E2 as [<-|]; [tauto|by right].
    + intros Hc most Hm. destruct (S2 Hc most Hm) as (s & Hs & Hle).
      destruct E2 as [E2|E2]; [|by rewrite E2 in Hc]. rewrite <- E2 in Hc.
      destruct (S1 Hc s Hs) as (s' & -> & Hle'). exists s'. split; [done|lia].
    + destruct O2 as [|(Hop & Hb & Hv)]; [by left|]. right. split; [done|].
      destruct O1 as [O1|(_ & Ha & Hv')]; [by rewrite O1 in Hb|]. split; [done|congruence].
Qed.

(** Neither tolerates all the other does. *)
Definition apart (a b : Toleration) : Prop := ~ covered_by a b /\ ~ covered_by b a.

Lemma existsb_covered {f : Toleration -> bool} {l} : existsb f l = true <-> exists x, x ∈ l /\ f x = true.
Proof. rewrite existsb_exists. by setoid_rewrite list_elem_of_In. Qed.
Lemma existsb_none {A} {f : A -> bool} {l} : existsb f l = false <-> forall x, x ∈ l -> f x = false.
Proof.
  rewrite <- not_true_iff_false, existsb_exists. setoid_rewrite list_elem_of_In. split.
  - intros Hn x Hx. apply not_true_iff_false. intros Hf. apply Hn. by exists x.
  - intros Hn (x & Hx & Hf). by rewrite Hn in Hf.
Qed.

(** What the loop keeps: a part of what it was given, in order, from which
    nothing it saw is missing. *)
Lemma merge_loop_spec all : forall merged,
  exists kept,
    merge_loop merged all = merged ++ kept /\ sublist kept all /\
    (forall t, t ∈ all -> exists k, k ∈ merged ++ kept /\ covered_by t k) /\
    (forall m k, m ∈ merged -> k ∈ kept -> ~ covered_by k m) /\
    ForallOrdPairs apart kept.
Proof.
  induction all as [|t later IH]; intros merged; simpl.
  { exists []. rewrite app_nil_r. split_and!; [done|constructor|set_solver|set_solver|constructor]. }
  destruct (existsb (fun x => tolerationSuperset x t) merged) eqn:E1;
    [|destruct (existsb (fun l => negb (bool_decide (t = l)) && tolerationSuperset l t) later) eqn:E2].
  - destruct (IH merged) as (kept & -> & Hsub & Hcov & Hnew & Hap). exists kept.
    apply existsb_covered in E1 as (x & Hx & Hxt).
    split_and!; [done|by constructor| |done|done].
    intros u [->|Hu]%elem_of_cons; [|by apply Hcov]. exists x. split; [apply elem_of_app; by left|done].
  - destruct (IH merged) as (kept & -> & Hsub & Hcov & Hnew & Hap). exists kept.
    apply existsb_covered in E2 as (x & Hx & [_ Hxt]%andb_true_iff).
    split_and!; [done|by constructor| |done|done].
    intros u [->|Hu]%elem_of_cons; [|by apply Hcov].
    destruct (Hcov x Hx) as (k & Hk & Hxk). exists k. split; [done|]. by transitivity x.
  - destruct (IH (merged ++ [t])) as (kept & -> & Hsub & Hcov & Hnew & Hap). exists (t :: kept).
    rewrite <- app_assoc. split_and!.
    + done.
    + by constructor.
    + intros u [->|Hu]%elem_of_cons; [exists t; split; [set_solver|reflexivity]|].
      destruct (Hcov u Hu) as (k & Hk & Huk). exists k. split; [set_solver|done].
    + intros m k Hm [->|Hk]%elem_of_cons.
      * unfold covered_by. rewrite (proj1 existsb_none E1 m Hm). done.
      * apply Hnew; [set_solver|done].
    + constructor; [|done]. apply Forall_forall. intros k Hk.
      assert (~ covered_by k t) as Hkt by (apply Hnew; [set_solver|done]). split; [|done].
      intros Htk. assert (k ∈ later) as Hin by (eapply elem_of_sublist; [exact Hk|done]).
      pose proof (proj1 existsb_none E2 k Hin) as Hno.
      apply andb_false_iff in Hno as [Hno|Hno]; [|by unfold covered_by in Htk; rewrite Htk in Hno].
      apply negb_false_iff, bool_decide_eq_true in Hno as <-. by apply Hkt.
Qed.

Lemma merge_loop_fixed all : ForallOrdPairs apart all -> forall merged,
  (forall m k, m ∈ merged -> k ∈ all -> ~ covered_by k m) -> merge_loop merged all = merged ++ all.
Proof.
  induction 1 as [|t later Hap _ IH]; intros merged Hm; simpl; [by rewrite app_nil_r|].
  rewrite (proj2 existsb_none); cycle 1.
  { intros x Hx. apply not_true_iff_false. apply Hm; set_solver. }
  rewrite (proj2 existsb_none); cycle 1.
  { intros x Hx. apply andb_false_iff. right. apply not_true_iff_false.
    by apply (proj1 (Forall_forall _ _) Hap x Hx). }
  rewrite IH; [by rewrite <- app_assoc|]. intros m k [Hm'| ->%list_elem_of_singleton]%elem_of_app Hk; [apply Hm; set_solver|].
  by apply (proj1 (Forall_forall _ _) Hap k Hk).
Qed.

(** Merging tolerations keeps, in their order, exactly the tolerations
    that matter: each one kept is one of those given; whatever one of those
    given tolerates, a kept one tolerates, for at least as long; no kept one
    tolerates all another does; and merging the result again changes nothing.
    The order "tolerates at least what the other does" is the one
    [tolerationSuperset] decides, and is transitive. *)
Theorem merge_keeps_coverage (first second : list Toleration) :
  let merged := mergeTolerations first second in
  sublist merged (first ++ second) /\
  (forall t, t ∈ first ++ second -> exists kept, kept ∈ merged /\ tolerationSuperset kept t = true) /\
  ForallOrdPairs (fun a b => tolerationSuperset a b = false /\ tolerationSuperset b a = false) merged /\
  mergeTolerations merged [] = merged.
Proof.
  unfold mergeTolerations. destruct (merge_loop_spec (first ++ second) []) as (kept & -> & Hsub & Hcov & _ & Hap). simpl in *.
  split_and!; [done|exact Hcov| |].
  - clear -Hap. induction Hap as [|t kept Ht _ IH]; constructor; [|done].
    eapply Forall_impl; [exact Ht|]. intros u [H1 H2]. split; by apply not_true_iff_false.
  - rewrite app_nil_r. apply (merge_loop_fixed kept Hap []). set_solver.
Qed.

(** ** LimitRange defaults *)

Lemma forallb_map {A} (f : string -> A -> bool) (m : gmap string A) :
  forallb (fun '(k, v) => f k v) (map_to_list m) = true <-> forall k v, m !! k = Some v -> f k v = true.
Proof.
  rewrite forallb_forall. split.
  - intros Hf k v Hk. apply (Hf (k, v)). apply list_elem_of_In, elem_of_map_to_list, Hk.
  - intros Hf [k v] Hk%list_elem_of_In%elem_of_map_to_list. by apply Hf.
Qed.

Section Defaults.
Context `{Apimachinery}.

Definition allowed_at (d : gmap string (list string)) (name : string) : list string := default [] (d !! name).

Lemma append_unique_at d name q name' :
  allowed_at (append_unique d name q) name' =
  if decide (name' = name) then
    if quantityAllowed q (allowed_at d name) then allowed_at d name else allowed_at d name ++ [q]
  else allowed_at d name'.
Proof.
  unfold append_unique. fold (allowed_at d name).
  destruct (quantityAllowed q (allowed_at d name)); destruct (decide (name' = name)) as [->|]; try done;
    unfold allowed_at at 1; [by rewrite lookup_insert_eq|by rewrite lookup_insert_ne].
Qed.

Lemma appendUnique_at d values name :
  allowed_at (appendUniqueQuantities d values) name =
  match values !! name with
  | Some q => if quantityAllowed q (allowed_at d name) then allowed_at d name else allowed_at d name ++ [q]
  | None => allowed_at d name
  end.
Proof.
  unfold appendUniqueQuantities.
  apply (map_fold_weak_ind (fun r m => allowed_at r name =
    match m !! name with
    | Some q => if quantityAllowed q (allowed_at d name) then allowed_at d name else allowed_at d name ++ [q]
    | None => allowed_at d name
    end)); [by rewrite lookup_empty|].
  intros i q m r Hi IH. rewrite append_unique_at. destruct (decide (name = i)) as [->|Hne].
  - rewrite lookup_insert_eq, IH, Hi. done.
  - by rewrite lookup_insert_ne.
Qed.

Definition allowed_from (sel : LimitRangeAdmissionSnapshot -> ResourceList) (ranges : list LimitRangeAdmissionSnapshot)
    : gmap string (list string) :=
  foldl (fun d r => appendUniqueQuantities d (sel r)) ∅ ranges.

Lemma allowed_split ranges :
  allowedLimitRangeDefaults ranges = (allowed_from DefaultRequests ranges, allowed_from DefaultLimits ranges).
Proof.
  unfold allowedLimitRangeDefaults, allowed_from. induction ranges as [|r ranges IH] using rev_ind; [done|].
  by rewrite !foldl_app, IH.
Qed.

Lemma quantityAllowed_iff got allowed :
  quantityAllowed got allowed = true <-> exists q, q ∈ allowed /\ same_quantity got q = true.
Proof. unfold quantityAllowed. rewrite existsb_exists. by setoid_rewrite list_elem_of_In. Qed.

(** [got] is the default some range of the snapshot has for the resource. *)
Definition range_default (sel : LimitRangeAdmissionSnapshot -> ResourceList) (ranges : list LimitRangeAdmissionSnapshot)
    (name got : string) : Prop :=
  exists r q, r ∈ ranges /\ sel r !! name = Some q /\ same_quantity got q = true.
(** No range of the snapshot has a default for the resource. *)
Definition no_default (sel : LimitRangeAdmissionSnapshot -> ResourceList) (ranges : list LimitRangeAdmissionSnapshot)
    (name : string) : Prop :=
  forall r, r ∈ ranges -> sel r !! name = None.

Lemma allowed_none sel ranges name : allowed_at (allowed_from sel ranges) name = [] <-> no_default sel ranges name.
Proof.
  unfold allowed_from, no_default. induction ranges as [|r ranges IH] using rev_ind.
  { split; [set_solver|done]. }
  rewrite foldl_app. simpl. rewrite appendUnique_at. fold (allowed_from sel ranges) in *.
  destruct (sel r !! name) as [q|] eqn:E.
  - split; [|intros Hno; specialize (Hno r); rewrite E in Hno; by discriminate Hno; set_solver].
    destruct (quantityAllowed q _) eqn:Eq; [|by intros [_ ?]%app_eq_nil].
    intros Hn. rewrite Hn in Eq. done.
  - rewrite IH. setoid_rewrite elem_of_app. setoid_rewrite list_elem_of_singleton. naive_solver.
Qed.

Lemma allowed_iff `{!ApimachineryLaws} sel ranges name got :
  quantityAllowed got (allowed_at (allowed_from sel ranges) name) = true <-> range_default sel ranges name got.
Proof.
  unfold allowed_from, range_default. induction ranges as [|r ranges IH] using rev_ind.
  { split; [done|]. intros (r & q & Hr & _). set_solver. }
  rewrite foldl_app. simpl. rewrite appendUnique_at. fold (allowed_from sel ranges) in *.
  setoid_rewrite elem_of_app. setoid_rewrite list_elem_of_singleton.
  destruct (sel r !! name) as [q|] eqn:E; [destruct (quantityAllowed q _) eqn:Eq|].
  - rewrite IH. split; [naive_solver|]. intros (r' & q' & [Hr| ->] & Hq & Hs); [naive_solver|]. simplify_eq.
    apply IH. apply quantityAllowed_iff in Eq as (q2 & Hq2 & Hs2). apply quantityAllowed_iff. exists q2.
    split; [done|]. by eapply same_quantity_trans.
  - unfold quantityAllowed at 1. rewrite existsb_app, orb_true_iff.
    fold (quantityAllowed got (allowed_at (allowed_from sel ranges) name)). rewrite IH. simpl. rewrite orb_false_r.
    split; [naive_solver|]. intros (r' & q' & [Hr| ->] & Hq & Hs); [naive_solver|]. simplify_eq. by right.
  - rewrite IH. naive_solver.
Qed.
End Defaults.

(** ** The envelope *)

Section Envelope.
Context `{Apimachinery} `{!ApimachineryLaws}.

(** What admission may make of one resource limit: a configured one stays,
    another is there exactly when a range has a default for it, and is one of
    those defaults. *)
Definition limit_admitted (ranges : list LimitRangeAdmissionSnapshot) (configured actual : ResourceList) (name : string) : Prop :=
  match configured !! name, actual !! name with
  | Some want, Some got => same_quantity got want = true
  | Some _, None => False
  | None, Some got => range_default DefaultLimits ranges name got
  | None, None => no_default DefaultLimits ranges name
  end.
(** A request that is not configured may also repeat the admitted limit, and
    an admitted limit has one. *)
Definition request_admitted (ranges : list LimitRangeAdmissionSnapshot) (configured actual limits : ResourceList) (name : string) : Prop :=
  match configured !! name, actual !! name with
  | Some want, Some got => same_quantity got want = true
  | Some _, None => False
  | None, Some got => range_default DefaultRequests ranges name got \/ exists limit, limits !! name = Some limit /\ same_quantity got limit = true
  | None, None => no_default DefaultRequests ranges name /\ limits !! name = None
  end.

Record container_admitted (s : PodAdmissionSnapshot) (expected actual : Container) : Prop := {
  ca_name : ContainerName actual = ContainerName expected;
  ca_args : Args actual = Args expected;
  ca_env : Env actual = Env expected;
  ca_env_from : EnvFrom actual = EnvFrom expected;
  ca_mounts : VolumeMounts actual = VolumeMounts expected;
  ca_limits : forall name, limit_admitted (LimitRanges s) (Limits expected) (Limits actual) name;
  ca_requests : forall name, request_admitted (LimitRanges s) (Requests expected) (Requests actual) (Limits actual) name;
  ca_pull : ImagePullPolicy actual =
              (if AlwaysPullImagesEnabled (SnapshotOptions s) then PullAlways else ImagePullPolicy expected);
  ca_image : ContainerImage actual = ContainerImage expected;
  ca_rest : rest_equal (ContainerRest actual) (ContainerRest expected) = true;
}.

(** The RuntimeClass the template names, and what it schedules. *)
Definition runtime_admitted (s : PodAdmissionSnapshot) (expected actual : PodSpec) : Prop :=
  RuntimeClassName actual = RuntimeClassName expected /\
  match RuntimeClassName expected, SnapshotRuntime s with
  | None, None =>
      NodeSelector actual = NodeSelector expected /\ Overhead actual = None /\ default ∅ (Overhead expected) = ∅
  | Some name, Some r =>
      BindingName (RuntimeObject r) = name /\
      (forall key value current, SnapshotNodeSelector r !! key = Some value -> NodeSelector expected !! key = Some current -> current = value) /\
      NodeSelector actual = SnapshotNodeSelector r ∪ NodeSelector expected /\
      (if OverheadDefined r
       then forall name, option_Forall2 (fun a b => same_quantity a b = true) (default ∅ (Overhead actual) !! name) (SnapshotOverhead r !! name)
       else Overhead actual = None)
  | _, _ => False
  end.

(** What the snapshot lets a Pod be, given its template: both defaulted. Only
    the node is free. *)
Record admitted (s : PodAdmissionSnapshot) (expected actual : PodSpec) : Prop := {
  ad_account : ServiceAccountName actual = effective_account (ServiceAccountName expected) /\
               BindingName (AccountObject (SnapshotAccount s)) = effective_account (ServiceAccountName expected);
  ad_alias : DeprecatedServiceAccount actual ∈ [DeprecatedServiceAccount expected; effective_account (ServiceAccountName expected)];
  ad_pull_secrets : ImagePullSecrets actual =
    match ImagePullSecrets expected with [] => SnapshotPullSecrets (SnapshotAccount s) | secrets => secrets end;
  ad_containers : Forall2 (container_admitted s) (Containers expected) (Containers actual);
  ad_init : Forall2 (container_admitted s) (InitContainers expected) (InitContainers actual);
  ad_runtime : runtime_admitted s expected actual;
  ad_priority_named : PriorityClassName expected = EmptyString \/ SnapshotPriorityName (SnapshotPriority s) = PriorityClassName expected;
  ad_priority : PriorityClassName actual = SnapshotPriorityName (SnapshotPriority s) /\
                Priority actual = Some (SnapshotPriorityValue (SnapshotPriority s)) /\
                PreemptionPolicy actual = SnapshotPreemption (SnapshotPriority s);
  ad_tolerations : Tolerations actual =
    admitted_tolerations (Tolerations expected) s (extendedResourceTolerations (Containers actual) (InitContainers actual));
  ad_ephemeral : semantic_list semantic_container (EphemeralContainers actual) (EphemeralContainers expected) = true;
  ad_volumes : semantic_list semantic_volume (Volumes actual) (Volumes expected) = true;
  ad_automount : AutomountServiceAccountToken actual = AutomountServiceAccountToken expected;
  ad_resources : semantic_option rest_equal (PodLevelResources actual) (PodLevelResources expected) = true;
  ad_deadline : PodActiveDeadlineSeconds actual = PodActiveDeadlineSeconds expected;
  ad_rest : rest_equal (PodRest actual) (PodRest expected) = true;
}.

Lemma configured_kept_iff actual expected :
  configured_kept actual expected = true <->
  forall name want, expected !! name = Some want -> exists got, actual !! name = Some got /\ same_quantity got want = true.
Proof.
  unfold configured_kept, entries.
  rewrite (forallb_map (fun name want => match actual !! name with Some got => same_quantity got want | None => false end)).
  split; intros Hk name want Hw; specialize (Hk name want Hw).
  - destruct (actual !! name) as [got|]; [by exists got|done].
  - by destruct Hk as (got & -> & Hs).
Qed.

Lemma defaults_admitted_iff sel ranges actual expected :
  defaults_admitted actual expected (allowed_from sel ranges) = true <->
  forall name, expected !! name = None -> actual !! name = None -> no_default sel ranges name.
Proof.
  unfold defaults_admitted.
  rewrite (forallb_map (fun name quantities => bool_decide (is_Some (expected !! name)) || (length quantities =? 0)%nat ||
    bool_decide (is_Some (actual !! name)))).
  setoid_rewrite orb_true_iff. setoid_rewrite orb_true_iff. setoid_rewrite bool_decide_eq_true. setoid_rewrite Nat.eqb_eq.
  setoid_rewrite <- allowed_none. unfold allowed_at. split.
  - intros Hk name He Ha. destruct (allowed_from sel ranges !! name) as [l|] eqn:E; [|done]. simpl.
    destruct (Hk name l E) as [[Hs|Hl]|Hs]; [by rewrite He in Hs; destruct Hs|by apply nil_length_inv|by rewrite Ha in Hs; destruct Hs].
  - intros Hk name l E. destruct (expected !! name) eqn:He; [by left; left|]. destruct (actual !! name) eqn:Ha; [by right|].
    left; right. specialize (Hk name He Ha). rewrite E in Hk. simpl in Hk. by subst.
Qed.

Lemma limits_iff ranges actual expected :
  validateResourceRequirements actual expected (allowed_from DefaultLimits ranges) = Ok tt <->
  forall name, limit_admitted ranges expected actual name.
Proof.
  unfold validateResourceRequirements. set (D := allowed_from DefaultLimits ranges).
  transitivity (configured_kept actual expected = true /\
    (forall name got, actual !! name = Some got ->
       bool_decide (is_Some (expected !! name)) || quantityAllowed got (allowed_at D name) = true) /\
    defaults_admitted actual expected D = true).
  { rewrite <- (forallb_map (fun name got => bool_decide (is_Some (expected !! name)) || quantityAllowed got (allowed_at D name))).
    unfold entries, allowed_at.
    destruct (configured_kept actual expected); [|naive_solver].
    destruct (forallb _ (map_to_list actual)); [|naive_solver].
    destruct (defaults_admitted actual expected D); naive_solver. }
  rewrite configured_kept_iff. unfold D. rewrite defaults_admitted_iff.
  setoid_rewrite orb_true_iff. setoid_rewrite bool_decide_eq_true. setoid_rewrite allowed_iff.
  unfold limit_admitted. split.
  - intros (Hk & Ha & Hd) name. destruct (expected !! name) as [want|] eqn:E.
    + by destruct (Hk name want E) as (got & -> & Hs).
    + destruct (actual !! name) as [got|] eqn:A; [|by apply Hd].
      destruct (Ha name got A) as [Hs|Hs]; [by rewrite E in Hs; destruct Hs|done].
  - intros Hl. split_and!; intros name; specialize (Hl name).
    + intros want E. rewrite E in Hl. destruct (actual !! name) as [got|]; [by exists got|done].
    + intros got A. rewrite A in Hl. destruct (expected !! name); [by left|by right].
    + intros E A. by rewrite E, A in Hl.
Qed.

Lemma requests_iff ranges actual expected limits :
  validateResourceRequests actual expected limits (allowed_from DefaultRequests ranges) = Ok tt <->
  forall name, request_admitted ranges expected actual limits name.
Proof.
  unfold validateResourceRequests. set (D := allowed_from DefaultRequests ranges).
  set (at_limit := fun name got => match limits !! name with Some limit => same_quantity got limit | None => false end).
  transitivity (configured_kept actual expected = true /\
    (forall name got, actual !! name = Some got ->
       bool_decide (is_Some (expected !! name)) || quantityAllowed got (allowed_at D name) || at_limit name got = true) /\
    defaults_admitted actual expected D = true /\
    (forall name limit, limits !! name = Some limit ->
       bool_decide (is_Some (expected !! name)) || bool_decide (is_Some (actual !! name)) = true)).
  { rewrite <- (forallb_map (fun name got => bool_decide (is_Some (expected !! name)) || quantityAllowed got (allowed_at D name) || at_limit name got)).
    rewrite <- (forallb_map (fun name _ => bool_decide (is_Some (expected !! name)) || bool_decide (is_Some (actual !! name)))).
    unfold entries, allowed_at, at_limit.
    destruct (configured_kept actual expected); [|naive_solver].
    destruct (forallb _ (map_to_list actual)); [|naive_solver].
    destruct (defaults_admitted actual expected D); [|naive_solver].
    destruct (forallb _ (map_to_list limits)); naive_solver. }
  rewrite configured_kept_iff. unfold D. rewrite defaults_admitted_iff.
  setoid_rewrite orb_true_iff. setoid_rewrite orb_true_iff. setoid_rewrite bool_decide_eq_true. setoid_rewrite allowed_iff.
  unfold request_admitted, at_limit. split.
  - intros (Hk & Ha & Hd & Hl) name. destruct (expected !! name) as [want|] eqn:E.
    + by destruct (Hk name want E) as (got & -> & Hs).
    + destruct (actual !! name) as [got|] eqn:A.
      * destruct (Ha name got A) as [[Hs|Hs]|Hs]; [by rewrite E in Hs; destruct Hs|by left|right].
        destruct (limits !! name) as [limit|]; [by exists limit|done].
      * split; [by apply Hd|]. destruct (limits !! name) as [limit|] eqn:L; [|done].
        destruct (Hl name limit L) as [Hs|Hs]; rewrite ?E, ?A in Hs; by destruct Hs.
  - intros Hr. split_and!; intros name; specialize (Hr name).
    + intros want E. rewrite E in Hr. destruct (actual !! name) as [got|]; [by exists got|done].
    + intros got A. rewrite A in Hr. destruct (expected !! name); [by left; left|].
      destruct Hr as [Hr|(limit & -> & Hs)]; [by left; right|by right].
    + intros E A. rewrite E, A in Hr. apply Hr.
    + intros limit L. destruct (expected !! name); [by left|]. destruct (actual !! name); [by right|].
      rewrite L in Hr. naive_solver.
Qed.

(** A container taken back to the template's, and what is left to compare. *)
Definition container_back (expected actual : Container) : Container :=
  with_resources (Requests expected) (Limits expected) (ImagePullPolicy expected) actual.

Lemma semantic_resources_refl m : semantic_resources m m = true.
Proof.
  unfold semantic_resources. rewrite bool_decide_eq_true_2 by done.
  apply (forallb_map (fun name got => match m !! name with Some want => same_quantity got want | None => false end)).
  intros k v ->. apply same_quantity_refl.
Qed.

Lemma container_iff s actual expected c' :
  let ranges := LimitRanges s in
  (validate_container actual expected (allowed_from DefaultRequests ranges) (allowed_from DefaultLimits ranges)
     (AlwaysPullImagesEnabled (SnapshotOptions s)) = Ok c' /\ semantic_container c' expected = true) <->
  c' = container_back expected actual /\ container_admitted s expected actual.
Proof.
  simpl. unfold validate_container.
  pose proof (limits_iff (LimitRanges s) (Limits actual) (Limits expected)) as HL.
  pose proof (requests_iff (LimitRanges s) (Requests actual) (Requests expected) (Limits actual)) as HR.
  assert (semantic_container (container_back expected actual) expected = true <->
    ContainerName actual = ContainerName expected /\ Args actual = Args expected /\ Env actual = Env expected /\
    EnvFrom actual = EnvFrom expected /\ VolumeMounts actual = VolumeMounts expected /\
    ContainerImage actual = ContainerImage expected /\ rest_equal (ContainerRest actual) (ContainerRest expected) = true) as HS.
  { unfold semantic_container, container_back. cbn [with_resources Requests Limits ContainerName Args Env EnvFrom VolumeMounts ImagePullPolicy ContainerImage ContainerRest].
    rewrite !semantic_resources_refl, !andb_true_iff, !bool_decide_eq_true. tauto. }
  destruct (bool_decide_reflect (ContainerName actual = ContainerName expected)) as [Hn|Hn]; cycle 1.
  { split; [by intros [? _]|]. intros [_ []]. done. }
  destruct (validateResourceRequirements _ _ _) as [[]|e]; simpl; cycle 1.
  { split; [by intros [? _]|]. intros [_ []]. by destruct HL as [_ HL]; discriminate HL. }
  destruct (validateResourceRequests _ _ _ _) as [[]|e]; simpl; cycle 1.
  { split; [by intros [? _]|]. intros [_ []]. by destruct HR as [_ HR]; discriminate HR. }
  case_bool_decide as Hp; cycle 1.
  { split; [by intros [? _]|]. intros [_ []]. done. }
  fold (container_back expected actual). split.
  - intros [[= <-] Hc%HS]. split; [done|]. destruct Hc as (? & ? & ? & ? & ? & ?). constructor; naive_solver.
  - intros [-> []]. split; [done|]. apply HS. naive_solver.
Qed.

Lemma each_iff s expected : forall actual cs,
  let ranges := LimitRanges s in
  length actual = length expected ->
  (validate_each actual expected (allowed_from DefaultRequests ranges) (allowed_from DefaultLimits ranges)
     (AlwaysPullImagesEnabled (SnapshotOptions s)) = Ok cs /\ semantic_list semantic_container cs expected = true) <->
  cs = zip_with container_back expected actual /\ Forall2 (container_admitted s) expected actual.
Proof.
  simpl. induction expected as [|e expected IH]; intros [|a actual] cs Hlen; try done; simpl.
  { split; [intros [[= <-] _]; by repeat constructor|by intros [-> _]]. }
  pose proof (container_iff s a e) as Hc. simpl in Hc. injection Hlen as Hlen. specialize (IH actual).
  rewrite Forall2_cons. split.
  - destruct (validate_container _ _ _ _ _) as [c|]; simpl; [|by intros [? _]].
    destruct (validate_each _ _ _ _ _) as [rest|]; simpl; [|by intros [? _]].
    intros [[= <-] [H1 H2]%andb_true_iff]. destruct (proj1 (Hc c) (conj eq_refl H1)) as [-> ?].
    destruct (proj1 (IH rest Hlen) (conj eq_refl H2)) as [-> ?]. done.
  - intros [-> [H1 H2]]. destruct (proj2 (Hc _) (conj eq_refl H1)) as [-> Hs1].
    destruct (proj2 (IH _ Hlen) (conj eq_refl H2)) as [-> Hs2]. cbn. split; [done|]. by apply andb_true_iff.
Qed.

Lemma containers_iff s actual expected cs :
  let '(requests, limits) := allowedLimitRangeDefaults (LimitRanges s) in
  (validateContainers actual expected requests limits (AlwaysPullImagesEnabled (SnapshotOptions s)) = Ok cs /\
   semantic_list semantic_container cs expected = true) <->
  cs = zip_with container_back expected actual /\ Forall2 (container_admitted s) expected actual.
Proof.
  rewrite allowed_split. unfold validateContainers. destruct (Nat.eqb_spec (length actual) (length expected)) as [Hl|Hl].
  - by apply each_iff.
  - split; [by intros [? _]|]. intros [_ Hf%Forall2_length]. by rewrite Hf in Hl.
Qed.

Lemma account_iff s actual expected a' :
  validateServiceAccount actual expected s = Ok a' <->
  a' = with_accounts (ServiceAccountName expected) (DeprecatedServiceAccount expected) (ImagePullSecrets expected) actual /\
  (ServiceAccountName actual = effective_account (ServiceAccountName expected) /\
   BindingName (AccountObject (SnapshotAccount s)) = effective_account (ServiceAccountName expected)) /\
  DeprecatedServiceAccount actual ∈ [DeprecatedServiceAccount expected; effective_account (ServiceAccountName expected)] /\
  ImagePullSecrets actual = match ImagePullSecrets expected with [] => SnapshotPullSecrets (SnapshotAccount s) | secrets => secrets end.
Proof.
  unfold validateServiceAccount. rewrite !elem_of_cons, elem_of_nil. set (want := effective_account _).
  destruct (bool_decide_reflect (BindingName (AccountObject (SnapshotAccount s)) = want)); simpl; [|naive_solver].
  destruct (bool_decide_reflect (ServiceAccountName actual = want)); simpl; [|naive_solver].
  destruct (bool_decide _ || bool_decide _) eqn:E; rewrite ?orb_true_iff, ?orb_false_iff, ?bool_decide_eq_true, ?bool_decide_eq_false in E; [|naive_solver].
  case_bool_decide; naive_solver.
Qed.

Lemma selector_conflict_iff base added :
  selector_conflict base added = false <->
  forall key value current, added !! key = Some value -> base !! key = Some current -> current = value.
Proof.
  unfold selector_conflict. rewrite existsb_none. split.
  - intros Hn key value current Ha Hb. specialize (Hn (key, value)). rewrite elem_of_map_to_list in Hn. specialize (Hn Ha).
    simpl in Hn. rewrite Hb in Hn. by apply negb_false_iff, bool_decide_eq_true in Hn.
  - intros Hn [key value] Ha%elem_of_map_to_list. destruct (base !! key) as [current|] eqn:Hb; [|done].
    by rewrite (Hn _ _ _ Ha Hb), bool_decide_eq_true_2.
Qed.

Lemma resourceListEqual_iff left right :
  resourceListEqual left right = true <->
  forall name, option_Forall2 (fun a b => same_quantity a b = true) (left !! name) (right !! name).
Proof.
  unfold resourceListEqual, entries, map_len. rewrite andb_true_iff, Z.eqb_eq, Nat2Z.inj_iff.
  rewrite (forallb_map (fun name q => match right !! name with Some other => same_quantity q other | None => false end)). split.
  - intros [Hs Hq]. assert (dom left = dom right) as Hd.
    { apply set_subseteq_size_eq; [|rewrite !size_dom; lia]. intros k [v Hv]%elem_of_dom. specialize (Hq k v Hv).
      apply elem_of_dom. destruct (right !! k); [by eexists|done]. }
    intros name. destruct (left !! name) as [q|] eqn:L.
    + specialize (Hq name q L). destruct (right !! name); [by constructor|done].
    + assert (right !! name = None) as ->; [|constructor]. apply not_elem_of_dom. rewrite <- Hd. by apply not_elem_of_dom.
  - intros Hq. split.
    + rewrite <- !size_dom. f_equal. apply set_eq. intros k. rewrite !elem_of_dom. destruct (Hq k); naive_solver.
    + intros k v Hk. specialize (Hq k). rewrite Hk in Hq. inversion Hq as [? ? Hs|]; subst. done.
Qed.

Definition runtime_back (expected actual : PodSpec) : PodSpec :=
  match RuntimeClassName expected with
  | None => actual
  | Some _ => with_scheduling (NodeSelector expected) (Overhead expected) actual
  end.

Lemma semantic_resources_empty m : semantic_resources ∅ m = true <-> m = ∅.
Proof.
  unfold semantic_resources. rewrite andb_true_iff, bool_decide_eq_true, dom_empty_L. split.
  - intros [Hd _]. by apply dom_empty_inv_L.
  - intros ->. rewrite dom_empty_L, map_to_list_empty. done.
Qed.

Lemma runtime_iff s actual expected a' :
  (validateRuntimeClass actual expected (SnapshotRuntime s) = Ok a' /\
   RuntimeClassName a' = RuntimeClassName expected /\ NodeSelector a' = NodeSelector expected /\
   semantic_overhead (Overhead a') (Overhead expected) = true) <->
  a' = runtime_back expected actual /\ runtime_admitted s expected actual.
Proof.
  unfold validateRuntimeClass, runtime_admitted, runtime_back, semantic_overhead.
  destruct (RuntimeClassName expected) as [name|] eqn:Ee, (SnapshotRuntime s) as [r|]; simpl; try naive_solver.
  - rewrite <- selector_conflict_iff.
    assert ((if OverheadDefined r
             then forall name0, option_Forall2 (fun a b => same_quantity a b = true) (default ∅ (Overhead actual) !! name0) (SnapshotOverhead r !! name0)
             else Overhead actual = None) <->
            (if OverheadDefined r then resourceListEqual (default ∅ (Overhead actual)) (SnapshotOverhead r)
             else bool_decide (Overhead actual = None)) = true) as ->.
    { destruct (OverheadDefined r); [by rewrite resourceListEqual_iff|by rewrite bool_decide_eq_true]. }
    set (overhead_ok := if OverheadDefined r then resourceListEqual _ _ else _).
    destruct (bool_decide_reflect (BindingName (RuntimeObject r) = name)); simpl; [|naive_solver].
    destruct (bool_decide_reflect (RuntimeClassName actual = Some name)); simpl; [|naive_solver].
    destruct (selector_conflict _ _); simpl; [naive_solver|].
    destruct (bool_decide_reflect (NodeSelector actual = SnapshotNodeSelector r ∪ NodeSelector expected)); [|naive_solver].
    destruct overhead_ok; [|naive_solver]. split; [naive_solver|].
    intros [-> _]. split; [done|]. simpl. by rewrite semantic_resources_refl.
  - destruct (bool_decide_reflect (RuntimeClassName actual = None)); simpl; [|naive_solver].
    destruct (bool_decide_reflect (Overhead actual = None)) as [Ho|]; simpl; [|naive_solver].
    destruct (bool_decide_reflect (NodeSelector actual = NodeSelector expected)); [|naive_solver].
    rewrite <- semantic_resources_empty. split.
    + intros [[= ->] Hrest]. rewrite Ho in Hrest. naive_solver.
    + intros (-> & Hrest). rewrite Ho. naive_solver.
Qed.

Lemma priority_iff s actual expected a' :
  validatePriority actual expected (SnapshotPriority s) = Ok a' <->
  a' = with_priority (PriorityClassName expected) (Priority expected) (PreemptionPolicy expected) actual /\
  (PriorityClassName expected = EmptyString \/ SnapshotPriorityName (SnapshotPriority s) = PriorityClassName expected) /\
  PriorityClassName actual = SnapshotPriorityName (SnapshotPriority s) /\
  Priority actual = Some (SnapshotPriorityValue (SnapshotPriority s)) /\
  PreemptionPolicy actual = SnapshotPreemption (SnapshotPriority s).
Proof.
  unfold validatePriority, empty. destruct (_ || _) eqn:E1; rewrite ?orb_true_iff, ?orb_false_iff, ?bool_decide_eq_true, ?bool_decide_eq_false in E1; [|naive_solver].
  destruct (_ && _ && _) eqn:E2; [rewrite !andb_true_iff, !bool_decide_eq_true in E2; naive_solver|].
  rewrite !andb_false_iff, !bool_decide_eq_false in E2. naive_solver.
Qed.

(** What the last comparison is left with. *)
Lemma semantic_left a expected :
  semantic_pod_spec (with_node (NodeName expected) (with_tolerations (Tolerations expected)
    (with_priority (PriorityClassName expected) (Priority expected) (PreemptionPolicy expected) a))) expected = true <->
  (semantic_list semantic_container (Containers a) (Containers expected) = true /\
   semantic_list semantic_container (InitContainers a) (InitContainers expected) = true /\
   ServiceAccountName a = ServiceAccountName expected /\ DeprecatedServiceAccount a = DeprecatedServiceAccount expected /\
   ImagePullSecrets a = ImagePullSecrets expected) /\
  (RuntimeClassName a = RuntimeClassName expected /\ NodeSelector a = NodeSelector expected /\
   semantic_overhead (Overhead a) (Overhead expected) = true) /\
  semantic_list semantic_container (EphemeralContainers a) (EphemeralContainers expected) = true /\
  semantic_list semantic_volume (Volumes a) (Volumes expected) = true /\
  AutomountServiceAccountToken a = AutomountServiceAccountToken expected /\
  semantic_option rest_equal (PodLevelResources a) (PodLevelResources expected) = true /\
  PodActiveDeadlineSeconds a = PodActiveDeadlineSeconds expected /\ rest_equal (PodRest a) (PodRest expected) = true.
Proof.
  unfold semantic_pod_spec, with_node, with_tolerations, with_priority.
  cbn [Containers InitContainers EphemeralContainers Volumes ServiceAccountName DeprecatedServiceAccount AutomountServiceAccountToken
       ImagePullSecrets NodeName NodeSelector RuntimeClassName Overhead PriorityClassName Priority PreemptionPolicy Tolerations
       PodLevelResources PodActiveDeadlineSeconds PodRest].
  rewrite !andb_true_iff, !bool_decide_eq_true. tauto.
Qed.

(** The fields neither mutation of the scheduling touches. *)
Lemma runtime_back_frame expected a :
  Containers (runtime_back expected a) = Containers a /\ InitContainers (runtime_back expected a) = InitContainers a /\
  EphemeralContainers (runtime_back expected a) = EphemeralContainers a /\ Volumes (runtime_back expected a) = Volumes a /\
  ServiceAccountName (runtime_back expected a) = ServiceAccountName a /\
  DeprecatedServiceAccount (runtime_back expected a) = DeprecatedServiceAccount a /\
  AutomountServiceAccountToken (runtime_back expected a) = AutomountServiceAccountToken a /\
  ImagePullSecrets (runtime_back expected a) = ImagePullSecrets a /\
  PriorityClassName (runtime_back expected a) = PriorityClassName a /\ Priority (runtime_back expected a) = Priority a /\
  PreemptionPolicy (runtime_back expected a) = PreemptionPolicy a /\ Tolerations (runtime_back expected a) = Tolerations a /\
  PodLevelResources (runtime_back expected a) = PodLevelResources a /\
  PodActiveDeadlineSeconds (runtime_back expected a) = PodActiveDeadlineSeconds a /\ PodRest (runtime_back expected a) = PodRest a.
Proof. unfold runtime_back. destruct (RuntimeClassName expected); done. Qed.

Lemma rbind_ok {E A B} (r : result E A) (f : A -> result E B) b :
  rbind r f = Ok b <-> exists a, r = Ok a /\ f a = Ok b.
Proof. destruct r; naive_solver. Qed.

Lemma envelope_iff s expected actual : check_envelope s expected actual = Ok tt <-> admitted s expected actual.
Proof.
  unfold check_envelope. rewrite rbind_ok. setoid_rewrite account_iff.
  pose proof (containers_iff s) as Hcs. destruct (allowedLimitRangeDefaults (LimitRanges s)) as [requests limits].
  set (a1 := with_accounts _ _ _ actual). split.
  - intros (? & [-> (Hacc & Hali & Hpull)] & HH).
    apply rbind_ok in HH as (cs & Hv1 & HH). apply rbind_ok in HH as (ins & Hv2 & HH).
    apply rbind_ok in HH as (a4 & Hrt & HH). apply rbind_ok in HH as (a5 & (-> & Hpn & Hp)%priority_iff & HH).
    unfold validateTolerations in HH. case_bool_decide as Htol; [|done]. simpl in HH.
    destruct (semantic_pod_spec _ _) eqn:Hsem; [|done]. apply semantic_left in Hsem as ((Hc & Hi & _) & Hr & Hrest).
    destruct (proj1 (runtime_iff _ _ _ _) (conj Hrt Hr)) as [-> Hadm].
    destruct (runtime_back_frame expected (with_containers cs ins a1)) as (F1 & F2 & F3 & F4 & F5 & F6 & F7 & F8 & F9 & F10 & F11 & F12 & F13 & F14 & F15).
    rewrite ?F1, ?F2, ?F3, ?F4, ?F7, ?F9, ?F10, ?F11, ?F13, ?F14, ?F15 in *. simpl in Htol. rewrite F12 in Htol.
    destruct (proj1 (Hcs _ _ _) (conj Hv1 Hc)) as [_ HC]. destruct (proj1 (Hcs _ _ _) (conj Hv2 Hi)) as [_ HI].
    constructor; simpl in *; naive_solver.
  - intros [Hacc Hali Hpull HC HI Hadm Hpn Hp Htol Heph Hvol Haut Hres Hdl Hrest].
    exists a1. split; [done|].
    destruct (proj2 (Hcs (Containers a1) _ _) (conj eq_refl HC)) as [-> Hc].
    destruct (proj2 (Hcs (InitContainers a1) _ _) (conj eq_refl HI)) as [-> Hi]. cbn [rbind].
    set (a3 := with_containers _ _ a1).
    destruct (proj2 (runtime_iff s a3 expected _) (conj eq_refl Hadm)) as [-> Hr]. cbn [rbind].
    destruct (runtime_back_frame expected a3) as (F1 & F2 & F3 & F4 & F5 & F6 & F7 & F8 & F9 & F10 & F11 & F12 & F13 & F14 & F15).
    assert (validatePriority (runtime_back expected a3) expected (SnapshotPriority s) =
      Ok (with_priority (PriorityClassName expected) (Priority expected) (PreemptionPolicy expected) (runtime_back expected a3))) as ->.
    { apply priority_iff. rewrite F9, F10, F11. done. }
    cbn [rbind]. unfold validateTolerations. rewrite bool_decide_eq_true_2; [|simpl; rewrite F12; exact Htol]. cbn [rbind].
    rewrite (proj2 (semantic_left (runtime_back expected a3) expected)); [done|].
    rewrite F1, F2, F3, F4, F5, F6, F7, F8, F13, F14, F15. split_and!; try done; apply Hr.
Qed.

(** C9: a Pod is let run under a snapshot exactly when the snapshot reads
    back valid, the Job's template is the one it was resolved for, and the
    Pod is that template after the admission the snapshot records: its
    service account and pull secrets, resource defaults of the recorded
    LimitRanges and no others, the recorded RuntimeClass, priority and
    tolerations, the recorded pull policy. Every other field is the
    template's; only the node is free. *)
Theorem pod_spec_envelope (actual : PodSpec) (template : PodTemplateSpec) (s : PodAdmissionSnapshot) :
  ValidatePodSpec actual template (Some s) = Ok tt <->
  ValidateSnapshot (Some s) = Ok tt /\ DigestTemplate template = TemplateDigest s /\
  admitted s (defaulted (TemplateSpec template)) (defaulted actual).
Proof.
  unfold ValidatePodSpec. rewrite rbind_ok, <- envelope_iff. case_bool_decide; [|naive_solver]. split.
  - intros ([] & ? & ?). done.
  - intros (? & _ & ?). by exists tt.
Qed.
End Envelope.
