(* ===== verification/PodResolve.v ===== *)
(** * Resolving an admission snapshot (package [internal/podintent])

    What [Resolve] records is what [ValidateSnapshot] accepts, whatever the
    API server holds, as long as it holds only objects its own validation
    lets in; and two resolutions of one template against the same objects
    record the same snapshot, in whatever order the LimitRanges are listed. *)
From Stdlib Require Import ZArith Lia Ascii Sorted Permutation.
From stdpp Require Import base list gmap strings sorting.
From S2P Require Import Prelude GoStrings Sha256 Json Fingerprint SourceContent SourceContentProofs KubeMeta KubePod PodIntent PodIntentProofs.
Local Open Scope go_scope.
Local Open Scope Z_scope.
Lemma DigestCanonicalJSON_shape v : is_sha256_digest (DigestCanonicalJSON v) = true.
Proof. apply DigestBytes_shape. Qed.
#[local] Opaque DigestCanonicalJSON.

Section Resolve.
Context `{Apimachinery}.

(** ** What the API server's validation lets in *)

Definition resources_valid (m : ResourceList) : Prop :=
  forall name q, m !! name = Some q -> name <> EmptyString /\ 0 <= quantity_sign q.
Definition item_valid (item : LimitRangeItem) : Prop :=
  resources_valid (LimitMax item) /\ resources_valid (LimitMin item) /\
  resources_valid (LimitDefault item) /\ resources_valid (LimitDefaultRequest item).
(** An object name has no NUL, and the names of one list are distinct. *)
Definition no_nul (s : string) : bool := negb (occurs (ascii_of_nat 0) s).
Definition ranges_valid (items : list LimitRange) : Prop :=
  Forall (fun r => Forall item_valid (LimitRangeLimits r) /\ no_nul (MetaName (LimitRangeMeta r)) = true) items /\
  NoDup (MetaName ∘ LimitRangeMeta <$> items).
Definition runtime_valid (r : RuntimeClass) : Prop :=
  RuntimeHandler r <> EmptyString /\ len (RuntimeHandler r) <= 63 /\ resources_valid (default ∅ (RuntimeOverhead r)).
Definition priority_valid (p : PriorityClass) : Prop :=
  match PriorityPreemption p with Some policy => policy = PreemptLowerPriority \/ policy = PreemptNever | None => True end.

Definition valid_answer (X : Type) (e : podE X) : X -> Prop :=
  match e in podE X return X -> Prop with
  | GetServiceAccount _ _ => fun _ => True
  | ListLimitRanges _ => fun r => match r with Ok items => ranges_valid items | Err _ => True end
  | GetRuntimeClass _ => fun r => match r with Ok class => runtime_valid class | Err _ => True end
  | GetPriorityClass _ => fun r => match r with Ok class => priority_valid class | Err _ => True end
  | ListPriorityClasses => fun r => match r with Ok classes => Forall priority_valid classes | Err _ => True end
  end.

(** A cluster whose objects its API server validated. *)
Definition cluster (X : Type) (e : podE X) (_ : unit) (x : X) (_ : unit) : Prop := valid_answer X e x.

(** ** Running the reads *)

Lemma exec_andthen {A B} (p : prog podE (result pod_error A)) (f : A -> prog podE (result pod_error B)) b :
  exec cluster (andthen p f) tt (Ok b) tt -> exists a, exec cluster p tt (Ok a) tt /\ exec cluster (f a) tt (Ok b) tt.
Proof.
  unfold andthen. rewrite exec_bind. intros ([a|e] & [] & Hp & Hf); [by exists a|].
  destruct Hf as [Hf _]. discriminate Hf.
Qed.
Lemma exec_reading {A} (e : podE (result bool A)) a : exec cluster (reading e) tt (Ok a) tt -> valid_answer _ e (Ok a).
Proof.
  unfold reading. rewrite exec_bind. intros (r & [] & Hc & Hr). simpl in Hc. destruct Hc as (x & s1 & Hx & [<- <-]).
  simpl in Hr. destruct Hr as [Hr _]. destruct r as [a'|]; [|done]. by injection Hr as <-.
Qed.
Lemma exec_lift {A} (r : result pod_error A) a : exec cluster (lift r) tt (Ok a) tt -> r = Ok a.
Proof. by intros [-> _]. Qed.

(** ** LimitRanges *)

Definition range_ok (r : LimitRangeAdmissionSnapshot) : Prop :=
  validateBinding (RangeObject r) = Ok tt /\ validateResourceList (DefaultRequests r) = Ok tt /\
  validateResourceList (DefaultLimits r) = Ok tt.
Definition range_size (r : LimitRangeAdmissionSnapshot) : Z := map_len (DefaultRequests r) + map_len (DefaultLimits r).
Definition total_size (ranges : list LimitRangeAdmissionSnapshot) : Z := foldr (fun r n => range_size r + n) 0 ranges.
Definition range_order (r : LimitRangeAdmissionSnapshot) : string := bindingOrder (RangeObject r).

Lemma range_size_nonneg r : 0 <= range_size r.
Proof. unfold range_size, map_len. lia. Qed.
Lemma total_size_perm ranges ranges' : Permutation ranges ranges' -> total_size ranges = total_size ranges'.
Proof. unfold total_size. induction 1; simpl in *; lia. Qed.
Lemma total_size_nonneg ranges : 0 <= total_size ranges.
Proof. induction ranges as [|r ranges IH]; simpl; [done|]. pose proof (range_size_nonneg r). lia. Qed.

Lemma resources_valid_ok m : resources_valid m -> map_len m <= maxResourceKeys -> validateResourceList m = Ok tt.
Proof.
  intros Hv Hl. unfold validateResourceList. rewrite (proj2 (Z.leb_le _ _) Hl).
  rewrite (proj2 (forallb_map (fun name q => negb (empty name || (quantity_sign q <? 0))) m)); [done|].
  intros name q [Hn Hq]%Hv. unfold empty. rewrite bool_decide_eq_false_2 by done. simpl.
  by apply negb_true_iff, Z.ltb_ge.
Qed.

Lemma resources_valid_union m m' : resources_valid m -> resources_valid m' -> resources_valid (m ∪ m').
Proof. intros Hm Hm' name q [Hq|[_ Hq]]%lookup_union_Some_raw; eauto. Qed.

Lemma range_defaults_valid limitRange requests limits :
  Forall item_valid (LimitRangeLimits limitRange) -> range_defaults limitRange = Ok (requests, limits) ->
  resources_valid requests /\ resources_valid limits.
Proof.
  intros Hv. unfold range_defaults. destruct (filter _ _) as [|item [|]] eqn:E; [|injection 1 as <- <-|done].
  - injection 1 as <- <-. split; intros name q; by rewrite lookup_empty.
  - assert (item ∈ LimitRangeLimits limitRange) as Hi.
    { eapply list_elem_of_filter. rewrite E. apply list_elem_of_here. }
    rewrite Forall_forall in Hv. destruct (Hv item Hi) as (H1 & H2 & H3 & H4).
    split; repeat apply resources_valid_union; done.
Qed.

Lemma objectBinding_ok m b :
  objectBinding m = Ok b -> validateBinding b = Ok tt /\ BindingName b = MetaName m.
Proof. unfold objectBinding. intros ([] & Hb & [= <-])%rbind_ok. done. Qed.

Lemma resolve_ranges_ok items : forall total ranges,
  Forall (fun r => Forall item_valid (LimitRangeLimits r) /\ no_nul (MetaName (LimitRangeMeta r)) = true) items ->
  resolve_ranges total items = Ok ranges -> total <= maxLimitRangeDefaultEntries ->
  Forall range_ok ranges /\ total + total_size ranges <= maxLimitRangeDefaultEntries /\
  BindingName ∘ RangeObject <$> ranges = MetaName ∘ LimitRangeMeta <$> items.
Proof.
  induction items as [|r items IH]; intros total ranges Hv; simpl.
  { intros [= <-] Ht. split; [constructor|]. simpl. split; [lia|done]. }
  apply Forall_cons in Hv as [[Hr _] Hv]. intros (b & [Hb Hn]%objectBinding_ok & HH)%rbind_ok Ht.
  apply rbind_ok in HH as ([requests limits] & Hd & HH). destruct (_ || _) eqn:Ek; [done|]. simpl in HH.
  apply orb_false_iff in Ek as [K1%Z.ltb_ge K2%Z.ltb_ge].
  destruct (Z.leb_spec (total + (map_len requests + map_len limits)) maxLimitRangeDefaultEntries) as [Hle|]; [|done].
  apply rbind_ok in HH as (rest & Hrest & [= <-]). destruct (IH _ _ Hv Hrest Hle) as (Hok & Hsum & Hnames).
  destruct (range_defaults_valid _ _ _ Hr Hd) as [Hvr Hvl]. split; [|split].
  - constructor; [|done]. split; [done|]. split; by apply resources_valid_ok.
  - simpl. unfold range_size at 1. simpl. lia.
  - by rewrite !fmap_cons, Hnames; simpl; rewrite Hn.
Qed.

Lemma no_nul_inj (n m a b : string) :
  no_nul n = true -> no_nul m = true -> n +:+ nul +:+ a = m +:+ nul +:+ b -> n = m.
Proof.
  unfold no_nul, occurs, str_any. rewrite !negb_involutive. set (f := fun x : ascii => _).
  revert m. induction n as [|c n IH]; intros [|d m]; simpl; [done|..].
  - intros _ [Hd _]%andb_true_iff. intros [= <- _]. by unfold f in Hd.
  - intros [Hc _]%andb_true_iff _. intros [= -> _]. by unfold f in Hc.
  - intros [_ Hn]%andb_true_iff [_ Hm]%andb_true_iff [= -> He]. f_equal. by apply IH.
Qed.

Lemma validate_sorted ranges : forall last total,
  Forall range_ok ranges -> StronglySorted str_le (range_order <$> ranges) -> NoDup (range_order <$> ranges) ->
  (forall l, last = Some l -> Forall (fun r => l <> range_order r /\ str_le l (range_order r)) ranges) ->
  total + total_size ranges <= maxLimitRangeDefaultEntries -> validate_ranges last total ranges = Ok tt.
Proof.
  induction ranges as [|r ranges IH]; intros last total Hok Hs Hnd Hl Ht; [done|].
  apply Forall_cons in Hok as [(Hb & Hr & Hm) Hok]. rewrite fmap_cons in Hs, Hnd.
  apply StronglySorted_inv in Hs as [Hs Hhd]. apply NoDup_cons in Hnd as [Hnin Hnd].
  cbn [validate_ranges]. rewrite Hb, Hr, Hm. cbn [rbind]. fold (range_order r).
  assert (match last with Some l => (range_order r <=? l)%string | None => false end = false) as ->.
  { destruct last as [l|]; [|done]. specialize (Hl l eq_refl). apply Forall_cons in Hl as [[Hne Hle] _].
    apply not_true_iff_false. intros Hle'. apply Hne. by apply String.leb_antisym. }
  simpl in Ht. unfold range_size at 1 in Ht. pose proof (total_size_nonneg ranges).
  replace (total + map_len (DefaultRequests r) + map_len (DefaultLimits r) <=? maxLimitRangeDefaultEntries) with true
    by (symmetry; apply Z.leb_le; lia).
  cbn. apply IH; [done|done|done| |lia]. intros l [= <-]. rewrite Forall_forall. intros r' Hr'. split.
  - intros He. apply Hnin. rewrite He. by apply list_elem_of_fmap_2.
  - rewrite Forall_forall in Hhd. apply Hhd. by apply list_elem_of_fmap_2.
Qed.

Lemma distinct_orders items ranges :
  ranges_valid items -> BindingName ∘ RangeObject <$> ranges = MetaName ∘ LimitRangeMeta <$> items ->
  NoDup (range_order <$> ranges).
Proof.
  intros [Hv Hnd] Hn. rewrite <- Hn in Hnd.
  assert (Forall (fun r => no_nul (BindingName (RangeObject r)) = true) ranges) as Hnul.
  { apply Forall_fmap with (f := BindingName ∘ RangeObject) (P := fun n => no_nul n = true). rewrite Hn. apply Forall_fmap.
    eapply Forall_impl; [exact Hv|]. intros r [_ Hr]. exact Hr. }
  clear Hn Hv items. induction ranges as [|r ranges IH]; [constructor|]. rewrite fmap_cons in *.
  apply NoDup_cons in Hnd as [Hnin Hnd]. apply Forall_cons in Hnul as [Hr Hnul]. constructor; [|by apply IH].
  intros (r' & He & Hr')%list_elem_of_fmap. apply Hnin. apply list_elem_of_fmap. exists r'. split; [|done].
  rewrite Forall_forall in Hnul. simpl. eapply no_nul_inj; [exact Hr|by apply Hnul|]. exact He.
Qed.

Lemma resolved_ranges_valid items ranges :
  ranges_valid items -> resolve_ranges 0 items = Ok ranges -> validate_ranges None 0 (sort_ranges ranges) = Ok tt.
Proof.
  intros Hv Hr. destruct (resolve_ranges_ok items 0 ranges (proj1 Hv) Hr) as (Hok & Hsum & Hnames); [done|].
  pose proof (sort_by_perm range_order ranges) as Hp. fold range_order in Hp. unfold sort_ranges. fold range_order.
  apply validate_sorted.
  - by rewrite <- Hp.
  - apply sort_by_sorted.
  - rewrite <- Hp. by eapply distinct_orders.
  - done.
  - by rewrite <- (total_size_perm _ _ Hp).
Qed.

Lemma resolve_ranges_length items : forall total ranges, resolve_ranges total items = Ok ranges -> length ranges = length items.
Proof.
  induction items as [|r items IH]; intros total ranges; simpl; [by intros [= <-]|].
  intros (b & _ & HH)%rbind_ok. apply rbind_ok in HH as ([requests limits] & _ & HH). repeat (case_match; [|done]).
  all: try done. all: apply rbind_ok in HH as (rest & Hrest & [= <-]); simpl; f_equal; by eapply IH.
Qed.

(** ** The classes *)

Lemma resolved_runtime_valid template r :
  exec cluster (resolveRuntimeClass template) tt (Ok r) tt -> validate_runtime r = Ok tt.
Proof.
  unfold resolveRuntimeClass. destruct (RuntimeClassName template) as [name|]; [|intros H1%exec_lift; by injection H1 as <-].
  destruct (negb (empty name)); [|by intros [? _]]. intros (class & Hc%exec_reading & HH)%exec_andthen.
  apply exec_andthen in HH as (b & Hb%exec_lift%objectBinding_ok & HH). destruct Hb as [Hb _].
  destruct (negb _) eqn:E in HH; [|by destruct HH]. destruct (negb _) in HH; [|by destruct HH].
  apply exec_lift in HH. injection HH as <-. simpl in Hc, E. apply negb_true_iff in E.
  rewrite !orb_false_iff, !Z.ltb_ge in E. destruct E as [[E1 E2] E3]. destruct Hc as (Hn & Hl & Hv).
  unfold validate_runtime. simpl. rewrite Hb. cbn [rbind]. unfold empty. rewrite bool_decide_eq_false_2 by done.
  replace (63 <? len (RuntimeHandler class)) with false by (symmetry; apply Z.ltb_ge; lia). simpl.
  rewrite resources_valid_ok by done. cbn [rbind].
  rewrite (proj2 (Z.ltb_ge _ _) E2), (proj2 (Z.ltb_ge _ _) E3). done.
Qed.

Lemma selected_priority_valid template class :
  exec cluster (selected_priority template) tt (Ok (Some class)) tt -> priority_valid class.
Proof.
  unfold selected_priority. case_match.
  - intros (c & Hc%exec_reading & HH)%exec_andthen. apply exec_lift in HH. by injection HH as <-.
  - intros (cs & Hc%exec_reading & HH)%exec_andthen. destruct (filter _ cs) as [|c [|]] eqn:E; apply exec_lift in HH; try done.
    injection HH as <-. simpl in Hc. rewrite Forall_forall in Hc. apply Hc.
    eapply list_elem_of_filter. rewrite E. apply list_elem_of_here.
Qed.

Lemma resolved_priority_valid template p :
  exec cluster (resolvePriorityClass template) tt (Ok p) tt -> validate_priority_record p = Ok tt.
Proof.
  unfold resolvePriorityClass. intros ([class|] & Hs & HH)%exec_andthen; [|apply exec_lift in HH; by injection HH as <-].
  apply exec_andthen in HH as (b & [Hb Hn]%exec_lift%objectBinding_ok & HH). apply exec_lift in HH. injection HH as <-.
  apply selected_priority_valid in Hs. unfold validate_priority_record, priority_valid in *. simpl.
  rewrite Hb. cbn [rbind]. rewrite bool_decide_eq_true_2 by done. cbn [rbind].
  destruct (PriorityPreemption class) as [policy|]; [|done]. by destruct Hs as [->| ->].
Qed.

(** C10: whatever validated objects the API server answers with, the snapshot
    a resolution records reads back valid: its bounds hold, its LimitRanges
    are strictly ordered and its digest is its own. It is bound to the
    template and the options it was resolved for, and the Pods it then lets
    run are exactly the template after the admission it records. *)
Theorem resolved_snapshot_valid `{!ApimachineryLaws} namespace template options s :
  exec cluster (Resolve namespace template options) tt (Ok s) tt ->
  ValidateSnapshot (Some s) = Ok tt /\ TemplateDigest s = DigestTemplate template /\ SnapshotOptions s = options /\
  (forall actual, ValidatePodSpec actual template (Some s) = Ok tt <->
     admitted s (defaulted (TemplateSpec template)) (defaulted actual)).
Proof.
  intros HR. assert (ValidateSnapshot (Some s) = Ok tt /\ TemplateDigest s = DigestTemplate template /\ SnapshotOptions s = options)
    as (Hv & Hd & Ho).
  { unfold Resolve in HR. case_match; [|by destruct HR]. case_match; [|by destruct HR].
    apply exec_andthen in HR as ([] & Hopt%exec_lift & HR). apply exec_andthen in HR as (account & _ & HR).
    apply exec_andthen in HR as (b & [Hb _]%exec_lift%objectBinding_ok & HR). destruct (Z.leb_spec (Z.of_nat (length (AccountPullSecrets account))) maxSchedulingItems) as [Hp|]; [|by destruct HR].
    apply exec_andthen in HR as (items & Hitems%exec_reading & HR). destruct (Z.leb_spec (Z.of_nat (length items)) maxLimitRanges) as [Hl|]; [|by destruct HR].
    apply exec_andthen in HR as (ranges & Hr%exec_lift & HR). apply exec_andthen in HR as ([] & _ & HR).
    apply exec_andthen in HR as (rt & Hrt%resolved_runtime_valid & HR). apply exec_andthen in HR as (p & Hpr%resolved_priority_valid & HR).
    apply exec_lift in HR. injection HR as <-. split; [|done]. unfold ValidateSnapshot, bindDigest. simpl.
    unfold DigestTemplate. rewrite DigestCanonicalJSON_shape. rewrite Hb. cbn [rbind]. rewrite (proj2 (Z.leb_le _ _) Hp).
    rewrite <- (sort_by_perm range_order ranges : Permutation _ (sort_ranges ranges)), (resolve_ranges_length _ _ _ Hr), (proj2 (Z.leb_le _ _) Hl).
    rewrite (resolved_ranges_valid _ _ Hitems Hr), Hrt, Hpr, Hopt. cbn [rbind]. by rewrite bool_decide_eq_true_2. }
  split_and!; try done. intros actual. unfold ValidatePodSpec. rewrite Hv. cbn [rbind].
  rewrite bool_decide_eq_true_2 by done. apply envelope_iff.
Qed.

(** ** Resolving again

    The objects of a cluster, as its reader answers for them. *)

Record objects : Type := {
  accounts : string -> string -> result bool ServiceAccount;
  ranges_in : string -> result bool (list LimitRange);
  runtimes : string -> result bool RuntimeClass;
  priorities : string -> result bool PriorityClass;
  priority_list : result bool (list PriorityClass);
}.
Definition answer_from (o : objects) (X : Type) (e : podE X) : X :=
  match e in podE X return X with
  | GetServiceAccount namespace name => accounts o namespace name
  | ListLimitRanges namespace => ranges_in o namespace
  | GetRuntimeClass name => runtimes o name
  | GetPriorityClass name => priorities o name
  | ListPriorityClasses => priority_list o
  end.
(** What a program returns against these objects. *)
Definition asked {A} (o : objects) (p : prog podE A) : A := (run (fun X e (_ : unit) => (answer_from o X e, tt)) p tt).1.

(** The same objects, the LimitRanges listed in another order. *)
Definition same_objects (o o' : objects) : Prop :=
  accounts o = accounts o' /\ runtimes o = runtimes o' /\ priorities o = priorities o' /\ priority_list o = priority_list o' /\
  forall namespace, match ranges_in o namespace, ranges_in o' namespace with
               | Ok items, Ok items' => ranges_valid items /\ Permutation items items'
               | Err e, Err e' => e = e'
               | _, _ => False
               end.

Lemma asked_bind {A B} o (p : prog podE A) (f : A -> prog podE B) : asked o (pbind p f) = asked o (f (asked o p)).
Proof. unfold asked. rewrite run_bind. destruct (run _ p tt) as [a []]. done. Qed.
Lemma asked_andthen {A B} o (p : prog podE (result pod_error A)) (f : A -> prog podE (result pod_error B)) :
  asked o (andthen p f) = rbind (asked o p) (fun a => asked o (f a)).
Proof. unfold andthen. rewrite asked_bind. by destruct (asked o p). Qed.
Lemma asked_lift {A} o (r : result pod_error A) : asked o (lift r) = r.
Proof. done. Qed.
Lemma asked_reading {A} o (e : podE (result bool A)) :
  asked o (reading e) = match answer_from o _ e with Ok a => Ok a | Err b => Err (ReadFailed b) end.
Proof. done. Qed.

(** Against validated objects the program runs as in a cluster of them. *)
Lemma asked_exec {A} o (p : prog podE A) :
  (forall X (e : podE X), valid_answer X e (answer_from o X e)) -> exec cluster p tt (asked o p) tt.
Proof.
  intros Hv. unfold asked. pose proof (run_exec (fun X (e : podE X) (_ : unit) => (answer_from o X e, tt)) p tt) as Hr.
  destruct (run _ p tt) as [a []]. eapply exec_mono; [|exact Hr]. intros X e [] x [] [= <-]. apply Hv.
Qed.

(** One LimitRange, resolved. *)
Definition resolve_range (limitRange : LimitRange) : result pod_error LimitRangeAdmissionSnapshot :=
  binding <-! objectBinding (LimitRangeMeta limitRange);
  defaults <-! range_defaults limitRange;
  guard negb ((maxResourceKeys <? map_len defaults.1) || (maxResourceKeys <? map_len defaults.2)) else TooManyDefaultKeys;
  Ok {| RangeObject := binding; DefaultRequests := defaults.1; DefaultLimits := defaults.2 |}.

Lemma resolve_ranges_each items : forall total ranges, total <= maxLimitRangeDefaultEntries ->
  resolve_ranges total items = Ok ranges <->
  Forall2 (fun item r => resolve_range item = Ok r) items ranges /\ total + total_size ranges <= maxLimitRangeDefaultEntries.
Proof.
  induction items as [|item items IH]; intros total ranges Ht; cbn [resolve_ranges].
  { split; [intros [= <-]; simpl; split; [constructor|lia]|]. by intros [->%Forall2_nil_inv_l _]. }
  split.
  - intros (b & Hb & HH)%rbind_ok. apply rbind_ok in HH as ([requests limits] & Hd & HH). destruct (negb (_ || _)) eqn:Ek; [|done].
    destruct (Z.leb_spec (total + (map_len requests + map_len limits)) maxLimitRangeDefaultEntries) as [Hle|]; [|done].
    apply rbind_ok in HH as (rest & Hrest & [= <-]). apply IH in Hrest as [Hf Hs]; [|done]. split.
    + constructor; [|done]. unfold resolve_range. rewrite Hb, Hd. cbn. by rewrite Ek.
    + simpl. unfold range_size at 1. simpl. lia.
  - intros [(r & rest & Hr & Hf & ->)%Forall2_cons_inv_l Hs]. unfold resolve_range in Hr.
    apply rbind_ok in Hr as (b & Hb & HH). apply rbind_ok in HH as ([requests limits] & Hd & HH). simpl in HH.
    destruct (negb (_ || _)) eqn:Ek; [|done]. injection HH as <-. rewrite Hb. cbn [rbind]. rewrite Hd. cbn [rbind]. rewrite Ek.
    simpl in Hs. unfold range_size at 1 in Hs. simpl in Hs. pose proof (total_size_nonneg rest).
    replace (total + (map_len requests + map_len limits) <=? maxLimitRangeDefaultEntries) with true by (symmetry; apply Z.leb_le; lia).
    rewrite (proj2 (IH (total + (map_len requests + map_len limits)) rest ltac:(lia))); [done|]. split; [done|lia].
Qed.

Lemma Forall2_perm {A B} (R : A -> B -> Prop) l l' : Permutation l l' -> forall k, Forall2 R l k ->
  exists k', Permutation k k' /\ Forall2 R l' k'.
Proof.
  induction 1 as [|x l l' _ IH|x y l|l l' l'' _ IH1 _ IH2]; intros k Hk.
  - by exists k.
  - apply Forall2_cons_inv_l in Hk as (z & k0 & Hz & Hk0 & ->). destruct (IH _ Hk0) as (k' & Hp & Hf).
    exists (z :: k'). split; by constructor.
  - apply Forall2_cons_inv_l in Hk as (z & k0 & Hz & Hk0 & ->). apply Forall2_cons_inv_l in Hk0 as (w & k1 & Hw & Hk1 & ->).
    exists (w :: z :: k1). split; [apply perm_swap|by repeat constructor].
  - destruct (IH1 _ Hk) as (k1 & Hp1 & Hf1). destruct (IH2 _ Hf1) as (k2 & Hp2 & Hf2). exists k2. split; [by etransitivity|done].
Qed.

Lemma resolve_ranges_perm items items' ranges :
  ranges_valid items -> Permutation items items' -> resolve_ranges 0 items = Ok ranges ->
  exists ranges', resolve_ranges 0 items' = Ok ranges' /\ sort_ranges ranges' = sort_ranges ranges.
Proof.
  intros Hv Hp Hr. destruct (resolve_ranges_ok items 0 ranges (proj1 Hv) Hr) as (_ & _ & Hn); [done|].
  apply resolve_ranges_each in Hr as [Hf Hs]; [|done]. destruct (Forall2_perm _ _ _ Hp _ Hf) as (ranges' & Hp' & Hf').
  exists ranges'. split; [apply resolve_ranges_each; [done|]; split; [done|]; by rewrite <- (total_size_perm _ _ Hp')|].
  symmetry. apply sort_by_perm_eq; [|done]. by eapply distinct_orders.
Qed.

Lemma asked_runtime o o' spec : same_objects o o' -> asked o (resolveRuntimeClass spec) = asked o' (resolveRuntimeClass spec).
Proof.
  intros (_ & Hr & _). unfold resolveRuntimeClass. destruct (RuntimeClassName spec) as [name|]; [|done].
  destruct (negb (empty name)); [|done]. rewrite !asked_andthen, !asked_reading. simpl. rewrite Hr.
  destruct (runtimes o' name) as [class|]; [|done]. cbn [rbind]. rewrite !asked_andthen. cbn.
  destruct (objectBinding (RuntimeMeta class)); [|done]. cbn [rbind]. repeat case_match; done.
Qed.

Lemma asked_priority o o' spec : same_objects o o' -> asked o (resolvePriorityClass spec) = asked o' (resolvePriorityClass spec).
Proof.
  intros (_ & _ & Hp & Hl & _). unfold resolvePriorityClass. rewrite !asked_andthen.
  assert (asked o (selected_priority spec) = asked o' (selected_priority spec)) as ->.
  { unfold selected_priority. case_match; rewrite !asked_andthen, !asked_reading; simpl; [rewrite Hp|rewrite Hl]; [done|].
    destruct (priority_list o') as [classes|]; [|done]. cbn [rbind]. by destruct (filter _ classes) as [|? [|]]. }
  destruct (asked o' (selected_priority spec)) as [[class|]|]; [|done..]. cbn [rbind]. rewrite !asked_andthen. cbn.
  by destruct (objectBinding (PriorityMeta class)).
Qed.

(** Resolving one template twice against the same objects records one
    snapshot, whatever the order their LimitRanges are listed in. The
    admission webhook compares the two digests. *)
Theorem resolve_again o o' namespace template options s :
  same_objects o o' -> asked o (Resolve namespace template options) = Ok s ->
  asked o' (Resolve namespace template options) = Ok s.
Proof.
  intros Hsame. pose proof (asked_runtime o o' (TemplateSpec template) Hsame) as Hrt.
  pose proof (asked_priority o o' (TemplateSpec template) Hsame) as Hpr. destruct Hsame as (Ha & _ & _ & _ & Hl).
  unfold Resolve. destruct (negb (empty namespace)); [|done]. case_bool_decide; [|done].
  rewrite ?asked_andthen, ?asked_lift. destruct (OptionsValidate options) as [[]|]; [|done]. cbn [rbind].
  rewrite ?asked_andthen, ?asked_reading. cbn [answer_from]. rewrite Ha. destruct (accounts o' _ _) as [account|]; [|done]. cbn [rbind].
  rewrite ?asked_andthen, ?asked_lift. destruct (objectBinding (AccountMeta account)) as [b|]; [|done]. cbn [rbind].
  destruct (_ <=? maxSchedulingItems); [|done]. rewrite ?asked_andthen, ?asked_reading. cbn [answer_from]. specialize (Hl namespace).
  destruct (ranges_in o namespace) as [items|], (ranges_in o' namespace) as [items'|]; try done. cbn [rbind].
  destruct Hl as [Hv Hp]. rewrite <- Hp. destruct (Z.of_nat (length items) <=? maxLimitRanges); [|done]. rewrite ?asked_andthen, ?asked_lift.
  destruct (resolve_ranges 0 items) as [ranges|] eqn:Hr; [|done]. destruct (resolve_ranges_perm _ _ _ Hv Hp Hr) as (ranges' & -> & Hsort).
  cbn [rbind]. rewrite Hsort, ?asked_andthen, ?asked_lift. destruct (validateUnambiguousLimitRangeDefaults _ _) as [[]|]; [|done].
  cbn [rbind]. rewrite ?asked_andthen, Hrt. destruct (asked o' (resolveRuntimeClass _)) as [rt|]; [|done]. cbn [rbind].
  by rewrite ?asked_andthen, Hpr.
Qed.
End Resolve.
