(* ===== verification/JobClaim.v ===== *)
(** * Job claims (package [internal/jobclaim])

    A claim reserves one Job name and records what that Job has to be.
    [Match] decides whether a Job is the one a claim built: its identity,
    owner and epoch, then either the Job the claim rebuilds or the labels and
    annotations it fixes, and last the digest of its Pod template, without
    what the API server generates. [jobconfig.Read], which reads the result
    credential projection of a Job, is a parameter. *)
From Stdlib Require Import ZArith Lia Ascii.
From stdpp Require Import base list gmap strings.
From S2P Require Import Prelude GoStrings Sha256 Json Fingerprint KubeMeta KubePod JobConfig PodIntent.
From S2P Require PlanStore.
Local Open Scope go_scope.
Local Open Scope Z_scope.

(** ** Labels and annotations (internal/workload) *)

Definition LabelManagedBy : string := "app.kubernetes.io/managed-by".
Definition LabelComponent : string := "app.kubernetes.io/component".
Definition LabelSchema : string := "operator.ptah.run/schema".
Definition LabelMigration : string := "operator.ptah.run/migration".
Definition LabelOperation : string := "operator.ptah.run/operation".
Definition LabelOperationID : string := "operator.ptah.run/operation-id".
Definition ComponentSchemaOperation : string := "schema-operation".
Definition ComponentMigrationOperation : string := "migration-operation".
Definition AnnotationOperationID : string := "operator.ptah.run/operation-id".
Definition AnnotationInputFingerprint : string := "operator.ptah.run/input-fingerprint".
Definition AnnotationPtahVersion : string := "operator.ptah.run/ptah-version".
Definition AnnotationExecutionBindingID : string := "operator.ptah.run/execution-binding-id".
Definition AnnotationControllerImage : string := "operator.ptah.run/controller-image".
Definition AnnotationControllerRevision : string := "operator.ptah.run/controller-revision".
Definition AnnotationControllerStateVersion : string := "operator.ptah.run/controller-state-version".
Definition AnnotationPlanFingerprint : string := "operator.ptah.run/plan-fingerprint".
Definition AnnotationPlanContentDigest : string := "operator.ptah.run/plan-content-digest".
Definition AnnotationSafeToEvict : string := "cluster-autoscaler.kubernetes.io/safe-to-evict".

Definition shortLabelHash (value : string) : string := hex_encode (take 8 (sha256 (bytes value))).
Definition OperationIDLabelValue (value : string) : string := shortLabelHash value.
Definition MarkMutatingOperation (annotations : gmap string string) : gmap string string :=
  <[AnnotationSafeToEvict := "false"]> annotations.

Definition MaxPodMetadataEntries : Z := 16.
Definition ReservedPodMetadataKey (key : string) : bool :=
  bool_decide (key = "controller-uid") || bool_decide (key = "job-name") ||
  existsb (fun reserved => has_prefix reserved key || contains ("." +:+ reserved) key) ["ptah.run/"; "kubernetes.io/"; "k8s.io/"].

Inductive claim_error : Type :=
| NoOwner | NoOperation | NoEpoch | BadSnapshot (e : pod_error)
| NoIdentity | OtherName | OtherUID | NotOneOwner | OtherOwner
| StaleEpoch | OtherEpoch
| SelectorNotGenerated | SelectorNotOwn | GeneratedLabelNotOwn
| ClaimedValueDiffers | ReservedKey | TooManyDeclared
| BadImage | BadRevisionRecord | BadStateVersion | BadPtahVersion
| OtherVersions | BadFingerprint | OtherPlan
| TemplateAnnotationsDiffer | TemplateLabelsDiffer
| OtherLabels | OtherMetadata | BadProjection | OtherSpec | OtherTemplate.

(** [m[key]] of a map of strings. *)

Definition ValidateClaimedMetadata (actual claimed : gmap string string) : result claim_error unit :=
  guard forallb (fun '(key, value) => bool_decide (get actual key = value)) (map_to_list claimed) else ClaimedValueDiffers;
  let declared := filter (fun '(key, _) => claimed !! key = None) (map_to_list actual) in
  guard forallb (fun '(key, _) => negb (ReservedPodMetadataKey key)) declared else ReservedKey;
  guard (Z.of_nat (length declared) <=? MaxPodMetadataEntries) else TooManyDeclared;
  Ok tt.

(** ** Claims *)

Definition CleanupTTLSeconds : Z := 300.
Definition FailedApplyRetentionTTLSeconds : Z := 86400.

Record Owner : Type := { ClaimOwnerKind : string; ClaimOwnerNamespace : string; ClaimOwnerName : string; ClaimOwnerUID : string }.

(** [ExecutionBindingStatus] and [CurrentPlanStatus], the fields read here. *)
Record ExecutionBinding : Type := { BindingEpoch : string; BindingPtahVersion : string; BindingStateVersion : Z }.
Record CurrentPlan : Type := {
  PlanName : string;
  PlanUID : string;
  PlanFingerprint : string;
  PlanContentDigest : string;
  PlanBindingID : string;
  PlanPtahVersion : string;
  PlanStateVersion : Z;
}.

Record Claim : Type := {
  ClaimOwner : Owner;
  ClaimOperation : string;
  Mutating : bool;
  ClaimID : string;
  InputFingerprint : string;
  Epoch : string;
  Binding : option ExecutionBinding;
  Plan : option CurrentPlan;
  ClaimJobName : string;
  ClaimJobUID : string;
  Snapshot : option PodAdmissionSnapshot;
  Built : option Job;
  Stored : bool;
}.

(** [families]: the component label and the label that names the owner. *)
Definition families (kind : string) : option (string * string) :=
  if bool_decide (kind = "PtahSchema") then Some (ComponentSchemaOperation, LabelSchema)
  else if bool_decide (kind = "PtahMigration") then Some (ComponentMigrationOperation, LabelMigration)
  else None.

(** ** What the API server writes on a Job *)

Definition generated (job : Job) : list (string * string) :=
  let uid := MetaUID (JobMeta job) in
  let name := MetaName (JobMeta job) in
  [(ControllerUidLabel, uid); (JobNameLabel, name); ("controller-uid", uid); ("job-name", name)].

Definition with_job_spec (spec : JobSpec) (job : Job) : Job := {| JobMeta := JobMeta job; JobSpecOf := spec |}.
Definition with_template (selector : option LabelSelector) (ttl : option Z) (template : PodTemplateSpec) (s : JobSpec) : JobSpec :=
  {| Parallelism := Parallelism s; Completions := Completions s; BackoffLimit := BackoffLimit s;
     ActiveDeadlineSeconds := ActiveDeadlineSeconds s; PodReplacementPolicy := PodReplacementPolicy s;
     CompletionMode := CompletionMode s; Suspend := Suspend s; ManualSelector := ManualSelector s;
     PodFailurePolicy := PodFailurePolicy s; SuccessPolicy := SuccessPolicy s; BackoffLimitPerIndex := BackoffLimitPerIndex s;
     MaxFailedIndexes := MaxFailedIndexes s; ManagedBy := ManagedBy s; TTLSecondsAfterFinished := ttl;
     Selector := selector; Template := template |}.
Definition with_template_labels (labels : gmap string string) (t : PodTemplateSpec) : PodTemplateSpec :=
  {| TemplateMeta := with_maps labels (Annotations (TemplateMeta t)) (TemplateMeta t); TemplateSpec := TemplateSpec t |}.

(** [strings.Contains(key, "controller-uid")]. *)
Definition selector_own (job : Job) (key value : string) : bool :=
  existsb (fun '(k, expected) => bool_decide (key = k) && bool_decide (value = expected)) (generated job) &&
  contains "controller-uid" key.

Definition normalizeGeneratedIdentity (job : Job) : result claim_error Job :=
  let spec := JobSpecOf job in
  let uid := MetaUID (JobMeta job) in
  _ <-! match Selector spec with
        | None => Ok tt
        | Some selector =>
            guard negb (empty uid || negb (length (MatchExpressions selector) =? 0)%nat || bool_decide (MatchLabels selector = ∅))
              else SelectorNotGenerated;
            guard forallb (fun '(key, value) => selector_own job key value) (map_to_list (MatchLabels selector)) else SelectorNotOwn;
            Ok tt
        end;
  let labels := Labels (TemplateMeta (Template spec)) in
  guard forallb (fun '(key, expected) =>
          match labels !! key with
          | Some value => negb (empty uid || negb (bool_decide (value = expected)))
          | None => true
          end) (generated job) else GeneratedLabelNotOwn;
  Ok (with_job_spec (with_template None (TTLSecondsAfterFinished spec)
        (with_template_labels (without_keys generated_keys labels) (Template spec)) spec) job).

Definition normalizeServiceAccountAlias (spec : PodSpec) : PodSpec :=
  let name := if empty (ServiceAccountName spec) then DeprecatedServiceAccount spec else ServiceAccountName spec in
  if bool_decide (DeprecatedServiceAccount spec = name)
  then with_accounts (ServiceAccountName spec) EmptyString (ImagePullSecrets spec) spec else spec.
Definition with_template_spec (spec : PodSpec) (job : Job) : Job :=
  let s := JobSpecOf job in
  with_job_spec (with_template (Selector s) (TTLSecondsAfterFinished s)
    {| TemplateMeta := TemplateMeta (Template s); TemplateSpec := spec |} s) job.

Definition scrubAssignedMetadata (m : ObjectMeta) : ObjectMeta :=
  {| MetaName := MetaName m; GenerateName := GenerateName m; MetaNamespace := MetaNamespace m; SelfLink := SelfLink m;
     MetaUID := EmptyString; ResourceVersion := EmptyString; MetaGeneration := 0;
     CreationTimestamp := None; DeletionTimestamp := DeletionTimestamp m;
     DeletionGracePeriodSeconds := DeletionGracePeriodSeconds m; Labels := Labels m; Annotations := Annotations m;
     OwnerReferences := OwnerReferences m; Finalizers := Finalizers m; ManagedFields := [] |}.

(** ** The trust bundle of the result receiver *)

Definition with_env (env : list EnvVar) (c : Container) : Container :=
  {| ContainerName := ContainerName c; Args := Args c; Env := env; EnvFrom := EnvFrom c; VolumeMounts := VolumeMounts c;
     Requests := Requests c; Limits := Limits c; ImagePullPolicy := ImagePullPolicy c; ContainerImage := ContainerImage c; ContainerRest := ContainerRest c |}.
(** The trust bundle of the actual Job replaces that of the expected one, in
    the first container of each. *)
Definition replace_trust (actual expected : list EnvVar) : list EnvVar :=
  foldl (fun want env =>
           if bool_decide (EnvName env = ServerTrust)
           then (fun e => if bool_decide (EnvName e = ServerTrust) then env else e) <$> want else want) expected actual.
Definition keep_trust (actual expected : PodSpec) : PodSpec :=
  match Containers actual, Containers expected with
  | a :: _, e :: rest => with_containers (with_env (replace_trust (Env a) (Env e)) e :: rest) (InitContainers expected) expected
  | _, _ => expected
  end.

Section Match.
Context `{Apimachinery} `{DeliveryLibraries}.

(** [Semantic.DeepEqualWithNilDifferentFromEmpty] on two Job specs. *)
Definition semantic_job_spec (a b : JobSpec) : bool :=
  bool_decide (Parallelism a = Parallelism b) && bool_decide (Completions a = Completions b) &&
  bool_decide (BackoffLimit a = BackoffLimit b) && bool_decide (ActiveDeadlineSeconds a = ActiveDeadlineSeconds b) &&
  bool_decide (PodReplacementPolicy a = PodReplacementPolicy b) && bool_decide (CompletionMode a = CompletionMode b) &&
  bool_decide (Suspend a = Suspend b) && bool_decide (ManualSelector a = ManualSelector b) &&
  bool_decide (PodFailurePolicy a = PodFailurePolicy b) && bool_decide (SuccessPolicy a = SuccessPolicy b) &&
  bool_decide (BackoffLimitPerIndex a = BackoffLimitPerIndex b) && bool_decide (MaxFailedIndexes a = MaxFailedIndexes b) &&
  bool_decide (ManagedBy a = ManagedBy b) && bool_decide (TTLSecondsAfterFinished a = TTLSecondsAfterFinished b) &&
  bool_decide (Selector a = Selector b) && bool_decide (TemplateMeta (Template a) = TemplateMeta (Template b)) &&
  semantic_pod_spec (TemplateSpec (Template a)) (TemplateSpec (Template b)).

Definition validate (c : Claim) : result claim_error (string * string) :=
  let o := ClaimOwner c in
  match families (ClaimOwnerKind o) with
  | None => Err NoOwner
  | Some shape =>
      guard negb (empty (ClaimOwnerNamespace o) || empty (ClaimOwnerName o) || empty (ClaimOwnerUID o)) else NoOwner;
      guard negb (empty (ClaimOperation c) || empty (ClaimID c) || empty (ClaimJobName c)) else NoOperation;
      guard is_epoch_id (Epoch c) else NoEpoch;
      match ValidateSnapshot (Snapshot c) with
      | Ok _ => Ok shape
      | Err e => Err (BadSnapshot e)
      end
  end.

Definition controls (o : Owner) (references : list OwnerReference) : result claim_error unit :=
  match references with
  | [r] =>
      guard bool_decide (OwnerAPIVersion r = operator_group) && bool_decide (OwnerKind r = ClaimOwnerKind o) &&
            bool_decide (OwnerName r = ClaimOwnerName o) && bool_decide (OwnerUID r = ClaimOwnerUID o) &&
            bool_decide (Controller r = Some true) && bool_decide (BlockOwnerDeletion r = Some true) else OtherOwner;
      Ok tt
  | _ => Err NotOneOwner
  end.

Definition matchBuilt (job normalized built : Job) (claim : Claim) : result claim_error unit :=
  guard bool_decide (Labels (JobMeta job) = Labels (JobMeta built)) &&
        bool_decide (Annotations (JobMeta job) = Annotations (JobMeta built)) else OtherLabels;
  guard Stored claim || bool_decide (scrubAssignedMetadata (JobMeta job) = scrubAssignedMetadata (JobMeta built)) else OtherMetadata;
  expected <-! normalizeGeneratedIdentity built;
  let actual := with_template_spec (normalizeServiceAccountAlias (job_pod_spec normalized)) normalized in
  let expected := with_template_spec (normalizeServiceAccountAlias (job_pod_spec expected)) expected in
  let token := UsesPodToken actual && UsesPodToken expected in
  guard negb token || bool_decide (is_Some (Read actual (ClaimOwnerUID (ClaimOwner claim)) (ClaimID claim))) else BadProjection;
  let expected := if token then with_template_spec (keep_trust (job_pod_spec actual) (job_pod_spec expected)) expected else expected in
  let spec := JobSpecOf actual in
  let ttl := TTLSecondsAfterFinished spec in
  let scheduled := Stored claim &&
    (bool_decide (ttl = Some CleanupTTLSeconds) || (Mutating claim && bool_decide (ttl = Some FailedApplyRetentionTTLSeconds))) in
  let spec := if scheduled
              then with_template (Selector spec) (TTLSecondsAfterFinished (JobSpecOf expected)) (Template spec) spec else spec in
  guard semantic_job_spec spec (JobSpecOf expected) else OtherSpec;
  Ok tt.

Definition validateManagerRecord (annotations : gmap string string) : result claim_error unit :=
  guard is_pinned_image (get annotations AnnotationControllerImage) else BadImage;
  guard PlanStore.ValidateRevision (get annotations AnnotationControllerRevision) else BadRevisionRecord;
  let stateVersion := get annotations AnnotationControllerStateVersion in
  guard match parse_int stateVersion with
        | Some parsed => in_int32 parsed && (1 <=? parsed) && bool_decide (format_int parsed = stateVersion)
        | None => false
        end else BadStateVersion;
  let ptahVersion := get annotations AnnotationPtahVersion in
  guard negb (empty ptahVersion || negb (bool_decide (trim_space ptahVersion = ptahVersion)) || (128 <? len ptahVersion))
    else BadPtahVersion;
  Ok tt.

Definition plan_bound (plan : CurrentPlan) (epoch ptahVersion stateVersion : string) : bool :=
  negb (empty (PlanName plan)) && negb (empty (PlanUID plan)) && is_sha256_digest (PlanFingerprint plan) &&
  is_sha256_digest (PlanContentDigest plan) && bool_decide (PlanBindingID plan = epoch) &&
  bool_decide (PlanPtahVersion plan = ptahVersion) && bool_decide (format_int (PlanStateVersion plan) = stateVersion).

Definition envelope_labels (claim : Claim) (shape : string * string) : gmap string string :=
  <[LabelOperationID := OperationIDLabelValue (ClaimID claim)]>
  (<[LabelOperation := to_lower (ClaimOperation claim)]>
  (<[shape.2 := ClaimOwnerName (ClaimOwner claim)]>
  (<[LabelComponent := shape.1]> {[LabelManagedBy := "ptah-operator"]}))).

(** The annotations the claim fixes, given what is read from the Job. *)
Definition envelope_annotations (claim : Claim) (record : gmap string string) (inputFingerprint : string) : gmap string string :=
  let base : gmap string string :=
    list_to_map [(AnnotationOperationID, ClaimID claim); (AnnotationInputFingerprint, inputFingerprint);
      (AnnotationExecutionBindingID, Epoch claim);
      (AnnotationAdmissionSnapshotDigest, match Snapshot claim with Some s => SnapshotDigest s | None => EmptyString end);
      (AnnotationPtahVersion, get record AnnotationPtahVersion);
      (AnnotationControllerStateVersion, get record AnnotationControllerStateVersion);
      (AnnotationControllerImage, get record AnnotationControllerImage);
      (AnnotationControllerRevision, get record AnnotationControllerRevision)] in
  let planned := match Plan claim with
                 | Some plan => <[AnnotationPlanContentDigest := PlanContentDigest plan]> (<[AnnotationPlanFingerprint := PlanFingerprint plan]> base)
                 | None => base
                 end in
  if Mutating claim then MarkMutatingOperation planned else planned.

Definition matchEnvelope (job normalized : Job) (claim : Claim) (shape : string * string) : result claim_error unit :=
  let record := Annotations (JobMeta job) in
  _ <-! ValidateClaimedMetadata (Labels (JobMeta job)) (envelope_labels claim shape);
  _ <-! validateManagerRecord record;
  let ptahVersion := get record AnnotationPtahVersion in
  let stateVersion := get record AnnotationControllerStateVersion in
  guard match Binding claim with
        | Some b => bool_decide (ptahVersion = BindingPtahVersion b) && bool_decide (stateVersion = format_int (BindingStateVersion b))
        | None => true
        end else OtherVersions;
  guard negb (empty (InputFingerprint claim)) || is_sha256_digest (get record AnnotationInputFingerprint) else BadFingerprint;
  let inputFingerprint := if empty (InputFingerprint claim) then get record AnnotationInputFingerprint else InputFingerprint claim in
  guard match Plan claim with Some plan => plan_bound plan (Epoch claim) ptahVersion stateVersion | None => true end else OtherPlan;
  _ <-! ValidateClaimedMetadata record (envelope_annotations claim record inputFingerprint);
  guard bool_decide (Annotations (TemplateMeta (Template (JobSpecOf job))) = record) else TemplateAnnotationsDiffer;
  guard bool_decide (Labels (TemplateMeta (Template (JobSpecOf normalized))) = Labels (JobMeta job)) else TemplateLabelsDiffer;
  Ok tt.

Definition Match (job : option Job) (claim : Claim) : result claim_error unit :=
  shape <-! validate claim;
  match job with
  | None => Err NoIdentity
  | Some job =>
      let meta := JobMeta job in
      guard negb (empty (MetaUID meta)) else NoIdentity;
      guard bool_decide (MetaNamespace meta = ClaimOwnerNamespace (ClaimOwner claim)) && bool_decide (MetaName meta = ClaimJobName claim)
        else OtherName;
      guard empty (ClaimJobUID claim) || bool_decide (MetaUID meta = ClaimJobUID claim) else OtherUID;
      _ <-! controls (ClaimOwner claim) (OwnerReferences meta);
      guard match Binding claim with Some b => bool_decide (Epoch claim = BindingEpoch b) | None => true end else StaleEpoch;
      guard bool_decide (get (Annotations meta) AnnotationExecutionBindingID = Epoch claim) else OtherEpoch;
      normalized <-! normalizeGeneratedIdentity job;
      _ <-! match Built claim with
            | Some built => matchBuilt job normalized built claim
            | None => matchEnvelope job normalized claim shape
            end;
      guard bool_decide (Some (DigestTemplate (Template (JobSpecOf normalized))) = (TemplateDigest <$> Snapshot claim)) else OtherTemplate;
      Ok tt
  end.
End Match.
