(* ===== verification/JobClaimProofs.v ===== *)
(** * Which Jobs a claim recognizes (package [internal/jobclaim])

    Completeness and soundness of [Match]: the Job the controller built, as
    the API server stores it, is the claim's; and a Job that matches is the
    owner's, under the claim's name, epoch and UID, carries only the generated
    identity the API server gives it, and runs the Pod template the claim's
    snapshot pinned. *)
From Stdlib Require Import ZArith Lia Ascii.
From stdpp Require Import base list gmap strings.
From S2P Require Import Prelude GoStrings Sha256 Json Fingerprint KubeMeta KubePod JobConfig JobConfigProofs PodIntent PodIntentProofs JobClaim.
Local Open Scope go_scope.
Local Open Scope Z_scope.
#[local] Opaque DigestCanonicalJSON.
#[local] Arguments without_keys : simpl never.

Section Recognition.
Context `{Apimachinery} `{!ApimachineryLaws} `{DeliveryLibraries}.

(** ** Semantic equality is reflexive *)

Lemma semantic_list_refl {A} (f : A -> A -> bool) l : (forall x, f x x = true) -> semantic_list f l l = true.
Proof. intros Hf. induction l as [|x l IH]; [done|]. simpl. by rewrite Hf. Qed.
Lemma semantic_container_refl c : semantic_container c c = true.
Proof. unfold semantic_container. rewrite !bool_decide_eq_true_2, !semantic_resources_refl by done. apply rest_equal_refl. Qed.
Lemma semantic_volume_refl v : semantic_volume v v = true.
Proof. unfold semantic_volume. rewrite !bool_decide_eq_true_2 by done. apply rest_equal_refl. Qed.
Lemma semantic_pod_spec_refl s : semantic_pod_spec s s = true.
Proof.
  unfold semantic_pod_spec, semantic_overhead.
  rewrite !(semantic_list_refl semantic_container) by apply semantic_container_refl.
  rewrite (semantic_list_refl semantic_volume) by apply semantic_volume_refl.
  rewrite !bool_decide_eq_true_2, semantic_resources_refl, rest_equal_refl by done.
  destruct (PodLevelResources s); simpl; by rewrite ?rest_equal_refl.
Qed.
Lemma semantic_job_spec_refl s : semantic_job_spec s s = true.
Proof. unfold semantic_job_spec. rewrite !bool_decide_eq_true_2 by done. apply semantic_pod_spec_refl. Qed.

(** ** Generated labels *)

Lemma without_keys_lookup keys m k : without_keys keys m !! k = if decide (k ∈ keys) then None else m !! k.
Proof.
  unfold without_keys. induction keys as [|k' keys IH]; simpl.
  { destruct (decide (k ∈ [])) as [Hi|]; [by apply not_elem_of_nil in Hi|done]. }
  destruct (decide (k = k')) as [->|Hne].
  - rewrite lookup_delete_eq. destruct (decide (k' ∈ k' :: keys)) as [|Hn]; [done|]. exfalso. apply Hn, list_elem_of_here.
  - rewrite lookup_delete_ne, IH by done. destruct (decide (k ∈ keys)), (decide (k ∈ k' :: keys)) as [Hi|Hi]; try done.
    + exfalso. apply Hi. by right.
    + apply elem_of_cons in Hi as [|]; done.
Qed.

Lemma without_keys_idem keys m : without_keys keys (without_keys keys m) = without_keys keys m.
Proof. apply map_eq. intros k. rewrite !without_keys_lookup. by destruct (decide (k ∈ keys)). Qed.

(** Normalizing a Job leaves the digest of its template as it was. *)
Lemma digest_normalized job n :
  normalizeGeneratedIdentity job = Ok n -> DigestTemplate (Template (JobSpecOf n)) = DigestTemplate (Template (JobSpecOf job)).
Proof.
  unfold normalizeGeneratedIdentity. intros ([] & _ & HH)%rbind_ok. destruct (forallb _ _) in HH; [|done]. injection HH as <-.
  unfold DigestTemplate, canonical_template. simpl. rewrite without_keys_idem. done.
Qed.

(** The one reference a claim's Job has. *)
Definition owner_reference (o : Owner) : OwnerReference :=
  {| OwnerAPIVersion := operator_group; OwnerKind := ClaimOwnerKind o; OwnerName := ClaimOwnerName o; OwnerUID := ClaimOwnerUID o;
     Controller := Some true; BlockOwnerDeletion := Some true |}.

Lemma controls_iff o references : controls o references = Ok tt <-> references = [owner_reference o].
Proof.
  unfold controls, owner_reference. destruct references as [|r [|r' l]]; [naive_solver| |naive_solver].
  destruct (_ && _) eqn:E.
  - rewrite !andb_true_iff, !bool_decide_eq_true in E. destruct r. simpl in *. naive_solver.
  - split; [done|]. intros [= ->]. simpl in E. by rewrite !bool_decide_eq_true_2 in E.
Qed.

(** What the API server generates on the Job is the Job's own: its selector
    names its UID, and so do the labels that repeat it, and its name. *)
Definition own_identity (job : Job) : Prop :=
  (forall selector key value, Selector (JobSpecOf job) = Some selector -> MatchLabels selector !! key = Some value ->
     value = MetaUID (JobMeta job) /\ key ∈ [ControllerUidLabel; "controller-uid"]) /\
  (forall key expected value, (key, expected) ∈ generated job ->
     Labels (TemplateMeta (Template (JobSpecOf job))) !! key = Some value -> value = expected).

Lemma normalized_own job n : normalizeGeneratedIdentity job = Ok n -> own_identity job.
Proof.
  unfold normalizeGeneratedIdentity. intros ([] & Hs & HH)%rbind_ok. destruct (forallb _ _) eqn:El in HH; [|done]. clear HH. split.
  - intros selector key value Hsel Hk. rewrite Hsel in Hs. destruct (negb _) in Hs; [|done].
    destruct (forallb _ _) eqn:Ef in Hs; [|done]. rewrite (forallb_map (fun k v => selector_own job k v)) in Ef.
    specialize (Ef key value Hk). unfold selector_own in Ef. apply andb_true_iff in Ef as [Ef Hc].
    apply existsb_exists in Ef as ([k e] & Hin & [<-%bool_decide_eq_true ->%bool_decide_eq_true]%andb_true_iff).
    unfold generated in Hin. simpl in Hin. rewrite !elem_of_cons.
    destruct Hin as [[= <- <-]|[[= <- <-]|[[= <- <-]|[[= <- <-]|[]]]]]; [by auto|by vm_compute in Hc|by auto|by vm_compute in Hc].
  - intros key expected value Hin%list_elem_of_In Hv. rewrite forallb_forall in El. specialize (El _ Hin). simpl in El.
    rewrite Hv in El. apply negb_true_iff, orb_false_iff in El as [_ El]. by apply negb_false_iff, bool_decide_eq_true in El.
Qed.

Lemma validate_snapshot claim shape : validate claim = Ok shape -> exists s, Snapshot claim = Some s /\ ValidateSnapshot (Some s) = Ok tt.
Proof.
  unfold validate. destruct (families _); [|done]. repeat (case_match; [|done]). destruct (Snapshot claim) as [s|]; [|done].
  destruct (ValidateSnapshot (Some s)) as [[]|] eqn:E; [|done]. by exists s.
Qed.

(** What a match established, in the order the checks run. *)
Lemma match_inv job claim :
  Match (Some job) claim = Ok tt ->
  exists s, Snapshot claim = Some s /\ ValidateSnapshot (Some s) = Ok tt /\
    MetaUID (JobMeta job) <> EmptyString /\
    MetaNamespace (JobMeta job) = ClaimOwnerNamespace (ClaimOwner claim) /\ MetaName (JobMeta job) = ClaimJobName claim /\
    (ClaimJobUID claim = EmptyString \/ MetaUID (JobMeta job) = ClaimJobUID claim) /\
    OwnerReferences (JobMeta job) = [owner_reference (ClaimOwner claim)] /\
    (forall b, Binding claim = Some b -> Epoch claim = BindingEpoch b) /\
    get (Annotations (JobMeta job)) AnnotationExecutionBindingID = Epoch claim /\
    own_identity job /\ DigestTemplate (Template (JobSpecOf job)) = TemplateDigest s.
Proof.
  unfold Match. intros (shape & Hv & HH)%rbind_ok. destruct (validate_snapshot _ _ Hv) as (s & Hs & Hvs). exists s.
  unfold empty in *. case_bool_decide as Huid; [done|]. cbn [negb] in HH.
  destruct (_ && _) eqn:En in HH; [|done]. rewrite andb_true_iff, !bool_decide_eq_true in En.
  destruct (_ || _) eqn:Eu in HH; [|done]. rewrite orb_true_iff, !bool_decide_eq_true in Eu.
  apply rbind_ok in HH as ([] & Hc%controls_iff & HH).
  destruct (match Binding claim with Some _ => _ | None => _ end) eqn:Eb in HH; [|done].
  case_bool_decide as He; [|done]. apply rbind_ok in HH as (n & Hn & HH). apply rbind_ok in HH as ([] & _ & HH).
  case_bool_decide as Hd; [|done]. rewrite (digest_normalized _ _ Hn), Hs in Hd. injection Hd as Hd.
  split_and!; try done; try apply En.
  - intros b Hb. rewrite Hb in Eb. by apply bool_decide_eq_true in Eb.
  - by eapply normalized_own.
Qed.

(** Where the claim rebuilt no Job, the Job's own record names the inputs the
    claim names. *)
Lemma claimed_value actual claimed key value :
  ValidateClaimedMetadata actual claimed = Ok tt -> claimed !! key = Some value -> get actual key = value.
Proof.
  unfold ValidateClaimedMetadata. destruct (forallb _ _) eqn:Ef; [|done]. intros _ Hk%elem_of_map_to_list%list_elem_of_In.
  rewrite forallb_forall in Ef. by specialize (Ef _ Hk) as ->%bool_decide_eq_true.
Qed.
Lemma envelope_fingerprint claim record f : envelope_annotations claim record f !! AnnotationInputFingerprint = Some f.
Proof. unfold envelope_annotations, MarkMutatingOperation. destruct (Mutating claim), (Plan claim); by simplify_map_eq. Qed.
Lemma match_inputs job claim :
  Match (Some job) claim = Ok tt -> Built claim = None -> InputFingerprint claim <> EmptyString ->
  get (Annotations (JobMeta job)) AnnotationInputFingerprint = InputFingerprint claim.
Proof.
  unfold Match. intros (shape & _ & HH)%rbind_ok Hb Hf. rewrite Hb in HH.
  do 3 (destruct (negb _) in HH || destruct (_ && _) in HH || destruct (_ || _) in HH; [|done]).
  apply rbind_ok in HH as ([] & _ & HH). destruct (match Binding claim with Some _ => _ | None => _ end) in HH; [|done].
  case_bool_decide; [|done]. apply rbind_ok in HH as (n & _ & HH). apply rbind_ok in HH as ([] & He & _).
  unfold matchEnvelope, empty in He. rewrite (bool_decide_false (InputFingerprint claim = EmptyString)) in He by done.
  apply rbind_ok in He as ([] & _ & He). apply rbind_ok in He as ([] & _ & He). destruct (match Binding claim with Some _ => _ | None => _ end) in He; [|done].
  cbn [negb orb] in He. destruct (match Plan claim with Some _ => _ | None => _ end) in He; [|done].
  apply rbind_ok in He as ([] & Hv & _). by eapply claimed_value, envelope_fingerprint.
Qed.

(** C8: a Job that matches a claim has the claim's name and namespace, its
    owner alone, its epoch, which is the one in force, and the UID it
    recorded; what the API server generates on it is its own; and its Pod
    template is the one the claim's snapshot recorded. So two Jobs that match
    claims with one snapshot run one template, or their two documents collide
    under SHA-256. *)
Theorem matched_job_pinned job claim job' claim' :
  Match (Some job) claim = Ok tt -> Match (Some job') claim' = Ok tt ->
  Snapshot claim' = Snapshot claim ->
  let document j := template_json (canonical_template (Template (JobSpecOf j))) in
  (MetaNamespace (JobMeta job) = ClaimOwnerNamespace (ClaimOwner claim) /\ MetaName (JobMeta job) = ClaimJobName claim /\
   (ClaimJobUID claim <> EmptyString -> MetaUID (JobMeta job) = ClaimJobUID claim) /\
   OwnerReferences (JobMeta job) = [owner_reference (ClaimOwner claim)] /\
   get (Annotations (JobMeta job)) AnnotationExecutionBindingID = Epoch claim /\
   (forall b, Binding claim = Some b -> Epoch claim = BindingEpoch b) /\ own_identity job) /\
  (exists s, Snapshot claim = Some s /\ ValidateSnapshot (Some s) = Ok tt /\ DigestTemplate (Template (JobSpecOf job)) = TemplateDigest s) /\
  (json_utf8 (document job) = true -> json_utf8 (document job') = true ->
   document job = document job' \/ collision (marshal (document job)) (marshal (document job'))).
Proof.
  intros (s & Hs & Hv & _ & Hns & Hn & Hu & Ho & Hb & He & Hown & Hd)%match_inv.
  intros (s' & Hs' & _ & _ & _ & _ & _ & _ & _ & _ & _ & Hd')%match_inv Heq. simpl. split_and!; try done; [by destruct Hu|by exists s|].
  rewrite Heq, Hs in Hs'. injection Hs' as <-. intros Hu1 Hu2. apply digest_json_inj; [done|done|].
  unfold DigestTemplate in *. by rewrite Hd, Hd'.
Qed.

(** ** The Job the API server stores *)

(** A stored Job: the built one with an identity assigned, the selector and
    labels that repeat it, a service account alias where the server writes
    one, and a cleanup TTL where one was scheduled since. *)
Definition stored_spec (built : JobSpec) (job : Job) (ttl : option Z) (alias : string) : JobSpec :=
  let t := Template built in
  with_template (Some {| MatchLabels := {[ControllerUidLabel := MetaUID (JobMeta job)]}; MatchExpressions := [] |}) ttl
    {| TemplateMeta := with_maps (list_to_map (generated job) ∪ Labels (TemplateMeta t)) (Annotations (TemplateMeta t)) (TemplateMeta t);
       TemplateSpec := with_accounts (ServiceAccountName (TemplateSpec t)) alias (ImagePullSecrets (TemplateSpec t)) (TemplateSpec t) |} built.
Definition stored_as (mutating : bool) (built job : Job) : Prop :=
  MetaUID (JobMeta job) <> EmptyString /\ scrubAssignedMetadata (JobMeta job) = scrubAssignedMetadata (JobMeta built) /\
  exists ttl alias,
    JobSpecOf job = stored_spec (JobSpecOf built) job ttl alias /\
    (ttl = TTLSecondsAfterFinished (JobSpecOf built) \/ ttl = Some CleanupTTLSeconds \/
     mutating = true /\ ttl = Some FailedApplyRetentionTTLSeconds) /\
    let spec := job_pod_spec built in
    (alias = DeprecatedServiceAccount spec \/
     alias = ServiceAccountName spec /\ ServiceAccountName spec <> EmptyString /\ DeprecatedServiceAccount spec = EmptyString).

(** A Job as the builder leaves it: nothing generated on it yet. *)
Definition as_built (built : Job) : Prop :=
  Selector (JobSpecOf built) = None /\
  (forall key, key ∈ generated_keys -> Labels (TemplateMeta (Template (JobSpecOf built))) !! key = None) /\
  Forall (fun c => NoDup (EnvName <$> Env c)) (Containers (job_pod_spec built)).

Lemma without_keys_none keys m : (forall k, k ∈ keys -> m !! k = None) -> without_keys keys m = m.
Proof. intros Hk. apply map_eq. intros k. rewrite without_keys_lookup. destruct (decide (k ∈ keys)); [by rewrite Hk|done]. Qed.

Lemma generated_dom job key value : (key, value) ∈ generated job -> key ∈ generated_keys.
Proof.
  unfold generated, generated_keys. simpl. rewrite !elem_of_cons.
  intros [[= -> _]|[[= -> _]|[[= -> _]|[[= -> _]|[]%not_elem_of_nil]]]]; tauto.
Qed.

Lemma generated_lookup job key value : (key, value) ∈ generated job -> (list_to_map (generated job) : gmap string string) !! key = Some value.
Proof. intros Hin. apply elem_of_list_to_map_1; [|done]. apply (bool_decide_unpack (NoDup generated_keys)). by vm_compute. Qed.

Lemma generated_uid job : In (ControllerUidLabel, MetaUID (JobMeta job)) (generated job).
Proof. by left. Qed.
#[local] Opaque generated.

Lemma without_generated job (m : gmap string string) :
  without_keys generated_keys (list_to_map (generated job) ∪ m) = without_keys generated_keys m.
Proof.
  apply map_eq. intros k. rewrite !without_keys_lookup. destruct (decide (k ∈ generated_keys)) as [|Hk]; [done|].
  apply lookup_union_r. apply not_elem_of_list_to_map_1. intros ([k' v] & -> & Hin)%list_elem_of_fmap. by eapply Hk, generated_dom.
Qed.

(** The normal form of a stored Job's spec and of the built one's. *)
Definition normal_spec (built : JobSpec) (ttl : option Z) (alias : string) : JobSpec :=
  let t := Template built in
  with_template None ttl
    {| TemplateMeta := with_maps (without_keys generated_keys (Labels (TemplateMeta t))) (Annotations (TemplateMeta t)) (TemplateMeta t);
       TemplateSpec := with_accounts (ServiceAccountName (TemplateSpec t)) alias (ImagePullSecrets (TemplateSpec t)) (TemplateSpec t) |} built.

Lemma normalize_stored built job ttl alias :
  MetaUID (JobMeta job) <> EmptyString -> JobSpecOf job = stored_spec (JobSpecOf built) job ttl alias ->
  normalizeGeneratedIdentity job = Ok {| JobMeta := JobMeta job; JobSpecOf := normal_spec (JobSpecOf built) ttl alias |}.
Proof.
  intros Hu Hs. unfold normalizeGeneratedIdentity. rewrite Hs. simpl. unfold empty. rewrite bool_decide_eq_false_2 by done. simpl.
  rewrite bool_decide_eq_false_2 by (apply insert_non_empty). simpl.
  replace (forallb _ (map_to_list {[ControllerUidLabel := _]})) with true; cycle 1.
  { symmetry. apply (forallb_map (fun k v => selector_own job k v)). intros k v [<- <-]%lookup_singleton_Some.
    unfold selector_own. apply andb_true_iff. split; [|by vm_compute]. apply existsb_exists.
    exists (ControllerUidLabel, MetaUID (JobMeta job)). split; [apply generated_uid|]. by rewrite !bool_decide_eq_true_2. }
  cbn [rbind]. replace (forallb _ (generated job)) with true; cycle 1.
  { symmetry. apply forallb_forall. intros [k v] Hin. rewrite <- list_elem_of_In in Hin.
    rewrite (lookup_union_l' _ _ k) by (rewrite (generated_lookup job k v) by done; by eexists).
    rewrite (generated_lookup job k v) by done. by rewrite bool_decide_eq_true_2. }
  unfold with_job_spec, with_template_labels, normal_spec. simpl. by rewrite without_generated.
Qed.

Lemma normalize_built built :
  as_built built ->
  normalizeGeneratedIdentity built =
    Ok {| JobMeta := JobMeta built;
          JobSpecOf := normal_spec (JobSpecOf built) (TTLSecondsAfterFinished (JobSpecOf built)) (DeprecatedServiceAccount (job_pod_spec built)) |}.
Proof.
  intros (Hs & Hk & _). unfold normalizeGeneratedIdentity. rewrite Hs. cbn [rbind].
  replace (forallb _ (generated built)) with true; cycle 1.
  { symmetry. apply forallb_forall. intros [k v] Hin. rewrite <- list_elem_of_In in Hin.
    by rewrite Hk by (by eapply generated_dom). }
  unfold with_job_spec, with_template_labels, normal_spec, job_pod_spec. simpl. do 5 f_equal.
  by destruct (TemplateSpec (Template (JobSpecOf built))).
Qed.

Lemma replace_trust_id env : NoDup (EnvName <$> env) -> replace_trust env env = env.
Proof.
  intros Hnd. unfold replace_trust.
  assert (forall l, (forall e, e ∈ l -> e ∈ env) ->
    foldl (fun want e => if bool_decide (EnvName e = ServerTrust)
                         then (fun x => if bool_decide (EnvName x = ServerTrust) then e else x) <$> want else want) env l = env) as Hl; [|by apply Hl].
  induction l as [|e l IH]; intros Hin; [done|]. simpl. case_bool_decide as He; [|apply IH; set_solver].
  replace (_ <$> env) with env; [apply IH; set_solver|]. symmetry. rewrite <- (list_fmap_id env) at 2. apply list_fmap_ext.
  intros i x Hx. simpl. case_bool_decide as Hn; [|done].
  destruct (list_elem_of_lookup_1 env e) as [j Hj]; [apply Hin, list_elem_of_here|].
  assert (i = j) as ->; [|naive_solver]. eapply NoDup_lookup; [exact Hnd|rewrite list_lookup_fmap, Hx; done|].
  rewrite list_lookup_fmap, Hj. simpl. by rewrite He, Hn.
Qed.

Lemma keep_trust_id spec : Forall (fun c => NoDup (EnvName <$> Env c)) (Containers spec) -> keep_trust spec spec = spec.
Proof.
  intros Hf. unfold keep_trust. destruct (Containers spec) as [|c rest] eqn:E; [done|]. apply Forall_cons in Hf as [Hc _].
  rewrite replace_trust_id by done. destruct c, spec. simpl in *. by subst.
Qed.

(** Both aliases a server leaves are the same Pod. *)
Lemma alias_normal spec alias pulls :
  alias = DeprecatedServiceAccount spec \/
  alias = ServiceAccountName spec /\ ServiceAccountName spec <> EmptyString /\ DeprecatedServiceAccount spec = EmptyString ->
  normalizeServiceAccountAlias (with_accounts (ServiceAccountName spec) alias pulls spec) =
  normalizeServiceAccountAlias (with_accounts (ServiceAccountName spec) (DeprecatedServiceAccount spec) pulls spec).
Proof.
  intros [->|(-> & Hne & Hd)]; [done|]. unfold normalizeServiceAccountAlias, empty. simpl.
  rewrite (bool_decide_eq_false_2 (ServiceAccountName spec = EmptyString)) by done. rewrite bool_decide_eq_true_2 by done.
  rewrite bool_decide_eq_false_2 by (rewrite Hd; congruence). by rewrite Hd.
Qed.

Lemma digest_stored built ttl alias :
  let spec := TemplateSpec (Template built) in
  alias = DeprecatedServiceAccount spec \/
  alias = ServiceAccountName spec /\ ServiceAccountName spec <> EmptyString /\ DeprecatedServiceAccount spec = EmptyString ->
  DigestTemplate (Template (normal_spec built ttl alias)) = DigestTemplate (Template built).
Proof.
  simpl. intros Ha. unfold DigestTemplate, canonical_template. simpl. rewrite without_keys_idem.
  set (spec := TemplateSpec (Template built)) in *.
  replace (if bool_decide (alias = effective_account (ServiceAccountName spec)) then EmptyString else alias) with
    (if bool_decide (DeprecatedServiceAccount spec = effective_account (ServiceAccountName spec)) then EmptyString else DeprecatedServiceAccount spec);
    [done|].
  destruct Ha as [->|(-> & Hne & ->)]; [done|]. unfold effective_account, empty.
  rewrite (bool_decide_eq_false_2 (ServiceAccountName spec = EmptyString)) by done.
  rewrite (bool_decide_eq_true_2 (ServiceAccountName spec = ServiceAccountName spec)) by done. by case_bool_decide.
Qed.

Lemma with_accounts_normal_containers spec : Containers (normalizeServiceAccountAlias spec) = Containers spec.
Proof. unfold normalizeServiceAccountAlias. by case_bool_decide. Qed.

(** What a stored Job says of its delivery is what was built. *)
Lemma delivery_stored actual job built :
  scrubAssignedMetadata (JobMeta job) = scrubAssignedMetadata (JobMeta built) -> JobMeta actual = JobMeta job ->
  job_pod_spec actual = normalizeServiceAccountAlias (job_pod_spec built) -> same_delivery actual built.
Proof.
  intros Hmeta Hm Hs. unfold same_delivery. rewrite Hm, Hs. split.
  - by apply (f_equal (fun m => (MetaName m, MetaNamespace m, OwnerReferences m, Annotations m))) in Hmeta.
  - unfold normalizeServiceAccountAlias. by case_bool_decide.
Qed.

(** The two specs the last comparison of a rebuilt Job is made on. *)
Lemma matchBuilt_stored built job ttl alias claim :
  as_built built -> JobSpecOf job = stored_spec (JobSpecOf built) job ttl alias ->
  scrubAssignedMetadata (JobMeta job) = scrubAssignedMetadata (JobMeta built) ->
  (ttl = TTLSecondsAfterFinished (JobSpecOf built) \/ ttl = Some CleanupTTLSeconds \/
   Mutating claim = true /\ ttl = Some FailedApplyRetentionTTLSeconds) ->
  (alias = DeprecatedServiceAccount (job_pod_spec built) \/
   alias = ServiceAccountName (job_pod_spec built) /\ ServiceAccountName (job_pod_spec built) <> EmptyString /\
   DeprecatedServiceAccount (job_pod_spec built) = EmptyString) ->
  Stored claim = true ->
  (UsesPodToken built = true -> is_Some (Read built (ClaimOwnerUID (ClaimOwner claim)) (ClaimID claim))) ->
  matchBuilt job {| JobMeta := JobMeta job; JobSpecOf := normal_spec (JobSpecOf built) ttl alias |} built claim = Ok tt.
Proof.
  intros Hb Hspec Hmeta Httl Halias Hst Htok. unfold matchBuilt.
  assert (Labels (JobMeta job) = Labels (JobMeta built) /\ Annotations (JobMeta job) = Annotations (JobMeta built)) as [-> ->].
  { apply (f_equal (fun m => (Labels m, Annotations m))) in Hmeta. simpl in Hmeta. by injection Hmeta. }
  rewrite !bool_decide_eq_true_2, Hst by done. cbn [andb orb]. rewrite normalize_built by done. cbn [rbind].
  set (pods := normalizeServiceAccountAlias (job_pod_spec built)).
  assert (forall m t, job_pod_spec {| JobMeta := m; JobSpecOf := normal_spec (JobSpecOf built) t (DeprecatedServiceAccount (job_pod_spec built)) |}
    = job_pod_spec built) as Hpods. { intros m t. unfold job_pod_spec. simpl. by destruct (TemplateSpec (Template (JobSpecOf built))). }
  assert (normalizeServiceAccountAlias (job_pod_spec {| JobMeta := JobMeta job; JobSpecOf := normal_spec (JobSpecOf built) ttl alias |}) = pods) as Hact.
  { unfold pods. rewrite <- (Hpods (JobMeta job) ttl). unfold job_pod_spec. simpl. by apply alias_normal. }
  rewrite Hact, Hpods. fold pods. set (actual := with_template_spec pods _). set (expected := with_template_spec pods _).
  assert (job_pod_spec actual = pods /\ job_pod_spec expected = pods) as [Ha He] by done.
  assert (UsesPodToken actual = UsesPodToken expected) as -> by (unfold UsesPodToken; by rewrite Ha, He).
  rewrite andb_diag.
  assert ((if UsesPodToken expected then with_template_spec (keep_trust (job_pod_spec actual) (job_pod_spec expected)) expected else expected) = expected) as ->.
  { destruct (UsesPodToken expected); [|done]. rewrite Ha, He, keep_trust_id; [done|].
    unfold pods. rewrite with_accounts_normal_containers. apply Hb. }
  replace (negb (UsesPodToken expected) || _) with true; cycle 1.
  { symmetry. apply orb_true_iff. destruct (UsesPodToken expected) eqn:E; [right|by left]. apply bool_decide_eq_true.
    rewrite (Read_same actual built) by (by apply (delivery_stored actual job)). apply Htok.
    unfold UsesPodToken in *. rewrite He in E. unfold pods in E. rewrite with_accounts_normal_containers in E.
    unfold normalizeServiceAccountAlias in E. by case_bool_decide. }
  cbn [andb]. set (scheduled := _ || _ && _).
  assert (semantic_job_spec (if scheduled then with_template (Selector (JobSpecOf actual)) (TTLSecondsAfterFinished (JobSpecOf expected))
            (Template (JobSpecOf actual)) (JobSpecOf actual) else JobSpecOf actual) (JobSpecOf expected) = true) as ->; [|done].
  destruct scheduled eqn:Es; [apply semantic_job_spec_refl|].
  destruct Httl as [Ht|Ht]; [unfold actual, expected; simpl; rewrite Ht; apply semantic_job_spec_refl|].
  unfold scheduled in Es. simpl in Es. exfalso.
  destruct Ht as [->|[Hm ->]]; [by rewrite bool_decide_eq_true_2 in Es|]. by rewrite Hm in Es.
Qed.

(** The Job a claim's inputs build, as the API server stores it, is the
    claim's Job: with an identity assigned, the selector and labels that
    repeat it, the service account alias some releases write, and a cleanup
    TTL scheduled since, it still matches, so the controller recognizes on
    every later pass the Job it dispatched. *)
Theorem claimed_job_recognized claim shape built job s :
  validate claim = Ok shape -> Snapshot claim = Some s -> Built claim = Some built -> Stored claim = true ->
  (forall b, Binding claim = Some b -> Epoch claim = BindingEpoch b) ->
  as_built built -> TemplateDigest s = DigestTemplate (Template (JobSpecOf built)) ->
  MetaNamespace (JobMeta built) = ClaimOwnerNamespace (ClaimOwner claim) -> MetaName (JobMeta built) = ClaimJobName claim ->
  OwnerReferences (JobMeta built) = [owner_reference (ClaimOwner claim)] ->
  get (Annotations (JobMeta built)) AnnotationExecutionBindingID = Epoch claim ->
  (UsesPodToken built = true -> is_Some (Read built (ClaimOwnerUID (ClaimOwner claim)) (ClaimID claim))) ->
  stored_as (Mutating claim) built job ->
  ClaimJobUID claim = EmptyString \/ ClaimJobUID claim = MetaUID (JobMeta job) ->
  Match (Some job) claim = Ok tt.
Proof.
  intros Hval Hs Hbuilt Hst Hbind Hb Hdig Hns Hn Ho He Htok (Hu & Hmeta & ttl & alias & Hspec & Httl & Halias) Huid.
  unfold Match. rewrite Hval. cbn [rbind]. unfold empty. rewrite (bool_decide_eq_false_2 (MetaUID _ = _)) by done. cbn [negb].
  assert (MetaNamespace (JobMeta job) = MetaNamespace (JobMeta built) /\ MetaName (JobMeta job) = MetaName (JobMeta built) /\
    OwnerReferences (JobMeta job) = OwnerReferences (JobMeta built) /\ Annotations (JobMeta job) = Annotations (JobMeta built)) as (-> & -> & -> & ->).
  { apply (f_equal (fun m => (MetaNamespace m, MetaName m, OwnerReferences m, Annotations m))) in Hmeta. simpl in Hmeta. injection Hmeta. naive_solver. }
  rewrite Hns, Hn, !bool_decide_eq_true_2 by done. cbn [andb].
  replace (bool_decide (ClaimJobUID claim = EmptyString) || bool_decide (MetaUID (JobMeta job) = ClaimJobUID claim)) with true; cycle 1.
  { symmetry. rewrite orb_true_iff, !bool_decide_eq_true. naive_solver. }
  rewrite (proj2 (controls_iff _ _) Ho). cbn [rbind].
  replace (match Binding claim with Some _ => _ | None => _ end) with true; cycle 1.
  { symmetry. destruct (Binding claim) as [b|]; [|done]. apply bool_decide_eq_true. by apply Hbind. }
  rewrite bool_decide_eq_true_2 by done. rewrite (normalize_stored built job ttl alias Hu Hspec). cbn [rbind]. rewrite Hbuilt.
  rewrite matchBuilt_stored by done. cbn [rbind JobSpecOf]. rewrite Hs, digest_stored by done. cbn [fmap option_fmap option_map].
  by rewrite bool_decide_eq_true_2 by (by rewrite Hdig).
Qed.
End Recognition.
