(* ===== verification/PodWebhook.v ===== *)
(** * The Pod admission webhook (package [internal/podintent], webhook.go,
      stored.go, result_credentials.go)

    The handler that refuses an operator Pod whose final spec falls outside
    its admission snapshot, before the Pod can be scheduled, and the check of
    a stored Pod that controllers and result delivery share. An API error is
    the status the response carries. *)
From Stdlib Require Import ZArith Lia Ascii.
From stdpp Require Import base list gmap strings.
From S2P Require Import Prelude GoStrings Json Fingerprint KubeMeta KubePod Effects JobConfig PodIntent JobClaim.
Local Open Scope go_scope.
Local Open Scope Z_scope.

(** ** Names and owners *)

Definition kubernetesControllerManagerUsername : string := "system:kube-controller-manager".
Definition kubernetesJobControllerUsername : string := "system:serviceaccount:kube-system:job-controller".
Definition generatedNameMaxPrefixLength : nat := 58.
Definition generatedNameSuffixLength : nat := 5.

Definition isKubernetesJobController (username : string) : bool :=
  bool_decide (username = kubernetesControllerManagerUsername) || bool_decide (username = kubernetesJobControllerUsername).

Definition managedPodIdentity (labels : gmap string string) : bool :=
  bool_decide (get labels LabelManagedBy = "ptah-operator") &&
  bool_decide (get labels LabelComponent ∈ [ComponentSchemaOperation; ComponentMigrationOperation]).

(** The suffix is of lowercase letters and digits. The loop ranges over
    runes; a byte that is not ASCII is part of none of these. *)
Definition ValidateGeneratedPodName (pod : ObjectMeta) (jobName : string) : bool :=
  negb (empty jobName) && bool_decide (GenerateName pod = jobName +:+ "-") &&
  let prefix := String.substring 0 generatedNameMaxPrefixLength (GenerateName pod) in
  match cut_prefix prefix (MetaName pod) with
  | Some suffix => (String.length suffix =? generatedNameSuffixLength)%nat && str_all (fun a => is_lower a || is_digit a) suffix
  | None => false
  end.

(** A reference that names a controller of this kind. *)
Definition controller_reference (apiVersion kind : string) (r : OwnerReference) : bool :=
  bool_decide (OwnerAPIVersion r = apiVersion) && bool_decide (OwnerKind r = kind) && negb (empty (OwnerName r)) &&
  negb (empty (OwnerUID r)) && bool_decide (Controller r = Some true).
Definition exactControllerReference (references : list OwnerReference) (apiVersion kind : string) : option OwnerReference :=
  match references with
  | [r] => if controller_reference apiVersion kind r then Some r else None
  | _ => None
  end.
Definition uniqueControllerReference (references : list OwnerReference) (apiVersion kind : string) : option OwnerReference :=
  match filter (fun r => controller_reference apiVersion kind r = true) references with
  | [r] => Some r
  | _ => None
  end.

Record operationSubject : Type := { SubjectKind : string; SubjectComponent : string; SubjectLabel : string; SubjectOwner : OwnerReference }.
Definition operationSubjectFor (references : list OwnerReference) : option operationSubject :=
  match exactControllerReference references operator_group "PtahSchema" with
  | Some owner => Some {| SubjectKind := "PtahSchema"; SubjectComponent := ComponentSchemaOperation; SubjectLabel := LabelSchema; SubjectOwner := owner |}
  | None =>
      match exactControllerReference references operator_group "PtahMigration" with
      | Some owner => Some {| SubjectKind := "PtahMigration"; SubjectComponent := ComponentMigrationOperation; SubjectLabel := LabelMigration; SubjectOwner := owner |}
      | None => None
      end
  end.

(** ** The one-shot envelope of a Job *)

Definition validateGeneratedJobSelector (job : Job) : bool :=
  match Selector (JobSpecOf job) with
  | None => false
  | Some selector =>
      negb (bool_decide (MatchLabels selector = ∅)) && (length (MatchExpressions selector) =? 0)%nat &&
      forallb (fun '(key, value) =>
        bool_decide (key ∈ [ControllerUidLabel; "controller-uid"]) && bool_decide (value = MetaUID (JobMeta job)))
        (map_to_list (MatchLabels selector))
  end.

Definition validateJobExecutionEnvelope (job : Job) : bool :=
  let s := JobSpecOf job in
  negb (empty (MetaUID (JobMeta job))) &&
  bool_decide (Parallelism s = Some 1) && bool_decide (Completions s = Some 1) && bool_decide (BackoffLimit s = Some 0) &&
  match ActiveDeadlineSeconds s, PodActiveDeadlineSeconds (TemplateSpec (Template s)) with
  | Some deadline, Some pod => (0 <? deadline) && (deadline =? pod)
  | _, _ => false
  end &&
  bool_decide (PodReplacementPolicy s = Some "Failed") &&
  match CompletionMode s with Some mode => bool_decide (mode = "NonIndexed") | None => true end &&
  negb (bool_decide (Suspend s = Some true)) && negb (bool_decide (ManualSelector s = Some true)) &&
  bool_decide (PodFailurePolicy s = None) && bool_decide (SuccessPolicy s = None) &&
  bool_decide (BackoffLimitPerIndex s = None) && bool_decide (MaxFailedIndexes s = None) &&
  bool_decide (ManagedBy s = None) && bool_decide (TTLSecondsAfterFinished s = None) &&
  validateGeneratedJobSelector job.
Definition ValidateActiveJob (job : Job) : bool := validateJobExecutionEnvelope job.

Definition containsStringMap (actual expected : gmap string string) : bool :=
  forallb (fun '(key, value) => bool_decide (get actual key = value)) (map_to_list expected).

(** ** Metadata *)

Definition limitRangerAnnotation : string := "kubernetes.io/limit-ranger".
Definition snapshotHasLimitRangeDefaults (snapshot : option PodAdmissionSnapshot) : bool :=
  match snapshot with
  | None => false
  | Some s => existsb (fun r => negb (bool_decide (DefaultRequests r = ∅)) || negb (bool_decide (DefaultLimits r = ∅))) (LimitRanges s)
  end.
Definition createAnnotationsMatch (actual expected : gmap string string) (snapshot : option PodAdmissionSnapshot) : bool :=
  match actual !! limitRangerAnnotation with
  | Some value =>
      snapshotHasLimitRangeDefaults snapshot && has_prefix "LimitRanger plugin set: " value &&
      bool_decide (delete limitRangerAnnotation actual = expected)
  | None => bool_decide (actual = expected)
  end.

(** ** Removing the tracking finalizer *)

Definition podAllowsJobTrackingFinalizerCleanup (pod : Pod) : bool :=
  bool_decide (is_Some (DeletionTimestamp (PodMeta pod))) || bool_decide (PodPhase pod ∈ ["Succeeded"; "Failed"]).

Definition with_server_fields (finalizers : list string) (new old : ObjectMeta) : ObjectMeta :=
  {| MetaName := MetaName old; GenerateName := GenerateName old; MetaNamespace := MetaNamespace old; SelfLink := SelfLink old;
     MetaUID := MetaUID old; ResourceVersion := ResourceVersion new; MetaGeneration := MetaGeneration new;
     CreationTimestamp := CreationTimestamp old; DeletionTimestamp := DeletionTimestamp new;
     DeletionGracePeriodSeconds := DeletionGracePeriodSeconds new; Labels := Labels old; Annotations := Annotations old;
     OwnerReferences := OwnerReferences old; Finalizers := finalizers; ManagedFields := ManagedFields new |}.

Section Webhook.
Context `{Apimachinery} `{DeliveryLibraries}.

(** [Semantic.DeepEqual] on two Pods. *)
Definition semantic_pod (a b : Pod) : bool :=
  bool_decide (PodMeta a = PodMeta b) && semantic_pod_spec (PodSpecOf a) (PodSpecOf b) &&
  bool_decide (PodPhase a = PodPhase b) && rest_equal (PodStatusRest a) (PodStatusRest b).

Definition exactJobTrackingFinalizerRemoval (oldPod newPod : Pod) (subresource : string) : bool :=
  let want := filter (fun f => f <> JobTrackingFinalizer) (Finalizers (PodMeta oldPod)) in
  empty subresource &&
  (podAllowsJobTrackingFinalizerCleanup oldPod || podAllowsJobTrackingFinalizerCleanup newPod) &&
  match exactControllerReference (OwnerReferences (PodMeta oldPod)) batchv1_group "Job",
        exactControllerReference (OwnerReferences (PodMeta newPod)) batchv1_group "Job" with
  | Some oldOwner, Some newOwner => bool_decide (oldOwner = newOwner)
  | _, _ => false
  end &&
  (length (Finalizers (PodMeta oldPod)) =? S (length want))%nat && bool_decide (Finalizers (PodMeta newPod) = want) &&
  semantic_pod {| PodMeta := with_server_fields want (PodMeta newPod) (PodMeta oldPod); PodSpecOf := PodSpecOf oldPod;
                  PodPhase := PodPhase oldPod; PodStatusRest := PodStatusRest oldPod |} newPod.

(** ** A stored Pod (stored.go) *)

Definition storedPodOwner (references : list OwnerReference) (job : Job) : bool :=
  match references with
  | [r] => bool_decide (OwnerAPIVersion r = batchv1_group) && bool_decide (OwnerKind r = "Job") &&
           bool_decide (OwnerName r = MetaName (JobMeta job)) && bool_decide (OwnerUID r = MetaUID (JobMeta job)) &&
           bool_decide (Controller r = Some true) && bool_decide (BlockOwnerDeletion r = Some true)
  | _ => false
  end.

Definition ValidateStoredPod (pod : Pod) (job : Job) (snapshot : option PodAdmissionSnapshot) : bool :=
  let template := Template (JobSpecOf job) in
  let meta := PodMeta pod in
  negb (empty (MetaUID (JobMeta job))) && storedPodOwner (OwnerReferences meta) job &&
  ValidateGeneratedPodName meta (MetaName (JobMeta job)) &&
  containsStringMap (Labels meta) (Labels (TemplateMeta template)) &&
  containsStringMap (Annotations meta) (Annotations (TemplateMeta template)) &&
  forallb (fun '(key, expected) => match Labels meta !! key with Some value => bool_decide (value = expected) | None => true end)
    (generated job) &&
  match snapshot with
  | None => false
  | Some s => bool_decide (get (Annotations (TemplateMeta template)) AnnotationAdmissionSnapshotDigest = SnapshotDigest s)
  end &&
  is_ok (ValidatePodSpec (PodSpecOf pod) template snapshot).

(** ** Result credentials (internal/resultcredentials/binding) *)

Definition SecretPrefix : string := "ptah-result-key-".
Definition env_secrets (env : list EnvVar) (from : list EnvFromSource) : list string :=
  (env ≫= fun v => match ValueFrom v with
                    | Some source => match SecretKeyRef source with Some ref => [SecretKeyName ref] | None => [] end
                    | None => []
                    end) ++
  (from ≫= fun v => match FromSecretRef v with Some name => [name] | None => [] end).
Definition volume_secrets (v : Volume) : list string :=
  match VolumeSecret v with Some s => [SecretVolumeName s] | None => [] end ++
  match VolumeProjected v with
  | Some p => ProjectedSources p ≫= fun s => match ProjectedSecret s with Some name => [name] | None => [] end
  | None => []
  end ++ VolumeSecretRefs v.
(** Every direct Secret reference with the prefix, in order, with duplicates. *)
Definition References (pod : PodSpec) : list string :=
  filter (fun name => has_prefix SecretPrefix name = true)
    (((Containers pod ++ InitContainers pod ++ EphemeralContainers pod) ≫= fun c => env_secrets (Env c) (EnvFrom c)) ++
     ImagePullSecrets pod ++ (Volumes pod ≫= volume_secrets)).

Definition BindingPodUID : string := "operator.ptah.run/result-pod-uid".
Definition BindingPodName : string := "operator.ptah.run/result-pod-name".
Definition BindingJobUID : string := "operator.ptah.run/result-job-uid".
Definition BindingOperationID : string := "operator.ptah.run/result-operation-id".

(** ** The handler *)

Inductive response : Type :=
| Allowed (reason : string)
| Denied (reason : string)
| Errored (status : Z).

(** The claim of a subject's status, as [readClaim] takes it from either
    kind. *)
Record operationClaim : Type := {
  claimSubjectName : string;
  claimOperationID : string;
  claimOperationType : string;
  claimJobName : string;
  claimJobUID : string;
  claimSnapshot : option PodAdmissionSnapshot;
}.
(** A PtahSchema or PtahMigration: its UID and its active operation. *)
Record subject_view : Type := { viewUID : string; viewClaim : option operationClaim }.

Inductive webhookE : Type -> Type :=
| GetJob (namespace name : string) : webhookE (result bool Job)
| GetSubject (kind namespace name : string) : webhookE (result bool subject_view)
| GetResultRecord (namespace name : string) : webhookE (result bool ObjectMeta)
| Admission (X : Type) (e : podE X) : webhookE X.

Record Request : Type := {
  RequestOperation : string;
  SubResource : string;
  RequestNamespace : string;
  RequestName : string;
  Username : string;
  (** The decoded object, where it decodes. *)
  RequestObject : option Pod;
  (** The old object: absent, or present and maybe undecodable. *)
  OldObject : option (option Pod);
}.
Definition Create : string := "CREATE".
Definition Update : string := "UPDATE".

Definition StatusInternalServerError : Z := 500.
Definition StatusConflict : Z := 409.
Definition StatusBadRequest : Z := 400.
Definition StatusServiceUnavailable : Z := 503.
Definition podIntentReadError (notFound : bool) : response := Errored (if notFound then StatusConflict else StatusInternalServerError).
(** The error of a resolution: [IsNotFound] is seen through the wrapping. *)
Definition resolve_error (e : pod_error) : response :=
  podIntentReadError (match e with ReadFailed notFound => notFound | _ => false end).

(** [if c { return response }]. *)
Notation "'refuse' c 'with' r ; k" := (if (c : bool) then Ret r else k) (at level 100, c at next level, r at next level, right associativity).

Definition readClaim (namespace : string) (subject : operationSubject) : prog webhookE (response + operationClaim) :=
  view <-- call (GetSubject (SubjectKind subject) namespace (OwnerName (SubjectOwner subject)));
  match view with
  | Err notFound => Ret (inl (podIntentReadError notFound))
  | Ok view =>
      if empty (viewUID view) || negb (bool_decide (viewUID view = OwnerUID (SubjectOwner subject)))
      then Ret (inl (Denied ("managed Job owner does not match the current " +:+ SubjectKind subject +:+ " UID")))
      else match viewClaim view with
           | None => Ret (inl (Denied "managed Pod has no persisted admission snapshot"))
           | Some claim => Ret (inr claim)
           end
  end.

Definition validateResultCredential (operation : string) (pod : Pod) (job : Job) (operationID : string) : prog webhookE (option response) :=
  let refs := References (PodSpecOf pod) in
  if (length refs =? 0)%nat && negb (UsesPodToken job) then Ret None else
  match OwnerReferences (JobMeta job) with
  | [owner] =>
      match Read job (OwnerUID owner) operationID with
      | None => Ret (Some (Denied "Pod does not have the exact result credential projection"))
      | Some projection =>
          if (if PodToken projection then negb (length refs =? 0)%nat else negb (bool_decide (refs = [SecretName projection])))
          then Ret (Some (Denied "Pod does not have the exact result credential projection")) else
          record <-- call (GetResultRecord (MetaNamespace (PodMeta pod)) (SecretName projection));
          match record with
          | Err true => Ret None
          | Err false => Ret (Some (Errored StatusServiceUnavailable))
          | Ok metadata =>
              if bool_decide (operation = Create) then Ret (Some (Denied "result credential is already bound to the original Pod")) else
              if bool_decide (is_Some (DeletionTimestamp metadata)) || empty (MetaUID (PodMeta pod)) ||
                 negb (bool_decide (get (Annotations metadata) BindingPodUID = MetaUID (PodMeta pod))) ||
                 negb (bool_decide (get (Annotations metadata) BindingPodName = MetaName (PodMeta pod))) ||
                 negb (bool_decide (get (Annotations metadata) BindingJobUID = MetaUID (JobMeta job))) ||
                 negb (bool_decide (get (Annotations metadata) BindingOperationID = operationID))
              then Ret (Some (Denied "result credential does not belong to this Pod")) else Ret None
          end
      end
  | _ => Ret (Some (Denied "result credential requires one operation owner"))
  end.

(** Whether either version of the Pod references a result credential or
    carries the operator's labels. *)
Definition credential_seen (pod : Pod) (oldPod : option Pod) : bool :=
  negb (length (References (PodSpecOf pod)) =? 0)%nat ||
  match oldPod with Some old => negb (length (References (PodSpecOf old)) =? 0)%nat | None => false end.
Definition managed_seen (pod : Pod) (oldPod : option Pod) : bool :=
  managedPodIdentity (Labels (PodMeta pod)) || match oldPod with Some old => managedPodIdentity (Labels (PodMeta old)) | None => false end.

(** The Pod's metadata against the Job's template and its old version. *)
Definition metadata_matches (create : bool) (pod : Pod) (oldPod : option Pod) (template : ObjectMeta) (snapshot : option PodAdmissionSnapshot) : bool :=
  if create then
    bool_decide (Labels (PodMeta pod) = Labels template) && createAnnotationsMatch (Annotations (PodMeta pod)) (Annotations template) snapshot
  else match oldPod with
       | None => false
       | Some old =>
           bool_decide (Labels (PodMeta pod) = Labels (PodMeta old)) && bool_decide (Annotations (PodMeta pod) = Annotations (PodMeta old)) &&
           containsStringMap (Labels (PodMeta pod)) (Labels template) && containsStringMap (Annotations (PodMeta pod)) (Annotations template)
       end.

(** The Pod and the Job against the claim, up to the admission digest. *)
Definition claim_refusal (create : bool) (pod : Pod) (oldPod : option Pod) (job : Job) (subject : operationSubject) (claim : operationClaim)
    : option string :=
  let labels := Labels (PodMeta pod) in
  let annotations := Annotations (PodMeta pod) in
  let template := TemplateMeta (Template (JobSpecOf job)) in
  if negb (forallb (fun '(key, value) => bool_decide (get (Labels template) key = value) && bool_decide (get labels key = value)) (generated job))
  then Some "managed Pod does not carry the exact generated Job identity" else
  if negb (metadata_matches create pod oldPod template (claimSnapshot claim))
  then Some (if create then "managed Pod metadata does not match the bound Job template"
             else "managed Pod update changed immutable metadata") else
  match claimSnapshot claim with
  | None => Some "managed Pod has no persisted admission snapshot"
  | Some snapshot =>
      if negb (bool_decide (claimJobName claim = MetaName (JobMeta job))) ||
         (negb (empty (claimJobUID claim)) && negb (bool_decide (claimJobUID claim = MetaUID (JobMeta job))))
      then Some "managed Pod does not match the active operation Job identity" else
      if empty (claimOperationID claim) || negb (bool_decide (get annotations AnnotationOperationID = claimOperationID claim)) ||
         negb (bool_decide (get (Annotations (JobMeta job)) AnnotationOperationID = claimOperationID claim)) ||
         negb (bool_decide (get labels LabelOperationID = OperationIDLabelValue (claimOperationID claim)))
      then Some "managed Pod operation identity does not match status" else
      if negb (bool_decide (get labels (SubjectLabel subject) = claimSubjectName claim)) ||
         negb (bool_decide (get labels LabelOperation = to_lower (claimOperationType claim)))
      then Some "managed Pod operation labels do not match status" else
      let digest := SnapshotDigest snapshot in
      if empty digest || negb (bool_decide (get annotations AnnotationAdmissionSnapshotDigest = digest)) ||
         negb (bool_decide (get (Annotations (JobMeta job)) AnnotationAdmissionSnapshotDigest = digest)) ||
         negb (bool_decide (get (Annotations template) AnnotationAdmissionSnapshotDigest = digest))
      then Some "managed Pod admission digest does not match status and Job" else None
  end.

(** The managed Pod of an operator Job. *)
Definition judge_managed (req : Request) (pod : Pod) (oldPod : option Pod) (jobOwner : OwnerReference) (job : Job) (subject : operationSubject)
    : prog webhookE response :=
  let create := bool_decide (RequestOperation req = Create) in
  let meta := PodMeta pod in
  refuse negb (validateJobExecutionEnvelope job) with Denied "managed Pod Job is outside the one-shot execution envelope";
  refuse negb (length (OwnerReferences meta) =? 1)%nat with Denied "managed Pod has ambiguous ownership";
  refuse create && negb (bool_decide (BlockOwnerDeletion jobOwner = Some true))
    with Denied "managed Pod does not have the exact Job controller owner reference";
  refuse create && negb (isKubernetesJobController (Username req)) with Denied "managed Pod was not created by the Kubernetes Job controller";
  refuse create && negb (ValidateGeneratedPodName meta (MetaName (JobMeta job))) with Denied "managed Pod does not have the exact Job-generated name";
  refuse create && negb (bool_decide (Finalizers meta = [JobTrackingFinalizer])) with Denied "managed Pod does not have the exact Job tracking finalizer";
  refuse negb create && negb (match oldPod with Some old => bool_decide (Finalizers meta = Finalizers (PodMeta old)) | None => false end)
    with Denied "managed Pod update changed finalizers outside Job cleanup";
  refuse negb (bool_decide (get (Labels meta) LabelManagedBy = "ptah-operator")) ||
         negb (bool_decide (get (Labels meta) LabelComponent = SubjectComponent subject))
    with Denied "operator Pod removed its managed workload identity";
  claimed <-- readClaim (MetaNamespace meta) subject;
  match claimed with
  | inl refusal => Ret refusal
  | inr claim =>
      match claim_refusal create pod oldPod job subject claim, claimSnapshot claim with
      | Some reason, _ => Ret (Denied reason)
      | None, None => Ret (Denied "managed Pod has no persisted admission snapshot")
      | None, Some snapshot =>
          current <-- hoist Admission (Resolve (MetaNamespace meta) (Template (JobSpecOf job)) (SnapshotOptions snapshot));
          match current with
          | Err e => Ret (resolve_error e)
          | Ok current =>
              refuse negb (bool_decide (SnapshotDigest current = SnapshotDigest snapshot))
                with Denied "current Pod admission objects differ from the persisted snapshot";
              refuse negb (is_ok (ValidatePodSpec (PodSpecOf pod) (Template (JobSpecOf job)) (Some snapshot)))
                with Denied "managed Pod is outside the persisted admission envelope";
              refusal <-- validateResultCredential (RequestOperation req) pod job (claimOperationID claim);
              match refusal with
              | Some refusal => Ret refusal
              | None => Ret (Allowed "managed Pod matches the persisted admission envelope")
              end
          end
      end
  end.

Definition judge (req : Request) (pod : Pod) (oldPod : option Pod) : prog webhookE response :=
  match uniqueControllerReference (OwnerReferences (PodMeta pod)) batchv1_group "Job" with
  | None =>
      refuse credential_seen pod oldPod with Denied "result credentials may only be projected by their operation Pod";
      refuse managed_seen pod oldPod with Denied "managed Pod has no exact Job controller identity";
      refuse match oldPod with
             | Some old => bool_decide (is_Some (uniqueControllerReference (OwnerReferences (PodMeta old)) batchv1_group "Job"))
             | None => false
             end with Denied "Pod update removed its exact Job owner";
      Ret (Allowed "Pod is not controlled by a Job")
  | Some jobOwner =>
      read <-- call (GetJob (MetaNamespace (PodMeta pod)) (OwnerName jobOwner));
      match read with
      | Err notFound => Ret (podIntentReadError notFound)
      | Ok job =>
          refuse empty (MetaUID (JobMeta job)) || negb (bool_decide (MetaUID (JobMeta job) = OwnerUID jobOwner))
            with Denied "managed Pod owner does not match the current Job UID";
          match operationSubjectFor (OwnerReferences (JobMeta job)) with
          | None =>
              refuse credential_seen pod oldPod with Denied "result credentials may only be projected by their operation Pod";
              refuse managed_seen pod oldPod || managedPodIdentity (Labels (JobMeta job))
                with Denied "managed Pod Job has no exact operator controller identity";
              Ret (Allowed "Job is not an operator workload")
          | Some subject => judge_managed req pod oldPod jobOwner job subject
          end
      end
  end.

Definition Handle (req : Request) : prog webhookE response :=
  let operation := RequestOperation req in
  refuse negb (bool_decide (operation = Create)) && negb (bool_decide (operation = Update)) with Allowed "request does not mutate a Pod";
  refuse negb (bool_decide (SubResource req ∈ [EmptyString; "ephemeralcontainers"; "resize"]))
    with Denied "unexpected Pod subresource for operation-intent validation";
  refuse bool_decide (operation = Create) && negb (empty (SubResource req))
    with Denied "Pod subresources cannot be created through the operation-intent webhook";
  match RequestObject req with
  | None => Ret (Errored StatusBadRequest)
  | Some pod =>
      let meta := PodMeta pod in
      refuse empty (MetaNamespace meta) || negb (bool_decide (MetaNamespace meta = RequestNamespace req))
        with Denied "Pod namespace does not match the admission request";
      if bool_decide (operation = Create) then judge req pod None else
      match OldObject req with
      | None => Ret (Denied "Pod update has no old object")
      | Some None => Ret (Errored StatusBadRequest)
      | Some (Some oldPod) =>
          let old := PodMeta oldPod in
          refuse empty (RequestName req) || negb (bool_decide (MetaName meta = RequestName req)) ||
                 negb (bool_decide (MetaName old = RequestName req)) || negb (bool_decide (MetaNamespace old = RequestNamespace req)) ||
                 empty (MetaUID meta) || negb (bool_decide (MetaUID meta = MetaUID old))
            with Denied "Pod update does not preserve the exact request name, namespace, and UID";
          if exactJobTrackingFinalizerRemoval oldPod pod (SubResource req) then
            refuse negb (isKubernetesJobController (Username req))
              with Denied "only the Kubernetes Job controller may remove its Pod tracking finalizer";
            Ret (Allowed "Job controller removed only its Pod tracking finalizer")
          else judge req pod (Some oldPod)
      end
  end.
End Webhook.
