(* ===== verification/PodSample.v ===== *)
(** * A Pod, its template and its snapshot

    The Kubernetes libraries as plain functions, in which a quantity is its
    text and defaulting changes nothing, and a small cluster: a ServiceAccount
    with a pull Secret, two LimitRanges, a RuntimeClass and a default
    PriorityClass. The theorems about admission are applied to it, so what
    they assume can hold and what they conclude is not empty. *)
From Stdlib Require Import ZArith Lia Ascii.
From stdpp Require Import base list gmap strings.
From S2P Require Import Prelude GoStrings Sha256 Json Fingerprint KubeMeta KubePod JobConfig PodIntent PodIntentProofs PodResolve JobClaim JobClaimProofs.
Local Open Scope Z_scope.

Definition plain_template_json (t : PodTemplateSpec) : json :=
  JObj [("labels", map_json (Labels (TemplateMeta t))); ("annotations", map_json (Annotations (TemplateMeta t)));
        ("serviceAccountName", JStr (ServiceAccountName (TemplateSpec t)));
        ("serviceAccount", JStr (DeprecatedServiceAccount (TemplateSpec t)));
        ("containers", JArr ((fun c => JObj [("name", JStr (ContainerName c)); ("args", JArr (JStr <$> Args c));
                                             ("image", JStr (ContainerImage c))]) <$> Containers (TemplateSpec t)))].

#[export] Instance plain : Apimachinery := {|
  quantity_cmp := fun a b => if bool_decide (a = b) then Eq else Lt;
  quantity_sign := fun q => if has_prefix "-" q then -1 else 1;
  scheme_default := fun m s => (m, s);
  rest_equal := fun a b => bool_decide (a = b);
  is_qualified_name := fun s => negb (empty s);
  template_json := plain_template_json;
|}.

Lemma plain_same a b : same_quantity a b = true <-> a = b.
Proof. unfold same_quantity. simpl. by case_bool_decide. Qed.
#[export] Instance plain_laws : ApimachineryLaws.
Proof.
  split.
  - intros a. by apply plain_same.
  - intros a b ->%plain_same. by apply plain_same.
  - intros a b c ->%plain_same ->%plain_same. by apply plain_same.
  - intros a. simpl. by apply bool_decide_eq_true.
Qed.

(** Enough of [url.Parse] and of the PEM decoder for the sample. *)
#[export] Instance plain_delivery : DeliveryLibraries := {|
  url_parse := fun raw =>
    host ← cut_prefix "https://" raw;
    Some {| EndpointScheme := "https"; EndpointHostname := host; EndpointUser := false; EndpointQuery := EmptyString;
            EndpointForceQuery := false; EndpointFragment := EmptyString; EndpointPath := EmptyString |};
  certs_from_pem := has_prefix "-----BEGIN CERTIFICATE-----";
|}.

(** ** The cluster *)

Definition object_meta (name : string) : ObjectMeta :=
  {| MetaName := name; GenerateName := EmptyString; MetaNamespace := "shop"; SelfLink := EmptyString;
     MetaUID := name +:+ "-uid"; ResourceVersion := "7"; MetaGeneration := 1; CreationTimestamp := None;
     DeletionTimestamp := None; DeletionGracePeriodSeconds := None; Labels := ∅; Annotations := ∅;
     OwnerReferences := []; Finalizers := []; ManagedFields := [] |}.

Definition memory_range : LimitRange :=
  {| LimitRangeMeta := object_meta "memory";
     LimitRangeLimits := [{| LimitType := LimitTypeContainer; LimitMax := ∅; LimitMin := ∅;
                             LimitDefault := {["memory" := "256Mi"]}; LimitDefaultRequest := {["memory" := "64Mi"]} |}] |}.
Definition cpu_range : LimitRange :=
  {| LimitRangeMeta := object_meta "cpu";
     LimitRangeLimits := [{| LimitType := "Pod"; LimitMax := {["cpu" := "8"]}; LimitMin := ∅; LimitDefault := ∅; LimitDefaultRequest := ∅ |};
                          {| LimitType := LimitTypeContainer; LimitMax := ∅; LimitMin := {["cpu" := "10m"]};
                             LimitDefault := ∅; LimitDefaultRequest := ∅ |}] |}.
Definition gvisor : RuntimeClass :=
  {| RuntimeMeta := object_meta "gvisor"; RuntimeHandler := "runsc"; RuntimeOverhead := Some {["memory" := "32Mi"]};
     RuntimeScheduling := Some ({["sandbox" := "gvisor"]},
       [{| TolKey := "sandbox"; TolOperator := TolerationOpExists; TolValue := EmptyString; TolEffect := EmptyString; TolerationSeconds := None |}]) |}.
Definition standard_priority : PriorityClass :=
  {| PriorityMeta := object_meta "standard"; PriorityValue := 100; GlobalDefault := true; PriorityPreemption := Some PreemptNever |}.

Definition sample_objects (items : list LimitRange) : objects :=
  {| accounts := fun _ name => if bool_decide (name = "runner")
                               then Ok {| AccountMeta := object_meta "runner"; AccountPullSecrets := ["registry"] |} else Err true;
     ranges_in := fun _ => Ok items;
     runtimes := fun name => if bool_decide (name = "gvisor") then Ok gvisor else Err true;
     priorities := fun _ => Err true;
     priority_list := Ok [standard_priority] |}.

(** ** A template and the Pod admission makes of it *)

Definition sample_container : Container :=
  {| ContainerName := "ptah"; Args := ["--operation"; "migration-apply"]; Env := []; EnvFrom := []; VolumeMounts := [];
     Requests := {["memory" := "128Mi"]}; Limits := ∅; ImagePullPolicy := "IfNotPresent"; ContainerImage := "image"; ContainerRest := EmptyString |}.
Definition sample_spec : PodSpec :=
  {| Containers := [sample_container]; InitContainers := []; EphemeralContainers := []; Volumes := [];
     ServiceAccountName := "runner"; DeprecatedServiceAccount := EmptyString; AutomountServiceAccountToken := Some false;
     ImagePullSecrets := []; NodeName := EmptyString; NodeSelector := {["zone" := "a"]}; RuntimeClassName := Some "gvisor";
     Overhead := None; PriorityClassName := EmptyString; Priority := None; PreemptionPolicy := None; Tolerations := [];
     PodLevelResources := None; PodActiveDeadlineSeconds := Some 600; PodRest := EmptyString |}.
Definition sample_template : PodTemplateSpec :=
  {| TemplateMeta := with_maps {["app" := "ptah"]} ∅ (new_meta EmptyString EmptyString ∅ []); TemplateSpec := sample_spec |}.

Definition sample_resolution : result pod_error PodAdmissionSnapshot :=
  asked (sample_objects [memory_range; cpu_range]) (Resolve "shop" sample_template DefaultOptions).
Definition no_snapshot : PodAdmissionSnapshot :=
  {| SnapshotVersionOf := EmptyString; SnapshotDigest := EmptyString; TemplateDigest := EmptyString;
     SnapshotAccount := {| AccountObject := {| BindingName := EmptyString; BindingUID := EmptyString; BindingVersion := EmptyString |};
                           SnapshotPullSecrets := [] |};
     LimitRanges := []; SnapshotRuntime := None;
     SnapshotPriority := {| PriorityObject := None; SnapshotPriorityName := EmptyString; SnapshotPriorityValue := 0; SnapshotPreemption := None |};
     SnapshotOptions := DefaultOptions |}.
Definition sample_snapshot : PodAdmissionSnapshot := match sample_resolution with Ok s => s | Err _ => no_snapshot end.

Definition admitted_container : Container :=
  with_resources {["memory" := "128Mi"; "cpu" := "10m"]} {["memory" := "256Mi"]} "IfNotPresent" sample_container.
Definition sample_pod : PodSpec :=
  {| Containers := [admitted_container]; InitContainers := []; EphemeralContainers := []; Volumes := [];
     ServiceAccountName := "runner"; DeprecatedServiceAccount := "runner"; AutomountServiceAccountToken := Some false;
     ImagePullSecrets := ["registry"]; NodeName := "node-3"; NodeSelector := {["zone" := "a"; "sandbox" := "gvisor"]};
     RuntimeClassName := Some "gvisor"; Overhead := Some {["memory" := "32Mi"]}; PriorityClassName := "standard"; Priority := Some 100;
     PreemptionPolicy := Some PreemptNever;
     Tolerations := [no_execute "node.kubernetes.io/not-ready" 300; no_execute "node.kubernetes.io/unreachable" 300;
                     {| TolKey := "sandbox"; TolOperator := TolerationOpExists; TolValue := EmptyString; TolEffect := EmptyString; TolerationSeconds := None |}];
     PodLevelResources := None; PodActiveDeadlineSeconds := Some 600; PodRest := EmptyString |}.

Lemma sample_resolves : sample_resolution = Ok sample_snapshot.
Proof. vm_compute. reflexivity. Qed.
Lemma sample_accepts : ValidatePodSpec sample_pod sample_template (Some sample_snapshot) = Ok tt.
Proof. vm_compute. reflexivity. Qed.

Lemma pod_spec_envelope_witness :
  admitted sample_snapshot (defaulted (TemplateSpec sample_template)) (defaulted sample_pod).
Proof. apply (pod_spec_envelope sample_pod sample_template sample_snapshot). exact sample_accepts. Defined.

(** The objects of the cluster are ones its API server lets in. *)
Lemma singleton_valid name q : name <> EmptyString -> 0 <= quantity_sign q -> resources_valid {[name := q]}.
Proof. intros Hn Hq k v [<- <-]%lookup_singleton_Some. done. Qed.
Lemma empty_valid : resources_valid ∅.
Proof. intros k v. by rewrite lookup_empty. Qed.
Lemma sample_ranges_valid : ranges_valid [memory_range; cpu_range].
Proof.
  split; [|apply (bool_decide_unpack _); by vm_compute].
  apply Forall_cons; split; [split; [|by vm_compute]|apply Forall_cons; split; [split; [|by vm_compute]|constructor]].
  all: cbn [LimitRangeLimits memory_range cpu_range]; rewrite ?Forall_cons, Forall_nil; split_and!; try done; unfold item_valid; simpl; split_and!.
  all: first [apply empty_valid|apply singleton_valid; [done|by vm_compute]].
Qed.
Lemma sample_valid X (e : podE X) : valid_answer X e (answer_from (sample_objects [memory_range; cpu_range]) X e).
Proof.
  destruct e as [ns name|ns|name|name|]; cbn; [done|exact sample_ranges_valid| |done|].
  - case_bool_decide; [|done]. split; [done|]. split; [by vm_compute|]. apply singleton_valid; [done|by vm_compute].
  - constructor; [by right|constructor].
Qed.

#[local] Opaque sample_snapshot Resolve asked.
Lemma sample_exec : exec cluster (Resolve "shop" sample_template DefaultOptions) tt (Ok sample_snapshot) tt.
Proof.
  pose proof (asked_exec (sample_objects [memory_range; cpu_range]) (Resolve "shop" sample_template DefaultOptions) sample_valid) as He.
  fold sample_resolution in He. rewrite sample_resolves in He. exact He.
Qed.

Lemma resolved_snapshot_valid_witness : ValidateSnapshot (Some sample_snapshot) = Ok tt.
Proof. exact (proj1 (resolved_snapshot_valid "shop" sample_template DefaultOptions sample_snapshot sample_exec)). Defined.

Lemma resolve_again_witness :
  asked (sample_objects [cpu_range; memory_range]) (Resolve "shop" sample_template DefaultOptions) = Ok sample_snapshot.
Proof.
  apply (resolve_again (sample_objects [memory_range; cpu_range]) (sample_objects [cpu_range; memory_range]) "shop" sample_template DefaultOptions).
  - split; [reflexivity|]. split; [reflexivity|]. split; [reflexivity|]. split; [reflexivity|]. intros ns. simpl.
    split; [exact sample_ranges_valid|]. apply perm_swap.
  - exact sample_resolves.
Defined.

(** ** The Job of the template, built, stored and recognized *)

Definition sample_epoch : string := "v1-0123456789abcdef0123456789abcdef".
Definition sample_owner : Owner :=
  {| ClaimOwnerKind := "PtahMigration"; ClaimOwnerNamespace := "shop"; ClaimOwnerName := "orders"; ClaimOwnerUID := "orders-uid" |}.
Definition built_job : Job :=
  {| JobMeta := with_maps {["app" := "ptah"]} {[AnnotationExecutionBindingID := sample_epoch]}
                  (new_meta "shop" "orders-apply" ∅ [owner_reference sample_owner]);
     JobSpecOf := {| Parallelism := Some 1; Completions := Some 1; BackoffLimit := Some 0; ActiveDeadlineSeconds := Some 600;
                     PodReplacementPolicy := Some "Failed"; CompletionMode := None; Suspend := None; ManualSelector := None;
                     PodFailurePolicy := None; SuccessPolicy := None; BackoffLimitPerIndex := None; MaxFailedIndexes := None;
                     ManagedBy := None; TTLSecondsAfterFinished := None; Selector := None; Template := sample_template |} |}.
Definition stored_meta : ObjectMeta :=
  {| MetaName := "orders-apply"; GenerateName := EmptyString; MetaNamespace := "shop"; SelfLink := EmptyString;
     MetaUID := "job-uid"; ResourceVersion := "91"; MetaGeneration := 1; CreationTimestamp := Some 5;
     DeletionTimestamp := None; DeletionGracePeriodSeconds := None; Labels := {["app" := "ptah"]};
     Annotations := {[AnnotationExecutionBindingID := sample_epoch]};
     OwnerReferences := [owner_reference sample_owner]; Finalizers := []; ManagedFields := ["kube-controller-manager"] |}.
Definition stored_job : Job :=
  {| JobMeta := stored_meta;
     JobSpecOf := stored_spec (JobSpecOf built_job) {| JobMeta := stored_meta; JobSpecOf := JobSpecOf built_job |} (Some CleanupTTLSeconds) "runner" |}.
Definition sample_claim : Claim :=
  {| ClaimOwner := sample_owner; ClaimOperation := "Apply"; Mutating := true; ClaimID := "op-1"; InputFingerprint := EmptyString;
     Epoch := sample_epoch; Binding := None; Plan := None; ClaimJobName := "orders-apply"; ClaimJobUID := "job-uid";
     Snapshot := Some sample_snapshot; Built := Some built_job; Stored := true |}.

Lemma built_as_built : as_built built_job.
Proof.
  split; [done|]. split.
  - intros key Hk. unfold generated_keys in Hk. rewrite !elem_of_cons in Hk.
    destruct Hk as [->|[->|[->|[->|[]%not_elem_of_nil]]]]; by vm_compute.
  - repeat constructor.
Qed.
Lemma stored_as_stored : stored_as true built_job stored_job.
Proof.
  split; [done|]. split; [by vm_compute|]. exists (Some CleanupTTLSeconds), "runner".
  split; [done|]. split; [by right; left|]. by right.
Qed.
Lemma sample_claim_valid : validate sample_claim = Ok (ComponentMigrationOperation, LabelMigration).
Proof. vm_compute. reflexivity. Qed.
Lemma sample_digest : TemplateDigest sample_snapshot = DigestTemplate sample_template.
Proof. vm_compute. reflexivity. Qed.

Lemma claimed_job_recognized_witness : Match (Some stored_job) sample_claim = Ok tt.
Proof.
  apply (claimed_job_recognized sample_claim _ built_job stored_job sample_snapshot sample_claim_valid);
    [reflexivity|reflexivity|reflexivity|discriminate|exact built_as_built|exact sample_digest|reflexivity|reflexivity|
     reflexivity|vm_compute; reflexivity|intros Ht; vm_compute in Ht; discriminate Ht|exact stored_as_stored|right; reflexivity].
Defined.

Lemma sample_matches : Match (Some stored_job) sample_claim = Ok tt.
Proof. vm_compute. reflexivity. Qed.
Lemma matched_job_pinned_witness : own_identity stored_job /\ MetaUID (JobMeta stored_job) = ClaimJobUID sample_claim.
Proof.
  destruct (matched_job_pinned stored_job sample_claim stored_job sample_claim sample_matches sample_matches eq_refl)
    as ((_ & _ & Hu & _ & _ & _ & Ho) & _). split; [exact Ho|apply Hu; discriminate].
Defined.
