(* ===== verification/PodGuard.v ===== *)
(** * What the Pod webhook lets in (package [internal/podintent])

    Every answer the handler may be given is possible; the log says which it
    was given. A Pod it lets in is one of four: not written, released from
    the Job controller's tracking by that controller, none of the operator's
    business, or guarded: the Pod of the active operation, in the form its
    snapshot admits, under admission objects that are still the ones the
    snapshot recorded. *)
From Stdlib Require Import ZArith Lia.
From stdpp Require Import base list gmap strings.
From S2P Require Import Prelude GoStrings Json Fingerprint KubeMeta KubePod Effects JobConfig PodIntent PodIntentProofs PodResolve JobClaim PodWebhook PodSample.
Local Open Scope go_scope.
Local Open Scope Z_scope.

Section Guard.
Context `{Apimachinery} `{DeliveryLibraries}.

Abbreviation wlog := (list (entry webhookE)).

(** ** The four *)

(** The Pod of the active operation of the Job's owner. *)
Record guarded (req : Request) (pod : Pod) (job : Job) (subject : operationSubject) (log : wlog) : Prop := {
  g_one_shot : validateJobExecutionEnvelope job = true;
  g_sole_owner : length (OwnerReferences (PodMeta pod)) = 1%nat;
  g_creator : RequestOperation req = Create ->
    isKubernetesJobController (Username req) = true /\
    ValidateGeneratedPodName (PodMeta pod) (MetaName (JobMeta job)) = true /\ Finalizers (PodMeta pod) = [JobTrackingFinalizer];
  g_claim : exists view claim snapshot,
    seen (GetSubject (SubjectKind subject) (MetaNamespace (PodMeta pod)) (OwnerName (SubjectOwner subject))) (Ok view) log /\
    viewUID view = OwnerUID (SubjectOwner subject) /\ viewClaim view = Some claim /\ claimSnapshot claim = Some snapshot /\
    claimJobName claim = MetaName (JobMeta job) /\ (claimJobUID claim = EmptyString \/ claimJobUID claim = MetaUID (JobMeta job)) /\
    claimOperationID claim <> EmptyString /\
    get (Annotations (PodMeta pod)) AnnotationOperationID = claimOperationID claim /\
    get (Annotations (JobMeta job)) AnnotationOperationID = claimOperationID claim /\
    (exists current before after, runs (hoist Admission (Resolve (MetaNamespace (PodMeta pod)) (Template (JobSpecOf job)) (SnapshotOptions snapshot)))
                            before (Ok current) after /\ after `prefix_of` log /\ SnapshotDigest current = SnapshotDigest snapshot) /\
    ValidatePodSpec (PodSpecOf pod) (Template (JobSpecOf job)) (Some snapshot) = Ok tt;
}.

(** Why a request is let through. *)
Inductive let_in (req : Request) (log : wlog) : Prop :=
| NotWritten : RequestOperation req <> Create -> RequestOperation req <> Update -> let_in req log
| Released pod oldPod : RequestObject req = Some pod -> OldObject req = Some (Some oldPod) ->
    exactJobTrackingFinalizerRemoval oldPod pod (SubResource req) = true ->
    isKubernetesJobController (Username req) = true -> let_in req log
| Foreign pod : RequestObject req = Some pod -> managedPodIdentity (Labels (PodMeta pod)) = false -> References (PodSpecOf pod) = [] ->
    (uniqueControllerReference (OwnerReferences (PodMeta pod)) batchv1_group "Job" = None \/
     exists owner job, uniqueControllerReference (OwnerReferences (PodMeta pod)) batchv1_group "Job" = Some owner /\
       seen (GetJob (MetaNamespace (PodMeta pod)) (OwnerName owner)) (Ok job) log /\ MetaUID (JobMeta job) = OwnerUID owner /\
       operationSubjectFor (OwnerReferences (JobMeta job)) = None) -> let_in req log
| Guarded pod owner job subject : RequestObject req = Some pod ->
    uniqueControllerReference (OwnerReferences (PodMeta pod)) batchv1_group "Job" = Some owner ->
    seen (GetJob (MetaNamespace (PodMeta pod)) (OwnerName owner)) (Ok job) log -> MetaUID (JobMeta job) = OwnerUID owner ->
    operationSubjectFor (OwnerReferences (JobMeta job)) = Some subject -> guarded req pod job subject log -> let_in req log.

(** A denied or failed request is not let in. *)
Definition lets (r : response) : bool := match r with Allowed _ => true | _ => false end.

Lemma readClaim_ok ns subject log claim log' :
  runs (readClaim ns subject) log (inr claim) log' ->
  exists view, seen (GetSubject (SubjectKind subject) ns (OwnerName (SubjectOwner subject))) (Ok view) log' /\
    viewUID view = OwnerUID (SubjectOwner subject) /\ viewClaim view = Some claim.
Proof.
  unfold readClaim. intros (x & Hx)%runs_call. pose proof (seen_runs _ _ _ _ _ _ Hx) as Hs.
  destruct x as [view|]; [|by destruct Hx]. destruct (_ || _) eqn:E in Hx; [by destruct Hx|].
  apply orb_false_iff in E as [_ E%negb_false_iff%bool_decide_eq_true]. exists view. split; [done|]. split; [done|].
  destruct (viewClaim view); [|by destruct Hx]. destruct Hx as [Hx _]. by injection Hx as <-.
Qed.

Lemma claim_refusal_none create pod oldPod job subject claim :
  claim_refusal create pod oldPod job subject claim = None ->
  exists snapshot, claimSnapshot claim = Some snapshot /\ claimJobName claim = MetaName (JobMeta job) /\
    (claimJobUID claim = EmptyString \/ claimJobUID claim = MetaUID (JobMeta job)) /\ claimOperationID claim <> EmptyString /\
    get (Annotations (PodMeta pod)) AnnotationOperationID = claimOperationID claim /\
    get (Annotations (JobMeta job)) AnnotationOperationID = claimOperationID claim.
Proof.
  unfold claim_refusal, empty. destruct (negb _); [done|]. destruct (negb _); [by destruct create|].
  destruct (claimSnapshot claim) as [snapshot|]; [|done].
  destruct (_ || _) eqn:E1; [done|]. destruct (_ || _) eqn:E2 in |- *; [done|]. intros _. exists snapshot.
  rewrite orb_false_iff, andb_false_iff, !negb_false_iff, !bool_decide_eq_true in E1.
  rewrite !orb_false_iff, !negb_false_iff, !bool_decide_eq_true, bool_decide_eq_false in E2. naive_solver.
Qed.

Lemma judge_managed_sound req pod oldPod owner job subject log r log' :
  runs (judge_managed req pod oldPod owner job subject) log r log' -> lets r = true -> guarded req pod job subject log'.
Proof.
  unfold judge_managed. intros H1 Hr.
  apply runs_refuse in H1 as [[_ ->]|[Henv%negb_false_iff H1]]; [done|].
  apply runs_refuse in H1 as [[_ ->]|[Hone%negb_false_iff%Nat.eqb_eq H1]]; [done|].
  apply runs_refuse in H1 as [[_ ->]|[_ H1]]; [done|].
  apply runs_refuse in H1 as [[_ ->]|[Hctl H1]]; [done|]. apply runs_refuse in H1 as [[_ ->]|[Hname H1]]; [done|].
  apply runs_refuse in H1 as [[_ ->]|[Hfin H1]]; [done|]. apply runs_refuse in H1 as [[_ ->]|[_ H1]]; [done|].
  apply runs_refuse in H1 as [[_ ->]|[_ H1]]; [done|].
  apply runs_bind in H1 as ([refusal|claim] & log1 & Hclaim & H1).
  { apply runs_ret in H1 as [-> ->]. revert Hclaim. unfold readClaim. intros (x & Hx)%runs_call.
    destruct x as [view|nf]; [destruct (_ || _) in Hx; [|destruct (viewClaim view)]|];
      apply runs_ret in Hx as [Hx _]; try done; injection Hx as ->; [done..|]. by destruct nf. }
  destruct (readClaim_ok _ _ _ _ _ Hclaim) as (view & Hseen & Huid & Hview).
  destruct (claim_refusal _ _ _ _ _ _) eqn:Er; [by apply runs_ret in H1 as [-> _]|].
  destruct (claim_refusal_none _ _ _ _ _ _ Er) as (snapshot & Hsnap & Hjn & Hju & Hid & Hpid & Hjid). rewrite Hsnap in H1.
  apply runs_bind in H1 as (current & log2 & Hres & H1).
  destruct current as [current|e]; [|apply runs_ret in H1 as [-> _]; by destruct e].
  apply runs_refuse in H1 as [[_ ->]|[Hdig%negb_false_iff%bool_decide_eq_true H1]]; [done|].
  apply runs_refuse in H1 as [[_ ->]|[Hspec%negb_false_iff H1]]; [done|].
  pose proof (runs_extends _ _ _ _ Hres) as Hp1. pose proof (runs_extends _ _ _ _ H1) as Hp2.
  constructor; [done|done| |].
  - intros Hc. rewrite Hc, bool_decide_eq_true_2 in Hctl, Hname, Hfin by done. simpl in Hctl, Hname, Hfin.
    rewrite negb_false_iff in Hctl, Hname, Hfin. apply bool_decide_eq_true in Hfin. done.
  - exists view, claim, snapshot. split_and!; try done.
    + destruct (transitivity Hp1 Hp2) as [more ->]. by apply seen_grows.
    + exists current, log1, log2. done.
    + by destruct (ValidatePodSpec _ _ _) as [[]|].
Qed.

Lemma judge_sound req pod oldPod log r log' :
  RequestObject req = Some pod -> runs (judge req pod oldPod) log r log' -> lets r = true -> let_in req log'.
Proof.
  intros Hreq H1 Hr. unfold judge in H1.
  assert (credential_seen pod oldPod = false -> References (PodSpecOf pod) = []) as Hcred.
  { unfold credential_seen. rewrite orb_false_iff, negb_false_iff, Nat.eqb_eq. intros [Hl _]. by apply nil_length_inv. }
  assert (managed_seen pod oldPod = false -> managedPodIdentity (Labels (PodMeta pod)) = false) as Hman.
  { unfold managed_seen. rewrite orb_false_iff. tauto. }
  destruct (uniqueControllerReference (OwnerReferences (PodMeta pod)) batchv1_group "Job") as [owner|] eqn:Ho.
  - apply runs_call in H1 as (x & H1). pose proof (seen_runs _ _ _ _ _ _ H1) as Hs.
    destruct x as [job|nf]; [|apply runs_ret in H1 as [-> _]; by destruct nf].
    apply runs_refuse in H1 as [[_ ->]|[Hu H1]]; [done|]. apply orb_false_iff in Hu as [_ Hu%negb_false_iff%bool_decide_eq_true].
    destruct (operationSubjectFor _) as [subject|] eqn:Esub.
    + exact (Guarded req log' pod owner job subject Hreq Ho Hs Hu Esub (judge_managed_sound _ _ _ _ _ _ _ _ _ H1 Hr)).
    + apply runs_refuse in H1 as [[_ ->]|[Hc H1]]; [done|]. apply runs_refuse in H1 as [[_ ->]|[Hm H1]]; [done|].
      apply orb_false_iff in Hm as [Hm _]. apply (Foreign req log' pod Hreq (Hman Hm) (Hcred Hc)). right. exists owner, job. auto.
  - apply runs_refuse in H1 as [[_ ->]|[Hc H1]]; [done|]. apply runs_refuse in H1 as [[_ ->]|[Hm H1]]; [done|].
    exact (Foreign req log' pod Hreq (Hman Hm) (Hcred Hc) (or_introl Ho)).
Qed.

(** C6: whatever the API server answers, a request the Pod webhook lets in is
    one of four: it writes no Pod; or the Job controller removes only its
    tracking finalizer of a Pod that is done; or the Pod carries neither the
    operator's labels nor a reference to a result credential, and no Job of
    the operator controls it; or it is the Pod of the active operation its
    Job's owner claims, created by the Job controller under a generated name
    for a one-shot Job, with the claimed operation and Job identity, while
    the admission objects still resolve to the digest the snapshot recorded,
    and its spec is one the snapshot admits. *)
Theorem admitted_pod_guarded (req : Request) log r log' :
  exec any_answer (Handle req) log r log' -> lets r = true -> let_in req log'.
Proof.
  intros H1 Hr. unfold Handle in H1.
  apply runs_refuse in H1 as [[Ho _]|[Hop H1]].
  { apply andb_true_iff in Ho as [?%negb_true_iff%bool_decide_eq_false ?%negb_true_iff%bool_decide_eq_false]. by constructor. }
  apply runs_refuse in H1 as [[_ ->]|[_ H1]]; [done|]. apply runs_refuse in H1 as [[_ ->]|[_ H1]]; [done|].
  destruct (RequestObject req) as [pod|] eqn:Hobj; [|apply runs_ret in H1 as [-> _]; done].
  apply runs_refuse in H1 as [[_ ->]|[_ H1]]; [done|].
  destruct (bool_decide (RequestOperation req = Create)); [by eapply judge_sound|].
  destruct (OldObject req) as [[oldPod|]|] eqn:Hold; try (apply runs_ret in H1 as [-> _]; done).
  apply runs_refuse in H1 as [[_ ->]|[_ H1]]; [done|].
  destruct (exactJobTrackingFinalizerRemoval oldPod pod (SubResource req)) eqn:Hfin; [|by eapply judge_sound].
  apply runs_refuse in H1 as [[_ ->]|[Hctl%negb_false_iff H1]]; [done|]. exact (Released req log' pod oldPod Hobj Hold Hfin Hctl).
Qed.
End Guard.

(** ** The Pod of the sample Job *)

Definition wh_labels : gmap string string :=
  list_to_map [(LabelManagedBy, "ptah-operator"); (LabelComponent, ComponentMigrationOperation); (LabelMigration, "orders");
               (LabelOperation, "apply"); (LabelOperationID, OperationIDLabelValue "op-1");
               (ControllerUidLabel, "job-uid"); (JobNameLabel, "orders-apply"); ("controller-uid", "job-uid"); ("job-name", "orders-apply")].
Definition wh_template (digest : string) : PodTemplateSpec :=
  {| TemplateMeta := with_maps wh_labels
       (list_to_map [(AnnotationOperationID, "op-1"); (AnnotationAdmissionSnapshotDigest, digest)]) (new_meta EmptyString EmptyString ∅ []);
     TemplateSpec := sample_spec |}.
Definition wh_snapshot : PodAdmissionSnapshot :=
  match asked (sample_objects [memory_range; cpu_range]) (Resolve "shop" (wh_template EmptyString) DefaultOptions) with
  | Ok s => s
  | Err _ => no_snapshot
  end.
Definition wh_job : Job :=
  let template := wh_template (SnapshotDigest wh_snapshot) in
  {| JobMeta := with_maps wh_labels (Annotations (TemplateMeta template)) stored_meta;
     JobSpecOf := with_template (Some {| MatchLabels := {[ControllerUidLabel := "job-uid"]}; MatchExpressions := [] |}) None template
                    (JobSpecOf built_job) |}.
Definition wh_pod : Pod :=
  {| PodMeta :=
       {| MetaName := "orders-apply-x7k2q"; GenerateName := "orders-apply-"; MetaNamespace := "shop"; SelfLink := EmptyString;
          MetaUID := EmptyString; ResourceVersion := EmptyString; MetaGeneration := 0; CreationTimestamp := None; DeletionTimestamp := None;
          DeletionGracePeriodSeconds := None; Labels := wh_labels;
          Annotations := <[limitRangerAnnotation := "LimitRanger plugin set: cpu request"]> (Annotations (JobMeta wh_job));
          OwnerReferences := [{| OwnerAPIVersion := batchv1_group; OwnerKind := "Job"; OwnerName := "orders-apply"; OwnerUID := "job-uid";
                                 Controller := Some true; BlockOwnerDeletion := Some true |}];
          Finalizers := [JobTrackingFinalizer]; ManagedFields := [] |};
     PodSpecOf := with_node EmptyString sample_pod; PodPhase := EmptyString; PodStatusRest := EmptyString |}.
Definition wh_request : Request :=
  {| RequestOperation := Create; SubResource := EmptyString; RequestNamespace := "shop"; RequestName := EmptyString;
     Username := kubernetesJobControllerUsername; RequestObject := Some wh_pod; OldObject := None |}.
Definition wh_claim : operationClaim :=
  {| claimSubjectName := "orders"; claimOperationID := "op-1"; claimOperationType := "Apply"; claimJobName := "orders-apply";
     claimJobUID := EmptyString; claimSnapshot := Some wh_snapshot |}.
Definition wh_answer (X : Type) (e : webhookE X) : X :=
  match e in webhookE X return X with
  | GetJob _ _ => Ok wh_job
  | GetSubject _ _ _ => Ok {| viewUID := "orders-uid"; viewClaim := Some wh_claim |}
  | GetResultRecord _ _ => Err true
  | Admission X e => answer_from (sample_objects [cpu_range; memory_range]) X e
  end.
Definition wh_run : response * list (entry webhookE) := run (recording wh_answer) (Handle wh_request) [].

Lemma wh_lets : lets wh_run.1 = true.
Proof. vm_compute. reflexivity. Qed.
Lemma wh_runs : exec any_answer (Handle wh_request) [] wh_run.1 wh_run.2.
Proof. exact (run_recording wh_answer (Handle wh_request) []). Qed.

Lemma admitted_pod_guarded_witness : let_in wh_request wh_run.2.
Proof. exact (admitted_pod_guarded wh_request [] wh_run.1 wh_run.2 wh_runs wh_lets). Defined.
