(* ===== verification/ResultAuthority.v ===== *)
(** * Authority over result delivery (package [internal/resultauthority])

    Whether a runner may still publish the result of its operation: the live
    Job and its one Pod, then the claim of the owning resource (the active one,
    or a schema's retired Apply of unknown outcome), which both have to match,
    and last, on every path, the retirement fence. It
    grants permission to persist evidence and never to run SQL. Also the
    claims [internal/jobclaim] builds from a status, and the authentication
    of a Pod's token. *)
From Stdlib Require Import ZArith Lia Ascii.
From stdpp Require Import base list gmap strings.
From S2P Require Import TargetLock GoStrings Json Fingerprint KubeMeta KubePod Effects JobConfig PodIntent JobClaim PodWebhook ResultStore ResultRetention Prelude.
From S2P Require MutationLifecycle.
Local Open Scope go_scope.
Local Open Scope Z_scope.

(** ** Tokens (internal/resultdelivery) *)

Definition token_char (a : ascii) : bool := is_lower a || is_upper a || is_digit a || occurs a "-_.".
Definition ValidToken (token : string) : bool := negb (len token =? 0) && (len token <=? 8192) && str_all token_char token.

(** ** What the reader returns *)

(** [ActiveOperationStatus] and [MigrationOperationStatus], the fields read
    here. *)
Record operation_status : Type := {
  StatusType : string;
  StatusID : string;
  StatusFingerprint : string;
  StatusBindingID : string;
  StatusJobName : string;
  StatusJobUID : string;
  StatusSnapshot : option PodAdmissionSnapshot;
  StatusEngine : option string;
  StatusDispatched : bool;
  StatusContinuityLost : bool;
}.
Record PendingObservation : Type := {
  PendingOutcome : string;
  ApplyOperationID : string;
  ApplyJobName : string;
  ApplyJobUID : string;
  PendingSnapshot : option PodAdmissionSnapshot;
  ApplyPodUIDs : list string;
  ApplyPodCount : Z;
  ApplyGeneration : Z;
  PendingPlan : CurrentPlan;
  PendingEngine : string;
}.
(** The retired epoch, and the Job it left: its operation, name and UID. *)
Record BindingRetirement : Type := { RetiredEpoch : string; RetiredJob : option (string * string * string) }.
Record PtahSchemaView : Type := {
  SchemaMeta : ObjectMeta;
  SchemaBinding : option ExecutionBinding;
  SchemaActive : option operation_status;
  SchemaPlan : option CurrentPlan;
  SchemaPending : option PendingObservation;
  SchemaRetirement : option BindingRetirement;
}.
Record PtahMigrationView : Type := {
  MigrationMeta : ObjectMeta;
  MigrationBinding : option ExecutionBinding;
  MigrationActive : option operation_status;
}.

(** ** The claims of a status (internal/jobclaim) *)

Definition SchemaOwner (schema : PtahSchemaView) : Owner :=
  {| ClaimOwnerKind := "PtahSchema"; ClaimOwnerNamespace := MetaNamespace (SchemaMeta schema);
     ClaimOwnerName := MetaName (SchemaMeta schema); ClaimOwnerUID := MetaUID (SchemaMeta schema) |}.
Definition MigrationOwner (migration : PtahMigrationView) : Owner :=
  {| ClaimOwnerKind := "PtahMigration"; ClaimOwnerNamespace := MetaNamespace (MigrationMeta migration);
     ClaimOwnerName := MetaName (MigrationMeta migration); ClaimOwnerUID := MetaUID (MigrationMeta migration) |}.

Definition zero_plan : CurrentPlan :=
  {| PlanName := EmptyString; PlanUID := EmptyString; PlanFingerprint := EmptyString; PlanContentDigest := EmptyString;
     PlanBindingID := EmptyString; PlanPtahVersion := EmptyString; PlanStateVersion := 0 |}.

(** The claim of an operation of either kind of resource. *)
Definition operation_claim (owner : Owner) (mutating : bool) (plan : option CurrentPlan) (binding : option ExecutionBinding)
    (stored : bool) (op : operation_status) : Claim :=
  {| ClaimOwner := owner; ClaimOperation := StatusType op; Mutating := mutating; ClaimID := StatusID op;
     JobClaim.InputFingerprint := StatusFingerprint op; Epoch := StatusBindingID op; JobClaim.Binding := binding; Plan := plan;
     ClaimJobName := StatusJobName op; ClaimJobUID := StatusJobUID op; Snapshot := StatusSnapshot op; Built := None; Stored := stored |}.
Definition SchemaOperation (schema : PtahSchemaView) (op : operation_status) : Claim :=
  operation_claim (SchemaOwner schema) (MutationLifecycle.Mutating (MutationLifecycle.SchemaOperation (StatusType op)))
    (if bool_decide (StatusType op = "Apply") then Some (default zero_plan (SchemaPlan schema)) else None) None false op.
Definition MigrationOperation (migration : PtahMigrationView) (op : operation_status) : Claim :=
  operation_claim (MigrationOwner migration) (MutationLifecycle.Mutating (MutationLifecycle.MigrationOperation (StatusType op))) None None false op.
Definition PendingApply (schema : PtahSchemaView) (pending : PendingObservation) : Claim :=
  {| ClaimOwner := SchemaOwner schema; ClaimOperation := "Apply";
     Mutating := MutationLifecycle.Mutating (MutationLifecycle.SchemaOperation "Apply"); ClaimID := ApplyOperationID pending;
     JobClaim.InputFingerprint := EmptyString; Epoch := PlanBindingID (PendingPlan pending); JobClaim.Binding := None;
     Plan := Some (PendingPlan pending); ClaimJobName := ApplyJobName pending; ClaimJobUID := ApplyJobUID pending;
     Snapshot := PendingSnapshot pending; Built := None; Stored := false |}.
Definition current_claim (binding : option ExecutionBinding) (fingerprint : string) (c : Claim) : Claim :=
  {| ClaimOwner := ClaimOwner c; ClaimOperation := ClaimOperation c; Mutating := Mutating c; ClaimID := ClaimID c;
     JobClaim.InputFingerprint := fingerprint; Epoch := Epoch c; JobClaim.Binding := binding; Plan := Plan c;
     ClaimJobName := ClaimJobName c; ClaimJobUID := ClaimJobUID c; Snapshot := Snapshot c; Built := Built c; Stored := true |}.

Section Authority.
Context `{Apimachinery} `{DeliveryLibraries}.

Inductive auth_error : Type :=
| ErrAuthority
| ErrNotReady
| AuthRead (e : api_error)
| AuthFence (e : ev_error)
| ContextDone
| Unavailable.

Inductive authE : Type -> Type :=
| ReadAuthJob (namespace name : string) : authE (result api_error Job)
(** The Pods with this controller UID, at most two, and the continue token. *)
| ListAuthPods (namespace uid : string) : authE (result api_error (list Pod * string))
| ReadAuthSchema (namespace name : string) : authE (result api_error PtahSchemaView)
| ReadAuthMigration (namespace name : string) : authE (result api_error PtahMigrationView)
| ContextFailed : authE bool
| Fence (X : Type) (e : evidenceE X) : authE X.

Abbreviation aprogram A := (prog authE (result auth_error A)).

Definition readError (e : api_error) : auth_error := match e with NotFound => ErrAuthority | e => AuthRead e end.

Definition checkRetirement (i : Identity) : aprogram unit :=
  r <-- hoist Fence (CheckOpen (IdentityBinding i));
  Ret match r with
      | Ok _ => Ok tt
      | Err ErrRetired => Err ErrAuthority
      | Err e => Err (AuthFence e)
      end.

(** The retired Apply of a schema whose binding was rotated away. *)
Definition retiringSchemaApply (schema : PtahSchemaView) (epoch : string) (i : Identity) : result auth_error Claim :=
  let b := IdentityBinding i in
  match SchemaPending schema, SchemaRetirement schema with
  | Some pending, Some retired =>
      match RetiredJob retired with
      | None => Err ErrAuthority
      | Some (operation, name, uid) =>
          guard bool_decide (Operation b = "apply") && (MetaGeneration (SchemaMeta schema) =? Generation b) &&
                (ApplyGeneration pending =? Generation b) && bool_decide (PendingOutcome pending = "OutcomeUnknown") &&
                bool_decide (ApplyOperationID pending = OperationID b) && bool_decide (ApplyJobName pending = JobName b) &&
                bool_decide (ApplyJobUID pending = JobUID b) && (ApplyPodCount pending =? 1) &&
                bool_decide (ApplyPodUIDs pending = [PodUID b]) && bool_decide (to_lower (PendingEngine pending) = Engine i) &&
                bool_decide (PlanBindingID (PendingPlan pending) = ExecutionBindingID b) &&
                bool_decide (RetiredEpoch retired = ExecutionBindingID b) && negb (empty epoch) &&
                negb (bool_decide (epoch = RetiredEpoch retired)) && bool_decide (operation = "Apply") &&
                bool_decide (name = JobName b) && bool_decide (uid = JobUID b) else ErrAuthority;
          Ok (current_claim None (InputFingerprint b) (PendingApply schema pending))
      end
  | _, _ => Err ErrAuthority
  end.

(** What the certificate says of the claim, of either kind. *)
Definition claim_current (i : Identity) (generation : Z) (binding : ExecutionBinding) (op : operation_status) (claim : Claim)
    : result auth_error Claim :=
  let b := IdentityBinding i in
  let engine := match StatusEngine op with Some e => to_lower e | None => EmptyString end in
  guard (generation =? Generation b) && bool_decide (engine = Engine i) && bool_decide (ClaimID claim = OperationID b) &&
        bool_decide (JobClaim.InputFingerprint claim = InputFingerprint b) && bool_decide (Epoch claim = ExecutionBindingID b) &&
        bool_decide (BindingEpoch binding = ExecutionBindingID b) && bool_decide (ClaimJobName claim = JobName b) &&
        negb (StatusContinuityLost op) else ErrAuthority;
  guard negb (empty (ClaimJobUID claim)) else ErrNotReady;
  guard bool_decide (ClaimJobUID claim = JobUID b) && negb (Mutating claim && negb (StatusDispatched op)) else ErrAuthority;
  Ok claim.

Definition claim (i : Identity) : aprogram Claim :=
  let b := IdentityBinding i in
  if bool_decide (Kind b = "PtahSchema") then
    r <-- call (ReadAuthSchema (Namespace b) (Name_ b));
    Ret match r with
        | Err e => Err (readError e)
        | Ok schema =>
            match SchemaBinding schema with
            | None => Err ErrAuthority
            | Some binding =>
                guard bool_decide (MetaUID (SchemaMeta schema) = UID b) else ErrAuthority;
                match SchemaActive schema with
                | None => retiringSchemaApply schema (BindingEpoch binding) i
                | Some op =>
                    guard bool_decide (MutationLifecycle.Runner (MutationLifecycle.SchemaOperation (StatusType op)) = Operation b) else ErrAuthority;
                    claim_current i (MetaGeneration (SchemaMeta schema)) binding op
                      (current_claim (Some binding) (StatusFingerprint op) (SchemaOperation schema op))
                end
            end
        end
  else if bool_decide (Kind b = "PtahMigration") then
    r <-- call (ReadAuthMigration (Namespace b) (Name_ b));
    Ret match r with
        | Err e => Err (readError e)
        | Ok migration =>
            match MigrationActive migration, MigrationBinding migration with
            | Some op, Some binding =>
                guard bool_decide (MetaUID (MigrationMeta migration) = UID b) else ErrAuthority;
                guard bool_decide (MutationLifecycle.Runner (MutationLifecycle.MigrationOperation (StatusType op)) = Operation b) else ErrAuthority;
                claim_current i (MetaGeneration (MigrationMeta migration)) binding op
                  (current_claim (Some binding) (StatusFingerprint op) (MigrationOperation migration op))
            | _, _ => Err ErrAuthority
            end
        end
  else Ret (Err ErrAuthority).

(** The checks in front of the fence. *)
Definition workload_authority (i : Identity) : aprogram unit :=
  let b := IdentityBinding i in
  r <-- call (ReadAuthJob (Namespace b) (JobName b));
  match r with
  | Err e => Ret (Err (readError e))
  | Ok job =>
      require bool_decide (MetaUID (JobMeta job) = JobUID b) && ValidateActiveJob job else ErrAuthority;
      require match Read job (UID b) (OperationID b) with
              | Some projection => ConfigGeneration projection =? Generation b
              | None => false
              end else ErrAuthority;
      l <-- call (ListAuthPods (Namespace b) (MetaUID (JobMeta job)));
      match l with
      | Err e => Ret (Err (readError e))
      | Ok ([pod], continue) =>
          require empty continue && bool_decide (MetaName (PodMeta pod) = PodName b) && bool_decide (MetaUID (PodMeta pod) = PodUID b) else ErrAuthority;
          c <-- claim i;
          match c with
          | Err e => Ret (Err e)
          | Ok claim =>
              require is_ok (Match (Some job) claim) else ErrAuthority;
              require bool_decide (MetaNamespace (PodMeta pod) = Namespace b) && ValidateStoredPod pod job (Snapshot claim) else ErrAuthority;
              Ret (Ok tt)
          end
      | Ok _ => Ret (Err ErrAuthority)
      end
  end.

(** [Authorizer.Check]: the deferred fence replaces the verdict of every path
    that passed the identity. *)
Definition CheckAuthority (i : Identity) : aprogram unit :=
  if negb (valid i) then Ret (Err ErrAuthority) else
  verdict <-- workload_authority i;
  fence <-- checkRetirement i;
  match fence, verdict with
  | Err e, _ => Ret (Err e)
  | Ok _, Err e => Ret (Err e)
  | Ok _, Ok _ => failed <-- call ContextFailed; Ret (if failed : bool then Err ContextDone else Ok tt)
  end.

(** ** A Pod's token (token.go) *)

(** [TokenReviewStatus]: its error, and what was authenticated. *)
Record TokenReview : Type := {
  ReviewError : string;
  Authenticated : bool;
  Audiences : list string;
  UserUID : string;
  UserName : string;
  Extra : gmap string (list string);
}.
Inductive tokenE : Type -> Type :=
| CreateReview (token : string) (audiences : list string) : tokenE (result unit TokenReview)
| ReadTokenPod (namespace name : string) : tokenE (result api_error Pod)
| TokenContextFailed : tokenE bool.

(** [strings.Split] at a character. *)
Fixpoint split_at (c : ascii) (s : string) : list string :=
  match s with
  | EmptyString => [EmptyString]
  | String a s' =>
      if bool_decide (a = c) then EmptyString :: split_at c s' else
      match split_at c s' with
      | field :: rest => String a field :: rest
      | [] => [String a EmptyString]
      end
  end.

(** [system:serviceaccount:<namespace>:<name>], its name. *)
Definition account_of (username namespace : string) : option string :=
  match split_at ":"%char username with
  | [system; kind; ns; name] =>
      if bool_decide (system = "system") && bool_decide (kind = "serviceaccount") && bool_decide (ns = namespace) && negb (empty name)
      then Some name else None
  | _ => None
  end.
Definition PodNameKey : string := "authentication.kubernetes.io/pod-name".
Definition PodUIDKey : string := "authentication.kubernetes.io/pod-uid".
(** Exactly this one value, and not the empty one. *)
Definition extra_is (extra : gmap string (list string)) (key value : string) : bool :=
  bool_decide (default [] (extra !! key) = [value]) && negb (empty value).

(** The service account the review authenticated for the Pod. *)
Definition reviewed_account (review : TokenReview) (i : Identity) : result auth_error string :=
  let b := IdentityBinding i in
  guard Authenticated review && bool_decide (Audiences review = [TokenAudience]) && negb (empty (UserUID review)) else ErrAuthority;
  match account_of (UserName review) (Namespace b) with
  | None => Err ErrAuthority
  | Some account =>
      guard extra_is (Extra review) PodNameKey (PodName b) && extra_is (Extra review) PodUIDKey (PodUID b) else ErrAuthority;
      Ok account
  end.

Definition Verify (token : string) (i : Identity) : prog tokenE (result auth_error unit) :=
  let b := IdentityBinding i in
  require ValidToken token else ErrAuthority;
  early <-- call TokenContextFailed;
  require negb early else ContextDone;
  r <-- call (CreateReview token [TokenAudience]);
  match r with
  | Err _ => Ret (Err Unavailable)
  | Ok review =>
      late <-- call TokenContextFailed;
      require negb late else ContextDone;
      require empty (ReviewError review) else Unavailable;
      match reviewed_account review i with
      | Err e => Ret (Err e)
      | Ok account =>
          p <-- call (ReadTokenPod (Namespace b) (PodName b));
          match p with
          | Err NotFound => Ret (Err ErrAuthority)
          | Err _ => Ret (Err Unavailable)
          | Ok pod =>
              require bool_decide (MetaUID (PodMeta pod) = PodUID b) && bool_decide (MetaNamespace (PodMeta pod) = Namespace b) &&
                      bool_decide (ServiceAccountName (PodSpecOf pod) = account) else ErrAuthority;
              failed <-- call TokenContextFailed;
              Ret (if failed : bool then Err ContextDone else Ok tt)
          end
      end
  end.
End Authority.
