(* ===== verification/AuthoritySafety.v ===== *)
(** * What result authority rests on (package [internal/resultauthority])

    A runner that is granted delivery was seen as the exact Pod of the exact
    Job of an attempt its owner still answers for, in this order of reads, and the
    retirement fence was the last thing read; a retired attempt is refused
    whatever else was read. A token that verifies is one the API server
    authenticated for that Pod. *)
From Stdlib Require Import ZArith Lia Ascii.
From stdpp Require Import base list gmap strings.
From S2P Require Import TargetLock GoStrings Json Fingerprint KubeMeta KubePod Effects JobConfig PodIntent PodIntentProofs JobClaim JobClaimProofs PodWebhook.
From S2P Require Import ResultStore ResultRetention ResultAuthority Prelude.
Local Open Scope go_scope.
Local Open Scope Z_scope.

Section Safety.
Context `{Apimachinery} `{DeliveryLibraries}.

(** An operation that is still the active one: the binding in force is the
    attempt's, a mutating operation was marked as dispatched, and the Lease
    was not lost. *)
Record in_force (i : Identity) (binding : ExecutionBinding) (op : operation_status) (c : Claim) : Prop := {
  if_epoch : BindingEpoch binding = ExecutionBindingID (IdentityBinding i);
  if_inputs : StatusFingerprint op = InputFingerprint (IdentityBinding i);
  if_dispatched : Mutating c = true -> StatusDispatched op = true;
  if_continuous : StatusContinuityLost op = false;
}.
(** An Apply of a schema that a change of the binding retired: it is no longer
    the active operation, another epoch is in force, its outcome is unknown,
    and the status still names its Job, its one Pod and its epoch. *)
Record retired_apply (i : Identity) (schema : PtahSchemaView) (binding : ExecutionBinding) (pending : PendingObservation)
    (retired : BindingRetirement) : Prop := {
  ra_idle : SchemaActive schema = None;
  ra_recorded : SchemaPending schema = Some pending /\ SchemaRetirement schema = Some retired;
  ra_epoch : BindingEpoch binding <> EmptyString /\ BindingEpoch binding <> RetiredEpoch retired /\
             RetiredEpoch retired = ExecutionBindingID (IdentityBinding i);
  ra_outcome : Operation (IdentityBinding i) = "apply" /\ PendingOutcome pending = "OutcomeUnknown" /\
               ApplyGeneration pending = Generation (IdentityBinding i);
  ra_job : RetiredJob retired = Some ("Apply", JobName (IdentityBinding i), JobUID (IdentityBinding i));
  ra_pod : ApplyPodCount pending = 1 /\ ApplyPodUIDs pending = [PodUID (IdentityBinding i)];
}.

(** What entitles an attempt to deliver: the resource, read last, with the
    attempt's UID and generation, and the claim it makes. *)
Inductive entitles (i : Identity) : entry authE -> Claim -> Prop :=
| active_schema schema binding op :
    Kind (IdentityBinding i) = "PtahSchema" -> MetaUID (SchemaMeta schema) = UID (IdentityBinding i) ->
    MetaGeneration (SchemaMeta schema) = Generation (IdentityBinding i) ->
    SchemaBinding schema = Some binding -> SchemaActive schema = Some op ->
    in_force i binding op (SchemaOperation schema op) ->
    entitles i (answered (ReadAuthSchema (Namespace (IdentityBinding i)) (Name_ (IdentityBinding i))) (Ok schema))
      (current_claim (Some binding) (StatusFingerprint op) (SchemaOperation schema op))
| active_migration migration binding op :
    Kind (IdentityBinding i) = "PtahMigration" -> MetaUID (MigrationMeta migration) = UID (IdentityBinding i) ->
    MetaGeneration (MigrationMeta migration) = Generation (IdentityBinding i) ->
    MigrationBinding migration = Some binding -> MigrationActive migration = Some op ->
    in_force i binding op (MigrationOperation migration op) ->
    entitles i (answered (ReadAuthMigration (Namespace (IdentityBinding i)) (Name_ (IdentityBinding i))) (Ok migration))
      (current_claim (Some binding) (StatusFingerprint op) (MigrationOperation migration op))
| retired_schema_apply schema binding pending retired :
    Kind (IdentityBinding i) = "PtahSchema" -> MetaUID (SchemaMeta schema) = UID (IdentityBinding i) ->
    MetaGeneration (SchemaMeta schema) = Generation (IdentityBinding i) ->
    SchemaBinding schema = Some binding -> retired_apply i schema binding pending retired ->
    entitles i (answered (ReadAuthSchema (Namespace (IdentityBinding i)) (Name_ (IdentityBinding i))) (Ok schema))
      (current_claim None (InputFingerprint (IdentityBinding i)) (PendingApply schema pending)).

(** The claim is the attempt the identity names. *)
Definition names_attempt (i : Identity) (c : Claim) : Prop :=
  let b := IdentityBinding i in
  ClaimID c = OperationID b /\ JobClaim.InputFingerprint c = InputFingerprint b /\ Epoch c = ExecutionBindingID b /\
  ClaimJobName c = JobName b /\ ClaimJobUID c = JobUID b.

Lemma claim_current_ok i generation binding op c c' :
  claim_current i generation binding op c = Ok c' ->
  c' = c /\ generation = Generation (IdentityBinding i) /\ BindingEpoch binding = ExecutionBindingID (IdentityBinding i) /\
  names_attempt i c /\ (Mutating c = true -> StatusDispatched op = true) /\ StatusContinuityLost op = false.
Proof.
  unfold claim_current, names_attempt. destruct (_ && _) eqn:E1; [|done]. destruct (negb (empty _)); [|done].
  destruct (bool_decide (ClaimJobUID c = JobUID _) && _) eqn:E2; [|done]. intros [= <-].
  rewrite !andb_true_iff, !bool_decide_eq_true, negb_true_iff, Z.eqb_eq in E1. rewrite andb_true_iff, bool_decide_eq_true, negb_true_iff, andb_false_iff, negb_false_iff in E2.
  split_and!; try tauto. intros Hm. destruct E2 as [_ [Hf|]]; [congruence|done].
Qed.

Lemma retiring_ok schema epoch i c :
  retiringSchemaApply schema epoch i = Ok c ->
  SchemaActive schema = None -> MetaGeneration (SchemaMeta schema) = Generation (IdentityBinding i) /\ names_attempt i c /\
    exists pending retired, c = current_claim None (InputFingerprint (IdentityBinding i)) (PendingApply schema pending) /\
      (forall binding, BindingEpoch binding = epoch -> retired_apply i schema binding pending retired).
Proof.
  unfold retiringSchemaApply, names_attempt, empty. destruct (SchemaPending schema) as [pending|] eqn:Ep; [|done].
  destruct (SchemaRetirement schema) as [retired|] eqn:Er; [|done]. destruct (RetiredJob retired) as [[[operation name] uid]|] eqn:Ej; [|done].
  destruct (_ && _) eqn:E; [|done]. intros [= <-] Hidle. rewrite !andb_true_iff, !negb_true_iff, !bool_decide_eq_false, !bool_decide_eq_true, !Z.eqb_eq in E. simpl.
  split; [tauto|]. split; [tauto|]. exists pending, retired. split; [done|]. intros binding <-.
  constructor; try tauto. rewrite Ej. repeat f_equal; tauto.
Qed.

Lemma claim_ok i log c log' :
  runs (claim i) log (Ok c) log' -> exists e, log' = log ++ [e] /\ entitles i e c /\ names_attempt i c.
Proof.
  unfold claim. case_bool_decide as Hk.
  - intros (r & Hr)%runs_call. apply runs_ret in Hr as [Hr ->]. destruct r as [schema|]; [|done]. eexists. split; [done|].
    destruct (SchemaBinding schema) as [binding|] eqn:Eb; [|done]. case_bool_decide as Hu; [|done].
    destruct (SchemaActive schema) as [op|] eqn:Ea.
    + case_bool_decide; [|done]. symmetry in Hr. apply claim_current_ok in Hr as (-> & Hg & He & Hn & Hd & Hl).
      split; [|done]. apply active_schema; try done. constructor; [done|apply Hn|done|done].
    + symmetry in Hr. destruct (retiring_ok _ _ _ _ Hr Ea) as (Hg & Hn & pending & retired & -> & Hra). split; [|done].
      eapply retired_schema_apply; [done..|]. by apply Hra.
  - case_bool_decide as Hm; [|by intros [? _]]. intros (r & Hr)%runs_call. apply runs_ret in Hr as [Hr ->].
    destruct r as [migration|]; [|done]. eexists. split; [done|].
    destruct (MigrationActive migration) as [op|] eqn:Ea; [|done]. destruct (MigrationBinding migration) as [binding|] eqn:Eb; [|done].
    case_bool_decide as Hu; [|done]. case_bool_decide; [|done]. symmetry in Hr. apply claim_current_ok in Hr as (-> & Hg & He & Hn & Hd & Hl).
    split; [|done]. apply active_migration; try done. constructor; [done|apply Hn|done|done].
Qed.
Lemma entitled_unbuilt i e c : entitles i e c -> Built c = None.
Proof. by destruct 1. Qed.

(** The fence reads the retirement record and nothing else. *)
Definition fence_name (i : Identity) : string := match ResultRetention.Name (IdentityBinding i) with Ok name => name | Err _ => EmptyString end.
Definition fence_entry (i : Identity) (answer : result api_error PtahResultRecord) : entry authE :=
  answered (Fence _ (ReadRecord (Namespace (IdentityBinding i), fence_name i))) answer.

Lemma fence_run i log r log' :
  runs (checkRetirement i) log r log' ->
  (exists answer, log' = log ++ [fence_entry i answer] /\
     r = match answer with Ok _ => Err ErrAuthority | Err NotFound => Ok tt | Err e => Err (AuthFence (EvApi e)) end) \/
  log' = log /\ exists e, r = Err e.
Proof.
  unfold checkRetirement, fence_entry, fence_name. intros Hr.
  apply runs_bind in Hr as (v & log1 & Hh & Hr). apply runs_ret in Hr as [-> ->]. unfold runs, CheckOpen in Hh.
  destruct (ResultRetention.Name (IdentityBinding i)) as [name|]; cbn in Hh.
  - destruct Hh as (answer & l & -> & [-> ->]). left. exists answer. split; [done|]. by destruct answer as [|[]].
  - destruct Hh as [-> ->]. right. split; [done|by eexists].
Qed.

(** What the checks in front of the fence saw, when they passed. *)
Record workload_seen (i : Identity) (job : Job) (pod : Pod) (c : Claim) (s : PodAdmissionSnapshot) : Prop := {
  ws_job : MetaUID (JobMeta job) = JobUID (IdentityBinding i) /\ ValidateActiveJob job = true;
  ws_delivery : exists config, Read job (UID (IdentityBinding i)) (OperationID (IdentityBinding i)) = Some config /\
                ConfigGeneration config = Generation (IdentityBinding i);
  ws_pod : MetaName (PodMeta pod) = PodName (IdentityBinding i) /\ MetaUID (PodMeta pod) = PodUID (IdentityBinding i) /\
           MetaNamespace (PodMeta pod) = Namespace (IdentityBinding i);
  ws_snapshot : Snapshot c = Some s /\ ValidateSnapshot (Some s) = Ok tt;
  ws_owner : OwnerReferences (JobMeta job) = [owner_reference (ClaimOwner c)] /\ own_identity job;
  ws_inputs : get (Annotations (JobMeta job)) AnnotationInputFingerprint = InputFingerprint (IdentityBinding i);
  ws_template : DigestTemplate (Template (JobSpecOf job)) = TemplateDigest s;
  ws_pod_owner : storedPodOwner (OwnerReferences (PodMeta pod)) job = true;
  ws_spec : ValidatePodSpec (PodSpecOf pod) (Template (JobSpecOf job)) (Some s) = Ok tt;
}.

Lemma workload_ok i log log' :
  InputFingerprint (IdentityBinding i) <> EmptyString -> runs (workload_authority i) log (Ok tt) log' ->
  exists job pod e c s,
    log' = log ++ [answered (ReadAuthJob (Namespace (IdentityBinding i)) (JobName (IdentityBinding i))) (Ok job);
                   answered (ListAuthPods (Namespace (IdentityBinding i)) (MetaUID (JobMeta job))) (Ok ([pod], EmptyString)); e] /\
    entitles i e c /\ names_attempt i c /\ workload_seen i job pod c s.
Proof.
  unfold workload_authority. intros Hfp (r & H1)%runs_call. destruct r as [job|e]; [|by destruct H1].
  destruct (_ && _) eqn:Ej in H1; [|by destruct H1]. destruct (Read job _ _) as [config|] eqn:Ec in H1; [|by destruct H1].
  destruct (ConfigGeneration config =? _) eqn:Eg in H1; [|by destruct H1]. apply Z.eqb_eq in Eg.
  apply runs_call in H1 as (l & H1). destruct l as [[[|pod [|]] continue]|e]; try by destruct H1.
  destruct (empty continue && _ && _) eqn:Ep in H1; [|by destruct H1].
  apply runs_bind in H1 as (rc & log1 & Hc & H1). destruct rc as [c|e]; [|by destruct H1].
  destruct (is_ok (Match _ _)) eqn:Em in H1; [|by destruct H1]. destruct (_ && _) eqn:Es in H1; [|by destruct H1].
  apply runs_ret in H1 as [_ ->]. destruct (claim_ok _ _ _ _ Hc) as (e & -> & Hnow & Hn).
  apply andb_true_iff in Ej as [Hu%bool_decide_eq_true Hact]. unfold empty in Ep. rewrite !andb_true_iff, !bool_decide_eq_true in Ep. destruct Ep as [[-> Hpn] Hpu].
  destruct (Match _ _) as [[]|] eqn:HM in Em; [|done].
  destruct (match_inv _ _ HM) as (s & Hs & Hv & _ & _ & _ & _ & Ho & _ & _ & Hown & Hd).
  apply andb_true_iff in Es as [Hns%bool_decide_eq_true Hst]. unfold ValidateStoredPod in Hst. rewrite !andb_true_iff in Hst.
  destruct Hst as [[[[[[[_ Hso] _] _] _] _] _] Hspec]. rewrite Hs in Hspec.
  exists job, pod, e, c, s. split; [by rewrite <- !app_assoc|]. split; [done|]. split; [done|]. constructor; try done; [by exists config|..].
  - destruct Hn as (_ & Hf & _). rewrite <- Hf. apply match_inputs; [done|by eapply entitled_unbuilt|by rewrite Hf].
  - by destruct (ValidatePodSpec _ _ _) as [[]|].
Qed.

(** A well-formed identity names its inputs. *)
Lemma valid_inputs i : valid i = true -> InputFingerprint (IdentityBinding i) <> EmptyString.
Proof.
  unfold valid, ResultStore.Name, ResultStore.validate. intros [Hn _]%andb_true_iff Hf. rewrite Hf in Hn.
  change (is_sha256_digest EmptyString) with false in Hn. rewrite !orb_true_r in Hn. done.
Qed.

(** C7: a runner that is granted delivery of its result is the exact Pod of
    the exact Job of an attempt its owner still answers for. Five reads were
    made, in this order: the live Job, its one Pod, then the owning resource,
    then the retirement record, which did not exist, then the context. The
    resource, at the attempt's generation, either claims the attempt as its
    active operation, under the binding in force, dispatched and without a
    lost Lease; or it is a schema whose binding was changed, which has no
    active operation and still records this retired Apply, with its one Pod,
    as of unknown outcome. The Job is the one the claim pins, one-shot and
    not yet scheduled for cleanup, recorded for the attempt's inputs and
    dispatched to deliver for this generation, with the template its snapshot
    recorded; and the Pod's spec is one the snapshot admits. *)
Theorem delivery_authority_current (i : Identity) (log : list (entry authE)) :
  exec any_answer (CheckAuthority i) [] (Ok tt) log ->
  let b := IdentityBinding i in
  exists job pod subject c s,
    log = [answered (ReadAuthJob (Namespace b) (JobName b)) (Ok job);
           answered (ListAuthPods (Namespace b) (MetaUID (JobMeta job))) (Ok ([pod], EmptyString)); subject;
           fence_entry i (Err NotFound); answered ContextFailed false] /\
    entitles i subject c /\ names_attempt i c /\ workload_seen i job pod c s.
Proof.
  unfold CheckAuthority. intros H1. destruct (valid i) eqn:Hv; [cbn [negb] in H1|by destruct H1].
  apply runs_bind in H1 as (verdict & log1 & Hw & H1). apply runs_bind in H1 as (fence & log2 & Hf & H1).
  destruct fence as [[]|]; [|by destruct H1]. destruct verdict as [[]|]; [|by destruct H1].
  apply runs_call in H1 as (failed & H1). apply runs_ret in H1 as [Hr ->]. destruct failed; [done|].
  destruct (fence_run _ _ _ _ Hf) as [(answer & -> & Ha)|(_ & e & He)]; [|done]. destruct answer as [|[]]; try done.
  destruct (workload_ok _ _ _ (valid_inputs _ Hv) Hw) as (job & pod & e & c & s & -> & Hnow & Hn & Hseen). by exists job, pod, e, c, s.
Qed.

(** C28: a retired attempt is refused whatever else was read: on every path of
    a well-formed identity the retirement record is read after everything
    else of the API server, and when it exists the verdict is the definitive
    refusal, also where the workload was absent, not yet adopted or could not
    be read. When it cannot be read the verdict is an error. *)
Theorem retired_attempt_refused (i : Identity) (r : result auth_error unit) (log : list (entry authE)) :
  valid i = true -> exec any_answer (CheckAuthority i) [] r log ->
  exists reads answer after, log = reads ++ fence_entry i answer :: after /\
    (after = [] \/ exists failed, after = [answered ContextFailed failed]) /\
    match answer with
    | Ok _ => r = Err ErrAuthority
    | Err NotFound => True
    | Err e => r = Err (AuthFence (EvApi e))
    end.
Proof.
  unfold CheckAuthority. intros Hv H1. rewrite Hv in H1. simpl negb in H1.
  apply runs_bind in H1 as (verdict & log1 & Hw & H1). apply runs_bind in H1 as (fence & log2 & Hf & H1).
  destruct (fence_run _ _ _ _ Hf) as [(answer & -> & Ha)|(-> & e & He)]; cycle 1.
  { exfalso. unfold checkRetirement, CheckOpen in Hf. apply andb_true_iff in Hv as [Hn _].
    unfold ResultRetention.Name in Hf. destruct (ResultStore.Name (IdentityBinding i)); [|done]. cbn in Hf.
    destruct Hf as (x & l & Hl & _ & Hf). rewrite Hl in Hf. apply (f_equal length) in Hf. rewrite length_app in Hf. simpl in Hf. lia. }
  exists log1, answer. destruct fence as [[]|e].
  - destruct answer as [|[]]; try done. destruct verdict as [[]|ev].
    + apply runs_call in H1 as (failed & H1). apply runs_ret in H1 as [_ ->]. eexists. split; [by rewrite <- app_assoc|]. split; [right; by eexists|done].
    + apply runs_ret in H1 as [_ ->]. exists []. auto.
  - apply runs_ret in H1 as [-> ->]. exists []. split; [done|]. split; [by left|]. by destruct answer as [|[]].
Qed.
End Safety.

(** ** Tokens *)

Lemma split_at_nonempty c s : split_at c s <> [].
Proof. destruct s as [|a s]; simpl; [done|]. case_bool_decide; [done|]. by destruct (split_at c s). Qed.

Lemma split_at_join c s : String.concat (String c EmptyString) (split_at c s) = s.
Proof.
  induction s as [|a s IH]; [done|]. simpl. case_bool_decide as Hc.
  - subst. destruct (split_at c s) as [|f r] eqn:E; [by apply split_at_nonempty in E|]. by rewrite <- IH.
  - destruct (split_at c s) as [|f r] eqn:E; [by apply split_at_nonempty in E|]. rewrite <- IH. by destruct r.
Qed.

Lemma account_of_iff username namespace account :
  account_of username namespace = Some account ->
  username = "system:serviceaccount:" +:+ namespace +:+ ":" +:+ account /\ account <> EmptyString.
Proof.
  unfold account_of. pose proof (split_at_join ":"%char username) as Hj.
  destruct (split_at ":"%char username) as [|a [|b [|c [|d [|]]]]]; try done. destruct (_ && _) eqn:E; [|done]. intros [= ->].
  unfold empty in E. rewrite !andb_true_iff, !bool_decide_eq_true, negb_true_iff, bool_decide_eq_false in E.
  destruct E as [[[-> ->] ->] Hne]. split; [by rewrite <- Hj|done].
Qed.

(** C29: a token that verifies for an identity is one the API server
    authenticated, for the receiver's audience and no other, as the service
    account of the identity's namespace, bound to the Pod the identity names;
    and that Pod, read after the review, has this UID and runs as this
    account. Nothing but these calls was made, and the context was alive
    before, between and after them. *)
Theorem verified_token_bound (token : string) (i : Identity) (log : list (entry tokenE)) :
  exec any_answer (Verify token i) [] (Ok tt) log ->
  let b := IdentityBinding i in
  exists review pod account,
    log = [answered TokenContextFailed false; answered (CreateReview token [TokenAudience]) (Ok review); answered TokenContextFailed false;
           answered (ReadTokenPod (Namespace b) (PodName b)) (Ok pod); answered TokenContextFailed false] /\
    ReviewError review = EmptyString /\ Authenticated review = true /\ Audiences review = [TokenAudience] /\
    UserName review = "system:serviceaccount:" +:+ Namespace b +:+ ":" +:+ account /\ account <> EmptyString /\
    Extra review !! PodNameKey = Some [PodName b] /\ Extra review !! PodUIDKey = Some [PodUID b] /\
    MetaUID (PodMeta pod) = PodUID b /\ MetaNamespace (PodMeta pod) = Namespace b /\ ServiceAccountName (PodSpecOf pod) = account.
Proof.
  unfold Verify. intros H1. destruct (ValidToken token); [|by destruct H1].
  apply runs_call in H1 as ([] & H1); [by destruct H1|]. apply runs_call in H1 as ([review|] & H1); [|by destruct H1].
  apply runs_call in H1 as ([] & H1); [by destruct H1|]. simpl negb in H1. cbn iota in H1.
  destruct (empty (ReviewError review)) eqn:Ee in H1; [|by destruct H1]. destruct (reviewed_account review i) as [account|] eqn:Ea; [|by destruct H1].
  apply runs_call in H1 as ([pod|e] & H1); [|by destruct e, H1]. destruct (_ && _) eqn:Ep in H1; [|by destruct H1].
  apply runs_call in H1 as ([] & H1); [by destruct H1|]. apply runs_ret in H1 as [_ ->].
  unfold reviewed_account in Ea. destruct (_ && _) eqn:E1 in Ea; [|done].
  destruct (account_of _ _) as [account'|] eqn:Eac; [|done]. destruct (_ && _) eqn:E2 in Ea; [|done]. injection Ea as ->.
  apply account_of_iff in Eac as [Hu Hne]. unfold extra_is, empty in *.
  rewrite !andb_true_iff, !bool_decide_eq_true in E1. rewrite !andb_true_iff, !bool_decide_eq_true in E2. rewrite !andb_true_iff, !bool_decide_eq_true in Ep.
  apply bool_decide_eq_true in Ee. destruct E2 as [[E2 _] [E3 _]]. exists review, pod, account.
  split_and!; try tauto.
  - by destruct (Extra review !! PodNameKey); simplify_eq/=.
  - by destruct (Extra review !! PodUIDKey); simplify_eq/=.
Qed.
