(* ===== verification/AuthoritySample.v ===== *)
(** * An attempt that may be delivered

    A migration's Apply, its Job, its Pod and the owner's status, for which
    every check in front of delivery passes, and the reads of the same attempt
    once it is retired. The theorems on result authority are applied to
    them. *)
From Stdlib Require Import ZArith Lia Ascii.
From stdpp Require Import base list gmap strings.
From S2P Require Import TargetLock GoStrings Json Fingerprint KubeMeta KubePod Effects JobConfig JobConfigProofs PodIntent PodResolve JobClaim JobClaimProofs PodWebhook PodSample.
From S2P Require Import ResultStore ResultRetention ResultAuthority AuthoritySafety Prelude.
Local Open Scope Z_scope.

Definition sample_fingerprint : string := "sha256:0123456789abcdef0123456789abcdef0123456789abcdef0123456789abcdef".
Definition sample_image : string := "registry.example/ptah@" +:+ sample_fingerprint.
Definition sample_binding : ExecutionBinding := {| BindingEpoch := sample_epoch; BindingPtahVersion := "v0.9.0"; BindingStateVersion := 1 |}.

Definition attempt_labels : gmap string string :=
  list_to_map [(LabelManagedBy, "ptah-operator"); (LabelComponent, ComponentMigrationOperation); (LabelMigration, "orders");
               (LabelOperation, "apply"); (LabelOperationID, OperationIDLabelValue "op-1")].
Definition attempt_generated : gmap string string :=
  list_to_map [(ControllerUidLabel, "job-uid"); (JobNameLabel, "orders-apply"); ("controller-uid", "job-uid"); ("job-name", "orders-apply")].
Definition attempt_annotations (digest : string) : gmap string string :=
  list_to_map [(AnnotationOperationID, "op-1"); (AnnotationInputFingerprint, sample_fingerprint);
    (AnnotationExecutionBindingID, sample_epoch); (AnnotationAdmissionSnapshotDigest, digest); (AnnotationPtahVersion, "v0.9.0");
    (AnnotationControllerStateVersion, "1"); (AnnotationControllerImage, sample_image); (AnnotationControllerRevision, "abc123");
    (AnnotationSafeToEvict, "false")].
(** The template the Job is built from, and the Job as it is dispatched: with
    the Pod token attached, and then the snapshot's digest. *)
Definition attempt_template : PodTemplateSpec :=
  {| TemplateMeta := with_maps attempt_labels (attempt_annotations EmptyString) (new_meta EmptyString EmptyString ∅ []);
     TemplateSpec := with_containers [with_env [plain_env EnvExpectedDatabaseEngine "PostgreSQL"] sample_container] [] sample_spec |}.
Definition attempt_base : Job :=
  {| JobMeta := with_maps attempt_labels (attempt_annotations EmptyString) stored_meta;
     JobSpecOf := with_template None None attempt_template (JobSpecOf built_job) |}.
Definition attempt_endpoint : string := "https://results.ptah-system.svc".
Definition attempt_attached : Job :=
  default attempt_base (AttachPodToken attempt_base "orders-uid" 4 "op-1" attempt_endpoint "-----BEGIN CERTIFICATE-----").
Definition attempt_snapshot : PodAdmissionSnapshot :=
  match asked (sample_objects [memory_range; cpu_range]) (Resolve "shop" (Template (JobSpecOf attempt_attached)) DefaultOptions) with
  | Ok s => s
  | Err _ => no_snapshot
  end.
Definition attempt_job : Job :=
  let annotations := attempt_annotations (SnapshotDigest attempt_snapshot) in
  let template :=
    {| TemplateMeta := with_maps (attempt_generated ∪ attempt_labels) annotations (new_meta EmptyString EmptyString ∅ []);
       TemplateSpec := job_pod_spec attempt_attached |} in
  {| JobMeta := with_maps attempt_labels annotations stored_meta;
     JobSpecOf := with_template (Some {| MatchLabels := {[ControllerUidLabel := "job-uid"]}; MatchExpressions := [] |}) None template
                    (JobSpecOf built_job) |}.
(** The sample Pod, running the attached container. *)
Definition attempt_spec : PodSpec :=
  let spec := job_pod_spec attempt_attached in
  let admitted := with_containers (with_resources {["memory" := "128Mi"; "cpu" := "10m"]} {["memory" := "256Mi"]} "IfNotPresent" <$> Containers spec) [] sample_pod in
  {| Containers := Containers admitted; InitContainers := []; EphemeralContainers := []; Volumes := Volumes spec;
     ServiceAccountName := ServiceAccountName admitted; DeprecatedServiceAccount := DeprecatedServiceAccount admitted;
     AutomountServiceAccountToken := AutomountServiceAccountToken admitted; ImagePullSecrets := ImagePullSecrets admitted;
     NodeName := NodeName admitted; NodeSelector := NodeSelector admitted; RuntimeClassName := RuntimeClassName admitted;
     Overhead := Overhead admitted; PriorityClassName := PriorityClassName admitted; Priority := Priority admitted;
     PreemptionPolicy := PreemptionPolicy admitted; Tolerations := Tolerations admitted; PodLevelResources := PodLevelResources admitted;
     PodActiveDeadlineSeconds := PodActiveDeadlineSeconds admitted; PodRest := PodRest admitted |}.
Definition attempt_pod : Pod :=
  {| PodMeta :=
       {| MetaName := "orders-apply-x7k2q"; GenerateName := "orders-apply-"; MetaNamespace := "shop"; SelfLink := EmptyString;
          MetaUID := "pod-uid"; ResourceVersion := "92"; MetaGeneration := 0; CreationTimestamp := None; DeletionTimestamp := None;
          DeletionGracePeriodSeconds := None; Labels := attempt_generated ∪ attempt_labels;
          Annotations := Annotations (JobMeta attempt_job);
          OwnerReferences := [{| OwnerAPIVersion := batchv1_group; OwnerKind := "Job"; OwnerName := "orders-apply"; OwnerUID := "job-uid";
                                 Controller := Some true; BlockOwnerDeletion := Some true |}];
          Finalizers := [JobTrackingFinalizer]; ManagedFields := [] |};
     PodSpecOf := attempt_spec; PodPhase := "Running"; PodStatusRest := EmptyString |}.
Definition attempt_operation : operation_status :=
  {| StatusType := "Apply"; StatusID := "op-1"; StatusFingerprint := sample_fingerprint; StatusBindingID := sample_epoch;
     StatusJobName := "orders-apply"; StatusJobUID := "job-uid"; StatusSnapshot := Some attempt_snapshot;
     StatusEngine := Some "PostgreSQL"; StatusDispatched := true; StatusContinuityLost := false |}.
Definition attempt_owner : PtahMigrationView :=
  {| MigrationMeta :=
       {| MetaName := "orders"; GenerateName := EmptyString; MetaNamespace := "shop"; SelfLink := EmptyString; MetaUID := "orders-uid";
          ResourceVersion := "90"; MetaGeneration := 4; CreationTimestamp := None; DeletionTimestamp := None;
          DeletionGracePeriodSeconds := None; Labels := ∅; Annotations := ∅; OwnerReferences := []; Finalizers := []; ManagedFields := [] |};
     MigrationBinding := Some sample_binding; MigrationActive := Some attempt_operation |}.
Definition attempt_identity : Identity :=
  {| IdentityBinding :=
       {| Namespace := "shop"; Kind := "PtahMigration"; Name_ := "orders"; UID := "orders-uid"; Generation := 4;
          ExecutionBindingID := sample_epoch; InputFingerprint := sample_fingerprint; Operation := "migration-apply"; OperationID := "op-1";
          JobName := "orders-apply"; JobUID := "job-uid"; PodName := "orders-apply-x7k2q"; PodUID := "pod-uid" |};
     Engine := "postgresql" |}.
Lemma attempt_delivers : bool_decide (is_Some (Read attempt_job "orders-uid" "op-1")) = true.
Proof. vm_compute. reflexivity. Qed.

(** The marker [resultretention] writes for the attempt. *)
Definition attempt_marker : result api_error PtahResultRecord :=
  match ResultRetention.Record_ (IdentityBinding attempt_identity)
          {| SourceName := credential_name (IdentityBinding attempt_identity); SourceUID := "secret-uid"; SourceType := "credential" |} hour with
  | Ok record => Ok record
  | Err _ => Err OtherError
  end.

(** The reads of the attempt, with what the retention record's read answers
    and whether the Job is still there. *)
Definition attempt_answer (present : bool) (marker : result api_error PtahResultRecord) (X : Type) (e : authE X) : X :=
  match e in authE X return X with
  | ReadAuthJob _ _ => if present then Ok attempt_job else Err NotFound
  | ListAuthPods _ _ => Ok ([attempt_pod], EmptyString)
  | ReadAuthSchema _ _ => Err NotFound
  | ReadAuthMigration _ _ => Ok attempt_owner
  | ContextFailed => false
  | Fence _ ev =>
      match ev in evidenceE X return X with
      | ReadRecord _ => marker
      | ReadSchema _ => Err OtherError
      | ReadMigration _ => Err OtherError
      | ReadJob _ => Err OtherError
      | ListMembers _ => Err OtherError
      | ScanRecords _ => Err (ListFailed OtherError)
      | CreateMarker _ => Err (CreateFailed OtherError)
      | DeleteRecord _ _ => Err OtherError
      | Now => 0
      | ContextErr => false
      end
  end.
Definition attempt_run (present : bool) (marker : result api_error PtahResultRecord) : result auth_error unit * list (entry authE) :=
  run (recording (attempt_answer present marker)) (CheckAuthority attempt_identity) [].
Lemma attempt_runs present marker :
  exec any_answer (CheckAuthority attempt_identity) [] (attempt_run present marker).1 (attempt_run present marker).2.
Proof. exact (run_recording (attempt_answer present marker) (CheckAuthority attempt_identity) []). Qed.
Lemma attempt_granted : (attempt_run true (Err NotFound)).1 = Ok tt.
Proof. vm_compute. reflexivity. Qed.
Lemma attempt_valid : valid attempt_identity = true.
Proof. vm_compute. reflexivity. Qed.

Lemma attempt_granted_run :
  exec any_answer (CheckAuthority attempt_identity) [] (Ok tt) (attempt_run true (Err NotFound)).2.
Proof. rewrite <- attempt_granted. apply attempt_runs. Qed.
Lemma delivery_authority_current_witness :
  exists job pod subject c s, entitles attempt_identity subject c /\ names_attempt attempt_identity c /\
    workload_seen attempt_identity job pod c s.
Proof.
  destruct (delivery_authority_current attempt_identity _ attempt_granted_run) as (job & pod & subject & c & s & _ & Hc).
  exists job, pod, subject, c, s. exact Hc.
Defined.

(** Once the marker is there, delivery is refused, also where the Job is
    gone. *)
Lemma marker_written : match attempt_marker with Ok _ => true | Err _ => false end = true.
Proof. vm_compute. reflexivity. Qed.
Lemma retired_attempt_refused_witness :
  exists reads answer after, (attempt_run false attempt_marker).2 = reads ++ fence_entry attempt_identity answer :: after /\
    match answer with Ok _ => (attempt_run false attempt_marker).1 = Err ErrAuthority | Err _ => True end.
Proof.
  destruct (retired_attempt_refused attempt_identity _ _ attempt_valid (attempt_runs false attempt_marker))
    as (reads & answer & after & Hlog & _ & Ha).
  exists reads, answer, after. split; [exact Hlog|]. destruct answer; [exact Ha|exact I].
Defined.

(** ** A token of the Pod *)

Definition sample_review : TokenReview :=
  {| ReviewError := EmptyString; Authenticated := true; Audiences := [TokenAudience]; UserUID := "account-uid";
     UserName := "system:serviceaccount:shop:runner"; Extra := {[PodNameKey := ["orders-apply-x7k2q"]; PodUIDKey := ["pod-uid"]]} |}.
Definition token_answer (X : Type) (e : tokenE X) : X :=
  match e in tokenE X return X with
  | CreateReview _ _ => Ok sample_review
  | ReadTokenPod _ _ => Ok attempt_pod
  | TokenContextFailed => false
  end.
Definition token_run : result auth_error unit * list (entry tokenE) := run (recording token_answer) (Verify "eyJhbGciOi.token_1" attempt_identity) [].
Lemma token_granted : token_run.1 = Ok tt.
Proof. vm_compute. reflexivity. Qed.
Lemma token_runs : exec any_answer (Verify "eyJhbGciOi.token_1" attempt_identity) [] (Ok tt) token_run.2.
Proof. rewrite <- token_granted. exact (run_recording token_answer (Verify "eyJhbGciOi.token_1" attempt_identity) []). Qed.
Lemma verified_token_bound_witness :
  exists review pod, Extra review !! PodNameKey = Some ["orders-apply-x7k2q"] /\ ServiceAccountName (PodSpecOf pod) <> EmptyString.
Proof.
  destruct (verified_token_bound "eyJhbGciOi.token_1" attempt_identity _ token_runs)
    as (review & pod & account & _ & _ & _ & _ & _ & Hne & Hn & _ & _ & _ & Ha).
  exists review, pod. split; [exact Hn|]. rewrite Ha. exact Hne.
Defined.

(** ** The delivery projection of the Job *)

Definition attempt_main : Container := with_env [plain_env EnvExpectedDatabaseEngine "PostgreSQL"] sample_container.
Definition attempt_config : Config :=
  {| Endpoint := attempt_endpoint; ConfigGeneration := 4;
     SecretName := CredentialName "orders-uid" "op-1" "orders-apply"; PodToken := true |}.
Lemma attempt_reads : Read attempt_attached "orders-uid" "op-1" = Some attempt_config.
Proof. vm_compute. reflexivity. Qed.
Lemma accepted_delivery_pinned_witness : exists main, delivers attempt_attached "orders-uid" "op-1" attempt_config main.
Proof. exact (accepted_delivery_pinned attempt_attached "orders-uid" "op-1" attempt_config attempt_reads). Defined.

Lemma attempt_undelivered : undelivered (job_pod_spec attempt_base) attempt_main.
Proof. constructor; vm_compute; reflexivity. Qed.
Lemma attempt_free : free_of (CredentialName "orders-uid" "op-1" "orders-apply") (job_pod_spec attempt_base).
Proof. split; [vm_compute; reflexivity|]. split; [apply not_elem_of_nil|vm_compute; reflexivity]. Qed.
Lemma attempt_trusts : is_Some (tokenVariables attempt_base "orders-uid" 4 "op-1" "-----BEGIN CERTIFICATE-----").
Proof. vm_compute. eexists. reflexivity. Qed.
Lemma attached_delivery_reads_witness :
  (exists job', Attach attempt_base "orders-uid" 4 "op-1" attempt_endpoint = Some job' /\
     (PodToken <$> Read job' "orders-uid" "op-1") = Some false) /\
  (exists job', AttachPodToken attempt_base "orders-uid" 4 "op-1" attempt_endpoint "-----BEGIN CERTIFICATE-----" = Some job' /\
     (PodToken <$> Read job' "orders-uid" "op-1") = Some true).
Proof.
  assert (1 <= 4 < 2 ^ 63) as Hg by lia.
  destruct (attached_delivery_reads attempt_base attempt_main "orders-uid" 4 "op-1" attempt_endpoint attempt_undelivered
    (ltac:(vm_compute; reflexivity)) (ltac:(vm_compute; reflexivity)) Hg (ltac:(discriminate)) (ltac:(discriminate))) as [Hc Ht].
  destruct attempt_trusts as [values Htv]. split.
  - destruct (Hc (ltac:(discriminate)) attempt_free) as (job' & Ha & Hr). exists job'. split; [exact Ha|]. rewrite Hr. reflexivity.
  - destruct (Ht _ values Htv (ltac:(vm_compute; reflexivity))) as (job' & Ha & Hr). exists job'. split; [exact Ha|]. rewrite Hr. reflexivity.
Defined.
