(* ===== verification/MigrationTypes.v ===== *)
(** * PtahMigration (api/v1alpha1/ptahmigration_types.go)

    The resource the migration controller works on: its metadata, spec and
    status, and the objects it reads beside it. String types of the API are
    strings. A time is in nanoseconds and [None] a nil [*metav1.Time]. A
    condition is its status and reason under its type; the text and the
    transition time of a condition, [status.lastRun.message] and
    [status.journal] are not kept (the journal has its own file). *)
From stdpp Require Import base list gmap strings.
From Stdlib Require Import ZArith Lia Ascii.
From S2P Require Import Prelude Effects GoStrings Json Fingerprint MutationLifecycle PlanStore KubeMeta SourceContent.
From S2P Require Import SourceSnapshot SourceBinding MigrationStatus MigrationPlan ResultRetention ApprovalAdmission.
From S2P Require Import Cadence.
Local Open Scope go_scope.
Local Open Scope Z_scope.

(** An [ImmutableObjectReference]: the object's name and UID. *)
Abbreviation ImmutableObjectReference := (string * string)%type.

(** ** Spec *)

(** [ConfigMapSourceSpec] is kept by the name of its ConfigMap. *)
Record ArtifactSpec : Type := {
  OCIRef : string;
  ArtifactConfigMap : option string;
  ArtifactGit : option GitSourceSpec;
  ArtifactRegistryAuth : option string;
  ArtifactPlainHTTP : bool;
  ArtifactCAFrom : option KeySelector;
  VerificationPolicyFrom : option KeySelector;
  SourcePolicyFrom : option KeySelector;
}.

Record PtahMigrationSpec : Type := {
  Target : DatabaseTargetSpec;
  URLFrom : KeySelector;
  Artifact : ArtifactSpec;
  PolicyApply : string;
  LockTimeout : Z;
  TransactionMode : string;
  Interval : Z;
  ActiveDeadlineSeconds : Z;
  FailureRetryInterval : Z;
  Suspend : bool;
}.

(** ** Status *)

(** The admission snapshot, by the digests that identify it. *)
Record PodAdmissionSnapshot : Type := { AdmissionDigest : string; AdmissionTemplateDigest : string }.
#[export] Instance PodAdmissionSnapshot_eq_dec : EqDecision PodAdmissionSnapshot.
Proof. solve_decision. Defined.

Record DatabaseTargetBinding : Type := { TargetEngine : string; TargetURLFrom : KeySelector }.

Record MigrationOperationStatus : Type := {
  OpType : string;
  OpID : string;
  InputFingerprint : string;
  JobName : string;
  OpJobUID : string;
  StartedAt : Z;
  RetryNotBefore : option Z;
  Attempt : Z;
  ExecutionBindingID : string;
  OpSource : option SourceAccessBinding;
  OpTarget : option DatabaseTargetBinding;
  OpCoordinationDigest : string;
  OpPlanRef : option ImmutableObjectReference;
  OpPlanFingerprint : string;
  OpDispatchStarted : bool;
  DispatchNotAfter : option Z;
  ExecutionNotAfter : option Z;
  OpLeaseEpoch : string;
  OpLeaseDurationSeconds : Z;
  LeaseContinuityLost : bool;
  ApprovalRef : option ImmutableObjectReference;
  ApprovedBy : option ApprovalIdentity;
  OpApprovedAt : option Z;
  Actor : string;
  AdmissionSnapshot : option PodAdmissionSnapshot;
  AdmissionSnapshotRefreshed : bool;
}.
#[export] Instance operation_fields : Fields MigrationOperationStatus := fun o =>
  {| OpType := OpType o; OpID := OpID o; InputFingerprint := InputFingerprint o; JobName := JobName o; OpJobUID := OpJobUID o;
     StartedAt := StartedAt o; RetryNotBefore := RetryNotBefore o; Attempt := Attempt o; ExecutionBindingID := ExecutionBindingID o;
     OpSource := OpSource o; OpTarget := OpTarget o; OpCoordinationDigest := OpCoordinationDigest o; OpPlanRef := OpPlanRef o;
     OpPlanFingerprint := OpPlanFingerprint o; OpDispatchStarted := OpDispatchStarted o; DispatchNotAfter := DispatchNotAfter o;
     ExecutionNotAfter := ExecutionNotAfter o; OpLeaseEpoch := OpLeaseEpoch o; OpLeaseDurationSeconds := OpLeaseDurationSeconds o;
     LeaseContinuityLost := LeaseContinuityLost o; ApprovalRef := ApprovalRef o; ApprovedBy := ApprovedBy o; OpApprovedAt := OpApprovedAt o;
     Actor := Actor o; AdmissionSnapshot := AdmissionSnapshot o; AdmissionSnapshotRefreshed := AdmissionSnapshotRefreshed o |}.

Record MigrationHistoryStatus : Type := {
  ObservedAt : Z;
  HistoryContractVersion : Z;
  HistoryCurrentVersion : Z;
  HistoryCheckpointVersion : Z;
  AppliedCount : Z;
  PendingCount : Z;
  HistoryFingerprint_ : string;
  HistoryTargetIdentityDigest : string;
  Dirty : bool;
  ModifiedVersions : list Z;
  OutOfOrderVersions : list Z;
}.

Record MigrationRunAuthorization : Type := {
  AuthorizationKind : string;
  AuthorizationRef : option ImmutableObjectReference;
  AuthorizationApprover : option ApprovalIdentity;
  AuthorizationAt : option Z;
}.
Record MigrationRunVerification : Type := {
  VerificationObservedAt : Z;
  VerificationFingerprint : string;
  VerificationCurrentVersion : Z;
  VerificationResult : string;
}.

Record MigrationRunStatus : Type := {
  LastOutcome : string;
  LastJobName : string;
  LastJobUID : string;
  LastOperationID : string;
  LastPlanRef : option ImmutableObjectReference;
  LastPlanFingerprint : string;
  Authorization : option MigrationRunAuthorization;
  LastArtifactDigest : string;
  LastSource : option PlanSourceBinding;
  LastTargetIdentityDigest : string;
  LastExecutionBindingID : string;
  Verification : option MigrationRunVerification;
  LastStartedAt : Z;
  LastFinishedAt : option Z;
  AppliedVersions : list Z;
  LastDispatchedBy : option ManagerRecord;
  LastFailure : option MigrationRunFailure;
}.
#[export] Instance run_fields : Fields MigrationRunStatus := fun r =>
  {| LastOutcome := LastOutcome r; LastJobName := LastJobName r; LastJobUID := LastJobUID r; LastOperationID := LastOperationID r;
     LastPlanRef := LastPlanRef r; LastPlanFingerprint := LastPlanFingerprint r; Authorization := Authorization r;
     LastArtifactDigest := LastArtifactDigest r; LastSource := LastSource r; LastTargetIdentityDigest := LastTargetIdentityDigest r;
     LastExecutionBindingID := LastExecutionBindingID r; Verification := Verification r; LastStartedAt := LastStartedAt r;
     LastFinishedAt := LastFinishedAt r; AppliedVersions := AppliedVersions r; LastDispatchedBy := LastDispatchedBy r;
     LastFailure := LastFailure r |}.

Record ResolvedMigrationRunStatus : Type := {
  ResolvedOperationID : string;
  ResolvedOutcome : string;
  Resolution : string;
  AcknowledgmentRef : option ImmutableObjectReference;
  ResolvedBy : option ApprovalIdentity;
  ResolvedAt : Z;
}.

Record PtahMigrationStatus : Type := {
  ObservedGeneration : Z;
  MPhase : string;
  MConditions : gmap string (string * string);
  MArtifact : option SourceAccessBinding;
  MConfigMap : option ConfigMapSourceRevision;
  MSourcePolicy : option (string * string);
  MExecutionBinding : option ExecutionBindingStatus;
  ActiveOperation : option MigrationOperationStatus;
  History : option MigrationHistoryStatus;
  MPlan : option ImmutableObjectReference;
  LastRun : option MigrationRunStatus;
  UnresolvedRun : option UnresolvedMigrationRunStatus;
  ResolvedRun : option ResolvedMigrationRunStatus;
  PendingLockRelease : option TargetLockReleaseStatus;
  NextReconciliationTime : option Z;
  LastReadRequest : string;
}.
#[export] Instance status_fields : Fields PtahMigrationStatus := fun s =>
  {| ObservedGeneration := ObservedGeneration s; MPhase := MPhase s; MConditions := MConditions s; MArtifact := MArtifact s;
     MConfigMap := MConfigMap s; MSourcePolicy := MSourcePolicy s; MExecutionBinding := MExecutionBinding s;
     ActiveOperation := ActiveOperation s; History := History s; MPlan := MPlan s; LastRun := LastRun s; UnresolvedRun := UnresolvedRun s;
     ResolvedRun := ResolvedRun s; PendingLockRelease := PendingLockRelease s; NextReconciliationTime := NextReconciliationTime s;
     LastReadRequest := LastReadRequest s |}.

(** [CreationTimestamp] and the other server-filled metadata are not read. A
    resource version is the server's counter. *)
Record PtahMigration : Type := {
  MName : string;
  MNamespace : string;
  MUID : string;
  MGeneration : Z;
  MResourceVersion : Z;
  MAnnotations : gmap string string;
  MFinalizers : list string;
  MDeleting : bool;
  Spec : PtahMigrationSpec;
  Status_ : PtahMigrationStatus;
}.
#[export] Instance migration_fields : Fields PtahMigration := fun m =>
  {| MName := MName m; MNamespace := MNamespace m; MUID := MUID m; MGeneration := MGeneration m; MResourceVersion := MResourceVersion m;
     MAnnotations := MAnnotations m; MFinalizers := MFinalizers m; MDeleting := MDeleting m; Spec := Spec m; Status_ := Status_ m |}.

(** ** Plans *)

Record PtahMigrationPlanSpec : Type := {
  PlanContractVersion : Z;
  PlanMigrationRef : ImmutableObjectReference;
  PlanFingerprint_ : string;
  PlanMigrations : list PlannedMigration;
  PlanHistoryFingerprint : string;
  PlanCurrentVersion : Z;
  PlanArtifactDigest : string;
  PlanSource_ : option PlanSourceBinding;
  PlanCoordinationDigest : string;
  PlanTargetIdentityDigest : string;
  PlanPolicyFingerprint : string;
  PlanVerificationPolicyUID : string;
  PlanVerificationPolicyDigest : string;
  PlanExecutionBindingID : string;
  PlanControllerImage : string;
  PlanControllerRevision : string;
  PlanControllerStateVersion : Z;
  PlanPtahVersion : string;
  PlanExecutorImage : string;
  PlanRunnerImage : string;
  PlanRunnerProtocolVersion : Z;
  PlanCreatedAt : Z;
}.

(** ** Durations *)

(** [time.Duration.String]: the digits of a fraction without the zeros that
    end it. *)
Fixpoint strip_zeros (digits : list ascii) : list ascii :=
  match digits with
  | [] => []
  | d :: rest => match strip_zeros rest with [] => if bool_decide (d = "0"%char) then [] else [d] | rest => d :: rest end
  end.
(** [n] in [prec] digits. *)
Fixpoint fraction_digits (prec : nat) (n : Z) : list ascii :=
  match prec with
  | O => []
  | S p => fraction_digits p (n / 10) ++ [ascii_of_nat (48 + Z.to_nat (n mod 10))]
  end.
Definition fmt_frac (u : Z) (prec : nat) : string :=
  match strip_zeros (fraction_digits prec (u mod 10 ^ Z.of_nat prec)) with
  | [] => EmptyString
  | digits => "." +:+ String.string_of_list_ascii digits
  end.
(** The unit of microseconds is the two bytes of a micro sign. *)
Definition micro : string := String (ascii_of_nat 194) (String (ascii_of_nat 181) EmptyString).
Definition duration_string (d : Z) : string :=
  let u := Z.abs d in
  let text :=
    if u =? 0 then "0s"
    else if u <? 1000 then format_int u +:+ "ns"
    else if u <? 1000000 then format_int (u / 1000) +:+ fmt_frac u 3 +:+ micro +:+ "s"
    else if u <? 1000000000 then format_int (u / 1000000) +:+ fmt_frac u 6 +:+ "ms"
    else
      let seconds := u / 1000000000 in
      let tail := format_int (seconds mod 60) +:+ fmt_frac u 9 +:+ "s" in
      let minutes := seconds / 60 in
      if minutes =? 0 then tail
      else
        let tail := format_int (minutes mod 60) +:+ "m" +:+ tail in
        if minutes / 60 =? 0 then tail else format_int (minutes / 60) +:+ "h" +:+ tail in
  if d <? 0 then "-" +:+ text else text.
Example duration_strings :
  duration_string 90000000000 = "1m30s" /\ duration_string 3600000000000 = "1h0m0s" /\ duration_string 1500000000 = "1.5s" /\
  duration_string 0 = "0s" /\ duration_string 250000000 = "250ms".
Proof. vm_compute. done. Qed.

(** ** Equality of statuses *)

#[export] Instance KeySelector_eq_dec : EqDecision KeySelector.
Proof. solve_decision. Defined.
#[export] Instance DatabaseTargetBinding_eq_dec : EqDecision DatabaseTargetBinding.
Proof. solve_decision. Defined.
#[export] Instance GitTransportSpec_eq_dec : EqDecision GitTransportSpec.
Proof. solve_decision. Defined.
#[export] Instance GitSourceBinding_eq_dec : EqDecision GitSourceBinding.
Proof. solve_decision. Defined.
#[export] Instance SourceSnapshotBinding_eq_dec : EqDecision SourceSnapshotBinding.
Proof. solve_decision. Defined.
#[export] Instance SourceAccessBinding_eq_dec : EqDecision SourceAccessBinding.
Proof. solve_decision. Defined.
#[export] Instance MigrationOperationStatus_eq_dec : EqDecision MigrationOperationStatus.
Proof. solve_decision. Defined.
#[export] Instance MigrationHistoryStatus_eq_dec : EqDecision MigrationHistoryStatus.
Proof. solve_decision. Defined.
#[export] Instance MigrationRunAuthorization_eq_dec : EqDecision MigrationRunAuthorization.
Proof. solve_decision. Defined.
#[export] Instance MigrationRunVerification_eq_dec : EqDecision MigrationRunVerification.
Proof. solve_decision. Defined.
#[export] Instance MigrationRunFailure_eq_dec : EqDecision MigrationRunFailure.
Proof. solve_decision. Defined.
#[export] Instance ManagerRecord_eq_dec : EqDecision ManagerRecord.
Proof. solve_decision. Defined.
#[export] Instance UnresolvedMigrationRunStatus_eq_dec : EqDecision UnresolvedMigrationRunStatus.
Proof. solve_decision. Defined.
#[export] Instance MigrationRunStatus_eq_dec : EqDecision MigrationRunStatus.
Proof. solve_decision. Defined.
#[export] Instance ResolvedMigrationRunStatus_eq_dec : EqDecision ResolvedMigrationRunStatus.
Proof. solve_decision. Defined.
#[export] Instance ExecutionBindingStatus_eq_dec : EqDecision ExecutionBindingStatus.
Proof. solve_decision. Defined.
#[export] Instance ConfigMapSourceRevision_eq_dec : EqDecision ConfigMapSourceRevision.
Proof. solve_decision. Defined.
#[export] Instance TargetLockReleaseStatus_eq_dec : EqDecision TargetLockReleaseStatus.
Proof. solve_decision. Defined.
#[export] Instance PtahMigrationStatus_eq_dec : EqDecision PtahMigrationStatus.
Proof. solve_decision. Defined.
