(* ===== verification/MigrationClaims.v ===== *)
(** * Claims of the migration controller (internal/controller)

    The state a pass works on, the calls it makes, and the operations every
    path of the controller ends in: writing the status, keeping the copy of an
    unresolved run, retiring a claim and handing its realm back, retrying,
    discarding and failing an operation ([migration_controller.go],
    [migration_apply.go], [migration_unresolved_run.go]).

    A pass works on one [PtahMigration] in memory: a function of the Go code
    that takes it is a program in [M], which threads it. [before :=
    migration.DeepCopy()] is the value at that moment. Every call of the API
    server, the clock, the random source, the lock and every part of the
    operator without a model of its own is an event of [ctlE], answered in any
    way. Log lines, Kubernetes events and telemetry are left out. *)
From stdpp Require Import base list gmap strings.
From Stdlib Require Import ZArith Lia Ascii.
From S2P Require Import Prelude Effects GoStrings Json Fingerprint TargetLock MutationLifecycle PlanStore KubeMeta.
From S2P Require Import SourceContent SourceSnapshot SourceBinding SourcePolicy MigrationStatus MigrationPlan.
From S2P Require Import ResultRetention ApprovalAdmission Cadence RealmCensus DispatchDriver MigrationTypes.
Local Open Scope go_scope.
Local Open Scope Z_scope.

(** ** Errors and objects *)

(** An error of the API server, as [apierrors] reads it. *)
Record api_err : Type := { IsNotFound : bool; IsAlreadyExists : bool; asAPIStatus : option MutationLifecycle.Status }.

(** A Go error, by what the code asks of it; [ErrTarget] is a
    [targetFailureError] with the condition reason of its kind. *)
Inductive ctl_error : Type :=
| ErrAPI (e : api_err)
| ErrLock (e : lock_error)
| ErrOwed (e : release_error)
| ErrDispatch
| ErrSourceRefused (what : string)
| ErrTarget (reason : string)
| ErrText (what : string).

(** The fields of a Job the controller reads. [JobDispatcher] is
    [dispatcherRecord] of its annotations, [JobTemplate] its Pod template. *)
Record Job : Type := {
  JobMeta : ObjectMeta;
  JobComplete : bool;
  JobFailed : bool;
  JobDurable : bool;
  JobDispatcher : option ManagerRecord;
  JobTemplate : string;
}.
Definition jobTerminal (job : Job) : bool := JobComplete job || JobFailed job.
Definition jobSucceeded (job : Job) : bool := JobComplete job.

Record Pod : Type := { PodMeta : ObjectMeta; PodPhase : string }.
Definition pod_stopped (pod : Pod) : bool :=
  bool_decide (PodPhase pod = "Succeeded") || bool_decide (PodPhase pod = "Failed").

Definition exactControllerOwner (references : list KubeMeta.OwnerReference) (apiVersion kind name uid : string) : bool :=
  match references with
  | [reference] =>
      bool_decide (KubeMeta.OwnerAPIVersion reference = apiVersion) && bool_decide (KubeMeta.OwnerKind reference = kind) &&
      bool_decide (KubeMeta.OwnerName reference = name) && bool_decide (KubeMeta.OwnerUID reference = uid) &&
      bool_decide (Controller reference = Some true) && bool_decide (KubeMeta.BlockOwnerDeletion reference = Some true)
  | _ => false
  end.

(** A stored migration plan; an approval and an acknowledgment with what their
    status conditions say. *)
Record Plan : Type := { PlanMeta : ObjectMeta; PlanSpec_ : PtahMigrationPlanSpec }.
Record Approval : Type := { ApprovalMeta : ObjectMeta; ApprovalSpec_ : ApprovalSpec; ApprovalStale : bool; ApprovalConsumed : bool }.
Record Acknowledgment : Type := { AckMeta : ObjectMeta; AckSpec : RunAcknowledgmentSpec; AckStale : bool; AckConsumed : bool }.

(** ** What a Job reported *)

(** The fields of [runner.Result] the controller reads. [ResError] is the
    error code. *)
Record RunnerResult : Type := {
  ResUncertain : bool;
  ResCoordinationDigest : string;
  ResTargetIdentityDigest : string;
  ResMigrationRun : option MigrationRunReport;
  ResMigrationHistory : option MigrationStatusReport;
  ResError : option string;
  ResTruncated : bool;
  ResResolvedDigest : string;
  ResResolvedReference : string;
  ResArtifactType : string;
}.

(** What reading the result of a terminal Job gives: the errors the code tells
    apart, or the evidence and what [parseResult] makes of it. *)
Inductive terminal_logs : Type :=
| ReadCooling
| PodPending
| PodFault (e : ctl_error)
| ReadRetry
| ReadFailed_ (e : ctl_error)
| Evidence (parsed : result ctl_error RunnerResult).

(** What [terminationSummaryStandIn] and [summaryMigrationApply] read in place
    of a result: the outcome reported, or nothing. *)
Record migrationRunAccount : Type := {
  AccountOutcome : string;
  AccountApplied : list Z;
  AccountFailure : option MigrationRunFailure;
  StoppedBeforeSelecting_ : bool;
  TargetFailure : option ctl_error;
  LeftDirtyRevision : bool;
  OpenedTarget : bool;
}.
Record reportedMigrationApply : Type := {
  ReportedRun : option migrationRunAccount;
  ReportedFailure : ctl_error;
  ReportedUncertain : bool;
  ReportedCoordinationDigest : string;
  ReportedTarget : string;
}.

(** ** The calls of a pass *)

Inductive ctlE : Type -> Type :=
(* the migration itself *)
| GetMigration : ctlE (result api_err PtahMigration)
| PatchStatus (base after : PtahMigration) : ctlE (result api_err Z)
| PatchMigration (base patched : PtahMigration) : ctlE (result api_err Z)
| TextMoved : ctlE bool
(* other objects *)
| GetJob (name : string) : ctlE (result api_err Job)
| CreateJob (operation : MigrationOperationStatus) (job : Job) : ctlE (Job * option api_err)
| PatchJobTTL (job : Job) (keepLog : bool) : ctlE (option api_err)
| ListPods : ctlE (result api_err (list Pod))
| GetPlan (name : string) : ctlE (result api_err Plan)
| CreatePlan (plan : @MigrationPlan.PtahMigrationPlan PtahMigrationPlanSpec) : ctlE (result api_err Plan)
| ListApprovals : ctlE (result api_err (list Approval))
| GetApproval (name : string) : ctlE (result api_err Approval)
| PatchApproval (approval : Approval) (consumed : bool) : ctlE (option api_err)
| ListAcknowledgments : ctlE (result api_err (list Acknowledgment))
| GetAcknowledgment (name : string) : ctlE (result api_err Acknowledgment)
| PatchAcknowledgment (acknowledgment : Acknowledgment) (consumed : bool) : ctlE (option api_err)
| GetConfigMap (key : string * string) : ctlE (result api_err ConfigMap)
(* the clock, the random source, the lock, the census and the fleet *)
| Now : ctlE Z
| Entropy : ctlE string
| LockCall (X : Type) (e : lockE X) : ctlE X
| CensusCall (X : Type) (e : censusE X) : ctlE X
| FleetCall (X : Type) (e : fleetE X) : ctlE X
(* parts of the operator without a model of their own *)
| InputFingerprintOf (m : PtahMigration) (operationType : string) : ctlE (result ctl_error string)
| NameForMigration (m : PtahMigration) (operation : MigrationOperationStatus) : ctlE (result ctl_error string)
| BuildMigration (m : PtahMigration) (operation : MigrationOperationStatus) (plan : option Plan) : ctlE (result ctl_error Job)
| MigrationActor (m : PtahMigration) (approval : option Approval) : ctlE string
| MatchJob (m : PtahMigration) (actual : Job) (expected : option Job) (adopted : bool) : ctlE (option ctl_error)
| ResolveSnapshot (template : string) : ctlE (result ctl_error PodAdmissionSnapshot)
| ValidateSnapshot (snapshot : PodAdmissionSnapshot) : ctlE (option ctl_error)
| DigestTemplate (template : string) : ctlE (result ctl_error string)
| ContextErr : ctlE (option ctl_error)
| IssueCredential (job : Job) : ctlE bool
| JudgePodAdmission (job : Job) : ctlE (result ctl_error (option (bool * string)))
| TerminalLogs (job : Job) : ctlE terminal_logs
| SummaryStandIn (job : Job) : ctlE (option reportedMigrationApply)
| AwaitFrame (job : Job) : ctlE (option Z)
| ProtocolRefusal (job : Job) : ctlE (option ctl_error)
| FailedInitBoundary (job : Job) : ctlE (result ctl_error bool)
| ReportedOutcome (job : Job) : ctlE string
| VerificationRefusalHolds (result : RunnerResult) (digest policyDigest : string) : ctlE bool
| ConfigMapSourceMoved (m : PtahMigration) : ctlE (result ctl_error bool)
| SourcePolicyMoved (m : PtahMigration) : ctlE (result ctl_error bool)
| ReadConfigMapSource (m : PtahMigration) :
    ctlE (result ctl_error (SourceSnapshotBinding * ConfigMapSourceRevision * option (string * string)))
| GitResolution (m : PtahMigration) (resolved : RunnerResult) : ctlE (result ctl_error GitSourceRevision)
| CheckGitSource (m : PtahMigration) (resolved : option RunnerResult) : ctlE (result ctl_error (option (string * string)))
| ParsesAsOCI (reference : string) : ctlE bool
| RetireSnapshots (m : PtahMigration) : ctlE unit.
Arguments LockCall {X} e.
Arguments CensusCall {X} e.
Arguments FleetCall {X} e.

(** ** The state of a pass *)

Definition M (A : Type) : Type := PtahMigration -> prog ctlE (A * PtahMigration).
Definition ret {A} (a : A) : M A := fun m => Ret (a, m).
Definition mbind_ {A B} (p : M A) (f : A -> M B) : M B := fun m => x <-- p m; f x.1 x.2.
Definition get : M PtahMigration := fun m => Ret (m, m).
Definition put (m : PtahMigration) : M unit := fun _ => Ret (tt, m).
Definition ask {X} (e : ctlE X) : M X := fun m => x <-- call e; Ret (x, m).
Definition lift {A} (p : prog ctlE A) : M A := fun m => x <-- p; Ret (x, m).

Declare Scope ctl_scope.
Delimit Scope ctl_scope with ctl.
Notation "x <~ p ; q" := (mbind_ p (fun x => q)) (at level 100, p at next level, right associativity) : ctl_scope.
Notation "p ;~ q" := (mbind_ p (fun _ => q)) (at level 100, right associativity) : ctl_scope.
Local Open Scope ctl_scope.

(** Assignments to the status. *)
Definition with_status (f : PtahMigrationStatus -> PtahMigrationStatus) (m : PtahMigration) : PtahMigration :=
  m <| Status_ := f (Status_ m) |>.
Definition status (f : PtahMigrationStatus -> PtahMigrationStatus) : M unit := fun m => Ret (tt, with_status f m).

(** [meta.SetStatusCondition], [FindStatusCondition] and
    [RemoveStatusCondition]. *)
Definition setMigrationCondition (type status_ reason : string) (s : PtahMigrationStatus) : PtahMigrationStatus :=
  s <| MConditions := <[type := (status_, reason)]> (MConditions s) |>.
Definition conditionReason (type : string) (s : PtahMigrationStatus) : option string := snd <$> MConditions s !! type.
Definition removeMigrationCondition (type : string) (s : PtahMigrationStatus) : PtahMigrationStatus :=
  s <| MConditions := delete type (MConditions s) |>.

(** A reconcile answer. *)
Definition answer : Type := Result * option ctl_error.
Definition after_ (d : Z) : answer := ({| Requeue := false; RequeueAfter := d |}, None).
Definition failed (e : ctl_error) : answer := (noResult, Some e).
Definition done_ : answer := (noResult, None).
(** [ctrl.Result{}, err] with an error that may be nil. *)
Definition ended (e : option ctl_error) : answer := (noResult, e).

(** How the manager is configured: its lock and Job builder, and the parts of
    the standard library that read and write text. The Job builder and the
    locker are set. *)
Record Manager : Type := {
  LockNamespace : string;
  LockerInitialized : bool;
  isDNS1123Label : string -> bool;
  Configured : ExecutionBindingStatus;
  (** The controller's image and revision and the runner's image. *)
  Identity : string * string * string;
  (** A [metav1.Time] as its JSON text, and [time.Parse] of RFC 3339. *)
  FormatTime : Z -> string;
  ParsesTime : string -> bool;
  (** [Decode] into an [UnresolvedMigrationRunStatus], and [More] after it. *)
  DecodeRecord : string -> option (UnresolvedMigrationRunStatus * bool);
  (** The YAML decoder of [sigs.k8s.io/yaml]. *)
  UnmarshalStrict : list Z -> option Policy;
}.

Section Claims.
Context (r : Manager).

Definition now : M Z := ask Now.

(** ** Kinds of operations (operation_type.go, dispatch_state.go) *)

Definition migrationOperation (operation : option MigrationOperationStatus) : MutationLifecycle.Operation :=
  match operation with
  | None => zeroOperation
  | Some operation => MigrationOperation (OpType operation)
  end.
Definition mutating (operation : option MigrationOperationStatus) : bool := MutationLifecycle.Mutating (migrationOperation operation).
Definition holdsLock (operation : option MigrationOperationStatus) : bool := MutationLifecycle.HoldsLock (migrationOperation operation) false.

Definition migrationMayHaveDispatched (operation : option MigrationOperationStatus) : bool :=
  match operation with
  | None => false
  | Some operation => MayHaveDispatched {| DispatchStarted := OpDispatchStarted operation; JobUID := OpJobUID operation |}
  end.

(** ** The copy of an unresolved run (migration_unresolved_run.go) *)

Definition UnresolvedRunAnnotation : string := "operator.ptah.run/unresolved-run".
Definition runOutcomePartial : string := "Partial".
Definition runOutcomeUnknown : string := "Unknown".

Definition encodeUnresolvedRunCopy (record : UnresolvedMigrationRunStatus) : string := of_bytes (marshal (unresolved_json record)).

Definition validManagerRecord (record : ManagerRecord) : bool :=
  is_pinned_image (MgrImage record) && (len (MgrImage record) <=? 512) &&
  is_pinned_image (MgrRunnerImage record) && (len (MgrRunnerImage record) <=? 512) &&
  negb (empty (MgrRevision record)) && (len (MgrRevision record) <=? 128) &&
  bool_decide (trim_space (MgrRevision record) = MgrRevision record).

Definition decodeUnresolvedRunCopy (value : string) : option UnresolvedMigrationRunStatus :=
  match DecodeRecord r value with
  | None => None
  | Some (record, more) =>
      if more then None
      else if negb (bool_decide (RunOutcome record = runOutcomePartial)) && negb (bool_decide (RunOutcome record = runOutcomeUnknown)) then None
      else if negb (is_sha256_digest (RunOperationID record)) then None
      else if blank (RunPlanRef record).1 || blank (RunPlanRef record).2 then None
      else if negb (empty (RunTargetIdentityDigest record)) && negb (is_sha256_digest (RunTargetIdentityDigest record)) then None
      else if 253 <? len (RunJobName record) then None
      else if empty (RunRecordedAt record) then None
      else if match RunDispatchedBy record with Some m => negb (validManagerRecord m) | None => false end then None
      else Some record
  end.

Definition unresolvedRunCopyMatches (m : PtahMigration) (record : UnresolvedMigrationRunStatus) : bool :=
  match MAnnotations m !! UnresolvedRunAnnotation with
  | None => false
  | Some value => bool_decide (decodeUnresolvedRunCopy value = Some record)
  end.

(** [None] removes the copy. *)
Definition with_copy (value : option string) (m : PtahMigration) : PtahMigration :=
  m <| MAnnotations := match value with
                       | None => delete UnresolvedRunAnnotation (MAnnotations m)
                       | Some value => <[UnresolvedRunAnnotation := value]> (MAnnotations m)
                       end |>.
Definition setUnresolvedRunCopy (value : option string) : M (option ctl_error) :=
  migration <~ get;
  if bool_decide (MAnnotations migration !! UnresolvedRunAnnotation = value) then ret None else
  let patched := with_copy value migration in
  landed <~ ask (PatchMigration migration patched);
  match landed with
  | Err e => ret (Some (ErrAPI e))
  | Ok version => put (patched <| MResourceVersion := version |>) ;~ ret None
  end.

(** The migration in memory is [after]; the answer is the base of the patch. *)
Definition copyUnresolvedRunBeforeStatus (before : PtahMigration) : M (result ctl_error PtahMigration) :=
  after <~ get;
  match UnresolvedRun (Status_ after) with
  | None => ret (Ok before)
  | Some record =>
      if unresolvedRunCopyMatches after record then ret (Ok before) else
      failed <~ setUnresolvedRunCopy (Some (encodeUnresolvedRunCopy record));
      match failed with
      | Some e => ret (Err e)
      | None =>
          after <~ get;
          ret (Ok (before <| MResourceVersion := MResourceVersion after |> <| MAnnotations := MAnnotations after |>))
      end
  end.

Definition dropSettledUnresolvedRunCopy (before : PtahMigration) : M (option ctl_error) :=
  after <~ get;
  match MAnnotations after !! UnresolvedRunAnnotation, UnresolvedRun (Status_ after) with
  | Some value, None =>
      match decodeUnresolvedRunCopy value with
      | None => ret None
      | Some stored =>
          let settled := match ResolvedRun (Status_ after) with
                         | Some run => bool_decide (ResolvedOperationID run = RunOperationID stored)
                         | None => false
                         end in
          let retired := match ActiveOperation (Status_ before), ActiveOperation (Status_ after) with
                         | Some operation, None => bool_decide (OpID operation = RunOperationID stored)
                         | _, _ => false
                         end in
          if negb settled && negb retired then ret None else setUnresolvedRunCopy None
      end
  | _, _ => ret None
  end.

(** ** Writing the status *)

(** [TextMoved] says whether what is not kept of a status changed. *)
Definition patchMigrationStatus (before : PtahMigration) : M (option ctl_error) :=
  after <~ get;
  moved <~ (if bool_decide (Status_ before = Status_ after) then ask TextMoved else ret true);
  if negb moved then ret None else
  base <~ copyUnresolvedRunBeforeStatus before;
  match base with
  | Err e => ret (Some e)
  | Ok base =>
      after <~ get;
      landed <~ ask (PatchStatus base after);
      match landed with
      | Err e => ret (Some (ErrAPI e))
      | Ok version => put (after <| MResourceVersion := version |>) ;~ dropSettledUnresolvedRunCopy before
      end
  end.

(** ** The finalizer *)

Definition migrationOperationFinalizer : string := "operator.ptah.run/migration-operation".
Definition ContainsFinalizer (m : PtahMigration) : bool := bool_decide (migrationOperationFinalizer ∈ MFinalizers m).

Definition patch_finalizers (finalizers : list string) : M (option ctl_error) :=
  before <~ get;
  let after := before <| MFinalizers := finalizers |> in
  put after ;~
  landed <~ ask (PatchMigration before after);
  match landed with
  | Err e => ret (Some (ErrAPI e))
  | Ok version => put (after <| MResourceVersion := version |>) ;~ ret None
  end.

Definition ensureMigrationFinalizer : M (option ctl_error) :=
  m <~ get;
  if ContainsFinalizer m then ret None else patch_finalizers (MFinalizers m ++ [migrationOperationFinalizer]).

Definition removeMigrationFinalizer : M (option ctl_error) :=
  m <~ get;
  if negb (ContainsFinalizer m) then ret None else
  match ActiveOperation (Status_ m), PendingLockRelease (Status_ m) with
  | Some _, _ => ret (Some (ErrText "the migration operation finalizer still protects a live claim"))
  | None, Some _ => ret (Some (ErrText "the migration operation finalizer still protects a database release it owes"))
  | None, None => patch_finalizers (filter (fun f => f <> migrationOperationFinalizer) (MFinalizers m))
  end.

(** ** Retiring a claim (migration_apply.go) *)

Definition targetLockReleaseForMigrationOperation (operation : option MigrationOperationStatus) :
    result release_error TargetLockReleaseStatus :=
  match operation with
  | None => Err ErrIncompleteBinding
  | Some operation =>
      OwedRelease {| LBCoordinationDigest := OpCoordinationDigest operation; LBOperationID := OpID operation;
                     LBLeaseEpoch := OpLeaseEpoch operation; LBLeaseDurationSeconds := OpLeaseDurationSeconds operation |}
  end.

(** The status with the release the claim owes; the error is only logged, and
    leaves the status as it was. *)
Definition stageMigrationLockRelease (operation : option MigrationOperationStatus) (s : PtahMigrationStatus) : PtahMigrationStatus :=
  if match operation with None => true | Some operation => empty (OpLeaseEpoch operation) end then s else
  match targetLockReleaseForMigrationOperation operation with
  | Err _ => s
  | Ok release => if bool_decide (PendingLockRelease s = None) then s <| PendingLockRelease := Some release |> else s
  end.

(** [SetOwedLockRelease] and the [persist] callback of [CompleteRelease]. *)
Definition on_release (before : PtahMigration) (X : Type) (e : relE X) : M X :=
  match e in relE X return M X with
  | OnLock e => ask (LockCall e)
  | Persist owed =>
      status (fun s => s <| PendingLockRelease := owed |>) ;~
      failed <~ patchMigrationStatus before;
      ret match failed with None => true | Some _ => false end
  end.

Definition completeMigrationPendingLockRelease : M (option ctl_error) :=
  before <~ get;
  completed <~ interp (on_release before)
                 (CompleteRelease (isDNS1123Label r) true (LockerInitialized r) (LockNamespace r) (MUID before)
                    (PendingLockRelease (Status_ before)));
  ret (ErrOwed <$> completed.2).

Definition migrationRealmClaim (operation : option MigrationOperationStatus) : RealmClaim :=
  match operation with
  | None => {| RCMutating := false; RCServesProof := false; Locked := false; ProofOutstanding := false |}
  | Some operation =>
      let kind := MigrationOperation (OpType operation) in
      {| RCMutating := MutationLifecycle.Mutating kind; RCServesProof := ServesProof kind;
         Locked := negb (empty (OpLeaseEpoch operation)); ProofOutstanding := false |}
  end.
Definition retirement (operation : option MigrationOperationStatus) (disposition : Disposition) (mayStillWrite : bool) :
    MutationLifecycle.Retirement :=
  {| MutationLifecycle.Claim := migrationRealmClaim operation; RetireDisposition := disposition; RecordHoldsRealm := false;
     MayStillWrite := mayStillWrite; EndsProof := false |}.

Definition retired_status (operation : option MigrationOperationStatus) (disposition : Disposition) (mayStillWrite : bool)
    (s : PtahMigrationStatus) : PtahMigrationStatus :=
  let s := match Releases (retirement operation disposition mayStillWrite) with
           | OwnerClaim => stageMigrationLockRelease operation s
           | _ => s
           end in
  s <| ActiveOperation := if bool_decide (disposition = DispositionUnaccounted) && mayStillWrite then operation else None |>.

Definition retireMigrationClaim (before : PtahMigration) (disposition : Disposition) (mayStillWrite : bool) : M (option ctl_error) :=
  status (retired_status (ActiveOperation (Status_ before)) disposition mayStillWrite) ;~
  failed <~ patchMigrationStatus before;
  match failed with
  | Some e => ret (Some e)
  | None =>
      m <~ get;
      match PendingLockRelease (Status_ m) with
      | None => ret None
      | Some _ => completeMigrationPendingLockRelease ;~ ret None
      end
  end.

(** ** Failures and refusals (migration_controller.go) *)

Definition phase (p : string) (s : PtahMigrationStatus) : PtahMigrationStatus := s <| MPhase := p |>.
Definition next_at (t : Z) (s : PtahMigrationStatus) : PtahMigrationStatus := s <| NextReconciliationTime := Some t |>.
Definition observed (m : PtahMigration) (s : PtahMigrationStatus) : PtahMigrationStatus := s <| ObservedGeneration := MGeneration m |>.

(** [setMigrationTargetFailure] and [databaseUnreached]. *)
Definition setMigrationTargetFailure (failure : option ctl_error) (s : PtahMigrationStatus) : PtahMigrationStatus :=
  match failure with
  | Some (ErrTarget reason) => setMigrationCondition "DatabaseReachable" "False" reason s
  | _ => s
  end.
Definition setMigrationTargetOpened (s : PtahMigrationStatus) : PtahMigrationStatus :=
  setMigrationCondition "DatabaseReachable" "True" "Observed" s.

(** [requeueAtDeadline(migration.Status.NextReconciliationTime, r.now())]. *)
Definition requeue_next : M answer :=
  m <~ get;
  t <~ now;
  ret (after_ (requeueAtDeadline (NextReconciliationTime (Status_ m)) t)).

Definition recordMigrationOperationFailure (before : PtahMigration) (failure : ctl_error) : M answer :=
  m <~ get;
  t <~ now;
  status (fun s =>
    setMigrationCondition "Progressing" "False" "OperationFailed"
      (setMigrationCondition "Ready" "False" "OperationFailed"
        (next_at (t + failureRetry (FailureRetryInterval (Spec m))) (observed m (phase "Failed" s))))) ;~
  err <~ match ActiveOperation (Status_ before) with
         | Some _ => retireMigrationClaim before DispositionDiscard false
         | None => patchMigrationStatus before
         end;
  match err with
  | Some e => ret (failed e)
  | None => requeue_next
  end.

Definition migrationOperationFailure (failure : ctl_error) : M answer :=
  before <~ get;
  recordMigrationOperationFailure before failure.

Definition unresolved_ (s : PtahMigrationStatus) : bool := match UnresolvedRun s with Some _ => true | None => false end.
Definition held (refusals : list string) (type : string) (s : PtahMigrationStatus) : bool :=
  match conditionReason type s with Some reason => bool_decide (reason ∈ refusals) | None => false end.
Definition liftMigrationRefusal (refusals : list string) (reason : string) (s : PtahMigrationStatus) : PtahMigrationStatus :=
  let s := if held refusals "Blocked" s
           then if unresolved_ s then setMigrationCondition "Blocked" "True" "ApplyOutcomeUnknown" s
                else setMigrationCondition "Blocked" "False" reason s
           else s in
  let s := if held refusals "Ready" s
           then setMigrationCondition "Ready" "False" (if unresolved_ s then "ApplyOutcomeUnknown" else reason) s
           else s in
  if held refusals "ApprovalRequired" s then setMigrationCondition "ApprovalRequired" "False" reason s else s.
Definition endMigrationRefusal (reason : string) : PtahMigrationStatus -> PtahMigrationStatus := liftMigrationRefusal ["PolicyRefused"] reason.
Definition endMigrationRealmRefusal (reason : string) : PtahMigrationStatus -> PtahMigrationStatus :=
  liftMigrationRefusal ["RealmConflict"; "RealmNotAuthorized"] reason.

Definition claimRefused (failure : ctl_error) : M answer :=
  before <~ get;
  status (endMigrationRealmRefusal "OperationFailed") ;~
  recordMigrationOperationFailure before failure.

Definition discardMigrationOperation (failure : ctl_error) : M answer :=
  before <~ get;
  status (fun s => setMigrationCondition "Progressing" "False" "InputsChanged" (phase "Pending" s)) ;~
  err <~ retireMigrationClaim before DispositionDiscard false;
  match err with
  | Some e => ret (failed e)
  | None => ret (after_ statusPatchRequeue)
  end.

Definition refusal_reason (reason : realm_reason) : string :=
  match reason with ReasonRealmNotAuthorized => "RealmNotAuthorized" | ReasonRealmConflict => "RealmConflict" end.
Definition migrationRealmBlocked (reason : realm_reason) : M answer :=
  t <~ now;
  before <~ get;
  let next := realmBlockDeadline (NextReconciliationTime (Status_ before)) t (Interval (Spec before)) in
  let reason := refusal_reason reason in
  status (fun s =>
    setMigrationCondition "ApprovalRequired" "False" reason (setMigrationCondition "Progressing" "False" reason
      (setMigrationCondition "Ready" "False" reason (setMigrationCondition "Blocked" "True" reason
        (next_at next (observed before (phase "Blocked" s))))))) ;~
  err <~ patchMigrationStatus before;
  match err with
  | Some e => ret (failed e)
  | None => t <~ now; ret (after_ (requeueAtDeadline (Some next) t))
  end.

Definition migrationBlocked (reason : string) : M answer :=
  before <~ get;
  status (fun s =>
    let s := setMigrationCondition "Progressing" "False" reason (setMigrationCondition "Ready" "False" reason
               (setMigrationCondition "Blocked" "True" reason (observed before (phase "Blocked" s)))) in
    if bool_decide (reason = "UnsupportedEngine") then setMigrationCondition "DatabaseReachable" "Unknown" reason s else s) ;~
  err <~ patchMigrationStatus before;
  ret (ended err).

(** ** Retrying a read *)

Definition markJobHarvested (job : Job) : M (option ctl_error) :=
  err <~ ask (PatchJobTTL job false);
  ret (ErrAPI <$> err).

Definition retryMigrationOperationAs (job : option Job) (reason : string) (failure : ctl_error) : M answer :=
  harvested <~ match job with Some job => markJobHarvested job | None => ret None end;
  match harvested with
  | Some e => ret (failed e)
  | None =>
      before <~ get;
      match ActiveOperation (Status_ before) with
      | None => ret (after_ statusPatchRequeue)
      | Some operation =>
          started <~ now;
          t <~ now;
          let next := operation <| Attempt := int32_wrap (Attempt operation + 1) |> <| OpJobUID := EmptyString |>
                        <| AdmissionSnapshot := None |> <| StartedAt := started |>
                        <| RetryNotBefore := Some (t + failureRetry (FailureRetryInterval (Spec before))) |> in
          named <~ ask (NameForMigration before next);
          match named with
          | Err e => migrationOperationFailure e
          | Ok name =>
              let next := next <| JobName := name |> in
              deadline <~ match NextReconciliationTime (Status_ before) with
                          | None => t <~ now; ret (Some (t + migrationInterval (Interval (Spec before))))
                          | Some t => ret (Some t)
                          end;
              status (fun s =>
                setMigrationTargetFailure (Some failure) (setMigrationCondition "Progressing" "True" reason
                  (s <| ActiveOperation := Some next |> <| NextReconciliationTime := deadline |>))) ;~
              err <~ patchMigrationStatus before;
              match err with
              | Some e => ret (failed e)
              | None => t <~ now; ret (after_ (requeueAtDeadline (RetryNotBefore next) t))
              end
          end
      end
  end.
Definition retryMigrationOperation (job : option Job) (failure : ctl_error) : M answer :=
  retryMigrationOperationAs job "OperationFailed" failure.
End Claims.
