(* ===== verification/MigrationApply.v ===== *)
(** * Applying a plan (internal/controller/migration_apply.go)

    When the published plan is still the one to carry out, which approval
    authorizes it, the claim of one Apply, the realm it runs under, and what
    becomes of the claim: a run whose account is recorded, or a run nobody
    accounted for. *)
From stdpp Require Import base list gmap strings.
From Stdlib Require Import ZArith Lia Ascii.
From S2P Require Import Prelude Effects GoStrings Json Fingerprint TargetLock MutationLifecycle PlanStore KubeMeta.
From S2P Require Import SourceContent SourceSnapshot SourceBinding SourcePolicy MigrationStatus MigrationPlan.
From S2P Require Import ResultRetention ApprovalAdmission Cadence RealmCensus DispatchDriver MigrationTypes.
From S2P Require Import MigrationClaims.
Local Open Scope go_scope.
Local Open Scope ctl_scope.
Local Open Scope Z_scope.

Section Apply.
Context (r : Manager).

(** ** The plan to carry out *)

Definition migrationPolicyFingerprint (m : PtahMigration) : string :=
  DigestCanonicalJSON (JObj [("apply", JStr (PolicyApply (Spec m))); ("lock_timeout", JStr (duration_string (LockTimeout (Spec m))));
                             ("transaction_mode", JStr (TransactionMode (Spec m)))]).

Definition policy_failure {A} (got : result (policy_error api_err) A) : result ctl_error A :=
  match got with Ok a => Ok a | Err _ => Err (ErrText "the policy the plan was decided under does not bind") end.

Definition verificationPolicyStillBinds (plan : Plan) : M (option ctl_error) :=
  m <~ get;
  let artifact := Artifact (Spec m) in
  match PlanSource_ (PlanSpec_ plan) with
  | Some source =>
      bound <~ lift (StillBinds GetConfigMap (UnmarshalStrict r) (MNamespace m) (SourcePolicyFrom artifact) (SourcePolicy source));
      ret match policy_failure bound with Ok _ => None | Err e => Some e end
  | None =>
      bound <~ lift (ConfigMapBinding GetConfigMap (MNamespace m) (VerificationPolicyFrom artifact));
      ret match policy_failure bound with
          | Err e => Some e
          | Ok (uid, digest) =>
              if bool_decide (uid = PlanVerificationPolicyUID (PlanSpec_ plan)) &&
                 bool_decide (digest = PlanVerificationPolicyDigest (PlanSpec_ plan))
              then None else Some (ErrText "the verification policy was replaced after the plan was published")
          end
  end.

(** The plan was computed from this status. *)
Definition plan_current (m : PtahMigration) (plan : Plan) : result ctl_error unit :=
  let spec := PlanSpec_ plan in let s := Status_ m in
  guard (SupportedContractVersion (PlanContractVersion spec)) else ErrText "the published plan uses a contract version this manager does not publish";
  match MExecutionBinding s, History s, MArtifact s with
  | Some binding, Some history, Some artifact =>
      guard (bool_decide (PlanHistoryFingerprint spec = HistoryFingerprint_ history)) else ErrText "the database's history moved after the plan was published";
      guard (bool_decide (PlanTargetIdentityDigest spec = HistoryTargetIdentityDigest history)) else ErrText "the database identity changed after the plan was published";
      let '(statusArtifact, statusSource) := MigrationPlanSource (Some artifact) (MConfigMap s) (MSourcePolicy s) in
      guard (SamePlanSource (PlanArtifactDigest spec) (PlanSource_ spec) statusArtifact statusSource) else ErrText "the resolved artifact changed after the plan was published";
      guard (bool_decide (PlanExecutionBindingID spec = BindingEpoch binding) &&
             (PlanControllerStateVersion spec =? BindingStateVersion binding) &&
             bool_decide (PlanPtahVersion spec = BindingPtahVersion binding) &&
             bool_decide (PlanExecutorImage spec = BindingExecutorImage binding) &&
             (PlanRunnerProtocolVersion spec =? BindingProtocolVersion binding)) else ErrText "an execution component changed after the plan was published";
      guard (bool_decide (migrationPolicyFingerprint m = PlanPolicyFingerprint spec)) else ErrText "the apply policy changed after the plan was published";
      Ok tt
  | _, _, _ => Err (ErrText "the migration lost the evidence its plan was computed from")
  end.

Definition stands (meta : ObjectMeta) (uid : string) : bool :=
  bool_decide (MetaUID meta = uid) && bool_decide (DeletionTimestamp meta = None).

Definition currentMigrationPlan : M (result ctl_error Plan) :=
  m <~ get;
  match MPlan (Status_ m) with
  | None => ret (Err (ErrText "the migration has no published plan"))
  | Some (name, uid) =>
      read <~ ask (GetPlan name);
      match read with
      | Err e => ret (Err (ErrAPI e))
      | Ok plan =>
          if negb (stands (PlanMeta plan) uid) then ret (Err (ErrText "the published plan was replaced or is being deleted")) else
          match plan_current m plan with
          | Err e => ret (Err e)
          | Ok _ =>
              bound <~ verificationPolicyStillBinds plan;
              ret match bound with Some e => Err e | None => Ok plan end
          end
      end
  end.

Definition claimedApplyPolicyStillBinds (operation : MigrationOperationStatus) : M (option ctl_error) :=
  match OpPlanRef operation with
  | None => ret (Some (ErrText "the Apply claim names no plan to check the verification policy against"))
  | Some (name, uid) =>
      read <~ ask (GetPlan name);
      match read with
      | Err e => ret (Some (ErrAPI e))
      | Ok plan =>
          if bool_decide (MetaUID (PlanMeta plan) = uid) then verificationPolicyStillBinds plan
          else ret (Some (ErrText "the plan the Apply claim named was replaced"))
      end
  end.

Definition discardMigrationPlan (failure : ctl_error) : M answer :=
  before <~ get;
  status (fun s => setMigrationCondition "Ready" "False" "PlanNoLongerCurrent"
                     (setMigrationCondition "ApprovalRequired" "False" "PlanNoLongerCurrent"
                       (phase "Pending" (s <| MPlan := None |>)))) ;~
  err <~ patchMigrationStatus r before;
  match err with
  | Some e => ret (failed e)
  | None => ret (after_ statusPatchRequeue)
  end.

(** ** Approvals *)

Definition created_at (meta : ObjectMeta) : Z := default zeroTime (CreationTimestamp meta).

(** An approval that authorizes one run of this plan. *)
Definition authorizes (m : PtahMigration) (plan : Plan) (approval : Approval) : bool :=
  let spec := ApprovalSpec_ approval in
  negb (negb (bool_decide (DeletionTimestamp (ApprovalMeta approval) = None)) ||
        negb (bool_decide ((OwnerRef spec).2 = MUID m)) ||
        negb (bool_decide ((PlanRef spec).2 = MetaUID (PlanMeta plan))) ||
        blank (PlanFingerprint spec) ||
        negb (bool_decide (PlanFingerprint spec = PlanFingerprint_ (PlanSpec_ plan))) ||
        blank (IdUsername (Approver spec)) ||
        blank (MutationRequestUID spec) ||
        ApprovalStale approval || ApprovalConsumed approval).
Definition earlier (found : option Approval) (approval : Approval) : option Approval :=
  match found with
  | None => Some approval
  | Some found => if created_at (ApprovalMeta approval) <? created_at (ApprovalMeta found) then Some approval else Some found
  end.
Fixpoint pick_approval (m : PtahMigration) (plan : Plan) (items : list Approval) (found : option Approval) : option Approval :=
  match items with
  | [] => found
  | approval :: rest => pick_approval m plan rest (if authorizes m plan approval then earlier found approval else found)
  end.

Definition findMigrationApproval (plan : Plan) : M (result ctl_error (option Approval)) :=
  m <~ get;
  listed <~ ask ListApprovals;
  ret match listed with
      | Err e => Err (ErrAPI e)
      | Ok items => Ok (pick_approval m plan items None)
      end.

(** The conditions a status write of an approval sets. *)
Definition markMigrationApprovalStale (approval : Approval) : M (option ctl_error) :=
  err <~ ask (PatchApproval approval false);
  ret match err with
      | Some e => if IsNotFound e then None else Some (ErrAPI e)
      | None => None
      end.
Fixpoint mark_stale (m : PtahMigration) (withdraw : Approval -> bool) (items : list Approval) : M (option ctl_error) :=
  match items with
  | [] => ret None
  | approval :: rest =>
      if negb (bool_decide ((OwnerRef (ApprovalSpec_ approval)).2 = MUID m)) ||
         negb (bool_decide (DeletionTimestamp (ApprovalMeta approval) = None)) ||
         negb (withdraw approval) || ApprovalStale approval || ApprovalConsumed approval
      then mark_stale m withdraw rest
      else
        err <~ markMigrationApprovalStale approval;
        match err with Some e => ret (Some e) | None => mark_stale m withdraw rest end
  end.
Definition markMigrationApprovalsStaleWhere (withdraw : Approval -> bool) : M (option ctl_error) :=
  m <~ get;
  listed <~ ask ListApprovals;
  match listed with
  | Err e => ret (Some (ErrAPI e))
  | Ok items => mark_stale m withdraw items
  end.
Definition markMigrationApprovalsStale (keep : option ImmutableObjectReference) : M (option ctl_error) :=
  markMigrationApprovalsStaleWhere (fun approval =>
    match keep with None => true | Some keep => negb (bool_decide ((PlanRef (ApprovalSpec_ approval)).2 = keep.2)) end).

Inductive consumed : Type := Consumed_ | Withdrawn | ConsumeFailed (e : ctl_error).
Definition consumeMigrationApproval (reference : option ImmutableObjectReference) : M consumed :=
  match reference with
  | None => ret Consumed_
  | Some (name, uid) =>
      read <~ ask (GetApproval name);
      match read with
      | Err e => ret (if IsNotFound e then Withdrawn else ConsumeFailed (ErrAPI e))
      | Ok approval =>
          if negb (bool_decide (MetaUID (ApprovalMeta approval) = uid)) then ret Withdrawn else
          spent <~ (if ApprovalConsumed approval then ret None else ask (PatchApproval approval true));
          match spent with
          | Some e => ret (ConsumeFailed (ErrAPI e))
          | None =>
              err <~ markMigrationApprovalsStaleWhere (fun other =>
                bool_decide ((PlanRef (ApprovalSpec_ other)).2 = (PlanRef (ApprovalSpec_ approval)).2) &&
                negb (bool_decide (MetaUID (ApprovalMeta other) = MetaUID (ApprovalMeta approval))));
              ret match err with Some e => ConsumeFailed e | None => Consumed_ end
          end
      end
  end.

(** ** The claim *)

(** [randomNonce] does not fail: [crypto/rand.Read] never returns an error. *)
Definition newMigrationOperationID (inputFingerprint : string) : M string :=
  nonce <~ ask Entropy;
  ret (DigestCanonicalJSON (JObj [("input", JStr inputFingerprint); ("nonce", JStr nonce)])).

Definition migrationApplyLeaseGrace : Z := Minute.
Definition JobDeadlineGrace : Z := Minute.
Definition migrationActiveDeadline (m : PtahMigration) : Z :=
  if 0 <? ActiveDeadlineSeconds (Spec m) then ActiveDeadlineSeconds (Spec m) else 900.
Definition migrationApplyWindow (m : PtahMigration) : Z := int64_wrap (migrationActiveDeadline m * Second).
Definition migrationLeaseDuration (m : PtahMigration) : Z :=
  int64_wrap (migrationApplyWindow m + JobDeadlineGrace + migrationApplyLeaseGrace).

(** The artifact is resolved wherever this is called. *)
Definition migrationSourceBinding (m : PtahMigration) : option SourceAccessBinding :=
  match MArtifact (Status_ m) with
  | None => None
  | Some artifact =>
      match Snapshot artifact, Git artifact with
      | Some snapshot, _ => Some {| ResolvedReference := EmptyString; AccessDigest := EmptyString; RegistryAuthFrom := None;
                                    PlainHTTP := false; CAFrom := None; Snapshot := Some snapshot; Git := None |}
      | None, Some git =>
          let git := match ArtifactGit (Artifact (Spec m)) with
                     | Some spec => {| GitURL := GitURL git; GitRef_ := GitRef_ git; GitCommit := GitCommit git; GitPath := GitPath git;
                                       GitContentDigest := GitContentDigest git; GitAuthFrom := SpecAuthFrom spec;
                                       GitTransport := SpecTransport spec |}
                     | None => git
                     end in
          Some {| ResolvedReference := EmptyString; AccessDigest := EmptyString; RegistryAuthFrom := None;
                  PlainHTTP := false; CAFrom := None; Snapshot := None; Git := Some git |}
      | None, None =>
          Some {| ResolvedReference := ResolvedReference artifact; AccessDigest := AccessDigest artifact;
                  RegistryAuthFrom := ArtifactRegistryAuth (Artifact (Spec m)); PlainHTTP := ArtifactPlainHTTP (Artifact (Spec m));
                  CAFrom := ArtifactCAFrom (Artifact (Spec m)); Snapshot := None; Git := None |}
      end
  end.

Definition migrationBindingEpoch (m : PtahMigration) : string :=
  match MExecutionBinding (Status_ m) with None => EmptyString | Some binding => BindingEpoch binding end.

(** The claim of one Apply, without its actor and its Job's name. *)
Definition apply_claim (m : PtahMigration) (plan : Plan) (approval : option Approval) (id inputFingerprint : string) (startedAt : Z) :
    MigrationOperationStatus :=
  let notAfter := startedAt + migrationApplyWindow m in
  {| OpType := "Apply"; OpID := id; InputFingerprint := inputFingerprint; JobName := EmptyString; OpJobUID := EmptyString;
     StartedAt := startedAt; RetryNotBefore := None; Attempt := 1; ExecutionBindingID := migrationBindingEpoch m;
     OpSource := migrationSourceBinding m;
     OpTarget := Some {| TargetEngine := Engine (Target (Spec m)); TargetURLFrom := URLFrom (Spec m) |};
     OpCoordinationDigest := PlanCoordinationDigest (PlanSpec_ plan);
     OpPlanRef := Some (MetaName (PlanMeta plan), MetaUID (PlanMeta plan)); OpPlanFingerprint := PlanFingerprint_ (PlanSpec_ plan);
     OpDispatchStarted := false; DispatchNotAfter := Some notAfter; ExecutionNotAfter := Some notAfter;
     OpLeaseEpoch := "v1-" +:+ String.substring 0 32 (default id (cut_prefix "sha256:" id));
     OpLeaseDurationSeconds := int32_wrap (Z.quot (migrationLeaseDuration m) Second); LeaseContinuityLost := false;
     ApprovalRef := (fun a => (MetaName (ApprovalMeta a), MetaUID (ApprovalMeta a))) <$> approval;
     ApprovedBy := (fun a => Approver (ApprovalSpec_ a)) <$> approval;
     OpApprovedAt := approval ≫= (fun a => ApprovedAt (ApprovalSpec_ a));
     Actor := EmptyString; AdmissionSnapshot := None; AdmissionSnapshotRefreshed := false |}.

Definition claimMigrationApply (plan : Plan) (approval : option Approval) : M answer :=
  m <~ get;
  match ActiveOperation (Status_ m), UnresolvedRun (Status_ m) with
  | Some _, _ => ret (after_ statusPatchRequeue)
  | None, Some _ => migrationBlocked r "ApplyOutcomeUnknown"
  | None, None =>
      input <~ ask (InputFingerprintOf m "Apply");
      match input with
      | Err e => migrationOperationFailure r e
      | Ok input =>
          id <~ newMigrationOperationID input;
          startedAt <~ now;
          actor <~ ask (MigrationActor m approval);
          let operation := (apply_claim m plan approval id input startedAt) <| Actor := actor |> in
          named <~ ask (NameForMigration m operation);
          match named with
          | Err e => migrationOperationFailure r e
          | Ok name =>
              let operation := operation <| JobName := name |> in
              err <~ ensureMigrationFinalizer;
              match err with
              | Some e => ret (failed e)
              | None =>
                  before <~ get;
                  status (fun s =>
                    setMigrationCondition "ApprovalRequired" "False" "Satisfied"
                      (setMigrationCondition "Progressing" "True" "ApprovedPlan"
                        (phase "Applying" (observed before
                          (s <| ActiveOperation := Some operation |> <| NextReconciliationTime := None |>))))) ;~
                  err <~ patchMigrationStatus r before;
                  match err with
                  | Some e => ret (failed e)
                  | None => ret (after_ statusPatchRequeue)
                  end
              end
          end
      end
  end.

Definition reconcileMigrationApplyDecision : M answer :=
  current <~ currentMigrationPlan;
  match current with
  | Err e => discardMigrationPlan e
  | Ok plan =>
      m <~ get;
      if bool_decide (PolicyApply (Spec m) = "Never") then requeue_next
      else if bool_decide (PolicyApply (Spec m) = "Always") then claimMigrationApply plan None
      else
        found <~ findMigrationApproval plan;
        match found with
        | Err e => ret (failed e)
        | Ok None => requeue_next
        | Ok (Some approval) => claimMigrationApply plan (Some approval)
        end
  end.

(** ** The realm an Apply runs under *)

Definition lockContentionRequeue (contention : option Z) : Z :=
  match contention with
  | None => maxLockContentionPoll
  | Some after => Z.min (Z.max after Second) maxLockContentionPoll
  end.

(** Whether the lock is held, whether another holds it, when to ask again, and
    the error. *)
Definition lock_answer : Type := bool * bool * Z * option ctl_error.

Definition tryMigrationApplyLock : M lock_answer :=
  m <~ get;
  match ActiveOperation (Status_ m) with
  | None => ret (true, false, 0, None)
  | Some operation =>
      if negb (holdsLock (Some operation)) then ret (true, false, 0, None) else
      if blank (LockNamespace r) then ret (false, false, 0, Some (ErrText "the database lock coordinator is not configured")) else
      if empty (OpCoordinationDigest operation) || (OpLeaseDurationSeconds operation <? 1)
      then ret (false, false, 0, Some (ErrText "the Apply claim carries no database lock binding")) else
      acquired <~ lift (hoist (@LockCall) (Acquire (isDNS1123Label r) (LockerInitialized r)
                    {| TargetLock.CoordinationNamespace := LockNamespace r; TargetLock.CoordinationDigest := OpCoordinationDigest operation;
                       RequestHolder := {| SchemaUID := MUID m; TargetLock.OperationID := OpID operation |};
                       Duration := OpLeaseDurationSeconds operation * Second; ExpectedEpoch := OpLeaseEpoch operation |}));
      match acquired with
      | Err e => ret (false, false, 0, Some (ErrLock e))
      | Ok result =>
          if negb (Acquired result) then ret (false, true, lockContentionRequeue (Contention result), None) else
          if bool_decide (Epoch result = OpLeaseEpoch operation) && negb (ContinuityLost result) then ret (true, false, 0, None) else
          let lost := empty (OpLeaseEpoch operation) || ContinuityLost result || negb (bool_decide (Epoch result = OpLeaseEpoch operation)) in
          let lost := if lost && negb (empty (OpLeaseEpoch operation)) && negb (migrationMayHaveDispatched (Some operation))
                      then false else lost in
          before <~ get;
          status (fun s =>
            let s := s <| ActiveOperation := Some (operation <| OpLeaseEpoch := Epoch result |> <| LeaseContinuityLost := lost |>) |> in
            let s := if bool_decide (conditionReason "Progressing" s = Some "WaitingForDatabaseLock")
                     then setMigrationCondition "Progressing" "True" "OperationInProgress" s else s in
            if lost then setMigrationCondition "Ready" "False" "LeaseContinuityLost" s else s) ;~
          err <~ patchMigrationStatus r before;
          match err with
          | Some e => ret (false, false, 0, Some e)
          | None => ret (false, false, statusPatchRequeue, None)
          end
      end
  end.

Definition waitForMigrationApplyLock : M (bool * Z * option ctl_error) :=
  tried <~ tryMigrationApplyLock;
  let '(acquired, contended, requeue, err) := tried in
  if match err with Some _ => true | None => false end || negb contended then ret (acquired, requeue, err) else
  before <~ get;
  status (setMigrationCondition "Progressing" "True" "WaitingForDatabaseLock") ;~
  err <~ patchMigrationStatus r before;
  match err with
  | Some e => ret (false, 0, Some e)
  | None => ret (false, requeue, None)
  end.

Definition acquireMigrationApplyLock : M (bool * Z * option ctl_error) :=
  tried <~ tryMigrationApplyLock;
  let '(acquired, _, requeue, err) := tried in ret (acquired, requeue, err).
End Apply.
