(* ===== verification/MigrationRuns.v ===== *)
(** * Runs of a migration (internal/controller/migration_apply.go,
    migration_controller.go)

    Whether the workload of a dispatched Apply may still write, what the
    controller records of a run and of one nobody accounted for, what a
    reading of the history says, and the plan that follows from it. *)
From stdpp Require Import base list gmap strings.
From Stdlib Require Import ZArith Lia Ascii.
From S2P Require Import Prelude Effects GoStrings Json Fingerprint TargetLock MutationLifecycle PlanStore KubeMeta.
From S2P Require Import SourceContent SourceSnapshot SourceBinding SourcePolicy MigrationStatus MigrationPlan.
From S2P Require Import ResultRetention ApprovalAdmission Cadence RealmCensus DispatchDriver MigrationTypes.
From S2P Require Import MigrationClaims MigrationApply.
Local Open Scope go_scope.
Local Open Scope ctl_scope.
Local Open Scope Z_scope.

(** ** Outcomes (internal/jobclaim) *)

Definition MigrationRunOutcome (reported : string) : string :=
  if bool_decide (reported = MigrationOutcomeUpToDate) then "UpToDate"
  else if bool_decide (reported = MigrationOutcomeApplied) || bool_decide (reported = MigrationOutcomeDryRun) then "Applied"
  else if bool_decide (reported = MigrationOutcomeFailed) then "Failed"
  else if bool_decide (reported = MigrationOutcomePartial) then "Partial"
  else "Unknown".
Definition MigrationRunUnresolved (outcome : string) : bool := bool_decide (outcome = "Partial") || bool_decide (outcome = "Unknown").
Definition MigrationRunStops (outcome : string) (leftDirtyRevision : bool) : bool :=
  MigrationRunUnresolved outcome || (bool_decide (outcome = "Failed") && leftDirtyRevision).
Definition MigrationRunKeepsLog (approved : bool) (outcome : string) (leftDirtyRevision : bool) : bool :=
  approved || MigrationRunStops outcome leftDirtyRevision.

Section Runs.
Context (r : Manager).

(** ** Whether a dispatched Apply may still write *)

(** The Pods a Job owns; their order is not used. *)
Definition owned_by (jobName jobUID : string) (pod : Pod) : bool :=
  exactControllerOwner (OwnerReferences (PodMeta pod)) "batch/v1" "Job" jobName jobUID.
Definition podsOwnedByJob (jobName jobUID : string) : M (result ctl_error (list Pod)) :=
  if empty jobName || empty jobUID then ret (Ok []) else
  listed <~ ask ListPods;
  ret match listed with Err e => Err (ErrAPI e) | Ok items => Ok (List.filter (owned_by jobName jobUID) items) end.

Definition podsStopped (jobName jobUID : string) : M (result ctl_error bool) :=
  pods <~ podsOwnedByJob jobName jobUID;
  ret match pods with Err e => Err e | Ok pods => Ok (forallb pod_stopped pods) end.

(** The Job under the dispatched name, with the identity the Pods are read
    by: [inl] when the answer is known without them. *)
Definition read_dispatched (jobName jobUID : string) : M (bool + option Job * string * string) :=
  if empty jobName then ret (inr (None, jobName, jobUID)) else
  read <~ ask (GetJob jobName);
  ret match read with
      | Err e => if IsNotFound e then if empty jobUID then inl false else inr (None, jobName, jobUID) else inl true
      | Ok dispatched =>
          if empty jobUID || bool_decide (MetaUID (JobMeta dispatched) = jobUID)
          then inr (Some dispatched, MetaName (JobMeta dispatched), MetaUID (JobMeta dispatched))
          else inr (None, jobName, jobUID)
      end.

(** The name and UID of the dispatched Job, from the claim or the Job itself. *)
Definition dispatched_as (operation : MigrationOperationStatus) (job : option Job) : string * string :=
  match job with
  | Some job => if empty (OpJobUID operation) then (MetaName (JobMeta job), MetaUID (JobMeta job)) else (JobName operation, OpJobUID operation)
  | None => (JobName operation, OpJobUID operation)
  end.

Definition dispatchedApplyMayStillWrite (operation : MigrationOperationStatus) (job : option Job) : M bool :=
  let '(jobName, jobUID) := dispatched_as operation job in
  if empty jobUID && empty jobName then ret false else
  found <~ match job with
           | Some job => if bool_decide (MetaUID (JobMeta job) = jobUID) then ret (inr (Some job, jobName, jobUID))
                         else read_dispatched jobName jobUID
           | None => read_dispatched jobName jobUID
           end;
  match found with
  | inl answer => ret answer
  | inr (job, jobName, jobUID) =>
      if match job with Some job => bool_decide (MetaUID (JobMeta job) = jobUID) && negb (jobTerminal job) | None => false end
      then ret true else
      pods <~ podsOwnedByJob jobName jobUID;
      ret match pods with Err _ => true | Ok pods => negb (forallb pod_stopped pods) end
  end.

(** ** What is recorded of a run *)

(** [recordMigrationRunProvenance]. *)
Definition recordMigrationRunProvenance (m : PtahMigration) (operation : MigrationOperationStatus) (reportedTarget : string)
    (run : MigrationRunStatus) : MigrationRunStatus :=
  let '(artifact, source) := MigrationPlanSource (OpSource operation) (MConfigMap (Status_ m)) (MSourcePolicy (Status_ m)) in
  let run := run <| LastOperationID := OpID operation |> <| LastPlanRef := OpPlanRef operation |>
               <| LastPlanFingerprint := OpPlanFingerprint operation |> <| LastArtifactDigest := artifact |> <| LastSource := source |>
               <| LastExecutionBindingID := ExecutionBindingID operation |> in
  let run := if is_sha256_digest reportedTarget then run <| LastTargetIdentityDigest := reportedTarget |> else run in
  run <| Authorization := Some match ApprovalRef operation with
                               | None => {| AuthorizationKind := "Policy"; AuthorizationRef := None; AuthorizationApprover := None;
                                            AuthorizationAt := None |}
                               | Some reference => {| AuthorizationKind := "Approval"; AuthorizationRef := Some reference;
                                                      AuthorizationApprover := ApprovedBy operation; AuthorizationAt := OpApprovedAt operation |}
                               end |>.

Definition migrationRunTarget (m : PtahMigration) (reportedTarget : string) : string :=
  if is_sha256_digest reportedTarget then reportedTarget else
  match History (Status_ m) with Some history => HistoryTargetIdentityDigest history | None => EmptyString end.

(** An Apply claim names its plan. *)
Definition recordUnresolvedMigrationRun (m : PtahMigration) (operation : MigrationOperationStatus) (run : MigrationRunStatus)
    (reportedTarget : string) (now : Z) (s : PtahMigrationStatus) : PtahMigrationStatus :=
  s <| UnresolvedRun := Some
         {| RunOutcome := LastOutcome run; RunOperationID := OpID operation; RunJobName := LastJobName run; RunJobUID := LastJobUID run;
            RunPlanRef := default (EmptyString, EmptyString) (OpPlanRef operation);
            RunTargetIdentityDigest := migrationRunTarget m reportedTarget; RunDispatchedBy := LastDispatchedBy run;
            RunRecordedAt := FormatTime r now |} |>.

Definition new_run (outcome : string) (startedAt finishedAt : Z) : MigrationRunStatus :=
  {| LastOutcome := outcome; LastJobName := EmptyString; LastJobUID := EmptyString; LastOperationID := EmptyString; LastPlanRef := None;
     LastPlanFingerprint := EmptyString; Authorization := None; LastArtifactDigest := EmptyString; LastSource := None;
     LastTargetIdentityDigest := EmptyString; LastExecutionBindingID := EmptyString; Verification := None; LastStartedAt := startedAt;
     LastFinishedAt := Some finishedAt; AppliedVersions := []; LastDispatchedBy := None; LastFailure := None |}.
Definition run_of_job (job : Job) (run : MigrationRunStatus) : MigrationRunStatus :=
  run <| LastJobName := MetaName (JobMeta job) |> <| LastJobUID := MetaUID (JobMeta job) |> <| LastDispatchedBy := JobDispatcher job |>.

(** ** A run nobody accounted for *)

(** Which Job the record of an uncertain run names. *)
Definition uncertain_run (operation : MigrationOperationStatus) (job : option Job) (finishedAt : Z) : MigrationRunStatus :=
  let run := new_run "Unknown" (StartedAt operation) finishedAt in
  match job with
  | Some job =>
      if empty (OpJobUID operation) || bool_decide (MetaUID (JobMeta job) = OpJobUID operation) then run_of_job job run
      else run <| LastJobName := JobName operation |> <| LastJobUID := OpJobUID operation |>
  | None =>
      if empty (OpJobUID operation) then run
      else run <| LastJobName := JobName operation |> <| LastJobUID := OpJobUID operation |>
  end.

(** The status of an uncertain run before its claim is retired. *)
Definition uncertain_status (m : PtahMigration) (operation : MigrationOperationStatus) (run : MigrationRunStatus) (failure : ctl_error)
    (reportedTarget : string) (recorded next : Z) (s : PtahMigrationStatus) : PtahMigrationStatus :=
  next_at next (setMigrationTargetFailure (Some failure)
    (setMigrationCondition "Progressing" "False" "ApplyOutcomeUnknown"
      (setMigrationCondition "Ready" "False" "ApplyOutcomeUnknown"
        (setMigrationCondition "Blocked" "True" "ApplyOutcomeUnknown"
          (phase "Blocked"
            ((recordUnresolvedMigrationRun m operation run reportedTarget recorded (s <| LastRun := Some run |>)) <| MPlan := None |>)))))).

Definition retireUncertainMigrationApply (job : option Job) (failure : ctl_error) (reportedTarget : string) (mayStillWrite : bool) : M answer :=
  m <~ get;
  match ActiveOperation (Status_ m) with
  | None => ret done_
  | Some operation =>
      match job with
      | None => ret tt
      | Some job =>
          outcome <~ ask (ReportedOutcome job);
          ask (PatchJobTTL job (MigrationRunKeepsLog (bool_decide (is_Some (ApprovalRef operation))) outcome false)) ;~ ret tt
      end ;~
      before <~ get;
      finishedAt <~ now;
      recorded <~ now;
      t <~ now;
      let run := recordMigrationRunProvenance before operation reportedTarget (uncertain_run operation job finishedAt) in
      status (uncertain_status before operation run failure reportedTarget recorded (t + migrationInterval (Interval (Spec before)))) ;~
      err <~ retireMigrationClaim r before DispositionUnaccounted mayStillWrite;
      match err with
      | Some e => ret (failed e)
      | None => if mayStillWrite then ret (after_ (5 * Second)) else requeue_next
      end
  end.

Definition finishUncertainMigrationApply (job : option Job) (failure : ctl_error) (reportedTarget : string) : M answer :=
  m <~ get;
  match ActiveOperation (Status_ m) with
  | None => ret done_
  | Some operation =>
      mayStillWrite <~ dispatchedApplyMayStillWrite operation job;
      retireUncertainMigrationApply job failure reportedTarget mayStillWrite
  end.

Definition reconcileUnaccountedMigrationApply : M answer :=
  m <~ get;
  match ActiveOperation (Status_ m) with
  | None => ret done_
  | Some operation =>
      mayStillWrite <~ dispatchedApplyMayStillWrite operation None;
      if mayStillWrite : bool then
        renewed <~ acquireMigrationApplyLock r;
        match renewed.2 with
        | Some e => ret (failed e)
        | None => ret (after_ (5 * Second))
        end
      else
        before <~ get;
        err <~ retireMigrationClaim r before DispositionUnaccounted false;
        match err with
        | Some e => ret (failed e)
        | None => ret (after_ statusPatchRequeue)
        end
  end.

(** ** A run that reported *)

Definition boundedVersions (versions : list Z) (limit : nat) : list Z := take limit versions.

(** [ParseTargetFailureKind] and [databaseReachableReasons]. *)
Definition target_failure (code : string) : option ctl_error :=
  if bool_decide (code = "database_unreachable") then Some (ErrTarget "DatabaseUnreachable")
  else if bool_decide (code = "authentication_failed") then Some (ErrTarget "AuthenticationFailed")
  else if bool_decide (code = "database_not_found") then Some (ErrTarget "DatabaseNotFound")
  else if bool_decide (code = "permission_denied") then Some (ErrTarget "PermissionDenied")
  else if bool_decide (code = "tls_failed") then Some (ErrTarget "TLSFailed")
  else None.
Definition resultFailure (code : string) : ctl_error := default (ErrText code) (target_failure code).

Definition left_dirty (report : MigrationRunReport) : bool :=
  match MigrationStatus.Status report with Some s => match DirtyRevision s with Some _ => true | None => false end | None => false end.

(** [reportedMigrationRun] of a report; its message is not kept. *)
Definition reportedMigrationRun (report : MigrationRunReport) (failure : option string) : migrationRunAccount :=
  let stopped := StoppedBeforeSelecting report in
  {| AccountOutcome := MigrationRunOutcome (MigrationStatus.Outcome report); AccountApplied := boundedVersions (Applied report) 256;
     AccountFailure := Failure report; StoppedBeforeSelecting_ := stopped;
     TargetFailure := if stopped then failure ≫= target_failure else None;
     LeftDirtyRevision := left_dirty report; OpenedTarget := negb stopped |}.

Definition frameMigrationApply (result : RunnerResult) : reportedMigrationApply :=
  {| ReportedRun := match ResMigrationRun result with Some run => Some (reportedMigrationRun run (ResError result)) | None => None end;
     ReportedFailure := match ResError result with
                        | Some code => resultFailure code
                        | None => ErrText "the Apply produced no readable account of what the database now holds"
                        end;
     ReportedUncertain := ResUncertain result; ReportedCoordinationDigest := ResCoordinationDigest result;
     ReportedTarget := ResTargetIdentityDigest result |}.

(** The run the status keeps, and the status, before the claim is retired. *)
Definition recorded_run (m : PtahMigration) (operation : MigrationOperationStatus) (job : Job) (run : migrationRunAccount)
    (reportedTarget : string) (finishedAt : Z) : MigrationRunStatus :=
  recordMigrationRunProvenance m operation reportedTarget
    ((run_of_job job (new_run (AccountOutcome run) (StartedAt operation) finishedAt))
       <| AppliedVersions := AccountApplied run |> <| LastFailure := AccountFailure run |>).
Definition recorded_status (m : PtahMigration) (operation : MigrationOperationStatus) (run : migrationRunAccount) (last : MigrationRunStatus)
    (reportedTarget : string) (t : Z) (s : PtahMigrationStatus) : PtahMigrationStatus :=
  let s := setMigrationTargetFailure (TargetFailure run) (s <| LastRun := Some last |> <| MPlan := None |>) in
  let s := if OpenedTarget run then setMigrationTargetOpened s else s in
  if MigrationRunUnresolved (AccountOutcome run) then
    next_at (t + migrationInterval (Interval (Spec m)))
      (setMigrationCondition "Progressing" "False" "ApplyOutcomeUnknown" (setMigrationCondition "Ready" "False" "ApplyOutcomeUnknown"
        (setMigrationCondition "Blocked" "True" "ApplyOutcomeUnknown"
          (phase "Blocked" (recordUnresolvedMigrationRun m operation last reportedTarget t s)))))
  else if StoppedBeforeSelecting_ run then
    setMigrationCondition "Progressing" "False" "OperationFailed" (setMigrationCondition "Ready" "False" "OperationFailed"
      (next_at (t + failureRetry (FailureRetryInterval (Spec m))) (phase "Failed" s)))
  else setMigrationCondition "Progressing" "True" "VerifyingConvergence" (phase "VerifyingHistory" s).

Definition recordMigrationRun (job : Job) (run : migrationRunAccount) (reportedTarget : string) : M answer :=
  m <~ get;
  match ActiveOperation (Status_ m) with
  | None => ret done_
  | Some operation =>
      let settled := bool_decide (AccountOutcome run = "Applied") || bool_decide (AccountOutcome run = "UpToDate") in
      scheduled <~ ask (PatchJobTTL job (negb settled && MigrationRunKeepsLog (bool_decide (is_Some (ApprovalRef operation)))
                                                         (AccountOutcome run) (LeftDirtyRevision run)));
      match scheduled with
      | Some e => ret (failed (ErrAPI e))
      | None =>
          finishedAt <~ now;
          t <~ now;
          before <~ get;
          let last := recorded_run before operation job run reportedTarget finishedAt in
          status (recorded_status before operation run last reportedTarget t) ;~
          err <~ retireMigrationClaim r before DispositionAccounted false;
          match err with
          | Some e => ret (failed e)
          | None => ret (after_ statusPatchRequeue)
          end
      end
  end.

(** The history is read before an Apply is claimed. *)
Definition other_target (m : PtahMigration) (operation : MigrationOperationStatus) (reported : reportedMigrationApply) : bool :=
  negb (bool_decide (ReportedCoordinationDigest reported = OpCoordinationDigest operation)) ||
  (bool_decide (is_Some (OpTarget operation)) &&
   negb (bool_decide (Some (ReportedTarget reported) = HistoryTargetIdentityDigest <$> History (Status_ m)))).
Definition settleMigrationApply (job : Job) (reported : reportedMigrationApply) : M answer :=
  m <~ get;
  match ActiveOperation (Status_ m) with
  | None => ret done_
  | Some operation =>
      match ReportedRun reported with
      | None => finishUncertainMigrationApply (Some job) (ReportedFailure reported) (ReportedTarget reported)
      | Some run =>
          if negb (ReportedUncertain reported) && other_target m operation reported
          then finishUncertainMigrationApply (Some job)
                 (ErrText "the Apply ran against a database other than the one it was planned for") (ReportedTarget reported)
          else recordMigrationRun job run (ReportedTarget reported)
      end
  end.

Definition settleUnreadMigrationApply (job : Job) (parseErr : ctl_error) : M answer :=
  summary <~ ask (SummaryStandIn job);
  match summary with
  | None => finishUncertainMigrationApply (Some job) parseErr EmptyString
  | Some reported => settleMigrationApply job reported
  end.
End Runs.
