(* ===== verification/JobRetention.v ===== *)
(** * How long a run keeps its log (package [internal/jobclaim], retention.go)

    The outcome a migration Apply's Pod reported, read from the one Pod its
    Job owns, and the two rules on the long TTL: the manager's, which sees the
    run's report, and the webhook's, which sees the termination summary. *)
From Stdlib Require Import ZArith Lia.
From stdpp Require Import base list gmap strings.
From S2P Require Import Prelude GoStrings KubeMeta MigrationRuns.

Definition executorContainer : string := "ptah".
Definition OperationMigrationApply : string := "migration-apply".

Definition controlledBy (references : list OwnerReference) (jobUID : string) : bool :=
  existsb (fun r => bool_decide (OwnerUID r = jobUID) && bool_decide (Controller r = Some true)) references.

(** A Pod, as [ApplySummary] reads it: its owners, and for each container
    status its name and the message it terminated with, where it did. *)
Record PodReport : Type := { ReportOwners : list OwnerReference; ReportStatuses : list (string * option string) }.

Section Summary.
(** [runner.ParseSummaryFor]: the summary a message holds for an operation;
    and the outcome of the migration report in it, where it has one. *)
Context {S : Type} (ParseSummaryFor : string -> string -> string -> option S) (reported_outcome : S -> option string).

(** The first status of the executor that terminated decides. *)
Fixpoint first_terminated (statuses : list (string * option string)) : option string :=
  match statuses with
  | [] => None
  | (name, message) :: rest =>
      match message with
      | Some m => if bool_decide (name = executorContainer) then Some m else first_terminated rest
      | None => first_terminated rest
      end
  end.

Definition ApplySummary (pods : list PodReport) (jobUID operation operationID : string) : option S :=
  match filter (fun pod => controlledBy (ReportOwners pod) jobUID = true) pods with
  | [owned] => message ← first_terminated (ReportStatuses owned); ParseSummaryFor message operation operationID
  | _ => None
  end.

Definition ReportedMigrationRun (pods : list PodReport) (jobUID operationID : string) : string :=
  match ApplySummary pods jobUID OperationMigrationApply operationID ≫= reported_outcome with
  | Some outcome => MigrationRunOutcome outcome
  | None => "Unknown"
  end.
End Summary.

Definition MigrationRunMayKeepLog (outcome : string) : bool :=
  negb (bool_decide (outcome = "Applied")) && negb (bool_decide (outcome = "UpToDate")).

(** Every run the manager keeps the log of for its outcome is one admission
    lets it keep. *)
Lemma kept_is_admitted (outcome : string) (leftDirtyRevision : bool) :
  MigrationRunKeepsLog false outcome leftDirtyRevision = true -> MigrationRunMayKeepLog outcome = true.
Proof.
  unfold MigrationRunKeepsLog, MigrationRunStops, MigrationRunUnresolved, MigrationRunMayKeepLog. simpl.
  rewrite !orb_true_iff, !andb_true_iff, !bool_decide_eq_true. intros [[->| ->]|[-> _]]; done.
Qed.

(** A run whose Pods do not speak with one voice is one nobody accounted for,
    and keeps its log however it ended. *)
Lemma ambiguous_run_kept {S} (parse : string -> string -> string -> option S) outcome_of pods jobUID operationID dirty :
  length (filter (fun pod => controlledBy (ReportOwners pod) jobUID = true) pods) <> 1%nat ->
  MigrationRunKeepsLog false (ReportedMigrationRun parse outcome_of pods jobUID operationID) dirty = true.
Proof.
  unfold ReportedMigrationRun, ApplySummary. destruct (filter _ pods) as [|p [|q l]]; simpl; [done|done|done].
Qed.
