(* ===== verification/WriteRequest.v ===== *)
(** * Requests of the manager's writes (package [internal/controllerwrite])

    What every check of the write guard shares: the admission request and its
    type, the decoding of a candidate, the fields of a Job nobody reviewed,
    its one exact controller owner, and the metadata only the server fills.
    [Validator.Validate] itself is in [WriteGuard].

    [sigs.k8s.io/json.UnmarshalStrict] is a parameter that gives the kind and
    the object of a document it decodes without an error, strict or not. *)
From Stdlib Require Import ZArith Lia.
From stdpp Require Import base list gmap strings.
From S2P Require Import Prelude GoStrings Fingerprint TargetLock KubeMeta.
Local Open Scope go_scope.
Local Open Scope Z_scope.

(** ** Requests *)

Record GroupVersionKind : Type := { KindGroup : string; KindVersion : string; KindName : string }.
#[export] Instance GroupVersionKind_eq_dec : EqDecision GroupVersionKind.
Proof. solve_decision. Defined.
Record GroupVersionResource : Type := { ResourceGroup : string; ResourceVersion_ : string; ResourceName : string }.
#[export] Instance GroupVersionResource_eq_dec : EqDecision GroupVersionResource.
Proof. solve_decision. Defined.

(** [AdmissionRequest]; the raw objects and options are their bytes. *)
Record AdmissionRequest : Type := {
  RequestUID : string;
  RequestKindOf : GroupVersionKind;
  RequestResourceOf : GroupVersionResource;
  SubResource : string;
  RequestKind : option GroupVersionKind;
  RequestResource : option GroupVersionResource;
  RequestSubResource : string;
  RequestName : string;
  RequestNamespace : string;
  RequestOperation : string;
  RequestUsername : string;
  RequestObject : string;
  RequestOldObject : string;
  RequestOptions : string;
}.

Definition operator_kind (name : string) : GroupVersionKind :=
  {| KindGroup := "operator.ptah.run"; KindVersion := "v1alpha1"; KindName := name |}.
Definition operator_resource (name : string) : GroupVersionResource :=
  {| ResourceGroup := "operator.ptah.run"; ResourceVersion_ := "v1alpha1"; ResourceName := name |}.
Definition jobKind : GroupVersionKind := {| KindGroup := "batch"; KindVersion := "v1"; KindName := "Job" |}.
Definition jobResource : GroupVersionResource := {| ResourceGroup := "batch"; ResourceVersion_ := "v1"; ResourceName := "jobs" |}.
Definition configMapKind : GroupVersionKind := {| KindGroup := EmptyString; KindVersion := "v1"; KindName := "ConfigMap" |}.
Definition configMapResource : GroupVersionResource := {| ResourceGroup := EmptyString; ResourceVersion_ := "v1"; ResourceName := "configmaps" |}.
Definition planKind : GroupVersionKind := operator_kind "PtahSchemaPlan".
Definition planResource : GroupVersionResource := operator_resource "ptahschemaplans".
Definition planChunkKind : GroupVersionKind := operator_kind "PtahSchemaPlanChunk".
Definition planChunkResource : GroupVersionResource := operator_resource "ptahschemaplanchunks".
Definition migrationPlanKind : GroupVersionKind := operator_kind "PtahMigrationPlan".
Definition migrationPlanResource : GroupVersionResource := operator_resource "ptahmigrationplans".

(** ** Refusals *)

(** What [badRequestf] says. *)
Inductive malformed : Type :=
| EmptyRequestUID | UnexpectedOldObject | NoOldObject | NoCandidate | Undecodable | OtherTypeMetadata | UnreviewedField (path : string).

(** What [denyf] says. *)
Inductive denial : Type :=
| NotTheManager | OnSubResource | OutsideContract | OperationRefused
| RequestTypeDiffers | ConvertedResource | ConvertedKind | CandidateIdentity | StatusInjected
| NoExactOwner | OwnerNotCurrent | OwnerDeleting
| NoMatchingOperation | NotReconstructed | SealKeyInvalid | OutsideIntent
| IdentityChanged | NotTTLTransition | TTLOutsideChoices | TTLOfOtherOperation | TTLOfSuccess | TTLNotApproved | TTLOfMigrationRun
| OwnerChanged | NotTerminal | NotPendingCleanup | NotActiveInstance | NoEnvelopeKeys | OutsideClaim | OtherFieldsChanged
| NoPlanReference | PlanUIDDiffers | PlanMetadataInvalid | PlanShapeInvalid | OtherPublication | OtherManager | SourceJobInvalid
| NotInManifest | ChunkInvalid | NotDispatchable | ProjectionInvalid (index : Z) | ChunksUnbound | ProjectionTooLarge | ProjectionContent
| SnapshotMalformed | SnapshotOwner | NotAConfigMapSource | SourceMissing | SnapshotDiffers
| NoExactResult | ResultIdentityDiffers | NotByTheManager | OutsideReserved | NoResultTrust | NotAuthorized | FrozenBinding
| NoPersistedIdentity | DeletionOptions | NeedsCascade | Retained (until : option Z).

(** [validationFailure]: [denyf], [badRequestf] and [internalf]. *)
Inductive failure : Type :=
| Denied (reason : denial)
| BadRequest (reason : malformed)
| NotInitialized
| ReadFailed (e : api_error).

(** [errors.As] finds a [validationFailure], and its kind picks the answer. *)
Inductive response : Type := Errored (code : Z) | DeniedResponse | Allowed.
Definition answer (r : result failure unit) : response :=
  match r with
  | Ok _ => Allowed
  | Err (BadRequest _) => Errored 400
  | Err NotInitialized | Err (ReadFailed _) => Errored 500
  | Err (Denied _) => DeniedResponse
  end.

Definition validateRequestType (req : AdmissionRequest) (resource : GroupVersionResource) (kind : GroupVersionKind) : result failure unit :=
  guard bool_decide (RequestKindOf req = kind) else Denied RequestTypeDiffers;
  guard match RequestResource req with Some r => bool_decide (r = resource) | None => true end else Denied ConvertedResource;
  guard match RequestKind req with Some k => bool_decide (k = kind) | None => true end else Denied ConvertedKind;
  Ok tt.

Definition validateRequestIdentity (req : AdmissionRequest) (metadata : ObjectMeta) : result failure unit :=
  guard negb (empty (RequestObject req)) else BadRequest NoCandidate;
  guard negb (empty (RequestNamespace req)) && negb (empty (RequestName req)) && bool_decide (MetaNamespace metadata = RequestNamespace req) &&
        bool_decide (MetaName metadata = RequestName req) else Denied CandidateIdentity;
  Ok tt.

(** [unreviewed] is empty but for a Job. *)
Definition decodeObject {T} (UnmarshalStrict : string -> option (GroupVersionKind * T)) (unreviewed : T -> string) (raw : string)
    (kind : GroupVersionKind) : result failure T :=
  guard negb (empty raw) else BadRequest NoCandidate;
  match UnmarshalStrict raw with
  | None => Err (BadRequest Undecodable)
  | Some (actualKind, object) =>
      guard bool_decide (actualKind = kind) else BadRequest OtherTypeMetadata;
      guard empty (unreviewed object) else BadRequest (UnreviewedField (unreviewed object));
      Ok object
  end.
Definition no_field {T} (_ : T) : string := EmptyString.

(** ** Fields of a Job nobody reviewed (job_fields.go)

    The fields the compiled Kubernetes types have and the Job contract was
    reviewed without: a pointer to one is an [option]. *)

(** A probe's handler: its HTTP and gRPC action, where it has one, by its
    [protocol] and its [mode]. *)
Record ProbeFields : Type := { HTTPGet : option (option string); GRPC : option (option string) }.
Record ContainerFields : Type := {
  BindMountOptions : list (option string);
  LivenessProbe : option ProbeFields;
  ReadinessProbe : option ProbeFields;
  StartupProbe : option ProbeFields;
  (** The lifecycle's [postStart] and [preStop], each by its HTTP action. *)
  Lifecycle : option (option (option (option string)) * option (option (option string)));
}.
(** A volume or a projection source: the user its files are given, and the
    users of its items. *)
Record FileSource : Type := { DefaultUser : option Z; ItemUsers : list (option Z) }.
Record ProjectionFields : Type := {
  ProjectedConfigMap : option (list (option Z));
  ProjectedSecretItems : option (list (option Z));
  ProjectedDownwardAPI : option (list (option Z));
  TokenUser : option (option Z);
  TrustBundleUser : option (option Z);
  CertificateUser : option (option Z);
}.
Record VolumeFields : Type := {
  EmptyDirMode : option (option Z);
  ConfigMapFiles : option FileSource;
  SecretFiles : option FileSource;
  DownwardFiles : option FileSource;
  ProjectedFiles : option (option Z * list ProjectionFields);
}.
Record JobFields : Type := {
  Scheduling : option string;
  EvictionResponders : option string;
  VolumeFieldsOf : list VolumeFields;
  InitFields : list ContainerFields;
  MainFields : list ContainerFields;
  EphemeralFields : list ContainerFields;
}.

(** The first that names a field. *)
Fixpoint first_of (l : list string) : string :=
  match l with
  | [] => EmptyString
  | s :: rest => if empty s then first_of rest else s
  end.
Definition under (path field : string) : string := if empty field then EmptyString else path +:+ field.
Definition index_path (list_name : string) (index : nat) : string := list_name +:+ "[" +:+ format_int (Z.of_nat index) +:+ "].".
Definition in_list {A} (list_name : string) (field : A -> string) (l : list A) : string :=
  first_of (imap (fun i a => under (index_path list_name i) (field a)) l).
Definition set_field {A} (name : string) (o : option A) : string := match o with Some _ => name | None => EmptyString end.
Definition in_some {A} (field : A -> string) (o : option A) : string := match o with Some a => field a | None => EmptyString end.

(** [unreviewedItemUser] and [unreviewedFileUser]. *)
Definition unreviewedItemUser (items : list (option Z)) : string := in_list "items" (set_field "user") items.
Definition unreviewedProjectionField (p : ProjectionFields) : string :=
  first_of [in_some (fun items => under "configMap." (unreviewedItemUser items)) (ProjectedConfigMap p);
            in_some (fun items => under "secret." (unreviewedItemUser items)) (ProjectedSecretItems p);
            in_some (fun items => under "downwardAPI." (unreviewedItemUser items)) (ProjectedDownwardAPI p);
            in_some (set_field "serviceAccountToken.user") (TokenUser p);
            in_some (set_field "clusterTrustBundle.user") (TrustBundleUser p);
            in_some (set_field "podCertificate.user") (CertificateUser p)].
Definition unreviewed_files (name : string) (source : option FileSource) : string :=
  in_some (fun s => under name (first_of [set_field "defaultUser" (DefaultUser s); unreviewedItemUser (ItemUsers s)])) source.
Definition unreviewedVolumeField (v : VolumeFields) : string :=
  first_of [in_some (set_field "emptyDir.mode") (EmptyDirMode v);
            unreviewed_files "configMap." (ConfigMapFiles v);
            unreviewed_files "secret." (SecretFiles v);
            unreviewed_files "downwardAPI." (DownwardFiles v);
            in_some (fun '(user, sources) =>
                       first_of [set_field "projected.defaultUser" user;
                                 in_list "projected.sources" unreviewedProjectionField sources]) (ProjectedFiles v)].
Definition unreviewedHandlerField (httpGet grpc : option (option string)) : string :=
  first_of [in_some (set_field "httpGet.protocol") httpGet; in_some (set_field "grpc.mode") grpc].
Definition unreviewed_probe (name : string) (probe : option ProbeFields) : string :=
  in_some (fun p => under name (unreviewedHandlerField (HTTPGet p) (GRPC p))) probe.
Definition unreviewedContainerField (c : ContainerFields) : string :=
  first_of [in_list "volumeMounts" (set_field "bindMountOptions") (BindMountOptions c);
            unreviewed_probe "livenessProbe." (LivenessProbe c);
            unreviewed_probe "readinessProbe." (ReadinessProbe c);
            unreviewed_probe "startupProbe." (StartupProbe c);
            in_some (fun '(postStart, preStop) =>
                       first_of [in_some (fun h => under "lifecycle.postStart." (unreviewedHandlerField h None)) postStart;
                                 in_some (fun h => under "lifecycle.preStop." (unreviewedHandlerField h None)) preStop]) (Lifecycle c)].
Definition unreviewedJobField (j : JobFields) : string :=
  first_of [set_field "spec.scheduling" (Scheduling j);
            set_field "spec.template.spec.evictionResponders" (EvictionResponders j);
            in_list "spec.template.spec.volumes" unreviewedVolumeField (VolumeFieldsOf j);
            in_list "spec.template.spec.initContainers" unreviewedContainerField (InitFields j);
            in_list "spec.template.spec.containers" unreviewedContainerField (MainFields j);
            in_list "spec.template.spec.ephemeralContainers" unreviewedContainerField (EphemeralFields j)].

(** ** Owners *)

Definition exactControllerOwner (references : list OwnerReference) (apiVersion kind : string) : option OwnerReference :=
  match references with
  | [reference] =>
      if bool_decide (OwnerAPIVersion reference = apiVersion) && bool_decide (OwnerKind reference = kind) &&
         negb (empty (OwnerName reference)) && negb (empty (OwnerUID reference)) && bool_decide (Controller reference = Some true) &&
         bool_decide (BlockOwnerDeletion reference = Some true)
      then Some reference else None
  | _ => None
  end.
Definition exactNamedControllerOwner (references : list OwnerReference) (apiVersion kind name uid : string) : option OwnerReference :=
  reference ← exactControllerOwner references apiVersion kind;
  if bool_decide (OwnerName reference = name) && bool_decide (OwnerUID reference = uid) then Some reference else None.

Definition operator_group_version : string := "operator.ptah.run/v1alpha1".
Definition subjectOwner (references : list OwnerReference) : option (OwnerReference * string) :=
  match references with
  | [reference] =>
      let kind := OwnerKind reference in
      if negb (bool_decide (kind = "PtahSchema")) && negb (bool_decide (kind = "PtahMigration")) then None
      else owner ← exactControllerOwner references operator_group_version kind; Some (owner, kind)
  | _ => None
  end.

(** The one controller owner the operator writes. *)
Definition controller_owner (kind name uid : string) : OwnerReference :=
  {| OwnerAPIVersion := operator_group_version; OwnerKind := kind; OwnerName := name; OwnerUID := uid;
     Controller := Some true; BlockOwnerDeletion := Some true |}.

(** ** Server metadata *)

Definition scrubCreateServerMetadata (m : ObjectMeta) : ObjectMeta :=
  {| MetaName := MetaName m; GenerateName := GenerateName m; MetaNamespace := MetaNamespace m; SelfLink := SelfLink m;
     MetaUID := EmptyString; ResourceVersion := EmptyString; MetaGeneration := 0; CreationTimestamp := None;
     DeletionTimestamp := DeletionTimestamp m; DeletionGracePeriodSeconds := DeletionGracePeriodSeconds m; Labels := Labels m;
     Annotations := Annotations m; OwnerReferences := OwnerReferences m; Finalizers := Finalizers m; ManagedFields := [] |}.
Definition scrubUpdateServerMetadata (m : ObjectMeta) : ObjectMeta :=
  {| MetaName := MetaName m; GenerateName := GenerateName m; MetaNamespace := MetaNamespace m; SelfLink := SelfLink m;
     MetaUID := MetaUID m; ResourceVersion := EmptyString; MetaGeneration := 0; CreationTimestamp := CreationTimestamp m;
     DeletionTimestamp := DeletionTimestamp m; DeletionGracePeriodSeconds := DeletionGracePeriodSeconds m; Labels := Labels m;
     Annotations := Annotations m; OwnerReferences := OwnerReferences m; Finalizers := Finalizers m; ManagedFields := [] |}.

(** * Theorems *)

(** A Job with none of the fields nobody reviewed. *)
Definition unset {A} (o : option A) : Prop := o = None.
Definition each {A} (P : A -> Prop) (o : option A) : Prop := forall a, o = Some a -> P a.
Definition reviewed_users (users : list (option Z)) : Prop := Forall unset users.
Definition reviewed_files (s : FileSource) : Prop := DefaultUser s = None /\ reviewed_users (ItemUsers s).
Record reviewed_projection (p : ProjectionFields) : Prop := {
  rp_config : each reviewed_users (ProjectedConfigMap p);
  rp_secret : each reviewed_users (ProjectedSecretItems p);
  rp_downward : each reviewed_users (ProjectedDownwardAPI p);
  rp_token : each unset (TokenUser p);
  rp_bundle : each unset (TrustBundleUser p);
  rp_certificate : each unset (CertificateUser p);
}.
Record reviewed_volume (v : VolumeFields) : Prop := {
  rv_empty : each unset (EmptyDirMode v);
  rv_config : each reviewed_files (ConfigMapFiles v);
  rv_secret : each reviewed_files (SecretFiles v);
  rv_downward : each reviewed_files (DownwardFiles v);
  rv_projected : each (fun p => p.1 = None /\ Forall reviewed_projection p.2) (ProjectedFiles v);
}.
Definition reviewed_probe (p : ProbeFields) : Prop := each unset (HTTPGet p) /\ each unset (GRPC p).
Record reviewed_container (c : ContainerFields) : Prop := {
  rc_mounts : Forall unset (BindMountOptions c);
  rc_liveness : each reviewed_probe (LivenessProbe c);
  rc_readiness : each reviewed_probe (ReadinessProbe c);
  rc_startup : each reviewed_probe (StartupProbe c);
  rc_lifecycle : each (fun l => each (each unset) l.1 /\ each (each unset) l.2) (Lifecycle c);
}.
Record reviewed_job (j : JobFields) : Prop := {
  rj_scheduling : Scheduling j = None;
  rj_eviction : EvictionResponders j = None;
  rj_volumes : Forall reviewed_volume (VolumeFieldsOf j);
  rj_init : Forall reviewed_container (InitFields j);
  rj_main : Forall reviewed_container (MainFields j);
  rj_ephemeral : Forall reviewed_container (EphemeralFields j);
}.

Lemma first_of_empty l : first_of l = EmptyString <-> Forall (fun s => s = EmptyString) l.
Proof.
  induction l as [|s l IH]; [by split; [constructor|]|]. simpl. rewrite Forall_cons, <- IH.
  unfold empty. case_bool_decide; naive_solver.
Qed.
Lemma under_empty path field : under path field = EmptyString <-> field = EmptyString \/ path = EmptyString /\ field = EmptyString.
Proof. unfold under, empty. case_bool_decide; [tauto|]. split; [|tauto]. destruct path; simpl; [tauto|done]. Qed.
Lemma under_path a path field : under (String a path) field = EmptyString <-> field = EmptyString.
Proof. rewrite under_empty. naive_solver. Qed.
Lemma set_field_empty {A} a name (o : option A) : set_field (String a name) o = EmptyString <-> unset o.
Proof. by destruct o. Qed.
Lemma in_list_iff {A} (P : A -> Prop) name (field : A -> string) (l : list A) :
  (forall a, field a = EmptyString <-> P a) -> in_list name field l = EmptyString <-> Forall P l.
Proof.
  intros HP. unfold in_list. rewrite first_of_empty, !Forall_lookup. setoid_rewrite list_lookup_imap_Some. split.
  - intros H i a Ha. specialize (H i _ (ex_intro _ a (conj Ha eq_refl))). apply under_empty in H. apply HP. tauto.
  - intros H i s (a & Ha & ->). apply under_empty. left. by eapply HP, H.
Qed.
Lemma in_some_iff {A} (P : A -> Prop) (field : A -> string) (o : option A) :
  (forall a, field a = EmptyString <-> P a) -> in_some field o = EmptyString <-> each P o.
Proof. intros HP. unfold each. destruct o; simpl; [rewrite HP|]; naive_solver. Qed.
Lemma first_two a b : first_of [a; b] = EmptyString <-> a = EmptyString /\ b = EmptyString.
Proof. rewrite first_of_empty, !Forall_cons. split; [tauto|]. intros [? ?]. by repeat split. Qed.

(** No field is named exactly when none is set, at each level. *)
Lemma unreviewed_users users : unreviewedItemUser users = EmptyString <-> reviewed_users users.
Proof. apply in_list_iff. intros o. apply set_field_empty. Qed.
Lemma unreviewed_under_users a path users : under (String a path) (unreviewedItemUser users) = EmptyString <-> reviewed_users users.
Proof. rewrite under_path. apply unreviewed_users. Qed.
Lemma unreviewed_files_iff a path source : unreviewed_files (String a path) source = EmptyString <-> each reviewed_files source.
Proof. apply in_some_iff. intros s. by rewrite under_path, first_two, set_field_empty, unreviewed_users. Qed.
Lemma unreviewed_projection p : unreviewedProjectionField p = EmptyString <-> reviewed_projection p.
Proof.
  unfold unreviewedProjectionField. rewrite first_of_empty, !Forall_cons.
  rewrite !(in_some_iff reviewed_users) by (intros; apply unreviewed_under_users).
  rewrite !(in_some_iff unset) by (intros; apply set_field_empty).
  split; [intros (? & ? & ? & ? & ? & ? & _); by constructor|intros []; split_and!; (done || constructor)].
Qed.
Lemma unreviewed_volume v : unreviewedVolumeField v = EmptyString <-> reviewed_volume v.
Proof.
  unfold unreviewedVolumeField. rewrite first_of_empty, !Forall_cons, !unreviewed_files_iff.
  rewrite (in_some_iff unset) by (intros; apply set_field_empty).
  rewrite (in_some_iff (fun p => p.1 = None /\ Forall reviewed_projection p.2)).
  - split; [intros (? & ? & ? & ? & ? & _); by constructor|intros []; split_and!; (done || constructor)].
  - intros [user sources]. rewrite first_two, set_field_empty, (in_list_iff reviewed_projection); [done|apply unreviewed_projection].
Qed.
Lemma unreviewed_handler httpGet grpc : unreviewedHandlerField httpGet grpc = EmptyString <-> each unset httpGet /\ each unset grpc.
Proof. unfold unreviewedHandlerField. rewrite first_two. rewrite !(in_some_iff unset); [done|intros; apply set_field_empty..]. Qed.
Lemma unreviewed_hook a path h : under (String a path) (unreviewedHandlerField h None) = EmptyString <-> each unset h.
Proof. rewrite under_path, unreviewed_handler. split; [tauto|]. intros ?. split; [done|]. by intros x. Qed.
Lemma unreviewed_probe_iff a path p : unreviewed_probe (String a path) p = EmptyString <-> each reviewed_probe p.
Proof. apply in_some_iff. intros q. by rewrite under_path, unreviewed_handler. Qed.
Lemma unreviewed_container c : unreviewedContainerField c = EmptyString <-> reviewed_container c.
Proof.
  unfold unreviewedContainerField. rewrite first_of_empty, !Forall_cons, !unreviewed_probe_iff.
  rewrite (in_list_iff unset) by (intros; apply set_field_empty).
  rewrite (in_some_iff (fun l => each (each unset) l.1 /\ each (each unset) l.2)).
  - split; [intros (? & ? & ? & ? & ? & _); by constructor|intros []; split_and!; (done || constructor)].
  - intros [postStart preStop]. rewrite first_two. by rewrite !(in_some_iff (each unset)) by (intros; apply unreviewed_hook).
Qed.

(** The walk over the fields ends in the empty path exactly on a reviewed Job. *)
Lemma reviewed_iff j : unreviewedJobField j = EmptyString <-> reviewed_job j.
Proof.
  unfold unreviewedJobField. rewrite first_of_empty, !Forall_cons, !set_field_empty.
  rewrite (in_list_iff reviewed_volume) by apply unreviewed_volume.
  rewrite !(in_list_iff reviewed_container) by apply unreviewed_container.
  split; [intros (? & ? & ? & ? & ? & ? & _); by constructor|intros []; split_and!; (done || constructor)].
Qed.

(** C34: a Job whose fields pass has no field the Job contract was reviewed
    without, at any depth, and one that has such a field never passes. *)
Theorem unreviewed_fields_named j : unreviewedJobField j = EmptyString <-> reviewed_job j.
Proof. apply reviewed_iff. Qed.

(** The path of a field, as it is reported. *)
Example unreviewed_path :
  unreviewedProjectionField {| ProjectedConfigMap := Some [None; None]; ProjectedSecretItems := Some [None; Some 0];
    ProjectedDownwardAPI := None; TokenUser := Some (Some 0); TrustBundleUser := None; CertificateUser := None |} = "secret.items[1].user".
Proof. reflexivity. Qed.

(** ** Owners *)

Lemma exactControllerOwner_some references apiVersion kind reference :
  exactControllerOwner references apiVersion kind = Some reference <->
  references = [reference] /\ OwnerAPIVersion reference = apiVersion /\ OwnerKind reference = kind /\ OwnerName reference <> EmptyString /\
  OwnerUID reference <> EmptyString /\ Controller reference = Some true /\ BlockOwnerDeletion reference = Some true.
Proof.
  unfold exactControllerOwner. destruct references as [|r [|]]; [naive_solver| |naive_solver].
  destruct (_ && _) eqn:E; unfold empty in E.
  - rewrite !andb_true_iff, !negb_true_iff, !bool_decide_eq_true, !bool_decide_eq_false in E. naive_solver.
  - split; [done|]. intros ([= ->] & H1 & H2 & H3 & H4 & H5 & H6). exfalso. revert E. rewrite H1, H2, H5, H6.
    rewrite (bool_decide_false _ H3), (bool_decide_false _ H4), !bool_decide_true by done. done.
Qed.
Lemma subjectOwner_some references owner kind :
  subjectOwner references = Some (owner, kind) -> references = [controller_owner kind (OwnerName owner) (OwnerUID owner)] /\
  owner = controller_owner kind (OwnerName owner) (OwnerUID owner) /\ (kind = "PtahSchema" \/ kind = "PtahMigration").
Proof.
  unfold subjectOwner. destruct references as [|r [|]]; [done| |done].
  destruct (_ && _) eqn:E; [done|]. destruct (exactControllerOwner _ _ _) as [o|] eqn:Eo; [|done]. simpl. intros [= <- <-].
  apply exactControllerOwner_some in Eo as ([= <-] & Hv & _ & _ & _ & Hc & Hb).
  destruct r as [v k n u c b]; unfold controller_owner; simpl in *; subst. split_and!; [done|done|].
  rewrite andb_false_iff, !negb_false_iff, !bool_decide_eq_true in E. done.
Qed.
