(* ===== verification/WriteObjects.v ===== *)
(** * What the write guard reads (package [internal/controllerwrite])

    The resources, Jobs and plans the guard reads directly from the API
    server, its reads as events, and what it takes from [internal/workload]:
    the Job a claim rebuilds is that of any [JobBuilder], the interface the
    guard is given; the names of Jobs, and the two values a rebuilt Job takes
    from the live one, are modelled here.

    The record of one resource holds the fields this package and
    [internal/jobclaim] read; [schema_view] and [migration_view] are the
    latter's. *)
From Stdlib Require Import ZArith Lia Ascii.
From stdpp Require Import base list gmap strings.
From S2P Require Import TargetLock GoStrings Sha256 Json Fingerprint OciReference KubeMeta KubePod JobConfig PodIntent JobClaim ResultAuthority PlanSeal WriteRequest Prelude.
From S2P Require MutationLifecycle SourceBinding SourceSnapshot PlanStore MigrationTypes JobRetention.
Local Open Scope go_scope.
Local Open Scope Z_scope.

(** ** PtahSchema *)

(** [ExecutionBindingStatus]: what claims compare, and the rest of it. *)
Record BindingStatus : Type := { BindingOf : ExecutionBinding; BindingExecutorImage : string; BindingProtocol : Z }.
(** [ActiveOperationStatus]: what claims read of it, and the rest. *)
Record ActiveOperation : Type := {
  OpStatus : operation_status;
  Attempt : Z;
  PlanSealPublicKeyDigest : string;
  OpSource : option SourceBinding.SourceAccessBinding;
  OpCoordinationDigest : string;
  OpTargetIdentityDigest : string;
}.
(** A [CurrentPlanStatus], and whether it records an approval. *)
Record PlanStatus : Type := { PlanOf : CurrentPlan; PlanApproved : bool }.
(** A [PendingObservationStatus], and whether its plan records an approval. *)
Record PendingStatus : Type := { PendingOf : PendingObservation; PendingApproved : bool }.
Record SchemaPolicy : Type := {
  Engine : string;
  AllowDestructive : bool;
  DriftSeverity : string;
  Exclude : list string;
  ProtectedTables : list string;
  PolicyLockTimeout : Z;
  PolicyTransactionMode : string;
  ConnectTimeout : Z;
}.
Record PtahSchema : Type := {
  SchemaMetaOf : ObjectMeta;
  Policy : SchemaPolicy;
  Desired : SourceBinding.SourceSpec;
  (** [spec.desired.configMap]: the ConfigMap's name and the selected items. *)
  DesiredConfigMap : option (string * list SourceSnapshot.Item);
  ExecutionBindingOf : option BindingStatus;
  ActiveOf : option ActiveOperation;
  CurrentPlanOf : option PlanStatus;
  PendingObservationOf : option PendingStatus;
  PendingBindingRetirement : option BindingRetirement;
  SourceStatus : SourceBinding.SchemaSourceStatus;
  SourcePolicyUID : string;
  SourcePolicyDigest : string;
  TargetCoordination : string;
  TargetIdentity : string;
}.
Definition schema_view (s : PtahSchema) : PtahSchemaView :=
  {| SchemaMeta := SchemaMetaOf s; SchemaBinding := BindingOf <$> ExecutionBindingOf s; SchemaActive := OpStatus <$> ActiveOf s;
     SchemaPlan := PlanOf <$> CurrentPlanOf s; SchemaPending := PendingOf <$> PendingObservationOf s;
     SchemaRetirement := PendingBindingRetirement s |}.

(** ** PtahMigration *)

Record MigrationOp : Type := {
  MOpStatus : operation_status;
  MAttempt : Z;
  MSource : option SourceBinding.SourceAccessBinding;
  MPlanRef : option (string * string);
  MApprovalRef : option (string * string);
}.
Record HistoryStatus : Type := { HistFingerprint : string; HistCurrentVersion : Z; HistTargetIdentity : string; HistPending : Z }.
Record PtahMigration : Type := {
  MigrationMetaOf : ObjectMeta;
  MConfigMapSource : option (string * list SourceSnapshot.Item);
  MBindingOf : option BindingStatus;
  MActiveOf : option MigrationOp;
  MHistory : option HistoryStatus;
  MArtifact : option SourceBinding.SourceAccessBinding;
  MConfigMapRevision : option SourceBinding.ConfigMapSourceRevision;
  MSourcePolicy : option (string * string);
}.
Definition migration_view (m : PtahMigration) : PtahMigrationView :=
  {| MigrationMeta := MigrationMetaOf m; MigrationBinding := BindingOf <$> MBindingOf m; MigrationActive := MOpStatus <$> MActiveOf m |}.

(** ** Plans and Jobs *)

Record Condition : Type := { ConditionType : string; ConditionStatus : string; ConditionRest : string }.
#[export] Instance Condition_eq_dec : EqDecision Condition.
Proof. solve_decision. Defined.
#[export] Instance PublishedPlanChunkStatus_eq_dec : EqDecision PlanStore.PublishedPlanChunkStatus.
Proof. solve_decision. Defined.

Record PtahSchemaPlan : Type := {
  PlanMetaOf : ObjectMeta;
  PlanSpecOf : PlanStore.PtahSchemaPlanSpec;
  PlanObserved : Z;
  PublishedChunksOf : list PlanStore.PublishedPlanChunkStatus;
  PlanConditionsOf : list Condition;
}.
Record PtahSchemaPlanChunk : Type := { ChunkMetaOf : ObjectMeta; ChunkDataOf : list Z }.
Record PtahMigrationPlan : Type := {
  MPlanMeta : ObjectMeta;
  MPlanSpec : MigrationTypes.PtahMigrationPlanSpec;
  MPlanObserved : Z;
  MPlanConditions : list Condition;
}.
(** A stored Job: its conditions, the rest of its status, and the fields
    nothing but the review reads. *)
Record StoredJob : Type := {
  JobOf : Job;
  JobConditions : list Condition;
  JobStatusRest : string;
  JobFieldsOf : JobFields;
}.

(** Code outside the repository. *)
Class GuardLibraries : Type := {
  (** [apimeta.IsStatusConditionTrue]. *)
  IsStatusConditionTrue : list Condition -> string -> bool;
  (** [json.UnmarshalStrict], for each type that is decoded. *)
  unmarshal_job : string -> option (GroupVersionKind * StoredJob);
  unmarshal_plan : string -> option (GroupVersionKind * PtahSchemaPlan);
  unmarshal_chunk : string -> option (GroupVersionKind * PtahSchemaPlanChunk);
  unmarshal_config_map : string -> option (GroupVersionKind * SourceSnapshot.ConfigMap);
  unmarshal_migration_plan : string -> option (GroupVersionKind * PtahMigrationPlan);
  (** The reference grammar of [oras-go], and [url.Parse]. *)
  ParseReference : string -> option parsed_reference;
  ReferenceOrDefault : parsed_reference -> string;
  url_Parse : string -> option SourceBinding.URL;
}.

(** [JobBuilder]: what the guard is given to rebuild a Job with. *)
Class JobBuilder : Type := {
  BuildJob : PtahSchema -> ActiveOperation -> option PtahSchemaPlan -> option Job;
  BuildMigration : PtahMigration -> MigrationOp -> option PtahMigrationPlan -> option Job;
  ManagerIdentity : string * string * string;
}.

Inductive readE : Type -> Type :=
| ReadSchema (namespace name : string) : readE (result api_error PtahSchema)
| ReadMigration (namespace name : string) : readE (result api_error PtahMigration)
| ReadSchemaPlan (namespace name : string) : readE (result api_error PtahSchemaPlan)
| ReadMigrationPlan (namespace name : string) : readE (result api_error PtahMigrationPlan)
| ReadConfigMap (namespace name : string) : readE (result api_error SourceSnapshot.ConfigMap)
| ReadJob (namespace name : string) : readE (result api_error StoredJob)
| ListPods (namespace : string) : readE (result api_error (list JobRetention.PodReport)).

(** A check that reads: it ends in a value or in a refusal. *)
Abbreviation check A := (prog readE (result failure A)).
Definition cbind {E A B} (p : prog E (result failure A)) (k : A -> prog E (result failure B)) : prog E (result failure B) :=
  r <-- p;
  match r with Ok a => k a | Err e => Ret (Err e) end.
Declare Scope check_scope.
Notation "x <~ p ; k" := (cbind p (fun x => k)) (at level 100, p at next level, right associativity) : check_scope.
(** A read whose error is an internal failure. *)
Definition read {A} (e : readE (result api_error A)) : check A :=
  r <-- call e;
  Ret match r with Ok a => Ok a | Err e => Err (ReadFailed e) end.

(** ** Names of Jobs (internal/workload) *)

Definition trim_left_dashes (s : string) : string :=
  (fix go s := match s with String a s' => if is_dash a then go s' else s | EmptyString => EmptyString end) s.
Fixpoint trim_right_dashes (s : string) : string :=
  match s with
  | EmptyString => EmptyString
  | String a s' =>
      match trim_right_dashes s' with
      | EmptyString => if is_dash a then EmptyString else String a EmptyString
      | t => String a t
      end
  end.
Definition trim_dashes (s : string) : string := trim_right_dashes (trim_left_dashes s).

Definition zero_byte : string := String (ascii_of_nat 0) EmptyString.
Definition join_zero (l : list string) : string := String.concat zero_byte l.

(** The name of a prefix, the name of the resource, and the digest of what
    distinguishes the attempt; the two packages of names differ in the
    prefix. *)
Definition job_name (prefix uid name : string) (op : operation_status) (attempt : Z) : option string :=
  let input := join_zero [uid; StatusType op; StatusID op; StatusBindingID op; StatusFingerprint op; format_int attempt] in
  let suffix := hex_encode (take 8 (sha256 (bytes input))) in
  let available := 63 - len prefix - 1 - len suffix in
  let name := trim_dashes name in
  let name := if available <? len name then trim_right_dashes (str_take (Z.to_nat available) name) else name in
  if empty name then None else Some (prefix +:+ name +:+ "-" +:+ suffix).

Definition validateOperation (op : ActiveOperation) : bool :=
  MutationLifecycle.Known (MutationLifecycle.SchemaOperation (StatusType (OpStatus op))) &&
  negb (blank (StatusID (OpStatus op))) && is_sha256_digest (StatusFingerprint (OpStatus op)) && (1 <=? Attempt op) &&
  is_epoch_id (StatusBindingID (OpStatus op)).
Definition NameFor (schema : PtahSchema) (op : ActiveOperation) : option string :=
  let meta := SchemaMetaOf schema in
  if empty (MetaName meta) || empty (MetaUID meta) then None
  else if negb (validateOperation op) then None
  else job_name ("ptah-" +:+ to_lower (StatusType (OpStatus op)) +:+ "-") (MetaUID meta) (MetaName meta) (OpStatus op) (Attempt op).

Definition migrationReadsArtifactBytes (operation : string) : bool :=
  bool_decide (operation = "History") || bool_decide (operation = "Apply").

Section Names.
Context `{GuardLibraries}.
Definition validateMigrationOperation (op : MigrationOp) : bool :=
  MutationLifecycle.Known (MutationLifecycle.MigrationOperation (StatusType (MOpStatus op))) &&
  is_sha256_digest (StatusID (MOpStatus op)) && is_sha256_digest (StatusFingerprint (MOpStatus op)) && (1 <=? MAttempt op) &&
  is_epoch_id (StatusBindingID (MOpStatus op)) &&
  (negb (migrationReadsArtifactBytes (StatusType (MOpStatus op))) ||
   match MSource op with
   | None => false
   | Some source =>
       is_ok (SourceBinding.ValidateAccess ParseReference ReferenceOrDefault url_Parse source) &&
       match SourceBinding.Snapshot source with Some s => empty (SourceBinding.SchemaFile s) | None => true end
   end).
Definition NameForMigration (migration : PtahMigration) (op : MigrationOp) : option string :=
  let meta := MigrationMetaOf migration in
  if empty (MetaName meta) || empty (MetaUID meta) then None
  else if negb (validateMigrationOperation op) then None
  else job_name ("ptah-m-" +:+ to_lower (StatusType (MOpStatus op)) +:+ "-") (MetaUID meta) (MetaName meta) (MOpStatus op) (MAttempt op).
End Names.

(** ** What a rebuilt Job takes from the live one (manager_identity.go) *)

Definition initContainerName : string := "install-runner".
Definition EnvPlanSealPublicKey : string := "PTAH_PLAN_SEAL_PUBLIC_KEY".

Definition template_annotations (job : Job) : gmap string string := Annotations (TemplateMeta (Template (JobSpecOf job))).
Definition is_installer (c : Container) : bool := bool_decide (ContainerName c = initContainerName).
(** [ManagerIdentityOf]: the image, the revision, and the runner's image. *)
Definition ManagerIdentityOf (job : Job) : string * string * string :=
  let annotations := template_annotations job in
  let runnerImage := match List.find is_installer (InitContainers (job_pod_spec job)) with Some c => ContainerImage c | None => EmptyString end in
  (get annotations AnnotationControllerImage, get annotations AnnotationControllerRevision, runnerImage).

Definition with_image (image : string) (c : Container) : Container :=
  {| ContainerName := ContainerName c; Args := Args c; Env := Env c; EnvFrom := EnvFrom c; VolumeMounts := VolumeMounts c;
     Requests := Requests c; Limits := Limits c; ImagePullPolicy := ImagePullPolicy c; ContainerImage := image;
     ContainerRest := ContainerRest c |}.
Definition with_annotations (job_annotations template : gmap string string) (job : Job) : Job :=
  let s := JobSpecOf job in
  let t := Template s in
  {| JobMeta := with_maps (Labels (JobMeta job)) job_annotations (JobMeta job);
     JobSpecOf := with_template (Selector s) (TTLSecondsAfterFinished s)
       {| TemplateMeta := with_maps (Labels (TemplateMeta t)) template (TemplateMeta t); TemplateSpec := TemplateSpec t |} s |}.

(** A key that is there takes the live value. *)
Definition carry (key value : string) (target : gmap string string) : gmap string string :=
  match target !! key with Some _ => <[key := value]> target | None => target end.
Definition carry_recorded (live : Job) (key value : string) (target : gmap string string) : gmap string string :=
  match template_annotations live !! key with Some _ => carry key value target | None => target end.
Definition CarryManagerIdentity (expected live : Job) : Job :=
  let '(liveImage, liveRevision, liveRunner) := ManagerIdentityOf live in
  let carry_both target :=
    carry_recorded live AnnotationControllerRevision liveRevision (carry_recorded live AnnotationControllerImage liveImage target) in
  let job := with_annotations (carry_both (Annotations (JobMeta expected))) (carry_both (template_annotations expected)) expected in
  let spec := job_pod_spec job in
  with_template_spec
    (with_containers (Containers spec)
       ((fun c => if is_installer c && negb (empty liveRunner) then with_image liveRunner c else c) <$> InitContainers spec) spec) job.

(** The value of a variable on the first container that carries it, init
    containers first; and the variable set on every container that does. *)
Definition env_value (name : string) (l : list EnvVar) : option string :=
  EnvValue <$> List.find (fun e => bool_decide (EnvName e = name)) l.
Definition containerEnvValue (job : Job) (name : string) : option string :=
  let spec := job_pod_spec job in
  env_value name ((InitContainers spec ++ Containers spec) ≫= Env).
Definition set_env (name value : string) (c : Container) : Container :=
  with_env ((fun e => if bool_decide (EnvName e = name)
                      then {| EnvName := EnvName e; EnvValue := value; ValueFrom := ValueFrom e |} else e) <$> Env c) c.
Definition setContainerEnvValue (job : Job) (name value : string) : option Job :=
  let spec := job_pod_spec job in
  _ ← containerEnvValue job name;
  Some (with_template_spec (with_containers (set_env name value <$> Containers spec) (set_env name value <$> InitContainers spec) spec) job).

Definition CarrySealedPlanKey (expected live : Job) (op : ActiveOperation) : option Job :=
  if negb (bool_decide (StatusType (OpStatus op) = "Plan")) then Some expected else
  liveValue ← containerEnvValue live EnvPlanSealPublicKey;
  match DecodePublicKey liveValue with
  | Err _ => None
  | Ok key =>
      if empty (PlanSealPublicKeyDigest op) then None
      else if negb (bool_decide (DigestBytes (bytes (Encode key)) = PlanSealPublicKeyDigest op)) then None
      else setContainerEnvValue expected EnvPlanSealPublicKey liveValue
  end.
