(* ===== verification/PlanGuard.v ===== *)
(** * What the guard admits of plans (package [internal/controllerwrite])

    The checks on the objects a plan is made of: the manifest of a schema
    plan and its chunks while it is published, the ConfigMaps an Apply mounts
    it through, the manifest of a migration plan, and the snapshot of a
    ConfigMap source. A check that only compares is a boolean; one that reads
    is a program of [readE]. The Job a plan was computed by is checked in
    [JobGuard]. *)
From Stdlib Require Import ZArith Lia.
From stdpp Require Import base list gmap strings.
From S2P Require Import TargetLock GoStrings Sha256 Json Fingerprint KubeMeta KubePod JobConfig PodIntent JobClaim ResultAuthority WriteRequest WriteObjects Prelude.
From S2P Require SourceBinding SourceSnapshot PlanStore MigrationPlan MigrationTypes.
Local Open Scope go_scope.
Local Open Scope check_scope.
Local Open Scope Z_scope.

(** ** The manifest of a schema plan *)

Definition deterministicPlanName (planFingerprint : string) : option string :=
  if is_sha256_digest planFingerprint then Some ("ptah-plan-" +:+ str_take 24 (str_drop 7 planFingerprint)) else None.

Definition plan_metadata (plan : PtahSchemaPlan) (schema : PtahSchema) : ObjectMeta :=
  let owner := SchemaMetaOf schema in
  new_meta (MetaNamespace (PlanMetaOf plan)) (MetaName (PlanMetaOf plan)) {[PlanStore.LabelSchema := MetaName owner]}
    [controller_owner "PtahSchema" (MetaName owner) (MetaUID owner)].
Definition validatePlanMetadata (plan : PtahSchemaPlan) (schema : PtahSchema) : bool :=
  let meta := PlanMetaOf plan in
  let owner := SchemaMetaOf schema in
  bool_decide (MetaNamespace meta = MetaNamespace owner) &&
  bool_decide (PlanStore.SchemaRef (PlanSpecOf plan) = (MetaName owner, MetaUID owner)) &&
  bool_decide (DeletionTimestamp meta = None) && bool_decide (DeletionGracePeriodSeconds meta = None) &&
  bool_decide (is_Some (exactNamedControllerOwner (OwnerReferences meta) operator_group_version "PtahSchema" (MetaName owner) (MetaUID owner))) &&
  bool_decide (deterministicPlanName (PlanStore.SpecFingerprint (PlanSpecOf plan)) = Some (MetaName meta)) &&
  bool_decide (scrubCreateServerMetadata meta = plan_metadata plan schema).

(** The chunks, from an index on; what is left of the size after the last. *)
Fixpoint chunks_shape (name : string) (index remaining : Z) (refs : list PlanStore.PlanChunkReference) : option Z :=
  match refs with
  | [] => Some remaining
  | ref :: rest =>
      let expectedSize := Z.min remaining PlanStore.ChunkBytes in
      if (PlanStore.ChunkIndex ref =? int32_wrap index) && bool_decide (PlanStore.ChunkName ref = PlanStore.chunk_name name index) &&
         (PlanStore.ChunkSize ref =? expectedSize) && is_sha256_digest (PlanStore.ChunkDigest ref)
      then chunks_shape name (index + 1) (remaining - expectedSize) rest else None
  end.

Definition schemaPolicyFingerprint (schema : PtahSchema) : string :=
  let p := Policy schema in
  DigestCanonicalJSON (JObj
    [("engine", JStr (Engine p)); ("allow_destructive", JBool (AllowDestructive p)); ("drift_severity", JStr (DriftSeverity p));
     ("exclude", JArr (JStr <$> NormalizeSet (Exclude p))); ("protected_tables", JArr (JStr <$> NormalizeSet (ProtectedTables p)));
     ("lock_timeout", JStr (MigrationTypes.duration_string (PolicyLockTimeout p))); ("transaction_mode", JStr (PolicyTransactionMode p));
     ("connect_timeout", JStr (MigrationTypes.duration_string (ConnectTimeout p)))]).

(** [dataplane.DialectMatches]. *)
Definition DialectMatches (engine dialect : string) : bool :=
  let engine := to_lower (trim_space engine) in
  let dialect := to_lower (trim_space dialect) in
  if bool_decide (engine ∈ ["postgresql"; "postgres"]) then bool_decide (dialect ∈ ["postgres"; "postgresql"])
  else bool_decide (engine = "mysql") && bool_decide (dialect ∈ ["mysql"; "mariadb"]).

Definition source_shape (spec : PlanStore.PtahSchemaPlanSpec) : bool :=
  match PlanStore.Source spec with
  | Some source =>
      let kind := PlanStore.SourceKind source in
      let revision := PlanStore.SourceRevision source in
      ((bool_decide (kind = SourceBinding.SourceKindConfigMap) && negb (empty revision)) ||
       (bool_decide (kind = SourceBinding.SourceKindGit) && is_sha256_digest revision)) &&
      is_sha256_digest (PlanStore.SourceContentDigest source)
  | None => is_sha256_digest (PlanStore.ArtifactDigest spec) && is_sha256_digest (PlanStore.VerificationPolicyDigest spec)
  end.

Definition validatePlanShape (plan : PtahSchemaPlan) (schema : PtahSchema) : bool :=
  let spec := PlanSpecOf plan in
  let size := PlanStore.Size spec in
  let expectedChunks := (size + PlanStore.ChunkBytes - 1) / PlanStore.ChunkBytes in
  is_ok (ValidatePlanContractVersion (PlanStore.ContractVersion spec)) &&
  (PlanStore.ContractVersion spec =? SourceBinding.ContractVersion (PlanStore.Source spec)) &&
  (1 <=? size) && (size <=? PlanStore.MaxExecutableBytes) &&
  (1 <=? expectedChunks) && (expectedChunks <=? PlanStore.MaxChunks) && (PlanStore.zlen (PlanStore.Chunks spec) =? expectedChunks) &&
  bool_decide (chunks_shape (MetaName (PlanMetaOf plan)) 0 size (PlanStore.Chunks spec) = Some 0) &&
  forallb is_sha256_digest
    [PlanStore.ContentDigest spec; PlanStore.CoordinationDigest spec; PlanStore.TargetIdentityDigest spec;
     PlanStore.ActualStateFingerprint spec; PlanStore.DesiredStateFingerprint spec; PlanStore.PolicyFingerprint spec] &&
  source_shape spec && (1 <=? PlanStore.StatementCount spec) &&
  DialectMatches (Engine (Policy schema)) (PlanStore.Dialect spec) &&
  bool_decide (schemaPolicyFingerprint schema = PlanStore.PolicyFingerprint spec) &&
  match Fingerprint (PlanStore.Binding (MetaUID (SchemaMetaOf schema)) spec) with
  | Ok fingerprint => bool_decide (fingerprint = PlanStore.SpecFingerprint spec)
  | Err _ => false
  end.

(** ** The operation a plan is published or carried out by *)

(** The harvested Plan operation. *)
Definition plan_operation (schema : PtahSchema) : option ActiveOperation :=
  operation ← ActiveOf schema;
  let status := OpStatus operation in
  if bool_decide (StatusType status = "Plan") && negb (empty (StatusJobName status)) && negb (empty (StatusJobUID status))
  then Some operation else None.

Definition validatePlanPublicationContext (plan : PtahSchemaPlan) (schema : PtahSchema) : bool :=
  let spec := PlanSpecOf plan in
  match plan_operation schema, ExecutionBindingOf schema with
  | Some operation, Some binding =>
      match OpSource operation with
      | Some source => SourceBinding.AccessGives source (PlanStore.ArtifactDigest spec) (PlanStore.Source spec)
      | None => false
      end &&
      bool_decide (OpCoordinationDigest operation = PlanStore.CoordinationDigest spec) &&
      bool_decide (OpTargetIdentityDigest operation = PlanStore.TargetIdentityDigest spec) &&
      bool_decide (StatusBindingID (OpStatus operation) = PlanStore.ExecutionBindingID spec) &&
      bool_decide (BindingEpoch (BindingOf binding) = PlanStore.ExecutionBindingID spec) &&
      (BindingStateVersion (BindingOf binding) =? PlanStore.ControllerStateVersion spec) &&
      bool_decide (BindingPtahVersion (BindingOf binding) = PlanStore.PtahVersion spec) &&
      bool_decide (BindingExecutorImage binding = PlanStore.ExecutorImage spec) &&
      (BindingProtocol binding =? PlanStore.RunnerProtocolVersion spec) &&
      SourceBinding.SchemaSourceReady (Desired schema) (SourceStatus schema) &&
      (let '(artifact, source) := SourceBinding.SchemaPlanSource (SourceStatus schema) in
       SourceBinding.SamePlanSource (PlanStore.ArtifactDigest spec) (PlanStore.Source spec) artifact source) &&
      bool_decide (SourcePolicyUID schema = PlanStore.VerificationPolicyUID spec) &&
      bool_decide (SourcePolicyDigest schema = PlanStore.VerificationPolicyDigest spec) &&
      bool_decide (TargetCoordination schema = PlanStore.CoordinationDigest spec) &&
      bool_decide (TargetIdentity schema = PlanStore.TargetIdentityDigest spec)
  | _, _ => false
  end.

Definition ConditionPlanStorageReady : string := "Ready".
Section Dispatch.
Context `{GuardLibraries}.
Definition validateApplyDispatchContext (plan : PtahSchemaPlan) (schema : PtahSchema) : bool :=
  match ActiveOf schema, CurrentPlanOf schema with
  | Some operation, Some current =>
      let status := OpStatus operation in
      bool_decide (StatusType status = "Apply") && negb (empty (StatusJobName status)) &&
      empty (StatusJobUID status) && negb (StatusDispatched status) &&
      bool_decide (PlanName (PlanOf current) = MetaName (PlanMetaOf plan)) && bool_decide (PlanUID (PlanOf current) = MetaUID (PlanMetaOf plan)) &&
      bool_decide (PlanFingerprint (PlanOf current) = PlanStore.SpecFingerprint (PlanSpecOf plan)) &&
      bool_decide (length (PublishedChunksOf plan) = length (PlanStore.Chunks (PlanSpecOf plan))) &&
      IsStatusConditionTrue (PlanConditionsOf plan) ConditionPlanStorageReady
  | _, _ => false
  end.
End Dispatch.

(** ** Chunks and projections *)

Definition findChunkReference (references : list PlanStore.PlanChunkReference) (name : string) : option PlanStore.PlanChunkReference :=
  List.find (fun reference => bool_decide (PlanStore.ChunkName reference = name)) references.

Definition chunk_metadata (namespace : string) (plan : PtahSchemaPlan) (ref : PlanStore.PlanChunkReference) : ObjectMeta :=
  new_meta namespace (PlanStore.ChunkName ref)
    {[PlanStore.LabelPlan := MetaName (PlanMetaOf plan); PlanStore.LabelSchema := (PlanStore.SchemaRef (PlanSpecOf plan)).1]}
    [controller_owner "PtahSchemaPlan" (MetaName (PlanMetaOf plan)) (MetaUID (PlanMetaOf plan))].
Definition validateChunkMetadata (metadata : ObjectMeta) (plan : PtahSchemaPlan) (ref : PlanStore.PlanChunkReference) : bool :=
  bool_decide (is_Some (exactNamedControllerOwner (OwnerReferences metadata) operator_group_version "PtahSchemaPlan"
                          (MetaName (PlanMetaOf plan)) (MetaUID (PlanMetaOf plan)))) &&
  bool_decide (scrubCreateServerMetadata metadata = chunk_metadata (MetaNamespace metadata) plan ref).
Definition chunk_bytes (data : list Z) (ref : PlanStore.PlanChunkReference) : bool :=
  (PlanStore.zlen data =? PlanStore.ChunkSize ref) && bool_decide (DigestBytes data = PlanStore.ChunkDigest ref).
Definition validateChunkObject (chunk : PtahSchemaPlanChunk) (plan : PtahSchemaPlan) (ref : PlanStore.PlanChunkReference) : bool :=
  chunk_bytes (ChunkDataOf chunk) ref && validateChunkMetadata (ChunkMetaOf chunk) plan ref.
Definition validateProjection (configMap : SourceSnapshot.ConfigMap) (plan : PtahSchemaPlan) (ref : PlanStore.PlanChunkReference) : bool :=
  bool_decide (SourceSnapshot.Immutable configMap = Some true) &&
  bool_decide (SourceSnapshot.ConfigData configMap = ∅) && bool_decide (size (SourceSnapshot.BinaryData configMap) = 1%nat) &&
  match SourceSnapshot.BinaryData configMap !! PlanStore.ProjectionDataKey with
  | Some content => chunk_bytes content ref
  | None => false
  end &&
  validateChunkMetadata (SourceSnapshot.Meta configMap) plan ref.

(** ** Reading owners *)

(** The live resource an owner reference names. *)
Definition live (meta : ObjectMeta) (owner : OwnerReference) (allowDeleting : bool) : result failure unit :=
  guard negb (empty (MetaUID meta)) && bool_decide (MetaUID meta = OwnerUID owner) else Denied OwnerNotCurrent;
  guard allowDeleting || bool_decide (DeletionTimestamp meta = None) else Denied OwnerDeleting;
  Ok tt.
Definition readSchemaWithDeletionPolicy (namespace : string) (owner : OwnerReference) (allowDeleting : bool) : check PtahSchema :=
  schema <~ read (ReadSchema namespace (OwnerName owner));
  Ret (_ <-! live (SchemaMetaOf schema) owner allowDeleting; Ok schema).
Definition readSchema (namespace : string) (owner : OwnerReference) : check PtahSchema := readSchemaWithDeletionPolicy namespace owner false.
Definition readSchemaForJobUpdate (namespace : string) (owner : OwnerReference) : check PtahSchema :=
  readSchemaWithDeletionPolicy namespace owner true.
Definition readMigration (namespace : string) (owner : OwnerReference) (allowDeleting : bool) : check PtahMigration :=
  migration <~ read (ReadMigration namespace (OwnerName owner));
  Ret (_ <-! live (MigrationMetaOf migration) owner allowDeleting; Ok migration).

(** A check's answer as a program. *)
Definition settled {A} (r : result failure A) : check A := Ret r.
Definition deny_unless (c : bool) (reason : denial) : check unit := Ret (if c then Ok tt else Err (Denied reason)).
Definition exact_owner (references : list OwnerReference) (kind : string) : check OwnerReference :=
  Ret match exactControllerOwner references operator_group_version kind with
      | Some owner => Ok owner
      | None => Err (Denied NoExactOwner)
      end.

(** The plan a chunk or a projection belongs to, and the schema that owns
    the plan. *)
Definition chunkOwner (namespace : string) (references : list OwnerReference) : check (PtahSchemaPlan * PtahSchema) :=
  owner <~ exact_owner references "PtahSchemaPlan";
  plan <~ read (ReadSchemaPlan namespace (OwnerName owner));
  _ <~ deny_unless (negb (empty (MetaUID (PlanMetaOf plan))) && bool_decide (MetaUID (PlanMetaOf plan) = OwnerUID owner)) OwnerNotCurrent;
  planOwner <~ exact_owner (OwnerReferences (PlanMetaOf plan)) "PtahSchema";
  schema <~ readSchema (MetaNamespace (PlanMetaOf plan)) planOwner;
  _ <~ deny_unless (validatePlanMetadata plan schema) PlanMetadataInvalid;
  _ <~ deny_unless (validatePlanShape plan schema) PlanShapeInvalid;
  Ret (Ok (plan, schema)).

(** ** Creates *)

Section Creates.
Context `{GuardLibraries} `{JobBuilder}.

Definition no_old_object (req : AdmissionRequest) : check unit :=
  Ret (if empty (RequestOldObject req) then Ok tt else Err (BadRequest UnexpectedOldObject)).

Definition validatePlanChunkCreate (req : AdmissionRequest) : check unit :=
  _ <~ no_old_object req;
  chunk <~ settled (decodeObject unmarshal_chunk no_field (RequestObject req) planChunkKind);
  _ <~ settled (validateRequestIdentity req (ChunkMetaOf chunk));
  owners <~ chunkOwner (MetaNamespace (ChunkMetaOf chunk)) (OwnerReferences (ChunkMetaOf chunk));
  let '(plan, schema) := owners in
  _ <~ deny_unless (validatePlanPublicationContext plan schema) OtherPublication;
  match findChunkReference (PlanStore.Chunks (PlanSpecOf plan)) (MetaName (ChunkMetaOf chunk)) with
  | None => Ret (Err (Denied NotInManifest))
  | Some ref => deny_unless (validateChunkObject chunk plan ref) ChunkInvalid
  end.

(** The resource a snapshot belongs to, by the ConfigMap source it reads. *)
Definition snapshot_source (namespace : string) (owner : SourceSnapshot.Owner) : check (option (string * list SourceSnapshot.Item)) :=
  if bool_decide (SourceSnapshot.Kind owner = "PtahSchema") then
    schema <~ read (ReadSchema namespace (SourceSnapshot.OwnerName_ owner));
    _ <~ deny_unless (bool_decide (MetaUID (SchemaMetaOf schema) = SourceSnapshot.OwnerUID_ owner) &&
                      bool_decide (DeletionTimestamp (SchemaMetaOf schema) = None)) SnapshotOwner;
    Ret (Ok (DesiredConfigMap schema))
  else if bool_decide (SourceSnapshot.Kind owner = "PtahMigration") then
    migration <~ read (ReadMigration namespace (SourceSnapshot.OwnerName_ owner));
    _ <~ deny_unless (bool_decide (MetaUID (MigrationMetaOf migration) = SourceSnapshot.OwnerUID_ owner) &&
                      bool_decide (DeletionTimestamp (MigrationMetaOf migration) = None)) SnapshotOwner;
    Ret (Ok (MConfigMapSource migration))
  else Ret (Ok None).

Definition validateSnapshotCreate (req : AdmissionRequest) (configMap : SourceSnapshot.ConfigMap) : check unit :=
  match SourceSnapshot.Verify configMap with
  | Err _ => Ret (Err (Denied SnapshotMalformed))
  | Ok (owner, _) =>
      spec <~ snapshot_source (RequestNamespace req) owner;
      match spec with
      | None => Ret (Err (Denied NotAConfigMapSource))
      | Some (name, items) =>
          source <-- call (ReadConfigMap (RequestNamespace req) name);
          Ret match source with
              | Err NotFound => Err (Denied SourceMissing)
              | Err e => Err (ReadFailed e)
              | Ok source =>
                  match (files <-! SourceSnapshot.Select source items; SourceSnapshot.Build (RequestNamespace req) owner files) with
                  | Err _ => Err (Denied SnapshotDiffers)
                  | Ok (expected, _) =>
                      guard bool_decide (MetaName (SourceSnapshot.Meta expected) = MetaName (SourceSnapshot.Meta configMap)) &&
                            bool_decide (SourceSnapshot.BinaryData expected = SourceSnapshot.BinaryData configMap) else Denied SnapshotDiffers;
                      Ok tt
                  end
              end
      end
  end.

Definition validateProjectionCreate (req : AdmissionRequest) : check unit :=
  _ <~ no_old_object req;
  configMap <~ settled (decodeObject unmarshal_config_map no_field (RequestObject req) configMapKind);
  let meta := SourceSnapshot.Meta configMap in
  _ <~ settled (validateRequestIdentity req meta);
  if SourceSnapshot.IsName (MetaName meta) then validateSnapshotCreate req configMap else
  owners <~ chunkOwner (MetaNamespace meta) (OwnerReferences meta);
  let '(plan, schema) := owners in
  _ <~ deny_unless (validateApplyDispatchContext plan schema) NotDispatchable;
  match findChunkReference (PlanStore.Chunks (PlanSpecOf plan)) (MetaName meta) with
  | None => Ret (Err (Denied NotInManifest))
  | Some ref => deny_unless (validateProjection configMap plan ref) (ProjectionInvalid (PlanStore.ChunkIndex ref))
  end.

(** ** What an Apply mounts *)

(** The chunks the plan's status binds are those of its manifest. *)
Fixpoint published_bound (index : Z) (refs : list PlanStore.PlanChunkReference) (published : list PlanStore.PublishedPlanChunkStatus) : bool :=
  match refs, published with
  | [], [] => true
  | ref :: refs, p :: published =>
      (PlanStore.PublishedIndex p =? int32_wrap index) && bool_decide (PlanStore.PublishedName p = PlanStore.ChunkName ref) &&
      negb (empty (PlanStore.PublishedUID p)) && published_bound (index + 1) refs published
  | _, _ => false
  end.

(** One projection, as it is read; all are read before any is judged. *)
Definition load_projection (plan : PtahSchemaPlan) (index : Z) (ref : PlanStore.PlanChunkReference) : prog readE (result failure (list Z)) :=
  configMap <~ read (ReadConfigMap (MetaNamespace (PlanMetaOf plan)) (PlanStore.ChunkName ref));
  Ret (guard validateProjection configMap plan ref else Denied (ProjectionInvalid index);
       Ok (default [] (SourceSnapshot.BinaryData configMap !! PlanStore.ProjectionDataKey))).
Fixpoint load_projections (plan : PtahSchemaPlan) (index : Z) (refs : list PlanStore.PlanChunkReference) : prog readE (list (result failure (list Z))) :=
  match refs with
  | [] => Ret []
  | ref :: rest =>
      one <-- load_projection plan index ref;
      others <-- load_projections plan (index + 1) rest;
      Ret (one :: others)
  end.
(** The bytes of the projections, in order. *)
Fixpoint gather (content : list Z) (loaded : list (result failure (list Z))) : result failure (list Z) :=
  match loaded with
  | [] => Ok content
  | one :: rest =>
      data <-! one;
      guard PlanStore.zlen content + PlanStore.zlen data <=? PlanStore.MaxExecutableBytes else Denied ProjectionTooLarge;
      gather (content ++ data) rest
  end.
Definition validateApplyProjection (plan : PtahSchemaPlan) : check unit :=
  let spec := PlanSpecOf plan in
  _ <~ deny_unless (published_bound 0 (PlanStore.Chunks spec) (PublishedChunksOf plan)) ChunksUnbound;
  loaded <-- load_projections plan 0 (PlanStore.Chunks spec);
  content <~ settled (gather [] loaded);
  deny_unless ((PlanStore.zlen content =? PlanStore.Size spec) && bool_decide (DigestBytes content = PlanStore.ContentDigest spec)) ProjectionContent.

(** ** The plan of a migration *)

Definition desired_metadata {Spec} (p : MigrationPlan.PtahMigrationPlan (Spec := Spec)) : ObjectMeta :=
  new_meta (MigrationPlan.PlanNamespace p) (MigrationPlan.PlanName p) (list_to_map (MigrationPlan.PlanLabels p))
    ((fun o => {| OwnerAPIVersion := MigrationPlan.OwnerAPIVersion o; OwnerKind := MigrationPlan.OwnerKind o;
                  OwnerName := MigrationPlan.OwnerName o; OwnerUID := MigrationPlan.OwnerUID o;
                  Controller := Some (MigrationPlan.OwnerController o);
                  BlockOwnerDeletion := Some (MigrationPlan.BlockOwnerDeletion o) |}) <$> MigrationPlan.PlanOwners p).
Definition migration_of (m : PtahMigration) : MigrationPlan.PtahMigration :=
  {| MigrationPlan.MigrationNamespace := MetaNamespace (MigrationMetaOf m); MigrationPlan.MigrationName := MetaName (MigrationMetaOf m);
     MigrationPlan.MigrationUID := MetaUID (MigrationMetaOf m) |}.
Definition validateMigrationPlanMetadata (plan : PtahMigrationPlan) (migration : PtahMigration) : bool :=
  let meta := MPlanMeta plan in
  let owner := MigrationMetaOf migration in
  let spec := MPlanSpec plan in
  bool_decide (MetaNamespace meta = MetaNamespace owner) &&
  bool_decide (MigrationTypes.PlanMigrationRef spec = (MetaName owner, MetaUID owner)) &&
  bool_decide (DeletionTimestamp meta = None) && bool_decide (DeletionGracePeriodSeconds meta = None) &&
  bool_decide (MigrationPlan.plan_name (MigrationTypes.PlanFingerprint_ spec) = Some (MetaName meta)) &&
  match MigrationPlan.Desired MigrationTypes.PlanFingerprint_ (Some (migration_of migration)) spec with
  | Some expected => bool_decide (scrubCreateServerMetadata meta = desired_metadata expected)
  | None => false
  end.

Definition migration_plan_binding (migration : PtahMigration) (spec : MigrationTypes.PtahMigrationPlanSpec) (sequenceDigest : string) : MigrationPlan.Binding :=
  {| MigrationPlan.BMigrationUID := MetaUID (MigrationMetaOf migration);
     MigrationPlan.BHistoryFingerprint := MigrationTypes.PlanHistoryFingerprint spec;
     MigrationPlan.BSequenceDigest := sequenceDigest;
     MigrationPlan.BArtifactDigest := MigrationTypes.PlanArtifactDigest spec;
     MigrationPlan.BSource := PlanStore.source_fingerprint (MigrationTypes.PlanSource_ spec);
     MigrationPlan.BCoordinationDigest := MigrationTypes.PlanCoordinationDigest spec;
     MigrationPlan.BTargetIdentityDigest := MigrationTypes.PlanTargetIdentityDigest spec;
     MigrationPlan.BPolicyFingerprint := MigrationTypes.PlanPolicyFingerprint spec;
     MigrationPlan.BVerificationPolicyUID := MigrationTypes.PlanVerificationPolicyUID spec;
     MigrationPlan.BVerificationPolicyDigest := MigrationTypes.PlanVerificationPolicyDigest spec;
     MigrationPlan.BExecutionBindingID := MigrationTypes.PlanExecutionBindingID spec;
     MigrationPlan.BControllerStateVersion := MigrationTypes.PlanControllerStateVersion spec;
     MigrationPlan.BPtahVersion := MigrationTypes.PlanPtahVersion spec;
     MigrationPlan.BExecutorImage := MigrationTypes.PlanExecutorImage spec;
     MigrationPlan.BRunnerProtocolVersion := MigrationTypes.PlanRunnerProtocolVersion spec |}.
Definition validateMigrationPlanShape (plan : PtahMigrationPlan) (migration : PtahMigration) : bool :=
  let spec := MPlanSpec plan in
  MigrationPlan.SupportedContractVersion (MigrationTypes.PlanContractVersion spec) &&
  (MigrationTypes.PlanContractVersion spec =? SourceBinding.ContractVersion (MigrationTypes.PlanSource_ spec)) &&
  match MBindingOf migration, MHistory migration, MArtifact migration with
  | Some binding, Some history, Some artifact =>
      let migrations := MigrationTypes.PlanMigrations spec in
      bool_decide (MigrationTypes.PlanHistoryFingerprint spec = HistFingerprint history) &&
      (MigrationTypes.PlanCurrentVersion spec =? HistCurrentVersion history) &&
      bool_decide (MigrationTypes.PlanTargetIdentityDigest spec = HistTargetIdentity history) &&
      (let '(statusArtifact, statusSource) := SourceBinding.MigrationPlanSource (Some artifact) (MConfigMapRevision migration) (MSourcePolicy migration) in
       SourceBinding.SamePlanSource (MigrationTypes.PlanArtifactDigest spec) (MigrationTypes.PlanSource_ spec) statusArtifact statusSource) &&
      bool_decide (MigrationTypes.PlanExecutionBindingID spec = BindingEpoch (BindingOf binding)) &&
      (MigrationTypes.PlanControllerStateVersion spec =? BindingStateVersion (BindingOf binding)) &&
      bool_decide (MigrationTypes.PlanPtahVersion spec = BindingPtahVersion (BindingOf binding)) &&
      bool_decide (MigrationTypes.PlanExecutorImage spec = BindingExecutorImage binding) &&
      (MigrationTypes.PlanRunnerProtocolVersion spec =? BindingProtocol binding) &&
      (1 <=? PlanStore.zlen migrations) && (PlanStore.zlen migrations <=? MigrationPlan.MaxMigrations) &&
      (HistPending history =? PlanStore.zlen migrations) &&
      match MigrationPlan.SequenceDigest migrations with
      | Err _ => false
      | Ok sequenceDigest =>
          match MigrationPlan.BFingerprint (migration_plan_binding migration spec sequenceDigest) with
          | Ok wantFingerprint => bool_decide (MigrationTypes.PlanFingerprint_ spec = wantFingerprint)
          | Err _ => false
          end
      end
  | _, _, _ => false
  end.

Definition records_manager (image revision runner : string) : bool := bool_decide ((image, revision, runner) = ManagerIdentity).

Definition validateMigrationPlanCreate (req : AdmissionRequest) : check unit :=
  _ <~ no_old_object req;
  plan <~ settled (decodeObject unmarshal_migration_plan no_field (RequestObject req) migrationPlanKind);
  _ <~ settled (validateRequestIdentity req (MPlanMeta plan));
  _ <~ deny_unless ((MPlanObserved plan =? 0) && bool_decide (MPlanConditions plan = [])) StatusInjected;
  match subjectOwner (OwnerReferences (MPlanMeta plan)) with
  | Some (owner, ownerKind) =>
      _ <~ deny_unless (bool_decide (ownerKind = "PtahMigration")) NoExactOwner;
      migration <~ readMigration (MetaNamespace (MPlanMeta plan)) owner false;
      _ <~ deny_unless (validateMigrationPlanMetadata plan migration) PlanMetadataInvalid;
      _ <~ deny_unless (validateMigrationPlanShape plan migration) PlanShapeInvalid;
      let spec := MPlanSpec plan in
      deny_unless (records_manager (MigrationTypes.PlanControllerImage spec) (MigrationTypes.PlanControllerRevision spec)
                     (MigrationTypes.PlanRunnerImage spec)) OtherManager
  | None => Ret (Err (Denied NoExactOwner))
  end.

(** The plan a migration Apply names. *)
Definition migrationPlanForJob (migration : PtahMigration) (operation : MigrationOp) : check (option PtahMigrationPlan) :=
  if negb (bool_decide (StatusType (MOpStatus operation) = "Apply")) then Ret (Ok None) else
  match MPlanRef operation with
  | Some (name, uid) =>
      _ <~ deny_unless (negb (empty name) && negb (empty uid)) NoPlanReference;
      plan <~ read (ReadMigrationPlan (MetaNamespace (MigrationMetaOf migration)) name);
      _ <~ deny_unless (bool_decide (MetaUID (MPlanMeta plan) = uid)) PlanUIDDiffers;
      Ret (Ok (Some plan))
  | None => Ret (Err (Denied NoPlanReference))
  end.

(** The plan a schema Apply carries out, with the bytes it would mount. *)
Definition planForJob (schema : PtahSchema) (operation : ActiveOperation) : check (option PtahSchemaPlan) :=
  if negb (bool_decide (StatusType (OpStatus operation) = "Apply")) then Ret (Ok None) else
  match CurrentPlanOf schema with
  | Some current =>
      let name := PlanName (PlanOf current) in
      let uid := PlanUID (PlanOf current) in
      _ <~ deny_unless (negb (empty name) && negb (empty uid)) NoPlanReference;
      plan <~ read (ReadSchemaPlan (MetaNamespace (SchemaMetaOf schema)) name);
      _ <~ deny_unless (bool_decide (MetaUID (PlanMetaOf plan) = uid)) PlanUIDDiffers;
      _ <~ deny_unless (validatePlanMetadata plan schema) PlanMetadataInvalid;
      _ <~ deny_unless (validatePlanShape plan schema) PlanShapeInvalid;
      _ <~ validateApplyProjection plan;
      Ret (Ok (Some plan))
  | None => Ret (Err (Denied NoPlanReference))
  end.
End Creates.
