(* ===== verification/JobGuard.v ===== *)
(** * What the guard admits of Jobs (package [internal/controllerwrite])

    A manager may create the Job its live claim rebuilds, and may write one
    thing on a Job afterwards: its cleanup TTL, once. A schema plan is
    admitted only while the Job it was computed by still matches its claim,
    so that check is here too. *)
From Stdlib Require Import ZArith Lia.
From stdpp Require Import base list gmap strings.
From S2P Require Import TargetLock GoStrings Json Fingerprint KubeMeta KubePod JobConfig PodIntent JobClaim ResultAuthority WriteRequest WriteObjects PlanGuard Prelude.
From S2P Require MutationLifecycle SourceBinding PlanStore JobRetention.
Local Open Scope go_scope.
Local Open Scope check_scope.
Local Open Scope Z_scope.

(** ** Conditions of a Job *)

Definition jobConditionTrue (job : StoredJob) (conditionType : string) : bool :=
  existsb (fun c => bool_decide (ConditionType c = conditionType) && bool_decide (ConditionStatus c = "True")) (JobConditions job).
Definition jobTerminal (job : StoredJob) : bool := jobConditionTrue job "Complete" || jobConditionTrue job "Failed".
Definition jobSucceeded (job : StoredJob) : bool := jobConditionTrue job "Complete" && negb (jobConditionTrue job "Failed").

(** ** The keys of an envelope (pod_metadata.go) *)

Definition operationEnvelopeAnnotations : list string :=
  [AnnotationOperationID; AnnotationInputFingerprint; AnnotationPtahVersion; AnnotationExecutionBindingID; AnnotationControllerImage;
   AnnotationControllerRevision; AnnotationControllerStateVersion; AnnotationAdmissionSnapshotDigest].
Definition applyOperationAnnotations : list string :=
  AnnotationPlanFingerprint :: AnnotationPlanContentDigest :: operationEnvelopeAnnotations ++ (map_to_list (MarkMutatingOperation ∅)).*1.
Definition carriesEnvelopeKeys (annotations : gmap string string) (keys : list string) : bool :=
  forallb (fun key => bool_decide (is_Some (annotations !! key))) keys &&
  forallb (fun '(key, _) => bool_decide (key ∈ keys) || negb (ReservedPodMetadataKey key)) (map_to_list annotations).
Definition currentApplyAnnotations (annotations : gmap string string) : bool := carriesEnvelopeKeys annotations applyOperationAnnotations.
Definition currentOperationAnnotations (annotations : gmap string string) : bool :=
  carriesEnvelopeKeys annotations operationEnvelopeAnnotations || currentApplyAnnotations annotations.

(** ** Retired claims *)

Definition validateRetiredEpoch (schema : PtahSchema) (epoch : string) : bool :=
  match PendingBindingRetirement schema, ExecutionBindingOf schema with
  | Some retirement, Some binding =>
      let current := BindingEpoch (BindingOf binding) in
      is_epoch_id current && is_epoch_id (RetiredEpoch retirement) && bool_decide (epoch = RetiredEpoch retirement) &&
      negb (bool_decide (RetiredEpoch retirement = current))
  | _, _ => false
  end.
(** The pending retirement names this Job, as one of this operation. *)
Definition retirement_names (schema : PtahSchema) (operation name uid : string) : bool :=
  match PendingBindingRetirement schema with
  | Some retirement =>
      match RetiredJob retirement with
      | Some (jobOperation, jobName, jobUID) =>
          bool_decide (jobOperation = operation) && negb (empty jobName) && bool_decide (jobName = name) && negb (empty jobUID) &&
          bool_decide (jobUID = uid)
      | None => false
      end
  | None => false
  end.
Definition validateRetiredReadOnlyStatus (schema : PtahSchema) (operation : ActiveOperation) : bool :=
  let status := OpStatus operation in
  bool_decide (is_Some (ExecutionBindingOf schema)) &&
  MutationLifecycle.ReadOnly (MutationLifecycle.SchemaOperation (StatusType status)) &&
  retirement_names schema (StatusType status) (StatusJobName status) (StatusJobUID status) &&
  validateRetiredEpoch schema (StatusBindingID status).

(** ** What a claim says of a Job *)

(** [claim.Binding], [claim.Built] and [claim.Stored] as the guard sets
    them. *)
Definition guard_claim (binding : option ExecutionBinding) (built : option Job) (stored : bool) (c : Claim) : Claim :=
  {| ClaimOwner := ClaimOwner c; ClaimOperation := ClaimOperation c; Mutating := Mutating c; ClaimID := ClaimID c;
     InputFingerprint := InputFingerprint c; Epoch := Epoch c; Binding := binding; Plan := Plan c; ClaimJobName := ClaimJobName c;
     ClaimJobUID := ClaimJobUID c; Snapshot := Snapshot c; Built := built; Stored := stored |}.
Definition schema_claim (schema : PtahSchema) (operation : ActiveOperation) : Claim := SchemaOperation (schema_view schema) (OpStatus operation).
Definition migration_claim (migration : PtahMigration) (operation : MigrationOp) : Claim :=
  MigrationOperation (migration_view migration) (MOpStatus operation).

(** [apiequality.Semantic.DeepEqualWithNilDifferentFromEmpty] on two Jobs. *)
Definition semantic_job `{Apimachinery} (a b : StoredJob) : bool :=
  bool_decide (JobMeta (JobOf a) = JobMeta (JobOf b)) && semantic_job_spec (JobSpecOf (JobOf a)) (JobSpecOf (JobOf b)) &&
  bool_decide (JobConditions a = JobConditions b) && rest_equal (JobStatusRest a) (JobStatusRest b).
Definition with_ttl (ttl : option Z) (job : StoredJob) : StoredJob :=
  let s := JobSpecOf (JobOf job) in
  {| JobOf := with_job_spec (with_template (Selector s) ttl (Template s) s) (JobOf job); JobConditions := JobConditions job;
     JobStatusRest := JobStatusRest job; JobFieldsOf := JobFieldsOf job |}.
Definition scrub_job (job : StoredJob) : StoredJob :=
  {| JobOf := {| JobMeta := scrubUpdateServerMetadata (JobMeta (JobOf job)); JobSpecOf := JobSpecOf (JobOf job) |};
     JobConditions := JobConditions job; JobStatusRest := JobStatusRest job; JobFieldsOf := JobFieldsOf job |}.
Definition ttl_of (job : StoredJob) : option Z := TTLSecondsAfterFinished (JobSpecOf (JobOf job)).
Definition validateOnlyCleanupTTLChanged `{Apimachinery} (oldJob job : StoredJob) : bool :=
  semantic_job (scrub_job (with_ttl (ttl_of job) oldJob)) (scrub_job job).

(** A runner's termination summary, as [runner.ParseSummaryFor] gives it. *)
Record Summary : Type := { ErrorCode : string; Uncertain : bool; MigrationOutcome : option string }.
Definition summaryReportsSuccess (summary : Summary) : bool :=
  empty (ErrorCode summary) && negb (Uncertain summary) &&
  match MigrationOutcome summary with
  | None => true
  | Some outcome => bool_decide (outcome ∈ ["applied"; "up-to-date"])
  end.
Definition OperationApply : string := "apply".
Definition schemaApplyApproved (schema : PtahSchema) : bool :=
  match ActiveOf schema with
  | Some _ => match CurrentPlanOf schema with Some plan => PlanApproved plan | None => false end
  | None => match PendingObservationOf schema with Some pending => PendingApproved pending | None => false end
  end.

(** Errors of the claim checks are only told apart in their text. *)
Section Jobs.
Context `{Apimachinery} `{DeliveryLibraries} `{GuardLibraries} `{JobBuilder}.
Context (ParseSummaryFor : string -> string -> string -> option Summary).

Definition matches (job : Job) (claim : Claim) : bool := is_ok (Match (Some job) claim).

(** [validatePendingApplyJobCleanup]; the schema has no active operation where
    it is called. *)
Definition validatePendingApplyJobCleanup (schema : PtahSchema) (pending : option PendingStatus) (job : Job) : bool :=
  match pending with
  | Some pending =>
      let status := PendingOf pending in
      bool_decide (is_Some (ExecutionBindingOf schema)) && bool_decide (ActiveOf schema = None) &&
      bool_decide (PendingOutcome status = "OutcomeUnknown") &&
      retirement_names schema "Apply" (ApplyJobName status) (ApplyJobUID status) &&
      validateRetiredEpoch schema (PlanBindingID (PendingPlan status)) &&
      matches job (PendingApply (schema_view schema) status)
  | None => false
  end.

Definition validateClaimBoundJobCleanup (schema : PtahSchema) (operation : ActiveOperation) (job : Job) : bool :=
  let status := OpStatus operation in
  match ExecutionBindingOf schema with
  | Some binding =>
      bool_decide (NameFor schema operation = Some (StatusJobName status)) && negb (empty (StatusJobUID status)) &&
      if bool_decide (StatusBindingID status = BindingEpoch (BindingOf binding))
      then matches job (guard_claim (Some (BindingOf binding)) None false (schema_claim schema operation))
      else validateRetiredReadOnlyStatus schema operation && matches job (schema_claim schema operation)
  | None => false
  end.

Definition validateClaimBoundMigrationJobCleanup (migration : PtahMigration) (operation : MigrationOp) (job : Job) : bool :=
  let status := MOpStatus operation in
  match MBindingOf migration with
  | Some binding =>
      bool_decide (NameForMigration migration operation = Some (StatusJobName status)) && negb (empty (StatusJobUID status)) &&
      matches job (guard_claim (Some (BindingOf binding)) None false (migration_claim migration operation))
  | None => false
  end.

(** ** Creating a Job *)

Definition validateMigrationJobCreate (job : Job) (owner : OwnerReference) : check unit :=
  migration <~ readMigration (MetaNamespace (JobMeta job)) owner false;
  match MActiveOf migration with
  | None => Ret (Err (Denied NoMatchingOperation))
  | Some operation =>
      let status := MOpStatus operation in
      _ <~ deny_unless (bool_decide (StatusJobName status = MetaName (JobMeta job)) && empty (StatusJobUID status)) NoMatchingOperation;
      plan <~ migrationPlanForJob migration operation;
      match BuildMigration migration operation plan with
      | None => Ret (Err (Denied NotReconstructed))
      | Some expected =>
          deny_unless (matches job (guard_claim (BindingOf <$> MBindingOf migration) (Some expected) false (migration_claim migration operation)))
            OutsideIntent
      end
  end.

Definition validateJobCreate (req : AdmissionRequest) : check unit :=
  _ <~ no_old_object req;
  stored <~ settled (decodeObject unmarshal_job (fun j => unreviewedJobField (JobFieldsOf j)) (RequestObject req) jobKind);
  let job := JobOf stored in
  _ <~ settled (validateRequestIdentity req (JobMeta job));
  _ <~ deny_unless (bool_decide (JobConditions stored = []) && empty (JobStatusRest stored)) StatusInjected;
  match subjectOwner (OwnerReferences (JobMeta job)) with
  | None => Ret (Err (Denied NoExactOwner))
  | Some (owner, ownerKind) =>
      if bool_decide (ownerKind = "PtahMigration") then validateMigrationJobCreate job owner else
      schema <~ readSchema (MetaNamespace (JobMeta job)) owner;
      match ActiveOf schema with
      | None => Ret (Err (Denied NoMatchingOperation))
      | Some operation =>
          let status := OpStatus operation in
          _ <~ deny_unless (bool_decide (StatusJobName status = MetaName (JobMeta job)) && empty (StatusJobUID status)) NoMatchingOperation;
          plan <~ planForJob schema operation;
          match BuildJob schema operation plan with
          | None => Ret (Err (Denied NotReconstructed))
          | Some expected =>
              match CarrySealedPlanKey expected job operation with
              | None => Ret (Err (Denied SealKeyInvalid))
              | Some expected =>
                  deny_unless (matches job (guard_claim (BindingOf <$> ExecutionBindingOf schema) (Some expected) false (schema_claim schema operation)))
                    OutsideIntent
              end
          end
      end
  end.

(** ** The cleanup TTL *)

Definition jobNamespacePods (job : Job) : check (list JobRetention.PodReport) := read (ListPods (MetaNamespace (JobMeta job))).
Definition applyReportedSuccess (job : Job) (ownerKind : string) : check bool :=
  pods <~ jobNamespacePods job;
  let operation := if bool_decide (ownerKind = "PtahMigration") then JobRetention.OperationMigrationApply else OperationApply in
  Ret (Ok match JobRetention.ApplySummary ParseSummaryFor pods (MetaUID (JobMeta job)) operation
                  (get (Annotations (JobMeta job)) AnnotationOperationID) with
          | Some summary => summaryReportsSuccess summary
          | None => false
          end).

Definition validateCleanupTTLChoice (oldJob : StoredJob) (seconds : Z) (ownerKind : string) : check unit :=
  if seconds =? CleanupTTLSeconds then Ret (Ok tt) else
  _ <~ deny_unless (seconds =? FailedApplyRetentionTTLSeconds) TTLOutsideChoices;
  _ <~ deny_unless (bool_decide (get (Labels (JobMeta (JobOf oldJob))) LabelOperation = "apply")) TTLOfOtherOperation;
  if negb (jobSucceeded oldJob) then Ret (Ok tt) else
  reported <~ applyReportedSuccess (JobOf oldJob) ownerKind;
  deny_unless (negb reported) TTLOfSuccess.

Definition validateCleanupTTLApproved (seconds : Z) (approved : bool) : result failure unit :=
  guard negb ((seconds =? FailedApplyRetentionTTLSeconds) && negb approved) else Denied TTLNotApproved;
  Ok tt.

Definition validateMigrationRunMayKeepLog (job : Job) (seconds : Z) (operation : MigrationOp) : check unit :=
  if negb (seconds =? FailedApplyRetentionTTLSeconds) || bool_decide (is_Some (MApprovalRef operation)) then Ret (Ok tt) else
  pods <~ jobNamespacePods job;
  deny_unless (JobRetention.MigrationRunMayKeepLog
                 (JobRetention.ReportedMigrationRun ParseSummaryFor MigrationOutcome pods (MetaUID (JobMeta job)) (StatusID (MOpStatus operation))))
    TTLOfMigrationRun.

(** ** Updating a Job *)

Definition same_owner (job : Job) (owner : OwnerReference) (kind : string) : bool :=
  bool_decide (subjectOwner (OwnerReferences (JobMeta job)) = Some (owner, kind)).

Definition validateMigrationJobUpdate (oldJob job : StoredJob) (seconds : Z) (owner : OwnerReference) : check unit :=
  _ <~ deny_unless (same_owner (JobOf job) owner "PtahMigration") OwnerChanged;
  migration <~ readMigration (MetaNamespace (JobMeta (JobOf oldJob))) owner true;
  _ <~ deny_unless (jobTerminal oldJob) NotTerminal;
  match MActiveOf migration with
  | None => Ret (Err (Denied NotActiveInstance))
  | Some operation =>
      let status := MOpStatus operation in
      _ <~ deny_unless (bool_decide (StatusJobName status = MetaName (JobMeta (JobOf oldJob))) &&
                        bool_decide (StatusJobUID status = MetaUID (JobMeta (JobOf oldJob)))) NotActiveInstance;
      _ <~ validateMigrationRunMayKeepLog (JobOf oldJob) seconds operation;
      _ <~ deny_unless (validateClaimBoundMigrationJobCleanup migration operation (JobOf oldJob)) OutsideClaim;
      deny_unless (validateOnlyCleanupTTLChanged oldJob job) OtherFieldsChanged
  end.

(** The Job of a schema, once its schema was read. *)
Definition schema_job_update (schema : PtahSchema) (oldJob job : StoredJob) (seconds : Z) : check unit :=
  let old := JobOf oldJob in
  let annotations := Annotations (JobMeta old) in
  _ <~ settled (validateCleanupTTLApproved seconds (schemaApplyApproved schema));
  _ <~ deny_unless (jobTerminal oldJob ||
                    (match ActiveOf schema with
                     | Some operation => MutationLifecycle.Mutating (MutationLifecycle.SchemaOperation (StatusType (OpStatus operation)))
                     | None => false
                     end && currentApplyAnnotations annotations)) NotTerminal;
  if bool_decide (ActiveOf schema = None) && currentApplyAnnotations annotations then
    _ <~ deny_unless (validatePendingApplyJobCleanup schema (PendingObservationOf schema) old) NotPendingCleanup;
    deny_unless (validateOnlyCleanupTTLChanged oldJob job) OtherFieldsChanged
  else
    match ActiveOf schema with
    | None => Ret (Err (Denied NotActiveInstance))
    | Some operation =>
        let status := OpStatus operation in
        _ <~ deny_unless (bool_decide (StatusJobName status = MetaName (JobMeta old)) && bool_decide (StatusJobUID status = MetaUID (JobMeta old)))
               NotActiveInstance;
        _ <~ deny_unless (currentOperationAnnotations annotations) NoEnvelopeKeys;
        _ <~ deny_unless (validateClaimBoundJobCleanup schema operation old) OutsideClaim;
        deny_unless (validateOnlyCleanupTTLChanged oldJob job) OtherFieldsChanged
    end.

Definition validateJobUpdate (req : AdmissionRequest) : check unit :=
  _ <~ settled (if empty (RequestOldObject req) then Err (BadRequest NoOldObject) else Ok tt);
  oldJob <~ settled (decodeObject unmarshal_job (fun j => unreviewedJobField (JobFieldsOf j)) (RequestOldObject req) jobKind);
  job <~ settled (decodeObject unmarshal_job (fun j => unreviewedJobField (JobFieldsOf j)) (RequestObject req) jobKind);
  _ <~ settled (validateRequestIdentity req (JobMeta (JobOf job)));
  let old := JobMeta (JobOf oldJob) in
  _ <~ deny_unless (bool_decide (MetaNamespace old = RequestNamespace req) && bool_decide (MetaName old = RequestName req) &&
                    negb (empty (MetaUID old)) && bool_decide (MetaUID old = MetaUID (JobMeta (JobOf job)))) IdentityChanged;
  match ttl_of oldJob, ttl_of job with
  | None, Some seconds =>
      match subjectOwner (OwnerReferences old) with
      | None => Ret (Err (Denied NoExactOwner))
      | Some (owner, ownerKind) =>
          _ <~ validateCleanupTTLChoice oldJob seconds ownerKind;
          if bool_decide (ownerKind = "PtahMigration") then validateMigrationJobUpdate oldJob job seconds owner else
          _ <~ deny_unless (same_owner (JobOf job) owner ownerKind) OwnerChanged;
          schema <~ readSchemaForJobUpdate (MetaNamespace old) owner;
          schema_job_update schema oldJob job seconds
      end
  | _, _ => Ret (Err (Denied NotTTLTransition))
  end.

(** ** Publishing a schema plan *)

Definition validatePlanSourceJob (schema : PtahSchema) : check unit :=
  match plan_operation schema with
  | None => Ret (Err (Denied SourceJobInvalid))
  | Some operation =>
      let status := OpStatus operation in
      stored <~ read (ReadJob (MetaNamespace (SchemaMetaOf schema)) (StatusJobName status));
      let job := JobOf stored in
      _ <~ deny_unless (bool_decide (MetaUID (JobMeta job) = StatusJobUID status) && jobSucceeded stored &&
                        bool_decide (ttl_of stored = Some CleanupTTLSeconds)) SourceJobInvalid;
      match BuildJob schema operation None with
      | None => Ret (Err (Denied NotReconstructed))
      | Some expected =>
          match CarrySealedPlanKey (CarryManagerIdentity expected job) job operation with
          | None => Ret (Err (Denied SealKeyInvalid))
          | Some expected =>
              deny_unless (matches job (guard_claim (BindingOf <$> ExecutionBindingOf schema) (Some expected) true (schema_claim schema operation)))
                OutsideIntent
          end
      end
  end.

Definition validatePlanCreate (req : AdmissionRequest) : check unit :=
  _ <~ no_old_object req;
  plan <~ settled (decodeObject unmarshal_plan no_field (RequestObject req) planKind);
  let meta := PlanMetaOf plan in
  let spec := PlanSpecOf plan in
  _ <~ settled (validateRequestIdentity req meta);
  _ <~ deny_unless ((PlanObserved plan =? 0) && bool_decide (PublishedChunksOf plan = []) && bool_decide (PlanConditionsOf plan = [])) StatusInjected;
  owner <~ exact_owner (OwnerReferences meta) "PtahSchema";
  schema <~ readSchema (MetaNamespace meta) owner;
  _ <~ deny_unless (validatePlanMetadata plan schema) PlanMetadataInvalid;
  _ <~ deny_unless (validatePlanShape plan schema) PlanShapeInvalid;
  _ <~ deny_unless (validatePlanPublicationContext plan schema) OtherPublication;
  _ <~ deny_unless (records_manager (PlanStore.ControllerImage spec) (PlanStore.ControllerRevision spec) (PlanStore.RunnerImage spec)) OtherManager;
  validatePlanSourceJob schema.
End Jobs.
