(* ===== verification/PlanGuardProofs.v ===== *)
(** * What the guard of plans guarantees (package [internal/controllerwrite])

    The guard and the store are one contract: the chunks, the projections and
    the manifests the guard admits are those the store writes, and an Apply
    is admitted only over ConfigMaps that hold the plan's bytes. Also how a
    check that ended in a value is taken apart. *)
From Stdlib Require Import ZArith Lia.
From stdpp Require Import base list gmap strings.
From S2P Require Import TargetLock GoStrings Sha256 Json Fingerprint KubeMeta KubePod Effects JobConfig PodIntent JobClaim ResultAuthority WriteRequest WriteObjects PlanGuard Prelude.
From S2P Require SourceBinding SourceSnapshot PlanStore PlanStoreProofs MigrationPlan MigrationTypes.
Local Open Scope go_scope.
Local Open Scope check_scope.
Local Open Scope Z_scope.

(** ** Checks that ended in a value *)

Lemma runs_cbind {E A B} (p : prog E (result failure A)) (k : A -> prog E (result failure B)) log b log' :
  runs (cbind p k) log (Ok b) log' -> exists a log1, runs p log (Ok a) log1 /\ runs (k a) log1 (Ok b) log'.
Proof. unfold cbind. intros ([a|e] & log1 & Hp & Hk)%runs_bind; [by exists a, log1|by destruct Hk]. Qed.
Lemma runs_read {A} (e : readE (result api_error A)) log a log' :
  runs (read e) log (Ok a) log' -> log' = log ++ [answered e (Ok a)].
Proof. unfold read. intros ([x|x] & [Hr ->])%runs_call; [by injection Hr as ->|done]. Qed.
Lemma runs_deny c reason log u log' : runs (deny_unless c reason) log (Ok u) log' -> c = true /\ log' = log.
Proof. destruct c; intros [? ->]; done. Qed.
Lemma runs_settled {A} (r : result failure A) log a log' : runs (settled r) log (Ok a) log' -> r = Ok a /\ log' = log.
Proof. by intros [-> ->]. Qed.

(** Take the next step of an admitted check, which is hypothesis [H]. *)
Ltac step_as H a Hp :=
  let log := fresh "log" in
  apply runs_cbind in H as (a & log & Hp & H); try match type of a with unit => destruct a end;
  match type of Hp with
  | runs (deny_unless _ _) _ _ _ => apply runs_deny in Hp as [Hp ->]
  | runs (read _) _ _ _ => apply runs_read in Hp as ->
  | runs (settled _) _ _ _ => apply runs_settled in Hp as [Hp ->]
  | _ => idtac
  end.

Lemma runs_no_old req log u log' : runs (no_old_object req) log (Ok u) log' -> RequestOldObject req = EmptyString /\ log' = log.
Proof. unfold no_old_object, empty. case_bool_decide; intros [? ->]; done. Qed.

Lemma decodeObject_ok {T} unmarshal (unreviewed : T -> string) raw kind object :
  decodeObject unmarshal unreviewed raw kind = Ok object <->
  raw <> EmptyString /\ unmarshal raw = Some (kind, object) /\ unreviewed object = EmptyString.
Proof.
  unfold decodeObject, empty. case_bool_decide as Hr; cbn [negb]; [naive_solver|].
  destruct (unmarshal raw) as [[k o]|]; [|naive_solver].
  case_bool_decide as Hk; [|naive_solver]. case_bool_decide as Hf; naive_solver.
Qed.
Lemma validateRequestIdentity_ok req meta :
  validateRequestIdentity req meta = Ok tt ->
  MetaNamespace meta = RequestNamespace req /\ MetaName meta = RequestName req /\ RequestNamespace req <> EmptyString /\ RequestName req <> EmptyString.
Proof. unfold validateRequestIdentity, empty. guards. do 3 flags. tauto. Qed.
Lemma live_ok meta owner allowDeleting :
  live meta owner allowDeleting = Ok tt ->
  MetaUID meta = OwnerUID owner /\ MetaUID meta <> EmptyString /\ (allowDeleting = false -> DeletionTimestamp meta = None).
Proof. unfold live, empty. guards. do 2 flags. rewrite orb_true_iff, bool_decide_eq_true. naive_solver. Qed.

Lemma runs_schema namespace owner allowDeleting log schema log' :
  runs (readSchemaWithDeletionPolicy namespace owner allowDeleting) log (Ok schema) log' ->
  log' = log ++ [answered (ReadSchema namespace (OwnerName owner)) (Ok schema)] /\ MetaUID (SchemaMetaOf schema) = OwnerUID owner /\
  (allowDeleting = false -> DeletionTimestamp (SchemaMetaOf schema) = None).
Proof.
  unfold readSchemaWithDeletionPolicy. intros H. step_as H s Hs. apply runs_ret in H as [H ->].
  destruct (live _ _ _) as [[]|] eqn:El in H; [|done]. injection H as ->. apply live_ok in El. tauto.
Qed.
Lemma runs_migration namespace owner allowDeleting log migration log' :
  runs (readMigration namespace owner allowDeleting) log (Ok migration) log' ->
  log' = log ++ [answered (ReadMigration namespace (OwnerName owner)) (Ok migration)] /\ MetaUID (MigrationMetaOf migration) = OwnerUID owner /\
  (allowDeleting = false -> DeletionTimestamp (MigrationMetaOf migration) = None).
Proof.
  unfold readMigration. intros H. step_as H s Hs. apply runs_ret in H as [H ->].
  destruct (live _ _ _) as [[]|] eqn:El in H; [|done]. injection H as ->. apply live_ok in El. tauto.
Qed.
Lemma runs_exact_owner references kind log owner log' :
  runs (exact_owner references kind) log (Ok owner) log' ->
  references = [controller_owner kind (OwnerName owner) (OwnerUID owner)] /\ log' = log.
Proof.
  intros [H ->]. destruct (exactControllerOwner _ _ _) as [o|] eqn:Eo in H; [|done]. injection H as ->.
  apply exactControllerOwner_some in Eo as (-> & Hv & Hk & _ & _ & Hc & Hb). split; [|done].
  destruct o; unfold controller_owner; simpl in *; by subst.
Qed.

(** ** The store's objects *)

(** The metadata and the objects of [planstore], as the guard sees them. *)
Definition store_meta (m : PlanStore.ObjectMeta) : ObjectMeta :=
  new_meta (PlanStore.Namespace m) (PlanStore.Name_ m) (PlanStore.MetaLabels m) (PlanStore.OwnerReferences m).
Definition store_plan (plan : PtahSchemaPlan) : PlanStore.PtahSchemaPlan (Conditions := list Condition) :=
  let m := PlanMetaOf plan in
  {| PlanStore.PlanMeta :=
       {| PlanStore.Namespace := MetaNamespace m; PlanStore.Name_ := MetaName m; PlanStore.UID := MetaUID m;
          PlanStore.Generation := MetaGeneration m; PlanStore.DeletionTimestamp := DeletionTimestamp m;
          PlanStore.MetaLabels := Labels m; PlanStore.OwnerReferences := OwnerReferences m |};
     PlanStore.Spec := PlanSpecOf plan; PlanStore.ObservedGeneration := PlanObserved plan;
     PlanStore.PublishedChunks := PublishedChunksOf plan; PlanStore.PlanConditions := PlanConditionsOf plan |}.
Definition identified (meta : ObjectMeta) : Prop := MetaName meta <> EmptyString /\ MetaUID meta <> EmptyString.

Lemma scrub_owners m n : scrubCreateServerMetadata m = n -> OwnerReferences n = OwnerReferences m.
Proof. by intros <-. Qed.
Lemma named_owner references kind name uid :
  exactNamedControllerOwner references operator_group_version kind name uid <> None <->
  references = [controller_owner kind name uid] /\ name <> EmptyString /\ uid <> EmptyString.
Proof.
  unfold exactNamedControllerOwner. destruct (exactControllerOwner _ _ _) as [o|] eqn:Eo; simpl.
  - apply exactControllerOwner_some in Eo as (-> & Hv & Hk & Hn & Hu & Hc & Hb). unfold controller_owner.
    destruct o as [v k n u c b]; simpl in *; subst.
    destruct (bool_decide_reflect (n = name)) as [->|Hne]; cbn; [|split; [done|]; intros ([=] & _); congruence].
    destruct (bool_decide_reflect (u = uid)) as [->|Hne]; cbn; [|split; [done|]; intros ([=] & _); congruence]. done.
  - split; [done|]. intros (-> & Hn & Hu). exfalso.
    assert (exactControllerOwner [controller_owner kind name uid] operator_group_version kind = Some (controller_owner kind name uid)) as Hs
      by by apply exactControllerOwner_some.
    congruence.
Qed.
Lemma named_owner_is references kind name uid :
  is_Some (exactNamedControllerOwner references operator_group_version kind name uid) <->
  references = [controller_owner kind name uid] /\ name <> EmptyString /\ uid <> EmptyString.
Proof. rewrite <- not_eq_None_Some. apply named_owner. Qed.

Lemma chunk_metadata_store metadata plan ref :
  MetaNamespace metadata = MetaNamespace (PlanMetaOf plan) ->
  validateChunkMetadata metadata plan ref = true <->
  identified (PlanMetaOf plan) /\ scrubCreateServerMetadata metadata = store_meta (PlanStore.chunkMetadata (store_plan plan) ref).
Proof.
  intros Hns. unfold validateChunkMetadata, identified. rewrite andb_true_iff, !bool_decide_eq_true, named_owner_is, Hns.
  change (store_meta (PlanStore.chunkMetadata (store_plan plan) ref)) with (chunk_metadata (MetaNamespace (PlanMetaOf plan)) plan ref).
  split; [tauto|]. intros [Hi Hs]. split; [|done]. pose proof (scrub_owners _ _ Hs) as Ho. simpl in Ho. rewrite <- Ho. tauto.
Qed.

(** What the guard sees of an object a client submitted. *)
Definition submitted_chunk (chunk : PtahSchemaPlanChunk) : PtahSchemaPlanChunk :=
  {| ChunkMetaOf := scrubCreateServerMetadata (ChunkMetaOf chunk); ChunkDataOf := ChunkDataOf chunk |}.
Definition submitted_config (c : SourceSnapshot.ConfigMap) : SourceSnapshot.ConfigMap :=
  {| SourceSnapshot.Meta := scrubCreateServerMetadata (SourceSnapshot.Meta c); SourceSnapshot.Immutable := SourceSnapshot.Immutable c;
     SourceSnapshot.ConfigData := SourceSnapshot.ConfigData c; SourceSnapshot.BinaryData := SourceSnapshot.BinaryData c |}.
Definition store_chunk (c : PlanStore.PtahSchemaPlanChunk) : PtahSchemaPlanChunk :=
  {| ChunkMetaOf := store_meta (PlanStore.ChunkMeta c); ChunkDataOf := PlanStore.ChunkData c |}.
Definition store_config (c : PlanStore.ConfigMap) : SourceSnapshot.ConfigMap :=
  {| SourceSnapshot.Meta := store_meta (PlanStore.ConfigMeta c); SourceSnapshot.Immutable := PlanStore.Immutable c;
     SourceSnapshot.ConfigData := PlanStore.Data c; SourceSnapshot.BinaryData := PlanStore.BinaryData c |}.

(** C19: the guard and the store are one contract. Under a plan with a name and
    a UID, a chunk passes the guard exactly when it is the one the store
    writes for that reference, of bytes with the recorded length and digest;
    and a projection exactly when it is the one the store writes. Nothing is
    left open: not a label, not an owner, not a second key. *)
Theorem guard_admits_store (chunk : PtahSchemaPlanChunk) (config : SourceSnapshot.ConfigMap) plan ref :
  MetaNamespace (ChunkMetaOf chunk) = MetaNamespace (PlanMetaOf plan) ->
  MetaNamespace (SourceSnapshot.Meta config) = MetaNamespace (PlanMetaOf plan) ->
  (validateChunkObject chunk plan ref = true <->
   identified (PlanMetaOf plan) /\ exists data, chunk_bytes data ref = true /\
     submitted_chunk chunk = store_chunk (PlanStore.DesiredChunk (store_plan plan) ref data)) /\
  (validateProjection config plan ref = true <->
   identified (PlanMetaOf plan) /\ exists data, chunk_bytes data ref = true /\
     submitted_config config = store_config (PlanStore.DesiredProjection (store_plan plan) ref data)).
Proof.
  intros Hc Hp. unfold validateChunkObject, validateProjection. split.
  - rewrite andb_true_iff, chunk_metadata_store by done. split.
    + intros (Hb & Hi & Hm). split; [done|]. exists (ChunkDataOf chunk). split; [done|]. by apply (f_equal2 Build_PtahSchemaPlanChunk).
    + intros (Hi & data & Hb & Hs). pose proof (f_equal ChunkMetaOf Hs) as Hm. pose proof (f_equal ChunkDataOf Hs) as Hd.
      simpl in Hm, Hd. by rewrite Hd.
  - rewrite !andb_true_iff, !bool_decide_eq_true, chunk_metadata_store by done. split.
    + intros ((((Him & Hd) & Hsz) & Hb) & Hi & Hm). destruct (_ !! _) as [data|] eqn:Ek in Hb; [|done].
      split; [done|]. exists data. split; [done|]. destruct config as [m im d bin]; simpl in *. subst im d.
      unfold submitted_config; simpl. rewrite (singleton_of_size _ _ _ Hsz Ek).
      exact (f_equal (fun m' => SourceSnapshot.Build_ConfigMap m' (Some true) ∅ {[PlanStore.ProjectionDataKey := data]}) Hm).
    + intros (Hi & data & Hb & Hs). pose proof (f_equal SourceSnapshot.Meta Hs) as Hm. pose proof (f_equal SourceSnapshot.Immutable Hs) as Him.
      pose proof (f_equal SourceSnapshot.ConfigData Hs) as Hd. pose proof (f_equal SourceSnapshot.BinaryData Hs) as Hbin.
      simpl in Hm, Him, Hd, Hbin. rewrite Him, Hd, Hbin. by split_and!.
Qed.

(** ** What an Apply mounts *)

(** What a Pod of the plan reads, in order, is what was read of it: each
    projection carries its chunk, and together they are the plan. *)
Definition mounted (plan : PtahSchemaPlan) (log : list (entry readE)) (datas : list (list Z)) : Prop :=
  Forall2 (fun ref data => exists c, seen (ReadConfigMap (MetaNamespace (PlanMetaOf plan)) (PlanStore.ChunkName ref)) (Ok c) log /\
             validateProjection c plan ref = true /\ SourceSnapshot.BinaryData c !! PlanStore.ProjectionDataKey = Some data)
    (PlanStore.Chunks (PlanSpecOf plan)) datas.

Lemma validateProjection_data c plan ref :
  validateProjection c plan ref = true -> is_Some (SourceSnapshot.BinaryData c !! PlanStore.ProjectionDataKey).
Proof. unfold validateProjection. rewrite !andb_true_iff. intros [[_ H] _]. destruct (_ !! _); [by eexists|done]. Qed.

(** The projections that loaded are the ones read, and no other was. *)
Lemma runs_load plan refs : forall index log loaded log',
  runs (load_projections plan index refs) log loaded log' ->
  Forall2 (fun ref one => forall data, one = Ok data ->
    exists c, seen (ReadConfigMap (MetaNamespace (PlanMetaOf plan)) (PlanStore.ChunkName ref)) (Ok c) log' /\
      validateProjection c plan ref = true /\ SourceSnapshot.BinaryData c !! PlanStore.ProjectionDataKey = Some data) refs loaded.
Proof.
  induction refs as [|ref refs IH]; intros index log loaded log' H; cbn [load_projections] in H.
  { apply runs_ret in H as [-> _]. constructor. }
  apply runs_bind in H as (one & log1 & H1 & H). apply runs_bind in H as (others & log2 & H2 & H). apply runs_ret in H as [-> ->].
  specialize (IH _ _ _ _ H2). constructor; [|done]. intros data ->. unfold load_projection in H1. step_as H1 c Hc.
  apply runs_ret in H1 as [H1 ->]. destruct (validateProjection _ _ _) eqn:Ev in H1; [|done]. injection H1 as ->.
  exists c. split; [by eapply seen_runs|]. split; [done|]. by destruct (validateProjection_data _ _ _ Ev) as [x ->].
Qed.

Lemma gather_ok loaded : forall content all, gather content loaded = Ok all ->
  exists datas, loaded = Ok <$> datas /\ all = content ++ concat datas.
Proof.
  induction loaded as [|one loaded IH]; intros content all H; cbn [gather] in H.
  { injection H as <-. exists []. by rewrite app_nil_r. }
  destruct one as [data|]; [|done]. cbn [rbind] in H. destruct (_ <=? _) in H; [|done].
  apply IH in H as (datas & -> & ->). exists (data :: datas). simpl. by rewrite app_assoc.
Qed.

Lemma runs_apply_projection plan log log' :
  runs (validateApplyProjection plan) log (Ok tt) log' ->
  exists datas, mounted plan log' datas /\ PlanStore.zlen (concat datas) = PlanStore.Size (PlanSpecOf plan) /\
    DigestBytes (concat datas) = PlanStore.ContentDigest (PlanSpecOf plan) /\
    published_bound 0 (PlanStore.Chunks (PlanSpecOf plan)) (PublishedChunksOf plan) = true.
Proof.
  unfold validateApplyProjection. intros H. step_as H u Hb. apply runs_bind in H as (loaded & log1 & Hl & H).
  step_as H content Hg. apply runs_deny in H as [H ->]. apply gather_ok in Hg as (datas & -> & ->).
  exists datas. rewrite andb_true_iff, Z.eqb_eq, bool_decide_eq_true in H. split; [|tauto].
  apply runs_load in Hl. unfold mounted. rewrite Forall2_fmap_r in Hl. eapply Forall2_impl; [exact Hl|]. naive_solver.
Qed.


(** ** The manifest *)

Lemma zlen_take (n : nat) (l : list Z) : PlanStore.zlen (take n l) = Z.min (Z.of_nat n) (PlanStore.zlen l).
Proof. unfold PlanStore.zlen. rewrite length_take. lia. Qed.
Lemma int32_chunk (l : list Z) : PlanStore.zlen l <= PlanStore.ChunkBytes -> int32_wrap (PlanStore.zlen l) = PlanStore.zlen l.
Proof.
  intros Hl. apply int32_wrap_small. unfold in_int32. rewrite andb_true_iff, Z.leb_le, Z.ltb_lt.
  change PlanStore.ChunkBytes with 524288 in Hl. unfold PlanStore.zlen in *. lia.
Qed.

(** The chunk size as a number of bytes; it is never unfolded in unary. *)
Lemma chunk_nat : Z.of_nat (Z.to_nat PlanStore.ChunkBytes) = PlanStore.ChunkBytes.
Proof. by apply Z2Nat.id. Qed.
Lemma zlen_drop (l : list Z) :
  PlanStore.zlen (drop (Z.to_nat PlanStore.ChunkBytes) l) = PlanStore.zlen l - Z.min (PlanStore.zlen l) PlanStore.ChunkBytes.
Proof.
  unfold PlanStore.zlen. rewrite length_drop. pose proof chunk_nat as H. revert H. generalize (Z.to_nat PlanStore.ChunkBytes), PlanStore.ChunkBytes.
  intros n c H. lia.
Qed.
Lemma drop_shorter (b : Z) l fuel : (length (b :: l) <= S fuel)%nat -> (length (drop (Z.to_nat PlanStore.ChunkBytes) (b :: l)) <= fuel)%nat.
Proof.
  intros Hf. rewrite length_drop. pose proof chunk_nat as H. assert (Hp : 0 < PlanStore.ChunkBytes) by done. revert H Hp.
  generalize (Z.to_nat PlanStore.ChunkBytes), PlanStore.ChunkBytes. intros n c H Hp. lia.
Qed.

(** The references of the chunks a content is cut into have the shape the
    guard wants, from any index on. *)
Lemma split_shape name fuel : forall content k, (length content <= fuel)%nat ->
  chunks_shape name (Z.of_nat k) (PlanStore.zlen content)
    (imap (fun i => PlanStore.chunk_reference name (k + i)) (PlanStore.split_loop fuel content (Z.to_nat PlanStore.ChunkBytes))) = Some 0.
Proof.
  induction fuel as [|fuel IH]; intros content k Hf; [by destruct content; [|simpl in Hf; lia]|].
  destruct content as [|b content]; [done|]. cbn [PlanStore.split_loop imap].
  remember (b :: content) as whole eqn:Hw. cbn [chunks_shape PlanStore.chunk_reference PlanStore.ChunkIndex PlanStore.ChunkName PlanStore.ChunkSize PlanStore.ChunkDigest].
  assert (Hsize : PlanStore.zlen (take (Z.to_nat PlanStore.ChunkBytes) whole) = Z.min (PlanStore.zlen whole) PlanStore.ChunkBytes).
  { rewrite zlen_take, chunk_nat. apply Z.min_comm. }
  rewrite Nat.add_0_r, Z.eqb_refl, bool_decide_true, DigestBytes_shape, int32_chunk, Hsize, Z.eqb_refl by (done || (rewrite Hsize; lia)). cbn [andb].
  rewrite <- zlen_drop. replace (Z.of_nat k + 1) with (Z.of_nat (S k)) by lia.
  rewrite (imap_ext _ (fun i => PlanStore.chunk_reference name (S k + i))) by (intros i x _; simpl; f_equal; lia).
  apply IH. subst whole. by apply drop_shorter.
Qed.

(** The shape of a manifest is in two parts. What the store fills in: the size,
    the content digest and the chunks ... *)
Record partitioned (plan : PtahSchemaPlan) : Prop := {
  pt_version : is_ok (ValidatePlanContractVersion (PlanStore.ContractVersion (PlanSpecOf plan))) = true;
  pt_size : 1 <= PlanStore.Size (PlanSpecOf plan) <= PlanStore.MaxExecutableBytes;
  pt_count : PlanStore.zlen (PlanStore.Chunks (PlanSpecOf plan)) = (PlanStore.Size (PlanSpecOf plan) + PlanStore.ChunkBytes - 1) / PlanStore.ChunkBytes;
  pt_limit : 1 <= PlanStore.zlen (PlanStore.Chunks (PlanSpecOf plan)) <= PlanStore.MaxChunks;
  pt_chunks : chunks_shape (MetaName (PlanMetaOf plan)) 0 (PlanStore.Size (PlanSpecOf plan)) (PlanStore.Chunks (PlanSpecOf plan)) = Some 0;
  pt_digest : is_sha256_digest (PlanStore.ContentDigest (PlanSpecOf plan)) = true;
}.
(** ... and the bindings it takes from its caller. *)
Record publishable (spec : PlanStore.PtahSchemaPlanSpec) (schema : PtahSchema) : Prop := {
  pb_version : PlanStore.ContractVersion spec = SourceBinding.ContractVersion (PlanStore.Source spec);
  pb_digests : forallb is_sha256_digest
    [PlanStore.CoordinationDigest spec; PlanStore.TargetIdentityDigest spec; PlanStore.ActualStateFingerprint spec;
     PlanStore.DesiredStateFingerprint spec; PlanStore.PolicyFingerprint spec] = true;
  pb_source : source_shape spec = true;
  pb_statements : 1 <= PlanStore.StatementCount spec;
  pb_dialect : DialectMatches (Engine (Policy schema)) (PlanStore.Dialect spec) = true;
  pb_policy : schemaPolicyFingerprint schema = PlanStore.PolicyFingerprint spec;
  pb_fingerprint : Fingerprint (PlanStore.Binding (MetaUID (SchemaMetaOf schema)) spec) = Ok (PlanStore.SpecFingerprint spec);
}.
Lemma shape_parts plan schema : validatePlanShape plan schema = true <-> partitioned plan /\ publishable (PlanSpecOf plan) schema.
Proof.
  unfold validatePlanShape. cbv zeta.
  rewrite !andb_true_iff, !bool_decide_eq_true, !Z.leb_le, !Z.eqb_eq. cbn [forallb]. rewrite !andb_true_iff. split.
  - intros H. destruct (Fingerprint _) as [f|] eqn:Ef; [rewrite bool_decide_eq_true in H|by destruct H].
    split; constructor; rewrite ?Ef; cbn [forallb]; rewrite ?andb_true_iff; try tauto; try lia; f_equal; tauto.
  - intros [[] []]. cbn [forallb] in *. rewrite !andb_true_iff in *. rewrite pb_fingerprint0, bool_decide_true by done. split_and!; try tauto; lia.
Qed.

Definition schema_owner (schema : PtahSchema) : PlanStore.SchemaOwner :=
  {| PlanStore.SchemaNamespace := MetaNamespace (SchemaMetaOf schema); PlanStore.SchemaName := MetaName (SchemaMetaOf schema);
     PlanStore.SchemaOwnerUID := MetaUID (SchemaMetaOf schema) |}.

(** What [Prepare] answers with. *)
Lemma prepare_inv schema spec content desired chunks :
  PlanStore.Prepare ([] : list Condition) (Some (schema_owner schema)) spec content = Ok (desired, chunks) ->
  exists name, deterministicPlanName (PlanStore.SpecFingerprint spec) = Some name /\ MetaUID (SchemaMetaOf schema) <> EmptyString /\
    1 <= PlanStore.zlen content <= PlanStore.MaxExecutableBytes /\ is_ok (ValidatePlanContractVersion (PlanStore.ContractVersion spec)) = true /\
    PlanStore.SchemaRef spec = (MetaName (SchemaMetaOf schema), MetaUID (SchemaMetaOf schema)) /\
    store_meta (PlanStore.PlanMeta desired) =
      new_meta (MetaNamespace (SchemaMetaOf schema)) name {[PlanStore.LabelSchema := MetaName (SchemaMetaOf schema)]}
        [controller_owner "PtahSchema" (MetaName (SchemaMetaOf schema)) (MetaUID (SchemaMetaOf schema))] /\
    PlanStore.Spec desired = PlanStore.with_content spec (DigestBytes content) (PlanStore.zlen content)
      (imap (PlanStore.chunk_reference name) (PlanStore.split content PlanStore.ChunkBytes)).
Proof.
  unfold PlanStore.Prepare. intros H.
  destruct (negb (bool_decide (PlanStore.SchemaOwnerUID _ = _))) eqn:Huid in H; [|done]. apply negb_true_iff, bool_decide_eq_false in Huid.
  destruct (negb (PlanStore.zlen content =? 0)) eqn:Hne in H; [|done]. destruct (negb (_ <? PlanStore.zlen content)) eqn:Hmax in H; [|done].
  destruct (negb _) in H; [|done]. destruct (is_sha256_digest _) eqn:Hf in H; [|done].
  destruct (PlanStore.validatePlanContract spec) as [[]|] eqn:Hc; [|done]. cbn [rbind] in H.
  case_bool_decide as Href; [|done]. unfold PlanStore.Name in H. rewrite Hf in H. cbn [rbind] in H.
  exists (PlanStore.namePrefix +:+ str_take 24 (str_drop 7 (PlanStore.SpecFingerprint spec))).
  split; [unfold deterministicPlanName; by rewrite Hf|]. revert H.
  generalize (PlanStore.namePrefix +:+ str_take 24 (str_drop 7 (PlanStore.SpecFingerprint spec))) as name. intros name H.
  destruct (negb _) eqn:Hcnt in H; [|done]. injection H as <- <-. bool_prop. change PlanStore.MaxPlanBytes with PlanStore.MaxExecutableBytes in Hmax.
  unfold PlanStore.validatePlanContract in Hc. destruct (ValidatePlanContractVersion _) as [[]|]; [|done].
  split_and!; try done. unfold PlanStore.zlen in *. lia.
Qed.


(** ** Pieces of a plan *)

(** The plan a piece names as its one owner, and the live schema that owns the
    plan, as they were read. *)
Record belongs (meta : ObjectMeta) (plan : PtahSchemaPlan) (schema : PtahSchema) (log : list (entry readE)) : Prop := {
  bl_owner : exists name, OwnerReferences meta = [controller_owner "PtahSchemaPlan" name (MetaUID (PlanMetaOf plan))] /\
    seen (ReadSchemaPlan (MetaNamespace meta) name) (Ok plan) log;
  bl_schema : exists name, OwnerReferences (PlanMetaOf plan) = [controller_owner "PtahSchema" name (MetaUID (SchemaMetaOf schema))] /\
    seen (ReadSchema (MetaNamespace (PlanMetaOf plan)) name) (Ok schema) log;
  bl_live : DeletionTimestamp (SchemaMetaOf schema) = None /\ DeletionTimestamp (PlanMetaOf plan) = None;
  bl_manifest : validatePlanMetadata plan schema = true /\ validatePlanShape plan schema = true;
}.

Lemma metadata_live plan schema : validatePlanMetadata plan schema = true -> DeletionTimestamp (PlanMetaOf plan) = None.
Proof. unfold validatePlanMetadata. rewrite !andb_true_iff, !bool_decide_eq_true. tauto. Qed.

Lemma runs_chunk_owner meta log plan schema log' :
  runs (chunkOwner (MetaNamespace meta) (OwnerReferences meta)) log (Ok (plan, schema)) log' -> belongs meta plan schema log'.
Proof.
  unfold chunkOwner. intros H. step_as H owner Ho. apply runs_exact_owner in Ho as [Ho ->]. step_as H p Hp. step_as H u Hu.
  step_as H planOwner Hpo. apply runs_exact_owner in Hpo as [Hpo ->]. step_as H s Hs. unfold readSchema in Hs.
  apply runs_schema in Hs as (-> & Hsu & Hlive). step_as H u Hm. step_as H u Hsh. apply runs_ret in H as [[= -> ->] ->].
  rewrite andb_true_iff, bool_decide_eq_true in Hu. destruct Hu as [_ Hu]. constructor.
  - exists (OwnerName owner). rewrite Hu. split; [done|]. unfold seen. rewrite !in_app_iff. left; right. by left.
  - exists (OwnerName planOwner). rewrite Hsu. split; [done|]. unfold seen. rewrite !in_app_iff. right. by left.
  - split; [by apply Hlive|by eapply metadata_live].
  - done.
Qed.

Lemma find_reference refs name ref : findChunkReference refs name = Some ref -> ref ∈ refs /\ PlanStore.ChunkName ref = name.
Proof. intros [Hin Hb%bool_decide_eq_true]%List.find_some. split; [by apply list_elem_of_In|done]. Qed.

Section Pieces.
Context `{GuardLibraries}.

(** A chunk enters the cluster only as a piece of a plan under
    publication, and a projection only as a piece of an Apply that was not
    dispatched. Either names as its one owner a plan that was read, live, with
    the exact metadata and shape of a manifest, owned by a live schema that
    was read after it. A chunk's schema runs the harvested Plan operation the
    manifest was computed by; a projection's schema holds an Apply claim
    without a Job, before its dispatch, of exactly this plan. And the bytes
    are those the manifest records under the object's name. *)
Theorem plan_pieces_guarded req log log' :
  (runs (validatePlanChunkCreate req) log (Ok tt) log' ->
   exists chunk plan schema ref operation,
     unmarshal_chunk (RequestObject req) = Some (planChunkKind, chunk) /\ belongs (ChunkMetaOf chunk) plan schema log' /\
     plan_operation schema = Some operation /\ validatePlanPublicationContext plan schema = true /\
     ref ∈ PlanStore.Chunks (PlanSpecOf plan) /\ PlanStore.ChunkName ref = MetaName (ChunkMetaOf chunk) /\
     validateChunkObject chunk plan ref = true) /\
  (runs (validateProjectionCreate req) log (Ok tt) log' ->
   exists config, unmarshal_config_map (RequestObject req) = Some (configMapKind, config) /\
     (SourceSnapshot.IsName (MetaName (SourceSnapshot.Meta config)) = true \/
      exists plan schema ref operation current,
        belongs (SourceSnapshot.Meta config) plan schema log' /\ ActiveOf schema = Some operation /\ CurrentPlanOf schema = Some current /\
        StatusType (OpStatus operation) = "Apply" /\ StatusJobUID (OpStatus operation) = EmptyString /\
        StatusDispatched (OpStatus operation) = false /\ PlanUID (PlanOf current) = MetaUID (PlanMetaOf plan) /\
        PlanFingerprint (PlanOf current) = PlanStore.SpecFingerprint (PlanSpecOf plan) /\
        ref ∈ PlanStore.Chunks (PlanSpecOf plan) /\ PlanStore.ChunkName ref = MetaName (SourceSnapshot.Meta config) /\
        validateProjection config plan ref = true)).
Proof.
  split.
  - unfold validatePlanChunkCreate. intros Hr. step_as Hr u Hu. apply runs_no_old in Hu as [_ ->]. step_as Hr chunk Hd.
    apply decodeObject_ok in Hd as (_ & Hd & _). step_as Hr u Hi. step_as Hr owners Ho. destruct owners as [plan schema].
    apply runs_chunk_owner in Ho. step_as Hr u Hp. destruct (findChunkReference _ _) as [ref|] eqn:Ef; [|by destruct Hr].
    apply runs_deny in Hr as [Hr ->]. apply find_reference in Ef as [Hin Hn].
    assert (exists operation, plan_operation schema = Some operation) as [operation Hop].
    { unfold validatePlanPublicationContext in Hp. destruct (plan_operation schema); [by eexists|done]. }
    by exists chunk, plan, schema, ref, operation.
  - unfold validateProjectionCreate. intros Hr. step_as Hr u Hu. apply runs_no_old in Hu as [_ ->]. step_as Hr config Hd.
    apply decodeObject_ok in Hd as (_ & Hd & _). step_as Hr u Hi. exists config. split; [done|].
    destruct (SourceSnapshot.IsName _); [by left|right]. step_as Hr owners Ho. destruct owners as [plan schema].
    apply runs_chunk_owner in Ho. step_as Hr u Hp. destruct (findChunkReference _ _) as [ref|] eqn:Ef; [|by destruct Hr].
    apply runs_deny in Hr as [Hr ->]. apply find_reference in Ef as [Hin Hn].
    unfold validateApplyDispatchContext in Hp. destruct (ActiveOf schema) as [operation|] eqn:Ea; [|done].
    destruct (CurrentPlanOf schema) as [current|] eqn:Ec; [|done]. unfold empty in Hp.
    rewrite !andb_true_iff, !negb_true_iff, !bool_decide_eq_true in Hp.
    exists plan, schema, ref, operation, current. rewrite Ea, Ec. tauto.
Qed.
End Pieces.
