(* ===== verification/JobGuardProofs.v ===== *)
(** * What the guard of Jobs guarantees (package [internal/controllerwrite])

    A Job enters the cluster as the Job a live claim rebuilds, and the manager
    changes one thing of it afterwards: its cleanup TTL, from none to one of
    two values, the long one with its reason. *)
From Stdlib Require Import ZArith Lia.
From stdpp Require Import base list gmap strings.
From S2P Require Import TargetLock GoStrings Json Fingerprint KubeMeta KubePod Effects JobConfig PodIntent JobClaim JobClaimProofs ResultAuthority.
From S2P Require Import WriteRequest WriteObjects PlanGuard PlanGuardProofs JobGuard Prelude.
From S2P Require MutationLifecycle SourceBinding SourceSnapshot PlanStore JobRetention.
Local Open Scope go_scope.
Local Open Scope check_scope.
Local Open Scope Z_scope.

Section Jobs.
Context `{Apimachinery} `{DeliveryLibraries} `{GuardLibraries} `{JobBuilder}.

(** The live resource a Job names as its one owner, as it was read. *)
Definition owned_by_schema (job : Job) (schema : PtahSchema) (log : list (entry readE)) : Prop :=
  exists name, OwnerReferences (JobMeta job) = [controller_owner "PtahSchema" name (MetaUID (SchemaMetaOf schema))] /\
    seen (ReadSchema (MetaNamespace (JobMeta job)) name) (Ok schema) log.
Definition owned_by_migration (job : Job) (migration : PtahMigration) (log : list (entry readE)) : Prop :=
  exists name, OwnerReferences (JobMeta job) = [controller_owner "PtahMigration" name (MetaUID (MigrationMetaOf migration))] /\
    seen (ReadMigration (MetaNamespace (JobMeta job)) name) (Ok migration) log.

(** The Job is the one [built] the claim of this operation authorizes: the
    claim has no Job yet, and it pins the Job's Pod template. *)
Record authorizes (op : operation_status) (claim : Claim) (job : Job) : Prop := {
  au_name : StatusJobName op = MetaName (JobMeta job);
  au_fresh : StatusJobUID op = EmptyString;
  au_match : Match (Some job) claim = Ok tt;
  au_template : exists s, StatusSnapshot op = Some s /\ DigestTemplate (Template (JobSpecOf job)) = TemplateDigest s;
  au_epoch : get (Annotations (JobMeta job)) AnnotationExecutionBindingID = StatusBindingID op;
}.

Lemma matches_ok job claim : matches job claim = true -> Match (Some job) claim = Ok tt.
Proof. unfold matches. by destruct (Match _ _) as [[]|]. Qed.

Lemma authorizes_intro op owner mutating plan binding built job :
  bool_decide (StatusJobName op = MetaName (JobMeta job)) && empty (StatusJobUID op) = true ->
  matches job (guard_claim binding built false (operation_claim owner mutating plan None false op)) = true ->
  authorizes op (guard_claim binding built false (operation_claim owner mutating plan None false op)) job.
Proof.
  intros Hn Hm. unfold empty in Hn. rewrite andb_true_iff, !bool_decide_eq_true in Hn. apply matches_ok in Hm.
  destruct (match_inv _ _ Hm) as (s & Hs & _ & _ & _ & _ & _ & _ & _ & He & _ & Ht). simpl in Hs, He. constructor; try tauto. by exists s.
Qed.

(** The plan a schema's Apply is built from: the schema's current one, read
    under its name and with its UID, the manifest of this schema, over
    projections that were read and hold its content. Any other operation has
    none. *)
Definition schema_plan_of (schema : PtahSchema) (operation : ActiveOperation) (plan : option PtahSchemaPlan) (log : list (entry readE)) : Prop :=
  if bool_decide (StatusType (OpStatus operation) = "Apply") then
    exists p current datas, plan = Some p /\ CurrentPlanOf schema = Some current /\
      seen (ReadSchemaPlan (MetaNamespace (SchemaMetaOf schema)) (PlanName (PlanOf current))) (Ok p) log /\
      MetaUID (PlanMetaOf p) = PlanUID (PlanOf current) /\ PlanUID (PlanOf current) <> EmptyString /\
      validatePlanMetadata p schema = true /\ validatePlanShape p schema = true /\ mounted p log datas /\
      PlanStore.zlen (concat datas) = PlanStore.Size (PlanSpecOf p) /\
      DigestBytes (concat datas) = PlanStore.ContentDigest (PlanSpecOf p)
  else plan = None.
(** The plan a migration's Apply is built from: the one its claim names, read
    under that name and with that UID. *)
Definition migration_plan_of (migration : PtahMigration) (operation : MigrationOp) (plan : option PtahMigrationPlan) (log : list (entry readE)) : Prop :=
  if bool_decide (StatusType (MOpStatus operation) = "Apply") then
    exists p name uid, plan = Some p /\ MPlanRef operation = Some (name, uid) /\ uid <> EmptyString /\
      seen (ReadMigrationPlan (MetaNamespace (MigrationMetaOf migration)) name) (Ok p) log /\ MetaUID (MPlanMeta p) = uid
  else plan = None.

Inductive created (job : Job) (log : list (entry readE)) : Prop :=
| created_for_schema schema operation plan built expected binding :
    owned_by_schema job schema log -> DeletionTimestamp (SchemaMetaOf schema) = None -> ActiveOf schema = Some operation ->
    binding = BindingOf <$> ExecutionBindingOf schema ->
    BuildJob schema operation plan = Some built -> CarrySealedPlanKey built job operation = Some expected ->
    authorizes (OpStatus operation) (guard_claim binding (Some expected) false (schema_claim schema operation)) job ->
    schema_plan_of schema operation plan log -> created job log
| created_for_migration migration operation plan built binding :
    owned_by_migration job migration log -> DeletionTimestamp (MigrationMetaOf migration) = None -> MActiveOf migration = Some operation ->
    binding = BindingOf <$> MBindingOf migration -> BuildMigration migration operation plan = Some built ->
    authorizes (MOpStatus operation) (guard_claim binding (Some built) false (migration_claim migration operation)) job ->
    migration_plan_of migration operation plan log -> created job log.

(** A log that only grew still has what was seen. *)
Lemma seen_before {A} {X} (e : readE X) (x : X) (p : check A) log a log' : seen e x log -> runs p log a log' -> seen e x log'.
Proof. intros Hs [more ->]%runs_extends. unfold seen. rewrite in_app_iff. by left. Qed.
Lemma seen_last {X} (e : readE X) (x : X) log : seen e x (log ++ [answered e x]).
Proof. unfold seen. rewrite in_app_iff. right. by left. Qed.

Lemma runs_plan_for_job schema operation log plan log' :
  runs (planForJob schema operation) log (Ok plan) log' -> schema_plan_of schema operation plan log'.
Proof.
  unfold planForJob, schema_plan_of. case_bool_decide; cbn [negb]; intros H4; [|by apply runs_ret in H4 as [[= ->] _]].
  destruct (CurrentPlanOf schema) as [current|]; [|by destruct H4].
  step_as H4 u Hn. step_as H4 p Hp. step_as H4 u Hu. step_as H4 u Hm. step_as H4 u Hs. apply runs_cbind in H4 as ([] & log1 & Ha & H4).
  apply runs_ret in H4 as [[= ->] ->]. pose proof Ha as Hgrow. apply runs_apply_projection in Ha as (datas & Hd & Hz & Hc & _).
  apply bool_decide_eq_true in Hu. unfold empty in Hn. rewrite !andb_true_iff, !negb_true_iff, !bool_decide_eq_false in Hn.
  exists p, current, datas. split_and!; try tauto. eapply seen_before; [apply seen_last|exact Hgrow].
Qed.
Lemma runs_migration_plan migration operation log plan log' :
  runs (migrationPlanForJob migration operation) log (Ok plan) log' -> migration_plan_of migration operation plan log'.
Proof.
  unfold migrationPlanForJob, migration_plan_of. case_bool_decide; cbn [negb]; intros H4; [|by apply runs_ret in H4 as [[= ->] _]].
  destruct (MPlanRef operation) as [[name uid]|]; [|by destruct H4].
  step_as H4 u Hn. step_as H4 p Hp. step_as H4 u Hu. apply runs_ret in H4 as [[= ->] ->]. apply bool_decide_eq_true in Hu.
  unfold empty in Hn. rewrite !andb_true_iff, !negb_true_iff, !bool_decide_eq_false in Hn.
  exists p, name, uid. split_and!; try tauto. apply seen_last.
Qed.

(** C12: a Job the guard lets the manager create is the Job of a live claim
    that has none. The Job decodes strictly, has no field nobody reviewed and
    no status; its one owner is a resource that was read, live; the active
    operation of that resource reserved the Job's name and holds no Job's UID;
    the Job is the one this operation rebuilds, under the binding in force and
    its epoch, and its Pod template is the one whose digest the claim recorded
    before. What it was rebuilt from: a schema's Apply from the schema's
    current plan, read with its recorded UID, whose projections were read and
    hold its size and content digest; a migration's Apply from the plan the
    claim names, read with that UID; any other operation from no plan. *)
Theorem job_create_guarded req log log' :
  runs (validateJobCreate req) log (Ok tt) log' ->
  exists stored, unmarshal_job (RequestObject req) = Some (jobKind, stored) /\ reviewed_job (JobFieldsOf stored) /\
    MetaNamespace (JobMeta (JobOf stored)) = RequestNamespace req /\ MetaName (JobMeta (JobOf stored)) = RequestName req /\
    JobConditions stored = [] /\ JobStatusRest stored = EmptyString /\ created (JobOf stored) log'.
Proof.
  unfold validateJobCreate. intros Hr. step_as Hr u Hu. apply runs_no_old in Hu as [_ ->]. step_as Hr stored Hd.
  apply decodeObject_ok in Hd as (_ & Hd & Hf%reviewed_iff). step_as Hr u Hi. apply validateRequestIdentity_ok in Hi as (Hns & Hn & _).
  step_as Hr u Hst. unfold empty in Hst. rewrite andb_true_iff, !bool_decide_eq_true in Hst.
  exists stored. do 4 (split; [done|]). split; [tauto|]. split; [tauto|].
  destruct (subjectOwner _) as [[owner kind]|] eqn:Eo; [|by destruct Hr]. apply subjectOwner_some in Eo as (Eo & _ & Hkind).
  case_bool_decide as Hk.
  - subst kind. unfold validateMigrationJobCreate in Hr. step_as Hr migration Hm. apply runs_migration in Hm as (-> & Hu & Hlive).
    destruct (MActiveOf migration) as [operation|] eqn:Ea; [|by destruct Hr]. step_as Hr u Hop. step_as Hr plan Hp.
    destruct (BuildMigration _ _ _) as [built|] eqn:Eb; [|by destruct Hr]. apply runs_deny in Hr as [Hr ->].
    eapply created_for_migration; [|by apply Hlive|exact Ea|done|exact Eb|by apply authorizes_intro|by eapply runs_migration_plan].
    exists (OwnerName owner). rewrite Hu. split; [done|]. eapply seen_before; [apply seen_last|exact Hp].
  - destruct Hkind as [->|]; [|done]. unfold readSchema in Hr. step_as Hr schema Hm. apply runs_schema in Hm as (-> & Hu & Hlive).
    destruct (ActiveOf schema) as [operation|] eqn:Ea; [|by destruct Hr]. step_as Hr u Hop. step_as Hr plan Hp.
    destruct (BuildJob _ _ _) as [built|] eqn:Eb; [|by destruct Hr].
    destruct (CarrySealedPlanKey _ _ _) as [expected|] eqn:Ec; [|by destruct Hr]. apply runs_deny in Hr as [Hr ->].
    eapply created_for_schema; [|by apply Hlive|exact Ea|done|exact Eb|exact Ec|by apply authorizes_intro|by eapply runs_plan_for_job].
    exists (OwnerName owner). rewrite Hu. split; [done|]. eapply seen_before; [apply seen_last|exact Hp].
Qed.

(** ** The cleanup TTL *)

Context (ParseSummaryFor : string -> string -> string -> option Summary).

(** Why a Job keeps its log for the long time: it is of an Apply, its Pod did
    not report a success that the Job's own conditions agree with, and ... *)
Definition may_keep_log (old : StoredJob) (kind : string) (log : list (entry readE)) : Prop :=
  get (Labels (JobMeta (JobOf old))) LabelOperation = "apply" /\
  (jobSucceeded old = true ->
   exists pods, seen (ListPods (MetaNamespace (JobMeta (JobOf old)))) (Ok pods) log /\
     match JobRetention.ApplySummary ParseSummaryFor pods (MetaUID (JobMeta (JobOf old)))
             (if bool_decide (kind = "PtahMigration") then JobRetention.OperationMigrationApply else OperationApply)
             (get (Annotations (JobMeta (JobOf old))) AnnotationOperationID) with
     | Some summary => summaryReportsSuccess summary = false
     | None => True
     end).
(** ... for a migration, an approval authorized the run, or its Pod did not
    report one that moved the database as planned. *)
Definition migration_may_keep (old : StoredJob) (operation : MigrationOp) (log : list (entry readE)) : Prop :=
  is_Some (MApprovalRef operation) \/
  exists pods, seen (ListPods (MetaNamespace (JobMeta (JobOf old)))) (Ok pods) log /\
    JobRetention.MigrationRunMayKeepLog (JobRetention.ReportedMigrationRun ParseSummaryFor MigrationOutcome pods
      (MetaUID (JobMeta (JobOf old))) (StatusID (MOpStatus operation))) = true.

(** The claim the old Job matches, of its owner as it was read. *)
Inductive scheduled_by (old : StoredJob) (seconds : Z) (log : list (entry readE)) (claim : Claim) : Prop :=
| by_active schema operation :
    owned_by_schema (JobOf old) schema log -> ActiveOf schema = Some operation ->
    StatusJobName (OpStatus operation) = MetaName (JobMeta (JobOf old)) -> StatusJobUID (OpStatus operation) = MetaUID (JobMeta (JobOf old)) ->
    (jobTerminal old = true \/ MutationLifecycle.Mutating (MutationLifecycle.SchemaOperation (StatusType (OpStatus operation))) = true) ->
    (seconds = FailedApplyRetentionTTLSeconds -> exists plan, CurrentPlanOf schema = Some plan /\ PlanApproved plan = true) ->
    (exists binding, claim = guard_claim (Some (BindingOf binding)) None false (schema_claim schema operation) /\ ExecutionBindingOf schema = Some binding) \/
    (claim = schema_claim schema operation /\ validateRetiredReadOnlyStatus schema operation = true) ->
    scheduled_by old seconds log claim
| by_pending schema pending :
    owned_by_schema (JobOf old) schema log -> ActiveOf schema = None -> PendingObservationOf schema = Some pending ->
    jobTerminal old = true -> PendingOutcome (PendingOf pending) = "OutcomeUnknown" ->
    validateRetiredEpoch schema (PlanBindingID (PendingPlan (PendingOf pending))) = true ->
    (seconds = FailedApplyRetentionTTLSeconds -> PendingApproved pending = true) ->
    claim = PendingApply (schema_view schema) (PendingOf pending) ->
    scheduled_by old seconds log claim
| by_migration migration operation binding :
    owned_by_migration (JobOf old) migration log -> MActiveOf migration = Some operation ->
    StatusJobName (MOpStatus operation) = MetaName (JobMeta (JobOf old)) -> StatusJobUID (MOpStatus operation) = MetaUID (JobMeta (JobOf old)) ->
    jobTerminal old = true -> (seconds = FailedApplyRetentionTTLSeconds -> migration_may_keep old operation log) ->
    MBindingOf migration = Some binding -> claim = guard_claim (Some (BindingOf binding)) None false (migration_claim migration operation) ->
    scheduled_by old seconds log claim.

Lemma runs_pods job log pods log' :
  runs (jobNamespacePods job) log (Ok pods) log' -> log' = log ++ [answered (ListPods (MetaNamespace (JobMeta job))) (Ok pods)].
Proof. apply runs_read. Qed.

Lemma runs_choice old seconds kind log log' :
  runs (validateCleanupTTLChoice ParseSummaryFor old seconds kind) log (Ok tt) log' ->
  seconds = CleanupTTLSeconds \/ seconds = FailedApplyRetentionTTLSeconds /\ may_keep_log old kind log'.
Proof.
  unfold validateCleanupTTLChoice, may_keep_log. destruct (Z.eqb_spec seconds CleanupTTLSeconds) as [|_]; [by left|]. intros Hr. right.
  step_as Hr u Hs. step_as Hr u Hl. apply Z.eqb_eq in Hs. apply bool_decide_eq_true in Hl. split; [done|]. split; [done|]. intros Hok.
  rewrite Hok in Hr. cbn [negb] in Hr. step_as Hr reported Hp. apply runs_deny in Hr as [Hr ->]. unfold applyReportedSuccess in Hp.
  step_as Hp pods Hl2. apply runs_pods in Hl2 as ->. apply runs_ret in Hp as [[= ->] ->]. exists pods. split; [apply seen_last|].
  apply negb_true_iff in Hr. by destruct (JobRetention.ApplySummary _ _ _ _ _).
Qed.
Lemma runs_may_keep old seconds operation log log' :
  runs (validateMigrationRunMayKeepLog ParseSummaryFor (JobOf old) seconds operation) log (Ok tt) log' ->
  seconds = FailedApplyRetentionTTLSeconds -> migration_may_keep old operation log'.
Proof.
  unfold validateMigrationRunMayKeepLog, migration_may_keep. intros Hr ->. rewrite Z.eqb_refl in Hr. cbn [negb orb] in Hr.
  case_bool_decide; [by left|right]. step_as Hr pods Hl. apply runs_pods in Hl as ->. apply runs_deny in Hr as [Hr ->].
  exists pods. split; [apply seen_last|done].
Qed.

(** What an admitted update changed. *)
Record ttl_written (old job : StoredJob) (seconds : Z) : Prop := {
  tw_same : MetaUID (JobMeta (JobOf old)) = MetaUID (JobMeta (JobOf job)) /\ MetaUID (JobMeta (JobOf old)) <> EmptyString;
  tw_from : ttl_of old = None;
  tw_to : ttl_of job = Some seconds;
  tw_meta : scrubUpdateServerMetadata (JobMeta (JobOf old)) = scrubUpdateServerMetadata (JobMeta (JobOf job));
  tw_spec : semantic_job_spec (JobSpecOf (JobOf (with_ttl (Some seconds) old))) (JobSpecOf (JobOf job)) = true;
  tw_status : JobConditions old = JobConditions job /\ rest_equal (JobStatusRest old) (JobStatusRest job) = true;
}.
Lemma only_ttl old job seconds :
  MetaUID (JobMeta (JobOf old)) = MetaUID (JobMeta (JobOf job)) -> MetaUID (JobMeta (JobOf old)) <> EmptyString ->
  ttl_of old = None -> ttl_of job = Some seconds -> validateOnlyCleanupTTLChanged old job = true -> ttl_written old job seconds.
Proof.
  intros Hu Hne Hf Ht. unfold validateOnlyCleanupTTLChanged, semantic_job. rewrite Ht, !andb_true_iff, !bool_decide_eq_true.
  intros [[[Hm Hs] Hc] Hrest]. constructor; done.
Qed.

Lemma runs_schema_update schema old job seconds log log' :
  owned_by_schema (JobOf old) schema log -> runs (schema_job_update schema old job seconds) log (Ok tt) log' ->
  validateOnlyCleanupTTLChanged old job = true /\ exists claim, scheduled_by old seconds log' claim /\ Match (Some (JobOf old)) claim = Ok tt.
Proof.
  intros Hown Hr. unfold schema_job_update in Hr. step_as Hr u Ha. step_as Hr u Ht.
  assert (Happ : seconds = FailedApplyRetentionTTLSeconds -> schemaApplyApproved schema = true).
  { intros ->. unfold validateCleanupTTLApproved in Ha. rewrite Z.eqb_refl in Ha. by destruct (schemaApplyApproved schema). }
  unfold schemaApplyApproved in Happ. case_bool_decide as Hnone; cbn [andb] in Hr.
  - rewrite Hnone in Happ, Ht, Hr. cbn [andb] in Ht. rewrite orb_false_r in Ht.
    destruct (currentApplyAnnotations _); [|by destruct Hr]. step_as Hr u Hp. apply runs_deny in Hr as [Hr ->]. split; [done|].
    unfold validatePendingApplyJobCleanup in Hp. destruct (PendingObservationOf schema) as [pending|] eqn:Ep; [|done].
    rewrite !andb_true_iff, !bool_decide_eq_true in Hp. destruct Hp as [[[[[_ _] Ho] _] He] Hm].
    exists (PendingApply (schema_view schema) (PendingOf pending)). split; [|by apply matches_ok]. by eapply by_pending.
  - destruct (ActiveOf schema) as [operation|] eqn:Ea; [|done]. step_as Hr u Hn. step_as Hr u Hk. step_as Hr u Hc.
    apply runs_deny in Hr as [Hr ->]. split; [done|]. rewrite andb_true_iff, !bool_decide_eq_true in Hn.
    assert (Hplan : seconds = FailedApplyRetentionTTLSeconds -> exists plan, CurrentPlanOf schema = Some plan /\ PlanApproved plan = true).
    { intros Hs. specialize (Happ Hs). destruct (CurrentPlanOf schema) as [plan|]; [by exists plan|done]. }
    assert (Hterm : jobTerminal old = true \/ MutationLifecycle.Mutating (MutationLifecycle.SchemaOperation (StatusType (OpStatus operation))) = true).
    { rewrite orb_true_iff, andb_true_iff in Ht. tauto. }
    unfold validateClaimBoundJobCleanup in Hc. destruct (ExecutionBindingOf schema) as [binding|] eqn:Eb; [|done].
    rewrite andb_true_iff in Hc. destruct Hc as [_ Hc]. case_bool_decide as Hb.
    + eexists. split; [|by apply matches_ok]. eapply by_active; [done|exact Ea|apply Hn|apply Hn|done|done|]. left. by exists binding.
    + apply andb_true_iff in Hc as [Hret Hm]. eexists. split; [|by apply matches_ok].
      eapply by_active; [done|exact Ea|apply Hn|apply Hn|done|done|]. by right.
Qed.

End Jobs.
