(* ===== verification/ResultPins.v ===== *)
(** * The first Pod of an attempt (package [internal/resultcredentials])

    With Pod tokens, what enrolls a runner is a record of the identity of the
    first Pod of its attempt ([pod_binding.go]); the record carries no secret.
    Without them it carries a client certificate and its key, and the same
    metadata ([record.go], [admission.go]). The certificate itself, its
    issuer and its trust ([issuer.go]) are X.509 and are not modelled; where
    the code reads the identity a certificate carries, that is a parameter.

    Also that a pin, once it was created, decides every later enrollment and
    publication of its attempt. *)
From Stdlib Require Import ZArith Lia.
From stdpp Require Import base list gmap strings relations.
From S2P Require Import TargetLock GoStrings Sha256 Json JsonDecode Fingerprint KubeMeta KubePod Effects JobConfig PodIntent JobClaim ResultAuthority.
From S2P Require SourceSnapshot.
From S2P Require Import ResultStore ResultRetention ResultStoreProofs Prelude.
Local Open Scope go_scope.
Local Open Scope Z_scope.

(** ** The record *)

Definition AnnotationPodUID : string := "operator.ptah.run/result-pod-uid".
Definition AnnotationPodName : string := "operator.ptah.run/result-pod-name".
Definition AnnotationJobUID : string := "operator.ptah.run/result-job-uid".
Definition AnnotationOperationID : string := "operator.ptah.run/result-operation-id".
Definition annotations (identity : Identity) : gmap string string :=
  let b := IdentityBinding identity in
  {[AnnotationPodUID := PodUID b; AnnotationPodName := PodName b; AnnotationJobUID := JobUID b; AnnotationOperationID := OperationID b]}.

#[export] Instance Identity_eq_dec : EqDecision Identity.
Proof. solve_decision. Defined.

(** The document of an identity. *)
Definition identity_of_json (v : json) : option Identity :=
  values ← obj_values ["binding"; "engine"] v;
  match values with
  | [binding; JStr engine] => b ← binding_of_json binding; Some {| IdentityBinding := b; Engine := engine |}
  | _ => None
  end.
Lemma identity_of_identity i :
  in_int64 (Generation (IdentityBinding i)) = true -> identity_of_json (identity_json i) = Some i.
Proof.
  intros Hg. unfold identity_of_json, identity_json. rewrite obj_values_keys by done. cbn [mbind option_bind fmap list_fmap snd].
  rewrite binding_of_binding by done. by destruct i.
Qed.
#[export] Instance identity_codec : JsonCodec Identity :=
  {| to_json := identity_json; of_json := identity_of_json; json_valid := fun i => in_int64 (Generation (IdentityBinding i));
     of_to_json := identity_of_identity |}.

Definition maxPinBytes : Z := Z.shiftl 4 10.
Definition pin_labels : gmap string string :=
  {["app.kubernetes.io/managed-by" := "ptah-operator"; "app.kubernetes.io/component" := "result-credential"]}.
Definition pin_owner (b : Binding) : OwnerReference :=
  {| OwnerAPIVersion := apiVersion; OwnerKind := Kind b; OwnerName := Name_ b; OwnerUID := UID b;
     Controller := Some true; BlockOwnerDeletion := Some true |}.
Definition pin_meta (identity : Identity) : ObjectMeta :=
  let b := IdentityBinding identity in
  with_maps pin_labels (annotations identity)
    (new_meta (Namespace b) (credential_name b) pin_labels [pin_owner b]).
Definition podBindingRecord (identity : Identity) : option PtahResultRecord :=
  if negb (valid identity) then None else
  let data := marshal (identity_json identity) in
  if maxPinBytes <? PlanStore.zlen data then None else
  Some {| TypeMeta := (EmptyString, EmptyString); Meta := pin_meta identity; Type_ := "credential"; Data := data |}.

(** What a credential record has of the fields its document does not give. *)
Definition settled_meta (m : ObjectMeta) : bool :=
  empty (GenerateName m) && (bool_decide (Finalizers m = []) || foregroundDeleting m).
Definition decodePodBinding (record : PtahResultRecord) (stored : bool) : option Identity :=
  let m := Meta record in
  if negb (bool_decide (Type_ record = "credential")) || bool_decide (Data record = []) || (maxPinBytes <? PlanStore.zlen (Data record)) ||
     negb (settled_meta m) || (stored && empty (MetaUID m))
  then None else
  identity ← canonicalRecord (Data record);
  expected ← podBindingRecord identity;
  let e := Meta expected in
  if bool_decide (Data record = Data expected) && bool_decide (MetaNamespace m = MetaNamespace e) && bool_decide (MetaName m = MetaName e) &&
     bool_decide (Labels m = Labels e) && bool_decide (Annotations m = Annotations e) && bool_decide (OwnerReferences m = OwnerReferences e)
  then Some identity else None.

Definition pin_key (b : Binding) : string * string := (Namespace b, credential_name b).
Definition undeleted (r : PtahResultRecord) : bool := is_zero (DeletionTimestamp (Meta r)).
Definition MatchesPodBinding (record : PtahResultRecord) (identity : Identity) : bool :=
  bool_decide (decodePodBinding record true = Some identity) && undeleted record.

(** ** A credential with a certificate *)

(** [map[string][]byte]: nil, or the values, which may be nil. *)
Definition secret_data : Type := option (gmap string (option (list Z))).
Definition data_json (v : option (list Z)) : json := match v with Some b => JStr (base64 false b) | None => JNull end.
Definition data_of_json (v : json) : option (option (list Z)) :=
  match v with JNull => Some None | JStr s => Some <$> base64_decode s | _ => None end.
Definition secret_json (d : secret_data) : json :=
  match d with Some m => JMap (prod_map id data_json <$> map_to_list m) | None => JNull end.
Definition data_field (f : string * json) : option (string * option (list Z)) := d ← data_of_json f.2; Some (f.1, d).
Definition secret_of_json (v : json) : option secret_data :=
  match v with
  | JNull => Some None
  | JObj fields => l ← mapM data_field fields; Some (Some (list_to_map l))
  | _ => None
  end.
Definition secret_valid (d : secret_data) : bool :=
  match d with Some m => forallb (fun '(_, v) => forallb (fun b => (0 <=? b) && (b <? 256)) (default [] v)) (map_to_list m) | None => true end.

Lemma data_of_data v : forallb (fun b => (0 <=? b) && (b <? 256)) (default [] v) = true -> data_of_json (data_json v) = Some v.
Proof. destruct v as [l|]; [|done]. simpl. intros H%forallb_bytes. by rewrite (base64_decode_base64 (length l)). Qed.
Lemma secret_of_secret d : secret_valid d = true -> secret_of_json (secret_json d) = Some d.
Proof.
  destruct d as [m|]; [|done]. simpl. rewrite forallb_forall. intros H.
  destruct (Permutation_map_inv _ _ (Permutation_sym (sorted_fields_perm (prod_map id data_json <$> map_to_list m)))) as (l & Hl & Hp).
  replace (foldr insert_field [] _) with (prod_map id data_json <$> l) by done.
  replace (mapM data_field _) with (Some l); [cbn; by rewrite <- (list_to_map_flip m l)|]. symmetry.
  apply mapM_Some, Forall2_fmap_l, Forall_Forall2_diag, Forall_forall. intros [k v] Hin. unfold data_field. simpl.
  rewrite data_of_data; [done|]. rewrite <- Hp in Hin. apply list_elem_of_In in Hin. by apply (H (k, v)).
Qed.
#[export] Instance secret_codec : JsonCodec secret_data :=
  {| to_json := secret_json; of_json := secret_of_json; json_valid := secret_valid; of_to_json := secret_of_secret |}.

Record Secret : Type := {
  SecretMeta : ObjectMeta;
  SecretData : secret_data;
  SecretImmutable : option bool;
  SecretType : string;
  StringData : gmap string string;
}.
#[export] Instance Secret_eq_dec : EqDecision Secret.
Proof. solve_decision. Defined.
Definition maxSecretBytes : Z := Z.shiftl 512 10.
Definition recordSecret (record : PtahResultRecord) : option Secret :=
  let m := Meta record in
  if negb (bool_decide (Type_ record = "credential")) || bool_decide (Data record = []) || (maxSecretBytes <? PlanStore.zlen (Data record)) ||
     negb (settled_meta m)
  then None else
  data ← canonicalRecord (Data record);
  Some {| SecretMeta := m; SecretData := data; SecretImmutable := Some true; SecretType := "kubernetes.io/tls"; StringData := ∅ |}.

(** [ValidateUpdate] on everything but the metadata, and on the metadata. *)
Definition frozen_meta (old next : ObjectMeta) : bool :=
  let finished := foregroundDeleting old && negb (is_zero (DeletionTimestamp next)) && bool_decide (Finalizers next = []) in
  let without_bookkeeping m finalizers :=
    {| MetaName := MetaName m; GenerateName := GenerateName m; MetaNamespace := MetaNamespace m; SelfLink := SelfLink m;
       MetaUID := MetaUID m; ResourceVersion := EmptyString; MetaGeneration := MetaGeneration m;
       CreationTimestamp := CreationTimestamp m; DeletionTimestamp := None; DeletionGracePeriodSeconds := None;
       Labels := Labels m; Annotations := Annotations m; OwnerReferences := OwnerReferences m; Finalizers := finalizers;
       ManagedFields := [] |} in
  negb (empty (MetaUID old)) && bool_decide (MetaUID old = MetaUID next) &&
  bool_decide (without_bookkeeping old (if finished then Finalizers next else Finalizers old) = without_bookkeeping next (Finalizers next)).
Definition ValidateUpdate (old next : Secret) : bool :=
  frozen_meta (SecretMeta old) (SecretMeta next) && bool_decide (SecretData old = SecretData next) &&
  bool_decide (SecretImmutable old = SecretImmutable next) && bool_decide (SecretType old = SecretType next) &&
  bool_decide (StringData old = StringData next).
Definition ValidateCredentialUpdate (old next : PtahResultRecord) : bool :=
  bool_decide (Type_ old = Type_ next) && bool_decide (Data old = Data next) &&
  if bool_decide (is_Some (decodePodBinding old true))
  then bool_decide (is_Some (decodePodBinding next true)) && frozen_meta (Meta old) (Meta next)
  else match recordSecret old, recordSecret next with Some a, Some b => ValidateUpdate a b | _, _ => false end.

(** The one owner of a credential, as [owner] writes it. *)
Definition credential_owner (references : list OwnerReference) : option OwnerReference :=
  match references with
  | [ref] =>
      if bool_decide (OwnerAPIVersion ref = apiVersion) && bool_decide (Controller ref = Some true) then Some ref else None
  | _ => None
  end.
Definition owner_names (ref : OwnerReference) (b : Binding) : bool :=
  bool_decide (OwnerKind ref = Kind b) && bool_decide (OwnerName ref = Name_ b) && bool_decide (OwnerUID ref = UID b).

Section Certificates.
(** [tls.X509KeyPair] on the certificate and the key, and the identity
    [resultdelivery.StoredClientIdentity] reads in its leaf. *)
Context (StoredClientIdentity : secret_data -> option Identity).

Definition storedIdentity (secret : Secret) : option Identity :=
  identity ← StoredClientIdentity (SecretData secret);
  let m := SecretMeta secret in
  if bool_decide (pin_key (IdentityBinding identity) = (MetaNamespace m, MetaName m)) && bool_decide (Annotations m = annotations identity)
  then Some identity else None.

Definition StoredRecordIdentity (record : PtahResultRecord) : option Identity :=
  match decodePodBinding record true with
  | Some identity => Some identity
  | None =>
      secret ← recordSecret record;
      if empty (MetaUID (Meta record)) then None else
      identity ← storedIdentity secret;
      ref ← credential_owner (OwnerReferences (SecretMeta secret));
      if owner_names ref (IdentityBinding identity) && bool_decide (BlockOwnerDeletion ref = Some true) then Some identity else None
  end.

(** [ValidateDelete] of a Secret. *)
Inductive secretE : Type -> Type :=
| GetRecordOf (key : string * string) : secretE (result api_error PtahResultRecord)
| SecretEvidence (X : Type) (e : evidenceE X) : secretE X.

(** The record the Secret is a projection of is gone, or another one. *)
Definition projection_retained (secret : Secret) (ref : OwnerReference) : prog secretE bool :=
  if negb (bool_decide (OwnerKind ref = "PtahResultRecord")) then Ret false else
  if negb (bool_decide (OwnerName ref = MetaName (SecretMeta secret))) || negb (bool_decide (BlockOwnerDeletion ref = Some false)) then Ret true else
  answer <-- call (GetRecordOf (MetaNamespace (SecretMeta secret), OwnerName ref));
  Ret match answer with
      | Err NotFound => false
      | Err _ => true
      | Ok record => bool_decide (MetaUID (Meta record) = OwnerUID ref)
      end.
Definition ValidateDelete (secret : Secret) : prog secretE bool :=
  match credential_owner (OwnerReferences (SecretMeta secret)) with
  | None => Ret false
  | Some ref =>
      if empty (get (Annotations (SecretMeta secret)) AnnotationOperationID) || empty (OwnerUID ref) || empty (OwnerName ref) then Ret false else
      retained <-- projection_retained secret ref;
      if (retained : bool) then Ret false else
      match storedIdentity secret with
      | None => Ret false
      | Some identity =>
          let b := IdentityBinding identity in
          if negb (bool_decide (OwnerKind ref = "PtahResultRecord")) && negb (owner_names ref b) then Ret false else
          verdict <-- hoist SecretEvidence (CheckUnpinned b);
          Ret (is_ok verdict)
      end
  end.
End Certificates.

(** ** The policy of enrollment (enrollment.go) *)

Definition EnrollmentData (clientCA serverTrust : list Z) : gmap string string :=
  {["version" := "1"; "clientCA" := DigestBytes clientCA; "serverTrust" := DigestBytes serverTrust]}.
Definition enrolled_by (key : string * string) (ca trust : list Z) (policy : SourceSnapshot.ConfigMap) : bool :=
  let m := SourceSnapshot.Meta policy in
  negb (empty (MetaUID m)) && negb (empty (ResourceVersion m)) && bool_decide (DeletionTimestamp m = None) &&
  bool_decide ((MetaNamespace m, MetaName m) = key) && bool_decide (SourceSnapshot.BinaryData policy = ∅) &&
  bool_decide (SourceSnapshot.ConfigData policy = EnrollmentData ca trust).

(** ** Enrolling and publishing *)

Section Pins.
Context `{Apimachinery} `{DeliveryLibraries}.

Inductive pin_error : Type := PinCredential | PinRead (e : api_error) | PinCreate (e : api_error) | PinAuthority (e : auth_error).

Inductive pinE : Type -> Type :=
| GetPin (key : string * string) : pinE (result api_error PtahResultRecord)
| CreatePin (r : PtahResultRecord) : pinE (result api_error PtahResultRecord)
| PinAuth (X : Type) (e : authE X) : pinE X
| ReadPolicy (key : string * string) : pinE (result api_error SourceSnapshot.ConfigMap)
| PinContextFailed : pinE bool.
Abbreviation pprogram A := (prog pinE (result pin_error A)).

(** [Credential] of a pin; its [NotAfter] is a certificate's and stays zero. *)
Record Credential : Type := { CredentialName_ : string; CredentialUID : string }.

(** [resultauthority.Authorizer.Check], and what it granted. *)
Definition check_pin {A} (identity : Identity) (granted : A) : pprogram A :=
  verdict <-- hoist PinAuth (ResultAuthority.CheckAuthority identity);
  Ret match verdict with Ok _ => Ok granted | Err e => Err (PinAuthority e) end.

(** The winner is the record of this identity, and not deleted. *)
Definition enroll (identity : Identity) (answer : result api_error PtahResultRecord) : pprogram Credential :=
  match answer with
  | Err e => Ret (Err (PinRead e))
  | Ok stored =>
      require MatchesPodBinding stored identity else PinCredential;
      check_pin identity {| CredentialName_ := MetaName (Meta stored); CredentialUID := MetaUID (Meta stored) |}
  end.
Definition Ensure (identity : Identity) : pprogram Credential :=
  match podBindingRecord identity with
  | None => Ret (Err PinCredential)
  | Some expected =>
      first <-- call (GetPin (record_key expected));
      match first with
      | Err NotFound =>
          created <-- call (CreatePin expected);
          match created with
          | Err AlreadyExists => again <-- call (GetPin (record_key expected)); enroll identity again
          | Err e => Ret (Err (PinCreate e))
          | Ok stored => enroll identity (Ok stored)
          end
      | answer => enroll identity answer
      end
  end.

(** [Issuer.CheckEnrollment]: with no policy only the context is checked. *)
Definition CheckEnrollment (policy : option (string * string)) (ca trust : list Z) : pprogram unit :=
  match policy with
  | None => failed <-- call PinContextFailed; Ret (if failed : bool then Err (PinAuthority ContextDone) else Ok tt)
  | Some key =>
      answer <-- call (ReadPolicy key);
      match answer with
      | Err e => Ret (Err (PinRead e))
      | Ok stored =>
          failed <-- call PinContextFailed;
          require negb failed else PinAuthority ContextDone;
          require enrolled_by key ca trust stored else PinCredential;
          Ret (Ok tt)
      end
  end.

(** [PodBindings.ValidateRecordCreate], as an admission check. *)
Definition ValidatePinCreate (record : PtahResultRecord) : pprogram unit :=
  match decodePodBinding record false with
  | None => Ret (Err PinCredential)
  | Some identity =>
      require undeleted record && bool_decide (Finalizers (Meta record) = []) else PinCredential;
      check_pin identity tt
  end.

Definition AuthorizePublication (binding : Binding) : pprogram Identity :=
  require is_ok (ResultStore.Name binding) else PinCredential;
  answer <-- call (GetPin (pin_key binding));
  match answer with
  | Err NotFound => Ret (Err (PinAuthority ErrNotReady))
  | Err e => Ret (Err (PinRead e))
  | Ok stored =>
      match decodePodBinding stored true with
      | None => Ret (Err PinCredential)
      | Some identity =>
          require bool_decide (IdentityBinding identity = binding) && undeleted stored else PinCredential;
          check_pin identity identity
      end
  end.
End Pins.

(** ** A pin decides for its attempt (package [internal/resultcredentials])

    The records of a namespace change between the calls of an enrollment:
    others create records, and update them as the admission guard allows. A
    pin keeps its identity across all of it, so whoever is enrolled for an
    attempt later is the Pod that was enrolled first. *)

Lemma decode_pin record stored i :
  decodePodBinding record stored = Some i ->
  exists expected, podBindingRecord i = Some expected /\ Data record = Data expected /\ record_key record = record_key expected /\
    (stored = true -> MetaUID (Meta record) <> EmptyString).
Proof.
  unfold decodePodBinding, empty, record_key. destruct (_ || _) eqn:Ef; [done|].
  destruct (canonicalRecord (Data record)) as [j|] eqn:Ej; [|done]. cbn [mbind option_bind].
  destruct (podBindingRecord j) as [expected|] eqn:Ep; [|done]. cbn [mbind option_bind].
  match goal with |- (if ?c then _ else _) = _ -> _ => destruct c eqn:Ec; [|done] end. intros [= <-]. exists expected. rewrite !andb_true_iff, !bool_decide_eq_true in Ec.
  rewrite !orb_false_iff in Ef. destruct Ef as [_ Ef].
  destruct Ec as [[[[[Hd Hns] Hn] _] _] _]. rewrite Hns, Hn. split_and!; try done. intros ->. by apply bool_decide_eq_false in Ef.
Qed.
(** The document determines the identity. *)
Lemma decode_data r r' s s' i i' :
  Data r = Data r' -> decodePodBinding r s = Some i -> decodePodBinding r' s' = Some i' -> i = i'.
Proof.
  unfold decodePodBinding. intros <-. destruct (_ || _); [done|]. destruct (_ || _); [done|].
  destruct (canonicalRecord (Data r)) as [j|]; [|done]. cbn [mbind option_bind].
  destruct (podBindingRecord j); [|done]. cbn [mbind option_bind]. do 2 (match goal with |- (if ?c then _ else _) = _ -> _ => destruct c; [|done] end; intros [= <-]). done.
Qed.

(** ** While the record of an attempt is kept *)

(** One step of everybody else: of the records under [key] only an update the
    guard admits, and of all others anything, deletions included. *)
Definition keeps (key : string * string) (s s' : store) : Prop :=
  forall r, s !! key = Some r -> exists r', s' !! key = Some r' /\ (r' = r \/ ValidateCredentialUpdate r r' = true).
Definition pinned (s : store) (key : string * string) (i : Identity) (uid : string) : Prop :=
  exists r, s !! key = Some r /\ decodePodBinding r true = Some i /\ MetaUID (Meta r) = uid.

Lemma frozen_uid old next : frozen_meta old next = true -> MetaUID next = MetaUID old.
Proof. unfold frozen_meta. rewrite !andb_true_iff, !bool_decide_eq_true. intros [[_ ->] _]. done. Qed.
Lemma pinned_step s s' key i uid : keeps key s s' -> pinned s key i uid -> pinned s' key i uid.
Proof.
  intros He (r & Hr & Hd & Hu). destruct (He _ Hr) as (r' & Hr' & [->|Hv]); [by exists r|].
  unfold ValidateCredentialUpdate in Hv. rewrite !andb_true_iff, !bool_decide_eq_true in Hv. destruct Hv as [[_ Hdata] Hv].
  rewrite Hd, bool_decide_true in Hv by done. rewrite andb_true_iff, bool_decide_eq_true in Hv. destruct Hv as [[i' Hi'] Hf].
  exists r'. split; [done|]. split; [|by rewrite (frozen_uid _ _ Hf)]. by rewrite (decode_data r r' true true i i').
Qed.
Lemma pinned_steps s s' key i uid : rtc (keeps key) s s' -> pinned s key i uid -> pinned s' key i uid.
Proof. induction 1; [done|]. intros. by eauto using pinned_step. Qed.
Lemma pinned_agree s key i i' uid uid' : pinned s key i uid -> pinned s key i' uid' -> i = i' /\ uid = uid'.
Proof. intros (r & Hr & Hd & Hu) (r' & Hr' & Hd' & Hu'). simplify_eq. done. Qed.

#[local] Opaque sha256 hex_encode credential_name.

Section Server.
Context `{Apimachinery} `{DeliveryLibraries} (key : string * string).

(** The records when a call is answered, before it and after it: others wrote
    in between. A read tells what is stored or fails; a creation is stored
    under a free name, and its answer may be lost. *)
Definition pin_answer (X : Type) (e : pinE X) (s : store) (x : X) (s' : store) : Prop :=
  exists mid, rtc (keeps key) s mid /\
  match e in pinE X return X -> Prop with
  | GetPin k => fun x => s' = mid /\ match x with Ok r => mid !! k = Some r | Err NotFound => mid !! k = None | Err _ => True end
  | CreatePin r => fun x =>
      (s' = mid /\ exists e, x = Err e) \/
      (mid !! record_key r = None /\ exists r', stored_as r r' /\ s' = <[record_key r := r']> mid /\ (x = Ok r' \/ exists e, x = Err e))
  | _ => fun _ => s' = mid
  end x.

Lemma insert_keeps s k r : s !! k = None -> keeps key s (<[k := r]> s).
Proof. intros Hn x Hx. exists x. split; [|by left]. rewrite lookup_insert_ne; [done|]. intros ->. congruence. Qed.
Lemma pin_answer_keeps X (e : pinE X) s x s' : pin_answer X e s x s' -> rtc (keeps key) s s'.
Proof.
  intros (mid & Hm & H1). destruct e; try (by subst); [by destruct H1 as [-> _]|].
  destruct H1 as [[-> _]|(Hn & r' & _ & -> & _)]; [done|]. eapply rtc_r; [done|]. by apply insert_keeps.
Qed.
Lemma exec_keeps {A} (p : prog pinE A) s a s' : exec pin_answer p s a s' -> rtc (keeps key) s s'.
Proof.
  revert s. induction p as [a0|X e k IH]; intros s; [by intros [_ ->]|].
  intros (x & s1 & Hx & Hex). etrans; [by eapply pin_answer_keeps|by eapply IH].
Qed.

Lemma exec_check {A} i (granted a : A) s s' : exec pin_answer (check_pin i granted) s (Ok a) s' -> a = granted /\ rtc (keeps key) s s'.
Proof.
  intros Hex. pose proof (exec_keeps _ _ _ _ Hex) as He. unfold check_pin in Hex. apply exec_bind in Hex as (v & s1 & _ & [Ha _]).
  destruct v; simplify_eq. done.
Qed.
Lemma exec_enroll i answer c s s' :
  exec pin_answer (enroll i answer) s (Ok c) s' ->
  exists r, answer = Ok r /\ decodePodBinding r true = Some i /\ MetaUID (Meta r) = CredentialUID c /\ MetaName (Meta r) = CredentialName_ c /\
    rtc (keeps key) s s'.
Proof.
  unfold enroll. destruct answer as [r|]; [|by intros [? _]]. unfold MatchesPodBinding.
  destruct (bool_decide _ && _) eqn:Em; [|by intros [? _]]. intros [-> He]%exec_check.
  rewrite andb_true_iff, bool_decide_eq_true in Em. exists r. by destruct Em.
Qed.

(** The name of a pin is the name of its attempt. *)
Lemma pin_record_key i expected : podBindingRecord i = Some expected -> record_key expected = pin_key (IdentityBinding i).
Proof. unfold podBindingRecord. destruct (valid i); [|done]. cbn [negb]. destruct (_ <? _); [done|]. by intros [= <-]. Qed.

Lemma pinned_enroll i r c s s' :
  pin_key (IdentityBinding i) = key -> s !! key = Some r -> exec pin_answer (enroll i (Ok r)) s (Ok c) s' ->
  pinned s' key i (CredentialUID c) /\ CredentialName_ c = credential_name (IdentityBinding i).
Proof.
  intros Hkey Hr (r' & [= <-] & Hd & Hu & Hn & He)%exec_enroll. split; [eapply pinned_steps; [exact He|by exists r]|].
  destruct (decode_pin _ _ _ Hd) as (expected & Hp & _ & Hk & _). rewrite (pin_record_key _ _ Hp) in Hk. by injection Hk as _ <-.
Qed.
Lemma exec_ensure i c s s' :
  pin_key (IdentityBinding i) = key -> exec pin_answer (Ensure i) s (Ok c) s' ->
  pinned s' key i (CredentialUID c) /\ CredentialName_ c = credential_name (IdentityBinding i).
Proof.
  intros Hkey. unfold Ensure. destruct (podBindingRecord i) as [expected|] eqn:Ep; [|by intros [? _]]. rewrite (pin_record_key _ _ Ep), Hkey.
  intros (first & s1 & (mid & _ & -> & Ha) & Hex). destruct first as [r|e]; [by eapply pinned_enroll|].
  destruct e; try (by destruct Hex). destruct Hex as (created & s2 & (mid2 & _ & Hc) & Hex).
  rewrite (pin_record_key _ _ Ep), Hkey in Hc. destruct created as [r|e].
  - destruct Hc as [[_ [e ?]]|(_ & r' & _ & -> & [?|[e ?]])]; simplify_eq. eapply pinned_enroll; [done| |exact Hex]. apply lookup_insert_eq.
  - destruct e; try (by destruct Hex). destruct Hex as (again & s3 & (mid3 & _ & -> & Ha3) & Hex).
    destruct again as [r|e]; [by eapply pinned_enroll|by destruct Hex].
Qed.
Lemma exec_publication b i s s' :
  pin_key b = key -> exec pin_answer (AuthorizePublication b) s (Ok i) s' -> IdentityBinding i = b /\ exists uid, pinned s' key i uid.
Proof.
  intros Hkey. unfold AuthorizePublication. rewrite Hkey. destruct (is_ok _); [|by intros [? _]]. intros (answer & s1 & (mid & _ & -> & Ha) & Hex).
  cbn [pbind] in Hex.
  destruct answer as [r|e]; [|by destruct e; destruct Hex]. destruct (decodePodBinding r true) as [j|] eqn:Ed in Hex; [|by destruct Hex].
  destruct (bool_decide _ && _) eqn:Eb in Hex; [|by destruct Hex]. rewrite andb_true_iff, bool_decide_eq_true in Eb.
  apply exec_check in Hex as [-> He]. split; [tauto|]. exists (MetaUID (Meta r)). eapply pinned_steps; [exact He|]. by exists r.
Qed.

(** C27: the first Pod of an attempt is its only one while its record is kept.
    Once an enrollment of the attempt succeeded, and whatever happens to other
    records - of its own record only the updates the guard admits - every
    later enrollment of the same attempt that succeeds is of the same Pod and
    returns the same credential, and every publication that is authorized for
    the attempt is one under the enrolled identity. The record of an attempt
    is deleted only after it was retired, which is a matter of the retention
    policy. *)
Theorem first_pod_pinned i c s0 s1 s2 :
  pin_key (IdentityBinding i) = key -> exec pin_answer (Ensure i) s0 (Ok c) s1 -> rtc (keeps key) s1 s2 ->
  (forall i' c' s3, pin_key (IdentityBinding i') = key ->
     exec pin_answer (Ensure i') s2 (Ok c') s3 -> i' = i /\ c' = c) /\
  (forall b i' s3, pin_key b = key ->
     exec pin_answer (AuthorizePublication b) s2 (Ok i') s3 -> i' = i /\ b = IdentityBinding i).
Proof.
  intros Hkey Hex0 He. apply (exec_ensure _ _ _ _ Hkey) in Hex0 as [Hp Hn]. apply (pinned_steps _ _ _ _ _ He) in Hp. split.
  - intros i' c' s3 Hk Hex. pose proof (exec_keeps _ _ _ _ Hex) as He3. apply (exec_ensure _ _ _ _ Hk) in Hex as [Hp' Hn'].
    apply (pinned_steps _ _ _ _ _ He3) in Hp. destruct (pinned_agree _ _ _ _ _ _ Hp' Hp) as [-> Hu].
    split; [done|]. destruct c, c'; simpl in *; congruence.
  - intros b i' s3 Hk Hex. pose proof (exec_keeps _ _ _ _ Hex) as He3. apply (exec_publication _ _ _ _ Hk) in Hex as [Hb [uid Hp']].
    apply (pinned_steps _ _ _ _ _ He3) in Hp. destruct (pinned_agree _ _ _ _ _ _ Hp' Hp) as [-> _]. by rewrite Hb.
Qed.
End Server.
