(* ===== verification/RecordGuard.v ===== *)
(** * The guard of result records (package [internal/controllerwrite])

    [result_records.go] and [result_credentials.go]: what anybody may do to a
    record of a result, and to the Secret of a legacy credential. The checks
    of the packages it calls are their own definitions - [ResultStore],
    [ResultRetention], [ResultCleanup], [ResultPins] - under the guard's
    events. [resultdelivery.Decode] needs the runner's own result type, which
    is not modelled: whether a payload decodes is a parameter. *)
From Stdlib Require Import ZArith Lia.
From stdpp Require Import base list gmap strings.
From S2P Require Import TargetLock GoStrings Json JsonDecode Fingerprint KubeMeta KubePod Effects JobConfig PodIntent JobClaim ResultAuthority WriteRequest WriteObjects.
From S2P Require ResultCleanup SourceSnapshot.
From S2P Require Import ResultStore ResultRetention ResultPins Prelude.
Local Open Scope go_scope.
Local Open Scope check_scope.
Local Open Scope Z_scope.

Definition secretKind : GroupVersionKind := {| KindGroup := EmptyString; KindVersion := "v1"; KindName := "Secret" |}.
Definition secretResource : GroupVersionResource := {| ResourceGroup := EmptyString; ResourceVersion_ := "v1"; ResourceName := "secrets" |}.
Definition recordKind : GroupVersionKind := operator_kind "PtahResultRecord".
Definition recordResource : GroupVersionResource := operator_resource "ptahresultrecords".

(** [metav1.DeleteOptions], as far as the guard reads them. *)
Record DeletionOptions_ : Type := { PropagationPolicy : option string; OrphanDependents : option bool }.
Definition no_options : DeletionOptions_ := {| PropagationPolicy := None; OrphanDependents := None |}.

(** Code outside the repository, and the legacy credential's certificate. *)
Class RecordLibraries : Type := {
  unmarshal_record : string -> option (GroupVersionKind * PtahResultRecord);
  unmarshal_secret : string -> option (GroupVersionKind * Secret);
  unmarshal_delete_options : string -> option DeletionOptions_;
  StoredClientIdentity : secret_data -> option Identity;
}.

Section Guard.
Context `{Apimachinery} `{DeliveryLibraries} `{RecordLibraries}.
(** Whether [resultdelivery.Decode] accepts a payload. *)
Context (DecodeResult : Identity -> list Z -> bool).
Context (ManagerUsername : string).

(** The validator of credentials, which is there when delivery is set up. *)
Record ResultCredentialValidator : Type := {
  ValidateSecretCreate : Secret -> prog pinE (result pin_error unit);
  ValidateCredentialCreate : PtahResultRecord -> prog pinE (result pin_error unit);
  AuthorizeDelivery : Binding -> prog pinE (result pin_error Identity);
}.
(** [resultservice.Service] with Pod tokens: the policy its signer enrolls
    under, the signer's certificate, and the trust runners pin. *)
Definition pod_token_service (policy : option (string * string)) (ca trust : list Z) : ResultCredentialValidator := {|
  ValidateSecretCreate _ := Ret (Err PinCredential);
  ValidateCredentialCreate record :=
    enrolled <-- CheckEnrollment policy ca trust;
    match enrolled with Err e => Ret (Err e) | Ok _ => ValidatePinCreate record end;
  AuthorizeDelivery b := AuthorizePublication b;
|}.

Context (ResultCredentials : option ResultCredentialValidator).
(** The retention window of [resultcleanup.Policy], which the manager sets. *)
Context (ResultCleanup : option Z).

Inductive guardE : Type -> Type :=
| Reads (X : Type) (e : readE X) : guardE X
| Records (X : Type) (e : resultE X) : guardE X
| Pins (X : Type) (e : pinE X) : guardE X
| Evidence (X : Type) (e : evidenceE X) : guardE X
| SecretReads (X : Type) (e : secretE X) : guardE X.
Abbreviation gcheck A := (prog guardE (result failure A)).

Definition deny {A} (reason : denial) : gcheck A := Ret (Err (Denied reason)).
Definition gunless (c : bool) (reason : denial) : gcheck unit := Ret (if c then Ok tt else Err (Denied reason)).
(** A component's verdict: whatever it refused with, the guard gives its own
    reason. *)
Definition verdict {E A R} (f : forall X, E X -> guardE X) (p : prog E (result R A)) (reason : denial) : gcheck A :=
  r <-- hoist f p;
  Ret match r with Ok a => Ok a | Err _ => Err (Denied reason) end.

(** The request names one object of its namespace; a deletion may name none. *)
Definition names_object (req : AdmissionRequest) : bool :=
  empty (SubResource req) && empty (RequestSubResource req) &&
  (negb (empty (RequestName req)) || bool_decide (RequestOperation req = "DELETE")) && negb (empty (RequestNamespace req)).
Definition same_object (req : AdmissionRequest) (m : ObjectMeta) : bool :=
  (empty (RequestName req) || bool_decide (MetaName m = RequestName req)) && bool_decide (MetaNamespace m = RequestNamespace req).

Definition validateCredentialDeleteOptions (req : AdmissionRequest) : result failure unit :=
  match if empty (RequestOptions req) then Some no_options else unmarshal_delete_options (RequestOptions req) with
  | None => Err (Denied DeletionOptions)
  | Some options =>
      guard negb (bool_decide (PropagationPolicy options = Some "Orphan")) && negb (bool_decide (OrphanDependents options = Some true))
        else Denied NeedsCascade;
      Ok tt
  end.

(** ** Result records *)

Definition decode_record (req : AdmissionRequest) (raw : string) : result failure PtahResultRecord :=
  record <-! decodeObject unmarshal_record no_field raw recordKind;
  guard same_object req (Meta record) else Denied ResultIdentityDiffers;
  Ok record.

Definition binding_of (record : PtahResultRecord) : option Binding :=
  IdentityBinding <$> StoredRecordIdentity StoredClientIdentity record.
(** [authorizeResultDeletion]. *)
Definition authorizeResultDeletion (record : PtahResultRecord) : prog evidenceE (result ev_error unit) :=
  match ResultCleanup with
  | None => Ret (Err ErrRetained)
  | Some window => ResultCleanup.AuthorizeDelete binding_of window (Some record)
  end.
Definition retentionDenial (e : ev_error) : denial := Retained (WindowEnd e).

(** The binding of the record a retirement retires. *)
Definition source_binding (source : PtahResultRecord) : option Binding :=
  if bool_decide (Type_ source = "credential") then binding_of source
  else match StoredBinding (Some source) with Ok b => Some b | Err _ => None end.
Definition validateResultRetirement (record : PtahResultRecord) : prog evidenceE (result ev_error unit) :=
  match Decode (Some record) with
  | Err _ => Ret (Err ErrRecord)
  | Ok r =>
      require undeleted record && bool_decide (Finalizers (Meta record) = []) else ErrRecord;
      answer <-- call (ReadRecord (MetaNamespace (Meta record), SourceName (RetirementSource r)));
      match answer with
      | Err e => Ret (Err (EvApi e))
      | Ok source =>
          require bool_decide (MetaUID (Meta source) = SourceUID (RetirementSource r)) &&
                  bool_decide (Type_ source = SourceType (RetirementSource r)) else ErrRecord;
          require bool_decide (source_binding source = Some (RetirementBinding r)) else ErrRecord;
          CheckUnpinned (RetirementBinding r)
      end
  end.

Definition validateRecordCreate (record : PtahResultRecord) : gcheck unit :=
  if bool_decide (Type_ record = "retired") then verdict Evidence (validateResultRetirement record) NotAuthorized
  else if bool_decide (Type_ record = "credential") then
    _ <~ gunless (String.prefix SecretPrefix (MetaName (Meta record))) OutsideReserved;
    match ResultCredentials with
    | None => deny NoResultTrust
    | Some trust => verdict Pins (ValidateCredentialCreate trust record) NotAuthorized
    end
  else
    match ResultCredentials with
    | None => deny NoResultTrust
    | Some trust =>
        admitted <~ verdict Records (ValidateRecordCreate (Some record)) NotAuthorized;
        identity <~ verdict Pins (AuthorizeDelivery trust admitted.1) NotAuthorized;
        let payload := default [] admitted.2 in
        gunless (bool_decide (payload = []) || DecodeResult identity payload) NotAuthorized
    end.

(** An update that clears the last finalizer is the deletion. *)
Definition clears_finalizer (old next : PtahResultRecord) : bool :=
  foregroundDeleting (Meta old) && bool_decide (Finalizers (Meta next) = []).
Definition frozen_record (old next : PtahResultRecord) : bool :=
  if bool_decide (Type_ old = "credential") then ValidateCredentialUpdate old next
  else is_ok (ValidateRecordUpdate (Some old) (Some next)).
Definition validateRecordUpdate (old next : PtahResultRecord) : gcheck unit :=
  if negb (frozen_record old next) then deny FrozenBinding else
  if clears_finalizer old next then
    r <-- hoist Evidence (authorizeResultDeletion old);
    Ret match r with Ok _ => Ok tt | Err e => Err (Denied (retentionDenial e)) end
  else Ret (Ok tt).

Definition foreground (req : AdmissionRequest) : bool :=
  negb (empty (RequestOptions req)) &&
  match unmarshal_delete_options (RequestOptions req) with
  | Some options => bool_decide (PropagationPolicy options = Some "Foreground")
  | None => false
  end.
Definition validateRecordDelete (req : AdmissionRequest) (old : PtahResultRecord) : gcheck unit :=
  _ <~ gunless (negb (empty (MetaUID (Meta old)))) NoPersistedIdentity;
  _ <~ Ret (validateCredentialDeleteOptions req);
  r <-- hoist Evidence (authorizeResultDeletion old);
  match r, ResultCleanup with
  | Ok _, _ => Ret (Ok tt)
  | Err e, Some window =>
      if foreground req then
        again <-- hoist Evidence (ResultCleanup.AuthorizeForegroundRetirement binding_of window (Some old));
        Ret match again with Ok _ => Ok tt | Err _ => Err (Denied (retentionDenial e)) end
      else deny (retentionDenial e)
  | Err e, None => deny (retentionDenial e)
  end.

Definition validateResultRecord (req : AdmissionRequest) : gcheck unit :=
  _ <~ Ret (validateRequestType req recordResource recordKind);
  _ <~ gunless (names_object req) NoExactResult;
  if bool_decide (RequestOperation req = "CREATE") then
    _ <~ gunless (bool_decide (RequestUsername req = ManagerUsername) && empty (RequestOldObject req)) NotByTheManager;
    record <~ Ret (decode_record req (RequestObject req));
    validateRecordCreate record
  else if bool_decide (RequestOperation req = "UPDATE") then
    old <~ Ret (decode_record req (RequestOldObject req));
    next <~ Ret (decode_record req (RequestObject req));
    validateRecordUpdate old next
  else if bool_decide (RequestOperation req = "DELETE") then
    old <~ Ret (decode_record req (RequestOldObject req));
    validateRecordDelete req old
  else deny OperationRefused.

(** ** Secrets of legacy credentials *)

Definition decode_secret (req : AdmissionRequest) (raw : string) : result failure Secret :=
  secret <-! decodeObject unmarshal_secret no_field raw secretKind;
  guard same_object req (SecretMeta secret) && String.prefix SecretPrefix (MetaName (SecretMeta secret)) else Denied OutsideReserved;
  Ok secret.

Definition validateResultCredential (req : AdmissionRequest) : gcheck unit :=
  _ <~ Ret (validateRequestType req secretResource secretKind);
  _ <~ gunless (names_object req) NoExactResult;
  if bool_decide (RequestOperation req = "CREATE") then
    _ <~ gunless (bool_decide (RequestUsername req = ManagerUsername) && empty (RequestOldObject req)) NotByTheManager;
    secret <~ Ret (decode_secret req (RequestObject req));
    match ResultCredentials with
    | None => deny NoResultTrust
    | Some trust => verdict Pins (ValidateSecretCreate trust secret) NotAuthorized
    end
  else if bool_decide (RequestOperation req = "UPDATE") then
    old <~ Ret (decode_secret req (RequestOldObject req));
    next <~ Ret (decode_secret req (RequestObject req));
    gunless (ValidateUpdate old next) FrozenBinding
  else if bool_decide (RequestOperation req = "DELETE") then
    _ <~ Ret (validateCredentialDeleteOptions req);
    old <~ Ret (decode_secret req (RequestOldObject req));
    _ <~ gunless (negb (empty (MetaUID (SecretMeta old)))) NoPersistedIdentity;
    eligible <-- hoist SecretReads (ValidateDelete StoredClientIdentity old);
    gunless eligible (Retained None)
  else deny OperationRefused.
End Guard.
