(* ===== verification/WriteGuard.v ===== *)
(** * The guard of the manager's writes (package [internal/controllerwrite])

    [Validator.Validate] and [ValidationHandler.Handle]: which guard judges a
    request. Also what that leaves of everything the manager's credentials
    could do: a request that is let in is one the guards were made for. *)
From Stdlib Require Import ZArith Lia.
From stdpp Require Import base list gmap strings.
From S2P Require Import TargetLock GoStrings Json JsonDecode Fingerprint KubeMeta KubePod Effects JobConfig PodIntent JobClaim ResultAuthority WriteRequest WriteObjects PlanGuard JobGuard.
From S2P Require Import PlanGuardProofs ResultStore ResultRetention ResultPins RecordGuard Prelude.
From S2P Require ResultCleanup.
Local Open Scope go_scope.
Local Open Scope check_scope.
Local Open Scope Z_scope.

Section Validator.
Context `{Apimachinery} `{DeliveryLibraries} `{GuardLibraries} `{JobBuilder} `{RecordLibraries}.
Context (ParseSummaryFor : string -> string -> string -> option Summary) (DecodeResult : Identity -> list Z -> bool).

(** [Validator]: its reader, its builder and its libraries are the classes. *)
Record Validator : Type := {
  ManagerUsername : string;
  ResultCredentials : option ResultCredentialValidator;
  CleanupWindow : option Z;
}.

Abbreviation gcheck A := (prog guardE (result failure A)).
(** A guard of plans and Jobs only reads. *)
Definition reads (p : check unit) : gcheck unit := hoist Reads p.
Definition typed (req : AdmissionRequest) (resource : GroupVersionResource) (kind : GroupVersionKind) (k : gcheck unit) : gcheck unit :=
  _ <~ Ret (validateRequestType req resource kind); k.
Definition only_create (req : AdmissionRequest) (p : check unit) : gcheck unit :=
  if bool_decide (RequestOperation req = "CREATE") then reads p else deny OperationRefused.

Definition guarded_write (req : AdmissionRequest) : gcheck unit :=
  let resource := RequestResourceOf req in
  if bool_decide (resource = jobResource) then
    typed req jobResource jobKind
      (if bool_decide (RequestOperation req = "CREATE") then reads (validateJobCreate req)
       else if bool_decide (RequestOperation req = "UPDATE") then reads (validateJobUpdate ParseSummaryFor req)
       else deny OperationRefused)
  else if bool_decide (resource = configMapResource) then typed req configMapResource configMapKind (only_create req (validateProjectionCreate req))
  else if bool_decide (resource = planChunkResource) then typed req planChunkResource planChunkKind (only_create req (validatePlanChunkCreate req))
  else if bool_decide (resource = planResource) then typed req planResource planKind (only_create req (validatePlanCreate req))
  else if bool_decide (resource = migrationPlanResource) then
    typed req migrationPlanResource migrationPlanKind (only_create req (validateMigrationPlanCreate req))
  else deny OutsideContract.

Definition Validate (v : option Validator) (req : AdmissionRequest) : gcheck unit :=
  match v with
  | None => Ret (Err NotInitialized)
  | Some v =>
      if blank (ManagerUsername v) then Ret (Err NotInitialized) else
      if empty (RequestUID req) then Ret (Err (BadRequest EmptyRequestUID)) else
      if bool_decide (RequestResourceOf req = secretResource) then
        validateResultCredential (ManagerUsername v) (ResultCredentials v) req
      else if bool_decide (RequestResourceOf req = recordResource) then
        validateResultRecord DecodeResult (ManagerUsername v) (ResultCredentials v) (CleanupWindow v) req
      else
        _ <~ gunless (bool_decide (RequestUsername req = ManagerUsername v)) NotTheManager;
        _ <~ gunless (empty (SubResource req) && empty (RequestSubResource req)) OnSubResource;
        guarded_write req
  end.
(** [ValidationHandler.Handle]. *)
Definition Handle (v : option Validator) (req : AdmissionRequest) : prog guardE response :=
  r <-- Validate v req;
  Ret (answer r).
End Validator.

(** ** What passes the guard of writes (package [internal/controllerwrite])

    A write is let in only because the guard made for it granted it: the
    verdicts, with everything that was read for them, are in the log. *)

(** ** A component's run within its client's *)

Lemma hoist_run {E F : Type -> Type} {A} (f : forall X, E X -> F X) (p : prog E A) : forall l log a log',
  runs (hoist f p) log a log' -> exists own, log' = log ++ map (hoist_entry f) own /\ runs p l a (l ++ own).
Proof.
  induction p as [a0|X e k IH]; intros l log a log'.
  - intros [-> ->]. exists []. by rewrite !app_nil_r.
  - intros (x & s1 & -> & Hk). destruct (IH x (l ++ [answered e x]) _ _ _ Hk) as (own & -> & Hr).
    exists (answered e x :: own). split; [by rewrite <- app_assoc|]. exists x, (l ++ [answered e x]). split; [done|].
    by rewrite <- app_assoc in Hr.
Qed.
(** Somewhere in the log, the component ran from the start and gave this. *)
Definition during {E F : Type -> Type} {A} (f : forall X, E X -> F X) (p : prog E A) (a : A) (log : list (entry F)) : Prop :=
  exists before own after, log = before ++ map (hoist_entry f) own ++ after /\ runs p [] a own.
Lemma during_hoist {E F : Type -> Type} {A} (f : forall X, E X -> F X) (p : prog E A) log a log' :
  runs (hoist f p) log a log' -> during f p a log'.
Proof. intros (own & -> & Hr)%(hoist_run f p []). exists log, own, []. by rewrite app_nil_r. Qed.
Lemma during_later {E F : Type -> Type} {A B} (f : forall X, E X -> F X) (p : prog E A) a (q : prog F B) log b log' :
  during f p a log -> runs q log b log' -> during f p a log'.
Proof. intros (l1 & own & l2 & -> & Hr) [l3 ->]%runs_extends. exists l1, own, (l2 ++ l3). by rewrite <- !app_assoc. Qed.

Section Proofs.
Context `{Apimachinery} `{DeliveryLibraries} `{GuardLibraries} `{JobBuilder} `{RecordLibraries}.
Context (ParseSummaryFor : string -> string -> string -> option Summary) (DecodeResult : Identity -> list Z -> bool).

Lemma runs_gunless c reason log u log' : runs (gunless c reason) log (Ok u) log' -> c = true /\ log' = log.
Proof. destruct c; intros [? ->]; done. Qed.
Lemma runs_verdict {E A R} (f : forall X, E X -> guardE X) (p : prog E (result R A)) reason log a log' :
  runs (verdict f p reason) log (Ok a) log' -> during f p (Ok a) log'.
Proof.
  intros (r & log1 & Hr & Hk)%runs_bind. apply during_hoist in Hr. destruct r; [|by destruct Hk].
  apply runs_ret in Hk as [[= ->] ->]. done.
Qed.
Lemma runs_done {E A} (r : result failure A) log a log' : runs (Ret (E := E) r) log (Ok a) log' -> r = Ok a /\ log' = log.
Proof. by intros [-> ->]. Qed.

(** The next step of a guard that let a request in. *)
Ltac guard_as H a Hp :=
  let log := fresh "log" in
  apply runs_cbind in H as (a & log & Hp & H); try match type of a with unit => destruct a end;
  match type of Hp with
  | runs (gunless _ _) _ _ _ => apply runs_gunless in Hp as [Hp ->]
  | runs (verdict _ _ _) _ _ _ => idtac
  | runs (Ret _) _ _ _ => apply runs_done in Hp as [Hp ->]
  end.

(** ** Result records *)

Definition record_of (req : AdmissionRequest) (raw : string) (r : PtahResultRecord) : Prop :=
  unmarshal_record raw = Some (recordKind, r) /\ MetaNamespace (Meta r) = RequestNamespace req /\
  (RequestName req <> EmptyString -> MetaName (Meta r) = RequestName req).
Lemma decode_record_ok req raw r : decode_record req raw = Ok r -> record_of req raw r.
Proof.
  unfold decode_record, record_of, same_object, empty. destruct (decodeObject _ _ _ _) as [r'|] eqn:Ed; [|done].
  apply decodeObject_ok in Ed as (_ & Ed & _). cbn [rbind]. destruct (_ && _) eqn:Es; [|done]. intros [= <-].
  rewrite andb_true_iff, orb_true_iff, !bool_decide_eq_true in Es. split; [done|]. split; [tauto|]. intros. by destruct Es as [[|] _].
Qed.
Lemma recordSecret_meta r s : recordSecret r = Some s -> SecretMeta s = Meta r.
Proof. unfold recordSecret. destruct (_ || _); [done|]. destruct (canonicalRecord (Data r)); [|done]. by intros [= <-]. Qed.
Lemma frozen_record_keeps old next :
  frozen_record old next = true -> Data next = Data old /\ Type_ next = Type_ old /\ MetaUID (Meta next) = MetaUID (Meta old).
Proof.
  unfold frozen_record. case_bool_decide as Ht.
  - unfold ValidateCredentialUpdate. rewrite !andb_true_iff, !bool_decide_eq_true. intros [[Ht' Hd] Hv].
    enough (frozen_meta (Meta old) (Meta next) = true) as Hf.
    { unfold frozen_meta in Hf. rewrite !andb_true_iff, !bool_decide_eq_true in Hf. naive_solver. }
    case_bool_decide; [by apply andb_true_iff in Hv as [_ Hv]|]. destruct (recordSecret old) as [a|] eqn:Ea; [|done].
    destruct (recordSecret next) as [b|] eqn:Eb; [|done]. unfold ValidateUpdate in Hv. rewrite !andb_true_iff in Hv.
    rewrite <- (recordSecret_meta _ _ Ea), <- (recordSecret_meta _ _ Eb). tauto.
  - unfold ValidateRecordUpdate. destruct (_ || _) eqn:Eu; [done|]. case_match; [done|]. intros _.
    match goal with Hb : negb _ = false |- _ => apply negb_false_iff, bool_decide_eq_true in Hb; rename Hb into Heq end.
    pose proof (f_equal Data Heq) as Hd. pose proof (f_equal Type_ Heq) as Hty. pose proof (f_equal (fun r => MetaUID (Meta r)) Heq) as Hu. done.
Qed.

(** What was done to a record, and who granted it. *)
Section Writes.
Context (v : Validator) (req : AdmissionRequest).

Definition by_manager : Prop := RequestOperation req = "CREATE" /\ RequestUsername req = ManagerUsername v.

Inductive record_write (log : list (entry guardE)) : Prop :=
| retires record r :
    by_manager -> record_of req (RequestObject req) record -> Decode (Some record) = Ok r ->
    during Evidence (validateResultRetirement record) (Ok tt) log -> record_write log
| enrolls record trust :
    by_manager -> record_of req (RequestObject req) record -> Type_ record = "credential" -> ResultCredentials v = Some trust ->
    during Pins (ValidateCredentialCreate trust record) (Ok tt) log -> record_write log
| publishes record trust b payload identity :
    by_manager -> record_of req (RequestObject req) record -> ResultCredentials v = Some trust ->
    during Records (ValidateRecordCreate (Some record)) (Ok (b, payload)) log ->
    during Pins (AuthorizeDelivery trust b) (Ok identity) log ->
    (forall content, payload = Some content -> content <> [] -> DecodeResult identity content = true) -> record_write log
| keeps_record old next :
    RequestOperation req = "UPDATE" -> record_of req (RequestOldObject req) old -> record_of req (RequestObject req) next ->
    Data next = Data old -> Type_ next = Type_ old -> MetaUID (Meta next) = MetaUID (Meta old) ->
    clears_finalizer old next = false -> record_write log
| deletes_record old window :
    RequestOperation req = "DELETE" \/ (RequestOperation req = "UPDATE" /\ foregroundDeleting (Meta old) = true) ->
    record_of req (RequestOldObject req) old -> CleanupWindow v = Some window ->
    during Evidence (ResultCleanup.AuthorizeDelete binding_of window (Some old)) (Ok tt) log -> record_write log
| retires_in_foreground old window :
    RequestOperation req = "DELETE" -> foreground req = true -> record_of req (RequestOldObject req) old -> CleanupWindow v = Some window ->
    during Evidence (ResultCleanup.AuthorizeForegroundRetirement binding_of window (Some old)) (Ok tt) log -> record_write log.

Lemma authorized_deletion (old : PtahResultRecord) log log' :
  runs (hoist Evidence (authorizeResultDeletion (CleanupWindow v) old)) log (Ok tt) log' ->
  exists window, CleanupWindow v = Some window /\ during Evidence (ResultCleanup.AuthorizeDelete binding_of window (Some old)) (Ok tt) log'.
Proof.
  unfold authorizeResultDeletion. destruct (CleanupWindow v) as [window|]; [|by intros [? _]].
  intros Hr%during_hoist. by exists window.
Qed.

Lemma create_guarded record log log' :
  by_manager -> record_of req (RequestObject req) record ->
  runs (validateRecordCreate DecodeResult (ResultCredentials v) record) log (Ok tt) log' -> record_write log'.
Proof.
  intros Hm Hr. unfold validateRecordCreate. case_bool_decide as Hret.
  - intros Hd%runs_verdict. pose proof Hd as (? & own & ? & _ & Hrun). unfold validateResultRetirement in Hrun.
    destruct (Decode (Some record)) as [r|] eqn:Er; [|by destruct Hrun]. by eapply retires.
  - case_bool_decide as Hc.
    + intros H4. guard_as H4 u Hp. destruct (ResultCredentials v) as [trust|] eqn:Et; [|by destruct H4].
      apply runs_verdict in H4. by eapply enrolls.
    + destruct (ResultCredentials v) as [trust|] eqn:Et; [|by intros [? _]]. intros H4. guard_as H4 admitted Ha. guard_as H4 who Hi.
      apply runs_gunless in H4 as [Hdec ->]. apply runs_verdict in Ha. pose proof (runs_verdict _ _ _ _ _ _ Hi) as Hi'.
      destruct admitted as [b payload]. eapply publishes; [done|exact Hr|exact Et|by eapply during_later|exact Hi'|].
      intros content -> Hne. simpl in Hdec. by rewrite bool_decide_false in Hdec.
Qed.

Lemma update_guarded old next log log' :
  RequestOperation req = "UPDATE" -> record_of req (RequestOldObject req) old -> record_of req (RequestObject req) next ->
  runs (validateRecordUpdate (CleanupWindow v) old next) log (Ok tt) log' -> record_write log'.
Proof.
  intros Ho Hold Hnext. unfold validateRecordUpdate. destruct (frozen_record old next) eqn:Ef; [|by intros [? _]]. cbn [negb].
  apply frozen_record_keeps in Ef as (Hd & Ht & Hu). destruct (clears_finalizer old next) eqn:Ec.
  - intros (r & log1 & Hr & Hk)%runs_bind. apply runs_ret in Hk as [Hk ->]. destruct r as [[]|]; [|done].
    apply authorized_deletion in Hr as (window & Hw & Hr). unfold clears_finalizer in Ec. apply andb_true_iff in Ec as [Ec _].
    eapply deletes_record; [by right|exact Hold|exact Hw|exact Hr].
  - intros _. by eapply keeps_record.
Qed.

Lemma delete_guarded old log log' :
  RequestOperation req = "DELETE" -> record_of req (RequestOldObject req) old ->
  runs (validateRecordDelete (CleanupWindow v) req old) log (Ok tt) log' -> record_write log'.
Proof.
  intros Ho Hold H4. unfold validateRecordDelete in H4. guard_as H4 u Hu. guard_as H4 u Hopt. apply runs_bind in H4 as (r & log1 & Hr & H4).
  destruct r as [[]|e].
  - apply runs_done in H4 as [_ ->]. apply authorized_deletion in Hr as (window & Hw & Hr). eapply deletes_record; [by left|exact Hold|exact Hw|exact Hr].
  - destruct (CleanupWindow v) as [window|] eqn:Ew; [|by destruct H4]. destruct (foreground req) eqn:Ef; [|by destruct H4].
    apply runs_bind in H4 as (again & log2 & Ha & H4). apply runs_ret in H4 as [H4 ->]. destruct again as [[]|]; [|done].
    apply during_hoist in Ha. by eapply retires_in_foreground.
Qed.

Lemma record_guarded log log' :
  runs (validateResultRecord DecodeResult (ManagerUsername v) (ResultCredentials v) (CleanupWindow v) req) log (Ok tt) log' ->
  validateRequestType req recordResource recordKind = Ok tt /\ names_object req = true /\ record_write log'.
Proof.
  intros H4. unfold validateResultRecord in H4. guard_as H4 u Ht. guard_as H4 u Hn. split; [done|]. split; [done|].
  case_bool_decide as Hc; [|case_bool_decide as Hu; [|case_bool_decide as Hd; [|by destruct H4]]].
  - guard_as H4 u Hm. guard_as H4 candidate Hr. rewrite andb_true_iff, bool_decide_eq_true in Hm. apply decode_record_ok in Hr.
    by eapply create_guarded; [split; [|apply Hm]|exact Hr|exact H4].
  - guard_as H4 old Hold. guard_as H4 next Hnext. apply decode_record_ok in Hold, Hnext. by eapply update_guarded.
  - guard_as H4 old Hold. apply decode_record_ok in Hold. by eapply delete_guarded.
Qed.

(** ** Secrets, and what the manager writes *)

Definition secret_of (raw : string) (s : Secret) : Prop :=
  unmarshal_secret raw = Some (secretKind, s) /\ MetaNamespace (SecretMeta s) = RequestNamespace req /\
  String.prefix SecretPrefix (MetaName (SecretMeta s)) = true.
Inductive secret_write (log : list (entry guardE)) : Prop :=
| issues_secret secret trust :
    by_manager -> secret_of (RequestObject req) secret -> ResultCredentials v = Some trust ->
    during Pins (ValidateSecretCreate trust secret) (Ok tt) log -> secret_write log
| keeps_secret old next :
    RequestOperation req = "UPDATE" -> secret_of (RequestOldObject req) old -> secret_of (RequestObject req) next ->
    SecretData next = SecretData old -> MetaUID (SecretMeta next) = MetaUID (SecretMeta old) -> secret_write log
| deletes_secret old :
    RequestOperation req = "DELETE" -> secret_of (RequestOldObject req) old -> MetaUID (SecretMeta old) <> EmptyString ->
    during SecretReads (ValidateDelete StoredClientIdentity old) true log -> secret_write log.

Lemma decode_secret_ok raw s : decode_secret req raw = Ok s -> secret_of raw s.
Proof.
  unfold decode_secret, secret_of, same_object. destruct (decodeObject _ _ _ _) as [s'|] eqn:Ed; [|done].
  apply decodeObject_ok in Ed as (_ & Ed & _). cbn [rbind]. destruct (_ && _) eqn:Es; [|done]. intros [= <-].
  rewrite !andb_true_iff, !bool_decide_eq_true in Es. tauto.
Qed.
Lemma secret_guarded log log' :
  runs (validateResultCredential (ManagerUsername v) (ResultCredentials v) req) log (Ok tt) log' ->
  validateRequestType req secretResource secretKind = Ok tt /\ names_object req = true /\ secret_write log'.
Proof.
  intros H4. unfold validateResultCredential in H4. guard_as H4 u Ht. guard_as H4 u Hn. split; [done|]. split; [done|].
  case_bool_decide as Hc; [|case_bool_decide as Hu; [|case_bool_decide as Hd; [|by destruct H4]]].
  - guard_as H4 u Hm. guard_as H4 candidate Hr. rewrite andb_true_iff, bool_decide_eq_true in Hm. apply decode_secret_ok in Hr.
    destruct (ResultCredentials v) as [trust|] eqn:Et; [|by destruct H4]. apply runs_verdict in H4.
    eapply issues_secret; [by split; [|apply Hm]|exact Hr|done|exact H4].
  - guard_as H4 old Hold. guard_as H4 next Hnext. apply decode_secret_ok in Hold, Hnext. apply runs_gunless in H4 as [Hv ->].
    unfold ValidateUpdate, frozen_meta in Hv. rewrite !andb_true_iff, !bool_decide_eq_true in Hv. eapply keeps_secret; try done; naive_solver.
  - guard_as H4 u Ho. guard_as H4 old Hold. guard_as H4 u Hp. apply decode_secret_ok in Hold.
    apply runs_bind in H4 as (eligible & log1 & He%during_hoist & H4). apply runs_gunless in H4 as [-> ->].
    eapply deletes_secret; try done. unfold empty in Hp. by apply negb_true_iff, bool_decide_eq_false in Hp.
Qed.

(** The one kind of object of a resource, not a converted one. *)
Definition exact_type (resource : GroupVersionResource) (kind : GroupVersionKind) : Prop :=
  RequestResourceOf req = resource /\ RequestKindOf req = kind /\
  (forall r, RequestResource req = Some r -> r = resource) /\ (forall k, RequestKind req = Some k -> k = kind).
Inductive manager_write (log : list (entry guardE)) : Prop :=
| creates_job : exact_type jobResource jobKind -> RequestOperation req = "CREATE" ->
    during Reads (validateJobCreate req) (Ok tt) log -> manager_write log
| schedules_job : exact_type jobResource jobKind -> RequestOperation req = "UPDATE" ->
    during Reads (validateJobUpdate ParseSummaryFor req) (Ok tt) log -> manager_write log
| creates_config_map : exact_type configMapResource configMapKind -> RequestOperation req = "CREATE" ->
    during Reads (validateProjectionCreate req) (Ok tt) log -> manager_write log
| creates_chunk : exact_type planChunkResource planChunkKind -> RequestOperation req = "CREATE" ->
    during Reads (validatePlanChunkCreate req) (Ok tt) log -> manager_write log
| creates_plan : exact_type planResource planKind -> RequestOperation req = "CREATE" ->
    during Reads (validatePlanCreate req) (Ok tt) log -> manager_write log
| creates_migration_plan : exact_type migrationPlanResource migrationPlanKind -> RequestOperation req = "CREATE" ->
    during Reads (validateMigrationPlanCreate req) (Ok tt) log -> manager_write log.

Lemma type_exact resource kind :
  RequestResourceOf req = resource -> validateRequestType req resource kind = Ok tt -> exact_type resource kind.
Proof.
  intros Hr. unfold validateRequestType, exact_type. case_bool_decide as Hk; [|done].
  destruct (RequestResource req) as [r|]; [case_bool_decide; [|done]|]; (destruct (RequestKind req) as [k|]; [case_bool_decide; [|done]|]);
    intros _; split_and!; naive_solver.
Qed.
Lemma typed_ok resource kind (k : prog guardE (result failure unit)) log log' :
  RequestResourceOf req = resource -> runs (typed req resource kind k) log (Ok tt) log' ->
  exact_type resource kind /\ runs k log (Ok tt) log'.
Proof. intros Hr H4. unfold typed in H4. guard_as H4 u Ht. split; [by apply type_exact|done]. Qed.
Lemma only_create_ok p log log' :
  runs (only_create req p) log (Ok tt) log' -> RequestOperation req = "CREATE" /\ during Reads p (Ok tt) log'.
Proof. unfold only_create. case_bool_decide as Hc; [|by intros [? _]]. intros Hr%during_hoist. done. Qed.
Lemma manager_guarded log log' : runs (guarded_write ParseSummaryFor req) log (Ok tt) log' -> manager_write log'.
Proof.
  unfold guarded_write.
  case_bool_decide as Hr; [|clear Hr; case_bool_decide as Hr; [|clear Hr; case_bool_decide as Hr; [|clear Hr; case_bool_decide as Hr;
    [|clear Hr; case_bool_decide as Hr; [|by intros [? _]]]]]]; intros [Ht H4]%typed_ok; try done; [|apply only_create_ok in H4 as [Hc H4]..].
  - case_bool_decide as Hc; [apply creates_job; [done..|by apply during_hoist in H4]|]. case_bool_decide as Hu; [|by destruct H4].
    apply schedules_job; [done..|by apply during_hoist in H4].
  - by apply creates_config_map.
  - by apply creates_chunk.
  - by apply creates_plan.
  - by apply creates_migration_plan.
Qed.
End Writes.

(** C14: what the guard lets in is what a guard was made for. An admitted write
    of a result record is a retirement, an enrollment the credential validator
    granted, a publication it authorized for the record's own binding, an
    update that leaves the document, the type and the UID as they were, or a
    deletion (or the clearing of the last finalizer, or a foreground
    retirement) the retention policy authorized; only the manager creates. Of
    a credential's Secret it is a creation by the manager the credential
    validator granted, an update that leaves its data and UID as they were, or
    a deletion [ValidateDelete] found eligible. Any other admitted write is the
    manager's, of its own resource and kind, and the creation of a Job, of a
    plan projection or source snapshot, of a plan chunk, of a schema plan or
    of a migration plan, or a Job's cleanup time. Each verdict was given by
    its own guard, from the start, in the run that let the write in. *)
Theorem writes_guarded (v : Validator) (req : AdmissionRequest) log log' :
  runs (Handle ParseSummaryFor DecodeResult (Some v) req) log Allowed log' ->
  RequestUID req <> EmptyString /\ SubResource req = EmptyString /\ RequestSubResource req = EmptyString /\
  (record_write v req log' \/ secret_write v req log' \/ (RequestUsername req = ManagerUsername v /\ manager_write req log')).
Proof.
  intros (r & log1 & Hr & [Ha ->])%runs_bind. destruct r as [[]|f]; [clear Ha|by destruct f].
  unfold Validate in Hr. destruct (blank _); [by destruct Hr|]. unfold empty in Hr. case_bool_decide as Hu; [by destruct Hr|]. split; [done|].
  case_bool_decide as Hs; [|clear Hs; case_bool_decide as Hs; [|clear Hs]].
  - apply secret_guarded in Hr as (_ & Hn & Hw). unfold names_object, empty in Hn. rewrite !andb_true_iff, !bool_decide_eq_true in Hn. tauto.
  - apply record_guarded in Hr as (_ & Hn & Hw). unfold names_object, empty in Hn. rewrite !andb_true_iff, !bool_decide_eq_true in Hn. tauto.
  - guard_as Hr u Hm. guard_as Hr u Hsub. apply manager_guarded in Hr. rewrite andb_true_iff, !bool_decide_eq_true in Hsub.
    apply bool_decide_eq_true in Hm. tauto.
Qed.
End Proofs.
