(* ===== verification/WriteSample.v ===== *)
(** * Writes the guard lets in

    A schema with a published plan of one chunk and its projection, and a
    migration whose Verify Job is created and, once it ended, given its
    cleanup time; the reads that answer for them; and an attempt whose first
    Pod is pinned. The theorems about the guard of writes are applied to
    them. *)
From Stdlib Require Import ZArith Lia Ascii.
From stdpp Require Import base list gmap strings.
From S2P Require Import TargetLock GoStrings Sha256 Json JsonDecode Fingerprint KubeMeta KubePod Effects JobConfig PodIntent PodResolve JobClaim JobClaimProofs PodWebhook ResultAuthority PodSample AuthoritySample.
From S2P Require Import WriteRequest WriteObjects PlanGuard JobGuard PlanGuardProofs JobGuardProofs ResultStore ResultRetention ResultStoreProofs.
From S2P Require Import ResultPins RecordGuard WriteGuard Prelude.
From S2P Require SourceBinding SourceSnapshot PlanStore MigrationTypes JobRetention ResultPublish.
Local Open Scope go_scope.
Local Open Scope Z_scope.

Definition sample_meta (name uid : string) : ObjectMeta :=
  {| MetaName := name; GenerateName := EmptyString; MetaNamespace := "shop"; SelfLink := EmptyString; MetaUID := uid;
     ResourceVersion := "90"; MetaGeneration := 4; CreationTimestamp := Some 5; DeletionTimestamp := None;
     DeletionGracePeriodSeconds := None; Labels := ∅; Annotations := ∅; OwnerReferences := []; Finalizers := []; ManagedFields := [] |}.

(** ** A schema and its plan *)

Definition guard_policy : SchemaPolicy :=
  {| WriteObjects.Engine := "PostgreSQL"; AllowDestructive := false; DriftSeverity := "All"; Exclude := []; ProtectedTables := ["orders"];
     PolicyLockTimeout := 5000000000; PolicyTransactionMode := "PerPlan"; ConnectTimeout := 5000000000 |}.
(** The template of its Apply, and what admission may do to its Pod. *)
Definition apply_labels : gmap string string := list_to_map [(LabelManagedBy, "ptah-operator"); (LabelOperation, "apply")].
Definition apply_annotations (digest : string) : gmap string string :=
  list_to_map [(AnnotationExecutionBindingID, sample_epoch); (AnnotationAdmissionSnapshotDigest, digest)].
Definition apply_template (digest : string) (extra : gmap string string) : PodTemplateSpec :=
  {| TemplateMeta := with_maps (extra ∪ apply_labels) (apply_annotations digest) (new_meta EmptyString EmptyString ∅ []);
     TemplateSpec := sample_spec |}.
Definition apply_snapshot : PodAdmissionSnapshot :=
  match asked (sample_objects [memory_range; cpu_range]) (Resolve "shop" (apply_template EmptyString ∅) DefaultOptions) with
  | Ok s => s
  | Err _ => no_snapshot
  end.
Definition apply_operation : ActiveOperation :=
  {| OpStatus := {| StatusType := "Apply"; StatusID := sample_fingerprint; StatusFingerprint := sample_fingerprint; StatusBindingID := sample_epoch;
                    StatusJobName := "ptah-apply-shop"; StatusJobUID := EmptyString; StatusSnapshot := Some apply_snapshot;
                    StatusEngine := Some "PostgreSQL"; StatusDispatched := false; StatusContinuityLost := false |};
     Attempt := 1; PlanSealPublicKeyDigest := EmptyString; OpSource := None; OpCoordinationDigest := sample_fingerprint;
     OpTargetIdentityDigest := sample_fingerprint |}.
Definition guard_schema (plan : option PlanStatus) : PtahSchema :=
  {| SchemaMetaOf := sample_meta "shop" "schema-uid"; Policy := guard_policy;
     Desired := {| SourceBinding.SpecConfigMap := None; SourceBinding.SpecGit := None |}; DesiredConfigMap := None;
     ExecutionBindingOf := Some {| BindingOf := sample_binding; BindingExecutorImage := sample_image; BindingProtocol := 1 |};
     ActiveOf := Some apply_operation; CurrentPlanOf := plan; PendingObservationOf := None; PendingBindingRetirement := None;
     SourceStatus := {| SourceBinding.StatusDigest := sample_fingerprint; SourceBinding.Verified := true; SourceBinding.StatusConfigMap := None;
                        SourceBinding.StatusSnapshot := None; SourceBinding.StatusGit := None; SourceBinding.StatusSourcePolicy := None |};
     SourcePolicyUID := "policy-uid"; SourcePolicyDigest := sample_fingerprint; TargetCoordination := sample_fingerprint;
     TargetIdentity := sample_fingerprint |}.
Definition plan_content : list Z := [59; 10; 59].
Definition guard_spec (fingerprint : string) : PlanStore.PtahSchemaPlanSpec :=
  {| PlanStore.ContractVersion := 1; PlanStore.SchemaRef := ("shop", "schema-uid"); PlanStore.SpecFingerprint := fingerprint;
     PlanStore.ContentDigest := DigestBytes plan_content; PlanStore.Size := 0; PlanStore.ArtifactDigest := sample_fingerprint; PlanStore.Source := None;
     PlanStore.CoordinationDigest := sample_fingerprint; PlanStore.TargetIdentityDigest := sample_fingerprint;
     PlanStore.ActualStateFingerprint := sample_fingerprint; PlanStore.DesiredStateFingerprint := sample_fingerprint;
     PlanStore.PolicyFingerprint := schemaPolicyFingerprint (guard_schema None); PlanStore.VerificationPolicyUID := "policy-uid";
     PlanStore.VerificationPolicyDigest := sample_fingerprint; PlanStore.ExecutionBindingID := sample_epoch;
     PlanStore.ControllerImage := sample_image; PlanStore.ControllerRevision := "abc123"; PlanStore.ControllerStateVersion := 1;
     PlanStore.PtahVersion := "v0.9.0"; PlanStore.ExecutorImage := sample_image; PlanStore.RunnerImage := sample_image;
     PlanStore.RunnerProtocolVersion := 1; PlanStore.Dialect := "postgres"; PlanStore.Destructive := false; PlanStore.PrivilegeChanges := None;
     PlanStore.StatementCount := 2; PlanStore.Chunks := [] |}.
Definition guard_fingerprint : string := Eval vm_compute in
  match Fingerprint (PlanStore.Binding "schema-uid" (guard_spec EmptyString)) with Ok f => f | Err _ => EmptyString end.
Definition guard_prepared : result PlanStore.store_error (PlanStore.PtahSchemaPlan * list (list Z)) :=
  PlanStore.Prepare ([] : list Condition) (Some (schema_owner (guard_schema None))) (guard_spec guard_fingerprint) plan_content.
Lemma guard_prepares : bool_decide (is_ok guard_prepared = true) && negb (empty guard_fingerprint) = true.
Proof. vm_compute. reflexivity. Qed.

Definition desired_plan : PlanStore.PtahSchemaPlan (Conditions := list Condition) :=
  match guard_prepared with Ok (plan, _) => plan | Err _ => store_plan {| PlanMetaOf := sample_meta EmptyString EmptyString; PlanSpecOf := guard_spec EmptyString; PlanObserved := 0; PublishedChunksOf := []; PlanConditionsOf := [] |} end.
(** The plan as the server holds it, its one chunk bound. *)
Definition server_meta (uid : string) (m : ObjectMeta) : ObjectMeta :=
  {| MetaName := MetaName m; GenerateName := EmptyString; MetaNamespace := MetaNamespace m; SelfLink := EmptyString; MetaUID := uid;
     ResourceVersion := "91"; MetaGeneration := 1; CreationTimestamp := Some 6; DeletionTimestamp := None;
     DeletionGracePeriodSeconds := None; Labels := Labels m; Annotations := Annotations m; OwnerReferences := OwnerReferences m;
     Finalizers := []; ManagedFields := ["ptah-operator"] |}.
Definition guard_plan : PtahSchemaPlan :=
  {| PlanMetaOf := server_meta "plan-uid" (store_meta (PlanStore.PlanMeta desired_plan)); PlanSpecOf := PlanStore.Spec desired_plan;
     PlanObserved := 1;
     PublishedChunksOf := (fun ref => {| PlanStore.PublishedName := PlanStore.ChunkName ref; PlanStore.PublishedUID := "chunk-uid";
                                         PlanStore.PublishedIndex := PlanStore.ChunkIndex ref |}) <$> PlanStore.Chunks (PlanStore.Spec desired_plan);
     PlanConditionsOf := [{| ConditionType := "Ready"; ConditionStatus := "True"; ConditionRest := EmptyString |}] |}.
Lemma guard_plan_prepared :
  PlanStore.Prepare ([] : list Condition) (Some (schema_owner (guard_schema None))) (guard_spec guard_fingerprint) plan_content =
    Ok (desired_plan, [plan_content]).
Proof. vm_compute. reflexivity. Qed.
Lemma guard_plan_publishable : publishable (PlanStore.Spec desired_plan) (guard_schema None).
Proof. constructor; try (vm_compute; reflexivity). vm_compute. discriminate. Qed.

Definition guard_ref : PlanStore.PlanChunkReference :=
  {| PlanStore.ChunkName := PlanStore.chunk_name (MetaName (PlanMetaOf guard_plan)) 0; PlanStore.ChunkIndex := 0;
     PlanStore.ChunkSize := 3; PlanStore.ChunkDigest := DigestBytes plan_content |}.
Lemma guard_plan_one : PlanStore.Chunks (PlanSpecOf guard_plan) = [guard_ref].
Proof. vm_compute. reflexivity. Qed.
Definition guard_chunk : PtahSchemaPlanChunk :=
  let c := store_chunk (PlanStore.DesiredChunk (store_plan guard_plan) guard_ref plan_content) in
  {| ChunkMetaOf := server_meta "chunk-uid" (ChunkMetaOf c); ChunkDataOf := ChunkDataOf c |}.
Definition guard_projection : SourceSnapshot.ConfigMap :=
  let c := store_config (PlanStore.DesiredProjection (store_plan guard_plan) guard_ref plan_content) in
  {| SourceSnapshot.Meta := server_meta "projection-uid" (SourceSnapshot.Meta c); SourceSnapshot.Immutable := SourceSnapshot.Immutable c;
     SourceSnapshot.ConfigData := SourceSnapshot.ConfigData c; SourceSnapshot.BinaryData := SourceSnapshot.BinaryData c |}.
Lemma guard_plan_identified : identified (PlanMetaOf guard_plan).
Proof. split; [|discriminate]. apply (bool_decide_unpack _). vm_compute. exact I. Qed.
Lemma guard_bytes : chunk_bytes plan_content guard_ref = true.
Proof. vm_compute. reflexivity. Qed.
Lemma guard_submits :
  submitted_chunk guard_chunk = store_chunk (PlanStore.DesiredChunk (store_plan guard_plan) guard_ref plan_content) /\
  submitted_config guard_projection = store_config (PlanStore.DesiredProjection (store_plan guard_plan) guard_ref plan_content).
Proof. split; reflexivity. Qed.
Lemma guard_namespace :
  MetaNamespace (ChunkMetaOf guard_chunk) = MetaNamespace (PlanMetaOf guard_plan) /\
  MetaNamespace (SourceSnapshot.Meta guard_projection) = MetaNamespace (PlanMetaOf guard_plan).
Proof. split; reflexivity. Qed.
Lemma guard_admits_store_witness :
  validateChunkObject guard_chunk guard_plan guard_ref = true /\ validateProjection guard_projection guard_plan guard_ref = true.
Proof.
  destruct (guard_admits_store guard_chunk guard_projection guard_plan guard_ref (proj1 guard_namespace) (proj2 guard_namespace)) as [[_ Hc] [_ Hp]].
  split; [apply Hc|apply Hp]; (split; [exact guard_plan_identified|]; exists plan_content; split; [exact guard_bytes|]);
    [exact (proj1 guard_submits)|exact (proj2 guard_submits)].
Defined.

(** The schema whose current plan it is, and an Apply's reads. *)
Definition current_status : PlanStatus :=
  {| PlanOf := {| PlanName := MetaName (PlanMetaOf guard_plan); PlanUID := "plan-uid"; PlanFingerprint := guard_fingerprint;
                  PlanContentDigest := DigestBytes plan_content; PlanBindingID := sample_epoch; PlanPtahVersion := "v0.9.0"; PlanStateVersion := 1 |};
     PlanApproved := true |}.

(** ** The Verify Job of a migration *)

Definition verify_status (uid name : string) (snapshot : option PodAdmissionSnapshot) : operation_status :=
  {| StatusType := "Verify"; StatusID := sample_fingerprint; StatusFingerprint := sample_fingerprint; StatusBindingID := sample_epoch;
     StatusJobName := name; StatusJobUID := uid; StatusSnapshot := snapshot; StatusEngine := None; StatusDispatched := true;
     StatusContinuityLost := false |}.
Definition verify_name : string := Eval vm_compute in
  default EmptyString (job_name "ptah-m-verify-" "orders-uid" "orders" (verify_status EmptyString EmptyString None) 1).
Definition verify_labels : gmap string string :=
  list_to_map [(LabelManagedBy, "ptah-operator"); (LabelComponent, ComponentMigrationOperation); (LabelMigration, "orders");
               (LabelOperation, "verify"); (LabelOperationID, OperationIDLabelValue sample_fingerprint)].
Definition verify_annotations (digest : string) : gmap string string :=
  list_to_map [(JobClaim.AnnotationOperationID, sample_fingerprint); (AnnotationInputFingerprint, sample_fingerprint);
    (AnnotationExecutionBindingID, sample_epoch); (AnnotationAdmissionSnapshotDigest, digest); (AnnotationPtahVersion, "v0.9.0");
    (AnnotationControllerStateVersion, "1"); (AnnotationControllerImage, sample_image); (AnnotationControllerRevision, "abc123")].
Definition verify_template (digest : string) (extra : gmap string string) : PodTemplateSpec :=
  {| TemplateMeta := with_maps (extra ∪ verify_labels) (verify_annotations digest) (new_meta EmptyString EmptyString ∅ []);
     TemplateSpec := sample_spec |}.
Definition verify_snapshot : PodAdmissionSnapshot :=
  match asked (sample_objects [memory_range; cpu_range]) (Resolve "shop" (verify_template EmptyString ∅) DefaultOptions) with
  | Ok s => s
  | Err _ => no_snapshot
  end.
Definition verify_generated : gmap string string :=
  list_to_map [(ControllerUidLabel, "job-uid"); (JobNameLabel, verify_name); ("controller-uid", "job-uid"); ("job-name", verify_name)].
Definition verify_meta (uid : string) : ObjectMeta :=
  let m := sample_meta verify_name uid in
  {| MetaName := MetaName m; GenerateName := EmptyString; MetaNamespace := MetaNamespace m; SelfLink := EmptyString; MetaUID := uid;
     ResourceVersion := EmptyString; MetaGeneration := 1; CreationTimestamp := Some 5; DeletionTimestamp := None;
     DeletionGracePeriodSeconds := None; Labels := verify_labels; Annotations := verify_annotations (SnapshotDigest verify_snapshot);
     OwnerReferences := [owner_reference sample_owner]; Finalizers := []; ManagedFields := [] |}.
(** As the builder gives it, and as the server stores it. *)
Definition verify_built : Job :=
  {| JobMeta := verify_meta EmptyString;
     JobSpecOf := with_template None None (verify_template (SnapshotDigest verify_snapshot) ∅) (JobSpecOf built_job) |}.
Definition verify_job (ttl : option Z) : Job :=
  {| JobMeta := verify_meta "job-uid";
     JobSpecOf := with_template (Some {| MatchLabels := {[ControllerUidLabel := "job-uid"]}; MatchExpressions := [] |}) ttl
                    (verify_template (SnapshotDigest verify_snapshot) verify_generated) (JobSpecOf built_job) |}.
(** The Job of the schema's Apply, as built and as submitted. *)
Definition schema_owner_reference : OwnerReference := controller_owner "PtahSchema" "shop" "schema-uid".
Definition apply_meta (uid : string) : ObjectMeta :=
  {| MetaName := "ptah-apply-shop"; GenerateName := EmptyString; MetaNamespace := "shop"; SelfLink := EmptyString; MetaUID := uid;
     ResourceVersion := EmptyString; MetaGeneration := 1; CreationTimestamp := Some 5; DeletionTimestamp := None;
     DeletionGracePeriodSeconds := None; Labels := apply_labels; Annotations := apply_annotations (SnapshotDigest apply_snapshot);
     OwnerReferences := [schema_owner_reference]; Finalizers := []; ManagedFields := [] |}.
Definition apply_generated : gmap string string :=
  list_to_map [(ControllerUidLabel, "job-uid"); (JobNameLabel, "ptah-apply-shop"); ("controller-uid", "job-uid"); ("job-name", "ptah-apply-shop")].
Definition apply_built : Job :=
  {| JobMeta := apply_meta EmptyString;
     JobSpecOf := with_template None None (apply_template (SnapshotDigest apply_snapshot) ∅) (JobSpecOf built_job) |}.
Definition apply_job : Job :=
  {| JobMeta := apply_meta "job-uid";
     JobSpecOf := with_template (Some {| MatchLabels := {[ControllerUidLabel := "job-uid"]}; MatchExpressions := [] |}) None
                    (apply_template (SnapshotDigest apply_snapshot) apply_generated) (JobSpecOf built_job) |}.
Definition no_fields : JobFields :=
  {| Scheduling := None; EvictionResponders := None; VolumeFieldsOf := []; InitFields := []; MainFields := []; EphemeralFields := [] |}.
Definition verify_stored (ttl : option Z) (conditions : list Condition) : StoredJob :=
  {| JobOf := verify_job ttl; JobConditions := conditions; JobStatusRest := EmptyString; JobFieldsOf := no_fields |}.
Definition complete : Condition := {| ConditionType := "Complete"; ConditionStatus := "True"; ConditionRest := EmptyString |}.
Definition verify_operation (uid : string) : MigrationOp :=
  {| MOpStatus := verify_status uid verify_name (Some verify_snapshot); MAttempt := 1; MSource := None; MPlanRef := None; MApprovalRef := None |}.
Definition guard_migration (uid : string) : PtahMigration :=
  {| MigrationMetaOf := sample_meta "orders" "orders-uid"; MConfigMapSource := None;
     MBindingOf := Some {| BindingOf := sample_binding; BindingExecutorImage := sample_image; BindingProtocol := 1 |};
     MActiveOf := Some (verify_operation uid); MHistory := None; MArtifact := None; MConfigMapRevision := None; MSourcePolicy := None |}.

(** ** Libraries and reads *)

#[export] Instance plain_builder : JobBuilder := {|
  BuildJob := fun _ _ plan => match plan with Some _ => Some apply_built | None => None end;
  BuildMigration := fun _ _ _ => Some verify_built;
  ManagerIdentity := (sample_image, "abc123", sample_image);
|}.
(** The bytes of a Job in a request stand for the Job. *)
#[export] Instance plain_guard : GuardLibraries := {|
  IsStatusConditionTrue := fun conditions name =>
    existsb (fun c => bool_decide (ConditionType c = name) && bool_decide (ConditionStatus c = "True")) conditions;
  unmarshal_job := fun raw =>
    if bool_decide (raw = "new") then Some (jobKind, verify_stored None [])
    else if bool_decide (raw = "apply") then
      Some (jobKind, {| JobOf := apply_job; JobConditions := []; JobStatusRest := EmptyString; JobFieldsOf := no_fields |})
    else if bool_decide (raw = "ended") then Some (jobKind, verify_stored None [complete])
    else if bool_decide (raw = "scheduled") then Some (jobKind, verify_stored (Some CleanupTTLSeconds) [complete]) else None;
  unmarshal_plan := fun _ => None;
  unmarshal_chunk := fun _ => None;
  unmarshal_config_map := fun _ => None;
  unmarshal_migration_plan := fun _ => None;
  ParseReference := fun _ => None;
  ReferenceOrDefault := fun _ => EmptyString;
  url_Parse := fun _ => None;
|}.
Definition guard_read (uid : string) (X : Type) (e : readE X) : X :=
  match e in readE X return X with
  | WriteObjects.ReadSchema _ _ => Ok (guard_schema (Some current_status))
  | WriteObjects.ReadMigration _ _ => Ok (guard_migration uid)
  | ReadSchemaPlan _ _ => Ok guard_plan
  | ReadMigrationPlan _ _ => Err NotFound
  | ReadConfigMap _ _ => Ok guard_projection
  | WriteObjects.ReadJob _ _ => Ok (verify_stored None [complete])
  | ListPods _ => Ok []
  end.
Definition guard_run {A} (uid : string) (p : prog readE A) : A * list (entry readE) := run (recording (guard_read uid)) p [].
Lemma guard_runs {A} uid (p : prog readE A) : runs p [] (guard_run uid p).1 (guard_run uid p).2.
Proof. exact (run_recording (guard_read uid) p []). Qed.

Definition apply_run := guard_run EmptyString (planForJob (guard_schema (Some current_status)) apply_operation).
Lemma apply_granted : apply_run.1 = Ok (Some guard_plan).
Proof. vm_compute. reflexivity. Qed.
Lemma apply_runs : runs (planForJob (guard_schema (Some current_status)) apply_operation) [] (Ok (Some guard_plan)) apply_run.2.
Proof. rewrite <- apply_granted. exact (guard_runs _ _). Qed.

(** ** Its creation and its cleanup time *)

Definition request_for (name operation old object : string) : AdmissionRequest :=
  {| RequestUID := "request-uid"; RequestKindOf := jobKind; RequestResourceOf := jobResource; SubResource := EmptyString;
     RequestKind := Some jobKind; RequestResource := Some jobResource; RequestSubResource := EmptyString; RequestName := name;
     RequestNamespace := "shop"; RequestOperation := operation; RequestUsername := "system:serviceaccount:ptah-system:ptah-operator";
     RequestObject := object; RequestOldObject := old; RequestOptions := EmptyString |}.
Definition job_request : string -> string -> string -> AdmissionRequest := request_for verify_name.
Definition apply_request : AdmissionRequest := request_for "ptah-apply-shop" "CREATE" EmptyString "apply".
Definition no_summary (_ _ _ : string) : option Summary := None.
Definition create_run := guard_run EmptyString (validateJobCreate apply_request).
Definition update_run := guard_run "job-uid" (validateJobUpdate no_summary (job_request "UPDATE" "ended" "scheduled")).
Lemma create_granted : create_run.1 = Ok tt.
Proof. vm_compute. reflexivity. Qed.
Lemma create_runs : runs (validateJobCreate apply_request) [] (Ok tt) create_run.2.
Proof. rewrite <- create_granted. exact (guard_runs _ _). Qed.
(** The Job of an Apply, over the plan that was read. *)
Lemma job_create_guarded_witness : exists stored, unmarshal_job "apply" = Some (jobKind, stored) /\ created (JobOf stored) create_run.2.
Proof.
  destruct (job_create_guarded apply_request [] _ create_runs) as (stored & Hs & _ & _ & _ & _ & _ & Hc).
  exists stored. split; [exact Hs|exact Hc].
Defined.
Lemma update_granted : update_run.1 = Ok tt.
Proof. vm_compute. reflexivity. Qed.
Lemma update_runs : runs (validateJobUpdate no_summary (job_request "UPDATE" "ended" "scheduled")) [] (Ok tt) update_run.2.
Proof. rewrite <- update_granted. exact (guard_runs _ _). Qed.

(** ** The whole guard *)

#[export] Instance plain_records : RecordLibraries := {|
  unmarshal_record := fun _ => None;
  unmarshal_secret := fun _ => None;
  unmarshal_delete_options := fun _ => None;
  StoredClientIdentity := fun _ => None;
|}.
Definition pin_other (X : Type) (e : pinE X) : X :=
  match e in pinE X return X with
  | GetPin _ => Err NotFound
  | CreatePin _ => Err OtherError
  | PinAuth Y ev => attempt_answer true (Err NotFound) Y ev
  | ReadPolicy _ => Err NotFound
  | PinContextFailed => false
  end.
Definition guard_answer (X : Type) (e : guardE X) : X :=
  match e in guardE X return X with
  | Reads Y ev => guard_read EmptyString Y ev
  | Records Y ev =>
      match ev in resultE Y return Y with
      | GetRecord _ => Err NotFound
      | CreateRecord _ => Err OtherError
      | CheckAuthority => Err "unavailable"
      end
  | Pins Y ev => pin_other Y ev
  | Evidence Y ev => attempt_answer true (Err NotFound) Y (Fence Y ev)
  | SecretReads Y ev =>
      match ev in secretE Y return Y with
      | GetRecordOf _ => Err NotFound
      | SecretEvidence V ev' => attempt_answer true (Err NotFound) V (Fence V ev')
      end
  end.
Definition sample_validator : Validator :=
  {| ManagerUsername := "system:serviceaccount:ptah-system:ptah-operator"; ResultCredentials := None; CleanupWindow := Some hour |}.
Definition accepts_all (_ : Identity) (_ : list Z) : bool := true.
Definition handle_run : response * list (entry guardE) :=
  run (recording guard_answer) (Handle no_summary accepts_all (Some sample_validator) (job_request "CREATE" EmptyString "new")) [].
Lemma handle_allowed : handle_run.1 = Allowed.
Proof. vm_compute. reflexivity. Qed.
Lemma handle_runs : runs (Handle no_summary accepts_all (Some sample_validator) (job_request "CREATE" EmptyString "new")) [] Allowed handle_run.2.
Proof.
  rewrite <- handle_allowed.
  exact (run_recording guard_answer (Handle no_summary accepts_all (Some sample_validator) (job_request "CREATE" EmptyString "new")) []).
Qed.
Lemma writes_guarded_witness :
  record_write accepts_all sample_validator (job_request "CREATE" EmptyString "new") handle_run.2 \/
  secret_write sample_validator (job_request "CREATE" EmptyString "new") handle_run.2 \/
  manager_write no_summary (job_request "CREATE" EmptyString "new") handle_run.2.
Proof.
  destruct (writes_guarded no_summary accepts_all sample_validator (job_request "CREATE" EmptyString "new") [] _ handle_runs)
    as (_ & _ & _ & [Hr|[Hs|[_ Hm]]]); [left; exact Hr|right; left; exact Hs|right; right; exact Hm].
Defined.

(** ** The first Pod of an attempt *)

Definition pin_serve (X : Type) (e : pinE X) (s : store) : X * store :=
  match e in pinE X return X * store with
  | GetPin key => (match s !! key with Some r => Ok r | None => Err NotFound end, s)
  | CreatePin r =>
      match s !! record_key r with
      | Some _ => (Err AlreadyExists, s)
      | None =>
          (Ok (ResultPublish.created r "pin-uid"), <[record_key r := ResultPublish.created r "pin-uid"]> s)
      end
  | other => (pin_other _ other, s)
  end.
Definition attempt_pin : string * string := pin_key (IdentityBinding attempt_identity).
Lemma pin_serve_answers X (e : pinE X) s x s' : deterministic pin_serve X e s x s' -> pin_answer attempt_pin X e s x s'.
Proof.
  intros He. unfold deterministic in He. exists s. split; [done|]. destruct e as [key|r|Y ev|key|]; cbn in He.
  - injection He as <- <-. split; [done|]. by destruct (s !! key) eqn:Ek.
  - destruct (s !! record_key r) eqn:Ek in He; injection He as <- <-; [left; split; [done|by eexists]|right]. split; [done|].
    exists (ResultPublish.created r "pin-uid"). split; [|split; [done|by left]]. unfold stored_as. cbn. by split_and!.
  - by injection He as _ <-.
  - by injection He as _ <-.
  - by injection He as _ <-.
Qed.
Definition pin_run : result pin_error Credential * store := run pin_serve (Ensure attempt_identity) ∅.
Definition pin_credential : Credential := {| CredentialName_ := credential_name (IdentityBinding attempt_identity); CredentialUID := "pin-uid" |}.
Lemma pin_granted : pin_run.1 = Ok pin_credential.
Proof. vm_compute. reflexivity. Qed.
Lemma pin_runs : exec (pin_answer attempt_pin) (Ensure attempt_identity) ∅ (Ok pin_credential) pin_run.2.
Proof. rewrite <- pin_granted. apply (exec_mono _ _ _ pin_serve_answers). exact (run_exec pin_serve (Ensure attempt_identity) ∅). Qed.
(** The attempt's result is published next. *)
Definition pin_publication : result pin_error Identity * store :=
  run pin_serve (AuthorizePublication (IdentityBinding attempt_identity)) pin_run.2.
Definition published : Identity :=
  match pin_publication.1 with Ok i => i | Err _ => Build_Identity (IdentityBinding attempt_identity) EmptyString end.
Lemma publication_granted : pin_publication.1 = Ok published.
Proof. vm_compute. reflexivity. Qed.
Lemma publication_runs : exec (pin_answer attempt_pin) (AuthorizePublication (IdentityBinding attempt_identity)) pin_run.2 (Ok published) pin_publication.2.
Proof. rewrite <- publication_granted. apply (exec_mono _ _ _ pin_serve_answers). exact (run_exec pin_serve (AuthorizePublication _) pin_run.2). Qed.
Lemma first_pod_pinned_witness :
  published = attempt_identity /\ IdentityBinding attempt_identity = IdentityBinding attempt_identity.
Proof.
  exact (proj2 (first_pod_pinned attempt_pin attempt_identity pin_credential ∅ pin_run.2 pin_run.2 eq_refl pin_runs (rtc_refl _ _))
           (IdentityBinding attempt_identity) published pin_publication.2 eq_refl publication_runs).
Defined.
