(* ===== verification/MigrationResults.v ===== *)
(** * What a migration Job reported (internal/controller/migration_controller.go)

    The history a reading records and the phase it leads to, the plan that is
    published for what is pending, and the consumption of the results of the
    read-only operations. *)
From stdpp Require Import base list gmap strings.
From Stdlib Require Import ZArith Lia Ascii.
From S2P Require Import Prelude Effects GoStrings Json Fingerprint TargetLock MutationLifecycle PlanStore KubeMeta.
From S2P Require Import SourceContent SourceSnapshot SourceBinding SourcePolicy MigrationStatus MigrationPlan.
From S2P Require Import ResultRetention ApprovalAdmission Cadence RealmCensus DispatchDriver MigrationTypes.
From S2P Require Import MigrationClaims MigrationApply MigrationRuns.
Local Open Scope go_scope.
Local Open Scope ctl_scope.
Local Open Scope Z_scope.

(** ** A reading of the history *)

(** [status.history] of a report; its revision rows are the report's records
    and are not kept. *)
Definition history_of (report : MigrationStatusReport) (targetIdentityDigest fingerprint : string) (observedAt : Z) : MigrationHistoryStatus :=
  {| ObservedAt := observedAt; HistoryContractVersion := int32_wrap (StatusContractVersion report);
     HistoryCurrentVersion := CurrentVersion report; HistoryCheckpointVersion := CheckpointVersion report;
     AppliedCount := Z.of_nat (length (List.filter (fun record =>
       bool_decide (RecState record = MigrationStateApplied) || bool_decide (RecState record = MigrationStateCheckpointCovered))
       (MigrationStatus.Migrations report)));
     PendingCount := int32_wrap (Z.of_nat (length (Pending report)));
     HistoryFingerprint_ := fingerprint; HistoryTargetIdentityDigest := targetIdentityDigest;
     Dirty := match DirtyRevision report with Some _ => true | None => false end;
     ModifiedVersions := boundedVersions (Modified report) 64; OutOfOrderVersions := boundedVersions (OutOfOrder report) 64 |}.

Definition migrationUnresolvedRunSettledBy (unresolved : option UnresolvedMigrationRunStatus) (history : MigrationHistoryStatus) (pending : list Z) : bool :=
  if negb (bool_decide (pending = [])) then false else
  match unresolved with
  | None => true
  | Some run =>
      if empty (RunTargetIdentityDigest run) then true
      else bool_decide (RunTargetIdentityDigest run = HistoryTargetIdentityDigest history)
  end.

Definition blocked_by (reason : string) (s : PtahMigrationStatus) : PtahMigrationStatus :=
  setMigrationCondition "Progressing" "False" reason (setMigrationCondition "Ready" "False" reason
    (setMigrationCondition "Blocked" "True" reason (phase "Blocked" s))).

(** What a reading with nothing pending settles. *)
Definition settle_unresolved (observedAt : Z) (s : PtahMigrationStatus) : PtahMigrationStatus :=
  match UnresolvedRun s with
  | None => s <| UnresolvedRun := None |>
  | Some run =>
      s <| ResolvedRun := Some {| ResolvedOperationID := RunOperationID run; ResolvedOutcome := RunOutcome run; Resolution := "HistoryRead";
                                  AcknowledgmentRef := None; ResolvedBy := None; ResolvedAt := observedAt |} |>
        <| UnresolvedRun := None |>
  end.

Definition recordMigrationHistory (report : MigrationStatusReport) (targetIdentityDigest : string) (t : Z) (s : PtahMigrationStatus) :
    result ctl_error PtahMigrationStatus :=
  match MigrationPlan.HistoryFingerprint report with
  | Err _ => Err (ErrText "the history report has an unsupported contract version")
  | Ok fingerprint =>
      let history := history_of report targetIdentityDigest fingerprint t in
      let pending := Pending report in
      let unresolved := UnresolvedRun s in
      let s := s <| History := Some history |> in
      Ok (if Dirty history then blocked_by "HistoryDirty" s
          else if negb (bool_decide (Modified report = [])) then blocked_by "HistoryModified" s
          else if negb (bool_decide (OutOfOrder report = [])) then blocked_by "HistoryOutOfOrder" s
          else if bool_decide (is_Some unresolved) && negb (migrationUnresolvedRunSettledBy unresolved history pending)
          then blocked_by "ApplyOutcomeUnknown" s
          else if LastVersion report <? CurrentVersion report then blocked_by "HistoryAhead" s
          else if bool_decide (pending = []) then
            setMigrationCondition "Progressing" "False" "HistoryMatched" (setMigrationCondition "Ready" "True" "HistoryMatched"
              (setMigrationCondition "Blocked" "False" "HistoryMatched" (phase "InSync" (settle_unresolved t s))))
          else
            setMigrationCondition "Progressing" "True" "MigrationsPending" (setMigrationCondition "Ready" "False" "MigrationsPending"
              (setMigrationCondition "Blocked" "False" "HistoryMatched" (phase "Planning" s))))
  end.

(** [recordMigrationRunVerification]. *)
Definition recordMigrationRunVerification (s : PtahMigrationStatus) : PtahMigrationStatus :=
  match LastRun s, History s with
  | Some run, Some history =>
      if bool_decide (LastFinishedAt run = None) || empty (LastOperationID run) || bool_decide (is_Some (Verification run)) ||
         negb (bool_decide (LastTargetIdentityDigest run = HistoryTargetIdentityDigest history))
      then s
      else s <| LastRun := Some (run <| Verification := Some
             {| VerificationObservedAt := ObservedAt history; VerificationFingerprint := HistoryFingerprint_ history;
                VerificationCurrentVersion := HistoryCurrentVersion history;
                VerificationResult := if bool_decide (MPhase s = "InSync") then "InSync"
                                      else if bool_decide (MPhase s = "Blocked") then "Blocked" else "Pending" |} |>) |>
  | _, _ => s
  end.

Definition endMigrationApprovalRequirement (s : PtahMigrationStatus) : PtahMigrationStatus :=
  match conditionReason "ApprovalRequired" s with
  | None => s
  | Some _ => setMigrationCondition "ApprovalRequired" "False" (default "PlanNoLongerCurrent" (conditionReason "Ready" s)) s
  end.

Section Results.
Context (r : Manager).

(** ** Publishing the plan *)

Definition applyMigrationPolicyPhase (m : PtahMigration) (s : PtahMigrationStatus) : PtahMigrationStatus :=
  if bool_decide (PolicyApply (Spec m) = "Never") then
    setMigrationCondition "Progressing" "False" "ApplyDisabled" (setMigrationCondition "Ready" "False" "ApplyDisabled"
      (setMigrationCondition "ApprovalRequired" "False" "NotRequired" s))
  else if bool_decide (PolicyApply (Spec m) = "Always") then
    setMigrationCondition "Progressing" "True" "ApplyPending" (setMigrationCondition "Ready" "False" "ApplyPending"
      (setMigrationCondition "ApprovalRequired" "False" "NotRequired" s))
  else
    setMigrationCondition "Progressing" "False" "AwaitingApproval" (setMigrationCondition "Ready" "False" "AwaitingApproval"
      (setMigrationCondition "ApprovalRequired" "True" "AwaitingApproval" (phase "AwaitingApproval" s))).

(** The binding of the plan of a reading, and the plan's specification. *)
Definition plan_binding (m : PtahMigration) (binding : ExecutionBindingStatus) (history : MigrationHistoryStatus)
    (source : string * option PlanSourceBinding) (sequenceDigest coordinationDigest : string) (policy : string * string) : Binding :=
  {| BMigrationUID := MUID m; BHistoryFingerprint := HistoryFingerprint_ history; BSequenceDigest := sequenceDigest;
     BArtifactDigest := source.1; BSource := source_fingerprint source.2; BCoordinationDigest := coordinationDigest;
     BTargetIdentityDigest := HistoryTargetIdentityDigest history; BPolicyFingerprint := migrationPolicyFingerprint m;
     BVerificationPolicyUID := policy.1; BVerificationPolicyDigest := policy.2; BExecutionBindingID := BindingEpoch binding;
     BControllerStateVersion := BindingStateVersion binding; BPtahVersion := BindingPtahVersion binding;
     BExecutorImage := BindingExecutorImage binding; BRunnerProtocolVersion := BindingProtocolVersion binding |}.
Definition plan_spec (m : PtahMigration) (history : MigrationHistoryStatus) (b : Binding) (source : option PlanSourceBinding)
    (planned : list PlannedMigration) (fingerprint : string) (createdAt : Z) : PtahMigrationPlanSpec :=
  let '(controllerImage, controllerRevision, runnerImage) := Identity r in
  {| PlanContractVersion := BContractVersion b; PlanMigrationRef := (MName m, MUID m); PlanFingerprint_ := fingerprint;
     PlanMigrations := planned; PlanHistoryFingerprint := BHistoryFingerprint b; PlanCurrentVersion := HistoryCurrentVersion history;
     PlanArtifactDigest := BArtifactDigest b; PlanSource_ := source; PlanCoordinationDigest := BCoordinationDigest b;
     PlanTargetIdentityDigest := BTargetIdentityDigest b; PlanPolicyFingerprint := BPolicyFingerprint b;
     PlanVerificationPolicyUID := BVerificationPolicyUID b; PlanVerificationPolicyDigest := BVerificationPolicyDigest b;
     PlanExecutionBindingID := BExecutionBindingID b; PlanControllerImage := controllerImage; PlanControllerRevision := controllerRevision;
     PlanControllerStateVersion := BControllerStateVersion b; PlanPtahVersion := BPtahVersion b; PlanExecutorImage := BExecutorImage b;
     PlanRunnerImage := runnerImage; PlanRunnerProtocolVersion := BRunnerProtocolVersion b; PlanCreatedAt := createdAt |}.

(** The object that is stored under the plan's deterministic name. *)
Definition store_plan (m : PtahMigration) (fingerprint : string) (spec : PtahMigrationPlanSpec) : M (result ctl_error Plan) :=
  match Desired PlanFingerprint_
          (Some {| MigrationNamespace := MNamespace m; MigrationName := MName m; MigrationUID := MUID m |}) spec with
  | None => ret (Err (ErrText "the plan has no name"))
  | Some desired =>
      created <~ ask (CreatePlan desired);
      match created with
      | Ok plan => ret (Ok plan)
      | Err e =>
          if negb (IsAlreadyExists e) then ret (Err (ErrAPI e)) else
          read <~ ask (GetPlan (PlanName desired));
          ret match read with
              | Err e => Err (ErrAPI e)
              | Ok existing =>
                  guard (bool_decide (PlanFingerprint_ (PlanSpec_ existing) = fingerprint) &&
                         bool_decide ((PlanMigrationRef (PlanSpec_ existing)).2 = MUID m))
                    else ErrText "a different plan already holds this plan's deterministic name";
                  Ok existing
              end
      end
  end.

Definition publishMigrationPlan (report : MigrationStatusReport) : M (option ctl_error) :=
  m <~ get;
  match MExecutionBinding (Status_ m), History (Status_ m), MArtifact (Status_ m) with
  | Some binding, Some history, Some artifact =>
      match Sequence report with
      | Err _ => ret (Some (ErrText "select the pending sequence"))
      | Ok planned =>
          match SequenceDigest planned with
          | Err _ => ret (Some (ErrText "digest the pending sequence"))
          | Ok sequenceDigest =>
              let source := MigrationPlanSource (Some artifact) (MConfigMap (Status_ m)) (MSourcePolicy (Status_ m)) in
              policy <~ match source.2 with
                        | Some _ => ret (Ok (EmptyString, EmptyString))
                        | None => lift (ConfigMapBinding GetConfigMap (MNamespace m) (VerificationPolicyFrom (Artifact (Spec m))))
                        end;
              match policy, Fingerprint.Digest (MNamespace m) (Target (Spec m)) with
              | Err _, _ => ret (Some (ErrText "read the verification policy"))
              | Ok _, Err _ => ret (Some (ErrText "derive coordination digest"))
              | Ok policy, Ok coordinationDigest =>
                  let b := plan_binding m binding history source sequenceDigest coordinationDigest policy in
                  match BFingerprint b with
                  | Err _ => ret (Some (ErrText "derive the plan fingerprint"))
                  | Ok fingerprint =>
                      t <~ now;
                      stored <~ store_plan m fingerprint (plan_spec m history b source.2 planned fingerprint t);
                      match stored with
                      | Err e => ret (Some e)
                      | Ok plan =>
                          status (fun s => applyMigrationPolicyPhase m (s <| MPlan := Some (MetaName (PlanMeta plan), MetaUID (PlanMeta plan)) |>)) ;~
                          ret None
                      end
                  end
              end
          end
      end
  | _, _, _ => ret (Some (ErrText "a plan needs a resolved artifact, a read history, and an execution binding"))
  end.

(** ** The results of the read-only operations *)

Definition MigrationArtifactType : string := "application/vnd.stokaro.ptah.migrations.v1".

(** How a result is consumed: the status it leads to, a retry with the
    failure, or an error that ends the pass. *)
Inductive consumption : Type :=
| Consume (f : PtahMigrationStatus -> PtahMigrationStatus) (report : option MigrationStatusReport)
| RetryWith (e : ctl_error)
| StopWith (e : ctl_error).

Definition resolved_git (git : GitSourceSpec) (revision : GitSourceRevision) (policy : option (string * string)) (s : PtahMigrationStatus) :
    PtahMigrationStatus :=
  setMigrationCondition "Progressing" "True" "CommitResolved" (endMigrationRefusal "CommitResolved"
    (removeMigrationCondition "ArtifactVerified"
      (phase "Reading"
        (s <| MArtifact := Some {| ResolvedReference := EmptyString; AccessDigest := EmptyString; RegistryAuthFrom := None;
                                   PlainHTTP := false; CAFrom := None; Snapshot := None; Git := Some (GitAccess git revision) |} |>
           <| MConfigMap := None |> <| MSourcePolicy := policy |>)))).

Definition resolved_oci (m : PtahMigration) (result : RunnerResult) (s : PtahMigrationStatus) : PtahMigrationStatus :=
  let moved := match MArtifact s with Some artifact => negb (bool_decide (AccessDigest artifact = ResResolvedDigest result)) | None => false end in
  let artifact := Artifact (Spec m) in
  let s := setMigrationCondition "ArtifactVerified" "Unknown" "DigestPinned"
             (phase "Verifying"
               (s <| MArtifact := Some {| ResolvedReference := ResResolvedReference result; AccessDigest := ResResolvedDigest result;
                                          RegistryAuthFrom := ArtifactRegistryAuth artifact; PlainHTTP := ArtifactPlainHTTP artifact;
                                          CAFrom := ArtifactCAFrom artifact; Snapshot := None; Git := None |} |>
                  <| MConfigMap := None |> <| MSourcePolicy := None |>)) in
  if moved then endMigrationRefusal "DigestPinned" s else s.

Definition verified (s : PtahMigrationStatus) : PtahMigrationStatus :=
  endMigrationRefusal "PolicySatisfied" (setMigrationCondition "ArtifactVerified" "True" "PolicySatisfied" (phase "Reading" s)).

Definition consume_resolve (result : RunnerResult) : M consumption :=
  m <~ get;
  match ArtifactGit (Artifact (Spec m)) with
  | Some git =>
      revision <~ ask (GitResolution m result);
      match revision with
      | Err e => ret (RetryWith e)
      | Ok revision =>
          checked <~ ask (CheckGitSource m (Some result));
          ret match checked with
              | Err (ErrSourceRefused what) => RetryWith (ErrSourceRefused what)
              | Err e => StopWith e
              | Ok policy => Consume (resolved_git git revision policy) None
              end
      end
  | None =>
      if negb (is_sha256_digest (ResResolvedDigest result)) || empty (ResResolvedReference result)
      then ret (RetryWith (ErrText "the resolve result carries no immutable reference")) else
      parsed <~ ask (ParsesAsOCI (ResResolvedReference result));
      if negb parsed then ret (RetryWith (ErrText "the resolved reference is not a credential-free OCI reference"))
      else ret (Consume (resolved_oci m result) None)
  end.

Definition consume_history (result : RunnerResult) : M consumption :=
  match ResMigrationHistory result with
  | None => ret (RetryWith (ErrText "the history result carries no status document"))
  | Some report =>
      if negb (is_sha256_digest (ResTargetIdentityDigest result))
      then ret (RetryWith (ErrText "the history result carries no target identity")) else
      t <~ now;
      m <~ get;
      match recordMigrationHistory report (ResTargetIdentityDigest result) t (Status_ m) with
      | Err e => ret (RetryWith e)
      | Ok s =>
          let s := setMigrationTargetOpened (recordMigrationRunVerification s) in
          if bool_decide (MPhase s = "Planning") then ret (Consume (fun _ => s) (Some report))
          else ret (Consume (fun _ => endMigrationApprovalRequirement (s <| MPlan := None |>)) None)
      end
  end.

Definition consume_operation (operation : MigrationOperationStatus) (result : RunnerResult) : M consumption :=
  if bool_decide (OpType operation = "Resolve") then consume_resolve result
  else if bool_decide (OpType operation = "Verify") then
    if negb (bool_decide (ResArtifactType result = MigrationArtifactType))
    then ret (RetryWith (ErrText "the verified artifact is not a migration artifact"))
    else ret (Consume verified None)
  else if bool_decide (OpType operation = "History") then consume_history result
  else ret (RetryWith (ErrText "unsupported migration operation")).

(** The next reading, by the phase a result led to. *)
Definition consumed_deadline (m : PtahMigration) (t : Z) (s : PtahMigrationStatus) : PtahMigrationStatus :=
  let period := migrationInterval (Interval (Spec m)) in
  s <| NextReconciliationTime :=
    if bool_decide (MPhase s = "Verifying") || bool_decide (MPhase s = "Reading") then handoffDeadline (NextReconciliationTime s) t
    else if bool_decide (MPhase s = "InSync") || bool_decide (MPhase s = "Blocked")
    then Some (cycleDeadline (NextReconciliationTime s) t period)
    else Some (t + period) |>.

(** The plan that follows a reading that left work to do. *)
Definition publish_pending (report : option MigrationStatusReport) : M answer :=
  match report with
  | None => ret (after_ statusPatchRequeue)
  | Some report =>
      planned <~ get;
      err <~ publishMigrationPlan report;
      match err with
      | Some e => migrationOperationFailure r e
      | None =>
          m <~ get;
          err <~ markMigrationApprovalsStale (MPlan (Status_ m));
          match err with
          | Some e => ret (failed e)
          | None =>
              err <~ patchMigrationStatus r planned;
              match err with
              | Some e => ret (failed e)
              | None => ret (after_ statusPatchRequeue)
              end
          end
      end
  end.

Definition consumeMigrationResult (job : Job) (result : RunnerResult) : M answer :=
  before <~ get;
  match ActiveOperation (Status_ before) with
  | None => ret done_
  | Some operation =>
      consumed <~ consume_operation operation result;
      match consumed with
      | RetryWith e => retryMigrationOperation r (Some job) e
      | StopWith e => ret (failed e)
      | Consume f report =>
          t <~ now;
          status (fun s => consumed_deadline before t (f s)) ;~
          err <~ markJobHarvested job;
          match err with
          | Some e => ret (failed e)
          | None =>
              m <~ get;
              err <~ (if bool_decide (OpType operation = "History") && negb (bool_decide (MPhase (Status_ m) = "Planning"))
                      then markMigrationApprovalsStale None else ret None);
              match err with
              | Some e => ret (failed e)
              | None =>
                  err <~ retireMigrationClaim r before DispositionAccounted false;
                  match err with
                  | Some e => ret (failed e)
                  | None =>
                      m <~ get;
                      (if bool_decide (OpType operation = "Resolve") then ask (RetireSnapshots m) else ret tt) ;~
                      publish_pending report
                  end
              end
          end
      end
  end.

(** A verification the policy refused. *)
Definition refuseMigrationArtifact (job : Job) (result : RunnerResult) : M answer :=
  m <~ get;
  policy <~ lift (ConfigMapBinding GetConfigMap (MNamespace m) (VerificationPolicyFrom (Artifact (Spec m))));
  holds <~ match policy, MArtifact (Status_ m) with
           | Ok binding, Some artifact => ask (VerificationRefusalHolds result (AccessDigest artifact) binding.2)
           | _, _ => ret false
           end;
  if negb holds then retryMigrationOperation r (Some job) (ErrText "the refusal is not of this artifact under this policy") else
  err <~ markJobHarvested job;
  match err with
  | Some e => ret (failed e)
  | None =>
      err <~ markMigrationApprovalsStale None;
      match err with
      | Some e => ret (failed e)
      | None =>
          before <~ get;
          t <~ now;
          let next := cycleDeadline (NextReconciliationTime (Status_ before)) t (migrationInterval (Interval (Spec before))) in
          status (fun s =>
            setMigrationCondition "ApprovalRequired" "False" "PolicyRefused"
              (setMigrationCondition "Progressing" "False" "PolicyRefused" (setMigrationCondition "Ready" "False" "PolicyRefused"
                (setMigrationCondition "Blocked" "True" "PolicyRefused" (setMigrationCondition "ArtifactVerified" "False" "PolicyRefused"
                  (phase "Blocked" (observed before (next_at next (s <| MPlan := None |>))))))))) ;~
          err <~ retireMigrationClaim r before DispositionAccounted false;
          match err with
          | Some e => ret (failed e)
          | None => ret (after_ statusPatchRequeue)
          end
      end
  end.
End Results.
