(* ===== verification/MigrationDispatch.v ===== *)
(** * Dispatching a migration operation (internal/controller:
    migration_dispatch.go, migration_failed_read.go, read_request.go)

    [migrationDispatch] answers the calls of the dispatch driver: it is the
    [Family] of the PtahMigration controller, and [dispatch] is the driver run
    over it. *)
From stdpp Require Import base list gmap strings.
From Stdlib Require Import ZArith Lia Ascii.
From S2P Require Import Prelude Effects GoStrings Json Fingerprint TargetLock MutationLifecycle PlanStore KubeMeta.
From S2P Require Import SourceContent SourceSnapshot SourceBinding SourcePolicy MigrationStatus MigrationPlan.
From S2P Require Import ResultRetention ApprovalAdmission Cadence RealmCensus DispatchDriver MigrationTypes.
From S2P Require Import MigrationClaims MigrationApply MigrationRuns MigrationResults.
Local Open Scope go_scope.
Local Open Scope ctl_scope.
Local Open Scope Z_scope.

(** ** Read requests *)

Definition ReadRequestAnnotation : string := "operator.ptah.run/read-requested-at".
Definition MaxReadRequestLength : Z := 64.
Definition ReadRequestToken (value : string) : string := if len value <=? MaxReadRequestLength then value else DigestBytes (bytes value).

Record readRequest : Type := { token : string; pending_ : bool; instant : bool }.
Definition noRequest : readRequest := {| token := EmptyString; pending_ := false; instant := false |}.
Definition unreadable (request : readRequest) : bool := pending_ request && negb (instant request).

Record readOnRequest : Type := { answer_ : bool; schedule : bool }.
Definition migrationReadOnRequest (phase : string) (nextRead : bool) : readOnRequest :=
  if bool_decide (phase ∈ ["Verifying"; "Reading"; "VerifyingHistory"]) then {| answer_ := false; schedule := false |}
  else if bool_decide (phase ∈ ["InSync"; "Blocked"; "AwaitingApproval"; "Planning"]) then {| answer_ := true; schedule := true |}
  else if bool_decide (phase = "Failed") then {| answer_ := nextRead; schedule := false |}
  else {| answer_ := true; schedule := false |}.

Section Dispatch.
Context (r : Manager).

Definition readRequestOf (annotations : gmap string string) (answered : string) : readRequest :=
  match annotations !! ReadRequestAnnotation with
  | None => noRequest
  | Some value =>
      let token := ReadRequestToken value in
      if bool_decide (token = answered) then {| token := token; pending_ := false; instant := false |}
      else {| token := token; pending_ := true; instant := ParsesTime r value |}
  end.

Definition answerMigrationReadRequest (request : readRequest) (schedule : bool) : M answer :=
  before <~ get;
  next <~ (if instant request && schedule then t <~ now; ret (Some t) else ret (NextReconciliationTime (Status_ before)));
  status (fun s => s <| LastReadRequest := token request |> <| NextReconciliationTime := next |>) ;~
  err <~ patchMigrationStatus r before;
  match err with
  | Some e => ret (failed e)
  | None => ret (after_ statusPatchRequeue)
  end.

(** ** A failed read *)

Definition unreadableRequestOfFailedMigrationRead (m : PtahMigration) : option readRequest :=
  match ActiveOperation (Status_ m) with
  | None => None
  | Some operation =>
      if mutating (Some operation) || bool_decide (RetryNotBefore operation = None) then None else
      let request := readRequestOf (MAnnotations m) (LastReadRequest (Status_ m)) in
      if unreadable request then Some request else None
  end.

(** Whether the failed read gives way to a new Resolve. *)
Definition failedMigrationReadGivesWay : M (result ctl_error bool) :=
  m <~ get;
  match ActiveOperation (Status_ m) with
  | None => ret (Ok false)
  | Some operation =>
      if mutating (Some operation) || bool_decide (RetryNotBefore operation = None) || negb (empty (OpJobUID operation)) then ret (Ok false) else
      let resolving := bool_decide (OpType operation = "Resolve") in
      moved <~ (if resolving then ret (Ok false) else
                moved <~ ask (ConfigMapSourceMoved m);
                match moved with
                | Ok false => ask (SourcePolicyMoved m)
                | answer => ret answer
                end);
      match moved with
      | Err e => ret (Err e)
      | Ok true => ret (Ok true)
      | Ok false =>
          t <~ now;
          let request := readRequestOf (MAnnotations m) (LastReadRequest (Status_ m)) in
          ret (Ok (due (RetryNotBefore operation) t &&
                   ((pending_ request && instant request) ||
                    (negb resolving && bool_decide (ArtifactConfigMap (Artifact (Spec m)) = None) && due (NextReconciliationTime (Status_ m)) t))))
      end
  end.

Definition giveWayMigrationToResolve : M answer := discardMigrationOperation r (ErrText "the failed read gave way").

(** ** The family *)

Definition proceed : @Outcome ctl_error := {| stop := false; out_result := noResult; out_err := None |}.
Definition stopped (a : answer) : @Outcome ctl_error := {| stop := true; out_result := a.1; out_err := a.2 |}.
Definition stops (p : M answer) : M (@Outcome ctl_error) := a <~ p; ret (stopped a).

Definition family_claim (m : PtahMigration) : @DispatchDriver.Claim PodAdmissionSnapshot :=
  match ActiveOperation (Status_ m) with
  | None => {| ClaimType := EmptyString; Mutating := false; HoldsLock := false;
               Dispatch_ := {| DispatchStarted := false; JobUID := EmptyString |}; ClaimSnapshot := None; SnapshotRefreshed := false |}
  | Some operation =>
      {| ClaimType := OpType operation; Mutating := mutating (Some operation); HoldsLock := holdsLock (Some operation);
         Dispatch_ := {| DispatchStarted := OpDispatchStarted operation; JobUID := OpJobUID operation |};
         ClaimSnapshot := AdmissionSnapshot operation; SnapshotRefreshed := AdmissionSnapshotRefreshed operation |}
  end.

(** A method that works on the claim; the driver calls it while one stands. *)
Definition on_operation {A} (none : A) (f : MigrationOperationStatus -> M A) : M A :=
  m <~ get;
  match ActiveOperation (Status_ m) with None => ret none | Some operation => f operation end.

Definition authorize_inputs (operation : MigrationOperationStatus) : M (@Outcome ctl_error) :=
  m <~ get;
  current <~ ask (InputFingerprintOf m (OpType operation));
  let changed := negb (MGeneration m =? ObservedGeneration (Status_ m)) ||
                 match current with Ok current => negb (bool_decide (current = InputFingerprint operation)) | Err _ => false end in
  t <~ now;
  if negb changed && negb (due (RetryNotBefore operation) t) then
    t <~ now; ret (stopped (after_ (requeueAtDeadline (RetryNotBefore operation) t)))
  else
    match changed, current with
    | false, Ok _ =>
        if bool_decide (OpType operation = "Apply") then
          bound <~ claimedApplyPolicyStillBinds r operation;
          match bound with
          | Some e => stops (discardMigrationOperation r e)
          | None => ret proceed
          end
        else ret proceed
    | _, Err e => stops (discardMigrationOperation r e)
    | true, Ok _ => stops (discardMigrationOperation r (ErrText "the operation inputs changed after the claim"))
    end.

Definition Authorize : M (@Outcome ctl_error) :=
  on_operation proceed (fun operation =>
    m <~ get;
    if Suspend (Spec m) then stops (discardMigrationOperation r (ErrText "reconciliation was suspended before dispatch")) else
    match unreadableRequestOfFailedMigrationRead m with
    | Some request => stops (answerMigrationReadRequest request false)
    | None =>
        way <~ failedMigrationReadGivesWay;
        match way with
        | Err e => ret (stopped (failed e))
        | Ok true => stops giveWayMigrationToResolve
        | Ok false => authorize_inputs operation
        end
    end).

Definition AcquireLease : M (@Outcome ctl_error) :=
  waited <~ waitForMigrationApplyLock r;
  let '(acquired, requeue, err) := waited in
  ret match err with
      | Some e => stopped (failed e)
      | None => if negb acquired then stopped (after_ requeue) else proceed
      end.

Definition no_job : Job :=
  {| JobMeta := new_meta EmptyString EmptyString ∅ []; JobComplete := false; JobFailed := false; JobDurable := false;
     JobDispatcher := None; JobTemplate := EmptyString |}.

Definition migrationPlanForJob (operation : MigrationOperationStatus) : M (result ctl_error (option Plan)) :=
  if negb (bool_decide (OpType operation = "Apply")) then ret (Ok None) else
  match OpPlanRef operation with
  | None => ret (Err (ErrText "the Apply claim names no immutable plan"))
  | Some (name, uid) =>
      if empty name || empty uid then ret (Err (ErrText "the Apply claim names no immutable plan")) else
      read <~ ask (GetPlan name);
      ret match read with
          | Err e => Err (ErrAPI e)
          | Ok plan => guard (stands (PlanMeta plan) uid) else ErrText "the Apply plan was replaced or is being deleted"; Ok (Some plan)
          end
  end.

Definition Build : M (Job * @Outcome ctl_error) :=
  on_operation (no_job, proceed) (fun operation =>
    m <~ get;
    if negb (empty (OpJobUID operation)) then
      stopped_ <~ podsStopped (JobName operation) (OpJobUID operation);
      match stopped_ with
      | Err e => ret (no_job, stopped (failed e))
      | Ok false => ret (no_job, stopped (after_ maxLockContentionPoll))
      | Ok true => o <~ stops (retryMigrationOperation r None (ErrText "the Job with the persisted UID is missing")); ret (no_job, o)
      end
    else
      plan <~ migrationPlanForJob operation;
      match plan with
      | Err e => o <~ stops (discardMigrationOperation r e); ret (no_job, o)
      | Ok plan =>
          built <~ ask (BuildMigration m operation plan);
          match built with
          | Err e => o <~ stops (migrationOperationFailure r e); ret (no_job, o)
          | Ok job =>
              if bool_decide (MetaNamespace (JobMeta job) = MNamespace m) && bool_decide (MetaName (JobMeta job) = JobName operation)
              then ret (job, proceed)
              else ret (no_job, stopped (failed (ErrText "the Job builder returned an object outside the operation claim")))
          end
      end).

Definition on_claim (f : MigrationOperationStatus -> MigrationOperationStatus) (s : PtahMigrationStatus) : PtahMigrationStatus :=
  s <| ActiveOperation := f <$> ActiveOperation s |>.
(** Assign to the claim and write the status. *)
Definition write_claim (f : MigrationOperationStatus -> MigrationOperationStatus) : M (option ctl_error) :=
  before <~ get;
  status (on_claim f) ;~
  patchMigrationStatus r before.
Definition write_claim_then (f : MigrationOperationStatus -> MigrationOperationStatus) (wait : Z) : M answer :=
  err <~ write_claim f;
  ret match err with Some e => failed e | None => after_ wait end.

Definition Consume_ : M (@Outcome ctl_error) :=
  on_operation proceed (fun operation =>
    spent <~ consumeMigrationApproval (ApprovalRef operation);
    match spent with
    | Withdrawn => stops (discardMigrationOperation r (ErrText "the approval this Apply was claimed under was deleted or replaced before dispatch"))
    | ConsumeFailed e => ret (stopped (failed e))
    | Consumed_ => ret proceed
    end).

Definition Mark : M (option ctl_error) := write_claim (fun o => o <| OpDispatchStarted := true |>).
Definition Withdraw : M (option ctl_error) := write_claim (fun o => o <| OpDispatchStarted := false |>).

Definition Create (job : Job) : M (Job * option ctl_error) :=
  on_operation (job, None) (fun operation => created <~ ask (CreateJob operation job); ret (created.1, ErrAPI <$> created.2)).

Definition Confirm (job : Job) : M (result ctl_error Job) :=
  read <~ ask (GetJob (MetaName (JobMeta job)));
  ret match read with Err e => Err (ErrAPI e) | Ok job => Ok job end.

Definition migrationDispatch (X : Type) (e : @famE Job string PodAdmissionSnapshot ctl_error X) : M X :=
  match e in famE X return M X with
  | FClaim => m <~ get; ret (family_claim m)
  | FCtxErr => ask ContextErr
  | FAuthorize _ => Authorize
  | FAcquireLease _ => AcquireLease
  | FStage _ => ret proceed
  | FBuild _ => Build
  | FResolve _ template => ask (ResolveSnapshot template)
  | FValidate snapshot => ask (ValidateSnapshot snapshot)
  | FDigest template => ask (DigestTemplate template)
  | FSaveSnapshot _ snapshot => write_claim_then (fun o => o <| AdmissionSnapshot := Some snapshot |>) statusPatchRequeue
  | FRefreshSnapshot _ => write_claim_then (fun o => o <| AdmissionSnapshot := None |> <| AdmissionSnapshotRefreshed := true |>) statusPatchRequeue
  | FRefuse _ _ why => migrationOperationFailure r (ErrText "the admission snapshot was refused")
  | FConsume _ => Consume_
  | FMark _ => Mark
  | FWithdraw _ => Withdraw
  | FCreate _ job => Create job
  | FConfirm _ job => Confirm job
  | FIntent actual expected => m <~ get; ask (MatchJob m actual (Some expected) false)
  | FRecord _ job => write_claim_then (fun o => o <| OpJobUID := MetaUID (JobMeta job) |>) (2 * Second)
  | FUnaccounted _ job why => finishUncertainMigrationApply r job (ErrText "the dispatched Job is not accounted for") EmptyString
  | FRetry _ why => retryMigrationOperation r None (ErrText "the dispatched Job is not the claim's")
  end.

Definition ctl_exists (e : ctl_error) : bool := match e with ErrAPI e => IsAlreadyExists e | _ => false end.
Definition ctl_status (e : ctl_error) : option MutationLifecycle.Status := match e with ErrAPI e => asAPIStatus e | _ => None end.

Definition dispatch : M answer :=
  answered <~ interp migrationDispatch (Dispatch JobTemplate AdmissionTemplateDigest ctl_exists ctl_status []);
  ret (answered.1, match answered.2 with Some (FamilyError e) => Some e | Some _ => Some ErrDispatch | None => None end).
End Dispatch.
