(* ===== verification/MigrationReconcile.v ===== *)
(** * The migration controller's pass (internal/controller/migration_controller.go,
    migration_unresolved_run.go, migration_source_configmap.go)

    [reconcile] is one pass over one PtahMigration. *)
From stdpp Require Import base list gmap strings.
From Stdlib Require Import ZArith Lia Ascii.
From S2P Require Import Prelude Effects GoStrings Json Fingerprint TargetLock MutationLifecycle PlanStore KubeMeta.
From S2P Require Import SourceContent SourceSnapshot SourceBinding SourcePolicy MigrationStatus MigrationPlan.
From S2P Require Import ResultRetention ApprovalAdmission Cadence RealmCensus DispatchDriver MigrationTypes.
From S2P Require Import MigrationClaims MigrationApply MigrationRuns MigrationResults MigrationDispatch.
Local Open Scope go_scope.
Local Open Scope ctl_scope.
Local Open Scope Z_scope.

Section Reconcile.
Context (r : Manager).

(** ** The execution binding *)

Definition rejectUnsupportedStoredControllerState (m : PtahMigration) : option ctl_error :=
  match MExecutionBinding (Status_ m) with
  | None => None
  | Some binding =>
      if BindingStateVersion binding <? 0 then Some (ErrText "the stored controller state version is invalid")
      else if BindingStateVersion (Configured r) <? BindingStateVersion binding
      then Some (ErrText "the stored controller state version exceeds the supported version")
      else None
  end.

Definition executionBindingComponentsEqual (left right : ExecutionBindingStatus) : bool :=
  (BindingStateVersion left =? BindingStateVersion right) && bool_decide (BindingPtahVersion left = BindingPtahVersion right) &&
  bool_decide (BindingExecutorImage left = BindingExecutorImage right) && (BindingProtocolVersion left =? BindingProtocolVersion right).

Definition newExecutionBinding (configured : ExecutionBindingStatus) : M ExecutionBindingStatus :=
  nonce <~ ask Entropy;
  ret {| BindingEpoch := "v1-" +:+ nonce; BindingStateVersion := BindingStateVersion configured; BindingPtahVersion := BindingPtahVersion configured;
         BindingExecutorImage := BindingExecutorImage configured; BindingProtocolVersion := BindingProtocolVersion configured |}.

Definition applyUncertainUnderBindingChange (operation : MigrationOperationStatus) : M answer :=
  job <~ (if empty (OpJobUID operation) then ret (Ok None) else
          read <~ ask (GetJob (JobName operation));
          ret match read with
              | Ok candidate => Ok (if bool_decide (MetaUID (JobMeta candidate) = OpJobUID operation) then Some candidate else None)
              | Err e => if IsNotFound e then Ok None else Err (ErrAPI e)
              end);
  match job with
  | Err e => ret (failed e)
  | Ok job => finishUncertainMigrationApply r job (ErrText "an execution component changed while the Apply was dispatched") EmptyString
  end.

(** [None] lets the pass go on. *)
Definition reconcileMigrationExecutionBinding : M (option answer) :=
  m <~ get;
  let current := MExecutionBinding (Status_ m) in
  if match current with Some current => executionBindingComponentsEqual current (Configured r) | None => false end then ret None else
  binding <~ newExecutionBinding (Configured r);
  match ActiveOperation (Status_ m) with
  | Some operation =>
      if mutating (Some operation) && migrationMayHaveDispatched (Some operation)
      then a <~ applyUncertainUnderBindingChange operation; ret (Some a)
      else
        before <~ get;
        status (fun s =>
          let s := s <| MExecutionBinding := Some binding |> in
          let s := if bool_decide (is_Some current) then setMigrationCondition "DatabaseReachable" "Unknown" "ExecutionBindingChanged" s else s in
          setMigrationCondition "Progressing" "False" "ExecutionBindingChanged" (phase "Pending" s)) ;~
        err <~ retireMigrationClaim r before DispositionDiscard false;
        ret (Some match err with Some e => failed e | None => after_ statusPatchRequeue end)
  | None =>
      before <~ get;
      status (fun s =>
        let s := s <| MExecutionBinding := Some binding |> in
        if bool_decide (is_Some current) then setMigrationCondition "DatabaseReachable" "Unknown" "ExecutionBindingChanged" s else s) ;~
      err <~ patchMigrationStatus r before;
      ret (Some match err with Some e => failed e | None => after_ statusPatchRequeue end)
  end.

(** ** Deletion *)

Definition dispatchedMigrationApplyJob (operation : MigrationOperationStatus) : M (result ctl_error (option Job)) :=
  read <~ ask (GetJob (JobName operation));
  ret match read with
      | Err e => if IsNotFound e then Ok None else Err (ErrAPI e)
      | Ok job =>
          if negb (empty (OpJobUID operation)) && negb (bool_decide (MetaUID (JobMeta job) = OpJobUID operation)) then Ok None else Ok (Some job)
      end.

Definition discard_claim : M (option ctl_error) :=
  before <~ get;
  retireMigrationClaim r before DispositionDiscard false.

Definition release_finalizer : M answer := err <~ removeMigrationFinalizer; ret (ended err).

(** A deleted Apply: [Some] answers the pass, [None] retires the claim. *)
Definition delete_apply (operation : MigrationOperationStatus) : M (option answer) :=
  read <~ dispatchedMigrationApplyJob operation;
  match read with
  | Err e => ret (Some (failed e))
  | Ok job =>
      writing <~ dispatchedApplyMayStillWrite operation job;
      if writing : bool then
        renewed <~ acquireMigrationApplyLock r;
        ret (Some match renewed.2 with Some e => failed e | None => after_ (5 * Second) end)
      else if migrationMayHaveDispatched (Some operation) || bool_decide (is_Some job) then
        a <~ retireUncertainMigrationApply r job (ErrText "the PtahMigration was deleted while a dispatched Apply was in flight") EmptyString false;
        ret (Some match a.2 with Some e => failed e | None => after_ Second end)
      else ret None
  end.

Definition reconcileMigrationDeletion : M answer :=
  m <~ get;
  match ActiveOperation (Status_ m) with
  | None => release_finalizer
  | Some operation =>
      decided <~ (if mutating (Some operation) then delete_apply operation else ret None);
      match decided with
      | Some a => ret a
      | None =>
          err <~ discard_claim;
          match err with
          | Some e => ret (failed e)
          | None => release_finalizer
          end
      end
  end.

(** ** The copy of an unresolved run *)

(** [Some] ends the pass: it wrote the status, or failed. *)
Definition reconcileUnresolvedRunCopy : M (option answer) :=
  m <~ get;
  let copy value := err <~ setUnresolvedRunCopy value; ret (failed <$> err) in
  match UnresolvedRun (Status_ m), MAnnotations m !! UnresolvedRunAnnotation with
  | Some record, _ =>
      if unresolvedRunCopyMatches r m record then ret None else copy (Some (encodeUnresolvedRunCopy record))
  | None, None => ret None
  | None, Some value =>
      match decodeUnresolvedRunCopy r value with
      | None =>
          a <~ migrationBlocked r "ApplyOutcomeUnknown";
          ret (Some match a.2 with Some e => failed e | None => after_ statusPatchRequeue end)
      | Some stored =>
          if match ResolvedRun (Status_ m) with Some run => bool_decide (ResolvedOperationID run = RunOperationID stored) | None => false end
          then copy None
          else if match ActiveOperation (Status_ m) with Some operation => bool_decide (OpID operation = RunOperationID stored) | None => false end
          then ret None
          else
            before <~ get;
            status (fun s => blocked_by "ApplyOutcomeUnknown" (s <| UnresolvedRun := Some stored |> <| MPlan := None |>)) ;~
            err <~ patchMigrationStatus r before;
            ret (Some match err with Some e => failed e | None => after_ statusPatchRequeue end)
      end
  end.

(** ** Acknowledgments *)

Definition acknowledgmentJudged (a : Acknowledgment) : bool := AckConsumed a || AckStale a.
Definition acknowledgmentStamped (a : Acknowledgment) : bool :=
  negb (blank (IdUsername (AcknowledgedBy (AckSpec a)))) && negb (blank (AckMutationRequestUID (AckSpec a))) &&
  bool_decide (is_Some (AcknowledgedAt (AckSpec a))).

Definition judgeAcknowledgment (a : Acknowledgment) (consumed : bool) : M (option ctl_error) :=
  err <~ ask (PatchAcknowledgment a consumed);
  ret (ErrAPI <$> err).

(** [sort.SliceStable] by creation. *)
Fixpoint insert_ack (a : Acknowledgment) (items : list Acknowledgment) : list Acknowledgment :=
  match items with
  | [] => [a]
  | b :: rest => if created_at (AckMeta a) <? created_at (AckMeta b) then a :: items else b :: insert_ack a rest
  end.
Definition sort_acks (items : list Acknowledgment) : list Acknowledgment := fold_left (fun sorted a => insert_ack a sorted) items [].

(** An acknowledgment that settles the recorded run. *)
Definition settles (s : PtahMigrationStatus) (a : Acknowledgment) : bool :=
  match UnresolvedRun s with
  | None => false
  | Some run => acknowledgmentStamped a && bool_decide (AckOperationID (AckSpec a) = RunOperationID run)
  end.
Definition settled_by (s : PtahMigrationStatus) (a : Acknowledgment) : bool :=
  match ResolvedRun s with
  | None => false
  | Some run => match AcknowledgmentRef run with Some reference => bool_decide (reference.2 = MetaUID (AckMeta a)) | None => false end
  end.

(** The first acknowledgment that settles the run, once the others are
    answered. *)
Fixpoint judge_acks (m : PtahMigration) (items : list Acknowledgment) (candidate : option Acknowledgment) :
    M (result ctl_error (option Acknowledgment)) :=
  match items with
  | [] => ret (Ok candidate)
  | a :: rest =>
      if negb (bool_decide ((AckMigrationRef (AckSpec a)).2 = MUID m)) || negb (bool_decide (DeletionTimestamp (AckMeta a) = None)) ||
         acknowledgmentJudged a
      then judge_acks m rest candidate
      else if settles (Status_ m) a then judge_acks m rest (match candidate with None => Some a | Some c => Some c end)
      else
        err <~ judgeAcknowledgment a (settled_by (Status_ m) a);
        match err with
        | Some e => ret (Err e)
        | None => judge_acks m rest candidate
        end
  end.

Definition settleUnresolvedRunByAcknowledgment (candidate : Acknowledgment) : M (option ctl_error) :=
  read <~ ask (GetAcknowledgment (MetaName (AckMeta candidate)));
  match read with
  | Err e => ret (if IsNotFound e then None else Some (ErrAPI e))
  | Ok a =>
      m <~ get;
      match UnresolvedRun (Status_ m) with
      | None => ret None
      | Some run =>
          if negb (bool_decide (MetaUID (AckMeta a) = MetaUID (AckMeta candidate))) || negb (bool_decide (DeletionTimestamp (AckMeta a) = None)) ||
             negb (bool_decide (AckSpec a = AckSpec candidate)) || acknowledgmentJudged a
          then ret None
          else
            t <~ now;
            status (fun s =>
              setMigrationCondition "Blocked" "False" "RunAcknowledged"
                (next_at t (s <| UnresolvedRun := None |>
                  <| ResolvedRun := Some {| ResolvedOperationID := RunOperationID run; ResolvedOutcome := RunOutcome run;
                                            Resolution := "Acknowledged"; AcknowledgmentRef := Some (MetaName (AckMeta a), MetaUID (AckMeta a));
                                            ResolvedBy := Some (AcknowledgedBy (AckSpec a)); ResolvedAt := t |} |>))) ;~
            err <~ patchMigrationStatus r m;
            match err with
            | Some e => ret (Some e)
            | None => judgeAcknowledgment a true
            end
      end
  end.

Definition reconcileRunAcknowledgments : M (option ctl_error) :=
  listed <~ ask ListAcknowledgments;
  match listed with
  | Err e => ret (Some (ErrAPI e))
  | Ok items =>
      m <~ get;
      judged <~ judge_acks m (sort_acks items) None;
      match judged with
      | Err e => ret (Some e)
      | Ok None => ret None
      | Ok (Some candidate) => settleUnresolvedRunByAcknowledgment candidate
      end
  end.

(** ** Claiming a read *)

Definition slot : M (Z * bool) :=
  m <~ get;
  found <~ lift (hoist (@FleetCall) (refreshSlot (MUID m) (migrationInterval (Interval (Spec m)))));
  ret match found with Some slot => (slot, true) | None => (0, false) end.

Definition resolveMigrationConfigMapSource : M answer :=
  m <~ get;
  resolved <~ ask (ReadConfigMapSource m);
  match resolved with
  | Err (ErrSourceRefused what) => claimRefused r (ErrSourceRefused what)
  | Err e => ret (failed e)
  | Ok (snapshot, revision, policy) =>
      before <~ get;
      t <~ now;
      slotted <~ slot;
      status (fun s =>
        setMigrationCondition "Progressing" "True" "SnapshotTaken" (endMigrationRealmRefusal "OperationInProgress"
          (endMigrationRefusal "SnapshotTaken" (removeMigrationCondition "ArtifactVerified" (phase "Reading"
            (observed before
              (s <| MArtifact := Some {| ResolvedReference := EmptyString; AccessDigest := EmptyString; RegistryAuthFrom := None;
                                         PlainHTTP := false; CAFrom := None; Snapshot := Some snapshot; Git := None |} |>
                 <| MConfigMap := Some revision |> <| MSourcePolicy := policy |>
                 <| NextReconciliationTime := claimDeadline (NextReconciliationTime s) true false t
                                                (migrationInterval (Interval (Spec before))) slotted.1 slotted.2 |>))))))) ;~
      err <~ patchMigrationStatus r before;
      match err with
      | Some e => ret (failed e)
      | None => m <~ get; ask (RetireSnapshots m) ;~ ret (after_ statusPatchRequeue)
      end
  end.

(** The claim of a read, without its Job's name. *)
Definition read_claim (m : PtahMigration) (operationType id inputFingerprint : string) (startedAt : Z) : MigrationOperationStatus :=
  {| OpType := operationType; OpID := id; InputFingerprint := inputFingerprint; JobName := EmptyString; OpJobUID := EmptyString;
     StartedAt := startedAt; RetryNotBefore := None; Attempt := 1; ExecutionBindingID := migrationBindingEpoch m;
     OpSource := if bool_decide (operationType = "Resolve") then None else migrationSourceBinding m;
     OpTarget := None; OpCoordinationDigest := EmptyString; OpPlanRef := None; OpPlanFingerprint := EmptyString;
     OpDispatchStarted := false; DispatchNotAfter := None; ExecutionNotAfter := None; OpLeaseEpoch := EmptyString;
     OpLeaseDurationSeconds := 0; LeaseContinuityLost := false; ApprovalRef := None; ApprovedBy := None; OpApprovedAt := None;
     Actor := EmptyString; AdmissionSnapshot := None; AdmissionSnapshotRefreshed := false |}.

(** The database a History reads. *)
Definition target_claim (m : PtahMigration) (operation : MigrationOperationStatus) : result ctl_error MigrationOperationStatus :=
  if negb (bool_decide (OpType operation = "History")) then Ok operation else
  match Fingerprint.Digest (MNamespace m) (Target (Spec m)) with
  | Err _ => Err (ErrText "derive coordination digest")
  | Ok digest =>
      Ok (operation <| OpCoordinationDigest := digest |>
            <| OpTarget := Some {| TargetEngine := Engine (Target (Spec m)); TargetURLFrom := URLFrom (Spec m) |} |>)
  end.

Definition write_read_claim (operation : MigrationOperationStatus) : M answer :=
  err <~ ensureMigrationFinalizer;
  match err with
  | Some e => ret (failed e)
  | None =>
      before <~ get;
      slotted <~ slot;
      let kind := MigrationOperation (OpType operation) in
      status (fun s =>
        endMigrationRealmRefusal "OperationInProgress" (setMigrationCondition "Progressing" "True" "OperationInProgress"
          (phase (Phase kind)
            ((observed before (s <| ActiveOperation := Some operation |>))
               <| NextReconciliationTime :=
                    claimDeadline (NextReconciliationTime s) (bool_decide (OpType operation = "Resolve"))
                      (MutationLifecycle.Mutating kind) (StartedAt operation) (migrationInterval (Interval (Spec before))) slotted.1 slotted.2 |>)))) ;~
      err <~ patchMigrationStatus r before;
      match err with
      | Some e => ret (failed e)
      | None => ret (after_ statusPatchRequeue)
      end
  end.

Definition claimMigration (operationType : string) : M answer :=
  m <~ get;
  let resolving := bool_decide (operationType = "Resolve") in
  match ActiveOperation (Status_ m), MExecutionBinding (Status_ m) with
  | Some _, _ | None, None => ret (after_ statusPatchRequeue)
  | None, Some _ =>
      if resolving && bool_decide (is_Some (ArtifactConfigMap (Artifact (Spec m)))) then resolveMigrationConfigMapSource else
      checked <~ (if resolving && bool_decide (is_Some (ArtifactGit (Artifact (Spec m))))
                  then ask (CheckGitSource m None) else ret (Ok None));
      match checked with
      | Err (ErrSourceRefused what) => claimRefused r (ErrSourceRefused what)
      | Err e => ret (failed e)
      | Ok _ =>
          input <~ ask (InputFingerprintOf m operationType);
          match input with
          | Err e => claimRefused r e
          | Ok input =>
              id <~ newMigrationOperationID input;
              startedAt <~ now;
              if negb resolving && bool_decide (MArtifact (Status_ m) = None)
              then claimRefused r (ErrText "the artifact has not been resolved to a digest") else
              match target_claim m (read_claim m operationType id input startedAt) with
              | Err e => claimRefused r e
              | Ok operation =>
                  named <~ ask (NameForMigration m operation);
                  match named with
                  | Err e => claimRefused r e
                  | Ok name => write_read_claim (operation <| JobName := name |>)
                  end
              end
          end
      end
  end.

(** ** Supervising the claim *)

(** A Job that is not the claim's: [Some] ends the pass. *)
Definition not_the_claims (job : Job) (failure : ctl_error) : M (option answer) :=
  m <~ get;
  a <~ (if mutating (ActiveOperation (Status_ m)) then finishUncertainMigrationApply r (Some job) failure EmptyString
        else retryMigrationOperation r None failure);
  ret (Some a).

Definition expectedMigrationJob (operation : MigrationOperationStatus) : M (result ctl_error Job) :=
  m <~ get;
  plan <~ migrationPlanForJob operation;
  match plan with
  | Err e => ret (Err e)
  | Ok plan => ask (BuildMigration m operation plan)
  end.

Definition holdMigrationJobToItsClaim (operation : MigrationOperationStatus) (job : Job) : M (option answer) :=
  m <~ get;
  current <~ ask (InputFingerprintOf m (OpType operation));
  if match current with Ok current => negb (bool_decide (current = InputFingerprint operation)) | Err _ => true end then
    wrong <~ ask (MatchJob m job None false);
    match wrong with
    | Some e => not_the_claims job e
    | None => ret None
    end
  else
    expected <~ expectedMigrationJob operation;
    match expected with
    | Err e => not_the_claims job e
    | Ok expected =>
        wrong <~ ask (MatchJob m job (Some expected) true);
        match wrong with
        | Some e => not_the_claims job e
        | None => ret None
        end
    end.

Definition reportMigrationPodAdmission (job : Job) : M (option ctl_error) :=
  change <~ ask (JudgePodAdmission job);
  match change with
  | Err e => ret (Some e)
  | Ok None => ret None
  | Ok (Some (refused, reason)) =>
      before <~ get;
      status (fun s => if refused : bool then setMigrationCondition "Progressing" "False" reason s
                       else setMigrationCondition "Progressing" "True" "OperationInProgress" s) ;~
      patchMigrationStatus r before
  end.

Definition activeJobPollInterval (holdsLock : bool) : Z := if holdsLock then maxLockContentionPoll else 30 * Second.
Definition resultReadRetryInterval : Z := 5 * Second.

(** A Job that still runs. *)
Definition await_job (operation : MigrationOperationStatus) (job : Job) : M answer :=
  err <~ reportMigrationPodAdmission job;
  match err with
  | Some e => ret (failed e)
  | None =>
      issued <~ (if JobDurable job then ask (IssueCredential job) else ret true);
      ret (after_ (if issued : bool then activeJobPollInterval (holdsLock (Some operation)) else resultReadRetryInterval))
  end.

(** A read whose result was read. *)
Definition consume_read (operation : MigrationOperationStatus) (job : Job) (parsed : result ctl_error RunnerResult) : M answer :=
  match parsed with
  | Err parseErr =>
      boundary <~ ask (FailedInitBoundary job);
      match boundary with
      | Err e => ret (failed e)
      | Ok _ => retryMigrationOperation r (Some job) parseErr
      end
  | Ok result =>
      if negb (jobSucceeded job) then retryMigrationOperation r (Some job) (ErrText "the Job failed") else
      match ResError result with
      | Some code =>
          if bool_decide (OpType operation = "Verify") && bool_decide (code = "verification_refused")
          then refuseMigrationArtifact r job result
          else retryMigrationOperation r (Some job) (resultFailure code)
      | None =>
          if ResTruncated result then retryMigrationOperation r (Some job) (ErrText "the result was truncated")
          else consumeMigrationResult r job result
      end
  end.

Definition consume_terminal (operation : MigrationOperationStatus) (job : Job) (parsed : result ctl_error RunnerResult) : M answer :=
  waiting <~ ask (AwaitFrame job);
  match waiting with
  | Some requeue => ret (after_ requeue)
  | None =>
      refusal <~ ask (ProtocolRefusal job);
      match refusal, mutating (Some operation) with
      | Some refusal, false => retryMigrationOperationAs r (Some job) "RunnerProtocolMismatch" refusal
      | _, true =>
          match parsed with
          | Err parseErr => settleUnreadMigrationApply r job parseErr
          | Ok result => settleMigrationApply r job (frameMigrationApply result)
          end
      | None, false => consume_read operation job parsed
      end
  end.

(** A Job that ended. *)
Definition harvest (operation : MigrationOperationStatus) (job : Job) : M answer :=
  m <~ get;
  current <~ ask (InputFingerprintOf m (OpType operation));
  let stale := match current with
               | Ok current => if bool_decide (current = InputFingerprint operation) then None
                               else Some (ErrText "the operation inputs changed while the Job was running")
               | Err e => Some e
               end in
  match stale with
  | Some e =>
      if bool_decide (HarvestFailure FaultInputsChanged (mutating (Some operation)) = DispositionUnaccounted)
      then finishUncertainMigrationApply r (Some job) e EmptyString
      else
        err <~ markJobHarvested job;
        match err with
        | Some e => ret (failed e)
        | None => discardMigrationOperation r e
        end
  | None =>
      logs <~ ask (TerminalLogs job);
      match logs with
      | ReadCooling | ReadRetry => ret (after_ resultReadRetryInterval)
      | PodPending => ret (after_ (2 * Second))
      | PodFault e =>
          if bool_decide (HarvestFailure FaultPodMultiplicity (mutating (Some operation)) = DispositionUnaccounted)
          then finishUncertainMigrationApply r (Some job) e EmptyString
          else retryMigrationOperation r (Some job) e
      | ReadFailed_ e => ret (failed e)
      | Evidence parsed => consume_terminal operation job parsed
      end
  end.

(** The Job under the claim's name is the claim's. *)
Definition supervise (verdict : JobVerdict) (job : Job) : M answer :=
  m <~ get;
  match ActiveOperation (Status_ m) with
  | None => ret done_
  | Some operation =>
      held_ <~ holdMigrationJobToItsClaim operation job;
      match held_ with
      | Some a => ret a
      | None =>
          adopted <~ match verdict with
                     | VerdictAdopt =>
                         write_claim r (fun o =>
                           let o := o <| OpJobUID := MetaUID (JobMeta job) |> in
                           if mutating (Some operation) then o <| OpDispatchStarted := true |> else o)
                     | _ => ret None
                     end;
          match adopted with
          | Some e => ret (failed e)
          | None =>
              m <~ get;
              match ActiveOperation (Status_ m) with
              | None => ret done_
              | Some operation => if negb (jobTerminal job) then await_job operation job else harvest operation job
              end
          end
      end
  end.

Definition job_claim (m : PtahMigration) (operation : MigrationOperationStatus) (job : option Job) : JobClaim :=
  {| JCMutating := mutating (Some operation); JCDispatchStarted := OpDispatchStarted operation; RecordedJobUID := OpJobUID operation;
     Found := bool_decide (is_Some job); FoundJobUID := match job with Some job => MetaUID (JobMeta job) | None => EmptyString end;
     OwnedExactly := match job with
                     | Some job => exactControllerOwner (OwnerReferences (JobMeta job)) "operator.ptah.run/v1alpha1" "PtahMigration" (MName m) (MUID m)
                     | None => false
                     end |}.

(** Past the verdict, under the lock the claim holds. *)
Definition follow_verdict (verdict : JobVerdict) (job : option Job) : M answer :=
  match verdict with
  | VerdictUnaccounted => finishUncertainMigrationApply r job (ErrText "the dispatched Apply Job is not accounted for") EmptyString
  | VerdictRetry => retryMigrationOperation r job (ErrText "the active Job was replaced or is not owned by this migration")
  | _ => match job with Some job => supervise verdict job | None => ret done_ end
  end.

Definition reconcileActiveMigration : M answer :=
  m <~ get;
  match ActiveOperation (Status_ m) with
  | None => ret done_
  | Some operation =>
      if LeaseContinuityLost operation
      then finishUncertainMigrationApply r None (ErrText "the database lock epoch changed under the dispatched run") EmptyString else
      read <~ ask (GetJob (JobName operation));
      match (match read with Ok job => Ok (Some job) | Err e => if IsNotFound e then Ok None else Err e end) with
      | Err e => ret (failed (ErrAPI e))
      | Ok job =>
          if bool_decide (is_Some job) && Suspend (Spec m) && negb (mutating (Some operation))
          then discardMigrationOperation r (ErrText "reconciliation was suspended while the operation ran") else
          let verdict := (VerdictFor (job_claim m operation job)).1 in
          match verdict with
          | VerdictDispatch => dispatch r
          | _ =>
              if holdsLock (Some operation) then
                waited <~ waitForMigrationApplyLock r;
                let '(acquired, requeue, err) := waited in
                match err with
                | Some e => ret (failed e)
                | None => if negb acquired then ret (after_ requeue) else follow_verdict verdict job
                end
              else follow_verdict verdict job
          end
      end
  end.

(** ** The pass *)

Definition databaseEngineSupported (engine : string) : bool := bool_decide (engine = "PostgreSQL") || bool_decide (engine = "MySQL").

Definition migrationPublicationUnfinished (m : PtahMigration) : bool :=
  bool_decide (conditionReason "Progressing" (Status_ m) = Some "MigrationsPending").

(** What an idle migration does next. *)
Definition decide_phase (t : Z) : M answer :=
  m <~ get;
  let p := MPhase (Status_ m) in
  let isDue := due (NextReconciliationTime (Status_ m)) t in
  if bool_decide (p = "Verifying") then claimMigration "Verify"
  else if bool_decide (p = "Reading") || bool_decide (p = "VerifyingHistory") then claimMigration "History"
  else if bool_decide (p = "AwaitingApproval") then
    if isDue then claimMigration "Resolve" else reconcileMigrationApplyDecision r
  else if bool_decide (p = "Planning") then
    if isDue || migrationPublicationUnfinished m then claimMigration "Resolve" else reconcileMigrationApplyDecision r
  else if (bool_decide (p = "InSync") || bool_decide (p = "Blocked") || bool_decide (p = "Failed")) && negb isDue
  then ret (after_ (requeueAtDeadline (NextReconciliationTime (Status_ m)) t))
  else claimMigration "Resolve".

(** The sources, a read request, and then the phase. *)
Definition decide_next : M answer :=
  m <~ get;
  t <~ now;
  if negb (ObservedGeneration (Status_ m) =? MGeneration m) then claimMigration "Resolve" else
  moved <~ ask (ConfigMapSourceMoved m);
  match moved with
  | Err e => ret (failed e)
  | Ok true => claimMigration "Resolve"
  | Ok false =>
      moved <~ ask (SourcePolicyMoved m);
      match moved with
      | Err e => ret (failed e)
      | Ok true => claimMigration "Resolve"
      | Ok false =>
          let request := readRequestOf r (MAnnotations m) (LastReadRequest (Status_ m)) in
          let on := migrationReadOnRequest (MPhase (Status_ m)) (due (NextReconciliationTime (Status_ m)) t) in
          if pending_ request && (answer_ on || negb (instant request))
          then answerMigrationReadRequest r request (schedule on)
          else decide_phase t
      end
  end.

(** No claim is in flight: the engine, suspension, the realm. *)
Definition reconcile_idle : M answer :=
  m <~ get;
  if negb (databaseEngineSupported (Engine (Target (Spec m)))) then migrationBlocked r "UnsupportedEngine" else
  if Suspend (Spec m) then
    before <~ get;
    status (fun s => setMigrationCondition "Ready" "False" "Suspended" (setMigrationCondition "Progressing" "False" "Suspended"
                       (observed before (phase "Suspended" s)))) ;~
    err <~ patchMigrationStatus r before;
    ret (ended err)
  else
    census <~ lift (hoist (@CensusCall) (takeRealmCensus (MNamespace m) (Target (Spec m))));
    match census with
    | Err _ => ret (failed (ErrText "the census of the coordination realm failed"))
    | Ok verdict =>
        match refusal verdict with
        | Some reason => migrationRealmBlocked r reason
        | None => decide_next
        end
    end.

(** [directReader().Get] of the request: [inl] ends the pass. *)
Definition read_migration : M (answer + unit) :=
  read <~ ask GetMigration;
  match read with
  | Err e => ret (inl (if IsNotFound e then done_ else failed (ErrAPI e)))
  | Ok m =>
      put m ;~
      ret match rejectUnsupportedStoredControllerState m with Some e => inl (failed e) | None => inr tt end
  end.

(** A claim that is not in flight leaves its finalizer behind. *)
Definition drop_stale_finalizer : M (answer + unit) :=
  m <~ get;
  if negb (ContainsFinalizer m) then ret (inr tt) else
  err <~ removeMigrationFinalizer;
  match err with
  | Some e => ret (inl (failed e))
  | None => read_migration
  end.

Definition reconcile_binding : M answer :=
  bound <~ reconcileMigrationExecutionBinding;
  match bound with
  | Some a => ret a
  | None =>
      m <~ get;
      match ActiveOperation (Status_ m) with
      | Some _ => reconcileActiveMigration
      | None =>
          dropped <~ drop_stale_finalizer;
          match dropped with
          | inl a => ret a
          | inr _ =>
              err <~ reconcileRunAcknowledgments;
              match err with
              | Some e => ret (failed e)
              | None => reconcile_idle
              end
          end
      end
  end.

Definition unaccounted_apply (s : PtahMigrationStatus) : bool :=
  match ActiveOperation s, UnresolvedRun s with
  | Some operation, Some run => mutating (Some operation) && bool_decide (RunOperationID run = OpID operation)
  | _, _ => false
  end.

Definition reconcile_read : M answer :=
  m <~ get;
  match PendingLockRelease (Status_ m) with
  | Some _ =>
      err <~ completeMigrationPendingLockRelease r;
      ret match err with Some e => failed e | None => after_ statusPatchRequeue end
  | None =>
      if unaccounted_apply (Status_ m) then reconcileUnaccountedMigrationApply r
      else if MDeleting m then reconcileMigrationDeletion
      else
        copied <~ reconcileUnresolvedRunCopy;
        match copied with
        | Some a => ret a
        | None => reconcile_binding
        end
  end.

Definition reconcile : M answer :=
  read <~ read_migration;
  match read with
  | inl a => ret a
  | inr _ => reconcile_read
  end.
End Reconcile.
