(* ===== verification/MigrationWorld.v ===== *)
(** * The world of the migration controller, and what a status write may do

    The API server keeps one PtahMigration. Other actors change its spec and
    metadata between any two calls of a pass; its status is written by the one
    manager that leads. A write carries the resource version it was computed
    from, lands only over that version, and may land although the answer is
    an error. [allowed] says which status writes keep the record of what was
    dispatched. *)
From stdpp Require Import base list gmap strings.
From Stdlib Require Import ZArith Lia Ascii.
From S2P Require Import Prelude Effects GoStrings Json Fingerprint TargetLock MutationLifecycle PlanStore KubeMeta.
From S2P Require Import SourceContent SourceSnapshot SourceBinding SourcePolicy MigrationStatus MigrationPlan.
From S2P Require Import ResultRetention ApprovalAdmission Cadence RealmCensus DispatchDriver MigrationTypes.
From S2P Require Import MigrationClaims MigrationApply MigrationRuns MigrationResults MigrationDispatch.
From S2P Require Import MigrationReconcile.
From S2P Require Import Prelude.
Local Open Scope go_scope.
Local Open Scope ctl_scope.
Local Open Scope Z_scope.

(** ** The world *)

(** [w_past] are the statuses that were ever stored, [w_jobs] the operations
    an Apply Job may have been stored for, [w_log] the calls and answers. *)
Record world : Type := World {
  w_stored : PtahMigration;
  w_past : list PtahMigrationStatus;
  w_jobs : list string;
  w_log : list (entry ctlE);
}.

#[export] Instance world_fields : Fields world := fun w =>
  {| w_stored := w_stored w; w_past := w_past w; w_jobs := w_jobs w; w_log := w_log w |}.

Definition copy (m : PtahMigration) : option string := MAnnotations m !! UnresolvedRunAnnotation.

(** Another actor changes the resource, not its status, and not the copy of
    an unresolved run, which the chart's admission policy keeps to the manager
    once the resource exists. *)
Definition interfere (a b : PtahMigration) : Prop :=
  b = a \/ (MResourceVersion a < MResourceVersion b /\ Status_ b = Status_ a /\ copy b = copy a /\ MUID b = MUID a).

(** A status write over the version it was computed from. *)
Definition landed_status (base after : PtahMigration) (version : Z) (w w' : world) : Prop :=
  MResourceVersion base = MResourceVersion (w_stored w) /\ MResourceVersion (w_stored w) < version /\
  w_stored w' = (w_stored w) <| Status_ := Status_ after |> <| MResourceVersion := version |> /\
  w_past w' = Status_ after :: w_past w /\ w_jobs w' = w_jobs w.
(** A merge patch of the metadata changes what its two sides differ in. *)
Definition landed_meta (base patched : PtahMigration) (version : Z) (w w' : world) : Prop :=
  MResourceVersion base = MResourceVersion (w_stored w) /\ MResourceVersion (w_stored w) < version /\
  w_stored w' = (w_stored w)
    <| MAnnotations := if bool_decide (MAnnotations base = MAnnotations patched) then MAnnotations (w_stored w) else MAnnotations patched |>
    <| MFinalizers := if bool_decide (MFinalizers base = MFinalizers patched) then MFinalizers (w_stored w) else MFinalizers patched |>
    <| MResourceVersion := version |> /\
  w_past w' = w_past w /\ w_jobs w' = w_jobs w.
Definition same (w w' : world) : Prop := w_stored w' = w_stored w /\ w_past w' = w_past w /\ w_jobs w' = w_jobs w.

(** A create the API server refused before it wrote: no Job of it exists. *)
Definition refused (e : api_err) : bool :=
  bool_decide (ClassifyCreate IsAlreadyExists asAPIStatus e = AnswerRefused).

(** How the API server answers. *)
Definition respond {X} (e : ctlE X) : X -> world -> world -> Prop :=
  match e in ctlE X return X -> world -> world -> Prop with
  | GetMigration => fun x w w' => same w w' /\ (forall m, x = Ok m -> m = w_stored w)
  | PatchStatus base after => fun x w w' =>
      match x with
      | Ok version => landed_status base after version w w'
      | Err _ => same w w' \/ exists version, landed_status base after version w w'
      end
  | PatchMigration base patched => fun x w w' =>
      match x with
      | Ok version => landed_meta base patched version w w'
      | Err _ => same w w' \/ exists version, landed_meta base patched version w w'
      end
  | CreateJob operation _ => fun x w w' =>
      w_stored w' = w_stored w /\ w_past w' = w_past w /\
      let jobs := if mutating (Some operation) then OpID operation :: w_jobs w else w_jobs w in
      match x.2 with
      | None => w_jobs w' = jobs
      | Some e => w_jobs w' = w_jobs w \/ (refused e = false /\ w_jobs w' = jobs)
      end
  | _ => fun _ w w' => same w w'
  end.

Definition step (X : Type) (e : ctlE X) (w : world) (x : X) (w' : world) : Prop :=
  exists mid, interfere (w_stored w) mid /\
    respond e x (w <| w_stored := mid |>) w' /\ w_log w' = w_log w ++ [answered e x].

(** Every pass begins with a read of the migration: what was answered since
    then was answered in the pass. *)
Definition begins (x : entry ctlE) : bool := match projT2 x with (GetMigration, _) => true | _ => false end.
Definition in_pass {X} (e : ctlE X) (x : X) (log : list (entry ctlE)) : Prop :=
  exists before after, log = before ++ answered e x :: after /\ Forall (fun y => begins y = false) after.

(** [encoding/json] decodes what it encoded: a record that reads back as a
    valid copy keeps its operation. *)
Class DecodesCopies (r : Manager) : Prop :=
  decodes : forall record d, decodeUnresolvedRunCopy r (encodeUnresolvedRunCopy record) = Some d -> RunOperationID d = RunOperationID record.

(** ** What a status write may do *)

Definition mutates (o : MigrationOperationStatus) : bool := mutating (Some o).
Definition marked (o : MigrationOperationStatus) : bool := migrationMayHaveDispatched (Some o).

(** The status accounts for an operation: its run is recorded with an outcome
    that leaves nothing open, or as a run nobody accounted for. *)
Definition accounts (s : PtahMigrationStatus) (id : string) : Prop :=
  (exists run, LastRun s = Some run /\ LastOperationID run = id /\ MigrationRunUnresolved (LastOutcome run) = false) \/
  (exists run, UnresolvedRun s = Some run /\ RunOperationID run = id).

(** No Job of the operation can exist that no stored status accounts for. *)
Definition answered_for (w : world) (id : string) : Prop := id ∈ w_jobs w -> exists s, s ∈ w_past w /\ accounts s id.

(** A dispatched Apply stays claimed and marked until it is accounted for; the
    mark is withdrawn only while no Job of it can exist. *)
Definition keeps_dispatched (w : world) (base after : PtahMigrationStatus) : Prop :=
  forall o, ActiveOperation base = Some o -> mutates o = true -> marked o = true ->
    (exists o', ActiveOperation after = Some o' /\ OpID o' = OpID o /\ mutates o' = true /\
       (marked o' = true \/ answered_for w (OpID o))) \/
    accounts after (OpID o).

(** A reading of the history of the same database that left nothing to do. *)
Definition read_settles (log : list (entry ctlE)) (run : UnresolvedMigrationRunStatus) : Prop :=
  exists job result report, seen (TerminalLogs job) (Evidence (Ok result)) log /\ ResMigrationHistory result = Some report /\
    Pending report = [] /\ DirtyRevision report = None /\ Modified report = [] /\ OutOfOrder report = [] /\
    (RunTargetIdentityDigest run = EmptyString \/ RunTargetIdentityDigest run = ResTargetIdentityDigest result).
(** An acknowledgment read from the API server that names the run. *)
Definition ack_settles (log : list (entry ctlE)) (uid : string) (run : UnresolvedMigrationRunStatus) (reference : option ImmutableObjectReference) : Prop :=
  exists name a, seen (GetAcknowledgment name) (Ok a) log /\ acknowledgmentStamped a = true /\ acknowledgmentJudged a = false /\
    DeletionTimestamp (AckMeta a) = None /\ AckOperationID (AckSpec a) = RunOperationID run /\
    (AckMigrationRef (AckSpec a)).2 = uid /\ reference = Some (MetaName (AckMeta a), MetaUID (AckMeta a)).

(** The record of a run nobody accounted for is replaced by a record of the
    same operation, or settled by a reading or by a person. *)
Definition keeps_unresolved (w : world) (base after : PtahMigration) : Prop :=
  forall run, UnresolvedRun (Status_ base) = Some run ->
    (exists run', UnresolvedRun (Status_ after) = Some run' /\ RunOperationID run' = RunOperationID run) \/
    (UnresolvedRun (Status_ after) = None /\
     exists resolved, ResolvedRun (Status_ after) = Some resolved /\ ResolvedOperationID resolved = RunOperationID run /\
       (read_settles (w_log w) run \/ ack_settles (w_log w) (MUID base) run (AcknowledgmentRef resolved))).

(** A new Apply carries out the plan the status names, as it was read and
    still current, under the policy or under an approval that authorizes it,
    and never while a run is not accounted for. *)
Definition authorized (w : world) (base : PtahMigration) (o : MigrationOperationStatus) : Prop :=
  ActiveOperation (Status_ base) = None /\ UnresolvedRun (Status_ base) = None /\ marked o = false /\
  exists name plan, seen (GetPlan name) (Ok plan) (w_log w) /\
    MPlan (Status_ base) = Some (name, MetaUID (PlanMeta plan)) /\ OpPlanRef o = Some (MetaName (PlanMeta plan), MetaUID (PlanMeta plan)) /\
    OpPlanFingerprint o = PlanFingerprint_ (PlanSpec_ plan) /\ plan_current base plan = Ok tt /\
    ((PolicyApply (Spec base) = "Always" /\ ApprovalRef o = None) \/
     (PolicyApply (Spec base) <> "Never" /\
      exists items approval, seen ListApprovals (Ok items) (w_log w) /\ approval ∈ items /\ authorizes base plan approval = true /\
        ApprovalRef o = Some (MetaName (ApprovalMeta approval), MetaUID (ApprovalMeta approval)))).
Definition births (w : world) (base after : PtahMigration) : Prop :=
  forall o', ActiveOperation (Status_ after) = Some o' -> mutates o' = true ->
    (exists o, ActiveOperation (Status_ base) = Some o /\ OpID o = OpID o' /\ mutates o = true) \/ authorized w base o'.

Record allowed (w : world) (base after : PtahMigration) : Prop := {
  allowed_dispatched : keeps_dispatched w (Status_ base) (Status_ after);
  allowed_unresolved : keeps_unresolved w base after;
  allowed_births : births w base after;
}.

(** ** The realm of an Apply *)

Definition lock_request (r : Manager) (uid : string) (o : MigrationOperationStatus) : TargetLock.Request :=
  {| TargetLock.CoordinationNamespace := LockNamespace r; TargetLock.CoordinationDigest := OpCoordinationDigest o;
     RequestHolder := {| SchemaUID := uid; TargetLock.OperationID := OpID o |};
     Duration := OpLeaseDurationSeconds o * Second; ExpectedEpoch := OpLeaseEpoch o |}.

(** The Lease [read] of the realm is the operation's own, under the epoch of
    its claim, and [lease] renews exactly that record. *)
Definition renews (v : validatedRequest) (read lease : Lease) : Prop :=
  TargetLock.ResourceVersion lease = TargetLock.ResourceVersion read /\ dereference (HolderIdentity read) = holderIdentity v /\
  epoch_of read = expectedEpoch v.

(** The pass renewed the Lease of the realm for the operation, under the epoch
    its claim carries: no other holder had it since the claim took it. A claim
    without an epoch has no history to keep. *)
Definition holds_realm (r : Manager) (uid : string) (o : MigrationOperationStatus) (log : list (entry ctlE)) : Prop :=
  exists v lease stored,
    validate (isDNS1123Label r) (LockerInitialized r) (lock_request r uid o) = Ok v /\
    HolderIdentity lease = Some (holderIdentity v) /\ epoch_of stored = OpLeaseEpoch o /\
    ((OpLeaseEpoch o = EmptyString /\ in_pass (LockCall (CreateLease lease)) (Ok stored) log) \/
     (in_pass (LockCall (UpdateLease lease)) (Ok stored) log /\
      (OpLeaseEpoch o <> EmptyString ->
        exists read, in_pass (LockCall (GetLease (LockNamespace r, leaseName v))) (Ok read) log /\ renews v read lease))).

(** The approval an Apply was claimed under was read in the pass, as the
    object the claim names, and is spent. *)
Definition spends_approval (o : MigrationOperationStatus) (log : list (entry ctlE)) : Prop :=
  forall name uid, ApprovalRef o = Some (name, uid) ->
    exists approval, in_pass (GetApproval name) (Ok approval) log /\ MetaUID (ApprovalMeta approval) = uid /\
      (ApprovalConsumed approval = true \/ in_pass (PatchApproval approval true) None log).

(** ** The invariant *)

(** A standing Apply and a run nobody accounted for are one operation, in the
    status and in the copy; only an Apply holds a lock or can lose it. *)
Definition coherent (r : Manager) (s : PtahMigrationStatus) (copied : option string) : Prop :=
  forall o, ActiveOperation s = Some o ->
    (mutates o = false -> LeaseContinuityLost o = false /\ OpLeaseEpoch o = EmptyString) /\
    (mutates o = true ->
      match UnresolvedRun s with
      | Some run => RunOperationID run = OpID o
      | None => forall value d, copied = Some value -> decodeUnresolvedRunCopy r value = Some d ->
          RunOperationID d = OpID o \/ exists resolved, ResolvedRun s = Some resolved /\ ResolvedOperationID resolved = RunOperationID d
      end).

(** The operations that ever had a Job are claimed and marked, or accounted
    for in a stored status. *)
Definition covered (w : world) : Prop :=
  forall id, id ∈ w_jobs w ->
    (exists o, ActiveOperation (Status_ (w_stored w)) = Some o /\ OpID o = id /\ mutates o = true /\ marked o = true) \/
    (exists s, s ∈ w_past w /\ accounts s id).

Record sound (r : Manager) (w : world) : Prop := {
  sound_coherent : coherent r (Status_ (w_stored w)) (copy (w_stored w));
  sound_covered : covered w;
  sound_current : Status_ (w_stored w) ∈ w_past w;
}.

(** ** What each call requires *)

Definition requires (r : Manager) (X : Type) (e : ctlE X) (w : world) : Prop :=
  match e with
  | PatchStatus base after =>
      Status_ base = Status_ (w_stored w) /\ copy after = copy (w_stored w) /\ coherent r (Status_ after) (copy after) /\ allowed w base after
  | PatchMigration base patched =>
      MAnnotations base = MAnnotations patched \/ coherent r (Status_ (w_stored w)) (copy patched)
  | CreateJob o job =>
      ActiveOperation (Status_ (w_stored w)) = Some o /\ MetaName (JobMeta job) = JobName o /\
      (mutates o = true ->
         UnresolvedRun (Status_ (w_stored w)) = None /\ marked o = true /\ answered_for w (OpID o) /\
         holds_realm r (MUID (w_stored w)) o (w_log w) /\ spends_approval o (w_log w))
  | _ => True
  end.
Definition ctl_spec (r : Manager) : espec ctlE world := {| pre := requires r; post := step |}.
