(* ===== verification/MigrationProofs.v ===== *)
(** * Reasoning about the migration controller's passes

    The calculus the safety proofs of the pass are written in: weakest
    preconditions of programs that thread the resource, programs that write
    nothing, and the one lemma about writing the status. *)
From stdpp Require Import base list gmap strings.
From Stdlib Require Import ZArith Lia Ascii.
From S2P Require Import Prelude Effects GoStrings Json Fingerprint TargetLock MutationLifecycle PlanStore KubeMeta.
From S2P Require Import SourceContent SourceSnapshot SourceBinding SourcePolicy MigrationStatus MigrationPlan.
From S2P Require Import ResultRetention ApprovalAdmission Cadence RealmCensus DispatchDriver MigrationTypes.
From S2P Require Import MigrationClaims MigrationApply MigrationRuns MigrationResults MigrationDispatch.
From S2P Require Import MigrationReconcile MigrationWorld.
From S2P Require Import Prelude.
Local Open Scope go_scope.
Local Open Scope ctl_scope.
Local Open Scope Z_scope.

(** ** The invariant is kept *)

Lemma interfere_facts a b : interfere a b -> Status_ b = Status_ a /\ copy b = copy a /\ MUID b = MUID a.
Proof. intros [->|(_ & ? & ? & ?)]; done. Qed.

Section keep.
Context (r : Manager).

Lemma coherent_of s s' c : ActiveOperation s' = ActiveOperation s -> UnresolvedRun s' = UnresolvedRun s -> ResolvedRun s' = ResolvedRun s ->
  coherent r s c -> coherent r s' c.
Proof. unfold coherent. by intros -> -> ->. Qed.

Lemma sound_interfere w mid : interfere (w_stored w) mid -> sound r w -> sound r (w <| w_stored := mid |>).
Proof.
  intros (Es & Ec & _)%interfere_facts [Hc Hv Hp]. split.
  - change (coherent r (Status_ mid) (copy mid)). by rewrite Es, Ec.
  - intros id Hid. cbn in Hid |- *. rewrite Es. by apply Hv.
  - cbn. by rewrite Es.
Qed.

Lemma sound_same w w' : same w w' -> sound r w -> sound r w'.
Proof.
  intros (Es & Ep & Ej) [Hc Hv Hp]. split; [by rewrite Es| |by rewrite Es, Ep].
  intros id. rewrite Es, Ep, Ej. apply Hv.
Qed.

Lemma sound_status base after version w w' :
  requires r _ (PatchStatus base after) w -> landed_status base after version w w' -> sound r w -> sound r w'.
Proof.
  intros (Eb & Ec & Hcoh & Hall) (_ & _ & Es & Ep & Ej) [Hc Hv Hp]. split.
  - rewrite Es. change (coherent r (Status_ after) (copy (w_stored w))). by rewrite <- Ec.
  - intros id Hid. rewrite Ej in Hid. rewrite Es, Ep. cbn [Status_ update]. cbn.
    destruct (Hv id Hid) as [(o & Ho & <- & Hm & Hk)|(s & Hs & Ha)]; [|right; exists s; split; [by right|done]].
    rewrite <- Eb in Ho. destruct (allowed_dispatched _ _ _ Hall o Ho Hm Hk) as [(o' & Ho' & Hid' & Hm' & [Hk'|Hans])|Hacc].
    + left. by exists o'.
    + right. destruct (Hans Hid) as (s & Hs & Ha). exists s. split; [by right|done].
    + right. eexists. split; [by left|done].
  - rewrite Es, Ep. by left.
Qed.

Lemma sound_meta base patched version w w' :
  requires r _ (PatchMigration base patched) w -> landed_meta base patched version w w' -> sound r w -> sound r w'.
Proof.
  intros Hreq (_ & _ & Es & Ep & Ej) [Hc Hv Hp]. split.
  - rewrite Es. unfold copy, update. cbn [Status_ MAnnotations].
    destruct (bool_decide_reflect (MAnnotations base = MAnnotations patched)); [exact Hc|]. by destruct Hreq.
  - intros id. rewrite Es, Ep, Ej. apply Hv.
  - rewrite Es, Ep. exact Hp.
Qed.

Lemma sound_create o job x w w' :
  requires r _ (CreateJob o job) w -> respond (CreateJob o job) x w w' -> sound r w -> sound r w'.
Proof.
  intros Hreq (Es & Ep & Ej) [Hc Hv Hp]. split; [by rewrite Es| |by rewrite Es, Ep].
  intros id Hid. rewrite Es, Ep. destruct (decide (id ∈ w_jobs w)) as [|Hn]; [by apply Hv|].
  assert (Hg : mutating (Some o) = true /\ id = OpID o).
  { destruct (mutating (Some o)); [|destruct (x.2); exfalso; naive_solver congruence].
    split; [done|]. destruct (x.2); [destruct Ej as [Ej|[_ Ej]]|]; rewrite Ej in Hid; [done|..];
      apply elem_of_cons in Hid as [?|?]; done. }
  destruct Hg as [Hm ->]. left. destruct Hreq as (Ho & _ & Hreq), (Hreq Hm) as (_ & Hk & _). by exists o.
Qed.

(** A call within its requirement keeps the invariant, whatever others do. *)
Lemma step_keeps X (e : ctlE X) w x w' : sound r w -> requires r X e w -> step X e w x w' -> sound r w'.
Proof.
  intros Hs Hreq (mid & Hi & Hr & Hl).
  set (v := w <| w_stored := mid |>) in *. pose proof (sound_interfere _ _ Hi Hs) as Hv. fold v in Hv.
  destruct (interfere_facts _ _ Hi) as (Est & Eco & Eid).
  assert (Hreq' : requires r X e v).
  { change (w_stored v) with mid in *. destruct e; unfold requires in *; change (w_stored v) with mid; rewrite ?Est, ?Eco, ?Eid; try exact Hreq.
    destruct Hreq as (? & ? & ? & [Hd Hu Hb]). split; [assumption|]. split; [assumption|]. split; [assumption|]. split.
    - exact Hd.
    - exact Hu.
    - exact Hb. }
  clearbody v. clear Hreq.
  destruct e; cbn [respond] in Hr; try (by apply (sound_same v)).
  - by apply (sound_same v), Hv; destruct Hr.
  - destruct x as [version|err]; [by eapply sound_status|]. destruct Hr as [Hr|[version Hr]]; [by apply (sound_same v)|by eapply sound_status].
  - destruct x as [version|err]; [by eapply sound_meta|]. destruct Hr as [Hr|[version Hr]]; [by apply (sound_same v)|by eapply sound_meta].
  - by eapply sound_create.
Qed.
End keep.

(** ** Programs that thread the resource *)

(** The pass went on. *)
Definition grew (w w' : world) : Prop := exists more, w_log w' = w_log w ++ more /\ Forall (fun y => begins y = false) more.
#[export] Instance grew_preorder : PreOrder grew.
Proof.
  split.
  - intros w. exists []. by rewrite app_nil_r.
  - intros a b c (l1 & E1 & F1) (l2 & E2 & F2). exists (l1 ++ l2). by rewrite E2, E1, app_assoc, Forall_app.
Qed.
Lemma seen_grew {X} (e : ctlE X) x w w' : grew w w' -> seen e x (w_log w) -> seen e x (w_log w').
Proof. intros (more & -> & _). apply seen_grows. Qed.
Lemma in_pass_grew {X} (e : ctlE X) x w w' : grew w w' -> in_pass e x (w_log w) -> in_pass e x (w_log w').
Proof.
  intros (more & -> & F) (l1 & l2 & -> & F2). exists l1, (l2 ++ more). rewrite <- app_assoc, Forall_app. done.
Qed.
Lemma in_pass_seen {X} (e : ctlE X) x log : in_pass e x log -> seen e x log.
Proof. intros (l1 & l2 & -> & _). apply in_or_app. right. by left. Qed.

(** What is known of the world survives calls that write nothing. *)
Record later (w w' : world) : Prop := {
  later_status : Status_ (w_stored w') = Status_ (w_stored w);
  later_copy : copy (w_stored w') = copy (w_stored w);
  later_uid : MUID (w_stored w') = MUID (w_stored w);
  later_jobs : w_jobs w' = w_jobs w;
  later_past : w_past w' = w_past w;
  later_log : grew w w';
}.
#[export] Instance later_preorder : PreOrder later.
Proof.
  split.
  - intros w. by split.
  - intros a b c [? ? ? ? ? G1] [? ? ? ? ? G2]. split; try congruence. by transitivity b.
Qed.

Lemma seen_later {X} (e : ctlE X) x w w' : later w w' -> seen e x (w_log w) -> seen e x (w_log w').
Proof. intros [_ _ _ _ _ G]. by apply seen_grew. Qed.

Lemma answered_for_later w w' id : later w w' -> answered_for w id -> answered_for w' id.
Proof. intros [_ _ _ Ej Ep _]. unfold answered_for. by rewrite Ej, Ep. Qed.

(** The resource in memory is the stored one, as far as the manager writes it. *)
Definition clean (m : PtahMigration) (w : world) : Prop :=
  Status_ m = Status_ (w_stored w) /\ copy m = copy (w_stored w) /\ MUID m = MUID (w_stored w).

Lemma clean_later m w w' : later w w' -> clean m w -> clean m w'.
Proof. intros [Es Ec Eu _ _ _]. unfold clean. by rewrite Es, Ec, Eu. Qed.

Definition quiet_event {X} (e : ctlE X) : bool :=
  match e with GetMigration | PatchStatus _ _ | PatchMigration _ _ | CreateJob _ _ => false | _ => true end.

Lemma quiet_step X (e : ctlE X) w x w' : quiet_event e = true -> step X e w x w' -> later w w' /\ in_pass e x (w_log w').
Proof.
  intros Hq (mid & (Es & Ec & Eu)%interfere_facts & Hr & Hl).
  assert (Hsame : same (w <| w_stored := mid |>) w') by (destruct e; try discriminate Hq; exact Hr).
  destruct Hsame as (Hs & Hp & Hj). cbn in Hs, Hp, Hj. split.
  - split; rewrite ?Hs, ?Hp, ?Hj; try done. eexists. split; [exact Hl|]. apply Forall_singleton. by destruct e.
  - rewrite Hl. by exists (w_log w), [].
Qed.

Section calculus.
Context (r : Manager).
Abbreviation spec := (ctl_spec r).

Definition wpm {A} (p : M A) (Q : A -> PtahMigration -> world -> Prop) (m : PtahMigration) (w : world) : Prop :=
  wp spec (p m) (fun x w' => Q x.1 x.2 w') w.

Lemma wpm_mono {A} (p : M A) (Q R : A -> PtahMigration -> world -> Prop) m w :
  wpm p Q m w -> (forall a m' w', Q a m' w' -> R a m' w') -> wpm p R m w.
Proof. intros Hp HQR. eapply wp_mono; [|exact Hp]. intros [a m'] w'. apply HQR. Qed.

Lemma wpm_bind {A B} (p : M A) (f : A -> M B) Q m w :
  wpm p (fun a m' w' => wpm (f a) Q m' w') m w -> wpm (mbind_ p f) Q m w.
Proof. intros H. apply wp_bind. exact H. Qed.

(** A program that writes nothing leaves the resource as it is. *)
Definition silent {A} (p : prog ctlE A) : Prop := forall w, wp spec p (fun _ w' => later w w') w.
Definition quiet {A} (p : M A) : Prop := forall m w, wpm p (fun _ m' w' => m' = m /\ later w w') m w.

Lemma wpm_quiet {A} (p : M A) Q m w :
  quiet p -> (forall a w', later w w' -> Q a m w') -> wpm p Q m w.
Proof. intros Hp HQ. eapply wpm_mono; [apply Hp|]. intros a m' w' [-> Hl]. by apply HQ. Qed.

Lemma wpm_ask {X} (e : ctlE X) Q m w :
  quiet_event e = true -> (forall x w', later w w' -> seen e x (w_log w') -> Q x m w') -> wpm (ask e) Q m w.
Proof.
  intros He HQ. split; [by destruct e|]. intros x w' Hx. cbn.
  destruct (quiet_step _ _ _ _ _ He Hx). by apply HQ; [|apply in_pass_seen].
Qed.

Lemma wpm_ask_pass {X A} (e : ctlE X) (f : X -> M A) Q m w :
  quiet_event e = true -> (forall x w', later w w' -> in_pass e x (w_log w') -> wpm (f x) Q m w') -> wpm (mbind_ (ask e) f) Q m w.
Proof.
  intros He HQ. apply wpm_bind. split; [by destruct e|]. intros x w' Hx. cbn.
  destruct (quiet_step _ _ _ _ _ He Hx). by apply HQ.
Qed.

Lemma silent_ret {A} (a : A) : silent (Ret a).
Proof. intros w. cbn. reflexivity. Qed.
Lemma silent_bind {A B} (p : prog ctlE A) (f : A -> prog ctlE B) : silent p -> (forall a, silent (f a)) -> silent (pbind p f).
Proof.
  intros Hp Hf w. apply wp_bind. eapply wp_mono; [|apply Hp]. intros a w1 L1.
  eapply wp_mono; [|apply Hf]. intros b w2 L2. by transitivity w1.
Qed.
Lemma silent_call {X} (e : ctlE X) : quiet_event e = true -> silent (call e).
Proof. intros He w. split; [by destruct e|]. intros x w' Hx. apply (quiet_step _ _ _ _ _ He Hx). Qed.
Lemma silent_hoist {E : Type -> Type} {A} (f : forall X, E X -> ctlE X) (p : prog E A) :
  (forall X (e : E X), quiet_event (f X e) = true) -> silent (hoist f p).
Proof.
  intros Hf. induction p as [a|X e k IH]; [apply silent_ret|].
  intros w. split; [by pose proof (Hf _ e); destruct (f _ e)|]. intros x w1 Hx.
  destruct (quiet_step _ _ _ _ _ (Hf _ e) Hx) as [L _]. eapply wp_mono; [|apply IH]. intros b w2 L2. by transitivity w1.
Qed.

Lemma quiet_ret {A} (a : A) : quiet (ret a).
Proof. intros m w. split; [done|cbn; reflexivity]. Qed.
Lemma quiet_bind {A B} (p : M A) (f : A -> M B) : quiet p -> (forall a, quiet (f a)) -> quiet (mbind_ p f).
Proof.
  intros Hp Hf m w. apply wpm_bind. apply wpm_quiet; [done|]. intros a w1 L1.
  apply wpm_quiet; [done|]. intros b w2 L2. split; [done|]. by transitivity w1.
Qed.
Lemma quiet_get_bind {B} (f : PtahMigration -> M B) : (forall a, quiet (f a)) -> quiet (mbind_ get f).
Proof. intros Hf m w. apply (Hf m m w). Qed.
Lemma quiet_ask {X} (e : ctlE X) : quiet_event e = true -> quiet (ask e).
Proof. intros He m w. by apply wpm_ask. Qed.
Lemma quiet_lift {A} (p : prog ctlE A) : silent p -> quiet (lift p).
Proof. intros Hp m w. unfold wpm, lift. apply wp_bind. eapply wp_mono; [|apply Hp]. by intros a w'. Qed.

(** The resource as it stands before a bind of [get]. *)
Lemma wpm_get_bind {B} (f : PtahMigration -> M B) Q m w : wpm (f m) Q m w -> wpm (mbind_ get f) Q m w.
Proof. done. Qed.
Lemma wpm_put_bind {B} (p : M B) Q m0 m w : wpm p Q m w -> wpm (mbind_ (put m) (fun _ => p)) Q m0 w.
Proof. done. Qed.
Lemma wpm_status_bind {B} f (p : M B) Q m w : wpm p Q (with_status f m) w -> wpm (mbind_ (status f) (fun _ => p)) Q m w.
Proof. done. Qed.
Lemma wpm_ret {A} (a : A) (Q : A -> PtahMigration -> world -> Prop) m w : Q a m w -> wpm (ret a) Q m w.
Proof. done. Qed.
Lemma wpm_ret_bind {A B} (a : A) (f : A -> M B) Q m w : wpm (f a) Q m w -> wpm (mbind_ (ret a) f) Q m w.
Proof. done. Qed.
Lemma wpm_ask_bind {X B} (e : ctlE X) (f : X -> M B) Q m w :
  quiet_event e = true -> (forall x w', later w w' -> seen e x (w_log w') -> wpm (f x) Q m w') -> wpm (mbind_ (ask e) f) Q m w.
Proof. intros He HQ. apply wpm_bind. by apply wpm_ask. Qed.
Lemma wpm_quiet_bind {A B} (p : M A) (f : A -> M B) Q m w :
  quiet p -> (forall a w', later w w' -> wpm (f a) Q m w') -> wpm (mbind_ p f) Q m w.
Proof. intros Hp HQ. apply wpm_bind. by apply wpm_quiet. Qed.
End calculus.

(** ** Automation *)

Create HintDb quiet.
#[export] Hint Resolve quiet_ret : quiet.

(** A program that writes nothing, by its structure. *)
Ltac quiet_tac :=
  repeat first
    [ solve [auto 1 with quiet nocore]
    | apply quiet_get_bind; intros ?
    | apply quiet_ask; reflexivity
    | apply quiet_bind; [|intros ?]
    | apply quiet_lift
    | apply silent_hoist; intros ? ?; reflexivity
    | match goal with
      | |- quiet _ (match ?x with _ => _ end) => destruct x
      | |- silent _ (match ?x with _ => _ end) => destruct x
      | |- silent _ (Ret _) => apply silent_ret
      | |- silent _ (call _) => apply silent_call; reflexivity
      | |- silent _ (pbind _ _) => apply silent_bind; [|intros ?]
      end ].

(** Carry what is known to a later world. *)
Ltac advance L :=
  match type of L with
  | later ?w ?w' =>
      repeat match goal with
      | H : clean _ w |- _ => apply (clean_later _ _ _ L) in H
      | H : seen _ _ (w_log w) |- _ => apply (seen_later _ _ _ _ L) in H
      | H : answered_for w _ |- _ => apply (answered_for_later _ _ _ L) in H
      end
  end.

(** One step of a program; a call that writes is left to its own lemma. *)
Ltac wstep :=
  lazymatch goal with
  | |- wpm _ (ret _) _ _ _ => apply wpm_ret
  | |- wpm _ (mbind_ get _) _ _ _ => apply wpm_get_bind
  | |- wpm _ (mbind_ (put _) _) _ _ _ => apply wpm_put_bind
  | |- wpm _ (mbind_ (status _) _) _ _ _ => apply wpm_status_bind
  | |- wpm _ (mbind_ (ret _) _) _ _ _ => apply wpm_ret_bind
  | |- wpm _ (mbind_ (ask _) _) _ _ _ =>
      apply wpm_ask_bind; [reflexivity|];
      let x := fresh "x" in let w := fresh "w" in let L := fresh "L" in let S := fresh "S" in
      intros x w L S; advance L; clear L
  | |- wpm _ (mbind_ _ _) _ _ _ =>
      apply wpm_quiet_bind; [solve [quiet_tac]|];
      let x := fresh "x" in let w := fresh "w" in let L := fresh "L" in
      intros x w L; advance L; clear L
  end.
Ltac wsteps := repeat wstep.

Section quiet_programs.
Context (r : Manager).

Lemma quiet_now : quiet r now.
Proof. by apply quiet_ask. Qed.
#[local] Hint Resolve quiet_now : quiet.

Lemma quiet_requeue_next : quiet r requeue_next.
Proof. unfold requeue_next. quiet_tac. Qed.
Lemma quiet_markJobHarvested job : quiet r (markJobHarvested job).
Proof. unfold markJobHarvested. quiet_tac. Qed.

Lemma silent_configmap ns selector : silent r (ConfigMapBinding GetConfigMap ns selector).
Proof. unfold ConfigMapBinding, read_selected. quiet_tac. Qed.
Lemma silent_stillbinds decode ns selector bound : silent r (StillBinds GetConfigMap decode ns selector bound).
Proof. unfold StillBinds, LiveBinding, SourcePolicy.Read, read_selected. quiet_tac. Qed.
#[local] Hint Resolve silent_configmap silent_stillbinds : quiet.

Lemma quiet_verificationPolicyStillBinds plan : quiet r (verificationPolicyStillBinds r plan).
Proof. unfold verificationPolicyStillBinds. quiet_tac. Qed.
#[local] Hint Resolve quiet_verificationPolicyStillBinds : quiet.
Lemma quiet_claimedApplyPolicyStillBinds o : quiet r (claimedApplyPolicyStillBinds r o).
Proof. unfold claimedApplyPolicyStillBinds. quiet_tac. Qed.

Lemma quiet_markMigrationApprovalStale a : quiet r (markMigrationApprovalStale a).
Proof. unfold markMigrationApprovalStale. quiet_tac. Qed.
#[local] Hint Resolve quiet_markMigrationApprovalStale : quiet.
Lemma quiet_mark_stale m withdraw items : quiet r (mark_stale m withdraw items).
Proof. induction items as [|a rest IH]; cbn [mark_stale]; quiet_tac; done. Qed.
#[local] Hint Resolve quiet_mark_stale : quiet.
Lemma quiet_staleWhere withdraw : quiet r (markMigrationApprovalsStaleWhere withdraw).
Proof. unfold markMigrationApprovalsStaleWhere. quiet_tac. Qed.
#[local] Hint Resolve quiet_staleWhere : quiet.
Lemma quiet_stale keep : quiet r (markMigrationApprovalsStale keep).
Proof. apply quiet_staleWhere. Qed.
Lemma quiet_consumeMigrationApproval reference : quiet r (consumeMigrationApproval reference).
Proof. unfold consumeMigrationApproval. quiet_tac. Qed.
Lemma quiet_newMigrationOperationID input : quiet r (newMigrationOperationID input).
Proof. unfold newMigrationOperationID. quiet_tac. Qed.

Lemma quiet_podsOwnedByJob name uid : quiet r (podsOwnedByJob name uid).
Proof. unfold podsOwnedByJob. quiet_tac. Qed.
#[local] Hint Resolve quiet_podsOwnedByJob : quiet.
Lemma quiet_podsStopped name uid : quiet r (podsStopped name uid).
Proof. unfold podsStopped. quiet_tac. Qed.
Lemma quiet_read_dispatched name uid : quiet r (read_dispatched name uid).
Proof. unfold read_dispatched. quiet_tac. Qed.
#[local] Hint Resolve quiet_read_dispatched : quiet.
Lemma quiet_mayStillWrite o job : quiet r (dispatchedApplyMayStillWrite o job).
Proof. unfold dispatchedApplyMayStillWrite. quiet_tac. Qed.

Lemma quiet_migrationPlanForJob o : quiet r (migrationPlanForJob o).
Proof. unfold migrationPlanForJob. quiet_tac. Qed.
#[local] Hint Resolve quiet_migrationPlanForJob : quiet.
Lemma quiet_expectedMigrationJob o : quiet r (expectedMigrationJob o).
Proof. unfold expectedMigrationJob. quiet_tac. Qed.
Lemma quiet_givesWay : quiet r (failedMigrationReadGivesWay r).
Proof. unfold failedMigrationReadGivesWay. quiet_tac. Qed.
Lemma quiet_Confirm job : quiet r (Confirm job).
Proof. unfold Confirm. quiet_tac. Qed.
Lemma quiet_dispatchedJob o : quiet r (dispatchedMigrationApplyJob o).
Proof. unfold dispatchedMigrationApplyJob. quiet_tac. Qed.
Lemma quiet_slot : quiet r slot.
Proof. unfold slot. quiet_tac. Qed.
Lemma quiet_newExecutionBinding c : quiet r (newExecutionBinding c).
Proof. unfold newExecutionBinding. quiet_tac. Qed.
Lemma quiet_judgeAcknowledgment a consumed : quiet r (judgeAcknowledgment a consumed).
Proof. unfold judgeAcknowledgment. quiet_tac. Qed.
Lemma quiet_store_plan m fp spec : quiet r (store_plan m fp spec).
Proof. unfold store_plan. quiet_tac. Qed.
End quiet_programs.
#[export] Hint Resolve quiet_now quiet_requeue_next quiet_markJobHarvested silent_configmap silent_stillbinds
  quiet_verificationPolicyStillBinds quiet_claimedApplyPolicyStillBinds quiet_staleWhere quiet_stale quiet_consumeMigrationApproval
  quiet_newMigrationOperationID quiet_podsOwnedByJob quiet_podsStopped quiet_mayStillWrite quiet_migrationPlanForJob
  quiet_expectedMigrationJob quiet_givesWay quiet_Confirm quiet_dispatchedJob quiet_slot quiet_newExecutionBinding
  quiet_judgeAcknowledgment quiet_store_plan : quiet.

(** ** Writing the status *)

Lemma allowed_later w w' base after : later w w' -> allowed w base after -> allowed w' base after.
Proof.
  intros L [Hd Hu Hb]. split.
  - intros o Ho Hm Hk. destruct (Hd o Ho Hm Hk) as [(o' & ? & ? & ? & [?|Ha])|?]; [left..|by right]; exists o'; [by auto 10|].
    pose proof (answered_for_later _ _ _ L Ha). auto 10.
  - intros run Hr. destruct (Hu run Hr) as [?|(Hn & res & ? & ? & Hs)]; [by left|right]. split; [done|]. exists res. split; [done|]. split; [done|].
    destruct Hs as [(job & result & report & Hseen & ?)|(name & a & Hseen & ?)].
    + left. exists job, result, report. split; [by eapply seen_later|done].
    + right. exists name, a. split; [by eapply seen_later|done].
  - intros o' Ho' Hm. destruct (Hb o' Ho' Hm) as [?|(? & ? & ? & name & plan & Hseen & ? & ? & ? & ? & Hs)]; [by left|right].
    split; [done|]. split; [done|]. split; [done|]. exists name, plan. split; [by eapply seen_later|]. do 4 (split; [done|]).
    destruct Hs as [?|(? & items & approval & Hl & ?)]; [by left|right]. split; [done|]. exists items, approval.
    split; [by eapply seen_later|done].
Qed.

(** What a write may do depends on the status, the spec and the UID. *)
Lemma allowed_eq w base after base' after' :
  Status_ base' = Status_ base -> Spec base' = Spec base -> MUID base' = MUID base -> Status_ after' = Status_ after ->
  allowed w base after -> allowed w base' after'.
Proof.
  intros E1 E2 E3 E4 [Hd Hu Hb].
  assert (Hp : forall plan, plan_current base' plan = plan_current base plan)
    by (intros; unfold plan_current, migrationPolicyFingerprint; by rewrite E1, E2).
  assert (Ha : forall plan a, authorizes base' plan a = authorizes base plan a) by (intros; unfold authorizes; by rewrite E3).
  split.
  - by rewrite E1, E4.
  - unfold keeps_unresolved. by rewrite E1, E3, E4.
  - unfold births, authorized. rewrite E1, E2, E4. setoid_rewrite Hp. setoid_rewrite Ha. exact Hb.
Qed.

Section write.
Context (r : Manager).
Context (decodes : DecodesCopies r).

Lemma coherent_copy s c c' run : UnresolvedRun s = Some run -> coherent r s c -> coherent r s c'.
Proof. intros E H o Ho. specialize (H o Ho). by rewrite E in *. Qed.

(** A status write that keeps the invariant. *)
Record write_ok (w : world) (base after : PtahMigration) : Prop := {
  ok_coherent : coherent r (Status_ after) (copy after);
  ok_allowed : allowed w base after;
  ok_copy : forall run o, UnresolvedRun (Status_ base) = None -> UnresolvedRun (Status_ after) = Some run ->
    ActiveOperation (Status_ base) = Some o -> mutates o = true -> RunOperationID run = OpID o;
}.

(** The copy of a run that is settled is removed with the write. *)
Definition settled_copy (s : PtahMigrationStatus) (c c' : option string) : Prop :=
  UnresolvedRun s = None -> c' = None \/
  (c' = c /\ forall value d resolved, c = Some value -> decodeUnresolvedRunCopy r value = Some d -> ResolvedRun s = Some resolved ->
     ResolvedOperationID resolved <> RunOperationID d).

(** What holds once [m] was written over [before]. *)
Record written (before m m' : PtahMigration) (w w' : world) : Prop := {
  wr_clean : clean m' w';
  wr_coherent : coherent r (Status_ m') (copy m');
  wr_status : Status_ m' = Status_ m;
  wr_spec : Spec m' = Spec m;
  wr_uid : MUID m' = MUID m;
  wr_copy : Status_ before <> Status_ m -> settled_copy (Status_ m) (copy m) (copy m');
  wr_jobs : w_jobs w' = w_jobs w;
  wr_past : forall s, s ∈ w_past w -> s ∈ w_past w';
  wr_log : grew w w';
}.

Lemma step_grew X (e : ctlE X) w x w' : step X e w x w' -> begins (answered e x) = false -> grew w w'.
Proof. intros (mid & _ & _ & Hl) He. eexists. split; [exact Hl|]. by apply Forall_singleton. Qed.

(** A metadata patch that landed. *)
Record patched_meta (base patched : PtahMigration) (w w' : world) : Prop := {
  pm_status : Status_ (w_stored w') = Status_ (w_stored w);
  pm_copy : copy (w_stored w') = if bool_decide (MAnnotations base = MAnnotations patched) then copy (w_stored w) else copy patched;
  pm_uid : MUID (w_stored w') = MUID (w_stored w);
  pm_jobs : w_jobs w' = w_jobs w;
  pm_past : w_past w' = w_past w;
  pm_log : grew w w';
}.

Lemma wpm_patch_meta base patched Q m w :
  requires r _ (PatchMigration base patched) w ->
  (forall x w', (forall version, x = Ok version -> patched_meta base patched w w') -> Q x m w') ->
  wpm r (ask (PatchMigration base patched)) Q m w.
Proof.
  intros Hreq HQ. split; [exact Hreq|]. intros x w' Hx. cbn. apply HQ. intros version ->.
  pose proof (step_grew _ _ _ _ _ Hx eq_refl) as Hlog. destruct Hx as (mid & (Es & Ec & Eu)%interfere_facts & (_ & _ & Hs & Hp & Hj) & _).
  split; rewrite ?Hs; try done.
  unfold copy, update. cbn [MAnnotations w_stored]. destruct (bool_decide (MAnnotations base = MAnnotations patched)); [exact Ec|done].
Qed.

Lemma copy_with_copy value m : copy (with_copy value m) = value.
Proof. unfold copy, with_copy, update. cbn [MAnnotations]. destruct value; [apply lookup_insert_eq|apply lookup_delete_eq]. Qed.

(** The copy was set to [value] and nothing else was written. *)
Record recopied (value : option string) (m m' : PtahMigration) (w w' : world) : Prop := {
  rc_copy : copy m' = value /\ copy (w_stored w') = value;
  rc_memory : Status_ m' = Status_ m /\ Spec m' = Spec m /\ MUID m' = MUID m;
  rc_stored : Status_ (w_stored w') = Status_ (w_stored w) /\ MUID (w_stored w') = MUID (w_stored w);
  rc_world : w_jobs w' = w_jobs w /\ w_past w' = w_past w;
  rc_log : grew w w';
}.

Lemma wpm_set_copy value (Q : option ctl_error -> PtahMigration -> world -> Prop) m w :
  copy m = copy (w_stored w) ->
  (copy m <> value -> coherent r (Status_ (w_stored w)) value) ->
  (forall e m' w', Q (Some e) m' w') -> (forall m' w', recopied value m m' w w' -> Q None m' w') ->
  wpm r (setUnresolvedRunCopy value) Q m w.
Proof.
  intros Hc Hcoh Herr HQ. unfold setUnresolvedRunCopy. wsteps. fold (copy m).
  destruct (bool_decide_reflect (copy m = value)) as [E|E].
  { wstep. apply HQ. split; try done. by rewrite <- Hc. }
  assert (Hne : MAnnotations m <> MAnnotations (with_copy value m)).
  { intros Heq. apply E. rewrite <- (copy_with_copy value m). unfold copy. by rewrite <- Heq. }
  apply wpm_bind, wpm_patch_meta.
  { right. rewrite copy_with_copy. by apply Hcoh. }
  intros x w' Hx. destruct x as [version|e]; [|by wstep; apply Herr]. destruct (Hx _ eq_refl) as [Hs Hcs Hu Hj Hp Hl].
  wsteps. apply HQ. rewrite bool_decide_eq_false_2 in Hcs by done. rewrite copy_with_copy in Hcs.
  split; try done. split; [|done]. exact (copy_with_copy value m).
Qed.

Lemma copy_matches m record value : unresolvedRunCopyMatches r m record = true -> copy m = Some value -> decodeUnresolvedRunCopy r value = Some record.
Proof. unfold unresolvedRunCopyMatches, copy. intros H E. rewrite E in H. by bool_prop. Qed.

Lemma wpm_copy_before before (Q : result ctl_error PtahMigration -> PtahMigration -> world -> Prop) m w :
  clean before w -> coherent r (Status_ before) (copy before) -> copy m = copy before -> MUID m = MUID before -> write_ok w before m ->
  (forall e m' w', Q (Err e) m' w') ->
  (forall base m' w', Status_ base = Status_ before /\ Spec base = Spec before /\ MUID base = MUID before ->
     Status_ m' = Status_ m /\ Spec m' = Spec m /\ MUID m' = MUID m -> later w w' \/ (exists run, UnresolvedRun (Status_ m) = Some run) ->
     Status_ (w_stored w') = Status_ (w_stored w) /\ MUID (w_stored w') = MUID (w_stored w) /\ copy (w_stored w') = copy m' ->
     w_jobs w' = w_jobs w /\ w_past w' = w_past w /\ grew w w' ->
     (copy m' = copy m \/ exists run, UnresolvedRun (Status_ m) = Some run) -> Q (Ok base) m' w') ->
  wpm r (copyUnresolvedRunBeforeStatus r before) Q m w.
Proof.
  intros (Es & Ec & Eu) Hb Hcm Hum [Hcoh Hall Hcp] Herr HQ. unfold copyUnresolvedRunBeforeStatus. wstep.
  destruct (UnresolvedRun (Status_ m)) as [run|] eqn:Hrun.
  2: { wstep. apply HQ; try done; [left; reflexivity|split; [done|]|by left].
       split; [done|]. by rewrite Hcm, Ec. }
  destruct (unresolvedRunCopyMatches r m run).
  { wstep. apply HQ; try done; [left; reflexivity|split; [done|]|by left].
    split; [done|]. by rewrite Hcm, Ec. }
  apply wpm_bind, wpm_set_copy.
  - by rewrite Hcm.
  - intros _. rewrite <- Es. intros o Ho. destruct (Hb o Ho) as [Hl Hm]. split; [exact Hl|]. intros Hmut. specialize (Hm Hmut).
    destruct (UnresolvedRun (Status_ before)) as [run0|] eqn:Hb0; [done|]. intros value d [= <-] Hd. left.
    rewrite (decodes _ _ Hd). by eapply Hcp.
  - intros e m' w'. wstep. apply Herr.
  - intros m' w' [[Hc1 Hc2] (H1 & H2 & H3) (H4 & H5) (H6 & H7) H8]. wsteps.
    apply HQ; try done; [by right; eauto|split; [done|]; split; [done|congruence]|by right; eauto].
Qed.

Lemma drop_coherent s c : UnresolvedRun s = None -> coherent r s c -> coherent r s None.
Proof. intros E H o Ho. destruct (H o Ho) as [Hl Hm]. split; [done|]. rewrite E. by intros _ value d. Qed.

Lemma wpm_drop before (Q : option ctl_error -> PtahMigration -> world -> Prop) m w :
  clean m w -> coherent r (Status_ m) (copy m) ->
  (forall e m' w', Q (Some e) m' w') ->
  (forall m' w', clean m' w' -> coherent r (Status_ m') (copy m') -> Status_ m' = Status_ m -> Spec m' = Spec m -> MUID m' = MUID m ->
     settled_copy (Status_ m) (copy m) (copy m') -> w_jobs w' = w_jobs w -> w_past w' = w_past w -> grew w w' ->
     Q None m' w') ->
  wpm r (dropSettledUnresolvedRunCopy r before) Q m w.
Proof.
  intros Hcl Hcoh Herr HQ. pose proof Hcl as (Es & Ec & Eu). unfold dropSettledUnresolvedRunCopy. wstep. fold (copy m).
  assert (Hkeep : (forall value d resolved, copy m = Some value -> UnresolvedRun (Status_ m) = None ->
     decodeUnresolvedRunCopy r value = Some d -> ResolvedRun (Status_ m) = Some resolved -> ResolvedOperationID resolved <> RunOperationID d) ->
     wpm r (ret None) Q m w).
  { intros Hno. wstep. apply HQ; try done. intros Hn. right. split; [done|]. intros. by eapply Hno. }
  destruct (copy m) as [value|] eqn:Hv; [|by apply Hkeep; intros].
  destruct (UnresolvedRun (Status_ m)) as [run|] eqn:Hrun; [by apply Hkeep; intros|].
  destruct (decodeUnresolvedRunCopy r value) as [d|] eqn:Hd; [|apply Hkeep; intros; naive_solver congruence].
  match goal with |- context [if negb ?a && negb ?b then _ else _] => destruct a eqn:Hset, b eqn:Hret end; cbn [negb andb].
  4: { apply Hkeep. intros value' d' res [= <-] _ Hd' Hres Heq. rewrite Hres in Hset. bool_prop. congruence. }
  all: apply wpm_set_copy; [by rewrite Hv|intros _; rewrite <- Es; by eapply drop_coherent|done|].
  all: intros m' w' [[Hc1 Hc2] (H1 & H2 & H3) (H4 & H5) (H6 & H7) H8]; apply HQ; try done.
  all: try (unfold clean; split; [congruence|split; congruence]).
  all: try (rewrite H1, Hc1; by eapply drop_coherent).
  all: by left.
Qed.

(** What [patchMigrationStatus] does once it decided to write. *)
Definition land_status (before : PtahMigration) : M (option ctl_error) :=
  base <~ copyUnresolvedRunBeforeStatus r before;
  match base with
  | Err e => ret (Some e)
  | Ok base =>
      after <~ get;
      landed <~ ask (PatchStatus base after);
      match landed with
      | Err e => ret (Some (ErrAPI e))
      | Ok version => put (after <| MResourceVersion := version |>) ;~ dropSettledUnresolvedRunCopy r before
      end
  end.

Lemma wpm_land before (Q : option ctl_error -> PtahMigration -> world -> Prop) m w w1 :
  clean before w -> coherent r (Status_ before) (copy before) -> copy m = copy before -> MUID m = MUID before -> write_ok w before m ->
  later w w1 -> (forall e m' w', Q (Some e) m' w') -> (forall m' w', written before m m' w w' -> Q None m' w') ->
  wpm r (land_status before) Q m w1.
Proof.
  intros Hcl Hcb Hcm Hum Hok L1 Herr HQ. pose proof Hcl as (Es & Ec & Eu). pose proof Hok as [Hcoh Hall _]. unfold land_status.
  destruct (L1) as [Hs1 Hc1 Hu1 Hj1 Hp1 G1]. pose proof (clean_later _ _ _ L1 Hcl) as Hcl1.
  apply wpm_bind, (wpm_copy_before before); try done.
  { destruct Hok as [? ? Hk]. split; [done|by eapply allowed_later|exact Hk]. }
  intros base m' w' (Hb1 & Hb2 & Hb3) (Hm1 & Hm2 & Hm3) _ (Hw1 & Hw2 & Hw3) (Hw4 & Hw5 & G2) Hcpy. wstep.
  assert (Hcoh' : coherent r (Status_ m') (copy m')).
  { rewrite Hm1. destruct Hcpy as [->|[run Hrun]]; [done|]. by eapply coherent_copy. }
  assert (Hall' : allowed w' base m').
  { apply (allowed_eq w' before m); try done. destruct Hall as [Hd Hu Hb].
    assert (Hst : allowed (World (w_stored w) (w_past w) (w_jobs w) (w_log w')) before m).
    { eapply (allowed_later w); [|by split]. split; try done. exact (transitivity G1 G2). }
    destruct Hst as [Hd' Hu' Hb']. split; [|exact Hu'|exact Hb'].
    intros o Ho Hm Hk. destruct (Hd' o Ho Hm Hk) as [(o' & ? & ? & ? & Hx)|?]; [left|by right].
    exists o'. do 3 (split; [done|]). destruct Hx as [?|Hx]; [by left|right]. unfold answered_for. rewrite Hw4, Hw5, Hj1, Hp1. exact Hx. }
  apply wpm_bind. split.
  { split; [congruence|]. split; [done|]. split; [done|done]. }
  intros x w2 Hx. pose proof (step_grew _ _ _ _ _ Hx eq_refl) as G3. cbn [fst snd pbind].
  destruct Hx as (mid & (Ems & Emc & Emu)%interfere_facts & Hx & _). destruct x as [version|e]; [|apply Herr].
  destruct Hx as (_ & _ & Hx1 & Hx2 & Hx3). apply wpm_put_bind. cbn [w_stored update] in Hx1, Hx2, Hx3.
  apply (wpm_drop before).
  - unfold clean. rewrite Hx1. split; [done|]. split.
    + change (copy m' = copy mid). congruence.
    + change (MUID m' = MUID mid). congruence.
  - exact Hcoh'.
  - exact Herr.
  - intros m2 w3 F1 F2 F3 F4 F5 F6 F7 F8 F9. apply HQ. split; try done.
    + by rewrite F3.
    + by rewrite F4.
    + by rewrite F5.
    + intros _. change (settled_copy (Status_ m') (copy m') (copy m2)) in F6. rewrite Hm1 in F6.
      destruct Hcpy as [Hcpy|[run Hrun]]; [by rewrite Hcpy in F6|]. intros Hn. congruence.
    + rewrite F7, Hx3. cbn. by rewrite Hw4, Hj1.
    + intros s0 Hs0. rewrite F8, Hx2. right. cbn. by rewrite Hw5, Hp1.
    + transitivity w1; [exact G1|]. transitivity w'; [exact G2|]. transitivity w2; [exact G3|exact F9].
Qed.

(** The one lemma about writing the status. *)
Lemma wpm_patch before (Q : option ctl_error -> PtahMigration -> world -> Prop) m w :
  clean before w -> coherent r (Status_ before) (copy before) -> copy m = copy before -> MUID m = MUID before -> write_ok w before m ->
  (forall e m' w', Q (Some e) m' w') -> (forall m' w', written before m m' w w' -> Q None m' w') ->
  wpm r (patchMigrationStatus r before) Q m w.
Proof.
  intros Hcl Hcb Hcm Hum Hok Herr HQ. pose proof Hcl as (Es & Ec & Eu). pose proof Hok as [Hcoh Hall _].
  unfold patchMigrationStatus. wstep. apply wpm_bind.
  assert (Hgo : forall w1, later w w1 -> wpm r (land_status before) Q m w1) by (intros w1 L1; by eapply wpm_land).
  destruct (bool_decide_reflect (Status_ before = Status_ m)) as [E|E]; [|by apply Hgo].
  apply wpm_ask; [done|]. intros moved w1 L1 _. destruct moved; cbn [negb]; [by apply Hgo|].
  wstep. destruct (L1) as [Hs1 Hc1 Hu1 Hj1 Hp1 Hl1]. apply HQ. split; try done.
  - unfold clean. split; [|split]; congruence.
  - by rewrite Hp1.
Qed.
End write.
