(* ===== verification/MigrationRealm.v ===== *)
(** * The realm's Lease in a pass of the migration controller

    What an acquisition of [TargetLock] leaves in the log of the pass that
    made it: when it reports the Lease held under the epoch the claim
    expected, the pass has just renewed the Lease of the claim's realm for the
    claim's operation. *)
From stdpp Require Import base list gmap strings.
From Stdlib Require Import ZArith Lia Ascii.
From S2P Require Import Prelude Effects GoStrings Json Fingerprint TargetLock MutationLifecycle PlanStore KubeMeta.
From S2P Require Import SourceContent SourceSnapshot SourceBinding SourcePolicy MigrationStatus MigrationPlan.
From S2P Require Import ResultRetention ApprovalAdmission Cadence RealmCensus DispatchDriver MigrationTypes.
From S2P Require Import MigrationClaims MigrationApply MigrationRuns MigrationResults MigrationDispatch.
From S2P Require Import MigrationReconcile MigrationWorld MigrationProofs.
From S2P Require Import Prelude.
Local Open Scope go_scope.
Local Open Scope ctl_scope.
Local Open Scope Z_scope.

(** ** What an acquisition saw *)

(** The write that took or kept the Lease, and the record it replaced. *)
Definition took (key : string * string) (v : validatedRequest) (result : AcquireResult) (log : list (entry lockE)) : Prop :=
  exists lease stored, HolderIdentity lease = Some (holderIdentity v) /\ Epoch result = epoch_of stored /\
    ((seen (CreateLease lease) (Ok stored) log /\ (ContinuityLost result = false -> expectedEpoch v = EmptyString)) \/
     (seen (UpdateLease lease) (Ok stored) log /\
      (ContinuityLost result = false -> expectedEpoch v <> EmptyString ->
        exists read, seen (GetLease key) (Ok read) log /\ renews v read lease))).
Abbreviation acquires key v := (fun result log => Acquired result = true -> took key v result log).

Lemma sees_now {A} (k : Z -> prog lockE (result lock_error A)) P : (forall t, sees (k t) P) -> sees (pbind now_ k) P.
Proof. intros H. apply sees_call. intros t. eapply sees_mono; [|apply H]. auto. Qed.
Lemma sees_forget {A} key (k : prog lockE (result lock_error A)) P : sees k P -> sees (pbind (forgetObservation key) (fun _ => k)) P.
Proof. intros H. apply sees_call. intros t. eapply sees_mono; [|apply H]. auto. Qed.

Lemma sees_take key v read again :
  sees again (acquires key v) -> sees (take_lease key v read again) (fun result log => seen (GetLease key) (Ok read) log -> acquires key v result log).
Proof.
  intros Hagain.
  unfold take_lease. apply sees_now. intros t. set (keep := bool_decide _ && validEpoch _).
  assert (Hwrite : forall lease, HolderIdentity lease = Some (holderIdentity v) -> TargetLock.ResourceVersion lease = TargetLock.ResourceVersion read ->
    sees (answer <-- call (UpdateLease lease);
          match answer with
          | Ok stored => forgetObservation key;;; Ret (Ok (acquired (epoch_of stored)
              (negb (bool_decide (expectedEpoch v = EmptyString)) && negb (keep && (bool_decide (expectedEpoch v = EmptyString) || bool_decide (epoch_of read = expectedEpoch v))))))
          | Err Conflict | Err NotFound => again
          | Err e => Ret (Err (ErrUpdate e))
          end) (fun result log => seen (GetLease key) (Ok read) log -> acquires key v result log)).
  { intros lease Hh Hv. apply sees_call. intros answer.
    destruct answer as [stored|[]]; [|eapply sees_mono; [|apply Hagain]; cbn; auto|by apply sees_ret|eapply sees_mono; [|apply Hagain]; cbn; auto|by apply sees_ret].
    apply sees_forget, sees_ret. intros result log [= <-] Hw Hr _. exists lease, stored. split; [done|]. split; [done|]. right.
    split; [done|]. cbn. intros Hc Hne. exists read. split; [done|]. rewrite bool_decide_eq_false_2 in Hc by done. cbn in Hc.
    unfold keep in Hc. bool_prop. by split. }
  unfold updateLease. destruct keep.
  - cbn [pbind]. by apply Hwrite.
  - unfold newEpoch. cbn [pbind]. apply (sees_call TargetLock.RandRead). intros [b|]; cbn [pbind]; [|by apply sees_ret].
    eapply sees_mono; [|by apply Hwrite]. auto.
Qed.

Lemma sees_acquire n key v : sees (acquire_loop n key v) (acquires key v).
Proof.
  induction n as [|n IH]; [by apply sees_ret|]. cbn [acquire_loop]. apply sees_call. intros got.
  assert (Htake : forall read, sees (take_lease key v read (acquire_loop n key v)) (fun result log => seen (GetLease key) (Ok read) log -> acquires key v result log))
    by (intros read; by apply sees_take).
  destruct got as [read|[]]; try by apply sees_ret.
  - destruct (foreign_held v read); [|by apply sees_forget].
    destruct (validForeignLeaseDuration read); [|by apply sees_ret]. destruct (negb _); [by apply sees_ret|].
    apply (sees_call TargetLock.ClockNow). intros t. cbn [pbind]. apply sees_call. intros remaining.
    destruct (0 <? remaining); [apply sees_ret; by intros result log [= <-]|]. eapply sees_mono; [|apply Htake]. auto.
  - apply sees_forget, sees_now. intros t. unfold newLease, newEpoch. cbn [pbind]. apply (sees_call TargetLock.RandRead). intros [b|]; cbn [pbind]; [|by apply sees_ret].
    apply sees_call. intros [stored|[]]; try by apply sees_ret.
    2, 3: eapply sees_mono; [|apply IH]; auto.
    apply sees_ret. intros result log [= <-] Hw _ _ _. eexists _, stored. split; [|split; [|left; split; [exact Hw|]]]; [done|done|].
    cbn. intros Hc. by bool_prop.
Qed.

(** ** In the log of the pass *)

Lemma seen_in_pass {X} (e : lockE X) x w w' more :
  w_log w' = w_log w ++ map (hoist_entry (@LockCall)) more -> seen e x more -> in_pass (LockCall e) x (w_log w').
Proof.
  intros -> Hin. apply in_split in Hin as (l1 & l2 & ->). rewrite map_app, map_cons, app_assoc.
  eexists _, _. split; [reflexivity|]. apply Forall_forall. intros y (z & -> & _)%list_elem_of_fmap. done.
Qed.

Section realm.
Context (r : Manager).

Lemma wpm_acquire request (Q : acquire_answer -> PtahMigration -> world -> Prop) m w :
  (forall a w', later w w' ->
     (forall v result, validate (isDNS1123Label r) (LockerInitialized r) request = Ok v -> a = Ok result -> Acquired result = true ->
        exists more, w_log w' = w_log w ++ map (hoist_entry (@LockCall)) more /\
          took (TargetLock.CoordinationNamespace request, leaseName v) v result more) ->
     (forall e, validate (isDNS1123Label r) (LockerInitialized r) request = Err e -> a = Err e) -> Q a m w') ->
  wpm r (lift (hoist (@LockCall) (Acquire (isDNS1123Label r) (LockerInitialized r) request))) Q m w.
Proof.
  intros HQ. unfold wpm, lift. apply wp_bind. unfold Acquire. destruct (validate _ _ request) as [v|e] eqn:Ev.
  2: { cbn. apply HQ; [reflexivity|by intros|]. by intros e' [= <-]. }
  eapply wp_mono; [|eapply (wp_hoist_log (@LockCall) _ w_log _ _ (later w) w []); [done| |reflexivity|apply sees_acquire]].
  - intros a w' [L (more & Hlog & Ha)]. cbn. apply HQ; [done| |done]. intros v' result [= <-] -> Hacq. exists more. split; [done|]. by apply Ha.
  - intros X e w1 x w2 L Hx. pose proof Hx as (_ & _ & _ & Hl). split; [|exact Hl]. transitivity w1; [done|].
    by apply (quiet_step _ _ _ _ _ (eq_refl : quiet_event (LockCall e) = true) Hx).
Qed.

(** The Lease is held under the claim's epoch, without a break. *)
Lemma took_holds uid o result v w w' more :
  validate (isDNS1123Label r) (LockerInitialized r) (lock_request r uid o) = Ok v ->
  took (LockNamespace r, leaseName v) v result more -> w_log w' = w_log w ++ map (hoist_entry (@LockCall)) more ->
  Epoch result = OpLeaseEpoch o -> ContinuityLost result = false -> holds_realm r uid o (w_log w').
Proof.
  intros Hv (lease & stored & Hh & He & Hcase) Hlog Hep Hc.
  assert (Hexp : expectedEpoch v = OpLeaseEpoch o) by (unfold validate, rbind in Hv; follow Hv; by injection Hv as <-).
  exists v, lease, stored. split; [done|]. split; [done|]. split; [congruence|]. destruct Hcase as [[Hw Hn]|[Hw Hr]].
  - left. split; [rewrite <- Hexp; auto|]. by eapply seen_in_pass.
  - right. split; [by eapply seen_in_pass|]. rewrite <- Hexp. intros Hne. destruct (Hr Hc Hne) as (read & Hread & Hren).
    exists read. split; [by eapply seen_in_pass|done].
Qed.
End realm.
