(* ===== verification/MigrationSafety.v ===== *)
(** * What a pass of the migration controller keeps

    Every status write of the pass is one of a few kinds, and each kind keeps
    the record of what was dispatched ([write_ok]). From there each operation
    of the controller is followed once, and [wpm_reconcile] concludes that
    every call of a pass meets its requirement. *)
From stdpp Require Import base list gmap strings.
From Stdlib Require Import ZArith Lia Ascii.
From S2P Require Import Prelude Effects GoStrings Sha256 Json Fingerprint TargetLock MutationLifecycle PlanStore KubeMeta.
From S2P Require Import SourceContent SourceSnapshot SourceBinding SourcePolicy MigrationStatus MigrationPlan.
From S2P Require Import ResultRetention ApprovalAdmission Cadence RealmCensus DispatchDriver MigrationTypes.
From S2P Require Import MigrationClaims MigrationApply MigrationRuns MigrationResults MigrationDispatch.
From S2P Require Import MigrationReconcile MigrationWorld MigrationProofs MigrationRealm.
From S2P Require Import Prelude.
Local Open Scope go_scope.
Local Open Scope ctl_scope.
Local Open Scope Z_scope.
#[local] Opaque sha256 hex_encode.

(** ** Kinds of writes *)

Definition benign (s s' : PtahMigrationStatus) : Prop :=
  ActiveOperation s' = ActiveOperation s /\ UnresolvedRun s' = UnresolvedRun s /\ ResolvedRun s' = ResolvedRun s.
(** No Job of the claim can exist. *)
Definition undispatched (s : PtahMigrationStatus) : Prop :=
  forall o, ActiveOperation s = Some o -> mutates o = true -> marked o = false.
Definition reading (s : PtahMigrationStatus) : Prop := forall o, ActiveOperation s = Some o -> mutates o = false.
Definition lock_free (o : MigrationOperationStatus) : Prop :=
  mutates o = false -> LeaseContinuityLost o = false /\ OpLeaseEpoch o = EmptyString.

Lemma reading_undispatched s : reading s -> undispatched s.
Proof. intros H o Ho Hm. by rewrite (H o Ho) in Hm. Qed.
Lemma benign_trans a b c : benign a b -> benign b c -> benign a c.
Proof. unfold benign. intuition congruence. Qed.
Lemma keeps_same w base after : UnresolvedRun (Status_ after) = UnresolvedRun (Status_ base) -> keeps_unresolved w base after.
Proof. intros E run Hr. left. exists run. by rewrite E. Qed.

Section kinds.
Context (r : Manager) (w : world) (base after : PtahMigration).
Abbreviation s := (Status_ base).
Abbreviation s' := (Status_ after).
Context (Hcoh : coherent r s (copy base)) (Hcopy : copy after = copy base).

Lemma write_benign : benign s s' -> write_ok r w base after.
Proof.
  intros (E1 & E2 & E3). split.
  - rewrite Hcopy. by apply (coherent_of r s).
  - split.
    + intros o Ho Hm Hk. left. exists o. rewrite E1. auto.
    + by apply keeps_same.
    + intros o. rewrite E1. intros Ho Hm. left. by exists o.
  - intros run o Hn Hs. congruence.
Qed.

(** The claim goes: no Job of it can exist. *)
Lemma write_clear :
  ActiveOperation s' = None -> undispatched s -> keeps_unresolved w base after ->
  (UnresolvedRun s = None -> UnresolvedRun s' = None) -> write_ok r w base after.
Proof.
  intros E1 Hu Hk Hn. split.
  - intros o Ho. congruence.
  - split; [|done|].
    + intros o Ho Hm Hmk. by rewrite (Hu o Ho Hm) in Hmk.
    + intros o Ho. congruence.
  - intros run o Hnone Hs. by rewrite (Hn Hnone) in Hs.
Qed.

(** An Apply nobody accounted for is recorded, with or without its claim. *)
Lemma write_unaccounted o run :
  ActiveOperation s = Some o -> mutates o = true -> UnresolvedRun s' = Some run -> RunOperationID run = OpID o ->
  ActiveOperation s' = None \/ ActiveOperation s' = Some o -> write_ok r w base after.
Proof.
  intros Ho Hm Hr Hid Ha. split.
  - intros o' Ho'. assert (o' = o) as -> by (destruct Ha; congruence). split; [by intros; congruence|]. by rewrite Hr.
  - split.
    + intros o' Ho' _ _. right. right. exists run. split; [done|]. congruence.
    + intros run0 Hr0. left. exists run. split; [done|]. destruct (Hcoh o Ho) as [_ Hc]. specialize (Hc Hm). rewrite Hr0 in Hc. congruence.
    + intros o' Ho' _. left. exists o. destruct Ha; [congruence|]. assert (o' = o) as -> by congruence. done.
  - intros run' o' _ Hr' Ho' _. congruence.
Qed.

(** An Apply that reported is recorded and its claim goes. *)
Lemma write_recorded o last :
  ActiveOperation s = Some o -> ActiveOperation s' = None -> UnresolvedRun s' = UnresolvedRun s ->
  LastRun s' = Some last -> LastOperationID last = OpID o -> MigrationRunUnresolved (LastOutcome last) = false -> write_ok r w base after.
Proof.
  intros Ho Ha Hr Hl Hid Hres. split.
  - intros o' Ho'. congruence.
  - split.
    + intros o' Ho' _ _. right. left. exists last. split; [done|]. split; [congruence|done].
    + by apply keeps_same.
    + intros o' Ho'. congruence.
  - intros run o' Hn Hs. congruence.
Qed.

(** Assignments to the claim. *)
Lemma write_claim_ok o o' :
  ActiveOperation s = Some o -> ActiveOperation s' = Some o' -> OpID o' = OpID o -> mutates o' = mutates o -> lock_free o' ->
  (mutates o = true -> marked o = true -> marked o' = true \/ answered_for w (OpID o)) ->
  UnresolvedRun s' = UnresolvedRun s -> ResolvedRun s' = ResolvedRun s -> write_ok r w base after.
Proof.
  intros Ho Ho' Hid Hmu Hlf Hmk Hu Hr. split.
  - intros o1 Ho1. assert (o1 = o') as -> by congruence. split; [done|]. intros Hm. destruct (Hcoh o Ho) as [_ Hc].
    rewrite Hcopy, Hu, Hr, Hid. apply Hc. congruence.
  - split.
    + intros o1 Ho1 Hm Hk. assert (o1 = o) as -> by congruence. left. exists o'. rewrite Hmu. auto.
    + by apply keeps_same.
    + intros o1 Ho1 Hm. assert (o1 = o') as -> by congruence. left. exists o. split; [done|]. split; [done|congruence].
  - intros run o1 Hn Hs. congruence.
Qed.

Lemma write_read_birth o' :
  ActiveOperation s = None -> ActiveOperation s' = Some o' -> mutates o' = false -> lock_free o' ->
  UnresolvedRun s' = UnresolvedRun s -> write_ok r w base after.
Proof.
  intros Ha Ha' Hm Hlf Hu. split.
  - intros o Ho. assert (o = o') as -> by congruence. split; [done|congruence].
  - split; [intros o; congruence|by apply keeps_same|]. intros o Ho. congruence.
  - intros run o Hn Hs. congruence.
Qed.

(** Every copy that reads as a record is of a run that was resolved. *)
Definition resolved_copy (s : PtahMigrationStatus) (copied : option string) : Prop :=
  forall value d, copied = Some value -> decodeUnresolvedRunCopy r value = Some d ->
    exists resolved, ResolvedRun s = Some resolved /\ ResolvedOperationID resolved = RunOperationID d.

Lemma write_apply_birth o' :
  ActiveOperation s' = Some o' -> mutates o' = true -> authorized w base o' ->
  UnresolvedRun s' = UnresolvedRun s -> ResolvedRun s' = ResolvedRun s -> resolved_copy s (copy base) -> write_ok r w base after.
Proof.
  intros Ha' Hm Hauth Hu Hr Hrc. pose proof Hauth as (Ha & Hun & _). split.
  - intros o Ho. assert (o = o') as -> by congruence. split; [congruence|]. intros _. rewrite Hu, Hun, Hcopy, Hr.
    intros value d Hv Hd. right. by apply Hrc in Hd.
  - split; [intros o; congruence|by apply keeps_same|]. intros o Ho _. assert (o = o') as -> by congruence. by right.
  - intros run o Hn Hs. congruence.
Qed.

(** The record is restored from its copy while no Apply stands. *)
Lemma write_restored run :
  UnresolvedRun s = None -> ActiveOperation s' = ActiveOperation s -> reading s -> UnresolvedRun s' = Some run -> write_ok r w base after.
Proof.
  intros Hn Ha Hrd Hs. split.
  - intros o. rewrite Ha. intros Ho. destruct (Hcoh o Ho) as [Hl _]. split; [done|]. by rewrite (Hrd o Ho).
  - split.
    + intros o Ho Hm. by rewrite (Hrd o Ho) in Hm.
    + intros run0. congruence.
    + intros o. rewrite Ha. intros Ho Hm. by rewrite (Hrd o Ho) in Hm.
  - intros run0 o _ _ Ho Hm. by rewrite (Hrd o Ho) in Hm.
Qed.
End kinds.

(** ** Interpreted programs *)

Section interpreted.
Context (r : Manager) {E : Type -> Type} (h : forall X, E X -> M X).

Lemma wpm_interp_bind {A B} (p : prog E A) (f : A -> prog E B) Q m w :
  wpm r (interp h p) (fun a m' w' => wpm r (interp h (f a)) Q m' w') m w -> wpm r (interp h (pbind p f)) Q m w.
Proof.
  unfold wpm. revert m w. induction p as [a|X e k IH]; intros m w; [done|]. cbn [interp pbind]. intros H.
  apply wp_bind. assert (Hinv : forall (q : prog ctlE (X * PtahMigration)) g R v,
    wp (ctl_spec r) (pbind q g) R v -> wp (ctl_spec r) q (fun xs v' => wp (ctl_spec r) (g xs : prog ctlE (A * PtahMigration)) R v') v).
  { intros q g R. induction q as [xs|Y e' k' IHq]; intros v; [done|]. intros [Hpre Hk]. split; [done|]. intros y v' Hy. by apply IHq, Hk. }
  apply Hinv in H. eapply wp_mono; [|exact H]. intros [x m'] w'. cbn. apply IH.
Qed.

Lemma wpm_interp_call {X B} (e : E X) (f : X -> prog E B) Q m w :
  wpm r (h X e) (fun x m' w' => wpm r (interp h (f x)) Q m' w') m w -> wpm r (interp h (pbind (call e) f)) Q m w.
Proof. intros H. unfold wpm. cbn [interp pbind call]. apply wp_bind. exact H. Qed.
End interpreted.

(** ** Fields the small assignments leave alone *)

Lemma lift_fields refusals reason s :
  let s' := liftMigrationRefusal refusals reason s in
  ActiveOperation s' = ActiveOperation s /\ UnresolvedRun s' = UnresolvedRun s /\ ResolvedRun s' = ResolvedRun s /\
  PendingLockRelease s' = PendingLockRelease s /\ LastRun s' = LastRun s.
Proof. unfold liftMigrationRefusal. repeat (case_goal; cbn); done. Qed.

Lemma lift_benign refusals reason s : benign s (liftMigrationRefusal refusals reason s).
Proof. destruct (lift_fields refusals reason s) as (? & ? & ? & _). done. Qed.
Lemma benign_lift s s' refusals reason : benign s s' -> benign s (liftMigrationRefusal refusals reason s').
Proof. intros H. eapply benign_trans; [exact H|apply lift_benign]. Qed.
Lemma benign_condition s s' type status_ reason : benign s s' -> benign s (setMigrationCondition type status_ reason s').
Proof. done. Qed.
Lemma target_failure_benign e s : benign s (setMigrationTargetFailure e s).
Proof. unfold setMigrationTargetFailure. repeat (case_goal; cbn); done. Qed.

Lemma retired_fields operation disposition may s :
  let s' := retired_status operation disposition may s in
  ActiveOperation s' = (if bool_decide (disposition = DispositionUnaccounted) && may then operation else None) /\
  UnresolvedRun s' = UnresolvedRun s /\ ResolvedRun s' = ResolvedRun s /\ LastRun s' = LastRun s /\
  (match operation with Some o => OpLeaseEpoch o = EmptyString | None => True end -> PendingLockRelease s' = PendingLockRelease s).
Proof.
  unfold retired_status, stageMigrationLockRelease. destruct operation as [o|]; cbn -[Releases].
  2: { destruct (Releases _); done. }
  destruct (empty (OpLeaseEpoch o)) eqn:E.
  - destruct (Releases _); done.
  - assert (OpLeaseEpoch o <> EmptyString) by (intros H; by rewrite H in E).
    destruct (Releases _); cbn; [done| |done]. repeat (case_goal; cbn); done.
Qed.

Lemma holdsLock_mutates o : holdsLock (Some o) = mutates o.
Proof.
  unfold holdsLock, mutates, mutating, migrationOperation, MigrationOperation.
  apply (table_lookup migrationOperations (fun k => MutationLifecycle.HoldsLock k false = MutationLifecycle.Mutating k)); [done|].
  apply (bool_decide_eq_true_1 _). vm_compute. reflexivity.
Qed.

Section operations.
Context (r : Manager).
Context (decodes : DecodesCopies r).
Abbreviation wpm := (wpm r).
(** The pass ends with the program: every call of it meets its requirement. *)
Definition ends {A} (p : M A) (m : PtahMigration) (w : world) : Prop := wpm p (fun _ _ _ => True) m w.

Lemma ends_quiet {A} (p : M A) m w : quiet r p -> ends p m w.
Proof. intros Hp. by apply wpm_quiet. Qed.
Lemma ends_ret {A} (a : A) m w : ends (ret a) m w.
Proof. done. Qed.

(** Writing over the resource as it was read. *)
Lemma wpm_write before Q m w :
  clean before w -> coherent r (Status_ before) (copy before) -> copy m = copy before -> MUID m = MUID before -> write_ok r w before m ->
  (forall e m' w', Q (Some e) m' w') -> (forall m' w', written r before m m' w w' -> Q None m' w') ->
  wpm (patchMigrationStatus r before) Q m w.
Proof. apply (wpm_patch r decodes). Qed.

(** ** Handing the realm back *)

Lemma wpm_locking {A} before (p : prog lockE A) Q m w :
  (forall a w', later w w' -> Q a m w') -> wpm (interp (on_release r before) (locking p)) Q m w.
Proof.
  revert w. induction p as [a|X e k IH]; intros w HQ; [by apply HQ|]. cbn [locking interp].
  apply (wpm_interp_call r (on_release r before) (OnLock e) (fun x => locking (k x))). apply wpm_ask; [done|]. intros x w1 L1 _. apply IH.
  intros a w2 L2. apply HQ. by transitivity w1.
Qed.

Lemma ends_complete m w :
  clean m w -> coherent r (Status_ m) (copy m) -> ends (completeMigrationPendingLockRelease r) m w.
Proof.
  intros Hcl Hcoh. unfold ends, completeMigrationPendingLockRelease. wstep. apply wpm_bind.
  eapply wpm_mono; [|intros a m' w' H; exact H]. unfold CompleteRelease.
  destruct (PendingLockRelease (Status_ m)) as [release|]; [|done]. cbn [negb]. destruct (MutationLifecycle.incomplete _ _ _ _); [done|].
  apply wpm_interp_bind, wpm_locking. intros [[]|e] w' L; [|done]. advance L.
  apply wpm_interp_call. cbn [on_release]. wstep. apply wpm_bind, (wpm_write m); try done.
  by apply write_benign.
Qed.

Lemma wpm_retire before disposition may Q m w :
  let after := with_status (retired_status (ActiveOperation (Status_ before)) disposition may) m in
  clean before w -> coherent r (Status_ before) (copy before) -> copy m = copy before -> MUID m = MUID before -> write_ok r w before after ->
  (forall e m' w', Q (Some e) m' w') ->
  (forall m' w', written r before after m' w w' -> PendingLockRelease (Status_ m') = None -> Q None m' w') ->
  (PendingLockRelease (Status_ after) <> None -> forall m' w', Q None m' w') ->
  wpm (retireMigrationClaim r before disposition may) Q m w.
Proof.
  intros after Hcl Hcoh Hc Hu Hok Herr Hdone Howed. unfold retireMigrationClaim. wstep. fold after.
  apply wpm_bind, (wpm_write before); try done. intros m' w' Hw. wstep.
  destruct (PendingLockRelease (Status_ m')) as [release|] eqn:E; [|by wstep; apply Hdone].
  apply wpm_bind. eapply wpm_mono; [apply ends_complete; apply Hw|].
  intros a m2 w2 _. wstep. apply Howed. rewrite <- (wr_status _ _ _ _ _ _ Hw). by rewrite E.
Qed.

(** The usual end of a retirement. *)
Lemma ends_retire before disposition may (k : option ctl_error -> M answer) m w :
  clean before w -> coherent r (Status_ before) (copy before) -> copy m = copy before -> MUID m = MUID before ->
  write_ok r w before (with_status (retired_status (ActiveOperation (Status_ before)) disposition may) m) ->
  (forall e m' w', ends (k e) m' w') -> ends (mbind_ (retireMigrationClaim r before disposition may) k) m w.
Proof. intros ? ? ? ? ? Hk. apply wpm_bind, wpm_retire; try done; intros; apply Hk. Qed.

(** A claim without a Job goes, with whatever else is only reported. *)
Lemma write_discard before m w disposition may :
  coherent r (Status_ before) (copy before) -> copy m = copy before -> benign (Status_ before) (Status_ m) -> undispatched (Status_ before) ->
  bool_decide (disposition = DispositionUnaccounted) && may = false ->
  write_ok r w before (with_status (retired_status (ActiveOperation (Status_ before)) disposition may) m).
Proof.
  intros Hcoh Hc (Ba & Bu & Br) Hu Hd.
  destruct (retired_fields (ActiveOperation (Status_ before)) disposition may (Status_ m)) as (Ea & Eu & Er & _). rewrite Hd in Ea.
  apply write_clear; try done.
  - apply keeps_same. cbn -[retired_status]. by rewrite Eu.
  - intros Hn. cbn -[retired_status]. by rewrite Eu, Bu.
Qed.

Lemma ends_write before (k : option ctl_error -> M answer) m w :
  clean before w -> coherent r (Status_ before) (copy before) -> copy m = copy before -> MUID m = MUID before -> write_ok r w before m ->
  (forall e m' w', ends (k e) m' w') -> ends (mbind_ (patchMigrationStatus r before) k) m w.
Proof. intros ? ? ? ? ? Hk. apply wpm_bind, (wpm_write before); try done; intros; apply Hk. Qed.

Lemma ends_err (e : option ctl_error) (p : M answer) m w :
  (e = None -> ends p m w) -> ends match e with Some e => ret (failed e) | None => p end m w.
Proof. destruct e; [done|]. intros H. by apply H. Qed.

Lemma ends_record_failure before failure m w :
  clean before w -> coherent r (Status_ before) (copy before) -> copy m = copy before -> MUID m = MUID before ->
  benign (Status_ before) (Status_ m) -> undispatched (Status_ before) ->
  ends (recordMigrationOperationFailure r before failure) m w.
Proof.
  intros Hcl Hcoh Hc Hu Hb Hun. unfold ends, recordMigrationOperationFailure. wsteps.
  destruct (ActiveOperation (Status_ before)) eqn:Ha.
  - apply ends_retire; try done; [by apply write_discard|]. intros e m' w'. apply ends_err. intros _. apply ends_quiet. auto with quiet.
  - apply ends_write; try done; [by apply write_benign|]. intros e m' w'. apply ends_err. intros _. apply ends_quiet. auto with quiet.
Qed.

Section from_clean.
Context (m : PtahMigration) (w : world) (Hcl : clean m w) (Hcoh : coherent r (Status_ m) (copy m)).

Lemma ends_failure failure : undispatched (Status_ m) -> ends (migrationOperationFailure r failure) m w.
Proof. intros Hu. unfold ends, migrationOperationFailure. wstep. by apply ends_record_failure. Qed.

Lemma ends_claimRefused failure : undispatched (Status_ m) -> ends (claimRefused r failure) m w.
Proof. intros Hu. unfold ends, claimRefused. wsteps. apply ends_record_failure; try done. apply lift_benign. Qed.

Lemma ends_discard failure : undispatched (Status_ m) -> ends (discardMigrationOperation r failure) m w.
Proof.
  intros Hu. unfold ends, discardMigrationOperation. wsteps. apply ends_retire; try done; [by apply write_discard|].
  intros e m' w'. by apply ends_err.
Qed.

(** A write that only reports. *)
Lemma ends_report f (k : option ctl_error -> M answer) :
  benign (Status_ m) (f (Status_ m)) -> (forall e m' w', ends (k e) m' w') ->
  ends (mbind_ (patchMigrationStatus r m) k) (with_status f m) w.
Proof. intros Hb Hk. apply ends_write; try done. by apply write_benign. Qed.

Lemma ends_realmBlocked reason : ends (migrationRealmBlocked r reason) m w.
Proof.
  unfold ends, migrationRealmBlocked. wstep. wstep. wstep. apply ends_write; try done; [by apply write_benign|].
  intros e m' w'. apply ends_err. intros _. apply ends_quiet. quiet_tac.
Qed.

Lemma ends_blocked reason : ends (migrationBlocked r reason) m w.
Proof.
  unfold ends, migrationBlocked. wsteps. apply ends_report; [|done]. by destruct (bool_decide _).
Qed.
End from_clean.

(** ** Retrying a read *)

Lemma ends_retry job reason failure m w :
  clean m w -> coherent r (Status_ m) (copy m) -> reading (Status_ m) -> ends (retryMigrationOperationAs r job reason failure) m w.
Proof.
  intros Hcl Hcoh Hrd. unfold ends, retryMigrationOperationAs. wstep. destruct x as [e|]; [done|]. wstep.
  destruct (ActiveOperation (Status_ m)) as [o|] eqn:Ho; [|done]. do 3 wstep.
  match goal with x : result ctl_error string |- _ => destruct x end; [|apply ends_failure; [done|done|by apply reading_undispatched]].
  wstep. wstep. apply ends_write; try done.
  - pose proof (Hrd o Ho) as Hm. destruct (Hcoh o Ho) as [Hl _]. eapply write_claim_ok; [exact Hcoh|done|exact Ho|..].
    + refine (eq_trans (proj1 (target_failure_benign _ _)) _). reflexivity.
    + done.
    + done.
    + exact Hl.
    + by rewrite Hm.
    + exact (proj1 (proj2 (target_failure_benign _ _))).
    + exact (proj2 (proj2 (target_failure_benign _ _))).
  - intros e m' w'. apply ends_err. intros _. apply ends_quiet. quiet_tac.
Qed.

Lemma ends_retry_operation job failure m w :
  clean m w -> coherent r (Status_ m) (copy m) -> reading (Status_ m) -> ends (retryMigrationOperation r job failure) m w.
Proof. intros. by apply ends_retry. Qed.

(** ** Runs *)

Lemma uncertain_fields m o run failure target recorded next s :
  exists u, UnresolvedRun (uncertain_status r m o run failure target recorded next s) = Some u /\ RunOperationID u = OpID o.
Proof.
  eexists. split; [refine (eq_trans (proj1 (proj2 (target_failure_benign _ _))) _); reflexivity|done].
Qed.

Lemma ends_retireUncertain job failure target may m w o :
  clean m w -> coherent r (Status_ m) (copy m) -> ActiveOperation (Status_ m) = Some o -> mutates o = true ->
  ends (retireUncertainMigrationApply r job failure target may) m w.
Proof.
  intros Hcl Hcoh Ho Hm. unfold ends, retireUncertainMigrationApply. wstep. rewrite Ho. wsteps.
  apply ends_retire; try done.
  - match goal with |- write_ok _ _ _ (with_status (retired_status ?op ?d ?b) ?m1) =>
      destruct (retired_fields op d b (Status_ m1)) as (Ea & Eu & _) end.
    destruct (uncertain_fields m o (recordMigrationRunProvenance m o target (uncertain_run o job x0)) failure target x1
      (x2 + migrationInterval (Interval (Spec m))) (Status_ m)) as (run & Hr & Hid).
    eapply write_unaccounted; [exact Hcoh|exact Ho|exact Hm|exact (eq_trans Eu Hr)|exact Hid|].
    destruct may; [right|left]; refine (eq_trans Ea _); [exact Ho|done].
  - intros e m' w'. apply ends_err. intros _. destruct may; [done|]. apply ends_quiet. auto with quiet.
Qed.

Lemma ends_finishUncertain job failure target m w o :
  clean m w -> coherent r (Status_ m) (copy m) -> ActiveOperation (Status_ m) = Some o -> mutates o = true ->
  ends (finishUncertainMigrationApply r job failure target) m w.
Proof.
  intros Hcl Hcoh Ho Hm. unfold ends, finishUncertainMigrationApply. wstep. rewrite Ho. wstep. by eapply ends_retireUncertain.
Qed.

(** ** The lock *)

Definition holds_claimed (m : PtahMigration) (w : world) : Prop :=
  forall o, ActiveOperation (Status_ m) = Some o -> mutates o = true -> holds_realm r (MUID m) o (w_log w).

Lemma wpm_tryLock (Q : lock_answer -> PtahMigration -> world -> Prop) m w :
  clean m w -> coherent r (Status_ m) (copy m) ->
  (forall a w', later w w' -> (a.1.1.1 = true -> holds_claimed m w') -> Q a m w') -> (forall q e m' w', Q (false, false, q, e) m' w') ->
  wpm (tryMigrationApplyLock r) Q m w.
Proof.
  intros Hcl Hcoh Hsame Hend. unfold tryMigrationApplyLock. wstep.
  destruct (ActiveOperation (Status_ m)) as [o|] eqn:Ho; [|wstep; apply Hsame; [done|]; intros _ o; congruence].
  destruct (holdsLock (Some o)) eqn:Hl; cbn [negb]; rewrite holdsLock_mutates in Hl; [|wstep; apply Hsame; [done|]; intros _ o'; congruence].
  destruct (blank _); [by wstep; apply Hsame|]. destruct (_ || _); [by wstep; apply Hsame|].
  apply wpm_bind, (wpm_acquire r (lock_request r (MUID m) o)). intros x w1 L1 Htook Hbad. destruct x as [result|e]; [|by wstep; apply Hsame].
  destruct (Acquired result) eqn:Hacq; cbn [negb]; [|by wstep; apply Hsame]. destruct (bool_decide _ && _) eqn:Hkept.
  { wstep. apply Hsame; [done|]. intros _ o' Ho' _. rewrite Ho in Ho'. injection Ho' as <-. bool_prop.
    destruct (validate _ _ _) as [v|e'] eqn:Hv in Htook, Hbad; [|by specialize (Hbad _ eq_refl)].
    destruct (Htook v result eq_refl eq_refl Hacq) as (more & Hlog & Ht). eapply took_holds; [exact Hv|exact Ht|exact Hlog|done|done]. }
  clear Htook Hbad Hkept. advance L1. wsteps. apply wpm_bind, (wpm_write m); try done.
  - match goal with |- context [update LeaseContinuityLost ?l _] => set (lost := l) end. clearbody lost.
    apply (write_claim_ok r _ m _ Hcoh) with (o := o) (o' := o <| OpLeaseEpoch := Epoch result |> <| LeaseContinuityLost := lost |>); try done.
    + cbn. destruct lost, (bool_decide _); done.
    + intros Hf. change (mutates o = false) in Hf. congruence.
    + intros _ Hk. by left.
    + cbn. destruct lost, (bool_decide _); done.
    + cbn. destruct lost, (bool_decide _); done.
  - intros e m' w'. wstep. apply Hend.
  - intros m' w' _. wstep. apply Hend.
Qed.

Lemma wpm_waitLock (Q : bool * Z * option ctl_error -> PtahMigration -> world -> Prop) m w :
  clean m w -> coherent r (Status_ m) (copy m) ->
  (forall a w', later w w' -> (a.1.1 = true -> holds_claimed m w') -> Q a m w') -> (forall q e m' w', Q (false, q, e) m' w') ->
  wpm (waitForMigrationApplyLock r) Q m w.
Proof.
  intros Hcl Hcoh Hsame Hend. unfold waitForMigrationApplyLock. apply wpm_bind, wpm_tryLock; [done|done|..].
  - intros [[[a c] q] e] w1 L1 Hh. destruct (_ || _); [by wstep; apply Hsame|]. advance L1. wsteps.
    apply wpm_bind, (wpm_write m); try done; [by apply write_benign|..]; intros; wstep; apply Hend.
  - intros q e m' w'. rewrite orb_true_r. wstep. apply Hend.
Qed.

Lemma ends_acquireLock {A} (k : bool * Z * option ctl_error -> M A) m w :
  clean m w -> coherent r (Status_ m) (copy m) -> (forall a m' w', ends (k a) m' w') -> ends (mbind_ (acquireMigrationApplyLock r) k) m w.
Proof.
  intros Hcl Hcoh Hk. unfold ends, acquireMigrationApplyLock. apply wpm_bind, wpm_bind, wpm_tryLock; [done|done|..].
  - intros [[[a c] q] e] w1 _ _. wstep. apply Hk.
  - intros q e m' w'. wstep. apply Hk.
Qed.

Lemma ends_reconcileUnaccounted m w :
  clean m w -> coherent r (Status_ m) (copy m) -> unaccounted_apply (Status_ m) = true -> ends (reconcileUnaccountedMigrationApply r) m w.
Proof.
  intros Hcl Hcoh Hun. unfold ends, reconcileUnaccountedMigrationApply. wstep. unfold unaccounted_apply in Hun.
  destruct (ActiveOperation (Status_ m)) as [o|] eqn:Ho; [|done]. destruct (UnresolvedRun (Status_ m)) as [run|] eqn:Hr; [|done]. bool_prop.
  wstep. destruct x; [apply ends_acquireLock; try done; intros a m' w'; by destruct a.2|].
  wstep. apply ends_retire; try done; [|by intros e m' w'; apply ends_err].
  destruct (retired_fields (ActiveOperation (Status_ m)) DispositionUnaccounted false (Status_ m)) as (Ea & Eu & _).
  eapply write_unaccounted; [exact Hcoh|exact Ho|done|exact (eq_trans Eu Hr)|done|]. left. exact Ea.
Qed.

(** ** A run that reported *)

Lemma recorded_run_fields m o job run target finishedAt :
  let last := recorded_run m o job run target finishedAt in LastOperationID last = OpID o /\ LastOutcome last = AccountOutcome run.
Proof. unfold recorded_run, recordMigrationRunProvenance. destruct (MigrationPlanSource _ _ _), (is_sha256_digest target); done. Qed.

Lemma recorded_status_fields m o run last target t s :
  let s' := recorded_status r m o run last target t s in
  if MigrationRunUnresolved (AccountOutcome run) then exists u, UnresolvedRun s' = Some u /\ RunOperationID u = OpID o
  else UnresolvedRun s' = UnresolvedRun s /\ LastRun s' = Some last.
Proof.
  unfold recorded_status, setMigrationTargetFailure.
  destruct (MigrationRunUnresolved _); [eexists; split; [done|done]|].
  destruct (StoppedBeforeSelecting_ run), (OpenedTarget run), (TargetFailure run) as [[]|]; done.
Qed.

Lemma ends_recordMigrationRun job run target m w o :
  clean m w -> coherent r (Status_ m) (copy m) -> ActiveOperation (Status_ m) = Some o -> mutates o = true ->
  ends (recordMigrationRun r job run target) m w.
Proof.
  intros Hcl Hcoh Ho Hm. unfold ends, recordMigrationRun. wstep. rewrite Ho. wstep. destruct x as [e|]; [done|]. wsteps.
  apply ends_retire; try done; [|by intros e m' w'; apply ends_err].
  set (last := recorded_run m o job run target x). destruct (recorded_run_fields m o job run target x) as [Hid Hout]. fold last in Hid, Hout.
  pose proof (recorded_status_fields m o run last target x0 (Status_ m)) as Hs. cbn zeta in Hs.
  match goal with |- write_ok _ _ _ (with_status (retired_status ?op ?d ?b) ?m1) =>
    destruct (retired_fields op d b (Status_ m1)) as (Ea & Eu & _ & El & _) end.
  destruct (MigrationRunUnresolved (AccountOutcome run)) eqn:Hunres.
  - destruct Hs as (u & Hu & Huid). eapply write_unaccounted; [exact Hcoh|exact Ho|exact Hm|exact (eq_trans Eu Hu)|exact Huid|left; exact Ea].
  - destruct Hs as [Hu Hl]. eapply write_recorded; [exact Ho|exact Ea|exact (eq_trans Eu Hu)|exact (eq_trans El Hl)|exact Hid|by rewrite Hout].
Qed.

Lemma ends_settleMigrationApply job reported m w o :
  clean m w -> coherent r (Status_ m) (copy m) -> ActiveOperation (Status_ m) = Some o -> mutates o = true ->
  ends (settleMigrationApply r job reported) m w.
Proof.
  intros Hcl Hcoh Ho Hm. unfold ends, settleMigrationApply. wstep. rewrite Ho.
  destruct (ReportedRun reported); [destruct (_ && _)|]; [eapply ends_finishUncertain|eapply ends_recordMigrationRun|eapply ends_finishUncertain]; eauto.
Qed.

Lemma ends_settleUnread job parseErr m w o :
  clean m w -> coherent r (Status_ m) (copy m) -> ActiveOperation (Status_ m) = Some o -> mutates o = true ->
  ends (settleUnreadMigrationApply r job parseErr) m w.
Proof.
  intros Hcl Hcoh Ho Hm. unfold ends, settleUnreadMigrationApply. wstep.
  destruct x; [eapply ends_settleMigrationApply|eapply ends_finishUncertain]; eauto.
Qed.

(** ** The results of reads *)

(** What a reading says of a run nobody accounted for. *)
Definition reading_settles (result : RunnerResult) (run : UnresolvedMigrationRunStatus) : Prop :=
  exists report, ResMigrationHistory result = Some report /\ Pending report = [] /\ DirtyRevision report = None /\
    Modified report = [] /\ OutOfOrder report = [] /\
    (RunTargetIdentityDigest run = EmptyString \/ RunTargetIdentityDigest run = ResTargetIdentityDigest result).
(** A consumed result keeps the claim and the lock for the retirement, and the
    record of an unresolved run unless it settles it. *)
Definition consumes (result : RunnerResult) (s s' : PtahMigrationStatus) : Prop :=
  ActiveOperation s' = ActiveOperation s /\ PendingLockRelease s' = PendingLockRelease s /\
  (UnresolvedRun s' = UnresolvedRun s \/
   (UnresolvedRun s' = None /\ forall run, UnresolvedRun s = Some run ->
      exists res, ResolvedRun s' = Some res /\ ResolvedOperationID res = RunOperationID run /\ reading_settles result run)).

Ltac consumes_same := split; [done|]; split; [done|]; by left.

Lemma recordMigrationHistory_fields report result t s s' :
  ResMigrationHistory result = Some report ->
  recordMigrationHistory report (ResTargetIdentityDigest result) t s = Ok s' -> consumes result s s'.
Proof.
  intros Hrep. unfold recordMigrationHistory. destruct (MigrationPlan.HistoryFingerprint report) as [fp|]; [|done]. cbn zeta. intros [= <-].
  set (hist := history_of _ _ _ _).
  destruct (DirtyRevision report) eqn:Hdirty; [consumes_same|].
  destruct (bool_decide_reflect (Modified report = [])) as [Hmod|]; cbn [negb]; [|consumes_same].
  destruct (bool_decide_reflect (OutOfOrder report = [])) as [Hooo|]; cbn [negb]; [|consumes_same].
  destruct (bool_decide_reflect (is_Some (UnresolvedRun s))) as [Hsome|Hnone]; cbn [andb].
  2: { destruct (_ <? _); [consumes_same|]. destruct (bool_decide _); [|consumes_same].
       unfold settle_unresolved. cbn. destruct (UnresolvedRun s) as [run|] eqn:E; [by destruct Hnone|]. consumes_same. }
  destruct (migrationUnresolvedRunSettledBy (UnresolvedRun s) hist (Pending report)) eqn:Hset; cbn [negb]; [|consumes_same].
  destruct (_ <? _); [consumes_same|]. destruct (bool_decide_reflect (Pending report = [])) as [Hpend|]; [|consumes_same].
  destruct Hsome as [run Hrun]. unfold settle_unresolved. cbn. rewrite Hrun. split; [done|]. split; [done|]. right. split; [done|].
  intros run0 Hrun0. assert (run0 = run) as -> by congruence. eexists. split; [done|]. split; [done|]. exists report. do 5 (split; [done|]). unfold migrationUnresolvedRunSettledBy in Hset. rewrite Hrun, Hpend in Hset. cbn in Hset.
  destruct (empty (RunTargetIdentityDigest run)) eqn:E; [left|right]; [|by bool_prop].
  unfold empty in E. by bool_prop.
Qed.

Lemma consumes_trans result s s1 s2 :
  consumes result s s1 -> benign s1 s2 -> PendingLockRelease s2 = PendingLockRelease s1 -> consumes result s s2.
Proof. unfold consumes. intros (E1 & E2 & H) (E3 & E4 & E5) E6. rewrite E3, E4, E5, E6. done. Qed.

Lemma verification_benign s : benign s (recordMigrationRunVerification s) /\ PendingLockRelease (recordMigrationRunVerification s) = PendingLockRelease s.
Proof. unfold recordMigrationRunVerification. repeat (case_goal; cbn); done. Qed.
Lemma requirement_benign s : benign s (endMigrationApprovalRequirement s) /\ PendingLockRelease (endMigrationApprovalRequirement s) = PendingLockRelease s.
Proof. unfold endMigrationApprovalRequirement. repeat (case_goal; cbn); done. Qed.
Lemma lift_consumes result refusals reason s s' : consumes result s s' -> consumes result s (liftMigrationRefusal refusals reason s').
Proof.
  intros H. eapply consumes_trans; [exact H|apply lift_benign|]. destruct (lift_fields refusals reason s') as (_ & _ & _ & ? & _). done.
Qed.

Lemma condition_consumes result type status reason s s' : consumes result s s' -> consumes result s (setMigrationCondition type status reason s').
Proof. intros H. by eapply consumes_trans. Qed.

Lemma wpm_consume_operation o result (Q : consumption -> PtahMigration -> world -> Prop) m w :
  (forall a w', later w w' -> (forall f report, a = Consume f report -> consumes result (Status_ m) (f (Status_ m))) -> Q a m w') ->
  wpm (consume_operation o result) Q m w.
Proof.
  intros HQ. unfold consume_operation. destruct (bool_decide _); [|destruct (bool_decide _); [|destruct (bool_decide _)]].
  - unfold consume_resolve. wstep. destruct (ArtifactGit _) as [git|].
    + apply wpm_ask_bind; [done|]. intros x w1 L1 _. destruct x as [revision|e]; [|by wstep; apply HQ].
      apply wpm_ask_bind; [done|]. intros y w2 L2 _. wstep. apply HQ; [by transitivity w1|]. intros f report.
      destruct y as [policy|[]]; try done. intros [= <- <-]. unfold resolved_git, endMigrationRefusal.
      apply condition_consumes, lift_consumes. consumes_same.
    + destruct (_ || _); [by wstep; apply HQ|]. apply wpm_ask_bind; [done|]. intros x w1 L1 _.
      destruct x; cbn [negb]; wstep; apply HQ; try done. intros f report [= <- <-]. unfold resolved_oci.
      destruct (MArtifact (Status_ m)) as [a|]; [destruct (negb _)|]; try apply lift_consumes; consumes_same.
  - destruct (negb _); wstep; apply HQ; try done. intros f report [= <- <-]. apply lift_consumes. consumes_same.
  - unfold consume_history. destruct (ResMigrationHistory result) as [report|] eqn:Hrep; [|by wstep; apply HQ].
    destruct (negb _); [by wstep; apply HQ|]. apply wpm_quiet_bind; [auto with quiet|]. intros t w1 L1. wstep.
    destruct (recordMigrationHistory _ _ _ _) as [s'|] eqn:Hs; [|by wstep; apply HQ].
    pose proof (recordMigrationHistory_fields _ _ _ _ _ Hrep Hs) as Hc. destruct (verification_benign s') as [Hb Hp].
    assert (Hc2 : consumes result (Status_ m) (setMigrationTargetOpened (recordMigrationRunVerification s'))) by (by eapply consumes_trans).
    cbn zeta. destruct (bool_decide _); wstep; apply HQ; try done; intros f rep [= <- <-]; [done|].
    match goal with |- consumes _ _ (endMigrationApprovalRequirement ?x) => destruct (requirement_benign x) as [Hb3 Hp3]; eapply (consumes_trans _ _ x); try done end.
  - wstep. by apply HQ.
Qed.

Lemma wpm_publishMigrationPlan report (Q : option ctl_error -> PtahMigration -> world -> Prop) m w :
  (forall e w', later w w' -> Q (Some e) m w') ->
  (forall f w', later w w' -> benign (Status_ m) (f (Status_ m)) -> Q None (with_status f m) w') ->
  wpm (publishMigrationPlan r report) Q m w.
Proof.
  intros Herr HQ. unfold publishMigrationPlan. wstep.
  destruct (MExecutionBinding (Status_ m)) as [binding|]; [|by wstep; apply Herr].
  destruct (History (Status_ m)) as [history|]; [|by wstep; apply Herr].
  destruct (MArtifact (Status_ m)) as [artifact|]; [|by wstep; apply Herr].
  destruct (Sequence report) as [planned|]; [|by wstep; apply Herr].
  destruct (SequenceDigest planned) as [digest|]; [|by wstep; apply Herr]. cbn zeta.
  apply wpm_quiet_bind; [quiet_tac|]. intros policy w1 L1.
  destruct policy as [policy|]; [|by wstep; apply Herr].
  destruct (Fingerprint.Digest _ _) as [coordination|]; [|by wstep; apply Herr].
  destruct (BFingerprint _) as [fingerprint|]; [|by wstep; apply Herr].
  apply wpm_quiet_bind; [auto with quiet|]. intros t w2 L2. apply wpm_quiet_bind; [auto with quiet|]. intros stored w3 L3.
  assert (L : later w w3) by (etransitivity; [exact L1|]; etransitivity; [exact L2|exact L3]).
  destruct stored as [plan|]; [|by wstep; apply Herr]. wsteps. apply HQ; [done|].
  unfold applyMigrationPolicyPhase. destruct (bool_decide _); [done|]. by destruct (bool_decide _).
Qed.

Lemma ends_publish_pending report m w :
  clean m w -> coherent r (Status_ m) (copy m) -> ActiveOperation (Status_ m) = None -> ends (publish_pending r report) m w.
Proof.
  intros Hcl Hcoh Ha. unfold ends, publish_pending. destruct report as [report|]; [|done]. wstep.
  apply wpm_bind, wpm_publishMigrationPlan.
  - intros e w' L. advance L. apply ends_failure; try done. intros o Ho. congruence.
  - intros f w' L Hb. advance L. wstep. wstep. destruct x as [e|]; [done|]. apply ends_report; try done.
    intros e m' w2. by apply ends_err.
Qed.

(** Reading the result of a read, once it was read from its Job. *)
Lemma ends_consumeMigrationResult job job0 result m w :
  clean m w -> coherent r (Status_ m) (copy m) -> reading (Status_ m) -> PendingLockRelease (Status_ m) = None ->
  seen (TerminalLogs job0) (Evidence (Ok result)) (w_log w) -> ends (consumeMigrationResult r job result) m w.
Proof.
  intros Hcl Hcoh Hrd Hpend Hseen. unfold ends, consumeMigrationResult. wstep.
  destruct (ActiveOperation (Status_ m)) as [o|] eqn:Ho; [|done]. apply wpm_bind, wpm_consume_operation.
  intros a w1 L Hc. advance L. clear L. destruct a as [f report|e|e]; [|by apply ends_retry_operation|done]. specialize (Hc f report eq_refl).
  wsteps. destruct x0 as [e|]; [done|]. wsteps. destruct x0 as [e|]; [done|].
  destruct Hc as (Ca & Cp & Cu). destruct (Hcoh o Ho) as [Hlf _]. destruct (Hlf (Hrd o Ho)) as [_ Hep].
  match goal with |- context [retireMigrationClaim r m ?d ?b] => match goal with |- wpm _ _ ?m1 _ =>
    destruct (retired_fields (ActiveOperation (Status_ m)) d b (Status_ m1)) as (Ea & Eu & Er & _ & Ep) end end.
  rewrite Ho in Ep. specialize (Ep Hep).
  apply wpm_bind, wpm_retire; try done.
  - apply write_clear; [exact Ea|by apply reading_undispatched|..].
    + intros run Hr. destruct Cu as [Cu|[Cn Cs]].
      * left. exists run. split; [|done]. refine (eq_trans Eu _). exact (eq_trans Cu Hr).
      * right. split; [exact (eq_trans Eu Cn)|]. destruct (Cs run Hr) as (res & Hres & Hid & rep & H1 & H2 & H3 & H4 & H5 & H6).
        exists res. split; [exact (eq_trans Er Hres)|]. split; [done|]. left. exists job0, result, rep. done.
    + intros Hn. refine (eq_trans Eu _). destruct Cu as [Cu|[Cn _]]; [exact (eq_trans Cu Hn)|exact Cn].
  - intros m' w' Hw _. wstep. apply wpm_quiet_bind; [destruct (bool_decide _); quiet_tac|]. intros _ v L3.
    apply ends_publish_pending; [eapply clean_later; [exact L3|apply Hw]|apply Hw|]. rewrite (wr_status _ _ _ _ _ _ Hw). exact Ea.
  - intros Hne. exfalso. apply Hne. rewrite Ho. exact (eq_trans Ep (eq_trans Cp Hpend)).
Qed.

Lemma ends_refuseMigrationArtifact job result m w :
  clean m w -> coherent r (Status_ m) (copy m) -> reading (Status_ m) -> ends (refuseMigrationArtifact r job result) m w.
Proof.
  intros Hcl Hcoh Hrd. unfold ends, refuseMigrationArtifact. wstep. wstep. wstep. destruct x0; cbn [negb]; [|by apply ends_retry_operation].
  wstep. destruct x0 as [e|]; [done|]. wstep. destruct x0 as [e|]; [done|]. wsteps.
  apply ends_retire; try done; [apply write_discard; try done; by apply reading_undispatched|]. intros e m' w'. by apply ends_err.
Qed.
End operations.
