(* ===== verification/MigrationPass.v ===== *)
(** * A pass of the migration controller keeps the record of what was dispatched

    The dispatch of a claim, the supervision of its Job and the rest of the
    pass, each followed with the lemmas of [MigrationSafety]. *)
From stdpp Require Import base list gmap strings.
From Stdlib Require Import ZArith Lia Ascii.
From S2P Require Import Prelude Effects GoStrings Sha256 Json Fingerprint TargetLock MutationLifecycle PlanStore KubeMeta.
From S2P Require Import SourceContent SourceSnapshot SourceBinding SourcePolicy MigrationStatus MigrationPlan.
From S2P Require Import ResultRetention ApprovalAdmission Cadence RealmCensus DispatchDriver MigrationTypes.
From S2P Require Import MigrationClaims MigrationApply MigrationRuns MigrationResults MigrationDispatch.
From S2P Require Import MigrationReconcile MigrationWorld MigrationProofs MigrationSafety.
From S2P Require Import Prelude.
Local Open Scope go_scope.
Local Open Scope ctl_scope.
Local Open Scope Z_scope.
#[local] Opaque sha256 hex_encode.

Lemma answered_for_written r before m m' w w' id : written r before m m' w w' -> answered_for w id -> answered_for w' id.
Proof. intros [_ _ _ _ _ _ Ej Hp _] H. unfold answered_for. rewrite Ej. intros Hid. destruct (H Hid) as (s & Hs & Ha). exists s. auto. Qed.

Section dispatching.
Context (r : Manager).
Context (decodes : DecodesCopies r).
Abbreviation wpm := (wpm r).
Abbreviation ends := (ends r).

Lemma wpm_write_claim f (Q : option ctl_error -> PtahMigration -> world -> Prop) m w o :
  clean m w -> coherent r (Status_ m) (copy m) -> ActiveOperation (Status_ m) = Some o ->
  OpID (f o) = OpID o -> mutates (f o) = mutates o -> lock_free (f o) ->
  (mutates o = true -> marked o = true -> marked (f o) = true \/ answered_for w (OpID o)) ->
  (forall e m' w', Q (Some e) m' w') ->
  (forall m' w', written r m (with_status (on_claim f) m) m' w w' -> ActiveOperation (Status_ m') = Some (f o) -> Q None m' w') ->
  wpm (write_claim r f) Q m w.
Proof.
  intros Hcl Hcoh Ho Hid Hmu Hlf Hmk Herr HQ. unfold write_claim. wsteps.
  assert (Ha : ActiveOperation (Status_ (with_status (on_claim f) m)) = Some (f o)) by (cbn; by rewrite Ho).
  apply (wpm_write r decodes m); try done.
  - by apply (write_claim_ok r w m _ Hcoh) with (o := o) (o' := f o).
  - intros m' w' Hw. apply HQ; [done|]. by rewrite (wr_status _ _ _ _ _ _ Hw).
Qed.

(** ** The phases of a dispatch *)

Definition claimed (o : MigrationOperationStatus) (m : PtahMigration) (w : world) : Prop :=
  clean m w /\ coherent r (Status_ m) (copy m) /\ ActiveOperation (Status_ m) = Some o.
Definition locked (o : MigrationOperationStatus) (m : PtahMigration) (w : world) : Prop := holds_realm r (MUID m) o (w_log w).
(** Before the mark: no Job of the Apply can exist. Past the lease the pass
    holds the realm; past the consume step the approval is spent. *)
Inductive stage : Type := Fresh | Leased | Spent.
Definition reached (l : stage) (o : MigrationOperationStatus) (m : PtahMigration) (w : world) : Prop :=
  match l with Fresh => True | Leased => locked o m w | Spent => locked o m w /\ spends_approval o (w_log w) end.
Definition ready (l : stage) (o : MigrationOperationStatus) (m : PtahMigration) (w : world) : Prop :=
  claimed o m w /\
  (mutates o = true -> marked o = false /\ UnresolvedRun (Status_ m) = None /\ answered_for w (OpID o) /\ reached l o m w).
(** Marked, and nothing was created yet. *)
Definition armed (o : MigrationOperationStatus) (m : PtahMigration) (w : world) : Prop :=
  claimed o m w /\ (mutates o = true -> OpDispatchStarted o = true /\ UnresolvedRun (Status_ m) = None /\ answered_for w (OpID o) /\ reached Spent o m w).
Definition created_ (o : MigrationOperationStatus) (m : PtahMigration) (w : world) : Prop :=
  claimed o m w /\ (mutates o = true -> OpDispatchStarted o = true).

Lemma claimed_later o m w w' : later w w' -> claimed o m w -> claimed o m w'.
Proof. intros L (Hcl & ?). split; [by eapply clean_later|done]. Qed.
Lemma locked_grew o m w w' : grew w w' -> locked o m w -> locked o m w'.
Proof.
  intros G (v & lease & stored & Hv & Hh & He & Hc). exists v, lease, stored. split; [done|]. split; [done|]. split; [done|].
  destruct Hc as [[? ?]|[? Hread]]; [left|right]; (split; [done || by eapply in_pass_grew|]); [by eapply in_pass_grew|].
  intros Hne. destruct (Hread Hne) as (read & ? & ?). exists read. split; [by eapply in_pass_grew|done].
Qed.
Lemma reached_grew l o m w w' : grew w w' -> reached l o m w -> reached l o m w'.
Proof.
  intros G. destruct l; cbn; [done|by apply locked_grew|]. intros [Hl Hs]. split; [by eapply locked_grew|].
  intros name uid E. destruct (Hs name uid E) as (approval & ? & ? & Hc). exists approval. split; [by eapply in_pass_grew|]. split; [done|].
  destruct Hc; [by left|right; by eapply in_pass_grew].
Qed.
Lemma ready_later l o m w w' : later w w' -> ready l o m w -> ready l o m w'.
Proof.
  intros L [Hc H]. split; [by eapply claimed_later|]. intros Hm. destruct (H Hm) as (? & ? & ? & Hl).
  split; [done|]. split; [done|]. split; [by eapply answered_for_later|]. eapply reached_grew; [apply L|done].
Qed.
Lemma armed_later o m w w' : later w w' -> armed o m w -> armed o m w'.
Proof.
  intros L [Hc H]. split; [by eapply claimed_later|]. intros Hm. destruct (H Hm) as (? & ? & ? & ?).
  split; [done|]. split; [done|]. split; [by eapply answered_for_later|]. eapply reached_grew; [apply L|done].
Qed.
Lemma created_later o m w w' : later w w' -> created_ o m w -> created_ o m w'.
Proof. intros L [Hc H]. split; [by eapply claimed_later|done]. Qed.

Lemma ready_undispatched l o m w : ready l o m w -> undispatched (Status_ m).
Proof. intros [(_ & _ & Ho) H] o' Ho' Hm. assert (o' = o) as -> by congruence. by apply H. Qed.
Lemma claimed_reading o m w : claimed o m w -> mutates o = false -> reading (Status_ m).
Proof. intros (_ & _ & Ho) Hm o' Ho'. congruence. Qed.
Lemma claimed_lock_free o m w : claimed o m w -> lock_free o.
Proof. intros (_ & Hcoh & Ho). exact (proj1 (Hcoh o Ho)). Qed.

(** ** The family before the mark *)

Abbreviation proceeds := (fun (m : PtahMigration) (w : world) (o : @Outcome ctl_error) m' w' => stop o = false -> m' = m /\ later w w').

Lemma wpm_stops (p : M answer) m w : ends p m w -> wpm (stops p) (proceeds m w) m w.
Proof. intros H. unfold stops. apply wpm_bind. eapply wpm_mono; [exact H|]. intros a m' w' _. by wstep. Qed.
Lemma wpm_stops_at (p : M answer) m w w1 : later w w1 -> ends p m w1 -> wpm (stops p) (proceeds m w) m w1.
Proof. intros L H. unfold stops. apply wpm_bind. eapply wpm_mono; [exact H|]. intros a m' w' _. by wstep. Qed.

Lemma ends_answer request schedule m w :
  clean m w -> coherent r (Status_ m) (copy m) -> ends (answerMigrationReadRequest r request schedule) m w.
Proof.
  intros Hcl Hcoh. unfold MigrationSafety.ends, answerMigrationReadRequest. wsteps. apply ends_report; try done.
  intros e m' w'. by apply ends_err.
Qed.

Lemma wpm_Authorize l o m w : ready l o m w -> wpm (Authorize r) (proceeds m w) m w.
Proof.
  intros Hr. pose proof (ready_undispatched _ _ _ _ Hr) as Hun. pose proof Hr as [(Hcl & Hcoh & Ho) _].
  unfold Authorize, on_operation. wstep. rewrite Ho. wstep.
  destruct (Suspend _); [by apply wpm_stops, ends_discard|].
  destruct (unreadableRequestOfFailedMigrationRead r m) as [request|]; [by apply wpm_stops, ends_answer|].
  apply wpm_quiet_bind; [auto with quiet|]. intros way w1 L1. destruct way as [[]|e]; [|..|by wstep].
  { apply wpm_stops_at; [done|]. apply ends_discard; try done. by eapply clean_later. }
  unfold authorize_inputs. wstep. apply wpm_ask_bind; [done|]. intros current w2 L2 _. cbn zeta.
  apply wpm_quiet_bind; [auto with quiet|]. intros t w3 L3.
  assert (L : later w w3) by (etransitivity; [exact L1|]; etransitivity; [exact L2|exact L3]).
  destruct (_ && _).
  { apply wpm_quiet_bind; [auto with quiet|]. intros t' w4 L4. by wstep. }
  assert (Hdisc : forall e, wpm (stops (discardMigrationOperation r e)) (proceeds m w) m w3).
  { intros e. apply wpm_stops_at; [done|]. apply ends_discard; try done. by eapply clean_later. }
  destruct (_ || _), current as [current|e]; try apply Hdisc.
  destruct (bool_decide _); [|wstep; by intros _].
  apply wpm_quiet_bind; [auto with quiet|]. intros bound w4 L4. destruct bound as [e|].
  - apply wpm_stops_at; [by transitivity w3|]. apply ends_discard; try done. eapply clean_later; [|exact Hcl]. by transitivity w3.
  - wstep. intros _. split; [done|]. by transitivity w3.
Qed.

Lemma wpm_AcquireLease l o m w : ready l o m w -> wpm (AcquireLease r) (fun out m' w' => stop out = false -> ready Leased o m' w') m w.
Proof.
  intros Hr. pose proof Hr as [(Hcl & Hcoh & Ho) _]. unfold AcquireLease. apply wpm_bind, wpm_waitLock; try done.
  - intros [[a q] e] w' L Hh. wstep. destruct e; [done|]. destruct a; [|done]. intros _. destruct (ready_later _ _ _ _ _ L Hr) as [Hc Hm].
    split; [done|]. intros Hmu. destruct (Hm Hmu) as (? & ? & ? & _). do 3 (split; [done|]). by apply Hh.
  - intros q e m' w'. wstep. by destruct e.
Qed.

Lemma wpm_consumeApproval reference (Q : consumed -> PtahMigration -> world -> Prop) m w :
  (forall a w', later w w' ->
     (a = Consumed_ -> forall name uid, reference = Some (name, uid) ->
        exists approval, in_pass (GetApproval name) (Ok approval) (w_log w') /\ MetaUID (ApprovalMeta approval) = uid /\
          (ApprovalConsumed approval = true \/ in_pass (PatchApproval approval true) None (w_log w'))) -> Q a m w') ->
  wpm (consumeMigrationApproval reference) Q m w.
Proof.
  intros HQ. unfold consumeMigrationApproval. destruct reference as [[name uid]|]; [|wstep; by apply HQ].
  apply wpm_ask_pass; [done|]. intros read w1 L1 P1. destruct read as [approval|e]; [|wstep; apply HQ; [done|]; by destruct (IsNotFound e)].
  destruct (bool_decide_reflect (MetaUID (ApprovalMeta approval) = uid)) as [Hu|]; cbn [negb]; [|by wstep; apply HQ].
  assert (Hrest : forall w2, later w1 w2 -> (ApprovalConsumed approval = true \/ in_pass (PatchApproval approval true) None (w_log w2)) ->
    wpm (err <~ markMigrationApprovalsStaleWhere (fun other =>
           bool_decide ((PlanRef (ApprovalSpec_ other)).2 = (PlanRef (ApprovalSpec_ approval)).2) &&
           negb (bool_decide (MetaUID (ApprovalMeta other) = MetaUID (ApprovalMeta approval))));
         ret match err with Some e => ConsumeFailed e | None => Consumed_ end) Q m w2).
  { intros w2 L2 Hc. apply wpm_quiet_bind; [auto with quiet|]. intros err w3 L3. wstep. apply HQ.
    - transitivity w1; [done|]. by transitivity w2.
    - intros _ name' uid' [= <- <-]. exists approval. split; [|split; [done|]].
      + eapply in_pass_grew; [apply L3|]. eapply in_pass_grew; [apply L2|done].
      + destruct Hc; [by left|]. right. eapply in_pass_grew; [apply L3|done]. }
  destruct (ApprovalConsumed approval) eqn:Hspent; [wstep; apply Hrest; [done|by left]|].
  apply wpm_ask_pass; [done|]. intros spent w2 L2 P2. destruct spent as [e|]; [wstep; apply HQ; [by transitivity w1|done]|]. apply Hrest; [done|by right].
Qed.

Lemma wpm_Consume o m w : ready Leased o m w -> wpm (Consume_ r) (fun out m' w' => stop out = false -> ready Spent o m' w') m w.
Proof.
  intros Hr. pose proof (ready_undispatched _ _ _ _ Hr) as Hun. pose proof Hr as [(Hcl & Hcoh & Ho) _].
  unfold Consume_, on_operation. wstep. rewrite Ho. apply wpm_bind, wpm_consumeApproval. intros spent w1 L1 Hs. destruct spent.
  - wstep. intros _. destruct (ready_later _ _ _ _ _ L1 Hr) as [Hc Hm]. split; [done|]. intros Hmu. destruct (Hm Hmu) as (? & ? & ? & ?).
    do 3 (split; [done|]). split; [done|]. intros name uid E. by apply Hs.
  - unfold stops. apply wpm_bind. apply (wpm_mono _ _ (fun _ _ _ => True)); [|intros a m' w' _; by wstep].
    apply ends_discard; try done. by eapply clean_later.
  - by wstep.
Qed.

Lemma wpm_Build l o m w : ready l o m w ->
  wpm (Build r) (fun a m' w' => stop a.2 = false -> m' = m /\ later w w' /\ MetaName (JobMeta a.1) = JobName o) m w.
Proof.
  intros Hr. pose proof (ready_undispatched _ _ _ _ Hr) as Hun. pose proof Hr as [Hc Hm]. pose proof Hc as (Hcl & Hcoh & Ho).
  assert (Hstop : forall p w1, ends p m w1 -> wpm (o <~ stops p; ret (no_job, o)) (fun a m' w' => stop a.2 = false -> m' = m /\ later w w' /\ MetaName (JobMeta a.1) = JobName o) m w1).
  { intros p w1 Hp. unfold stops. apply wpm_bind, wpm_bind. eapply wpm_mono; [exact Hp|]. intros a m' w' _. by wsteps. }
  unfold Build, on_operation. wstep. rewrite Ho. wstep. destruct (empty (OpJobUID o)) eqn:Hjob; cbn [negb].
  - apply wpm_quiet_bind; [auto with quiet|]. intros plan w1 L1. pose proof (clean_later _ _ _ L1 Hcl) as Hcl1.
    destruct plan as [plan|e]; [|by apply Hstop, ends_discard].
    apply wpm_ask_bind; [done|]. intros built w2 L2 _. destruct built as [job|e]; [|apply Hstop, ends_failure; try done; by eapply clean_later].
    destruct (bool_decide _ && _) eqn:Hn; wstep; [|done]. intros _. bool_prop. split; [done|]. split; [by transitivity w1|done].
  - apply wpm_quiet_bind; [auto with quiet|]. intros st w1 L1. destruct st as [[]|e]; [..|by wstep]; [|by wstep].
    apply Hstop, ends_retry_operation; try done; [by eapply clean_later|]. apply (claimed_reading _ _ _ Hc).
    destruct (mutates o) eqn:E; [|done]. destruct (Hm eq_refl) as (Hk & _). unfold marked, migrationMayHaveDispatched, MayHaveDispatched in Hk. cbn in Hk.
    unfold empty in Hjob. rewrite Hjob in Hk. cbn in Hk. by rewrite orb_true_r in Hk.
Qed.

(** ** The steps of the driver *)

Abbreviation h := (migrationDispatch r).
Abbreviation step_ := (run_step JobTemplate AdmissionTemplateDigest ctl_exists ctl_status).

(** A step that lets the pass go on leaves [P] of the resource and the world,
    and [K] of the pass. *)
Definition leaves (P : PtahMigration -> world -> Prop) (K : @dispatchPass Job -> Prop)
    (a : @step_outcome ctl_error * @dispatchPass Job) (m : PtahMigration) (w : world) : Prop :=
  match a.1 with Proceed => P m w /\ K a.2 | Stop _ _ => True end.

Lemma wpm_family e p (P : PtahMigration -> world -> Prop) K m w :
  wpm (h _ e) (fun o m' w' => stop o = false -> P m' w') m w -> K p -> wpm (interp h (family_step e p)) (leaves P K) m w.
Proof.
  intros He HK. apply wpm_interp_call. eapply wpm_mono; [exact He|]. intros o m' w' Ho. cbn. unfold leaves, of_outcome.
  destruct (stop o) eqn:E; cbn; [done|]. auto.
Qed.

(** A call that ends the pass. *)
Lemma wpm_last {X A} (e : famE X) (f : X -> A) (Q : A -> PtahMigration -> world -> Prop) m w :
  ends (h X e) m w -> (forall x m' w', Q (f x) m' w') -> wpm (interp h (x <-- call e; Ret (f x))) Q m w.
Proof. intros He HQ. apply wpm_interp_call. eapply wpm_mono; [exact He|]. intros x m' w' _. apply HQ. Qed.

Lemma wpm_FClaim {B} (f : @DispatchDriver.Claim PodAdmissionSnapshot -> prog famE B) Q m w :
  wpm (interp h (f (family_claim m))) Q m w -> wpm (interp h (pbind (call FClaim) f)) Q m w.
Proof. intros H. apply wpm_interp_call. exact H. Qed.

Lemma family_claim_kind o m w : claimed o m w ->
  Mutating (family_claim m) = mutates o /\ HoldsLock (family_claim m) = mutates o /\
  MayHaveDispatched (Dispatch_ (family_claim m)) = marked o.
Proof. intros (_ & _ & Ho). unfold family_claim. rewrite Ho. cbn. split; [done|]. split; [apply holdsLock_mutates|done]. Qed.

Lemma ends_write_claim_then f wait m w o :
  claimed o m w -> OpID (f o) = OpID o -> mutates (f o) = mutates o -> lock_free (f o) ->
  (mutates o = true -> marked o = true -> marked (f o) = true \/ answered_for w (OpID o)) ->
  ends (write_claim_then r f wait) m w.
Proof. intros (Hcl & Hcoh & Ho) ? ? ? ?. unfold MigrationSafety.ends, write_claim_then. by apply wpm_bind, (wpm_write_claim f _ m w o). Qed.

Definition names (o : MigrationOperationStatus) (job : Job) : Prop := MetaName (JobMeta job) = JobName o.
Definition unbuilt (p : @dispatchPass Job) : Prop := expected p = None.
Definition built (o : MigrationOperationStatus) (p : @dispatchPass Job) : Prop := exists job, expected p = Some job /\ names o job.
Definition made (p : @dispatchPass Job) : Prop := is_Some (created p).

Definition goes_on (P : PtahMigration -> world -> Prop) (a : @step_outcome ctl_error) (m : PtahMigration) (w : world) : Prop :=
  match a with Proceed => P m w | Stop _ _ => True end.

Lemma ends_refuse ctx refusal why l o m w : ready l o m w -> ends (h _ (FRefuse ctx refusal why)) m w.
Proof. intros Hr. pose proof Hr as [(? & ? & ?) _]. apply ends_failure; try done. by eapply ready_undispatched. Qed.

Lemma ends_claim_field f wait o m w :
  claimed o m w -> OpID (f o) = OpID o -> mutates (f o) = mutates o -> lock_free (f o) -> marked (f o) = marked o ->
  ends (write_claim_then r f wait) m w.
Proof. intros Hc ? ? ? Hk. apply (ends_write_claim_then _ _ _ _ o Hc); try done. intros _ Hm. left. congruence. Qed.

Lemma wpm_judge ctx job l o m w :
  ready l o m w -> wpm (interp h (judge_template JobTemplate AdmissionTemplateDigest ctx (family_claim m) job)) (goes_on (ready l o)) m w.
Proof.
  intros Hr. unfold judge_template. destruct (ClaimSnapshot (family_claim m)) as [snap|]; apply wpm_interp_call.
  all: apply wpm_ask; [done|]; intros x w1 L1 _; pose proof (ready_later _ _ _ _ _ L1 Hr) as Hr1; pose proof (proj1 Hr1) as Hc.
  - destruct x as [digest|e]; [|apply wpm_last; [by eapply ends_refuse|done]]. destruct (bool_decide _); [done|].
    destruct (SnapshotRefreshed _); (apply wpm_last; [|done]); [by eapply ends_refuse|].
    apply (ends_claim_field _ _ o); try done. exact (claimed_lock_free _ _ _ Hc).
  - destruct x as [snap|e]; (apply wpm_last; [|done]); [|by eapply ends_refuse].
    apply (ends_claim_field _ _ o); try done. exact (claimed_lock_free _ _ _ Hc).
Qed.

Lemma wpm_snapshot ctx p l o m w :
  ready l o m w -> unbuilt p -> wpm (interp h (snapshot JobTemplate AdmissionTemplateDigest ctx (family_claim m) p)) (leaves (ready l o) (built o)) m w.
Proof.
  intros Hr Hp. unfold snapshot. apply wpm_interp_bind.
  assert (Hval : wpm (interp h (validate_snapshot ctx (family_claim m))) (fun a m' w' => goes_on (fun m' w' => m' = m /\ ready l o m w') a m' w') m w).
  { unfold validate_snapshot. destruct (ClaimSnapshot _) as [snap|]; [|done]. apply wpm_interp_call, wpm_ask; [done|]. intros x w1 L1 _.
    pose proof (ready_later _ _ _ _ _ L1 Hr) as Hr1. destruct x as [e|]; [|done]. apply wpm_last; [by eapply ends_refuse|done]. }
  eapply wpm_mono; [exact Hval|]. intros [|res err] m1 w1 H1; [|done]. destruct H1 as [-> Hr1].
  assert (Hj : forall job p1 w2, ready l o m w2 -> built o p1 ->
    wpm (interp h (judged <-- judge_template JobTemplate AdmissionTemplateDigest ctx (family_claim m) job; Ret (judged, p1))) (leaves (ready l o) (built o)) m w2).
  { intros job p1 w2 Hr2 Hp1. apply wpm_interp_bind. eapply wpm_mono; [by apply wpm_judge|]. intros [|] m' w' Ha; [by split|done]. }
  apply wpm_interp_bind. unfold build. unfold unbuilt in Hp. rewrite Hp.
  apply wpm_interp_call. eapply wpm_mono; [by eapply wpm_Build|]. intros [job out] m2 w2 H2. cbn [snd] in H2. cbn.
  destruct (stop out) eqn:Es; cbn.
  - unfold leaves, of_outcome. by rewrite Es.
  - destruct (H2 eq_refl) as (-> & L2 & Hn). apply Hj; [by eapply ready_later|by exists job].
Qed.

Lemma wpm_Mark ctx o m w : ready Spent o m w -> mutates o = true ->
  wpm (h _ (FMark ctx)) (fun e m' w' => e = None -> armed (o <| OpDispatchStarted := true |>) m' w') m w.
Proof.
  intros [Hc Hm] Hmu. pose proof Hc as (Hcl & Hcoh & Ho). destruct (Hm Hmu) as (Hk & Hu & Ha & Hl).
  apply (wpm_write_claim _ _ m w o); try done.
  - exact (claimed_lock_free _ _ _ Hc).
  - by left.
  - intros m' w' Hw Ho' _. split; [split; [apply Hw|split; [apply Hw|done]]|]. intros _. split; [done|].
    split; [by rewrite (wr_status _ _ _ _ _ _ Hw)|]. split; [by eapply answered_for_written|].
    unfold reached, locked. rewrite (wr_uid _ _ _ _ _ _ Hw). apply (reached_grew Spent o m w); [apply Hw|exact Hl].
Qed.

Lemma wpm_Create ctx job o m w : armed o m w -> names o job ->
  wpm (h _ (FCreate ctx job)) (fun a m' w' => m' = m /\ created_ o m w' /\
    forall e, a.2 = Some e -> ClassifyCreate ctl_exists ctl_status e = AnswerRefused -> armed o m w') m w.
Proof.
  intros [Hc Hm] Hn. pose proof Hc as (Hcl & Hcoh & Ho). cbn [migrationDispatch]. unfold Create, on_operation. wstep. rewrite Ho. apply wpm_bind. split.
  { destruct Hcl as (Es & _ & Eu). cbn. rewrite <- Es, <- Eu. split; [done|]. split; [done|]. intros Hmu. destruct (Hm Hmu) as (Hk & Hu & Ha & Hl).
    split; [done|]. split; [|done]. unfold marked, migrationMayHaveDispatched, MayHaveDispatched. cbn. by rewrite Hk. }
  intros [job' err] w' Hx. pose proof (step_grew _ _ _ _ _ Hx eq_refl) as G.
  destruct Hx as (mid & (Es & Ec & Eu)%interfere_facts & (Hs & Hp & Hj) & _). cbn in Hs, Hp, Hj.
  assert (Hcl' : clean m w').
  { destruct Hcl as (E1 & E2 & E3). unfold clean. rewrite Hs. split; [|split]; congruence. }
  cbn. split; [done|]. split; [split; [done|by intros Hmu; apply Hm]|].
  intros e He Href. destruct err as [e0|]; [|done]. injection He as <-.
  split; [done|]. intros Hmu. destruct (Hm Hmu) as (Hk & Hu & Ha & Hl). split; [done|]. split; [done|].
  assert (Href' : refused e0 = true) by (by apply bool_decide_eq_true_2). destruct Hj as [Hj|[Hf _]]; [|congruence].
  split; [unfold answered_for; by rewrite Hj, Hp|]. by eapply reached_grew.
Qed.

Lemma claimed_mutating o m w ctx job why : claimed o m w -> mutates o = true -> ends (h _ (FUnaccounted ctx job why)) m w.
Proof. intros (? & ? & ?) Hm. by eapply ends_finishUncertain. Qed.
Lemma claimed_retry o m w ctx why : claimed o m w -> mutates o = false -> ends (h _ (FRetry ctx why)) m w.
Proof. intros Hc Hm. pose proof Hc as (? & ? & ?). apply ends_retry_operation; try done. by eapply claimed_reading. Qed.

Lemma ends_Withdraw ctx o m w : armed o m w -> mutates o = true -> ends (h _ (FWithdraw ctx)) m w.
Proof.
  intros [Hc Hm] Hmu. pose proof Hc as (Hcl & Hcoh & Ho). destruct (Hm Hmu) as (_ & _ & Ha & _).
  apply (wpm_write_claim _ _ m w o); try done; [exact (claimed_lock_free _ _ _ Hc)|]. intros _ _. by right.
Qed.

Lemma wpm_create ctx p o m w :
  armed o m w -> built o p ->
  wpm (interp h (create ctl_exists ctl_status ctx (family_claim m) p)) (leaves (created_ o) made) m w.
Proof.
  intros Ha (job & Hp & Hn). unfold create, build. rewrite Hp. cbn [pbind]. destruct (family_claim_kind _ _ _ (proj1 Ha)) as (Emu & _).
  apply wpm_interp_call. eapply wpm_mono; [by apply wpm_Create|].
  intros [job' err] m' w' (-> & Hcr & Href). cbn [snd] in Href. destruct err as [e|]; [|by split; [|eexists]].
  specialize (Href e eq_refl). rewrite Emu. unfold DispatchFailure. destruct (mutates o) eqn:Hmu.
  - destruct (bool_decide_reflect (ClassifyCreate ctl_exists ctl_status e = AnswerRefused)) as [Hr|].
    + apply wpm_last; [by eapply ends_Withdraw; [apply Href|]|done].
    + apply wpm_last; [|done]. eapply claimed_mutating; [apply Hcr|done].
  - destruct (bool_decide _); [|done]. apply wpm_last; [|done]. eapply claimed_retry; [apply Hcr|done].
Qed.

Lemma wpm_confirm ctx p o m w :
  created_ o m w -> made p -> wpm (interp h (confirm ctx (family_claim m) p)) (leaves (created_ o) made) m w.
Proof.
  intros Hc [job Hp]. unfold confirm. rewrite Hp. destruct (family_claim_kind _ _ _ (proj1 Hc)) as (Emu & _).
  apply wpm_interp_call. cbn [migrationDispatch]. apply wpm_quiet; [auto with quiet|]. intros x w1 L1.
  pose proof (created_later _ _ _ _ L1 Hc) as Hc1. rewrite Emu. destruct x as [read|e].
  2: { destruct (mutates o); done. }
  apply wpm_interp_call. cbn [migrationDispatch]. apply wpm_get_bind, wpm_ask; [done|]. intros wrong w2 L2 _.
  pose proof (created_later _ _ _ _ L2 Hc1) as Hc2. destruct wrong as [e|]; [|by split; [|eexists]].
  destruct (mutates o) eqn:Hmu; cbn; apply wpm_last; try done; [eapply claimed_mutating|eapply claimed_retry]; try done; apply Hc2.
Qed.

Lemma wpm_record ctx p o m w :
  created_ o m w -> wpm (interp h (record ctx p)) (fun _ _ _ => True) m w.
Proof.
  intros [Hc Hm]. unfold record. destruct (created p) as [job|]; [|done]. apply wpm_interp_call.
  eapply wpm_mono; [|intros [res [e|]] m' w' _; done]. cbn [migrationDispatch].
  apply (ends_write_claim_then _ _ _ _ o Hc); try done; [exact (claimed_lock_free _ _ _ Hc)|].
  intros Hmu _. left. unfold marked, migrationMayHaveDispatched, MayHaveDispatched. cbn. by rewrite (Hm Hmu).
Qed.

(** ** The pass of the driver *)

Abbreviation loop := (dispatch_loop JobTemplate AdmissionTemplateDigest ctl_exists ctl_status).
Abbreviation done__ := (fun (_ : @dispatch_answer ctl_error) (_ : PtahMigration) (_ : world) => True).

Lemma wpm_after_step ctx rest (q : prog famE (@step_outcome ctl_error * @dispatchPass Job)) P K m w :
  wpm (interp h q) (leaves P K) m w ->
  (forall p' m' w', P m' w' -> K p' -> wpm (interp h (loop ctx rest p')) done__ m' w') ->
  wpm (interp h (outcome <-- q; match outcome with (Stop res err, _) => Ret (res, err) | (Proceed, p) => loop ctx rest p end)) done__ m w.
Proof.
  intros Hq Hrest. apply wpm_interp_bind. eapply wpm_mono; [exact Hq|]. intros [[|res err] p'] m' w' Ha; [|done]. destruct Ha as [HP HK]. by apply Hrest.
Qed.

Lemma wpm_loop_step ctx step rest p P K m w :
  step <> StepMark -> wpm (interp h (step_ ctx step p)) (leaves P K) m w ->
  (forall p' m' w', P m' w' -> K p' -> wpm (interp h (loop ctx rest p')) done__ m' w') ->
  wpm (interp h (loop ctx (step :: rest) p)) done__ m w.
Proof. intros Hs Hq Hrest. cbn [dispatch_loop]. rewrite bool_decide_eq_false_2 by done. by eapply wpm_after_step. Qed.

Lemma wpm_family_step ctx step e p l o K m w :
  step_ ctx step p = (claim <-- call FClaim; family_step e p) \/
  (exists b, step_ ctx step p = (claim <-- call FClaim; if negb (b claim) then Ret (Proceed, p) else family_step e p)) ->
  (ready l o m w -> wpm (h _ e) (proceeds m w) m w) -> ready l o m w -> K p ->
  wpm (interp h (step_ ctx step p)) (leaves (ready l o) K) m w.
Proof.
  intros Hstep He Hr HK.
  assert (Hf : wpm (interp h (family_step e p)) (leaves (ready l o) K) m w).
  { apply wpm_family; [|done]. eapply wpm_mono; [by apply He|]. intros out m' w' H Hs. destruct (H Hs) as [-> L]. by eapply ready_later. }
  destruct Hstep as [-> | [b ->]]; apply wpm_FClaim; [done|]. destruct (negb _); [by split|done].
Qed.

Lemma wpm_mark_step ctx rest p o m w :
  ready Spent o m w -> built o p ->
  (forall ctx p' o' m' w', armed o' m' w' -> built o' p' -> wpm (interp h (loop ctx rest p')) done__ m' w') ->
  wpm (interp h (loop ctx (StepMark :: rest) p)) done__ m w.
Proof.
  intros Hr Hp Hrest. cbn [dispatch_loop]. rewrite bool_decide_eq_true_2 by done. apply wpm_FClaim.
  destruct (family_claim_kind _ _ _ (proj1 Hr)) as (_ & Elock & _). rewrite Elock. destruct (mutates o) eqn:Hmu.
  - apply wpm_interp_call. cbn [migrationDispatch]. apply wpm_ask; [done|]. intros stopping w1 L1 _. destruct stopping; [done|].
    pose proof (ready_later _ _ _ _ _ L1 Hr) as Hr1. eapply (wpm_after_step _ _ _ (armed (o <| OpDispatchStarted := true |>)) (built o)); [|eauto].
    cbn [run_step]. apply wpm_FClaim. rewrite Elock. cbn [negb]. apply wpm_interp_call. eapply wpm_mono; [by apply wpm_Mark|].
    intros [e|] m' w' He; [done|]. split; [by apply He|done].
  - eapply (wpm_after_step _ _ _ (armed o) (built o)); [|eauto]. cbn [run_step]. apply wpm_FClaim. rewrite Elock. cbn [negb].
    split; [split; [apply Hr|congruence]|done].
Qed.

Lemma wpm_consume_step ctx p o m w :
  ready Leased o m w -> built o p -> wpm (interp h (step_ ctx StepConsume p)) (leaves (ready Spent o) (built o)) m w.
Proof.
  intros Hr Hp. cbn [run_step]. apply wpm_FClaim. destruct (family_claim_kind _ _ _ (proj1 Hr)) as (-> & _ & _).
  destruct (mutates o) eqn:Hmu; cbn [negb].
  - apply wpm_family; [|done]. by eapply wpm_Consume.
  - split; [|done]. split; [apply Hr|]. congruence.
Qed.

Lemma wpm_lease_step ctx p o m w :
  ready Fresh o m w -> unbuilt p -> wpm (interp h (step_ ctx StepLease p)) (leaves (ready Leased o) unbuilt) m w.
Proof.
  intros Hr Hp. cbn [run_step]. apply wpm_FClaim. destruct (family_claim_kind _ _ _ (proj1 Hr)) as (_ & -> & _).
  destruct (mutates o) eqn:Hmu; cbn [negb].
  - apply wpm_family; [|done]. by eapply wpm_AcquireLease.
  - split; [|done]. split; [apply Hr|]. congruence.
Qed.

Lemma ends_dispatch o m w : ready Fresh o m w -> ends (dispatch r) m w.
Proof.
  intros Hr. unfold MigrationSafety.ends, dispatch. apply wpm_bind. apply (wpm_mono _ _ done__); [|intros a m' w' _; by wstep].
  unfold Dispatch. apply wpm_FClaim. destruct (_ && _); [done|]. cbn [sequence]. unfold order.
  eapply (wpm_loop_step _ _ _ _ (ready Fresh o) unbuilt); [done|eapply (wpm_family_step _ _ (FAuthorize Reconcile)); [by left|apply wpm_Authorize|done|done]|].
  intros p1 m1 w1 Hr1 Hp1. eapply (wpm_loop_step _ _ _ _ (ready Leased o) unbuilt);
    [done|by apply wpm_lease_step|].
  intros p2 m2 w2 Hr2 Hp2. eapply (wpm_loop_step _ _ _ _ (ready Leased o) unbuilt);
    [done|eapply (wpm_family_step _ _ (FStage Reconcile)); [by left|intros _; by split|done|done]|].
  intros p3 m3 w3 Hr3 Hp3. eapply (wpm_loop_step _ _ _ _ (ready Leased o) (built o)); [done|cbn [run_step]; apply wpm_FClaim; by apply wpm_snapshot|].
  intros p4 m4 w4 Hr4 Hp4. eapply (wpm_loop_step _ _ _ _ (ready Spent o) (built o)); [done|by apply wpm_consume_step|].
  intros p5 m5 w5 Hr5 Hp5. eapply wpm_mark_step; [done|done|].
  intros ctx p6 o6 m6 w6 Ha Hp6. eapply (wpm_loop_step _ _ _ _ (created_ o6) made); [done|cbn [run_step]; apply wpm_FClaim; by apply wpm_create|].
  intros p7 m7 w7 Hc7 Hp7. eapply (wpm_loop_step _ _ _ _ (created_ o6) made); [done|cbn [run_step]; apply wpm_FClaim; by apply wpm_confirm|].
  intros p8 m8 w8 Hc8 Hp8. eapply (wpm_loop_step _ _ _ _ (fun _ _ => True) (fun _ => True)); [done|cbn [run_step]; apply wpm_FClaim|done].
  eapply wpm_mono; [by eapply wpm_record|]. intros [[] p'] m' w' _; done.
Qed.

(** ** Supervising the claim *)

Lemma wpm_not_the_claims job failure (Q : option answer -> PtahMigration -> world -> Prop) o m w :
  claimed o m w -> (forall a m' w', Q (Some a) m' w') -> wpm (not_the_claims r job failure) Q m w.
Proof.
  intros Hc HQ. pose proof Hc as (Hcl & Hcoh & Ho). unfold not_the_claims. wstep. rewrite Ho. apply wpm_bind.
  apply (wpm_mono _ _ (fun _ _ _ => True)); [|intros a m' w' _; wstep; apply HQ].
  destruct (mutating (Some o)) eqn:Hm; [by eapply ends_finishUncertain|]. apply ends_retry_operation; try done. by eapply claimed_reading.
Qed.

Lemma wpm_hold job (Q : option answer -> PtahMigration -> world -> Prop) o m w :
  claimed o m w -> (forall a m' w', Q (Some a) m' w') -> (forall w', later w w' -> Q None m w') ->
  wpm (holdMigrationJobToItsClaim r o job) Q m w.
Proof.
  intros Hc Hend HQ. unfold holdMigrationJobToItsClaim. wstep. apply wpm_ask_bind; [done|]. intros current w1 L1 _.
  assert (Hno : forall w2 e, later w w2 -> wpm (not_the_claims r job e) Q m w2)
    by (intros w2 e L; eapply wpm_not_the_claims; [by eapply claimed_later|done]).
  destruct current as [current|e].
  1: destruct (negb _).
  1, 3: apply wpm_ask_bind; [done|]; intros wrong w2 L2 _; assert (later w w2) by (by transitivity w1);
    destruct wrong; [by apply Hno|wstep; by apply HQ].
  apply wpm_quiet_bind; [auto with quiet|]. intros expected w2 L2. assert (L : later w w2) by (by transitivity w1).
  destruct expected; [|by apply Hno]. apply wpm_ask_bind; [done|]. intros wrong w3 L3 _. assert (later w w3) by (by transitivity w2).
  destruct wrong; [by apply Hno|wstep; by apply HQ].
Qed.

Lemma ends_await o job m w : claimed o m w -> ends (await_job r o job) m w.
Proof.
  intros (Hcl & Hcoh & Ho). unfold MigrationSafety.ends, await_job. apply wpm_bind.
  assert (Hrest : forall (e : option ctl_error) m' w', ends (match e with Some e => ret (failed e) | None =>
      issued <~ (if JobDurable job then ask (IssueCredential job) else ret true);
      ret (after_ (if issued : bool then activeJobPollInterval (holdsLock (Some o)) else resultReadRetryInterval)) end) m' w').
  { intros [e|] m' w'; [done|]. apply ends_quiet. quiet_tac. }
  unfold reportMigrationPodAdmission. wstep. destruct x as [[[refused reason]|]|e]; [|wstep; apply (Hrest None)|wstep; apply (Hrest (Some e))].
  wsteps. apply (wpm_write r decodes m); try done; [|intros; apply (Hrest None)]. apply write_benign; try done. by destruct refused.
Qed.

Lemma ends_consume_read o job job0 parsed m w :
  claimed o m w -> mutates o = false -> PendingLockRelease (Status_ m) = None ->
  seen (TerminalLogs job0) (Evidence parsed) (w_log w) -> ends (consume_read r o job parsed) m w.
Proof.
  intros Hc Hm Hp Hs. pose proof (claimed_reading _ _ _ Hc Hm) as Hrd. pose proof Hc as (Hcl & Hcoh & Ho).
  unfold MigrationSafety.ends, consume_read. destruct parsed as [result|e].
  - destruct (negb _); [by apply ends_retry_operation|]. destruct (ResError result) as [code|].
    + destruct (_ && _); [by apply ends_refuseMigrationArtifact|by apply ends_retry_operation].
    + destruct (ResTruncated result); [by apply ends_retry_operation|]. by eapply ends_consumeMigrationResult.
  - wstep. destruct x; [by apply ends_retry_operation|done].
Qed.

Lemma ends_consume_terminal o job job0 parsed m w :
  claimed o m w -> PendingLockRelease (Status_ m) = None ->
  seen (TerminalLogs job0) (Evidence parsed) (w_log w) -> ends (consume_terminal r o job parsed) m w.
Proof.
  intros Hc Hp Hs. unfold MigrationSafety.ends, consume_terminal. pose proof Hc as (Hcl & Hcoh & Ho). wstep. destruct x; [done|]. wstep.
  change (mutating (Some o)) with (mutates o). destruct (mutates o) eqn:Hm.
  - assert (Hend : ends (match parsed with Err e => settleUnreadMigrationApply r job e | Ok result => settleMigrationApply r job (frameMigrationApply result) end) m w1).
    { destruct parsed; [by eapply ends_settleMigrationApply|by eapply ends_settleUnread]. }
    by destruct x.
  - assert (Hrd : reading (Status_ m)) by (intros o' Ho'; congruence).
    destruct x; [by apply ends_retry|]. by eapply ends_consume_read.
Qed.

Lemma ends_harvest o job m w : claimed o m w -> PendingLockRelease (Status_ m) = None -> ends (harvest r o job) m w.
Proof.
  intros (Hcl & Hcoh & Ho) Hp. unfold MigrationSafety.ends, harvest. wstep. wstep. cbn zeta. change (mutating (Some o)) with (mutates o).
  assert (Hstale : forall e, ends (if bool_decide (HarvestFailure FaultInputsChanged (mutates o) = DispositionUnaccounted)
      then finishUncertainMigrationApply r (Some job) e EmptyString
      else err <~ markJobHarvested job; match err with Some e => ret (failed e) | None => discardMigrationOperation r e end) m w0).
  { intros e. destruct (mutates o) eqn:Hm; cbn [HarvestFailure];
    [rewrite bool_decide_eq_true_2 by done; by eapply ends_finishUncertain|rewrite bool_decide_eq_false_2 by done]. unfold MigrationSafety.ends. wstep. destruct x0; [done|].
    apply ends_discard; try done. apply reading_undispatched. intros o' Ho'. congruence. }
  destruct (match x with Ok _ => _ | Err _ => _ end) as [e|]; [apply Hstale|]. clear Hstale.
  wstep. destruct x0 as [| |e| |e|parsed]; try done.
  - destruct (mutates o) eqn:Hm; cbn; [by eapply ends_finishUncertain|]. apply ends_retry_operation; try done. intros o' Ho'. congruence.
  - by eapply ends_consume_terminal.
Qed.

Lemma ends_supervise verdict job o m w :
  claimed o m w -> PendingLockRelease (Status_ m) = None -> ends (supervise r verdict job) m w.
Proof.
  intros Hc Hp. pose proof Hc as (Hcl & Hcoh & Ho). unfold MigrationSafety.ends, supervise. wstep. rewrite Ho.
  apply wpm_bind, (wpm_hold _ _ o); [done|done|]. intros w1 L1. pose proof (claimed_later _ _ _ _ L1 Hc) as Hc1. pose proof Hc1 as (Hcl1 & _).
  assert (Hrest : forall o' m' w', claimed o' m' w' -> PendingLockRelease (Status_ m') = None ->
    ends (m <~ get; match ActiveOperation (Status_ m) with None => ret done_
          | Some operation => if negb (jobTerminal job) then await_job r operation job else harvest r operation job end) m' w').
  { intros o' m' w' Hc' Hp'. pose proof Hc' as (? & ? & Ho'). unfold MigrationSafety.ends. wstep. rewrite Ho'.
    destruct (negb _); [by apply ends_await|by apply ends_harvest]. }
  destruct verdict; try (wstep; by eapply Hrest). apply wpm_bind.
  assert (Hlf := claimed_lock_free _ _ _ Hc1). apply (wpm_write_claim _ _ m w1 o); try done.
  - by destruct (mutating (Some o)).
  - by destruct (mutating (Some o)).
  - by destruct (mutating (Some o)).
  - intros Hm _. left. change (mutating (Some o) = true) in Hm. rewrite Hm. done.
  - intros m' w' Hw Ho'. eapply Hrest; [split; [apply Hw|split; [apply Hw|exact Ho']]|]. by rewrite (wr_status _ _ _ _ _ _ Hw).
Qed.

(** A claim in flight, at the start of what the pass does about it. *)
Definition in_flight (o : MigrationOperationStatus) (m : PtahMigration) (w : world) : Prop :=
  claimed o m w /\ PendingLockRelease (Status_ m) = None /\
  (mutates o = true -> UnresolvedRun (Status_ m) = None) /\ (mutates o = true -> marked o = false -> answered_for w (OpID o)).

Lemma in_flight_later o m w w' : later w w' -> in_flight o m w -> in_flight o m w'.
Proof.
  intros L (Hc & Hp & Hu & Ha). split; [by eapply claimed_later|]. split; [done|]. split; [done|].
  intros Hm Hk. by eapply answered_for_later; [|apply Ha].
Qed.

Lemma ends_follow verdict job o m w :
  in_flight o m w -> (verdict = VerdictUnaccounted -> mutates o = true) -> (verdict = VerdictRetry -> mutates o = false) ->
  ends (follow_verdict r verdict job) m w.
Proof.
  intros (Hc & Hp & _) Hun Hre. pose proof Hc as (Hcl & Hcoh & Ho). unfold follow_verdict.
  destruct verdict; try (destruct job as [job|]; [by eapply ends_supervise|done]).
  - eapply ends_finishUncertain; try done. by apply Hun.
  - apply ends_retry_operation; try done. eapply claimed_reading; [done|by apply Hre].
Qed.

Lemma ends_reconcileActive o m w : in_flight o m w -> ends (reconcileActiveMigration r) m w.
Proof.
  intros Hf. pose proof Hf as (Hc & Hp & Hu & Ha). pose proof Hc as (Hcl & Hcoh & Ho).
  unfold MigrationSafety.ends, reconcileActiveMigration. wstep. rewrite Ho. destruct (LeaseContinuityLost o) eqn:Hlost.
  { eapply ends_finishUncertain; try done. destruct (mutates o) eqn:E; [done|]. destruct (claimed_lock_free _ _ _ Hc E). congruence. }
  apply wpm_ask_bind; [done|]. intros read w1 L1 _. pose proof (in_flight_later _ _ _ _ L1 Hf) as Hf1.
  destruct (match read with Ok _ => _ | Err _ => _ end) as [job|e]; [|done].
  destruct (_ && negb (mutating (Some o))) eqn:Hsus.
  { apply andb_true_iff in Hsus as [_ Hm]. apply negb_true_iff in Hm. pose proof Hf1 as ((? & ? & ?) & _). apply ends_discard; try done.
    apply reading_undispatched. intros o' Ho'. assert (o' = o) as -> by congruence. exact Hm. }
  pose proof (VerdictFor_cases (job_claim m o job)) as Hv. set (verdict := (VerdictFor (job_claim m o job)).1) in *.
  assert (Hfollow : forall w2, in_flight o m w2 -> ends (follow_verdict r verdict job) m w2).
  { intros w2 Hf2. eapply ends_follow; [done|..]; intros E; rewrite E in Hv; apply Hv. }
  assert (Hlock : ends (if holdsLock (Some o) then
                waited <~ waitForMigrationApplyLock r;
                let '(acquired, requeue, err) := waited in
                match err with
                | Some e => ret (failed e)
                | None => if negb acquired then ret (after_ requeue) else follow_verdict r verdict job
                end
              else follow_verdict r verdict job) m w1).
  { pose proof Hf1 as ((Hcl1 & _) & _). destruct (holdsLock (Some o)); [|by apply Hfollow]. apply wpm_bind, wpm_waitLock; try done.
    - intros [[[] q] [e|]] w2 L2 _; try done. apply Hfollow. by eapply in_flight_later.
    - by intros q [e|] m' w'. }
  clearbody verdict. destruct verdict; try exact Hlock. apply (ends_dispatch o). destruct Hf1 as (Hc1 & _ & Hu1 & Ha1).
  split; [done|]. intros Hm. assert (Hk : marked o = false) by (apply Hv; exact Hm). split; [done|]. split; [by apply Hu1|]. split; [by apply Ha1|done].
Qed.

(** ** The execution binding and deletion *)

Lemma ends_uncertainUnderChange o m w : claimed o m w -> mutates o = true -> ends (applyUncertainUnderBindingChange r o) m w.
Proof.
  intros (Hcl & Hcoh & Ho) Hm. unfold MigrationSafety.ends, applyUncertainUnderBindingChange. wstep.
  destruct x; [|done]. by eapply ends_finishUncertain.
Qed.

Lemma ends_then {A B} (p : M A) (f : A -> M B) m w : ends p m w -> (forall a m' w', ends (f a) m' w') -> ends (mbind_ p f) m w.
Proof. intros Hp Hf. apply wpm_bind. eapply wpm_mono; [exact Hp|]. intros a m' w' _. apply Hf. Qed.
Lemma wpm_ends {A B} (p : M A) (f : A -> B) (Q : B -> PtahMigration -> world -> Prop) m w :
  ends p m w -> (forall a m' w', Q (f a) m' w') -> wpm (a <~ p; ret (f a)) Q m w.
Proof. intros Hp HQ. apply wpm_bind. eapply wpm_mono; [exact Hp|]. intros a m' w' _. wstep. apply HQ. Qed.

Lemma wpm_binding (Q : option answer -> PtahMigration -> world -> Prop) m w :
  clean m w -> coherent r (Status_ m) (copy m) ->
  (forall a m' w', Q (Some a) m' w') -> Q None m w ->
  wpm (reconcileMigrationExecutionBinding r) Q m w.
Proof.
  intros Hcl Hcoh Hend HQ. unfold reconcileMigrationExecutionBinding. wstep. cbn zeta. destruct (match _ with Some _ => _ | None => _ end); [by wstep|].
  wstep. destruct (ActiveOperation (Status_ m)) as [o|] eqn:Ho.
  - destruct (mutating (Some o) && migrationMayHaveDispatched (Some o)) eqn:Hmk.
    + apply andb_true_iff in Hmk as [Hm _]. apply wpm_ends; [by apply ends_uncertainUnderChange|done].
    + wsteps. apply wpm_bind. apply wpm_retire; try done; [|intros; wstep; apply Hend..]. apply write_discard; try done.
      * by destruct (bool_decide _).
      * intros o' Ho' Hm. assert (o' = o) as -> by congruence. unfold mutates in Hm. rewrite Hm in Hmk. exact Hmk.
  - wsteps. apply wpm_bind, (wpm_write r decodes m); try done; [|intros; wstep; apply Hend..]. apply write_benign; try done.
    by destruct (bool_decide _).
Qed.

(** A patch of the finalizers leaves everything else. *)
Definition refinalized (m m' : PtahMigration) : Prop :=
  Status_ m' = Status_ m /\ copy m' = copy m /\ Spec m' = Spec m /\ MUID m' = MUID m.

Lemma wpm_finalizers finalizers (Q : option ctl_error -> PtahMigration -> world -> Prop) m w :
  (forall e m' w', Q (Some e) m' w') -> (forall m' w', refinalized m m' -> later w w' -> Q None m' w') ->
  wpm (patch_finalizers finalizers) Q m w.
Proof.
  intros Herr HQ. unfold patch_finalizers. wsteps. apply wpm_bind, wpm_patch_meta; [by left|]. intros x w' Hx.
  destruct x as [version|e]; [|wstep; apply Herr]. destruct (Hx _ eq_refl) as [Hs Hc Hu Hj Hp Hl]. wsteps. apply HQ; [done|].
  rewrite bool_decide_eq_true_2 in Hc by done. by split.
Qed.

Lemma wpm_ensureFinalizer (Q : option ctl_error -> PtahMigration -> world -> Prop) m w :
  (forall e m' w', Q (Some e) m' w') -> (forall m' w', refinalized m m' -> later w w' -> Q None m' w') ->
  wpm ensureMigrationFinalizer Q m w.
Proof.
  intros Herr HQ. unfold ensureMigrationFinalizer. wstep. destruct (ContainsFinalizer m); [|by apply wpm_finalizers].
  wstep. apply HQ; [done|reflexivity].
Qed.

Lemma wpm_removeFinalizer (Q : option ctl_error -> PtahMigration -> world -> Prop) m w :
  (forall e m' w', Q (Some e) m' w') -> (forall m' w', refinalized m m' -> later w w' -> Q None m' w') ->
  wpm removeMigrationFinalizer Q m w.
Proof.
  intros Herr HQ. unfold removeMigrationFinalizer. wstep. destruct (negb _); [wstep; apply HQ; [done|reflexivity]|].
  destruct (ActiveOperation (Status_ m)); [wstep; apply Herr|]. destruct (PendingLockRelease (Status_ m)); [wstep; apply Herr|].
  by apply wpm_finalizers.
Qed.

Lemma ends_release_finalizer m w : ends release_finalizer m w.
Proof. unfold MigrationSafety.ends, release_finalizer. by apply wpm_bind, wpm_removeFinalizer. Qed.

Lemma wpm_delete_apply (Q : option answer -> PtahMigration -> world -> Prop) o m w :
  claimed o m w -> mutates o = true ->
  (forall a m' w', Q (Some a) m' w') -> (forall w', later w w' -> marked o = false -> Q None m w') ->
  wpm (delete_apply r o) Q m w.
Proof.
  intros Hc Hm Hend HQ. pose proof Hc as (Hcl & Hcoh & Ho). unfold delete_apply.
  apply wpm_quiet_bind; [auto with quiet|]. intros read w1 L1. destruct read as [job|e]; [|wstep; apply Hend].
  apply wpm_quiet_bind; [auto with quiet|]. intros writing w2 L2. assert (L : later w w2) by (by transitivity w1).
  pose proof (clean_later _ _ _ L Hcl) as Hcl2. destruct writing.
  { apply wpm_bind. apply (wpm_mono _ _ (fun _ _ _ => True)); [|intros a m' w' _; wstep; apply Hend].
    unfold acquireMigrationApplyLock. apply wpm_bind, wpm_tryLock; try done. by intros [[[? ?] ?] ?] w3 _ _. }
  destruct (migrationMayHaveDispatched (Some o)) eqn:Hk; cbn [orb].
  { apply wpm_ends; [by eapply ends_retireUncertain|intros; apply Hend]. }
  destruct (bool_decide _); [apply wpm_ends; [by eapply ends_retireUncertain|intros; apply Hend]|]. wstep. by apply HQ.
Qed.

Lemma ends_deletion m w : clean m w -> coherent r (Status_ m) (copy m) -> ends (reconcileMigrationDeletion r) m w.
Proof.
  intros Hcl Hcoh. unfold MigrationSafety.ends, reconcileMigrationDeletion. wstep.
  destruct (ActiveOperation (Status_ m)) as [o|] eqn:Ho; [|by apply ends_release_finalizer].
  assert (Hdisc : forall w', later w w' -> undispatched (Status_ m) ->
    ends (err <~ discard_claim r; match err with Some e => ret (failed e) | None => release_finalizer end) m w').
  { intros w' L Hun. pose proof (clean_later _ _ _ L Hcl) as Hcl'. unfold MigrationSafety.ends, discard_claim. apply wpm_bind, wpm_get_bind.
    apply wpm_retire; try done; [by apply write_discard|intros; apply ends_release_finalizer..]. }
  change (mutating (Some o)) with (mutates o). destruct (mutates o) eqn:Hm.
  - apply wpm_bind, (wpm_delete_apply _ o); try done. intros w' L Hk. apply Hdisc; [done|]. intros o' Ho' _. congruence.
  - wstep. apply Hdisc; [reflexivity|]. intros o' Ho' Hm'. congruence.
Qed.
End dispatching.
