(* ===== verification/MigrationLifetime.v ===== *)
(** * The rest of a pass of the migration controller

    The copy of an unresolved run, the idle resource, its acknowledgments and
    its next claim, and the whole pass: [wpm_reconcile]. *)
From stdpp Require Import base list gmap strings.
From Stdlib Require Import ZArith Lia Ascii.
From S2P Require Import Prelude Effects GoStrings Sha256 Json Fingerprint TargetLock MutationLifecycle PlanStore KubeMeta.
From S2P Require Import SourceContent SourceSnapshot SourceBinding SourcePolicy MigrationStatus MigrationPlan.
From S2P Require Import ResultRetention ApprovalAdmission Cadence RealmCensus DispatchDriver MigrationTypes.
From S2P Require Import MigrationClaims MigrationApply MigrationRuns MigrationResults MigrationDispatch.
From S2P Require Import MigrationReconcile MigrationWorld MigrationProofs MigrationSafety MigrationPass.
From S2P Require Import Prelude.
Local Open Scope go_scope.
Local Open Scope ctl_scope.
Local Open Scope Z_scope.
#[local] Opaque sha256 hex_encode.

Section pass.
Context (r : Manager).
Context (decodes : DecodesCopies r).
Abbreviation wpm := (wpm r).
Abbreviation ends := (ends r).

(** ** The copy of an unresolved run *)

(** The copy is of the recorded run, or of a run that was resolved. *)
Definition copied (s : PtahMigrationStatus) (c : option string) : Prop :=
  match UnresolvedRun s with
  | Some record => forall value d, c = Some value -> decodeUnresolvedRunCopy r value = Some d -> RunOperationID d = RunOperationID record
  | None => resolved_copy r s c
  end.

(** The resource still stands as it was read, up to its copy. *)
Record carried (m m' : PtahMigration) (w w' : world) : Prop := {
  ca_clean : clean m' w';
  ca_coherent : coherent r (Status_ m') (copy m');
  ca_status : Status_ m' = Status_ m;
  ca_answered : forall id, answered_for w id -> answered_for w' id;
}.

Lemma carried_refl m w : clean m w -> coherent r (Status_ m) (copy m) -> carried m m w w.
Proof. by split. Qed.
Lemma carried_recopied value m m' w w' :
  clean m w -> coherent r (Status_ m) value -> recopied value m m' w w' -> carried m m' w w'.
Proof.
  intros (E1 & E2 & E3) Hcoh [[Hc1 Hc2] (H1 & H2 & H3) (H4 & H5) (H6 & H7) _]. split; try done.
  - unfold clean. split; [|split]; congruence.
  - by rewrite H1, Hc1.
  - intros id. unfold answered_for. by rewrite H6, H7.
Qed.

Lemma wpm_unresolvedCopy (Q : option answer -> PtahMigration -> world -> Prop) m w :
  clean m w -> coherent r (Status_ m) (copy m) -> (forall a m' w', Q (Some a) m' w') ->
  (forall m' w', carried m m' w w' -> (ActiveOperation (Status_ m) = None -> copied (Status_ m') (copy m')) -> Q None m' w') ->
  wpm (reconcileUnresolvedRunCopy r) Q m w.
Proof.
  intros Hcl Hcoh Hend HQ. pose proof Hcl as (Es & Ec & _). unfold reconcileUnresolvedRunCopy. wstep. fold (copy m).
  assert (Hset : forall value, coherent r (Status_ m) value -> copied (Status_ m) value ->
    wpm (err <~ setUnresolvedRunCopy value; ret (failed <$> err)) Q m w).
  { intros value Hv Hcp. apply wpm_bind, wpm_set_copy; [done|intros _; by rewrite <- Es|intros; wstep; apply Hend|].
    intros m' w' Hr. wstep. apply HQ; [by eapply carried_recopied|]. intros _.
    destruct Hr as [[-> _] (-> & _) _ _ _]. done. }
  destruct (UnresolvedRun (Status_ m)) as [record|] eqn:Hrec.
  - destruct (unresolvedRunCopyMatches r m record) eqn:Hmatch.
    + wstep. apply HQ; [by apply carried_refl|]. intros _. unfold copied. rewrite Hrec. intros value d Hv Hd.
      rewrite (copy_matches _ _ _ _ Hmatch Hv) in Hd. congruence.
    + apply Hset; [by eapply coherent_copy|]. unfold copied. rewrite Hrec. intros value d [= <-]. by apply decodes.
  - destruct (copy m) as [value|] eqn:Hcopy.
    2: { wstep. apply HQ; [apply carried_refl; [done|by rewrite Hcopy]|]. intros _. unfold copied. rewrite Hrec, Hcopy. by intros. }
    destruct (decodeUnresolvedRunCopy r value) as [d|] eqn:Hd.
    2: { apply wpm_ends; [|done]. apply ends_blocked; try done. by rewrite Hcopy. }
    destruct (match ResolvedRun (Status_ m) with Some _ => _ | None => _ end) eqn:Hres.
    { apply Hset; [by eapply drop_coherent|]. unfold copied. rewrite Hrec. by intros. }
    destruct (match ActiveOperation (Status_ m) with Some _ => _ | None => _ end) eqn:Hact.
    { wstep. apply HQ; [apply carried_refl; [done|by rewrite Hcopy]|]. intros Hn. by rewrite Hn in Hact. }
    wsteps. apply wpm_bind, (wpm_write r decodes m); try done; [by rewrite Hcopy| |intros; wstep; apply Hend..].
    eapply write_restored; try done; [by rewrite Hcopy|].
    intros o Ho. destruct (mutates o) eqn:Hm; [|done]. destruct (Hcoh o Ho) as [_ H]. specialize (H Hm). rewrite Hrec in H.
    rewrite Ho in Hact. bool_prop. destruct (H value d eq_refl Hd) as [?|(res & Hr & ?)]; [congruence|]. rewrite Hr in Hres. bool_prop. congruence.
Qed.

(** ** Acknowledgments *)

(** Nothing is claimed, and every copy that reads as a record is of a run that
    is recorded or was resolved. *)
Definition idle (m : PtahMigration) (w : world) : Prop :=
  clean m w /\ coherent r (Status_ m) (copy m) /\ ActiveOperation (Status_ m) = None /\ copied (Status_ m) (copy m).

Lemma idle_later m w w' : later w w' -> idle m w -> idle m w'.
Proof. intros L (Hcl & ?). split; [by eapply clean_later|done]. Qed.
Lemma idle_undispatched m w : idle m w -> undispatched (Status_ m).
Proof. intros (_ & _ & Ha & _) o Ho. congruence. Qed.

Definition candidate_ok (m : PtahMigration) (c : option Acknowledgment) : Prop :=
  forall a, c = Some a -> settles (Status_ m) a = true /\ (AckMigrationRef (AckSpec a)).2 = MUID m.

Lemma wpm_judge_acks m0 items c (Q : result ctl_error (option Acknowledgment) -> PtahMigration -> world -> Prop) m w :
  candidate_ok m0 c -> (forall a w', later w w' -> (forall c, a = Ok c -> candidate_ok m0 c) -> Q a m w') -> wpm (judge_acks m0 items c) Q m w.
Proof.
  revert c w. induction items as [|a rest IH]; intros c w Hc HQ; cbn [judge_acks].
  - wstep. apply HQ; [reflexivity|]. by intros ? [= <-].
  - destruct (_ || acknowledgmentJudged a) eqn:Hskip; [by apply IH|]. bool_prop.
    destruct (settles (Status_ m0) a) eqn:Hs.
    + apply IH; [|done]. destruct c as [c|]; [done|]. intros a' [= <-]. done.
    + apply wpm_quiet_bind; [auto with quiet|]. intros [e|] w1 L1; [wstep; by apply HQ|]. apply IH; [done|].
      intros x w' L Hx. apply HQ; [by transitivity w1|done].
Qed.

Lemma wpm_settleByAcknowledgment c (Q : option ctl_error -> PtahMigration -> world -> Prop) m w :
  idle m w -> candidate_ok m (Some c) -> (forall e m' w', Q (Some e) m' w') -> (forall m' w', idle m' w' -> Q None m' w') ->
  wpm (settleUnresolvedRunByAcknowledgment r c) Q m w.
Proof.
  intros (Hcl & Hcoh & Ha & Hcp) Hc Herr HQ. destruct (Hc c eq_refl) as [Hset Huid]. unfold settleUnresolvedRunByAcknowledgment. wstep.
  assert (Hsame : idle m w0) by done. destruct x as [a|e]; [|wstep; destruct (IsNotFound e); [by apply HQ|apply Herr]].
  wstep. destruct (UnresolvedRun (Status_ m)) as [run|] eqn:Hrun; [|wstep; by apply HQ].
  destruct (_ || acknowledgmentJudged a) eqn:Hguard; [wstep; by apply HQ|]. clear Hsame. bool_prop.
  unfold settles in Hset. rewrite Hrun in Hset. bool_prop. wsteps.
  apply wpm_bind, (wpm_write r decodes m); try done.
  - apply write_clear; try done; [intros o Ho; congruence|]. intros run0 Hrun0. assert (run0 = run) as -> by congruence.
    right. split; [done|]. eexists. split; [done|]. split; [done|]. right. exists (MetaName (AckMeta c)), a.
    assert (Hspec : AckSpec a = AckSpec c) by assumption. split; [assumption|].
    split; [unfold acknowledgmentStamped; rewrite Hspec; assumption|]. rewrite Hspec. auto.
  - intros m' w' [Wcl Wcoh Wst _ _ Wcp _ _ _]. apply wpm_quiet; [auto with quiet|]. intros e w2 L2. destruct e as [e|]; [apply Herr|].
    apply HQ. split; [by eapply clean_later|]. split; [done|]. split; [by rewrite Wst|]. unfold copied. rewrite Wst. cbn.
    intros value d Hv Hd. eexists. split; [done|]. cbn.
    assert (Hne : Status_ m <> Status_ (with_status (fun s => setMigrationCondition "Blocked" "False" "RunAcknowledged"
                (next_at x (s <| UnresolvedRun := None |>
                  <| ResolvedRun := Some {| ResolvedOperationID := RunOperationID run; ResolvedOutcome := RunOutcome run;
                                            Resolution := "Acknowledged"; AcknowledgmentRef := Some (MetaName (AckMeta a), MetaUID (AckMeta a));
                                            ResolvedBy := Some (AcknowledgedBy (AckSpec a)); ResolvedAt := x |} |>))) m)).
    { intros E. apply (f_equal UnresolvedRun) in E. cbn in E. congruence. }
    change (copy m' = Some value) in Hv. destruct (Wcp Hne eq_refl) as [Hn|[Hc2 Hno]]; [congruence|]. rewrite Hc2 in Hv.
    unfold copied in Hcp. rewrite Hrun in Hcp. symmetry. exact (Hcp value d Hv Hd).
Qed.

Lemma wpm_acknowledgments (Q : option ctl_error -> PtahMigration -> world -> Prop) m w :
  idle m w -> (forall e m' w', Q (Some e) m' w') -> (forall m' w', idle m' w' -> Q None m' w') ->
  wpm (reconcileRunAcknowledgments r) Q m w.
Proof.
  intros (Hcl & Hcoh & Ha & Hcp) Herr HQ. unfold reconcileRunAcknowledgments. wstep. destruct x as [items|e]; [|wstep; apply Herr].
  wstep. apply wpm_bind, (wpm_judge_acks m); [by intros ?|]. intros a w1 L1 Hok. advance L1.
  destruct a as [[c|]|e]; [|wstep; by apply HQ|wstep; apply Herr].
  apply wpm_settleByAcknowledgment; try done. by apply Hok.
Qed.

(** ** Claiming *)

Lemma ends_resolveConfigMap m w : idle m w -> ends (resolveMigrationConfigMapSource r) m w.
Proof.
  intros Hi. pose proof (idle_undispatched _ _ Hi) as Hun. destruct Hi as (Hcl & Hcoh & Ha & _).
  unfold MigrationSafety.ends, resolveMigrationConfigMapSource. wstep. wstep.
  destruct x as [[[snapshot revision] policy]|[]]; try done; [|by apply ends_claimRefused].
  wsteps. apply ends_write; [done|done|done|done|done| |].
  - apply write_benign; [done|done|]. unfold endMigrationRealmRefusal, endMigrationRefusal.
    match goal with |- benign _ (Status_ (with_status ?f m)) => change (benign (Status_ m) (f (Status_ m))) end. cbn beta.
    apply benign_condition, benign_lift, benign_lift. done.
  - intros e m' w'. apply ends_err. intros _. apply ends_quiet. quiet_tac.
Qed.

Lemma ends_write_read_claim o m w :
  idle m w -> mutates o = false -> lock_free o -> ends (write_read_claim r o) m w.
Proof.
  intros (Hcl & Hcoh & Ha & _) Hm Hlf. unfold MigrationSafety.ends, write_read_claim. apply wpm_bind, wpm_ensureFinalizer; [done|].
  intros m' w' (E1 & E2 & E3 & E4) L. assert (Hcl' : clean m' w').
  { apply (clean_later _ _ _ L) in Hcl as (? & ? & ?). unfold clean. split; [|split]; congruence. }
  assert (Hcoh' : coherent r (Status_ m') (copy m')) by (by rewrite E1, E2). rewrite <- E1 in Ha.
  wsteps. apply ends_write; [done|done|done|done|done| |by intros e m2 w2; apply ends_err].
  match goal with |- write_ok _ _ _ (with_status (fun s => endMigrationRealmRefusal ?reason (@?g s)) m') =>
    destruct (lift_fields ["RealmConflict"; "RealmNotAuthorized"] reason (g (Status_ m'))) as (F1 & F2 & F3 & _) end.
  apply (write_read_birth r _ _ _ o); [exact Ha|exact F1|done|done|exact F2].
Qed.

Lemma ends_claimMigration type m w :
  idle m w -> MutationLifecycle.Mutating (MigrationOperation type) = false -> ends (claimMigration r type) m w.
Proof.
  intros Hi Hm. pose proof (idle_undispatched _ _ Hi) as Hun. pose proof Hi as (Hcl & Hcoh & Ha & Hcp).
  unfold MigrationSafety.ends, claimMigration. wstep. rewrite Ha. destruct (MExecutionBinding (Status_ m)) as [binding|]; [|done].
  cbn zeta. destruct (bool_decide (type = "Resolve") && bool_decide (is_Some (ArtifactConfigMap _))); [by apply ends_resolveConfigMap|].
  apply wpm_quiet_bind; [quiet_tac|]. intros checked w1 L1. advance L1. clear L1.
  assert (Hrefused : forall e w', clean m w' -> ends (claimRefused r e) m w') by (intros; by apply ends_claimRefused).
  destruct checked as [policy|[]]; try done; [|by apply Hrefused]. wstep. destruct x as [input|e]; [|by apply Hrefused].
  wstep. wstep. destruct (_ && _); [by apply Hrefused|].
  destruct (target_claim m _) as [o|e] eqn:Ht; [|by apply Hrefused]. wstep. destruct x1 as [name|e]; [|by apply Hrefused].
  assert (Ho : OpType o = type /\ LeaseContinuityLost o = false /\ OpLeaseEpoch o = EmptyString).
  { unfold target_claim in Ht. destruct (negb _); [by injection Ht as <-|]. destruct (Fingerprint.Digest _ _); [|done]. by injection Ht as <-. }
  destruct Ho as (Ho1 & Ho2 & Ho3). apply ends_write_read_claim; [done| |done].
  unfold mutates, mutating, migrationOperation. cbn. by rewrite Ho1.
Qed.

(** ** Claiming an Apply *)

Lemma wpm_currentPlan (Q : result ctl_error Plan -> PtahMigration -> world -> Prop) m w :
  (forall e w', later w w' -> Q (Err e) m w') ->
  (forall plan name w', later w w' -> seen (GetPlan name) (Ok plan) (w_log w') -> MPlan (Status_ m) = Some (name, MetaUID (PlanMeta plan)) ->
     plan_current m plan = Ok tt -> Q (Ok plan) m w') ->
  wpm (currentMigrationPlan r) Q m w.
Proof.
  intros Herr HQ. unfold currentMigrationPlan. wstep. destruct (MPlan (Status_ m)) as [[name uid]|] eqn:Hp; [|wstep; apply Herr; reflexivity].
  apply wpm_ask_bind; [done|]. intros read w1 L1 S1. destruct read as [plan|e]; [|wstep; by apply Herr].
  destruct (stands (PlanMeta plan) uid) eqn:Hs; cbn [negb]; [|wstep; by apply Herr].
  destruct (plan_current m plan) as [[]|e] eqn:Hc; [|wstep; by apply Herr].
  apply wpm_quiet_bind; [auto with quiet|]. intros bound w2 L2. wstep.
  destruct bound; [apply Herr; by transitivity w1|]. unfold stands in Hs. bool_prop.
  apply (HQ plan name); [by transitivity w1|by eapply seen_later| |done]. congruence.
Qed.

Lemma pick_approval_spec m plan items found a :
  pick_approval m plan items found = Some a -> found = Some a \/ (a ∈ items /\ authorizes m plan a = true).
Proof.
  revert found. induction items as [|b rest IH]; intros found; cbn [pick_approval]; [by left|].
  intros H. apply IH in H as [H|[? ?]]; [|right; split; [by right|done]].
  destruct (authorizes m plan b) eqn:Hb; [|by left]. unfold earlier in H.
  destruct found as [f|]; [destruct (_ <? _)|]; injection H as <-; [right|by left|right]; (split; [by left|done]).
Qed.

(** How an Apply is authorized: by the policy, or by an approval it names. *)
Definition grants (m : PtahMigration) (plan : Plan) (approval : option Approval) (log : list (entry ctlE)) : Prop :=
  (PolicyApply (Spec m) = "Always" /\ approval = None) \/
  (PolicyApply (Spec m) <> "Never" /\ exists items a, seen ListApprovals (Ok items) log /\ a ∈ items /\
     authorizes m plan a = true /\ approval = Some a).

Lemma grants_later m plan approval w w' : later w w' -> grants m plan approval (w_log w) -> grants m plan approval (w_log w').
Proof. intros L [?|(? & items & a & Hs & ?)]; [by left|right]. split; [done|]. exists items, a. split; [by eapply seen_later|done]. Qed.

Lemma ends_claimMigrationApply plan name approval m w :
  idle m w -> seen (GetPlan name) (Ok plan) (w_log w) -> MPlan (Status_ m) = Some (name, MetaUID (PlanMeta plan)) ->
  plan_current m plan = Ok tt -> grants m plan approval (w_log w) -> ends (claimMigrationApply r plan approval) m w.
Proof.
  intros Hi Hseen Hplan Hcur Hg. pose proof (idle_undispatched _ _ Hi) as Hun. pose proof Hi as (Hcl & Hcoh & Ha & Hcp).
  unfold MigrationSafety.ends, claimMigrationApply. wstep. rewrite Ha. destruct (UnresolvedRun (Status_ m)) eqn:Hu; [by apply ends_blocked|].
  apply wpm_ask_bind; [done|]. intros input w1 L1 _. destruct input as [input|e]; [|apply ends_failure; try done; by eapply clean_later].
  apply wpm_quiet_bind; [auto with quiet|]. intros id w2 L2. apply wpm_quiet_bind; [auto with quiet|]. intros startedAt w3 L3.
  apply wpm_ask_bind; [done|]. intros actor w4 L4 _. cbn zeta. apply wpm_ask_bind; [done|]. intros named w5 L5 _.
  assert (L : later w w5) by (etransitivity; [exact L1|]; etransitivity; [exact L2|]; etransitivity; [exact L3|]; etransitivity; [exact L4|exact L5]).
  clear L1 L2 L3 L4 L5. destruct named as [jobName|e]; [|apply ends_failure; try done; by eapply clean_later].
  apply wpm_bind, wpm_ensureFinalizer; [done|]. intros m' w' (E1 & E2 & E3 & E4) L2. assert (Lw : later w w') by (by transitivity w5).
  assert (Hcl' : clean m' w').
  { apply (clean_later _ _ _ Lw) in Hcl as (? & ? & ?). unfold clean. split; [|split]; congruence. }
  assert (Hcoh' : coherent r (Status_ m') (copy m')) by (by rewrite E1, E2).
  wsteps. apply ends_write; try done; [|intros e m2 v; by apply ends_err].
  set (o := (apply_claim m plan approval id input startedAt) <| Actor := actor |> <| JobName := jobName |>).
  apply (write_apply_birth r) with (o' := o); [done|done|done| |done|done|unfold copied in Hcp; rewrite Hu in Hcp; by rewrite E1, E2].
  split; [by rewrite E1|]. split; [by rewrite E1|]. split; [done|]. exists name, plan. split; [by eapply seen_later|].
  split; [by rewrite E1|]. do 2 (split; [done|]). split.
  { unfold plan_current, migrationPolicyFingerprint in *. by rewrite E1, E3. }
  unfold authorizes. rewrite E3, E4. apply (grants_later _ _ _ _ _ Lw) in Hg.
  destruct Hg as [[Hpol ->]|(Hpol & items & a & Hs & Hin & Hauth & ->)]; [by left|right]. split; [done|]. by exists items, a.
Qed.

Lemma ends_applyDecision m w : idle m w -> ends (reconcileMigrationApplyDecision r) m w.
Proof.
  intros Hi. unfold MigrationSafety.ends, reconcileMigrationApplyDecision. apply wpm_bind, wpm_currentPlan.
  - intros e w' L. pose proof (idle_later _ _ _ L Hi) as (Hcl & Hcoh & _). unfold discardMigrationPlan. wsteps.
    apply ends_report; try done. intros e0 m' w2. by apply ends_err.
  - intros plan name w' L Hseen Hplan Hcur. pose proof (idle_later _ _ _ L Hi) as Hi'. wstep.
    destruct (bool_decide_reflect (PolicyApply (Spec m) = "Never")) as [|Hnever]; [apply ends_quiet; auto with quiet|].
    destruct (bool_decide_reflect (PolicyApply (Spec m) = "Always")); [eapply ends_claimMigrationApply; try done; by left|].
    unfold findMigrationApproval. apply wpm_bind, wpm_get_bind, wpm_ask_bind; [done|]. intros listed w2 L2 S2. wstep.
    destruct listed as [items|e]; [|done]. destruct (pick_approval m plan items None) as [a|] eqn:Hpick; [|apply ends_quiet; auto with quiet].
    apply pick_approval_spec in Hpick as [?|[Hin Hauth]]; [done|].
    eapply (ends_claimMigrationApply plan name); [by eapply idle_later|by eapply seen_later|done|done|]. right. split; [done|]. by exists items, a.
Qed.

(** ** An idle migration *)

Lemma ends_decide_phase t m w : idle m w -> ends (decide_phase r t) m w.
Proof.
  intros Hi. unfold MigrationSafety.ends, decide_phase. wstep. cbn zeta.
  repeat match goal with |- MigrationProofs.wpm _ (if ?b then _ else _) _ _ _ => destruct b end;
    first [by apply ends_claimMigration|by apply ends_applyDecision|done].
Qed.

Lemma ends_decide_next m w : idle m w -> ends (decide_next r) m w.
Proof.
  intros Hi. pose proof Hi as (Hcl & Hcoh & Ha & Hcp). unfold MigrationSafety.ends, decide_next. wstep. wstep.
  destruct (negb _); [by apply ends_claimMigration|]. wstep. destruct x0 as [[]|e]; [by apply ends_claimMigration| |done].
  wstep. destruct x0 as [[]|e]; [by apply ends_claimMigration| |done]. cbn zeta.
  destruct (_ && _); [by apply ends_answer|by apply ends_decide_phase].
Qed.

Lemma ends_idle m w : idle m w -> ends (reconcile_idle r) m w.
Proof.
  intros Hi. pose proof Hi as (Hcl & Hcoh & Ha & Hcp). unfold MigrationSafety.ends, reconcile_idle. wstep.
  destruct (negb _); [by apply ends_blocked|]. destruct (Suspend _).
  - wsteps. by apply ends_report.
  - wstep. destruct x as [verdict|e]; [|done]. destruct (refusal verdict); [by apply ends_realmBlocked|by apply ends_decide_next].
Qed.

(** ** The pass *)

(** A read of the migration begins a pass and changes nothing. *)
Definition unwritten (w w' : world) : Prop :=
  Status_ (w_stored w') = Status_ (w_stored w) /\ copy (w_stored w') = copy (w_stored w) /\
  w_jobs w' = w_jobs w /\ w_past w' = w_past w.
Lemma answered_for_unwritten w w' id : unwritten w w' -> answered_for w id -> answered_for w' id.
Proof. intros (_ & _ & Ej & Ep). unfold answered_for. by rewrite Ej, Ep. Qed.

Lemma wpm_read (Q : answer + unit -> PtahMigration -> world -> Prop) m0 w :
  (forall a m' w', Q (inl a) m' w') ->
  (forall m' w', clean m' w' -> unwritten w w' -> Q (inr tt) m' w') -> wpm (read_migration r) Q m0 w.
Proof.
  intros Hend HQ. unfold read_migration. apply wpm_bind. split; [done|]. intros x w' Hx.
  destruct Hx as (mid & (Es & Ec & Eu)%interfere_facts & ((Hs & Hp & Hj) & Hm) & _). cbn in Hs, Hp, Hj, Hm. cbn [fst snd pbind].
  destruct x as [m|e]; [|apply Hend]. rewrite (Hm m eq_refl). apply wpm_put_bind.
  destruct (rejectUnsupportedStoredControllerState r mid); wstep; [apply Hend|]. apply HQ.
  - unfold clean. by rewrite Hs.
  - unfold unwritten. by rewrite Hs.
Qed.

Lemma wpm_drop_finalizer (Q : answer + unit -> PtahMigration -> world -> Prop) m w :
  idle m w -> (forall a m' w', Q (inl a) m' w') -> (forall m' w', idle m' w' -> Q (inr tt) m' w') -> wpm (drop_stale_finalizer r) Q m w.
Proof.
  intros Hi Hend HQ. pose proof Hi as (Hcl & Hcoh & Ha & Hcp). unfold drop_stale_finalizer. wstep. destruct (negb _); [wstep; by apply HQ|].
  apply wpm_bind, wpm_removeFinalizer; [intros; wstep; apply Hend|]. intros m' w' _ L. apply wpm_read; [done|].
  intros m2 w2 Hcl2 L2. apply HQ.
  destruct Hcl as (E1 & E2 & _), Hcl2 as (F1 & F2 & F3), L as [G1 G2 _ _ _ _], L2 as (G3 & G4 & _).
  assert (H1 : Status_ m2 = Status_ m) by congruence. assert (H2 : copy m2 = copy m) by congruence.
  split; [done|]. by rewrite H1, H2.
Qed.

(** Every call of a pass meets its requirement, from any sound world. *)
Lemma wpm_reconcile m0 w : sound r w -> ends (reconcile r) m0 w.
Proof.
  intros [Hcoh0 Hcov _]. unfold MigrationSafety.ends, reconcile. apply wpm_bind, wpm_read; [done|]. intros m w1 Hcl L1.
  assert (Hcoh : coherent r (Status_ m) (copy m)).
  { destruct Hcl as (-> & -> & _), L1 as (-> & -> & _). done. }
  unfold reconcile_read. wstep. destruct (PendingLockRelease (Status_ m)) eqn:Hpend.
  { apply wpm_ends; [by apply ends_complete|done]. }
  destruct (unaccounted_apply (Status_ m)) eqn:Hacc; [by apply ends_reconcileUnaccounted|].
  destruct (MDeleting m); [by apply ends_deletion|].
  apply wpm_bind, wpm_unresolvedCopy; [done|done|done|]. intros m' w' [Ccl Ccoh Cst Cans] Hcp.
  unfold reconcile_binding. apply wpm_bind, (wpm_binding r decodes); [done|done|done|]. wstep. rewrite Cst.
  destruct (ActiveOperation (Status_ m)) as [o|] eqn:Ho.
  - apply (ends_reconcileActive r decodes o). split; [split; [done|split; [done|by rewrite Cst]]|]. rewrite Cst. split; [done|]. split.
    + intros Hm. destruct (UnresolvedRun (Status_ m)) as [run|] eqn:Hu; [|done]. unfold unaccounted_apply in Hacc. rewrite Ho, Hu in Hacc.
      destruct (Hcoh o Ho) as [_ Hc]. specialize (Hc Hm). rewrite Hu in Hc. unfold mutates in Hm. rewrite Hm, Hc in Hacc.
      by rewrite bool_decide_eq_true_2 in Hacc.
    + intros Hm Hk. apply Cans, (answered_for_unwritten _ _ _ L1). intros Hid. destruct (Hcov _ Hid) as [(o' & Ho' & _ & _ & Hk')|?]; [|done].
      destruct Hcl as (E & _). rewrite E, (proj1 L1) in Ho. congruence.
  - assert (Hi : idle m' w') by (split; [done|split; [done|split; [by rewrite Cst|by apply Hcp]]]).
    apply wpm_bind, wpm_drop_finalizer; [done|done|]. intros m2 w2 Hi2. apply wpm_bind, wpm_acknowledgments; [done|done|].
    intros m3 w3 Hi3. by apply ends_idle.
Qed.
End pass.
