(* ===== verification/MigrationSample.v ===== *)
(** * A cluster for the migration controller

    One manager, and an API server that answers every call the way a healthy
    cluster does: a status or metadata write lands over the version it was
    computed from and conflicts otherwise, a Lease and a Job are read back as
    they were written. Every answer is one [step] allows, so the passes run
    here are passes of a life. *)
From stdpp Require Import base list gmap strings.
From Stdlib Require Import ZArith Lia Ascii.
From S2P Require Import Prelude Effects GoStrings Sha256 Json JsonDecode Fingerprint TargetLock MutationLifecycle PlanStore KubeMeta.
From S2P Require Import SourceContent SourceSnapshot SourceBinding SourcePolicy MigrationStatus MigrationPlan.
From S2P Require Import ResultRetention ApprovalAdmission Cadence RealmCensus DispatchDriver MigrationTypes.
From S2P Require Import MigrationClaims MigrationApply MigrationRuns MigrationResults MigrationDispatch.
From S2P Require Import MigrationReconcile MigrationWorld.
From S2P Require Import Prelude.
Local Open Scope go_scope.
Local Open Scope ctl_scope.
Local Open Scope Z_scope.
#[local] Opaque sha256 hex_encode.

(** ** Reading a copy back *)

(** The bytes JSON writes as they are. *)
Definition plain_byte (b : Z) : bool := safe_byte true b && (b <? 128).
Definition plain (s : string) : bool := forallb plain_byte (bytes s).

Lemma esc_head b t : exists h rest, esc true (b :: t) = h :: rest /\
  (h = 92 \/ (h = b /\ 128 <= b) \/ (h = b /\ safe_byte true b = true /\ rest = esc true t)).
Proof.
  cbn [esc]. destruct (b <? 128) eqn:E.
  - unfold esc_ascii. destruct (safe_byte true b) eqn:Es; [by eexists _, _; split; [|right; right]|].
    destruct (_ || _); [eexists _, _; split; [reflexivity|by left]|].
    repeat (destruct (b =? _); [eexists _, _; split; [reflexivity|by left]|]). eexists _, _. split; [reflexivity|by left].
  - apply Z.ltb_ge in E. assert (Hi : exists h rest, esc_invalid ++ esc true t = h :: rest /\
      (h = 92 \/ (h = b /\ 128 <= b) \/ (h = b /\ safe_byte true b = true /\ rest = esc true t))) by (eexists _, _; split; [reflexivity|by left]).
    destruct t as [|b1 t1]; [exact Hi|]. destruct (rune2 b b1); [eexists _, _; split; [reflexivity|by right; left]|].
    destruct t1 as [|b2 t2]; [exact Hi|]. destruct (rune3 b b1 b2).
    { unfold esc_rune3. destruct (_ && _); eexists _, _; (split; [reflexivity|]); [by left|by right; left]. }
    destruct t2 as [|b3 t3]; [exact Hi|]. destruct (rune4 b b1 b2 b3); [eexists _, _; split; [reflexivity|by right; left]|exact Hi].
Qed.

(** A plain text is written by no other. *)
Lemma plain_text s : forall t r r', forallb plain_byte s = true -> esc true t ++ 34 :: r' = esc true s ++ 34 :: r -> t = s /\ r' = r.
Proof.
  induction s as [|c s IH]; intros t r r' Hs H.
  - destruct t as [|b t]; [by simplify_eq/=|]. destruct (esc_head b t) as (h & rest & Eb & Hh). rewrite Eb in H. cbn in H. injection H as -> _.
    exfalso. destruct Hh as [?|[[? ?]|(? & Hs34 & _)]]; subst; [done|lia|done].
  - cbn [forallb] in Hs. apply andb_true_iff in Hs as [Hc Hs]. unfold plain_byte in Hc. apply andb_true_iff in Hc as [Hc Hlt].
    assert (Ec : esc true (c :: s) = c :: esc true s) by (cbn [esc]; unfold esc_ascii; by rewrite Hlt, Hc). rewrite Ec in H.
    destruct t as [|b t]; [cbn in H; injection H as <- _; done|]. destruct (esc_head b t) as (h & rest & Eb & Hh). rewrite Eb in H. cbn in H.
    injection H as -> H. apply Z.ltb_lt in Hlt. destruct Hh as [?|[[? ?]|(? & _ & ?)]]; subst; [done|lia|]. destruct (IH _ _ _ Hs H) as [-> ->]. done.
Qed.

Lemma quote_plain s t r r' : plain s = true -> quote true t ++ r' = quote true s ++ r -> t = s /\ r' = r.
Proof.
  unfold quote, plain. intros Hs H. cbn [app] in H. injection H as H. rewrite <- !app_assoc in H. cbn [app] in H.
  destruct (plain_text _ _ _ _ Hs H) as [Hb ->]. split; [by apply bytes_inj|done].
Qed.

(** What is written is a text of bytes. *)
Lemma is_byte_small b : 0 <= b < 256 -> is_byte b.
Proof. done. Qed.
Lemma hex_byte_range v : is_byte (hex_byte v).
Proof. apply byte_of_range. Qed.
Ltac byte_list := repeat (apply Forall_cons; split; [done || apply hex_byte_range|]); try apply Forall_nil; try done.
Lemma esc_ascii_range b : is_byte b -> Forall is_byte (esc_ascii true b).
Proof.
  intros Hb. unfold esc_ascii. repeat case_goal; byte_list.
Qed.
Lemma esc_range n : forall l, (length l <= n)%nat -> Forall is_byte l -> Forall is_byte (esc true l).
Proof.
  induction n as [|n IH]; intros [|b l] Hn Hl; try (constructor || (cbn in Hn; lia)). inversion_clear Hl as [|? ? Hb Hl']. cbn in Hn.
  assert (Hi : Forall is_byte (esc_invalid ++ esc true l)) by (apply Forall_app; split; [byte_list|apply IH; [lia|done]]).
  cbn [esc]. destruct (b <? 128); [apply Forall_app; split; [by apply esc_ascii_range|apply IH; [lia|done]]|].
  destruct l as [|b1 l1]; [exact Hi|]. inversion_clear Hl' as [|? ? Hb1 Hl1]. cbn in Hn.
  destruct (rune2 b b1); [byte_list; apply IH; [lia|done]|].
  destruct l1 as [|b2 l2]; [exact Hi|]. inversion_clear Hl1 as [|? ? Hb2 Hl2]. cbn in Hn. destruct (rune3 b b1 b2).
  { apply Forall_app. split; [|apply IH; [lia|done]]. unfold esc_rune3. destruct (_ && _) eqn:E; [|byte_list].
    assert (is_byte (b2 - 112)) by (apply is_byte_small; destruct Hb2; lia). byte_list. }
  destruct l2 as [|b3 l3]; [exact Hi|]. inversion_clear Hl2 as [|? ? Hb3 Hl3]. cbn in Hn.
  destruct (rune4 b b1 b2 b3); [byte_list; apply IH; [lia|done]|exact Hi].
Qed.
Lemma quote_range s : Forall is_byte (quote true s).
Proof. unfold quote. constructor; [done|]. apply Forall_app. split; [|byte_list]. eapply esc_range; [done|apply bytes_range]. Qed.
Lemma marshal_range v : Forall is_byte (marshal v).
Proof.
  induction v as [s|z|b| |l IH|fs IH] using json_ind'; cbn [encode].
  - apply quote_range.
  - apply bytes_range.
  - destruct b; apply bytes_range.
  - apply bytes_range.
  - constructor; [done|]. destruct IH as [|x xs Hx Hxs]; [byte_list|]. apply Forall_app. split; [done|].
    induction Hxs as [|y ys Hy Hys IHs]; [byte_list|]. constructor; [done|]. by apply Forall_app.
  - constructor; [done|]. destruct IH as [|[k x] xs Hx Hxs]; [byte_list|]. apply Forall_app. split; [apply quote_range|].
    constructor; [done|]. apply Forall_app. split; [done|].
    induction Hxs as [|[k' y] ys Hy Hys IHs]; [byte_list|]. constructor; [done|]. apply Forall_app. split; [apply quote_range|].
    constructor; [done|]. by apply Forall_app.
Qed.

(** A decoder of [encoding/json] on the texts it writes itself. *)
Definition decode_copy (value : string) : option (UnresolvedMigrationRunStatus * bool) :=
  v ← parse (bytes value); d ← unresolved_of_json v;
  if bool_decide (encodeUnresolvedRunCopy d = value) then Some (d, false) else None.

Lemma digest_plain s : is_sha256_digest s = true -> plain s = true.
Proof.
  unfold is_sha256_digest. destruct (cut_prefix _ s) as [h|] eqn:E; [|done]. apply cut_prefix_Some in E as ->. intros H.
  apply andb_true_iff in H as [_ H]. unfold plain. rewrite bytes_app, forallb_app. apply andb_true_iff. split; [done|].
  induction h as [|a h IH]; [done|]. cbn [str_all] in H. apply andb_true_iff in H as [Ha H]. rewrite bytes_cons. cbn [forallb].
  rewrite (IH H), andb_true_r. revert Ha. clear. destruct a as [[] [] [] [] [] [] [] []]; vm_compute; done.
Qed.

(** The first two texts of an object, when they are plain. *)
Lemma first_fields k1 k2 a b rest a' b' rest' : plain a' = true -> plain b' = true ->
  marshal (JObj ((k1, JStr a) :: (k2, JStr b) :: rest)) = marshal (JObj ((k1, JStr a') :: (k2, JStr b') :: rest')) -> a = a' /\ b = b'.
Proof.
  intros Ha Hb H. rewrite !marshal_obj_cons in H. apply cons_tail, app_inv_head, cons_tail in H. cbn [encode] in H.
  apply quote_plain in H as [-> H]; [|done]. cbn [tail_obj] in H. apply cons_tail in H. apply app_inv_head, cons_tail in H. cbn [encode] in H.
  by apply quote_plain in H as [-> _].
Qed.

Lemma decode_copy_spec r : DecodeRecord r = decode_copy -> DecodesCopies r.
Proof.
  intros Hr record d H. unfold decodeUnresolvedRunCopy in H. rewrite Hr in H.
  assert (Hd : encodeUnresolvedRunCopy d = encodeUnresolvedRunCopy record /\ plain (RunOutcome d) = true /\ plain (RunOperationID d) = true).
  { destruct (decode_copy _) as [[d' more]|] eqn:E; [|done].
    assert (Ed : encodeUnresolvedRunCopy d' = encodeUnresolvedRunCopy record).
    { clear H. unfold decode_copy in E. destruct (parse _) as [v|]; [|done]. cbn in E. destruct (unresolved_of_json v) as [d0|]; [|done]. cbn in E.
      case_bool_decide; [|done]. by injection E as <- _. }
    destruct more; [done|]. destruct (negb _ && negb _) eqn:Ho; [done|]. destruct (is_sha256_digest _) eqn:Hi; [|done]. cbn in H.
    assert (d' = d) as <- by (follow H; congruence). split; [done|]. split; [|by apply digest_plain].
    apply andb_false_iff in Ho as [Ho|Ho]; apply negb_false_iff, bool_decide_eq_true in Ho; by rewrite Ho. }
  destruct Hd as (He & Ho & Hi). apply (f_equal bytes) in He. unfold encodeUnresolvedRunCopy in He.
  rewrite !bytes_of_bytes in He by apply marshal_range. symmetry in He. by apply first_fields in He as [_ ->].
Qed.

(** ** The cluster *)

Record api_objects : Type := { cl_plan : Plan; cl_approvals : list Approval; cl_acknowledgments : list Acknowledgment }.

Definition not_found : api_err := {| IsNotFound := true; IsAlreadyExists := false; asAPIStatus := None |}.
Definition conflicted : api_err := {| IsNotFound := false; IsAlreadyExists := false; asAPIStatus := None |}.
Definition at_noon : Z := 1700000000000000000.

(** The Lease and the Job that were written last. *)
Definition lease_of (x : entry ctlE) : option Lease :=
  match projT2 x with
  | (LockCall e, _) => match e with CreateLease lease | UpdateLease lease => Some lease | _ => None end
  | _ => None
  end.
Definition job_of (x : entry ctlE) : option Job :=
  match projT2 x with (CreateJob _ job, _) => Some job | _ => None end.
Definition last_written {A} (f : entry ctlE -> option A) (log : list (entry ctlE)) : option A :=
  fold_left (fun found x => match f x with Some a => Some a | None => found end) log None.

Definition lock_answers {X} (e : lockE X) (log : list (entry ctlE)) : X :=
  match e in lockE X return X with
  | GetLease _ => match last_written lease_of log with Some lease => Ok lease | None => Err NotFound end
  | CreateLease lease => Ok lease
  | UpdateLease lease => Ok lease
  | TargetLock.ClockNow => {| wall := at_noon; monotonic := at_noon |}
  | RandRead => Some (replicate 16 7)
  | WithObservations section => (section ∅).1
  end.
Definition census_answers {X} (e : censusE X) : X :=
  match e in censusE X return X with
  | GetRealm _ => Some None
  | ListSchemas _ _ => Some []
  | ListMigrations _ _ => Some []
  end.
Definition fleet_answers {X} (e : fleetE X) : X :=
  match e in fleetE X return X with
  | ListSchemaIntervals => Some []
  | ListMigrationIntervals => Some []
  end.

Definition sample_snapshot : PodAdmissionSnapshot := {| AdmissionDigest := "snapshot"; AdmissionTemplateDigest := "template" |}.
Definition object_meta (namespace name uid : string) : ObjectMeta :=
  {| MetaName := name; GenerateName := EmptyString; MetaNamespace := namespace; SelfLink := EmptyString; MetaUID := uid;
     ResourceVersion := EmptyString; MetaGeneration := 1; CreationTimestamp := Some at_noon; DeletionTimestamp := None;
     DeletionGracePeriodSeconds := None; Labels := ∅; Annotations := ∅; OwnerReferences := []; Finalizers := []; ManagedFields := [] |}.
Definition job_for (m : PtahMigration) (operation : MigrationOperationStatus) : Job :=
  {| JobMeta := object_meta (MNamespace m) (JobName operation) "job-1"; JobComplete := false; JobFailed := false; JobDurable := false;
     JobDispatcher := None; JobTemplate := "pod" |}.
Definition unavailable : ctl_error := ErrText "unavailable".

Section api.
Context (cl : api_objects).

Definition answers {X} (e : ctlE X) (w : world) : X :=
  match e in ctlE X return X with
  | GetMigration => Ok (w_stored w)
  | PatchStatus base _ | PatchMigration base _ =>
      if MResourceVersion base =? MResourceVersion (w_stored w) then Ok (MResourceVersion (w_stored w) + 1) else Err conflicted
  | TextMoved => false
  | GetJob _ => match last_written job_of (w_log w) with Some job => Ok job | None => Err not_found end
  | CreateJob _ job => (job, None)
  | PatchJobTTL _ _ => None
  | ListPods => Ok []
  | GetPlan _ => Ok (cl_plan cl)
  | CreatePlan _ => Err conflicted
  | ListApprovals => Ok (cl_approvals cl)
  | GetApproval name =>
      match List.find (fun a => bool_decide (MetaName (ApprovalMeta a) = name)) (cl_approvals cl) with Some a => Ok a | None => Err not_found end
  | PatchApproval _ _ => None
  | ListAcknowledgments => Ok (cl_acknowledgments cl)
  | GetAcknowledgment name =>
      match List.find (fun a => bool_decide (MetaName (AckMeta a) = name)) (cl_acknowledgments cl) with Some a => Ok a | None => Err not_found end
  | PatchAcknowledgment _ _ => None
  | GetConfigMap _ => Err not_found
  | Now => at_noon
  | Entropy => "0001"
  | LockCall e => lock_answers e (w_log w)
  | CensusCall e => census_answers e
  | FleetCall e => fleet_answers e
  | InputFingerprintOf _ _ => Ok "inputs"
  | NameForMigration _ operation => Ok "orders-apply-1"
  | BuildMigration m operation _ => Ok (job_for m operation)
  | MigrationActor _ _ => "dba"
  | MatchJob _ _ _ _ => None
  | ResolveSnapshot _ => Ok sample_snapshot
  | ValidateSnapshot _ => None
  | DigestTemplate _ => Ok (AdmissionTemplateDigest sample_snapshot)
  | ContextErr => None
  | IssueCredential _ => true
  | JudgePodAdmission _ => Ok None
  | TerminalLogs _ => PodPending
  | SummaryStandIn _ => None
  | AwaitFrame _ => None
  | ProtocolRefusal _ => None
  | FailedInitBoundary _ => Ok false
  | ReportedOutcome _ => EmptyString
  | VerificationRefusalHolds _ _ _ => false
  | ConfigMapSourceMoved _ => Ok false
  | SourcePolicyMoved _ => Ok false
  | ReadConfigMapSource _ => Err unavailable
  | GitResolution _ _ => Err unavailable
  | CheckGitSource _ _ => Ok None
  | ParsesAsOCI _ => true
  | RetireSnapshots _ => tt
  end.

Definition moves {X} (e : ctlE X) (w : world) : world :=
  let stored := w_stored w in let version := MResourceVersion stored + 1 in
  match e with
  | PatchStatus base after =>
      if MResourceVersion base =? MResourceVersion stored
      then w <| w_stored := stored <| Status_ := Status_ after |> <| MResourceVersion := version |> |> <| w_past := Status_ after :: w_past w |>
      else w
  | PatchMigration base patched =>
      if MResourceVersion base =? MResourceVersion stored
      then w <| w_stored := stored
        <| MAnnotations := if bool_decide (MAnnotations base = MAnnotations patched) then MAnnotations stored else MAnnotations patched |>
        <| MFinalizers := if bool_decide (MFinalizers base = MFinalizers patched) then MFinalizers stored else MFinalizers patched |>
        <| MResourceVersion := version |> |>
      else w
  | CreateJob operation _ => w <| w_jobs := if mutating (Some operation) then OpID operation :: w_jobs w else w_jobs w |>
  | _ => w
  end.

Definition api_server (X : Type) (e : ctlE X) (w : world) : X * world :=
  let x := answers e w in (x, (moves e w) <| w_log := w_log w ++ [answered e x] |>).

Lemma api_step X (e : ctlE X) w x w' : deterministic api_server X e w x w' -> step X e w x w'.
Proof.
  intros [= <- <-]. exists (w_stored w). split; [by left|]. split; [|done].
  destruct e; try done; cbn [respond answers moves].
  - split; [done|]. by intros m [= <-].
  - destruct (_ =? _) eqn:E; [|by left]. split; [by apply Z.eqb_eq|]. split; [cbn; lia|done].
  - destruct (_ =? _) eqn:E; [|by left]. split; [by apply Z.eqb_eq|]. split; [cbn; lia|done].
Qed.
End api.

(** ** The calls of a run *)

(** The call a program makes after [n] answers, and the world it makes it in. *)
Fixpoint call_at {E : Type -> Type} {S A} (h : forall X, E X -> S -> X * S) (n : nat) (p : prog E A) (s : S) : option ({X & E X} * S) :=
  match p, n with
  | Ret _, _ => None
  | Vis e _, O => Some (existT _ e, s)
  | Vis e k, S n => let '(x, s') := h _ e s in call_at h n (k x) s'
  end.

Lemma call_at_makes {E : Type -> Type} {S A X} (h : forall X, E X -> S -> X * S) (g : forall X, E X -> S -> X -> S -> Prop) n (e : E X) s1 :
  (forall X (e : E X) s x s', deterministic h X e s x s' -> g X e s x s') ->
  forall (p : prog E A) s, call_at h n p s = Some (existT X e, s1) -> makes g p s e s1.
Proof.
  intros Hg. induction n as [|n IH]; intros [a|Y e0 k] s H; try done; cbn [call_at] in H.
  - left. apply (f_equal (fun o => match o with Some c => c | None => (existT X e, s1) end)) in H. by injection H as -> ->.
  - destruct (h Y e0 s) as [x s'] eqn:E1. right. exists x, s'. split; [by apply Hg|by apply IH].
Qed.

(** ** The sample *)

Definition sample_epoch : ExecutionBindingStatus :=
  {| BindingEpoch := "v1-epoch"; BindingStateVersion := 1; BindingPtahVersion := "1.0.0"; BindingExecutorImage := "executor";
     BindingProtocolVersion := 1 |}.
Definition sample_manager : Manager :=
  {| LockNamespace := "ptah-system"; LockerInitialized := true; isDNS1123Label := fun _ => true; Configured := sample_epoch;
     Identity := ("manager", "revision", "runner"); FormatTime := fun _ => "2023-11-14T22:13:20Z"; ParsesTime := fun _ => false;
     DecodeRecord := decode_copy; UnmarshalStrict := fun _ => None |}.
#[export] Instance sample_decodes : DecodesCopies sample_manager.
Proof. by apply decode_copy_spec. Qed.

Definition sample_spec : PtahMigrationSpec :=
  {| Target := {| Engine := "PostgreSQL"; CoordinationKey := "orders"; RealmRef := None |};
     URLFrom := {| SelectorName := "db"; SelectorKey := "url"; SelectorOptional := None |};
     Artifact := {| OCIRef := EmptyString; ArtifactConfigMap := Some "migrations"; ArtifactGit := None; ArtifactRegistryAuth := None;
                    ArtifactPlainHTTP := false; ArtifactCAFrom := None; VerificationPolicyFrom := None; SourcePolicyFrom := None |};
     PolicyApply := "OnApproval"; LockTimeout := 10 * Second; TransactionMode := "auto"; Interval := 600 * Second;
     ActiveDeadlineSeconds := 0; FailureRetryInterval := 0; Suspend := false |}.
Definition sample_revision : ConfigMapSourceRevision := {| CMName := "migrations"; CMUID := "cm-1"; CMResourceVersion := "7" |}.
Definition sample_artifact : SourceAccessBinding :=
  {| ResolvedReference := EmptyString; AccessDigest := EmptyString; RegistryAuthFrom := None; PlainHTTP := false; CAFrom := None;
     Snapshot := Some {| SnapshotName := "snap-1"; SnapshotUID := "snap-uid"; SnapshotContentDigest := "sha256:content"; SchemaFile := EmptyString |};
     Git := None |}.
Definition sample_history : MigrationHistoryStatus :=
  {| ObservedAt := 0; HistoryContractVersion := 1; HistoryCurrentVersion := 3; HistoryCheckpointVersion := 0; AppliedCount := 3;
     PendingCount := 1; HistoryFingerprint_ := "history-3"; HistoryTargetIdentityDigest := "sha256:target"; Dirty := false;
     ModifiedVersions := []; OutOfOrderVersions := [] |}.

(** A migration with a published plan, and one with a run nobody accounted
    for. *)
Definition planned_status : PtahMigrationStatus :=
  {| ObservedGeneration := 1; MPhase := "AwaitingApproval"; MConditions := ∅; MArtifact := Some sample_artifact;
     MConfigMap := Some sample_revision; MSourcePolicy := None; MExecutionBinding := Some sample_epoch; ActiveOperation := None;
     History := Some sample_history; MPlan := Some ("orders-plan", "plan-1"); LastRun := None; UnresolvedRun := None; ResolvedRun := None;
     PendingLockRelease := None; NextReconciliationTime := Some (at_noon + 1); LastReadRequest := EmptyString |}.
Definition sample_migration (s : PtahMigrationStatus) : PtahMigration :=
  {| MName := "orders"; MNamespace := "app"; MUID := "migration-1"; MGeneration := 1; MResourceVersion := 10; MAnnotations := ∅;
     MFinalizers := []; MDeleting := false; Spec := sample_spec; Status_ := s |}.
Definition sample_plan : Plan :=
  {| PlanMeta := object_meta "app" "orders-plan" "plan-1";
     PlanSpec_ := {| PlanContractVersion := SourcePlanContractVersion; PlanMigrationRef := ("orders", "migration-1");
       PlanFingerprint_ := "plan-fingerprint"; PlanMigrations := []; PlanHistoryFingerprint := "history-3"; PlanCurrentVersion := 3;
       PlanArtifactDigest := EmptyString; PlanSource_ := (MigrationPlanSource (Some sample_artifact) (Some sample_revision) None).2;
       PlanCoordinationDigest := sample_digest; PlanTargetIdentityDigest := "sha256:target";
       PlanPolicyFingerprint := migrationPolicyFingerprint (sample_migration planned_status); PlanVerificationPolicyUID := EmptyString;
       PlanVerificationPolicyDigest := EmptyString; PlanExecutionBindingID := "v1-epoch"; PlanControllerImage := "manager";
       PlanControllerRevision := "revision"; PlanControllerStateVersion := 1; PlanPtahVersion := "1.0.0"; PlanExecutorImage := "executor";
       PlanRunnerImage := "runner"; PlanRunnerProtocolVersion := 1; PlanCreatedAt := 0 |} |}.
Definition dba : ApprovalIdentity := {| IdUsername := "dba"; IdUID := EmptyString; IdGroups := None |}.
Definition sample_approval : Approval :=
  {| ApprovalMeta := object_meta "app" "orders-approval" "approval-1";
     ApprovalSpec_ := {| OwnerRef := ("orders", "migration-1"); PlanRef := ("orders-plan", "plan-1"); PlanFingerprint := "plan-fingerprint";
                         Approver := dba; ApprovedAt := Some at_noon; MutationRequestUID := "request-1" |};
     ApprovalStale := false; ApprovalConsumed := false |}.

Definition sample_run : UnresolvedMigrationRunStatus :=
  {| RunOutcome := "Unknown"; RunOperationID := sample_digest; RunJobName := "orders-apply-0"; RunJobUID := EmptyString;
     RunPlanRef := ("orders-plan", "plan-0"); RunTargetIdentityDigest := EmptyString; RunDispatchedBy := None;
     RunRecordedAt := "2023-11-14T22:13:20Z" |}.
Definition stopped_status : PtahMigrationStatus := planned_status <| UnresolvedRun := Some sample_run |> <| MPhase := "Blocked" |> <| MPlan := None |>.
Definition sample_acknowledgment : Acknowledgment :=
  {| AckMeta := object_meta "app" "orders-ack" "ack-1";
     AckSpec := {| AckMigrationRef := ("orders", "migration-1"); AckOperationID := sample_digest; AcknowledgedBy := dba;
                   AcknowledgedAt := Some at_noon; AckMutationRequestUID := "request-2" |};
     AckStale := false; AckConsumed := false |}.

Definition sample_objects : api_objects :=
  {| cl_plan := sample_plan; cl_approvals := [sample_approval]; cl_acknowledgments := [sample_acknowledgment] |}.
Definition starts (s : PtahMigrationStatus) : world :=
  {| w_stored := sample_migration s; w_past := [s]; w_jobs := []; w_log := [] |}.
(** A whole pass, and its [n]-th call. *)
Definition a_pass (w : world) : prog ctlE (answer * PtahMigration) := reconcile sample_manager (sample_migration planned_status).
Definition passed (w : world) : world := run_crash (api_server sample_objects) 200 (a_pass w) w.
Definition nth_call (n : nat) (w : world) : option ({X & ctlE X} * world) := call_at (api_server sample_objects) n (a_pass w) w.

Definition created_job (c : option ({X & ctlE X} * world)) : option (MigrationOperationStatus * Job * world) :=
  match c with Some (existT _ (CreateJob o job), w) => Some (o, job, w) | _ => None end.
Definition wrote_status (c : option ({X & ctlE X} * world)) : option (PtahMigration * PtahMigration * world) :=
  match c with Some (existT _ (PatchStatus base after), w) => Some (base, after, w) | _ => None end.
Lemma created_job_call c o job w : created_job c = Some (o, job, w) -> c = Some (existT _ (CreateJob o job), w).
Proof. destruct c as [[[X e] w']|]; [|done]. destruct e; try done. by intros [= -> -> ->]. Qed.
Lemma wrote_status_call c base after w : wrote_status c = Some (base, after, w) -> c = Some (existT _ (PatchStatus base after), w).
Proof. destruct c as [[[X e] w']|]; [|done]. destruct e; try done. by intros [= -> -> ->]. Qed.
