(* ===== verification/MigrationTheorems.v ===== *)
(** * The life of a PtahMigration

    A resource starts without a claim; passes of the controller follow each
    other, each from any memory, each stopped after any of its calls, while
    others change the resource. The theorems say what holds of every stored
    state, of every Job created and of every status written over that life. *)
From stdpp Require Import base list gmap strings.
From Stdlib Require Import ZArith Lia Ascii.
From S2P Require Import Prelude Effects GoStrings Sha256 Json Fingerprint TargetLock MutationLifecycle PlanStore KubeMeta.
From S2P Require Import SourceContent SourceSnapshot SourceBinding SourcePolicy MigrationStatus MigrationPlan.
From S2P Require Import ResultRetention ApprovalAdmission Cadence RealmCensus DispatchDriver MigrationTypes.
From S2P Require Import MigrationClaims MigrationApply MigrationRuns MigrationResults MigrationDispatch.
From S2P Require Import MigrationReconcile MigrationWorld MigrationProofs MigrationSafety MigrationLifetime MigrationSample.
From S2P Require Import Prelude.
Local Open Scope go_scope.
Local Open Scope ctl_scope.
Local Open Scope Z_scope.
#[local] Opaque sha256 hex_encode.

(** ** A life *)

Inductive lifetime (r : Manager) : world -> Prop :=
| life_start w :
    ActiveOperation (Status_ (w_stored w)) = None -> w_jobs w = [] -> Status_ (w_stored w) ∈ w_past w -> lifetime r w
| life_pass m0 w w' : lifetime r w -> exec_prefix step (reconcile r m0) w w' -> lifetime r w'
| life_other w stored : lifetime r w -> interfere (w_stored w) stored -> lifetime r (w <| w_stored := stored |>).

(** Some pass of a life makes the call [e] in the world [w]. *)
Definition performs (r : Manager) {X} (e : ctlE X) (w : world) : Prop :=
  exists m0 w0, lifetime r w0 /\ makes step (reconcile r m0) w0 e w.

Section life.
Context (r : Manager) (decodes : DecodesCopies r).

Lemma reconcile_wp m0 w : sound r w -> wp (ctl_spec r) (reconcile r m0) (fun _ _ => True) w.
Proof. apply (wpm_reconcile r decodes). Qed.

Lemma lifetime_sound w : lifetime r w -> sound r w.
Proof.
  induction 1 as [w Ha Hj Hp|m0 w w' _ IH Hex|w stored _ IH Hi].
  - split; [intros o; congruence|intros id Hid; rewrite Hj in Hid; by apply elem_of_nil in Hid|done].
  - eapply (wp_exec_prefix (ctl_spec r) step (sound r)); [|exact Hex|exact IH|by apply reconcile_wp].
    intros X e s x s' Hs Hpre Hx. split; [exact (step_keeps r X e s x s' Hs Hpre Hx)|exact Hx].
  - by apply sound_interfere.
Qed.

Lemma performs_requires {X} (e : ctlE X) w : performs r e w -> requires r X e w.
Proof.
  intros (m0 & w0 & Hl & Hm). apply (wp_makes (ctl_spec r) (reconcile r m0) (fun _ _ => True) w0); [|exact Hm].
  by apply reconcile_wp, lifetime_sound.
Qed.
End life.

(** ** What admits an Apply *)

(** The plan was computed from the history, the source, the execution binding
    and the policy the resource shows. *)
Definition plan_fits (m : PtahMigration) (plan : Plan) : Prop :=
  let spec := PlanSpec_ plan in let s := Status_ m in
  exists binding history artifact, MExecutionBinding s = Some binding /\ History s = Some history /\ MArtifact s = Some artifact /\
    PlanHistoryFingerprint spec = HistoryFingerprint_ history /\ PlanTargetIdentityDigest spec = HistoryTargetIdentityDigest history /\
    PlanArtifactDigest spec = (MigrationPlanSource (Some artifact) (MConfigMap s) (MSourcePolicy s)).1 /\
    Equal (PlanSource_ spec) (MigrationPlanSource (Some artifact) (MConfigMap s) (MSourcePolicy s)).2 = true /\
    PlanExecutionBindingID spec = BindingEpoch binding /\ PlanPtahVersion spec = BindingPtahVersion binding /\
    PlanExecutorImage spec = BindingExecutorImage binding /\ PlanPolicyFingerprint spec = migrationPolicyFingerprint m.

(** The approval is of this resource, this plan and its fingerprint, was
    stamped at admission and still stands. *)
Definition approves (m : PtahMigration) (plan : Plan) (approval : Approval) : Prop :=
  let spec := ApprovalSpec_ approval in
  (OwnerRef spec).2 = MUID m /\ (PlanRef spec).2 = MetaUID (PlanMeta plan) /\ PlanFingerprint spec = PlanFingerprint_ (PlanSpec_ plan) /\
  blank (PlanFingerprint spec) = false /\ blank (IdUsername (Approver spec)) = false /\ blank (MutationRequestUID spec) = false /\
  DeletionTimestamp (ApprovalMeta approval) = None /\ ApprovalStale approval = false /\ ApprovalConsumed approval = false.

Definition apply_admitted (w : world) (base : PtahMigration) (o : MigrationOperationStatus) : Prop :=
  ActiveOperation (Status_ base) = None /\ UnresolvedRun (Status_ base) = None /\ marked o = false /\
  exists name plan, seen (GetPlan name) (Ok plan) (w_log w) /\
    MPlan (Status_ base) = Some (name, MetaUID (PlanMeta plan)) /\ OpPlanRef o = Some (MetaName (PlanMeta plan), MetaUID (PlanMeta plan)) /\
    OpPlanFingerprint o = PlanFingerprint_ (PlanSpec_ plan) /\ plan_fits base plan /\
    ((PolicyApply (Spec base) = "Always" /\ ApprovalRef o = None) \/
     (PolicyApply (Spec base) <> "Never" /\
      exists items approval, seen ListApprovals (Ok items) (w_log w) /\ approval ∈ items /\ approves base plan approval /\
        ApprovalRef o = Some (MetaName (ApprovalMeta approval), MetaUID (ApprovalMeta approval)))).

Lemma plan_current_fits m plan : plan_current m plan = Ok tt -> plan_fits m plan.
Proof.
  unfold plan_current, plan_fits. intros H. destruct (SupportedContractVersion _); [|done].
  destruct (MExecutionBinding _) as [binding|]; [|done]. destruct (History _) as [history|]; [|done]. destruct (MArtifact _) as [artifact|]; [|done].
  exists binding, history, artifact. do 3 (split; [done|]). destruct (MigrationPlanSource _ _ _) as [digest source].
  unfold SamePlanSource in H. follow H. bool_prop. done.
Qed.

Lemma authorizes_approves m plan approval : authorizes m plan approval = true -> approves m plan approval.
Proof.
  unfold authorizes, approves. intros H. apply negb_true_iff in H. repeat (apply orb_false_iff in H as [H ?]).
  repeat match goal with E : negb (bool_decide _) = false |- _ => apply negb_false_iff, bool_decide_eq_true in E end. done.
Qed.

Lemma authorized_admitted w base o : authorized w base o -> apply_admitted w base o.
Proof.
  intros (Ha & Hu & Hk & name & plan & Hs & Hp & Hr & Hf & Hc & Hby). split; [done|]. split; [done|]. split; [done|]. exists name, plan.
  do 4 (split; [done|]). split; [by apply plan_current_fits|]. destruct Hby as [?|(Hn & items & a & Hl & Hi & Hau & Hra)]; [by left|right].
  split; [done|]. exists items, a. split; [done|]. split; [done|]. split; [by apply authorizes_approves|done].
Qed.

(** ** Lives of the sample *)

Definition first_world : world := starts planned_status.
Definition claimed_world : world := passed first_world.
Definition leased_world : world := passed claimed_world.
Definition pinned_world : world := passed leased_world.
Definition dispatched_world : world := passed pinned_world.
Definition stopped_world : world := starts stopped_status.

Lemma starts_alive s : ActiveOperation s = None -> lifetime sample_manager (starts s).
Proof. intros Hs. apply life_start; [exact Hs|done|by left]. Qed.
Lemma passed_alive w : lifetime sample_manager w -> lifetime sample_manager (passed w).
Proof.
  intros Hl. eapply life_pass; [exact Hl|]. eapply (exec_prefix_mono (deterministic (api_server sample_objects))); [apply api_step|].
  apply run_crash_prefix.
Qed.
Lemma nth_call_performs {X} n (e : ctlE X) w w1 :
  lifetime sample_manager w -> nth_call n w = Some (existT X e, w1) -> performs sample_manager e w1.
Proof.
  intros Hl Hc. eexists _, w. split; [exact Hl|]. eapply (call_at_makes (api_server sample_objects)); [apply api_step|exact Hc].
Qed.
Lemma pinned_alive : lifetime sample_manager pinned_world.
Proof. by do 3 apply passed_alive; apply starts_alive. Qed.

(** ** The theorems *)

(** C1: Every Apply a Job may exist for is accounted for. At every moment of
    the life of a PtahMigration, through any number of passes of the
    controller, each stopped after any call, with writes whose answers are
    lost and changes of others in between: an operation an Apply Job may have
    been stored for is the claim in the status, marked as dispatched, or some
    stored status recorded its run with an outcome that leaves nothing open or
    as a run nobody accounted for. And a run nobody accounted for never stands
    beside the claim of another Apply. *)
Theorem dispatched_apply_accounted (r : Manager) (w : world) :
  DecodesCopies r -> lifetime r w ->
  (forall id, id ∈ w_jobs w ->
     (exists o, ActiveOperation (Status_ (w_stored w)) = Some o /\ OpID o = id /\ mutates o = true /\ marked o = true) \/
     (exists s, s ∈ w_past w /\ accounts s id)) /\
  (forall o run, ActiveOperation (Status_ (w_stored w)) = Some o -> mutates o = true -> UnresolvedRun (Status_ (w_stored w)) = Some run ->
     RunOperationID run = OpID o).
Proof.
  intros Hd Hl. destruct (lifetime_sound r Hd w Hl) as [Hc Hv _]. split; [exact Hv|].
  intros o run Ho Hm Hr. destruct (Hc o Ho) as [_ H]. specialize (H Hm). by rewrite Hr in H.
Qed.

(** Four passes claim an Apply, take the realm, pin the admission snapshot and
    create the Job. *)
Lemma dispatched_facts :
  match w_jobs dispatched_world with [_] => true | _ => false end = true /\
  forallb (fun s => bool_decide (LastRun s = None) && bool_decide (UnresolvedRun s = None)) (w_past dispatched_world) = true.
Proof. split; vm_compute; reflexivity. Qed.
#[local] Opaque passed starts nth_call.

Lemma dispatched_apply_accounted_witness :
  exists id, id ∈ w_jobs dispatched_world /\
    exists o, ActiveOperation (Status_ (w_stored dispatched_world)) = Some o /\ OpID o = id /\ marked o = true.
Proof.
  destruct dispatched_facts as [Hj Hp].
  assert (Hid : exists id, id ∈ w_jobs dispatched_world).
  { destruct (w_jobs dispatched_world) as [|id rest]; [discriminate Hj|]. exists id. by left. }
  destruct Hid as [id Hid]. exists id. split; [exact Hid|].
  destruct (dispatched_apply_accounted sample_manager dispatched_world sample_decodes (passed_alive _ pinned_alive)) as [Hall _].
  clear Hj. revert Hall Hp Hid. generalize dispatched_world. intros w Hall Hp Hid.
  destruct (Hall id Hid) as [(o & Ho & Hi & _ & Hk)|(s & Hs & Ha)]; [by exists o|].
  exfalso. rewrite forallb_forall in Hp. apply list_elem_of_In in Hs. specialize (Hp s Hs). bool_prop.
  destruct Ha as [(run & Hr & _)|(run & Hr & _)]; congruence.
Defined.

(** C2: An Apply Job is created only for the claim that stands, once, under the
    lock. Whenever a pass of a life creates the Job of an Apply: the status
    stored at that moment claims exactly this operation and marks it as
    dispatched, no run waits to be accounted for, an earlier Job of the same
    operation is accounted for in a stored status, the Job has the claimed
    name, and the pass has itself renewed the Lease of the claim's realm for
    this operation, replacing exactly the record it had read under the epoch
    of the claim, and read the approval the claim names and spent it. *)
Theorem apply_jobs_guarded (r : Manager) (o : MigrationOperationStatus) (job : Job) (w : world) :
  DecodesCopies r -> performs r (CreateJob o job) w -> mutates o = true ->
  ActiveOperation (Status_ (w_stored w)) = Some o /\ marked o = true /\ UnresolvedRun (Status_ (w_stored w)) = None /\
  (OpID o ∈ w_jobs w -> exists s, s ∈ w_past w /\ accounts s (OpID o)) /\
  MetaName (JobMeta job) = JobName o /\ holds_realm r (MUID (w_stored w)) o (w_log w) /\ spends_approval o (w_log w).
Proof.
  intros Hd Hp Hm. destruct (performs_requires r Hd _ _ Hp) as (Ho & Hn & Hreq). destruct (Hreq Hm) as (Hu & Hk & Ha & Hl & Hs). done.
Qed.

Lemma pinned_facts : match created_job (nth_call 19 pinned_world) with Some (o, _, _) => mutates o | None => false end = true.
Proof. vm_compute. reflexivity. Qed.
Lemma apply_jobs_guarded_witness :
  exists o job w, performs sample_manager (CreateJob o job) w /\ mutates o = true /\
    holds_realm sample_manager (MUID (w_stored w)) o (w_log w) /\ spends_approval o (w_log w).
Proof.
  pose proof pinned_facts as Hm. destruct (created_job (nth_call 19 pinned_world)) as [[[o job] w]|] eqn:Hc; [|discriminate Hm].
  apply created_job_call, (nth_call_performs 19 _ pinned_world w pinned_alive) in Hc. exists o, job, w. split; [exact Hc|]. split; [exact Hm|].
  destruct (apply_jobs_guarded sample_manager o job w sample_decodes Hc Hm) as (_ & _ & _ & _ & _ & Hl & Hs). split; [exact Hl|exact Hs].
Defined.

(** C3: No status write loses a run. Whenever a pass of a life writes the
    status over [base]: what it replaces is the stored status; an Apply that
    is marked as dispatched stays claimed and marked, or is accounted for in
    what is written (the mark is withdrawn only while no Job of it can exist
    unaccounted for); and the record of a run nobody accounted for is kept for
    the same operation, or settled as that operation by a reading of the
    history that left nothing to do, or by an acknowledgment a person made of
    that operation and of this resource. *)
Theorem status_writes_keep_runs (r : Manager) (base after : PtahMigration) (w : world) :
  DecodesCopies r -> performs r (PatchStatus base after) w ->
  Status_ base = Status_ (w_stored w) /\ keeps_dispatched w (Status_ base) (Status_ after) /\ keeps_unresolved w base after.
Proof. intros Hd Hp. destruct (performs_requires r Hd _ _ Hp) as (Hb & _ & _ & [? ? _]). done. Qed.

(** An acknowledgment settles the run of the sample. *)
Lemma stopped_facts :
  match wrote_status (nth_call 5 stopped_world) with
  | Some (base, after, _) => bool_decide (UnresolvedRun (Status_ base) = Some sample_run) && bool_decide (UnresolvedRun (Status_ after) = None)
  | None => false
  end = true.
Proof. vm_compute. reflexivity. Qed.
Lemma stopped_alive : lifetime sample_manager stopped_world.
Proof. by apply starts_alive. Qed.
Lemma status_writes_keep_runs_witness :
  exists base after w, performs sample_manager (PatchStatus base after) w /\ UnresolvedRun (Status_ base) = Some sample_run /\
    exists resolved, ResolvedRun (Status_ after) = Some resolved /\ ResolvedOperationID resolved = RunOperationID sample_run.
Proof.
  pose proof stopped_facts as Hm. destruct (wrote_status (nth_call 5 stopped_world)) as [[[base after] w]|] eqn:Hc; [|discriminate Hm].
  apply wrote_status_call, (nth_call_performs 5 _ stopped_world w stopped_alive) in Hc. apply andb_true_iff in Hm as [Hb Ha].
  apply bool_decide_eq_true in Hb, Ha. exists base, after, w. split; [exact Hc|]. split; [exact Hb|].
  destruct (status_writes_keep_runs sample_manager base after w sample_decodes Hc) as (_ & _ & Hk).
  destruct (Hk _ Hb) as [(run' & Hr & _)|(_ & resolved & Hr & Hi & _)]; [congruence|by exists resolved].
Defined.

(** C4: An Apply is claimed only for the plan a person or the policy admits.
    Whenever a pass of a life writes a status that claims an Apply the stored
    status does not claim: nothing else is claimed, no run waits to be
    accounted for, nothing was dispatched under the claim, and the claim
    carries out the plan that was read under the name and UID the status
    publishes and that is current for the spec and the status, either because
    the policy applies always, or because an approval that was listed, that
    names this resource, this plan and its fingerprint, was stamped at
    admission, and is neither stale, consumed nor being deleted, authorizes
    it, and the claim names that approval. *)
Theorem applies_authorized (r : Manager) (base after : PtahMigration) (w : world) (o : MigrationOperationStatus) :
  DecodesCopies r -> performs r (PatchStatus base after) w -> ActiveOperation (Status_ after) = Some o -> mutates o = true ->
  (exists o0, ActiveOperation (Status_ (w_stored w)) = Some o0 /\ OpID o0 = OpID o /\ mutates o0 = true) \/ apply_admitted w base o.
Proof.
  intros Hd Hp Ho Hm. destruct (performs_requires r Hd _ _ Hp) as (Hb & _ & _ & [_ _ Hbirth]). rewrite <- Hb.
  destruct (Hbirth o Ho Hm) as [?|?]; [by left|right; by apply authorized_admitted].
Qed.

Lemma first_alive : lifetime sample_manager first_world.
Proof. by apply starts_alive. Qed.
Lemma first_facts :
  match wrote_status (nth_call 16 first_world) with
  | Some (base, after, w) => bool_decide (ActiveOperation (Status_ (w_stored w)) = None) && mutating (ActiveOperation (Status_ after))
  | None => false
  end = true.
Proof. vm_compute. reflexivity. Qed.
Lemma applies_authorized_witness :
  exists base after w o, performs sample_manager (PatchStatus base after) w /\ ActiveOperation (Status_ after) = Some o /\ apply_admitted w base o.
Proof.
  pose proof first_facts as Hm. destruct (wrote_status (nth_call 16 first_world)) as [[[base after] w]|] eqn:Hc; [|discriminate Hm].
  apply wrote_status_call, (nth_call_performs 16 _ first_world w first_alive) in Hc. apply andb_true_iff in Hm as [Hb Hm].
  apply bool_decide_eq_true in Hb. destruct (ActiveOperation (Status_ after)) as [o|] eqn:Ho; [|discriminate Hm].
  exists base, after, w, o. split; [exact Hc|]. split; [exact Ho|].
  destruct (applies_authorized sample_manager base after w o sample_decodes Hc Ho Hm) as [(o0 & Ho0 & _)|H]; [congruence|exact H].
Defined.
